(* ===== verification/_CoqProject ===== *)
-Q . S2P
Prelude.v
SegTree.v
SimpleQueue.v
PriorityQueue.v
Hashtable.v
Spinlock.v
ThreadState.v
Mutex.v
Pm.v
Vm.v
FramePoolPm.v
VmProofs.v
MallocWrappers.v
Message.v
ControlBlock.v
Lifecycle.v
Scheduler.v
ContextSwitch.v
Console.v
Keyboard.v
ConsoleIO.v
KeyHelp.v
Manager.v
ThrMgmt.v
AddrSpace.v
Lmm.v
LmmProofs.v
LmmHeap.v
LmmMalloc.v
KernelHeapSafe.v
Loader.v
Elf.v
SysState.v
Exec.v
Syscalls.v
Swexn.v
Timer.v
Idt.v
Format.v
TrapFrame.v
Exceptions.v
Boot.v
VmSpace.v
UserQueue.v
UserHash.v
UserMutex.v
UserAlloc.v
UserCond.v
UserSync.v
ThrStacks.v
ThrLib.v
