(* ===== verification/Prelude.v ===== *)
(** * A verification of the Pebbles AMP kernel (src/kern) and its thread library (src/user)

    ** The program

    The program is an asymmetric multiprocessing kernel for x86.  Core 0, the
    manager, owns the console, the keyboard and the table of tasks; every other
    core, a worker, runs user threads.  A worker's system call either does its
    work locally (memory, scheduling, sleeping) or writes a request into the
    message of its thread, sends it to the manager and gives up the processor;
    the manager answers by sending the message, and with it the thread, to a
    worker.  Physical memory is split into frames, handed out from one segment
    tree per core, under a count of frames that are promised but not yet used;
    the kernel's own heap is one free list per core.
    The user thread library builds mutexes, condition variables, semaphores,
    readers/writer locks and threads on the kernel's deschedule, make_runnable
    and thread_fork.

    ** Files

    Each file models one component; its header says how state and operations
    correspond to the code.  The files, from the bottom up:

    - Prelude.v: outcomes, the state and error monad, 32-bit arithmetic and bit
      operations, finite arrays, linked chains in a heap, the tactics and hints
      the other files share.
    - SegTree.v (seg_tree.c): the segment tree of free frames, shown to be a set
      from which the least member is taken.
    - SimpleQueue.v (simple_queue.c), PriorityQueue.v (priority_queue.c),
      Hashtable.v (hashtable.c): linked structures on a heap of nodes, shown to
      implement the lists [QSpec], sorted lists [PQSpec] and finite maps that
      all other components use in their place.
    - Spinlock.v (spinlock.c): a step relation with one step per memory access
      of two cores: mutual exclusion and bounded waiting.
    - ThreadState.v, Mutex.v (mutex.c): the blocking mutex; sequential runs, and
      a step relation of any number of threads with the wake-up protocol of the
      context switcher: mutual exclusion and no lost wake-up.
    - Pm.v (pm.c) over an interface [FrameAlloc] of frame allocators, which the
      segment tree meets; the reservations keep their promise.
    - Vm.v, VmProofs.v (vm.c): page directories, page tables and frames as words
      of physical memory; new_pages and remove_pages and their round trip, the
      zero-fill pages, the validity check of user memory, cloning and freeing an
      address space.
    - MallocWrappers.v (malloc_wrappers.c): the locked allocator.
    - Lmm.v, LmmProofs.v, LmmHeap.v (410kern/lmm): the list memory manager, whose
      free blocks are linked in the free memory itself, shown to be a set of free
      bytes; LmmMalloc.v (410kern/malloc, dist_kernel_mem of vm.c): malloc over one
      such list per core; KernelHeapSafe.v: chunks in use stay apart, whatever
      sequence of requests the cores make, and how the heaps are set up.
    - Message.v (smp_message.c): the queues between the cores, shown to be FIFO
      channels ([ChanSpec]) which the manager polls fairly.
    - ControlBlock.v (control_block.c), Scheduler.v (scheduler.c),
      ContextSwitch.v (context_switcher.c): control blocks at the top of kernel
      stacks, the ready queue, and every operation of the context switcher, with
      the invariant [core_ok] of a core; round robin is fair, also when threads that
      the manager has answered cut in.
    - Lifecycle.v (smp_syscall_lifecycle.c): fork, wait and vanish on the
      manager, refined to an abstract table of families ([LifeSpec]) in which no exit
      status is lost.
    - Console.v (console_driver.c), Keyboard.v (keyboard_driver.c), ConsoleIO.v
      (smp_syscall_consoleio.c): the terminal ([TermSpec]) and the line
      discipline ([LineSpec]) that readline and the keyboard interrupt implement
      together; KeyHelp.v (410kern/x86/keyhelp.c): the decoder of scancodes, shown to
      type what the keyboard's layout says.
    - Manager.v (smp_manager_scheduler.c, smp_syscall_thr_management.c,
      smp_syscall_misc.c): boot, the dispatch of messages, and the tour of a
      make_runnable request through the cores.
    - ThrMgmt.v (syscall_thr_management.c, the sleep queue of timer_driver.c):
      sleep, deschedule, make_runnable and yield on a worker; Swexn.v: swexn, on
      the caller's memory.
    - AddrSpace.v: the interface of an address space that the loader and the
      system calls use; Loader.v (loader.c) builds a program's segments and first
      stack, from what Elf.v (410kern/elf/load_helper.c) reads in its file; SysState.v
      puts the kernel and the address spaces together; Exec.v (exec of
      syscall_lifecycle.c) and Syscalls.v (the other handlers of syscall_lifecycle.c,
      syscall_consoleio.c, syscall_memory.c and syscall_misc.c) are the system calls
      of a worker, up to the answer of the manager.
    - Timer.v (timer_driver.c): the PIC and the local APIC timers, the latter with
      a model of the device; the calibration makes the APIC interrupt at the rate
      of the PIC.
    - Idt.v (init_IDT.c): the gates, as bytes, decoded by the processor's rules; all
      lead to the wrapper they should but that of the undefined opcode.
    - Format.v, TrapFrame.v (handler_wrapper.S, asm_helper.S, asm_ret_newureg.S,
      asm_ret_swexn_handler.S), Exceptions.v (exception_handler.c): what an
      exception saves and what its wrapper restores, how a handler of the user is
      entered or the thread killed, and that every text fits its buffer.
    - Boot.v (kernel.c, ap_kernel.c and the end of loader.c): both entry points,
      the first task of a core and the init task; a worker core boots.
    - VmSpace.v: the interfaces of the loader, of the checks of user memory and of
      the zero-fill pages, discharged from vm.c.
    - UserQueue.v (libthread/queue.c), UserMutex.v (mutex.c), UserCond.v
      (cond_var.c), UserSync.v (sem.c, rwlock.c): the queues, and step relations
      of any number of threads for the synchronisation of the thread library;
      UserHash.v (libthread/hashtable.c): the hash table, used by any number of
      threads at once.
    - ThrStacks.v (thr_lib_helper.c, autostack.c), ThrLib.v (arraytcb.c,
      thr_lib.c): the stacks of the threads of a task, and creating, joining and
      ending them; UserAlloc.v (malloc.c, the root frame of thr_lib_helper.c): the
      allocator's lock, and how main is made to exit its thread.

    ** Interfaces

    A component that is used by another one is a type class with its laws:
    [FrameAlloc] (Pm.v, met by SegTree.v), [FramePool] and [KernelHeap] (Vm.v,
    met by FramePoolPm.v), [RawAlloc] (MallocWrappers.v, met by LmmMalloc.v), [AddrSpace], [UserCheck]
    and [ZeroFill] (met by VmSpace.v from vm.c), [PageDirs] (Exec.v) and
    [UserPages] (ThrStacks.v).  The laws of the last two are assumed of the kernel:
    they are met by plain memories and sets of pages, but not derived from vm.c, as a
    state of Vm.v holds the tables of one address space.  Only [exec_correct], on
    the whole of exec, uses the laws of [PageDirs]; [vm_exec_args_correct], on the
    arguments of exec, is about the tables of vm.c.

    ** How code becomes definitions

    A C function is a definition of the same name in the monad [M S] of its
    component's state [S]; a loop is a [Fixpoint] named after the function.
    Pointers are integers, with 0 for NULL; memory is a finite map from
    addresses to records, so that sharing through pointers is kept.  Machine
    integers are [Z], wrapped by [w32] and [s32] where the code computes with
    them.  A routine ends in [Ok], in [Panic] (a call to panic()), in [Fault]
    (an access C leaves undefined), in [Blocks] (the caller has to give up the
    processor, or spins for ever) or in [NoFuel].  Results of the allocator are
    a sequence of addresses in the state, any of which may be NULL.

    A handler that suspends its thread is cut at that point; what the thread
    does when it runs again is a definition of its own.

    ** Bounds and fuel

    Fuel is only used for loops that are not structural in the code: walks
    through linked structures and the segment tree, and polling loops.  Every
    theorem about such a loop states a result, hence that the fuel it names is
    enough: the length of a chain for the walks, the depth of the tree for its
    updates, the number of worker cores for the polling loop, the number of
    buffered scan codes for the keyboard, one step for every eight bytes of a
    region for the lists of free blocks ([ample]).

    ** What the theorems show

    - Data structures implement their specifications: the segment tree, the
      queues and tables, the message channels.
    - Memory: an address space keeps its invariant; remove_pages undoes new_pages to
      the last entry; frames that have been promised are there when they are needed,
      but for the page of the local APIC, which is counted and never handed out; what
      the validity check answers, fills and panics at is read off the page tables.
    - The kernel's heap: giving a block back restores the free list, the chunks of
      all cores are disjoint and keep their bytes, and every legal request ends.
    - Locks: mutual exclusion, bounded waiting and no lost wake-up, in the kernel
      and in the thread library.
    - Threads and tasks: control blocks are well formed; a ready thread runs after as
      many switches as there are threads ahead of it and messages in between; a sleeper
      is never early, and late by at most a tick for each sleeper that goes first; exit
      statuses are handed over and none is lost; creating a thread, on every branch; of
      all the calls of thr_join for a thread one gets its status, which need not be the
      one that waited ([join_race]).
    - User and kernel: a trap keeps the registers, but for four exceptions whose
      wrappers drop a word too many; swexn accepts only registers of user level; the
      arguments of exec are taken if and only if they are good, and the loader starts a
      program from the bytes of its ELF file on the stack the C start-up code expects;
      a print reaches the console and its caller is answered; the characters read are
      those of the keys pressed; a thread whose exception is not handled ends.
    - Boot: gates, timers and a worker core are set up as the rest assumes.

    Where the code falls short of its intention, the theorem states what it does:
    such theorems are named after the defect (for instance
    [check_mem_two_zfod_pages_panics]).

    ** Not modelled

    - Library code of 410kern and 410user that is not named above is a parameter
      where a component calls it (smp_init, the user's allocator), or left out: printf,
      the start-up of the processors, and the boot code that fills the first pool of
      memory.  In Vm.v, ControlBlock.v and the message layer the kernel's heap is a
      sequence of answers or the interface [KernelHeap], which has no bound on its
      addresses; KernelHeapSafe.v says what the real heap promises.  tss_desc_create of
      smp_glue.c only panics.
    - The interrupt flag: a definition is a routine that runs with interrupts
      disabled or under its lock, or a step of a step relation.
    - In the thread library: panic, and freeing the table of threads, which nothing
      calls.
    - User programs and tests. *)

From Stdlib Require Import ZArith Lia.
From stdpp Require Import base gmap list sets tactics numbers.

#[global] Open Scope Z_scope.

(** ** Outcomes

    A kernel routine either returns a value, calls [panic()], performs an
    access whose behaviour C leaves undefined ([Fault]: a NULL dereference or
    an access outside an allocated object), or, for a loop whose recursion is
    not structural, exhausts the fuel of its model ([NoFuel]; every theorem
    that states a result shows that this does not happen).  [Blocks] is the
    outcome of a sequential run in which the calling thread has to give up the
    processor (a contended mutex); such runs are the subject of the step
    relations of Spinlock.v and Mutex.v. *)

Inductive res (A : Type) : Type :=
| Ok (a : A)
| Panic
| Fault
| Blocks
| NoFuel.
Arguments Ok {A} a.
Arguments Panic {A}.
Arguments Fault {A}.
Arguments Blocks {A}.
Arguments NoFuel {A}.

(** ** The state and error monad of the sequential routines *)

Definition M (S A : Type) : Type := S -> res (A * S).

#[global] Instance M_ret S : MRet (M S) := fun A a s => Ok (a, s).
#[global] Instance M_bind S : MBind (M S) := fun A B f m s =>
  match m s with
  | Ok (a, s') => f a s'
  | Panic => Panic
  | Fault => Fault
  | Blocks => Blocks
  | NoFuel => NoFuel
  end.

Section monad.
Context {S : Type}.

Definition get : M S S := fun s => Ok (s, s).
Definition gets {A} (f : S -> A) : M S A := fun s => Ok (f s, s).
Definition modify (f : S -> S) : M S unit := fun s => Ok (tt, f s).
Definition panic {A} : M S A := fun _ => Panic.
Definition fault {A} : M S A := fun _ => Fault.
Definition blocks {A} : M S A := fun _ => Blocks.
Definition nofuel {A} : M S A := fun _ => NoFuel.

(** Reading through a pointer or an index: [Fault] when it is not there. *)
Definition deref {A} (o : option A) : M S A := fun s =>
  match o with Some a => Ok (a, s) | None => Fault end.

Definition when (b : bool) (m : M S unit) : M S unit :=
  if b then m else mret tt.
End monad.

(** Running a routine of a sub-component on the part of the state it owns. *)
Definition zoom {S T A} (getT : S -> T) (setT : T -> S -> S) (m : M T A) : M S A :=
  fun s => match m (getT s) with
           | Ok (a, t) => Ok (a, setT t s)
           | Panic => Panic
           | Fault => Fault
           | Blocks => Blocks
           | NoFuel => NoFuel
           end.

(** The value a run returns, if it returns. *)
Definition outcome {A S} (r : res (A * S)) : option A :=
  match r with Ok (a, _) => Some a | _ => None end.

Lemma bind_ok {S A B} (m : M S A) (f : A -> M S B) s a s' :
  m s = Ok (a, s') -> (m ≫= f) s = f a s'.
Proof. intros H. unfold mbind, M_bind. by rewrite H. Qed.

Lemma zoom_ok {S T A} (getT : S -> T) (setT : T -> S -> S) (m : M T A) s a t :
  m (getT s) = Ok (a, t) -> zoom getT setT m s = Ok (a, setT t s).
Proof. intros H. unfold zoom. by rewrite H. Qed.

Lemma bind_inv {S A B} (m : M S A) (f : A -> M S B) s b s'' :
  (m ≫= f) s = Ok (b, s'') ->
  exists a s', m s = Ok (a, s') /\ f a s' = Ok (b, s'').
Proof. unfold mbind, M_bind. destruct (m s) as [[a s']| | | |]; naive_solver. Qed.

(** ** Machine integers

    A [uint32_t] is an integer in [0, 2^32); arithmetic on it is followed by
    [w32].  A value of type [int] is an integer in [-2^31, 2^31), obtained
    from a word by [s32]. *)

Definition w32 (x : Z) : Z := x mod 2 ^ 32.
Definition s32 (x : Z) : Z :=
  let u := x mod 2 ^ 32 in if u <? 2 ^ 31 then u else u - 2 ^ 32.
Definition is_u32 (x : Z) : Prop := 0 <= x < 2 ^ 32.

Lemma w32_small x : 0 <= x < 2 ^ 32 -> w32 x = x.
Proof. apply Z.mod_small. Qed.

Lemma w32_range x : 0 <= w32 x < 2 ^ 32.
Proof. apply Z.mod_pos_bound. lia. Qed.

Lemma s32_small x : - 2 ^ 31 <= x < 2 ^ 31 -> s32 x = x.
Proof.
  intros H. unfold s32. destruct (Z.leb_spec 0 x).
  - rewrite Z.mod_small by lia. destruct (Z.ltb_spec x (2 ^ 31)); lia.
  - replace (x mod 2 ^ 32) with (x + 2 ^ 32).
    + destruct (Z.ltb_spec (x + 2 ^ 32) (2 ^ 31)); lia.
    + apply (Z.mod_unique x (2 ^ 32) (-1)); lia.
Qed.

Lemma s32_range x : - 2 ^ 31 <= s32 x < 2 ^ 31.
Proof.
  unfold s32. pose proof (Z.mod_pos_bound x (2 ^ 32) ltac:(lia)).
  destruct (Z.ltb_spec (x mod 2 ^ 32) (2 ^ 31)); lia.
Qed.

(** ** Single bits of a word *)

Definition set_bit (a n : Z) : Z := Z.lor a (Z.shiftl 1 n).
Definition clr_bit (a n : Z) : Z := Z.land a (2 ^ 32 - 1 - Z.shiftl 1 n).

Lemma u32_testbit_high x j : 0 <= x < 2 ^ 32 -> 32 <= j -> Z.testbit x j = false.
Proof.
  intros Hx Hj. destruct (decide (x = 0)) as [->|]; [apply Z.testbit_0_l|].
  apply Z.bits_above_log2; [lia|]. apply Z.log2_lt_pow2; [lia|].
  apply Z.lt_le_trans with (2 ^ 32); [lia|]. apply Z.pow_le_mono_r; lia.
Qed.

Lemma u32_of_bits x : 0 <= x -> (forall j, 32 <= j -> Z.testbit x j = false) -> 0 <= x < 2 ^ 32.
Proof.
  intros Hx Hb. split; [done|]. replace x with (x mod 2 ^ 32); [apply w32_range|].
  apply Z.bits_inj'. intros j Hj. destruct (Z.lt_ge_cases j 32).
  - by rewrite Z.mod_pow2_bits_low.
  - rewrite Z.mod_pow2_bits_high by lia. by rewrite Hb.
Qed.

Lemma set_bit_testbit a n j : 0 <= n -> 0 <= j ->
  Z.testbit (set_bit a n) j = Z.testbit a j || (j =? n).
Proof.
  intros Hn Hj. unfold set_bit. rewrite Z.lor_spec, Z.shiftl_spec by done. f_equal.
  destruct (Z.eqb_spec j n) as [->|].
  - by rewrite Z.sub_diag.
  - destruct (Z.lt_ge_cases j n); [apply Z.testbit_neg_r; lia|].
    apply (Z.pow2_bits_false 0). lia.
Qed.

Lemma clr_bit_testbit a n j : 0 <= n < 32 -> 0 <= j < 32 ->
  Z.testbit (clr_bit a n) j = Z.testbit a j && negb (j =? n).
Proof.
  intros Hn Hj. unfold clr_bit. rewrite Z.land_spec. f_equal.
  change (2 ^ 32 - 1) with (Z.ones 32). rewrite Z.shiftl_1_l.
  rewrite Z.sub_nocarry_ldiff.
  - rewrite Z.ldiff_spec, Z.ones_spec_low, Z.pow2_bits_eqb by lia. by rewrite Z.eqb_sym.
  - apply Z.bits_inj'. intros k Hk. rewrite Z.ldiff_spec, Z.testbit_0_l, Z.pow2_bits_eqb by lia.
    destruct (Z.eqb_spec n k) as [->|]; [|done]. by rewrite Z.ones_spec_low.
Qed.

Lemma set_bit_range a n : 0 <= a < 2 ^ 32 -> 0 <= n < 32 -> 0 <= set_bit a n < 2 ^ 32.
Proof.
  intros Ha Hn. apply u32_of_bits.
  - unfold set_bit. apply Z.lor_nonneg. split; [lia|]. apply Z.shiftl_nonneg. lia.
  - intros j Hj. rewrite set_bit_testbit by lia. rewrite (u32_testbit_high a) by lia.
    destruct (Z.eqb_spec j n); [lia|done].
Qed.

Lemma clr_bit_range a n : 0 <= a < 2 ^ 32 -> 0 <= n < 32 -> 0 <= clr_bit a n < 2 ^ 32.
Proof.
  intros Ha Hn. apply u32_of_bits.
  - unfold clr_bit. apply Z.land_nonneg. lia.
  - intros j Hj. unfold clr_bit. by rewrite Z.land_spec, u32_testbit_high.
Qed.

(** The base of the page of an address. *)
Lemma land_page_mask x : 0 <= x < 2 ^ 32 -> Z.land x 4294963200 = 4096 * (x / 4096).
Proof.
  intros Hx. change 4294963200 with (Z.shiftl (Z.ones 20) 12).
  apply Z.bits_inj'. intros j Hj. rewrite Z.land_spec.
  replace (4096 * (x / 4096)) with (Z.shiftl (Z.shiftr x 12) 12)
    by (rewrite Z.shiftl_mul_pow2, Z.shiftr_div_pow2 by lia; change (2 ^ 12) with 4096; lia).
  rewrite !Z.shiftl_spec by lia. destruct (Z.lt_ge_cases j 12).
  - rewrite !(Z.testbit_neg_r _ (j - 12)) by lia. apply andb_false_r.
  - rewrite Z.shiftr_spec by lia. replace (j - 12 + 12) with j by lia.
    destruct (Z.lt_ge_cases j 32).
    + rewrite Z.ones_spec_low by lia. apply andb_true_r.
    + rewrite (u32_testbit_high x) by lia. done.
Qed.

(** ** C arrays

    An allocated array is a finite map from its valid indices; reading or
    writing any other index is a [Fault]. *)

Abbreviation array := (gmap Z Z).

Definition aget (i : Z) : M array Z := fun a =>
  match a !! i with Some v => Ok (v, a) | None => Fault end.

Definition aset (i v : Z) : M array unit := fun a =>
  match a !! i with Some _ => Ok (tt, <[i := v]> a) | None => Fault end.

(** [calloc(n, sizeof)] seen as an array of [n] zeroed cells. *)
Definition zeros (n : Z) : array :=
  list_to_map ((fun i => (i, 0)) <$> seqZ 0 n).

Lemma aget_ok a i v : a !! i = Some v -> aget i a = Ok (v, a).
Proof. intros H. unfold aget. by rewrite H. Qed.

Lemma aset_ok a i v w : a !! i = Some w -> aset i v a = Ok (tt, <[i := v]> a).
Proof. intros H. unfold aset. by rewrite H. Qed.

Lemma zeros_lookup n i : 0 <= i < n -> zeros n !! i = Some 0.
Proof.
  intros H. unfold zeros. apply elem_of_list_to_map_1.
  - rewrite <- list_fmap_compose. rewrite (list_fmap_ext _ id), list_fmap_id; [|done].
    apply NoDup_seqZ.
  - apply list_elem_of_fmap. exists i. split; [done|]. apply elem_of_seqZ. lia.
Qed.

Lemma zeros_dom n i : is_Some (zeros n !! i) <-> 0 <= i < n.
Proof.
  split; [|intros; rewrite zeros_lookup; eauto].
  intros [v Hv]. unfold zeros in Hv. apply elem_of_list_to_map_2 in Hv.
  apply list_elem_of_fmap in Hv as (j & [= -> _] & Hj).
  apply elem_of_seqZ in Hj. lia.
Qed.

(** ** Total maps over thread ids and cores *)

Definition fupd {A} (f : Z -> A) (k : Z) (v : A) : Z -> A := fun k' => if k' =? k then v else f k'.

Lemma fupd_eq {A} (f : Z -> A) k v : fupd f k v k = v.
Proof. unfold fupd. by rewrite Z.eqb_refl. Qed.

Lemma fupd_ne {A} (f : Z -> A) k k' v : k' <> k -> fupd f k v k' = f k'.
Proof. intros H. unfold fupd. by destruct (Z.eqb_spec k' k). Qed.

(** Case analysis on an updated map. *)
Ltac fupd_cases k k' :=
  destruct (Z.eq_dec k' k) as [?|?]; [subst; rewrite ?fupd_eq in * | rewrite ?(fupd_ne _ k k') in * by done].

(** ** Singly linked chains

    [chain h p l]: starting from the node at [p], the [next] fields reach the
    nodes [l] in order and then NULL (0). *)

Section chain.
Context {N : Type} (next : N -> Z).
Implicit Types (h : gmap Z N) (p : Z) (l : list Z).

Fixpoint chain h p l : Prop :=
  match l with
  | [] => exists n, h !! p = Some n /\ next n = 0
  | x :: l => (exists n, h !! p = Some n /\ next n = x) /\ x <> 0 /\ chain h x l
  end.

(** The last node of [p :: l]. *)
Fixpoint chain_last p l : Z :=
  match l with [] => p | x :: l => chain_last x l end.

Lemma chain_last_snoc p x l : chain_last p (l ++ [x]) = x.
Proof. revert p. induction l as [|y l IH]; intros p; [done|apply IH]. Qed.

Lemma chain_last_in p l : chain_last p l ∈ p :: l.
Proof. revert p. induction l as [|x l IH]; intros p; simpl; [set_solver|]. specialize (IH x). set_solver. Qed.

Lemma chain_head h p l : chain h p l -> exists n, h !! p = Some n.
Proof. destruct l; simpl; [intros (n & ? & _)|intros [(n & ? & _) _]]; eauto. Qed.

Lemma chain_app h p l1 l2 : chain h p (l1 ++ l2) -> chain h (chain_last p l1) l2.
Proof. revert p. induction l1 as [|x l1 IH]; intros p; [done|]. intros (_ & _ & ?). by apply IH. Qed.

(** A chain may be re-pointed after its last kept node. *)
Lemma chain_replace h h' p l1 l2 l2' :
  NoDup (p :: l1) -> chain h p (l1 ++ l2) ->
  (forall q, q ∈ p :: l1 -> q <> chain_last p l1 -> h' !! q = h !! q) ->
  chain h' (chain_last p l1) l2' -> chain h' p (l1 ++ l2').
Proof.
  revert p. induction l1 as [|x l1 IH]; intros p Hnd Hc Hf Hl; [done|].
  simpl in Hf, Hl. destruct Hc as ((n & Hn & Hx) & Hx0 & Hc). simpl.
  apply list.NoDup_cons in Hnd as [Hp Hnd]. split; [|split; [done|]].
  - exists n. split; [|done]. rewrite Hf; [done|set_solver|].
    intros ->. apply Hp, chain_last_in.
  - apply IH; [done|done| |done]. intros q Hq. apply Hf. set_solver.
Qed.

(** Writes outside a chain leave it alone. *)
Lemma chain_frame h h' p l :
  chain h p l -> (forall q, q ∈ p :: l -> h' !! q = h !! q) -> chain h' p l.
Proof.
  revert p. induction l as [|x l IH]; intros p Hc Hf; simpl in *.
  - destruct Hc as (n & ? & ?). exists n. rewrite Hf by set_solver. done.
  - destruct Hc as ((n & ? & ?) & ? & ?). split; [exists n; rewrite Hf by set_solver; done|].
    split; [done|]. apply IH; [done|]. intros. apply Hf. set_solver.
Qed.

End chain.

(** ** Automation *)

Create HintDb kernel.
#[export] Hint Resolve w32_range s32_range : kernel.
Create Rewrite HintDb kernel_words.
#[export] Hint Rewrite w32_small s32_small using lia : kernel_words.

(** Expose the next step of a monadic computation. *)
Ltac munfold := unfold mbind, M_bind, mret, M_ret.

(** Case analysis on the boolean comparison the goal or a hypothesis tests. *)
Ltac bool_cases :=
  repeat match goal with
  | |- context [?a <? ?b] => destruct (Z.ltb_spec a b)
  | |- context [?a <=? ?b] => destruct (Z.leb_spec a b)
  | |- context [?a =? ?b] => destruct (Z.eqb_spec a b)
  end.
