(* ===== verification/SegTree.v ===== *)
(** * Segment tree of free frames (src/kern/seg_tree.c)

    The physical frames of a core are tracked by a perfect binary tree stored
    in an array: node 1 is the root, node [i] has children [2i] and [2i+1],
    nodes [size .. 2*size-1] are leaves.  A leaf is a 32-bit bitmap (bit set =
    frame free); an internal node holds the least free frame below it, or
    [NAN].  This file translates every routine of the C file and proves that
    they implement an allocator that always hands out the least free frame. *)

From S2P Require Import Prelude.
From Stdlib Require Import ZArith Lia.
From stdpp Require Import base gmap list tactics numbers.

#[local] Open Scope Z_scope.

Module SegTree.

(** [#define NAN -1], stored in a [uint32_t]. *)
Definition NAN : Z := 2 ^ 32 - 1.

(** The file's static variables; [seg_tree] is indexed by the core. *)
Record seg_state := {
  max_num : Z;
  seg_tree : gmap Z array;
  size : Z
}.

(** [asm_bsf] (asm_helper.S): index of the least significant set bit.  The
    instruction leaves its result undefined on 0; the C code never calls it
    there, and the model returns 32. *)
Fixpoint bsf_from (n : nat) (i x : Z) : Z :=
  match n with
  | O => i
  | S n' => if Z.testbit x i then i else bsf_from n' (i + 1) x
  end.
Definition asm_bsf (x : Z) : Z := bsf_from 32 0 x.

Definition get_next_pow2 (value : Z) : Z :=
  let value := w32 (value - 1) in
  let value := Z.lor value (Z.shiftr value 1) in
  let value := Z.lor value (Z.shiftr value 2) in
  let value := Z.lor value (Z.shiftr value 4) in
  let value := Z.lor value (Z.shiftr value 8) in
  let value := Z.lor value (Z.shiftr value 16) in
  w32 (value + 1).

Section tree.
(** [size] and [max_num] are set once by core 0 and only read afterwards. *)
Context (size max_num : Z).

Definition IS_LEAF (x : Z) : bool := size <=? x.
Definition IS_VALID (x : Z) : bool := x <? w32 (2 * size).

(** The [while] loop that sets the low bits of a partly valid leaf. *)
Fixpoint init_leaf_loop (fuel : nat) (index i mask : Z) : M array unit :=
  match fuel with
  | O => nofuel
  | S fuel =>
      if w32 (w32 (Z.shiftl (w32 (index - size)) 5) + i) <? w32 max_num then
        v ← aget index;
        aset index (Z.lor v mask);;
        init_leaf_loop fuel index (i + 1) (w32 (Z.shiftl mask 1))
      else mret tt
  end.

Fixpoint init_recursive (fuel : nat) (index : Z) : M array Z :=
  match fuel with
  | O => nofuel
  | S fuel =>
      if negb (IS_VALID index) then mret NAN
      else if negb (IS_LEAF index) then
        v ← init_recursive fuel (w32 (index * 2));
        aset index v;;
        init_recursive fuel (w32 (index * 2 + 1));;
        aget index
      else
        (if w32 (Z.shiftl (w32 (index - size + 1)) 5) <=? w32 max_num
         then aset index (2 ^ 32 - 1)
         else aset index 0;; init_leaf_loop 33 index 0 1);;
        v ← aget index;
        mret (if v =? 0 then NAN else w32 (Z.shiftl (w32 (index - size)) 5))
  end.

(** The value [update_tree] reads from a child. *)
Definition child_value (i : Z) : M array Z :=
  v ← aget i;
  mret (if IS_LEAF i
        then (if v =? 0 then NAN
              else w32 (w32 (Z.shiftl (w32 (i - size)) 5) + asm_bsf v))
        else v).

Fixpoint update_tree (fuel : nat) (index : Z) : M array unit :=
  match fuel with
  | O => nofuel
  | S fuel =>
      if index =? 0 then mret tt
      else
        let left_index := w32 (index * 2) in
        left ← child_value left_index;
        let right_index := w32 (left_index + 1) in
        right ← child_value right_index;
        aset index (if left =? NAN then right else left);;
        update_tree fuel (index / 2)
  end.

(** A 32-bit index reaches 0 after at most 32 halvings. *)
Definition update_fuel : nat := 33.

Definition get_next : M array Z :=
  rv ← aget 1;
  if rv =? NAN then mret NAN
  else
    let index := w32 (Z.shiftr rv 5 + size) in
    let pos := rv mod 32 in
    v ← aget index;
    aset index (clr_bit v pos);;
    update_tree update_fuel (index / 2);;
    mret rv.

Definition put_back (frame_index : Z) : M array unit :=
  let index := w32 (Z.shiftr frame_index 5 + size) in
  let pos := frame_index mod 32 in
  v ← aget index;
  aset index (set_bit v pos);;
  update_tree update_fuel (index / 2).
End tree.

(** Running a routine on the array of the current core. *)
Definition on_cpu {A} (cur_cpu : Z) (f : Z -> Z -> M array A) : M seg_state A := fun st =>
  match seg_tree st !! cur_cpu with
  | None => Fault
  | Some t =>
      zoom (fun _ => t)
           (fun t' st => {| max_num := max_num st;
                            seg_tree := <[cur_cpu := t']> (seg_tree st);
                            size := size st |})
           (f (size st) (max_num st)) st
  end.

(** [calloc] is a parameter: [None] when the kernel heap is exhausted. *)
Definition init_seg_tree (calloc : Z -> option array) (cur_cpu num : Z) : M seg_state Z := fun st =>
  let st := if cur_cpu =? 0
            then {| max_num := num; seg_tree := seg_tree st;
                    size := Z.shiftr (get_next_pow2 (w32 num)) 5 |}
            else st in
  match calloc (w32 (2 * size st)) with
  | None => Ok (-1, {| max_num := max_num st; seg_tree := delete cur_cpu (seg_tree st);
                       size := size st |})
  | Some t =>
      let st := {| max_num := max_num st; seg_tree := <[cur_cpu := t]> (seg_tree st);
                   size := size st |} in
      (on_cpu cur_cpu (fun size max_num => init_recursive size max_num 33 1);; mret 0) st
  end.

(** ** Abstract view *)

(** Frame [f] is free in the bitmap leaves of [t]. *)
Definition free (size : Z) (t : array) (f : Z) : Prop :=
  0 <= f < 32 * size /\ exists w, t !! (size + f / 32) = Some w /\ Z.testbit w (f mod 32) = true.

(** [v] is the least frame of [lo, hi) satisfying [P], or [NAN] if there is none. *)
Definition is_least (P : Z -> Prop) (lo hi v : Z) : Prop :=
  (v = NAN /\ forall f, lo <= f < hi -> ~ P f) \/
  (lo <= v < hi /\ P v /\ forall f, lo <= f < v -> ~ P f).

(** What a parent reads from node [i]. *)
Definition node_value (size : Z) (t : array) (i : Z) : Z :=
  let v := default 0 (t !! i) in
  if size <=? i then (if v =? 0 then NAN else (i - size) * 32 + asm_bsf v) else v.

Definition node_ok (size : Z) (t : array) (i : Z) : Prop :=
  t !! i = Some (let l := node_value size t (2 * i) in
                 if l =? NAN then node_value size t (2 * i + 1) else l).

(** The shape of the array: allocated, with 32-bit leaves. *)
Record shape_ok (D size : Z) (t : array) : Prop := {
  shape_D : 1 <= D <= 26;
  shape_size : size = 2 ^ D;
  shape_dom : forall i, is_Some (t !! i) <-> 0 <= i < 2 * size;
  shape_leaf : forall i w, size <= i -> t !! i = Some w -> 0 <= w < 2 ^ 32
}.

(** The invariant of the segment tree. *)
Definition tree_ok (D size : Z) (t : array) : Prop :=
  shape_ok D size t /\ forall i, 1 <= i < size -> node_ok size t i.

(** ** Least significant bit *)

Lemma bsf_from_spec n : forall i x,
  0 <= i -> (exists j, i <= j < i + Z.of_nat n /\ Z.testbit x j = true) ->
  i <= bsf_from n i x < i + Z.of_nat n /\ Z.testbit x (bsf_from n i x) = true /\
  forall j, i <= j < bsf_from n i x -> Z.testbit x j = false.
Proof.
  induction n as [|n IH]; intros i x Hi (j & Hj & Hb); [lia|]. simpl.
  destruct (Z.testbit x i) eqn:E; [split; [lia|split; [done|intros; lia]]|].
  assert (j <> i) by (intros ->; congruence).
  destruct (IH (i + 1) x) as (H1 & H2 & H3); [lia|exists j; split; [lia|done]|].
  split; [lia|]. split; [done|]. intros k Hk.
  destruct (decide (k = i)) as [->|]; [done|]. apply H3; lia.
Qed.

Lemma testbit_exists x n : 0 < x < 2 ^ n -> exists j, 0 <= j < n /\ Z.testbit x j = true.
Proof.
  intros H. exists (Z.log2 x). split.
  - split; [apply Z.log2_nonneg|]. apply Z.log2_lt_pow2; lia.
  - apply Z.bit_log2. lia.
Qed.

Lemma asm_bsf_spec w : 0 < w < 2 ^ 32 ->
  0 <= asm_bsf w < 32 /\ Z.testbit w (asm_bsf w) = true /\
  forall j, 0 <= j < asm_bsf w -> Z.testbit w j = false.
Proof.
  intros H. apply (bsf_from_spec 32 0); [lia|].
  destruct (testbit_exists w 32) as (j & ? & ?); [lia|]. exists j. split; [lia|done].
Qed.

(** ** The root holds the least free frame *)

Lemma free_in_leaf size t i w k :
  size <= i < 2 * size -> t !! i = Some w -> 0 <= k < 32 ->
  free size t ((i - size) * 32 + k) <-> Z.testbit w k = true.
Proof.
  intros Hi Ht Hk. unfold free.
  replace (((i - size) * 32 + k) / 32) with (i - size) by (apply Z.div_unique with k; lia).
  replace (((i - size) * 32 + k) mod 32) with k by (apply Z.mod_unique with (i - size); lia).
  replace (size + (i - size)) with i by lia. rewrite Ht.
  split; [intros (_ & w' & [= <-] & ?); done|]. intros; split; [lia|eauto].
Qed.

Lemma leaf_least D size t i :
  shape_ok D size t -> size <= i < 2 * size ->
  is_least (free size t) ((i - size) * 32) ((i - size) * 32 + 32) (node_value size t i).
Proof.
  intros Hs Hi. destruct (proj2 (shape_dom _ _ _ Hs i)) as [w Hw]; [lia|].
  pose proof (shape_leaf _ _ _ Hs i w ltac:(lia) Hw) as Hr.
  assert (Hf : forall f, (i - size) * 32 <= f < (i - size) * 32 + 32 ->
    free size t f <-> Z.testbit w (f - (i - size) * 32) = true).
  { intros f Hf. rewrite <- (free_in_leaf size t i w) by (try done; lia). f_equiv. lia. }
  unfold node_value. rewrite Hw. simpl. destruct (Z.leb_spec size i); [|lia].
  destruct (Z.eqb_spec w 0) as [->|Hne].
  - left. split; [done|]. intros f Hfr. rewrite Hf by lia. by rewrite Z.testbit_0_l.
  - destruct (asm_bsf_spec w ltac:(lia)) as (Hb & Hbit & Hmin).
    right. split; [lia|]. split.
    + apply Hf; [lia|]. rewrite Z.add_simpl_l. done.
    + intros f Hfr. rewrite Hf by lia. rewrite Hmin by lia. done.
Qed.

Lemma is_least_app P lo mid hi l r :
  lo <= mid <= hi -> mid <= NAN -> is_least P lo mid l -> is_least P mid hi r ->
  is_least P lo hi (if l =? NAN then r else l).
Proof.
  intros Hm HN Hl Hr. destruct Hl as [[-> Hl]|(Hl1 & Hl2 & Hl3)].
  - rewrite Z.eqb_refl. destruct Hr as [[-> Hr]|(Hr1 & Hr2 & Hr3)].
    + left. split; [done|]. intros f Hf. destruct (Z.lt_ge_cases f mid); [apply Hl|apply Hr]; lia.
    + right. split; [lia|]. split; [done|].
      intros f Hf. destruct (Z.lt_ge_cases f mid); [apply Hl|apply Hr3]; lia.
  - destruct (Z.eqb_spec l NAN); [lia|]. right. split; [lia|]. auto.
Qed.

Lemma node_least D size t (h : nat) : forall i,
  tree_ok D size t -> Z.of_nat h <= D ->
  2 ^ (D - Z.of_nat h) <= i < 2 ^ (D - Z.of_nat h + 1) ->
  is_least (free size t) ((i * 2 ^ Z.of_nat h - size) * 32)
    (((i + 1) * 2 ^ Z.of_nat h - size) * 32) (node_value size t i).
Proof.
  induction h as [|h IH]; intros i Ht Hh Hi; pose proof Ht as [Hs Hn];
    pose proof (shape_D _ _ _ Hs) as HD; pose proof (shape_size _ _ _ Hs) as Hsz.
  - change (Z.of_nat 0) with 0 in *. rewrite Z.sub_0_r in Hi.
    rewrite Z.pow_add_r, Z.pow_1_r in Hi by lia.
    replace ((i * 2 ^ 0 - size) * 32) with ((i - size) * 32) by lia.
    replace (((i + 1) * 2 ^ 0 - size) * 32) with ((i - size) * 32 + 32) by lia.
    apply (leaf_least D); [done|lia].
  - rewrite Nat2Z.inj_succ in *. set (hz := Z.of_nat h) in *.
    assert (0 <= hz) by lia.
    assert (Hp : 2 ^ (D - hz) = 2 * 2 ^ (D - Z.succ hz)).
    { rewrite <- Z.pow_succ_r by lia. f_equal. lia. }
    assert (Hp1 : 2 ^ (D - Z.succ hz + 1) = 2 ^ (D - hz)) by (f_equal; lia).
    assert (Hp2 : 2 ^ (D - hz + 1) = 2 * 2 ^ (D - hz)).
    { rewrite <- Z.pow_succ_r by lia. f_equal. }
    assert (Hsp : size = 2 ^ (D - hz) * 2 ^ hz).
    { rewrite <- Z.pow_add_r by lia. rewrite Hsz. f_equal. lia. }
    assert (Hhz : 1 <= 2 ^ hz) by (pose proof (Z.pow_pos_nonneg 2 hz); lia).
    assert (Hq : 1 <= 2 ^ (D - Z.succ hz)) by (pose proof (Z.pow_pos_nonneg 2 (D - Z.succ hz)); lia).
    assert (Hbig : size <= 2 ^ 26) by (rewrite Hsz; apply Z.pow_le_mono_r; lia).
    assert (Hi' : 1 <= i < size) by nia.
    pose proof (IH (2 * i) Ht ltac:(lia) ltac:(lia)) as HL.
    pose proof (IH (2 * i + 1) Ht ltac:(lia) ltac:(lia)) as HR.
    rewrite Z.pow_succ_r by lia.
    pose proof (Hn i Hi') as Hok. unfold node_ok in Hok.
    assert (Hv : node_value size t i =
      if node_value size t (2 * i) =? NAN then node_value size t (2 * i + 1)
      else node_value size t (2 * i)).
    { unfold node_value at 1. rewrite Hok. destruct (Z.leb_spec size i); [lia|done]. }
    rewrite Hv.
    apply is_least_app with (((2 * i + 1) * 2 ^ hz - size) * 32).
    + nia.
    + unfold NAN. assert ((2 * i + 1) * 2 ^ hz <= 2 * size) by nia. lia.
    + replace (i * (2 * 2 ^ hz)) with (2 * i * 2 ^ hz) by lia. exact HL.
    + replace ((i + 1) * (2 * 2 ^ hz)) with ((2 * i + 1 + 1) * 2 ^ hz) by lia. exact HR.
Qed.

Lemma root_least D size t :
  tree_ok D size t ->
  exists v, t !! 1 = Some v /\ is_least (free size t) 0 (32 * size) v.
Proof.
  intros Ht. pose proof Ht as [Hs Hn].
  pose proof (shape_D _ _ _ Hs) as HD. pose proof (shape_size _ _ _ Hs) as Hsz.
  assert (2 <= size) by (rewrite Hsz; change 2 with (2 ^ 1) at 1; apply Z.pow_le_mono_r; lia).
  pose proof (node_least D size t (Z.to_nat D) 1 Ht) as Hl.
  rewrite Z2Nat.id in Hl by lia. rewrite Z.sub_diag in Hl.
  specialize (Hl ltac:(lia) ltac:(lia)). rewrite <- Hsz in Hl.
  replace ((1 * size - size) * 32) with 0 in Hl by lia.
  replace (((1 + 1) * size - size) * 32) with (32 * size) in Hl by lia.
  pose proof (Hn 1 ltac:(lia)) as Hok. unfold node_ok in Hok.
  eexists. split; [exact Hok|].
  unfold node_value in Hl at 1. rewrite Hok in Hl. simpl default in Hl.
  destruct (Z.leb_spec size 1); [lia|]. exact Hl.
Qed.

(** ** [update_tree] restores the invariant on the path to the root *)

(** [i] lies on the path from [index] to the root. *)
Definition on_path (i index : Z) : Prop := exists k, 0 <= k /\ i = index / 2 ^ k.

Lemma on_path_inv i index : on_path i index -> i = index \/ on_path i (index / 2).
Proof.
  intros (k & Hk & ->). destruct (decide (k = 0)) as [->|].
  - left. by rewrite Z.pow_0_r, Z.div_1_r.
  - right. exists (k - 1). split; [lia|].
    rewrite Z.div_div by lia. f_equal. rewrite <- Z.pow_succ_r by lia. f_equal. lia.
Qed.

Lemma shape_bounds D size t : shape_ok D size t -> 2 <= size <= 2 ^ 26.
Proof.
  intros Hs. pose proof (shape_D _ _ _ Hs). rewrite (shape_size _ _ _ Hs). split.
  - change 2 with (2 ^ 1) at 1. apply Z.pow_le_mono_r; lia.
  - apply Z.pow_le_mono_r; lia.
Qed.

Lemma shape_insert D size t i v :
  shape_ok D size t -> 0 <= i < 2 * size -> (size <= i -> 0 <= v < 2 ^ 32) ->
  shape_ok D size (<[i := v]> t).
Proof.
  intros Hs Hi Hv. split; [apply Hs|apply Hs| |].
  - intros j. rewrite lookup_insert. case_decide as Hij.
    + subst. split; [lia|eauto].
    + apply Hs.
  - intros j w Hj. rewrite lookup_insert. case_decide as Hij.
    + intros [= <-]. subst. auto.
    + apply Hs; lia.
Qed.

Lemma child_value_ok D size t i :
  shape_ok D size t -> 0 <= i < 2 * size ->
  child_value size i t = Ok (node_value size t i, t).
Proof.
  intros Hs Hi. pose proof (shape_bounds _ _ _ Hs) as Hb.
  destruct (proj2 (shape_dom _ _ _ Hs i) Hi) as [v Hv].
  unfold child_value. rewrite (bind_ok _ _ _ _ _ (aget_ok _ _ _ Hv)).
  unfold node_value, IS_LEAF, mret, M_ret. rewrite Hv. simpl default.
  destruct (Z.leb_spec size i); [|done]. destruct (Z.eqb_spec v 0); [done|].
  pose proof (shape_leaf _ _ _ Hs i v ltac:(lia) Hv).
  destruct (asm_bsf_spec v ltac:(lia)) as (Hbs & _).
  rewrite Z.shiftl_mul_pow2 by lia. change (2 ^ 5) with 32.
  rewrite (w32_small (i - size)), (w32_small (_ * 32)), w32_small by lia. done.
Qed.

Lemma node_value_insert_ne size t i j v :
  i <> j -> node_value size (<[i := v]> t) j = node_value size t j.
Proof. intros. unfold node_value. by rewrite lookup_insert_ne. Qed.

Lemma update_tree_ok D size (fuel : nat) : forall index t,
  shape_ok D size t -> 0 <= index < size -> index < 2 ^ (Z.of_nat fuel - 1) ->
  (forall i, 1 <= i < size -> ~ on_path i index -> node_ok size t i) ->
  exists t', update_tree size fuel index t = Ok (tt, t') /\ tree_ok D size t' /\
    forall j, size <= j -> t' !! j = t !! j.
Proof.
  induction fuel as [|fuel IH]; intros index t Hs Hi Hf Hok.
  { rewrite Z.pow_neg_r in Hf by lia. lia. }
  pose proof (shape_bounds _ _ _ Hs) as Hb. simpl.
  destruct (Z.eqb_spec index 0) as [->|Hne].
  { exists t. split; [done|]. split; [|done]. split; [done|]. intros i Hir. apply Hok; [done|].
    intros (k & Hk & ->). rewrite Z.div_0_l in Hir; [lia|]. pose proof (Z.pow_pos_nonneg 2 k). lia. }
  rewrite (w32_small (index * 2)), (w32_small (index * 2 + 1)) by lia.
  replace (index * 2) with (2 * index) by lia.
  rewrite (bind_ok _ _ _ _ _ (child_value_ok D size t (2 * index) Hs ltac:(lia))).
  rewrite (bind_ok _ _ _ _ _ (child_value_ok D size t (2 * index + 1) Hs ltac:(lia))).
  destruct (proj2 (shape_dom _ _ _ Hs index) ltac:(lia)) as [w Hw].
  rewrite (bind_ok _ _ _ _ _ (aset_ok _ _ _ _ Hw)).
  set (v := if node_value size t (2 * index) =? NAN then node_value size t (2 * index + 1)
            else node_value size t (2 * index)).
  destruct (IH (index / 2) (<[index := v]> t)) as (t' & Hr & Ht' & Hl).
  - apply shape_insert; [done|lia|lia].
  - pose proof (Z.div_lt index 2). pose proof (Z.div_pos index 2). lia.
  - destruct fuel as [|fuel]; [simpl in *; lia|].
    apply Z.div_lt_upper_bound; [lia|]. rewrite <- Z.pow_succ_r by lia.
    replace (Z.succ (Z.of_nat (S fuel) - 1)) with (Z.of_nat (S (S fuel)) - 1) by lia. done.
  - intros i Hir Hnp. unfold node_ok.
    destruct (decide (i = index)) as [->|Hii].
    + rewrite lookup_insert_eq, !node_value_insert_ne by lia. done.
    + assert (i <> index / 2).
      { intros ->. apply Hnp. exists 0. split; [lia|]. by rewrite Z.pow_0_r, Z.div_1_r. }
      assert (2 * i <> index /\ 2 * i + 1 <> index) as [??].
      { pose proof (Z.div_mod index 2 ltac:(lia)). pose proof (Z.mod_pos_bound index 2 ltac:(lia)). lia. }
      rewrite lookup_insert_ne, !node_value_insert_ne by lia. apply Hok; [done|].
      intros Hp%on_path_inv. destruct Hp; [done|contradiction].
  - exists t'. split; [done|]. split; [done|]. intros j Hj. rewrite Hl by done.
    apply lookup_insert_ne. lia.
Qed.

(** ** Refinement: an allocator over a finite set of free frames *)

(** The tree represents the set [F] of free frames. *)
Definition repr (D size : Z) (t : array) (F : gset Z) : Prop :=
  tree_ok D size t /\ forall f, f ∈ F <-> free size t f.

(** The abstract allocator: hand out the least free frame. *)
Definition next_spec (F : gset Z) (r : Z) (F' : gset Z) : Prop :=
  (F = ∅ /\ r = NAN /\ F' = F) \/
  (r ∈ F /\ (forall g, g ∈ F -> r <= g) /\ F' = F ∖ {[r]}).

Lemma on_path_parent_leaf i j size :
  1 <= i < size -> size <= j -> 2 * i = j \/ 2 * i + 1 = j -> on_path i (j / 2).
Proof.
  intros Hi Hj Hc. exists 0. split; [lia|]. rewrite Z.pow_0_r, Z.div_1_r.
  destruct Hc as [<- | <-].
  - rewrite Z.mul_comm. by rewrite Z.div_mul.
  - rewrite Z.mul_comm, Z.div_add_l by lia. change (1 / 2) with 0. lia.
Qed.

Lemma set_leaf_update D size t i v :
  tree_ok D size t -> size <= i < 2 * size -> 0 <= v < 2 ^ 32 ->
  exists t', update_tree size update_fuel (i / 2) (<[i := v]> t) = Ok (tt, t') /\
    tree_ok D size t' /\ forall j, size <= j -> t' !! j = (<[i := v]> t) !! j.
Proof.
  intros [Hs Hn] Hi Hv. pose proof (shape_bounds _ _ _ Hs) as Hb.
  apply (update_tree_ok D).
  - apply shape_insert; [done|lia|done].
  - split; [apply Z.div_pos; lia|]. apply Z.div_lt_upper_bound; lia.
  - change (Z.of_nat update_fuel - 1) with 32.
    pose proof (Z.div_lt_upper_bound i 2 size). lia.
  - intros k Hk Hnp. unfold node_ok.
    assert (2 * k <> i /\ 2 * k + 1 <> i) as [??].
    { split; intros ?; apply Hnp; apply (on_path_parent_leaf k i size); tauto || lia. }
    rewrite lookup_insert_ne, !node_value_insert_ne by lia. by apply Hn.
Qed.

Lemma free_leaf_update size t t' i v f :
  size <= i < 2 * size -> (forall j, size <= j -> t' !! j = (<[i := v]> t) !! j) ->
  0 <= f < 32 * size ->
  free size t' f <->
    (if decide (size + f / 32 = i) then Z.testbit v (f mod 32) = true else free size t f).
Proof.
  intros Hi Hl Hf. unfold free. pose proof (Z.div_pos f 32). rewrite Hl by lia.
  rewrite lookup_insert. destruct (decide (i = size + f / 32)) as [->|].
  - rewrite decide_True by done. split; [intros (_ & w & [= <-] & ?); done|eauto].
  - rewrite decide_False by lia. done.
Qed.

(** The frame of index [f] lives in leaf [size + f/32], bit [f mod 32]. *)
Lemma leaf_index f size : 0 <= f < 32 * size -> 2 <= size <= 2 ^ 26 ->
  w32 (Z.shiftr f 5 + size) = size + f / 32 /\ size <= size + f / 32 < 2 * size /\ 0 <= f mod 32 < 32.
Proof.
  intros Hf Hs. rewrite Z.shiftr_div_pow2 by lia. change (2 ^ 5) with 32.
  pose proof (Z.div_pos f 32). pose proof (Z.div_lt_upper_bound f 32 size).
  pose proof (Z.mod_pos_bound f 32). rewrite w32_small by lia. lia.
Qed.

Lemma same_leaf_bit f g : f / 32 = g / 32 -> f mod 32 = g mod 32 -> f = g.
Proof. intros H1 H2. rewrite (Z.div_mod f 32), (Z.div_mod g 32); lia. Qed.

(** Setting one bit of one leaf and updating the path to the root changes the
    membership of exactly one frame. *)
Lemma repr_set_bit D size t F r w v (b : bool) :
  repr D size t F -> 0 <= r < 32 * size -> t !! (size + r / 32) = Some w -> 0 <= v < 2 ^ 32 ->
  (forall j, 0 <= j < 32 -> Z.testbit v j = if j =? r mod 32 then b else Z.testbit w j) ->
  exists t', update_tree size update_fuel ((size + r / 32) / 2) (<[size + r / 32 := v]> t) = Ok (tt, t') /\
    repr D size t' (if b then {[r]} ∪ F else F ∖ {[r]}).
Proof.
  intros [Ht HF] Hr Hw Hv Hbits. pose proof Ht as [Hs _].
  pose proof (shape_bounds _ _ _ Hs) as Hb.
  destruct (leaf_index r size Hr Hb) as (_ & Hli & Hp).
  destruct (set_leaf_update D size t _ _ Ht Hli Hv) as (t' & Hu & Ht' & Hl).
  exists t'. split; [done|]. split; [done|]. intros f.
  assert (Hset : f ∈ (if b then {[r]} ∪ F else F ∖ {[r]}) <->
                 if decide (f = r) then b = true else free size t f).
  { destruct b; case_decide; rewrite ?elem_of_union, ?elem_of_difference, elem_of_singleton, HF;
      intuition congruence. }
  rewrite Hset. clear Hset.
  destruct (decide (0 <= f < 32 * size)) as [Hfr|Hfr].
  2: { rewrite decide_False by lia. split; intros [? _]; contradiction. }
  rewrite (free_leaf_update size t t' _ _ f Hli Hl Hfr).
  pose proof (Z.mod_pos_bound f 32 ltac:(lia)) as Hm.
  destruct (decide (size + f / 32 = size + r / 32)) as [Hd|Hd].
  - rewrite Hbits by lia. destruct (Z.eqb_spec (f mod 32) (r mod 32)) as [E|E].
    + rewrite decide_True by (apply same_leaf_bit; lia). done.
    + rewrite decide_False by congruence. unfold free. rewrite Hd, Hw.
      split; [intros (_ & w' & [= <-] & ?); done|eauto].
  - rewrite decide_False by congruence. done.
Qed.

(** ** Rounding up to a power of two *)

(** Bit [j] of [y] is set iff one of the [m] bits of [x] from [j] up is. *)
Definition smeared (m x y : Z) : Prop :=
  forall j, 0 <= j -> Z.testbit y j = true <-> exists k, 0 <= k < m /\ Z.testbit x (j + k) = true.

Lemma smeared_double m x y : 0 < m -> smeared m x y -> smeared (2 * m) x (Z.lor y (Z.shiftr y m)).
Proof.
  intros Hm H j Hj. rewrite Z.lor_spec, Z.shiftr_spec, orb_true_iff, (H j), (H (j + m)) by lia. split.
  - intros [(k & Hk & E)|(k & Hk & E)]; [exists k|exists (m + k)]; (split; [lia|]); [done|].
    by rewrite Z.add_assoc.
  - intros (k & Hk & E). destruct (Z.lt_ge_cases k m); [left; exists k; split; [lia|done]|].
    right. exists (k - m). split; [lia|]. by replace (j + m + (k - m)) with (j + k) by lia.
Qed.

Lemma smeared_32 x y : 0 < x < 2 ^ 32 -> 0 <= y -> smeared 32 x y -> y = 2 ^ (Z.log2 x + 1) - 1.
Proof.
  intros Hx Hy H. pose proof (Z.log2_nonneg x).
  assert (Z.log2 x < 32) by (apply Z.log2_lt_pow2; lia).
  replace (2 ^ (Z.log2 x + 1) - 1) with (Z.ones (Z.log2 x + 1)).
  2: { rewrite Z.ones_equiv. lia. }
  apply Z.bits_inj'. intros j Hj. destruct (Z.le_gt_cases j (Z.log2 x)).
  - rewrite Z.ones_spec_low by lia. apply H; [done|]. exists (Z.log2 x - j). split; [lia|].
    replace (j + (Z.log2 x - j)) with (Z.log2 x) by lia. apply Z.bit_log2. lia.
  - rewrite Z.ones_spec_high by lia. apply not_true_iff_false. intros (k & Hk & E)%(H j Hj). rewrite Z.bits_above_log2 in E by lia. done.
Qed.

Lemma get_next_pow2_spec v : 2 <= v <= 2 ^ 31 ->
  exists E, 1 <= E <= 31 /\ get_next_pow2 v = 2 ^ E /\ v <= 2 ^ E < 2 * v.
Proof.
  intros Hv. set (x := v - 1). exists (Z.log2 x + 1).
  pose proof (Z.log2_nonneg x). pose proof (Z.log2_spec x ltac:(lia)) as Hl.
  assert (Z.log2 x < 31) by (apply Z.log2_lt_pow2; lia).
  split; [lia|]. split; [|rewrite <- Z.add_1_r in Hl; rewrite Z.pow_add_r in * by lia; lia].
  unfold get_next_pow2. cbv zeta. change (v - 1) with x. rewrite (w32_small x) by lia.
  pose proof (smeared_double 1 x x ltac:(lia)) as H1.
  match type of H1 with _ -> smeared _ _ ?y => set (y1 := y) in * end.
  pose proof (smeared_double 2 x y1 ltac:(lia)) as H2.
  match type of H2 with _ -> smeared _ _ ?y => set (y2 := y) in * end.
  pose proof (smeared_double 4 x y2 ltac:(lia)) as H4.
  match type of H4 with _ -> smeared _ _ ?y => set (y4 := y) in * end.
  pose proof (smeared_double 8 x y4 ltac:(lia)) as H8.
  match type of H8 with _ -> smeared _ _ ?y => set (y8 := y) in * end.
  pose proof (smeared_double 16 x y8 ltac:(lia)) as H16.
  match type of H16 with _ -> smeared _ _ ?y => set (y16 := y) in * end.
  rewrite (smeared_32 x y16).
  - rewrite w32_small; [lia|]. pose proof (Z.pow_le_mono_r 2 (Z.log2 x + 1) 31 ltac:(lia) ltac:(lia)).
    pose proof (Z.pow_pos_nonneg 2 (Z.log2 x + 1) ltac:(lia) ltac:(lia)). lia.
  - lia.
  - unfold y16, y8, y4, y2, y1. repeat first [apply Z.lor_nonneg; split | apply Z.shiftr_nonneg | lia].
  - apply H16, H8, H4, H2, H1. intros j Hj. split.
    + intros E. exists 0. split; [lia|]. by rewrite Z.add_0_r.
    + intros (k & Hk & E). replace (j + k) with j in E by lia. done.
Qed.

(** ** Initialisation *)

(** First frame below node [j] of a tree of depth [D]. *)
Definition first_frame (D j : Z) : Z := (j * 2 ^ (D - Z.log2 j) - 2 ^ D) * 32.

(** The least of the frames [lo, lo+1, ...] below [max_num], or [NAN]. *)
Definition first_free (max_num lo : Z) : Z := if lo <? max_num then lo else NAN.

(** Bitmap of a leaf whose first frame is [lo]: the frames below [max_num]. *)
Definition leaf_word (max_num lo : Z) : Z :=
  2 ^ (Z.max 0 (Z.min 32 (max_num - lo))) - 1.

Definition init_value (D max_num j : Z) : Z :=
  if 2 ^ D <=? j then leaf_word max_num (first_frame D j)
  else first_free max_num (first_frame D j).

Lemma leaf_word_range m lo : 0 <= leaf_word m lo < 2 ^ 32.
Proof.
  unfold leaf_word. set (e := Z.max _ _). assert (0 <= e <= 32) by lia.
  pose proof (Z.pow_pos_nonneg 2 e ltac:(lia) ltac:(lia)).
  pose proof (Z.pow_le_mono_r 2 e 32 ltac:(lia) ltac:(lia)). lia.
Qed.

Lemma leaf_word_testbit m lo k : 0 <= k < 32 -> Z.testbit (leaf_word m lo) k = (lo + k <? m).
Proof.
  intros Hk. unfold leaf_word. set (e := Z.max _ _).
  replace (2 ^ e - 1) with (Z.ones e) by (rewrite Z.ones_equiv; lia).
  destruct (Z.ltb_spec (lo + k) m).
  - apply Z.ones_spec_low. lia.
  - apply Z.ones_spec_high. lia.
Qed.

Lemma first_frame_leaf D j : 0 <= D -> 2 ^ D <= j < 2 * 2 ^ D -> first_frame D j = (j - 2 ^ D) * 32.
Proof.
  intros HD Hj. unfold first_frame.
  rewrite (Z.log2_unique j D) by (rewrite ?Z.pow_succ_r; lia).
  rewrite Z.sub_diag. lia.
Qed.

Lemma log2_lt_D D j : 1 <= j < 2 ^ D -> 0 <= D -> Z.log2 j < D.
Proof. intros. apply Z.log2_lt_pow2; lia. Qed.

Lemma first_frame_left D j : 1 <= j < 2 ^ D -> 0 <= D -> first_frame D (2 * j) = first_frame D j.
Proof.
  intros Hj HD. unfold first_frame. pose proof (log2_lt_D D j Hj HD).
  rewrite Z.log2_double by lia. f_equal. f_equal.
  replace (D - Z.log2 j) with (Z.succ (D - Z.succ (Z.log2 j))) by lia.
  rewrite Z.pow_succ_r by lia. lia.
Qed.

Lemma first_frame_right D j :
  1 <= j < 2 ^ D -> 0 <= D -> first_frame D j <= first_frame D (2 * j + 1).
Proof.
  intros Hj HD. rewrite <- first_frame_left by done. unfold first_frame.
  pose proof (log2_lt_D D j Hj HD).
  rewrite Z.log2_double, Z.log2_succ_double by lia.
  pose proof (Z.pow_pos_nonneg 2 (D - Z.succ (Z.log2 j)) ltac:(lia) ltac:(lia)). nia.
Qed.

Lemma init_leaf_loop_ok size max_num index lo (fuel : nat) : forall i t,
  lo = (index - size) * 32 -> 0 <= lo -> 0 <= max_num < 2 ^ 31 -> max_num < lo + 32 -> lo < 2 ^ 31 ->
  0 <= i <= Z.max 0 (max_num - lo) -> 32 - i < Z.of_nat fuel ->
  t !! index = Some (2 ^ i - 1) ->
  init_leaf_loop size max_num fuel index i (2 ^ i) t =
    Ok (tt, <[index := leaf_word max_num lo]> t).
Proof.
  induction fuel as [|fuel IH]; intros i t Hlo Hlo0 Hm Hpart Hlo1 Hi Hfu Ht; [lia|]. simpl.
  rewrite Z.shiftl_mul_pow2 by lia. change (2 ^ 5) with 32.
  rewrite (w32_small (index - size)), <- Hlo, (w32_small lo), (w32_small (lo + i)), (w32_small max_num) by lia.
  destruct (Z.ltb_spec (lo + i) max_num).
  - rewrite (bind_ok _ _ _ _ _ (aget_ok _ _ _ Ht)), (bind_ok _ _ _ _ _ (aset_ok _ _ _ _ Ht)).
    assert (E : Z.lor (2 ^ i - 1) (2 ^ i) = 2 ^ (i + 1) - 1).
    { rewrite <- Z.add_nocarry_lor.
      + rewrite Z.pow_add_r by lia. lia.
      + apply Z.bits_inj'. intros k Hk. rewrite Z.land_spec, Z.pow2_bits_eqb, Z.testbit_0_l by lia.
        destruct (Z.eqb_spec i k) as [->|]; [|by rewrite andb_false_r].
        replace (2 ^ k - 1) with (Z.ones k) by (rewrite Z.ones_equiv; lia).
        by rewrite Z.ones_spec_high by lia. }
    rewrite E, Z.shiftl_mul_pow2, <- Z.pow_add_r by lia.
    rewrite w32_small.
    2: { pose proof (Z.pow_pos_nonneg 2 (i + 1)). pose proof (Z.pow_le_mono_r 2 (i + 1) 31). lia. }
    rewrite IH; try lia; [by rewrite insert_insert_eq|apply lookup_insert_eq].
  - unfold mret, M_ret. f_equal. f_equal. symmetry. apply insert_id. rewrite Ht. f_equal.
    unfold leaf_word. f_equal. f_equal. lia.
Qed.

Lemma on_path_self i : on_path i i.
Proof. exists 0. split; [lia|]. by rewrite Z.pow_0_r, Z.div_1_r. Qed.

Lemma on_path_le i j : on_path i j -> 0 <= j -> i <= j.
Proof.
  intros (k & Hk & ->) Hj. pose proof (Z.pow_pos_nonneg 2 k).
  apply Z.div_le_upper_bound; [lia|]. nia.
Qed.

Lemma on_path_child_up i j : on_path (2 * i) j \/ on_path (2 * i + 1) j -> on_path i j.
Proof.
  intros [(k & Hk & E)|(k & Hk & E)]; exists (k + 1); (split; [lia|]);
    rewrite Z.pow_add_r, Z.pow_1_r, <- Z.div_div by lia || (pose proof (Z.pow_pos_nonneg 2 k); lia);
    rewrite <- E, Z.mul_comm.
  - by rewrite Z.div_mul.
  - by rewrite Z.div_add_l, Z.add_0_r.
Qed.

Lemma on_path_children i j :
  1 <= i -> on_path i j -> j = i \/ on_path (2 * i) j \/ on_path (2 * i + 1) j.
Proof.
  intros Hi (k & Hk & E). destruct (decide (k = 0)) as [->|].
  { left. by rewrite Z.pow_0_r, Z.div_1_r in E. }
  right. pose proof (Z.pow_pos_nonneg 2 (k - 1) ltac:(lia) ltac:(lia)).
  assert (i = j / 2 ^ (k - 1) / 2) as Ei.
  { rewrite Z.div_div, Z.mul_comm, <- Z.pow_succ_r by lia.
    replace (Z.succ (k - 1)) with k by lia. done. }
  pose proof (Z.div_mod (j / 2 ^ (k - 1)) 2 ltac:(lia)) as Hdm. rewrite <- Ei in Hdm.
  pose proof (Z.mod_pos_bound (j / 2 ^ (k - 1)) 2 ltac:(lia)).
  destruct (decide (j / 2 ^ (k - 1) mod 2 = 0)); [left|right]; exists (k - 1); lia.
Qed.

Lemma on_path_disjoint i j :
  1 <= i -> 0 <= j -> on_path (2 * i) j -> ~ on_path (2 * i + 1) j.
Proof.
  assert (Hstep : forall a b k l, 0 <= k < l -> 0 <= j -> a = j / 2 ^ k -> b = j / 2 ^ l -> 2 * b <= a).
  { intros a b k l Hkl Hj Ha Hb. pose proof (Z.pow_pos_nonneg 2 k).
    assert (b = a / 2 ^ (l - k)) as ->.
    { subst a. rewrite Z.div_div, <- Z.pow_add_r by (lia || apply Z.pow_pos_nonneg; lia).
      rewrite Hb. f_equal. f_equal. lia. }
    pose proof (Z.pow_le_mono_r 2 1 (l - k) ltac:(lia) ltac:(lia)).
    assert (0 <= a) by (subst a; apply Z.div_pos; lia).
    pose proof (Z.div_pos a (2 ^ (l - k)) ltac:(lia) ltac:(lia)).
    pose proof (Z.mul_div_le a (2 ^ (l - k)) ltac:(lia)). nia. }
  intros Hi Hj (k & Hk & E) (l & Hl & E').
  destruct (Z.lt_trichotomy k l) as [?|[->|?]].
  - pose proof (Hstep (2 * i) (2 * i + 1) k l ltac:(lia) Hj E E'). lia.
  - lia.
  - pose proof (Hstep (2 * i + 1) (2 * i) l k ltac:(lia) Hj E' E). lia.
Qed.

Lemma init_leaf_ok D size max_num (fuel : nat) i t :
  shape_ok D size t -> 0 < max_num < 2 ^ 31 -> size <= i < 2 * size -> (0 < fuel)%nat ->
  init_recursive size max_num fuel i t =
    Ok (first_free max_num (first_frame D i), <[i := init_value D max_num i]> t).
Proof.
  intros Hs Hm Hi Hfu. destruct fuel as [|fuel]; [lia|].
  pose proof (shape_bounds _ _ _ Hs) as Hb. pose proof (shape_D _ _ _ Hs) as HD.
  pose proof (shape_size _ _ _ Hs) as Hsz. destruct (proj2 (shape_dom _ _ _ Hs i) ltac:(lia)) as [w Hw].
  assert (Hff : first_frame D i = (i - size) * 32) by (rewrite Hsz; apply first_frame_leaf; lia).
  assert (Hiv : init_value D max_num i = leaf_word max_num ((i - size) * 32)).
  { unfold init_value. rewrite <- Hsz, Hff. destruct (Z.leb_spec size i); [done|lia]. }
  cbn [init_recursive]. unfold IS_VALID, IS_LEAF. rewrite (w32_small (2 * size)) by lia.
  destruct (Z.ltb_spec i (2 * size)); [|lia]. destruct (Z.leb_spec size i); [|lia]. cbn [negb].
  assert (Hset : (if w32 (Z.shiftl (w32 (i - size + 1)) 5) <=? w32 max_num
           then aset i (2 ^ 32 - 1)
           else aset i 0;; init_leaf_loop size max_num 33 i 0 1) t =
           Ok (tt, <[i := init_value D max_num i]> t)).
  { rewrite Z.shiftl_mul_pow2 by lia. change (2 ^ 5) with 32.
    rewrite (w32_small (i - size + 1)), (w32_small (_ * 32)), (w32_small max_num) by lia.
    rewrite Hiv. destruct (Z.leb_spec ((i - size + 1) * 32) max_num).
    - rewrite (aset_ok _ _ _ _ Hw). unfold leaf_word.
      by replace (Z.max 0 (Z.min 32 (max_num - (i - size) * 32))) with 32 by lia.
    - rewrite (bind_ok _ _ _ _ _ (aset_ok _ _ _ _ Hw)).
      change 1 with (2 ^ 0). rewrite (init_leaf_loop_ok size max_num i ((i - size) * 32));
        try lia; [by rewrite insert_insert_eq|apply lookup_insert_eq]. }
  rewrite (bind_ok _ _ _ _ _ Hset), (bind_ok _ _ _ _ _ (aget_ok _ _ _ (lookup_insert_eq _ _ _))).
  unfold mret, M_ret. do 2 f_equal. rewrite Hff, Hiv. unfold first_free.
  rewrite Z.shiftl_mul_pow2, (w32_small (i - size)), w32_small by lia. change (2 ^ 5) with 32.
  pose proof (leaf_word_testbit max_num ((i - size) * 32) 0 ltac:(lia)) as Hbit.
  rewrite Z.add_0_r in Hbit.
  destruct (Z.ltb_spec ((i - size) * 32) max_num).
  - destruct (Z.eqb_spec (leaf_word max_num ((i - size) * 32)) 0) as [E|]; [|done].
    rewrite E, Z.testbit_0_l in Hbit. done.
  - unfold leaf_word. by rewrite Z.max_l by lia.
Qed.

Lemma init_recursive_ok D size max_num (h : nat) : forall fuel i t,
  (h < fuel)%nat -> shape_ok D size t -> 0 < max_num < 2 ^ 31 -> Z.of_nat h <= D ->
  2 ^ (D - Z.of_nat h) <= i < 2 ^ (D - Z.of_nat h + 1) ->
  exists t', init_recursive size max_num fuel i t =
      Ok (first_free max_num (first_frame D i), t') /\ shape_ok D size t' /\
    (forall j, ~ on_path i j -> t' !! j = t !! j) /\
    (forall j, 1 <= j < 2 * size -> on_path i j -> t' !! j = Some (init_value D max_num j)).
Proof.
  induction h as [|h IH]; intros fuel i t Hfu Hs Hm Hh Hi;
    pose proof (shape_bounds _ _ _ Hs) as Hb; pose proof (shape_D _ _ _ Hs) as HD;
    pose proof (shape_size _ _ _ Hs) as Hsz.
  - change (Z.of_nat 0) with 0 in *. rewrite Z.sub_0_r, Z.pow_add_r, Z.pow_1_r, <- Hsz in Hi by lia.
    eexists. split; [apply init_leaf_ok; done || lia|]. split; [|split].
    + apply shape_insert; [done|lia|]. intros _. unfold init_value. rewrite <- Hsz.
      destruct (Z.leb_spec size i); [apply leaf_word_range|lia].
    + intros j Hj. apply lookup_insert_ne. intros ->. apply Hj, on_path_self.
    + intros j Hj Hp. destruct (on_path_children i j ltac:(lia) Hp) as [->|Hc]; [apply lookup_insert_eq|].
      exfalso. destruct Hc as [Hc|Hc]; apply on_path_le in Hc; lia.
  - rewrite Nat2Z.inj_succ in *. set (hz := Z.of_nat h) in *. destruct fuel as [|fuel]; [lia|].
    assert (Hp1 : 2 ^ (D - Z.succ hz + 1) = 2 ^ (D - hz)) by (f_equal; lia).
    assert (Hp2 : 2 ^ (D - hz) = 2 * 2 ^ (D - Z.succ hz)) by (rewrite <- Z.pow_succ_r by lia; f_equal; lia).
    assert (Hp3 : 2 ^ (D - hz + 1) = 2 * 2 ^ (D - hz)) by (rewrite <- Z.pow_succ_r by lia; f_equal).
    assert (Hp4 : 2 ^ (D - hz) <= size) by (rewrite Hsz; apply Z.pow_le_mono_r; lia).
    assert (Hi' : 1 <= i < size) by (pose proof (Z.pow_pos_nonneg 2 (D - Z.succ hz)); lia).
    destruct (IH fuel (2 * i) t ltac:(lia) Hs Hm ltac:(lia) ltac:(lia)) as (t1 & R1 & S1 & O1 & V1).
    rewrite first_frame_left in R1 by lia.
    set (v := first_free max_num (first_frame D i)) in *.
    assert (S2 : shape_ok D size (<[i := v]> t1)) by (apply shape_insert; [done|lia|lia]).
    destruct (IH fuel (2 * i + 1) (<[i := v]> t1) ltac:(lia) S2 Hm ltac:(lia) ltac:(lia))
      as (t3 & R3 & S3 & O3 & V3).
    assert (Hi3 : t3 !! i = Some v).
    { rewrite O3; [apply lookup_insert_eq|]. intros Hp%on_path_le; lia. }
    destruct (proj2 (shape_dom _ _ _ S1 i) ltac:(lia)) as [w Hw].
    exists t3. split; [|split; [done|split]].
    + cbn [init_recursive]. unfold IS_VALID, IS_LEAF. rewrite (w32_small (2 * size)) by lia.
      destruct (Z.ltb_spec i (2 * size)); [|lia]. destruct (Z.leb_spec size i); [lia|]. cbn [negb].
      rewrite (w32_small (i * 2)), (w32_small (i * 2 + 1)), (Z.mul_comm i 2) by lia.
      by rewrite (bind_ok _ _ _ _ _ R1), (bind_ok _ _ _ _ _ (aset_ok _ _ _ _ Hw)),
        (bind_ok _ _ _ _ _ R3), (aget_ok _ _ _ Hi3).
    + intros j Hj. rewrite O3 by (intros ?; apply Hj, on_path_child_up; tauto).
      rewrite lookup_insert_ne by (intros ->; apply Hj, on_path_self).
      apply O1. intros ?; apply Hj, on_path_child_up; tauto.
    + intros j Hj Hp. destruct (on_path_children i j ltac:(lia) Hp) as [->|[Hl|Hr]].
      * rewrite Hi3. unfold init_value. rewrite <- Hsz. destruct (Z.leb_spec size i); [lia|done].
      * rewrite O3 by (apply on_path_disjoint; done || lia).
        rewrite lookup_insert_ne by (intros ->; apply on_path_le in Hl; lia). by apply V1.
      * by apply V3.
Qed.

(** In a fully initialised array every node already equals its summary. *)
Lemma init_tree_ok D size max_num t :
  shape_ok D size t -> 0 < max_num < 2 ^ 31 ->
  (forall j, 1 <= j < 2 * size -> t !! j = Some (init_value D max_num j)) -> tree_ok D size t.
Proof.
  intros Hs Hm Hv. pose proof (shape_bounds _ _ _ Hs) as Hb. pose proof (shape_D _ _ _ Hs) as HD.
  pose proof (shape_size _ _ _ Hs) as Hsz.
  assert (Hnv : forall c, 1 <= c < 2 * size -> node_value size t c = first_free max_num (first_frame D c)).
  { intros c Hc. unfold node_value. rewrite Hv by lia. simpl default. unfold init_value. rewrite <- Hsz.
    destruct (Z.leb_spec size c); [|done]. rewrite first_frame_leaf, <- Hsz by lia. unfold first_free.
    set (lo := (c - size) * 32).
    pose proof (leaf_word_testbit max_num lo 0 ltac:(lia)) as Hbit. rewrite Z.add_0_r in Hbit.
    pose proof (leaf_word_range max_num lo).
    destruct (Z.ltb_spec lo max_num); destruct (Z.eqb_spec (leaf_word max_num lo) 0) as [E|E].
    - rewrite E, Z.testbit_0_l in Hbit. done.
    - destruct (asm_bsf_spec (leaf_word max_num lo) ltac:(lia)) as (? & _ & Hmin).
      destruct (decide (asm_bsf (leaf_word max_num lo) = 0)); [lia|]. rewrite Hmin in Hbit by lia. done.
    - done.
    - exfalso. apply E. unfold leaf_word. by rewrite Z.max_l by lia. }
  split; [done|]. intros i Hi. unfold node_ok. rewrite Hv, !Hnv by lia.
  pose proof (first_frame_right D i ltac:(lia) ltac:(lia)).
  rewrite first_frame_left by lia. unfold init_value, first_free. rewrite <- Hsz.
  destruct (Z.leb_spec size i); [lia|]. f_equal.
  destruct (Z.ltb_spec (first_frame D i) max_num).
  - destruct (Z.eqb_spec (first_frame D i) NAN); [unfold NAN in *; lia|done].
  - rewrite Z.eqb_refl. destruct (Z.ltb_spec (first_frame D (2 * i + 1)) max_num); [lia|done].
Qed.

(** [get_next] refines the abstract allocator: on a well-formed tree that
    represents the free set [F] it terminates without an out-of-bounds access,
    returns the least element of [F] and removes exactly that frame, or returns
    [NAN] and changes nothing when [F] is empty; the tree stays well formed. *)
Lemma get_next_ok D size t F :
  repr D size t F ->
  exists r t' F', get_next size t = Ok (r, t') /\ next_spec F r F' /\ repr D size t' F'.
Proof.
  intros Hrep. pose proof Hrep as [Ht HF]. pose proof Ht as [Hs _].
  pose proof (shape_bounds _ _ _ Hs) as Hb.
  destruct (root_least _ _ _ Ht) as (r & Hr & [[-> Hnone]|(Hrange & Hfree & Hleast)]);
    unfold get_next; rewrite (bind_ok _ _ _ _ _ (aget_ok _ _ _ Hr)).
  { exists NAN, t, F. split; [done|]. split; [|done]. left. split; [|done].
    apply set_eq. intros f. rewrite HF. split; [|set_solver]. intros Hf. exfalso.
    apply (Hnone f); [apply Hf|done]. }
  destruct (Z.eqb_spec r NAN) as [->|_]; [unfold NAN in *; lia|].
  destruct (leaf_index r size ltac:(lia) Hb) as (-> & Hli & Hp).
  destruct Hfree as (_ & w & Hw & Hbit).
  pose proof (shape_leaf _ _ _ Hs _ _ (proj1 Hli) Hw) as Hwr.
  rewrite (bind_ok _ _ _ _ _ (aget_ok _ _ _ Hw)), (bind_ok _ _ _ _ _ (aset_ok _ _ _ _ Hw)).
  destruct (repr_set_bit D size t F r w (clr_bit w (r mod 32)) false Hrep ltac:(lia) Hw)
    as (t' & Hu & Hrep').
  { by apply clr_bit_range. }
  { intros j Hj. rewrite clr_bit_testbit by lia. by destruct (j =? r mod 32), (Z.testbit w j). }
  rewrite (bind_ok _ _ _ _ _ Hu).
  exists r, t', (F ∖ {[r]}). split; [done|]. split; [|done].
  right. split; [apply HF; split; eauto|]. split; [|done]. intros g Hg%HF.
  destruct (Z.lt_ge_cases g r); [|lia]. exfalso. apply (Hleast g); [destruct Hg; lia|done].
Qed.

(** [put_back] refines the abstract release: for a frame index within the
    tree it terminates without an out-of-bounds access, and the represented
    free set gains exactly that frame. *)
Lemma put_back_ok D size t F f :
  repr D size t F -> 0 <= f < 32 * size ->
  exists t', put_back size f t = Ok (tt, t') /\ repr D size t' ({[f]} ∪ F).
Proof.
  intros Hrep Hf. pose proof Hrep as [[Hs _] HF]. pose proof (shape_bounds _ _ _ Hs) as Hb.
  unfold put_back. destruct (leaf_index f size Hf Hb) as (-> & Hli & Hp).
  destruct (proj2 (shape_dom _ _ _ Hs (size + f / 32)) ltac:(lia)) as [w Hw].
  pose proof (shape_leaf _ _ _ Hs _ _ (proj1 Hli) Hw) as Hwr.
  rewrite (bind_ok _ _ _ _ _ (aget_ok _ _ _ Hw)), (bind_ok _ _ _ _ _ (aset_ok _ _ _ _ Hw)).
  apply (repr_set_bit D size t F f w _ true Hrep Hf Hw).
  - by apply set_bit_range.
  - intros j Hj. rewrite set_bit_testbit by lia.
    destruct (Z.eqb_spec j (f mod 32)) as [->|]; [by rewrite orb_true_r|by rewrite orb_false_r].
Qed.

Lemma free_initialised D size max_num t f :
  shape_ok D size t -> max_num <= 32 * size ->
  (forall j, 1 <= j < 2 * size -> t !! j = Some (init_value D max_num j)) ->
  free size t f <-> 0 <= f < max_num.
Proof.
  intros Hs Hm Hv. pose proof (shape_bounds _ _ _ Hs) as Hb. pose proof (shape_D _ _ _ Hs) as HD.
  pose proof (shape_size _ _ _ Hs) as Hsz.
  assert (Hbit : 0 <= f < 32 * size ->
    t !! (size + f / 32) = Some (leaf_word max_num (f / 32 * 32)) /\
    Z.testbit (leaf_word max_num (f / 32 * 32)) (f mod 32) = (f <? max_num)).
  { intros Hf. destruct (leaf_index f size Hf Hb) as (_ & Hli & Hp). split.
    - rewrite Hv by lia. unfold init_value. rewrite first_frame_leaf, <- Hsz by lia.
      destruct (Z.leb_spec size (size + f / 32)); [|lia]. do 2 f_equal. lia.
    - rewrite leaf_word_testbit by done. f_equal. rewrite (Z.div_mod f 32) at 3; lia. }
  unfold free. split.
  - intros (Hf & w & Hw & Hb'). destruct (Hbit Hf) as [E1 E2]. rewrite E1 in Hw. injection Hw as <-.
    rewrite E2 in Hb'. apply Z.ltb_lt in Hb'. lia.
  - intros Hf. destruct (Hbit ltac:(lia)) as [E1 E2]. split; [lia|]. eexists. split; [exact E1|].
    rewrite E2. apply Z.ltb_lt. lia.
Qed.

Lemma shape_zeros D size : 1 <= D <= 26 -> size = 2 ^ D -> shape_ok D size (zeros (2 * size)).
Proof.
  intros HD Hsz. split; [done|done|apply zeros_dom|].
  intros i w Hi Hw. assert (0 <= i < 2 * size) as Hr by (apply zeros_dom; eauto).
  rewrite zeros_lookup in Hw by done. injection Hw as <-. lia.
Qed.

(** The size [init_seg_tree] computes for [num] frames. *)
Lemma tree_size num : 32 < num < 2 ^ 31 ->
  exists D, 1 <= D <= 26 /\ Z.shiftr (get_next_pow2 (w32 num)) 5 = 2 ^ D /\ num <= 32 * 2 ^ D < 2 * num.
Proof.
  intros Hn. rewrite w32_small by lia.
  destruct (get_next_pow2_spec num ltac:(lia)) as (E & HE & -> & Hb).
  assert (6 <= E). { apply Z.le_ngt. intros HE'. pose proof (Z.pow_le_mono_r 2 E 5). lia. }
  exists (E - 5). split; [lia|]. rewrite Z.shiftr_div_pow2, <- Z.pow_sub_r by lia. split; [done|].
  replace (32 * 2 ^ (E - 5)) with (2 ^ E); [done|].
  change 32 with (2 ^ 5). rewrite <- Z.pow_add_r by lia. f_equal. lia.
Qed.

(** Building the tree of a core. *)
Lemma init_seg_tree_ok calloc cur_cpu num st :
  32 < num < 2 ^ 31 -> (forall n, calloc n = Some (zeros n)) ->
  cur_cpu = 0 \/ (max_num st = num /\ size st = Z.shiftr (get_next_pow2 (w32 num)) 5) ->
  exists D st' t, init_seg_tree calloc cur_cpu num st = Ok (0, st') /\
    seg_tree st' !! cur_cpu = Some t /\ max_num st' = num /\ num <= 32 * size st' < 2 * num /\
    repr D (size st') t (list_to_set (seqZ 0 num)).
Proof.
  intros Hn Hc Hcpu. destruct (tree_size num Hn) as (D & HD & Hsz & Hb).
  set (st1 := if cur_cpu =? 0 then {| max_num := num; seg_tree := seg_tree st;
                size := Z.shiftr (get_next_pow2 (w32 num)) 5 |} else st).
  assert (Hst1 : max_num st1 = num /\ size st1 = 2 ^ D).
  { unfold st1. destruct (Z.eqb_spec cur_cpu 0); [done|]. destruct Hcpu as [|[-> ->]]; done. }
  destruct Hst1 as [Hmx Hs1]. assert (Hs : shape_ok D (2 ^ D) (zeros (2 * 2 ^ D))) by (by apply shape_zeros).
  pose proof (shape_bounds _ _ _ Hs) as Hbd.
  destruct (init_recursive_ok D (2 ^ D) num (Z.to_nat D) 33 1 (zeros (2 * 2 ^ D)))
    as (t & R & S & _ & V); [lia|done|lia|lia| |].
  { rewrite Z2Nat.id, Z.sub_diag by lia. simpl. lia. }
  assert (V' : forall j, 1 <= j < 2 * 2 ^ D -> t !! j = Some (init_value D num j)).
  { intros j Hj. apply V; [done|]. exists (Z.log2 j). split; [apply Z.log2_nonneg|].
    pose proof (Z.log2_spec j ltac:(lia)). apply Z.div_unique with (j - 2 ^ Z.log2 j); [|lia].
    rewrite Z.pow_succ_r in * by apply Z.log2_nonneg. lia. }
  exists D, {| max_num := num; seg_tree := <[cur_cpu := t]> (<[cur_cpu := zeros (2 * 2 ^ D)]> (seg_tree st1));
               size := 2 ^ D |}, t.
  split; [|cbn [seg_tree size max_num]; split; [apply lookup_insert_eq|split; [done|split; [done|]]]].
  - unfold init_seg_tree. fold st1. rewrite Hc, Hmx, Hs1, (w32_small (2 * 2 ^ D)) by lia.
    unfold on_cpu, zoom, mbind, M_bind, mret, M_ret. cbn [seg_tree size max_num].
    rewrite lookup_insert_eq, R. done.
  - split; [by apply (init_tree_ok D (2 ^ D) num); [done|lia|]|]. intros f.
    rewrite (free_initialised D _ num t f S ltac:(lia) V'), elem_of_list_to_set, elem_of_seqZ. lia.
Qed.

(** ** The allocator of one core *)

(** On core [cpu] the trees are set up for [32 * size] frames and the frames
    in [F] are free. *)
Definition cpu_repr (cpu : Z) (st : seg_state) (F : gset Z) : Prop :=
  exists D t, seg_tree st !! cpu = Some t /\ repr D (size st) t F.

(** What [get_next] and [put_back] leave alone. *)
Definition cpu_frame (cpu : Z) (st st' : seg_state) : Prop :=
  max_num st' = max_num st /\ size st' = size st /\
  forall c, c <> cpu -> seg_tree st' !! c = seg_tree st !! c.

Lemma on_cpu_ok {A} cpu (f : Z -> Z -> M array A) st t a t' :
  seg_tree st !! cpu = Some t -> f (size st) (max_num st) t = Ok (a, t') ->
  on_cpu cpu f st = Ok (a, {| max_num := max_num st; seg_tree := <[cpu := t']> (seg_tree st); size := size st |}).
Proof. intros Ht Hf. unfold on_cpu. rewrite Ht. unfold zoom. by rewrite Hf. Qed.

Lemma cpu_get_next_ok cpu st F :
  cpu_repr cpu st F ->
  exists r st' F', on_cpu cpu (fun size _ => get_next size) st = Ok (r, st') /\
    next_spec F r F' /\ cpu_repr cpu st' F' /\ cpu_frame cpu st st'.
Proof.
  intros (D & t & Ht & Hr). destruct (get_next_ok _ _ _ _ Hr) as (r & t' & F' & Hrun & Hn & Hr').
  eexists r, _, F'. split; [by eapply (on_cpu_ok cpu (fun size _ => get_next size))|]. split; [done|]. split.
  - exists D, t'. split; [apply lookup_insert_eq|done].
  - split; [done|]. split; [done|]. intros c Hc. simpl. by rewrite lookup_insert_ne.
Qed.

Lemma cpu_put_back_ok cpu st F f :
  cpu_repr cpu st F -> 0 <= f < 32 * size st ->
  exists st', on_cpu cpu (fun size _ => put_back size f) st = Ok (tt, st') /\
    cpu_repr cpu st' ({[f]} ∪ F) /\ cpu_frame cpu st st'.
Proof.
  intros (D & t & Ht & Hr) Hf. destruct (put_back_ok _ _ _ _ f Hr Hf) as (t' & Hrun & Hr').
  eexists. split; [by eapply (on_cpu_ok cpu (fun size _ => put_back size f))|]. split.
  - exists D, t'. split; [apply lookup_insert_eq|done].
  - split; [done|]. split; [done|]. intros c Hc. simpl. by rewrite lookup_insert_ne.
Qed.

(** (C18) [get_next] refines the abstract allocator: on a core whose tree
    represents the free set [F] it terminates without an out-of-bounds access,
    returns the least element of [F] and removes exactly that frame, or returns
    [NAN] and changes nothing when [F] is empty; the tree stays well formed and
    the trees of the other cores are untouched. *)
Theorem get_next_refines cpu st F :
  cpu_repr cpu st F ->
  exists r st' F', on_cpu cpu (fun size _ => get_next size) st = Ok (r, st') /\
    cpu_repr cpu st' F' /\ cpu_frame cpu st st' /\
    ((r = NAN /\ F = ∅ /\ F' = ∅) \/
     (r ∈ F /\ (forall f, f ∈ F -> r <= f) /\ F' = F ∖ {[r]})).
Proof.
  intros Hr. destruct (cpu_get_next_ok cpu st F Hr) as (r & st' & F' & ? & Hn & ? & ?).
  exists r, st', F'. split; [done|]. split; [done|]. split; [done|].
  destruct Hn as [(-> & -> & ->)|(? & ? & ->)]; [left|right]; done.
Qed.

(** [put_back] refines the abstract release: for a frame index within the
    core's tree it terminates without an out-of-bounds access, the represented
    free set gains exactly that frame, and the next [get_next] of a frame that
    was released below all free ones returns it. *)
Theorem put_back_refines cpu st F f :
  cpu_repr cpu st F -> 0 <= f < 32 * size st ->
  exists st', on_cpu cpu (fun size _ => put_back size f) st = Ok (tt, st') /\
    cpu_repr cpu st' ({[f]} ∪ F) /\ cpu_frame cpu st st' /\
    ((forall g, g ∈ F -> f <= g) ->
     exists st'', on_cpu cpu (fun size _ => get_next size) st' = Ok (f, st'')).
Proof.
  intros Hr Hf. destruct (cpu_put_back_ok cpu st F f Hr Hf) as (st' & ? & Hr' & ?).
  exists st'. split; [done|]. split; [done|]. split; [done|]. intros Hleast.
  destruct (cpu_get_next_ok cpu st' _ Hr') as (r & st'' & F' & Hrun & Hn & _ & _).
  exists st''. destruct Hn as [(He & _ & _)|(Hin & Hmin & _)].
  { exfalso. assert (f ∈ ({[f]} ∪ F : gset Z)) as Hf' by (apply elem_of_union_l, elem_of_singleton; done).
    rewrite He in Hf'. by apply elem_of_empty in Hf'. }
  replace f with r; [done|]. pose proof (Hmin f ltac:(apply elem_of_union_l, elem_of_singleton; done)).
  apply elem_of_union in Hin as [Hin|Hin]; [by apply elem_of_singleton in Hin|]. specialize (Hleast r Hin). lia.
Qed.

(** [init_seg_tree] on any core builds a tree in which exactly the frames
    [0 .. num-1] are free, whatever the tree held before: the doubling recursion
    terminates, stays inside the array of [2*size] words, and the tree is at
    most twice as large as needed.  Core 0 also sets [size] and [max_num], which
    the other cores then share; without memory it returns -1. *)
Theorem init_seg_tree_refines calloc cpu num st :
  32 < num < 2 ^ 31 ->
  cpu = 0 \/ (max_num st = num /\ size st = Z.shiftr (get_next_pow2 (w32 num)) 5) ->
  exists st', max_num st' = num /\ num <= 32 * size st' < 2 * num /\
    ((forall n, calloc n = Some (zeros n)) ->
       init_seg_tree calloc cpu num st = Ok (0, st') /\ cpu_repr cpu st' (list_to_set (seqZ 0 num))) /\
    ((forall n, calloc n = None) -> exists st'', init_seg_tree calloc cpu num st = Ok (-1, st'')).
Proof.
  intros Hn Hcpu.
  destruct (init_seg_tree_ok (fun n => Some (zeros n)) cpu num st Hn ltac:(done) Hcpu)
    as (D & st' & t & Hrun & Ht & Hm & Hs & Hr).
  exists st'. split; [done|]. split; [done|]. split.
  - intros Hc. split; [|by exists D, t]. revert Hrun. unfold init_seg_tree. by rewrite Hc.
  - intros Hc. unfold init_seg_tree. rewrite Hc. by eexists.
Qed.

(** ** A concrete tree: 64 free frames in two leaves *)

Definition two_leaves (root a b : Z) : array :=
  <[0 := 0]> (<[1 := root]> (<[2 := a]> (<[3 := b]> ∅))).
Definition demo_tree : array := two_leaves 0 (2 ^ 32 - 1) (2 ^ 32 - 1).
Definition demo_full : array := two_leaves NAN 0 0.

Lemma two_leaves_shape root a b : 0 <= a < 2 ^ 32 -> 0 <= b < 2 ^ 32 -> shape_ok 1 2 (two_leaves root a b).
Proof.
  intros Ha Hb. assert (Hl : forall i, 0 <= i < 4 -> i = 0 \/ i = 1 \/ i = 2 \/ i = 3) by lia.
  split; [lia|done| |].
  - intros i. split.
    + intros [v Hv]. destruct (decide (0 <= i < 4)); [lia|]. revert Hv. unfold two_leaves.
      by rewrite !lookup_insert_ne, lookup_empty by lia.
    + intros [-> | [-> | [-> | ->]]]%Hl; by eexists.
  - intros i w Hi Hw. destruct (decide (0 <= i < 4)) as [[-> | [-> | [-> | ->]]]%Hl|]; [lia|lia|..].
    + by injection Hw as <-.
    + by injection Hw as <-.
    + revert Hw. unfold two_leaves. by rewrite !lookup_insert_ne, lookup_empty by lia.
Qed.

Lemma demo_shape : shape_ok 1 2 demo_tree.
Proof. apply two_leaves_shape; lia. Qed.

(** A tree with every frame taken. *)
Lemma demo_full_repr : repr 1 2 demo_full ∅.
Proof.
  split; [split; [apply two_leaves_shape; lia|]|].
  - intros i Hi. assert (i = 1) as -> by lia. by vm_compute.
  - intros f. split; [intros Hf; by apply elem_of_empty in Hf|]. intros (Hf & w & Hw & Hb).
    pose proof (Z.div_mod f 32 ltac:(lia)). pose proof (Z.mod_pos_bound f 32 ltac:(lia)).
    assert (f / 32 = 0 \/ f / 32 = 1) as [E | E] by lia; rewrite E in Hw; injection Hw as <-;
      by rewrite Z.testbit_0_l in Hb.
Qed.

Lemma demo_values j : 1 <= j < 2 * 2 -> demo_tree !! j = Some (init_value 1 64 j).
Proof. intros H. assert (j = 1 \/ j = 2 \/ j = 3) as [-> | [-> | ->]] by lia; by vm_compute. Qed.

Lemma demo_repr : repr 1 2 demo_tree (list_to_set (seqZ 0 64)).
Proof.
  split; [apply (init_tree_ok 1 2 64); [apply demo_shape|lia|apply demo_values]|].
  intros f. rewrite elem_of_list_to_set, elem_of_seqZ.
  rewrite (free_initialised 1 2 64); [lia|apply demo_shape|lia|apply demo_values].
Qed.

Definition demo_seg : seg_state := {| max_num := 64; seg_tree := {[ 3 := demo_tree ]}; size := 2 |}.

Lemma demo_cpu_repr : cpu_repr 3 demo_seg (list_to_set (seqZ 0 64)).
Proof. exists 1, demo_tree. split; [done|apply demo_repr]. Qed.

Lemma get_next_witness :
  exists r st' F', on_cpu 3 (fun size _ => get_next size) demo_seg = Ok (r, st') /\
    cpu_repr 3 st' F' /\ r = 0.
Proof.
  destruct (get_next_refines 3 demo_seg _ demo_cpu_repr) as (r & st' & F' & H1 & H2 & _).
  exists r, st', F'. split; [exact H1|]. split; [exact H2|]. vm_compute in H1. injection H1 as <- _. reflexivity.
Defined.

Lemma put_back_witness :
  exists st', on_cpu 3 (fun size _ => put_back size 33) demo_seg = Ok (tt, st') /\
    cpu_repr 3 st' ({[33]} ∪ list_to_set (seqZ 0 64)).
Proof.
  destruct (put_back_refines 3 demo_seg _ 33 demo_cpu_repr ltac:(simpl; lia)) as (st' & H1 & H2 & _).
  exists st'. exact (conj H1 H2).
Defined.

Lemma init_seg_tree_witness :
  exists st', init_seg_tree (fun n => Some (zeros n)) 0 100 {| max_num := 0; seg_tree := ∅; size := 0 |}
      = Ok (0, st') /\ cpu_repr 0 st' (list_to_set (seqZ 0 100)).
Proof.
  destruct (init_seg_tree_refines (fun n => Some (zeros n)) 0 100
    {| max_num := 0; seg_tree := ∅; size := 0 |} ltac:(lia) (or_introl eq_refl)) as (st' & _ & _ & H & _).
  exists st'. exact (H (fun _ => eq_refl)).
Defined.

End SegTree.
