(* ===== verification/SimpleQueue.v ===== *)
(** * Intrusive doubly linked queue (src/kern/simple_queue.c)

    The queue links nodes supplied by its callers between two sentinels.  The
    routines are translated at pointer level over a heap of nodes; the
    refinement theorems relate a well-formed chain to the list of its nodes,
    and the list functions of [QSpec] are what the other components use. *)

From S2P Require Import Prelude.
From Stdlib Require Import ZArith Lia.
From stdpp Require Import base gmap list tactics numbers.
#[local] Open Scope Z_scope.

(** ** What the queue promises to its clients *)

Module QSpec.
Section qspec.
Context {A : Type}.
Definition enqueue (q : list A) (a : A) : list A := q ++ [a].
Definition dequeue (q : list A) : option (A * list A) :=
  match q with [] => None | a :: q' => Some (a, q') end.
(** Remove the first element whose key is [tid]. *)
Fixpoint remove_tid (tid_of : A -> Z) (tid : Z) (q : list A) : option (A * list A) :=
  match q with
  | [] => None
  | a :: q' =>
      if tid_of a =? tid then Some (a, q')
      else match remove_tid tid_of tid q' with
           | Some (x, r) => Some (x, a :: r)
           | None => None
           end
  end.
Definition is_exist_tid (tid_of : A -> Z) (tid : Z) (q : list A) : bool :=
  existsb (fun a => tid_of a =? tid) q.

(** The removed element is the first one with the key. *)
Lemma remove_tid_split (tid_of : A -> Z) tid q a q' :
  remove_tid tid_of tid q = Some (a, q') ->
  exists q1 q2, q = q1 ++ a :: q2 /\ q' = q1 ++ q2 /\ tid_of a = tid /\
    Forall (fun b => tid_of b <> tid) q1.
Proof.
  revert q'. induction q as [|b q IH]; intros q' H; [done|]. simpl in H.
  destruct (Z.eqb_spec (tid_of b) tid).
  - injection H as <- <-. exists [], q. split; [done|]. split; [done|]. by split.
  - destruct (remove_tid tid_of tid q) as [[x r]|]; [|done]. injection H as <- <-.
    destruct (IH r eq_refl) as (q1 & q2 & -> & -> & ? & ?). exists (b :: q1), q2. by repeat constructor.
Qed.

End qspec.
End QSpec.

Module SimpleQueue.

(** [simple_node_t]; pointers are addresses, NULL is 0. *)
Record simple_node_t := mk_node { thr : Z; next : Z; prev : Z }.
Abbreviation heap := (gmap Z simple_node_t).
Definition NULL : Z := 0.

(** [simple_queue_t] holds its two sentinels one after the other; a node
    takes 12 bytes. *)
Definition head (deque : Z) : Z := deque.
Definition tail (deque : Z) : Z := deque + 12.

Definition load (p : Z) : M heap simple_node_t := fun h => deref (h !! p) h.
Definition set_next (p v : Z) : M heap unit :=
  n ← load p; modify (fun h => <[p := mk_node (thr n) v (prev n)]> h).
Definition set_prev (p v : Z) : M heap unit :=
  n ← load p; modify (fun h => <[p := mk_node (thr n) (next n) v]> h).

Definition simple_queue_init (deque : Z) : M heap Z :=
  set_prev (head deque) NULL;;
  set_next (head deque) (tail deque);;
  set_prev (tail deque) (head deque);;
  set_next (tail deque) NULL;;
  mret 0.

Definition simple_queue_enqueue (deque new_node : Z) : M heap Z :=
  set_next new_node (tail deque);;
  t ← load (tail deque);
  set_prev new_node (prev t);;
  t ← load (tail deque);
  set_next (prev t) new_node;;
  set_prev (tail deque) new_node;;
  mret 0.

Definition simple_queue_dequeue (deque : Z) : M heap Z :=
  hd ← load (head deque);
  if next hd =? tail deque then mret NULL
  else
    let rv := next hd in
    first ← load (next hd);
    set_next (head deque) (next first);;
    hd ← load (head deque);
    set_prev (next hd) (head deque);;
    mret rv.

Section by_tid.
(** The thread id reached from the data field of a node: through the tcb
    for [simple_queue_remove_tid], through the message and its requesting
    thread for [smp_simple_queue_remove_tid]. *)
Context (tid_of : Z -> option Z).

Fixpoint remove_tid_loop (fuel : nat) (deque node tid : Z) : M heap Z :=
  match fuel with
  | O => nofuel
  | S fuel =>
      n ← load node;
      if next n =? tail deque then mret NULL
      else
        nn ← load (next n);
        t ← deref (tid_of (thr nn));
        if t =? tid then
          let tmp := next n in
          set_next node (next nn);;
          n ← load node;
          set_prev (next n) node;;
          mret tmp
        else remove_tid_loop fuel deque (next n) tid
  end.

Definition simple_queue_remove_tid (fuel : nat) (deque tid : Z) : M heap Z :=
  remove_tid_loop fuel deque (head deque) tid.

Fixpoint is_exist_loop (fuel : nat) (deque node tid : Z) : M heap Z :=
  match fuel with
  | O => nofuel
  | S fuel =>
      n ← load node;
      if next n =? tail deque then mret 0
      else
        nn ← load (next n);
        t ← deref (tid_of (thr nn));
        if t =? tid then mret 1 else is_exist_loop fuel deque (next n) tid
  end.

Definition simple_queue_is_exist_tid (fuel : nat) (deque tid : Z) : M heap Z :=
  is_exist_loop fuel deque (head deque) tid.
End by_tid.

(** The two readings of a node's data field. *)
Definition tcb_tid (tcb_tids : gmap Z Z) (p : Z) : option Z := tcb_tids !! p.
Definition msg_tid (msg_req_thr tcb_tids : gmap Z Z) (p : Z) : option Z :=
  tcb ← msg_req_thr !! p; tcb_tids !! tcb.

Definition smp_simple_queue_remove_tid (msg_req_thr tcb_tids : gmap Z Z) (fuel : nat)
    (deque tid : Z) : M heap Z :=
  simple_queue_remove_tid (msg_tid msg_req_thr tcb_tids) fuel deque tid.

Definition simple_queue_destroy (deque : Z) : M heap Z :=
  hd ← load (head deque);
  mret (if next hd =? tail deque then 0 else -1).

Fixpoint size_loop (fuel : nat) (deque node count : Z) : M heap Z :=
  match fuel with
  | O => nofuel
  | S fuel =>
      n ← load node;
      if next n =? tail deque then mret count
      else size_loop fuel deque (next n) (count + 1)
  end.

Definition simple_queue_size (fuel : nat) (deque : Z) : M heap Z :=
  size_loop fuel deque (head deque) 0.

(** ** Well-formed chains *)

(** [b] follows [a] in the chain. *)
Definition link (h : heap) (a b : Z) : Prop :=
  (exists na, h !! a = Some na /\ next na = b) /\ (exists nb, h !! b = Some nb /\ prev nb = a).

Fixpoint linked (h : heap) (ns : list Z) : Prop :=
  match ns with
  | a :: ((b :: _) as rest) => link h a b /\ linked h rest
  | _ => True
  end.

(** The queue at [deque] holds the nodes [l], in order. *)
Definition queue_rep (h : heap) (deque : Z) (l : list Z) : Prop :=
  NoDup (head deque :: l ++ [tail deque]) /\ linked h (head deque :: l ++ [tail deque]).

(** Data fields, and nodes outside [ns], are not written. *)
Definition frame (ns : list Z) (h h' : heap) : Prop :=
  forall p, thr <$> h' !! p = thr <$> h !! p /\ (p ∉ ns -> h' !! p = h !! p).

Lemma linked_cons2 h a b l : linked h (a :: b :: l) <-> link h a b /\ linked h (b :: l).
Proof. done. Qed.

Lemma linked_app h xs a ys : linked h (xs ++ a :: ys) <-> linked h (xs ++ [a]) /\ linked h (a :: ys).
Proof.
  induction xs as [|x xs IH]; [simpl; tauto|].
  destruct xs as [|x' xs]; simpl in *; tauto.
Qed.

Lemma link_frame h p n a b : p <> a -> p <> b -> link h a b -> link (<[p := n]> h) a b.
Proof. intros ?? [(na & ? & ?) (nb & ? & ?)]. split; [exists na|exists nb]; by rewrite lookup_insert_ne. Qed.

Lemma linked_frame h p n xs : p ∉ xs -> linked h xs -> linked (<[p := n]> h) xs.
Proof.
  induction xs as [|a xs IH]; [done|]. destruct xs as [|b xs]; [done|].
  rewrite !linked_cons2, !not_elem_of_cons. intros (? & ? & ?) [? ?].
  split; [by apply link_frame|]. apply IH; [|done]. by rewrite not_elem_of_cons.
Qed.

(** Changing the [next] of the last node, or the [prev] of the first one. *)
Lemma linked_last_next h p n v xs :
  h !! p = Some n -> p ∉ xs -> linked h (xs ++ [p]) ->
  linked (<[p := mk_node (thr n) v (prev n)]> h) (xs ++ [p]).
Proof.
  intros Hp. induction xs as [|a xs IH]; [done|]. rewrite not_elem_of_cons. intros [Ha Hxs].
  destruct xs as [|b xs]; simpl app in *; rewrite !linked_cons2.
  - intros [[(na & Hna & <-) (nb & Hnb & <-)] _]. split; [|done]. rewrite Hp in Hnb. injection Hnb as <-.
    split; [exists na; by rewrite lookup_insert_ne|]. eexists. by rewrite lookup_insert_eq.
  - intros [Hl Hr]. split; [|by apply IH]. apply link_frame; [done| |done].
    rewrite not_elem_of_cons in Hxs. tauto.
Qed.

Lemma linked_first_prev h p n v ys :
  h !! p = Some n -> p ∉ ys -> linked h (p :: ys) ->
  linked (<[p := mk_node (thr n) (next n) v]> h) (p :: ys).
Proof.
  intros Hp. destruct ys as [|b ys]; [done|]. rewrite !linked_cons2, not_elem_of_cons.
  intros [Hb Hys] [[(na & Hna & <-) (nb & Hnb & <-)] Hr]. rewrite Hp in Hna. injection Hna as <-.
  split; [|apply linked_frame; [by rewrite not_elem_of_cons|done]].
  split; [eexists; by rewrite lookup_insert_eq|]. exists nb. by rewrite lookup_insert_ne.
Qed.

Lemma set_next_ok h p n v :
  h !! p = Some n -> set_next p v h = Ok (tt, <[p := mk_node (thr n) v (prev n)]> h).
Proof. intros H. unfold set_next, load, mbind, M_bind, deref. by rewrite H. Qed.

Lemma set_prev_ok h p n v :
  h !! p = Some n -> set_prev p v h = Ok (tt, <[p := mk_node (thr n) (next n) v]> h).
Proof. intros H. unfold set_prev, load, mbind, M_bind, deref. by rewrite H. Qed.

Lemma load_ok h p n : h !! p = Some n -> load p h = Ok (n, h).
Proof. intros H. unfold load, deref. by rewrite H. Qed.

Lemma frame_refl ns h : frame ns h h.
Proof. intros p. done. Qed.

Lemma frame_insert ns h h' p n n' :
  frame ns h h' -> p ∈ ns -> h' !! p = Some n' -> thr n = thr n' -> frame ns h (<[p := n]> h').
Proof.
  intros Hf Hp Hn Ht q. destruct (Hf q) as [Hq1 Hq2]. rewrite lookup_insert. case_decide; [subst|done].
  split; [|contradiction]. rewrite <- Hq1, Hn. simpl. by rewrite Ht.
Qed.

(** Splicing out the node between [a] and [b]. *)
Lemma unlink_ok h xs a x b ys :
  NoDup (xs ++ a :: x :: b :: ys) -> linked h (xs ++ a :: x :: b :: ys) ->
  exists na nx h1 h2, h !! a = Some na /\ next na = x /\ h !! x = Some nx /\ next nx = b /\
    set_next a b h = Ok (tt, h1) /\ load a h1 = Ok (mk_node (thr na) b (prev na), h1) /\
    set_prev b a h1 = Ok (tt, h2) /\ linked h2 (xs ++ a :: b :: ys) /\
    frame (xs ++ a :: x :: b :: ys) h h2.
Proof.
  intros Hnd Hl. rewrite linked_app, !linked_cons2 in Hl.
  destruct Hl as (H1 & [(na & Hna & Hnax) _] & [(nx & Hnx & Hnxb) (nb & Hnb & _)] & H2).
  apply list.NoDup_app in Hnd as (_ & Hd & Hnd). rewrite !list.NoDup_cons, !not_elem_of_cons in Hnd.
  destruct Hnd as ((Hax & Hab & Hays) & (Hxb & _) & Hbys & _).
  assert ((a ∉ xs) /\ (b ∉ xs)) as [Haxs Hbxs].
  { split; intros Hi; apply Hd in Hi; set_solver. }
  exists na, nx, (<[a := mk_node (thr na) b (prev na)]> h), (<[b := mk_node (thr nb) (next nb) a]>
    (<[a := mk_node (thr na) b (prev na)]> h)).
  split; [done|]. split; [done|]. split; [done|]. split; [done|].
  split; [by apply set_next_ok|]. split; [apply load_ok, lookup_insert_eq|].
  split; [apply set_prev_ok; by rewrite lookup_insert_ne|]. split.
  - rewrite linked_app, linked_cons2. split; [|split].
    + apply linked_frame; [rewrite elem_of_app, list_elem_of_singleton; naive_solver|].
      by apply linked_last_next.
    + split; [|eexists; by rewrite lookup_insert_eq].
      eexists. rewrite lookup_insert_ne by done. by rewrite lookup_insert_eq.
    + apply linked_first_prev; [by rewrite lookup_insert_ne|done|].
      apply linked_frame; [by rewrite not_elem_of_cons|done].
  - eapply frame_insert; [eapply frame_insert; [apply frame_refl| |exact Hna|done]| | |].
    + set_solver.
    + set_solver.
    + rewrite lookup_insert_ne by done. exact Hnb.
    + done.
Qed.

(** The heap after linking node [n] between [x] and the tail [t]. *)
Definition enqueued (h : heap) (x n t : Z) (nx nn nt : simple_node_t) : heap :=
  <[t := mk_node (thr nt) (next nt) n]>
  (<[x := mk_node (thr nx) n (prev nx)]>
  (<[n := mk_node (thr nn) t x]>
  (<[n := mk_node (thr nn) t (prev nn)]> h))).

Lemma enqueue_run h deque x n nx nn nt :
  h !! n = Some nn -> h !! x = Some nx -> h !! tail deque = Some nt -> prev nt = x ->
  n <> x -> n <> tail deque -> x <> tail deque ->
  simple_queue_enqueue deque n h = Ok (0, enqueued h x n (tail deque) nx nn nt).
Proof.
  intros Hn Hx Ht Hp Hnx Hnt Hxt. unfold simple_queue_enqueue, enqueued.
  rewrite (bind_ok _ _ _ _ _ (set_next_ok _ _ _ _ Hn)).
  erewrite bind_ok by (apply load_ok; rewrite lookup_insert_ne by done; exact Ht). rewrite Hp.
  erewrite bind_ok by (apply set_prev_ok, lookup_insert_eq).
  erewrite bind_ok by (apply load_ok; rewrite !lookup_insert_ne by done; exact Ht). rewrite Hp.
  erewrite bind_ok by (apply set_next_ok; rewrite !lookup_insert_ne by done; exact Hx).
  by erewrite bind_ok by (apply set_prev_ok; rewrite !lookup_insert_ne by done; exact Ht).
Qed.

Lemma enqueued_linked h ys x n t nx nn nt :
  h !! n = Some nn -> h !! x = Some nx -> h !! t = Some nt -> linked h (ys ++ [x]) ->
  n <> x -> n <> t -> x <> t -> n ∉ ys -> x ∉ ys -> t ∉ ys ->
  linked (enqueued h x n t nx nn nt) (ys ++ [x; n; t]).
Proof.
  intros Hn Hx Ht Hl Hnx Hnt Hxt Hny Hxy Hty. unfold enqueued.
  rewrite linked_app, !linked_cons2. split; [|split; [|split; [|done]]].
  - apply linked_frame; [set_solver|].
    apply linked_last_next; [by rewrite !lookup_insert_ne|done|].
    do 2 (apply linked_frame; [set_solver|]). done.
  - split; eexists; rewrite lookup_insert_ne by done.
    + by rewrite lookup_insert_eq.
    + rewrite lookup_insert_ne by done. by rewrite lookup_insert_eq.
  - split; eexists.
    + rewrite !(lookup_insert_ne _ _ n) by done. by rewrite lookup_insert_eq.
    + by rewrite lookup_insert_eq.
Qed.

(** [simple_queue_enqueue] refines appending to a list: on a well-formed
    queue and an allocated node that is not in it, the node becomes the last
    one, and only links of the queue's nodes and of the new node change. *)
Theorem simple_queue_enqueue_refines h deque l n nn :
  queue_rep h deque l -> h !! n = Some nn -> n ∉ head deque :: l ++ [tail deque] ->
  exists h', simple_queue_enqueue deque n h = Ok (0, h') /\
    queue_rep h' deque (QSpec.enqueue l n) /\ frame (n :: head deque :: l ++ [tail deque]) h h'.
Proof.
  intros [Hnd Hl] Hn Hni. unfold queue_rep, QSpec.enqueue.
  assert (exists ys x, head deque :: l = ys ++ [x]) as (ys & x & Hx).
  { destruct (exists_last (l := head deque :: l)) as (ys & x & ->); [done|eauto]. }
  set (t := tail deque) in *. rewrite !app_comm_cons, Hx, <- !app_assoc in *. simpl app in *.
  rewrite linked_app, linked_cons2 in Hl. destruct Hl as (Hy & [(nx & Hnx & _) (nt & Hnt & Hpt)] & _).
  apply list.NoDup_app in Hnd as (Hndy & Hd & Hnd). rewrite !list.NoDup_cons, not_elem_of_cons in Hnd.
  destruct Hnd as ((Hxt & _) & _ & _).
  assert (n <> x /\ n <> t /\ (n ∉ ys)) as (Hnx' & Hnt' & Hny) by set_solver.
  assert ((x ∉ ys) /\ (t ∉ ys)) as [Hxy Hty] by (split; intros Hi; apply Hd in Hi; set_solver).
  exists (enqueued h x n t nx nn nt). split; [by apply enqueue_run|]. split; [split|].
  - apply list.NoDup_app. split; [done|]. split; [intros z Hz; specialize (Hd z Hz); set_solver|].
    rewrite !list.NoDup_cons. split; [set_solver|]. split; [set_solver|]. split; [set_solver|apply NoDup_nil_2].
  - by apply enqueued_linked.
  - unfold enqueued.
    apply (frame_insert _ _ _ _ _ nt); [|set_solver|rewrite !lookup_insert_ne by done; done|done].
    apply (frame_insert _ _ _ _ _ nx); [|set_solver|rewrite !lookup_insert_ne by done; done|done].
    eapply frame_insert; [|set_solver|apply lookup_insert_eq|done].
    by apply (frame_insert _ _ _ _ _ nn); [apply frame_refl|set_solver| |].
Qed.

(** [simple_queue_dequeue] refines removing the head of a list: it returns
    NULL and changes nothing on an empty queue, and otherwise returns the first
    node and leaves a well-formed queue of the remaining ones. *)
Theorem simple_queue_dequeue_refines h deque l :
  queue_rep h deque l ->
  match QSpec.dequeue l with
  | None => simple_queue_dequeue deque h = Ok (NULL, h)
  | Some (x, l') => exists h', simple_queue_dequeue deque h = Ok (x, h') /\
      queue_rep h' deque l' /\ frame (head deque :: l ++ [tail deque]) h h'
  end.
Proof.
  intros [Hnd Hl]. destruct l as [|x l]; simpl QSpec.dequeue; cbv iota; unfold simple_queue_dequeue.
  - simpl in Hl. destruct Hl as [[(nh & Hh & Hn) _] _].
    rewrite (bind_ok _ _ _ _ _ (load_ok _ _ _ Hh)), Hn, Z.eqb_refl. done.
  - destruct (l ++ [tail deque]) as [|b ys] eqn:E; [by apply app_eq_nil in E as []|].
    simpl app in *. rewrite E in *.
    destruct (unlink_ok h [] (head deque) x b ys Hnd Hl)
      as (nh & nx & h1 & h2 & Hh & Hhx & Hx & Hxb & R1 & R2 & R3 & Hl2 & Hf).
    exists h2. split; [|split; [|done]].
    + rewrite (bind_ok _ _ _ _ _ (load_ok _ _ _ Hh)), Hhx.
      assert (x <> tail deque) as Hxt.
      { intros ->. apply NoDup_cons_1_2, NoDup_cons_1_1 in Hnd. apply Hnd. rewrite <- E. set_solver. }
      destruct (Z.eqb_spec x (tail deque)); [done|].
      rewrite (bind_ok _ _ _ _ _ (load_ok _ _ _ Hx)), Hxb.
      by rewrite (bind_ok _ _ _ _ _ R1), (bind_ok _ _ _ _ _ R2), (bind_ok _ _ _ _ _ R3).
    + unfold queue_rep. rewrite E. split; [|done].
      rewrite !list.NoDup_cons in *. set_solver.
Qed.

Lemma NoDup_tail_ne (xs rest : list Z) (a r t : Z) : NoDup (xs ++ a :: r :: rest ++ [t]) -> r <> t.
Proof.
  intros (_ & _ & Hnd)%list.NoDup_app ->. apply NoDup_cons_1_2, NoDup_cons_1_1 in Hnd. set_solver.
Qed.

(** Reading the successor of a node of the chain. *)
Lemma linked_next h xs a b ys :
  linked h (xs ++ a :: b :: ys) -> exists na, h !! a = Some na /\ next na = b.
Proof. rewrite linked_app, linked_cons2. intros (_ & [? _] & _). done. Qed.

Section scans.
(** [key x] is the thread id found through the data field of node [x]. *)
Context (tid_of : Z -> option Z) (key : Z -> Z).
Definition keyed (h : heap) (l : list Z) : Prop :=
  forall x n, x ∈ l -> h !! x = Some n -> tid_of (thr n) = Some (key x).

Lemma remove_tid_loop_ok h deque tid : forall rest xs a (fuel : nat),
  let ns := xs ++ a :: rest ++ [tail deque] in
  NoDup ns -> linked h ns -> keyed h rest -> (length rest < fuel)%nat ->
  match QSpec.remove_tid key tid rest with
  | None => remove_tid_loop tid_of fuel deque a tid h = Ok (NULL, h)
  | Some (x, rest') => exists h', remove_tid_loop tid_of fuel deque a tid h = Ok (x, h') /\
      linked h' (xs ++ a :: rest' ++ [tail deque]) /\ frame ns h h'
  end.
Proof.
  induction rest as [|r rest IH]; intros xs a fuel ns Hnd Hl Hk Hfu;
    (destruct fuel as [|fuel]; [simpl in Hfu; lia|]); simpl QSpec.remove_tid; cbn [remove_tid_loop].
  - destruct (linked_next _ _ _ _ _ Hl) as (na & Hna & Hnext).
    rewrite (bind_ok _ _ _ _ _ (load_ok _ _ _ Hna)), Hnext, Z.eqb_refl. done.
  - destruct (linked_next _ _ _ _ _ Hl) as (na & Hna & Hnext).
    pose proof (NoDup_tail_ne _ _ _ _ _ Hnd) as Hrt.
    destruct (rest ++ [tail deque]) as [|b ys] eqn:E; [by apply app_eq_nil in E as []|].
    unfold ns in *. simpl app in Hnd, Hl |- *. rewrite ?E in Hnd, Hl |- *.
    destruct (unlink_ok h xs a r b ys Hnd Hl)
      as (na' & nr & h1 & h2 & Ha & Hax & Hr & Hrb & R1 & R2 & R3 & Hl2 & Hf).
    assert (Hkr : tid_of (thr nr) = Some (key r)) by (apply (Hk r); [set_solver|done]).
    rewrite (bind_ok _ _ _ _ _ (load_ok _ _ _ Hna)), Hnext.
    destruct (Z.eqb_spec r (tail deque)); [done|].
    rewrite (bind_ok _ _ _ _ _ (load_ok _ _ _ Hr)), Hkr.
    rewrite (bind_ok _ _ _ (key r) h eq_refl).
    destruct (Z.eqb_spec (key r) tid).
    + exists h2. rewrite Hrb, ?E. split; [|by split].
      by rewrite (bind_ok _ _ _ _ _ R1), (bind_ok _ _ _ _ _ R2), (bind_ok _ _ _ _ _ R3).
    + specialize (IH (xs ++ [a]) r fuel). cbv zeta in IH. rewrite <- !app_assoc in IH.
      simpl app in IH. specialize (IH Hnd Hl ltac:(intros ???; apply Hk; set_solver) ltac:(simpl in Hfu; lia)).
      destruct (QSpec.remove_tid key tid rest) as [[x rest']|]; [|done].
      destruct IH as (h' & Hrun & Hl' & Hf'). exists h'. rewrite <- app_assoc in Hl'. done.
Qed.

(** [simple_queue_remove_tid] (and, with the message reading of the data
    field, [smp_simple_queue_remove_tid]) unlinks exactly the first node whose
    thread has the given id, keeping the order of the others, and returns
    NULL without changing anything when there is none. *)
Theorem simple_queue_remove_tid_refines h deque l tid fuel :
  queue_rep h deque l -> keyed h l -> (length l < fuel)%nat ->
  match QSpec.remove_tid key tid l with
  | None => simple_queue_remove_tid tid_of fuel deque tid h = Ok (NULL, h)
  | Some (x, l') => exists h', simple_queue_remove_tid tid_of fuel deque tid h = Ok (x, h') /\
      queue_rep h' deque l' /\ frame (head deque :: l ++ [tail deque]) h h'
  end.
Proof.
  intros [Hnd Hl] Hk Hfu. unfold simple_queue_remove_tid.
  pose proof (remove_tid_loop_ok h deque tid l [] (head deque) fuel Hnd Hl Hk Hfu) as H.
  destruct (QSpec.remove_tid key tid l) as [[x l']|] eqn:E; [|done].
  destruct H as (h' & Hrun & Hl' & Hf). exists h'. split; [done|]. split; [|done]. split; [|done].
  destruct (QSpec.remove_tid_split _ _ _ _ _ E) as (l1 & l2 & -> & -> & _).
  assert (head deque :: (l1 ++ x :: l2) ++ [tail deque] ≡ₚ x :: head deque :: (l1 ++ l2) ++ [tail deque])
    as Hp by solve_Permutation.
  rewrite Hp in Hnd. by apply NoDup_cons_1_2 in Hnd.
Qed.

Lemma is_exist_loop_ok h deque tid : forall rest xs a (fuel : nat),
  NoDup (xs ++ a :: rest ++ [tail deque]) -> linked h (xs ++ a :: rest ++ [tail deque]) ->
  keyed h rest -> (length rest < fuel)%nat ->
  is_exist_loop tid_of fuel deque a tid h =
    Ok (if QSpec.is_exist_tid key tid rest then 1 else 0, h).
Proof.
  induction rest as [|r rest IH]; intros xs a fuel Hnd Hl Hk Hfu;
    (destruct fuel as [|fuel]; [simpl in Hfu; lia|]); cbn [is_exist_loop];
    destruct (linked_next _ _ _ _ _ Hl) as (na & Hna & Hnext);
    rewrite (bind_ok _ _ _ _ _ (load_ok _ _ _ Hna)), Hnext.
  - by rewrite Z.eqb_refl.
  - pose proof (NoDup_tail_ne _ _ _ _ _ Hnd) as Hrt. destruct (Z.eqb_spec r (tail deque)); [done|].
    assert (Hl' : linked h ((xs ++ [a]) ++ r :: rest ++ [tail deque])) by (by rewrite <- app_assoc).
    assert (exists nr, h !! r = Some nr) as [nr Hr].
    { rewrite <- app_assoc in Hl'. simpl in Hl'. rewrite linked_app, linked_cons2 in Hl'.
      destruct Hl' as (_ & [_ (nr & ? & _)] & _). eauto. }
    assert (Hkr : tid_of (thr nr) = Some (key r)) by (apply (Hk r); [set_solver|done]).
    rewrite (bind_ok _ _ _ _ _ (load_ok _ _ _ Hr)), Hkr. rewrite (bind_ok _ _ _ (key r) h eq_refl).
    unfold QSpec.is_exist_tid. simpl existsb. destruct (Z.eqb_spec (key r) tid); [done|].
    apply (IH (xs ++ [a])); [by rewrite <- app_assoc|done|intros ???; apply Hk; set_solver|simpl in Hfu; lia].
Qed.
End scans.

Lemma size_loop_ok h deque : forall rest xs a count (fuel : nat),
  NoDup (xs ++ a :: rest ++ [tail deque]) -> linked h (xs ++ a :: rest ++ [tail deque]) ->
  (length rest < fuel)%nat ->
  size_loop fuel deque a count h = Ok (count + Z.of_nat (length rest), h).
Proof.
  induction rest as [|r rest IH]; intros xs a count fuel Hnd Hl Hfu;
    (destruct fuel as [|fuel]; [simpl in Hfu; lia|]); cbn [size_loop];
    destruct (linked_next _ _ _ _ _ Hl) as (na & Hna & Hnext);
    rewrite (bind_ok _ _ _ _ _ (load_ok _ _ _ Hna)), Hnext.
  - rewrite Z.eqb_refl. by rewrite Z.add_0_r.
  - pose proof (NoDup_tail_ne _ _ _ _ _ Hnd) as Hrt. destruct (Z.eqb_spec r (tail deque)); [done|].
    rewrite (IH (xs ++ [a])); [|by rewrite <- app_assoc|by rewrite <- app_assoc|simpl in Hfu; lia].
    do 2 f_equal. simpl length. lia.
Qed.

(** The traversals of a well-formed queue terminate, change nothing and
    answer for the list it holds: membership of a thread id, length, and
    whether it may be destroyed (only when empty). *)
Theorem simple_queue_traversals h deque l tid_of key tid fuel :
  queue_rep h deque l -> keyed tid_of key h l -> (length l < fuel)%nat ->
  simple_queue_is_exist_tid tid_of fuel deque tid h =
    Ok (if QSpec.is_exist_tid key tid l then 1 else 0, h) /\
  simple_queue_size fuel deque h = Ok (Z.of_nat (length l), h) /\
  simple_queue_destroy deque h = Ok (if decide (l = []) then 0 else -1, h).
Proof.
  intros [Hnd Hl] Hk Hfu. split; [|split].
  - by apply (is_exist_loop_ok tid_of key h deque tid l [] (head deque)).
  - unfold simple_queue_size. by rewrite (size_loop_ok h deque l [] (head deque) 0).
  - unfold simple_queue_destroy. destruct l as [|x l].
    + destruct (linked_next h [] _ _ _ Hl) as (na & Hna & Hn).
      rewrite (bind_ok _ _ _ _ _ (load_ok _ _ _ Hna)), Hn, Z.eqb_refl. done.
    + destruct (linked_next h [] _ _ _ Hl) as (na & Hna & Hn).
      rewrite (bind_ok _ _ _ _ _ (load_ok _ _ _ Hna)), Hn.
      pose proof (NoDup_tail_ne [] _ _ _ _ Hnd). destruct (Z.eqb_spec x (tail deque)); done.
Qed.

(** [simple_queue_init] turns two allocated sentinels into an empty queue,
    whatever they held before. *)
Theorem simple_queue_init_empty h deque nh nt :
  h !! head deque = Some nh -> h !! tail deque = Some nt ->
  exists h', simple_queue_init deque h = Ok (0, h') /\ queue_rep h' deque [] /\
    frame [head deque; tail deque] h h'.
Proof.
  intros Hh Ht. assert (Hne : head deque <> tail deque) by (unfold head, tail; lia).
  unfold simple_queue_init. eexists. split; [|split].
  - rewrite (bind_ok _ _ _ _ _ (set_prev_ok _ _ _ _ Hh)).
    erewrite bind_ok by (apply set_next_ok, lookup_insert_eq).
    erewrite bind_ok by (apply set_prev_ok; rewrite !lookup_insert_ne by done; exact Ht).
    erewrite bind_ok by (apply set_next_ok, lookup_insert_eq). done.
  - split; simpl app.
    + apply NoDup_cons_2; [by rewrite list_elem_of_singleton|apply NoDup_singleton].
    + split; [|done]. split; eexists.
      * rewrite !(lookup_insert_ne _ (tail deque)) by done. by rewrite lookup_insert_eq.
      * by rewrite lookup_insert_eq.
  - eapply frame_insert; [|set_solver|apply lookup_insert_eq|done].
    eapply frame_insert; [|set_solver|rewrite !lookup_insert_ne by done; exact Ht|done].
    eapply frame_insert; [|set_solver|apply lookup_insert_eq|done].
    by eapply frame_insert; [apply frame_refl|set_solver|exact Hh|].
Qed.

(** ** A concrete queue: nodes 200 and 300 between the sentinels at 100 and
    112, and a free node 400; the data field of a node names its thread. *)
Definition demo_heap : heap :=
  {[100 := mk_node 0 200 0; 200 := mk_node 1 300 100; 300 := mk_node 2 112 200;
    112 := mk_node 0 0 300; 400 := mk_node 3 77 88]}.

Lemma demo_queue : queue_rep demo_heap 100 [200; 300].
Proof.
  split; [apply (bool_decide_unpack _); by vm_compute|].
  repeat split; eexists; by split.
Qed.

Lemma demo_keyed : keyed Some (fun x => x / 100 - 1) demo_heap [200; 300].
Proof. intros x n Hx Hn. repeat (apply elem_of_cons in Hx as [->|Hx]; [by injection Hn as <-|]). by apply elem_of_nil in Hx. Qed.

Lemma simple_queue_enqueue_witness :
  exists h', simple_queue_enqueue 100 400 demo_heap = Ok (0, h') /\ queue_rep h' 100 [200; 300; 400].
Proof.
  destruct (simple_queue_enqueue_refines demo_heap 100 [200; 300] 400 (mk_node 3 77 88) demo_queue eq_refl)
    as (h' & ? & ? & _); [|by exists h'].
  intros H. repeat (apply elem_of_cons in H as [H|H]; [discriminate H|]). by apply elem_of_nil in H.
Defined.

Lemma simple_queue_dequeue_witness :
  exists h', simple_queue_dequeue 100 demo_heap = Ok (200, h') /\ queue_rep h' 100 [300].
Proof. destruct (simple_queue_dequeue_refines demo_heap 100 _ demo_queue) as (h' & ? & ? & _). by exists h'. Defined.

Lemma simple_queue_remove_tid_witness :
  exists h', simple_queue_remove_tid Some 3 100 2 demo_heap = Ok (300, h') /\ queue_rep h' 100 [200].
Proof.
  destruct (simple_queue_remove_tid_refines Some _ demo_heap 100 _ 2 3 demo_queue demo_keyed
    ltac:(simpl; lia)) as (h' & ? & ? & _). by exists h'.
Defined.

Lemma simple_queue_traversals_witness :
  simple_queue_is_exist_tid Some 3 100 2 demo_heap = Ok (1, demo_heap) /\
  simple_queue_size 3 100 demo_heap = Ok (2, demo_heap) /\
  simple_queue_destroy 100 demo_heap = Ok (-1, demo_heap).
Proof. exact (simple_queue_traversals demo_heap 100 _ _ _ 2 3 demo_queue demo_keyed ltac:(simpl; lia)). Defined.

Lemma simple_queue_init_witness :
  exists h', simple_queue_init 100 demo_heap = Ok (0, h') /\ queue_rep h' 100 [].
Proof. destruct (simple_queue_init_empty demo_heap 100 _ _ eq_refl eq_refl) as (h' & ? & ? & _). by exists h'. Defined.

End SimpleQueue.
