(* ===== verification/PriorityQueue.v ===== *)
(** * Priority queue (src/kern/priority_queue.c)

    A singly linked list kept sorted by a comparison function supplied by its
    user (the sleep queue of src/kern/timer_driver.c).  Nodes are supplied by
    the caller; the queue only writes [next] fields.  [PQSpec] is the abstract
    sorted list, [PriorityQueue] the pointer program and its refinement. *)

From S2P Require Import Prelude.
From Stdlib Require Import ZArith Lia Sorted.
From stdpp Require Import base gmap list tactics numbers.

#[local] Open Scope Z_scope.

(** ** Abstract specification *)
Module PQSpec.
Section spec.
Context {A : Type} (cmp : A -> A -> Z).

(** Insertion after every strictly smaller element of the leading run. *)
Fixpoint insert (x : A) (l : list A) : list A :=
  match l with
  | [] => [x]
  | y :: l' => if 0 <? cmp x y then y :: insert x l' else x :: l
  end.

Definition le (x y : A) : Prop := cmp x y <= 0.

Lemma insert_perm x l : insert x l ≡ₚ x :: l.
Proof.
  induction l as [|y l IH]; simpl; [done|]. destruct (0 <? cmp x y); [|done].
  rewrite IH. apply Permutation_swap.
Qed.

(** Where the element lands. *)
Lemma insert_split x l : exists l1 l2, l = l1 ++ l2 /\ insert x l = l1 ++ x :: l2 /\
  Forall (fun y => 0 < cmp x y) l1 /\ match l2 with [] => True | y :: _ => cmp x y <= 0 end.
Proof.
  induction l as [|y l IH]; simpl; [by exists [], []|].
  destruct (Z.ltb_spec 0 (cmp x y)); [|by exists [], (y :: l)].
  destruct IH as (l1 & l2 & -> & -> & ? & ?). exists (y :: l1), l2. by repeat constructor.
Qed.

Lemma insert_sorted x l :
  (forall a b, 0 < cmp a b -> cmp b a <= 0) -> (forall a b c, le a b -> le b c -> le a c) ->
  StronglySorted le l -> StronglySorted le (insert x l).
Proof.
  intros Hanti Htr. induction 1 as [|y l Hs IH Hy]; simpl; [by repeat constructor|].
  destruct (Z.ltb_spec 0 (cmp x y)) as [Hlt|Hge].
  - constructor; [done|]. rewrite insert_perm. constructor; [by apply Hanti|done].
  - constructor; [by constructor|]. constructor; [done|].
    eapply list.Forall_impl; [exact Hy|]. intros z Hz. by eapply Htr.
Qed.
End spec.
End PQSpec.

Module PriorityQueue.

(** [pri_node_t]; pointers are addresses, NULL is 0. *)
Record pri_node_t := mk_pnode { next : Z; data : Z }.

(** A [pri_queue] is its head node, at the queue's own address, and the
    comparison function. *)
Record pri_state := mk_pstate { nodes : gmap Z pri_node_t; compare : Z -> Z -> Z }.

Definition pload (p : Z) : M pri_state pri_node_t := fun s => deref (nodes s !! p) s.
Definition pset_next (p v : Z) : M pri_state unit :=
  n ← pload p; modify (fun s => mk_pstate (<[p := mk_pnode v (data n)]> (nodes s)) (compare s)).

Definition pri_queue_init (queue : Z) (cmp : Z -> Z -> Z) : M pri_state Z :=
  modify (fun s => mk_pstate (nodes s) cmp);;
  pset_next queue 0;;
  mret 0.

Fixpoint pri_enqueue_loop (fuel : nat) (node_data tmp : Z) : M pri_state Z :=
  match fuel with
  | O => nofuel
  | S fuel =>
      t ← pload tmp;
      if next t =? 0 then mret tmp
      else
        nx ← pload (next t);
        cmp ← gets compare;
        if 0 <? cmp node_data (data nx) then pri_enqueue_loop fuel node_data (next t)
        else mret tmp
  end.

Definition pri_queue_enqueue (fuel : nat) (queue node : Z) : M pri_state Z :=
  n ← pload node;
  tmp ← pri_enqueue_loop fuel (data n) queue;
  t ← pload tmp;
  pset_next node (next t);;
  pset_next tmp node;;
  mret 0.

Definition pri_queue_dequeue (queue : Z) : M pri_state Z :=
  hd ← pload queue;
  if next hd =? 0 then mret 0
  else
    let rv := next hd in
    r ← pload rv;
    pset_next queue (next r);;
    mret rv.

Definition pri_queue_get_first (queue : Z) : M pri_state Z :=
  hd ← pload queue; mret (next hd).

Definition pri_queue_destroy (queue : Z) : M pri_state Z := mret 0.

(** ** Representation *)

Definition data_of (s : pri_state) (p : Z) : Z := default 0 (data <$> nodes s !! p).
Definition node_cmp (s : pri_state) (p q : Z) : Z := compare s (data_of s p) (data_of s q).

(** The queue at [queue] holds the nodes [l], in order. *)
Definition pq_rep (s : pri_state) (queue : Z) (l : list Z) : Prop :=
  chain next (nodes s) queue l /\ NoDup (queue :: l).

(** Data fields and the comparison are unchanged, and so are the nodes outside [ns]. *)
Definition pframe (ns : list Z) (s s' : pri_state) : Prop :=
  compare s' = compare s /\
  forall p, data <$> nodes s' !! p = data <$> nodes s !! p /\ (p ∉ ns -> nodes s' !! p = nodes s !! p).

Lemma pload_ok s p n : nodes s !! p = Some n -> pload p s = Ok (n, s).
Proof. intros H. unfold pload, deref. by rewrite H. Qed.

Lemma pset_next_ok s p n v : nodes s !! p = Some n ->
  pset_next p v s = Ok (tt, mk_pstate (<[p := mk_pnode v (data n)]> (nodes s)) (compare s)).
Proof. intros H. unfold pset_next. rewrite (bind_ok _ _ _ _ _ (pload_ok _ _ _ H)). done. Qed.

Lemma data_of_lookup s p n : nodes s !! p = Some n -> data_of s p = data n.
Proof. intros H. unfold data_of. by rewrite H. Qed.

Lemma pframe_refl ns s : pframe ns s s.
Proof. by split. Qed.

Lemma pframe_insert ns s s' p n v :
  pframe ns s s' -> p ∈ ns -> nodes s' !! p = Some n ->
  pframe ns s (mk_pstate (<[p := mk_pnode v (data n)]> (nodes s')) (compare s')).
Proof.
  intros [Hc Hf] Hp Hn. split; [done|]. intros q. destruct (Hf q) as [H1 H2]. simpl.
  rewrite lookup_insert. case_decide; [subst|done]. split; [|contradiction]. by rewrite <- H1, Hn.
Qed.

(** The search stops at the last node of the leading run of smaller elements. *)
Lemma pri_enqueue_loop_ok s d l1 : forall l2 p (fuel : nat),
  chain next (nodes s) p (l1 ++ l2) ->
  Forall (fun y => 0 < compare s d (data_of s y)) l1 ->
  match l2 with [] => True | y :: _ => compare s d (data_of s y) <= 0 end ->
  (length l1 < fuel)%nat ->
  pri_enqueue_loop fuel d p s = Ok (chain_last p l1, s).
Proof.
  induction l1 as [|x l1 IH]; intros l2 p fuel Hc Hl1 Hl2 Hfu;
    (destruct fuel as [|fuel]; [simpl in Hfu; lia|]); cbn [pri_enqueue_loop].
  - simpl app in Hc. destruct l2 as [|y l2].
    + destruct Hc as (n & Hn & Hx). rewrite (bind_ok _ _ _ _ _ (pload_ok _ _ _ Hn)), Hx. done.
    + destruct Hc as ((n & Hn & Hx) & Hy0 & Hc). destruct (chain_head _ _ _ _ Hc) as [ny Hny].
      rewrite (bind_ok _ _ _ _ _ (pload_ok _ _ _ Hn)), Hx. destruct (Z.eqb_spec y 0); [done|].
      rewrite (bind_ok _ _ _ _ _ (pload_ok _ _ _ Hny)), (bind_ok _ _ _ _ _ eq_refl).
      rewrite <- (data_of_lookup _ _ _ Hny). destruct (Z.ltb_spec 0 (compare s d (data_of s y))); [lia|done].
  - destruct Hc as ((n & Hn & Hx) & Hx0 & Hc). destruct (chain_head _ _ _ _ Hc) as [nx Hnx].
    apply Forall_cons_iff in Hl1 as [Hgt Hl1].
    rewrite (bind_ok _ _ _ _ _ (pload_ok _ _ _ Hn)), Hx. destruct (Z.eqb_spec x 0); [done|].
    rewrite (bind_ok _ _ _ _ _ (pload_ok _ _ _ Hnx)), (bind_ok _ _ _ _ _ eq_refl).
    rewrite <- (data_of_lookup _ _ _ Hnx). destruct (Z.ltb_spec 0 (compare s d (data_of s x))); [|lia].
    simpl chain_last. apply (IH l2); [done|done|done|simpl in Hfu; lia].
Qed.

(** Linking [node] between the last node of [l1] and [l2]. *)
Lemma link_after_ok s queue l1 l2 node nn :
  chain next (nodes s) queue (l1 ++ l2) -> NoDup (queue :: l1 ++ l2) ->
  nodes s !! node = Some nn -> node ∉ queue :: l1 ++ l2 -> node <> 0 ->
  let a := chain_last queue l1 in
  exists na s', nodes s !! a = Some na /\
    (pset_next node (next na);; pset_next a node) s = Ok (tt, s') /\
    pq_rep s' queue (l1 ++ node :: l2) /\ pframe (node :: queue :: l1 ++ l2) s s'.
Proof.
  intros Hc Hnd Hn Hni H0 a. pose proof (chain_app _ _ _ _ _ Hc) as Ha. fold a in Ha.
  destruct (chain_head _ _ _ _ Ha) as [na Hna]. pose proof (chain_last_in queue l1) as Hin. fold a in Hin.
  assert (Hne : node <> a) by (intros ->; apply Hni; set_solver).
  assert (Hal2 : a ∉ l2).
  { intros Hi. rewrite app_comm_cons in Hnd. apply list.NoDup_app in Hnd as (_ & Hd & _). by apply (Hd a). }
  set (s1 := mk_pstate (<[node := mk_pnode (next na) (data nn)]> (nodes s)) (compare s)).
  set (s2 := mk_pstate (<[a := mk_pnode node (data na)]> (nodes s1)) (compare s1)).
  assert (Hs1a : nodes s1 !! a = Some na) by (simpl; by rewrite lookup_insert_ne).
  exists na, s2. split; [done|]. split; [|split].
  - rewrite (bind_ok _ _ _ _ _ (pset_next_ok _ _ _ _ Hn)). by apply pset_next_ok.
  - split.
    + apply (chain_replace _ (nodes s) _ _ l1 l2); [|done| |].
      * rewrite app_comm_cons in Hnd. by apply list.NoDup_app in Hnd as (? & _).
      * intros q Hq Hqa. simpl. rewrite !lookup_insert_ne; [done| |done]. intros ->. apply Hni. set_solver.
      * fold a. simpl. split; [eexists; by rewrite lookup_insert_eq|]. split; [done|].
        destruct l2 as [|y l2]; simpl in Ha |- *.
        -- destruct Ha as (n & Hn' & Hz). eexists. rewrite lookup_insert_ne, lookup_insert_eq by done.
           split; [done|]. simpl. congruence.
        -- destruct Ha as ((n & Hn' & Hz) & Hy & Hr). split; [|split; [done|]].
           ++ eexists. rewrite lookup_insert_ne, lookup_insert_eq by done. split; [done|]. simpl. congruence.
           ++ apply (chain_frame _ (nodes s)); [done|]. intros q Hq. rewrite !lookup_insert_ne; [done| |].
              ** intros ->. apply Hni. set_solver.
              ** intros ->. done.
    + assert (queue :: l1 ++ node :: l2 ≡ₚ node :: queue :: l1 ++ l2) as -> by solve_Permutation.
      by apply NoDup_cons_2.
  - apply pframe_insert; [|set_solver|done]. apply pframe_insert; [apply pframe_refl|set_solver|done].
Qed.

Lemma pri_enqueue_run s queue l node nn fuel :
  pq_rep s queue l -> nodes s !! node = Some nn -> node ∉ queue :: l -> node <> 0 ->
  (length l < fuel)%nat ->
  exists s', pri_queue_enqueue fuel queue node s = Ok (0, s') /\
    pq_rep s' queue (PQSpec.insert (node_cmp s) node l) /\ pframe (node :: queue :: l) s s'.
Proof.
  intros [Hc Hnd] Hn Hni H0 Hfu.
  destruct (PQSpec.insert_split (node_cmp s) node l) as (l1 & l2 & -> & -> & H1 & H2).
  destruct (link_after_ok s queue l1 l2 node nn Hc Hnd Hn Hni H0) as (na & s' & Hna & Hrun & Hr & Hf).
  exists s'. split; [|done]. unfold pri_queue_enqueue, node_cmp in *.
  rewrite (data_of_lookup _ _ _ Hn) in *.
  rewrite (bind_ok _ _ _ _ _ (pload_ok _ _ _ Hn)).
  erewrite bind_ok by (eapply pri_enqueue_loop_ok; [exact Hc|exact H1|exact H2|rewrite length_app in Hfu; lia]).
  rewrite (bind_ok _ _ _ _ _ (pload_ok _ _ _ Hna)).
  apply bind_inv in Hrun as ([] & s1 & R1 & R2).
  by rewrite (bind_ok _ _ _ _ _ R1), (bind_ok _ _ _ _ _ R2).
Qed.

Lemma pframe_cmp ns s s' p q : pframe ns s s' -> node_cmp s' p q = node_cmp s p q.
Proof. intros [Hc Hf]. unfold node_cmp, data_of. rewrite Hc. by rewrite (proj1 (Hf p)), (proj1 (Hf q)). Qed.

Lemma get_first_ok s queue l : pq_rep s queue l ->
  pri_queue_get_first queue s = Ok (match l with [] => 0 | x :: _ => x end, s).
Proof.
  intros [Hc _]. unfold pri_queue_get_first. destruct l as [|x l].
  - destruct Hc as (n & Hn & Hx). by rewrite (bind_ok _ _ _ _ _ (pload_ok _ _ _ Hn)), Hx.
  - destruct Hc as ((n & Hn & Hx) & _). by rewrite (bind_ok _ _ _ _ _ (pload_ok _ _ _ Hn)), Hx.
Qed.

(** [pri_queue_enqueue] refines sorted insertion: on a well-formed queue
    and a node outside it the search terminates, the node is linked exactly
    where [PQSpec.insert] puts it and nothing but links of these nodes
    changes.  If moreover the comparison is a total preorder and the queue was
    sorted, it stays sorted and [pri_queue_get_first] then returns a minimum. *)
Theorem pri_queue_enqueue_refines s queue l node nn fuel :
  pq_rep s queue l -> nodes s !! node = Some nn -> node ∉ queue :: l -> node <> 0 ->
  (length l < fuel)%nat ->
  exists s', pri_queue_enqueue fuel queue node s = Ok (0, s') /\
    pq_rep s' queue (PQSpec.insert (node_cmp s) node l) /\ pframe (node :: queue :: l) s s' /\
    ((forall a b, 0 < compare s a b -> compare s b a <= 0) ->
     (forall a b c, compare s a b <= 0 -> compare s b c <= 0 -> compare s a c <= 0) ->
     StronglySorted (PQSpec.le (node_cmp s)) l ->
     StronglySorted (PQSpec.le (node_cmp s')) (PQSpec.insert (node_cmp s) node l) /\
     exists x, pri_queue_get_first queue s' = Ok (x, s') /\
       forall y, y ∈ node :: l -> y = x \/ node_cmp s' x y <= 0).
Proof.
  intros Hr Hn Hni H0 Hfu. destruct (pri_enqueue_run s queue l node nn fuel Hr Hn Hni H0 Hfu) as (s' & R & Hr' & Hf).
  exists s'. split; [done|]. split; [done|]. split; [done|]. intros Hanti Htr Hs.
  pose proof (PQSpec.insert_sorted (node_cmp s) node l ltac:(unfold node_cmp; auto)
    ltac:(unfold PQSpec.le, node_cmp; eauto) Hs) as Hs'.
  pose proof (PQSpec.insert_perm (node_cmp s) node l) as Hp.
  rewrite (get_first_ok _ _ _ Hr'). destruct (PQSpec.insert (node_cmp s) node l) as [|x l'].
  { apply Permutation_nil_l in Hp. done. }
  split.
  - clear - Hs' Hf. induction Hs' as [|y ys ? IH Hy]; constructor; [done|].
    eapply list.Forall_impl; [exact Hy|]. unfold PQSpec.le. intros z. by rewrite (pframe_cmp _ _ _ _ _ Hf).
  - exists x. split; [done|]. intros y. rewrite <- Hp, elem_of_cons. intros [->|Hy]; [by left|right].
    rewrite (pframe_cmp _ _ _ _ _ Hf). apply StronglySorted_inv in Hs' as [_ Hx].
    rewrite List.Forall_forall in Hx. apply Hx. by apply list_elem_of_In.
Qed.

(** [pri_queue_dequeue] returns NULL and changes nothing on an empty queue,
    and otherwise unlinks and returns the first (least) node. *)
Theorem pri_queue_dequeue_refines s queue l :
  pq_rep s queue l ->
  match l with
  | [] => pri_queue_dequeue queue s = Ok (0, s)
  | x :: l' => exists s', pri_queue_dequeue queue s = Ok (x, s') /\ pq_rep s' queue l' /\
      pframe [queue] s s'
  end.
Proof.
  intros [Hc Hnd]. unfold pri_queue_dequeue. destruct l as [|x l].
  - destruct Hc as (n & Hn & Hx). by rewrite (bind_ok _ _ _ _ _ (pload_ok _ _ _ Hn)), Hx.
  - destruct Hc as ((n & Hn & Hx) & Hx0 & Hc). destruct (chain_head _ _ _ _ Hc) as [nx Hnx].
    rewrite (bind_ok _ _ _ _ _ (pload_ok _ _ _ Hn)), Hx. destruct (Z.eqb_spec x 0); [done|].
    rewrite (bind_ok _ _ _ _ _ (pload_ok _ _ _ Hnx)), (bind_ok _ _ _ _ _ (pset_next_ok _ _ _ _ Hn)).
    eexists. split; [done|]. rewrite !list.NoDup_cons, not_elem_of_cons in Hnd.
    destruct Hnd as ((Hqx & Hql) & Hxl & Hl).
    split; [split|apply pframe_insert; [apply pframe_refl|set_solver|done]].
    + destruct l as [|y l]; simpl in Hc |- *.
      * destruct Hc as (n' & Hn' & Hz). eexists. rewrite lookup_insert_eq. split; [done|]. simpl. congruence.
      * destruct Hc as ((n' & Hn' & Hz) & Hy & Hr). split; [|split; [done|]].
        -- eexists. rewrite lookup_insert_eq. split; [done|]. simpl. congruence.
        -- apply (chain_frame _ (nodes s)); [done|]. intros q Hq. apply lookup_insert_ne. by intros ->.
    + by apply NoDup_cons_2.
Qed.

(** ** A concrete queue: wake-up times 10 and 30 at nodes 2 and 4. *)
Definition demo_pq : pri_state :=
  mk_pstate {[1 := mk_pnode 2 0; 2 := mk_pnode 4 10; 4 := mk_pnode 0 30; 8 := mk_pnode 99 20]} Z.sub.

Lemma demo_pq_rep : pq_rep demo_pq 1 [2; 4].
Proof.
  split; [|apply (bool_decide_unpack _); by vm_compute].
  split; [by eexists|]. split; [done|]. split; [by eexists|]. split; [done|]. by eexists.
Qed.

Lemma pri_queue_enqueue_witness :
  exists s', pri_queue_enqueue 3 1 8 demo_pq = Ok (0, s') /\ pq_rep s' 1 [2; 8; 4] /\
    pri_queue_get_first 1 s' = Ok (2, s').
Proof.
  destruct (pri_queue_enqueue_refines demo_pq 1 [2; 4] 8 (mk_pnode 99 20) 3 demo_pq_rep eq_refl)
    as (s' & R & Hr & _ & Hm).
  - apply (bool_decide_unpack _). by vm_compute.
  - done.
  - simpl; lia.
  - destruct Hm as (_ & x & Hx & _); [simpl; lia|simpl; lia| |].
    + repeat constructor; vm_compute; discriminate.
    + exists s'. split; [exact R|]. split; [exact Hr|]. by rewrite (get_first_ok _ _ _ Hr).
Defined.

Lemma pri_queue_dequeue_witness :
  exists s', pri_queue_dequeue 1 demo_pq = Ok (2, s') /\ pq_rep s' 1 [4].
Proof. destruct (pri_queue_dequeue_refines demo_pq 1 [2; 4] demo_pq_rep) as (s' & ? & ? & _). by exists s'. Defined.

End PriorityQueue.
