(* ===== verification/Hashtable.v ===== *)
(** * Hash table (src/kern/hashtable.c)

    Separate chaining: an array of header nodes, each the start of a singly
    linked chain of <key, value> nodes.  [HTSpec] is the abstract table (for
    each key the stack of the values put and not yet removed), [Hashtable] the
    pointer program, and the theorems relate the two. *)

From S2P Require Import Prelude.
From Stdlib Require Import ZArith Lia.
From stdpp Require Import base gmap list tactics numbers.

#[local] Open Scope Z_scope.

(** ** Abstract specification *)
Module HTSpec.
Definition table : Type := Z -> list Z.
Definition empty : table := fun _ => [].
Definition put (t : table) (k v : Z) : table := fun k' => if k' =? k then v :: t k else t k'.
Definition get (t : table) (k : Z) : option Z := head (t k).
Definition remove (t : table) (k : Z) : table := fun k' => if k' =? k then tail (t k) else t k'.
End HTSpec.

Module Hashtable.

(** [hashnode_t]; pointers are addresses, NULL is 0.  The header nodes are
    cells of the same heap, 12 bytes apart. *)
Record hashnode_t := mk_hnode { next : Z; key : Z; value : Z }.
Abbreviation heap := (gmap Z hashnode_t).

Record hashtable_t := mk_table { array : Z; size : Z; func : Z -> Z }.

Definition header (tbl : hashtable_t) (i : Z) : Z := array tbl + 12 * i.

Definition hload (p : Z) : M heap hashnode_t := fun h => deref (h !! p) h.
Definition hset_next (p v : Z) : M heap unit :=
  n ← hload p; modify (fun h => <[p := mk_hnode v (key n) (value n)]> h).
Definition hfree (p : Z) : M heap unit := hload p;; modify (fun h => delete p h).

(** The kernel allocator: [malloc h n] is the address of [n] consecutive
    nodes, or NULL; [junk] is what fresh memory happens to hold. *)
Record allocator := { malloc : heap -> Z -> Z; junk : Z -> hashnode_t }.

Definition hmalloc (A : allocator) (n : Z) : M heap Z := fun h =>
  let p := malloc A h n in
  if p =? 0 then Ok (0, h)
  else Ok (p, list_to_map ((fun i => (p + 12 * i, junk A (p + 12 * i))) <$> seqZ 0 n) ∪ h).

Fixpoint init_loop (n : nat) (tbl : hashtable_t) (i : Z) : M heap unit :=
  match n with
  | O => mret tt
  | S n => hset_next (header tbl i) 0;; init_loop n tbl (i + 1)
  end.

(** Returns the status and the table with its [array] field set. *)
Definition hashtable_init (A : allocator) (tbl : hashtable_t) : M heap (Z * hashtable_t) :=
  p ← hmalloc A (size tbl);
  let tbl := mk_table p (size tbl) (func tbl) in
  if p =? 0 then mret (-1, tbl)
  else init_loop (Z.to_nat (size tbl)) tbl 0;; mret (0, tbl).

Definition hashtable_put (A : allocator) (tbl : hashtable_t) (k v : Z) : M heap Z :=
  let index := func tbl k in
  hp ← hmalloc A 1;
  if hp =? 0 then mret (-1)
  else
    n ← hload hp;
    modify (fun h => <[hp := mk_hnode (next n) k v]> h);;
    b ← hload (header tbl index);
    hset_next hp (next b);;
    hset_next (header tbl index) hp;;
    mret 0.

(** The result is the returned value and [*is_find]. *)
Fixpoint get_loop (fuel : nat) (hp k : Z) : M heap (Z * Z) :=
  match fuel with
  | O => nofuel
  | S fuel =>
      n ← hload hp;
      if next n =? 0 then mret (0, 0)
      else
        nn ← hload (next n);
        if key nn =? k then mret (value nn, 1) else get_loop fuel (next n) k
  end.

Definition hashtable_get (fuel : nat) (tbl : hashtable_t) (k : Z) : M heap (Z * Z) :=
  get_loop fuel (header tbl (func tbl k)) k.

Fixpoint remove_loop (fuel : nat) (hp k : Z) : M heap (Z * Z) :=
  match fuel with
  | O => nofuel
  | S fuel =>
      n ← hload hp;
      if next n =? 0 then mret (0, 0)
      else
        nn ← hload (next n);
        if key nn =? k then
          let tmp := next n in
          hset_next hp (next nn);;
          t ← hload tmp;
          let rv := value t in
          hfree tmp;;
          mret (rv, 1)
        else remove_loop fuel (next n) k
  end.

Definition hashtable_remove (fuel : nat) (tbl : hashtable_t) (k : Z) : M heap (Z * Z) :=
  remove_loop fuel (header tbl (func tbl k)) k.

Fixpoint destroy_chain (fuel : nat) (hp : Z) : M heap unit :=
  match fuel with
  | O => nofuel
  | S fuel =>
      n ← hload hp;
      if next n =? 0 then mret tt
      else
        let tmp := next n in
        nn ← hload tmp;
        hset_next hp (next nn);;
        hfree tmp;;
        destroy_chain fuel hp
  end.

Fixpoint destroy_loop (fuel n : nat) (tbl : hashtable_t) (i : Z) : M heap unit :=
  match n with
  | O => mret tt
  | S n => destroy_chain fuel (header tbl i);; destroy_loop fuel n tbl (i + 1)
  end.

(** [free(table->array)] releases all the header nodes. *)
Fixpoint free_array (n : nat) (tbl : hashtable_t) (i : Z) : M heap unit :=
  match n with
  | O => mret tt
  | S n => hfree (header tbl i);; free_array n tbl (i + 1)
  end.

Definition hashtable_destroy (fuel : nat) (tbl : hashtable_t) : M heap unit :=
  destroy_loop fuel (Z.to_nat (size tbl)) tbl 0;;
  free_array (Z.to_nat (size tbl)) tbl 0.

(** ** Representation *)

Definition is_header (tbl : hashtable_t) (p : Z) : Prop := exists i, 0 <= i < size tbl /\ p = header tbl i.

(** Bucket [i] is the chain [B i], whose nodes hold keys hashed to [i]. *)
Record table_rep (h : heap) (tbl : hashtable_t) (B : Z -> list Z) : Prop := {
  rep_chain : forall i, 0 <= i < size tbl -> chain next h (header tbl i) (B i);
  rep_nodup : forall i, 0 <= i < size tbl -> NoDup (B i);
  rep_node : forall i x, 0 <= i < size tbl -> x ∈ B i -> ~ is_header tbl x /\
    exists n, h !! x = Some n /\ func tbl (key n) = i
}.

(** The values a list of nodes holds for a key, in order. *)
Fixpoint vals (h : heap) (l : list Z) (k : Z) : list Z :=
  match l with
  | [] => []
  | x :: l =>
      match h !! x with
      | Some n => if key n =? k then value n :: vals h l k else vals h l k
      | None => vals h l k
      end
  end.

(** The table with buckets [B] represents [t] on the keys it can hold. *)
Definition table_abs (h : heap) (tbl : hashtable_t) (B : Z -> list Z) (t : HTSpec.table) : Prop :=
  table_rep h tbl B /\ forall k, 0 <= func tbl k < size tbl -> t k = vals h (B (func tbl k)) k.

(** The allocator contract: a non-NULL result is fresh memory. *)
Definition malloc_ok (A : allocator) : Prop :=
  forall h n i, 0 <= i < n -> malloc A h n <> 0 -> h !! (malloc A h n + 12 * i) = None.

Lemma hload_ok h p n : h !! p = Some n -> hload p h = Ok (n, h).
Proof. intros H. unfold hload, deref. by rewrite H. Qed.

Lemma hset_next_ok h p n v : h !! p = Some n ->
  hset_next p v h = Ok (tt, <[p := mk_hnode v (key n) (value n)]> h).
Proof. intros H. unfold hset_next. by rewrite (bind_ok _ _ _ _ _ (hload_ok _ _ _ H)). Qed.

Lemma hfree_ok h p n : h !! p = Some n -> hfree p h = Ok (tt, delete p h).
Proof. intros H. unfold hfree. by rewrite (bind_ok _ _ _ _ _ (hload_ok _ _ _ H)). Qed.

Lemma header_inj tbl i j : header tbl i = header tbl j -> i = j.
Proof. unfold header. lia. Qed.

(** A node is in one bucket only. *)
Lemma rep_disjoint h tbl B i j x : table_rep h tbl B ->
  0 <= i < size tbl -> 0 <= j < size tbl -> x ∈ B i -> x ∈ B j -> i = j.
Proof.
  intros Hr Hi Hj Hx Hx'. destruct (rep_node _ _ _ Hr i x Hi Hx) as (_ & n & Hn & <-).
  destruct (rep_node _ _ _ Hr j x Hj Hx') as (_ & n' & Hn' & <-). congruence.
Qed.

Definition kv (n : hashnode_t) : Z * Z := (key n, value n).

Lemma vals_frame h h' l k :
  (forall x, x ∈ l -> kv <$> h' !! x = kv <$> h !! x) -> vals h' l k = vals h l k.
Proof.
  induction l as [|x l IH]; intros Hf; [done|]. simpl.
  rewrite IH by (intros; apply Hf; set_solver). specialize (Hf x ltac:(set_solver)).
  destruct (h' !! x) as [n'|], (h !! x) as [n|]; simpl in *; try done.
  injection Hf as E1 E2. by rewrite E1, E2.
Qed.

Lemma vals_app h l1 l2 k : vals h (l1 ++ l2) k = vals h l1 k ++ vals h l2 k.
Proof. induction l1 as [|x l1 IH]; simpl; [done|]. destruct (h !! x) as [n|]; [destruct (key n =? k)|]; by rewrite IH. Qed.

(** Rebuilding a table after a change that concerns bucket [j] only. *)
Lemma table_rep_update h h' tbl B j l :
  table_rep h tbl B -> 0 <= j < size tbl ->
  (forall i x, 0 <= i < size tbl -> i <> j -> x = header tbl i \/ x ∈ B i -> h' !! x = h !! x) ->
  chain next h' (header tbl j) l -> NoDup l ->
  (forall x, x ∈ l -> ~ is_header tbl x /\ exists n, h' !! x = Some n /\ func tbl (key n) = j) ->
  table_rep h' tbl (fun i => if i =? j then l else B i).
Proof.
  intros Hr Hj Hf Hc Hnd Hn. split; intros i; [intros Hi|intros Hi|intros x Hi];
    destruct (Z.eqb_spec i j) as [->|Hne]; try done.
  - apply (chain_frame _ h); [by apply (rep_chain _ _ _ Hr)|]. intros q Hq. apply (Hf i); [done|done|].
    apply elem_of_cons in Hq. tauto.
  - by apply (rep_nodup _ _ _ Hr).
  - apply Hn.
  - intros Hx. rewrite (Hf i) by auto. by apply (rep_node _ _ _ Hr).
Qed.

(** ** Lookup *)

Lemma get_loop_ok h k l : forall p (fuel : nat),
  chain next h p l -> (length l < fuel)%nat ->
  get_loop fuel p k h = Ok (match head (vals h l k) with Some v => (v, 1) | None => (0, 0) end, h).
Proof.
  induction l as [|x l IH]; intros p fuel Hc Hfu; (destruct fuel as [|fuel]; [simpl in Hfu; lia|]);
    cbn [get_loop].
  - destruct Hc as (n & Hn & Hx). by rewrite (bind_ok _ _ _ _ _ (hload_ok _ _ _ Hn)), Hx.
  - destruct Hc as ((n & Hn & Hx) & Hx0 & Hc). destruct (chain_head _ _ _ _ Hc) as [nx Hnx].
    rewrite (bind_ok _ _ _ _ _ (hload_ok _ _ _ Hn)), Hx. destruct (Z.eqb_spec x 0); [done|].
    rewrite (bind_ok _ _ _ _ _ (hload_ok _ _ _ Hnx)). simpl vals. rewrite Hnx.
    destruct (key nx =? k); [done|]. apply IH; [done|simpl in Hfu; lia].
Qed.

(** [hashtable_get] implements the abstract lookup: for any key hashed
    inside the table it terminates, changes nothing, and returns the value most
    recently put under that key and not removed, with [*is_find = 1], or NULL
    with [*is_find = 0]. *)
Theorem hashtable_get_refines h tbl B t k fuel :
  table_abs h tbl B t -> 0 <= func tbl k < size tbl -> (length (B (func tbl k)) < fuel)%nat ->
  hashtable_get fuel tbl k h =
    Ok (match HTSpec.get t k with Some v => (v, 1) | None => (0, 0) end, h).
Proof.
  intros [Hr Ht] Hk Hfu. unfold hashtable_get, HTSpec.get. rewrite Ht by done.
  apply get_loop_ok; [by apply (rep_chain _ _ _ Hr)|done].
Qed.

(** ** Insertion *)

Definition put_heap (h : heap) (hp hd k v : Z) (b : hashnode_t) : heap :=
  <[hd := mk_hnode hp (key b) (value b)]> (<[hp := mk_hnode (next b) k v]> h).

Lemma hmalloc_one A h : malloc A h 1 <> 0 ->
  hmalloc A 1 h = Ok (malloc A h 1, <[malloc A h 1 := junk A (malloc A h 1)]> h).
Proof.
  intros H0. unfold hmalloc. destruct (Z.eqb_spec (malloc A h 1) 0); [done|].
  change (seqZ 0 1) with [0]. cbn [fmap list_fmap]. rewrite list_to_map_cons, list_to_map_nil, insert_empty.
  rewrite Z.add_0_r. by rewrite <- insert_union_singleton_l.
Qed.

(** The fresh node is apart from everything the table reaches. *)
Lemma put_fresh A h tbl B k v b :
  let hp := malloc A h 1 in
  let hd := header tbl (func tbl k) in
  let h' := put_heap h hp hd k v b in
  malloc_ok A -> hp <> 0 -> table_rep h tbl B -> 0 <= func tbl k < size tbl ->
  ~ is_header tbl hp /\ h' !! hp = Some (mk_hnode (next b) k v) /\
  (forall x, x <> hp -> x <> hd -> h' !! x = h !! x) /\
  (forall i x, 0 <= i < size tbl -> x ∈ B i -> x <> hp /\ x <> hd).
Proof.
  intros hp hd h' HA H0 Hr Hk.
  assert (Hfr : h !! hp = None) by (specialize (HA h 1 0 ltac:(lia) H0); by rewrite Z.add_0_r in HA).
  assert (Hnh : ~ is_header tbl hp).
  { intros (i & Hi & E). destruct (chain_head _ _ _ _ (rep_chain _ _ _ Hr i Hi)). congruence. }
  assert (hp <> hd) by (intros E; apply Hnh; by exists (func tbl k)).
  split; [done|]. split; [|split].
  - unfold h', put_heap. by rewrite lookup_insert_ne, lookup_insert_eq.
  - intros x ??. unfold h', put_heap. by rewrite !lookup_insert_ne.
  - intros i x Hi Hx. destruct (rep_node _ _ _ Hr i x Hi Hx) as (Hh & n & Hn & _).
    split; [congruence|]. intros ->. apply Hh. by exists (func tbl k).
Qed.

Lemma put_run A h tbl k v b :
  malloc_ok A -> malloc A h 1 <> 0 -> h !! header tbl (func tbl k) = Some b ->
  hashtable_put A tbl k v h =
    Ok (0, put_heap h (malloc A h 1) (header tbl (func tbl k)) k v b).
Proof.
  intros HA H0 Hb. set (hp := malloc A h 1) in *. set (hd := header tbl (func tbl k)) in *.
  assert (Hfr : h !! hp = None) by (specialize (HA h 1 0 ltac:(lia) H0); by rewrite Z.add_0_r in HA).
  assert (Hne : hp <> hd) by congruence.
  unfold hashtable_put. rewrite (bind_ok _ _ _ _ _ (hmalloc_one A h H0)). fold hp. cbv zeta.
  destruct (Z.eqb_spec hp 0); [done|].
  erewrite bind_ok by (apply hload_ok, lookup_insert_eq).
  rewrite (bind_ok _ _ _ _ _ eq_refl). rewrite insert_insert_eq.
  erewrite bind_ok by (apply hload_ok; fold hd; rewrite lookup_insert_ne by done; exact Hb).
  erewrite bind_ok by (apply hset_next_ok, lookup_insert_eq). rewrite insert_insert_eq.
  by erewrite bind_ok by (apply hset_next_ok; fold hd; rewrite lookup_insert_ne by done; exact Hb).
Qed.

(** Linking a node that is not part of the table at the head of its bucket. *)
Lemma link_abs h tbl B t k v b hp :
  let j := func tbl k in let h' := put_heap h hp (header tbl j) k v b in
  table_abs h tbl B t -> 0 <= j < size tbl -> h !! header tbl j = Some b -> hp <> 0 -> ~ is_header tbl hp ->
  (forall i x, 0 <= i < size tbl -> x ∈ B i -> x <> hp) ->
  table_abs h' tbl (fun i => if i =? j then hp :: B j else B i) (HTSpec.put t k v).
Proof.
  intros j h' [Hr Ht] Hk Hb H0 Hnh Hno. assert (Hne : hp <> header tbl j) by (intros E; apply Hnh; by exists j).
  assert (Hhp : h' !! hp = Some (mk_hnode (next b) k v)) by (unfold h', put_heap; by rewrite lookup_insert_ne, lookup_insert_eq).
  assert (Hkeep : forall x, x <> hp -> x <> header tbl j -> h' !! x = h !! x) by (intros x ??; unfold h', put_heap; by rewrite !lookup_insert_ne).
  assert (Hnb : forall i x, 0 <= i < size tbl -> x ∈ B i -> x <> hp /\ x <> header tbl j).
  { intros i x Hi Hx. split; [by apply (Hno i)|]. intros ->. destruct (rep_node _ _ _ Hr i _ Hi Hx) as [Hh _]. apply Hh. by exists j. }
  split.
  - apply (table_rep_update h); [done|done| | | |].
    + intros i x Hi Hij [->|Hx]; apply Hkeep; [intros E; apply Hnh; by exists i|by intros E%header_inj| |];
        by apply (Hnb i x Hi Hx).
    + simpl. split; [eexists; unfold h', put_heap; by rewrite lookup_insert_eq|]. split; [done|].
      pose proof (rep_chain _ _ _ Hr j Hk) as Hc. destruct (B j) as [|y l] eqn:EB; simpl in Hc |- *.
      * destruct Hc as (n & Hn & Hz). eexists; split; [exact Hhp|]. simpl. congruence.
      * destruct Hc as ((n & Hn & Hz) & Hy & Hc). split; [|split; [done|]].
        -- exists (mk_hnode (next b) k v). split; [done|]. simpl. congruence.
        -- apply (chain_frame _ h); [done|]. intros q Hq. rewrite <- EB in Hq. apply Hkeep; by apply (Hnb j q Hk Hq).
    + apply NoDup_cons_2; [intros Hx; by destruct (Hnb j hp Hk Hx)|by apply (rep_nodup _ _ _ Hr)].
    + intros x [->|Hx]%elem_of_cons.
      * split; [done|]. by eexists.
      * rewrite Hkeep by (by apply (Hnb j x Hk Hx)). by apply (rep_node _ _ _ Hr).
  - intros k' Hk'. unfold HTSpec.put. assert (Hv : vals h' (B (func tbl k')) k' = vals h (B (func tbl k')) k').
    { apply vals_frame. intros x Hx. rewrite Hkeep; [done| |]; by apply (Hnb (func tbl k') x Hk' Hx). }
    rewrite !Ht by done. destruct (Z.eqb_spec k' k) as [->|Hkk].
    + fold j in Hv |- *. rewrite Z.eqb_refl. simpl vals. rewrite Hhp. simpl. by rewrite Z.eqb_refl, Hv.
    + destruct (Z.eqb_spec (func tbl k') j) as [Ej|]; [|done]. simpl vals. rewrite Hhp. simpl.
      destruct (Z.eqb_spec k k'); [done|]. by rewrite <- Ej, Hv.
Qed.

(** [hashtable_put] pushes the value on its key's stack: with a fresh node
    from the allocator it succeeds and every other key keeps its values; when
    the allocator fails it returns -1 and changes nothing. *)
Theorem hashtable_put_refines A h tbl B t k v :
  malloc_ok A -> table_abs h tbl B t -> 0 <= func tbl k < size tbl ->
  if malloc A h 1 =? 0 then hashtable_put A tbl k v h = Ok (-1, h)
  else exists h' B', hashtable_put A tbl k v h = Ok (0, h') /\
    table_abs h' tbl B' (HTSpec.put t k v) /\
    (forall i, length (B' i) <= length (B i) + 1)%nat.
Proof.
  intros HA Habs Hk. destruct (Z.eqb_spec (malloc A h 1) 0) as [E|H0].
  { unfold hashtable_put. erewrite bind_ok; [|unfold hmalloc; rewrite E; done]. done. }
  pose proof Habs as [Hr _]. destruct (chain_head _ _ _ _ (rep_chain _ _ _ Hr (func tbl k) Hk)) as [b Hb].
  destruct (put_fresh A h tbl B k v b HA H0 Hr Hk) as (Hnh & _ & _ & Hnb).
  eexists _, _. split; [by apply put_run|]. split; [apply link_abs; try done; intros i x Hi Hx; by apply (Hnb i)|].
  intros i. cbv beta. destruct (Z.eqb_spec i (func tbl k)) as [->|]; simpl; lia.
Qed.

(** ** Removal *)

Lemma hash_remove_loop_ok h k l : forall p (fuel : nat),
  chain next h p l -> NoDup (p :: l) -> (length l < fuel)%nat ->
  (vals h l k = [] /\ remove_loop fuel p k h = Ok ((0, 0), h)) \/
  exists l1 x l2 nx na, l = l1 ++ x :: l2 /\ vals h l1 k = [] /\ h !! x = Some nx /\ key nx = k /\
    h !! chain_last p l1 = Some na /\
    remove_loop fuel p k h =
      Ok ((value nx, 1), delete x (<[chain_last p l1 := mk_hnode (next nx) (key na) (value na)]> h)).
Proof.
  induction l as [|x l IH]; intros p fuel Hc Hnd Hfu; (destruct fuel as [|fuel]; [simpl in Hfu; lia|]);
    cbn [remove_loop].
  - left. destruct Hc as (n & Hn & Hx). by rewrite (bind_ok _ _ _ _ _ (hload_ok _ _ _ Hn)), Hx.
  - destruct Hc as ((n & Hn & Hx) & Hx0 & Hc). destruct (chain_head _ _ _ _ Hc) as [nx Hnx].
    apply list.NoDup_cons in Hnd as [Hp Hnd]. apply not_elem_of_cons in Hp as [Hpx Hp].
    rewrite (bind_ok _ _ _ _ _ (hload_ok _ _ _ Hn)), Hx. destruct (Z.eqb_spec x 0); [done|].
    rewrite (bind_ok _ _ _ _ _ (hload_ok _ _ _ Hnx)). simpl vals. rewrite Hnx.
    destruct (Z.eqb_spec (key nx) k) as [Hk|Hk].
    + right. exists [], x, l, nx, n. do 5 (split; [done|]).
      rewrite (bind_ok _ _ _ _ _ (hset_next_ok _ _ _ _ Hn)).
      assert (H1 : <[p := mk_hnode (next nx) (key n) (value n)]> h !! x = Some nx) by (by rewrite lookup_insert_ne).
      by rewrite (bind_ok _ _ _ _ _ (hload_ok _ _ _ H1)), (bind_ok _ _ _ _ _ (hfree_ok _ _ _ H1)).
    + destruct (IH x fuel Hc Hnd ltac:(simpl in Hfu; lia)) as [?|(l1 & y & l2 & ny & na & -> & ? & ? & ? & ? & ?)];
        [by left|right].
      exists (x :: l1), y, l2, ny, na. simpl. rewrite Hnx. destruct (Z.eqb_spec (key nx) k); done.
Qed.

(** Cells of different buckets are different. *)
Lemma remove_apart h tbl B i j x y :
  table_rep h tbl B -> 0 <= i < size tbl -> 0 <= j < size tbl -> i <> j ->
  y = header tbl i \/ y ∈ B i -> x = header tbl j \/ x ∈ B j -> x <> y.
Proof.
  intros Hr Hi Hj Hne [->|Hy] [->|Hx] E.
  - apply header_inj in E. lia.
  - subst. destruct (rep_node _ _ _ Hr j _ Hj Hx) as [H _]. apply H. by exists i.
  - subst. destruct (rep_node _ _ _ Hr i _ Hi Hy) as [H _]. apply H. by exists j.
  - subst. apply Hne. by eapply rep_disjoint.
Qed.

(** Splicing a node out of a chain and freeing it. *)
Lemma chain_unlink h p l1 x l2 nx na :
  chain next h p (l1 ++ x :: l2) -> NoDup (p :: l1 ++ x :: l2) -> h !! x = Some nx ->
  h !! chain_last p l1 = Some na ->
  chain next (delete x (<[chain_last p l1 := mk_hnode (next nx) (key na) (value na)]> h)) p (l1 ++ l2).
Proof.
  intros Hc Hnd Hx Ha. pose proof (chain_app _ _ _ _ _ Hc) as (_ & _ & Hr).
  rewrite app_comm_cons in Hnd. apply list.NoDup_app in Hnd as (Hnd1 & Hd & Hnd2).
  apply list.NoDup_cons in Hnd2 as [Hxl2 _].
  pose proof (chain_last_in p l1) as Hin. pose proof (Hd _ Hin) as Hin'. apply not_elem_of_cons in Hin' as [Hax Hal2].
  apply (chain_replace _ h _ _ _ (x :: l2)); [done|done| |].
  - intros q Hq Hqa. rewrite lookup_delete_ne, lookup_insert_ne by done || (intros ->; apply Hd in Hq; set_solver).
    done.
  - set (a := chain_last p l1) in *. destruct l2 as [|y l2]; simpl in Hr |- *.
    + destruct Hr as (n & Hn & Hz). eexists. rewrite lookup_delete_ne, lookup_insert_eq by done.
      split; [done|]. simpl. congruence.
    + destruct Hr as ((n & Hn & Hz) & Hy & Hr). split; [|split; [done|]].
      * eexists. rewrite lookup_delete_ne, lookup_insert_eq by done. split; [done|]. simpl. congruence.
      * apply (chain_frame _ h); [done|]. intros q Hq.
        rewrite lookup_delete_ne, lookup_insert_ne; [done| |]; intros ->; done.
Qed.

Lemma rep_header_nodup h tbl B j : table_rep h tbl B -> 0 <= j < size tbl -> NoDup (header tbl j :: B j).
Proof.
  intros Hr Hj. apply NoDup_cons_2; [|by apply (rep_nodup _ _ _ Hr)].
  intros Hx%(rep_node _ _ _ Hr j _ Hj). destruct Hx as [Hx _]. apply Hx. by exists j.
Qed.

Lemma NoDup_middle (l1 l2 : list Z) x : NoDup (l1 ++ x :: l2) -> (x ∉ l1 ++ l2) /\ NoDup (l1 ++ l2).
Proof.
  assert (l1 ++ x :: l2 ≡ₚ x :: l1 ++ l2) as -> by solve_Permutation. by rewrite list.NoDup_cons.
Qed.

(** Unlinking the first node of key [k] from bucket [j] pops that key. *)
Lemma unlink_abs h tbl B t j k l1 x l2 nx na :
  table_abs h tbl B t -> 0 <= j < size tbl -> func tbl k = j -> B j = l1 ++ x :: l2 ->
  vals h l1 k = [] -> h !! x = Some nx -> key nx = k -> h !! chain_last (header tbl j) l1 = Some na ->
  table_abs (delete x (<[chain_last (header tbl j) l1 := mk_hnode (next nx) (key na) (value na)]> h)) tbl
    (fun i => if i =? j then l1 ++ l2 else B i) (HTSpec.remove t k).
Proof.
  intros [Hr Ht] Hj Hkj Hl Hv Hx Hkx Ha. set (a := chain_last (header tbl j) l1) in *. set (h' := delete x _).
  pose proof (rep_header_nodup _ _ _ _ Hr Hj) as Hnd.
  destruct (NoDup_middle l1 l2 x) as [Hxl Hnd']; [rewrite <- Hl; by apply (rep_nodup _ _ _ Hr)|].
  assert (Hother : forall i y, 0 <= i < size tbl -> i <> j -> y = header tbl i \/ y ∈ B i -> h' !! y = h !! y).
  { intros i y Hi Hne Hy. unfold h'. pose proof (chain_last_in (header tbl j) l1) as Hin. fold a in Hin.
    rewrite lookup_delete_ne, lookup_insert_ne; [done| |];
      apply (remove_apart h tbl B i j); try done; rewrite Hl; set_solver. }
  assert (Hkv : forall y, y <> x -> kv <$> h' !! y = kv <$> h !! y).
  { intros y Hy. unfold h'. rewrite lookup_delete_ne, lookup_insert by done. case_decide; [subst|done]. by rewrite Ha. }
  split.
  - apply (table_rep_update h); [done|done|done| |done|].
    + apply chain_unlink; [|by rewrite <- Hl|done|done]. rewrite <- Hl. by apply (rep_chain _ _ _ Hr).
    + intros y Hy. destruct (rep_node _ _ _ Hr j y Hj ltac:(rewrite Hl; set_solver)) as (Hh & n & Hn & Hf).
      split; [done|]. specialize (Hkv y ltac:(intros ->; done)). rewrite Hn in Hkv.
      destruct (h' !! y) as [n'|]; [|done]. injection Hkv as E _. exists n'. by rewrite E.
  - intros k' Hk'. unfold HTSpec.remove. rewrite !Ht, Hkj by (done || by rewrite Hkj).
    assert (Hframe : forall k2, vals h' (l1 ++ l2) k2 = vals h l1 k2 ++ vals h l2 k2).
    { intros k2. rewrite (vals_frame h h') by (intros y Hy; apply Hkv; by intros ->). apply vals_app. }
    rewrite Hl, !vals_app. simpl vals. rewrite Hx, Hkx, Z.eqb_refl, Hv. destruct (Z.eqb_spec k' k) as [->|Hne].
    + rewrite Hkj, Z.eqb_refl, Hframe, Hv. done.
    + destruct (Z.eqb_spec (func tbl k') j) as [E|Hnj].
      * rewrite Hframe, E, Hl, vals_app. simpl vals. rewrite Hx. destruct (Z.eqb_spec (key nx) k'); [congruence|done].
      * symmetry. apply vals_frame. intros y Hy. rewrite (Hother (func tbl k')); [done|done|done|by right].
Qed.

(** [hashtable_remove] pops the value of its key: it returns what
    [hashtable_get] would, unlinks and frees exactly that node, and every other
    key (and every older value of this one) stays. *)
Theorem hashtable_remove_refines h tbl B t k fuel :
  table_abs h tbl B t -> 0 <= func tbl k < size tbl -> (length (B (func tbl k)) < fuel)%nat ->
  exists h' B', hashtable_remove fuel tbl k h =
      Ok (match HTSpec.get t k with Some v => (v, 1) | None => (0, 0) end, h') /\
    table_abs h' tbl B' (HTSpec.remove t k) /\ (forall i, length (B' i) <= length (B i))%nat.
Proof.
  intros Habs Hk Hfu. pose proof Habs as [Hr Ht]. unfold hashtable_remove, HTSpec.get. rewrite Ht by done.
  set (j := func tbl k) in *.
  destruct (hash_remove_loop_ok h k (B j) (header tbl j) fuel (rep_chain _ _ _ Hr j Hk) (rep_header_nodup _ _ _ _ Hr Hk) Hfu)
    as [[Hv Hrun]|(l1 & x & l2 & nx & na & Hl & Hv & Hx & Hkx & Ha & Hrun)].
  - exists h, B. rewrite Hv. split; [done|]. split; [|done]. split; [done|]. intros k' Hk'. unfold HTSpec.remove.
    rewrite !Ht by done. destruct (Z.eqb_spec k' k) as [->|]; [|done]. fold j. by rewrite Hv.
  - eexists _, _. split; [|split; [by eapply unlink_abs|]].
    + rewrite Hrun, Hl, vals_app, Hv. simpl. by rewrite Hx, Hkx, Z.eqb_refl.
    + intros i. simpl. destruct (Z.eqb_spec i j) as [->|]; [|lia]. rewrite Hl, !length_app. simpl. lia.
Qed.

(** ** Initialisation *)

Lemma init_loop_ok tbl (n : nat) : forall i h,
  (forall j, i <= j < i + Z.of_nat n -> is_Some (h !! header tbl j)) ->
  exists h', init_loop n tbl i h = Ok (tt, h') /\
    (forall j, i <= j < i + Z.of_nat n -> exists x, h' !! header tbl j = Some x /\ next x = 0) /\
    (forall p, (forall j, i <= j < i + Z.of_nat n -> p <> header tbl j) -> h' !! p = h !! p).
Proof.
  induction n as [|n IH]; intros i h Hh; cbn [init_loop].
  { exists h. split; [done|]. split; [lia|done]. }
  destruct (Hh i ltac:(lia)) as [x Hx]. rewrite (bind_ok _ _ _ _ _ (hset_next_ok _ _ _ _ Hx)).
  destruct (IH (i + 1) (<[header tbl i := mk_hnode 0 (key x) (value x)]> h)) as (h' & R & H1 & H2).
  { intros j Hj. rewrite lookup_insert_ne by (intros ?%header_inj; lia). apply Hh. lia. }
  exists h'. split; [done|]. split.
  - intros j Hj. destruct (decide (j = i)) as [->|]; [|apply H1; lia].
    rewrite H2 by (intros j' Hj' ?%header_inj; lia). rewrite lookup_insert_eq. by eexists.
  - intros q Hq. rewrite H2 by (intros; apply Hq; lia). apply lookup_insert_ne. intros <-. by apply (Hq i ltac:(lia)).
Qed.

(** [hashtable_init] builds an empty table of [size] buckets in fresh
    memory whatever that memory held, leaving the rest of the heap alone, and
    returns -1 without touching anything when the allocation fails. *)
Theorem hashtable_init_empty A tbl h :
  malloc_ok A -> 0 <= size tbl ->
  exists tbl' h', size tbl' = size tbl /\ func tbl' = func tbl /\
    if malloc A h (size tbl) =? 0 then hashtable_init A tbl h = Ok ((-1, tbl'), h)
    else hashtable_init A tbl h = Ok ((0, tbl'), h') /\ table_abs h' tbl' (fun _ => []) HTSpec.empty /\
      forall p, is_Some (h !! p) -> h' !! p = h !! p.
Proof.
  intros HA Hs. set (p := malloc A h (size tbl)). set (tbl' := mk_table p (size tbl) (func tbl)).
  unfold hashtable_init. destruct (Z.eqb_spec p 0) as [E|E].
  { exists tbl', h. do 2 (split; [done|]). erewrite bind_ok; [|unfold hmalloc; fold p; rewrite E; done].
    unfold tbl'. by rewrite E. }
  set (new := (list_to_map ((fun i => (p + 12 * i, junk A (p + 12 * i))) <$> seqZ 0 (size tbl)) : heap)).
  destruct (init_loop_ok tbl' (Z.to_nat (size tbl)) 0 (new ∪ h)) as (h' & R & H1 & H2).
  { intros j Hj. apply lookup_union_is_Some. left. unfold new.
    destruct (_ !! _) eqn:Hn; [done|]. apply not_elem_of_list_to_map in Hn. exfalso. apply Hn.
    rewrite <- list_fmap_compose. apply list_elem_of_fmap. exists j. split; [done|]. apply elem_of_seqZ. lia. }
  exists tbl', h'. do 2 (split; [done|]). split; [|split].
  - erewrite bind_ok by (unfold hmalloc; fold p; rewrite (proj2 (Z.eqb_neq p 0) E); reflexivity).
    destruct (Z.eqb_spec p 0); [done|]. by rewrite (bind_ok _ _ _ _ _ R).
  - split; [|done]. split; [|intros; apply NoDup_nil_2|intros ? x ? Hx; by apply elem_of_nil in Hx].
    intros i Hi. apply H1. simpl in Hi. lia.
  - intros q [nq Hq]. assert (Hnh : forall j, 0 <= j < size tbl -> q <> header tbl' j).
    { intros j Hj ->. pose proof (HA h (size tbl) j Hj E) as Hn. change (h !! header tbl' j = None) in Hn. congruence. }
    rewrite H2 by (intros j Hj; apply Hnh; lia). apply lookup_union_r. apply not_elem_of_list_to_map.
    rewrite <- list_fmap_compose. intros (j & -> & Hj)%list_elem_of_fmap. apply elem_of_seqZ in Hj.
    by apply (Hnh j ltac:(lia)).
Qed.

(** ** Destruction *)

Lemma destroy_chain_ok l : forall h p (fuel : nat),
  chain next h p l -> NoDup (p :: l) -> (length l < fuel)%nat ->
  exists h', destroy_chain fuel p h = Ok (tt, h') /\ is_Some (h' !! p) /\
    (forall x, x ∈ l -> h' !! x = None) /\ (forall x, x ∉ p :: l -> h' !! x = h !! x).
Proof.
  induction l as [|x l IH]; intros h p fuel Hc Hnd Hfu; (destruct fuel as [|fuel]; [simpl in Hfu; lia|]);
    cbn [destroy_chain].
  - destruct Hc as (n & Hn & Hx). exists h. rewrite (bind_ok _ _ _ _ _ (hload_ok _ _ _ Hn)), Hx.
    split; [done|]. split; [by eexists|]. split; [|done]. intros y Hy. by apply elem_of_nil in Hy.
  - pose proof Hc as ((n & Hn & Hx) & Hx0 & Hc'). destruct (chain_head _ _ _ _ Hc') as [nx Hnx].
    pose proof (chain_unlink h p [] x l nx n Hc Hnd Hnx Hn) as Hu. simpl in Hu.
    apply list.NoDup_cons in Hnd as [Hp Hnd]. apply not_elem_of_cons in Hp as [Hpx Hp].
    apply list.NoDup_cons in Hnd as [Hxl Hnd].
    rewrite (bind_ok _ _ _ _ _ (hload_ok _ _ _ Hn)), Hx. destruct (Z.eqb_spec x 0); [done|].
    rewrite (bind_ok _ _ _ _ _ (hload_ok _ _ _ Hnx)), (bind_ok _ _ _ _ _ (hset_next_ok _ _ _ _ Hn)).
    erewrite bind_ok by (eapply hfree_ok; rewrite lookup_insert_ne by done; exact Hnx).
    destruct (IH _ p fuel Hu ltac:(by apply NoDup_cons_2) ltac:(simpl in Hfu; lia)) as (h' & R & Hp' & Hd & Hk).
    exists h'. split; [done|]. split; [done|]. split.
    + intros y [->|Hy]%elem_of_cons; [|by apply Hd]. rewrite Hk, lookup_delete_eq; [done|set_solver].
    + intros y Hy. apply not_elem_of_cons in Hy as [? Hy]. apply not_elem_of_cons in Hy as [? ?].
      rewrite Hk, lookup_delete_ne, lookup_insert_ne by (done || rewrite not_elem_of_cons; done). done.
Qed.

(** A cell of the table: a header or a node of a bucket in [lo, hi). *)
Definition node_in (B : Z -> list Z) (lo hi x : Z) : Prop := exists j, lo <= j < hi /\ x ∈ B j.

Lemma destroy_loop_ok h0 tbl B fuel (n : nat) : forall i h,
  table_rep h0 tbl B -> (forall j, 0 <= j < size tbl -> (length (B j) < fuel)%nat) ->
  0 <= i -> i + Z.of_nat n = size tbl ->
  (forall j, 0 <= j < i -> is_Some (h !! header tbl j)) ->
  (forall j x, i <= j < size tbl -> x = header tbl j \/ x ∈ B j -> h !! x = h0 !! x) ->
  exists h', destroy_loop fuel n tbl i h = Ok (tt, h') /\
    (forall j, 0 <= j < size tbl -> is_Some (h' !! header tbl j)) /\
    (forall x, node_in B i (size tbl) x -> h' !! x = None) /\
    (forall x, ~ is_header tbl x -> ~ node_in B i (size tbl) x -> h' !! x = h !! x).
Proof.
  induction n as [|n IH]; intros i h Hr Hfu Hi Hn Hdone Htodo; cbn [destroy_loop].
  { exists h. split; [done|]. split; [intros; apply Hdone; lia|]. split; [intros x (j & Hj & _); lia|done]. }
  assert (Hii : 0 <= i < size tbl) by lia.
  assert (Hc : chain next h (header tbl i) (B i)).
  { apply (chain_frame _ h0); [by apply (rep_chain _ _ _ Hr)|]. intros q Hq. apply (Htodo i); [lia|]. by apply elem_of_cons in Hq. }
  destruct (destroy_chain_ok (B i) h (header tbl i) fuel Hc (rep_header_nodup _ _ _ _ Hr Hii) (Hfu i Hii))
    as (h1 & R1 & Hh1 & Hd1 & Hk1).
  assert (Hapart : forall j y, 0 <= j < size tbl -> j <> i -> y = header tbl j \/ y ∈ B j -> h1 !! y = h !! y).
  { intros j y Hj Hne Hy. apply Hk1. intros Hin. apply elem_of_cons in Hin.
    by apply (remove_apart h0 tbl B j i y y Hr Hj Hii Hne Hy Hin). }
  rewrite (bind_ok _ _ _ _ _ R1).
  destruct (IH (i + 1) h1 Hr Hfu ltac:(lia) ltac:(lia)) as (h' & R & Hh & Hd & Hk).
  - intros j Hj. destruct (decide (j = i)) as [->|]; [done|]. rewrite (Hapart j) by (lia || by left). apply Hdone. lia.
  - intros j x Hj Hx. rewrite (Hapart j) by (lia || done). apply (Htodo j); [lia|done].
  - exists h'. split; [done|]. split; [done|]. split.
    + intros x (j & Hj & Hx). destruct (decide (j = i)) as [->|]; [|apply Hd; exists j; split; [lia|done]].
      rewrite Hk; [by apply Hd1|by apply (rep_node _ _ _ Hr i)|]. intros (j' & Hj' & Hx').
      pose proof (rep_disjoint _ _ _ i j' x Hr Hii ltac:(lia) Hx Hx'). lia.
    + intros x Hnh Hnn. rewrite Hk; [apply Hk1|done|].
      * intros [->|Hin]%elem_of_cons; [apply Hnh; by exists i|]. apply Hnn. exists i. split; [lia|done].
      * intros (j & Hj & Hx). apply Hnn. exists j. split; [lia|done].
Qed.

Lemma free_array_ok tbl (n : nat) : forall i h,
  (forall j, i <= j < i + Z.of_nat n -> is_Some (h !! header tbl j)) ->
  exists h', free_array n tbl i h = Ok (tt, h') /\
    (forall j, i <= j < i + Z.of_nat n -> h' !! header tbl j = None) /\
    (forall p, (forall j, i <= j < i + Z.of_nat n -> p <> header tbl j) -> h' !! p = h !! p).
Proof.
  induction n as [|n IH]; intros i h Hh; cbn [free_array].
  { exists h. split; [done|]. split; [lia|done]. }
  destruct (Hh i ltac:(lia)) as [x Hx]. rewrite (bind_ok _ _ _ _ _ (hfree_ok _ _ _ Hx)).
  destruct (IH (i + 1) (delete (header tbl i) h)) as (h' & R & H1 & H2).
  { intros j Hj. rewrite lookup_delete_ne by (intros ?%header_inj; lia). apply Hh. lia. }
  exists h'. split; [done|]. split.
  - intros j Hj. destruct (decide (j = i)) as [->|]; [|apply H1; lia].
    rewrite H2 by (intros j' Hj' ?%header_inj; lia). apply lookup_delete_eq.
  - intros q Hq. rewrite H2 by (intros; apply Hq; lia). apply lookup_delete_ne. intros <-. by apply (Hq i ltac:(lia)).
Qed.

(** [hashtable_destroy] frees every node and the array of the table, each
    exactly once (a second free would fault), and nothing else. *)
Theorem hashtable_destroy_frees h tbl B fuel :
  table_rep h tbl B -> 0 <= size tbl ->
  (forall j, 0 <= j < size tbl -> (length (B j) < fuel)%nat) ->
  exists h', hashtable_destroy fuel tbl h = Ok (tt, h') /\
    forall x, (is_header tbl x \/ node_in B 0 (size tbl) x -> h' !! x = None) /\
      (~ is_header tbl x -> ~ node_in B 0 (size tbl) x -> h' !! x = h !! x).
Proof.
  intros Hr Hs Hfu. unfold hashtable_destroy.
  destruct (destroy_loop_ok h tbl B fuel (Z.to_nat (size tbl)) 0 h Hr Hfu ltac:(lia) ltac:(lia))
    as (h1 & R1 & Hh1 & Hd1 & Hk1); [lia|done|].
  destruct (free_array_ok tbl (Z.to_nat (size tbl)) 0 h1) as (h' & R & Hd & Hk); [intros; apply Hh1; lia|].
  exists h'. rewrite (bind_ok _ _ _ _ _ R1). split; [done|]. intros x. split.
  - intros [(j & Hj & ->)|Hx]; [apply Hd; lia|]. rewrite Hk; [by apply Hd1|].
    intros j Hj ->. destruct Hx as (i & Hi & Hx). destruct (rep_node _ _ _ Hr i _ Hi Hx) as [Hn _].
    apply Hn. exists j. split; [lia|done].
  - intros Hnh Hnn. rewrite Hk; [by apply Hk1|]. intros j Hj ->. apply Hnh. exists j. split; [lia|done].
Qed.

(** ** A concrete table of two buckets: key 5 was put twice, key 4 once. *)
Definition demo_func (k : Z) : Z := k mod 2.
Definition demo_table : hashtable_t := mk_table 1200 2 demo_func.
Definition demo_hheap : heap :=
  {[1200 := mk_hnode 24 7 7; 1212 := mk_hnode 36 7 7; 24 := mk_hnode 0 4 40;
    36 := mk_hnode 48 5 51; 48 := mk_hnode 0 5 50]}.
Definition demo_buckets (i : Z) : list Z := if i =? 0 then [24] else [36; 48].
Definition demo_abs (k : Z) : list Z := vals demo_hheap (demo_buckets (k mod 2)) k.

(** An allocator that hands out memory above everything allocated. *)
Definition demo_alloc : allocator :=
  {| malloc := fun h _ => 12 + map_fold (fun k _ m => Z.max k m) 0 h; junk := fun _ => mk_hnode 1 2 3 |}.

Lemma demo_alloc_ok : malloc_ok demo_alloc.
Proof.
  intros h n i Hi _. unfold demo_alloc, malloc.
  assert (Hm : forall m : heap, 0 <= map_fold (fun k _ m => Z.max k m) 0 m /\
    forall k v, m !! k = Some v -> k <= map_fold (fun k _ m => Z.max k m) 0 m).
  { apply (map_fold_weak_ind (fun r m => 0 <= r /\ forall k v, m !! k = Some v -> k <= r)).
    - split; [lia|]. intros k v Hk. by rewrite lookup_empty in Hk.
    - intros k x m r Hk [H0 Hr]. split; [lia|]. intros k' v. rewrite lookup_insert. case_decide; [lia|].
      intros ?%Hr. lia. }
  destruct (h !! _) as [v|] eqn:E; [|done]. apply Hm in E. lia.
Qed.

Lemma demo_table_rep : table_rep demo_hheap demo_table demo_buckets.
Proof.
  assert (Hi2 : forall i, 0 <= i < 2 -> i = 0 \/ i = 1) by lia.
  split.
  - intros i [-> | ->]%Hi2.
    + split; [by eexists|]. split; [done|]. by eexists.
    + split; [by eexists|]. split; [done|]. split; [by eexists|]. split; [done|]. by eexists.
  - intros i [-> | ->]%Hi2; apply (bool_decide_unpack _); by vm_compute.
  - intros i x [-> | ->]%Hi2; intros Hx;
      repeat (apply elem_of_cons in Hx as [->|Hx]; [split; [intros (j & ? & E); unfold header in E; simpl in *; lia|by eexists]|]);
      by apply elem_of_nil in Hx.
Qed.

Lemma demo_table_abs : table_abs demo_hheap demo_table demo_buckets demo_abs.
Proof. split; [apply demo_table_rep|done]. Qed.

Lemma hashtable_get_witness : hashtable_get 3 demo_table 5 demo_hheap = Ok ((51, 1), demo_hheap).
Proof. exact (hashtable_get_refines _ _ _ _ 5 3 demo_table_abs ltac:(vm_compute; split; congruence) ltac:(vm_compute; lia)). Defined.

Lemma hashtable_put_witness :
  exists h' B', hashtable_put demo_alloc demo_table 7 70 demo_hheap = Ok (0, h') /\
    table_abs h' demo_table B' (HTSpec.put demo_abs 7 70).
Proof.
  pose proof (hashtable_put_refines demo_alloc _ _ _ _ 7 70 demo_alloc_ok demo_table_abs ltac:(vm_compute; split; congruence)) as H.
  destruct (malloc demo_alloc demo_hheap 1 =? 0) eqn:E; [vm_compute in E; discriminate E|].
  destruct H as (h' & B' & ? & ? & _). by exists h', B'.
Defined.

Lemma hashtable_remove_witness :
  exists h' B', hashtable_remove 3 demo_table 5 demo_hheap = Ok ((51, 1), h') /\
    table_abs h' demo_table B' (HTSpec.remove demo_abs 5).
Proof.
  destruct (hashtable_remove_refines _ _ _ _ 5 3 demo_table_abs ltac:(vm_compute; split; congruence) ltac:(vm_compute; lia))
    as (h' & B' & ? & ? & _). by exists h', B'.
Defined.

Lemma hashtable_init_witness :
  exists tbl' h', hashtable_init demo_alloc demo_table demo_hheap = Ok ((0, tbl'), h') /\
    table_abs h' tbl' (fun _ => []) HTSpec.empty.
Proof.
  destruct (hashtable_init_empty demo_alloc demo_table demo_hheap demo_alloc_ok ltac:(simpl; lia))
    as (tbl' & h' & _ & _ & H).
  destruct (malloc demo_alloc demo_hheap (size demo_table) =? 0) eqn:E; [vm_compute in E; discriminate E|].
  destruct H as (? & ? & _). by exists tbl', h'.
Defined.

Lemma hashtable_destroy_witness :
  exists h', hashtable_destroy 3 demo_table demo_hheap = Ok (tt, h') /\ h' !! 36 = None.
Proof.
  destruct (hashtable_destroy_frees demo_hheap demo_table demo_buckets 3 demo_table_rep ltac:(simpl; lia))
    as (h' & R & H).
  - intros j _. unfold demo_buckets. destruct (j =? 0); simpl; lia.
  - exists h'. split; [done|]. apply H. right. exists 1. split; [simpl; lia|]. unfold demo_buckets. simpl. set_solver.
Defined.

End Hashtable.
