(* ===== verification/Spinlock.v ===== *)
(** * Spinlock (src/kern/spinlock.c)

    A spinlock is shared by at most two cores (a worker and the manager).  Each
    core is a program counter into [spinlock_lock] / [spinlock_unlock]; a step
    is one access to shared memory, so every interleaving the hardware can
    produce at that grain is a path of [step].  The theorems give mutual
    exclusion, the bounded waiting the file's header promises ("the array
    method can be used to ensure bounded waiting"), and acquisition once the
    holder leaves. *)

From S2P Require Import Prelude.
From Stdlib Require Import ZArith Lia Relations.
From stdpp Require Import base gmap list tactics numbers relations.

#[local] Open Scope Z_scope.

Module Spinlock.

(** The two slots of [waiting]: [cpu_id = (smp_get_cpu() == 0) ? 0 : 1]. *)
Inductive slot := slot0 | slot1.
Definition cpu_id (cpu : Z) : slot := if cpu =? 0 then slot0 else slot1.
Definition other (c : slot) : slot := match c with slot0 => slot1 | slot1 => slot0 end.

Record spinlock_t := mk_spinlock { available : Z; waiting : slot -> Z }.

#[global] Instance slot_eq_dec : EqDecision slot.
Proof. solve_decision. Defined.

Definition upd {A} (f : slot -> A) (c : slot) (v : A) : slot -> A :=
  fun d => if decide (d = c) then v else f d.

Definition spinlock_init (lock : spinlock_t) : Z * spinlock_t := (0, mk_spinlock 1 (fun _ => 0)).
Definition spinlock_destroy (lock : spinlock_t) : spinlock_t := mk_spinlock 0 (waiting lock).

(** ** Program counters

    [Start]: interrupts possibly disabled, before [waiting[cpu_id] = 1];
    [Test]: evaluating [lock->waiting[cpu_id]]; [Xchg]: about to execute
    [asm_xchg(&available, 0)]; [Leave]: before [waiting[cpu_id] = 0];
    [Crit]: between lock and unlock; [UTest]: evaluating
    [waiting[1-cpu_id]]; [Hand]: before clearing it; [Rel]: before
    [asm_xchg(&available, 1)]; [Done]: before the final
    [enable_interrupts()]. *)
Inductive pc := Idle | Start | Test | Xchg | Leave | Crit | UTest | Hand | Rel | Done.

#[global] Instance pc_eq_dec : EqDecision pc.
Proof. solve_decision. Defined.

Record state := mk_state {
  lock : spinlock_t;
  pcs : slot -> pc;
  interrupts : slot -> bool
}.

Definition goto (s : state) (c : slot) (l : spinlock_t) (p : pc) : state :=
  mk_state l (upd (pcs s) c p) (interrupts s).
Definition goto_int (s : state) (c : slot) (p : pc) (b : bool) : state :=
  mk_state (lock s) (upd (pcs s) c p) (upd (interrupts s) c b).
Definition set_waiting (l : spinlock_t) (c : slot) (v : Z) : spinlock_t :=
  mk_spinlock (available l) (upd (waiting l) c v).
Definition set_available (l : spinlock_t) (v : Z) : spinlock_t := mk_spinlock v (waiting l).

(** One step of core [c] inside [spinlock_lock(lock, flag)]. *)
Definition lock_step (flag : bool) (c : slot) (s : state) : option state :=
  match pcs s c with
  | Idle => Some (goto_int s c Start (if flag then false else interrupts s c))
  | Start => Some (goto s c (set_waiting (lock s) c 1) Test)
  | Test => Some (goto s c (lock s) (if waiting (lock s) c =? 0 then Leave else Xchg))
  | Xchg => Some (goto s c (set_available (lock s) 0)
                       (if available (lock s) =? 0 then Test else Leave))
  | Leave => Some (goto s c (set_waiting (lock s) c 0) Crit)
  | _ => None
  end.

(** One step of core [c] inside [spinlock_unlock(lock, flag)]. *)
Definition unlock_step (flag : bool) (c : slot) (s : state) : option state :=
  match pcs s c with
  | Crit => Some (goto s c (lock s) UTest)
  | UTest => Some (goto s c (lock s) (if waiting (lock s) (other c) =? 0 then Rel else Hand))
  | Hand => Some (goto s c (set_waiting (lock s) (other c) 0) Done)
  | Rel => Some (goto s c (set_available (lock s) 1) Done)
  | Done => Some (goto_int s c Idle (if flag then true else interrupts s c))
  | _ => None
  end.

(** Core [c] takes a step. *)
Inductive step (flag : bool) (c : slot) (s s' : state) : Prop :=
| step_lock : lock_step flag c s = Some s' -> step flag c s s'
| step_unlock : unlock_step flag c s = Some s' -> step flag c s s'.

Definition any_step (flag : bool) (s s' : state) : Prop := exists c, step flag c s s'.

(** An initialised lock and two cores outside of it. *)
Definition initial (s : state) : Prop :=
  (exists l, lock s = snd (spinlock_init l)) /\ forall c, pcs s c = Idle.

Definition reachable (flag : bool) (s : state) : Prop := exists s0, initial s0 /\ rtc (any_step flag) s0 s.

(** ** Invariant *)

(** Spinning in the [while] loop. *)
Definition spinning (p : pc) : bool := match p with Test | Xchg => true | _ => false end.

(** A core at [p] whose flag is [w] owns the lock: it is past the loop, or
    the lock was handed to it while it still spins. *)
Definition owns_at (p : pc) (w : Z) : bool :=
  match p with
  | Leave | Crit | UTest | Hand | Rel => true
  | Test | Xchg => w =? 0
  | Idle | Start | Done => false
  end.
Definition owns (s : state) (c : slot) : bool := owns_at (pcs s c) (waiting (lock s) c).

Definition b2z (b : bool) : Z := if b then 1 else 0.

(** A flag is up only between [waiting[cpu_id] = 1] and [waiting[cpu_id] = 0]. *)
Definition flag_ok (p : pc) (w : Z) : Prop :=
  w = 0 \/ (w = 1 /\ match p with Test | Xchg | Leave => True | _ => False end).

(** The invariant, on what one core sees: its own flag and counter ([w], [p])
    and the other's ([w'], [p']).  There is exactly one token: [available] or
    an owner; and a core that decided to hand over still has a waiter. *)
Record vinv (av w w' : Z) (p p' : pc) : Prop := {
  vinv_token : av + b2z (owns_at p w) + b2z (owns_at p' w') = 1;
  vinv_avail : av = 0 \/ av = 1;
  vinv_flag : flag_ok p w;
  vinv_flag' : flag_ok p' w';
  vinv_hand : p = Hand -> w' = 1;
  vinv_hand' : p' = Hand -> w = 1
}.

Definition inv (s : state) : Prop :=
  vinv (available (lock s)) (waiting (lock s) slot0) (waiting (lock s) slot1) (pcs s slot0) (pcs s slot1).

Lemma vinv_sym av w w' p p' : vinv av w w' p p' -> vinv av w' w p' p.
Proof. intros []. split; try done. lia. Qed.

Lemma inv_view s c :
  inv s <-> vinv (available (lock s)) (waiting (lock s) c) (waiting (lock s) (other c)) (pcs s c) (pcs s (other c)).
Proof. destruct c; simpl; [done|]. split; apply vinv_sym. Qed.

Lemma upd_eq {A} (f : slot -> A) c v : upd f c v c = v.
Proof. unfold upd. by rewrite decide_True. Qed.
Lemma upd_other {A} (f : slot -> A) c v : upd f c v (other c) = f (other c).
Proof. unfold upd. by destruct c. Qed.
Lemma upd_from_other {A} (f : slot -> A) c v : upd f (other c) v c = f c.
Proof. unfold upd. by destruct c. Qed.

Lemma initial_inv s : initial s -> inv s.
Proof. intros [[l Hl] Hp]. unfold inv. rewrite Hl, !Hp. by split; [|right| left|left| |]. Qed.

(** Split the flags, the [available] word and the other core's counter; what
    remains of a step of core [c] is then computation. *)
Ltac view_step :=
  simpl; rewrite ?upd_eq, ?upd_other, ?upd_from_other;
  match goal with
  | Hf : flag_ok _ ?w, Hf' : flag_ok _ ?w', Ha : ?av = 0 \/ _ |- _ =>
      destruct Hf as [Hw|[Hw Hp]], Hf' as [Hw'|[Hw' Hp']], Ha as [Ha|Ha];
      rewrite ?Hw, ?Hw', ?Ha in *
  end;
  match goal with |- vinv _ _ _ _ ?p' => destruct p' end;
  simpl in *; try contradiction; try discriminate; try lia;
  split; unfold flag_ok; simpl; auto; intros; try discriminate; auto.

Lemma step_inv flag c s s' : inv s -> step flag c s s' -> inv s'.
Proof.
  intros Hi [H|H]; apply (inv_view s c) in Hi; apply (inv_view s' c);
    unfold lock_step, unlock_step in H; destruct (pcs s c) eqn:Ep; try discriminate H;
    injection H as <-; destruct Hi as [Ht Ha Hf Hf' Hh Hh']; unfold goto, goto_int; view_step.
Qed.

Lemma reachable_inv flag s : reachable flag s -> inv s.
Proof.
  intros (s0 & H0 & Hr). apply initial_inv in H0. induction Hr as [|x y z [c Hc] _ IH]; [done|].
  apply IH. by eapply step_inv.
Qed.

(** (C13) Mutual exclusion: in every reachable state of the two-core spinlock at
    most one core is between the return of [spinlock_lock] and its
    [spinlock_unlock], whatever the interleaving of their memory accesses. *)
Theorem spinlock_mutual_exclusion flag s :
  reachable flag s -> ~ (pcs s slot0 = Crit /\ pcs s slot1 = Crit).
Proof.
  intros Hr [H0 H1]. apply reachable_inv in Hr. destruct Hr as [Ht Ha _ _ _ _].
  rewrite H0, H1 in Ht. simpl in Ht. lia.
Qed.

(** ** Bounded waiting *)

(** Paths on which core [b] spins throughout, with the number of times the
    other core entered its critical section. *)
Inductive waits (flag : bool) (b : slot) : nat -> state -> state -> Prop :=
| waits_refl s : spinning (pcs s b) = true -> waits flag b 0 s s
| waits_step n s s1 s2 c : spinning (pcs s b) = true -> step flag c s s1 -> waits flag b n s1 s2 ->
    waits flag b (n + (if decide (pcs s (other b) <> Crit /\ pcs s1 (other b) = Crit) then 1 else 0)) s s2.

(** How often the other core can still enter. *)
Definition budget (b : slot) (s : state) : nat :=
  if owns s b then 0
  else match pcs s (other b) with Crit | UTest | Hand => 0 | _ => 1 end.

Lemma other_other c : other (other c) = c.
Proof. by destruct c. Qed.

Lemma budget_step flag b c s s' :
  inv s -> spinning (pcs s b) = true -> spinning (pcs s' b) = true -> step flag c s s' ->
  (budget b s' + (if decide (pcs s (other b) <> Crit /\ pcs s' (other b) = Crit) then 1 else 0) <= budget b s)%nat.
Proof.
  intros Hi Hb Hb' Hs. apply (inv_view s b) in Hi. destruct Hi as [Ht Ha Hf Hf' Hh Hh'].
  assert (Hc : c = b \/ c = other b) by (destruct c, b; auto).
  destruct Hs as [H|H]; destruct Hc as [-> | ->]; unfold lock_step, unlock_step in H.
  - destruct (pcs s b) eqn:Ep; try discriminate; injection H as <-; unfold budget, owns in *; revert Hb';
      unfold goto; simpl; rewrite ?upd_eq, ?upd_other, Ep; simpl.
    + destruct (waiting (lock s) b =? 0) eqn:E; [done|]. simpl. rewrite E. intros _. rewrite decide_False by tauto. lia.
    + destruct (available (lock s) =? 0); [|done]. intros _. simpl. rewrite decide_False by tauto. lia.
  - destruct (pcs s (other b)) eqn:Ep; try discriminate; injection H as <-; clear Hb'; unfold budget, owns in *;
      unfold goto, goto_int; simpl; rewrite ?upd_eq, ?upd_from_other, ?Ep in *; simpl in *;
      destruct (pcs s b); try discriminate Hb; simpl in *;
      destruct (waiting (lock s) b =? 0); simpl in *; try (exfalso; lia);
      repeat case_match; try discriminate; destruct_and?; try discriminate; try lia.
  - destruct (pcs s b); discriminate.
  - destruct (pcs s (other b)) eqn:Ep; try discriminate; injection H as <-; clear Hb'; unfold budget, owns in *;
      unfold goto, goto_int; simpl; rewrite ?other_other, ?upd_eq, ?upd_from_other, ?Ep in *; simpl in *;
      destruct (pcs s b); try discriminate Hb; simpl in *;
      destruct (Z.eqb_spec (waiting (lock s) b) 0); simpl in *; try (exfalso; lia);
      repeat case_match; try discriminate; destruct_and?; try discriminate; try congruence; try lia.
Qed.

(** (C14) Bounded waiting: from the moment a core has raised its [waiting] flag
    (it spins), the other core enters the critical section at most once before
    the waiting core gets the lock. *)
Theorem spinlock_bounded_waiting flag b n s s' :
  reachable flag s -> waits flag b n s s' -> (n <= 1)%nat.
Proof.
  intros Hr Hw. apply reachable_inv in Hr.
  assert (Hb : (n + budget b s' <= budget b s)%nat).
  { induction Hw as [s _|n s s1 s2 c Hs Hst Hw IH]; [lia|].
    pose proof (step_inv _ _ _ _ Hr Hst) as Hi1. specialize (IH Hi1).
    assert (Hs1 : spinning (pcs s1 b) = true) by (by destruct Hw).
    pose proof (budget_step flag b c s s1 Hr Hs Hs1 Hst). lia. }
  assert (budget b s <= 1)%nat by (unfold budget; repeat case_match; lia). lia.
Qed.

(** ** Acquisition *)

Fixpoint run (flag : bool) (c : slot) (n : nat) (s : state) : state :=
  match n with
  | O => s
  | S n => match lock_step flag c s with
           | Some s' => run flag c n s'
           | None => match unlock_step flag c s with Some s' => run flag c n s' | None => s end
           end
  end.

(** No lost hand-over: in every reachable state where core [c] spins and
    the other core is not inside, [c] reaches its critical section by at most
    three steps of its own, whether the lock was handed to it or is free. *)
Theorem spinlock_acquires flag c s :
  reachable flag s -> spinning (pcs s c) = true -> owns s (other c) = false ->
  exists n, (n <= 3)%nat /\ pcs (run flag c n s) c = Crit.
Proof.
  intros Hr%reachable_inv Hs Ho. apply (inv_view s c) in Hr. destruct Hr as [Ht Ha _ _ _ _].
  unfold owns in Ho. rewrite Ho in Ht. simpl in Ht.
  destruct (pcs s c) eqn:Ep; try discriminate Hs; simpl in Ht.
  - destruct (Z.eqb_spec (waiting (lock s) c) 0) as [E|E].
    + exists 2%nat. split; [lia|]. unfold run, lock_step. rewrite Ep, E. simpl. rewrite !upd_eq. simpl. by rewrite upd_eq.
    + exists 3%nat. split; [lia|]. simpl in Ht. unfold run, lock_step. rewrite Ep.
      destruct (Z.eqb_spec (waiting (lock s) c) 0); [done|]. simpl. rewrite !upd_eq. simpl. rewrite !upd_eq.
      destruct (Z.eqb_spec (available (lock s)) 0); [lia|]. simpl. by rewrite !upd_eq.
  - destruct (Z.eqb_spec (waiting (lock s) c) 0) as [E|E]; simpl in Ht.
    + exists 3%nat. split; [lia|]. unfold run, lock_step. rewrite Ep. simpl. rewrite !upd_eq.
      destruct (Z.eqb_spec (available (lock s)) 0); [|lia]. simpl. rewrite !upd_eq, E. simpl. by rewrite !upd_eq.
    + exists 2%nat. split; [lia|]. unfold run, lock_step. rewrite Ep. simpl. rewrite !upd_eq.
      destruct (Z.eqb_spec (available (lock s)) 0); [lia|]. simpl. by rewrite !upd_eq.
Qed.

(** ** A concrete run: the second core raises its flag while the lock is
    free, then the first core takes the lock, and releases it. *)
Definition demo0 : state := mk_state (snd (spinlock_init (mk_spinlock 7 (fun _ => 7)))) (fun _ => Idle) (fun _ => true).
Definition demo_wait : state := run true slot1 2 demo0.
Definition demo_crit : state := run true slot0 5 demo_wait.
Definition demo_free : state := run true slot0 4 demo_crit.

Lemma run_reachable flag c n : forall s, reachable flag s -> reachable flag (run flag c n s).
Proof.
  induction n as [|n IH]; intros s Hr; [done|]. simpl. destruct Hr as (s0 & H0 & Hr).
  destruct (lock_step flag c s) as [s'|] eqn:E.
  - apply IH. exists s0. split; [done|]. eapply rtc_r; [done|]. exists c. by apply step_lock.
  - destruct (unlock_step flag c s) as [s'|] eqn:E'; [|by exists s0].
    apply IH. exists s0. split; [done|]. eapply rtc_r; [done|]. exists c. by apply step_unlock.
Qed.

Lemma demo0_reachable : reachable true demo0.
Proof. exists demo0. split; [split; [by exists (mk_spinlock 0 (fun _ => 0))|done]|apply rtc_refl]. Qed.

Lemma demo_crit_reachable : reachable true demo_crit.
Proof. do 2 apply run_reachable. apply demo0_reachable. Qed.

Lemma spinlock_mutual_exclusion_witness : ~ (pcs demo_crit slot0 = Crit /\ pcs demo_crit slot1 = Crit).
Proof. exact (spinlock_mutual_exclusion true demo_crit demo_crit_reachable). Defined.

Lemma demo_waits : waits true slot1 1 demo_wait demo_crit.
Proof.
  set (at_ k := run true slot0 k demo_wait).
  refine (waits_step true slot1 1 (at_ 0%nat) (at_ 1%nat) demo_crit slot0 eq_refl _ _); [by apply step_lock|].
  refine (waits_step true slot1 1 (at_ 1%nat) (at_ 2%nat) demo_crit slot0 eq_refl _ _); [by apply step_lock|].
  refine (waits_step true slot1 1 (at_ 2%nat) (at_ 3%nat) demo_crit slot0 eq_refl _ _); [by apply step_lock|].
  refine (waits_step true slot1 1 (at_ 3%nat) (at_ 4%nat) demo_crit slot0 eq_refl _ _); [by apply step_lock|].
  refine (waits_step true slot1 0 (at_ 4%nat) (at_ 5%nat) demo_crit slot0 eq_refl _ _); [by apply step_lock|].
  by apply waits_refl.
Qed.

Lemma spinlock_bounded_waiting_witness : (1 <= 1)%nat.
Proof.
  exact (spinlock_bounded_waiting true slot1 1 demo_wait demo_crit
    (run_reachable true slot1 2 demo0 demo0_reachable) demo_waits).
Defined.

Lemma spinlock_acquires_witness : exists n, (n <= 3)%nat /\ pcs (run true slot1 n demo_free) slot1 = Crit.
Proof. exact (spinlock_acquires true slot1 demo_free (run_reachable _ _ _ _ demo_crit_reachable) eq_refl eq_refl). Defined.

End Spinlock.
