(* ===== verification/ThreadState.v ===== *)
(** * Thread states (src/kern/inc/control_block.h, src/kern/context_switcher.c)

    The field [state] of a tcb remembers a wake-up that arrives before the
    thread has blocked.  The two transitions below are the bodies of the
    [OP_BLOCK] and [OP_MAKE_RUNNABLE] cases of [context_switch_get_next]; they
    are what mutexes, [deschedule]/[make_runnable] and [wait] rely on. *)

From S2P Require Import Prelude.
From Stdlib Require Import ZArith Lia.
From stdpp Require Import base tactics.

#[local] Open Scope Z_scope.

Inductive thread_state_t := NORMAL | BLOCKED | MADE_RUNNABLE | WAKEUP.

#[global] Instance thread_state_eq_dec : EqDecision thread_state_t.
Proof. solve_decision. Defined.

(** [OP_BLOCK]: does the thread really block, and its new state. *)
Definition block_state (st : thread_state_t) : res (bool * thread_state_t) :=
  match st with
  | WAKEUP | MADE_RUNNABLE => Ok (false, NORMAL)
  | NORMAL => Ok (true, BLOCKED)
  | BLOCKED => Panic
  end.

(** [OP_MAKE_RUNNABLE]: does the thread enter the run queue, and its new state. *)
Definition make_runnable_state (st : thread_state_t) : res (bool * thread_state_t) :=
  match st with
  | BLOCKED => Ok (true, NORMAL)
  | NORMAL => Ok (false, MADE_RUNNABLE)
  | MADE_RUNNABLE | WAKEUP => Panic
  end.

(** [OP_RESUME]: the new state of the resumed thread. *)
Definition resume_state (st : thread_state_t) : res thread_state_t :=
  match st with
  | BLOCKED => Ok NORMAL
  | NORMAL => Ok WAKEUP
  | MADE_RUNNABLE | WAKEUP => Panic
  end.

(** A wake-up is never lost: whichever of the two comes first, a block and a
    make-runnable together leave the thread runnable in state [NORMAL]. *)
Lemma block_then_wake st st1 : block_state NORMAL = Ok (true, st1) -> st = st1 ->
  make_runnable_state st = Ok (true, NORMAL).
Proof. intros [= <-] ->. done. Qed.

Lemma wake_then_block st1 : make_runnable_state NORMAL = Ok (false, st1) -> block_state st1 = Ok (false, NORMAL).
Proof. by intros [= <-]. Qed.
