(* ===== verification/Mutex.v ===== *)
(** * Mutex (src/kern/mutex.c)

    [lock_holder] is -1 when free, -2 when destroyed, and otherwise the tid of
    the holder; the queue holds the waiting threads in order of arrival.  Every
    section between [spinlock_lock(&mp->inner_lock)] and the matching unlock is
    atomic (Spinlock.v), so it is one function here.  The threads of a core
    using one mutex are a step relation whose program counters are the points
    of [mutex_lock] and [mutex_unlock] where another thread may run. *)

From S2P Require Import Prelude SimpleQueue ThreadState.
From Stdlib Require Import ZArith Lia.
From stdpp Require Import base gmap list tactics numbers relations.

#[local] Open Scope Z_scope.

Module Mutex.

Record mutex_t := mk_mutex { lock_holder : Z; deque : list Z }.

Definition mutex_init : Z * mutex_t := (0, mk_mutex (-1) []).

Definition mutex_destroy : M mutex_t unit := fun m =>
  if lock_holder m =? -2 then Panic
  else if negb (lock_holder m =? -1) || negb (bool_decide (deque m = [])) then Panic
  else Ok (tt, mk_mutex (-2) (deque m)).

(** The locked section of [mutex_lock]: has the caller got the mutex? *)
Definition lock_section (me : Z) : M mutex_t bool := fun m =>
  if lock_holder m =? -2 then Panic
  else if lock_holder m =? -1 then Ok (true, mk_mutex me (deque m))
  else Ok (false, mk_mutex (lock_holder m) (QSpec.enqueue (deque m) me)).

Definition mutex_try_lock (me : Z) : M mutex_t Z := fun m =>
  if lock_holder m =? -2 then Panic
  else if lock_holder m =? -1 then Ok (0, mk_mutex me (deque m))
  else Ok (-1, m).

(** The locked section of [mutex_unlock]: the thread to make runnable. *)
Definition unlock_section : M mutex_t (option Z) := fun m =>
  if lock_holder m =? -2 then Panic
  else if lock_holder m =? -1 then Panic
  else match QSpec.dequeue (deque m) with
       | None => Ok (None, mk_mutex (-1) (deque m))
       | Some (n, q) => Ok (Some n, mk_mutex n q)
       end.

(** ** Sequential runs

    What a call does when no other thread runs in between: the mutex and the
    states of the threads. *)
Record mstate := mk_mstate { mx : mutex_t; tst : Z -> thread_state_t }.

Definition on_mx {A} (m : M mutex_t A) : M mstate A :=
  zoom mx (fun m' s => mk_mstate m' (tst s)) m.

(** [while (mp->lock_holder != thr->tid) context_switch(OP_BLOCK, 0)]. *)
Fixpoint wait_loop (fuel : nat) (me : Z) : M mstate unit :=
  match fuel with
  | O => nofuel
  | S fuel => fun s =>
      if lock_holder (mx s) =? me then Ok (tt, s)
      else match block_state (tst s me) with
           | Ok (true, st) => Blocks
           | Ok (false, st) => wait_loop fuel me (mk_mstate (mx s) (fupd (tst s) me st))
           | _ => Panic
           end
  end.

Definition mutex_lock (me : Z) : M mstate unit :=
  got ← on_mx (lock_section me);
  if (got : bool) then mret tt else wait_loop 2 me.

(** [if (node != NULL) context_switch(OP_MAKE_RUNNABLE, node->thr)]. *)
Definition wake (node : option Z) : M mstate unit := fun s =>
  match node with
  | None => Ok (tt, s)
  | Some n =>
      match make_runnable_state (tst s n) with
      | Ok (_, st) => Ok (tt, mk_mstate (mx s) (fupd (tst s) n st))
      | _ => Panic
      end
  end.

Definition mutex_unlock : M mstate unit := node ← on_mx unlock_section; wake node.

(** ** Concurrent runs *)

(** [Out]: in neither function; [Loop]: queued, evaluating the [while]
    condition; [Blk]: inside [context_switch(OP_BLOCK)]; [Asleep]: descheduled
    by it; [In]: holding the mutex; [Wake n]: in [mutex_unlock], about to make
    [n] runnable. *)
Inductive mpc := Out | Loop | Blk | Asleep | In | Wake (n : Z).

Record cstate := mk_cstate { cmx : mutex_t; ctst : Z -> thread_state_t; cpc : Z -> mpc }.

Inductive mstep (s : cstate) (t : Z) : cstate -> Prop :=
| m_lock m' : cpc s t = Out -> lock_section t (cmx s) = Ok (true, m') ->
    mstep s t (mk_cstate m' (ctst s) (fupd (cpc s) t In))
| m_lock_wait m' : cpc s t = Out -> lock_section t (cmx s) = Ok (false, m') ->
    mstep s t (mk_cstate m' (ctst s) (fupd (cpc s) t Loop))
| m_try rv m' : cpc s t = Out -> mutex_try_lock t (cmx s) = Ok (rv, m') ->
    mstep s t (mk_cstate m' (ctst s) (fupd (cpc s) t (if rv =? 0 then In else Out)))
| m_exit : cpc s t = Loop -> lock_holder (cmx s) = t ->
    mstep s t (mk_cstate (cmx s) (ctst s) (fupd (cpc s) t In))
| m_retry : cpc s t = Loop -> lock_holder (cmx s) <> t ->
    mstep s t (mk_cstate (cmx s) (ctst s) (fupd (cpc s) t Blk))
| m_block b st : cpc s t = Blk -> block_state (ctst s t) = Ok (b, st) ->
    mstep s t (mk_cstate (cmx s) (fupd (ctst s) t st) (fupd (cpc s) t (if (b : bool) then Asleep else Loop)))
| m_unlock m' : cpc s t = In -> unlock_section (cmx s) = Ok (None, m') ->
    mstep s t (mk_cstate m' (ctst s) (fupd (cpc s) t Out))
| m_unlock_hand n m' : cpc s t = In -> unlock_section (cmx s) = Ok (Some n, m') ->
    mstep s t (mk_cstate m' (ctst s) (fupd (cpc s) t (Wake n)))
| m_wake n b st : cpc s t = Wake n -> make_runnable_state (ctst s n) = Ok (b, st) ->
    mstep s t (mk_cstate (cmx s) (fupd (ctst s) n st)
      (fupd (if (b : bool) then fupd (cpc s) n Loop else cpc s) t Out)).

(** Thread ids are not negative. *)
Definition cstep (s s' : cstate) : Prop := exists t, 0 <= t /\ mstep s t s'.

Definition cinit : cstate := mk_cstate (snd mutex_init) (fun _ => NORMAL) (fun _ => Out).
Definition creachable (s : cstate) : Prop := rtc cstep cinit s.

(** ** Invariant *)

(** In [mutex_lock], waiting for the mutex. *)
Definition waits (p : mpc) : Prop := p = Loop \/ p = Blk \/ p = Asleep.

Record cinv (s : cstate) : Prop := {
  ci_holder : lock_holder (cmx s) = -1 \/ 0 <= lock_holder (cmx s);
  ci_free : lock_holder (cmx s) = -1 -> deque (cmx s) = [];
  ci_in : forall t, cpc s t = In -> lock_holder (cmx s) = t;
  ci_held : 0 <= lock_holder (cmx s) ->
    cpc s (lock_holder (cmx s)) = In \/ waits (cpc s (lock_holder (cmx s)));
  ci_queue : forall t, t ∈ deque (cmx s) -> 0 <= t /\ waits (cpc s t) /\ lock_holder (cmx s) <> t;
  ci_nodup : NoDup (deque (cmx s));
  ci_waits : forall t, waits (cpc s t) -> t ∈ deque (cmx s) \/ lock_holder (cmx s) = t;
  ci_asleep : forall t, ctst s t = BLOCKED <-> cpc s t = Asleep;
  ci_wake : forall t, 0 <= t -> lock_holder (cmx s) = t ->
    cpc s t = Asleep \/ (cpc s t = Blk /\ ctst s t = NORMAL) -> exists u, cpc s u = Wake t;
  ci_neg : forall t, cpc s t <> Out -> 0 <= t
}.


Ltac finv := match goal with H : cinv _ |- _ => destruct H as [Hh Hfr Hin Hheld Hq Hnd Hw Has Hwk Hng] end.

Lemma cinit_inv : cinv cinit.
Proof.
  split; simpl; try done; try (by left).
  - intros t Ht. by apply elem_of_nil in Ht.
  - intros t Ht. unfold waits in Ht. naive_solver.
  - intros t _ _ Ht. naive_solver.
Qed.

(** Taking a free mutex. *)
Lemma acquire_inv s t : cinv s -> 0 <= t -> cpc s t = Out -> lock_holder (cmx s) = -1 ->
  cinv (mk_cstate (mk_mutex t (deque (cmx s))) (ctst s) (fupd (cpc s) t In)).
Proof.
  intros H Ht Hp Hf. finv. rewrite (Hfr Hf) in *.
  assert (Hneg : forall u, cpc s u <> Out -> u <> -1) by (intros u ?%Hng; lia).
  split; simpl.
  - by right.
  - done.
  - intros u. fupd_cases t u; [done|]. intros Hu. pose proof (Hin u Hu).
    specialize (Hneg u). rewrite Hu in Hneg. intuition congruence.
  - intros _. rewrite fupd_eq. by left.
  - intros u Hu. by apply elem_of_nil in Hu.
  - done.
  - intros u. fupd_cases t u; [by right|]. intros Hu. destruct (Hw u Hu) as [Hu'|Hu']; [by left|].
    exfalso. apply (Hneg u); [|congruence]. unfold waits in Hu. intuition congruence.
  - intros u. rewrite Has. fupd_cases t u; [by rewrite Hp|done].
  - intros u _ <-. rewrite fupd_eq. naive_solver.
  - intros u. fupd_cases t u; [done|apply Hng].
Qed.

(** Queueing behind a holder. *)
Lemma enqueue_inv s t : cinv s -> 0 <= t -> cpc s t = Out -> lock_holder (cmx s) <> -1 ->
  cinv (mk_cstate (mk_mutex (lock_holder (cmx s)) (deque (cmx s) ++ [t])) (ctst s) (fupd (cpc s) t Loop)).
Proof.
  intros H Ht Hp Hf. finv. assert (Hpos : 0 <= lock_holder (cmx s)) by lia.
  assert (Hne : lock_holder (cmx s) <> t).
  { intros E. specialize (Hheld Hpos). rewrite E, Hp in Hheld. unfold waits in Hheld. naive_solver. }
  split; simpl.
  - by right.
  - done.
  - intros u. fupd_cases t u; [done|apply Hin].
  - intros _. rewrite fupd_ne by done. by apply Hheld.
  - intros u [Hu| ->%list_elem_of_singleton]%elem_of_app.
    + destruct (Hq u Hu) as (? & ? & ?). fupd_cases t u; [by repeat split; try left|done].
    + rewrite fupd_eq. by repeat split; try left.
  - apply list.NoDup_app. split; [done|]. split; [|apply NoDup_singleton].
    intros u Hu ->%list_elem_of_singleton. destruct (Hq t Hu) as (_ & Hwt & _). rewrite Hp in Hwt.
    unfold waits in Hwt. naive_solver.
  - intros u. fupd_cases t u; [left; set_solver|]. intros [?|?]%Hw; [left; set_solver|by right].
  - intros u. rewrite Has. fupd_cases t u; [by rewrite Hp|done].
  - intros u Hu E. rewrite (fupd_ne _ t u) by congruence. intros Hc. destruct (Hwk u Hu E Hc) as [v Hv].
    exists v. rewrite fupd_ne; [done|]. intros ->. congruence.
  - intros u. fupd_cases t u; [done|apply Hng].
Qed.

(** Moving inside [mutex_lock] without touching the mutex. *)
Lemma move_inv s t p st : cinv s -> waits (cpc s t) ->
  (p = In /\ lock_holder (cmx s) = t \/ waits p) ->
  (st = BLOCKED <-> p = Asleep) ->
  (lock_holder (cmx s) = t -> p = Asleep \/ (p = Blk /\ st = NORMAL) ->
     cpc s t = Asleep \/ (cpc s t = Blk /\ ctst s t = NORMAL)) ->
  cinv (mk_cstate (cmx s) (fupd (ctst s) t st) (fupd (cpc s) t p)).
Proof.
  intros H Hwt Hp Hst Hback. finv.
  assert (Ht : 0 <= t) by (apply Hng; intros E; rewrite E in Hwt; unfold waits in Hwt; naive_solver).
  assert (Hnw : forall v n, cpc s v = Wake n -> v <> t).
  { intros v n Hv ->. rewrite Hv in Hwt. unfold waits in Hwt. naive_solver. }
  assert (Hpin : p = In -> lock_holder (cmx s) = t) by (unfold waits in Hp; naive_solver).
  split; simpl; try done.
  - intros u. fupd_cases t u; [done|apply Hin].
  - intros Hpos. destruct (decide (lock_holder (cmx s) = t)) as [E|E].
    + rewrite E, fupd_eq. naive_solver.
    + rewrite !fupd_ne by done. by apply Hheld.
  - intros u Hu. destruct (Hq u Hu) as (? & ? & ?). fupd_cases t u; [|done]. naive_solver.
  - intros u. fupd_cases t u; [|apply Hw]. intros _. by apply Hw.
  - intros u. fupd_cases t u; [done|apply Has].
  - intros u Hu E Hc. assert (Hc' : cpc s u = Asleep \/ (cpc s u = Blk /\ ctst s u = NORMAL)).
    { revert Hc. fupd_cases t u; [by apply Hback|done]. }
    destruct (Hwk u Hu E Hc') as [v Hv]. exists v. rewrite fupd_ne; [done|]. by eapply Hnw.
  - intros u. fupd_cases t u; [done|apply Hng].
Qed.

(** Releasing a mutex nobody waits for. *)
Lemma release_inv s t : cinv s -> cpc s t = In -> deque (cmx s) = [] ->
  cinv (mk_cstate (mk_mutex (-1) (deque (cmx s))) (ctst s) (fupd (cpc s) t Out)).
Proof.
  intros H Hp Hd. finv. pose proof (Hin t Hp) as Ht. rewrite Hd in *. split; simpl; try done.
  - by left.
  - intros u. fupd_cases t u; [done|]. intros Hu%Hin. congruence.
  - intros u Hu. by apply elem_of_nil in Hu.
  - intros u. fupd_cases t u; [unfold waits; naive_solver|]. intros [?|?]%Hw; [by left|congruence].
  - intros u. rewrite Has. fupd_cases t u; [by rewrite Hp|done].
  - intros u Hu E. lia.
  - intros u. fupd_cases t u; [done|apply Hng].
Qed.

(** Handing the mutex to the head of the queue. *)
Lemma hand_inv s t n q : cinv s -> cpc s t = In -> deque (cmx s) = n :: q ->
  cinv (mk_cstate (mk_mutex n q) (ctst s) (fupd (cpc s) t (Wake n))).
Proof.
  intros H Hp Hd. finv. pose proof (Hin t Hp) as Ht. rewrite Hd in *.
  destruct (Hq n ltac:(set_solver)) as (Hn0 & Hnw & Hnh). apply list.NoDup_cons in Hnd as [Hnq Hnd].
  assert (Ht0 : 0 <= t) by (apply Hng; congruence).
  assert (Hntn : n <> t) by congruence.
  split; simpl; try done.
  - by right.
  - lia.
  - intros u. fupd_cases t u; [done|]. intros Hu%Hin. congruence.
  - intros _. rewrite fupd_ne by done. by right.
  - intros u Hu. destruct (Hq u ltac:(set_solver)) as (? & ? & ?). rewrite fupd_ne by congruence.
    split; [done|]. split; [done|]. intros ->. done.
  - intros u. fupd_cases t u; [unfold waits; naive_solver|]. intros [Hu|?]%Hw; [|congruence].
    apply elem_of_cons in Hu as [->|Hu]; [by right|by left].
  - intros u. rewrite Has. fupd_cases t u; [by rewrite Hp|done].
  - intros u Hu <- _. exists t. apply fupd_eq.
  - intros u. fupd_cases t u; [done|apply Hng].
Qed.

(** Making the thread at the end of the hand-over runnable. *)
Lemma wake_inv s t n b st : cinv s -> cpc s t = Wake n -> make_runnable_state (ctst s n) = Ok (b, st) ->
  cinv (mk_cstate (cmx s) (fupd (ctst s) n st)
      (fupd (if (b : bool) then fupd (cpc s) n Loop else cpc s) t Out)).
Proof.
  intros H Hp Hm. finv. assert (Ht0 : 0 <= t) by (apply Hng; congruence).
  assert (Hth : lock_holder (cmx s) <> t).
  { intros E. specialize (Hheld ltac:(lia)). rewrite E, Hp in Hheld. unfold waits in Hheld. naive_solver. }
  assert (Htw : ~ waits (cpc s t)) by (rewrite Hp; unfold waits; naive_solver).
  destruct (ctst s n) eqn:En; simpl in Hm; try discriminate; injection Hm as <- <-.
  - (* not blocked yet: the wake-up is remembered *)
    split; simpl; try done.
    + intros u. fupd_cases t u; [done|apply Hin].
    + intros Hpos. rewrite !fupd_ne by done. by apply Hheld.
    + intros u Hu. destruct (Hq u Hu) as (? & ? & ?). rewrite fupd_ne by (intros ->; done). done.
    + intros u. fupd_cases t u; [unfold waits; naive_solver|apply Hw].
    + intros u. fupd_cases t u; [split; [|done]|].
      * destruct (Z.eq_dec t n) as [->|]; [by rewrite fupd_eq|rewrite fupd_ne by done]. rewrite Has. congruence.
      * rewrite <- Has. destruct (Z.eq_dec u n) as [->|]; [rewrite fupd_eq, En; done|by rewrite fupd_ne].
    + intros u Hu E. rewrite (fupd_ne _ t u) by congruence. intros Hc.
      destruct (Z.eq_dec u n) as [->|Hun].
      * rewrite fupd_eq in Hc. destruct Hc as [Hc|[_ ?]]; [|done]. apply Has in Hc. congruence.
      * rewrite fupd_ne in Hc by done. destruct (Hwk u Hu E Hc) as [v Hv]. exists v.
        rewrite fupd_ne; [done|]. intros ->. congruence.
    + intros u. fupd_cases t u; [done|apply Hng].
  - (* blocked: it becomes runnable *)
    assert (Hna : cpc s n = Asleep) by (by apply Has). assert (Hnt : n <> t) by congruence.
    assert (Hwn : waits (cpc s n)) by (rewrite Hna; unfold waits; auto).
    split; simpl; try done.
    + intros u. fupd_cases t u; [done|]. fupd_cases n u; [done|apply Hin].
    + intros Hpos. rewrite fupd_ne by done. destruct (Z.eq_dec (lock_holder (cmx s)) n) as [->|].
      * rewrite fupd_eq. right. by left.
      * rewrite fupd_ne by done. by apply Hheld.
    + intros u Hu. destruct (Hq u Hu) as (? & ? & ?). rewrite fupd_ne by (intros ->; done).
      fupd_cases n u; [|done]. by repeat split; try left.
    + intros u. fupd_cases t u; [unfold waits; naive_solver|]. fupd_cases n u; [|apply Hw]. intros _. by apply Hw.
    + intros u. fupd_cases t u; [split; [|done]|].
      * rewrite fupd_ne by done. rewrite Has. congruence.
      * fupd_cases n u; [done|apply Has].
    + intros u Hu E. rewrite (fupd_ne _ t u) by congruence. fupd_cases n u; [naive_solver|]. intros Hc.
      destruct (Hwk u Hu E Hc) as [v Hv]. exists v. rewrite !fupd_ne; [done| |]; intros ->; congruence.
    + intros u. fupd_cases t u; [done|]. fupd_cases n u; [|apply Hng]. intros _. apply Hng. congruence.
Qed.

(** The invariant only looks at the maps pointwise. *)
Lemma cinv_ext s m st pc :
  cmx s = m -> (forall u, ctst s u = st u) -> (forall u, cpc s u = pc u) -> cinv s -> cinv (mk_cstate m st pc).
Proof.
  intros <- Hst Hpc H. finv. split; simpl; try done; intros *; rewrite <- ?Hst, <- ?Hpc; auto.
  intros ?? Hc. destruct (Hwk t H H0 Hc) as [v Hv]. exists v. by rewrite <- Hpc.
Qed.

Lemma cstep_inv s s' : cinv s -> cstep s s' -> cinv s'.
Proof.
  intros Hc (t & Ht & Hst).
  destruct Hst as [m' Hp Hl|m' Hp Hl|rv m' Hp Hl|Hp Hl|Hp Hl|b st Hp Hl|m' Hp Hl|n m' Hp Hl|n b st Hp Hl];
    try (unfold lock_section, mutex_try_lock, unlock_section in Hl;
         destruct (Z.eqb_spec (lock_holder (cmx s)) (-2)); [discriminate|];
         destruct (Z.eqb_spec (lock_holder (cmx s)) (-1)); try discriminate).
  - injection Hl as <-. by apply acquire_inv.
  - injection Hl as <-. by apply enqueue_inv.
  - injection Hl as <- <-. by apply acquire_inv.
  - injection Hl as <- <-. apply (cinv_ext s); [done|done| |done]. intros u. simpl. by fupd_cases t u.
  - eapply (cinv_ext (mk_cstate (cmx s) (fupd (ctst s) t (ctst s t)) (fupd (cpc s) t In))); [done| |done|].
    + intros u. simpl. by fupd_cases t u.
    + apply move_inv; [done|rewrite Hp; by left|by left| |naive_solver]. rewrite (ci_asleep _ Hc), Hp. done.
  - eapply (cinv_ext (mk_cstate (cmx s) (fupd (ctst s) t (ctst s t)) (fupd (cpc s) t Blk))); [done| |done|].
    + intros u. simpl. by fupd_cases t u.
    + apply move_inv; [done|rewrite Hp; by left|right; unfold waits; auto| |done]. rewrite (ci_asleep _ Hc), Hp. done.
  - destruct (ctst s t) eqn:Et; simpl in Hl; try discriminate; injection Hl as <- <-;
      (apply move_inv; [done|rewrite Hp; unfold waits; auto|right; unfold waits; auto|done|]); naive_solver.
  - destruct (deque (cmx s)) as [|x q] eqn:Hd; [|discriminate]. injection Hl as <-. rewrite <- Hd. by apply release_inv.
  - destruct (deque (cmx s)) as [|x q] eqn:Hd; [discriminate|]. injection Hl as <- <-. by apply hand_inv.
  - by eapply wake_inv.
Qed.

Lemma creachable_inv s : creachable s -> cinv s.
Proof.
  intros Hr. unfold creachable in Hr. assert (H0 := cinit_inv). revert H0.
  induction Hr as [|x y z Hxy _ IH]; intros H0; [done|]. apply IH. by eapply cstep_inv.
Qed.

(** (C11) Mutual exclusion: in every reachable state of the threads sharing a
    mutex, a thread that has returned from [mutex_lock] (or from a successful
    [mutex_try_lock]) and not yet called [mutex_unlock] is the holder, so there
    is at most one. *)
Theorem mutex_mutual_exclusion s t u :
  creachable s -> cpc s t = In -> cpc s u = In -> t = u /\ lock_holder (cmx s) = t.
Proof.
  intros Hr%creachable_inv Ht Hu. pose proof (ci_in _ Hr t Ht). pose proof (ci_in _ Hr u Hu). split; congruence.
Qed.

(** (C12) No wake-up is lost: whenever the mutex belongs to thread [t] but [t] has
    not yet returned from [mutex_lock], either [t] is about to find itself the
    holder, or its next [OP_BLOCK] returns at once, or some thread still has to
    execute the [OP_MAKE_RUNNABLE] that resumes it. *)
Theorem mutex_no_lost_wakeup s t :
  creachable s -> 0 <= t -> lock_holder (cmx s) = t ->
  cpc s t = In \/ cpc s t = Loop \/
  (cpc s t = Blk /\ block_state (ctst s t) = Ok (false, NORMAL)) \/
  exists u, cpc s u = Wake t.
Proof.
  intros Hr%creachable_inv Ht Hh. pose proof (ci_wake _ Hr t Ht Hh) as Hwk.
  pose proof (ci_held _ Hr ltac:(lia)) as Hp. rewrite Hh in Hp.
  destruct Hp as [?|[?|[Hp|Hp]]]; [by left|by right; left| |right; right; right; auto].
  destruct (ctst s t) eqn:Et; [right; right; right; auto| |by right; right; left..].
  apply (ci_asleep _ Hr) in Et. congruence.
Qed.

(** First come, first served: while threads are queued, no thread takes the
    mutex past them.  A step either leaves the holder alone and at most appends
    a new waiter, or hands the mutex to the head of the queue. *)
Theorem mutex_fifo s s' x q :
  creachable s -> cstep s s' -> deque (cmx s) = x :: q ->
  (lock_holder (cmx s') = lock_holder (cmx s) /\
     (deque (cmx s') = x :: q \/ exists t, deque (cmx s') = (x :: q) ++ [t])) \/
  (lock_holder (cmx s') = x /\ deque (cmx s') = q).
Proof.
  intros Hr%creachable_inv (t & Ht & Hst) Hd.
  destruct Hst as [m' Hp Hl|m' Hp Hl|rv m' Hp Hl|Hp Hl|Hp Hl|b st Hp Hl|m' Hp Hl|n m' Hp Hl|n b st Hp Hl];
    try (by left; split; [|left]);
    unfold lock_section, mutex_try_lock, unlock_section in Hl; rewrite Hd in Hl;
    destruct (Z.eqb_spec (lock_holder (cmx s)) (-2)); try discriminate;
    destruct (Z.eqb_spec (lock_holder (cmx s)) (-1)) as [E|]; try discriminate;
    try (apply (ci_free _ Hr) in E; congruence).
  - injection Hl as <-. left. split; [done|]. right. by exists t.
  - injection Hl as <- <-. left. split; [done|]. by left.
  - injection Hl as <- <-. by right.
Qed.

(** ** Sequential behaviour *)

(** An uncontended mutex is taken and given back. *)
Lemma mutex_lock_free s me :
  mx s = mk_mutex (-1) [] -> mutex_lock me s = Ok (tt, mk_mstate (mk_mutex me []) (tst s)).
Proof. intros E. unfold mutex_lock, on_mx, zoom, mbind, M_bind. by rewrite E. Qed.

Lemma mutex_unlock_free s me : 0 <= me ->
  mx s = mk_mutex me [] -> mutex_unlock s = Ok (tt, mk_mstate (mk_mutex (-1) []) (tst s)).
Proof.
  intros H E. unfold mutex_unlock, on_mx, zoom, mbind, M_bind, unlock_section. rewrite E. simpl.
  destruct (Z.eqb_spec me (-2)); [lia|]. destruct (Z.eqb_spec me (-1)); [lia|]. done.
Qed.

(** A thread that locks the mutex it already holds does not block: it queues
    itself, and the inner unlock hands the mutex back to it and marks it
    [MADE_RUNNABLE]. *)
Lemma mutex_relock s me : 0 <= me -> mx s = mk_mutex me [] -> tst s me = NORMAL ->
  (mutex_lock me;; mutex_unlock) s = Ok (tt, mk_mstate (mk_mutex me []) (fupd (tst s) me MADE_RUNNABLE)).
Proof.
  intros H E Et. unfold mutex_lock, mutex_unlock, on_mx, zoom, mbind, M_bind, lock_section. rewrite E. simpl.
  destruct (Z.eqb_spec me (-2)); [lia|]. destruct (Z.eqb_spec me (-1)); [lia|]. simpl.
  rewrite Z.eqb_refl. unfold unlock_section. simpl.
  destruct (Z.eqb_spec me (-2)); [lia|]. destruct (Z.eqb_spec me (-1)); [lia|]. simpl. by rewrite Et.
Qed.

(** Locking a mutex one already holds is not detected the first time, but
    the second such section panics in [OP_MAKE_RUNNABLE] ("strange state"),
    because the thread has made itself runnable twice. *)
Theorem mutex_relock_twice_panics s me :
  0 <= me -> mx s = mk_mutex me [] -> tst s me = NORMAL ->
  (mutex_lock me;; mutex_unlock;; mutex_lock me;; mutex_unlock) s = Panic.
Proof.
  intros H E Et. pose proof (mutex_relock s me H E Et) as R. apply bind_inv in R as ([] & s1 & R1 & R2).
  rewrite (bind_ok _ _ _ _ _ R1), (bind_ok _ _ _ _ _ R2).
  unfold mutex_lock, mutex_unlock, on_mx, zoom, mbind, M_bind, lock_section. simpl.
  destruct (Z.eqb_spec me (-2)); [lia|]. destruct (Z.eqb_spec me (-1)); [lia|]. simpl.
  rewrite Z.eqb_refl. unfold unlock_section. simpl.
  destruct (Z.eqb_spec me (-2)); [lia|]. destruct (Z.eqb_spec me (-1)); [lia|]. simpl. by rewrite fupd_eq.
Qed.

(** ** A run in which a wake-up arrives late

    Thread 2 hands the mutex to thread 1 and is preempted before its
    [OP_MAKE_RUNNABLE]; thread 1 never blocks, uses the mutex, and queues again
    behind thread 3. *)
Definition late0 : cstate := cinit.
Definition late1 := mk_cstate (mk_mutex 2 []) (ctst late0) (fupd (cpc late0) 2 In).
Definition late2 := mk_cstate (mk_mutex 2 [1]) (ctst late1) (fupd (cpc late1) 1 Loop).
Definition late3 := mk_cstate (mk_mutex 1 []) (ctst late2) (fupd (cpc late2) 2 (Wake 1)).
Definition late4 := mk_cstate (mk_mutex 1 []) (ctst late3) (fupd (cpc late3) 1 In).
Definition late5 := mk_cstate (mk_mutex (-1) []) (ctst late4) (fupd (cpc late4) 1 Out).
Definition late6 := mk_cstate (mk_mutex 3 []) (ctst late5) (fupd (cpc late5) 3 In).
Definition late7 := mk_cstate (mk_mutex 3 [1]) (ctst late6) (fupd (cpc late6) 1 Loop).
Definition late8 := mk_cstate (mk_mutex 3 [1]) (fupd (ctst late7) 1 MADE_RUNNABLE) (fupd (cpc late7) 2 Out).
Definition late9 := mk_cstate (mk_mutex 1 []) (ctst late8) (fupd (cpc late8) 3 (Wake 1)).

Lemma late3_reachable : creachable late3.
Proof.
  apply rtc_l with (y := late1); [exists 2; split; [lia|by apply m_lock]|].
  apply rtc_l with (y := late2); [exists 1; split; [lia|by apply m_lock_wait]|].
  apply rtc_l with (y := late3); [exists 2; split; [lia|by apply m_unlock_hand]|]. apply rtc_refl.
Qed.

Lemma late8_reachable : rtc cstep cinit late8.
Proof.
  transitivity late3; [apply late3_reachable|].
  apply rtc_l with (y := late4); [exists 1; split; [lia|by apply m_exit]|].
  apply rtc_l with (y := late5); [exists 1; split; [lia|by apply m_unlock]|].
  apply rtc_l with (y := late6); [exists 3; split; [lia|by apply m_lock]|].
  apply rtc_l with (y := late7); [exists 1; split; [lia|by apply m_lock_wait]|].
  apply rtc_l with (y := late8); [|apply rtc_refl]. exists 2. split; [lia|]. by apply (m_wake late7 2 1 false MADE_RUNNABLE).
Qed.

(** A late [OP_MAKE_RUNNABLE] can panic the kernel: there is a reachable
    state, with every thread using the mutex as intended, in which
    [mutex_unlock] is about to wake a waiter that is already [MADE_RUNNABLE]
    from an earlier hand-over, which [context_switch_get_next] treats as a
    "strange state". *)
Theorem mutex_late_wakeup_panics :
  exists s u t, creachable s /\ cpc s u = Wake t /\ lock_holder (cmx s) = t /\
    make_runnable_state (ctst s t) = Panic.
Proof.
  exists late9, 3, 1. split; [|done].
  eapply rtc_r; [apply late8_reachable|]. exists 3. split; [lia|]. by apply m_unlock_hand.
Qed.

Lemma mutex_mutual_exclusion_witness : cpc late8 3 = In /\ lock_holder (cmx late8) = 3.
Proof. split; [done|]. exact (proj2 (mutex_mutual_exclusion late8 3 3 late8_reachable eq_refl eq_refl)). Defined.

Lemma mutex_no_lost_wakeup_witness :
  cpc late3 1 = In \/ cpc late3 1 = Loop \/
  (cpc late3 1 = Blk /\ block_state (ctst late3 1) = Ok (false, NORMAL)) \/ exists u, cpc late3 u = Wake 1.
Proof. exact (mutex_no_lost_wakeup late3 1 late3_reachable ltac:(lia) eq_refl). Defined.

Lemma mutex_fifo_witness :
  (lock_holder (cmx late9) = lock_holder (cmx late8) /\
     (deque (cmx late9) = [1] \/ exists t, deque (cmx late9) = [1] ++ [t])) \/
  (lock_holder (cmx late9) = 1 /\ deque (cmx late9) = []).
Proof.
  refine (mutex_fifo late8 late9 1 [] late8_reachable _ eq_refl). exists 3. split; [lia|]. by apply m_unlock_hand.
Defined.

Lemma mutex_relock_twice_witness :
  (mutex_lock 5;; mutex_unlock;; mutex_lock 5;; mutex_unlock) (mk_mstate (mk_mutex 5 []) (fun _ => NORMAL)) = Panic.
Proof. exact (mutex_relock_twice_panics (mk_mstate (mk_mutex 5 []) (fun _ => NORMAL)) 5 ltac:(lia) eq_refl eq_refl). Defined.

End Mutex.
