(* ===== verification/Pm.v ===== *)
(** * Physical memory manager (src/kern/pm.c)

    Each core owns an equal share of the user frames: core [c] hands out the
    addresses [USER_MEM_START + (c * n + i) * PAGE_SIZE] for [i < n], where [n]
    is [num_free_frames_per_core], and counts the frames not yet promised in
    [num_free_frames_left].  The index allocator is used through the interface
    [FrameAlloc]; the segment tree discharges it. *)

From S2P Require Import Prelude SegTree SimpleQueue ThreadState Mutex.
From Stdlib Require Import ZArith Lia.
From stdpp Require Import base gmap list tactics numbers.

#[local] Open Scope Z_scope.

(** ** What pm.c needs of the index allocator *)
Class FrameAlloc (S : Type) := {
  fa_init : Z -> Z -> M S Z;
  fa_get_next : Z -> M S Z;
  fa_put_back : Z -> Z -> M S unit;
  (** [fa_rep cpu s F]: on core [cpu], exactly the indices in [F] are free. *)
  fa_rep : Z -> S -> gset Z -> Prop;
  (** Indices below [fa_cap s] may be put back. *)
  fa_cap : S -> Z;
  fa_get_spec : forall cpu s F, fa_rep cpu s F ->
    exists r s' F', fa_get_next cpu s = Ok (r, s') /\ fa_rep cpu s' F' /\ fa_cap s' = fa_cap s /\
      (forall c G, c <> cpu -> fa_rep c s G -> fa_rep c s' G) /\
      ((r = 2 ^ 32 - 1 /\ F = ∅ /\ F' = ∅) \/
       (r ∈ F /\ (forall f, f ∈ F -> r <= f) /\ F' = F ∖ {[r]}));
  fa_put_spec : forall cpu s F f, fa_rep cpu s F -> 0 <= f < fa_cap s ->
    exists s', fa_put_back cpu f s = Ok (tt, s') /\ fa_rep cpu s' ({[f]} ∪ F) /\ fa_cap s' = fa_cap s /\
      (forall c G, c <> cpu -> fa_rep c s G -> fa_rep c s' G);
  fa_bound : forall cpu s F f, fa_rep cpu s F -> f ∈ F -> 0 <= f < fa_cap s
}.

Lemma cpu_repr_frame cpu c st st' G : SegTree.cpu_frame cpu st st' -> c <> cpu ->
  SegTree.cpu_repr c st G -> SegTree.cpu_repr c st' G.
Proof.
  intros (_ & Hs & Hf) Hc (D & t & Ht & Hr). exists D, t. by rewrite Hf, Hs.
Qed.

#[global] Program Instance seg_alloc (calloc : Z -> option array) : FrameAlloc SegTree.seg_state := {|
  fa_init := fun cpu num => SegTree.init_seg_tree calloc cpu num;
  fa_get_next := fun cpu => SegTree.on_cpu cpu (fun size _ => SegTree.get_next size);
  fa_put_back := fun cpu f => SegTree.on_cpu cpu (fun size _ => SegTree.put_back size f);
  fa_rep := SegTree.cpu_repr;
  fa_cap := fun s => 32 * SegTree.size s
|}.
Next Obligation.
  intros _ cpu s F Hr. destruct (SegTree.cpu_get_next_ok cpu s F Hr) as (r & s' & F' & Hrun & Hn & Hr' & Hf).
  exists r, s', F'. split; [done|]. split; [done|]. split; [by rewrite (proj1 (proj2 Hf))|].
  split; [intros c G Hc; by apply (cpu_repr_frame cpu)|].
  destruct Hn as [(-> & -> & ->)|(? & ? & ->)]; [by left|by right].
Qed.
Next Obligation.
  intros _ cpu s F f Hr Hf. destruct (SegTree.cpu_put_back_ok cpu s F f Hr Hf) as (s' & Hrun & Hr' & Hfr).
  exists s'. split; [done|]. split; [done|]. split; [by rewrite (proj1 (proj2 Hfr))|].
  intros c G Hc. by apply (cpu_repr_frame cpu).
Qed.
Next Obligation.
  intros _ cpu s F f (D & t & _ & _ & HF) Hf. by apply HF in Hf as [? _].
Qed.

Module Pm.

Definition PAGE_SIZE : Z := 4096.
Definition USER_MEM_START : Z := 16777216.
Definition ERROR_NOT_ENOUGH_MEM : Z := -3.

(** The static variables of pm.c, and the states of the threads that take its
    mutexes. *)
Record pm_state (S : Type) := mk_pm {
  num_cpus : Z;
  num_free_frames_per_core : Z;
  num_free_frames_left : gmap Z Z;
  lapic_base : Z;
  lock : gmap Z Mutex.mutex_t;
  trees : S;
  tstates : Z -> thread_state_t
}.
Arguments mk_pm {S}.
Arguments num_cpus {S}.
Arguments num_free_frames_per_core {S}.
Arguments num_free_frames_left {S}.
Arguments lapic_base {S}.
Arguments lock {S}.
Arguments trees {S}.
Arguments tstates {S}.

Section pm.
Context {S : Type} {FA : FrameAlloc S}.

Definition with_left (st : pm_state S) l : pm_state S :=
  mk_pm (num_cpus st) (num_free_frames_per_core st) l (lapic_base st) (lock st) (trees st) (tstates st).
Definition with_lock (st : pm_state S) l ts : pm_state S :=
  mk_pm (num_cpus st) (num_free_frames_per_core st) (num_free_frames_left st) (lapic_base st) l (trees st) ts.
Definition with_trees (t : S) (st : pm_state S) : pm_state S :=
  mk_pm (num_cpus st) (num_free_frames_per_core st) (num_free_frames_left st) (lapic_base st) (lock st) t (tstates st).

(** A mutex operation on [lock[cpu]]. *)
Definition on_lock (cpu : Z) (f : M Mutex.mstate unit) : M (pm_state S) unit := fun st =>
  match lock st !! cpu with
  | None => Fault
  | Some m =>
      zoom (fun st => Mutex.mk_mstate m (tstates st))
           (fun ms st => with_lock st (<[cpu := Mutex.mx ms]> (lock st)) (Mutex.tst ms)) f st
  end.

(** The address of frame [index] of core [cpu]. *)
Definition frame_addr (n cpu index : Z) : Z :=
  w32 (USER_MEM_START + index * PAGE_SIZE + cpu * n * PAGE_SIZE).

(** [me] is the tid of the calling thread; the recursion is on the reserved
    local APIC frame. *)
Fixpoint get_frames_raw (fuel : nat) (cpu me : Z) : M (pm_state S) Z :=
  match fuel with
  | O => nofuel
  | Datatypes.S fuel =>
      on_lock cpu (Mutex.mutex_lock me);;
      index ← zoom trees with_trees (fa_get_next cpu);
      on_lock cpu Mutex.mutex_unlock;;
      if s32 index =? -1 then mret (w32 ERROR_NOT_ENOUGH_MEM)
      else
        st ← get;
        let new_frame := frame_addr (num_free_frames_per_core st) cpu index in
        if new_frame =? lapic_base st then get_frames_raw fuel cpu me
        else mret new_frame
  end.

Definition free_frames_raw (cpu me base : Z) : M (pm_state S) unit :=
  st ← get;
  let index := w32 (base - cpu * num_free_frames_per_core st * PAGE_SIZE - USER_MEM_START) / PAGE_SIZE in
  on_lock cpu (Mutex.mutex_lock me);;
  zoom trees with_trees (fa_put_back cpu index);;
  on_lock cpu Mutex.mutex_unlock.

(** [malloc_left] and [malloc_lock] say whether the two allocations succeed. *)
Definition init_pm (machine_phys_frames smp_num_cpus smp_lapic_base : Z) (malloc_left malloc_lock : bool)
    (cpu : Z) : M (pm_state S) Z := fun st =>
  let st := if cpu =? 0
            then mk_pm smp_num_cpus
                   (Z.quot (machine_phys_frames - USER_MEM_START / PAGE_SIZE) smp_num_cpus)
                   (num_free_frames_left st) smp_lapic_base (lock st) (trees st) (tstates st)
            else st in
  if negb malloc_left then Ok (-1, with_left st (delete cpu (num_free_frames_left st)))
  else
    let st := with_left st (<[cpu := num_free_frames_per_core st]> (num_free_frames_left st)) in
    (rv ← zoom trees with_trees (fa_init cpu (num_free_frames_per_core st));
     if rv <? 0 then mret (-1)
     else if negb malloc_lock then
       modify (fun st => with_lock st (delete cpu (lock st)) (tstates st));; mret (-1)
     else
       modify (fun st => with_lock st (<[cpu := snd Mutex.mutex_init]> (lock st)) (tstates st));;
       mret (if fst Mutex.mutex_init <? 0 then -1 else 0)) st.

(** [atomic_add] (asm_atomic.S) returns the new value of the word. *)
Definition atomic_add_left (cpu val : Z) : M (pm_state S) Z := fun st =>
  match num_free_frames_left st !! cpu with
  | None => Fault
  | Some v => Ok (s32 (v + val), with_left st (<[cpu := s32 (v + val)]> (num_free_frames_left st)))
  end.
Definition read_left (cpu : Z) : M (pm_state S) Z := fun st => deref (num_free_frames_left st !! cpu) st.

Definition reserve_frames (cpu count : Z) : M (pm_state S) Z :=
  v ← atomic_add_left cpu (s32 (- count));
  modify (fun st => with_left st (<[cpu := v]> (num_free_frames_left st)));;
  left ← read_left cpu;
  if left <? 0 then atomic_add_left cpu count;; mret (-1) else mret 0.

Definition unreserve_frames (cpu count : Z) : M (pm_state S) unit :=
  atomic_add_left cpu count;; mret tt.

(** ** Invariant

    On core [cpu], [F] is the set of free indices and [pending] frames have been
    reserved and not yet taken. *)
Record pm_ok (cpu : Z) (st : pm_state S) (F : gset Z) (pending : Z) : Prop := {
  pm_cpu : 0 <= cpu;
  pm_frames : 0 < num_free_frames_per_core st;
  pm_space : USER_MEM_START + (cpu + 1) * num_free_frames_per_core st * PAGE_SIZE <= 2 ^ 32;
  pm_rep : fa_rep cpu (trees st) F;
  pm_cap : num_free_frames_per_core st <= fa_cap (trees st);
  pm_range : forall f, f ∈ F -> 0 <= f < num_free_frames_per_core st;
  pm_left : num_free_frames_left st !! cpu = Some (Z.of_nat (size F) - pending);
  pm_pending : 0 <= pending <= Z.of_nat (size F);
  pm_lock : lock st !! cpu = Some (Mutex.mk_mutex (-1) []);
  (** The local APIC page is not one of this core's frames. *)
  pm_lapic : forall f, 0 <= f < num_free_frames_per_core st ->
    frame_addr (num_free_frames_per_core st) cpu f <> lapic_base st
}.

(** What the operations of one core leave alone. *)
Definition pm_frame (cpu : Z) (st st' : pm_state S) : Prop :=
  num_free_frames_per_core st' = num_free_frames_per_core st /\ lapic_base st' = lapic_base st /\
  tstates st' = tstates st /\ fa_cap (trees st') = fa_cap (trees st) /\
  forall c, c <> cpu -> num_free_frames_left st' !! c = num_free_frames_left st !! c /\
    lock st' !! c = lock st !! c /\ forall G, fa_rep c (trees st) G -> fa_rep c (trees st') G.

Lemma frame_addr_eq n cpu f : 0 <= cpu -> 0 < n -> 0 <= f < n ->
  USER_MEM_START + (cpu + 1) * n * PAGE_SIZE <= 2 ^ 32 ->
  frame_addr n cpu f = USER_MEM_START + (cpu * n + f) * PAGE_SIZE.
Proof. intros ? ? ? H. unfold frame_addr, USER_MEM_START, PAGE_SIZE in *. rewrite w32_small by nia. nia. Qed.

(** The uncontended lock is taken and released around a tree operation. *)
Lemma locked_run {A B} cpu me st (m : M S A) (k : A -> M (pm_state S) B) a t' :
  0 <= me -> lock st !! cpu = Some (Mutex.mk_mutex (-1) []) -> m (trees st) = Ok (a, t') ->
  (on_lock cpu (Mutex.mutex_lock me);; x ← zoom trees with_trees m; on_lock cpu Mutex.mutex_unlock;; k x) st
    = k a (with_trees t' st).
Proof.
  intros Hme Hl Hm.
  set (st1 := with_lock st (<[cpu := Mutex.mk_mutex me []]> (lock st)) (tstates st)).
  assert (H1 : on_lock cpu (Mutex.mutex_lock me) st = Ok (tt, st1)).
  { unfold on_lock. rewrite Hl. erewrite zoom_ok; [|by apply Mutex.mutex_lock_free]. done. }
  rewrite (bind_ok _ _ _ _ _ H1).
  erewrite bind_ok by (eapply zoom_ok; exact Hm).
  assert (H2 : on_lock cpu Mutex.mutex_unlock (with_trees t' st1) = Ok (tt, with_trees t' st)).
  { unfold on_lock. simpl. rewrite lookup_insert_eq.
    erewrite zoom_ok; [|by apply (Mutex.mutex_unlock_free _ me)]. do 2 f_equal. unfold with_trees, with_lock. simpl.
    f_equal. rewrite insert_insert_eq. by apply insert_id. }
  by rewrite (bind_ok _ _ _ _ _ H2).
Qed.

Lemma size_remove (F : gset Z) f : f ∈ F -> Z.of_nat (size (F ∖ {[f]})) = Z.of_nat (size F) - 1.
Proof.
  intros Hf. rewrite size_difference by (by apply singleton_subseteq_l). rewrite size_singleton.
  assert (size F <> 0)%nat; [|lia]. intros E%size_empty_inv. set_solver.
Qed.

Lemma size_add (F : gset Z) f : f ∉ F -> Z.of_nat (size ({[f]} ∪ F)) = Z.of_nat (size F) + 1.
Proof. intros Hf. rewrite size_union by set_solver. rewrite size_singleton. lia. Qed.

Lemma get_frames_ok cpu me st F pending (fuel : nat) :
  0 <= me -> pm_ok cpu st F pending -> num_free_frames_per_core st < 2 ^ 31 -> (0 < fuel)%nat ->
  exists st', pm_frame cpu st st' /\
    if decide (F = ∅) then get_frames_raw fuel cpu me st = Ok (w32 ERROR_NOT_ENOUGH_MEM, st') /\
      pm_ok cpu st' F pending
    else exists f, f ∈ F /\ (forall g, g ∈ F -> f <= g) /\
      get_frames_raw fuel cpu me st = Ok (frame_addr (num_free_frames_per_core st) cpu f, st') /\
      fa_rep cpu (trees st') (F ∖ {[f]}) /\
      (0 < pending -> pm_ok cpu st' (F ∖ {[f]}) (pending - 1)).
Proof.
  intros Hme Hok Hn Hfu. pose proof Hok as [Hcpu Hfr Hsp Hrep Hcap Hrg Hl Hp Hlk Hla].
  destruct (fa_get_spec cpu (trees st) F Hrep) as (r & t' & F' & Hrun & Hrep' & Hcap' & Hoth & Hres).
  destruct fuel as [|fuel]; [lia|]. cbn [get_frames_raw]. exists (with_trees t' st). split.
  { split; [done|]. split; [done|]. split; [done|]. split; [done|]. intros c Hc. split; [done|]. split; [done|].
    intros G HG. by apply Hoth. }
  rewrite (locked_run cpu me st _ _ _ _ Hme Hlk Hrun). destruct Hres as [(-> & -> & ->)|(Hin & Hmin & ->)].
  - rewrite decide_True by done. split; [done|]. split; simpl; try done. by rewrite Hcap'.
  - rewrite decide_False by (intros ->; by apply elem_of_empty in Hin). exists r. split; [done|]. split; [done|].
    pose proof (Hrg r Hin) as Hr. rewrite s32_small by lia. destruct (Z.eqb_spec r (-1)); [lia|].
    rewrite (bind_ok _ _ _ _ _ eq_refl). cbv zeta. unfold with_trees at 1 2. cbn [num_free_frames_per_core lapic_base].
    destruct (Z.eqb_spec (frame_addr (num_free_frames_per_core st) cpu r) (lapic_base st)) as [E|_];
      [by destruct (Hla r Hr)|]. split; [done|]. split; [done|].
    intros Hpend. split; simpl; try done.
    + by rewrite Hcap'.
    + intros f Hf. apply Hrg. set_solver.
    + rewrite Hl, size_remove by done. f_equal. lia.
    + rewrite size_remove by done. lia.
Qed.

(** ** Reservation *)

Lemma reserve_ok cpu st F pending count :
  pm_ok cpu st F pending -> Z.of_nat (size F) < 2 ^ 31 -> 0 <= count < 2 ^ 31 ->
  exists st', pm_frame cpu st st' /\
    if decide (count <= Z.of_nat (size F) - pending)
    then reserve_frames cpu count st = Ok (0, st') /\ pm_ok cpu st' F (pending + count)
    else reserve_frames cpu count st = Ok (-1, st') /\ pm_ok cpu st' F pending.
Proof.
  intros Hok Hsz Hc. pose proof Hok as [Hcpu Hfr Hsp Hrep Hcap Hrg Hl Hp Hlk Hla].
  set (left := Z.of_nat (size F) - pending) in *.
  set (st1 := with_left st (<[cpu := left - count]> (num_free_frames_left st))).
  unfold reserve_frames.
  assert (H1 : atomic_add_left cpu (s32 (- count)) st = Ok (left - count, st1)).
  { unfold atomic_add_left. rewrite Hl, (s32_small (- count)), s32_small by lia. unfold st1.
    by replace (left + - count) with (left - count) by lia. }
  rewrite (bind_ok _ _ _ _ _ H1). rewrite (bind_ok _ _ _ _ _ eq_refl).
  set (st2 := with_left st1 _). assert (H2 : read_left cpu st2 = Ok (left - count, st2)).
  { unfold read_left, st2. simpl. by rewrite lookup_insert_eq. }
  rewrite (bind_ok _ _ _ _ _ H2). destruct (Z.ltb_spec (left - count) 0); case_decide; try lia.
  - assert (H3 : atomic_add_left cpu count st2 = Ok (left, with_left st2 (<[cpu := left]> (num_free_frames_left st2)))).
    { unfold atomic_add_left, st2. simpl. rewrite lookup_insert_eq, s32_small by lia.
      by replace (left - count + count) with left by lia. }
    eexists. split; [|split; [by rewrite (bind_ok _ _ _ _ _ H3)|]].
    + split; [done|]. split; [done|]. split; [done|]. split; [done|]. intros c Hne. simpl.
      rewrite !lookup_insert_ne by done. done.
    + split; simpl; try done. by rewrite lookup_insert_eq.
  - eexists. split; [|split; [done|]].
    + split; [done|]. split; [done|]. split; [done|]. split; [done|]. intros c Hne. simpl.
      rewrite !lookup_insert_ne by done. done.
    + split; simpl; try done; [|lia]. rewrite lookup_insert_eq. f_equal. lia.
Qed.

(** Taking [n] frames one after the other; the local APIC's page is skipped at most
    once, so that two turns are enough. *)
Fixpoint take_frames (n : nat) (cpu me : Z) : M (pm_state S) (list Z) :=
  match n with
  | O => mret []
  | Datatypes.S n => f ← get_frames_raw 2 cpu me; fs ← take_frames n cpu me; mret (f :: fs)
  end.

Lemma pm_frame_trans cpu st1 st2 st3 : pm_frame cpu st1 st2 -> pm_frame cpu st2 st3 -> pm_frame cpu st1 st3.
Proof.
  intros (E1 & E2 & E3 & E4 & H) (E1' & E2' & E3' & E4' & H').
  split; [congruence|]. split; [congruence|]. split; [congruence|]. split; [congruence|].
  intros c Hc. destruct (H c Hc) as (? & ? & HG), (H' c Hc) as (? & ? & HG').
  split; [congruence|]. split; [congruence|]. auto.
Qed.

(** ** The page of the local APIC

    [pm_ok] speaks of a core whose share does not hold the page of the local APIC.
    In general that page may be one of the core's frames: it is counted as free,
    but [get_frames_raw] never hands it out. *)
Definition usable (st : pm_state S) (cpu : Z) (F : gset Z) : gset Z :=
  filter (fun f => frame_addr (num_free_frames_per_core st) cpu f <> lapic_base st) F.

Definition lapic_in_share (st : pm_state S) (cpu : Z) : bool :=
  existsb (fun f => frame_addr (num_free_frames_per_core st) cpu f =? lapic_base st) (seqZ 0 (num_free_frames_per_core st)).
(** The frames that are counted but never handed out. *)
Definition extra (st : pm_state S) (cpu : Z) : Z := if lapic_in_share st cpu then 1 else 0.

(** The share of core [cpu], of which the frames [F] are free. *)
Record share_ok (cpu : Z) (st : pm_state S) (F : gset Z) : Prop := {
  sh_cpu : 0 <= cpu;
  sh_frames : 0 < num_free_frames_per_core st < 2 ^ 31;
  sh_space : USER_MEM_START + (cpu + 1) * num_free_frames_per_core st * PAGE_SIZE <= 2 ^ 32;
  sh_rep : fa_rep cpu (trees st) F;
  sh_cap : num_free_frames_per_core st <= fa_cap (trees st);
  sh_range : forall f, f ∈ F -> 0 <= f < num_free_frames_per_core st;
  sh_lock : lock st !! cpu = Some (Mutex.mk_mutex (-1) []) }.

(** The counter: what can be handed out and the page of the APIC, less what has
    been promised. *)
Record pm_inv (cpu : Z) (st : pm_state S) (F : gset Z) (pending : Z) : Prop := {
  pi_share : share_ok cpu st F;
  pi_left : num_free_frames_left st !! cpu = Some (Z.of_nat (size (usable st cpu F)) + extra st cpu - pending);
  pi_pending : 0 <= pending <= Z.of_nat (size (usable st cpu F)) + extra st cpu }.

Lemma usable_elem st cpu F f : f ∈ usable st cpu F <-> frame_addr (num_free_frames_per_core st) cpu f <> lapic_base st /\ f ∈ F.
Proof. unfold usable. by rewrite elem_of_filter. Qed.

Lemma usable_empty st cpu : usable st cpu ∅ = ∅.
Proof. apply set_eq. intros f. rewrite usable_elem. set_solver. Qed.

(** A tree operation of [get_frames_raw], and where it leaves the state. *)
Lemma next_index cpu me st F : 0 <= me -> share_ok cpu st F ->
  exists r t F', (forall B (k : Z -> M (pm_state S) B),
      (on_lock cpu (Mutex.mutex_lock me);; x ← zoom trees with_trees (fa_get_next cpu); on_lock cpu Mutex.mutex_unlock;; k x) st = k r (with_trees t st)) /\ share_ok cpu (with_trees t st) F' /\ pm_frame cpu st (with_trees t st) /\
    ((s32 r = -1 /\ F = ∅ /\ F' = ∅) \/ (s32 r <> -1 /\ r ∈ F /\ F' = F ∖ {[r]})).
Proof.
  intros Hme [H1 H2 H3 H4 H5 H6 H7]. destruct (fa_get_spec cpu (trees st) F H4) as (r & t & F' & Hrun & Hrep & Hcap & Hoth & Hres).
  exists r, t, F'. split; [intros B k; by rewrite (locked_run cpu me st _ _ _ _ Hme H7 Hrun)|]. split; [|split].
  - split; simpl; try done; [by rewrite Hcap|]. intros f Hf. apply H6. destruct Hres as [(_ & -> & ->)|(_ & _ & ->)]; set_solver.
  - split; [done|]. split; [done|]. split; [done|]. split; [done|]. intros c Hc. split; [done|]. split; [done|]. intros G HG. by apply Hoth.
  - destruct Hres as [(-> & -> & ->)|(Hin & _ & ->)]; [by left|]. right. pose proof (H6 r Hin). rewrite s32_small by lia. split; [lia|done].
Qed.

Lemma share_addr_inj cpu st F f g : share_ok cpu st F -> f ∈ F -> g ∈ F ->
  frame_addr (num_free_frames_per_core st) cpu f = frame_addr (num_free_frames_per_core st) cpu g -> f = g.
Proof.
  intros [H1 H2 H3 _ _ H6 _] Hf%H6 Hg%H6. rewrite !frame_addr_eq by (done || lia). unfold PAGE_SIZE. lia.
Qed.

Lemma get_usable cpu me st F : 0 <= me -> share_ok cpu st F ->
  exists r st' F', get_frames_raw 2 cpu me st = Ok (r, st') /\ share_ok cpu st' F' /\ pm_frame cpu st st' /\
    num_free_frames_left st' = num_free_frames_left st /\ F' ⊆ F /\
    if decide (usable st cpu F = ∅) then r = w32 ERROR_NOT_ENOUGH_MEM /\ usable st' cpu F' = ∅
    else exists f, f ∈ usable st cpu F /\ r = frame_addr (num_free_frames_per_core st) cpu f /\ usable st' cpu F' = usable st cpu F ∖ {[f]}.
Proof.
  intros Hme Hs. cbn [get_frames_raw].
  destruct (next_index cpu me st F Hme Hs) as (r & t & F1 & -> & S1 & Fr1 & [(Er & -> & ->)|(Er & Hin & ->)]).
  { rewrite Er. eexists _, _, ∅. split; [done|]. split; [done|]. split; [done|]. split; [done|]. split; [done|]. rewrite !usable_empty, decide_True by done. done. }
  rewrite (proj2 (Z.eqb_neq _ _) Er), (bind_ok get _ _ _ _ eq_refl). cbv zeta.
  change (num_free_frames_per_core (with_trees t st)) with (num_free_frames_per_core st). change (lapic_base (with_trees t st)) with (lapic_base st).
  destruct (Z.eqb_spec (frame_addr (num_free_frames_per_core st) cpu r) (lapic_base st)) as [El|El].
  - (* the page of the local APIC: the next frame is not *)
    assert (EU : usable st cpu F = F ∖ {[r]}).
    { apply set_eq. intros f. rewrite usable_elem, elem_of_difference, elem_of_singleton. split.
      - intros [H Hf]. split; [done|]. by intros ->.
      - intros [Hf Hne]. split; [|done]. rewrite <- El. intros E. apply Hne. by apply (share_addr_inj cpu st F). }
    destruct (next_index cpu me (with_trees t st) (F ∖ {[r]}) Hme S1) as (r2 & t2 & F2 & -> & S2 & Fr2 & H2).
    assert (Fr : pm_frame cpu st (with_trees t2 st)) by (by eapply pm_frame_trans). change (with_trees t2 (with_trees t st)) with (with_trees t2 st) in *.
    destruct H2 as [(Er2 & EF & ->)|(Er2 & Hin2 & ->)].
    + rewrite Er2. eexists _, _, ∅. split; [done|]. split; [done|]. split; [done|]. split; [done|]. split; [apply empty_subseteq|]. rewrite decide_True by (by rewrite EU). split; [done|]. apply usable_empty.
    + rewrite (proj2 (Z.eqb_neq _ _) Er2), (bind_ok get _ _ _ _ eq_refl). cbv zeta.
      change (num_free_frames_per_core (with_trees t2 st)) with (num_free_frames_per_core st). change (lapic_base (with_trees t2 st)) with (lapic_base st).
      assert (Hu2 : r2 ∈ usable st cpu F) by (by rewrite EU). pose proof Hu2 as [Hl2 _]%usable_elem. rewrite (proj2 (Z.eqb_neq _ _) Hl2).
      eexists _, _, (F ∖ {[r]} ∖ {[r2]}). split; [done|]. split; [done|]. split; [done|]. split; [done|]. split; [set_solver|].
      rewrite decide_False by (intros E; rewrite E in Hu2; by apply elem_of_empty in Hu2). exists r2. split; [done|]. split; [done|].
      rewrite EU. apply set_eq. intros f. rewrite usable_elem. simpl. split; [tauto|]. intros Hf. split; [|done].
      assert (f ∈ usable st cpu F) as Hfu by (rewrite EU; set_solver). by apply usable_elem in Hfu as [? _].
  - eexists _, _, (F ∖ {[r]}). split; [done|]. split; [done|]. split; [done|]. split; [done|]. split; [set_solver|].
    assert (Hu : r ∈ usable st cpu F) by (by apply usable_elem). rewrite decide_False by (intros E; rewrite E in Hu; by apply elem_of_empty in Hu).
    exists r. split; [done|]. split; [done|]. apply set_eq. intros f. rewrite elem_of_difference, !usable_elem, elem_of_difference. simpl. tauto.
Qed.

(** Taking frames until there is none, and the errors after that. *)
Lemma take_usable cpu me (n : nat) : forall st F, 0 <= me -> share_ok cpu st F ->
  exists ids st' F', take_frames n cpu me st =
      Ok ((frame_addr (num_free_frames_per_core st) cpu <$> ids) ++ replicate (n - length ids) (w32 ERROR_NOT_ENOUGH_MEM), st') /\
    length ids = Nat.min n (size (usable st cpu F)) /\ NoDup ids /\ (forall i, i ∈ ids -> i ∈ usable st cpu F) /\
    usable st' cpu F' = usable st cpu F ∖ list_to_set ids /\ F' ⊆ F /\ share_ok cpu st' F' /\ pm_frame cpu st st' /\
    num_free_frames_left st' = num_free_frames_left st.
Proof.
  induction n as [|n IH]; intros st F Hme Hs.
  { exists [], st, F. split; [done|]. split; [done|]. split; [apply NoDup_nil_2|]. split; [set_solver|]. split; [set_solver|]. split; [done|].
    split; [done|]. split; [|done]. split; [done|]. split; [done|]. split; [done|]. split; [done|]. done. }
  destruct (get_usable cpu me st F Hme Hs) as (r & st1 & F1 & R1 & S1 & Fr1 & L1 & Sub1 & Hr).
  destruct (IH st1 F1 Hme S1) as (ids & st2 & F2 & R2 & Hlen & Hnd & Hin & EU & Sub2 & S2 & Fr2 & L2).
  assert (En : num_free_frames_per_core st1 = num_free_frames_per_core st) by apply Fr1. pose proof (pm_frame_trans _ _ _ _ Fr1 Fr2) as Fr.
  cbn [take_frames]. rewrite (bind_ok _ _ _ _ _ R1), (bind_ok _ _ _ _ _ R2), En. case_decide as HU.
  - destruct Hr as [-> E1]. rewrite E1, size_empty in Hlen. assert (ids = []) as -> by (apply length_zero_iff_nil; lia).
    exists [], st2, F2. split; [cbn; by rewrite Nat.sub_0_r|]. rewrite HU, size_empty. split; [done|]. split; [done|]. split; [by intros ? ?%elem_of_nil|].
    split; [rewrite EU, E1; set_solver|]. split; [set_solver|]. split; [done|]. split; [done|congruence].
  - destruct Hr as (f & Hf & -> & E1). rewrite E1 in Hlen, Hin, EU.
    exists (f :: ids), st2, F2. split; [done|]. pose proof (size_remove _ _ Hf) as Hsz.
    split; [cbn [length]; lia|]. split; [apply NoDup_cons_2; [|done]; intros Hi%Hin; set_solver|].
    split; [intros i [->|Hi]%elem_of_cons; [done|apply Hin in Hi; set_solver]|].
    split; [rewrite EU; simpl; set_solver|]. split; [set_solver|]. split; [done|]. split; [done|congruence].
Qed.

Lemma reserve_run cpu (st : pm_state S) left count : num_free_frames_left st !! cpu = Some left -> 0 <= left < 2 ^ 31 -> 0 <= count < 2 ^ 31 ->
  reserve_frames cpu count st = if count <=? left then Ok (0, with_left st (<[cpu := left - count]> (num_free_frames_left st)))
    else Ok (-1, with_left st (<[cpu := left]> (num_free_frames_left st))).
Proof.
  intros Hl Hlf Hc. unfold reserve_frames. set (st1 := with_left st (<[cpu := left - count]> (num_free_frames_left st))).
  rewrite (bind_ok _ _ st (left - count) st1).
  2:{ unfold atomic_add_left. rewrite Hl, (s32_small (- count)), s32_small by lia. unfold st1. by replace (left + - count) with (left - count) by lia. }
  rewrite (bind_ok (modify _) _ st1 tt st1) by (unfold modify, st1, with_left; simpl; by rewrite insert_insert_eq).
  rewrite (bind_ok (read_left cpu) _ st1 (left - count) st1) by (unfold read_left, st1; simpl; by rewrite lookup_insert_eq).
  destruct (Z.ltb_spec (left - count) 0), (Z.leb_spec count left); try lia; [|done].
  erewrite bind_ok; [done|]. unfold atomic_add_left, st1. simpl. rewrite lookup_insert_eq, s32_small by lia.
  replace (left - count + count) with left by lia. unfold with_left. simpl. by rewrite insert_insert_eq.
Qed.

(** The counter does not matter to what is free. *)
Lemma share_left cpu st F l : share_ok cpu st F -> share_ok cpu (with_left st l) F.
Proof. by intros []. Qed.

(** ** Release *)

Lemma frame_index n cpu f : 0 <= cpu -> 0 < n -> 0 <= f < n ->
  USER_MEM_START + (cpu + 1) * n * PAGE_SIZE <= 2 ^ 32 ->
  w32 (frame_addr n cpu f - cpu * n * PAGE_SIZE - USER_MEM_START) / PAGE_SIZE = f.
Proof.
  intros Hc Hn Hf Hs. rewrite frame_addr_eq by done. unfold PAGE_SIZE, USER_MEM_START in *.
  replace (16777216 + (cpu * n + f) * 4096 - cpu * n * 4096 - 16777216) with (f * 4096) by lia.
  rewrite w32_small by nia. apply Z.div_mul. lia.
Qed.

Lemma free_frames_ok cpu me st F pending f :
  0 <= me -> pm_ok cpu st F pending -> 0 <= f < num_free_frames_per_core st -> f ∉ F ->
  exists st', free_frames_raw cpu me (frame_addr (num_free_frames_per_core st) cpu f) st = Ok (tt, st') /\
    pm_ok cpu st' ({[f]} ∪ F) (pending + 1) /\ pm_frame cpu st st'.
Proof.
  intros Hme Hok Hf Hnin. pose proof Hok as [Hcpu Hfr Hsp Hrep Hcap Hrg Hl Hp Hlk Hla].
  destruct (fa_put_spec cpu (trees st) F f Hrep ltac:(lia)) as (t' & Hrun & Hrep' & Hcap' & Hoth).
  exists (with_trees t' st). split; [|split].
  - unfold free_frames_raw. rewrite (bind_ok _ _ _ _ _ eq_refl). cbv zeta. rewrite frame_index by done.
    pose proof (locked_run cpu me st _ (fun x => mret x) _ _ Hme Hlk Hrun) as R.
    apply bind_inv in R as ([] & s1 & R1 & R). apply bind_inv in R as ([] & s2 & R2 & R).
    apply bind_inv in R as ([] & s3 & R3 & R). injection R as ->.
    by rewrite (bind_ok _ _ _ _ _ R1), (bind_ok _ _ _ _ _ R2).
  - split; simpl; try done.
    + by rewrite Hcap'.
    + intros g. rewrite elem_of_union, elem_of_singleton. intros [->|Hg]; [done|by apply Hrg].
    + rewrite Hl, size_add by done. f_equal. lia.
    + rewrite size_add by done. lia.
  - split; [done|]. split; [done|]. split; [done|]. split; [done|]. intros c Hc. split; [done|]. split; [done|].
    intros G HG. by apply Hoth.
Qed.

Lemma unreserve_ok cpu st F pending count :
  pm_ok cpu st F pending -> Z.of_nat (size F) < 2 ^ 31 -> 0 <= count <= pending ->
  exists st', unreserve_frames cpu count st = Ok (tt, st') /\ pm_ok cpu st' F (pending - count) /\
    pm_frame cpu st st'.
Proof.
  intros Hok Hsz Hc. pose proof Hok as [Hcpu Hfr Hsp Hrep Hcap Hrg Hl Hp Hlk Hla].
  unfold unreserve_frames, atomic_add_left. eexists. split; [|split].
  - unfold mbind, M_bind. rewrite Hl, s32_small by lia. done.
  - split; simpl; try done; [|lia]. rewrite lookup_insert_eq. f_equal. lia.
  - split; [done|]. split; [done|]. split; [done|]. split; [done|]. intros c Hne. simpl.
    rewrite !lookup_insert_ne by done. done.
Qed.

End pm.
(** ** Theorems, for the segment tree of SegTree.v *)

Abbreviation pm := (pm_state SegTree.seg_state).

(** The frames of different cores, and of different indices, are different. *)
Lemma frame_addr_inj n c1 c2 f1 f2 : 0 <= c1 -> 0 <= c2 -> 0 <= f1 < n -> 0 <= f2 < n ->
  USER_MEM_START + (c1 + 1) * n * PAGE_SIZE <= 2 ^ 32 -> USER_MEM_START + (c2 + 1) * n * PAGE_SIZE <= 2 ^ 32 ->
  frame_addr n c1 f1 = frame_addr n c2 f2 -> c1 = c2 /\ f1 = f2.
Proof.
  intros H1 H2 Hf1 Hf2 S1 S2. rewrite !frame_addr_eq by (done || lia). unfold PAGE_SIZE. intros E.
  assert (c1 * n + f1 = c2 * n + f2) by lia. assert (c1 = c2) by nia. subst. lia.
Qed.

(** Allocation: [get_frames_raw] on core [cpu] returns the address of the
    core's least free frame -- page aligned, inside the core's own share of
    physical memory, so never an address another core can hand out -- and takes
    it out of the free set; when no frame is free it returns
    [ERROR_NOT_ENOUGH_MEM]; the other cores' frames and counters are untouched. *)
Theorem get_frames_raw_correct calloc cpu me (st : pm) F pending :
  let _ := seg_alloc calloc in
  0 <= me -> pm_ok cpu st F pending -> num_free_frames_per_core st < 2 ^ 31 ->
  exists r st', get_frames_raw 1 cpu me st = Ok (r, st') /\ pm_frame cpu st st' /\
    if decide (F = ∅) then r = w32 ERROR_NOT_ENOUGH_MEM
    else exists f, f ∈ F /\ (forall g, g ∈ F -> f <= g) /\ fa_rep cpu (trees st') (F ∖ {[f]}) /\
      r = USER_MEM_START + (cpu * num_free_frames_per_core st + f) * PAGE_SIZE /\
      r mod PAGE_SIZE = 0 /\
      USER_MEM_START + cpu * num_free_frames_per_core st * PAGE_SIZE <= r <
        USER_MEM_START + (cpu + 1) * num_free_frames_per_core st * PAGE_SIZE.
Proof.
  intros FA Hme Hok Hn. destruct (get_frames_ok cpu me st F pending 1 Hme Hok Hn ltac:(lia)) as (st' & Hf & Hres).
  case_decide as HF; [destruct Hres as [R _]; eexists _, st'; by split|].
  destruct Hres as (f & Hin & Hmin & R & Hrep & _). eexists _, st'. split; [exact R|]. split; [done|].
  pose proof (pm_range _ _ _ _ Hok f Hin) as Hr. destruct Hok as [Hc Hfr Hsp _ _ _ _ _ _ _].
  exists f. rewrite frame_addr_eq by done. do 4 (split; [done|]). unfold PAGE_SIZE, USER_MEM_START in *. split; [|nia].
  replace (16777216 + (cpu * num_free_frames_per_core st + f) * 4096)
    with (0 + (4096 + (cpu * num_free_frames_per_core st + f)) * 4096) by lia.
  by rewrite Z.mod_add.
Qed.

(** (C17) A reservation is a promise, but for the page of the local APIC.  When
    [reserve_frames count] returns 0, the next [count] calls of [get_frames_raw]
    return [count] different free frames of the core, none of them the local APIC's
    page -- except that, when that page is in the core's share and all frames are
    promised to this one reservation, it has been counted as one of them and the
    last of the calls fails.  [reserve_frames] returns -1, with the counter as it
    was, exactly when fewer than [count] unpromised frames are counted. *)
Theorem reserve_frames_promise calloc cpu me (st : pm) F pending count :
  let _ := seg_alloc calloc in
  0 <= me -> pm_inv cpu st F pending -> Z.of_nat (size (usable st cpu F)) + 1 < 2 ^ 31 -> 0 <= count < 2 ^ 31 ->
  let U := usable st cpu F in
  if decide (count <= Z.of_nat (size U) + extra st cpu - pending) then
    exists st1 st2 frames, reserve_frames cpu count st = Ok (0, st1) /\ pm_inv cpu st1 F (pending + count) /\
      take_frames (Z.to_nat count) cpu me st1 = Ok (frames, st2) /\ length frames = Z.to_nat count /\
      if decide (count <= Z.of_nat (size U)) then
        NoDup frames /\ (forall x, x ∈ frames -> x <> lapic_base st /\ exists f, f ∈ F /\ x = frame_addr (num_free_frames_per_core st) cpu f) /\
        exists F', pm_inv cpu st2 F' pending /\ F' ⊆ F
      else lapic_in_share st cpu = true /\ pending = 0 /\ count = Z.of_nat (size U) + 1 /\ exists fs, frames = fs ++ [w32 ERROR_NOT_ENOUGH_MEM]
  else exists st1, reserve_frames cpu count st = Ok (-1, st1) /\ pm_inv cpu st1 F pending.
Proof.
  intros FA Hme [Hs Hl Hp] Hsz Hc U. assert (He : extra st cpu = 0 /\ lapic_in_share st cpu = false \/ extra st cpu = 1 /\ lapic_in_share st cpu = true).
  { unfold extra. destruct (lapic_in_share st cpu); auto. }
  pose proof (reserve_run cpu st _ count Hl ltac:(lia) Hc) as R1. fold U in R1, Hp, Hl.
  case_decide as Hd; [rewrite (proj2 (Z.leb_le _ _)) in R1 by lia|rewrite (proj2 (Z.leb_gt _ _)) in R1 by lia].
  2:{ eexists. split; [exact R1|]. split; [by apply share_left|simpl; by rewrite lookup_insert_eq|done]. }
  set (st1 := with_left st _) in R1. assert (S1 : share_ok cpu st1 F) by (by apply share_left).
  destruct (take_usable cpu me (Z.to_nat count) st1 F Hme S1) as (ids & st2 & F' & R2 & Hlen & Hnd & Hin & EU & Sub & S2 & Fr & L2).
  change (usable st1 cpu F) with U in *. change (num_free_frames_per_core st1) with (num_free_frames_per_core st) in R2.
  eexists st1, st2, _. split; [exact R1|]. split.
  { split; [done|..]; change (usable st1 cpu F) with U; change (extra st1 cpu) with (extra st cpu); [|lia].
    unfold st1, with_left. cbn [num_free_frames_left]. rewrite lookup_insert_eq. f_equal. lia. }
  split; [exact R2|]. split; [rewrite length_app, length_fmap, length_replicate; lia|]. case_decide as Hcu.
  - replace (Z.to_nat count - length ids)%nat with 0%nat by lia. rewrite app_nil_r. split; [|split].
    + apply NoDup_fmap_2_strong; [|done]. intros i j Hi%Hin Hj%Hin. apply (share_addr_inj cpu st F i j Hs); [by apply usable_elem in Hi as [_ ?]|by apply usable_elem in Hj as [_ ?]].
    + intros x (i & -> & Hi%Hin)%list_elem_of_fmap. apply usable_elem in Hi as [? ?]. eauto.
    + exists F'. split; [|done]. assert (Ex : extra st2 cpu = extra st cpu) by (unfold extra, lapic_in_share; destruct Fr as (-> & -> & _); done).
      assert (HU' : Z.of_nat (size (usable st2 cpu F')) = Z.of_nat (size U) - count).
      { rewrite EU, size_difference by (intros i; rewrite elem_of_list_to_set; apply Hin). rewrite size_list_to_set by done. lia. }
      split; [done| |rewrite Ex, HU'; lia]. rewrite L2. simpl. rewrite lookup_insert_eq, Ex, HU'. f_equal. lia.
  - assert (Hx : extra st cpu = 1 /\ lapic_in_share st cpu = true) by (destruct He; [lia|done]). split; [apply Hx|]. split; [lia|]. split; [lia|].
    replace (Z.to_nat count - length ids)%nat with 1%nat by lia. by eexists.
Qed.

(** Release: [free_frames_raw] of a frame this core handed out, followed by
    [unreserve_frames(1)], makes the frame free and reservable again. *)
Theorem free_frames_raw_correct calloc cpu me (st : pm) F pending f :
  let _ := seg_alloc calloc in
  0 <= me -> pm_ok cpu st F pending -> 0 <= f < num_free_frames_per_core st -> f ∉ F ->
  Z.of_nat (size F) + 1 < 2 ^ 31 ->
  exists st', (free_frames_raw cpu me (frame_addr (num_free_frames_per_core st) cpu f);;
               unreserve_frames cpu 1) st = Ok (tt, st') /\
    pm_ok cpu st' ({[f]} ∪ F) pending /\ pm_frame cpu st st'.
Proof.
  intros FA Hme Hok Hf Hnin Hsz. destruct (free_frames_ok cpu me st F pending f Hme Hok Hf Hnin) as (st1 & R1 & Hok1 & Hf1).
  pose proof (pm_pending _ _ _ _ Hok).
  destruct (unreserve_ok cpu st1 _ _ 1 Hok1 ltac:(rewrite size_add; done || lia) ltac:(lia)) as (st2 & R2 & Hok2 & Hf2).
  exists st2. rewrite (bind_ok _ _ _ _ _ R1). split; [done|].
  replace (pending + 1 - 1) with pending in Hok2 by lia. split; [done|]. by eapply pm_frame_trans.
Qed.

(** Initialisation: on an idle machine [init_pm] gives every core, called in
    order from core 0, all of its [n] frames free and none promised. *)
Theorem init_pm_correct cpu (st : pm) frames cpus lapic (calloc := fun n => Some (zeros n)) :
  let _ := seg_alloc calloc in
  let n := Z.quot (frames - USER_MEM_START / PAGE_SIZE) cpus in
  0 <= cpu -> 0 < cpus -> 32 < n < 2 ^ 31 ->
  USER_MEM_START + (cpu + 1) * n * PAGE_SIZE <= 2 ^ 32 ->
  (forall f, 0 <= f < n -> frame_addr n cpu f <> lapic) ->
  (cpu <> 0 -> num_free_frames_per_core st = n /\ lapic_base st = lapic /\
     SegTree.max_num (trees st) = n /\ SegTree.size (trees st) = Z.shiftr (SegTree.get_next_pow2 (w32 n)) 5) ->
  exists st', init_pm frames cpus lapic true true cpu st = Ok (0, st') /\
    pm_ok cpu st' (list_to_set (seqZ 0 n)) 0.
Proof.
  intros FA n Hcpu Hcpus Hn Hsp Hla Hst.
  set (st1 := if cpu =? 0 then mk_pm cpus n (num_free_frames_left st) lapic (lock st) (trees st) (tstates st) else st).
  assert (Hst1 : num_free_frames_per_core st1 = n /\ lapic_base st1 = lapic /\ trees st1 = trees st).
  { unfold st1. destruct (Z.eqb_spec cpu 0); [done|]. destruct (Hst ltac:(done)) as (? & ? & _). done. }
  destruct Hst1 as (Epc & Ela & Etr).
  destruct (SegTree.init_seg_tree_ok calloc cpu n (trees st) Hn ltac:(done)) as (D & t' & t & Hrun & Ht & Hm & Hs & Hr).
  { destruct (Z.eq_dec cpu 0); [by left|]. right. destruct (Hst ltac:(done)) as (_ & _ & ? & ?). done. }
  unfold init_pm. fold n st1. cbv zeta. simpl negb. cbv iota. rewrite Epc.
  eexists. split.
  - erewrite bind_ok by (eapply zoom_ok; simpl; rewrite Etr, ?Epc; exact Hrun). done.
  - split; simpl; rewrite ?Epc, ?Ela; try done; try lia.
    + by exists D, t.
    + intros f. rewrite elem_of_list_to_set, elem_of_seqZ. lia.
    + rewrite lookup_insert_eq, size_list_to_set, length_seqZ by apply NoDup_seqZ. f_equal. lia.
    + by rewrite lookup_insert_eq.
Qed.

(** ** A concrete machine with 64 frames per core, all free on core 0 *)
Definition demo_calloc (n : Z) : option array := Some (zeros n).
Definition demo_pm : pm :=
  mk_pm 1 64 {[0 := 64]} 0 {[0 := Mutex.mk_mutex (-1) []]}
    {| SegTree.max_num := 64; SegTree.seg_tree := {[0 := SegTree.demo_tree]}; SegTree.size := 2 |} (fun _ => NORMAL).
Definition demo_pm0 : pm :=
  mk_pm 0 0 ∅ 0 ∅ {| SegTree.max_num := 0; SegTree.seg_tree := ∅; SegTree.size := 0 |} (fun _ => NORMAL).
Definition demo_frames : Z := 4096 + 128.

Lemma init_pm_witness :
  exists st', init_pm (FA := seg_alloc demo_calloc) demo_frames 2 0 true true 0 demo_pm0 = Ok (0, st') /\
    pm_ok (FA := seg_alloc demo_calloc) 0 st' (list_to_set (seqZ 0 64)) 0.
Proof.
  apply (init_pm_correct 0 demo_pm0 demo_frames 2 0); try done.
  change (forall f, 0 <= f < 64 -> frame_addr 64 0 f <> 0).
  intros f Hf. unfold frame_addr. rewrite w32_small; unfold USER_MEM_START, PAGE_SIZE; lia.
Defined.

Lemma demo_pm_ok : pm_ok (FA := seg_alloc demo_calloc) 0 demo_pm (list_to_set (seqZ 0 64)) 0.
Proof.
  assert (Hin : forall f, f ∈ (list_to_set (seqZ 0 64) : gset Z) <-> 0 <= f < 64).
  { intros f. rewrite elem_of_list_to_set, elem_of_seqZ. lia. }
  assert (Hsz : size (list_to_set (seqZ 0 64) : gset Z) = 64%nat).
  { by rewrite size_list_to_set, length_seqZ by apply NoDup_seqZ. }
  split.
  - done.
  - done.
  - done.
  - exists 1, SegTree.demo_tree. split; [done|]. apply SegTree.demo_repr.
  - done.
  - intros f. rewrite Hin. simpl. lia.
  - by rewrite Hsz.
  - rewrite Hsz. lia.
  - done.
  - intros f Hf. simpl in Hf. unfold frame_addr. rewrite w32_small; unfold USER_MEM_START, PAGE_SIZE; simpl; lia.
Qed.

Lemma get_frames_raw_witness :
  exists r st', get_frames_raw (FA := seg_alloc demo_calloc) 1 0 7 demo_pm = Ok (r, st') /\ r = 16777216.
Proof.
  destruct (get_frames_raw_correct demo_calloc 0 7 demo_pm _ 0 ltac:(lia) demo_pm_ok ltac:(simpl; lia))
    as (r & st' & R & _). exists r, st'. split; [exact R|]. vm_compute in R. injection R as <- _. reflexivity.
Defined.

(** The same core, with the local APIC's page as its frame number 5. *)
Definition demo_pm_apic : pm :=
  mk_pm 1 64 {[0 := 64]} (frame_addr 64 0 5) {[0 := Mutex.mk_mutex (-1) []]}
    {| SegTree.max_num := 64; SegTree.seg_tree := {[0 := SegTree.demo_tree]}; SegTree.size := 2 |} (fun _ => NORMAL).

Lemma demo_apic_size : size (usable demo_pm_apic 0 (list_to_set (seqZ 0 64))) = 63%nat.
Proof. vm_compute. reflexivity. Qed.

Lemma demo_apic_inv : pm_inv (FA := seg_alloc demo_calloc) 0 demo_pm_apic (list_to_set (seqZ 0 64)) 0.
Proof.
  destruct demo_pm_ok as [H1 H2 H3 H4 H5 H6 H7 H8 H9 _]. split; [split; try done| |rewrite demo_apic_size; by vm_compute].
  rewrite demo_apic_size. vm_compute. reflexivity.
Qed.

Lemma reserve_frames_witness :
  exists st1 st2 frames, reserve_frames 0 7 demo_pm_apic = Ok (0, st1) /\
    take_frames (FA := seg_alloc demo_calloc) 7 0 7 st1 = Ok (frames, st2) /\ length frames = 7%nat /\ NoDup frames.
Proof.
  pose proof (reserve_frames_promise demo_calloc 0 7 demo_pm_apic _ 0 7 ltac:(lia) demo_apic_inv ltac:(rewrite demo_apic_size; lia) ltac:(lia)) as Hres.
  cbv zeta in Hres. rewrite demo_apic_size in Hres. rewrite decide_True in Hres by (vm_compute; congruence).
  destruct Hres as (st1 & st2 & frames & R1 & _ & R2 & Hl & Hres). rewrite decide_True in Hres by lia. destruct Hres as [Hn _].
  exists st1, st2, frames. exact (conj R1 (conj R2 (conj Hl Hn))).
Defined.

(** The page of the local APIC is counted as free: on a core of 64 frames that
    holds it, 64 frames can be reserved although only 63 can be had. *)
Theorem apic_page_promised :
  exists st1 st2 frames, reserve_frames 0 64 demo_pm_apic = Ok (0, st1) /\
    take_frames (FA := seg_alloc demo_calloc) 64 0 7 st1 = Ok (frames, st2) /\ exists fs, frames = fs ++ [w32 ERROR_NOT_ENOUGH_MEM].
Proof.
  pose proof (reserve_run 0 demo_pm_apic 64 64 eq_refl ltac:(lia) ltac:(lia)) as R1. cbn [Z.leb Z.compare Pos.compare Pos.compare_cont] in R1.
  set (st1 := with_left demo_pm_apic _) in R1. pose proof demo_apic_inv as [Hs _ _].
  destruct (take_usable (FA := seg_alloc demo_calloc) 0 7 64 st1 _ ltac:(lia) (share_left _ _ _ _ Hs)) as (ids & st2 & F' & R2 & Hlen & _).
  change (usable st1 0 (list_to_set (seqZ 0 64))) with (usable demo_pm_apic 0 (list_to_set (seqZ 0 64))) in Hlen. rewrite demo_apic_size in Hlen.
  eexists st1, st2, _. split; [exact R1|]. split; [exact R2|]. rewrite Hlen. by eexists.
Qed.

(** The same core with every frame taken. *)
Definition demo_pm_full : pm :=
  mk_pm 1 64 {[0 := 0]} 0 {[0 := Mutex.mk_mutex (-1) []]}
    {| SegTree.max_num := 64; SegTree.seg_tree := {[0 := SegTree.demo_full]}; SegTree.size := 2 |} (fun _ => NORMAL).

Lemma demo_pm_full_ok : pm_ok (FA := seg_alloc demo_calloc) 0 demo_pm_full ∅ 0.
Proof.
  split; try done.
  - exists 1, SegTree.demo_full. split; [done|]. apply SegTree.demo_full_repr.
  - intros f Hf. simpl in Hf. unfold frame_addr. rewrite w32_small; unfold USER_MEM_START, PAGE_SIZE; simpl; lia.
Qed.

Lemma free_frames_raw_witness :
  exists st', (free_frames_raw (FA := seg_alloc demo_calloc) 0 7 (frame_addr 64 0 5);;
               unreserve_frames 0 1) demo_pm_full = Ok (tt, st') /\
    pm_ok (FA := seg_alloc demo_calloc) 0 st' ({[5]} ∪ ∅) 0.
Proof.
  destruct (free_frames_raw_correct demo_calloc 0 7 demo_pm_full ∅ 0 5 ltac:(lia) demo_pm_full_ok ltac:(simpl; lia)
    ltac:(apply not_elem_of_empty) ltac:(by rewrite size_empty)) as (st' & R & Hok & _).
  exists st'. exact (conj R Hok).
Defined.

End Pm.
