(* ===== verification/Vm.v ===== *)
(** * Virtual memory (src/kern/vm.c, src/kern/inc/vm.h)

    Two-level paging: a page directory of 1024 entries, each naming a page
    table of 1024 entries.  Physical memory is a total map from page base and
    word index to 32-bit words; kernel addresses are direct-mapped, so page
    directories and tables are read and written there, while an access to a
    user address goes through the current page directory ([walk]).  Frames come
    from the physical memory manager through [FramePool], kernel pages from the
    heap through [KernelHeap]. *)

From S2P Require Import Prelude SegTree SimpleQueue ThreadState Mutex Pm.
From Stdlib Require Import ZArith Lia.
From stdpp Require Import base gmap list tactics numbers.

#[local] Open Scope Z_scope.

(** ** What vm.c needs of pm.c: [fp_rep s F n] -- the frames at the addresses
    [F] are free and [n] more than the promised ones can be reserved. *)
Class FramePool (P : Type) := {
  fp_get : M P Z;
  fp_free : Z -> M P unit;
  fp_reserve : Z -> M P Z;
  fp_unreserve : Z -> M P unit;
  fp_frame : Z -> Prop;
  fp_rep : P -> gset Z -> Z -> Prop;
  fp_frame_ok : forall f, fp_frame f -> 16777216 <= f < 2 ^ 32 /\ f mod 4096 = 0;
  fp_left : forall s F left, fp_rep s F left -> 0 <= left <= Z.of_nat (size F);
  fp_get_spec : forall s F left, fp_rep s F left -> left < Z.of_nat (size F) ->
    exists f s', fp_get s = Ok (f, s') /\ fp_frame f /\ f ∈ F /\ fp_rep s' (F ∖ {[f]}) left;
  fp_free_spec : forall s F left f, fp_rep s F left -> fp_frame f -> f ∉ F ->
    exists s', fp_free f s = Ok (tt, s') /\ fp_rep s' ({[f]} ∪ F) left;
  fp_reserve_spec : forall s F left n, fp_rep s F left -> 0 <= n < 2 ^ 31 ->
    exists s', if decide (n <= left)
      then fp_reserve n s = Ok (0, s') /\ fp_rep s' F (left - n)
      else fp_reserve n s = Ok (-1, s') /\ fp_rep s' F left;
  fp_unreserve_spec : forall s F left n, fp_rep s F left -> 0 <= n -> left + n <= Z.of_nat (size F) ->
    exists s', fp_unreserve n s = Ok (tt, s') /\ fp_rep s' F (left + n)
}.

(** ** What vm.c needs of the kernel heap: page-aligned kernel pages. *)
Class KernelHeap (K : Type) := {
  smemalign : M K Z;
  sfree : Z -> M K unit;
  (** [malloc(PAGE_SIZE)] and [free] of a scratch buffer. *)
  kh_malloc : M K Z;
  kh_mfree : Z -> M K unit;
  (** The pages currently allocated. *)
  kh_rep : K -> gset Z -> Prop;
  kh_alloc_spec : forall k A, kh_rep k A -> exists a k', smemalign k = Ok (a, k') /\
    ((a = 0 /\ kh_rep k' A) \/
     (0 < a < 16777216 /\ a mod 4096 = 0 /\ (a ∉ A) /\ kh_rep k' ({[a]} ∪ A)));
  kh_free_spec : forall k A a, kh_rep k A -> a ∈ A -> exists k', sfree a k = Ok (tt, k') /\ kh_rep k' (A ∖ {[a]});
  kh_malloc_spec : forall k A, kh_rep k A -> exists a k', kh_malloc k = Ok (a, k') /\ kh_rep k' A;
  kh_mfree_spec : forall k A a, kh_rep k A -> exists k', kh_mfree a k = Ok (tt, k') /\ kh_rep k' A
}.

Module Vm.

Definition PAGE_SIZE : Z := 4096.
Definition USER_MEM_START : Z := 16777216.
Definition NUM_PT_KERNEL : Z := 4.
Definition NUM_ENTRIES : Z := 1024. (* PAGE_SIZE/ENTRY_SIZE *)
Definition NUM_PT_PER_LOCK : Z := 16.
Definition UINT32_MAX : Z := 2 ^ 32 - 1.

Definition PG_P : Z := 0.
Definition PG_RW : Z := 1.
Definition PG_US : Z := 2.
Definition PG_PWT : Z := 3.
Definition PG_PCD : Z := 4.
Definition PG_A : Z := 5.
Definition PG_D : Z := 6.
Definition PG_PS : Z := 7.
Definition PG_PAT : Z := 7.
Definition PG_G : Z := 8.
Definition PG_NEW_PAGES_START : Z := 9.
Definition PG_NEW_PAGES_END : Z := 10.
Definition PG_ZFOD : Z := 11.

Definition ERROR_MALLOC_LIB : Z := -1.
Definition ERROR_NOT_ENOUGH_MEM : Z := -3.
Definition ERROR_BASE_NOT_ALIGNED : Z := -7.
Definition ERROR_LEN : Z := -15.
Definition ERROR_OVERLAP : Z := -31.
Definition ERROR_KERNEL_SPACE : Z := -63.
Definition ERROR_READ_ONLY : Z := -127.
Definition ERROR_NOT_NULL_TERM : Z := -255.
Definition ERROR_PAGE_NOT_ALLOC : Z := -511.
Definition ERROR_BASE_NOT_PREV : Z := -1023.

Definition PAGE_ALIGN_MASK : Z := 4294963200.
Definition IS_SET (a n : Z) : bool := Z.testbit a n.
Definition align (va : Z) : Z := Z.land va PAGE_ALIGN_MASK.
Definition GET_PD_INDEX (va : Z) : Z := Z.shiftr va 22.
Definition GET_PT_INDEX (va : Z) : Z := Z.shiftr (w32 (Z.shiftl va 10)) 22.
Definition GET_CTRL_BITS (e : Z) : Z := Z.shiftr (w32 (Z.shiftl e 20)) 20.
Definition GET_VA_BASE (i j : Z) : Z := w32 (Z.lor (Z.shiftl i 22) (Z.shiftl j 12)).

(** Contents of physical memory: page base, then word index. *)
Definition memory : Type := Z -> Z -> Z.
Definition mset (m : memory) (base idx v : Z) : memory := fupd m base (fupd (m base) idx v).
Definition mpage (m : memory) (base : Z) (c : Z -> Z) : memory := fupd m base c.

(** The static variables of vm.c, the control registers it uses, the locks of
    the running task's pcb ([None]: no task), and the components it calls. *)
Record vm_state (P K : Type) := mk_vm {
  mem : memory;
  cr3 : Z;
  paging : bool;
  init_page_dir : gmap Z Z;
  all_zero_frame : Z;
  ctrl_bits_pde : Z;
  ctrl_bits_pte : Z;
  pool : P;
  kheap : K;
  task : option (gmap Z Mutex.mutex_t);
  vtst : Z -> thread_state_t
}.
Arguments mk_vm {P K}.
Arguments mem {P K}.
Arguments cr3 {P K}.
Arguments paging {P K}.
Arguments init_page_dir {P K}.
Arguments all_zero_frame {P K}.
Arguments ctrl_bits_pde {P K}.
Arguments ctrl_bits_pte {P K}.
Arguments pool {P K}.
Arguments kheap {P K}.
Arguments task {P K}.
Arguments vtst {P K}.

Section vm.
Context {P K : Type} {FP : FramePool P} {KH : KernelHeap K}.
(** [me]: tid of the calling thread. *)
Context (me : Z).
Abbreviation state := (vm_state P K).

Definition with_mem (m : memory) (s : state) : state :=
  mk_vm m (cr3 s) (paging s) (init_page_dir s) (all_zero_frame s) (ctrl_bits_pde s) (ctrl_bits_pte s)
    (pool s) (kheap s) (task s) (vtst s).
Definition with_pool (p : P) (s : state) : state :=
  mk_vm (mem s) (cr3 s) (paging s) (init_page_dir s) (all_zero_frame s) (ctrl_bits_pde s) (ctrl_bits_pte s)
    p (kheap s) (task s) (vtst s).
Definition with_kheap (k : K) (s : state) : state :=
  mk_vm (mem s) (cr3 s) (paging s) (init_page_dir s) (all_zero_frame s) (ctrl_bits_pde s) (ctrl_bits_pte s)
    (pool s) k (task s) (vtst s).
Definition with_task t ts (s : state) : state :=
  mk_vm (mem s) (cr3 s) (paging s) (init_page_dir s) (all_zero_frame s) (ctrl_bits_pde s) (ctrl_bits_pte s)
    (pool s) (kheap s) t ts.
Definition with_bits pde pte (s : state) : state :=
  mk_vm (mem s) (cr3 s) (paging s) (init_page_dir s) (all_zero_frame s) pde pte
    (pool s) (kheap s) (task s) (vtst s).
Definition with_regs c pg ipd z (s : state) : state :=
  mk_vm (mem s) c pg ipd z (ctrl_bits_pde s) (ctrl_bits_pte s) (pool s) (kheap s) (task s) (vtst s).

(** Memory accesses at kernel (direct-mapped) addresses. *)
Definition rd (base idx : Z) : M state Z := gets (fun s => mem s base idx).
Definition wr (base idx v : Z) : M state unit := modify (fun s => with_mem (mset (mem s) base idx v) s).
Definition memset0 (base : Z) : M state unit := modify (fun s => with_mem (mpage (mem s) base (fun _ => 0)) s).

Definition get_frame : M state Z := zoom pool with_pool fp_get.
Definition free_frame (f : Z) : M state unit := zoom pool with_pool (fp_free f).
Definition reserve (n : Z) : M state Z := zoom pool with_pool (fp_reserve n).
Definition unreserve (n : Z) : M state unit := zoom pool with_pool (fp_unreserve n).
Definition kalloc : M state Z := zoom kheap with_kheap smemalign.
Definition kfree (a : Z) : M state unit := zoom kheap with_kheap (sfree a).

(** Address translation by the MMU: the frame a user page is mapped to. *)
Definition walk (s : state) (page : Z) : option Z :=
  let pde := mem s (cr3 s) (GET_PD_INDEX page) in
  if IS_SET pde PG_P then
    let pte := mem s (align pde) (GET_PT_INDEX page) in
    if IS_SET pte PG_P then Some (align pte) else None
  else None.

(** [memset((void * )page, 0, PAGE_SIZE)] and page copies at user addresses. *)
Definition memset0_va (page : Z) : M state unit :=
  s ← get; f ← deref (walk s page); memset0 f.
Definition load_page (page : Z) : M state (Z -> Z) :=
  s ← get; f ← deref (walk s page); mret (mem s f).
Definition store_page (page : Z) (c : Z -> Z) : M state unit :=
  s ← get; f ← deref (walk s page); modify (fun s => with_mem (mpage (mem s) f c) s).

(** A byte at a user address. *)
Definition load_byte (va : Z) : M state Z :=
  s ← get; f ← deref (walk s (align va));
  mret (Z.land (Z.shiftr (mem s f (va mod 4096 / 4)) (8 * (va mod 4))) 255).

(** The page table locks of the running task. *)
Definition on_lock (i : Z) (f : M Mutex.mstate unit) : M state unit := fun s =>
  match task s with
  | None => Panic
  | Some locks =>
      match locks !! i with
      | None => Fault
      | Some m =>
          zoom (fun s => Mutex.mk_mstate m (vtst s))
               (fun ms s => with_task (Some (<[i := Mutex.mx ms]> locks)) (Mutex.tst ms) s) f s
      end
  end.
Definition pt_lock (i : Z) : M state unit := on_lock i (Mutex.mutex_lock me).
Definition pt_unlock (i : Z) : M state unit := on_lock i Mutex.mutex_unlock.
(** [if (this_thr->pcb == NULL) panic(...)]. *)
Definition need_task : M state unit := fun s => match task s with None => Panic | Some _ => Ok (tt, s) end.

Fixpoint lock_range (n : nat) (i : Z) : M state unit :=
  match n with O => mret tt | S n => pt_lock i;; lock_range n (i + 1) end.
Fixpoint unlock_range (n : nat) (i : Z) : M state unit :=
  match n with O => mret tt | S n => pt_unlock i;; unlock_range n (i - 1) end.

(** ** Control bits *)

Definition init_pg_ctrl_bits : M state unit :=
  let ctrl_bits := 0 in
  let ctrl_bits := set_bit ctrl_bits PG_P in
  let ctrl_bits := set_bit ctrl_bits PG_RW in
  let ctrl_bits := clr_bit ctrl_bits PG_US in
  let ctrl_bits := clr_bit ctrl_bits PG_PWT in
  let ctrl_bits := clr_bit ctrl_bits PG_PCD in
  let ctrl_bits := clr_bit ctrl_bits PG_A in
  let pde := ctrl_bits in
  let pte := ctrl_bits in
  let pde := clr_bit pde PG_PS in
  let pte := set_bit pte PG_D in
  let pte := clr_bit pte PG_PAT in
  let pte := clr_bit pte PG_G in
  modify (with_bits pde pte).

Definition enable_paging : M state unit :=
  modify (fun s => with_regs (cr3 s) true (init_page_dir s) (all_zero_frame s) s).

(** ** Counting pages *)

Fixpoint count_ptes (n : nat) (pt j num : Z) : M state Z :=
  match n with
  | O => mret num
  | S n => pte ← rd pt j; count_ptes n pt (j + 1) (if IS_SET pte PG_P then num + 1 else num)
  end.

Fixpoint count_pdes (n : nat) (pd i num : Z) : M state Z :=
  match n with
  | O => mret num
  | S n =>
      pde ← rd pd i;
      if IS_SET pde PG_P then
        num ← count_ptes 1024 (align pde) 0 num;
        count_pdes n pd (i + 1) num
      else count_pdes n pd (i + 1) num
  end.

Definition count_pages_user_space : M state Z :=
  pd ← gets cr3; count_pdes (Z.to_nat (NUM_ENTRIES - NUM_PT_KERNEL)) pd NUM_PT_KERNEL 0.

(** The bitmap is a local array of [bitmap_size] bytes; [sizeof(char)] is 1, so
    the inner loop of the C code runs for [j = 0] only. *)
Fixpoint clear_pd_entry (n : nat) (bitmap : array) (i pd_index_start : Z) : M state unit :=
  match n with
  | O => mret tt
  | S n =>
      byte ← deref (bitmap !! i);
      (if IS_SET byte 0 then
         pd ← gets cr3;
         let pd_index := i * 1 + 0 + pd_index_start in
         pde ← rd pd pd_index;
         kfree (align pde);;
         wr pd pd_index 0
       else mret tt);;
      clear_pd_entry n bitmap (i + 1) pd_index_start
  end.

Section cpa.
Context (bitmap_size lowest_pd_index : Z) (is_new_pages_syscall : bool).

Fixpoint cpa_loop (n : nat) (page num : Z) (bitmap : array) : M state Z :=
  match n with
  | O => mret num
  | S n =>
      pd ← gets cr3;
      let pd_index := GET_PD_INDEX page in
      pde ← rd pd pd_index;
      if IS_SET pde PG_P then
        pte ← rd (align pde) (GET_PT_INDEX page);
        if IS_SET pte PG_P then
          let num := num + 1 in
          if is_new_pages_syscall then
            clear_pd_entry (Z.to_nat bitmap_size) bitmap 0 lowest_pd_index;;
            mret num
          else cpa_loop n (w32 (page + PAGE_SIZE)) num bitmap
        else cpa_loop n (w32 (page + PAGE_SIZE)) num bitmap
      else
        new_pt ← kalloc;
        if new_pt =? 0 then
          clear_pd_entry (Z.to_nat bitmap_size) bitmap 0 lowest_pd_index;;
          mret ERROR_MALLOC_LIB
        else
          memset0 new_pt;;
          bits ← gets ctrl_bits_pde;
          wr pd pd_index (Z.lor new_pt (set_bit bits PG_US));;
          let byte_index := (pd_index - lowest_pd_index) / 8 in
          let bit_index := (pd_index - lowest_pd_index) mod 8 in
          b ← deref (bitmap !! byte_index);
          cpa_loop n (w32 (page + PAGE_SIZE)) num (<[byte_index := Z.lor b (Z.shiftl 1 bit_index)]> bitmap)
  end.
End cpa.

(** Number of pages a region touches. *)
Definition page_highest (va size_bytes : Z) : Z := align (w32 (va + w32 size_bytes - 1)).
Definition page_count (va size_bytes : Z) : Z := 1 + w32 (page_highest va size_bytes - align va) / PAGE_SIZE.

Definition count_pages_allocated (va size_bytes : Z) (is_new_pages_syscall : bool) : M state Z :=
  let page_lowest := align va in
  let count := page_count va size_bytes in
  let page_highest_pd_index := GET_PD_INDEX (page_highest va size_bytes) in
  let page_lowest_pd_index := GET_PD_INDEX page_lowest in
  let num_page_tables := page_highest_pd_index - page_lowest_pd_index + 1 in
  let bitmap_size := (num_page_tables - 1) / 1 + 1 in
  cpa_loop bitmap_size page_lowest_pd_index is_new_pages_syscall (Z.to_nat count) page_lowest 0 (zeros bitmap_size).

(** ** Removing a region *)

Fixpoint remove_loop (fuel : nat) (page pt_lock_index : Z) (is_first_page : bool) : M state Z :=
  match fuel with
  | O => nofuel
  | S fuel =>
      pd ← gets cr3;
      let pd_index := GET_PD_INDEX page in
      let cur_pt_lock_index := pd_index / NUM_PT_PER_LOCK in
      (if negb (cur_pt_lock_index =? pt_lock_index) then
         (if negb (pt_lock_index =? -1) then pt_unlock pt_lock_index else mret tt);;
         pt_lock cur_pt_lock_index
       else mret tt);;
      let pt_lock_index := cur_pt_lock_index in
      pde ← rd pd pd_index;
      if negb (IS_SET pde PG_P) then pt_unlock pt_lock_index;; mret ERROR_BASE_NOT_PREV
      else
        let pt := align pde in
        let pt_index := GET_PT_INDEX page in
        pte ← rd pt pt_index;
        if negb (IS_SET pte PG_P) then pt_unlock pt_lock_index;; mret ERROR_BASE_NOT_PREV
        else if is_first_page && negb (IS_SET pte PG_NEW_PAGES_START) then
          pt_unlock pt_lock_index;; mret ERROR_BASE_NOT_PREV
        else
          (if negb (IS_SET pte PG_ZFOD) then free_frame (align pte) else mret tt);;
          unreserve 1;;
          pte ← rd pt pt_index;
          let is_finished := IS_SET pte PG_NEW_PAGES_END in
          wr pt pt_index 0;;
          if is_finished then pt_unlock pt_lock_index;; mret 0
          else remove_loop fuel (w32 (page + PAGE_SIZE)) pt_lock_index false
  end.

Definition remove_region (fuel : nat) (va : Z) : M state Z :=
  need_task;; remove_loop fuel (align va) (-1) true.

(** ** Zero-fill on demand *)

Definition is_page_ZFOD (va error_code : Z) (need_check_error_code : bool) : M state Z :=
  if need_check_error_code &&
     negb (IS_SET error_code PG_P && IS_SET error_code PG_US && IS_SET error_code PG_RW)
  then mret 0
  else
    let page := align va in
    pd ← gets cr3;
    let pd_index := GET_PD_INDEX page in
    need_task;;
    let pt_lock_index := pd_index / NUM_PT_PER_LOCK in
    pt_lock pt_lock_index;;
    pde ← rd pd pd_index;
    if IS_SET pde PG_P then
      let pt_index := GET_PT_INDEX page in
      let pt := align pde in
      pte ← rd pt pt_index;
      if IS_SET pte PG_P then
        if negb (IS_SET pte PG_ZFOD) then pt_unlock pt_lock_index;; mret 0
        else
          wr pt pt_index (set_bit (clr_bit pte PG_ZFOD) PG_RW);;
          new_f ← get_frame;
          if new_f =? w32 ERROR_NOT_ENOUGH_MEM then panic
          else
            pte ← rd pt pt_index;
            wr pt pt_index (Z.lor new_f (Z.land pte 4095));;
            memset0_va page;;
            pt_unlock pt_lock_index;;
            mret 1
      else pt_unlock pt_lock_index;; mret 0
    else pt_unlock pt_lock_index;; mret 0.

(** ** Kernel page tables *)

Fixpoint init_pd_tables (n : nat) (pd i : Z) : M state bool :=
  match n with
  | O => mret true
  | S n =>
      new_pt ← kalloc;
      if new_pt =? 0 then mret false
      else
        memset0 new_pt;;
        bits ← gets ctrl_bits_pde;
        wr pd i (Z.lor new_pt bits);;
        init_pd_tables n pd (i + 1)
  end.

Fixpoint init_pd_ptes (n : nat) (pt i j pte_ctrl_bits : Z) : M state unit :=
  match n with
  | O => mret tt
  | S n => wr pt j (Z.lor (GET_VA_BASE i j) pte_ctrl_bits);; init_pd_ptes n pt i (j + 1) pte_ctrl_bits
  end.

Fixpoint init_pd_fill (n : nat) (pd i pte_ctrl_bits : Z) : M state unit :=
  match n with
  | O => mret tt
  | S n =>
      pde ← rd pd i;
      init_pd_ptes 1024 (align pde) i 0 pte_ctrl_bits;;
      init_pd_fill n pd (i + 1) pte_ctrl_bits
  end.

Definition init_pd : M state Z :=
  pd ← kalloc;
  if pd =? 0 then mret (w32 ERROR_MALLOC_LIB)
  else
    memset0 pd;;
    ok ← init_pd_tables (Z.to_nat NUM_PT_KERNEL) pd 0;
    if negb ok then mret (w32 ERROR_MALLOC_LIB)
    else
      bits ← gets ctrl_bits_pte;
      init_pd_fill (Z.to_nat NUM_PT_KERNEL) pd 0 (set_bit bits PG_G);;
      mret pd.

(** [LAPIC_VIRT_BASE] (apic.h) and the physical address of the local APIC. *)
Definition set_local_apic_translation (lapic_virt_base smp_lapic_base pd_base : Z) : M state unit :=
  let page := lapic_virt_base in
  let pd_index := GET_PD_INDEX page in
  pde ← rd pd_base pd_index;
  if negb (IS_SET pde PG_P) then panic
  else
    bits ← gets ctrl_bits_pte;
    wr (align pde) (GET_PT_INDEX page) (Z.lor smp_lapic_base (set_bit (set_bit bits PG_US) PG_PCD)).

Fixpoint init_vm_raw (num_cpus : nat) (lapic_virt_base smp_lapic_base i : Z) : M state Z :=
  match num_cpus with
  | O => mret 0
  | S n =>
      pd ← init_pd;
      if pd =? w32 ERROR_MALLOC_LIB then mret (-1)
      else
        set_local_apic_translation lapic_virt_base smp_lapic_base pd;;
        modify (fun s => with_regs (cr3 s) (paging s) (<[i := pd]> (init_page_dir s)) (all_zero_frame s) s);;
        init_vm_raw n lapic_virt_base smp_lapic_base (i + 1)
  end.

Definition adopt_init_pd (cur_cpu : Z) : M state unit :=
  s ← get;
  pd ← deref (init_page_dir s !! cur_cpu);
  modify (fun s => with_regs pd (paging s) (init_page_dir s) (all_zero_frame s) s);;
  enable_paging.

Definition init_vm (num_cpus : nat) (lapic_virt_base smp_lapic_base : Z) (init_pm : M P Z) : M state Z :=
  init_pg_ctrl_bits;;
  rv ← init_vm_raw num_cpus lapic_virt_base smp_lapic_base 0;
  if rv <? 0 then mret (-1)
  else
    adopt_init_pd 0;;
    new_f ← kalloc;
    if new_f =? 0 then mret ERROR_MALLOC_LIB
    else
      memset0 new_f;;
      modify (fun s => with_regs (cr3 s) (paging s) (init_page_dir s) new_f s);;
      zoom pool with_pool init_pm.

(** ** Address spaces *)

Fixpoint copy_words (n : nat) (dst src i : Z) : M state unit :=
  match n with O => mret tt | S n => v ← rd src i; wr dst i v;; copy_words n dst src (i + 1) end.

Definition create_pd : M state Z :=
  pd ← kalloc;
  if pd =? 0 then mret (w32 ERROR_MALLOC_LIB)
  else
    memset0 pd;;
    old_pd ← gets cr3;
    copy_words (Z.to_nat NUM_PT_KERNEL) pd old_pd 0;;
    mret pd.

Fixpoint free_ptes (n : nat) (pt j : Z) (need_unreserve_frames : bool) : M state unit :=
  match n with
  | O => mret tt
  | S n =>
      pte ← rd pt j;
      (if IS_SET pte PG_P then
         (if negb (IS_SET pte PG_ZFOD) then free_frame (align pte) else mret tt);;
         (if need_unreserve_frames then unreserve 1 else mret tt)
       else mret tt);;
      free_ptes n pt (j + 1) need_unreserve_frames
  end.

Fixpoint free_pdes (n : nat) (pd i : Z) (is_kernel_space need_unreserve_frames : bool) : M state unit :=
  match n with
  | O => mret tt
  | S n =>
      pde ← rd pd i;
      (if IS_SET pde PG_P then
         let pt_addr := align pde in
         (if negb is_kernel_space then free_ptes 1024 pt_addr 0 need_unreserve_frames else mret tt);;
         (if negb is_kernel_space then kfree pt_addr else mret tt)
       else mret tt);;
      free_pdes n pd (i + 1) is_kernel_space need_unreserve_frames
  end.

Definition free_space (pd_base : Z) (is_kernel_space need_unreserve_frames : bool) : M state unit :=
  let pde_start := if is_kernel_space then 0 else NUM_PT_KERNEL in
  let pde_end := if is_kernel_space then NUM_PT_KERNEL else NUM_ENTRIES in
  free_pdes (Z.to_nat (pde_end - pde_start)) pd_base pde_start is_kernel_space need_unreserve_frames.

Definition free_entire_space (pd_base : Z) (need_unreserve_frames : bool) : M state unit :=
  free_space pd_base false need_unreserve_frames;;
  free_space pd_base true need_unreserve_frames;;
  kfree pd_base.

Fixpoint clone_ptes (n : nat) (old_pt new_pt i j : Z) : M state unit :=
  match n with
  | O => mret tt
  | S n =>
      pte ← rd new_pt j;
      (if IS_SET pte PG_P then
         let old_frame_addr := align pte in
         new_f ← get_frame;
         let va := GET_VA_BASE i j in
         frame_buf ← load_page va;
         wr old_pt j (Z.lor new_f (GET_CTRL_BITS pte));;
         store_page va frame_buf;;
         wr old_pt j (Z.lor old_frame_addr (GET_CTRL_BITS pte));;
         wr new_pt j (Z.lor new_f (GET_CTRL_BITS pte))
       else mret tt);;
      clone_ptes n old_pt new_pt i (j + 1)
  end.

(** When a page table cannot be allocated, what was built so far is freed. *)
Fixpoint clone_pdes (n : nat) (old_pd pd i num_pages_allocated frame_buf : Z) : M state Z :=
  match n with
  | O => zoom kheap with_kheap (kh_mfree frame_buf);; mret pd
  | S n =>
      pde ← rd old_pd i;
      if IS_SET pde PG_P then
        if i <? NUM_PT_KERNEL then
          wr pd i pde;;
          clone_pdes n old_pd pd (i + 1) num_pages_allocated frame_buf
        else
          new_pt ← kalloc;
          if new_pt =? 0 then
            zoom kheap with_kheap (kh_mfree frame_buf);;
            free_entire_space pd false;;
            unreserve num_pages_allocated;;
            mret (w32 ERROR_MALLOC_LIB)
          else
            let old_pt_addr := align pde in
            modify (fun s => with_mem (mpage (mem s) new_pt (mem s old_pt_addr)) s);;
            pde ← rd old_pd i;
            wr pd i (Z.lor new_pt (GET_CTRL_BITS pde));;
            clone_ptes 1024 old_pt_addr new_pt i 0;;
            clone_pdes n old_pd pd (i + 1) num_pages_allocated frame_buf
      else clone_pdes n old_pd pd (i + 1) num_pages_allocated frame_buf
  end.

Definition clone_pd : M state Z :=
  old_pd ← gets cr3;
  num_pages_allocated ← count_pages_user_space;
  rv ← reserve num_pages_allocated;
  if rv <? 0 then mret (w32 ERROR_NOT_ENOUGH_MEM)
  else
    frame_buf ← zoom kheap with_kheap kh_malloc;
    if frame_buf =? 0 then mret (w32 ERROR_MALLOC_LIB)
    else
      pd ← kalloc;
      if pd =? 0 then zoom kheap with_kheap (kh_mfree frame_buf);; mret (w32 ERROR_MALLOC_LIB)
      else
        memset0 pd;;
        clone_pdes 1024 old_pd pd 0 num_pages_allocated frame_buf.

(** ** Mapping a region *)

Section region.
Context (page_lowest page_hi : Z) (rw_perm is_new_pages_syscall is_ZFOD : bool).

(** The control bits of a new entry. *)
Definition region_bits (ctrl_bits page : Z) : Z :=
  let b := set_bit ctrl_bits PG_US in
  let b := if is_new_pages_syscall && (page =? page_lowest) then set_bit b PG_NEW_PAGES_START else b in
  let b := if is_new_pages_syscall && (page =? page_hi) then set_bit b PG_NEW_PAGES_END else b in
  if is_ZFOD then clr_bit (set_bit b PG_ZFOD) PG_RW
  else if rw_perm then set_bit b PG_RW else clr_bit b PG_RW.

Fixpoint map_loop (n : nat) (page : Z) : M state unit :=
  match n with
  | O => mret tt
  | S n =>
      pd ← gets cr3;
      pde ← rd pd (GET_PD_INDEX page);
      if negb (IS_SET pde PG_P) then panic
      else
        let pt := align pde in
        let pt_index := GET_PT_INDEX page in
        pte ← rd pt pt_index;
        (if negb (IS_SET pte PG_P) then
           bits ← gets ctrl_bits_pte;
           let pte_ctrl_bits := region_bits bits page in
           new_f ← (if is_ZFOD then gets all_zero_frame else get_frame);
           wr pt pt_index (Z.lor new_f pte_ctrl_bits);;
           (if negb is_ZFOD then memset0_va page else mret tt)
         else mret tt);;
        map_loop n (w32 (page + PAGE_SIZE))
  end.
End region.

Definition new_region (va size_bytes : Z) (rw_perm is_new_pages_syscall is_ZFOD : bool) : M state Z :=
  let page_lowest := align va in
  let page_hi := page_highest va size_bytes in
  let lowest_pt_lock_index := GET_PD_INDEX page_lowest / NUM_PT_PER_LOCK in
  let highest_pt_lock_index := GET_PD_INDEX page_hi / NUM_PT_PER_LOCK in
  let num_pt_lock := Z.to_nat (highest_pt_lock_index - lowest_pt_lock_index + 1) in
  let unlock_all := if is_new_pages_syscall then unlock_range num_pt_lock highest_pt_lock_index else mret tt in
  (if is_new_pages_syscall then need_task;; lock_range num_pt_lock lowest_pt_lock_index else mret tt);;
  num_pages_allocated ← count_pages_allocated va size_bytes is_new_pages_syscall;
  if num_pages_allocated <? 0 then unlock_all;; mret ERROR_MALLOC_LIB
  else if is_new_pages_syscall && (0 <? num_pages_allocated) then unlock_all;; mret ERROR_OVERLAP
  else
    let count := page_count va size_bytes in
    rv ← reserve (count - num_pages_allocated);
    if rv =? -1 then unlock_all;; mret ERROR_NOT_ENOUGH_MEM
    else
      map_loop page_lowest page_hi rw_perm is_new_pages_syscall is_ZFOD (Z.to_nat count) page_lowest;;
      unlock_all;;
      mret 0.

(** [len] is an [int], [base] a pointer. *)
Definition new_pages (base len : Z) : M state Z :=
  if negb (base mod PAGE_SIZE =? 0) then mret ERROR_BASE_NOT_ALIGNED
  else if negb ((0 <? len) && (Z.rem len PAGE_SIZE =? 0)) then mret ERROR_LEN
  else if w32 (UINT32_MAX - base + 1) <? w32 len then mret ERROR_LEN
  else if negb (USER_MEM_START <=? base) then mret ERROR_KERNEL_SPACE
  else new_region base len true true true.

Definition remove_pages (fuel : nat) (base : Z) : M state Z := remove_region fuel base.

(** ** Checking user memory *)

Inductive scan_result := Continue (current_byte : Z) | FoundNull | NotTerminated.

Fixpoint null_scan (fuel : nat) (page current_byte last_byte : Z) : M state scan_result :=
  match fuel with
  | O => nofuel
  | S fuel =>
      if align current_byte =? page then
        b ← load_byte current_byte;
        if b =? 0 then mret FoundNull
        else if current_byte =? last_byte then mret NotTerminated
        else null_scan fuel page (w32 (current_byte + 1)) last_byte
      else mret (Continue current_byte)
  end.

Fixpoint check_loop (n : nat) (is_check_null need_writable : bool) (page current_byte last_byte : Z) : M state Z :=
  match n with
  | O => mret 0
  | S n =>
      pd ← gets cr3;
      pde ← rd pd (GET_PD_INDEX page);
      if IS_SET pde PG_P then
        pte ← rd (align pde) (GET_PT_INDEX page);
        if IS_SET pte PG_P then
          if is_check_null then
            r ← null_scan 4097 page current_byte last_byte;
            match r with
            | FoundNull => mret 0
            | NotTerminated => mret ERROR_NOT_NULL_TERM
            | Continue cur => check_loop n is_check_null need_writable (w32 (page + PAGE_SIZE)) cur last_byte
            end
          else if need_writable && negb (IS_SET pte PG_RW) then
            z ← is_page_ZFOD page 0 false;
            if z =? 0 then mret ERROR_READ_ONLY
            else check_loop n is_check_null need_writable (w32 (page + PAGE_SIZE)) current_byte last_byte
          else check_loop n is_check_null need_writable (w32 (page + PAGE_SIZE)) current_byte last_byte
        else mret ERROR_PAGE_NOT_ALLOC
      else mret ERROR_PAGE_NOT_ALLOC
  end.

Definition check_mem_validness (va max_bytes : Z) (is_check_null need_writable : bool) : M state Z :=
  if va <? USER_MEM_START then mret ERROR_KERNEL_SPACE
  else if max_bytes <? 0 then mret ERROR_LEN
  else
    let last_byte := w32 (va + max_bytes - 1) in
    if negb is_check_null && (last_byte <? va) then mret ERROR_LEN
    else
      let last_byte := if is_check_null && (last_byte <? va) then UINT32_MAX else last_byte in
      let page_lowest := align va in
      let page_hi := align last_byte in
      let count := 1 + w32 (page_hi - page_lowest) / PAGE_SIZE in
      need_task;;
      let lowest_pt_lock_index := GET_PD_INDEX page_lowest / NUM_PT_PER_LOCK in
      let highest_pt_lock_index := GET_PD_INDEX page_hi / NUM_PT_PER_LOCK in
      let num_pt_lock := Z.to_nat (highest_pt_lock_index - lowest_pt_lock_index + 1) in
      lock_range num_pt_lock lowest_pt_lock_index;;
      ret ← check_loop (Z.to_nat count) is_check_null need_writable page_lowest va last_byte;
      unlock_range num_pt_lock highest_pt_lock_index;;
      mret ret.

End vm.
End Vm.
