(* ===== verification/FramePoolPm.v ===== *)
(** * The frame pool of vm.c, implemented by pm.c

    The physical memory manager of Pm.v, on one core and for one calling
    thread, satisfies the interface [FramePool] against which Vm.v is proved.
    The file also gives a small kernel heap satisfying [KernelHeap], used to run
    the model on concrete inputs. *)

From S2P Require Import Prelude SegTree SimpleQueue ThreadState Mutex Pm Vm.
From Stdlib Require Import ZArith Lia.
From stdpp Require Import base gmap list tactics numbers.

#[local] Open Scope Z_scope.

Section pool.
Context {S : Type} {FA : FrameAlloc S}.
Context (cpu me n : Z).
Context (me_tid : 0 <= me) (cpu_id : 0 <= cpu) (some_frames : 0 < n)
  (in_space : Pm.USER_MEM_START + (cpu + 1) * n * Pm.PAGE_SIZE <= 2 ^ 32).

Definition addr (i : Z) : Z := Pm.frame_addr n cpu i.

Definition pool_rep (st : Pm.pm_state S) (F : gset Z) (left : Z) : Prop :=
  exists I pending, Pm.pm_ok cpu st I pending /\ Pm.num_free_frames_per_core st = n /\
    F = set_map addr I /\ left = Z.of_nat (size I) - pending.

Lemma n_bound : n <= 2 ^ 20.
Proof. unfold Pm.USER_MEM_START, Pm.PAGE_SIZE in in_space. nia. Qed.

Lemma addr_inj i j : 0 <= i < n -> 0 <= j < n -> addr i = addr j -> i = j.
Proof. intros Hi Hj E. by destruct (Pm.frame_addr_inj n cpu cpu i j cpu_id cpu_id Hi Hj in_space in_space E). Qed.

Lemma addr_range i : 0 <= i < n -> 16777216 <= addr i < 2 ^ 32 /\ addr i mod 4096 = 0.
Proof.
  intros Hi. unfold addr. rewrite Pm.frame_addr_eq by done. unfold Pm.USER_MEM_START, Pm.PAGE_SIZE in *.
  split; [nia|]. replace (16777216 + (cpu * n + i) * 4096) with (0 + (4096 + (cpu * n + i)) * 4096) by lia.
  by rewrite Z.mod_add.
Qed.

Lemma set_map_size (I : gset Z) : (forall i, i ∈ I -> 0 <= i < n) -> size (set_map addr I : gset Z) = size I.
Proof.
  intros Hr. induction I as [|i I Hi IH] using set_ind_L; [by rewrite set_map_empty, !size_empty|].
  rewrite set_map_union_L, set_map_singleton_L, !size_union, !size_singleton, IH.
  - done.
  - intros j Hj. apply Hr. set_solver.
  - set_solver.
  - intros x Hx Hx'. apply elem_of_singleton in Hx as ->. apply elem_of_map in Hx' as (j & E & Hj).
    apply Hi. assert (i = j) as -> by (apply addr_inj; [apply Hr; set_solver|apply Hr; set_solver|done]). done.
Qed.

Lemma index_bound (I : gset Z) : (forall i, i ∈ I -> 0 <= i < n) -> Z.of_nat (size I) <= n.
Proof.
  intros Hr. assert (I ⊆ list_to_set (seqZ 0 n)) as Hs.
  { intros i Hi. apply elem_of_list_to_set, elem_of_seqZ. specialize (Hr i Hi). lia. }
  apply subseteq_size in Hs. rewrite size_list_to_set, length_seqZ in Hs by apply NoDup_seqZ. lia.
Qed.

#[global] Program Instance pm_pool : FramePool (Pm.pm_state S) := {|
  fp_get := Pm.get_frames_raw 1 cpu me;
  fp_free := Pm.free_frames_raw cpu me;
  fp_reserve := Pm.reserve_frames cpu;
  fp_unreserve := Pm.unreserve_frames cpu;
  fp_frame := fun f => exists i, 0 <= i < n /\ f = addr i;
  fp_rep := pool_rep
|}.
Next Obligation. intros f (i & Hi & ->). by apply addr_range. Qed.
Next Obligation.
  intros st F left (I & p & Hok & Hn & -> & ->). rewrite set_map_size.
  - destruct Hok. lia.
  - intros i Hi. rewrite <- Hn. by apply (Pm.pm_range _ _ _ _ Hok).
Qed.
Next Obligation.
  intros st F left (I & p & Hok & Hn & -> & ->) Hl.
  assert (Hr : forall i, i ∈ I -> 0 <= i < n) by (intros i Hi; rewrite <- Hn; by apply (Pm.pm_range _ _ _ _ Hok)).
  rewrite set_map_size in Hl by done. pose proof n_bound.
  destruct (Pm.get_frames_ok cpu me st I p 1 me_tid Hok ltac:(lia) ltac:(lia)) as (st' & Hf & Hres).
  rewrite decide_False in Hres by (intros ->; rewrite size_empty in Hl; pose proof (Pm.pm_pending _ _ _ _ Hok); rewrite size_empty in *; lia).
  destruct Hres as (i & Hi & _ & R & _ & Hok'). exists (addr i), st'. rewrite Hn in R. split; [done|].
  split; [exists i; split; [by apply Hr|done]|]. split; [by apply elem_of_map_2|].
  exists (I ∖ {[i]}), (p - 1). split; [apply Hok'; lia|]. split; [by rewrite (proj1 Hf)|]. split.
  - apply set_eq. intros x. rewrite elem_of_difference, !elem_of_map, elem_of_singleton. split.
    + intros [(j & -> & Hj) Hne]. exists j. split; [done|]. apply elem_of_difference. split; [done|].
      rewrite elem_of_singleton. by intros ->.
    + intros (j & -> & [Hj Hne]%elem_of_difference). split; [by exists j|]. intros E. apply Hne, elem_of_singleton.
      apply addr_inj; auto.
  - rewrite Pm.size_remove by done. lia.
Qed.
Next Obligation.
  intros st F left f (I & p & Hok & Hn & -> & ->) (i & Hi & ->) Hni.
  assert (HiI : i ∉ I) by (intros H; apply Hni; by apply elem_of_map_2).
  destruct (Pm.free_frames_ok cpu me st I p i me_tid Hok ltac:(by rewrite Hn) HiI) as (st' & R & Hok' & Hf).
  rewrite Hn in R. exists st'. split; [done|]. exists ({[i]} ∪ I), (p + 1). split; [done|].
  split; [by rewrite (proj1 Hf)|]. split; [by rewrite set_map_union_L, set_map_singleton_L|].
  rewrite Pm.size_add by done. lia.
Qed.
Next Obligation.
  intros st F left k (I & p & Hok & Hn & -> & ->) Hk.
  assert (Hb : Z.of_nat (size I) <= n) by (apply index_bound; intros i Hi; rewrite <- Hn; by apply (Pm.pm_range _ _ _ _ Hok)).
  pose proof n_bound. destruct (Pm.reserve_ok cpu st I p k Hok ltac:(lia) Hk) as (st' & Hf & Hres). exists st'.
  case_decide; destruct Hres as [R Hok']; (split; [done|]).
  - exists I, (p + k). split; [done|]. split; [by rewrite (proj1 Hf)|]. split; [done|]. lia.
  - exists I, p. split; [done|]. split; [by rewrite (proj1 Hf)|]. done.
Qed.
Next Obligation.
  intros st F left k (I & p & Hok & Hn & -> & ->) Hk Hle.
  assert (Hr : forall i, i ∈ I -> 0 <= i < n) by (intros i Hi; rewrite <- Hn; by apply (Pm.pm_range _ _ _ _ Hok)).
  rewrite set_map_size in Hle by done. pose proof (index_bound I Hr). pose proof n_bound.
  destruct (Pm.unreserve_ok cpu st I p k Hok ltac:(lia) ltac:(lia)) as (st' & R & Hok' & Hf).
  exists st'. split; [done|]. exists I, (p - k). split; [done|]. split; [by rewrite (proj1 Hf)|]. split; [done|]. lia.
Qed.
End pool.

(** ** A kernel heap handing out a given list of pages *)

Record page_heap := mk_heap { spare : list Z; in_use : gset Z }.

Definition heap_alloc : M page_heap Z := fun h =>
  match spare h with
  | [] => Ok (0, h)
  | a :: l => Ok (a, mk_heap l ({[a]} ∪ in_use h))
  end.
Definition heap_free (a : Z) : M page_heap unit := fun h =>
  if decide (a ∈ in_use h) then Ok (tt, mk_heap (a :: spare h) (in_use h ∖ {[a]})) else Fault.

Definition heap_ok (h : page_heap) (A : gset Z) : Prop :=
  in_use h = A /\ NoDup (spare h) /\
  forall a, a ∈ spare h \/ a ∈ A -> 0 < a < 16777216 /\ a mod 4096 = 0 /\ ~ (a ∈ spare h /\ a ∈ A).

#[global] Program Instance page_heap_kheap : KernelHeap page_heap := {|
  smemalign := heap_alloc;
  sfree := heap_free;
  kh_malloc := fun h => Ok (1, h);
  kh_mfree := fun _ h => Ok (tt, h);
  kh_rep := heap_ok
|}.
Next Obligation.
  intros h A (Hu & Hnd & Hr). unfold heap_alloc. destruct (spare h) as [|a l] eqn:E.
  - exists 0, h. split; [done|]. left. split; [done|]. split; [done|]. rewrite E. done.
  - destruct (Hr a ltac:(left; set_solver)) as (Ha & Hm & Hd). apply list.NoDup_cons in Hnd as [Hal Hnd].
    eexists a, _. split; [done|]. right. split; [done|]. split; [done|]. split; [intros ?; apply Hd; split; [set_solver|done]|].
    split; [simpl; by rewrite Hu|]. split; [done|]. simpl. intros b Hb.
    rewrite elem_of_union, elem_of_singleton in *. destruct (decide (b = a)) as [->|Hne]; [split; [done|]; split; [done|]; tauto|].
    destruct (Hr b) as (? & ? & Hd'); [rewrite elem_of_cons; tauto|]. rewrite elem_of_cons in Hd'. split; [done|]. split; [done|]. tauto.
Qed.
Next Obligation.
  intros h A a (Hu & Hnd & Hr) Ha. unfold heap_free. rewrite decide_True by (by rewrite Hu).
  eexists. split; [done|]. split; [simpl; by rewrite Hu|]. simpl.
  destruct (Hr a ltac:(by right)) as (Har & Ham & Hd). split; [apply NoDup_cons_2; [tauto|done]|].
  intros b. rewrite elem_of_cons, elem_of_difference, elem_of_singleton. intros Hb.
  destruct (decide (b = a)) as [->|Hne]; [split; [done|]; split; [done|]; tauto|].
  destruct (Hr b) as (? & ? & Hd'); [tauto|]. split; [done|]. split; [done|]. tauto.
Qed.
Next Obligation. intros h A H. by exists 1, h. Qed.
Next Obligation. intros h A a H. by exists h. Qed.
