(* ===== verification/VmProofs.v ===== *)
(** * Virtual memory: theorems (src/kern/vm.c)

    Address spaces are seen through [pte_at]: the page table entry of a page
    number, if its page table is there.  The invariant [as_ok] says that the
    page directory and the page tables are different kernel pages, so that
    writing one entry changes one page's mapping only. *)

From S2P Require Import Prelude SegTree SimpleQueue ThreadState Mutex Pm Vm FramePoolPm.
From Stdlib Require Import ZArith Lia.
From stdpp Require Import base gmap list tactics numbers.

#[local] Open Scope Z_scope.

Module VmProofs.
Import Vm.

(** ** Address arithmetic *)

Lemma align_div x : 0 <= x < 2 ^ 32 -> align x = 4096 * (x / 4096).
Proof. exact (land_page_mask x). Qed.

Lemma pd_index_div x : GET_PD_INDEX x = x / 4194304.
Proof. unfold GET_PD_INDEX. by rewrite Z.shiftr_div_pow2. Qed.

Lemma pt_index_div x : 0 <= x < 2 ^ 32 -> GET_PT_INDEX x = x / 4096 mod 1024.
Proof.
  intros Hx. unfold GET_PT_INDEX, w32. rewrite Z.shiftr_div_pow2, Z.shiftl_mul_pow2 by lia.
  change (2 ^ 10) with 1024. change (2 ^ 22) with 4194304. change (2 ^ 32) with (4194304 * 1024) at 1.
  rewrite Z.mul_mod_distr_r by lia.
  replace (4194304) with (4096 * 1024) at 2 by lia. rewrite Z.div_mul_cancel_r by lia.
  change 4194304 with (4096 * 1024). rewrite Z.rem_mul_r by lia.
  rewrite Z.add_comm, Z.mul_comm, Z.div_add_l by lia. rewrite (Z.div_small (x mod 4096)); [lia|].
  apply Z.mod_pos_bound. lia.
Qed.

(** The indices of page number [k]. *)
Lemma page_indices k : 0 <= k < 2 ^ 20 ->
  align (4096 * k) = 4096 * k /\ GET_PD_INDEX (4096 * k) = k / 1024 /\ GET_PT_INDEX (4096 * k) = k mod 1024.
Proof.
  intros Hk. rewrite align_div, pd_index_div, pt_index_div by lia.
  rewrite (Z.mul_comm 4096 k), Z.div_mul by lia. split; [lia|]. split; [|done].
  change 4194304 with (1024 * 4096). by rewrite Z.div_mul_cancel_r.
Qed.

Lemma page_step k : 0 <= k -> k + 1 < 2 ^ 20 -> w32 (4096 * k + PAGE_SIZE) = 4096 * (k + 1).
Proof. intros. unfold PAGE_SIZE. rewrite w32_small; lia. Qed.

Lemma page_number_inj k k' : k / 1024 = k' / 1024 -> k mod 1024 = k' mod 1024 -> k = k'.
Proof. intros E1 E2. rewrite (Z.div_mod k 1024), (Z.div_mod k' 1024) by lia. lia. Qed.

(** ** Page table entries: an aligned address with twelve control bits *)

Definition aligned (a : Z) : Prop := 0 <= a < 2 ^ 32 /\ a mod 4096 = 0.

Lemma aligned_low_bit a n : aligned a -> 0 <= n < 12 -> Z.testbit a n = false.
Proof.
  intros [Ha Hm] Hn. rewrite <- (Z.mod_pow2_bits_low a 12) by lia. change (2 ^ 12) with 4096.
  rewrite Hm. apply Z.testbit_0_l.
Qed.

Lemma bits_high b n : 0 <= b < 4096 -> 12 <= n -> Z.testbit b n = false.
Proof.
  intros Hb Hn. destruct (decide (b = 0)) as [->|]; [apply Z.testbit_0_l|].
  apply Z.bits_above_log2; [lia|]. apply Z.log2_lt_pow2; [lia|].
  apply Z.lt_le_trans with (2 ^ 12); [lia|]. apply Z.pow_le_mono_r; lia.
Qed.

Lemma entry_bit a b n : aligned a -> 0 <= n < 12 -> IS_SET (Z.lor a b) n = IS_SET b n.
Proof. intros Ha Hn. unfold IS_SET. rewrite Z.lor_spec, aligned_low_bit by done. done. Qed.

Lemma mask_bit j : 0 <= j -> Z.testbit PAGE_ALIGN_MASK j = (12 <=? j) && (j <? 32).
Proof.
  intros Hj. change PAGE_ALIGN_MASK with (Z.shiftl (Z.ones 20) 12). rewrite Z.shiftl_spec by lia.
  destruct (Z.leb_spec 12 j); simpl; [|by apply Z.testbit_neg_r; lia].
  destruct (Z.ltb_spec j 32); [apply Z.ones_spec_low; lia|apply Z.ones_spec_high; lia].
Qed.

Lemma entry_align a b : aligned a -> 0 <= b < 4096 -> align (Z.lor a b) = a.
Proof.
  intros Ha Hb. apply Z.bits_inj'. intros j Hj. unfold align. rewrite Z.land_spec, Z.lor_spec, mask_bit by done.
  destruct (Z.leb_spec 12 j); simpl.
  - rewrite (bits_high b) by lia. rewrite orb_false_r.
    destruct (Z.ltb_spec j 32); [apply andb_true_r|]. rewrite (u32_testbit_high a) by (try apply Ha; lia). done.
  - rewrite andb_false_r. symmetry. by apply aligned_low_bit.
Qed.

Lemma bits_low_of x : 0 <= x -> (forall j, 12 <= j -> Z.testbit x j = false) -> 0 <= x < 4096.
Proof.
  intros Hx Hb. split; [done|]. replace x with (x mod 2 ^ 12); [apply (Z.mod_pos_bound x 4096); lia|].
  apply Z.bits_inj'. intros j Hj. destruct (Z.lt_ge_cases j 12).
  - by rewrite Z.mod_pow2_bits_low.
  - rewrite Z.mod_pow2_bits_high by lia. by rewrite Hb.
Qed.

Lemma set_bit_is a n m : 0 <= n < 12 -> 0 <= m < 12 -> IS_SET (set_bit a n) m = IS_SET a m || (m =? n).
Proof. intros. unfold IS_SET. by rewrite set_bit_testbit by lia. Qed.

Lemma clr_bit_is a n m : 0 <= n < 12 -> 0 <= m < 12 -> IS_SET (clr_bit a n) m = IS_SET a m && negb (m =? n).
Proof. intros. unfold IS_SET. by rewrite clr_bit_testbit by lia. Qed.

(** ** Address spaces *)

Section spaces.
Context {P K : Type} {FP : FramePool P} {KH : KernelHeap K}.
Context (me : Z).
Hypothesis me_tid : 0 <= me.
Abbreviation state := (vm_state P K).
Implicit Types s : state.

Definition pde s (i : Z) : Z := mem s (cr3 s) i.
Definition has_pt s (i : Z) : bool := IS_SET (pde s i) PG_P.
Definition pt_of s (i : Z) : Z := align (pde s i).
(** The entry of page number [k]; [None] without a page table. *)
Definition pte_at s (k : Z) : option Z :=
  if has_pt s (k / 1024) then Some (mem s (pt_of s (k / 1024)) (k mod 1024)) else None.
Definition mapped s (k : Z) : bool :=
  match pte_at s k with Some e => IS_SET e PG_P | None => false end.

Record as_ok s (A : gset Z) : Prop := {
  as_heap : kh_rep (kheap s) A;
  as_pages : forall a, a ∈ A -> 0 < a < 16777216 /\ a mod 4096 = 0;
  as_pd : cr3 s ∈ A;
  as_pt : forall i, 0 <= i < 1024 -> has_pt s i = true -> pt_of s i ∈ A /\ pt_of s i <> cr3 s;
  as_inj : forall i j, 0 <= i < 1024 -> 0 <= j < 1024 -> has_pt s i = true -> has_pt s j = true ->
    pt_of s i = pt_of s j -> i = j;
  as_bits : ctrl_bits_pde s = 3 /\ ctrl_bits_pte s = 67;
  as_zero : all_zero_frame s ∈ A /\ all_zero_frame s <> cr3 s /\
    forall i, 0 <= i < 1024 -> has_pt s i = true -> pt_of s i <> all_zero_frame s
}.

Lemma mset_eq m b i v : mset m b i v b i = v.
Proof. unfold mset. by rewrite !fupd_eq. Qed.
Lemma mset_ne m b i v b' i' : b' <> b \/ i' <> i -> mset m b i v b' i' = m b' i'.
Proof.
  intros H. unfold mset. destruct (Z.eq_dec b' b) as [->|Hb]; [rewrite fupd_eq|by rewrite fupd_ne].
  apply fupd_ne. by destruct H.
Qed.

(** Writing the entry of page [k] in its page table. *)
Definition write_pte s (k v : Z) : state :=
  with_mem (mset (mem s) (pt_of s (k / 1024)) (k mod 1024) v) s.

Lemma write_pte_pde s A k v i : as_ok s A -> 0 <= k < 2 ^ 20 -> has_pt s (k / 1024) = true ->
  pde (write_pte s k v) i = pde s i.
Proof.
  intros Hok Hk Hp. destruct (as_pt _ _ Hok (k / 1024)) as [_ Hne]; [|done|].
  { split; [apply Z.div_pos; lia|apply Z.div_lt_upper_bound; lia]. }
  unfold pde, write_pte. simpl. apply mset_ne. left. done.
Qed.

Lemma pdi_range k : 0 <= k < 2 ^ 20 -> 0 <= k / 1024 < 1024.
Proof. intros. split; [apply Z.div_pos; lia|apply Z.div_lt_upper_bound; lia]. Qed.

Lemma write_pte_at s A k v k' : as_ok s A -> 0 <= k < 2 ^ 20 -> 0 <= k' < 2 ^ 20 -> has_pt s (k / 1024) = true ->
  pte_at (write_pte s k v) k' = if k' =? k then Some v else pte_at s k'.
Proof.
  intros Hok Hk Hk' Hp. unfold pte_at, has_pt, pt_of. rewrite !(write_pte_pde s A) by done.
  fold (has_pt s (k' / 1024)) (pt_of s (k' / 1024)). destruct (Z.eqb_spec k' k) as [->|Hne].
  - rewrite Hp. unfold write_pte. simpl. by rewrite mset_eq.
  - destruct (has_pt s (k' / 1024)) eqn:Hp'; [|done]. f_equal. unfold write_pte. simpl. apply mset_ne.
    destruct (Z.eq_dec (k' / 1024) (k / 1024)) as [E|E].
    + right. intros E'. apply Hne. by apply page_number_inj.
    + left. intros E'. apply E. by apply (as_inj _ _ Hok _ _ (pdi_range _ Hk') (pdi_range _ Hk) Hp' Hp).
Qed.

Lemma write_pte_ok s A k v : as_ok s A -> 0 <= k < 2 ^ 20 -> has_pt s (k / 1024) = true -> as_ok (write_pte s k v) A.
Proof.
  intros Hok Hk Hp. pose proof (write_pte_pde s A k v) as Hpde.
  assert (Hh : forall i, has_pt (write_pte s k v) i = has_pt s i) by (intros i; unfold has_pt; by rewrite Hpde).
  assert (Ht : forall i, pt_of (write_pte s k v) i = pt_of s i) by (intros i; unfold pt_of; by rewrite Hpde).
  destruct Hok as [H1 H2 H3 H4 H5 H6 H7]. split; try done.
  - intros i Hi. rewrite Hh, Ht. by apply H4.
  - intros i j Hi Hj. rewrite !Hh, !Ht. by apply H5.
  - destruct H7 as (Hz0 & Hz1 & Hz2). split; [done|]. split; [done|]. intros i Hi. rewrite Hh, Ht. by apply Hz2.
Qed.

(** Changing the contents of a page that is neither the directory nor a table. *)
Lemma frame_write_view s A f c : as_ok s A -> (f ∉ A) ->
  let s' := with_mem (mpage (mem s) f c) s in
  (forall i, 0 <= i < 1024 -> pde s' i = pde s i) /\ (forall k, 0 <= k < 2 ^ 20 -> pte_at s' k = pte_at s k) /\ as_ok s' A.
Proof.
  intros Hok Hf s'. assert (Hpde : forall i, pde s' i = pde s i).
  { intros i. unfold pde, s', mpage. simpl. rewrite fupd_ne; [done|]. intros E. apply Hf. rewrite <- E. apply (as_pd _ _ Hok). }
  assert (Hh : forall i, has_pt s' i = has_pt s i) by (intros i; unfold has_pt; by rewrite Hpde).
  assert (Ht : forall i, pt_of s' i = pt_of s i) by (intros i; unfold pt_of; by rewrite Hpde).
  split; [auto|]. split.
  - intros k Hk. unfold pte_at. rewrite Hh, Ht. destruct (has_pt s (k / 1024)) eqn:Hp; [|done]. f_equal.
    unfold s', mpage. simpl. rewrite fupd_ne; [done|]. intros E. apply Hf. rewrite <- E.
    by apply (as_pt _ _ Hok _ (pdi_range _ Hk)).
  - destruct Hok as [H1 H2 H3 H4 H5 H6 H7]. split; try done.
    + intros i Hi. rewrite Hh, Ht. by apply H4.
    + intros i j Hi Hj. rewrite !Hh, !Ht. by apply H5.
    + destruct H7 as (Hz0 & Hz1 & Hz2). split; [done|]. split; [done|]. intros i Hi. rewrite Hh, Ht. by apply Hz2.
Qed.

(** ** Page table locks *)

Definition free_lock : Mutex.mutex_t := Mutex.mk_mutex (-1) [].
Definition held_lock : Mutex.mutex_t := Mutex.mk_mutex me [].

Definition set_range (m : Mutex.mutex_t) (locks : gmap Z Mutex.mutex_t) (l : Z) (n : nat) : gmap Z Mutex.mutex_t :=
  foldr (fun i acc => <[i := m]> acc) locks (seqZ l (Z.of_nat n)).

Lemma set_range_lookup m locks l n j :
  set_range m locks l n !! j = if decide (l <= j < l + Z.of_nat n) then Some m else locks !! j.
Proof.
  unfold set_range. assert (H : forall xs, foldr (fun i acc => <[i := m]> acc) locks xs !! j =
    if decide (j ∈ xs) then Some m else locks !! j).
  { induction xs as [|x xs IH]; simpl; [done|]. rewrite lookup_insert, IH.
    repeat case_decide; try done; set_solver. }
  rewrite H. repeat case_decide; try done; rewrite elem_of_seqZ in *; lia.
Qed.

Lemma pt_lock_ok s locks i : task s = Some locks -> locks !! i = Some free_lock ->
  pt_lock me i s = Ok (tt, with_task (Some (<[i := held_lock]> locks)) (vtst s) s).
Proof.
  intros Ht Hi. unfold pt_lock, on_lock. rewrite Ht, Hi. erewrite zoom_ok; [|by apply Mutex.mutex_lock_free]. done.
Qed.

Lemma pt_unlock_ok s locks i : task s = Some locks -> locks !! i = Some held_lock ->
  pt_unlock i s = Ok (tt, with_task (Some (<[i := free_lock]> locks)) (vtst s) s).
Proof.
  intros Ht Hi. unfold pt_unlock, on_lock. rewrite Ht, Hi.
  erewrite zoom_ok; [|by apply (Mutex.mutex_unlock_free _ me)]. done.
Qed.

Lemma with_task_twice t1 u1 t2 u2 s : with_task t1 u1 (with_task t2 u2 s) = with_task t1 u1 s.
Proof. done. Qed.

Lemma with_task_id s locks : task s = Some locks -> with_task (Some locks) (vtst s) s = s.
Proof. intros H. destruct s. simpl in *. subst. done. Qed.

Lemma lock_range_ok n : forall s locks l, task s = Some locks ->
  (forall j, l <= j < l + Z.of_nat n -> locks !! j = Some free_lock) ->
  lock_range me n l s = Ok (tt, with_task (Some (set_range held_lock locks l n)) (vtst s) s).
Proof.
  induction n as [|n IH]; intros s locks l Ht Hf; cbn [lock_range].
  { rewrite with_task_id; done. }
  rewrite (bind_ok _ _ _ _ _ (pt_lock_ok s locks l Ht (Hf l ltac:(lia)))).
  erewrite IH; [|done|]. 2:{ intros j Hj. rewrite lookup_insert_ne by lia. apply Hf. lia. }
  simpl vtst. rewrite with_task_twice. do 3 f_equal. f_equal. apply map_eq. intros j.
  rewrite !set_range_lookup, lookup_insert. repeat case_decide; try done; lia.
Qed.

Lemma unlock_range_ok n : forall s locks h, task s = Some locks ->
  (forall j, h - Z.of_nat n < j <= h -> locks !! j = Some held_lock) ->
  unlock_range n h s = Ok (tt, with_task (Some (set_range free_lock locks (h - Z.of_nat n + 1) n)) (vtst s) s).
Proof.
  induction n as [|n IH]; intros s locks h Ht Hf; cbn [unlock_range].
  { rewrite with_task_id; done. }
  rewrite (bind_ok _ _ _ _ _ (pt_unlock_ok s locks h Ht (Hf h ltac:(lia)))).
  erewrite IH; [|done|]. 2:{ intros j Hj. rewrite lookup_insert_ne by lia. apply Hf. lia. }
  simpl vtst. rewrite with_task_twice. do 3 f_equal. f_equal. apply map_eq. intros j.
  rewrite !set_range_lookup, lookup_insert. repeat case_decide; try done; lia.
Qed.

(** Locking a range of free locks and unlocking it later gives the locks back. *)
Lemma unlock_after s locks l (n : nat) ts : 
  (forall j, l <= j < l + Z.of_nat n -> locks !! j = Some free_lock) ->
  task s = Some (set_range held_lock locks l n) -> vtst s = ts ->
  unlock_range n (l + Z.of_nat n - 1) s = Ok (tt, with_task (Some locks) ts s).
Proof.
  intros Hf Ht Hv. erewrite unlock_range_ok; [|done|].
  - rewrite Hv. do 4 f_equal. apply map_eq. intros j. rewrite !set_range_lookup.
    repeat case_decide; try done; try lia. symmetry. apply Hf. lia.
  - intros j Hj. rewrite set_range_lookup, decide_True by lia. done.
Qed.

(** ** Adding and dropping page tables *)

(** The contents of user frames and of the zero frame. *)
Definition frames_kept s s' : Prop := forall f, 16777216 <= f \/ f = all_zero_frame s -> mem s' f = mem s f.

(** Registers, locks, the frame pool and the frames are untouched. *)
Definition same_rest s s' : Prop :=
  (cr3 s' = cr3 s /\ all_zero_frame s' = all_zero_frame s /\ ctrl_bits_pde s' = ctrl_bits_pde s /\
  ctrl_bits_pte s' = ctrl_bits_pte s /\ task s' = task s /\ vtst s' = vtst s /\ pool s' = pool s) /\ frames_kept s s'.

Lemma same_rest_refl s : same_rest s s.
Proof. by repeat split. Qed.
Lemma same_rest_trans s1 s2 s3 : same_rest s1 s2 -> same_rest s2 s3 -> same_rest s1 s3.
Proof.
  intros [H1 M1] [H2 M2]. split; [destruct_and!; repeat split; congruence|]. intros f Hf. rewrite M2, M1; [done|done|].
  destruct H1 as (_ & -> & _). done.
Qed.

(** A write to a page of the kernel other than the zero frame. *)
Lemma page_write_kept s A b c : as_ok s A -> b < 16777216 -> b <> all_zero_frame s -> frames_kept s (with_mem (mpage (mem s) b c) s).
Proof.
  intros Hok Hb Hz f Hf. simpl. unfold mpage. apply fupd_ne. intros ->. destruct Hf as [?|?]; [lia|done].
Qed.

Lemma pte_write_kept s A k v : as_ok s A -> 0 <= k < 2 ^ 20 -> has_pt s (k / 1024) = true -> same_rest s (write_pte s k v).
Proof.
  intros Hok Hk Hp. split; [by repeat split|]. destruct (as_pt _ _ Hok _ (pdi_range _ Hk) Hp) as [Hin _]. pose proof (as_pages _ _ Hok _ Hin).
  apply (page_write_kept s A); [done|lia|]. by apply (as_zero _ _ Hok), Hp; apply pdi_range.
Qed.

(** Empty page tables may have been added. *)
Definition grows s s' : Prop := forall k, 0 <= k < 2 ^ 20 ->
  pte_at s' k = pte_at s k \/ (pte_at s k = None /\ pte_at s' k = Some 0).
(** Page tables may have been dropped. *)
Definition shrinks s s' : Prop := forall k, 0 <= k < 2 ^ 20 -> pte_at s' k = pte_at s k \/ pte_at s' k = None.

Lemma grows_refl s : grows s s.
Proof. intros k _. by left. Qed.
Lemma grows_trans s1 s2 s3 : grows s1 s2 -> grows s2 s3 -> grows s1 s3.
Proof. intros H1 H2 k Hk. destruct (H1 k Hk) as [E1|[E1 E1']], (H2 k Hk) as [E2|[E2 E2']]; rewrite ?E1, ?E2 in *; try (by left); right; split; congruence. Qed.
Lemma shrinks_trans s1 s2 s3 : shrinks s1 s2 -> shrinks s2 s3 -> shrinks s1 s3.
Proof. intros H1 H2 k Hk. destruct (H1 k Hk) as [E1|E1], (H2 k Hk) as [E2|E2]; rewrite ?E1, ?E2; auto; right; congruence. Qed.

Lemma entry_user a : aligned a ->
  IS_SET (Z.lor a (set_bit 3 PG_US)) PG_P = true /\ align (Z.lor a (set_bit 3 PG_US)) = a.
Proof.
  intros Ha. rewrite entry_bit, entry_align by (try done; unfold PG_P; lia || (vm_compute; split; congruence)). done.
Qed.

(** A page table for entry [i]: [kalloc], [memset], write the directory entry. *)
Definition add_pt s (i a : Z) (k' : K) : state :=
  with_mem (mset (mpage (mem s) a (fun _ => 0)) (cr3 s) i (Z.lor a (set_bit (ctrl_bits_pde s) PG_US))) (with_kheap k' s).

Lemma add_pt_ok s A i a k' :
  as_ok s A -> 0 <= i < 1024 -> has_pt s i = false -> (a ∉ A) -> 0 < a < 16777216 -> a mod 4096 = 0 ->
  kh_rep k' ({[a]} ∪ A) ->
  let s' := add_pt s i a k' in
  as_ok s' ({[a]} ∪ A) /\ grows s s' /\ same_rest s s' /\
  forall j, 0 <= j < 1024 -> has_pt s' j = if j =? i then true else has_pt s j.
Proof.
  intros Hok Hi Hp Ha Har Ham Hk s'. pose proof Hok as [H1 H2 H3 H4 H5 H6 H7].
  assert (Hal : aligned a) by (split; [lia|done]). destruct H6 as [Hb1 Hb2].
  assert (Hac : a <> cr3 s) by congruence.
  assert (Hpde : forall j, pde s' j = if j =? i then Z.lor a (set_bit 3 PG_US) else pde s j).
  { intros j. unfold pde, s', add_pt. simpl. rewrite Hb1. destruct (Z.eqb_spec j i) as [->|].
    - apply mset_eq.
    - rewrite mset_ne by (by right). unfold mpage. by rewrite fupd_ne. }
  destruct (entry_user a Hal) as [Eu Ea].
  assert (Hh : forall j, has_pt s' j = if j =? i then true else has_pt s j).
  { intros j. unfold has_pt. rewrite Hpde. by destruct (j =? i). }
  assert (Ht : forall j, pt_of s' j = if j =? i then a else pt_of s j).
  { intros j. unfold pt_of. rewrite Hpde. by destruct (j =? i). }
  assert (Hkept : same_rest s s').
  { split; [by repeat split|]. intros f Hf. pose proof (H2 _ H3). unfold s', add_pt. simpl. unfold mset, mpage. rewrite !fupd_ne; [done|..].
    - intros ->. destruct Hf as [?| ->]; [lia|]. by apply Ha, H7.
    - intros ->. destruct Hf as [?|E]; [lia|]. by apply H7. }
  split; [|split; [|split; [done|auto]]].
  - split; try done.
    + intros b. rewrite elem_of_union, elem_of_singleton. intros [->|Hb]; [done|by apply H2].
    + apply elem_of_union_r. done.
    + intros j Hj. rewrite Hh, Ht. change (cr3 s') with (cr3 s). destruct (Z.eqb_spec j i).
      * intros _. split; [apply elem_of_union_l, elem_of_singleton; done|done].
      * intros Hj'. destruct (H4 j Hj Hj'). split; [by apply elem_of_union_r|done].
    + intros j j' Hj Hj'. rewrite !Hh, !Ht. destruct (Z.eqb_spec j i), (Z.eqb_spec j' i); intros E1 E2 E3; subst; try done.
      * destruct (H4 j' Hj' E2). congruence.
      * destruct (H4 j Hj E1). congruence.
      * by apply H5.
    + destruct H7 as (Hz0 & Hz1 & Hz2). split; [by apply elem_of_union_r|]. split; [done|].
      intros j Hj. rewrite Hh, Ht. destruct (Z.eqb_spec j i); [|by apply Hz2]. intros _ E. apply Ha. by rewrite E.
  - intros k Hkr. unfold pte_at. rewrite Hh, Ht. destruct (Z.eqb_spec (k / 1024) i) as [E|E].
    + right. rewrite E, Hp. split; [done|]. f_equal. unfold s', add_pt. simpl. rewrite mset_ne by (by left).
      unfold mpage. by rewrite fupd_eq.
    + left. destruct (has_pt s (k / 1024)) eqn:Hp'; [|done]. f_equal. destruct (H4 _ (pdi_range _ Hkr) Hp') as [Hin Hne].
      unfold s', add_pt. simpl. rewrite mset_ne by (by left). unfold mpage. rewrite fupd_ne; [done|]. intros E'. apply Ha. by rewrite <- E'.
Qed.

(** Dropping the page table of entry [i]. *)
Definition drop_pt s (i : Z) (k' : K) : state := with_mem (mset (mem s) (cr3 s) i 0) (with_kheap k' s).

Lemma drop_pt_ok s A i k' :
  as_ok s A -> 0 <= i < 1024 -> has_pt s i = true -> kh_rep k' (A ∖ {[pt_of s i]}) ->
  let s' := drop_pt s i k' in
  as_ok s' (A ∖ {[pt_of s i]}) /\ shrinks s s' /\ same_rest s s' /\
  forall j, 0 <= j < 1024 -> has_pt s' j = if j =? i then false else has_pt s j.
Proof.
  intros Hok Hi Hp Hk s'. pose proof Hok as [H1 H2 H3 H4 H5 H6 H7].
  destruct (H4 i Hi Hp) as [Hin Hne]. destruct H7 as (Hz0 & Hz1 & Hz2).
  assert (Hpde : forall j, pde s' j = if j =? i then 0 else pde s j).
  { intros j. unfold pde, s', drop_pt. simpl. destruct (Z.eqb_spec j i) as [->|]; [apply mset_eq|apply mset_ne; by right]. }
  assert (Hh : forall j, has_pt s' j = if j =? i then false else has_pt s j).
  { intros j. unfold has_pt. rewrite Hpde. by destruct (j =? i). }
  assert (Ht : forall j, j <> i -> pt_of s' j = pt_of s j).
  { intros j Hj. unfold pt_of. rewrite Hpde. by destruct (Z.eqb_spec j i). }
  assert (Hkept : same_rest s s').
  { split; [by repeat split|]. intros f Hf. pose proof (H2 _ H3). unfold s', drop_pt. simpl. unfold mset. rewrite fupd_ne; [done|].
    intros ->. destruct Hf as [?|E]; [lia|]. congruence. }
  split; [|split; [|split; [done|auto]]].
  - split; try done.
    + intros b Hb. apply H2. by apply elem_of_difference in Hb as [? _].
    + apply elem_of_difference. split; [done|]. rewrite elem_of_singleton. intros E. by apply Hne, eq_sym.
    + intros j Hj. rewrite Hh. destruct (Z.eqb_spec j i) as [|Hji]; [done|]. rewrite Ht by done. intros Hj'.
      destruct (H4 j Hj Hj'). split; [|done]. apply elem_of_difference. split; [done|].
      rewrite elem_of_singleton. intros E. apply Hji. by apply H5.
    + intros j j' Hj Hj'. rewrite !Hh. destruct (Z.eqb_spec j i), (Z.eqb_spec j' i); try done.
      rewrite !Ht by done. by apply H5.
    + split; [|split; [done|]].
      * apply elem_of_difference. split; [done|]. rewrite elem_of_singleton. intros E. by apply (Hz2 i Hi Hp).
      * intros j Hj. rewrite Hh. destruct (Z.eqb_spec j i); [done|]. rewrite Ht by done. by apply Hz2.
  - intros k Hkr. unfold pte_at. rewrite Hh. destruct (Z.eqb_spec (k / 1024) i) as [E|E]; [by right|left].
    rewrite Ht by done. destruct (has_pt s (k / 1024)) eqn:Hp'; [|done]. f_equal. unfold s', drop_pt. simpl.
    apply mset_ne. left. by apply (H4 _ (pdi_range _ Hkr) Hp').
Qed.

(** [clear_pd_entry] frees the tables whose byte has its low bit set. *)
Lemma clear_pd_entry_ok (n : nat) : forall s A bitmap i start,
  as_ok s A -> 0 <= i -> 0 <= start ->
  (forall j, i <= j < i + Z.of_nat n -> exists b, bitmap !! j = Some b /\
     (IS_SET b 0 = true -> start + j < 1024 /\ has_pt s (start + j) = true)) ->
  exists s' A', clear_pd_entry n bitmap i start s = Ok (tt, s') /\ as_ok s' A' /\ shrinks s s' /\ same_rest s s'.
Proof.
  induction n as [|n IH]; intros s A bitmap i start Hok Hi Hst Hb; cbn [clear_pd_entry].
  { exists s, A. split; [done|]. split; [done|]. split; [intros k _; by left|apply same_rest_refl]. }
  destruct (Hb i ltac:(lia)) as (b & Hbi & Hset). rewrite Hbi.
  rewrite (bind_ok _ _ s b s eq_refl). destruct (IS_SET b 0) eqn:Eb.
  - destruct (Hset eq_refl) as [Hlt Hp]. replace (i * 1 + 0 + start) with (start + i) by lia.
    destruct (as_pt _ _ Hok (start + i) ltac:(lia) Hp) as [Hin Hne].
    destruct (kh_free_spec _ _ _ (as_heap _ _ Hok) Hin) as (k' & Hrun & Hk').
    destruct (drop_pt_ok s A (start + i) k' Hok ltac:(lia) Hp Hk') as (Hok' & Hsh & Hsr & Hh).
    destruct (IH (drop_pt s (start + i) k') _ bitmap (i + 1) start Hok' ltac:(lia) Hst) as (s' & A' & R & Hok2 & Hsh2 & Hsr2).
    { intros j Hj. destruct (Hb j ltac:(lia)) as (b' & Hb' & Hs'). exists b'. split; [done|]. intros Eb'.
      destruct (Hs' Eb'). split; [done|]. rewrite Hh by lia. destruct (Z.eqb_spec (start + j) (start + i)); [lia|done]. }
    exists s', A'. split; [|split; [done|split; [by eapply shrinks_trans|by eapply same_rest_trans]]].
    erewrite bind_ok; [exact R|]. rewrite (bind_ok _ _ s (cr3 s) s eq_refl), (bind_ok _ _ s (pde s (start + i)) s eq_refl).
    by erewrite bind_ok by (eapply zoom_ok; exact Hrun).
  - destruct (IH s A bitmap (i + 1) start Hok ltac:(lia) Hst) as (s' & A' & R & Hok2 & Hsh2 & Hsr2).
    { intros j Hj. apply Hb. lia. }
    exists s', A'. split; [|done]. by rewrite (bind_ok _ _ s tt s eq_refl).
Qed.

(** Page tables added, then some dropped: no page becomes mapped. *)
Definition churn s s' : Prop := exists m, grows s m /\ shrinks m s'.

Lemma churn_grows s1 s2 s3 : grows s1 s2 -> churn s2 s3 -> churn s1 s3.
Proof. intros H (m & Hg & Hs). exists m. split; [by eapply grows_trans|done]. Qed.

Lemma grows_mapped s s' k : grows s s' -> 0 <= k < 2 ^ 20 -> mapped s' k = mapped s k.
Proof. intros Hg Hk. unfold mapped. destruct (Hg k Hk) as [->|[-> ->]]; done. Qed.

Lemma grows_has_pt s s' A i : as_ok s A -> grows s s' -> 0 <= i < 1024 -> has_pt s i = true -> has_pt s' i = true.
Proof.
  intros Hok Hg Hi Hp. destruct (Hg (1024 * i) ltac:(lia)) as [E|[E E']]; unfold pte_at in *;
    rewrite (Z.mul_comm 1024 i), Z.div_mul in * by lia; rewrite Hp in *; [|done].
  by destruct (has_pt s' i).
Qed.

(** The bookkeeping of [count_pages_allocated] before page [k] of a region that
    starts at page [k0]: the tables passed so far are present, and a byte of
    the bitmap with its low bit set stands for one of them. *)
Record cpa_inv s (k0 k B : Z) (bitmap : array) : Prop := {
  cpa_seen : forall i, k0 < k -> k0 / 1024 <= i <= (k - 1) / 1024 -> has_pt s i = true;
  cpa_bytes : forall j, 0 <= j < B -> exists b, bitmap !! j = Some b /\
    (IS_SET b 0 = true -> k0 < k /\ k0 / 1024 + j <= (k - 1) / 1024)
}.

Lemma div1024_succ k : 0 <= k -> (k + 1 - 1) / 1024 = k / 1024 /\ (k - 1) / 1024 <= k / 1024 <= (k - 1) / 1024 + 1.
Proof.
  intros Hk. replace (k + 1 - 1) with k by lia. split; [done|].
  pose proof (Z.div_mod k 1024 ltac:(lia)). pose proof (Z.mod_pos_bound k 1024 ltac:(lia)).
  pose proof (Z.div_mod (k - 1) 1024 ltac:(lia)). pose proof (Z.mod_pos_bound (k - 1) 1024 ltac:(lia)). lia.
Qed.

Lemma cpa_inv_clear s A k0 k B bitmap : as_ok s A -> cpa_inv s k0 k B bitmap -> 0 <= k0 -> k <= 2 ^ 20 ->
  exists s' A', clear_pd_entry (Z.to_nat B) bitmap 0 (k0 / 1024) s = Ok (tt, s') /\
    as_ok s' A' /\ shrinks s s' /\ same_rest s s'.
Proof.
  intros Hok [Hs Hb] Hk0 Hk. apply (clear_pd_entry_ok _ s A); [done|lia|apply Z.div_pos; lia|].
  intros j Hj. destruct (Hb j ltac:(lia)) as (b & Hbj & Hset). exists b. split; [done|]. intros E.
  destruct (Hset E) as [Hlt Hle]. split; [|apply Hs; lia].
  pose proof (pdi_range (k - 1) ltac:(lia)). lia.
Qed.

Lemma cpa_inv_step s s' A k0 k B bitmap : as_ok s A -> cpa_inv s k0 k B bitmap -> 0 <= k0 <= k -> k < 2 ^ 20 ->
  grows s s' -> has_pt s' (k / 1024) = true -> cpa_inv s' k0 (k + 1) B bitmap.
Proof.
  intros Hok [Hs Hb] Hk Hk2 Hg Hp. destruct (div1024_succ k ltac:(lia)) as [E1 E2].
  pose proof (pdi_range k ltac:(lia)). assert (Hk0 : 0 <= k0 / 1024) by (apply Z.div_pos; lia).
  split.
  - intros i _ Hi. rewrite E1 in Hi. destruct (Z.eq_dec i (k / 1024)) as [->|]; [done|].
    destruct (Z.eq_dec k k0) as [->|]; [lia|]. eapply grows_has_pt; [done|done|lia|]. apply Hs; lia.
  - intros j Hj. destruct (Hb j Hj) as (b & Hbj & Hset). exists b. split; [done|]. intros E. destruct (Hset E).
    rewrite E1. lia.
Qed.

Lemma cpa_inv_set s k0 k B bitmap b :
  cpa_inv s k0 (k + 1) B bitmap -> 0 <= k0 <= k -> k < 2 ^ 20 ->
  let d := k / 1024 - k0 / 1024 in 0 <= d < B -> bitmap !! (d / 8) = Some b ->
  cpa_inv s k0 (k + 1) B (<[d / 8 := Z.lor b (Z.shiftl 1 (d mod 8))]> bitmap).
Proof.
  intros [Hs Hb] Hk Hk2 d Hd Hbd. split; [done|]. intros j Hj. rewrite lookup_insert.
  case_decide as E; [|by apply Hb]. eexists. split; [done|]. intros Hset. split; [lia|].
  destruct (div1024_succ k ltac:(lia)) as [-> _]. unfold IS_SET in Hset. rewrite Z.lor_spec in Hset.
  apply orb_true_iff in Hset as [Hset|Hset].
  - destruct (Hb j Hj) as (b' & Hb' & Hset'). rewrite <- E in Hb'. rewrite Hbd in Hb'. injection Hb' as <-.
    destruct (Hset' Hset) as [_ H]. by destruct (div1024_succ k ltac:(lia)) as [E' _]; rewrite E' in H.
  - pose proof (Z.div_mod d 8 ltac:(lia)). pose proof (Z.mod_pos_bound d 8 ltac:(lia)). subst j. lia.
Qed.

(** The number of mapped pages among [n] from page [k] on. *)
Definition mapped_count s (k : Z) (n : nat) : Z := Z.of_nat (length (filter (fun j => mapped s j = true) (seqZ k (Z.of_nat n)))).

Lemma mapped_count_S s k n : mapped_count s k (S n) = (if mapped s k then 1 else 0) + mapped_count s (k + 1) n.
Proof.
  unfold mapped_count. rewrite (seqZ_cons k (Z.of_nat (S n))) by lia. replace (Z.pred (Z.of_nat (S n))) with (Z.of_nat n) by lia.
  rewrite filter_cons. change (Z.succ k) with (k + 1). destruct (mapped s k); case_decide; try done. cbn [length]. lia.
Qed.

Lemma mapped_count_grows s s' k n : grows s s' -> 0 <= k -> k + Z.of_nat n <= 2 ^ 20 -> mapped_count s' k n = mapped_count s k n.
Proof.
  intros Hg. revert k. induction n as [|n IH]; intros k H0 Hk; [done|]. rewrite !mapped_count_S, IH by lia. by rewrite (grows_mapped s s') by (done || lia).
Qed.

Lemma mapped_count_nonneg s k n : 0 <= mapped_count s k n.
Proof. unfold mapped_count. lia. Qed.

Lemma mapped_count_zero s n : forall k, mapped_count s k n = 0 -> forall k', k <= k' < k + Z.of_nat n -> mapped s k' = false.
Proof.
  induction n as [|n IH]; intros k H0 k' Hk'; [lia|]. rewrite mapped_count_S in H0. pose proof (mapped_count_nonneg s (k + 1) n).
  destruct (mapped s k) eqn:E; [lia|]. destruct (Z.eq_dec k' k) as [->|]; [done|]. apply (IH (k + 1)); lia.
Qed.

Lemma cpa_ok (sc : bool) k0 B (n : nat) : forall s A k page num bitmap,
  as_ok s A -> cpa_inv s k0 k B bitmap -> 0 <= k0 <= k -> k + Z.of_nat n <= 2 ^ 20 ->
  (n <> 0%nat -> page = 4096 * k /\ (k + Z.of_nat n - 1) / 1024 - k0 / 1024 < B) ->
  exists r s' A', cpa_loop B (k0 / 1024) sc n page num bitmap s = Ok (r, s') /\ as_ok s' A' /\ same_rest s s' /\
    ((r = num + mapped_count s k n /\ (sc = true -> mapped_count s k n = 0) /\ grows s s' /\ forall k', k <= k' < k + Z.of_nat n -> has_pt s' (k' / 1024) = true) \/
     ((r = ERROR_MALLOC_LIB \/ (sc = true /\ r = num + 1 /\ exists k', k <= k' < k + Z.of_nat n /\ mapped s k' = true)) /\ churn s s')).
Proof.
  induction n as [|n IH]; intros s A k page num bitmap Hok Hinv Hk Hkn Hpg; cbn [cpa_loop].
  { exists num, s, A. split; [done|]. split; [done|]. split; [apply same_rest_refl|]. left. split; [unfold mapped_count; simpl; lia|]. split; [done|].
    split; [apply grows_refl|]. lia. }
  destruct (Hpg ltac:(done)) as [-> HB]. destruct (page_indices k ltac:(lia)) as (_ & Epd & Ept).
  rewrite (bind_ok _ _ s (cr3 s) s eq_refl). cbv zeta. rewrite Epd, Ept.
  rewrite (bind_ok _ _ s (pde s (k / 1024)) s eq_refl). pose proof (pdi_range k ltac:(lia)) as Hpr.
  assert (Hnext : n <> 0%nat -> w32 (4096 * k + PAGE_SIZE) = 4096 * (k + 1) /\
    (k + 1 + Z.of_nat n - 1) / 1024 - k0 / 1024 < B).
  { intros Hn. rewrite page_step by lia. split; [done|].
    replace (k + 1 + Z.of_nat n - 1) with (k + Z.of_nat (S n) - 1) by lia. done. }
  assert (Hcont : forall s1 s' r num', as_ok s1 A \/ (exists a, as_ok s1 ({[a]} ∪ A)) -> same_rest s s1 -> same_rest s1 s' -> grows s s1 -> has_pt s1 (k / 1024) = true ->
    num' = num + (if mapped s k then 1 else 0) -> (mapped s k = true -> sc = false) ->
    ((r = num' + mapped_count s1 (k + 1) n /\ (sc = true -> mapped_count s1 (k + 1) n = 0) /\ grows s1 s' /\ forall k', k + 1 <= k' < k + 1 + Z.of_nat n -> has_pt s' (k' / 1024) = true) \/
     ((r = ERROR_MALLOC_LIB \/ (sc = true /\ r = num' + 1 /\ exists k', k + 1 <= k' < k + 1 + Z.of_nat n /\ mapped s1 k' = true)) /\ churn s1 s')) ->
    same_rest s s' /\
    ((r = num + mapped_count s k (S n) /\ (sc = true -> mapped_count s k (S n) = 0) /\ grows s s' /\ forall k', k <= k' < k + Z.of_nat (S n) -> has_pt s' (k' / 1024) = true) \/
     ((r = ERROR_MALLOC_LIB \/ (sc = true /\ r = num + 1 /\ exists k', k <= k' < k + Z.of_nat (S n) /\ mapped s k' = true)) /\ churn s s'))).
  { intros s1 s' r num' Hok1 Hr1 Hr2 Hg1 Hp1 -> Hsc Hres. split; [by eapply same_rest_trans|]. rewrite mapped_count_S.
    destruct Hres as [(-> & Hz & Hg & Hall)|[Hr Hc]]; [left|right].
    - rewrite (mapped_count_grows s s1) in * by (done || lia). split; [lia|]. split; [|split; [by eapply grows_trans|]].
      + intros E. rewrite Hz by done. destruct (mapped s k); [by specialize (Hsc eq_refl); congruence|done].
      + intros k' Hk'. destruct (Z.eq_dec k' k) as [->|]; [|apply Hall; lia].
        destruct Hok1 as [Hok1|[a Hok1]]; exact (grows_has_pt s1 s' _ _ Hok1 Hg Hpr Hp1).
    - split; [|by eapply churn_grows]. destruct Hr as [?|(Hst & -> & k' & ? & Hm)]; [by left|right]. split; [done|].
      destruct (mapped s k) eqn:E; [specialize (Hsc eq_refl); congruence|]. split; [lia|]. exists k'. split; [lia|]. by rewrite (grows_mapped s s1) in Hm by (done || lia). }
  destruct (IS_SET (pde s (k / 1024)) PG_P) eqn:Ep; fold (has_pt s (k / 1024)) in Ep.
  - rewrite (bind_ok _ _ s (mem s (pt_of s (k / 1024)) (k mod 1024)) s eq_refl).
    assert (Hm : mapped s k = IS_SET (mem s (pt_of s (k / 1024)) (k mod 1024)) PG_P).
    { unfold mapped, pte_at. by rewrite Ep. }
    pose proof (cpa_inv_step s s A k0 k B bitmap Hok Hinv Hk ltac:(lia) (grows_refl s) Ep) as Hinv'.
    destruct (IS_SET (mem s (pt_of s (k / 1024)) (k mod 1024)) PG_P) eqn:Em; [destruct sc eqn:Esc|].
    + destruct (cpa_inv_clear s A k0 k B bitmap Hok Hinv ltac:(lia) ltac:(lia)) as (s' & A' & R & Hok' & Hsh & Hsr).
      exists (num + 1), s', A'. rewrite (bind_ok _ _ _ _ _ R). split; [done|]. split; [done|]. split; [done|]. right.
      split; [right; split; [done|]; split; [done|]; exists k; split; [lia|done]|]. exists s. split; [apply grows_refl|done].
    + destruct (IH s A (k + 1) (w32 (4096 * k + PAGE_SIZE)) (num + 1) bitmap Hok Hinv' ltac:(lia) ltac:(lia) Hnext) as (r & s' & A' & R & Hok' & Hsr & Hres).
      exists r, s', A'. split; [done|]. split; [done|]. apply (Hcont s s' r (num + 1)); auto using same_rest_refl, grows_refl. by rewrite Hm.
    + destruct (IH s A (k + 1) (w32 (4096 * k + PAGE_SIZE)) num bitmap Hok Hinv' ltac:(lia) ltac:(lia) Hnext) as (r & s' & A' & R & Hok' & Hsr & Hres).
      exists r, s', A'. split; [done|]. split; [done|]. apply (Hcont s s' r num); auto using same_rest_refl, grows_refl; rewrite Hm; [lia|done].
  - destruct (kh_alloc_spec _ _ (as_heap _ _ Hok)) as (a & kh' & Ra & Ha).
    erewrite bind_ok by (eapply zoom_ok; exact Ra). destruct Ha as [[-> Ha]|(Har & Ham & Hni & Ha)].
    + rewrite Z.eqb_refl. set (s1 := with_kheap kh' s). assert (Hok1 : as_ok s1 A) by (destruct Hok; by split).
      assert (Hinv1 : cpa_inv s1 k0 k B bitmap) by (destruct Hinv; by split).
      destruct (cpa_inv_clear s1 A k0 k B bitmap Hok1 Hinv1 ltac:(lia) ltac:(lia)) as (s' & A' & R & Hok' & Hsh & Hsr).
      exists ERROR_MALLOC_LIB, s', A'. rewrite (bind_ok _ _ _ _ _ R). split; [done|]. split; [done|].
      split; [by apply (same_rest_trans s s1)|]. right. split; [by left|]. exists s1. split; [intros k' _; by left|done].
    + destruct (Z.eqb_spec a 0); [lia|].
      destruct (add_pt_ok s A (k / 1024) a kh' Hok Hpr Ep Hni Har Ham Ha) as (Hok1 & Hg1 & Hsr1 & Hh1).
      set (s1 := add_pt s (k / 1024) a kh') in *.
      assert (Hp1 : has_pt s1 (k / 1024) = true) by (rewrite Hh1 by done; by rewrite Z.eqb_refl).
      pose proof (cpa_inv_step s s1 A k0 k B bitmap Hok Hinv Hk ltac:(lia) Hg1 Hp1) as Hinv1.
      assert (Hd : 0 <= k / 1024 - k0 / 1024 < B).
      { pose proof (Z.div_le_mono k0 k 1024 ltac:(lia) ltac:(lia)).
        pose proof (Z.div_le_mono k (k + Z.of_nat (S n) - 1) 1024 ltac:(lia) ltac:(lia)). lia. }
      destruct (cpa_bytes _ _ _ _ _ Hinv1 ((k / 1024 - k0 / 1024) / 8)) as (b & Hb & _).
      { split; [apply Z.div_pos; lia|]. apply Z.div_lt_upper_bound; lia. }
      set (s0 := with_mem (mpage (mem s) a (fun _ => 0)) (with_kheap kh' s)).
      rewrite (bind_ok (memset0 a) _ (with_kheap kh' s) tt s0 eq_refl).
      rewrite (bind_ok (gets ctrl_bits_pde) _ s0 (ctrl_bits_pde s) s0 eq_refl), (bind_ok (wr _ _ _) _ s0 tt s1 eq_refl).
      rewrite Hb, (bind_ok _ _ s1 b s1 eq_refl).
      pose proof (cpa_inv_set s1 k0 k B bitmap b Hinv1 Hk ltac:(lia) Hd Hb) as Hinv2.
      destruct (IH s1 _ (k + 1) (w32 (4096 * k + PAGE_SIZE)) num _ Hok1 Hinv2 ltac:(lia) ltac:(lia) Hnext)
        as (r & s' & A' & R & Hok' & Hsr & Hres).
      exists r, s', A'. split; [done|]. split; [done|].
      assert (Hmk : mapped s k = false) by (unfold mapped, pte_at; by rewrite Ep).
      apply (Hcont s1 s' r num); try done; [right; by exists a|rewrite Hmk; lia|by rewrite Hmk].
Qed.

(** ** Mapping zero-fill-on-demand pages *)

(** The entry [new_pages] gives to page number [k] of a region [k0 .. k1]. *)
Definition zfod_entry s (k0 k1 k : Z) : Z :=
  Z.lor (all_zero_frame s) (region_bits (4096 * k0) (4096 * k1) true true true 67 (4096 * k)).

Lemma page_eqb a b : (4096 * a =? 4096 * b) = (a =? b).
Proof. destruct (Z.eqb_spec a b); destruct (Z.eqb_spec (4096 * a) (4096 * b)); lia. Qed.

Lemma region_bits_zfod k0 k1 k :
  let b := region_bits (4096 * k0) (4096 * k1) true true true 67 (4096 * k) in
  0 <= b < 4096 /\ IS_SET b PG_P = true /\ IS_SET b PG_US = true /\ IS_SET b PG_RW = false /\
  IS_SET b PG_ZFOD = true /\ IS_SET b PG_NEW_PAGES_START = (k =? k0) /\ IS_SET b PG_NEW_PAGES_END = (k =? k1).
Proof. unfold region_bits. rewrite !page_eqb. destruct (k =? k0), (k =? k1); vm_compute; repeat split; congruence. Qed.

Lemma zero_aligned s A : as_ok s A -> aligned (all_zero_frame s).
Proof. intros Hok. destruct (as_zero _ _ Hok) as (Hz & _). destruct (as_pages _ _ Hok _ Hz). split; [lia|done]. Qed.

Lemma zfod_entry_ok s A k0 k1 k : as_ok s A ->
  let e := zfod_entry s k0 k1 k in
  align e = all_zero_frame s /\ IS_SET e PG_P = true /\ IS_SET e PG_US = true /\ IS_SET e PG_RW = false /\
  IS_SET e PG_ZFOD = true /\ IS_SET e PG_NEW_PAGES_START = (k =? k0) /\ IS_SET e PG_NEW_PAGES_END = (k =? k1).
Proof.
  intros Hok e. pose proof (zero_aligned _ _ Hok) as Hz. destruct (region_bits_zfod k0 k1 k) as (Hr & Hb).
  unfold e, zfod_entry. rewrite entry_align by done.
  rewrite !entry_bit by (try done; unfold PG_P, PG_US, PG_RW, PG_ZFOD, PG_NEW_PAGES_START, PG_NEW_PAGES_END; lia). done.
Qed.

Lemma map_zfod_ok k0 k1 (n : nat) : forall s A k page,
  as_ok s A -> 0 <= k -> k + Z.of_nat n <= 2 ^ 20 -> (n <> 0%nat -> page = 4096 * k) ->
  (forall k', k <= k' < k + Z.of_nat n -> has_pt s (k' / 1024) = true /\ mapped s k' = false) ->
  exists s', map_loop (4096 * k0) (4096 * k1) true true true n page s = Ok (tt, s') /\ as_ok s' A /\ same_rest s s' /\
    forall k', 0 <= k' < 2 ^ 20 -> pte_at s' k' =
      if (k <=? k') && (k' <? k + Z.of_nat n) then Some (zfod_entry s k0 k1 k') else pte_at s k'.
Proof.
  induction n as [|n IH]; intros s A k page Hok Hk Hkn Hpg Hall; cbn [map_loop].
  { exists s. split; [done|]. split; [done|]. split; [apply same_rest_refl|]. intros k' _.
    destruct (Z.leb_spec k k'), (Z.ltb_spec k' (k + Z.of_nat 0)); (done || lia). }
  rewrite (Hpg ltac:(done)). destruct (page_indices k ltac:(lia)) as (_ & Epd & Ept).
  destruct (Hall k ltac:(lia)) as [Hp Hm]. set (e := mem s (pt_of s (k / 1024)) (k mod 1024)).
  rewrite (bind_ok _ _ s (cr3 s) s eq_refl). rewrite Epd, Ept.
  rewrite (bind_ok _ _ s (pde s (k / 1024)) s eq_refl). fold (has_pt s (k / 1024)). rewrite Hp. cbn [negb]. cbv zeta.
  fold (pt_of s (k / 1024)). rewrite (bind_ok _ _ s e s eq_refl).
  assert (He : IS_SET e PG_P = false) by (revert Hm; unfold mapped, pte_at; by rewrite Hp). rewrite He. cbn [negb].
  set (v := zfod_entry s k0 k1 k). set (s1 := write_pte s k v).
  assert (R1 : (bits ← gets ctrl_bits_pte; (let pte_ctrl_bits := region_bits (4096 * k0) (4096 * k1) true true true bits (4096 * k) in
      new_f ← gets all_zero_frame; wr (pt_of s (k / 1024)) (k mod 1024) (Z.lor new_f pte_ctrl_bits);; mret tt)) s = Ok (tt, s1)).
  { unfold s1, v, write_pte, zfod_entry. munfold. unfold gets, wr, modify. by rewrite (proj2 (as_bits _ _ Hok)). }
  rewrite (bind_ok _ _ _ _ _ R1).
  pose proof (write_pte_ok s A k v Hok ltac:(lia) Hp) as Hok1.
  pose proof (fun k' Hk' => write_pte_at s A k v k' Hok ltac:(lia) Hk' Hp) as Hat. fold s1 in Hok1, Hat.
  assert (Hh1 : forall i, has_pt s1 i = has_pt s i) by (intros i; unfold has_pt, s1; by rewrite (write_pte_pde s A k v i Hok ltac:(lia) Hp)).
  destruct (IH s1 A (k + 1) (w32 (4096 * k + PAGE_SIZE)) Hok1 ltac:(lia) ltac:(lia)) as (s' & R & Hok' & Hsr & Hres).
  - intros Hn. apply page_step; lia.
  - intros k' Hk'. destruct (Hall k' ltac:(lia)). rewrite Hh1. split; [done|]. unfold mapped. rewrite Hat by lia.
    destruct (Z.eqb_spec k' k); [lia|done].
  - exists s'. split; [done|]. split; [done|]. split; [apply (same_rest_trans s s1); [by apply (pte_write_kept s A k v Hok ltac:(lia) Hp)|done]|]. intros k' Hk'. rewrite Hres, Hat by done.
    change (zfod_entry s1) with (zfod_entry s). unfold v.
    destruct (Z.leb_spec (k + 1) k'), (Z.ltb_spec k' (k + 1 + Z.of_nat n)), (Z.leb_spec k k'),
      (Z.ltb_spec k' (k + Z.of_nat (S n))), (Z.eqb_spec k' k); subst; simpl; try done; lia.
Qed.

(** ** [new_pages] *)

Lemma region_arith k0 N : 0 <= k0 -> 0 < N -> k0 + N <= 2 ^ 20 ->
  align (4096 * k0) = 4096 * k0 /\ page_highest (4096 * k0) (4096 * N) = 4096 * (k0 + N - 1) /\
  page_count (4096 * k0) (4096 * N) = N.
Proof.
  intros Hk HN HkN. destruct (page_indices k0 ltac:(lia)) as (E0 & _ & _). split; [done|].
  assert (Eh : page_highest (4096 * k0) (4096 * N) = 4096 * (k0 + N - 1)).
  { unfold page_highest. assert (w32 (4096 * k0 + w32 (4096 * N) - 1) = 4096 * (k0 + N) - 1) as ->.
    { destruct (Z.eq_dec N (2 ^ 20)) as [->|].
      - assert (k0 = 0) as -> by lia. done.
      - rewrite (w32_small (4096 * N)), w32_small; lia. }
    rewrite align_div by lia. f_equal. symmetry. apply (Z.div_unique _ _ _ 4095); lia. }
  split; [done|]. unfold page_count. rewrite Eh, E0. rewrite w32_small by lia. unfold PAGE_SIZE.
  replace (4096 * (k0 + N - 1) - 4096 * k0) with ((N - 1) * 4096) by lia. rewrite Z.div_mul; lia.
Qed.

(** The locks of the running task are free. *)
Definition locks_free s : Prop :=
  exists locks, task s = Some locks /\ forall i, 0 <= i < 64 -> locks !! i = Some free_lock.

Lemma cpa_init s k0 N : 0 <= k0 -> 0 < N -> k0 + N <= 2 ^ 20 ->
  cpa_inv s k0 k0 ((k0 + N - 1) / 1024 - k0 / 1024 + 1) (zeros ((k0 + N - 1) / 1024 - k0 / 1024 + 1)).
Proof.
  intros. split; [lia|]. intros j Hj. exists 0. split; [by apply zeros_lookup|done].
Qed.

Lemma as_ok_task s A t ts : as_ok s A -> as_ok (with_task t ts s) A.
Proof. intros []. by split. Qed.

Lemma as_ok_pool s A p : as_ok s A -> as_ok (with_pool p s) A.
Proof. intros []. by split. Qed.

Lemma lock_span k0 N : 0 <= k0 -> 0 < N -> k0 + N <= 2 ^ 20 ->
  0 <= k0 / 1024 / 16 <= (k0 + N - 1) / 1024 / 16 /\ (k0 + N - 1) / 1024 / 16 < 64.
Proof.
  intros. split; [split|].
  - apply Z.div_pos; [apply Z.div_pos; lia|lia].
  - apply Z.div_le_mono; [lia|]. apply Z.div_le_mono; lia.
  - apply Z.div_lt_upper_bound; [lia|]. apply Z.div_lt_upper_bound; lia.
Qed.

(** Outcomes of [new_pages] on the region [k0 .. k0+N-1]. *)
Inductive new_pages_result s s' (F : gset Z) (left k0 N : Z) : Z -> Prop :=
| np_ok : (forall k, k0 <= k < k0 + N -> mapped s k = false) -> N <= left ->
    (forall k, k0 <= k < k0 + N -> pte_at s' k = Some (zfod_entry s k0 (k0 + N - 1) k)) ->
    (forall k, 0 <= k < 2 ^ 20 -> ~ k0 <= k < k0 + N ->
       pte_at s' k = pte_at s k \/ (pte_at s k = None /\ pte_at s' k = Some 0)) ->
    fp_rep (pool s') F (left - N) -> new_pages_result s s' F left k0 N 0
| np_no_frames : left < N -> grows s s' -> fp_rep (pool s') F left ->
    new_pages_result s s' F left k0 N ERROR_NOT_ENOUGH_MEM
| np_overlap k : k0 <= k < k0 + N -> mapped s k = true -> churn s s' -> fp_rep (pool s') F left ->
    new_pages_result s s' F left k0 N ERROR_OVERLAP
| np_no_tables : churn s s' -> fp_rep (pool s') F left -> new_pages_result s s' F left k0 N ERROR_MALLOC_LIB.

Lemma new_region_syscall s A F left k0 N :
  as_ok s A -> fp_rep (pool s) F left -> locks_free s -> 0 <= k0 -> 0 < N < 2 ^ 19 -> k0 + N <= 2 ^ 20 ->
  exists r s' A', new_region me (4096 * k0) (4096 * N) true true true s = Ok (r, s') /\ as_ok s' A' /\
    task s' = task s /\ vtst s' = vtst s /\ new_pages_result s s' F left k0 N r.
Proof.
  intros Hok HF (locks & Ht & Hl) Hk HN HkN. destruct (region_arith k0 N Hk ltac:(lia) HkN) as (E0 & Eh & Ec).
  destruct (page_indices k0 ltac:(lia)) as (_ & Epd0 & _). destruct (page_indices (k0 + N - 1) ltac:(lia)) as (_ & Epd1 & _).
  destruct (lock_span k0 N Hk ltac:(lia) HkN) as [Hls Hls'].
  set (lo := k0 / 1024 / 16) in *. set (hi := (k0 + N - 1) / 1024 / 16) in *. set (nl := Z.to_nat (hi - lo + 1)).
  assert (Hfree : forall j, lo <= j < lo + Z.of_nat nl -> locks !! j = Some free_lock) by (intros; apply Hl; lia).
  set (s1 := with_task (Some (set_range held_lock locks lo nl)) (vtst s) s).
  destruct (cpa_ok true k0 _ (Z.to_nat N) s1 A k0 (4096 * k0) 0 _ (as_ok_task s A _ _ Hok)
    (cpa_init s1 k0 N Hk ltac:(lia) HkN) ltac:(lia) ltac:(lia)) as (r & s2 & A2 & R2 & Hok2 & Hsr2 & Hres2).
  { intros _. split; [done|]. rewrite Z2Nat.id by lia. lia. }
  assert (Hsr2' : task s2 = task s1 /\ vtst s2 = vtst s /\ pool s2 = pool s) by (unfold same_rest in Hsr2; by destruct_and!).
  destruct Hsr2' as (Et2 & Ev2 & Ep2).
  unfold new_region, NUM_PT_PER_LOCK, count_pages_allocated. cbv zeta. rewrite E0, Eh, Ec, Epd0, Epd1. fold lo hi nl.
  assert (R1 : (need_task;; lock_range me nl lo) s = Ok (tt, s1)).
  { unfold need_task. munfold. rewrite Ht. by apply lock_range_ok. }
  rewrite (bind_ok _ _ _ _ _ R1). rewrite Z.div_1_r, Z.sub_add || rewrite Z.div_1_r.
  assert (Eb : (k0 + N - 1) / 1024 - k0 / 1024 + 1 - 1 + 1 = (k0 + N - 1) / 1024 - k0 / 1024 + 1) by lia.
  rewrite ?Eb. rewrite (bind_ok _ _ _ _ _ R2).
  assert (Hunlock : forall s3, task s3 = task s2 -> vtst s3 = vtst s2 ->
    unlock_range nl hi s3 = Ok (tt, with_task (Some locks) (vtst s) s3)).
  { intros s3 E3 E3'. replace hi with (lo + Z.of_nat nl - 1) by lia. apply unlock_after; [done| |congruence]. by rewrite E3, Et2. }
  assert (HF2 : fp_rep (pool s2) F left) by (by rewrite Ep2).
  destruct Hres2 as [(-> & Hz0 & Hg & Hall0)|[Hr Hc]].
  - specialize (Hz0 eq_refl). pose proof (fun k' Hk' => conj (Hall0 k' Hk') (mapped_count_zero s1 _ _ Hz0 k' Hk')) as Hall. rewrite Hz0. change (0 + 0) with 0.
    cbn [Z.ltb Z.compare andb]. rewrite Z.sub_0_r, Z2Nat.id in * by lia.
    destruct (fp_reserve_spec (pool s2) F left N HF2 ltac:(lia)) as (p & Hres). case_decide as Hd; destruct Hres as [Rr HF3].
    + erewrite bind_ok by (eapply zoom_ok; exact Rr). cbn [Z.eqb].
      destruct (map_zfod_ok k0 (k0 + N - 1) (Z.to_nat N) (with_pool p s2) A2 k0 (4096 * k0) (as_ok_pool _ _ p Hok2) Hk
        ltac:(lia) ltac:(done)) as (s4 & R4 & Hok4 & Hsr4 & Hat).
      { intros k' Hk'. destruct (Hall k' ltac:(lia)) as [? Hm]. split; [done|].
        change (mapped s2 k' = false). by rewrite (grows_mapped s1 s2) by (done || lia). }
      assert (Hsr4' : task s4 = task s2 /\ vtst s4 = vtst s2 /\ pool s4 = p) by (unfold same_rest in Hsr4; by destruct_and!).
      destruct Hsr4' as (Et4 & Ev4 & Ep4). rewrite (bind_ok _ _ _ _ _ R4), (bind_ok _ _ _ _ _ (Hunlock s4 Et4 Ev4)).
      eexists 0, _, A2. split; [done|]. split; [by apply as_ok_task|]. split; [done|]. split; [done|].
      assert (Hz : forall x y z, zfod_entry (with_pool p s2) x y z = zfod_entry s x y z).
      { intros. unfold zfod_entry. simpl. by rewrite (proj1 (proj2 (proj1 Hsr2))). }
      apply np_ok; [intros k Hkr; apply (Hall k Hkr)|done| | |by rewrite <- Ep4 in HF3].
      * intros k Hkr. change (pte_at s4 k = Some (zfod_entry s k0 (k0 + N - 1) k)). rewrite Hat, Z2Nat.id by lia.
        destruct (Z.leb_spec k0 k), (Z.ltb_spec k (k0 + N)); try lia. simpl. by rewrite Hz.
      * intros k Hkr Hout. change (pte_at s4 k = pte_at s1 k \/ (pte_at s1 k = None /\ pte_at s4 k = Some 0)).
        rewrite Hat, Z2Nat.id by lia. destruct (Z.leb_spec k0 k), (Z.ltb_spec k (k0 + N)); try lia; simpl; by apply Hg.
    + erewrite bind_ok by (eapply zoom_ok; exact Rr). cbn [Z.eqb Pos.eqb].
      rewrite (bind_ok _ _ _ _ _ (Hunlock (with_pool p s2) eq_refl eq_refl)).
      eexists _, _, A2. split; [done|]. split; [by apply as_ok_task, as_ok_pool|]. split; [done|]. split; [done|].
      apply np_no_frames; [lia|done|done].
  - destruct Hr as [->|(_ & Er & k' & Hk' & Hm)]; [|change (0 + 1) with 1 in Er; subst r]; cbn [Z.ltb Z.compare andb ERROR_MALLOC_LIB];
      eexists _, (with_task (Some locks) (vtst s) s2), A2;
      rewrite (bind_ok _ _ _ _ _ (Hunlock s2 eq_refl eq_refl)); (split; [done|]); (split; [by apply as_ok_task|]);
      (split; [done|]); (split; [done|]).
    + by apply np_no_tables.
    + rewrite Z2Nat.id in Hk' by lia. by apply (np_overlap _ _ _ _ _ _ k').
Qed.

(** ** [remove_pages] *)

(** The locks while [remove_region] holds lock [idx] (-1: none). *)
Definition holding (locks : gmap Z Mutex.mutex_t) (idx : Z) : gmap Z Mutex.mutex_t :=
  if idx =? -1 then locks else <[idx := held_lock]> locks.

Lemma move_lock s locks idx cur :
  (forall i, 0 <= i < 64 -> locks !! i = Some free_lock) -> task s = Some (holding locks idx) ->
  idx = -1 \/ 0 <= idx < 64 -> 0 <= cur < 64 ->
  (if negb (cur =? idx) then (if negb (idx =? -1) then pt_unlock idx else mret tt);; pt_lock me cur else mret tt) s
    = Ok (tt, with_task (Some (holding locks cur)) (vtst s) s).
Proof.
  intros Hl Ht Hi Hc. destruct (Z.eqb_spec cur idx) as [->|Hne]; cbn [negb].
  { unfold mret, M_ret. by rewrite with_task_id. }
  assert (Hcur : holding locks cur = <[cur := held_lock]> locks) by (unfold holding; destruct (Z.eqb_spec cur (-1)); [lia|done]).
  rewrite Hcur. destruct (Z.eqb_spec idx (-1)) as [->|Hidx]; cbn [negb].
  - rewrite (bind_ok _ _ s tt s eq_refl). apply pt_lock_ok; [done|by apply Hl].
  - assert (Hh : holding locks idx = <[idx := held_lock]> locks) by (unfold holding; by destruct (Z.eqb_spec idx (-1))).
    rewrite Hh in Ht. rewrite (bind_ok _ _ _ _ _ (pt_unlock_ok s _ idx Ht (lookup_insert_eq _ _ _))).
    erewrite pt_lock_ok; [|done|].
    + rewrite with_task_twice. simpl vtst. rewrite insert_insert_eq, (insert_id locks idx); [done|apply Hl; lia].
    + rewrite lookup_insert_ne by done. rewrite lookup_insert_ne by done. by apply Hl.
Qed.

Lemma holding_done s locks idx :
  (forall i, 0 <= i < 64 -> locks !! i = Some free_lock) -> task s = Some (holding locks idx) -> 0 <= idx < 64 ->
  pt_unlock idx s = Ok (tt, with_task (Some locks) (vtst s) s).
Proof.
  intros Hl Ht Hi. unfold holding in Ht. destruct (Z.eqb_spec idx (-1)); [lia|].
  erewrite pt_unlock_ok; [|done|apply lookup_insert_eq]. by rewrite insert_insert_eq, insert_id by (apply Hl; lia).
Qed.

(** Bookkeeping over a region with entries [e k .. e (k+n-1)]: how many are
    still zero-fill, and which frames the others own. *)
Fixpoint zfod_count (e : Z -> Z) (k : Z) (n : nat) : Z :=
  match n with O => 0 | S n => (if IS_SET (e k) PG_ZFOD then 1 else 0) + zfod_count e (k + 1) n end.
Fixpoint owned (e : Z -> Z) (k : Z) (n : nat) : gset Z :=
  match n with
  | O => ∅
  | S n => (if IS_SET (e k) PG_ZFOD then ∅ else {[align (e k)]}) ∪ owned e (k + 1) n
  end.

(** Pages [k .. k+n-1] are present with entries [e], the last one carrying the
    end mark, and own different frames. *)
Record region_ok s (F : gset Z) (e : Z -> Z) (k : Z) (n : nat) : Prop := {
  ro_entry : forall j, k <= j < k + Z.of_nat n -> pte_at s j = Some (e j) /\ IS_SET (e j) PG_P = true;
  ro_end : forall j, k <= j < k + Z.of_nat n -> IS_SET (e j) PG_NEW_PAGES_END = (j =? k + Z.of_nat n - 1);
  ro_frame : forall j, k <= j < k + Z.of_nat n -> IS_SET (e j) PG_ZFOD = false ->
    fp_frame (align (e j)) /\ align (e j) ∉ F;
  ro_inj : forall i j, k <= i < k + Z.of_nat n -> k <= j < k + Z.of_nat n ->
    IS_SET (e i) PG_ZFOD = false -> IS_SET (e j) PG_ZFOD = false -> align (e i) = align (e j) -> i = j
}.

(** Freeing what the first page owns. *)
Lemma release_page s F left e k (n : nat) :
  fp_rep (pool s) F left -> region_ok s F e k (S n) -> left + zfod_count e k (S n) <= Z.of_nat (size F) ->
  exists p F', ((if negb (IS_SET (e k) PG_ZFOD) then free_frame (align (e k)) else mret tt);; unreserve 1) s
      = Ok (tt, with_pool p s) /\ fp_rep p F' (left + 1) /\
    F' = (if IS_SET (e k) PG_ZFOD then ∅ else {[align (e k)]}) ∪ F /\
    left + 1 + zfod_count e (k + 1) n <= Z.of_nat (size F').
Proof.
  intros HF Hro Hz. cbn [zfod_count] in Hz. assert (0 <= zfod_count e (k + 1) n).
  { clear. generalize (k + 1). induction n as [|n IH]; intros j; cbn [zfod_count]; [lia|]. specialize (IH (j + 1)). destruct (IS_SET (e j) PG_ZFOD); lia. }
  destruct (IS_SET (e k) PG_ZFOD) eqn:E; cbn [negb].
  - destruct (fp_unreserve_spec (pool s) F left 1 HF ltac:(lia) ltac:(lia)) as (p & R & Hp).
    exists p, (∅ ∪ F). rewrite (bind_ok _ _ s tt s eq_refl). split; [by apply zoom_ok|].
    rewrite (left_id_L ∅ (∪) F). split; [done|]. split; [done|]. lia.
  - destruct (ro_frame _ _ _ _ _ Hro k ltac:(lia) E) as [Hf Hni].
    destruct (fp_free_spec (pool s) F left _ HF Hf Hni) as (p1 & R1 & Hp1).
    pose proof (Pm.size_add F _ Hni) as Hsz.
    destruct (fp_unreserve_spec p1 _ left 1 Hp1 ltac:(lia) ltac:(lia)) as (p & R & Hp).
    exists p, ({[align (e k)]} ∪ F). erewrite bind_ok by (eapply zoom_ok; exact R1).
    split; [by eapply (zoom_ok pool with_pool _ (with_pool p1 s))|]. split; [done|]. split; [done|]. lia.
Qed.

(** One turn of the loop of [remove_region]. *)
Lemma remove_turn locks s A F left e k idx (first : bool) (fuel n : nat) :
  let cur := k / 1024 / NUM_PT_PER_LOCK in
  as_ok s A -> fp_rep (pool s) F left -> (forall i, 0 <= i < 64 -> locks !! i = Some free_lock) ->
  task s = Some (holding locks idx) -> idx = -1 \/ 0 <= idx < 64 -> 0 <= k -> k < 2 ^ 20 ->
  region_ok s F e k (S n) -> (first = true -> IS_SET (e k) PG_NEW_PAGES_START = true) ->
  left + zfod_count e k (S n) <= Z.of_nat (size F) ->
  exists s' F', 0 <= cur < 64 /\
    remove_loop me (S fuel) (4096 * k) idx first s =
      (if IS_SET (e k) PG_NEW_PAGES_END then pt_unlock cur;; mret 0
       else remove_loop me fuel (w32 (4096 * k + PAGE_SIZE)) cur false) s' /\
    as_ok s' A /\ task s' = Some (holding locks cur) /\ vtst s' = vtst s /\ fp_rep (pool s') F' (left + 1) /\
    F' = (if IS_SET (e k) PG_ZFOD then ∅ else {[align (e k)]}) ∪ F /\
    left + 1 + zfod_count e (k + 1) n <= Z.of_nat (size F') /\
    forall j, 0 <= j < 2 ^ 20 -> pte_at s' j = if j =? k then Some 0 else pte_at s j.
Proof.
  intros cur Hok HF Hl Ht Hi Hk Hk2 Hro Hfirst Hz. destruct (page_indices k ltac:(lia)) as (_ & Epd & Ept).
  assert (Hcur : 0 <= cur < 64).
  { unfold cur, NUM_PT_PER_LOCK. pose proof (pdi_range k ltac:(lia)). split; [apply Z.div_pos; lia|apply Z.div_lt_upper_bound; lia]. }
  destruct (ro_entry _ _ _ _ _ Hro k ltac:(lia)) as [Hat HP].
  assert (Hp : has_pt s (k / 1024) = true) by (unfold pte_at in Hat; by destruct (has_pt s (k / 1024))).
  assert (He : mem s (pt_of s (k / 1024)) (k mod 1024) = e k) by (unfold pte_at in Hat; rewrite Hp in Hat; congruence).
  destruct (release_page s F left e k n HF Hro Hz) as (p & F' & Rr & HF' & EF' & Hz').
  set (s1 := with_task (Some (holding locks cur)) (vtst s) s).
  exists (write_pte (with_pool p s1) k 0), F'. split; [done|].
  assert (Hok1 : as_ok (with_pool p s1) A) by (by apply as_ok_pool, as_ok_task).
  split.
  - cbn [remove_loop]. rewrite (bind_ok _ _ s (cr3 s) s eq_refl). cbv zeta. rewrite Epd, Ept. fold cur.
    rewrite (bind_ok _ _ _ _ _ (move_lock s locks idx cur Hl Ht Hi Hcur)). fold s1.
    rewrite (bind_ok _ _ s1 (pde s (k / 1024)) s1 eq_refl). fold (has_pt s (k / 1024)) (pt_of s (k / 1024)). rewrite Hp. cbn [negb].
    rewrite (bind_ok _ _ s1 (e k) s1) by (unfold rd, gets; simpl; by rewrite He). rewrite HP. cbn [negb].
    assert (Hst : first && negb (IS_SET (e k) PG_NEW_PAGES_START) = false) by (destruct first; [rewrite Hfirst by done|]; done).
    rewrite Hst. apply bind_inv in Rr as ([] & m1 & Ra & Rb).
    assert (Ra' : (if negb (IS_SET (e k) PG_ZFOD) then free_frame (align (e k)) else mret tt) s1 =
      Ok (tt, with_task (Some (holding locks cur)) (vtst s) m1)).
    { revert Ra. destruct (negb (IS_SET (e k) PG_ZFOD)); [|by intros [= <-]]. unfold free_frame, zoom. simpl.
      destruct (fp_free (align (e k)) (pool s)) as [[[] p']| | | |]; try discriminate. by intros [= <-]. }
    assert (Rb' : unreserve 1 (with_task (Some (holding locks cur)) (vtst s) m1) = Ok (tt, with_pool p s1)).
    { revert Rb. unfold unreserve, zoom. simpl. destruct (fp_unreserve 1 (pool m1)) as [[[] p']| | | |]; try discriminate.
      intros E. assert (E' : with_pool p' m1 = with_pool p s) by congruence. unfold s1.
      change (Ok (tt, with_task (Some (holding locks cur)) (vtst s) (with_pool p' m1)) =
              Ok (tt, with_task (Some (holding locks cur)) (vtst s) (with_pool p s))). by rewrite E'. }
    rewrite (bind_ok _ _ _ _ _ Ra'), (bind_ok _ _ _ _ _ Rb').
    rewrite (bind_ok _ _ (with_pool p s1) (e k) (with_pool p s1)) by (unfold rd, gets; simpl; by rewrite He).
    by rewrite (bind_ok (wr _ _ _) _ (with_pool p s1) tt (write_pte (with_pool p s1) k 0) eq_refl).
  - split; [apply write_pte_ok; (done || lia)|]. split; [done|]. split; [done|]. split; [done|]. split; [done|]. split; [done|].
    intros j Hj. by rewrite (write_pte_at _ A) by (done || lia).
Qed.

Lemma remove_loop_ok locks (n : nat) : forall s A F left e k idx (first : bool) (fuel : nat),
  as_ok s A -> fp_rep (pool s) F left -> (forall i, 0 <= i < 64 -> locks !! i = Some free_lock) ->
  task s = Some (holding locks idx) -> idx = -1 \/ 0 <= idx < 64 ->
  0 <= k -> k + Z.of_nat (S n) <= 2 ^ 20 -> (S n <= fuel)%nat ->
  region_ok s F e k (S n) -> (first = true -> IS_SET (e k) PG_NEW_PAGES_START = true) ->
  left + zfod_count e k (S n) <= Z.of_nat (size F) ->
  exists s', remove_loop me fuel (4096 * k) idx first s = Ok (0, s') /\ as_ok s' A /\ task s' = Some locks /\ vtst s' = vtst s /\
    fp_rep (pool s') (owned e k (S n) ∪ F) (left + Z.of_nat (S n)) /\
    forall j, 0 <= j < 2 ^ 20 -> pte_at s' j = if (k <=? j) && (j <? k + Z.of_nat (S n)) then Some 0 else pte_at s j.
Proof.
  induction n as [|n IH]; intros s A F left e k idx first fuel Hok HF Hl Ht Hi Hk Hkn Hfu Hro Hfirst Hz;
    (destruct fuel as [|fuel]; [lia|]);
    destruct (remove_turn locks s A F left e k idx first fuel _ Hok HF Hl Ht Hi Hk ltac:(lia) Hro Hfirst Hz)
      as (s1 & F1 & Hcur & R1 & Hok1 & Ht1 & Hv1 & HF1 & EF1 & Hz1 & Hat1);
    rewrite R1, (ro_end _ _ _ _ _ Hro k ltac:(lia)).
  - destruct (Z.eqb_spec k (k + Z.of_nat 1 - 1)); [|lia].
    rewrite (bind_ok _ _ _ _ _ (holding_done s1 locks _ Hl Ht1 Hcur)). eexists. split; [done|].
    split; [by apply as_ok_task|]. split; [done|]. split; [done|]. split.
    + cbn [owned]. rewrite (right_id_L ∅ (∪)). simpl pool. rewrite <- EF1. done.
    + intros j Hj. change (pte_at s1 j = if (k <=? j) && (j <? k + Z.of_nat 1) then Some 0 else pte_at s j).
      rewrite Hat1 by done.
      destruct (Z.leb_spec k j), (Z.ltb_spec j (k + Z.of_nat 1)), (Z.eqb_spec j k); simpl; (done || lia).
  - destruct (Z.eqb_spec k (k + Z.of_nat (S (S n)) - 1)); [lia|]. rewrite page_step by lia.
    destruct (IH s1 A F1 (left + 1) e (k + 1) (k / 1024 / NUM_PT_PER_LOCK) false fuel Hok1 HF1 Hl Ht1 ltac:(by right)
      ltac:(lia) ltac:(lia) ltac:(lia)) as (s' & R & Hok' & Ht' & Hv' & HF' & Hat'); [|done|done|].
    { split.
      - intros j Hj. destruct (ro_entry _ _ _ _ _ Hro j ltac:(lia)). rewrite Hat1 by lia. destruct (Z.eqb_spec j k); [lia|done].
      - intros j Hj. rewrite (ro_end _ _ _ _ _ Hro j ltac:(lia)). do 2 f_equal; lia.
      - intros j Hj Ez. destruct (ro_frame _ _ _ _ _ Hro j ltac:(lia) Ez) as [Hf Hni]. split; [done|].
        rewrite EF1, elem_of_union. intros [Hin|]; [|done]. destruct (IS_SET (e k) PG_ZFOD) eqn:Ek; [by apply elem_of_empty in Hin|].
        apply elem_of_singleton in Hin. pose proof (ro_inj _ _ _ _ _ Hro j k ltac:(lia) ltac:(lia) Ez Ek Hin). lia.
      - intros i j Hi' Hj'. apply (ro_inj _ _ _ _ _ Hro); lia. }
    exists s'. split; [done|]. split; [done|]. split; [done|]. split; [congruence|]. split.
    + replace (left + Z.of_nat (S (S n))) with (left + 1 + Z.of_nat (S n)) by lia.
      replace (owned e k (S (S n)) ∪ F) with (owned e (k + 1) (S n) ∪ F1); [done|]. rewrite EF1.
      change (owned e k (S (S n))) with ((if IS_SET (e k) PG_ZFOD then ∅ else {[align (e k)]}) ∪ owned e (k + 1) (S n)).
      generalize (owned e (k + 1) (S n)) as X. generalize (if IS_SET (e k) PG_ZFOD then ∅ else {[align (e k)]} : gset Z) as Y.
      intros Y X. rewrite (assoc_L (∪)), (comm_L (∪) X Y). done.
    + intros j Hj. rewrite Hat', Hat1 by done.
      destruct (Z.leb_spec (k + 1) j), (Z.ltb_spec j (k + 1 + Z.of_nat (S n))), (Z.leb_spec k j),
        (Z.ltb_spec j (k + Z.of_nat (S (S n)))), (Z.eqb_spec j k); simpl; (done || lia).
Qed.

(** ** Zero-fill on demand *)

Lemma walk_pte s k : 0 <= k < 2 ^ 20 ->
  walk s (4096 * k) = match pte_at s k with Some e => if IS_SET e PG_P then Some (align e) else None | None => None end.
Proof.
  intros Hk. destruct (page_indices k Hk) as (_ & Epd & Ept). unfold walk, pte_at, has_pt, pt_of, pde. rewrite Epd, Ept.
  by destruct (IS_SET (mem s (cr3 s) (k / 1024)) PG_P).
Qed.

Lemma low_bits x : 0 <= Z.land x 4095 < 4096.
Proof. change 4095 with (Z.ones 12). rewrite Z.land_ones by lia. apply Z.mod_pos_bound. lia. Qed.

Lemma low_bits_is x n : 0 <= n < 12 -> IS_SET (Z.land x 4095) n = IS_SET x n.
Proof.
  intros Hn. unfold IS_SET. rewrite Z.land_spec. change 4095 with (Z.ones 12). rewrite Z.ones_spec_low by lia. apply andb_true_r.
Qed.

(** The entry of a page that has just been given frame [f]. *)
Definition private_entry (f e : Z) : Z := Z.lor f (Z.land (set_bit (clr_bit e PG_ZFOD) PG_RW) 4095).

Lemma private_entry_ok f e : aligned f ->
  align (private_entry f e) = f /\
  forall n, 0 <= n < 12 -> IS_SET (private_entry f e) n = (IS_SET e n && negb (n =? PG_ZFOD)) || (n =? PG_RW).
Proof.
  intros Hf. unfold private_entry. split; [apply entry_align; [done|apply low_bits]|].
  intros n Hn. rewrite entry_bit, low_bits_is, set_bit_is, clr_bit_is by (done || unfold PG_RW, PG_ZFOD; lia). done.
Qed.

(** The state after a successful zero fill: the entry is written twice, then
    the frame is cleared. *)
Definition zfod_filled s (p : P) (k f e : Z) : state :=
  let pt := pt_of s (k / 1024) in
  let m := mset (mem s) pt (k mod 1024) (set_bit (clr_bit e PG_ZFOD) PG_RW) in
  with_mem (mpage (mset m pt (k mod 1024) (private_entry f e)) f (fun _ => 0)) (with_pool p s).

Lemma two_writes s A p k v1 v2 : as_ok s A -> 0 <= k < 2 ^ 20 -> has_pt s (k / 1024) = true ->
  let pt := pt_of s (k / 1024) in
  with_mem (mset (mset (mem s) pt (k mod 1024) v1) pt (k mod 1024) v2) (with_pool p s) =
  write_pte (with_pool p (write_pte s k v1)) k v2.
Proof.
  intros Hok Hk Hp pt. unfold write_pte at 1. change (pt_of (with_pool p (write_pte s k v1)) (k / 1024)) with (pt_of (write_pte s k v1) (k / 1024)).
  unfold pt_of at 1. rewrite (write_pte_pde s A) by done. done.
Qed.

Lemma two_writes_ok s A p k v1 v2 : as_ok s A -> 0 <= k < 2 ^ 20 -> has_pt s (k / 1024) = true ->
  let s' := write_pte (with_pool p (write_pte s k v1)) k v2 in
  as_ok s' A /\ forall j, 0 <= j < 2 ^ 20 -> pte_at s' j = if j =? k then Some v2 else pte_at s j.
Proof.
  intros Hok Hk Hp s'. pose proof (write_pte_ok s A k v1 Hok Hk Hp) as Hok1.
  assert (Hp1 : has_pt (with_pool p (write_pte s k v1)) (k / 1024) = true).
  { change (has_pt (write_pte s k v1) (k / 1024) = true). unfold has_pt. by rewrite (write_pte_pde s A). }
  split; [by apply write_pte_ok; [apply as_ok_pool| |]|]. intros j Hj. unfold s'.
  rewrite (write_pte_at _ A) by (done || by apply as_ok_pool).
  change (pte_at (with_pool p (write_pte s k v1)) j) with (pte_at (write_pte s k v1) j).
  rewrite (write_pte_at s A) by done. by destruct (j =? k).
Qed.

Lemma zfod_filled_ok s A p k f e : as_ok s A -> 0 <= k < 2 ^ 20 -> pte_at s k = Some e -> fp_frame f ->
  let s' := zfod_filled s p k f e in
  as_ok s' A /\ (forall w, mem s' f w = 0) /\
  forall j, 0 <= j < 2 ^ 20 -> pte_at s' j = if j =? k then Some (private_entry f e) else pte_at s j.
Proof.
  intros Hok Hk He Hf s'. destruct (fp_frame_ok f Hf) as [Hfr Hfm].
  assert (Hp : has_pt s (k / 1024) = true) by (unfold pte_at in He; by destruct (has_pt s (k / 1024))).
  assert (Hni : f ∉ A) by (intros Hi; apply (as_pages _ _ Hok) in Hi; lia).
  set (v1 := set_bit (clr_bit e PG_ZFOD) PG_RW). set (v2 := private_entry f e).
  destruct (two_writes_ok s A p k v1 v2 Hok Hk Hp) as [Hok1 Hat1].
  rewrite <- (two_writes s A p k v1 v2 Hok Hk Hp) in Hok1, Hat1.
  destruct (frame_write_view _ A f (fun _ => 0) Hok1 Hni) as (_ & Hv & Hok2).
  split; [done|]. split; [intros w; unfold s', zfod_filled; simpl; unfold mpage; by rewrite fupd_eq|].
  intros j Hj. etransitivity; [by apply Hv|]. by apply Hat1.
Qed.

(** The body of [is_page_ZFOD] once the page is known to be a zero-fill page. *)
Lemma zfod_fill_run {B} s A F left k e (c : M state B) :
  as_ok s A -> fp_rep (pool s) F left -> left < Z.of_nat (size F) -> 0 <= k < 2 ^ 20 ->
  pte_at s k = Some e -> IS_SET e PG_P = true ->
  exists f p, f ∈ F /\ fp_frame f /\ fp_rep p (F ∖ {[f]}) left /\
    (wr (pt_of s (k / 1024)) (k mod 1024) (set_bit (clr_bit e PG_ZFOD) PG_RW);;
     new_f ← get_frame;
     if new_f =? w32 ERROR_NOT_ENOUGH_MEM then panic
     else pte ← rd (pt_of s (k / 1024)) (k mod 1024);
          wr (pt_of s (k / 1024)) (k mod 1024) (Z.lor new_f (Z.land pte 4095));;
          memset0_va (4096 * k);; c) s = c (zfod_filled s p k f e).
Proof.
  intros Hok HF Hleft Hk He HP. destruct (fp_get_spec _ _ _ HF Hleft) as (f & p & R & Hf & Hin & HF').
  exists f, p. do 3 (split; [done|]). destruct (fp_frame_ok f Hf) as [Hfr Hfm].
  assert (Hp : has_pt s (k / 1024) = true) by (unfold pte_at in He; by destruct (has_pt s (k / 1024))).
  set (e1 := set_bit (clr_bit e PG_ZFOD) PG_RW). set (pt := pt_of s (k / 1024)).
  set (s1 := with_mem (mset (mem s) pt (k mod 1024) e1) s).
  set (s2 := with_mem (mset (mset (mem s) pt (k mod 1024) e1) pt (k mod 1024) (private_entry f e)) (with_pool p s)).
  rewrite (bind_ok (wr _ _ _) _ s tt s1 eq_refl).
  erewrite bind_ok by (eapply zoom_ok; exact R). destruct (Z.eqb_spec f (w32 ERROR_NOT_ENOUGH_MEM)) as [->|_]; [done|].
  rewrite (bind_ok (rd pt (k mod 1024)) _ (with_pool p s1) e1 (with_pool p s1)) by (unfold rd, gets; simpl; by rewrite mset_eq).
  rewrite (bind_ok (wr _ _ _) _ (with_pool p s1) tt s2 eq_refl).
  assert (Hw : walk s2 (4096 * k) = Some f).
  { destruct (two_writes_ok s A p k e1 (private_entry f e) Hok Hk Hp) as [_ Hat].
    rewrite <- (two_writes s A p k e1 _ Hok Hk Hp) in Hat. rewrite walk_pte by done. unfold s2, pt. rewrite Hat, Z.eqb_refl by done.
    destruct (private_entry_ok f e ltac:(split; [lia|done])) as [Ea Eb]. rewrite Ea, Eb by (unfold PG_P; lia). by rewrite HP. }
  assert (R3 : memset0_va (4096 * k) s2 = Ok (tt, zfod_filled s p k f e)).
  { unfold memset0_va. rewrite (bind_ok _ _ s2 s2 s2 eq_refl). rewrite Hw. done. }
  by rewrite (bind_ok _ _ _ _ _ R3).
Qed.

(** ** Theorems *)

(** What [new_pages] accepts. *)
Definition new_pages_valid (base len : Z) : Prop :=
  base mod 4096 = 0 /\ 0 < len /\ len mod 4096 = 0 /\ base + len <= 2 ^ 32 /\ USER_MEM_START <= base.

Lemma new_pages_accepts s base len : 0 <= base < 2 ^ 32 -> len < 2 ^ 31 -> new_pages_valid base len ->
  new_pages me base len s = new_region me base len true true true s.
Proof.
  intros Hb Hlen (Hbm & Hpos & Hlm & Hend & Huser). unfold new_pages, PAGE_SIZE. rewrite Hbm. cbn [Z.eqb negb].
  rewrite Z.rem_mod_nonneg, Hlm by lia. destruct (Z.ltb_spec 0 len); [|lia]. cbn [Z.eqb andb negb].
  unfold UINT32_MAX, USER_MEM_START in *. rewrite (w32_small len), (w32_small (2 ^ 32 - 1 - base + 1)) by lia.
  destruct (Z.ltb_spec (2 ^ 32 - 1 - base + 1) len); [lia|]. by destruct (Z.leb_spec 16777216 base); [|lia].
Qed.

(** (C3) [new_pages] on a valid request either maps exactly the requested pages
    -- each previously unmapped, now present, user-accessible, read-only
    zero-fill, with the first and last page marked -- reserves one frame per
    page and leaves every other page's mapping alone, or fails for one of the
    three documented reasons without mapping anything and without consuming a
    reservation.  The page table locks are free again in every case. *)
Theorem new_pages_correct s A F left base len :
  as_ok s A -> fp_rep (pool s) F left -> locks_free s ->
  0 <= base < 2 ^ 32 -> len < 2 ^ 31 -> new_pages_valid base len ->
  exists r s' A', new_pages me base len s = Ok (r, s') /\ as_ok s' A' /\
    task s' = task s /\ new_pages_result s s' F left (base / 4096) (len / 4096) r.
Proof.
  intros Hok HF Hl Hb Hlen Hv. pose proof Hv as (Hbm & Hpos & Hlm & Hend & Huser).
  assert (Eb : base = 4096 * (base / 4096)) by (pose proof (Z.div_mod base 4096 ltac:(lia)); lia).
  assert (El : len = 4096 * (len / 4096)) by (pose proof (Z.div_mod len 4096 ltac:(lia)); lia).
  rewrite new_pages_accepts by done. unfold USER_MEM_START in Huser.
  destruct (new_region_syscall s A F left (base / 4096) (len / 4096) Hok HF Hl ltac:(lia) ltac:(lia) ltac:(lia))
    as (r & s' & A' & R & Hok' & Ht & _ & Hres).
  rewrite <- Eb, <- El in R. by exists r, s', A'.
Qed.

(** [new_pages] rejects every other request with the documented error and
    changes nothing: a base that is not page aligned, a length that is not a
    positive multiple of the page size, a region past the end of the address
    space, a region inside the kernel's. *)
Theorem new_pages_rejects s base len :
  0 <= base < 2 ^ 32 -> - 2 ^ 31 <= len < 2 ^ 31 -> ~ new_pages_valid base len ->
  new_pages me base len s = Ok (
    if base mod 4096 =? 0 then
      if (0 <? len) && (len mod 4096 =? 0) && (0 <? base) && (base + len <=? 2 ^ 32) then ERROR_KERNEL_SPACE
      else ERROR_LEN
    else ERROR_BASE_NOT_ALIGNED, s).
Proof.
  intros Hb Hlen Hnv. unfold new_pages, PAGE_SIZE. destruct (Z.eqb_spec (base mod 4096) 0) as [Hbm|]; [|done]. cbn [negb].
  destruct (Z.ltb_spec 0 len) as [Hpos|]; [|done]. cbn [andb]. rewrite Z.rem_mod_nonneg by lia.
  destruct (Z.eqb_spec (len mod 4096) 0) as [Hlm|]; [|done]. cbn [andb negb].
  unfold UINT32_MAX, USER_MEM_START. rewrite (w32_small len) by lia. destruct (Z.ltb_spec 0 base) as [Hb0|Hb0]; cbn [andb].
  - rewrite (w32_small (2 ^ 32 - 1 - base + 1)) by lia.
    destruct (Z.ltb_spec (2 ^ 32 - 1 - base + 1) len), (Z.leb_spec (base + len) (2 ^ 32)); try lia; [done|].
    destruct (Z.leb_spec 16777216 base); [|done]. exfalso. apply Hnv. by repeat split.
  - assert (base = 0) as -> by lia. change (w32 (2 ^ 32 - 1 - 0 + 1)) with 0. destruct (Z.ltb_spec 0 len); [done|lia].
Qed.

(** (C4) [remove_pages] of the base of a region made by [new_pages] -- some of
    its pages filled since -- unmaps exactly its pages, returns their frames to
    the pool and gives every reservation back; fuel for one turn per page is
    enough, so the loop ends at the page carrying the end mark. *)
Theorem remove_pages_correct s A F left e k0 (n fuel : nat) :
  as_ok s A -> fp_rep (pool s) F left -> locks_free s -> 0 <= k0 -> k0 + Z.of_nat (S n) <= 2 ^ 20 ->
  region_ok s F e k0 (S n) -> IS_SET (e k0) PG_NEW_PAGES_START = true ->
  left + zfod_count e k0 (S n) <= Z.of_nat (size F) -> (S n <= fuel)%nat ->
  exists s', remove_pages me fuel (4096 * k0) s = Ok (0, s') /\ as_ok s' A /\ task s' = task s /\
    fp_rep (pool s') (owned e k0 (S n) ∪ F) (left + Z.of_nat (S n)) /\
    forall j, 0 <= j < 2 ^ 20 ->
      pte_at s' j = if (k0 <=? j) && (j <? k0 + Z.of_nat (S n)) then Some 0 else pte_at s j.
Proof.
  intros Hok HF (locks & Ht & Hl) Hk Hkn Hro Hst Hz Hfu. unfold remove_pages, remove_region.
  destruct (page_indices k0 ltac:(lia)) as (-> & _ & _).
  rewrite (bind_ok _ _ s tt s) by (unfold need_task; by rewrite Ht).
  destruct (remove_loop_ok locks n s A F left e k0 (-1) true fuel Hok HF Hl Ht ltac:(by left) Hk Hkn Hfu Hro ltac:(done) Hz)
    as (s' & R & Hok' & Ht' & _ & HF' & Hat).
  exists s'. split; [done|]. split; [done|]. split; [congruence|]. done.
Qed.

Lemma zfod_region_ok s s' A F k0 N : as_ok s A -> 0 <= k0 -> 0 < N -> k0 + N <= 2 ^ 20 ->
  (forall k, k0 <= k < k0 + N -> pte_at s' k = Some (zfod_entry s k0 (k0 + N - 1) k)) ->
  let e := zfod_entry s k0 (k0 + N - 1) in
  region_ok s' F e k0 (Z.to_nat N) /\ IS_SET (e k0) PG_NEW_PAGES_START = true /\
  zfod_count e k0 (Z.to_nat N) = N /\ owned e k0 (Z.to_nat N) = ∅.
Proof.
  intros Hok Hk HN HkN Hat e. assert (He : forall k, IS_SET (e k) PG_ZFOD = true).
  { intros k. by destruct (zfod_entry_ok s A k0 (k0 + N - 1) k Hok) as (_ & _ & _ & _ & ? & _). }
  split; [split|split; [|split]].
  - intros j Hj. rewrite Hat by lia. split; [done|]. by destruct (zfod_entry_ok s A k0 (k0 + N - 1) j Hok) as (_ & ? & _).
  - intros j Hj. destruct (zfod_entry_ok s A k0 (k0 + N - 1) j Hok) as (_ & _ & _ & _ & _ & _ & E). unfold e. rewrite E. f_equal. lia.
  - intros j Hj E. by rewrite He in E.
  - intros i j Hi Hj E. by rewrite He in E.
  - destruct (zfod_entry_ok s A k0 (k0 + N - 1) k0 Hok) as (_ & _ & _ & _ & _ & E & _). unfold e. rewrite E. apply Z.eqb_refl.
  - assert (H : forall n k, zfod_count e k n = Z.of_nat n).
    { induction n as [|n IH]; intros k; cbn [zfod_count]; [done|]. rewrite He, IH. lia. }
    rewrite H. lia.
  - generalize k0. induction (Z.to_nat N) as [|n IH]; intros k; cbn [owned]; [done|]. rewrite He, IH. by rewrite (left_id_L ∅ (∪)).
Qed.

(** (C5) Round trip: when [new_pages] succeeds, [remove_pages] of the same base
    succeeds and keeps the invariant of the address space.  The pages had no
    mapping and have none again; the entry of every other page, its frame and its
    flags, is what it was before (where there was no page table, there may now be
    one, and then the entry is zero); the pool is restored: same free frames, same
    number left to reserve. *)
Theorem new_remove_pages_roundtrip s A F left base len s1 (fuel : nat) :
  as_ok s A -> fp_rep (pool s) F left -> locks_free s ->
  0 <= base < 2 ^ 32 -> len < 2 ^ 31 -> new_pages_valid base len ->
  new_pages me base len s = Ok (0, s1) -> (Z.to_nat (len / 4096) <= fuel)%nat ->
  exists s2 A2, remove_pages me fuel base s1 = Ok (0, s2) /\ as_ok s2 A2 /\ fp_rep (pool s2) F left /\ task s2 = task s /\
    forall k, 0 <= k < 2 ^ 20 ->
      if (base / 4096 <=? k) && (k <? base / 4096 + len / 4096) then mapped s k = false /\ pte_at s2 k = Some 0
      else pte_at s2 k = pte_at s k \/ (pte_at s k = None /\ pte_at s2 k = Some 0).
Proof.
  intros Hok HF Hl Hb Hlen Hv R Hfu. pose proof Hv as (Hbm & Hpos & Hlm & Hend & Huser). unfold USER_MEM_START in Huser.
  set (k0 := base / 4096) in *. set (N := len / 4096) in *.
  assert (Eb : base = 4096 * k0) by (pose proof (Z.div_mod base 4096 ltac:(lia)); lia).
  assert (El : len = 4096 * N) by (pose proof (Z.div_mod len 4096 ltac:(lia)); lia).
  rewrite new_pages_accepts in R by done.
  destruct (new_region_syscall s A F left k0 N Hok HF Hl ltac:(lia) ltac:(lia) ltac:(lia)) as (r & s1' & A1 & R' & Hok1 & Ht1 & _ & Hres).
  rewrite <- Eb, <- El in R'. rewrite R in R'. injection R' as <- <-.
  inversion Hres as [Hun HleN Hin Hout HF1| | |]. destruct Hl as (locks & Htl & Hlf).
  destruct (zfod_region_ok s s1 A F k0 N Hok ltac:(lia) ltac:(lia) ltac:(lia) Hin) as (Hro & Hst & Hz & Hown).
  destruct (Z.to_nat N) as [|n] eqn:EN; [lia|].
  destruct (remove_loop_ok locks n s1 A1 F (left - N) _ k0 (-1) true fuel Hok1 HF1 Hlf ltac:(by rewrite Ht1) ltac:(by left)
    ltac:(lia) ltac:(lia) Hfu Hro ltac:(done)) as (s2 & R2 & Hok2 & Ht2 & _ & HF2 & Hat).
  { rewrite Hz. pose proof (fp_left _ _ _ HF). lia. }
  exists s2, A1. unfold remove_pages, remove_region. rewrite Eb. destruct (page_indices k0 ltac:(lia)) as (-> & _ & _).
  rewrite (bind_ok _ _ s1 tt s1) by (unfold need_task; by rewrite Ht1, Htl). split; [done|]. split; [done|].
  split; [rewrite Hown, (left_id_L ∅ (∪)) in HF2; by replace (left - N + Z.of_nat (S n)) with left in HF2 by lia|].
  split; [congruence|]. intros k Hk. rewrite Hat by done. replace (k0 + N) with (k0 + Z.of_nat (S n)) by lia.
  destruct (Z.leb_spec k0 k), (Z.ltb_spec k (k0 + Z.of_nat (S n))); cbn [andb]; try (apply Hout; [done|lia]).
  split; [apply Hun; lia|done].
Qed.

(** What [is_page_ZFOD] does: a frame has to be there only for a zero-fill page. *)
Lemma is_page_ZFOD_run s A F left va error_code (need : bool) :
  as_ok s A -> fp_rep (pool s) F left -> locks_free s -> 0 <= va < 2 ^ 32 ->
  let k := va / 4096 in
  if (need && negb (IS_SET error_code PG_P && IS_SET error_code PG_US && IS_SET error_code PG_RW)) ||
     negb (mapped s k && match pte_at s k with Some e => IS_SET e PG_ZFOD | None => false end)
  then is_page_ZFOD me va error_code need s = Ok (0, s)
  else left < Z.of_nat (size F) -> exists e f p, is_page_ZFOD me va error_code need s = Ok (1, zfod_filled s p k f e) /\
    f ∈ F /\ fp_frame f /\ fp_rep p (F ∖ {[f]}) left /\ pte_at s k = Some e /\ IS_SET e PG_P = true /\ IS_SET e PG_ZFOD = true.
Proof.
  intros Hok HF (locks & Ht & Hl) Hva k. assert (Hk : 0 <= k < 2 ^ 20).
  { unfold k. split; [apply Z.div_pos; lia|apply Z.div_lt_upper_bound; lia]. }
  unfold is_page_ZFOD. rewrite align_div by done. fold k. destruct (page_indices k Hk) as (_ & Epd & Ept).
  destruct (need && _) eqn:En; cbn [orb]; [done|]. rewrite (bind_ok _ _ s (cr3 s) s eq_refl), Epd, Ept.
  rewrite (bind_ok _ _ s tt s) by (unfold need_task; by rewrite Ht). cbv zeta.
  set (cur := k / 1024 / NUM_PT_PER_LOCK). assert (Hcur : 0 <= cur < 64).
  { unfold cur, NUM_PT_PER_LOCK. pose proof (pdi_range k Hk). split; [apply Z.div_pos; lia|apply Z.div_lt_upper_bound; lia]. }
  rewrite (bind_ok _ _ _ _ _ (pt_lock_ok s locks cur Ht (Hl cur Hcur))).
  set (s1 := with_task (Some (<[cur := held_lock]> locks)) (vtst s) s).
  assert (Hun : forall s2, task s2 = task s1 -> vtst s2 = vtst s1 -> pt_unlock cur s2 = Ok (tt, with_task (Some locks) (vtst s) s2)).
  { intros s2 E1 E2. erewrite pt_unlock_ok; [|exact E1|apply lookup_insert_eq]. rewrite E2. simpl vtst.
    by rewrite insert_insert_eq, insert_id by (by apply Hl). }
  assert (Hback : with_task (Some locks) (vtst s) s1 = s) by (unfold s1; rewrite with_task_twice; by apply with_task_id).
  rewrite (bind_ok _ _ s1 (pde s (k / 1024)) s1 eq_refl). fold (has_pt s (k / 1024)) (pt_of s (k / 1024)).
  unfold mapped, pte_at at 1 2. destruct (has_pt s (k / 1024)) eqn:Hp; cbn [andb negb].
  2:{ by rewrite (bind_ok _ _ _ _ _ (Hun s1 eq_refl eq_refl)), Hback. }
  set (e := mem s (pt_of s (k / 1024)) (k mod 1024)). rewrite (bind_ok _ _ s1 e s1 eq_refl).
  destruct (IS_SET e PG_P) eqn:HP; cbn [andb negb].
  2:{ by rewrite (bind_ok _ _ _ _ _ (Hun s1 eq_refl eq_refl)), Hback. }
  destruct (IS_SET e PG_ZFOD) eqn:Hz; cbn [andb negb].
  2:{ by rewrite (bind_ok _ _ _ _ _ (Hun s1 eq_refl eq_refl)), Hback. }
  assert (Hat : pte_at s1 k = Some e) by (unfold pte_at; change (has_pt s1 (k / 1024)) with (has_pt s (k / 1024)); by rewrite Hp).
  assert (Hok1 : as_ok s1 A) by (by apply as_ok_task).
  intros Hleft. destruct (zfod_fill_run s1 A F left k e (pt_unlock cur;; mret 1) Hok1 HF Hleft Hk Hat HP) as (f & p & Hin & Hf & HF' & R).
  change (pt_of s1 (k / 1024)) with (pt_of s (k / 1024)) in R. rewrite R.
  rewrite (bind_ok _ _ _ _ _ (Hun (zfod_filled s1 p k f e) eq_refl eq_refl)). exists e, f, p.
  split; [|split; [done|]; split; [done|]; split; [done|]; split; [by unfold pte_at; rewrite Hp|done]].
  change (with_task (Some locks) (vtst s) (zfod_filled s1 p k f e)) with (zfod_filled (with_task (Some locks) (vtst s) s1) p k f e). by rewrite Hback.
Qed.

(** [is_page_ZFOD] gives a zero-fill page its own cleared frame: it returns 1
    exactly for a present page still marked zero-fill (and, when a page fault is
    being handled, a user write to a present page), in which case the page is
    then writable, unmarked, backed by a frame taken from the pool and full of
    zeros, and no other page's mapping changes; in every other case it returns 0
    and changes nothing.  A promised frame is assumed to exist ([left < size F]),
    which is what [new_pages] reserves. *)
Theorem is_page_ZFOD_correct s A F left va error_code (need : bool) :
  as_ok s A -> fp_rep (pool s) F left -> left < Z.of_nat (size F) -> locks_free s -> 0 <= va < 2 ^ 32 ->
  let k := va / 4096 in
  if (need && negb (IS_SET error_code PG_P && IS_SET error_code PG_US && IS_SET error_code PG_RW)) ||
     negb (mapped s k && match pte_at s k with Some e => IS_SET e PG_ZFOD | None => false end)
  then is_page_ZFOD me va error_code need s = Ok (0, s)
  else exists e f s', is_page_ZFOD me va error_code need s = Ok (1, s') /\ as_ok s' A /\ task s' = task s /\
    f ∈ F /\ fp_rep (pool s') (F ∖ {[f]}) left /\ pte_at s k = Some e /\
    pte_at s' k = Some (private_entry f e) /\ (forall w, mem s' f w = 0) /\
    forall j, 0 <= j < 2 ^ 20 -> j <> k -> pte_at s' j = pte_at s j.
Proof.
  intros Hok HF Hleft Hl Hva k. pose proof (is_page_ZFOD_run s A F left va error_code need Hok HF Hl Hva) as H. cbv zeta in H. fold k in H.
  destruct (_ || _); [done|]. destruct (H Hleft) as (e & f & p & R & Hin & Hf & HF' & Hat & _). assert (Hk : 0 <= k < 2 ^ 20).
  { unfold k. split; [apply Z.div_pos; lia|apply Z.div_lt_upper_bound; lia]. }
  destruct (zfod_filled_ok s A p k f e Hok Hk Hat Hf) as (Hok2 & Hzero & Hview). eexists e, f, _. split; [exact R|]. split; [done|]. split; [done|]. split; [done|].
  split; [done|]. split; [done|]. split; [by rewrite Hview, Z.eqb_refl by done|]. split; [done|]. intros j Hj Hne. rewrite Hview by done. by destruct (Z.eqb_spec j k).
Qed.

(** ** Checking user memory *)

Lemma check_loop_ok (n : nat) : forall s k page cur last, 0 <= k -> k + Z.of_nat n <= 2 ^ 20 ->
  (n <> 0%nat -> page = 4096 * k) ->
  check_loop me n false false page cur last s =
    Ok (if forallb (mapped s) (seqZ k (Z.of_nat n)) then 0 else ERROR_PAGE_NOT_ALLOC, s).
Proof.
  induction n as [|n IH]; intros s k page cur last Hk Hkn Hpg; cbn [check_loop]; [done|].
  rewrite (Hpg ltac:(done)). destruct (page_indices k ltac:(lia)) as (_ & Epd & Ept). rewrite Epd, Ept.
  rewrite (bind_ok _ _ s (cr3 s) s eq_refl), (bind_ok _ _ s (pde s (k / 1024)) s eq_refl).
  fold (has_pt s (k / 1024)) (pt_of s (k / 1024)).
  rewrite (seqZ_cons k) by lia. cbn [forallb].
  assert (Hm : mapped s k = has_pt s (k / 1024) && IS_SET (mem s (pt_of s (k / 1024)) (k mod 1024)) PG_P).
  { unfold mapped, pte_at. by destruct (has_pt s (k / 1024)). }
  rewrite Hm. destruct (has_pt s (k / 1024)); [|done]. cbn [andb].
  rewrite (bind_ok _ _ s (mem s (pt_of s (k / 1024)) (k mod 1024)) s eq_refl).
  destruct (IS_SET (mem s (pt_of s (k / 1024)) (k mod 1024)) PG_P); [|done]. cbn [andb].
  rewrite (IH s (k + 1)); [|lia|lia|intros Hn; apply page_step; lia].
  replace (Z.succ k) with (k + 1) by lia. by replace (Z.pred (Z.of_nat (S n))) with (Z.of_nat n) by lia.
Qed.

(** [check_mem_validness] for a readable buffer decides exactly whether every
    page the buffer touches is mapped: it refuses kernel addresses, negative,
    empty and wrapping lengths, and otherwise returns 0 if all pages are present
    and [ERROR_PAGE_NOT_ALLOC] if one is not; the address space and the locks
    are as before. *)
Theorem check_mem_validness_correct s va max_bytes :
  locks_free s -> 0 <= va < 2 ^ 32 -> - 2 ^ 31 <= max_bytes < 2 ^ 31 ->
  check_mem_validness me va max_bytes false false s = Ok (
    if va <? USER_MEM_START then ERROR_KERNEL_SPACE
    else if (max_bytes <=? 0) || (2 ^ 32 <? va + max_bytes) then ERROR_LEN
    else if forallb (mapped s) (seqZ (va / 4096) ((va + max_bytes - 1) / 4096 - va / 4096 + 1)) then 0
    else ERROR_PAGE_NOT_ALLOC, s).
Proof.
  intros (locks & Ht & Hl) Hva Hmax. unfold check_mem_validness. destruct (Z.ltb_spec va USER_MEM_START) as [|Hu]; [done|].
  unfold USER_MEM_START in Hu. destruct (Z.ltb_spec max_bytes 0); [by destruct (Z.leb_spec max_bytes 0); [|lia]|]. cbv zeta. cbn [negb andb].
  set (last := w32 (va + max_bytes - 1)).
  destruct ((max_bytes <=? 0) || (2 ^ 32 <? va + max_bytes)) eqn:Ebad.
  { assert (Hlt : last < va).
    { unfold last. apply orb_true_iff in Ebad as [E%Z.leb_le|E%Z.ltb_lt].
      - rewrite w32_small; lia.
      - replace (w32 (va + max_bytes - 1)) with (va + max_bytes - 1 - 2 ^ 32); [lia|].
        unfold w32. apply (Z.mod_unique _ _ 1); lia. }
    destruct (Z.ltb_spec last va); [done|lia]. }
  apply orb_false_iff in Ebad as [E1%Z.leb_gt E2%Z.ltb_ge].
  assert (El : last = va + max_bytes - 1) by (unfold last; apply w32_small; lia).
  destruct (Z.ltb_spec last va); [lia|]. rewrite !align_div by lia.
  set (k0 := va / 4096). set (k1 := last / 4096).
  assert (Hk0 : 0 <= k0) by (apply Z.div_pos; lia). assert (Hk1 : k1 < 2 ^ 20) by (apply Z.div_lt_upper_bound; lia).
  assert (Hkk : k0 <= k1) by (apply Z.div_le_mono; lia).
  replace (1 + w32 (4096 * k1 - 4096 * k0) / PAGE_SIZE) with (k1 - k0 + 1).
  2:{ rewrite w32_small by lia. unfold PAGE_SIZE. replace (4096 * k1 - 4096 * k0) with ((k1 - k0) * 4096) by lia. rewrite Z.div_mul; lia. }
  destruct (page_indices k0 ltac:(lia)) as (_ & -> & _). destruct (page_indices k1 ltac:(lia)) as (_ & -> & _).
  destruct (lock_span k0 (k1 - k0 + 1) Hk0 ltac:(lia) ltac:(lia)) as [Hls Hls'].
  replace (k0 + (k1 - k0 + 1) - 1) with k1 in Hls, Hls' by lia. unfold NUM_PT_PER_LOCK.
  set (lo := k0 / 1024 / 16) in *. set (hi := k1 / 1024 / 16) in *. set (nl := Z.to_nat (hi - lo + 1)).
  assert (Hfree : forall j, lo <= j < lo + Z.of_nat nl -> locks !! j = Some free_lock) by (intros; apply Hl; lia).
  rewrite (bind_ok _ _ s tt s) by (unfold need_task; by rewrite Ht).
  rewrite (bind_ok _ _ _ _ _ (lock_range_ok nl s locks lo Ht Hfree)). set (s1 := with_task _ _ s).
  rewrite (bind_ok _ _ _ _ _ (check_loop_ok (Z.to_nat (k1 - k0 + 1)) s1 k0 (4096 * k0) va last Hk0 ltac:(lia) ltac:(done))).
  assert (Hun : unlock_range nl hi s1 = Ok (tt, s)).
  { replace hi with (lo + Z.of_nat nl - 1) by lia. rewrite (unlock_after s1 locks lo nl (vtst s) Hfree eq_refl eq_refl).
    change (with_task (Some locks) (vtst s) s1) with (with_task (Some locks) (vtst s) s). by rewrite with_task_id. }
  rewrite (bind_ok _ _ _ _ _ Hun), Z2Nat.id by lia. unfold k1. rewrite El. done.
Qed.

End spaces.
(** ** A concrete machine: an empty address space, 64 free frames on core 0,
    the kernel page at 8192 as the all-zero frame, thread 7 running. *)

Definition demo_pool : FramePool Pm.pm :=
  pm_pool (FA := seg_alloc Pm.demo_calloc) 0 7 64 ltac:(lia) ltac:(lia) ltac:(lia) ltac:(vm_compute; congruence).
#[local] Existing Instance demo_pool.

Definition demo_locks : gmap Z Mutex.mutex_t := list_to_map ((fun i => (i, free_lock)) <$> seqZ 0 64).
Definition demo_vm : vm_state Pm.pm page_heap :=
  mk_vm (fun _ _ => 0) 4096 true ∅ 8192 3 67 Pm.demo_pm (mk_heap [12288; 16384; 20480] {[4096; 8192]})
    (Some demo_locks) (fun _ => NORMAL).
Definition demo_free : gset Z := set_map (addr 0 64) (list_to_set (seqZ 0 64) : gset Z).

Lemma demo_as_ok : as_ok demo_vm {[4096; 8192]}.
Proof.
  assert (Hno : forall i, has_pt demo_vm i = false) by done.
  split; try done.
  - split; [done|]. split; [apply (bool_decide_unpack _); by vm_compute|].
    intros a Ha. assert (a = 12288 \/ a = 16384 \/ a = 20480 \/ a = 4096 \/ a = 8192) as Hcase.
    { destruct Ha as [Ha|Ha]; set_solver. }
    destruct Hcase as [-> | [-> | [-> | [-> | ->]]]]; (split; [lia|]); (split; [done|]);
      intros [H1 H2]; revert H1 H2; rewrite elem_of_union, !elem_of_singleton; simpl; rewrite !elem_of_cons, elem_of_nil; lia.
  - intros a. rewrite elem_of_union, !elem_of_singleton. intros [-> | ->]; (split; [lia|done]).
Qed.

Lemma demo_fp_rep : fp_rep (pool demo_vm) demo_free 64.
Proof.
  exists (list_to_set (seqZ 0 64)), 0. split; [apply Pm.demo_pm_ok|]. split; [done|]. split; [done|].
  by rewrite size_list_to_set, length_seqZ by apply NoDup_seqZ.
Qed.

Lemma demo_locks_free : locks_free demo_vm.
Proof.
  exists demo_locks. split; [done|]. intros i Hi. apply elem_of_list_to_map_1.
  - rewrite <- list_fmap_compose, (list_fmap_ext _ id), list_fmap_id by done. apply NoDup_seqZ.
  - apply list_elem_of_fmap. exists i. split; [done|]. apply elem_of_seqZ. lia.
Qed.

Lemma demo_valid : new_pages_valid 16777216 8192.
Proof. unfold new_pages_valid, USER_MEM_START. repeat split; (done || lia). Qed.

Lemma new_pages_witness :
  exists r s' A', new_pages 7 16777216 8192 demo_vm = Ok (r, s') /\ as_ok s' A' /\ r = 0.
Proof.
  destruct (new_pages_correct 7 ltac:(lia) demo_vm _ _ _ 16777216 8192 demo_as_ok demo_fp_rep demo_locks_free
    ltac:(lia) ltac:(lia) demo_valid) as (r & s' & A' & R & Hok & _).
  exists r, s', A'. split; [exact R|]. split; [exact Hok|].
  assert (E : outcome (new_pages 7 16777216 8192 demo_vm) = Some 0) by (vm_compute; reflexivity).
  rewrite R in E. injection E as ->. reflexivity.
Defined.

Lemma new_pages_rejects_witness : new_pages 7 4096 8192 demo_vm = Ok (ERROR_KERNEL_SPACE, demo_vm).
Proof.
  refine (new_pages_rejects 7 demo_vm 4096 8192 ltac:(lia) ltac:(lia) _).
  intros (_ & _ & _ & _ & H). unfold USER_MEM_START in H. lia.
Defined.

(** The same machine after [new_pages] of two pages. *)
Lemma demo_two_pages : exists s1, new_pages 7 16777216 8192 demo_vm = Ok (0, s1).
Proof.
  assert (E : outcome (new_pages 7 16777216 8192 demo_vm) = Some 0) by (vm_compute; reflexivity).
  destruct (new_pages 7 16777216 8192 demo_vm) as [[r s1]| | | |]; try discriminate E. injection E as ->. by exists s1.
Qed.

Lemma roundtrip_witness :
  exists s1 s2, new_pages 7 16777216 8192 demo_vm = Ok (0, s1) /\ remove_pages 7 2 16777216 s1 = Ok (0, s2) /\
    fp_rep (pool s2) demo_free 64 /\ mapped demo_vm 4097 = false /\ pte_at s2 4097 = Some 0.
Proof.
  destruct demo_two_pages as [s1 R1].
  destruct (new_remove_pages_roundtrip 7 ltac:(lia) demo_vm _ _ _ 16777216 8192 s1 2 demo_as_ok demo_fp_rep demo_locks_free
    ltac:(lia) ltac:(lia) demo_valid R1 ltac:(vm_compute; lia)) as (s2 & A2 & R2 & _ & HF & _ & Hk).
  exists s1, s2. exact (conj R1 (conj R2 (conj HF (Hk 4097 ltac:(lia))))).
Defined.

(** Two zero-fill pages at page numbers 4096 and 4097, as a state: the page
    table is at 12288. *)
Definition demo_entry (k : Z) : Z := zfod_entry demo_vm 4096 4097 k.
Definition demo_zfod : vm_state Pm.pm page_heap :=
  mk_vm (mset (mset (mset (fun _ _ => 0) 4096 4 (12288 + 7)) 12288 0 (demo_entry 4096)) 12288 1 (demo_entry 4097))
    4096 true ∅ 8192 3 67 Pm.demo_pm (mk_heap [16384; 20480] {[4096; 8192; 12288]}) (Some demo_locks) (fun _ => NORMAL).

Lemma demo_zfod_pde i : has_pt demo_zfod i = (i =? 4).
Proof.
  unfold has_pt, pde, demo_zfod. simpl. rewrite !(mset_ne _ 12288) by (left; lia). destruct (Z.eqb_spec i 4) as [->|]; [done|].
  by rewrite mset_ne by (by right).
Qed.

Lemma demo_zfod_ok : as_ok demo_zfod {[4096; 8192; 12288]}.
Proof.
  assert (Hpt : forall i, has_pt demo_zfod i = true -> i = 4 /\ pt_of demo_zfod i = 12288).
  { intros i. rewrite demo_zfod_pde. intros ->%Z.eqb_eq. done. }
  split; try done.
  - split; [done|]. split; [apply (bool_decide_unpack _); by vm_compute|].
    intros a Ha. assert (a = 12288 \/ a = 16384 \/ a = 20480 \/ a = 4096 \/ a = 8192) as Hcase.
    { destruct Ha as [Ha|Ha]; set_solver. }
    destruct Hcase as [-> | [-> | [-> | [-> | ->]]]]; (split; [lia|]); (split; [done|]);
      intros [H1 H2]; revert H1 H2; rewrite !elem_of_union, !elem_of_singleton; simpl; rewrite !elem_of_cons, elem_of_nil; lia.
  - intros a. rewrite !elem_of_union, !elem_of_singleton. intros [[-> | ->] | ->]; (split; [lia|done]).
  - intros i Hi Hp. destruct (Hpt i Hp) as [_ ->]. split; [rewrite !elem_of_union, !elem_of_singleton; lia|simpl; lia].
  - intros i j Hi Hj Hp Hp' _. destruct (Hpt i Hp), (Hpt j Hp'). lia.
  - split; [rewrite !elem_of_union, !elem_of_singleton; simpl; lia|]. split; [done|].
    intros i Hi Hp. destruct (Hpt i Hp) as [_ ->]. simpl. lia.
Qed.

Lemma demo_zfod_region : region_ok demo_zfod demo_free demo_entry 4096 2.
Proof.
  assert (Hj : forall j, 4096 <= j < 4096 + Z.of_nat 2 -> j = 4096 \/ j = 4097) by lia.
  split.
  - intros j [-> | ->]%Hj; by vm_compute.
  - intros j [-> | ->]%Hj; by vm_compute.
  - intros j [-> | ->]%Hj; intros E; vm_compute in E; discriminate E.
  - intros i j [-> | ->]%Hj _ E; vm_compute in E; discriminate E.
Qed.

(** 62 frames are left to reserve: two are promised to the two pages. *)
Definition demo_pm62 : Pm.pm :=
  Pm.mk_pm 1 64 {[0 := 62]} 0 {[0 := Mutex.mk_mutex (-1) []]}
    {| SegTree.max_num := 64; SegTree.seg_tree := {[0 := SegTree.demo_tree]}; SegTree.size := 2 |} (fun _ => NORMAL).
Definition demo_zfod62 : vm_state Pm.pm page_heap := with_pool demo_pm62 demo_zfod.

Lemma demo_size : size demo_free = 64%nat.
Proof.
  unfold demo_free. rewrite (set_map_size 0 0 64 ltac:(lia) ltac:(lia) ltac:(lia) ltac:(vm_compute; congruence)).
  - by rewrite size_list_to_set, length_seqZ by apply NoDup_seqZ.
  - intros i. rewrite elem_of_list_to_set, elem_of_seqZ. lia.
Qed.

Lemma demo_fp62 : fp_rep (pool demo_zfod62) demo_free 62.
Proof.
  assert (Hsz : size (list_to_set (seqZ 0 64) : gset Z) = 64%nat).
  { by rewrite size_list_to_set, length_seqZ by apply NoDup_seqZ. }
  exists (list_to_set (seqZ 0 64)), 2. split; [|split; [done|]; split; [done|]; by rewrite Hsz].
  destruct Pm.demo_pm_ok as [H1 H2 H3 H4 H5 H6 H7 H8 H9 H10]. by split.
Qed.

Lemma demo_zfod62_locks : locks_free demo_zfod62.
Proof. exact demo_locks_free. Qed.

Lemma remove_pages_witness :
  exists s', remove_pages 7 2 16777216 demo_zfod62 = Ok (0, s') /\ fp_rep (pool s') (owned demo_entry 4096 2 ∪ demo_free) 64.
Proof.
  destruct (remove_pages_correct 7 ltac:(lia) demo_zfod62 _ demo_free 62 demo_entry 4096 1 2 (as_ok_pool _ _ _ demo_zfod_ok)
    demo_fp62 demo_zfod62_locks ltac:(lia) ltac:(lia)) as (s' & R & _ & _ & HF & _).
  - destruct demo_zfod_region as [H1 H2 H3 H4]. split; [exact H1|exact H2|exact H3|exact H4].
  - vm_compute. reflexivity.
  - rewrite demo_size. vm_compute. congruence.
  - lia.
  - exists s'. exact (conj R HF).
Defined.

Lemma is_page_ZFOD_witness :
  exists f s', is_page_ZFOD 7 16781312 7 true demo_zfod62 = Ok (1, s') /\ f ∈ demo_free /\ (forall w, mem s' f w = 0).
Proof.
  pose proof (is_page_ZFOD_correct 7 ltac:(lia) demo_zfod62 _ demo_free 62 16781312 7 true (as_ok_pool _ _ _ demo_zfod_ok)
    demo_fp62 ltac:(rewrite demo_size; lia) demo_zfod62_locks ltac:(lia)) as H. cbv zeta in H.
  match type of H with if ?c then _ else _ => assert (Ec : c = false) by (vm_compute; reflexivity) end.
  rewrite Ec in H. destruct H as (e & f & s' & R & _ & _ & Hf & _ & _ & _ & Hz & _). exists f, s'. exact (conj R (conj Hf Hz)).
Defined.

Lemma check_mem_validness_witness :
  check_mem_validness 7 16777300 8000 false false demo_zfod62 = Ok (0, demo_zfod62) /\
  check_mem_validness 7 16777300 9000 false false demo_zfod62 = Ok (ERROR_PAGE_NOT_ALLOC, demo_zfod62).
Proof.
  split.
  - exact (check_mem_validness_correct 7 ltac:(lia) demo_zfod62 16777300 8000 demo_zfod62_locks ltac:(lia) ltac:(lia)).
  - exact (check_mem_validness_correct 7 ltac:(lia) demo_zfod62 16777300 9000 demo_zfod62_locks ltac:(lia) ltac:(lia)).
Defined.

(** ** Runs that show how the pieces fail to fit

    [check_mem_validness] holds the page table lock while it calls
    [is_page_ZFOD], which takes the same lock again (see [mutex_relock] in
    Mutex.v): the second zero-fill page of a buffer panics the kernel. *)
Theorem check_mem_two_zfod_pages_panics :
  (new_pages 7 16777216 8192;; check_mem_validness 7 16777216 8192 false true) demo_vm = Panic.
Proof. vm_compute. reflexivity. Qed.

(** [clone_pd] gives a zero-fill page of the parent a frame of its own but keeps
    the zero-fill mark, so freeing the clone does not free that frame: the least
    frame of the pool is gone although no address space uses it. *)
Theorem clone_pd_leaks_zfod_frame :
  outcome ((new_pages 7 16777216 4096;; get_frame) demo_vm) = Some 16777216 /\
  outcome ((new_pages 7 16777216 4096;; pd ← clone_pd; free_entire_space pd true;; get_frame) demo_vm) = Some 16781312.
Proof. split; vm_compute; reflexivity. Qed.

End VmProofs.
