(* ===== verification/MallocWrappers.v ===== *)
(** * Thread-safe allocation (src/kern/malloc_wrappers.c)

    Every wrapper takes the allocator lock of the current core, calls the
    allocator and releases the lock.  The allocator itself ([_malloc],
    [_memalign], ...) is code of 410kern (LmmMalloc.v): the interface [RawAlloc] names
    its entry points, on a heap of any type. *)

From S2P Require Import Prelude SimpleQueue ThreadState Mutex.
From Stdlib Require Import ZArith Lia.
From stdpp Require Import base gmap list tactics numbers.

#[local] Open Scope Z_scope.

Class RawAlloc (H : Type) := {
  ra_malloc : Z -> M H Z;
  ra_memalign : Z -> Z -> M H Z;
  ra_calloc : Z -> Z -> M H Z;
  ra_realloc : Z -> Z -> M H Z;
  ra_free : Z -> M H unit;
  ra_smalloc : Z -> M H Z;
  ra_smemalign : Z -> Z -> M H Z;
  ra_sfree : Z -> Z -> M H unit
}.

Module MallocWrappers.
Section wrappers.
Context {H : Type} {RA : RawAlloc H}.

(** [lock] maps a core to its mutex object, [mutexes] holds these objects. *)
Record alloc_state := mk_alloc {
  lock : gmap Z Z; mutexes : gmap Z Mutex.mutex_t; heap : H; tstates : Z -> thread_state_t }.

Definition with_heap (h : H) (s : alloc_state) := mk_alloc (lock s) (mutexes s) h (tstates s).
Definition with_mutexes m t (s : alloc_state) := mk_alloc (lock s) m (heap s) t.

Definition raw {A} (m : M H A) : M alloc_state A := zoom heap with_heap m.

Definition get_malloc_lib_lock (cpu : Z) : M alloc_state Z := fun s => deref (lock s !! cpu) s.

(** A mutex operation on the mutex object at [p]. *)
Definition on_mutex (p : Z) (m : M Mutex.mstate unit) : M alloc_state unit := fun s =>
  match mutexes s !! p with
  | Some x => zoom (fun s => Mutex.mk_mstate x (tstates s))
                (fun ms s => with_mutexes (<[p := Mutex.mx ms]> (mutexes s)) (Mutex.tst ms) s) m s
  | None => Fault
  end.

Definition sizeof_mutex : Z := 40.

Definition malloc_init (cpu_id : Z) : M alloc_state Z :=
  p ← raw (ra_malloc sizeof_mutex);
  modify (fun s => mk_alloc (<[cpu_id := p]> (lock s)) (mutexes s) (heap s) (tstates s));;
  if p =? 0 then mret (-1) else
  modify (fun s => with_mutexes (<[p := snd Mutex.mutex_init]> (mutexes s)) (tstates s) s);;
  if fst Mutex.mutex_init <? 0 then mret (-1) else mret 0.

(** [mutex_lock(lock[cpu]); rv = m(); mutex_unlock(lock[cpu]); return rv;] *)
Definition locked {A} (cpu me : Z) (m : M H A) : M alloc_state A :=
  p ← get_malloc_lib_lock cpu;
  on_mutex p (Mutex.mutex_lock me);;
  rv ← raw m;
  p ← get_malloc_lib_lock cpu;
  on_mutex p Mutex.mutex_unlock;;
  mret rv.

Definition malloc (cpu me size : Z) : M alloc_state Z := locked cpu me (ra_malloc size).
Definition memalign (cpu me alignment size : Z) : M alloc_state Z := locked cpu me (ra_memalign alignment size).
Definition calloc (cpu me nelt eltsize : Z) : M alloc_state Z := locked cpu me (ra_calloc nelt eltsize).
Definition realloc (cpu me buf new_size : Z) : M alloc_state Z := locked cpu me (ra_realloc buf new_size).
Definition free (cpu me buf : Z) : M alloc_state unit := locked cpu me (ra_free buf).
Definition smalloc (cpu me size : Z) : M alloc_state Z := locked cpu me (ra_smalloc size).
Definition smemalign (cpu me alignment size : Z) : M alloc_state Z := locked cpu me (ra_smemalign alignment size).
Definition sfree (cpu me buf size : Z) : M alloc_state unit := locked cpu me (ra_sfree buf size).

(** The lock of core [cpu] is set up and nobody holds it. *)
Definition unlocked (cpu : Z) (s : alloc_state) : Prop :=
  exists p, lock s !! cpu = Some p /\ mutexes s !! p = Some (Mutex.mk_mutex (-1) []).

Lemma locked_free {A} cpu me (m : M H A) s a h' :
  0 <= me -> unlocked cpu s -> m (heap s) = Ok (a, h') -> locked cpu me m s = Ok (a, with_heap h' s).
Proof.
  intros Hme (p & Hl & Hp) Hm. unfold locked, get_malloc_lib_lock.
  rewrite (bind_ok _ _ _ p s); [|by rewrite Hl].
  set (s1 := with_mutexes (<[p := Mutex.mk_mutex me []]> (mutexes s)) (tstates s) s).
  rewrite (bind_ok _ _ s tt s1); [|unfold on_mutex; rewrite Hp; erewrite zoom_ok; [|by apply Mutex.mutex_lock_free]; done].
  rewrite (bind_ok (raw m) _ s1 a (with_heap h' s1)); [|by apply zoom_ok].
  rewrite (bind_ok _ _ _ p (with_heap h' s1)); [|simpl; by rewrite Hl].
  rewrite (bind_ok _ _ _ tt (with_heap h' s)); [done|].
  unfold on_mutex. simpl. rewrite lookup_insert_eq. erewrite zoom_ok; [|by apply (Mutex.mutex_unlock_free _ me)].
  unfold with_heap, with_mutexes. simpl. by rewrite insert_insert_eq, (insert_id (mutexes s)).
Qed.

(** A wrapper runs the allocator exactly once, on the heap as it is, and returns
    its result; the core's lock is free again afterwards.  While another thread
    holds the lock the caller blocks before the allocator runs. *)
Theorem wrappers_serialise {A} cpu me (m : M H A) s p x :
  0 <= me -> lock s !! cpu = Some p -> mutexes s !! p = Some x ->
  tstates s me = NORMAL ->
  (forall a h', x = Mutex.mk_mutex (-1) [] -> m (heap s) = Ok (a, h') ->
     locked cpu me m s = Ok (a, with_heap h' s) /\ unlocked cpu (with_heap h' s)) /\
  (forall o, Mutex.lock_holder x = o -> 0 <= o -> o <> me -> locked cpu me m s = Blocks).
Proof.
  intros Hme Hl Hp Hn. split.
  - intros a h' -> Hm. split; [apply locked_free; [done|by exists p|done]|by exists p].
  - intros o Ho Hpos Hne. unfold locked, get_malloc_lib_lock. rewrite (bind_ok _ _ _ p s); [|by rewrite Hl].
    unfold on_mutex, Mutex.mutex_lock, Mutex.on_mx, zoom, mbind, M_bind, Mutex.lock_section. rewrite Hp. simpl. rewrite Ho.
    rewrite (proj2 (Z.eqb_neq o (-2))), (proj2 (Z.eqb_neq o (-1))) by lia. simpl.
    rewrite (proj2 (Z.eqb_neq o me)) by done. by rewrite Hn.
Qed.

(** [malloc_init] sets up a free lock, or reports that the allocator failed. *)
Theorem malloc_init_unlocked cpu s p h' :
  ra_malloc sizeof_mutex (heap s) = Ok (p, h') ->
  exists s', malloc_init cpu s = Ok (if p =? 0 then -1 else 0, s') /\ heap s' = h' /\
    (p <> 0 -> unlocked cpu s').
Proof.
  intros Hm. unfold malloc_init. rewrite (bind_ok _ _ s p (with_heap h' s)) by (by apply zoom_ok).
  munfold. unfold modify. simpl. destruct (Z.eqb_spec p 0) as [->|Hp]; eexists; (split; [done|]); split; try done.
  intros _. exists p. simpl. by rewrite !lookup_insert_eq.
Qed.
End wrappers.
End MallocWrappers.
