(* ===== verification/Message.v ===== *)
(** * Messages between the manager core and the worker cores (src/kern/smp_message.c)

    Every worker core [cpu] in [1 .. num_worker_cores] has two queues of
    messages: slot [2 * (cpu - 1)] of [msg_queues] carries messages to the
    manager, slot [2 * (cpu - 1) + 1] messages from it.  A message is queued by
    its embedded node, which is its first field, so a node and its message have
    one address; the queues hold these addresses.  The section between
    [spinlock_lock(msg_spinlocks[id])] and the matching unlock is atomic
    (Spinlock.v), and the queues are the sequences that SimpleQueue.v shows
    simple_queue.c to implement.

    [get_thr_from_msg_queue], which turns a message into a thread, is in
    Scheduler.v with the thread control blocks it changes. *)

From S2P Require Import Prelude SimpleQueue.
From Stdlib Require Import ZArith Lia.
From stdpp Require Import base gmap list tactics numbers.

#[local] Open Scope Z_scope.

(** [msg_type_t] *)
Inductive msg_type_t :=
| FORK | THREAD_FORK | VANISH | WAIT | YIELD | MAKE_RUNNABLE | READLINE | PRINT
| SET_TERM_COLOR | SET_CURSOR_POS | GET_CURSOR_POS | SET_INIT_PCB | RESPONSE
| FORK_RESPONSE | WAIT_RESPONSE | VANISH_BACK | HALT | NONE.

#[global] Instance msg_type_eq_dec : EqDecision msg_type_t.
Proof. solve_decision. Defined.

(** [msg_t].  [data] is a union of structures of at most four words: [w0] to
    [w3] are these words, and the functions below name the members that
    overlay them.  [node_thr] is [node.thr]. *)
Record msg_t := mk_msg {
  node_thr : Z; req_thr : Z; req_cpu : Z; type : msg_type_t;
  w0 : Z; w1 : Z; w2 : Z; w3 : Z }.

Module Data.
(** [fork_data], also the request part of [FORK] *)
Definition fork_new_thr (m : msg_t) : Z := w0 m.
Definition fork_retry_times (m : msg_t) : Z := w1 m.
Definition fork_new_tid (m : msg_t) : Z := w2 m.
Definition fork_ppid (m : msg_t) : Z := w3 m.
(** [fork_response_data] *)
Definition fr_req_msg (m : msg_t) : Z := w0 m.
Definition fr_result (m : msg_t) : Z := w1 m.
(** [wait_data], [vanish_data], [set_init_pcb_data], [vanish_back_data] *)
Definition wait_pid (m : msg_t) : Z := w0 m.
Definition vanish_pid (m : msg_t) : Z := w0 m.
Definition vanish_ppid (m : msg_t) : Z := w1 m.
Definition vanish_status (m : msg_t) : Z := w2 m.
Definition init_pid (m : msg_t) : Z := w0 m.
Definition vb_ori_cpu (m : msg_t) : Z := w0 m.
(** [response_data], [wait_response_data] *)
Definition resp_result (m : msg_t) : Z := w0 m.
Definition wr_status (m : msg_t) : Z := w0 m.
Definition wr_pid (m : msg_t) : Z := w1 m.
(** [make_runnable_data], [yield_data] *)
Definition mr_tid (m : msg_t) : Z := w0 m.
Definition mr_next_core (m : msg_t) : Z := w1 m.
Definition mr_result (m : msg_t) : Z := w2 m.
(** [print_data], [readline_data], [set_cursor_pos_data], [set_term_color_data] *)
Definition io_len (m : msg_t) : Z := w0 m.
Definition io_buf (m : msg_t) : Z := w1 m.
Definition cur_row (m : msg_t) : Z := w0 m.
Definition cur_col (m : msg_t) : Z := w1 m.
Definition color (m : msg_t) : Z := w0 m.
End Data.

Definition set_type (t : msg_type_t) (m : msg_t) : msg_t :=
  mk_msg (node_thr m) (req_thr m) (req_cpu m) t (w0 m) (w1 m) (w2 m) (w3 m).
Definition set_req (thr cpu : Z) (m : msg_t) : msg_t :=
  mk_msg (node_thr m) thr cpu (type m) (w0 m) (w1 m) (w2 m) (w3 m).
Definition set_w0 (v : Z) (m : msg_t) : msg_t :=
  mk_msg (node_thr m) (req_thr m) (req_cpu m) (type m) v (w1 m) (w2 m) (w3 m).
Definition set_w1 (v : Z) (m : msg_t) : msg_t :=
  mk_msg (node_thr m) (req_thr m) (req_cpu m) (type m) (w0 m) v (w2 m) (w3 m).
Definition set_w2 (v : Z) (m : msg_t) : msg_t :=
  mk_msg (node_thr m) (req_thr m) (req_cpu m) (type m) (w0 m) (w1 m) v (w3 m).
Definition set_w3 (v : Z) (m : msg_t) : msg_t :=
  mk_msg (node_thr m) (req_thr m) (req_cpu m) (type m) (w0 m) (w1 m) (w2 m) v.

(** ** What the message layer promises: one FIFO channel in each direction per core *)
Module ChanSpec.
Record chans := mk_chans { to_manager : Z -> list Z; to_worker : Z -> list Z }.
Definition empty : chans := mk_chans (fun _ => []) (fun _ => []).
Definition send_manager (c : chans) (cpu m : Z) : chans :=
  mk_chans (fupd (to_manager c) cpu (QSpec.enqueue (to_manager c cpu) m)) (to_worker c).
Definition send_worker (c : chans) (cpu m : Z) : chans :=
  mk_chans (to_manager c) (fupd (to_worker c) cpu (QSpec.enqueue (to_worker c cpu) m)).
Definition recv_worker (c : chans) (cpu : Z) : option (Z * chans) :=
  match QSpec.dequeue (to_worker c cpu) with
  | Some (m, q) => Some (m, mk_chans (to_manager c) (fupd (to_worker c) cpu q))
  | None => None
  end.
Definition recv_from (c : chans) (cpu : Z) : option (Z * chans) :=
  match QSpec.dequeue (to_manager c cpu) with
  | Some (m, q) => Some (m, mk_chans (fupd (to_manager c) cpu q) (to_worker c))
  | None => None
  end.
(** The manager takes the oldest message of the first core that has one. *)
Fixpoint recv_manager (n : nat) (c : chans) (cpu : Z) : option (Z * chans) :=
  match n with
  | O => None
  | S n => match recv_from c cpu with
           | Some r => Some r
           | None => recv_manager n c (cpu + 1)
           end
  end.
End ChanSpec.

Module Message.

(** The queue objects are in [qs] and the initialised spinlocks in [locks], by
    address; [answers] are the results of the coming calls of [malloc], NULL
    once it is empty. *)
Record net := mk_net {
  num_worker_cores : Z; msg_queues : gmap Z Z; msg_spinlocks : gmap Z Z;
  qs : gmap Z (list Z); locks : gset Z; msgs : gmap Z msg_t; answers : list Z }.

Definition with_queues f g (n : net) := mk_net (num_worker_cores n) f g (qs n) (locks n) (msgs n) (answers n).
Definition with_qs x (n : net) := mk_net (num_worker_cores n) (msg_queues n) (msg_spinlocks n) x (locks n) (msgs n) (answers n).
Definition with_locks x (n : net) := mk_net (num_worker_cores n) (msg_queues n) (msg_spinlocks n) (qs n) x (msgs n) (answers n).
Definition with_msgs x (n : net) := mk_net (num_worker_cores n) (msg_queues n) (msg_spinlocks n) (qs n) (locks n) x (answers n).
Definition with_answers x (n : net) := mk_net (num_worker_cores n) (msg_queues n) (msg_spinlocks n) (qs n) (locks n) (msgs n) x.
Definition with_workers x (n : net) := mk_net x (msg_queues n) (msg_spinlocks n) (qs n) (locks n) (msgs n) (answers n).

Definition malloc : M net Z := fun n =>
  match answers n with
  | [] => Ok (0, n)
  | p :: l => Ok (p, with_answers l n)
  end.

Definition rd (p : Z) : M net msg_t := fun n => deref (msgs n !! p) n.
Definition upd (p : Z) (f : msg_t -> msg_t) : M net unit :=
  m ← rd p; modify (fun n => with_msgs (<[p := f m]> (msgs n)) n).

(** The queue in slot [id], while its spinlock is held. *)
Definition locked_queue (id : Z) : M net (Z * list Z) := fun n =>
  match msg_spinlocks n !! id, msg_queues n !! id with
  | Some l, Some p =>
      if bool_decide (l ∈ locks n)
      then match qs n !! p with Some q => Ok ((p, q), n) | None => Fault end
      else Fault
  | _, _ => Fault
  end.

Definition set_queue (p : Z) (q : list Z) : M net unit := modify (fun n => with_qs (<[p := q]> (qs n)) n).

(** [msg_init], with the number of cores the board has. *)
Definition msg_init (num_cpus : Z) : M net Z :=
  if num_cpus <=? 1 then panic else
  let w := num_cpus - 1 in
  modify (with_workers w);;
  q ← malloc;
  if q =? 0 then mret (-1) else
  modify (fun n => with_queues (zeros (2 * w)) (msg_spinlocks n) n);;
  l ← malloc;
  if l =? 0 then mret (-1) else
  modify (fun n => with_queues (msg_queues n) (zeros (2 * w)) n);;
  mret 0.

Definition slot_set (id p l : Z) : M net unit := fun n =>
  match msg_queues n !! id, msg_spinlocks n !! id with
  | Some _, Some _ => Ok (tt, with_queues (<[id := p]> (msg_queues n)) (<[id := l]> (msg_spinlocks n)) n)
  | _, _ => Fault
  end.

(** [init_ap_msg] on core [cur_cpu]. *)
Definition init_ap_msg (cur_cpu : Z) : M net Z :=
  inq ← malloc;
  if inq =? 0 then mret (-1) else
  outq ← malloc;
  if outq =? 0 then mret (-1) else
  set_queue inq [];; set_queue outq [];;
  inq_lock ← malloc;
  if inq_lock =? 0 then mret (-1) else
  outq_lock ← malloc;
  if outq_lock =? 0 then mret (-1) else
  modify (fun n => with_locks ({[inq_lock; outq_lock]} ∪ locks n) n);;
  slot_set ((cur_cpu - 1) * 2) outq outq_lock;;
  slot_set ((cur_cpu - 1) * 2 + 1) inq inq_lock;;
  mret 0.

(** The barrier [msg_synchronize]: it ends when no slot is NULL, and spins
    until then. *)
Fixpoint sync_loop (k : nat) (i : Z) : M net unit :=
  match k with
  | O => mret tt
  | S k => fun n =>
      match msg_queues n !! i, msg_spinlocks n !! i with
      | Some q, Some l => if (q =? 0) || (l =? 0) then Blocks else sync_loop k (i + 1) n
      | _, _ => Fault
      end
  end.
Definition msg_synchronize : M net unit := fun n => sync_loop (Z.to_nat (2 * num_worker_cores n)) 0 n.

Definition worker_send_msg (cpu msg : Z) : M net unit :=
  '(p, q) ← locked_queue ((cpu - 1) * 2);
  rd msg;;
  set_queue p (QSpec.enqueue q msg).

(** Taking the node of the next message out of slot [id]; NULL if there is none. *)
Definition dequeue_slot (id : Z) : M net Z :=
  '(p, q) ← locked_queue id;
  match QSpec.dequeue q with
  | None => mret 0
  | Some (x, q') => set_queue p q';; mret x
  end.

Definition worker_recv_msg (cpu : Z) : M net Z :=
  msg_node ← dequeue_slot ((cpu - 1) * 2 + 1);
  if msg_node =? 0 then mret 0 else m ← rd msg_node; mret (node_thr m).

Definition manager_send_msg (msg dest_cpu : Z) : M net unit :=
  '(p, q) ← locked_queue ((dest_cpu - 1) * 2 + 1);
  rd msg;;
  set_queue p (QSpec.enqueue q msg).

(** The polling loop of [manager_recv_msg]. *)
Fixpoint poll_loop (fuel : nat) (i : Z) : M net Z :=
  match fuel with
  | O => nofuel
  | S fuel =>
      msg_node ← dequeue_slot i;
      if negb (msg_node =? 0) then mret msg_node
      else n ← get; poll_loop fuel ((i + 2) mod (2 * num_worker_cores n))
  end.

Definition manager_recv_msg (fuel : nat) : M net Z :=
  msg_node ← poll_loop fuel 0; m ← rd msg_node; mret (node_thr m).

(** ** The slots implement the channels *)

Definition content (c : ChanSpec.chans) (id : Z) : list Z :=
  if Z.even id then ChanSpec.to_manager c (id / 2 + 1) else ChanSpec.to_worker c (id / 2 + 1).

Definition set_content (c : ChanSpec.chans) (id : Z) (q : list Z) : ChanSpec.chans :=
  if Z.even id then ChanSpec.mk_chans (fupd (ChanSpec.to_manager c) (id / 2 + 1) q) (ChanSpec.to_worker c)
  else ChanSpec.mk_chans (ChanSpec.to_manager c) (fupd (ChanSpec.to_worker c) (id / 2 + 1) q).

(** A queued message: its node points back to it. *)
Definition msg_ok (n : net) (m : Z) : Prop := m <> 0 /\ exists mm, msgs n !! m = Some mm /\ node_thr mm = m.

Record net_rep (n : net) (c : ChanSpec.chans) : Prop := {
  nr_workers : 0 < num_worker_cores n;
  nr_slot : forall id, 0 <= id < 2 * num_worker_cores n ->
    exists l p, msg_spinlocks n !! id = Some l /\ l ∈ locks n /\
      msg_queues n !! id = Some p /\ qs n !! p = Some (content c id);
  nr_inj : forall i j p, 0 <= i < 2 * num_worker_cores n -> 0 <= j < 2 * num_worker_cores n ->
    msg_queues n !! i = Some p -> msg_queues n !! j = Some p -> i = j;
  nr_msgs : forall id m, 0 <= id < 2 * num_worker_cores n -> m ∈ content c id -> msg_ok n m
}.

Lemma even_slot cpu : Z.even ((cpu - 1) * 2) = true /\ (cpu - 1) * 2 / 2 + 1 = cpu.
Proof. rewrite Z.mul_comm, Z.even_mul. split; [done|]. rewrite Z.mul_comm, Z.div_mul by lia. lia. Qed.

Lemma odd_slot cpu : Z.even ((cpu - 1) * 2 + 1) = false /\ ((cpu - 1) * 2 + 1) / 2 + 1 = cpu.
Proof.
  split.
  - rewrite Z.even_add, (proj1 (even_slot cpu)). done.
  - rewrite Z.div_add_l by lia. change (1 / 2) with 0. lia.
Qed.

Lemma content_manager c cpu : content c ((cpu - 1) * 2) = ChanSpec.to_manager c cpu.
Proof. unfold content. by destruct (even_slot cpu) as [-> ->]. Qed.
Lemma content_worker c cpu : content c ((cpu - 1) * 2 + 1) = ChanSpec.to_worker c cpu.
Proof. unfold content. by destruct (odd_slot cpu) as [-> ->]. Qed.
Lemma set_content_manager c cpu q :
  set_content c ((cpu - 1) * 2) q = ChanSpec.mk_chans (fupd (ChanSpec.to_manager c) cpu q) (ChanSpec.to_worker c).
Proof. unfold set_content. by destruct (even_slot cpu) as [-> ->]. Qed.
Lemma set_content_worker c cpu q :
  set_content c ((cpu - 1) * 2 + 1) q = ChanSpec.mk_chans (ChanSpec.to_manager c) (fupd (ChanSpec.to_worker c) cpu q).
Proof. unfold set_content. by destruct (odd_slot cpu) as [-> ->]. Qed.

Lemma content_set c id q id' : content (set_content c id q) id' = if id' =? id then q else content c id'.
Proof.
  unfold content, set_content. pose proof (Z.div_mod id 2 ltac:(lia)). pose proof (Z.div_mod id' 2 ltac:(lia)).
  rewrite !Zmod_odd, <- !Z.negb_even in *.
  destruct (Z.eqb_spec id' id) as [->|].
  - destruct (Z.even id); apply fupd_eq.
  - destruct (Z.even id) eqn:E, (Z.even id') eqn:E'; simpl in *; try done; apply fupd_ne; lia.
Qed.

(** Reading a slot and putting a new queue into it. *)
Lemma slot_step n c id : net_rep n c -> 0 <= id < 2 * num_worker_cores n ->
  exists p, locked_queue id n = Ok ((p, content c id), n) /\
    forall q, (forall m, m ∈ q -> msg_ok n m) -> net_rep (with_qs (<[p := q]> (qs n)) n) (set_content c id q).
Proof.
  intros [Hw Hs Hi Hm] Hid. destruct (Hs id Hid) as (l & p & Hl & Hin & Hp & Hq). exists p. split.
  { unfold locked_queue. rewrite Hl, Hp, bool_decide_true by done. by rewrite Hq. }
  intros q Hok. split; simpl; [done| |done|].
  - intros id' Hid'. destruct (Hs id' Hid') as (l' & p' & Hl' & Hin' & Hp' & Hq'). exists l', p'.
    do 3 (split; [done|]). rewrite content_set. destruct (Z.eqb_spec id' id) as [->|Hne].
    + assert (p' = p) as -> by congruence. by rewrite lookup_insert_eq.
    + rewrite lookup_insert_ne; [done|]. intros ->. apply Hne. by eapply Hi.
  - intros id' m Hid'. rewrite content_set. destruct (id' =? id); [apply Hok|by apply Hm].
Qed.

(** Changing messages without touching their nodes keeps the channels. *)
Lemma net_rep_msgs n c ms : net_rep n c ->
  (forall m mm, msgs n !! m = Some mm -> exists mm', ms !! m = Some mm' /\ node_thr mm' = node_thr mm) ->
  net_rep (with_msgs ms n) c.
Proof.
  intros [Hw Hs Hi Hm] Hk. split; simpl; [done..|]. intros id m Hid Hin.
  destruct (Hm id m Hid Hin) as (H0 & mm & Hmm & Ht). split; [done|].
  destruct (Hk m mm Hmm) as (mm' & H1 & H2). exists mm'. split; [done|]. simpl in *. congruence.
Qed.

Lemma net_rep_answers n c l : net_rep n c -> net_rep (with_answers l n) c.
Proof. intros [H1 H2 H3 H4]. by split. Qed.

Lemma dequeue_slot_ok n c id : net_rep n c -> 0 <= id < 2 * num_worker_cores n ->
  match QSpec.dequeue (content c id) with
  | None => dequeue_slot id n = Ok (0, n)
  | Some (m, q) => msg_ok n m /\ exists p, dequeue_slot id n = Ok (m, with_qs (<[p := q]> (qs n)) n) /\
      net_rep (with_qs (<[p := q]> (qs n)) n) (set_content c id q)
  end.
Proof.
  intros Hr Hid. destruct (slot_step n c id Hr Hid) as (p & Hl & Hset).
  unfold dequeue_slot. pose proof (nr_msgs _ _ Hr id) as Hm.
  destruct (content c id) as [|m q]; simpl; rewrite (bind_ok _ _ _ _ _ Hl); [done|].
  split; [apply Hm; [done|set_solver]|]. exists p. split; [done|]. apply Hset. intros x Hx. apply Hm; [done|set_solver].
Qed.

Lemma rd_ok n m mm : msgs n !! m = Some mm -> rd m n = Ok (mm, n).
Proof. intros H. unfold rd. by rewrite H. Qed.

Lemma upd_ok n m mm f : msgs n !! m = Some mm -> upd m f n = Ok (tt, with_msgs (<[m := f mm]> (msgs n)) n).
Proof. intros H. unfold upd. by rewrite (bind_ok _ _ _ _ _ (rd_ok _ _ _ H)). Qed.

Lemma enqueue_msgs n m q : msg_ok n m -> (forall x, x ∈ q -> msg_ok n x) -> forall x, x ∈ QSpec.enqueue q m -> msg_ok n x.
Proof. unfold QSpec.enqueue. set_solver. Qed.

Lemma manager_send_ok n c m cpu : net_rep n c -> msg_ok n m -> 1 <= cpu <= num_worker_cores n ->
  exists p, manager_send_msg m cpu n = Ok (tt, with_qs (<[p := QSpec.enqueue (ChanSpec.to_worker c cpu) m]> (qs n)) n) /\
    net_rep (with_qs (<[p := QSpec.enqueue (ChanSpec.to_worker c cpu) m]> (qs n)) n) (ChanSpec.send_worker c cpu m).
Proof.
  intros Hr Hm Hc. destruct (slot_step n c ((cpu - 1) * 2 + 1) Hr ltac:(lia)) as (p & Hl & Hset).
  pose proof (nr_msgs _ _ Hr ((cpu - 1) * 2 + 1)) as Hq. rewrite content_worker in *. exists p. split.
  - unfold manager_send_msg. rewrite (bind_ok _ _ _ _ _ Hl). destruct Hm as (_ & mm & Hmm & _).
    by rewrite (bind_ok _ _ _ _ _ (rd_ok _ _ _ Hmm)).
  - unfold ChanSpec.send_worker. rewrite <- set_content_worker. apply Hset, enqueue_msgs; [done|].
    intros x. apply Hq. lia.
Qed.

Lemma worker_send_ok n c m cpu : net_rep n c -> msg_ok n m -> 1 <= cpu <= num_worker_cores n ->
  exists p, worker_send_msg cpu m n = Ok (tt, with_qs (<[p := QSpec.enqueue (ChanSpec.to_manager c cpu) m]> (qs n)) n) /\
    net_rep (with_qs (<[p := QSpec.enqueue (ChanSpec.to_manager c cpu) m]> (qs n)) n) (ChanSpec.send_manager c cpu m).
Proof.
  intros Hr Hm Hc. destruct (slot_step n c ((cpu - 1) * 2) Hr ltac:(lia)) as (p & Hl & Hset).
  pose proof (nr_msgs _ _ Hr ((cpu - 1) * 2)) as Hq. rewrite content_manager in *. exists p. split.
  - unfold worker_send_msg. rewrite (bind_ok _ _ _ _ _ Hl). destruct Hm as (_ & mm & Hmm & _).
    by rewrite (bind_ok _ _ _ _ _ (rd_ok _ _ _ Hmm)).
  - unfold ChanSpec.send_manager. rewrite <- set_content_manager. apply Hset, enqueue_msgs; [done|].
    intros x. apply Hq. lia.
Qed.

Lemma worker_recv_ok n c cpu : net_rep n c -> 1 <= cpu <= num_worker_cores n ->
  match ChanSpec.recv_worker c cpu with
  | None => worker_recv_msg cpu n = Ok (0, n)
  | Some (m, c') => msg_ok n m /\ exists p q, worker_recv_msg cpu n = Ok (m, with_qs (<[p := q]> (qs n)) n) /\
      net_rep (with_qs (<[p := q]> (qs n)) n) c'
  end.
Proof.
  intros Hr Hc. pose proof (dequeue_slot_ok n c ((cpu - 1) * 2 + 1) Hr ltac:(lia)) as H.
  unfold ChanSpec.recv_worker, worker_recv_msg. rewrite content_worker in H.
  destruct (QSpec.dequeue (ChanSpec.to_worker c cpu)) as [[m q]|].
  - destruct H as (Hm & p & Hd & Hr'). rewrite set_content_worker in Hr'. split; [done|]. exists p, q.
    split; [|done]. rewrite (bind_ok _ _ _ _ _ Hd). destruct Hm as (H0 & mm & Hmm & Ht).
    rewrite (proj2 (Z.eqb_neq m 0)) by done. by rewrite (bind_ok _ _ _ _ _ (rd_ok (with_qs _ n) m mm Hmm)), Ht.
  - rewrite (bind_ok _ _ _ _ _ H). done.
Qed.

(** A sweep of the polling loop from core [cpu] to the last core. *)
Lemma poll_sweep n c m c' k fuel cpu : net_rep n c -> 1 <= cpu -> cpu + Z.of_nat k = num_worker_cores n + 1 ->
  (k <= fuel)%nat -> ChanSpec.recv_manager k c cpu = Some (m, c') ->
  msg_ok n m /\ exists p q, poll_loop fuel ((cpu - 1) * 2) n = Ok (m, with_qs (<[p := q]> (qs n)) n) /\
    net_rep (with_qs (<[p := q]> (qs n)) n) c'.
Proof.
  intros Hr. revert fuel cpu. induction k as [|k IH]; intros fuel cpu Hc Hk Hf H; [done|].
  destruct fuel as [|fuel]; [lia|]. cbn [ChanSpec.recv_manager] in H. cbn [poll_loop].
  pose proof (dequeue_slot_ok n c ((cpu - 1) * 2) Hr ltac:(lia)) as Hd. rewrite content_manager in Hd.
  unfold ChanSpec.recv_from in H. destruct (QSpec.dequeue (ChanSpec.to_manager c cpu)) as [[x q]|].
  - injection H as -> <-. destruct Hd as (Hm & p & Hd & Hr'). rewrite set_content_manager in Hr'.
    split; [done|]. exists p, q. split; [|done]. rewrite (bind_ok _ _ _ _ _ Hd), (proj2 (Z.eqb_neq m 0)) by apply Hm. done.
  - rewrite (bind_ok _ _ _ _ _ Hd). cbn [negb Z.eqb].
    rewrite (bind_ok get _ n n n eq_refl). destruct k as [|k]; [done|].
    rewrite Z.mod_small by lia. replace ((cpu - 1) * 2 + 2) with ((cpu + 1 - 1) * 2) by lia.
    apply IH; [lia|lia|lia|done].
Qed.

(** [manager_send_msg] appends the message to the channel of the destination
    core, and changes no other channel. *)
Theorem manager_send_msg_refines n c m cpu :
  net_rep n c -> msg_ok n m -> 1 <= cpu <= num_worker_cores n ->
  exists n', manager_send_msg m cpu n = Ok (tt, n') /\ net_rep n' (ChanSpec.send_worker c cpu m) /\ msgs n' = msgs n.
Proof. intros Hr Hm Hc. destruct (manager_send_ok n c m cpu Hr Hm Hc) as (p & R & Hr'). eauto. Qed.

(** [worker_recv_msg] returns the oldest message the manager sent to this core,
    or NULL when there is none. *)
Theorem worker_recv_msg_refines n c cpu :
  net_rep n c -> 1 <= cpu <= num_worker_cores n ->
  match ChanSpec.recv_worker c cpu with
  | None => worker_recv_msg cpu n = Ok (0, n)
  | Some (m, c') => exists n', worker_recv_msg cpu n = Ok (m, n') /\ net_rep n' c' /\ msgs n' = msgs n
  end.
Proof.
  intros Hr Hc. pose proof (worker_recv_ok n c cpu Hr Hc) as H.
  destruct (ChanSpec.recv_worker c cpu) as [[m c']|]; [|done]. destruct H as (_ & p & q & R & Hr'). eauto.
Qed.

(** [worker_send_msg] appends the message to the channel of the sending core. *)
Theorem worker_send_msg_refines n c m cpu :
  net_rep n c -> msg_ok n m -> 1 <= cpu <= num_worker_cores n ->
  exists n', worker_send_msg cpu m n = Ok (tt, n') /\ net_rep n' (ChanSpec.send_manager c cpu m) /\ msgs n' = msgs n.
Proof. intros Hr Hm Hc. destruct (worker_send_ok n c m cpu Hr Hm Hc) as (p & R & Hr'). eauto. Qed.

Lemma manager_recv_ok n c m c' fuel :
  net_rep n c -> (Z.to_nat (num_worker_cores n) <= fuel)%nat ->
  ChanSpec.recv_manager (Z.to_nat (num_worker_cores n)) c 1 = Some (m, c') ->
  exists p q, manager_recv_msg fuel n = Ok (m, with_qs (<[p := q]> (qs n)) n) /\ net_rep (with_qs (<[p := q]> (qs n)) n) c'.
Proof.
  intros Hr Hf H. pose proof (nr_workers _ _ Hr).
  destruct (poll_sweep n c m c' (Z.to_nat (num_worker_cores n)) fuel 1 Hr ltac:(lia) ltac:(lia) Hf H) as (Hm & p & q & R & Hr').
  exists p, q. split; [|done]. unfold manager_recv_msg.
  change ((1 - 1) * 2) with 0 in R. rewrite (bind_ok _ _ _ _ _ R). destruct Hm as (_ & mm & Hmm & Ht).
  by rewrite (bind_ok _ _ _ _ _ (rd_ok (with_qs _ n) m mm Hmm)), Ht.
Qed.

(** (C21) The polling loop of [manager_recv_msg] ends within one sweep over the cores
    when some core has a message, and returns the oldest message of the first
    such core. *)
Theorem manager_recv_msg_refines n c m c' fuel :
  net_rep n c -> (Z.to_nat (num_worker_cores n) <= fuel)%nat ->
  ChanSpec.recv_manager (Z.to_nat (num_worker_cores n)) c 1 = Some (m, c') ->
  exists n', manager_recv_msg fuel n = Ok (m, n') /\ net_rep n' c' /\ msgs n' = msgs n.
Proof. intros Hr Hf H. destruct (manager_recv_ok n c m c' fuel Hr Hf H) as (p & q & R & Hr'). eauto. Qed.

(** ** Booting the message layer *)

(** The slots of the cores in [B] are set up and their queues empty, the slots
    of the other cores are NULL. *)
Record boot_inv (n : net) (w : Z) (B : gset Z) : Prop := {
  bi_workers : num_worker_cores n = w;
  bi_ready : forall id, 0 <= id < 2 * w -> id / 2 + 1 ∈ B ->
    exists l p, msg_spinlocks n !! id = Some l /\ l <> 0 /\ l ∈ locks n /\
      msg_queues n !! id = Some p /\ p <> 0 /\ qs n !! p = Some [];
  bi_null : forall id, 0 <= id < 2 * w -> id / 2 + 1 ∉ B ->
    msg_spinlocks n !! id = Some 0 /\ msg_queues n !! id = Some 0;
  bi_inj : forall i j p, 0 <= i < 2 * w -> 0 <= j < 2 * w -> p <> 0 ->
    msg_queues n !! i = Some p -> msg_queues n !! j = Some p -> i = j;
  bi_answers : NoDup (answers n) /\ 0 ∉ answers n;
  bi_fresh : forall i p, msg_queues n !! i = Some p -> p ∉ answers n
}.

Lemma slot_cases cpu id : 1 <= cpu -> id / 2 + 1 = cpu <-> id = (cpu - 1) * 2 \/ id = (cpu - 1) * 2 + 1.
Proof.
  intros _. pose proof (Z.div_mod id 2 ltac:(lia)). pose proof (Z.mod_pos_bound id 2 ltac:(lia)). lia.
Qed.

(** Handing out addresses keeps the invariant. *)
Lemma boot_inv_answers n w B l1 l2 : boot_inv n w B -> answers n = l1 ++ l2 -> boot_inv (with_answers l2 n) w B.
Proof.
  intros [H1 H2 H3 H4 [H5 H5'] H6] E. rewrite E in *. split; simpl; try done.
  - split; [by apply list.NoDup_app in H5 as (_ & _ & ?)|set_solver].
  - intros i p Hp. specialize (H6 i p Hp). set_solver.
Qed.

Lemma init_ap_msg_ok n w B cpu inq outq il ol rest :
  boot_inv n w B -> 1 <= cpu <= w -> cpu ∉ B -> answers n = inq :: outq :: il :: ol :: rest ->
  exists n', init_ap_msg cpu n = Ok (0, n') /\ boot_inv n' w ({[cpu]} ∪ B) /\ answers n' = rest.
Proof.
  intros [Hw Hre Hnu Hi [Hnd H0] Hfr] Hc HcB Ha. rewrite Ha in *.
  assert (inq <> 0 /\ outq <> 0 /\ il <> 0 /\ ol <> 0 /\ inq <> outq) as (N1 & N2 & N3 & N4 & N5).
  { rewrite !list.NoDup_cons in Hnd. set_solver. }
  assert (Hs : forall k, k = (cpu - 1) * 2 \/ k = (cpu - 1) * 2 + 1 -> msg_spinlocks n !! k = Some 0 /\ msg_queues n !! k = Some 0).
  { intros k Hk. apply Hnu; [lia|]. by rewrite (proj2 (slot_cases cpu k ltac:(lia)) Hk). }
  destruct (Hs _ (or_introl eq_refl)) as [L0 Q0]. destruct (Hs _ (or_intror eq_refl)) as [L1 Q1].
  set (e := (cpu - 1) * 2) in *.
  eexists. split; [|split].
  - unfold init_ap_msg, malloc. munfold. rewrite Ha. rewrite (proj2 (Z.eqb_neq inq 0)) by done. simpl.
    rewrite (proj2 (Z.eqb_neq outq 0)) by done. simpl. rewrite (proj2 (Z.eqb_neq il 0)) by done. simpl.
    rewrite (proj2 (Z.eqb_neq ol 0)) by done. simpl. unfold slot_set. simpl. fold e. rewrite Q0, L0. simpl.
    rewrite !lookup_insert_ne by lia. rewrite Q1, L1. reflexivity.
  - assert (Hin : forall id, id / 2 + 1 ∈ ({[cpu]} ∪ B : gset Z) <-> (id = e \/ id = e + 1) \/ id / 2 + 1 ∈ B).
    { intros id. rewrite elem_of_union, elem_of_singleton, slot_cases by lia. done. }
    split; simpl; [done| | | |split|].
    + intros id Hid [Hx|Hx]%Hin.
      * destruct Hx as [-> | ->].
        -- exists ol, outq. rewrite !(lookup_insert_ne _ (e + 1)) by lia. rewrite !lookup_insert_eq. set_solver.
        -- exists il, inq. rewrite !lookup_insert_eq, (lookup_insert_ne _ outq), lookup_insert_eq by done. set_solver.
      * destruct (Hre id Hid Hx) as (l & p & ? & ? & ? & Hp & ? & ?). exists l, p.
        assert (Hne : ~ (id = e \/ id = e + 1)).
        { intros Hk. apply HcB. by rewrite <- (proj2 (slot_cases cpu id ltac:(lia)) Hk). }
        apply Decidable.not_or in Hne as [? ?].
        rewrite !(lookup_insert_ne _ (e + 1)), !(lookup_insert_ne _ e) by done.
        pose proof (Hfr id p Hp). rewrite !lookup_insert_ne by set_solver. set_solver.
    + intros id Hid Hx. rewrite Hin in Hx.
      rewrite !(lookup_insert_ne _ (e + 1)), !(lookup_insert_ne _ e) by (intros Hk; apply Hx; left; lia).
      apply Hnu; [done|]. intros ?. apply Hx. by right.
    + intros i j p Hii Hjj Hp Hpi Hpj. rewrite !lookup_insert_Some in Hpi, Hpj.
      assert (forall k q, msg_queues n !! k = Some q -> q <> inq /\ q <> outq) as Hf by (intros k q Hq; pose proof (Hfr k q Hq); set_solver).
      destruct Hpi as [[? ?]|[? [[? ?]|[? E1]]]], Hpj as [[? ?]|[? [[? ?]|[? E2]]]]; try congruence;
        try (apply Hf in E1; destruct E1; congruence); try (apply Hf in E2; destruct E2; congruence). by apply (Hi i j p).
    + by do 4 apply NoDup_cons_1_2 in Hnd.
    + set_solver.
    + intros i p Hp. rewrite !lookup_insert_Some in Hp.
      destruct Hp as [[? <-]|[? [[? <-]|[? E1]]]]; [| |pose proof (Hfr _ _ E1); set_solver];
        rewrite !list.NoDup_cons in Hnd; set_solver.
  - done.
Qed.

(** Booting the worker cores in the order [l]. *)
Fixpoint boot_cores (l : list Z) : M net Z :=
  match l with
  | [] => mret 0
  | cpu :: l => rv ← init_ap_msg cpu; if rv <? 0 then mret rv else boot_cores l
  end.

Lemma boot_cores_ok w l n B : boot_inv n w B -> NoDup l -> (forall cpu, cpu ∈ l -> 1 <= cpu <= w /\ cpu ∉ B) ->
  (4 * length l <= length (answers n))%nat ->
  exists n', boot_cores l n = Ok (0, n') /\ boot_inv n' w (list_to_set l ∪ B).
Proof.
  revert n B. induction l as [|cpu l IH]; intros n B Hb Hnd Hl Ha.
  { exists n. split; [done|]. by rewrite list_to_set_nil, (left_id_L ∅ (∪)). }
  destruct (answers n) as [|a1 [|a2 [|a3 [|a4 rest]]]] eqn:E; simpl in Ha; try lia.
  destruct (Hl cpu ltac:(set_solver)) as [Hc HcB]. apply list.NoDup_cons in Hnd as [Hcl Hnd].
  destruct (init_ap_msg_ok n w B cpu _ _ _ _ _ Hb Hc HcB E) as (n1 & R1 & Hb1 & Ha1).
  destruct (IH n1 ({[cpu]} ∪ B) Hb1 Hnd) as (n' & R & Hb').
  - intros x Hx. destruct (Hl x ltac:(set_solver)). split; [done|]. set_solver.
  - rewrite Ha1. lia.
  - exists n'. split; [cbn [boot_cores]; by rewrite (bind_ok _ _ _ _ _ R1)|]. rewrite list_to_set_cons.
    replace ({[cpu]} ∪ list_to_set l ∪ B) with (list_to_set l ∪ ({[cpu]} ∪ B)) by set_solver. done.
Qed.

Lemma sync_loop_ok n w B k i : boot_inv n w B -> (forall cpu, 1 <= cpu <= w -> cpu ∈ B) -> 0 <= i -> i + Z.of_nat k = 2 * w ->
  sync_loop k i n = Ok (tt, n).
Proof.
  intros Hb HB. revert i. induction k as [|k IH]; intros i Hi Hk; [done|]. cbn [sync_loop].
  assert (i / 2 < w) by (apply Z.div_lt_upper_bound; lia). pose proof (Z.div_pos i 2 Hi ltac:(lia)).
  destruct (bi_ready _ _ _ Hb i ltac:(lia)) as (l & p & -> & Hl & _ & -> & Hp & _); [apply HB; lia|].
  rewrite (proj2 (Z.eqb_neq p 0)), (proj2 (Z.eqb_neq l 0)) by done. cbn [orb]. apply IH; lia.
Qed.

Lemma boot_inv_rep n w B : boot_inv n w B -> 0 < w -> (forall cpu, 1 <= cpu <= w -> cpu ∈ B) -> net_rep n ChanSpec.empty.
Proof.
  intros [Hw Hre Hnu Hi Ha Hfr] Hpos HB.
  assert (HinB : forall id, 0 <= id < 2 * w -> id / 2 + 1 ∈ B).
  { intros id Hid. apply HB. assert (id / 2 < w) by (apply Z.div_lt_upper_bound; lia).
    pose proof (Z.div_pos id 2 ltac:(lia) ltac:(lia)). lia. }
  assert (Hc : forall id, content ChanSpec.empty id = []) by (intros id; unfold content; by destruct (Z.even id)).
  split; rewrite ?Hw; [done| | |].
  - intros id Hid. rewrite Hc. destruct (Hre id Hid (HinB id Hid)) as (l & p & ? & ? & ? & ? & ? & ?). eauto 7.
  - intros i j p Hii Hjj Hp Hq. apply (Hi i j p); [done..| |done|done].
    destruct (Hre i Hii (HinB i Hii)) as (? & ? & ? & ? & ? & ? & ? & ?). congruence.
  - intros id m _. rewrite Hc. set_solver.
Qed.

Lemma msg_init_ok n num_cpus q l rest : 1 < num_cpus -> answers n = q :: l :: rest -> NoDup (answers n) -> 0 ∉ answers n ->
  exists n', msg_init num_cpus n = Ok (0, n') /\ boot_inv n' (num_cpus - 1) ∅ /\ answers n' = rest.
Proof.
  intros Hc Ha Hnd H0. rewrite Ha in *. unfold msg_init. rewrite (proj2 (Z.leb_gt num_cpus 1)) by lia.
  eexists. split; [|split].
  - munfold. unfold modify, malloc. simpl. rewrite Ha. rewrite (proj2 (Z.eqb_neq q 0)) by set_solver. simpl.
    rewrite (proj2 (Z.eqb_neq l 0)) by set_solver. reflexivity.
  - split; simpl; [done|set_solver| | |split|].
    + intros id Hid _. by rewrite zeros_lookup by lia.
    + intros i j p Hi Hj Hp. rewrite zeros_lookup by lia. congruence.
    + by do 2 apply NoDup_cons_1_2 in Hnd.
    + set_solver.
    + intros i p Hp. destruct (proj1 (zeros_dom (2 * (num_cpus - 1)) i)); [eauto|].
      rewrite zeros_lookup in Hp by lia. injection Hp as <-. set_solver.
  - done.
Qed.

Lemma msg_boot_ok n num_cpus l :
  1 < num_cpus -> l ≡ₚ seqZ 1 (num_cpus - 1) ->
  NoDup (answers n) -> 0 ∉ answers n -> (2 + 4 * length l <= length (answers n))%nat ->
  exists n', (msg_init num_cpus;; boot_cores l;; msg_synchronize) n = Ok (tt, n') /\ net_rep n' ChanSpec.empty.
Proof.
  intros Hc Hp Hnd H0 Ha. destruct (answers n) as [|q [|ll rest]] eqn:E; simpl in Ha; try lia. rewrite <- E in Hnd, H0.
  destruct (msg_init_ok n num_cpus q ll rest Hc E Hnd H0) as (n1 & R1 & Hb1 & Ha1).
  assert (Hl : forall cpu, cpu ∈ l <-> 1 <= cpu <= num_cpus - 1) by (intros cpu; rewrite Hp, elem_of_seqZ; lia).
  destruct (boot_cores_ok _ l n1 ∅ Hb1) as (n2 & R2 & Hb2).
  - rewrite Hp. apply NoDup_seqZ.
  - intros cpu Hx%Hl. set_solver.
  - rewrite Ha1. lia.
  - exists n2. assert (HB : forall cpu, 1 <= cpu <= num_cpus - 1 -> cpu ∈ (list_to_set l ∪ ∅ : gset Z)) by (intros cpu; set_solver).
    split; [|by apply (boot_inv_rep n2 (num_cpus - 1) _ Hb2); [lia|]].
    rewrite (bind_ok _ _ _ _ _ R1), (bind_ok _ _ _ _ _ R2). unfold msg_synchronize. rewrite (bi_workers _ _ _ Hb2).
    apply (sync_loop_ok n2 (num_cpus - 1) _ _ _ Hb2 HB); lia.
Qed.

(** Whatever the order in which the worker cores come up, when memory lasts the
    barrier [msg_synchronize] lets the manager pass and every channel is set up
    and empty. *)
Theorem msg_boot_refines n num_cpus l :
  1 < num_cpus -> l ≡ₚ seqZ 1 (num_cpus - 1) ->
  NoDup (answers n) -> 0 ∉ answers n -> (2 + 4 * length l <= length (answers n))%nat ->
  exists n', (msg_init num_cpus;; boot_cores l;; msg_synchronize) n = Ok (tt, n') /\ net_rep n' ChanSpec.empty.
Proof. apply msg_boot_ok. Qed.

(** ** A board with two worker cores *)

Definition demo_off : net := mk_net 0 ∅ ∅ ∅ ∅ {[100 := mk_msg 100 7 1 WAIT 5 0 0 0]} (seqZ 1000 10).

Definition demo_boot : net :=
  match (msg_init 3;; boot_cores [2; 1];; msg_synchronize) demo_off with Ok (_, n) => n | _ => demo_off end.

Lemma msg_boot_witness :
  exists n', (msg_init 3;; boot_cores [2; 1];; msg_synchronize) demo_off = Ok (tt, n') /\ net_rep n' ChanSpec.empty.
Proof.
  apply (msg_boot_refines demo_off 3 [2; 1]).
  - lia.
  - by constructor.
  - apply NoDup_seqZ.
  - simpl. rewrite elem_of_seqZ. lia.
  - vm_compute. lia.
Defined.

Lemma demo_booted :
  exists n', (msg_init 3;; boot_cores [2; 1];; msg_synchronize) demo_off = Ok (tt, n') /\ net_rep n' ChanSpec.empty.
Proof.
  apply msg_boot_ok; [lia|by constructor|apply NoDup_seqZ|simpl; rewrite elem_of_seqZ; lia|by vm_compute; lia].
Qed.

Lemma demo_boot_rep : net_rep demo_boot ChanSpec.empty.
Proof. destruct demo_booted as (n' & R & H). unfold demo_boot. by rewrite R. Qed.

Lemma demo_msg : msg_ok demo_boot 100.
Proof. split; [done|]. eexists. by vm_compute. Qed.

Lemma manager_send_msg_witness :
  exists n', manager_send_msg 100 2 demo_boot = Ok (tt, n') /\ net_rep n' (ChanSpec.send_worker ChanSpec.empty 2 100) /\
    msgs n' = msgs demo_boot.
Proof. apply (manager_send_msg_refines demo_boot ChanSpec.empty 100 2 demo_boot_rep demo_msg). split; vm_compute; congruence. Defined.

(** Core 2 has sent message 100. *)
Definition demo_sent : net :=
  match worker_send_msg 2 100 demo_boot with Ok (_, n) => n | _ => demo_boot end.

Lemma demo_sent_rep : net_rep demo_sent (ChanSpec.send_manager ChanSpec.empty 2 100).
Proof.
  destruct (worker_send_ok demo_boot ChanSpec.empty 100 2 demo_boot_rep demo_msg ltac:(split; vm_compute; congruence)) as (p & R & H).
  unfold demo_sent. by rewrite R.
Qed.

Lemma manager_recv_msg_witness :
  exists n' c', manager_recv_msg 2 demo_sent = Ok (100, n') /\ net_rep n' c' /\ msgs n' = msgs demo_sent.
Proof.
  destruct (manager_recv_msg_refines demo_sent _ 100
    (ChanSpec.mk_chans (fupd (ChanSpec.to_manager (ChanSpec.send_manager ChanSpec.empty 2 100)) 2 []) (fun _ => []))
    2 demo_sent_rep) as (n' & H).
  - vm_compute. lia.
  - vm_compute. reflexivity.
  - eexists n', _. exact H.
Defined.
End Message.
