(* ===== verification/ControlBlock.v ===== *)
(** * Thread and process control blocks (src/kern/control_block.c)

    A thread control block lies at the top of the thread's kernel stack, which
    is aligned to its size; the thread finds it by rounding its stack pointer.
    [kmem] is the kernel memory these objects live in, together with the
    messages of Message.v. *)

From S2P Require Import Prelude SimpleQueue ThreadState Mutex Message.
From Stdlib Require Import ZArith Lia.
From stdpp Require Import base gmap list tactics numbers.

#[local] Open Scope Z_scope.

Definition K_STACK_BITS : Z := 13.
Definition K_STACK_SIZE : Z := Z.shiftl 1 K_STACK_BITS.
Definition STACK_OVERFLOW_LIMIT : Z := 7168.
Definition NUM_PT_LOCKS_PER_PD : Z := 64.
Definition sizeof_tcb : Z := 32.

(** [pcb_t], [swexn_t] and [tcb_t] *)
Record pcb_t := mk_pcb {
  pid : Z; page_table_base : Z; ppid : Z; status : Z; cur_thr_num : Z; pt_locks : list Mutex.mutex_t }.
Record swexn_t := mk_swexn { esp3 : Z; eip : Z; arg : Z }.
Record tcb_t := mk_tcb {
  k_stack_esp : Z; tid : Z; pcb : Z; result : Z; state : thread_state_t;
  swexn_struct : Z; my_msg : Z; ori_cpu : Z }.

Definition set_k_stack_esp v (t : tcb_t) := mk_tcb v (tid t) (pcb t) (result t) (state t) (swexn_struct t) (my_msg t) (ori_cpu t).
Definition set_pcb v (t : tcb_t) := mk_tcb (k_stack_esp t) (tid t) v (result t) (state t) (swexn_struct t) (my_msg t) (ori_cpu t).
Definition set_result v (t : tcb_t) := mk_tcb (k_stack_esp t) (tid t) (pcb t) v (state t) (swexn_struct t) (my_msg t) (ori_cpu t).
Definition set_state v (t : tcb_t) := mk_tcb (k_stack_esp t) (tid t) (pcb t) (result t) v (swexn_struct t) (my_msg t) (ori_cpu t).
Definition set_swexn v (t : tcb_t) := mk_tcb (k_stack_esp t) (tid t) (pcb t) (result t) (state t) v (my_msg t) (ori_cpu t).

Definition set_page_table_base v (p : pcb_t) := mk_pcb (pid p) v (ppid p) (status p) (cur_thr_num p) (pt_locks p).
Definition set_status v (p : pcb_t) := mk_pcb (pid p) (page_table_base p) (ppid p) v (cur_thr_num p) (pt_locks p).
Definition set_cur_thr_num v (p : pcb_t) := mk_pcb (pid p) (page_table_base p) (ppid p) (status p) v (pt_locks p).

(** Objects by address.  [stacks] holds the low ends of the allocated kernel
    stacks; [junk] is what a word of fresh memory holds; the answers of the
    allocator are those of [net]. *)
Record kmem := mk_kmem {
  net : Message.net; tcbs : gmap Z tcb_t; pcbs : gmap Z pcb_t; swexns : gmap Z swexn_t;
  stacks : gset Z; id_count : Z; junk : Z }.

Definition with_net x (k : kmem) := mk_kmem x (tcbs k) (pcbs k) (swexns k) (stacks k) (id_count k) (junk k).
Definition with_tcbs x (k : kmem) := mk_kmem (net k) x (pcbs k) (swexns k) (stacks k) (id_count k) (junk k).
Definition with_pcbs x (k : kmem) := mk_kmem (net k) (tcbs k) x (swexns k) (stacks k) (id_count k) (junk k).
Definition with_swexns x (k : kmem) := mk_kmem (net k) (tcbs k) (pcbs k) x (stacks k) (id_count k) (junk k).
Definition with_stacks x (k : kmem) := mk_kmem (net k) (tcbs k) (pcbs k) (swexns k) x (id_count k) (junk k).
Definition with_id_count x (k : kmem) := mk_kmem (net k) (tcbs k) (pcbs k) (swexns k) (stacks k) x (junk k).

Module ControlBlock.

Definition on_net {A} (m : M Message.net A) : M kmem A := zoom net with_net m.
Definition malloc : M kmem Z := on_net Message.malloc.

Definition rd_tcb (p : Z) : M kmem tcb_t := fun k => deref (tcbs k !! p) k.
Definition upd_tcb (p : Z) (f : tcb_t -> tcb_t) : M kmem unit :=
  t ← rd_tcb p; modify (fun k => with_tcbs (<[p := f t]> (tcbs k)) k).
Definition rd_pcb (p : Z) : M kmem pcb_t := fun k => deref (pcbs k !! p) k.
Definition upd_pcb (p : Z) (f : pcb_t -> pcb_t) : M kmem unit :=
  c ← rd_pcb p; modify (fun k => with_pcbs (<[p := f c]> (pcbs k)) k).
Definition rd_msg (p : Z) : M kmem msg_t := on_net (Message.rd p).
Definition upd_msg (p : Z) (f : msg_t -> msg_t) : M kmem unit := on_net (Message.upd p f).

(** ** Finding a control block *)

Definition GET_K_STACK_INDEX (x : Z) : Z := Z.shiftr x K_STACK_BITS.
Definition tcb_get_high_addr (addr : Z) : Z := w32 ((GET_K_STACK_INDEX addr + 1) * K_STACK_SIZE - sizeof_tcb).
Definition tcb_get_low_addr (addr : Z) : Z := w32 (GET_K_STACK_INDEX addr * K_STACK_SIZE).
Definition tcb_get_entry (addr : Z) : Z := tcb_get_high_addr addr.
Definition tcb_is_stack_overflow (esp : Z) : Z :=
  if s32 (tcb_get_high_addr esp - esp) >? STACK_OVERFLOW_LIMIT then 1 else 0.

#[global] Arguments tcb_get_high_addr : simpl never.
#[global] Arguments tcb_get_low_addr : simpl never.
#[global] Arguments tcb_get_entry : simpl never.

(** ** Creation *)

Definition init_locks : list Mutex.mutex_t := replicate (Z.to_nat NUM_PT_LOCKS_PER_PD) (snd Mutex.mutex_init).

(** [mutex_init] always returns 0, so the loop sets up every lock. *)
Definition tcb_create_process_only (thread pthr new_page_table_base : Z) : M kmem Z :=
  process ← malloc;
  if process =? 0 then mret 0 else
  t ← rd_tcb thread;
  pp ← (if negb (pthr =? 0) then p ← rd_tcb pthr; c ← rd_pcb (pcb p); mret (pid c) else mret (-1));
  modify (fun k => with_pcbs (<[process := mk_pcb (tid t) new_page_table_base pp 0 1 init_locks]> (pcbs k)) k);;
  upd_tcb thread (set_pcb process);;
  mret process.

(** [atomic_add(&id_count, 1)] *)
Definition next_id : M kmem Z := fun k => let i := s32 (id_count k + 1) in Ok (i, with_id_count i k).

(** A fresh message whose node points to itself; its other words are junk. *)
Definition fresh_msg (j p : Z) : msg_t := mk_msg p j j NONE j j j j.

Definition tcb_create_thread_only (cpu process : Z) (st : thread_state_t) : M kmem Z :=
  k_stack ← malloc;
  if k_stack =? 0 then mret 0 else
  modify (fun k => with_stacks ({[k_stack]} ∪ stacks k) k);;
  let thread := tcb_get_entry k_stack in
  m ← malloc;
  if m =? 0 then modify (fun k => with_stacks (stacks k ∖ {[k_stack]}) k);; mret 0 else
  modify (fun k => with_net (Message.with_msgs (<[m := fresh_msg (junk k) m]> (Message.msgs (net k))) (net k)) k);;
  id ← next_id;
  modify (fun k => with_tcbs (<[thread :=
    mk_tcb (tcb_get_high_addr k_stack) id process (junk k) st 0 m cpu]> (tcbs k)) k);;
  mret thread.

Definition tcb_create_idle_process (cpu : Z) (st : thread_state_t) (new_page_table_base : Z) : M kmem Z :=
  thread ← tcb_create_thread_only cpu 0 st;
  if thread =? 0 then mret 0 else
  process ← malloc;
  if process =? 0 then mret 0 else
  t ← rd_tcb thread;
  modify (fun k => with_pcbs (<[process :=
    mk_pcb (tid t) new_page_table_base (junk k) (junk k) 1 init_locks]> (pcbs k)) k);;
  upd_tcb thread (set_pcb process);;
  mret thread.

(** ** Release *)

Definition free_swexn (p : Z) : M kmem unit := fun k =>
  match swexns k !! p with Some _ => Ok (tt, with_swexns (delete p (swexns k)) k) | None => Fault end.

(** [sfree(low, K_STACK_SIZE)]: the control block goes with its stack. *)
Definition sfree_stack (low : Z) : M kmem unit := fun k =>
  if bool_decide (low ∈ stacks k)
  then Ok (tt, with_tcbs (delete (tcb_get_entry low) (tcbs k)) (with_stacks (stacks k ∖ {[low]}) k))
  else Fault.

Definition tcb_free_thread (thr : Z) : M kmem unit :=
  t ← rd_tcb thr;
  (if negb (swexn_struct t =? 0) then free_swexn (swexn_struct t);; upd_tcb thr (set_swexn 0) else mret tt);;
  t ← rd_tcb thr;
  let stack_esp := k_stack_esp t in
  let stack_low := tcb_get_low_addr stack_esp in
  if tcb_get_entry stack_esp =? 0 then panic else sfree_stack stack_low.

(** [tcb_vanish_thread] differs from [tcb_free_thread] in calling the allocator
    without its lock, which its caller holds. *)
Definition tcb_vanish_thread (thr : Z) : M kmem unit :=
  t ← rd_tcb thr;
  (if negb (swexn_struct t =? 0) then free_swexn (swexn_struct t);; upd_tcb thr (set_swexn 0) else mret tt);;
  t ← rd_tcb thr;
  let stack_esp := k_stack_esp t in
  let stack_low := tcb_get_low_addr stack_esp in
  if tcb_get_entry stack_esp =? 0 then panic else sfree_stack stack_low.

Fixpoint destroy_locks (l : list Mutex.mutex_t) : M kmem unit :=
  match l with
  | [] => mret tt
  | m :: l => fun k => match Mutex.mutex_destroy m with
                       | Ok _ => destroy_locks l k
                       | Panic => Panic | Fault => Fault | Blocks => Blocks | NoFuel => NoFuel
                       end
  end.

Definition tcb_free_process (process : Z) : M kmem unit :=
  c ← rd_pcb process;
  destroy_locks (pt_locks c);;
  modify (fun k => with_pcbs (delete process (pcbs k)) k).

(** ** Addresses *)

(** A kernel stack: aligned to its size, inside the address space. *)
Definition is_stack (k : Z) : Prop := 0 < k /\ k mod K_STACK_SIZE = 0 /\ k + K_STACK_SIZE <= 2 ^ 32.

Lemma stack_index k a : is_stack k -> k <= a < k + K_STACK_SIZE -> GET_K_STACK_INDEX a * K_STACK_SIZE = k.
Proof.
  intros (Hp & Hm & Hb) Ha. unfold GET_K_STACK_INDEX. rewrite Z.shiftr_div_pow2 by (unfold K_STACK_BITS; lia).
  change K_STACK_SIZE with 8192 in *. change (2 ^ K_STACK_BITS) with 8192.
  pose proof (Z.div_mod k 8192 ltac:(lia)). replace (a / 8192) with (k / 8192); [lia|].
  apply Z.div_unique with (a - 8192 * (k / 8192)); lia.
Qed.

Lemma low_addr_ok k a : is_stack k -> k <= a < k + K_STACK_SIZE -> tcb_get_low_addr a = k.
Proof.
  intros Hk Ha. unfold tcb_get_low_addr. rewrite (stack_index k) by done. apply w32_small.
  destruct Hk as (? & _ & ?). change K_STACK_SIZE with 8192 in *. lia.
Qed.

Lemma entry_ok k a : is_stack k -> k <= a < k + K_STACK_SIZE -> tcb_get_entry a = k + 8160.
Proof.
  intros Hk Ha. unfold tcb_get_entry, tcb_get_high_addr. rewrite Z.mul_add_distr_r, (stack_index k) by done.
  destruct Hk as (? & _ & ?). change K_STACK_SIZE with 8192 in *. change sizeof_tcb with 32.
  rewrite w32_small; lia.
Qed.

(** Every address of a kernel stack leads to the same control block, which lies
    in the top 32 bytes of that stack, so two stacks have two control blocks;
    and a stack pointer counts as overflowing exactly when less than 992 bytes
    of the stack are left below it. *)
Theorem kernel_stack_addresses k a :
  is_stack k -> k <= a < k + K_STACK_SIZE ->
  tcb_get_low_addr a = k /\ tcb_get_entry a = k + K_STACK_SIZE - sizeof_tcb /\
  (tcb_is_stack_overflow a = 1 <-> a < k + 992) /\
  (forall k' a', is_stack k' -> k' <= a' < k' + K_STACK_SIZE -> tcb_get_entry a = tcb_get_entry a' -> k = k').
Proof.
  intros Hk Ha. rewrite (low_addr_ok k a), (entry_ok k a) by done. split; [done|].
  change K_STACK_SIZE with 8192 in *. change sizeof_tcb with 32. split; [lia|]. split.
  - unfold tcb_is_stack_overflow. change (tcb_get_high_addr a) with (tcb_get_entry a). rewrite (entry_ok k a) by done.
    destruct Hk as (? & _ & ?). change STACK_OVERFLOW_LIMIT with 7168. rewrite s32_small by lia.
    rewrite Z.gtb_ltb. destruct (Z.ltb_spec 7168 (k + 8160 - a)); lia.
  - intros k' a' Hk' Ha'. rewrite (entry_ok k' a') by done. lia.
Qed.

Lemma kernel_stack_addresses_witness :
  tcb_get_low_addr 16381 = 8192 /\ tcb_get_entry 16381 = 8192 + K_STACK_SIZE - sizeof_tcb /\
  (tcb_is_stack_overflow 16381 = 1 <-> 16381 < 8192 + 992) /\
  (forall k' a', is_stack k' -> k' <= a' < k' + K_STACK_SIZE -> tcb_get_entry 16381 = tcb_get_entry a' -> 8192 = k').
Proof.
  apply (kernel_stack_addresses 8192 16381).
  - split; [lia|]. split; [reflexivity|]. change K_STACK_SIZE with 8192. lia.
  - change K_STACK_SIZE with 8192. lia.
Defined.

(** ** Threads *)

(** Every control block lies at the top of an allocated stack; the thread ids
    are distinct and have been handed out; the allocator hands out what is not in
    use. *)
Record kmem_ok (k : kmem) : Prop := {
  ko_stacks : forall s, s ∈ stacks k -> is_stack s;
  ko_tcb : forall p t, tcbs k !! p = Some t -> exists s, s ∈ stacks k /\ p = tcb_get_entry s /\
    s <= k_stack_esp t < s + K_STACK_SIZE;
  ko_tids : forall p t, tcbs k !! p = Some t -> 0 <= tid t <= id_count k;
  ko_distinct : forall p q t u, tcbs k !! p = Some t -> tcbs k !! q = Some u -> tid t = tid u -> p = q;
  ko_count : -1 <= id_count k
}.

Lemma next_id_ok k : -1 <= id_count k < 2 ^ 31 - 1 -> next_id k = Ok (id_count k + 1, with_id_count (id_count k + 1) k).
Proof. intros H. unfold next_id. cbv zeta. by rewrite s32_small by lia. Qed.

(** The state after [tcb_create_thread_only] has been given the stack [s] and
    the message [m]. *)
Definition created (cpu process : Z) (st : thread_state_t) (s m : Z) (rest : list Z) (k : kmem) : kmem :=
  mk_kmem (Message.with_msgs (<[m := fresh_msg (junk k) m]> (Message.msgs (net k))) (Message.with_answers rest (net k)))
    (<[tcb_get_entry s := mk_tcb (tcb_get_high_addr s) (id_count k + 1) process (junk k) st 0 m cpu]> (tcbs k))
    (pcbs k) (swexns k) ({[s]} ∪ stacks k) (id_count k + 1) (junk k).

Lemma create_thread_run cpu process st k s m rest :
  Message.answers (net k) = s :: m :: rest -> s <> 0 -> m <> 0 -> -1 <= id_count k < 2 ^ 31 - 1 ->
  tcb_create_thread_only cpu process st k = Ok (tcb_get_entry s, created cpu process st s m rest k).
Proof.
  intros Ha Hs Hm Hid. unfold tcb_create_thread_only, malloc, on_net.
  erewrite bind_ok by (apply zoom_ok; unfold Message.malloc; by rewrite Ha).
  rewrite (proj2 (Z.eqb_neq s 0)) by done. erewrite bind_ok by reflexivity. cbv zeta.
  erewrite bind_ok by (apply zoom_ok; reflexivity). rewrite (proj2 (Z.eqb_neq m 0)) by done.
  erewrite bind_ok by reflexivity. erewrite bind_ok by (apply next_id_ok; exact Hid). done.
Qed.

Lemma created_ok cpu process st k s m rest :
  kmem_ok k -> is_stack s -> s ∉ stacks k -> kmem_ok (created cpu process st s m rest k).
Proof.
  intros [H1 H2 H3 H4 H5] Hs Hf.
  assert (Hin : s <= s < s + K_STACK_SIZE) by (change K_STACK_SIZE with 8192; lia).
  assert (Hfresh : forall p t, tcbs k !! p = Some t -> p <> tcb_get_entry s).
  { intros p t Hp ->. destruct (H2 _ _ Hp) as (s' & Hs' & E & _).
    rewrite (entry_ok s s), (entry_ok s' s') in E by (auto; change K_STACK_SIZE with 8192; lia).
    apply Hf. by replace s with s' by lia. }
  split; cbn [created tcbs stacks id_count].
  - intros s'. set_solver.
  - intros p t [[<- <-]|[_ Hp]]%lookup_insert_Some.
    + exists s. split; [set_solver|]. split; [done|]. simpl. change (tcb_get_high_addr s) with (tcb_get_entry s).
      rewrite (entry_ok s s) by done. change K_STACK_SIZE with 8192. lia.
    + destruct (H2 p t Hp) as (s' & ? & ? & ?). exists s'. split; [|done]. apply elem_of_union. by right.
  - intros p t [[<- <-]|[_ Hp]]%lookup_insert_Some; simpl; [lia|]. specialize (H3 p t Hp). lia.
  - intros p q t u [[<- <-]|[_ Hp]]%lookup_insert_Some [[<- <-]|[_ Hq]]%lookup_insert_Some; simpl; [done| | |by apply H4].
    + specialize (H3 q u Hq). lia.
    + specialize (H3 p t Hp). lia.
  - lia.
Qed.

(** (C22) [tcb_create_thread_only] returns a control block that was not in use, with a
    thread id never used before, the given process and state and a message of its
    own, and keeps the well-formedness of the kernel memory.  When either
    allocation fails it returns NULL and nothing stays allocated. *)
Theorem create_thread_correct cpu process st k s m rest :
  kmem_ok k -> Message.answers (net k) = s :: m :: rest -> id_count k < 2 ^ 31 - 1 ->
  (s <> 0 -> is_stack s /\ s ∉ stacks k) ->
  exists k' v, tcb_create_thread_only cpu process st k = Ok (v, k') /\
  if (s =? 0) || (m =? 0) then
    v = 0 /\ tcbs k' = tcbs k /\ stacks k' = stacks k /\ Message.msgs (net k') = Message.msgs (net k) /\ id_count k' = id_count k
  else
    v = tcb_get_entry s /\ tcbs k !! v = None /\ kmem_ok k' /\ stacks k' = {[s]} ∪ stacks k /\
    (forall p t, tcbs k !! p = Some t -> tid t <> id_count k + 1) /\
    (forall p, p <> v -> tcbs k' !! p = tcbs k !! p) /\
    tcbs k' !! v = Some (mk_tcb v (id_count k + 1) process (junk k) st 0 m cpu) /\
    exists mm, Message.msgs (net k') !! m = Some mm /\ node_thr mm = m.
Proof.
  intros Hk Ha Hid Hs. pose proof (ko_count _ Hk). destruct (Z.eqb_spec s 0) as [->|Hs0]; [|destruct (Z.eqb_spec m 0) as [->|Hm0]].
  - unfold tcb_create_thread_only, malloc, on_net. do 2 eexists. split.
    + erewrite bind_ok by (apply zoom_ok; unfold Message.malloc; by rewrite Ha). reflexivity.
    + done.
  - unfold tcb_create_thread_only, malloc, on_net. do 2 eexists. split.
    + erewrite bind_ok by (apply zoom_ok; unfold Message.malloc; by rewrite Ha).
      rewrite (proj2 (Z.eqb_neq s 0)) by done. erewrite bind_ok by reflexivity. cbv zeta.
      erewrite bind_ok by (apply zoom_ok; reflexivity). reflexivity.
    + simpl. repeat split. destruct (Hs Hs0). apply set_eq. intros x. set_solver.
  - destruct (Hs Hs0) as [Hst Hfr]. eexists _, _. split; [by apply create_thread_run|]. cbn [orb created tcbs stacks net]. split; [done|].
    pose proof (created_ok cpu process st k s m rest Hk Hst Hfr) as Hok.
    split; [|split; [done|]; split; [done|]; split; [|split; [|split]]].
    + destruct (tcbs k !! tcb_get_entry s) as [t|] eqn:E; [|done]. exfalso.
      destruct (ko_tcb _ Hk _ _ E) as (s' & Hs' & E' & _). pose proof (ko_stacks _ Hk s' Hs').
      rewrite (entry_ok s s), (entry_ok s' s') in E' by (auto; change K_STACK_SIZE with 8192; lia).
      apply Hfr. by replace s with s' by lia.
    + intros p t Hp. pose proof (ko_tids _ Hk p t Hp). lia.
    + intros p Hp. by rewrite lookup_insert_ne.
    + by rewrite lookup_insert_eq.
    + exists (fresh_msg (junk k) m). simpl; by rewrite lookup_insert_eq.
Qed.

Definition demo_mem : kmem := mk_kmem (Message.with_answers [8192; 500] Message.demo_off) ∅ ∅ ∅ ∅ 3 0.

Lemma demo_mem_ok : kmem_ok demo_mem.
Proof. by split. Qed.

Lemma demo_stack : is_stack 8192.
Proof. split; [lia|]. split; [reflexivity|]. change K_STACK_SIZE with 8192. lia. Qed.

Lemma create_thread_witness :
  exists k', tcb_create_thread_only 1 77 NORMAL demo_mem = Ok (16352, k') /\
    tcbs k' !! 16352 = Some (mk_tcb 16352 4 77 0 NORMAL 0 500 1).
Proof.
  destruct (create_thread_correct 1 77 NORMAL demo_mem 8192 500 [] demo_mem_ok eq_refl ltac:(simpl; lia)) as (k' & v & R & H).
  - intros _. split; [exact demo_stack|set_solver].
  - destruct H as (Hv & _ & _ & _ & _ & _ & Ht & _). rewrite Hv in R, Ht. exists k'. exact (conj R Ht).
Defined.

Lemma free_ok k k' s : kmem_ok k ->
  tcbs k' = delete (tcb_get_entry s) (tcbs k) /\ stacks k' = stacks k ∖ {[s]} /\ id_count k' = id_count k -> kmem_ok k'.
Proof.
  intros [I1 I2 I3 I4 I5] (Ht & Hs & Hi). split; rewrite ?Ht, ?Hs, ?Hi; [| | | |done].
  - intros x [Hx _]%elem_of_difference. by apply I1.
  - intros p u [Hne Hp]%lookup_delete_Some. destruct (I2 p u Hp) as (s' & Hs' & -> & Hr). exists s'. split; [|done].
    apply elem_of_difference. split; [done|]. rewrite elem_of_singleton. by intros ->.
  - intros p u [_ Hp]%lookup_delete_Some. by apply (I3 p u).
  - intros p q u v [_ Hp]%lookup_delete_Some [_ Hq]%lookup_delete_Some. by apply I4.
Qed.

(** Freeing a thread gives its control block and its stack back and keeps every
    other thread; its message stays allocated, which nothing frees later. *)
Theorem free_thread_correct k thr t s :
  kmem_ok k -> tcbs k !! thr = Some t -> s ∈ stacks k -> thr = tcb_get_entry s -> s <= k_stack_esp t < s + K_STACK_SIZE ->
  (swexn_struct t <> 0 -> is_Some (swexns k !! swexn_struct t)) ->
  exists k', tcb_free_thread thr k = Ok (tt, k') /\ kmem_ok k' /\
    tcbs k' = delete thr (tcbs k) /\ stacks k' = stacks k ∖ {[s]} /\
    swexns k' = (if swexn_struct t =? 0 then swexns k else delete (swexn_struct t) (swexns k)) /\
    net k' = net k.
Proof.
  intros Hk Ht Hs Hthr Hin Hsw. pose proof (ko_stacks _ Hk s Hs) as Hst.
  assert (Hself : s <= s < s + K_STACK_SIZE) by (change K_STACK_SIZE with 8192; lia).
  set (k1 := if swexn_struct t =? 0 then k
             else with_tcbs (<[thr := set_swexn 0 t]> (tcbs k)) (with_swexns (delete (swexn_struct t) (swexns k)) k)).
  assert (H1 : (if negb (swexn_struct t =? 0) then free_swexn (swexn_struct t);; upd_tcb thr (set_swexn 0) else mret tt) k = Ok (tt, k1)).
  { unfold k1. destruct (Z.eqb_spec (swexn_struct t) 0) as [E|E]; [done|]. cbn [negb].
    destruct (Hsw E) as [w Hw]. erewrite bind_ok by (unfold free_swexn; by rewrite Hw).
    unfold upd_tcb, rd_tcb. erewrite bind_ok by (simpl; by rewrite Ht). done. }
  assert (H2 : exists t', tcbs k1 !! thr = Some t' /\ k_stack_esp t' = k_stack_esp t).
  { unfold k1. destruct (swexn_struct t =? 0); [by exists t|]. simpl. rewrite lookup_insert_eq. by eexists. }
  destruct H2 as (t' & Ht' & He).
  set (k2 := with_tcbs (delete thr (tcbs k)) (with_stacks (stacks k ∖ {[s]}) k1)).
  assert (H3 : tcb_free_thread thr k = Ok (tt, k2)).
  { unfold tcb_free_thread. rewrite (bind_ok (rd_tcb thr) _ k t k) by (unfold rd_tcb; by rewrite Ht).
    rewrite (bind_ok _ _ k tt k1 H1). rewrite (bind_ok (rd_tcb thr) _ k1 t' k1) by (unfold rd_tcb; by rewrite Ht').
    cbv zeta. rewrite He, (low_addr_ok s), (entry_ok s) by done.
    destruct Hst as (Hp & _ & Hb). rewrite (proj2 (Z.eqb_neq _ 0)) by lia. unfold sfree_stack.
    rewrite bool_decide_true by (unfold k1; by destruct (swexn_struct t =? 0)). rewrite <- Hthr. unfold k2, k1.
    destruct (swexn_struct t =? 0); [done|]. unfold with_tcbs, with_stacks. simpl.
    by rewrite delete_insert_eq. }
  exists k2. split; [done|].
  assert (E : tcbs k2 = delete thr (tcbs k) /\ stacks k2 = stacks k ∖ {[s]} /\ id_count k2 = id_count k).
  { unfold k2, k1. by destruct (swexn_struct t =? 0). }
  split; [by apply (free_ok k k2 s); [..|subst]|]. split; [apply E|]. split; [apply E|].
  unfold k2, k1. by destruct (swexn_struct t =? 0).
Qed.
End ControlBlock.
