(* ===== verification/Lifecycle.v ===== *)
(** * fork, wait and vanish on the manager core (src/kern/smp_syscall_lifecycle.c)

    The manager keeps a [pcb_vanish_wait_t] per task, found by pid in a hash
    table, and runs one handler per message of a worker core.  Objects are kept
    by address; the hash table is the map Hashtable.v shows hashtable.c to
    implement, the queues are the sequences of SimpleQueue.v, and a mutex is the
    one of Mutex.v, taken by the manager's thread [me].  [answers] of the
    message layer are the results of the coming calls of [malloc]. *)

From S2P Require Import Prelude SimpleQueue Hashtable ThreadState Mutex Message.
From Stdlib Require Import ZArith Lia.
From stdpp Require Import base gmap list tactics numbers.

#[local] Open Scope Z_scope.

(** ** What the handlers promise

    [alive] counts the children that have not vanished, [zombies] are the exit
    statuses not yet collected, oldest first, and [waiters] the messages of the
    threads blocked in wait, oldest first. *)
Module LifeSpec.
Record task := mk_task { alive : Z; zombies : list (Z * Z); waiters : list Z }.
Abbreviation life := (gmap Z task).

(** The oldest waiter of task [p] collects the oldest exit status. *)
Definition deliver (p : Z) (L : life) : list (Z * (Z * Z)) * life :=
  match L !! p with
  | Some (mk_task a (z :: zs) (w :: ws)) => ([(w, z)], <[p := mk_task a zs ws]> L)
  | _ => ([], L)
  end.

Inductive answer := NoChild | Sleep | Reap (z : Z * Z).

Definition wait (p msg : Z) (x : task) : answer * task :=
  match zombies x with
  | z :: zs => (Reap z, mk_task (alive x) zs (waiters x))
  | [] => if alive x =? Z.of_nat (length (waiters x)) then (NoChild, x)
          else (Sleep, mk_task (alive x) [] (waiters x ++ [msg]))
  end.

(** The task that gets the exit status: the parent while it lives, else init. *)
Definition heir (init ppid : Z) (L : life) : Z := match L !! ppid with Some _ => ppid | None => init end.

Definition report (q : Z) (z : Z * Z) (L : life) : life :=
  alter (fun x => mk_task (alive x - 1) (zombies x ++ [z]) (waiters x)) q L.

Definition inherit (q : Z) (zs : list (Z * Z)) (L : life) : life :=
  alter (fun x => mk_task (alive x) (zombies x ++ zs) (waiters x)) q L.

(** The deliveries a vanishing task causes, in order, and the tasks after it. *)
Definition vanish (init pid ppid st : Z) (L : life) : list (Z * (Z * Z)) * life :=
  let q := heir init ppid L in
  let '(d1, L1) := deliver q (report q (pid, st) L) in
  let kids := match L1 !! pid with Some x => zombies x | None => [] end in
  let L2 := inherit init kids (delete pid L1) in
  let '(d2, L3) := match kids with [] => ([], L2) | _ => deliver init L2 end in
  (d1 ++ d2, L3).
End LifeSpec.

Module Lifecycle.

Definition ECHILD : Z := -10.

(** [exit_status_t] *)
Record exit_status_t := mk_es { es_pid : Z; es_status : Z }.

(** [pcb_vanish_wait_t], with the fields of its [task_wait_t] *)
Record pcb_vanish_wait_t := mk_task {
  child_exit_status_list : list Z; exit_status : Z; exit_status_node : Z;
  num_alive : Z; num_zombie : Z; wait_queue : list Z; lock : Mutex.mutex_t }.

Definition set_children x t := mk_task x (exit_status t) (exit_status_node t) (num_alive t) (num_zombie t) (wait_queue t) (lock t).
Definition set_alive x t := mk_task (child_exit_status_list t) (exit_status t) (exit_status_node t) x (num_zombie t) (wait_queue t) (lock t).
Definition set_zombie x t := mk_task (child_exit_status_list t) (exit_status t) (exit_status_node t) (num_alive t) x (wait_queue t) (lock t).
Definition set_waiters x t := mk_task (child_exit_status_list t) (exit_status t) (exit_status_node t) (num_alive t) (num_zombie t) x (lock t).
Definition set_lock x t := mk_task (child_exit_status_list t) (exit_status t) (exit_status_node t) (num_alive t) (num_zombie t) (wait_queue t) x.

(** [nodes] maps an exit status node to its field [thr]. *)
Record manager := mk_manager {
  net : Message.net; tasks : gmap Z pcb_vanish_wait_t; statuses : gmap Z exit_status_t; nodes : gmap Z Z;
  ht_pid_pcb : HTSpec.table; ht_pid_pcb_lock : Mutex.mutex_t;
  init_task : Z; fork_next_core : Z; tstates : Z -> thread_state_t }.

Definition with_net x m := mk_manager x (tasks m) (statuses m) (nodes m) (ht_pid_pcb m) (ht_pid_pcb_lock m) (init_task m) (fork_next_core m) (tstates m).
Definition with_tasks x m := mk_manager (net m) x (statuses m) (nodes m) (ht_pid_pcb m) (ht_pid_pcb_lock m) (init_task m) (fork_next_core m) (tstates m).
Definition with_statuses x m := mk_manager (net m) (tasks m) x (nodes m) (ht_pid_pcb m) (ht_pid_pcb_lock m) (init_task m) (fork_next_core m) (tstates m).
Definition with_nodes x m := mk_manager (net m) (tasks m) (statuses m) x (ht_pid_pcb m) (ht_pid_pcb_lock m) (init_task m) (fork_next_core m) (tstates m).
Definition with_ht x m := mk_manager (net m) (tasks m) (statuses m) (nodes m) x (ht_pid_pcb_lock m) (init_task m) (fork_next_core m) (tstates m).
Definition with_ht_lock x y m := mk_manager (net m) (tasks m) (statuses m) (nodes m) (ht_pid_pcb m) x (init_task m) (fork_next_core m) y.
Definition with_init x m := mk_manager (net m) (tasks m) (statuses m) (nodes m) (ht_pid_pcb m) (ht_pid_pcb_lock m) x (fork_next_core m) (tstates m).
Definition with_next_core x m := mk_manager (net m) (tasks m) (statuses m) (nodes m) (ht_pid_pcb m) (ht_pid_pcb_lock m) (init_task m) x (tstates m).
Definition with_tstates x m := mk_manager (net m) (tasks m) (statuses m) (nodes m) (ht_pid_pcb m) (ht_pid_pcb_lock m) (init_task m) (fork_next_core m) x.

Definition on_net {A} (x : M Message.net A) : M manager A := zoom net with_net x.
Definition malloc : M manager Z := on_net Message.malloc.
Definition rd_msg (p : Z) : M manager msg_t := on_net (Message.rd p).
Definition upd_msg (p : Z) (f : msg_t -> msg_t) : M manager unit := on_net (Message.upd p f).
Definition manager_send_msg (msg cpu : Z) : M manager unit := on_net (Message.manager_send_msg msg cpu).

Definition rd_task (p : Z) : M manager pcb_vanish_wait_t := fun m => deref (tasks m !! p) m.
Definition upd_task (p : Z) (f : pcb_vanish_wait_t -> pcb_vanish_wait_t) : M manager unit :=
  t ← rd_task p; modify (fun m => with_tasks (<[p := f t]> (tasks m)) m).
Definition rd_status (p : Z) : M manager exit_status_t := fun m => deref (statuses m !! p) m.
Definition wr_status (p : Z) (v : exit_status_t) : M manager unit := fun m =>
  match statuses m !! p with Some _ => Ok (tt, with_statuses (<[p := v]> (statuses m)) m) | None => Fault end.
Definition rd_node (p : Z) : M manager Z := fun m => deref (nodes m !! p) m.
Definition free_status (p : Z) : M manager unit := fun m =>
  match statuses m !! p with Some _ => Ok (tt, with_statuses (delete p (statuses m)) m) | None => Fault end.
Definition free_node (p : Z) : M manager unit := fun m =>
  match nodes m !! p with Some _ => Ok (tt, with_nodes (delete p (nodes m)) m) | None => Fault end.
Definition free_task (p : Z) : M manager unit := fun m =>
  match tasks m !! p with Some _ => Ok (tt, with_tasks (delete p (tasks m)) m) | None => Fault end.

Section handlers.
Context (me : Z).

Definition on_ht_lock (x : M Mutex.mstate unit) : M manager unit :=
  zoom (fun m => Mutex.mk_mstate (ht_pid_pcb_lock m) (tstates m)) (fun s => with_ht_lock (Mutex.mx s) (Mutex.tst s)) x.
Definition lock_ht : M manager unit := on_ht_lock (Mutex.mutex_lock me).
Definition unlock_ht : M manager unit := on_ht_lock Mutex.mutex_unlock.

Definition on_task_lock (p : Z) (x : M Mutex.mstate unit) : M manager unit :=
  t ← rd_task p;
  zoom (fun m => Mutex.mk_mstate (lock t) (tstates m))
    (fun s m => with_tstates (Mutex.tst s) (with_tasks (<[p := set_lock (Mutex.mx s) t]> (tasks m)) m)) x.
Definition lock_task (p : Z) : M manager unit := on_task_lock p (Mutex.mutex_lock me).
Definition unlock_task (p : Z) : M manager unit := on_task_lock p Mutex.mutex_unlock.

(** ** The table of tasks *)

Definition PID_PCB_HASH_SIZE : Z := 1021.
Definition ht_pid_pcb_hashfunc (key : Z) : Z := Z.rem (s32 key) PID_PCB_HASH_SIZE.

Definition get_task (pid : Z) : M manager Z := fun m =>
  Ok (match HTSpec.get (ht_pid_pcb m) pid with Some v => v | None => 0 end, m).

(** [hashtable_put] allocates one node; it fails when there is no memory. *)
Definition hashtable_put (pid pcb : Z) : M manager Z :=
  p ← malloc;
  if p =? 0 then mret (-1) else modify (fun m => with_ht (HTSpec.put (ht_pid_pcb m) pid pcb) m);; mret 0.

(** Returns [*is_find]. *)
Definition hashtable_remove (pid : Z) : M manager Z := fun m =>
  Ok (match HTSpec.get (ht_pid_pcb m) pid with Some _ => 1 | None => 0 end,
      with_ht (HTSpec.remove (ht_pid_pcb m) pid) m).

Definition ht_put_task (pid pcb : Z) : M manager Z :=
  lock_ht;; rv ← hashtable_put pid pcb; unlock_ht;; mret rv.

Definition ht_remove_task (pid : Z) : M manager unit :=
  lock_ht;; hashtable_remove pid;; unlock_ht.

Definition smp_syscall_vanish_init : M manager Z :=
  p ← malloc;
  if p =? 0 then mret (-1) else
  modify (with_ht HTSpec.empty);;
  modify (fun m => with_ht_lock (snd Mutex.mutex_init) (tstates m) m);;
  if fst Mutex.mutex_init <? 0 then mret (-1) else mret 0.

(** ** Creating and freeing the structure of a task *)

(** A freshly allocated task structure, before its fields are set. *)
Definition raw_task : pcb_vanish_wait_t := mk_task [] 0 0 0 0 [] (Mutex.mk_mutex (-2) []).

(** [simple_queue_init] and [mutex_init] always return 0. *)
Definition create_pcb_vanish_wait_struct (pid : Z) : M manager Z :=
  process ← malloc;
  if process =? 0 then mret (-1) else
  modify (fun m => with_tasks (<[process := raw_task]> (tasks m)) m);;
  rv ← ht_put_task pid process;
  if rv <? 0 then free_task process;; mret (-1) else
  es ← malloc;
  if es =? 0 then ht_remove_task pid;; free_task process;; mret (-1) else
  modify (fun m => with_statuses (<[es := mk_es pid 0]> (statuses m)) m);;
  node ← malloc;
  if node =? 0 then ht_remove_task pid;; free_status es;; free_task process;; mret (-1) else
  modify (fun m => with_nodes (<[node := es]> (nodes m)) m);;
  upd_task process (fun _ => mk_task [] es node 0 0 [] (snd Mutex.mutex_init));;
  mret 0.

Definition free_pcb_vanish_wait_struct (pcb : Z) : M manager unit :=
  t ← rd_task pcb;
  on_task_lock pcb (Mutex.on_mx Mutex.mutex_destroy);;
  free_task pcb.

(** ** Handlers *)

Definition smp_syscall_fork (msg : Z) : M manager unit :=
  mm ← rd_msg msg;
  rv ← create_pcb_vanish_wait_struct (Data.fork_new_tid mm);
  (if rv <? 0 then
     upd_msg msg (set_type FORK_RESPONSE);;
     upd_msg msg (set_w1 (-1));;
     mm ← rd_msg msg;
     manager_send_msg msg (req_cpu mm)
   else mret tt);;
  m ← get;
  manager_send_msg msg (fork_next_core m + 1);;
  modify (fun m => with_next_core (Z.rem (fork_next_core m + 1) (Message.num_worker_cores (net m))) m).

Definition smp_fork_response (msg : Z) : M manager unit :=
  mm ← rd_msg msg;
  let ori_msg := Data.fr_req_msg mm in
  if Data.fr_result mm =? 0 then
    om ← rd_msg ori_msg;
    lock_ht;;
    parent_task ← get_task (Data.fork_ppid om);
    unlock_ht;;
    lock_task parent_task;;
    upd_task parent_task (fun t => set_alive (num_alive t + 1) t);;
    unlock_task parent_task;;
    upd_msg ori_msg (set_type FORK_RESPONSE);;
    mm ← rd_msg msg;
    upd_msg ori_msg (set_w1 (Data.fr_result mm));;
    om ← rd_msg ori_msg;
    manager_send_msg ori_msg (req_cpu om);;
    mm ← rd_msg msg;
    manager_send_msg msg (req_cpu mm)
  else
    om ← rd_msg ori_msg;
    m ← get;
    if Data.fork_retry_times om =? Message.num_worker_cores (net m) then
      ht_remove_task (Data.fork_new_tid mm);;
      lock_ht;;
      this_task ← get_task (Data.fork_new_tid mm);
      unlock_ht;;
      free_pcb_vanish_wait_struct this_task;;
      upd_msg ori_msg (set_type FORK_RESPONSE);;
      mm ← rd_msg msg;
      upd_msg ori_msg (set_w1 (Data.fr_result mm));;
      om ← rd_msg ori_msg;
      manager_send_msg ori_msg (req_cpu om)
    else
      upd_msg ori_msg (fun o => set_w1 (Data.fork_retry_times o + 1) o);;
      mm ← rd_msg msg;
      let next_core := Z.rem (req_cpu mm + 1) (Message.num_worker_cores (net m)) in
      manager_send_msg ori_msg (next_core + 1).

Definition smp_set_init_pcb (msg : Z) : M manager unit :=
  mm ← rd_msg msg;
  rv ← create_pcb_vanish_wait_struct (Data.init_pid mm);
  (if rv =? 0 then
     lock_ht;;
     t ← get_task (Data.init_pid mm);
     modify (with_init t);;
     unlock_ht
   else mret tt);;
  upd_msg msg (set_type RESPONSE);;
  upd_msg msg (set_w0 rv);;
  mm ← rd_msg msg;
  manager_send_msg msg (req_cpu mm).

(** The exit status in [exit_status_node] answers the [wait] of the message in
    [wait_node]; both objects of the exit status are freed.  (The fragment
    stands in [smp_syscall_vanish], twice, and in [smp_syscall_wait].) *)
Definition answer_wait (wait_msg exit_status_node : Z) : M manager unit :=
  es_p ← rd_node exit_status_node;
  es ← rd_status es_p;
  upd_msg wait_msg (set_type WAIT_RESPONSE);;
  upd_msg wait_msg (set_w1 (es_pid es));;
  upd_msg wait_msg (set_w0 (es_status es));;
  free_status es_p;;
  free_node exit_status_node;;
  mm ← rd_msg wait_msg;
  manager_send_msg wait_msg (req_cpu mm).

(** [simple_queue_dequeue(&task->wait_queue)] and
    [simple_queue_dequeue(&task->child_exit_status_list)]; NULL if empty. *)
Definition dequeue_waiter (task : Z) : M manager Z :=
  t ← rd_task task;
  match QSpec.dequeue (wait_queue t) with
  | None => mret 0
  | Some (x, q) => upd_task task (set_waiters q);; mret x
  end.
Definition dequeue_child (task : Z) : M manager Z :=
  t ← rd_task task;
  match QSpec.dequeue (child_exit_status_list t) with
  | None => mret 0
  | Some (x, q) => upd_task task (set_children q);; mret x
  end.

(** Wake a thread waiting in [task], whose lock is held, and release the lock. *)
Definition wake_waiter (task : Z) : M manager unit :=
  wait_node ← dequeue_waiter task;
  if negb (wait_node =? 0) then
    upd_task task (fun t => set_zombie (num_zombie t - 1) t);;
    exit_status_node ← dequeue_child task;
    unlock_task task;;
    wm ← rd_msg wait_node;
    answer_wait (node_thr wm) exit_status_node
  else unlock_task task.

(** Move the unreaped children of [this_task] to the init task. *)
Fixpoint move_children (fuel : nat) (this_task : Z) (has_unreaped_child : bool) : M manager bool :=
  match fuel with
  | O => nofuel
  | S fuel =>
      node ← dequeue_child this_task;
      if node =? 0 then mret has_unreaped_child else
      m ← get;
      upd_task (init_task m) (fun t => set_children (QSpec.enqueue (child_exit_status_list t) node) t);;
      upd_task (init_task m) (fun t => set_zombie (num_zombie t + 1) t);;
      move_children fuel this_task true
  end.

(** The three parts of [smp_syscall_vanish]: report the exit status to the
    parent or to init, ... *)
Definition vanish_report (this_task : Z) (mm : msg_t) : M manager unit :=
  lock_ht;;
  parent_task ← get_task (Data.vanish_ppid mm);
  m ← get;
  let parent_task := if parent_task =? 0 then init_task m else parent_task in
  lock_task parent_task;;
  unlock_ht;;
  this ← rd_task this_task;
  es ← rd_status (exit_status this);
  wr_status (exit_status this) (mk_es (es_pid es) (Data.vanish_status mm));;
  upd_task parent_task (fun t => set_children (QSpec.enqueue (child_exit_status_list t) (exit_status_node this)) t);;
  upd_task parent_task (fun t => set_zombie (num_zombie t + 1) t);;
  upd_task parent_task (fun t => set_alive (num_alive t - 1) t);;
  wake_waiter parent_task.

(** ... take the task out of the table, ... *)
Definition vanish_unlink (this_task pid : Z) : M manager unit :=
  lock_ht;;
  lock_task this_task;;
  is_find ← hashtable_remove pid;
  if is_find =? 0 then panic else
  unlock_task this_task;;
  unlock_ht.

(** ... and hand the unreaped children to init. *)
Definition vanish_orphans (fuel : nat) (this_task : Z) : M manager unit :=
  m ← get;
  lock_task (init_task m);;
  has_unreaped_child ← move_children fuel this_task false;
  if (has_unreaped_child : bool) then wake_waiter (init_task m) else unlock_task (init_task m).

Definition smp_syscall_vanish (fuel : nat) (msg : Z) : M manager unit :=
  mm ← rd_msg msg;
  lock_ht;;
  this_task ← get_task (Data.vanish_pid mm);
  unlock_ht;;
  if this_task =? 0 then panic else
  vanish_report this_task mm;;
  vanish_unlink this_task (Data.vanish_pid mm);;
  vanish_orphans fuel this_task;;
  free_pcb_vanish_wait_struct this_task;;
  upd_msg msg (set_type RESPONSE);;
  mm ← rd_msg msg;
  manager_send_msg msg (req_cpu mm).

Definition smp_syscall_wait (msg : Z) : M manager unit :=
  mm ← rd_msg msg;
  lock_ht;;
  pcb ← get_task (Data.wait_pid mm);
  unlock_ht;;
  if pcb =? 0 then panic else
  lock_task pcb;;
  t ← rd_task pcb;
  if (num_zombie t =? 0) && (num_alive t =? Z.of_nat (length (wait_queue t))) then
    unlock_task pcb;;
    upd_msg msg (set_type WAIT_RESPONSE);;
    upd_msg msg (set_w1 ECHILD);;
    mm ← rd_msg msg;
    manager_send_msg msg (req_cpu mm)
  else if num_zombie t =? 0 then
    upd_task pcb (fun t => set_waiters (QSpec.enqueue (wait_queue t) msg) t);;
    unlock_task pcb
  else
    upd_task pcb (fun t => set_zombie (num_zombie t - 1) t);;
    exit_status_node ← dequeue_child pcb;
    unlock_task pcb;;
    answer_wait msg exit_status_node.
End handlers.

(** ** Representation *)

Definition free_lock : Mutex.mutex_t := Mutex.mk_mutex (-1) [].

(** The exit status a node leads to. *)
Definition status_of (m : manager) (n : Z) : option (Z * Z) :=
  e ← nodes m !! n; s ← statuses m !! e; Some (es_pid s, es_status s).

(** Task [p], at address [a], is [x].  [G] says which task's lists a node
    belongs to; the tasks of [R] have given their own exit status away. *)
Record task_ok (R : gset Z) (G : gmap Z Z) (m : manager) (p a : Z) (x : LifeSpec.task) (t : pcb_vanish_wait_t) : Prop := {
  tk_at : tasks m !! a = Some t;
  tk_nonnull : a <> 0;
  tk_lock : lock t = free_lock;
  tk_alive : num_alive t = LifeSpec.alive x;
  tk_zombie : num_zombie t = Z.of_nat (length (LifeSpec.zombies x));
  tk_waiters : wait_queue t = LifeSpec.waiters x;
  tk_list : Forall2 (fun n z => n <> 0 /\ G !! n = Some p /\ status_of m n = Some z) (child_exit_status_list t) (LifeSpec.zombies x);
  tk_nodup : NoDup (child_exit_status_list t);
  tk_own : p ∉ R -> exit_status_node t <> 0 /\ G !! exit_status_node t = Some p /\
    ~ (exit_status_node t ∈ child_exit_status_list t) /\ nodes m !! exit_status_node t = Some (exit_status t) /\
    exists v, statuses m !! exit_status t = Some (mk_es p v)
}.

(** A waiting message can be answered: it is in memory and its core exists. *)
Definition waiter_ok (n : Message.net) (w : Z) : Prop :=
  Message.msg_ok n w /\ forall mm, Message.msgs n !! w = Some mm -> 1 <= req_cpu mm <= Message.num_worker_cores n.

Record tasks_rep (R : gset Z) (G A : gmap Z Z) (m : manager) (L : LifeSpec.life) : Prop := {
  tr_task : forall p, match A !! p, L !! p with
                      | Some a, Some x => exists t, task_ok R G m p a x t
                      | None, None => True
                      | _, _ => False
                      end;
  tr_inj : forall p q a, A !! p = Some a -> A !! q = Some a -> p = q;
  tr_nodes : forall n n' e, nodes m !! n = Some e -> nodes m !! n' = Some e -> n = n';
  tr_waiters : forall p x w, L !! p = Some x -> w ∈ LifeSpec.waiters x -> waiter_ok (net m) w
}.

Definition ht_rep (A : gmap Z Z) (m : manager) : Prop :=
  ht_pid_pcb_lock m = free_lock /\
  forall p, ht_pid_pcb m p = match A !! p with Some a => [a] | None => [] end.

(** The state between two handlers. *)
Record life_rep (G A : gmap Z Z) (m : manager) (init : Z) (L : LifeSpec.life) (c : ChanSpec.chans) : Prop := {
  lr_tasks : tasks_rep ∅ G A m L;
  lr_ht : ht_rep A m;
  lr_init : A !! init = Some (init_task m);
  lr_net : Message.net_rep (net m) c
}.

(** What the tasks hold together: the exit statuses waiting to be collected, and
    the messages of the threads blocked in wait. *)
Definition gather {B} (f : LifeSpec.task -> list B) (L : LifeSpec.life) : list B := concat ((fun px => f px.2) <$> map_to_list L).
Abbreviation pending := (gather LifeSpec.zombies).
Abbreviation waiting := (gather LifeSpec.waiters).

(** ** Running the basic steps *)

Section runs.
Context (me : Z) (me_tid : 0 <= me).
Definition held : Mutex.mutex_t := Mutex.mk_mutex me [].

Lemma lock_ht_run m : ht_pid_pcb_lock m = free_lock -> lock_ht me m = Ok (tt, with_ht_lock held (tstates m) m).
Proof. intros E. unfold lock_ht, on_ht_lock. erewrite zoom_ok by (apply Mutex.mutex_lock_free; exact E). done. Qed.

Lemma unlock_ht_run m : ht_pid_pcb_lock m = held -> unlock_ht m = Ok (tt, with_ht_lock free_lock (tstates m) m).
Proof. intros E. unfold unlock_ht, on_ht_lock. erewrite zoom_ok by (apply (Mutex.mutex_unlock_free _ me); [done|exact E]). done. Qed.

(** [lock_ht;; get_task pid;; unlock_ht] leaves the state as it was. *)
Lemma find_task_run {B} pid (k : Z -> M manager B) m v : ht_pid_pcb_lock m = free_lock ->
  match HTSpec.get (ht_pid_pcb m) pid with Some v => v | None => 0 end = v ->
  (lock_ht me;; t ← get_task pid; unlock_ht;; k t) m = k v m.
Proof.
  intros E <-. rewrite (bind_ok _ _ _ _ _ (lock_ht_run m E)). erewrite bind_ok by reflexivity.
  erewrite bind_ok by (by apply unlock_ht_run). simpl. f_equal. destruct m. simpl in *. by rewrite <- E.
Qed.

Lemma rd_task_run m a t : tasks m !! a = Some t -> rd_task a m = Ok (t, m).
Proof. intros H. unfold rd_task. by rewrite H. Qed.

Lemma upd_task_run m a t f : tasks m !! a = Some t -> upd_task a f m = Ok (tt, with_tasks (<[a := f t]> (tasks m)) m).
Proof. intros H. unfold upd_task. by rewrite (bind_ok _ _ _ _ _ (rd_task_run _ _ _ H)). Qed.

Lemma lock_task_run m a t : tasks m !! a = Some t -> lock t = free_lock ->
  lock_task me a m = Ok (tt, with_tasks (<[a := set_lock held t]> (tasks m)) m).
Proof.
  intros H E. unfold lock_task, on_task_lock. rewrite (bind_ok _ _ _ _ _ (rd_task_run _ _ _ H)).
  erewrite zoom_ok by (apply Mutex.mutex_lock_free; exact E). done.
Qed.

Lemma unlock_task_run m a t : tasks m !! a = Some t -> lock t = held ->
  unlock_task a m = Ok (tt, with_tasks (<[a := set_lock free_lock t]> (tasks m)) m).
Proof.
  intros H E. unfold unlock_task, on_task_lock. rewrite (bind_ok _ _ _ _ _ (rd_task_run _ _ _ H)).
  erewrite zoom_ok by (apply (Mutex.mutex_unlock_free _ me); [done|exact E]). done.
Qed.

Lemma rd_msg_run m p mm : Message.msgs (net m) !! p = Some mm -> rd_msg p m = Ok (mm, m).
Proof. intros H. unfold rd_msg, on_net. erewrite zoom_ok by (by apply Message.rd_ok). by destruct m. Qed.

Lemma upd_msg_run m p mm f : Message.msgs (net m) !! p = Some mm ->
  upd_msg p f m = Ok (tt, with_net (Message.with_msgs (<[p := f mm]> (Message.msgs (net m))) (net m)) m).
Proof. intros H. unfold upd_msg, on_net. by erewrite zoom_ok by (by apply Message.upd_ok). Qed.

(** Sending a message after changing its data. *)
Lemma reply_run m c w wm f : Message.net_rep (net m) c -> Message.msg_ok (net m) w ->
  Message.msgs (net m) !! w = Some wm -> 1 <= req_cpu wm <= Message.num_worker_cores (net m) ->
  node_thr (f wm) = node_thr wm ->
  exists n', manager_send_msg w (req_cpu wm) (with_net (Message.with_msgs (<[w := f wm]> (Message.msgs (net m))) (net m)) m)
      = Ok (tt, with_net n' m) /\
    Message.net_rep n' (ChanSpec.send_worker c (req_cpu wm) w) /\
    Message.msgs n' = <[w := f wm]> (Message.msgs (net m)) /\
    Message.num_worker_cores n' = Message.num_worker_cores (net m).
Proof.
  intros Hr Hw Hm Hc Hf. set (n1 := Message.with_msgs (<[w := f wm]> (Message.msgs (net m))) (net m)).
  assert (Hr1 : Message.net_rep n1 c).
  { apply Message.net_rep_msgs; [done|]. intros x mx Hx. destruct (decide (x = w)) as [->|Hne].
    - rewrite lookup_insert_eq. eexists. split; [done|]. congruence.
    - rewrite lookup_insert_ne by done. by eexists. }
  assert (Hw1 : Message.msg_ok n1 w).
  { destruct Hw as (H0 & mm & Hmm & Ht). split; [done|]. exists (f wm). simpl. rewrite lookup_insert_eq. split; [done|]. congruence. }
  destruct (Message.manager_send_ok n1 c w (req_cpu wm) Hr1 Hw1 Hc) as (p & R & Hr').
  eexists. split; [|split; [exact Hr'|done]]. unfold manager_send_msg, on_net. by erewrite zoom_ok by exact R.
Qed.

(** The message that answers a wait with the exit status [z]. *)
Definition answered (z : Z * Z) (wm : msg_t) : msg_t := set_w0 z.2 (set_w1 z.1 (set_type WAIT_RESPONSE wm)).

Lemma answer_wait_run m c w wm n e es : Message.net_rep (net m) c -> waiter_ok (net m) w ->
  Message.msgs (net m) !! w = Some wm -> nodes m !! n = Some e -> statuses m !! e = Some es ->
  exists n', answer_wait w n m
      = Ok (tt, with_nodes (delete n (nodes m)) (with_statuses (delete e (statuses m)) (with_net n' m))) /\
    Message.net_rep n' (ChanSpec.send_worker c (req_cpu wm) w) /\
    Message.msgs n' = <[w := answered (es_pid es, es_status es) wm]> (Message.msgs (net m)) /\
    Message.num_worker_cores n' = Message.num_worker_cores (net m).
Proof.
  intros Hr [Hw Hc] Hm Hn He. specialize (Hc wm Hm).
  set (m' := with_nodes (delete n (nodes m)) (with_statuses (delete e (statuses m)) m)).
  destruct (reply_run m' c w wm (answered (es_pid es, es_status es)) Hr Hw Hm Hc eq_refl) as (n' & R & Hr' & Hms & Hwk).
  exists n'. split; [|done]. unfold answer_wait, rd_node, rd_status.
  erewrite bind_ok by (by rewrite Hn). erewrite bind_ok by (by rewrite He).
  erewrite bind_ok by (apply upd_msg_run; exact Hm).
  erewrite bind_ok by (apply upd_msg_run; simpl; apply lookup_insert_eq).
  erewrite bind_ok by (apply upd_msg_run; simpl; apply lookup_insert_eq).
  erewrite bind_ok by (unfold free_status; simpl; by rewrite He).
  erewrite bind_ok by (unfold free_node; simpl; by rewrite Hn).
  erewrite bind_ok by (apply rd_msg_run; simpl; apply lookup_insert_eq).
  simpl. rewrite !insert_insert_eq. exact R.
Qed.

(** ** Keeping the representation *)

Lemma task_frame_live R R' G G' m m' p a x t : task_ok R G m p a x t -> tasks m' !! a = Some t -> (p ∈ R -> p ∈ R') ->
  (forall n e, G !! n = Some p -> nodes m !! n = Some e -> is_Some (statuses m !! e) ->
     G' !! n = Some p /\ nodes m' !! n = Some e /\ statuses m' !! e = statuses m !! e) ->
  task_ok R' G' m' p a x t.
Proof.
  intros [H1 H2 H3 H4 H5 H6 H7 H8 H9] Ht HR HG. split; try done.
  - refine (list.Forall2_impl _ _ _ _ H7 _). intros n z (Hn & Hg & Hs). split; [done|]. unfold status_of in *.
    destruct (nodes m !! n) as [e|] eqn:E; [|done]. simpl in Hs. destruct (statuses m !! e) as [es|] eqn:Ee; [|done].
    destruct (HG n e Hg E ltac:(eauto)) as (Hg' & Hn' & He). split; [done|]. rewrite Hn'. simpl. by rewrite He, Ee.
  - intros HpR. destruct H9 as (? & Hg & ? & Hn & v & Hv); [tauto|]. destruct (HG _ _ Hg Hn ltac:(eauto)) as (Hg' & Hn' & He).
    split; [done|]. split; [done|]. split; [done|]. split; [done|]. exists v. by rewrite He.
Qed.

Lemma task_frame R R' G G' m m' p a x t : task_ok R G m p a x t -> tasks m' !! a = Some t -> (p ∈ R -> p ∈ R') ->
  (forall n, G !! n = Some p -> G' !! n = Some p /\ nodes m' !! n = nodes m !! n /\
     forall e, nodes m !! n = Some e -> statuses m' !! e = statuses m !! e) ->
  task_ok R' G' m' p a x t.
Proof.
  intros Hok Ht HR HG. eapply task_frame_live; [done..|]. intros n e Hg Hn _. destruct (HG n Hg) as (? & En & ?).
  split; [done|]. split; [congruence|eauto].
Qed.

(** Two tasks have different addresses, so a write to one keeps the other. *)
Lemma rep_insert R R' G G' A m m' L p a x' :
  tasks_rep R G A m L -> A !! p = Some a -> (exists t', task_ok R' G' m' p a x' t') ->
  (forall q b x t, q <> p -> b <> a -> A !! q = Some b -> L !! q = Some x -> task_ok R G m q b x t -> task_ok R' G' m' q b x t) ->
  (forall n n' e, nodes m' !! n = Some e -> nodes m' !! n' = Some e -> n = n') ->
  (forall w, waiter_ok (net m) w -> waiter_ok (net m') w) ->
  (forall w, w ∈ LifeSpec.waiters x' -> waiter_ok (net m') w) ->
  tasks_rep R' G' A m' (<[p := x']> L).
Proof.
  intros [T1 T2 T3 T4] Ha Hp Hq Hn Hw Hwp. split; [|done|done|].
  - intros q. destruct (decide (q = p)) as [->|Hne]; [by rewrite Ha, lookup_insert_eq|].
    rewrite lookup_insert_ne by done. specialize (T1 q). destruct (A !! q) as [b|] eqn:Eb, (L !! q) as [x|] eqn:Ex; try done.
    destruct T1 as [t Ht]. exists t. apply (Hq q b x t); try done. intros ->. apply Hne. by apply (T2 q p a).
  - intros q x w Hx Hin. destruct (decide (q = p)) as [->|Hne].
    + rewrite lookup_insert_eq in Hx. injection Hx as <-. by apply Hwp.
    + rewrite lookup_insert_ne in Hx by done. eapply Hw, T4; eauto.
Qed.

Lemma rep_lookup R G A m L p a : tasks_rep R G A m L -> A !! p = Some a ->
  exists x t, L !! p = Some x /\ task_ok R G m p a x t.
Proof.
  intros Hr Ha. pose proof (tr_task _ _ _ _ _ Hr p) as H. rewrite Ha in H.
  destruct (L !! p) as [x|]; [|done]. destruct H as [t Ht]. eauto.
Qed.

Lemma rep_find R G A m L p x : tasks_rep R G A m L -> L !! p = Some x ->
  exists a t, A !! p = Some a /\ task_ok R G m p a x t.
Proof.
  intros Hr Hx. pose proof (tr_task _ _ _ _ _ Hr p) as H. rewrite Hx in H.
  destruct (A !! p) as [a|]; [|done]. destruct H as [t Ht]. eauto.
Qed.

(** A message layer that changed only data words of messages. *)
Lemma waiter_keep n n' w wm f v : Message.msgs n !! w = Some wm -> Message.msgs n' = <[w := f wm]> (Message.msgs n) ->
  Message.num_worker_cores n' = Message.num_worker_cores n -> node_thr (f wm) = node_thr wm -> req_cpu (f wm) = req_cpu wm ->
  waiter_ok n v -> waiter_ok n' v.
Proof.
  intros Hw Hm Hk Hn Hc [(H0 & mm & Hmm & Ht) Hr]. unfold waiter_ok, Message.msg_ok. rewrite Hm, Hk.
  destruct (decide (v = w)) as [->|Hne].
  - rewrite lookup_insert_eq. split; [split; [done|]; eexists; split; [done|congruence]|].
    intros ? [= <-]. rewrite Hc. by apply Hr.
  - rewrite lookup_insert_ne by done. split; [split; [done|]; by exists mm|]. done.
Qed.

(** Collecting the oldest exit status of task [p]. *)
Lemma reap_rep R G A m L p a x t z zs ws n ns e es n' w wm :
  tasks_rep R G A m L -> A !! p = Some a -> task_ok R G m p a x t -> L !! p = Some x ->
  LifeSpec.zombies x = z :: zs -> child_exit_status_list t = n :: ns ->
  nodes m !! n = Some e -> statuses m !! e = Some es ->
  Message.msgs (net m) !! w = Some wm -> Message.msgs n' = <[w := answered z wm]> (Message.msgs (net m)) ->
  Message.num_worker_cores n' = Message.num_worker_cores (net m) ->
  (forall v, v ∈ ws -> waiter_ok (net m) v) ->
  tasks_rep R G A
    (with_nodes (delete n (nodes m)) (with_statuses (delete e (statuses m)) (with_net n'
      (with_tasks (<[a := mk_task ns (exit_status t) (exit_status_node t) (num_alive t) (num_zombie t - 1) ws free_lock]> (tasks m)) m))))
    (<[p := LifeSpec.mk_task (LifeSpec.alive x) zs ws]> L).
Proof.
  intros Hr Ha Ht Hx Hz Hn Hne Hes Hw Hms Hk Hws.
  assert (Hkeep : forall v, waiter_ok (net m) v -> waiter_ok n' v) by (intros v; by apply (waiter_keep _ _ w wm (answered z))).
  assert (Hother : forall n2 e2, n2 <> n -> nodes m !! n2 = Some e2 -> e2 <> e).
  { intros n2 e2 H2 H3 ->. apply H2. by apply (tr_nodes _ _ _ _ _ Hr n2 n e). }
  destruct Ht as [H1 H2 H3 H4 H5 H6 H7 H8 H9]. rewrite Hn, Hz in *. apply Forall2_cons_1 in H7 as [(_ & HGn & _) H7].
  apply list.NoDup_cons in H8 as [H8 H8'].
  eapply rep_insert; [exact Hr|exact Ha| | | |simpl; auto|simpl; auto].
  - eexists. split; simpl; rewrite ?lookup_insert_eq; try done; [simpl; cbn [length] in H5; lia| |].
    + apply Forall2_same_length_lookup. split; [by eapply Forall2_length|]. intros i n2 z2 Hi Hi2.
      destruct (Forall2_lookup_lr _ _ _ _ _ _ H7 Hi Hi2) as (N0 & Ng & Ns). split; [done|]. split; [done|].
      assert (Hn2 : n2 <> n) by (intros ->; apply H8; by eapply list_elem_of_lookup_2).
      rewrite <- Ns. unfold status_of. simpl. rewrite lookup_delete_ne by done. destruct (nodes m !! n2) as [e2|] eqn:E2; [|done].
      simpl. by rewrite lookup_delete_ne by (symmetry; eauto).
    + intros HpR. destruct (H9 HpR) as (O1 & O2 & O3 & O4 & v & O5). apply not_elem_of_cons in O3 as [O3 O3'].
      split; [done|]. split; [done|]. split; [done|]. rewrite lookup_delete_ne by done. split; [done|].
      exists v. by rewrite lookup_delete_ne by (symmetry; eauto).
  - intros q b y u Hq Hb HA HL Hu. eapply task_frame; [exact Hu|simpl; rewrite lookup_insert_ne by done; apply Hu|done|].
    intros n2 HG2. assert (n2 <> n) by (intros ->; congruence). simpl. rewrite lookup_delete_ne by done.
    split; [done|]. split; [done|]. intros e2 He2. by rewrite lookup_delete_ne by (symmetry; eauto).
  - simpl. intros n1 n2 e2 [_ ?]%lookup_delete_Some [_ ?]%lookup_delete_Some. by apply (tr_nodes _ _ _ _ _ Hr n1 n2 e2).
Qed.

Lemma dequeue_child_run m a t n ns : tasks m !! a = Some t -> child_exit_status_list t = n :: ns ->
  dequeue_child a m = Ok (n, with_tasks (<[a := set_children ns t]> (tasks m)) m).
Proof.
  intros Ht Hc. unfold dequeue_child. rewrite (bind_ok _ _ _ _ _ (rd_task_run _ _ _ Ht)), Hc. simpl.
  by rewrite (bind_ok _ _ _ _ _ (upd_task_run _ _ _ _ Ht)).
Qed.

(** The exit status of the oldest zombie. *)
Lemma oldest_zombie R G m p a x t z zs : task_ok R G m p a x t -> LifeSpec.zombies x = z :: zs ->
  exists n ns e es, child_exit_status_list t = n :: ns /\ nodes m !! n = Some e /\ statuses m !! e = Some es /\
    z = (es_pid es, es_status es) /\ n <> 0.
Proof.
  intros Ht Hz. pose proof (tk_list _ _ _ _ _ _ _ Ht) as Hl. rewrite Hz in Hl.
  destruct (child_exit_status_list t) as [|n ns]; [by apply Forall2_nil_inv_l in Hl|].
  apply Forall2_cons_1 in Hl as [(Hn & _ & Hs) _]. unfold status_of in Hs.
  destruct (nodes m !! n) as [e|] eqn:E; [|done]. simpl in Hs. destruct (statuses m !! e) as [es|] eqn:E2; [|done].
  simpl in Hs. injection Hs as <-. eauto 10.
Qed.

Lemma ht_get A m p a : ht_rep A m -> A !! p = Some a ->
  match HTSpec.get (ht_pid_pcb m) p with Some v => v | None => 0 end = a.
Proof. intros [_ H] Ha. unfold HTSpec.get. by rewrite H, Ha. Qed.

Lemma relock_task m a t : tasks m !! a = Some t -> lock t = free_lock ->
  with_tasks (<[a := set_lock free_lock (set_lock held t)]> (<[a := set_lock held t]> (tasks m))) m = m.
Proof.
  intros Ht Hl. rewrite insert_insert_eq. destruct m. unfold with_tasks. simpl in *. f_equal.
  apply insert_id. rewrite Ht. f_equal. destruct t. unfold set_lock. simpl in *. by rewrite Hl.
Qed.

(** The answer [wait] sends when there is no child to wait for. *)
Definition refused (wm : msg_t) : msg_t := set_w1 ECHILD (set_type WAIT_RESPONSE wm).

Section wait.
Context (G A : gmap Z Z) (m : manager) (init : Z) (L : LifeSpec.life) (c : ChanSpec.chans).
Context (Hr : life_rep G A m init L c).
Context (msg : Z) (mm : msg_t) (Hm : Message.msgs (net m) !! msg = Some mm) (Hw : waiter_ok (net m) msg).
Let pid := Data.wait_pid mm.
Context (x : LifeSpec.task) (Hx : L !! pid = Some x).

(** The handler up to the test of the counters. *)
Lemma wait_prefix a t : A !! pid = Some a -> task_ok ∅ G m pid a x t ->
  smp_syscall_wait me msg m =
  (let m1 := with_tasks (<[a := set_lock held t]> (tasks m)) m in
   if (num_zombie t =? 0) && (num_alive t =? Z.of_nat (length (wait_queue t))) then
     (unlock_task a;; upd_msg msg (set_type WAIT_RESPONSE);; upd_msg msg (set_w1 ECHILD);;
      mm ← rd_msg msg; manager_send_msg msg (req_cpu mm)) m1
   else if num_zombie t =? 0 then
     (upd_task a (fun t => set_waiters (QSpec.enqueue (wait_queue t) msg) t);; unlock_task a) m1
   else
     (upd_task a (fun t => set_zombie (num_zombie t - 1) t);; n ← dequeue_child a; unlock_task a;; answer_wait msg n) m1).
Proof.
  intros HA Ht. unfold smp_syscall_wait. rewrite (bind_ok _ _ _ _ _ (rd_msg_run _ _ _ Hm)).
  rewrite (find_task_run _ _ m a (proj1 (lr_ht _ _ _ _ _ _ Hr)) (ht_get _ _ _ _ (lr_ht _ _ _ _ _ _ Hr) HA)).
  rewrite (proj2 (Z.eqb_neq a 0)) by apply (tk_nonnull _ _ _ _ _ _ _ Ht).
  rewrite (bind_ok _ _ _ _ _ (lock_task_run m a t (tk_at _ _ _ _ _ _ _ Ht) (tk_lock _ _ _ _ _ _ _ Ht))). cbv zeta.
  rewrite (bind_ok (rd_task a) _ _ (set_lock held t) _) by (apply rd_task_run; apply lookup_insert_eq). simpl.
  by destruct (_ && _), (num_zombie t =? 0).
Qed.

Lemma wait_reap z zs : LifeSpec.zombies x = z :: zs ->
  exists m', smp_syscall_wait me msg m = Ok (tt, m') /\
    life_rep G A m' init (<[pid := LifeSpec.mk_task (LifeSpec.alive x) zs (LifeSpec.waiters x)]> L)
      (ChanSpec.send_worker c (req_cpu mm) msg) /\
    Message.msgs (net m') = <[msg := answered z mm]> (Message.msgs (net m)).
Proof.
  intros Hz. destruct Hr as [HT HH HI HN]. destruct (rep_find _ _ _ _ _ _ _ HT Hx) as (a & t & HA & Ht).
  destruct (oldest_zombie _ _ _ _ _ _ _ _ _ Ht Hz) as (n & ns & e & es & Hc & Hn & He & Ez & Hn0).
  destruct (answer_wait_run (with_tasks (<[a := mk_task ns (exit_status t) (exit_status_node t) (num_alive t) (num_zombie t - 1)
    (wait_queue t) free_lock]> (tasks m)) m) c msg mm n e es HN Hw Hm Hn He) as (n' & R & HN' & Hms & Hk).
  rewrite <- Ez in Hms. eexists. split; [|split].
  - rewrite (wait_prefix a t HA Ht). cbv zeta. rewrite (tk_zombie _ _ _ _ _ _ _ Ht), Hz. cbn [length].
    rewrite (proj2 (Z.eqb_neq (Z.of_nat (S (length zs))) 0)) by lia. cbn [andb].
    erewrite bind_ok by (apply upd_task_run; apply lookup_insert_eq).
    erewrite bind_ok by (eapply dequeue_child_run; [apply lookup_insert_eq|exact Hc]).
    erewrite bind_ok by (eapply unlock_task_run; [apply lookup_insert_eq|done]).
    unfold with_tasks. simpl. rewrite !insert_insert_eq. unfold with_tasks in R.
    exact R.
  - split; [|exact HH|exact HI|exact HN'].
    rewrite (tk_waiters _ _ _ _ _ _ _ Ht).
    apply (reap_rep ∅ G A m L pid a x t z zs _ n ns e es n' msg mm HT HA Ht Hx Hz Hc Hn He Hm Hms Hk (fun v => tr_waiters _ _ _ _ _ HT pid x v Hx)).
  - exact Hms.
Qed.

Lemma wait_refuse : LifeSpec.zombies x = [] -> LifeSpec.alive x = Z.of_nat (length (LifeSpec.waiters x)) ->
  exists m', smp_syscall_wait me msg m = Ok (tt, m') /\
    life_rep G A m' init L (ChanSpec.send_worker c (req_cpu mm) msg) /\
    Message.msgs (net m') = <[msg := refused mm]> (Message.msgs (net m)).
Proof.
  intros Hz Ha. destruct Hr as [HT HH HI HN]. destruct (rep_find _ _ _ _ _ _ _ HT Hx) as (a & t & HA & Ht).
  destruct Hw as [Hok Hcpu].
  destruct (reply_run m c msg mm refused HN Hok Hm (Hcpu mm Hm) eq_refl) as (n' & R & HN' & Hms & Hk).
  exists (with_net n' m). split; [|split; [|exact Hms]].
  - rewrite (wait_prefix a t HA Ht). cbv zeta.
    rewrite (tk_zombie _ _ _ _ _ _ _ Ht), (tk_alive _ _ _ _ _ _ _ Ht), (tk_waiters _ _ _ _ _ _ _ Ht), Hz, Ha.
    rewrite (Z.eqb_refl (Z.of_nat (length (LifeSpec.waiters x)))). cbn [length]. change (Z.of_nat 0) with 0. cbn [Z.eqb andb].
    erewrite bind_ok by (eapply unlock_task_run; [apply lookup_insert_eq|done]).
    simpl tasks. change (with_tasks ?f (with_tasks _ m)) with (with_tasks f m).
    rewrite (relock_task m a t (tk_at _ _ _ _ _ _ _ Ht) (tk_lock _ _ _ _ _ _ _ Ht)).
    erewrite bind_ok by (apply upd_msg_run; exact Hm).
    erewrite bind_ok by (apply upd_msg_run; simpl; apply lookup_insert_eq).
    erewrite bind_ok by (apply rd_msg_run; simpl; apply lookup_insert_eq).
    simpl. rewrite !insert_insert_eq. exact R.
  - split; [|exact HH|exact HI|exact HN']. destruct HT as [T1 T2 T3 T4]. split; [|done|done|].
    + intros p. specialize (T1 p). destruct (A !! p) as [b|], (L !! p) as [y|]; try done. destruct T1 as [u [? ? ? ? ? ? ? ? ?]].
      exists u. by split.
    + intros p y w Hy Hin. apply (waiter_keep _ _ msg mm refused w Hm Hms Hk eq_refl eq_refl). eauto.
Qed.

Lemma wait_sleep : LifeSpec.zombies x = [] -> LifeSpec.alive x <> Z.of_nat (length (LifeSpec.waiters x)) ->
  exists m', smp_syscall_wait me msg m = Ok (tt, m') /\
    life_rep G A m' init (<[pid := LifeSpec.mk_task (LifeSpec.alive x) [] (LifeSpec.waiters x ++ [msg])]> L) c /\
    Message.msgs (net m') = Message.msgs (net m).
Proof.
  intros Hz Ha. destruct Hr as [HT HH HI HN]. destruct (rep_find _ _ _ _ _ _ _ HT Hx) as (a & t & HA & Ht).
  pose proof Ht as [H1 H2 H3 H4 H5 H6 H7 H8 H9].
  eexists. split; [|split].
  - rewrite (wait_prefix a t HA Ht). cbv zeta. rewrite H5, H4, H6, Hz, (proj2 (Z.eqb_neq (LifeSpec.alive x) _) Ha).
    cbn [length]. change (Z.of_nat 0) with 0. cbn [Z.eqb andb].
    erewrite bind_ok by (apply upd_task_run; apply lookup_insert_eq).
    erewrite unlock_task_run by (first [apply lookup_insert_eq|done]). reflexivity.
  - split; [|exact HH|exact HI|exact HN]. simpl. rewrite !insert_insert_eq.
    eapply rep_insert; [exact HT|exact HA| | |exact (tr_nodes _ _ _ _ _ HT)|done|].
    + eexists. split; simpl; rewrite ?lookup_insert_eq; try done; simpl.
      * by rewrite H5, Hz.
      * by rewrite H6.
      * rewrite Hz in H7. exact H7.
    + intros q b y u Hq Hb HAq HLq Hu. eapply task_frame; [exact Hu|simpl; rewrite lookup_insert_ne by done; apply Hu|done|done].
    + simpl. intros w [Hin|<-%list_elem_of_singleton]%elem_of_app; [by apply (tr_waiters _ _ _ _ _ HT pid x)|done].
  - done.
Qed.
End wait.

Lemma smp_syscall_wait_ok G A m init L c msg mm x :
  life_rep G A m init L c -> Message.msgs (net m) !! msg = Some mm -> waiter_ok (net m) msg ->
  L !! Data.wait_pid mm = Some x ->
  let '(ans, x') := LifeSpec.wait (Data.wait_pid mm) msg x in
  exists m', smp_syscall_wait me msg m = Ok (tt, m') /\
    match ans with
    | LifeSpec.Sleep => life_rep G A m' init (<[Data.wait_pid mm := x']> L) c /\
        Message.msgs (net m') = Message.msgs (net m)
    | LifeSpec.NoChild => life_rep G A m' init L (ChanSpec.send_worker c (req_cpu mm) msg) /\
        Message.msgs (net m') = <[msg := refused mm]> (Message.msgs (net m))
    | LifeSpec.Reap z => life_rep G A m' init (<[Data.wait_pid mm := x']> L) (ChanSpec.send_worker c (req_cpu mm) msg) /\
        Message.msgs (net m') = <[msg := answered z mm]> (Message.msgs (net m))
    end.
Proof.
  intros Hr Hm Hw Hx. unfold LifeSpec.wait. destruct (LifeSpec.zombies x) as [|z zs] eqn:Hz; [|by eapply wait_reap].
  destruct (Z.eqb_spec (LifeSpec.alive x) (Z.of_nat (length (LifeSpec.waiters x)))); [by eapply wait_refuse|by eapply wait_sleep].
Qed.

(** ** Waking the threads that wait *)

(** The channels and the messages after the answers [d] have been sent. *)
Definition deliver_msgs (d : list (Z * (Z * Z))) (cm : ChanSpec.chans * gmap Z msg_t) : ChanSpec.chans * gmap Z msg_t :=
  fold_left (fun '(c, ms) '(w, z) => match ms !! w with
                                     | Some wm => (ChanSpec.send_worker c (req_cpu wm) w, <[w := answered z wm]> ms)
                                     | None => (c, ms)
                                     end) d cm.

Definition net_ok (n : Message.net) (k : Z) (cm : ChanSpec.chans * gmap Z msg_t) : Prop :=
  Message.net_rep n cm.1 /\ Message.msgs n = cm.2 /\ Message.num_worker_cores n = k.

(** The state in which the lock of the task at [a] is held. *)
Definition locked_at (a : Z) (t : pcb_vanish_wait_t) (m : manager) : manager :=
  with_tasks (<[a := set_lock held t]> (tasks m)) m.

(** What the steps on tasks leave alone: the table and the set of structures.
    The memory of [k] exit statuses and of their nodes is given back. *)
Record same_table (k : nat) (m m' : manager) : Prop := {
  st_ht : ht_pid_pcb m' = ht_pid_pcb m;
  st_lock : ht_pid_pcb_lock m' = ht_pid_pcb_lock m;
  st_init : init_task m' = init_task m;
  st_dom : dom (tasks m') = dom (tasks m);
  st_nodes : size (nodes m) = (k + size (nodes m'))%nat;
  st_statuses : size (statuses m) = (k + size (statuses m'))%nat
}.

Lemma same_table_trans k1 k2 m m' m'' : same_table k1 m m' -> same_table k2 m' m'' -> same_table (k1 + k2) m m''.
Proof. intros [] []. split; try congruence; lia. Qed.

Lemma dom_update {A} (f : gmap Z A) a x y : f !! a = Some x -> dom (<[a := y]> f) = dom f.
Proof. intros H. apply dom_insert_lookup_L. by eexists. Qed.

Lemma size_delete {A} (f : gmap Z A) a x : f !! a = Some x -> size f = S (size (delete a f)).
Proof. intros H. rewrite map_size_delete, H. pose proof (map_size_ne_0_lookup_2 f a ltac:(eauto)). lia. Qed.

Lemma wake_waiter_rep R G A m L p a x t c :
  tasks_rep R G A m L -> A !! p = Some a -> L !! p = Some x -> task_ok R G m p a x t ->
  Message.net_rep (net m) c -> LifeSpec.zombies x <> [] ->
  exists m', wake_waiter a (locked_at a t m) = Ok (tt, m') /\
    (same_table (length (LifeSpec.deliver p L).1) m m' /\ forall b, b <> a -> tasks m' !! b = tasks m !! b) /\
    tasks_rep R G A m' (LifeSpec.deliver p L).2 /\
    net_ok (net m') (Message.num_worker_cores (net m)) (deliver_msgs (LifeSpec.deliver p L).1 (c, Message.msgs (net m))).
Proof.
  intros Hr HA HL Ht HN Hz. pose proof Ht as [H1 H2 H3 H4 H5 H6 H7 H8 H9]. unfold wake_waiter, dequeue_waiter.
  rewrite (bind_ok _ _ _ (match LifeSpec.waiters x with [] => 0 | w :: _ => w end)
    (match LifeSpec.waiters x with [] => locked_at a t m | _ :: ws => locked_at a (set_waiters ws t) m end)).
  2:{ erewrite bind_ok by (apply rd_task_run; apply lookup_insert_eq). simpl. rewrite H6.
      destruct (LifeSpec.waiters x) as [|w ws]; [done|]. simpl.
      erewrite bind_ok by (apply upd_task_run; apply lookup_insert_eq). unfold locked_at, with_tasks. simpl.
      by rewrite insert_insert_eq. }
  unfold LifeSpec.deliver. rewrite HL. destruct x as [al zs ws]. simpl in *.
  destruct zs as [|z zs]; [done|]. destruct ws as [|w ws].
  - simpl. erewrite unlock_task_run by (first [apply lookup_insert_eq|done]).
    change (with_tasks ?f (locked_at a t m)) with (with_tasks f m). unfold locked_at. simpl tasks.
    rewrite (relock_task m a t H1 H3). exists m. done.
  - assert (Hwk : waiter_ok (net m) w) by (apply (tr_waiters _ _ _ _ _ Hr p _ w HL); simpl; set_solver).
    pose proof Hwk as [(Hw0 & wm & Hwm & Hwt) _]. rewrite (proj2 (Z.eqb_neq w 0) Hw0). cbn [negb].
    destruct (oldest_zombie _ _ _ _ _ _ _ _ _ Ht eq_refl) as (n & ns & e & es & Hc & Hn & He & Ez & Hn0).
    destruct (answer_wait_run (with_tasks (<[a := mk_task ns (exit_status t) (exit_status_node t) (num_alive t) (num_zombie t - 1)
      ws free_lock]> (tasks m)) m) c w wm n e es HN Hwk Hwm Hn He) as (n' & Rn & HN' & Hms & Hk).
    rewrite <- Ez in Hms. eexists. split; [|split; [|split]].
    + erewrite bind_ok by (apply upd_task_run; apply lookup_insert_eq).
      erewrite bind_ok by (eapply dequeue_child_run; [apply lookup_insert_eq|exact Hc]).
      erewrite bind_ok by (eapply unlock_task_run; [apply lookup_insert_eq|done]).
      erewrite bind_ok by (apply rd_msg_run; exact Hwm). rewrite Hwt.
      unfold locked_at, with_tasks. simpl. rewrite !insert_insert_eq. exact Rn.
    + split; [|intros b Hb; simpl; by rewrite lookup_insert_ne].
      split; try done; simpl; [exact (dom_update _ _ _ _ H1)|exact (size_delete _ _ _ Hn)|exact (size_delete _ _ _ He)].
    + simpl. apply (reap_rep R G A m L p a _ t z zs ws n ns e es n' w wm Hr HA Ht HL eq_refl Hc Hn He Hwm Hms Hk).
      intros v Hv. apply (tr_waiters _ _ _ _ _ Hr p _ v HL). simpl. set_solver.
    + simpl. rewrite Hwm. done.
Qed.

(** ** Reporting an exit status *)

(** The parent's structure after the report. *)
Definition reported (node : Z) (t : pcb_vanish_wait_t) : pcb_vanish_wait_t :=
  mk_task (QSpec.enqueue (child_exit_status_list t) node) (exit_status t) (exit_status_node t)
    (num_alive t - 1) (num_zombie t + 1) (wait_queue t) (lock t).

Lemma report_rep G A m L pid a x t q b y u st :
  tasks_rep ∅ G A m L -> pid <> q ->
  A !! pid = Some a -> L !! pid = Some x -> task_ok ∅ G m pid a x t ->
  A !! q = Some b -> L !! q = Some y -> task_ok ∅ G m q b y u ->
  let m' := with_tasks (<[b := reported (exit_status_node t) u]> (tasks m))
              (with_statuses (<[exit_status t := mk_es pid st]> (statuses m)) m) in
  let G' := <[exit_status_node t := q]> G in
  tasks_rep {[pid]} G' A m' (LifeSpec.report q (pid, st) L) /\ task_ok {[pid]} G' m' pid a x t /\
  task_ok {[pid]} G' m' q b (LifeSpec.mk_task (LifeSpec.alive y - 1) (LifeSpec.zombies y ++ [(pid, st)]) (LifeSpec.waiters y))
    (reported (exit_status_node t) u).
Proof.
  intros Hr Hne HA HL Ht HB HLq Hu m' G'.
  destruct (tk_own _ _ _ _ _ _ _ Ht ltac:(set_solver)) as (N0 & NG & NC & NN & v & NS).
  set (n := exit_status_node t) in *. set (e := exit_status t) in *.
  assert (Hother : forall n2 e2, n2 <> n -> nodes m !! n2 = Some e2 -> e2 <> e).
  { intros n2 e2 H2 H3 ->. apply H2. by apply (tr_nodes _ _ _ _ _ Hr n2 n e). }
  assert (Hab : a <> b) by (intros ->; apply Hne; by apply (tr_inj _ _ _ _ _ Hr pid q b)).
  (* nodes of other tasks *)
  assert (Hfr : forall p n2, p <> pid -> G !! n2 = Some p -> G' !! n2 = Some p /\ nodes m' !! n2 = nodes m !! n2 /\
    forall e2, nodes m !! n2 = Some e2 -> statuses m' !! e2 = statuses m !! e2).
  { intros p n2 Hp HG2. assert (n2 <> n) by (intros ->; congruence). unfold G'. rewrite lookup_insert_ne by done.
    split; [done|]. split; [done|]. intros e2 He2. simpl. by rewrite lookup_insert_ne by (symmetry; eauto). }
  assert (Hpid : task_ok {[pid]} G' m' pid a x t).
  { destruct Ht as [H1 H2 H3 H4 H5 H6 H7 H8 H9]. split; try done; [simpl; by rewrite lookup_insert_ne| |set_solver].
    apply Forall2_same_length_lookup. split; [by eapply Forall2_length|]. intros i n2 z2 Hi Hi2.
    destruct (Forall2_lookup_lr _ _ _ _ _ _ H7 Hi Hi2) as (? & ? & Hs). split; [done|].
    assert (n2 <> n) by (intros ->; apply NC; by eapply list_elem_of_lookup_2).
    unfold G'. rewrite lookup_insert_ne by done. split; [done|]. rewrite <- Hs. unfold status_of. simpl.
    destruct (nodes m !! n2) as [e2|] eqn:E2; [|done]. simpl. by rewrite lookup_insert_ne by (symmetry; eauto). }
  assert (Hq : task_ok {[pid]} G' m' q b
    (LifeSpec.mk_task (LifeSpec.alive y - 1) (LifeSpec.zombies y ++ [(pid, st)]) (LifeSpec.waiters y)) (reported n u)).
  { destruct (task_frame ∅ {[pid]} G G' m (with_tasks (tasks m) m') q b y u Hu (tk_at _ _ _ _ _ _ _ Hu)
      ltac:(set_solver) (fun n2 => Hfr q n2 (not_eq_sym Hne))) as [H1 H2 H3 H4 H5 H6 H7 H8 H9].
    split; try done; simpl.
    - by rewrite lookup_insert_eq.
    - lia.
    - rewrite length_app. simpl. lia.
    - unfold QSpec.enqueue. apply Forall2_app; [exact H7|]. apply Forall2_cons; [|done]. split; [done|].
      unfold G'. rewrite lookup_insert_eq. split; [done|]. unfold status_of. simpl. rewrite NN. simpl. by rewrite lookup_insert_eq.
    - unfold QSpec.enqueue. apply list.NoDup_app. split; [done|]. split; [|apply NoDup_singleton].
      intros n2 Hn2 ->%list_elem_of_singleton. apply list_elem_of_lookup_1 in Hn2 as [i Hi].
      destruct (Forall2_lookup_l _ _ _ _ _ (tk_list _ _ _ _ _ _ _ Hu) Hi) as (? & _ & _ & HGn & _). congruence.
    - intros HqR. destruct (H9 HqR) as (O1 & O2 & O3 & O4 & O5). split; [done|]. split; [done|]. split; [|done].
      unfold QSpec.enqueue. rewrite elem_of_app, list_elem_of_singleton. intros [?|E]; [done|].
      destruct (tk_own _ _ _ _ _ _ _ Hu ltac:(set_solver)) as (_ & HGq & _). rewrite E in HGq. congruence. }
  split; [|done]. unfold LifeSpec.report.
  replace (alter _ q L) with (<[q := LifeSpec.mk_task (LifeSpec.alive y - 1) (LifeSpec.zombies y ++ [(pid, st)]) (LifeSpec.waiters y)]> L).
  2:{ apply map_eq. intros p. destruct (decide (p = q)) as [->|].
      - by rewrite lookup_insert_eq, lookup_alter_eq, HLq.
      - by rewrite lookup_insert_ne, lookup_alter_ne. }
  eapply rep_insert; [exact Hr|exact HB|eauto| |exact (tr_nodes _ _ _ _ _ Hr)|done|].
  - intros p b2 y2 u2 Hp Hb2 HA2 HL2 Hu2. destruct (decide (p = pid)) as [->|Hpp].
    + assert (b2 = a) as -> by congruence. assert (y2 = x) as -> by congruence.
      assert (u2 = t) as -> by (pose proof (tk_at _ _ _ _ _ _ _ Hu2); pose proof (tk_at _ _ _ _ _ _ _ Ht); congruence). done.
    + eapply task_frame; [exact Hu2|simpl; rewrite lookup_insert_ne by done; apply Hu2|set_solver|].
      intros n2 HG2. by apply (Hfr p).
  - simpl. intros w Hw. by apply (tr_waiters _ _ _ _ _ Hr q y).
Qed.

(** ** The orphaned exit statuses *)

Lemma drop_rep G A m L pid : tasks_rep {[pid]} G A m L -> tasks_rep ∅ G (delete pid A) m (delete pid L).
Proof.
  intros [T1 T2 T3 T4]. split; [| |done|].
  - intros p. destruct (decide (p = pid)) as [->|Hp]; [by rewrite !lookup_delete_eq|].
    rewrite !lookup_delete_ne by done. specialize (T1 p). destruct (A !! p) as [a|], (L !! p) as [x|]; try done.
    destruct T1 as [t [H1 H2 H3 H4 H5 H6 H7 H8 H9]]. exists t. split; try done. intros _. apply H9. set_solver.
  - intros p q a [_ ?]%lookup_delete_Some [_ ?]%lookup_delete_Some. eauto.
  - intros p x w [_ ?]%lookup_delete_Some. eauto.
Qed.

(** Nodes that task [pid], no longer in the table, still holds. *)
Definition floats (G : gmap Z Z) (m : manager) (pid : Z) (ns : list Z) (zs : list (Z * Z)) : Prop :=
  NoDup ns /\ Forall2 (fun n z => n <> 0 /\ G !! n = Some pid /\ status_of m n = Some z) ns zs.

(** The init task's structure after inheriting a node. *)
Definition inherited (n : Z) (u : pcb_vanish_wait_t) : pcb_vanish_wait_t :=
  mk_task (QSpec.enqueue (child_exit_status_list u) n) (exit_status u) (exit_status_node u)
    (num_alive u) (num_zombie u + 1) (wait_queue u) (lock u).

Lemma inherit_one_rep G A m L pid init ia y u n ns z zs tk :
  tasks_rep ∅ G A m L -> A !! init = Some ia -> L !! init = Some y -> task_ok ∅ G m init ia y u ->
  init <> pid -> A !! pid = None -> floats G m pid (n :: ns) (z :: zs) ->
  (forall q b, A !! q = Some b -> b <> ia -> tk !! b = tasks m !! b) -> tk !! ia = Some (inherited n u) ->
  let y' := LifeSpec.mk_task (LifeSpec.alive y) (LifeSpec.zombies y ++ [z]) (LifeSpec.waiters y) in
  let G' := <[n := init]> G in let m' := with_tasks tk m in
  tasks_rep ∅ G' A m' (<[init := y']> L) /\ task_ok ∅ G' m' init ia y' (inherited n u) /\ floats G' m' pid ns zs.
Proof.
  intros Hr HA HL Hu Hne Hpid [Hnd Hfl] Htk Htki y' G' m'.
  apply Forall2_cons_1 in Hfl as [(Hn0 & HGn & Hst) Hfl]. apply list.NoDup_cons in Hnd as [Hnn Hnd].
  assert (HG' : forall p n2, p <> pid -> G !! n2 = Some p -> G' !! n2 = Some p).
  { intros p n2 Hp HG2. unfold G'. rewrite lookup_insert_ne; [done|]. intros ->. congruence. }
  assert (Hi : task_ok ∅ G' m' init ia y' (inherited n u)).
  { destruct Hu as [H1 H2 H3 H4 H5 H6 H7 H8 H9]. split; try done; simpl.
    - rewrite length_app. simpl. lia.
    - apply Forall2_app.
      + refine (list.Forall2_impl _ _ _ _ H7 _). intros n2 z2 (? & ? & ?). split; [done|]. split; [by apply HG'|done].
      + apply Forall2_cons; [|done]. split; [done|]. unfold G'. by rewrite lookup_insert_eq.
    - apply list.NoDup_app. split; [done|]. split; [|apply NoDup_singleton].
      intros n2 Hn2 ->%list_elem_of_singleton. apply list_elem_of_lookup_1 in Hn2 as [i Hi].
      destruct (Forall2_lookup_l _ _ _ _ _ H7 Hi) as (? & _ & _ & HGi & _). congruence.
    - intros HR. destruct (H9 HR) as (O1 & O2 & O3 & O4 & O5). split; [done|]. split; [by apply HG'|]. split; [|done].
      unfold QSpec.enqueue. rewrite elem_of_app, list_elem_of_singleton. intros [?|E]; [done|]. rewrite E in O2. congruence. }
  split; [|split; [done|]].
  - eapply rep_insert; [exact Hr|exact HA|eauto| |exact (tr_nodes _ _ _ _ _ Hr)|done|].
    + intros q b x2 t2 Hq Hb HAq HLq Ht2. eapply task_frame; [exact Ht2|simpl; rewrite (Htk q) by done; apply Ht2|done|].
      intros n2 HG2. split; [apply HG'; [|done]; intros ->; congruence|done].
    + intros w Hw. by apply (tr_waiters _ _ _ _ _ Hr init y).
  - split; [done|]. apply Forall2_same_length_lookup. split; [by eapply Forall2_length|]. intros i n2 z2 Hi1 Hi2.
    destruct (Forall2_lookup_lr _ _ _ _ _ _ Hfl Hi1 Hi2) as (? & ? & ?). split; [done|]. split; [|done].
    unfold G'. rewrite lookup_insert_ne; [done|]. intros ->. apply Hnn. by eapply list_elem_of_lookup_2.
Qed.

Lemma move_children_rep A pid init ia a fuel : init <> pid -> A !! pid = None -> A !! init = Some ia ->
  (forall q b, A !! q = Some b -> b <> a) ->
  forall zs G m L y u t has, tasks_rep ∅ G A m L -> init_task m = ia -> L !! init = Some y -> task_ok ∅ G m init ia y u ->
  tasks m !! a = Some t -> floats G m pid (child_exit_status_list t) zs -> (length zs < fuel)%nat ->
  exists G' m' u', move_children fuel a has (locked_at ia u m) = Ok (has || negb (bool_decide (zs = [])), locked_at ia u' m') /\
    let y' := LifeSpec.mk_task (LifeSpec.alive y) (LifeSpec.zombies y ++ zs) (LifeSpec.waiters y) in
    tasks_rep ∅ G' A m' (<[init := y']> L) /\ task_ok ∅ G' m' init ia y' u' /\
    tasks m' !! a = Some (set_children [] t) /\ net m' = net m /\ same_table 0 m m'.
Proof.
  intros Hne Hpid HA Ha. induction fuel as [|fuel IH]; intros zs G m L y u t has Hr Hit HL Hu Ht Hfl Hf; [lia|].
  assert (Hia : a <> ia) by (intros ->; by apply (Ha init ia)).
  cbn [move_children]. destruct zs as [|z zs].
  - destruct Hfl as [_ Hnil%Forall2_nil_inv_r]. exists G, m, u. cbv zeta. rewrite app_nil_r.
    replace (LifeSpec.mk_task (LifeSpec.alive y) (LifeSpec.zombies y) (LifeSpec.waiters y)) with y by by destruct y.
    split; [|split; [by rewrite insert_id|split; [done|split; [|done]]]].
    + erewrite bind_ok.
      2:{ unfold dequeue_child. erewrite bind_ok by (apply rd_task_run; simpl; by rewrite lookup_insert_ne). by rewrite Hnil. }
      cbn [Z.eqb]. rewrite bool_decide_true by done. by destruct has.
    + rewrite Ht. destruct t. simpl in *. by rewrite Hnil.
  - destruct (child_exit_status_list t) as [|n ns] eqn:Hc; [by destruct Hfl as [_ ?%Forall2_nil_inv_l]|].
    assert (Hn0 : n <> 0) by (destruct Hfl as [_ [(? & _) _]%Forall2_cons_1]; done).
    set (tk := <[ia := inherited n u]> (<[a := set_children ns t]> (tasks m))).
    destruct (inherit_one_rep G A m L pid init ia y u n ns z zs tk Hr HA HL Hu Hne Hpid Hfl) as (Hr1 & Hu1 & Hfl1).
    { intros q b Hq Hb. unfold tk. rewrite lookup_insert_ne by done. rewrite lookup_insert_ne; [done|]. intros <-. by apply (Ha q a). }
    { unfold tk. by rewrite lookup_insert_eq. }
    destruct (IH zs _ _ _ _ _ (set_children ns t) true Hr1 Hit (lookup_insert_eq _ _ _) Hu1) as (G' & m' & u' & Rn & H1 & H2 & H3 & H4 & H5).
    + simpl. unfold tk. by rewrite lookup_insert_ne, lookup_insert_eq by done.
    + exact Hfl1.
    + simpl in Hf. lia.
    + exists G', m', u'. cbv zeta in H1, H2 |- *. simpl in H1, H2. rewrite <- app_assoc in H1, H2. rewrite insert_insert_eq in H1.
      assert (Hd : same_table 0 m (with_tasks tk m)).
      { split; try done. simpl. unfold tk. rewrite (dom_update _ _ u), (dom_update _ _ t); [done|exact Ht|].
        rewrite lookup_insert_ne by done. apply Hu. }
      split; [|split; [exact H1|split; [exact H2|split; [done|split; [done|exact (same_table_trans 0 0 _ _ _ Hd H5)]]]]].
      erewrite bind_ok by (eapply dequeue_child_run; [simpl; rewrite lookup_insert_ne by done; exact Ht|exact Hc]).
      rewrite (proj2 (Z.eqb_neq n 0) Hn0). erewrite bind_ok by reflexivity. simpl init_task. rewrite Hit.
      erewrite bind_ok by (apply upd_task_run; simpl; rewrite lookup_insert_ne by done; apply lookup_insert_eq).
      erewrite bind_ok by (apply upd_task_run; simpl; apply lookup_insert_eq).
      rewrite bool_decide_false by done. rewrite orb_true_r. cbn [orb] in Rn.
      etrans; [|exact Rn]. f_equal. unfold locked_at, with_tasks, tk. simpl. f_equal.
      rewrite !insert_insert_eq, (insert_insert_ne _ a ia) by done. by rewrite !insert_insert_eq.
Qed.

(** ** vanish *)

Lemma heir_address G A m init L c ppid : life_rep G A m init L c ->
  A !! LifeSpec.heir init ppid L = Some
    (if (match HTSpec.get (ht_pid_pcb m) ppid with Some v => v | None => 0 end =? 0) then init_task m
     else match HTSpec.get (ht_pid_pcb m) ppid with Some v => v | None => 0 end).
Proof.
  intros [HT [_ HH] HI _]. unfold LifeSpec.heir, HTSpec.get. rewrite HH. pose proof (tr_task _ _ _ _ _ HT ppid) as T.
  destruct (A !! ppid) as [a|] eqn:E, (L !! ppid) as [x|]; try done.
  destruct T as [t Ht]. simpl. by rewrite (proj2 (Z.eqb_neq a 0) (tk_nonnull _ _ _ _ _ _ _ Ht)).
Qed.

Lemma vanish_report_rep G A m init L c mm a :
  let pid := Data.vanish_pid mm in let q := LifeSpec.heir init (Data.vanish_ppid mm) L in
  let L1 := LifeSpec.report q (pid, Data.vanish_status mm) L in
  life_rep G A m init L c -> A !! pid = Some a -> pid <> q ->
  exists G' m', vanish_report me a mm m = Ok (tt, m') /\ same_table (length (LifeSpec.deliver q L1).1) m m' /\
    tasks_rep {[pid]} G' A m' (LifeSpec.deliver q L1).2 /\
    net_ok (net m') (Message.num_worker_cores (net m)) (deliver_msgs (LifeSpec.deliver q L1).1 (c, Message.msgs (net m))).
Proof.
  intros pid q L1 Hr HA Hne. pose proof (heir_address G A m init L c (Data.vanish_ppid mm) Hr) as Hb. fold q in Hb.
  destruct Hr as [HT HH HI HN]. set (b := if _ =? 0 then _ else _) in Hb.
  destruct (rep_lookup _ _ _ _ _ _ _ HT HA) as (x & t & HL & Ht).
  destruct (rep_lookup _ _ _ _ _ _ _ HT Hb) as (y & u & HLq & Hu).
  destruct (report_rep G A m L pid a x t q b y u (Data.vanish_status mm) HT Hne HA HL Ht Hb HLq Hu) as (Hr1 & Ht1 & Hu1).
  cbv zeta in Hr1, Ht1, Hu1. set (m1 := with_tasks _ _) in *. set (G1 := <[_ := q]> G) in *.
  destruct (tk_own _ _ _ _ _ _ _ Ht ltac:(set_solver)) as (_ & _ & _ & _ & v & NS).
  assert (Hab : a <> b) by (intros ->; apply Hne; by apply (tr_inj _ _ _ _ _ HT pid q b)).
  edestruct (wake_waiter_rep {[pid]} G1 A m1 L1 q b) as (m' & Rn & [Hs _] & Hr' & HN'); [exact Hr1|exact Hb| |exact Hu1|exact HN| |].
  { unfold L1, LifeSpec.report. by rewrite lookup_alter_eq, HLq. }
  { simpl. by destruct (LifeSpec.zombies y). }
  assert (Hd : same_table 0 m m1).
  { split; try done; simpl; [by rewrite (dom_update _ _ u) by apply Hu|].
    by rewrite map_size_insert, NS. }
  exists G1, m'. split; [|split; [exact (same_table_trans 0 _ _ _ _ Hd Hs)|done]]. unfold vanish_report.
  rewrite (bind_ok _ _ _ _ _ (lock_ht_run m (proj1 HH))). erewrite bind_ok by reflexivity. erewrite bind_ok by reflexivity.
  cbv zeta. simpl init_task. simpl ht_pid_pcb. fold b.
  erewrite bind_ok by (apply lock_task_run; [exact (tk_at _ _ _ _ _ _ _ Hu)|apply Hu]).
  erewrite bind_ok by (by apply unlock_ht_run).
  erewrite bind_ok by (apply rd_task_run; simpl; rewrite lookup_insert_ne by done; apply Ht).
  erewrite bind_ok by (unfold rd_status; simpl; by rewrite NS).
  erewrite bind_ok by (unfold wr_status; simpl; by rewrite NS).
  erewrite bind_ok by (apply upd_task_run; simpl; apply lookup_insert_eq).
  erewrite bind_ok by (apply upd_task_run; simpl; apply lookup_insert_eq).
  erewrite bind_ok by (apply upd_task_run; simpl; apply lookup_insert_eq).
  etrans; [|exact Rn]. f_equal. unfold locked_at, m1, with_tasks, reported. simpl. rewrite !insert_insert_eq.
  destruct m; simpl in *. destruct HH as [Hl _]. simpl in Hl. by rewrite <- Hl.
Qed.

Lemma vanish_unlink_run A m pid a t : ht_rep A m -> A !! pid = Some a -> tasks m !! a = Some t -> lock t = free_lock ->
  vanish_unlink me a pid m = Ok (tt, with_ht (HTSpec.remove (ht_pid_pcb m) pid) m) /\
  ht_rep (delete pid A) (with_ht (HTSpec.remove (ht_pid_pcb m) pid) m).
Proof.
  intros [Hl HH] HA Ht Hlk. split.
  - unfold vanish_unlink. rewrite (bind_ok _ _ _ _ _ (lock_ht_run m Hl)).
    erewrite bind_ok by (apply lock_task_run; [exact Ht|exact Hlk]).
    erewrite (bind_ok (hashtable_remove pid) _ _ 1) by (unfold hashtable_remove, HTSpec.get; simpl; by rewrite HH, HA). cbn [Z.eqb].
    erewrite bind_ok by (apply unlock_task_run; [simpl; apply lookup_insert_eq|done]).
    erewrite unlock_ht_run by done. pose proof (relock_task m a t Ht Hlk) as E.
    destruct m; unfold with_ht, with_tasks, with_ht_lock in *; simpl in *. injection E as E. rewrite E. by rewrite <- Hl.
  - split; [done|]. intros p. simpl. unfold HTSpec.remove. rewrite !HH. destruct (Z.eqb_spec p pid) as [->|Hp].
    + by rewrite HA, lookup_delete_eq.
    + by rewrite lookup_delete_ne.
Qed.

Lemma vanish_orphans_rep G A m init L c pid a t zs fuel :
  tasks_rep ∅ G A m L -> Message.net_rep (net m) c -> A !! init = Some (init_task m) -> init <> pid -> A !! pid = None ->
  (forall q b, A !! q = Some b -> b <> a) -> tasks m !! a = Some t -> floats G m pid (child_exit_status_list t) zs ->
  (length zs < fuel)%nat ->
  let L2 := LifeSpec.inherit init zs L in
  let dL := match zs with [] => ([], L2) | _ => LifeSpec.deliver init L2 end in
  exists G' m', vanish_orphans me fuel a m = Ok (tt, m') /\ same_table (length dL.1) m m' /\ tasks_rep ∅ G' A m' dL.2 /\
    net_ok (net m') (Message.num_worker_cores (net m)) (deliver_msgs dL.1 (c, Message.msgs (net m))) /\
    tasks m' !! a = Some (set_children [] t).
Proof.
  intros HT HN HI Hne Hpid Ha Ht Hfl Hf L2 dL. destruct (rep_lookup _ _ _ _ _ _ _ HT HI) as (y & u & HL & Hu).
  destruct (move_children_rep A pid init _ a fuel Hne Hpid HI Ha zs G m L y u t false HT eq_refl HL Hu Ht Hfl Hf)
    as (G' & m1 & u' & Rn & H1 & H2 & H3 & H4 & H5). cbv zeta in H1, H2. exists G'.
  assert (EL : L2 = <[init := LifeSpec.mk_task (LifeSpec.alive y) (LifeSpec.zombies y ++ zs) (LifeSpec.waiters y)]> L).
  { apply map_eq. intros p. unfold L2, LifeSpec.inherit. destruct (decide (p = init)) as [->|].
    - by rewrite lookup_insert_eq, lookup_alter_eq, HL.
    - by rewrite lookup_insert_ne, lookup_alter_ne. }
  rewrite <- EL in H1. unfold vanish_orphans. erewrite bind_ok by reflexivity.
  rewrite (bind_ok _ _ _ _ _ (lock_task_run m _ u (tk_at _ _ _ _ _ _ _ Hu) (tk_lock _ _ _ _ _ _ _ Hu))).
  rewrite (bind_ok _ _ _ _ _ Rn). cbn [orb]. pose proof H2 as [K1 K2 K3 _ _ _ _ _ _].
  destruct (decide (zs = [])) as [->|Hz].
  - rewrite bool_decide_true by done. cbn [negb].
    erewrite unlock_task_run by (first [apply lookup_insert_eq|done]).
    change (with_tasks ?f (locked_at ?b u' m1)) with (with_tasks f m1). unfold locked_at. simpl tasks.
    rewrite (relock_task m1 _ u' K1 K3). exists m1. simpl. rewrite H4. done.
  - rewrite bool_decide_false by done. cbn [negb].
    edestruct (wake_waiter_rep ∅ G' A m1 L2 init) as (m' & Rw & [Hs Hfr] & Hr' & HN').
    { exact H1. } { exact HI. } { rewrite EL. apply lookup_insert_eq. } { exact H2. } { rewrite H4. exact HN. } { simpl. by destruct (LifeSpec.zombies y), zs. }
    exists m'. split; [exact Rw|]. assert (EdL : dL = LifeSpec.deliver init L2) by (unfold dL; by destruct zs).
    rewrite EdL. split; [exact (same_table_trans 0 _ _ _ _ H5 Hs)|]. rewrite <- H4. split; [exact Hr'|]. split; [exact HN'|].
    rewrite Hfr; [done|]. intros ->. by apply (Ha init _ HI).
Qed.

(** The representation only reads the tasks at addresses in use, the exit
    statuses and the message layer. *)
Lemma rep_ext R G A m m' L : tasks_rep R G A m L -> nodes m' = nodes m -> statuses m' = statuses m ->
  (forall w, waiter_ok (net m) w -> waiter_ok (net m') w) ->
  (forall p a, A !! p = Some a -> tasks m' !! a = tasks m !! a) -> tasks_rep R G A m' L.
Proof.
  intros [T1 T2 T3 T4] Hn Hs Hw Ht. split; [|done|by rewrite Hn|eauto].
  intros p. specialize (T1 p). destruct (A !! p) as [a|] eqn:E, (L !! p) as [x|]; try done. destruct T1 as [t Hok]. exists t.
  eapply task_frame; [exact Hok|rewrite (Ht p a E); apply Hok|done|]. intros n HG. by rewrite Hn, Hs.
Qed.

Lemma free_task_run m a t : tasks m !! a = Some t -> lock t = free_lock ->
  free_pcb_vanish_wait_struct a m = Ok (tt, with_tasks (delete a (tasks m)) m).
Proof.
  intros Ht Hl. unfold free_pcb_vanish_wait_struct. rewrite (bind_ok _ _ _ _ _ (rd_task_run _ _ _ Ht)).
  erewrite bind_ok.
  2:{ unfold on_task_lock. rewrite (bind_ok _ _ _ _ _ (rd_task_run _ _ _ Ht)). unfold zoom, Mutex.on_mx, zoom. simpl. rewrite Hl. done. }
  unfold free_task. simpl. rewrite lookup_insert_eq, delete_insert_eq. done.
Qed.

(** The lasting effect of [answered] on a message is on its type and result. *)
Lemma deliver_msgs_keep d c ms w wm : ms !! w = Some wm ->
  exists wm', (deliver_msgs d (c, ms)).2 !! w = Some wm' /\ node_thr wm' = node_thr wm /\ req_cpu wm' = req_cpu wm.
Proof.
  revert c ms wm. induction d as [|[v z] d IH]; intros c ms wm Hw; [by exists wm|]. simpl.
  destruct (ms !! v) as [vm|] eqn:Hv; [|by apply IH]. destruct (decide (w = v)) as [->|Hne].
  - destruct (IH (ChanSpec.send_worker c (req_cpu vm) v) (<[v := answered z vm]> ms) (answered z vm)) as (wm' & H1 & H2 & H3);
      [apply lookup_insert_eq|]. exists wm'. split; [done|]. assert (vm = wm) as -> by congruence. done.
  - apply IH. by rewrite lookup_insert_ne.
Qed.

Lemma deliver_msgs_app d1 d2 cm : deliver_msgs (d1 ++ d2) cm = deliver_msgs d2 (deliver_msgs d1 cm).
Proof. apply fold_left_app. Qed.

Lemma net_ok_waiter n n' d c w : net_ok n' (Message.num_worker_cores n) (deliver_msgs d (c, Message.msgs n)) ->
  waiter_ok n w -> waiter_ok n' w.
Proof.
  intros (_ & Hms & Hk) [(H0 & mm & Hmm & Ht) Hc]. destruct (deliver_msgs_keep d c _ w mm Hmm) as (wm' & E & E1 & E2).
  rewrite <- Hms in E. split; [split; [done|]; exists wm'; split; [done|congruence]|].
  intros mm' Hmm'. rewrite Hk. assert (mm' = wm') as -> by congruence. rewrite E2. by apply Hc.
Qed.

Lemma smp_syscall_vanish_ok G A m init L c msg mm x fuel :
  let pid := Data.vanish_pid mm in let ppid := Data.vanish_ppid mm in
  life_rep G A m init L c -> Message.msgs (net m) !! msg = Some mm -> waiter_ok (net m) msg ->
  L !! pid = Some x -> pid <> init -> pid <> ppid -> (length (LifeSpec.zombies x) < fuel)%nat ->
  let dL := LifeSpec.vanish init pid ppid (Data.vanish_status mm) L in
  let cm := deliver_msgs dL.1 (c, Message.msgs (net m)) in
  exists G' m', smp_syscall_vanish me fuel msg m = Ok (tt, m') /\
    life_rep G' (delete pid A) m' init dL.2 (ChanSpec.send_worker cm.1 (req_cpu mm) msg) /\
    Message.msgs (net m') = alter (set_type RESPONSE) msg cm.2 /\
    (exists a, A !! pid = Some a /\ dom (tasks m') = dom (tasks m) ∖ {[a]}) /\
    size (nodes m) = (length dL.1 + size (nodes m'))%nat /\ size (statuses m) = (length dL.1 + size (statuses m'))%nat.
Proof.
  intros pid ppid Hr Hm Hw HL Hni Hpp Hf dL cm. pose proof Hr as [HT HH HI HN].
  destruct (rep_find _ _ _ _ _ _ _ HT HL) as (a & t & HA & Ht).
  set (q := LifeSpec.heir init ppid L). assert (Hq : pid <> q) by (unfold q, LifeSpec.heir; by destruct (L !! ppid)).
  set (L0 := LifeSpec.report q (pid, Data.vanish_status mm) L).
  destruct (vanish_report_rep G A m init L c mm a Hr HA Hq) as (G1 & m1 & R1 & Hs1 & Hr1 & HN1).
  pose proof Hs1 as [E1 E2 E3 _ _ _].
  fold pid ppid q L0 in Hr1, HN1. set (dl1 := LifeSpec.deliver q L0) in *.
  assert (HL1 : dl1.2 !! pid = Some x).
  { assert (L0 !! pid = Some x) as E0 by (unfold L0, LifeSpec.report; by rewrite lookup_alter_ne).
    unfold dl1, LifeSpec.deliver. destruct (L0 !! q) as [[? [|? ?] [|? ?]]|]; simpl; try done. by rewrite lookup_insert_ne. }
  assert (HH1 : ht_rep A m1) by (split; [rewrite E2; apply HH|intros p; rewrite E1; apply HH]).
  destruct (rep_lookup _ _ _ _ _ _ _ Hr1 HA) as (x1 & t1 & HL1' & Ht1). assert (x1 = x) as -> by congruence.
  destruct (vanish_unlink_run A m1 pid a t1 HH1 HA (tk_at _ _ _ _ _ _ _ Ht1) (tk_lock _ _ _ _ _ _ _ Ht1)) as [R2 HH2].
  set (m2 := with_ht _ m1) in *.
  assert (Hr2 : tasks_rep ∅ G1 (delete pid A) m2 (delete pid dl1.2)) by (apply drop_rep; by eapply rep_ext).
  destruct (vanish_orphans_rep G1 (delete pid A) m2 init (delete pid dl1.2) _ pid a t1 (LifeSpec.zombies x) fuel Hr2 (proj1 HN1))
    as (G3 & m3 & R3 & Hs3 & Hr3 & HN3 & Ht3).
  { rewrite lookup_delete_ne by done. rewrite HI. f_equal. by symmetry. }
  { done. } { apply lookup_delete_eq. }
  { intros p b [Hp Hb]%lookup_delete_Some ->. apply Hp. symmetry. by apply (tr_inj _ _ _ _ _ Hr1 p pid a). }
  { exact (tk_at _ _ _ _ _ _ _ Ht1). } { split; [apply (tk_nodup _ _ _ _ _ _ _ Ht1)|apply (tk_list _ _ _ _ _ _ _ Ht1)]. } { done. }
  pose proof Hs3 as [E4 E5 E6 _ _ _]. cbv zeta in Hs3, Hr3, HN3. set (dl3 := match LifeSpec.zombies x with [] => _ | _ => _ end) in *.
  assert (EdL : dL = (dl1.1 ++ dl3.1, dl3.2)).
  { unfold dL, LifeSpec.vanish. fold q L0. fold dl1. rewrite (surjective_pairing dl1). rewrite HL1.
    fold dl3. by destruct dl3. }
  assert (HNc : net_ok (net m3) (Message.num_worker_cores (net m)) cm).
  { unfold cm. rewrite EdL. simpl. rewrite deliver_msgs_app. destruct HN1 as (_ & Em & Ek).
    change (net m2) with (net m1) in HN3. rewrite Ek, Em in HN3. by rewrite <- surjective_pairing in HN3. }
  assert (Hwk : forall w, waiter_ok (net m) w -> waiter_ok (net m3) w) by (intros w; by eapply net_ok_waiter).
  destruct (deliver_msgs_keep dL.1 c _ msg mm Hm) as (mm3 & Hm3 & Hn3 & Hc3). fold cm in Hm3.
  destruct HNc as (HN4 & Hms & Hk). rewrite <- Hms in Hm3. destruct (Hwk msg Hw) as [Hok Hcpu].
  set (m4 := with_tasks (delete a (tasks m3)) m3).
  destruct (reply_run m4 cm.1 msg mm3 (set_type RESPONSE) HN4 Hok Hm3 (Hcpu _ Hm3) eq_refl) as (n5 & R5 & HN5 & Hms5 & Hk5).
  assert (Hs : same_table (length dL.1) (with_ht (ht_pid_pcb m2) m) m3).
  { rewrite EdL. simpl. rewrite length_app. refine (same_table_trans _ _ _ m2 _ _ Hs3). by destruct Hs1. }
  rewrite Hc3 in *. exists G3, (with_net n5 m4). split; [|split; [|split]].
  - unfold smp_syscall_vanish. rewrite (bind_ok _ _ _ _ _ (rd_msg_run _ _ _ Hm)).
    rewrite (find_task_run _ _ m a (proj1 HH) (ht_get _ _ _ _ HH HA)).
    rewrite (proj2 (Z.eqb_neq a 0) (tk_nonnull _ _ _ _ _ _ _ Ht)).
    rewrite (bind_ok _ _ _ _ _ R1), (bind_ok _ _ _ _ _ R2), (bind_ok _ _ _ _ _ R3).
    erewrite bind_ok by (eapply free_task_run; [exact Ht3|apply (tk_lock _ _ _ _ _ _ _ Ht1)]). fold m4.
    erewrite bind_ok by (apply upd_msg_run; exact Hm3).
    erewrite bind_ok by (apply rd_msg_run; simpl; apply lookup_insert_eq). simpl. rewrite Hc3. exact R5.
  - split; [| |simpl; rewrite lookup_delete_ne by done; rewrite HI; f_equal; symmetry; etrans; [exact E6|exact E3]|exact HN5].
    + rewrite EdL. eapply rep_ext; [exact Hr3|done|done| |].
      * intros w Hx. by apply (waiter_keep (net m3) n5 msg mm3 (set_type RESPONSE) w Hm3 Hms5 Hk5 eq_refl eq_refl).
      * intros p b [Hp Hb]%lookup_delete_Some. simpl. apply lookup_delete_ne. intros <-. apply Hp. symmetry.
        by apply (tr_inj _ _ _ _ _ Hr1 p pid a).
    + destruct HH2 as [K1 K2]. split; [simpl; by rewrite E5|]. intros p. simpl. by rewrite E4.
  - simpl. rewrite Hms5. change (net m4) with (net m3). rewrite Hms. apply map_eq. intros p. destruct (decide (p = msg)) as [->|Hp].
    + rewrite lookup_insert_eq, lookup_alter_eq, <- Hms, Hm3. done.
    + by rewrite lookup_insert_ne, lookup_alter_ne.
  - destruct Hs as [_ _ _ S1 S2 S3]. split; [|done]. exists a. simpl. rewrite dom_delete_L, S1. done.
Qed.

(** ** Creating the structure of a task *)

(** What [malloc] returns is in use nowhere. *)
Definition fresh (A : gmap Z Z) (m : manager) (p : Z) : Prop :=
  p <> 0 /\ tasks m !! p = None /\ statuses m !! p = None /\ nodes m !! p = None /\
  (forall n, nodes m !! n <> Some p) /\ (forall q, A !! q <> Some p).

Lemma malloc_run m p l : Message.answers (net m) = p :: l -> malloc m = Ok (p, with_net (Message.with_answers l (net m)) m).
Proof. intros H. unfold malloc, on_net. erewrite zoom_ok; [done|]. unfold Message.malloc. by rewrite H. Qed.

Definition new_task (es node : Z) : pcb_vanish_wait_t := mk_task [] es node 0 0 [] free_lock.

(** The state once the four allocations of a new task have succeeded. *)
Definition created (pid p es node : Z) (rest : list Z) (m : manager) : manager :=
  mk_manager (Message.with_answers rest (net m)) (<[p := new_task es node]> (tasks m)) (<[es := mk_es pid 0]> (statuses m))
    (<[node := es]> (nodes m)) (HTSpec.put (ht_pid_pcb m) pid p) (ht_pid_pcb_lock m) (init_task m) (fork_next_core m) (tstates m).

Lemma create_run m pid p h es node rest : ht_pid_pcb_lock m = free_lock ->
  Message.answers (net m) = p :: h :: es :: node :: rest -> p <> 0 -> h <> 0 -> es <> 0 -> node <> 0 ->
  create_pcb_vanish_wait_struct me pid m = Ok (0, created pid p es node rest m).
Proof.
  intros Hl Ha N1 N2 N3 N4. unfold create_pcb_vanish_wait_struct.
  rewrite (bind_ok _ _ _ _ _ (malloc_run _ _ _ Ha)), (proj2 (Z.eqb_neq p 0) N1). erewrite bind_ok by reflexivity.
  unfold ht_put_task, hashtable_put. erewrite bind_ok.
  2:{ erewrite bind_ok by (by apply lock_ht_run).
      erewrite bind_ok.
      2:{ erewrite bind_ok by (eapply malloc_run; reflexivity). rewrite (proj2 (Z.eqb_neq h 0) N2). erewrite bind_ok by reflexivity. reflexivity. }
      erewrite bind_ok by (by apply unlock_ht_run). reflexivity. }
  cbn [Z.ltb Z.compare]. erewrite bind_ok by (eapply malloc_run; reflexivity). rewrite (proj2 (Z.eqb_neq es 0) N3).
  erewrite bind_ok by reflexivity. erewrite bind_ok by (eapply malloc_run; reflexivity). rewrite (proj2 (Z.eqb_neq node 0) N4).
  erewrite bind_ok by reflexivity. erewrite bind_ok by (apply upd_task_run; simpl; apply lookup_insert_eq).
  unfold mret, M_ret, created, with_tasks. simpl. rewrite insert_insert_eq. unfold with_net, Message.with_answers. simpl.
  by rewrite <- Hl.
Qed.

Lemma created_rep G A m init L c pid p es node rest :
  life_rep G A m init L c -> L !! pid = None -> fresh A m p -> fresh A m es -> fresh A m node ->
  life_rep (<[node := pid]> G) (<[pid := p]> A) (created pid p es node rest m) init (<[pid := LifeSpec.mk_task 0 [] []]> L) c.
Proof.
  intros [HT HH HI HN] HL (P0 & P1 & _ & _ & _ & P5) (E0 & _ & E2 & _ & E4 & _) (N0 & _ & _ & N3 & _ & _).
  assert (HA : A !! pid = None).
  { pose proof (tr_task _ _ _ _ _ HT pid) as T. rewrite HL in T. by destruct (A !! pid). }
  split; [| | |by apply Message.net_rep_answers].
  - split.
    + intros q. destruct (decide (q = pid)) as [->|Hq].
      * rewrite !lookup_insert_eq. exists (new_task es node). split; simpl; try done; [apply lookup_insert_eq|constructor|].
        intros _. rewrite !lookup_insert_eq. split; [done|]. split; [done|]. split; [set_solver|]. split; [done|].
        exists 0. done.
      * rewrite !lookup_insert_ne by done. pose proof (tr_task _ _ _ _ _ HT q) as T.
        destruct (A !! q) as [b|] eqn:Eb, (L !! q) as [y|]; try done. destruct T as [t Ht]. exists t.
        eapply task_frame_live; [exact Ht|simpl; rewrite lookup_insert_ne by (intros ->; by apply (P5 q)); apply Ht|done|].
        intros n e Hg Hn [v Hv]. simpl. rewrite !lookup_insert_ne; [done|congruence..].
    + intros q q' b [[? ?]|[? Hq]]%lookup_insert_Some [[? ?]|[? Hq']]%lookup_insert_Some; subst; try done.
      * by destruct (P5 q').
      * by destruct (P5 q).
      * by apply (tr_inj _ _ _ _ _ HT q q' b).
    + simpl. intros n n' e [[? ?]|[? Hn]]%lookup_insert_Some [[? ?]|[? Hn']]%lookup_insert_Some; subst; try done.
      * by destruct (E4 n').
      * by destruct (E4 n).
      * by apply (tr_nodes _ _ _ _ _ HT n n' e).
    + simpl. intros q x w [[? <-]|[? Hq]]%lookup_insert_Some Hin; [simpl in Hin; set_solver|].
      exact (tr_waiters _ _ _ _ _ HT q x w Hq Hin).
  - destruct HH as [Hl HH]. split; [done|]. intros q. simpl. unfold HTSpec.put. destruct (Z.eqb_spec q pid) as [->|Hq].
    + by rewrite HH, HA, lookup_insert_eq.
    + by rewrite HH, lookup_insert_ne.
  - simpl. rewrite lookup_insert_ne; [done|]. intros ->. congruence.
Qed.

(** ** fork *)

Lemma send_run m c w cpu : Message.net_rep (net m) c -> Message.msg_ok (net m) w -> 1 <= cpu <= Message.num_worker_cores (net m) ->
  exists n', manager_send_msg w cpu m = Ok (tt, with_net n' m) /\ Message.net_rep n' (ChanSpec.send_worker c cpu w) /\
    Message.msgs n' = Message.msgs (net m) /\ Message.num_worker_cores n' = Message.num_worker_cores (net m).
Proof.
  intros Hr Hw Hc. destruct (Message.manager_send_ok (net m) c w cpu Hr Hw Hc) as (p & R & Hr').
  eexists. split; [|split; [exact Hr'|done]]. unfold manager_send_msg, on_net. by erewrite zoom_ok by exact R.
Qed.

(** Replacing the message layer by one with the same messages. *)
Lemma life_rep_net G A m init L c n' c' : life_rep G A m init L c -> Message.net_rep n' c' ->
  (forall w, waiter_ok (net m) w -> waiter_ok n' w) -> life_rep G A (with_net n' m) init L c'.
Proof. intros [HT HH HI HN] HN' Hw. split; [|exact HH|exact HI|exact HN']. by eapply rep_ext. Qed.

Lemma waiter_same n n' w : Message.msgs n' = Message.msgs n -> Message.num_worker_cores n' = Message.num_worker_cores n ->
  waiter_ok n w -> waiter_ok n' w.
Proof. intros E1 E2. unfold waiter_ok, Message.msg_ok. by rewrite E1, E2. Qed.

(** When memory lasts, [smp_syscall_fork] records the new task, without children,
    and passes the request on to the next worker core in turn. *)
Theorem smp_syscall_fork_refines G A m init L c msg mm p h es node rest :
  let pid := Data.fork_new_tid mm in let w := Message.num_worker_cores (net m) in
  life_rep G A m init L c -> Message.msgs (net m) !! msg = Some mm -> Message.msg_ok (net m) msg ->
  L !! pid = None -> 0 <= fork_next_core m < w ->
  Message.answers (net m) = p :: h :: es :: node :: rest ->
  fresh A m p -> h <> 0 -> fresh A m es -> fresh A m node ->
  exists G' m', smp_syscall_fork me msg m = Ok (tt, m') /\
    life_rep G' (<[pid := p]> A) m' init (<[pid := LifeSpec.mk_task 0 [] []]> L) (ChanSpec.send_worker c (fork_next_core m + 1) msg) /\
    fork_next_core m' = (fork_next_core m + 1) mod w /\ Message.msgs (net m') = Message.msgs (net m).
Proof.
  intros pid w Hr Hm Hok HL Hfc Ha Hp Hh He Hn. pose proof (created_rep G A m init L c pid p es node rest Hr HL Hp He Hn) as Hr1.
  set (m1 := created pid p es node rest m) in *.
  assert (Hok1 : Message.msg_ok (net m1) msg) by exact Hok.
  destruct (send_run m1 c msg (fork_next_core m + 1) (lr_net _ _ _ _ _ _ Hr1) Hok1) as (n' & R & Hr' & Hms & Hk).
  { change (Message.num_worker_cores (net m1)) with w. lia. }
  exists (<[node := pid]> G). eexists. split; [|split; [|split]].
  - unfold smp_syscall_fork. rewrite (bind_ok _ _ _ _ _ (rd_msg_run _ _ _ Hm)).
    erewrite bind_ok by (eapply create_run; [apply Hr|exact Ha|apply Hp|exact Hh|apply He|apply Hn]).
    cbn [Z.ltb Z.compare]. rewrite (bind_ok (mret tt) _ _ tt _ eq_refl). fold pid m1.
    rewrite (bind_ok get _ m1 m1 m1 eq_refl). change (fork_next_core m1) with (fork_next_core m). rewrite (bind_ok _ _ _ _ _ R). reflexivity.
  - pose proof (life_rep_net _ _ _ _ _ _ n' _ Hr1 Hr' (fun v => waiter_same _ _ v Hms Hk)) as [HT HH HI HN].
    split; [by eapply rep_ext|done|done|done].
  - simpl. rewrite Hk. change (Message.num_worker_cores (net m1)) with w. apply Z.rem_mod_nonneg; lia.
  - simpl. exact Hms.
Qed.

(** When the new core reports success, the parent has one more living child and
    both threads, the one that called fork and the new one, are sent the answer. *)
Theorem smp_fork_response_success G A m init L c msg mm ori om x :
  let ppid := Data.fork_ppid om in
  life_rep G A m init L c -> Message.msgs (net m) !! msg = Some mm -> Message.msgs (net m) !! ori = Some om ->
  waiter_ok (net m) msg -> waiter_ok (net m) ori -> msg <> ori ->
  Data.fr_req_msg mm = ori -> Data.fr_result mm = 0 -> L !! ppid = Some x ->
  exists m', smp_fork_response me msg m = Ok (tt, m') /\
    life_rep G A m' init (<[ppid := LifeSpec.mk_task (LifeSpec.alive x + 1) (LifeSpec.zombies x) (LifeSpec.waiters x)]> L)
      (ChanSpec.send_worker (ChanSpec.send_worker c (req_cpu om) ori) (req_cpu mm) msg) /\
    Message.msgs (net m') = <[ori := set_w1 0 (set_type FORK_RESPONSE om)]> (Message.msgs (net m)).
Proof.
  intros ppid Hr Hm Ho Hwm [Hoo Hoc] Hne Hreq Hres HL. pose proof Hr as [HT HH HI HN].
  destruct (rep_find _ _ _ _ _ _ _ HT HL) as (a & t & HA & Ht). pose proof Ht as [H1 H2 H3 H4 H5 H6 H7 H8 H9].
  set (f := fun o => set_w1 0 (set_type FORK_RESPONSE o)).
  set (m1 := with_tasks (<[a := set_alive (num_alive t + 1) t]> (tasks m)) m).
  destruct (reply_run m1 c ori om f HN Hoo Ho (Hoc _ Ho) eq_refl) as (n1 & R1 & Hr1 & Hms1 & Hk1).
  assert (Hkeep : forall v, waiter_ok (net m) v -> waiter_ok n1 v) by (intros v; by apply (waiter_keep _ _ ori om f)).
  assert (Hm1 : Message.msgs n1 !! msg = Some mm) by (rewrite Hms1; by rewrite lookup_insert_ne).
  destruct (Hkeep msg Hwm) as [Hok1 Hc1].
  destruct (send_run (with_net n1 m1) _ msg (req_cpu mm) Hr1 Hok1 (Hc1 _ Hm1)) as (n2 & R2 & Hr2 & Hms2 & Hk2).
  exists (with_net n2 m1). split; [|split].
  - unfold smp_fork_response. rewrite (bind_ok _ _ _ _ _ (rd_msg_run _ _ _ Hm)). cbv zeta. rewrite Hreq, Hres. cbn [Z.eqb].
    rewrite (bind_ok _ _ _ _ _ (rd_msg_run _ _ _ Ho)).
    rewrite (find_task_run _ _ m a (proj1 HH) (ht_get _ _ _ _ HH HA)).
    rewrite (bind_ok _ _ _ _ _ (lock_task_run m a t H1 H3)).
    erewrite bind_ok by (apply upd_task_run; apply lookup_insert_eq).
    erewrite bind_ok by (eapply unlock_task_run; [apply lookup_insert_eq|done]).
    erewrite bind_ok by (apply upd_msg_run; exact Ho).
    erewrite bind_ok by (apply rd_msg_run; simpl; rewrite lookup_insert_ne by done; exact Hm). rewrite Hres.
    erewrite bind_ok by (apply upd_msg_run; simpl; apply lookup_insert_eq).
    erewrite bind_ok by (apply rd_msg_run; simpl; apply lookup_insert_eq).
    rewrite (bind_ok _ _ _ tt (with_net n1 m1)).
    2:{ etrans; [|exact R1]. f_equal. unfold m1, with_tasks, with_net, Message.with_msgs. simpl. rewrite !insert_insert_eq.
        f_equal. f_equal. unfold set_lock, set_alive. simpl. by rewrite <- H3. }
    rewrite (bind_ok _ _ _ _ _ (rd_msg_run (with_net n1 m1) _ _ Hm1)). exact R2.
  - split; [|exact HH|exact HI|exact Hr2]. eapply rep_insert; [exact HT|exact HA| | |exact (tr_nodes _ _ _ _ _ HT)| |].
    + exists (set_alive (num_alive t + 1) t). split; simpl; try done; [apply lookup_insert_eq|lia].
    + intros q b y u Hq Hb HAq HLq Hu. eapply task_frame; [exact Hu|simpl; rewrite lookup_insert_ne by done; apply Hu|done|done].
    + intros v Hv. simpl. apply (waiter_same n1); [done..|]. by apply Hkeep.
    + intros v Hv. simpl. apply (waiter_same n1); [done..|]. apply Hkeep. by apply (tr_waiters _ _ _ _ _ HT ppid x).
  - simpl. rewrite Hms2. exact Hms1.
Qed.

(** ** What the handlers guarantee *)

(** (C2) [wait] answers at once when a child has exited (with the oldest exit status)
    or when no living child is left that other waiters do not already claim;
    otherwise the request is queued and nothing is sent. *)
Theorem smp_syscall_wait_refines G A m init L c msg mm x :
  life_rep G A m init L c -> Message.msgs (net m) !! msg = Some mm -> waiter_ok (net m) msg ->
  L !! Data.wait_pid mm = Some x ->
  let '(ans, x') := LifeSpec.wait (Data.wait_pid mm) msg x in
  exists m', smp_syscall_wait me msg m = Ok (tt, m') /\
    match ans with
    | LifeSpec.Sleep => life_rep G A m' init (<[Data.wait_pid mm := x']> L) c /\
        Message.msgs (net m') = Message.msgs (net m)
    | LifeSpec.NoChild => life_rep G A m' init L (ChanSpec.send_worker c (req_cpu mm) msg) /\
        Message.msgs (net m') = <[msg := refused mm]> (Message.msgs (net m))
    | LifeSpec.Reap z => life_rep G A m' init (<[Data.wait_pid mm := x']> L) (ChanSpec.send_worker c (req_cpu mm) msg) /\
        Message.msgs (net m') = <[msg := answered z mm]> (Message.msgs (net m))
    end.
Proof. exact (smp_syscall_wait_ok G A m init L c msg mm x). Qed.

(** (C1) [vanish] of a task other than init gives the exit status to the living parent,
    or to init, and there to the longest waiting thread; it gives the exit statuses the
    task has not collected to init, removes the task, frees its structure, and that
    one only, and answers the request, leaving every other task as it was.  Of the
    nodes and exit statuses in memory, as many are freed as statuses were answered. *)
Theorem smp_syscall_vanish_refines G A m init L c msg mm x fuel :
  let pid := Data.vanish_pid mm in let ppid := Data.vanish_ppid mm in
  life_rep G A m init L c -> Message.msgs (net m) !! msg = Some mm -> waiter_ok (net m) msg ->
  L !! pid = Some x -> pid <> init -> pid <> ppid -> (length (LifeSpec.zombies x) < fuel)%nat ->
  let dL := LifeSpec.vanish init pid ppid (Data.vanish_status mm) L in
  let cm := deliver_msgs dL.1 (c, Message.msgs (net m)) in
  exists G' m', smp_syscall_vanish me fuel msg m = Ok (tt, m') /\
    life_rep G' (delete pid A) m' init dL.2 (ChanSpec.send_worker cm.1 (req_cpu mm) msg) /\
    Message.msgs (net m') = alter (set_type RESPONSE) msg cm.2 /\
    (exists a, A !! pid = Some a /\ dom (tasks m') = dom (tasks m) ∖ {[a]}) /\
    size (nodes m) = (length dL.1 + size (nodes m'))%nat /\ size (statuses m) = (length dL.1 + size (statuses m'))%nat.
Proof. exact (smp_syscall_vanish_ok G A m init L c msg mm x fuel). Qed.

Section gather.
Context {B : Type} (f : LifeSpec.task -> list B).

Lemma gather_insert L p x : L !! p = None -> gather f (<[p := x]> L) ≡ₚ f x ++ gather f L.
Proof. intros H. unfold gather. by rewrite map_to_list_insert. Qed.

Lemma gather_delete L p x : L !! p = Some x -> gather f L ≡ₚ f x ++ gather f (delete p L).
Proof. intros H. rewrite <- (insert_delete_id L p x H) at 1. apply gather_insert, lookup_delete_eq. Qed.

Lemma gather_update L p x y : L !! p = Some y -> gather f (<[p := x]> L) ≡ₚ f x ++ gather f (delete p L).
Proof. intros H. rewrite <- insert_delete_eq. apply gather_insert, lookup_delete_eq. Qed.

Lemma gather_alter L q bs g : is_Some (L !! q) -> (forall x, f (g x) = f x ++ bs) -> gather f (alter g q L) ≡ₚ bs ++ gather f L.
Proof.
  intros [x Hx] Hf. replace (alter g q L) with (<[q := g x]> L).
  - rewrite (gather_update L q _ x Hx), (gather_delete L q x Hx), Hf, <- app_assoc, (Permutation_app_comm (f x)).
    rewrite <- app_assoc. apply Permutation_app_head, Permutation_app_comm.
  - apply map_eq. intros p. destruct (decide (p = q)) as [->|].
    + by rewrite lookup_insert_eq, lookup_alter_eq, Hx.
    + by rewrite lookup_insert_ne, lookup_alter_ne.
Qed.
End gather.

Lemma deliver_gather p L : let dL := LifeSpec.deliver p L in
  pending L ≡ₚ dL.1.*2 ++ pending dL.2 /\ waiting L ≡ₚ dL.1.*1 ++ waiting dL.2.
Proof.
  unfold LifeSpec.deliver. destruct (L !! p) as [[al [|z zs] [|w ws]]|] eqn:E; try done. simpl.
  rewrite !(gather_delete _ L p _ E), !(gather_update _ L p _ _ E). done.
Qed.

Lemma deliver_dom p L q : is_Some (L !! q) -> is_Some ((LifeSpec.deliver p L).2 !! q).
Proof.
  unfold LifeSpec.deliver. destruct (L !! p) as [[al [|z zs] [|w ws]]|]; try done. simpl. intros H.
  destruct (decide (q = p)) as [->|]; [rewrite lookup_insert_eq|rewrite lookup_insert_ne by done]; eauto.
Qed.

Lemma deliver_other p L q : q <> p -> (LifeSpec.deliver p L).2 !! q = L !! q.
Proof. intros H. unfold LifeSpec.deliver. destruct (L !! p) as [[al [|z zs] [|w ws]]|]; try done. simpl. by rewrite lookup_insert_ne. Qed.

(** The statuses answered and those left are the old ones and the new one; the
    threads answered and those left are the old ones, but for the vanished task's. *)
Lemma vanish_gather init pid ppid st L x : is_Some (L !! init) -> L !! pid = Some x -> pid <> init -> pid <> ppid ->
  let dL := LifeSpec.vanish init pid ppid st L in
  (pid, st) :: pending L ≡ₚ dL.1.*2 ++ pending dL.2 /\ waiting L ≡ₚ LifeSpec.waiters x ++ dL.1.*1 ++ waiting dL.2.
Proof.
  intros Hi Hp Hne Hpp. unfold LifeSpec.vanish. set (q := LifeSpec.heir init ppid L).
  assert (Hq : is_Some (L !! q)) by (unfold q, LifeSpec.heir; destruct (L !! ppid) eqn:E; eauto).
  assert (Hpq : pid <> q) by (unfold q, LifeSpec.heir; by destruct (L !! ppid)).
  set (L0 := LifeSpec.report q (pid, st) L). assert (Hx0 : L0 !! pid = Some x) by (unfold L0, LifeSpec.report; by rewrite lookup_alter_ne).
  assert (Hi0 : is_Some (L0 !! init)).
  { unfold L0, LifeSpec.report. destruct (decide (init = q)) as [<-|]; [rewrite lookup_alter_eq|by rewrite lookup_alter_ne].
    by apply fmap_is_Some. }
  assert (E0 : pending L0 ≡ₚ (pid, st) :: pending L) by (by apply (gather_alter _ L q [(pid, st)])).
  assert (W0 : waiting L0 ≡ₚ waiting L) by (apply (gather_alter _ L q []); [done|]; intros; by rewrite app_nil_r).
  destruct (deliver_gather q L0) as [E1 W1]. pose proof (deliver_other q L0 pid Hpq) as Hx. pose proof (deliver_dom q L0 init Hi0) as Hi1.
  destruct (LifeSpec.deliver q L0) as [d1 L1]. cbn [fst snd] in *. rewrite Hx, Hx0. rewrite Hx0 in Hx.
  set (L2 := LifeSpec.inherit init (LifeSpec.zombies x) (delete pid L1)).
  assert (Hi2 : is_Some (delete pid L1 !! init)) by (by rewrite lookup_delete_ne).
  assert (E2 : pending L1 ≡ₚ pending L2).
  { rewrite (gather_delete _ L1 pid x Hx). symmetry. by apply gather_alter. }
  assert (W2 : waiting L1 ≡ₚ LifeSpec.waiters x ++ waiting L2).
  { rewrite (gather_delete _ L1 pid x Hx). apply Permutation_app_head. symmetry. apply (gather_alter _ _ init []); [done|].
    intros. by rewrite app_nil_r. }
  rewrite <- E0, E1, E2, <- W0, W1, W2. destruct (LifeSpec.zombies x) as [|z zs].
  - simpl. rewrite app_nil_r. split; [done|]. by rewrite !app_assoc, (Permutation_app_comm d1.*1).
  - destruct (deliver_gather init L2) as [E3 W3]. destruct (LifeSpec.deliver init L2) as [d2 L3]. cbn [fst snd] in *.
    rewrite E3, W3, !fmap_app, <- !app_assoc. split; [done|].
    by rewrite !app_assoc, (Permutation_app_comm d1.*1 (LifeSpec.waiters x)).
Qed.

Lemma elem_of_waiting w L : w ∈ waiting L -> exists p x, L !! p = Some x /\ w ∈ LifeSpec.waiters x.
Proof.
  unfold gather. intros (l & Hl & Hw)%list_elem_of_In%List.in_concat. apply list_elem_of_In in Hl, Hw. apply list_elem_of_fmap in Hl as ([p x] & -> & Hx).
  exists p, x. by rewrite elem_of_map_to_list in Hx.
Qed.

Lemma deliver_msgs_frame d c ms w : w ∉ d.*1 -> (deliver_msgs d (c, ms)).2 !! w = ms !! w.
Proof.
  revert c ms. induction d as [|[v y] d IH]; intros c ms Hw; [done|]. simpl in *. apply not_elem_of_cons in Hw as [Hv Hw].
  destruct (ms !! v); [|by apply IH]. rewrite IH by done. by rewrite lookup_insert_ne.
Qed.

(** Answers to different messages stay. *)
Lemma deliver_msgs_answered d c ms : NoDup d.*1 -> (forall w, w ∈ d.*1 -> is_Some (ms !! w)) ->
  forall w z, (w, z) ∈ d -> exists wm, ms !! w = Some wm /\ (deliver_msgs d (c, ms)).2 !! w = Some (answered z wm).
Proof.
  revert c ms. induction d as [|[v y] d IH]; intros c ms Hn Hs w z Hin; [by apply not_elem_of_nil in Hin|].
  simpl in Hn. apply list.NoDup_cons in Hn as [Hv Hn]. destruct (Hs v ltac:(simpl; set_solver)) as [vm Hvm]. simpl. rewrite Hvm.
  apply elem_of_cons in Hin as [[= -> ->]|Hin].
  - exists vm. split; [done|]. change (fold_left _ d ?cm) with (deliver_msgs d cm). rewrite deliver_msgs_frame by done. apply lookup_insert_eq.
  - assert (Hw : w ∈ d.*1) by (apply list_elem_of_fmap; by exists (w, z)). assert (w <> v) by (intros ->; done).
    destruct (IH (ChanSpec.send_worker c (req_cpu vm) v) (<[v := answered y vm]> ms) Hn) with (w := w) (z := z) as (wm & H1 & H2); [|done|].
    + intros u Hu. destruct (decide (u = v)) as [->|]; [rewrite lookup_insert_eq; eauto|]. rewrite lookup_insert_ne by done. apply Hs. simpl. set_solver.
    + exists wm. split; [|done]. by rewrite lookup_insert_ne in H1.
Qed.

(** (C16) No exit status is lost or duplicated, and none is given to a thread that does
    not wait.  After [vanish], the statuses answered to waiting threads and those
    still to be collected are exactly the ones that were to be collected before
    and the one of the vanished task.  An answer goes to a thread that waited, to
    each at most once, and its message holds it; all other threads that waited, but
    for those of the vanished task, wait still. *)
Theorem vanish_conserves_statuses G A m init L c msg mm x fuel :
  let pid := Data.vanish_pid mm in let ppid := Data.vanish_ppid mm in
  life_rep G A m init L c -> Message.msgs (net m) !! msg = Some mm -> waiter_ok (net m) msg ->
  L !! pid = Some x -> pid <> init -> pid <> ppid -> (length (LifeSpec.zombies x) < fuel)%nat ->
  NoDup (msg :: waiting L) ->
  exists G' m' L' (d : list (Z * (Z * Z))), smp_syscall_vanish me fuel msg m = Ok (tt, m') /\
    life_rep G' (delete pid A) m' init L' (ChanSpec.send_worker (deliver_msgs d (c, Message.msgs (net m))).1 (req_cpu mm) msg) /\
    (pid, Data.vanish_status mm) :: pending L ≡ₚ d.*2 ++ pending L' /\
    waiting L ≡ₚ LifeSpec.waiters x ++ d.*1 ++ waiting L' /\
    (forall w z, (w, z) ∈ d -> exists wm, Message.msgs (net m) !! w = Some wm /\ Message.msgs (net m') !! w = Some (answered z wm)) /\
    (forall w, w <> msg -> w ∉ d.*1 -> Message.msgs (net m') !! w = Message.msgs (net m) !! w).
Proof.
  intros pid ppid Hr Hm Hw HL Hni Hpp Hf [Hmsg Hnd]%list.NoDup_cons.
  destruct (smp_syscall_vanish_ok G A m init L c msg mm x fuel Hr Hm Hw HL Hni Hpp Hf) as (G' & m' & R & Hr' & Hms & _).
  pose proof (rep_lookup _ _ _ _ _ _ _ (lr_tasks _ _ _ _ _ _ Hr) (lr_init _ _ _ _ _ _ Hr)) as (y & _ & Hy & _).
  destruct (vanish_gather init pid ppid (Data.vanish_status mm) L x ltac:(eauto) HL Hni Hpp) as [HP HW].
  eexists G', m', _, _. split; [exact R|]. split; [exact Hr'|]. split; [exact HP|]. split; [exact HW|].
  set (d := (LifeSpec.vanish _ _ _ _ _).1) in *. cbv zeta in HW. rewrite HW in Hnd, Hmsg.
  apply list.NoDup_app in Hnd as (_ & _ & [Hnd _]%list.NoDup_app).
  assert (Hmd : msg ∉ d.*1) by set_solver. rewrite Hms. split.
  - intros w z Hin. destruct (deliver_msgs_answered d c (Message.msgs (net m)) Hnd) with (w := w) (z := z) as (wm & H1 & H2); [|done|].
    + intros v Hv. assert (Hv' : v ∈ waiting L) by (rewrite HW; set_solver).
      apply elem_of_waiting in Hv' as (p & px & Hp & Hpv). destruct (tr_waiters _ _ _ _ _ (lr_tasks _ _ _ _ _ _ Hr) p px v Hp Hpv) as [(_ & vm & Hvm & _) _]. eauto.
    + exists wm. split; [done|]. rewrite lookup_alter_ne; [done|]. intros <-. apply Hmd, list_elem_of_fmap. by exists (msg, z).
  - intros w Hwm Hwd. rewrite lookup_alter_ne by done. by apply deliver_msgs_frame.
Qed.

(** No thread sleeps while its task has an exit status to collect. *)
Definition prompt (L : LifeSpec.life) : Prop :=
  forall p x, L !! p = Some x -> LifeSpec.waiters x = [] \/ LifeSpec.zombies x = [].

Lemma grow_deliver_prompt L q f z zs : prompt L ->
  (forall x, LifeSpec.zombies (f x) = LifeSpec.zombies x ++ z :: zs /\ LifeSpec.waiters (f x) = LifeSpec.waiters x) ->
  (zs = [] \/ forall x, L !! q = Some x -> (length (LifeSpec.waiters x) <= 1)%nat) ->
  prompt (LifeSpec.deliver q (alter f q L)).2.
Proof.
  intros Hp Hf Hz p x. unfold LifeSpec.deliver. rewrite lookup_alter_eq. destruct (L !! q) as [y|] eqn:Ey; simpl.
  2:{ intros Hx. destruct (decide (p = q)) as [->|]; [rewrite lookup_alter_eq, Ey in Hx; done|].
      rewrite lookup_alter_ne in Hx by done. by apply (Hp p). }
  destruct (Hf y) as [Hz' Hw']. pose proof (Hp q y Ey) as Hy. destruct (f y) as [al zz ww] eqn:Ef. simpl in *. rewrite Hz', Hw'.
  destruct (LifeSpec.waiters y) as [|w ws] eqn:Ew.
  - assert (Hno : (match LifeSpec.zombies y ++ z :: zs with | z0 :: zs0 => ([] : list (Z * (Z * Z)), alter f q L) | [] => ([], alter f q L) end).2
      = alter f q L) by (by destruct (LifeSpec.zombies y)).
    intros Hx. assert (Hx' : alter f q L !! p = Some x) by (by destruct (LifeSpec.zombies y ++ z :: zs)).
    destruct (decide (p = q)) as [->|]; [|rewrite lookup_alter_ne in Hx' by done; by apply (Hp p)].
    rewrite lookup_alter_eq, Ey in Hx'. injection Hx' as <-. left. by rewrite (proj2 (Hf y)).
  - destruct Hy as [|Hy]; [done|]. rewrite Hy. simpl. intros [[<- <-]|[Hne Hx]]%lookup_insert_Some.
    + simpl. destruct Hz as [->|Hlen]; [by right|]. left. specialize (Hlen y eq_refl). rewrite Ew in Hlen. simpl in Hlen. destruct ws; [done|simpl in Hlen; lia].
    + rewrite lookup_alter_ne in Hx by done. by apply (Hp p).
Qed.

Lemma vanish_prompt init pid ppid st L : prompt L -> (forall x, L !! init = Some x -> (length (LifeSpec.waiters x) <= 1)%nat) ->
  prompt (LifeSpec.vanish init pid ppid st L).2.
Proof.
  intros Hp Hi. unfold LifeSpec.vanish. set (q := LifeSpec.heir init ppid L). unfold LifeSpec.report.
  set (f := fun x => _). pose proof (grow_deliver_prompt L q f (pid, st) [] Hp (fun x => conj eq_refl eq_refl) (or_introl eq_refl)) as H1.
  assert (Hi1 : forall x, (LifeSpec.deliver q (alter f q L)).2 !! init = Some x -> (length (LifeSpec.waiters x) <= 1)%nat).
  { intros x. unfold LifeSpec.deliver. assert (Ha : forall y, alter f q L !! init = Some y -> (length (LifeSpec.waiters y) <= 1)%nat).
    { intros y. destruct (decide (init = q)) as [Eq|]; [rewrite Eq, lookup_alter_eq, <- Eq|rewrite lookup_alter_ne by done; apply Hi].
      destruct (L !! init) as [y'|] eqn:E; [|done]. intros [= <-]. simpl. by apply Hi. }
    destruct (alter f q L !! q) as [[al [|z zs] [|w ws]]|] eqn:E; simpl; try apply Ha.
    intros [[Eq <-]|[_ Hx]]%lookup_insert_Some; [|by apply Ha]. rewrite Eq in E, Ha. specialize (Ha _ E). simpl in *. lia. }
  destruct (LifeSpec.deliver q (alter f q L)) as [d1 L1]. simpl in *.
  assert (H2 : prompt (delete pid L1)) by (intros p x [_ Hx]%lookup_delete_Some; by apply (H1 p)).
  destruct (match L1 !! pid with Some x => LifeSpec.zombies x | None => [] end) as [|z zs].
  - simpl. unfold LifeSpec.inherit. intros p x Hx. destruct (decide (p = init)) as [->|]; [|rewrite lookup_alter_ne in Hx by done; by apply (H2 p)].
    rewrite lookup_alter_eq in Hx. destruct (delete pid L1 !! init) as [y|] eqn:Ey; [|done]. injection Hx as <-. simpl. rewrite app_nil_r.
    by apply (H2 init).
  - pose proof (grow_deliver_prompt (delete pid L1) init
      (fun x => LifeSpec.mk_task (LifeSpec.alive x) (LifeSpec.zombies x ++ z :: zs) (LifeSpec.waiters x)) z zs H2 (fun x => conj eq_refl eq_refl)) as H3.
    unfold LifeSpec.inherit. destruct (LifeSpec.deliver init _) as [d2 L3]. simpl in *. apply H3. right.
    intros x [_ Hx]%lookup_delete_Some. by apply Hi1.
Qed.

(** If init has at most one waiting thread, [vanish] leaves no thread asleep in
    wait while its task has an exit status to collect. *)
Theorem vanish_wakes_waiters G A m init L c msg mm x fuel :
  let pid := Data.vanish_pid mm in let ppid := Data.vanish_ppid mm in
  life_rep G A m init L c -> Message.msgs (net m) !! msg = Some mm -> waiter_ok (net m) msg ->
  L !! pid = Some x -> pid <> init -> pid <> ppid -> (length (LifeSpec.zombies x) < fuel)%nat ->
  prompt L -> (forall y, L !! init = Some y -> (length (LifeSpec.waiters y) <= 1)%nat) ->
  exists G' m' L' c', smp_syscall_vanish me fuel msg m = Ok (tt, m') /\ life_rep G' (delete pid A) m' init L' c' /\ prompt L'.
Proof.
  intros pid ppid Hr Hm Hw HL Hni Hpp Hf Hp Hi.
  destruct (smp_syscall_vanish_ok G A m init L c msg mm x fuel Hr Hm Hw HL Hni Hpp Hf) as (G' & m' & R & Hr' & _).
  eexists G', m', _, _. split; [exact R|]. split; [exact Hr'|]. by apply vanish_prompt.
Qed.
End runs.

(** ** A small system

    Two worker cores; init is task 1, with a thread waiting (message 200), and
    task 2 is its child.  Message 100 is task 2 vanishing with status 42, message
    300 task 2 forking task 3, message 400 the answer of its new thread, message
    500 a [wait] of task 2. *)

Definition demo_msgs : gmap Z msg_t :=
  {[100 := mk_msg 100 7 1 VANISH 2 1 42 0; 200 := mk_msg 200 9 2 WAIT 1 0 0 0;
    300 := mk_msg 300 7 1 FORK 777 0 3 2; 400 := mk_msg 400 777 2 FORK_RESPONSE 300 0 0 0;
    500 := mk_msg 500 7 1 WAIT 2 0 0 0]}.
Definition demo_net : Message.net :=
  Message.with_answers [3000; 3100; 3200; 3300] (Message.with_msgs demo_msgs Message.demo_boot).
Definition demo_tasks : gmap Z pcb_vanish_wait_t :=
  {[1000 := mk_task [] 1001 1002 1 0 [200] free_lock; 2000 := mk_task [] 2001 2002 0 0 [] free_lock]}.
Definition demo : manager :=
  mk_manager demo_net demo_tasks {[1001 := mk_es 1 0; 2001 := mk_es 2 0]} {[1002 := 1001; 2002 := 2001]}
    (HTSpec.put (HTSpec.put HTSpec.empty 1 1000) 2 2000) free_lock 1000 0 (fun _ => NORMAL).
Definition demo_G : gmap Z Z := {[1002 := 1; 2002 := 2]}.
Definition demo_A : gmap Z Z := {[1 := 1000; 2 := 2000]}.
Definition demo_L : LifeSpec.life := {[1 := LifeSpec.mk_task 1 [] [200]; 2 := LifeSpec.mk_task 0 [] []]}.

Lemma demo_workers : Message.num_worker_cores demo_net = 2.
Proof. by vm_compute. Qed.

Lemma quiet_net_rep n ms : Message.net_rep n ChanSpec.empty -> Message.net_rep (Message.with_msgs ms n) ChanSpec.empty.
Proof.
  intros [H1 H2 H3 H4]. split; [done|done|done|].
  intros id m _. unfold Message.content. destruct (Z.even id); simpl; set_solver.
Qed.

Lemma demo_net_rep : Message.net_rep demo_net ChanSpec.empty.
Proof. apply Message.net_rep_answers, quiet_net_rep, Message.demo_boot_rep. Qed.

Lemma demo_net_msgs : Message.msgs demo_net = demo_msgs.
Proof. done. Qed.

Lemma demo_waiter w : w = 100 \/ w = 200 \/ w = 300 \/ w = 400 \/ w = 500 -> waiter_ok demo_net w.
Proof.
  intros H. unfold waiter_ok, Message.msg_ok. rewrite demo_net_msgs, demo_workers. split.
  - split; [lia|]. destruct H as [->|[->|[->|[->| ->]]]]; eexists; (split; [vm_compute; reflexivity|reflexivity]).
  - intros mm Hm. destruct H as [->|[->|[->|[->| ->]]]]; vm_compute in Hm; injection Hm as <-; simpl; lia.
Qed.

Lemma demo_life_rep : life_rep demo_G demo_A demo 1 demo_L ChanSpec.empty.
Proof.
  split; [|split; [done|]|done|exact demo_net_rep].
  - split.
    + intros p. destruct (decide (p = 1)) as [->|H1]; [|destruct (decide (p = 2)) as [->|H2]].
      * eexists. split; try reflexivity; try done; [apply NoDup_nil_2|].
        intros _. split; [done|]. split; [done|]. split; [by apply not_elem_of_nil|]. split; [done|]. by exists 0.
      * eexists. split; try reflexivity; try done; [apply NoDup_nil_2|].
        intros _. split; [done|]. split; [done|]. split; [by apply not_elem_of_nil|]. split; [done|]. by exists 0.
      * unfold demo_A, demo_L. rewrite !lookup_insert_ne, !lookup_singleton_ne by done. done.
    + unfold demo_A. intros p q a [[<- <-]|[_ [<- <-]%lookup_singleton_Some]]%lookup_insert_Some
        [[<- ?]|[_ [<- ?]%lookup_singleton_Some]]%lookup_insert_Some; done.
    + simpl. intros p q a [[<- <-]|[_ [<- <-]%lookup_singleton_Some]]%lookup_insert_Some
        [[<- ?]|[_ [<- ?]%lookup_singleton_Some]]%lookup_insert_Some; done.
    + intros p x w Hp Hw. apply demo_waiter. unfold demo_L in Hp.
      apply lookup_insert_Some in Hp as [[_ <-]|[_ Hp]]; [simpl in Hw; set_solver|].
      apply lookup_singleton_Some in Hp as [_ <-]. simpl in Hw. set_solver.
  - intros p. simpl. unfold HTSpec.put, demo_A. destruct (Z.eqb_spec p 2) as [->|H2]; [done|].
    destruct (Z.eqb_spec p 1) as [->|H1]; [done|]. by rewrite lookup_insert_ne, lookup_singleton_ne by done.
Qed.

Lemma smp_syscall_wait_witness :
  exists m', smp_syscall_wait 0 500 demo = Ok (tt, m') /\
    life_rep demo_G demo_A m' 1 demo_L (ChanSpec.send_worker ChanSpec.empty 1 500) /\
    Message.msgs (net m') = <[500 := mk_msg 500 7 1 WAIT_RESPONSE 2 (-10) 0 0]> demo_msgs.
Proof.
  exact (smp_syscall_wait_refines 0 ltac:(lia) _ _ demo 1 _ _ 500 (mk_msg 500 7 1 WAIT 2 0 0 0) (LifeSpec.mk_task 0 [] [])
    demo_life_rep eq_refl (demo_waiter 500 ltac:(lia)) eq_refl).
Defined.

Lemma smp_syscall_vanish_witness :
  exists G' m', smp_syscall_vanish 0 1 100 demo = Ok (tt, m') /\
    life_rep G' (delete 2 demo_A) m' 1 (delete 2 (<[1 := LifeSpec.mk_task 0 [] []]> demo_L))
      (ChanSpec.send_worker (ChanSpec.send_worker ChanSpec.empty 2 200) 1 100) /\
    dom (tasks m') = dom demo_tasks ∖ {[2000]} /\
    size (nodes demo) = S (size (nodes m')) /\ size (statuses demo) = S (size (statuses m')).
Proof.
  destruct (smp_syscall_vanish_refines 0 ltac:(lia) _ _ demo 1 _ _ 100 (mk_msg 100 7 1 VANISH 2 1 42 0) (LifeSpec.mk_task 0 [] []) 1
    demo_life_rep eq_refl (demo_waiter 100 ltac:(lia)) eq_refl ltac:(done) ltac:(done) ltac:(simpl; lia)) as (G' & m' & R & H & _ & (a & Ha & Hd) & Hn & Hs).
  exists G', m'. injection Ha as <-. exact (conj R (conj H (conj Hd (conj Hn Hs)))).
Defined.

Lemma vanish_conserves_witness :
  exists m' L' (d : list (Z * (Z * Z))), smp_syscall_vanish 0 1 100 demo = Ok (tt, m') /\ [(2, 42)] ≡ₚ d.*2 ++ pending L' /\
    [200] ≡ₚ d.*1 ++ waiting L'.
Proof.
  destruct (vanish_conserves_statuses 0 ltac:(lia) _ _ demo 1 _ _ 100 (mk_msg 100 7 1 VANISH 2 1 42 0) (LifeSpec.mk_task 0 [] []) 1
    demo_life_rep eq_refl (demo_waiter 100 ltac:(lia)) eq_refl ltac:(done) ltac:(done) ltac:(simpl; lia) ltac:(apply (bool_decide_unpack _); vm_compute; exact I))
    as (G' & m' & L' & d & R & _ & H1 & H2 & _).
  exists m', L', d. exact (conj R (conj H1 H2)).
Defined.

Lemma demo_prompt : prompt demo_L.
Proof.
  intros p x. unfold demo_L. intros [[_ <-]|[_ [_ <-]%lookup_singleton_Some]]%lookup_insert_Some; [by right|by left].
Qed.

Lemma vanish_wakes_witness :
  exists m' L', smp_syscall_vanish 0 1 100 demo = Ok (tt, m') /\ prompt L'.
Proof.
  destruct (vanish_wakes_waiters 0 ltac:(lia) _ _ demo 1 _ _ 100 (mk_msg 100 7 1 VANISH 2 1 42 0) (LifeSpec.mk_task 0 [] []) 1
    demo_life_rep eq_refl (demo_waiter 100 ltac:(lia)) eq_refl ltac:(done) ltac:(done) ltac:(simpl; lia) demo_prompt) as (G' & m' & L' & c' & R & _ & H).
  - intros y Hy. vm_compute in Hy. injection Hy as <-. simpl. lia.
  - exists m', L'. exact (conj R H).
Defined.

Lemma demo_fresh p : p = 3000 \/ p = 3200 \/ p = 3300 -> fresh demo_A demo p.
Proof.
  intros H. assert (p <> 0 /\ p <> 1000 /\ p <> 2000 /\ p <> 1001 /\ p <> 2001 /\ p <> 1002 /\ p <> 2002) as (N0 & N1 & N2 & N3 & N4 & N5 & N6) by lia.
  split; [done|]. simpl. unfold demo_tasks, demo_A. rewrite !lookup_insert_ne, !lookup_singleton_ne by done.
  split; [done|]. split; [done|]. split; [done|]. split.
  - intros n [[_ ?]|[_ [_ ?]%lookup_singleton_Some]]%lookup_insert_Some; congruence.
  - intros n [[_ ?]|[_ [_ ?]%lookup_singleton_Some]]%lookup_insert_Some; congruence.
Qed.

Lemma smp_syscall_fork_witness :
  exists G' m', smp_syscall_fork 0 300 demo = Ok (tt, m') /\
    life_rep G' (<[3 := 3000]> demo_A) m' 1 (<[3 := LifeSpec.mk_task 0 [] []]> demo_L) (ChanSpec.send_worker ChanSpec.empty 1 300).
Proof.
  destruct (smp_syscall_fork_refines 0 ltac:(lia) _ _ demo 1 _ _ 300 (mk_msg 300 7 1 FORK 777 0 3 2) 3000 3100 3200 3300 []
    demo_life_rep eq_refl (proj1 (demo_waiter 300 ltac:(lia))) eq_refl) as (G' & m' & R & H & _).
  - change (net demo) with demo_net. rewrite demo_workers. simpl. lia.
  - reflexivity.
  - apply demo_fresh. lia.
  - lia.
  - apply demo_fresh. lia.
  - apply demo_fresh. lia.
  - exists G', m'. exact (conj R H).
Defined.

Lemma smp_fork_response_witness :
  exists m', smp_fork_response 0 400 demo = Ok (tt, m') /\
    life_rep demo_G demo_A m' 1 (<[2 := LifeSpec.mk_task 1 [] []]> demo_L)
      (ChanSpec.send_worker (ChanSpec.send_worker ChanSpec.empty 1 300) 2 400).
Proof.
  destruct (smp_fork_response_success 0 ltac:(lia) _ _ demo 1 _ _ 400 (mk_msg 400 777 2 FORK_RESPONSE 300 0 0 0) 300
    (mk_msg 300 7 1 FORK 777 0 3 2) (LifeSpec.mk_task 0 [] []) demo_life_rep eq_refl eq_refl (demo_waiter 400 ltac:(lia)) (demo_waiter 300 ltac:(lia))
    ltac:(done) eq_refl eq_refl eq_refl) as (m' & R & H & _).
  exists m'. exact (conj R H).
Defined.

(** ** Runs that show where the handlers go wrong *)

Definition inbox (cpu : Z) (m : manager) : option (list Z) :=
  match Message.locked_queue ((cpu - 1) * 2 + 1) (net m) with Ok ((_, q), _) => Some q | _ => None end.

(** When [smp_syscall_fork] runs out of memory it answers the caller and then,
    for want of a return, passes the same message on to a worker core as well. *)
Theorem fork_failure_sent_twice :
  match smp_syscall_fork 0 300 (with_net (Message.with_answers [] demo_net) (with_next_core 1 demo)) with
  | Ok (_, m') => inbox 1 m' = Some [300] /\ inbox 2 m' = Some [300]
  | _ => False
  end.
Proof. vm_compute. split; reflexivity. Qed.

(** When the last core has failed to create the new task, [smp_fork_response]
    removes the task from the table before it looks the task up in it, and frees
    the NULL it finds. *)
Theorem fork_retries_exhausted_faults :
  smp_fork_response 0 400
    (with_net (Message.with_msgs (<[300 := mk_msg 300 7 1 FORK 777 2 3 2]>
      (<[400 := mk_msg 400 777 2 FORK_RESPONSE 300 (-1) 3 0]> demo_msgs)) demo_net) demo) = Fault.
Proof. vm_compute. reflexivity. Qed.

(** Orphans are counted out of init's living children without ever having been
    counted in: once one has been collected, a further [wait] of init blocks
    although nobody is left to wait for. *)
Theorem orphans_break_init_count :
  let L := {[1 := LifeSpec.mk_task 0 [] []; 2 := LifeSpec.mk_task 0 [] []]} : LifeSpec.life in
  let L' := (LifeSpec.vanish 1 2 99 42 L).2 in
  exists x, L' !! 1 = Some x /\ LifeSpec.alive x = -1 /\
    exists y, LifeSpec.wait 1 200 x = (LifeSpec.Reap (2, 42), y) /\ (LifeSpec.wait 1 200 y).1 = LifeSpec.Sleep.
Proof. eexists. split; [reflexivity|]. split; [reflexivity|]. eexists. split; reflexivity. Qed.

(** Of two threads of init that wait, only one is woken when a task leaves two
    exit statuses behind. *)
Theorem orphans_wake_one_waiter :
  let L := {[1 := LifeSpec.mk_task 5 [] [200; 201]; 2 := LifeSpec.mk_task 1 [] [];
             3 := LifeSpec.mk_task 0 [(4, 0); (5, 0)] []]} : LifeSpec.life in
  exists x, (LifeSpec.vanish 1 3 2 7 L).2 !! 1 = Some x /\ LifeSpec.zombies x <> [] /\ LifeSpec.waiters x <> [].
Proof. eexists. split; [reflexivity|]. split; discriminate. Qed.
End Lifecycle.
