(* ===== verification/Scheduler.v ===== *)
(** * The scheduler (src/kern/scheduler.c)

    [kernel] is the memory the worker cores share together with the per-core
    data of the scheduler, the context switcher and the thread management system
    calls.  A thread is queued by a node in its own kernel stack, whose field
    [thr] is the thread: the queues hold the control blocks.  [spin cpu] says
    whether the context switcher's spinlock of [cpu] is held; a core that
    tries to take a spinlock it already holds spins for ever. *)

From S2P Require Import Prelude SimpleQueue ThreadState Mutex Message ControlBlock.
From Stdlib Require Import ZArith Lia.
From stdpp Require Import base gmap list tactics numbers.

#[local] Open Scope Z_scope.

Record kernel := mk_kernel {
  mem : kmem;
  words : Z -> Z;
  queues : gmap Z (list Z);
  idle_thr : Z -> Z;
  cur_running_thr : Z -> Z;
  spin : Z -> bool;
  cr3 : Z -> Z;
  esp0 : Z -> Z;
  zombie_lists : gmap Z (list Z);
  zombie_list_locks : gmap Z Mutex.mutex_t;
  malloc_locks : gmap Z Mutex.mutex_t;
  deschedule_queues : gmap Z (list Z);
  deschedule_mutexs : gmap Z Mutex.mutex_t;
  sleep_queue : gmap Z (list (Z * Z));
  apic_num_ticks : Z -> Z }.

Definition with_mem x k := mk_kernel x (words k) (queues k) (idle_thr k) (cur_running_thr k) (spin k) (cr3 k) (esp0 k) (zombie_lists k) (zombie_list_locks k) (malloc_locks k) (deschedule_queues k) (deschedule_mutexs k) (sleep_queue k) (apic_num_ticks k).
Definition with_words x k := mk_kernel (mem k) x (queues k) (idle_thr k) (cur_running_thr k) (spin k) (cr3 k) (esp0 k) (zombie_lists k) (zombie_list_locks k) (malloc_locks k) (deschedule_queues k) (deschedule_mutexs k) (sleep_queue k) (apic_num_ticks k).
Definition with_queues x k := mk_kernel (mem k) (words k) x (idle_thr k) (cur_running_thr k) (spin k) (cr3 k) (esp0 k) (zombie_lists k) (zombie_list_locks k) (malloc_locks k) (deschedule_queues k) (deschedule_mutexs k) (sleep_queue k) (apic_num_ticks k).
Definition with_idle_thr x k := mk_kernel (mem k) (words k) (queues k) x (cur_running_thr k) (spin k) (cr3 k) (esp0 k) (zombie_lists k) (zombie_list_locks k) (malloc_locks k) (deschedule_queues k) (deschedule_mutexs k) (sleep_queue k) (apic_num_ticks k).
Definition with_cur_running_thr x k := mk_kernel (mem k) (words k) (queues k) (idle_thr k) x (spin k) (cr3 k) (esp0 k) (zombie_lists k) (zombie_list_locks k) (malloc_locks k) (deschedule_queues k) (deschedule_mutexs k) (sleep_queue k) (apic_num_ticks k).
Definition with_spin x k := mk_kernel (mem k) (words k) (queues k) (idle_thr k) (cur_running_thr k) x (cr3 k) (esp0 k) (zombie_lists k) (zombie_list_locks k) (malloc_locks k) (deschedule_queues k) (deschedule_mutexs k) (sleep_queue k) (apic_num_ticks k).
Definition with_cr3 x k := mk_kernel (mem k) (words k) (queues k) (idle_thr k) (cur_running_thr k) (spin k) x (esp0 k) (zombie_lists k) (zombie_list_locks k) (malloc_locks k) (deschedule_queues k) (deschedule_mutexs k) (sleep_queue k) (apic_num_ticks k).
Definition with_esp0 x k := mk_kernel (mem k) (words k) (queues k) (idle_thr k) (cur_running_thr k) (spin k) (cr3 k) x (zombie_lists k) (zombie_list_locks k) (malloc_locks k) (deschedule_queues k) (deschedule_mutexs k) (sleep_queue k) (apic_num_ticks k).
Definition with_zombie_lists x k := mk_kernel (mem k) (words k) (queues k) (idle_thr k) (cur_running_thr k) (spin k) (cr3 k) (esp0 k) x (zombie_list_locks k) (malloc_locks k) (deschedule_queues k) (deschedule_mutexs k) (sleep_queue k) (apic_num_ticks k).
Definition with_zombie_list_locks x k := mk_kernel (mem k) (words k) (queues k) (idle_thr k) (cur_running_thr k) (spin k) (cr3 k) (esp0 k) (zombie_lists k) x (malloc_locks k) (deschedule_queues k) (deschedule_mutexs k) (sleep_queue k) (apic_num_ticks k).
Definition with_malloc_locks x k := mk_kernel (mem k) (words k) (queues k) (idle_thr k) (cur_running_thr k) (spin k) (cr3 k) (esp0 k) (zombie_lists k) (zombie_list_locks k) x (deschedule_queues k) (deschedule_mutexs k) (sleep_queue k) (apic_num_ticks k).
Definition with_deschedule_queues x k := mk_kernel (mem k) (words k) (queues k) (idle_thr k) (cur_running_thr k) (spin k) (cr3 k) (esp0 k) (zombie_lists k) (zombie_list_locks k) (malloc_locks k) x (deschedule_mutexs k) (sleep_queue k) (apic_num_ticks k).
Definition with_deschedule_mutexs x k := mk_kernel (mem k) (words k) (queues k) (idle_thr k) (cur_running_thr k) (spin k) (cr3 k) (esp0 k) (zombie_lists k) (zombie_list_locks k) (malloc_locks k) (deschedule_queues k) x (sleep_queue k) (apic_num_ticks k).
Definition with_sleep_queue x k := mk_kernel (mem k) (words k) (queues k) (idle_thr k) (cur_running_thr k) (spin k) (cr3 k) (esp0 k) (zombie_lists k) (zombie_list_locks k) (malloc_locks k) (deschedule_queues k) (deschedule_mutexs k) x (apic_num_ticks k).
Definition with_apic_num_ticks x k := mk_kernel (mem k) (words k) (queues k) (idle_thr k) (cur_running_thr k) (spin k) (cr3 k) (esp0 k) (zombie_lists k) (zombie_list_locks k) (malloc_locks k) (deschedule_queues k) (deschedule_mutexs k) (sleep_queue k) x.

Module Scheduler.

Definition on_mem {A} (m : M kmem A) : M kernel A := zoom mem with_mem m.
Definition rd_tcb (p : Z) : M kernel tcb_t := on_mem (ControlBlock.rd_tcb p).
Definition upd_tcb (p : Z) (f : tcb_t -> tcb_t) : M kernel unit := on_mem (ControlBlock.upd_tcb p f).
Definition rd_pcb (p : Z) : M kernel pcb_t := on_mem (ControlBlock.rd_pcb p).
Definition upd_pcb (p : Z) (f : pcb_t -> pcb_t) : M kernel unit := on_mem (ControlBlock.upd_pcb p f).
Definition rd_msg (p : Z) : M kernel msg_t := on_mem (ControlBlock.rd_msg p).
Definition upd_msg (p : Z) (f : msg_t -> msg_t) : M kernel unit := on_mem (ControlBlock.upd_msg p f).
Definition malloc : M kernel Z := on_mem ControlBlock.malloc.

(** The context switcher's spinlock of core [cpu]. *)
Definition context_switch_lock (cpu : Z) : M kernel unit := fun k =>
  if spin k cpu then Blocks else Ok (tt, with_spin (fupd (spin k) cpu true) k).
Definition context_switch_unlock (cpu : Z) : M kernel unit := fun k =>
  Ok (tt, with_spin (fupd (spin k) cpu false) k).
Definition get_current_running_thr (cpu : Z) : M kernel Z := fun k => Ok (cur_running_thr k cpu, k).

Definition queue (cpu : Z) : M kernel (list Z) := fun k => deref (queues k !! cpu) k.
Definition set_queue (cpu : Z) (q : list Z) : M kernel unit := modify (fun k => with_queues (<[cpu := q]> (queues k)) k).

(** [get_thr_from_msg_queue] (smp_message.c) on core [cpu].  A [HALT] message
    stops the core. *)
Definition get_thr_from_msg_queue (cpu : Z) : M kernel Z :=
  if cpu =? 0 then mret 0 else
  msg ← on_mem (ControlBlock.on_net (Message.worker_recv_msg cpu));
  if msg =? 0 then mret 0 else
  mm ← rd_msg msg;
  match type mm with
  | FORK => mret (Data.fork_new_thr mm)
  | FORK_RESPONSE | WAIT_RESPONSE | RESPONSE => mret (req_thr mm)
  | MAKE_RUNNABLE | YIELD =>
      k ← get;
      idle ← rd_tcb (idle_thr k cpu);
      upd_tcb (req_thr mm) (set_pcb (pcb idle));;
      mret (req_thr mm)
  | HALT => blocks
  | _ => mret 0
  end.

Definition scheduler_init (cpu : Z) : M kernel Z :=
  p ← malloc;
  if p =? 0 then mret (-1) else set_queue cpu [];; mret 0.

(** [simple_queue_remove_tid]: the first queued thread with the given id. *)
Definition tid_at (k : kernel) (p : Z) : Z := match tcbs (mem k) !! p with Some t => tid t | None => -1 end.

Definition dequeue (cpu : Z) : M kernel Z :=
  q ← queue cpu;
  match QSpec.dequeue q with
  | None => mret 0
  | Some (p, q') => set_queue cpu q';; mret p
  end.

Definition remove_tid (cpu tid : Z) : M kernel Z :=
  k ← get;
  q ← queue cpu;
  match QSpec.remove_tid (tid_at k) tid q with
  | None => mret 0
  | Some (p, q') => set_queue cpu q';; mret p
  end.

Definition scheduler_get_next (cpu mode : Z) : M kernel Z :=
  if mode =? -1 then
    rv ← get_thr_from_msg_queue cpu;
    if negb (rv =? 0) then mret rv else dequeue cpu
  else remove_tid cpu mode.

Definition scheduler_block (cpu : Z) : M kernel Z := dequeue cpu.

Definition scheduler_make_runnable (cpu thread : Z) : M kernel unit :=
  rd_tcb thread;;
  q ← queue cpu; set_queue cpu (QSpec.enqueue q thread).

Definition scheduler_is_exist_or_running (cpu tid : Z) : M kernel Z :=
  context_switch_lock cpu;;
  k ← get;
  q ← queue cpu;
  let rv := if QSpec.is_exist_tid (tid_at k) tid q then 1 else 0 in
  context_switch_unlock cpu;;
  cur ← get_current_running_thr cpu;
  t ← rd_tcb cur;
  mret (if tid =? ControlBlock.tid t then 1 else rv).
End Scheduler.
