(* ===== verification/ContextSwitch.v ===== *)
(** * The context switcher (src/kern/context_switcher.c)

    [context_switch_get_next] decides which thread a core runs next; each of
    its cases is a definition.  The assembly routine [asm_context_switch] calls
    it, switches stacks and releases the core's spinlock.  A thread that calls
    [context_switch] inside [context_switch_get_next] (the request of [OP_FORK])
    is suspended there: that case is the two definitions [fork_start] and
    [fork_finish].  [clone_pd] and [free_entire_space] (vm.c, Vm.v) are
    arguments, as they work on page tables, which this state does not have. *)

From S2P Require Import Prelude SimpleQueue ThreadState Mutex Message ControlBlock Scheduler.
From Stdlib Require Import ZArith Lia.
From stdpp Require Import base gmap list tactics numbers.

#[local] Open Scope Z_scope.

Inductive op_t := OP_CONTEXT_SWITCH | OP_FORK | OP_THREAD_FORK | OP_BLOCK | OP_MAKE_RUNNABLE | OP_RESUME | OP_YIELD | OP_SEND_MSG.

Module ContextSwitch.
Import Scheduler.

Definition ENOMEM : Z := -12.
Definition EMORETHR : Z := -256.
Definition ETHREAD : Z := -257.

Definition set_cur (cpu thr : Z) : M kernel unit := modify (fun k => with_cur_running_thr (fupd (cur_running_thr k) cpu thr) k).
Definition idle_of (cpu : Z) : M kernel Z := fun k => Ok (idle_thr k cpu, k).

(** [OP_CONTEXT_SWITCH] and [OP_YIELD] *)
Definition op_switch (cpu : Z) (is_syscall : bool) (arg this_thr : Z) : M kernel Z :=
  context_switch_lock cpu;;
  new_thr ← scheduler_get_next cpu (s32 arg);
  context_switch_unlock cpu;;
  if new_thr =? 0 then
    (if s32 arg =? -1 then (if is_syscall then upd_tcb this_thr (set_result 0) else mret tt)
     else upd_tcb this_thr (set_result ETHREAD));;
    mret this_thr
  else
    (if is_syscall then upd_tcb this_thr (set_result 0) else mret tt);;
    context_switch_lock cpu;;
    idle ← idle_of cpu;
    (if negb (this_thr =? idle) then scheduler_make_runnable cpu this_thr else mret tt);;
    set_cur cpu new_thr;;
    mret new_thr.

(** The end of [OP_BLOCK] and of [OP_SEND_MSG]: run the next thread, or the idle
    thread when there is none. *)
Definition run_next (cpu this_thr : Z) : M kernel Z :=
  new_thr ← scheduler_block cpu;
  if new_thr =? 0 then
    idle ← idle_of cpu;
    if this_thr =? idle then panic
    else if idle =? 0 then panic
    else set_cur cpu idle;; mret idle
  else set_cur cpu new_thr;; mret new_thr.

Definition op_block (cpu this_thr : Z) : M kernel Z :=
  context_switch_lock cpu;;
  t ← rd_tcb this_thr;
  match state t with
  | WAKEUP | MADE_RUNNABLE => upd_tcb this_thr (set_state NORMAL);; mret this_thr
  | NORMAL => upd_tcb this_thr (set_state BLOCKED);; run_next cpu this_thr
  | BLOCKED => panic
  end.

Definition op_make_runnable (cpu arg this_thr : Z) : M kernel Z :=
  let new_thr := arg in
  if new_thr =? 0 then mret this_thr else
  context_switch_lock cpu;;
  t ← rd_tcb new_thr;
  match state t with
  | BLOCKED => upd_tcb new_thr (set_state NORMAL);; scheduler_make_runnable cpu new_thr;; mret this_thr
  | NORMAL => upd_tcb new_thr (set_state MADE_RUNNABLE);; mret this_thr
  | MADE_RUNNABLE | WAKEUP => panic
  end.

Definition op_resume (cpu arg this_thr : Z) : M kernel Z :=
  let new_thr := arg in
  context_switch_lock cpu;;
  scheduler_make_runnable cpu this_thr;;
  t ← rd_tcb new_thr;
  (match state t with
   | BLOCKED => upd_tcb new_thr (set_state NORMAL)
   | NORMAL => upd_tcb new_thr (set_state WAKEUP)
   | MADE_RUNNABLE | WAKEUP => panic
   end);;
  set_cur cpu new_thr;;
  mret new_thr.

Definition op_send_msg (cpu this_thr : Z) : M kernel Z :=
  context_switch_lock cpu;;
  t ← rd_tcb this_thr;
  on_mem (ControlBlock.on_net (Message.worker_send_msg cpu (my_msg t)));;
  run_next cpu this_thr.

(** ** Forking a kernel thread *)

Definition memcpy (dst src len : Z) : M kernel unit :=
  modify (fun k => with_words (fun a => if (dst <=? a) && (a <? dst + len) then words k (a - dst + src) else words k a) k).
Definition store (a v : Z) : M kernel unit := modify (fun k => with_words (fupd (words k) a v) k).
Definition load (a : Z) : M kernel Z := fun k => Ok (words k a, k).

(** [get_last_ebp] *)
Definition get_last_ebp (ebp : Z) : M kernel Z := load ebp.

Definition internal_thread_fork (cpu this_thr : Z) : M kernel Z :=
  t ← rd_tcb this_thr;
  new_thr ← on_mem (ControlBlock.tcb_create_thread_only cpu (pcb t) NORMAL);
  if new_thr =? 0 then mret 0 else
  t ← rd_tcb this_thr;
  let high_addr := ControlBlock.tcb_get_high_addr (k_stack_esp t) in
  let len := s32 (high_addr - k_stack_esp t) in
  n ← rd_tcb new_thr;
  let init_k_esp := k_stack_esp n in
  upd_tcb new_thr (set_k_stack_esp (w32 (k_stack_esp n - len)));;
  n ← rd_tcb new_thr;
  memcpy (k_stack_esp n) (k_stack_esp t) len;;
  store (w32 (k_stack_esp n + 12)) init_k_esp;;
  let diff := w32 (k_stack_esp n - k_stack_esp t) in
  let ebp := w32 (k_stack_esp n + 56) in
  v ← load ebp;
  store ebp (w32 (v + diff));;
  ebp ← get_last_ebp ebp;
  v ← load ebp;
  store ebp (w32 (v + diff));;
  mret new_thr.

Definition op_thread_fork (cpu this_thr : Z) : M kernel Z :=
  new_thr ← internal_thread_fork cpu this_thr;
  if new_thr =? 0 then upd_tcb this_thr (set_result ENOMEM);; mret this_thr
  else
    n ← rd_tcb new_thr;
    upd_tcb this_thr (set_result (tid n));;
    upd_tcb new_thr (set_result 0);;
    t ← rd_tcb this_thr;
    upd_pcb (pcb t) (fun c => set_cur_thr_num (s32 (cur_thr_num c + 1)) c);;
    context_switch_lock cpu;;
    scheduler_make_runnable cpu this_thr;;
    set_cur cpu new_thr;;
    mret new_thr.

Definition set_cr3 (cpu v : Z) : M kernel unit := modify (fun k => with_cr3 (fupd (cr3 k) cpu v) k).

Section fork.
Context (clone_pd : Z -> M kernel Z) (free_entire_space : Z -> bool -> M kernel unit).

(** Errors of vm.c, seen as the [uint32_t] that [clone_pd] returns. *)
Definition ERROR_MALLOC_LIB : Z := 2 ^ 32 - 1.
Definition ERROR_NOT_ENOUGH_MEM : Z := 2 ^ 32 - 3.

(** [free(p)], where NULL is accepted. *)
Definition free_swexn (p : Z) : M kernel unit := if p =? 0 then mret tt else on_mem (ControlBlock.free_swexn p).

(** [fork_create_process] (syscall_lifecycle.c) on core [cpu] *)
Definition fork_create_process (cpu new_thr old_thr : Z) : M kernel Z :=
  new_page_table_base ← clone_pd cpu;
  if (new_page_table_base =? ERROR_MALLOC_LIB) || (new_page_table_base =? ERROR_NOT_ENOUGH_MEM) then mret (-1) else
  o ← rd_tcb old_thr;
  ok ← (if negb (swexn_struct o =? 0) then
          p ← malloc;
          upd_tcb new_thr (set_swexn p);;
          if p =? 0 then free_entire_space new_page_table_base true;; mret false
          else
            k ← get;
            w ← deref (swexns (mem k) !! swexn_struct o);
            modify (fun k => with_mem (with_swexns (<[p := w]> (swexns (mem k))) (mem k)) k);;
            mret true
        else mret true);
  if negb (ok : bool) then mret (-1) else
  process ← on_mem (ControlBlock.tcb_create_process_only new_thr old_thr new_page_table_base);
  if process =? 0 then
    n ← rd_tcb new_thr;
    free_swexn (swexn_struct n);;
    free_entire_space new_page_table_base true;;
    mret (-1)
  else mret 0.

(** [OP_FORK] up to the point where the calling thread is suspended: [inl thr]
    is what the case returns, [inr (new_thr, next)] says that the request for
    [new_thr] has been sent and that the core now runs [next]. *)
Definition fork_start (cpu this_thr : Z) : M kernel (Z + Z * Z) :=
  t ← rd_tcb this_thr;
  c ← rd_pcb (pcb t);
  if 1 <? cur_thr_num c then upd_tcb this_thr (set_result EMORETHR);; mret (inl this_thr) else
  new_thr ← internal_thread_fork cpu this_thr;
  if new_thr =? 0 then upd_tcb this_thr (set_result ENOMEM);; mret (inl this_thr) else
  upd_tcb new_thr (set_result 0);;
  idle ← idle_of cpu;
  n ← rd_tcb new_thr;
  if negb (this_thr =? idle) then
    upd_msg (my_msg t) (set_req this_thr cpu);;
    upd_msg (my_msg t) (set_type FORK);;
    upd_msg (my_msg t) (set_w0 new_thr);;
    upd_msg (my_msg t) (set_w1 0);;
    upd_msg (my_msg t) (set_w2 (tid n));;
    upd_msg (my_msg t) (set_w3 (pid c));;
    upd_msg (my_msg n) (set_type FORK_RESPONSE);;
    upd_msg (my_msg n) (set_w0 (my_msg t));;
    next ← op_send_msg cpu this_thr;
    mret (inr (new_thr, next))
  else
    upd_msg (my_msg n) (set_type NONE);;
    rv ← fork_create_process cpu new_thr this_thr;
    if rv <? 0 then
      on_mem (ControlBlock.tcb_free_thread new_thr);;
      upd_tcb this_thr (set_result ENOMEM);;
      mret (inl this_thr)
    else
      upd_tcb this_thr (set_result (tid n));;
      context_switch_lock cpu;;
      scheduler_make_runnable cpu this_thr;;
      set_cur cpu new_thr;;
      mret (inl new_thr).

(** The rest of [OP_FORK], once the manager has answered the calling thread. *)
Definition fork_finish (this_thr new_thr : Z) : M kernel Z :=
  t ← rd_tcb this_thr;
  m ← rd_msg (my_msg t);
  if Data.fr_result m <? 0 then
    on_mem (ControlBlock.tcb_free_thread new_thr);;
    upd_tcb this_thr (set_result ENOMEM);;
    mret this_thr
  else
    n ← rd_tcb new_thr;
    upd_tcb this_thr (set_result (tid n));;
    mret this_thr.

(** [context_switch_get_next]: [inl thr] is the thread to run; [inr] the
    suspension of [OP_FORK]. *)
Definition context_switch_get_next (cpu : Z) (op : op_t) (arg this_thr : Z) : M kernel (Z + Z * Z) :=
  match op with
  | OP_CONTEXT_SWITCH => thr ← op_switch cpu false arg this_thr; mret (inl thr)
  | OP_YIELD => thr ← op_switch cpu true arg this_thr; mret (inl thr)
  | OP_FORK => fork_start cpu this_thr
  | OP_THREAD_FORK => thr ← op_thread_fork cpu this_thr; mret (inl thr)
  | OP_BLOCK => thr ← op_block cpu this_thr; mret (inl thr)
  | OP_MAKE_RUNNABLE => thr ← op_make_runnable cpu arg this_thr; mret (inl thr)
  | OP_RESUME => thr ← op_resume cpu arg this_thr; mret (inl thr)
  | OP_SEND_MSG => thr ← op_send_msg cpu this_thr; mret (inl thr)
  end.

(** [asm_context_switch]: the stack switch is the change of the running thread;
    the core's spinlock is released on the stack of the next thread, also when
    it is the thread suspended in [OP_FORK] that leaves the core. *)
Definition asm_context_switch (cpu : Z) (op : op_t) (arg this_thr : Z) : M kernel (Z + Z * Z) :=
  r ← context_switch_get_next cpu op arg this_thr;
  context_switch_unlock cpu;;
  mret r.

(** The part of [context_switch] that only the child of a fork runs, on the core
    that continues the fork: it builds its process and reports the result.
    [Some next]: the child is suspended in the nested [context_switch] and the
    core runs [next]. *)
Definition fork_child (cpu this_thr : Z) : M kernel (option Z) :=
  t ← rd_tcb this_thr;
  if result t =? 0 then
    m ← rd_msg (my_msg t);
    if bool_decide (type m = FORK_RESPONSE) then
      c ← rd_pcb (pcb t);
      set_cr3 cpu (page_table_base c);;
      req ← rd_msg (Data.fr_req_msg m);
      rv ← fork_create_process cpu this_thr (req_thr req);
      upd_msg (my_msg t) (set_req this_thr cpu);;
      upd_msg (my_msg t) (set_w1 rv);;
      next ← op_send_msg cpu this_thr;
      context_switch_unlock cpu;;
      mret (Some next)
    else
      c ← rd_pcb (pcb t);
      set_cr3 cpu (page_table_base c);;
      mret None
  else mret None.
End fork.

(** ** The end of [context_switch]: what the thread that now runs does *)

Definition set_esp0 (cpu v : Z) : M kernel unit := modify (fun k => with_esp0 (fupd (esp0 k) cpu v) k).

Definition get_next_zombie (cpu : Z) : M kernel Z :=
  k ← get;
  q ← deref (zombie_lists k !! cpu);
  match QSpec.dequeue q with
  | None => mret 0
  | Some (p, q') => modify (fun k => with_zombie_lists (<[cpu := q']> (zombie_lists k)) k);; mret p
  end.
Definition put_next_zombie (cpu node : Z) : M kernel Z :=
  k ← get;
  q ← deref (zombie_lists k !! cpu);
  modify (fun k => with_zombie_lists (<[cpu := QSpec.enqueue q node]> (zombie_lists k)) k);; mret 0.

(** A mutex names the threads by their control blocks.  [mutex_try_lock] and
    [mutex_unlock] on the zombie list's and the allocator's mutex of a core. *)
Definition try_lock (getl : kernel -> gmap Z Mutex.mutex_t) (setl : gmap Z Mutex.mutex_t -> kernel -> kernel) (cpu me : Z) : M kernel Z := fun k =>
  match getl k !! cpu with
  | Some m => match Mutex.mutex_try_lock me m with
              | Ok (rv, m') => Ok (rv, setl (<[cpu := m']> (getl k)) k)
              | Panic => Panic | Fault => Fault | Blocks => Blocks | NoFuel => NoFuel
              end
  | None => Fault
  end.
Definition unlock (getl : kernel -> gmap Z Mutex.mutex_t) (setl : gmap Z Mutex.mutex_t -> kernel -> kernel) (cpu me : Z) : M kernel unit := fun k =>
  match getl k !! cpu with
  | Some m => match Mutex.unlock_section m with
              | Ok (None, m') => Ok (tt, setl (<[cpu := m']> (getl k)) k)
              | Ok (Some n, m') => (op_make_runnable cpu n me;; context_switch_unlock cpu) (setl (<[cpu := m']> (getl k)) k)
              | Panic => Panic | Fault => Fault | Blocks => Blocks | NoFuel => NoFuel
              end
  | None => Fault
  end.

(** Free a vanished thread, if the two locks can be had without waiting. *)
Definition reap_zombie (cpu this_thr : Z) : M kernel unit :=
  rv ← try_lock zombie_list_locks with_zombie_list_locks cpu this_thr;
  if rv <? 0 then mret tt else
  rv ← try_lock malloc_locks with_malloc_locks cpu this_thr;
  if rv <? 0 then unlock zombie_list_locks with_zombie_list_locks cpu this_thr else
  node ← get_next_zombie cpu;
  (if negb (node =? 0) then
     z ← rd_tcb node;
     t ← rd_tcb this_thr;
     if (tid t =? tid z) || negb (bool_decide (state z = BLOCKED)) then put_next_zombie cpu node;; mret tt
     else on_mem (ControlBlock.tcb_vanish_thread node)
   else mret tt);;
  unlock malloc_locks with_malloc_locks cpu this_thr;;
  unlock zombie_list_locks with_zombie_list_locks cpu this_thr.

(** After the stack switch, for a thread that is not a fork child. *)
Definition context_switch_end (cpu : Z) (op : op_t) (this_thr : Z) : M kernel unit :=
  t ← rd_tcb this_thr;
  c ← rd_pcb (pcb t);
  k ← get;
  (if negb (page_table_base c =? cr3 k cpu) then set_cr3 cpu (page_table_base c) else mret tt);;
  set_esp0 cpu (ControlBlock.tcb_get_high_addr (w32 (k_stack_esp t - 1)));;
  match op with
  | OP_MAKE_RUNNABLE => mret tt
  | _ => reap_zombie cpu this_thr
  end.

Definition context_switcher_init (cpu : Z) : M kernel Z :=
  p ← malloc;
  if p =? 0 then mret (-1) else
  k ← get;
  set_cur cpu (junk (mem k));;
  l ← malloc;
  if l =? 0 then mret (-1) else
  modify (fun k => with_spin (fupd (spin k) cpu false) k);;
  mret 0.

(** ** Running the steps *)

Lemma rd_tcb_run k p t : tcbs (mem k) !! p = Some t -> rd_tcb p k = Ok (t, k).
Proof.
  intros H. unfold rd_tcb, on_mem. rewrite (zoom_ok _ _ _ k t (mem k)); [by destruct k|].
  unfold ControlBlock.rd_tcb. by rewrite H.
Qed.

Lemma upd_tcb_run k p t f : tcbs (mem k) !! p = Some t ->
  upd_tcb p f k = Ok (tt, with_mem (with_tcbs (<[p := f t]> (tcbs (mem k))) (mem k)) k).
Proof.
  intros H. unfold upd_tcb, on_mem. rewrite (zoom_ok _ _ _ k tt (with_tcbs (<[p := f t]> (tcbs (mem k))) (mem k))); [done|].
  unfold ControlBlock.upd_tcb, ControlBlock.rd_tcb. erewrite bind_ok by (by rewrite H). done.
Qed.

Lemma lock_run k cpu : spin k cpu = false -> context_switch_lock cpu k = Ok (tt, with_spin (fupd (spin k) cpu true) k).
Proof. intros H. unfold context_switch_lock. by rewrite H. Qed.

Lemma queue_run k cpu q : queues k !! cpu = Some q -> queue cpu k = Ok (q, k).
Proof. intros H. unfold queue. by rewrite H. Qed.

Lemma dequeue_run k cpu q : queues k !! cpu = Some q ->
  dequeue cpu k = match q with [] => Ok (0, k) | p :: q' => Ok (p, with_queues (<[cpu := q']> (queues k)) k) end.
Proof. intros H. unfold dequeue. rewrite (bind_ok _ _ _ _ _ (queue_run _ _ _ H)). by destruct q. Qed.

Lemma ready_enqueue_run k cpu q p t : queues k !! cpu = Some q -> tcbs (mem k) !! p = Some t ->
  scheduler_make_runnable cpu p k = Ok (tt, with_queues (<[cpu := q ++ [p]]> (queues k)) k).
Proof.
  intros H Ht. unfold scheduler_make_runnable. rewrite (bind_ok _ _ _ _ _ (rd_tcb_run _ _ _ Ht)).
  by rewrite (bind_ok _ _ _ _ _ (queue_run _ _ _ H)).
Qed.

(** ** Where the threads of a core are

    [cur] runs, the threads of [q] are ready, in this order; no thread is in two
    places, and none of them is blocked.  The core's spinlock is free. *)
Definition ready (k : kernel) (p : Z) : Prop := p <> 0 /\ exists t, tcbs (mem k) !! p = Some t /\ state t <> BLOCKED.

Record core_ok (k : kernel) (cpu cur : Z) (q : list Z) : Prop := {
  co_queue : queues k !! cpu = Some q;
  co_cur : cur_running_thr k cpu = cur;
  co_nodup : NoDup (cur :: q);
  co_ready : forall p, p ∈ cur :: q -> ready k p;
  co_idle : ready k (idle_thr k cpu);
  co_spin : spin k cpu = false
}.

(** ** The messages that wait for a core

    The thread a message of the manager brings to the core: a new thread, a thread
    whose request has been answered, or a visitor from another core. *)
Definition msg_thr (mm : msg_t) : option Z :=
  match type mm with
  | FORK => Some (Data.fork_new_thr mm)
  | FORK_RESPONSE | WAIT_RESPONSE | RESPONSE | MAKE_RUNNABLE | YIELD => Some (req_thr mm)
  | _ => None
  end.

Definition carries (k : kernel) (w t : Z) : Prop :=
  Message.msg_ok (net (mem k)) w /\ exists mm, Message.msgs (net (mem k)) !! w = Some mm /\ msg_thr mm = Some t.

(** The messages [ws] wait for core [cpu], oldest first, with the threads [ts]. *)
Record box_ok (k : kernel) (cpu : Z) (ws ts : list Z) : Prop := {
  bx_cpu : 1 <= cpu <= Message.num_worker_cores (net (mem k));
  bx_chan : exists c, Message.net_rep (net (mem k)) c /\ ChanSpec.to_worker c cpu = ws;
  bx_thr : Forall2 (carries k) ws ts }.

(** Messages and threads that were there still are. *)
Definition keeps (k k' : kernel) : Prop :=
  Message.num_worker_cores (net (mem k')) = Message.num_worker_cores (net (mem k)) /\
  Message.msgs (net (mem k')) = Message.msgs (net (mem k)) /\ forall x, ready k x -> ready k' x.

Lemma keeps_carries k k' w t : keeps k k' -> carries k w t -> carries k' w t.
Proof. intros (_ & E & _). unfold carries, Message.msg_ok. by rewrite E. Qed.

Lemma keeps_carry k k' ws ts : keeps k k' -> Forall2 (carries k) ws ts -> Forall2 (carries k') ws ts.
Proof. intros Hk. induction 1; constructor; [by eapply keeps_carries|done]. Qed.

(** The part of the state a message is taken from. *)
Definition kernel_net (n : Message.net) (k : kernel) : kernel := with_mem (with_net n (mem k)) k.

Lemma mem_net_run {A} (m : M Message.net A) k a n : m (net (mem k)) = Ok (a, n) -> on_mem (ControlBlock.on_net m) k = Ok (a, kernel_net n k).
Proof. intros H. unfold on_mem, ControlBlock.on_net. by rewrite (zoom_ok _ _ _ k a (with_net n (mem k))) by (by apply zoom_ok). Qed.

Lemma kernel_net_id k : kernel_net (net (mem k)) k = k.
Proof. by destruct k as [[]]. Qed.

(** Nothing waits: the ready queue is next. *)
Lemma box_empty_run k cpu : box_ok k cpu [] [] -> get_thr_from_msg_queue cpu k = Ok (0, k).
Proof.
  intros [Hc (c & Hr & Hw) _]. unfold get_thr_from_msg_queue. rewrite (proj2 (Z.eqb_neq cpu 0)) by lia.
  pose proof (Message.worker_recv_ok _ _ cpu Hr Hc) as H. unfold ChanSpec.recv_worker in H. rewrite Hw in H.
  by rewrite (bind_ok _ _ k 0 k) by (rewrite (mem_net_run _ _ _ _ H); by rewrite kernel_net_id).
Qed.

(** Taking the oldest message: its thread is next. *)
Lemma box_run k cpu w ws t ts : box_ok k cpu (w :: ws) (t :: ts) -> ready k t -> ready k (idle_thr k cpu) ->
  exists k', get_thr_from_msg_queue cpu k = Ok (t, k') /\ box_ok k' cpu ws ts /\ keeps k k' /\
    queues k' = queues k /\ idle_thr k' = idle_thr k /\ spin k' = spin k.
Proof.
  intros [Hc (c & Hr & Hw) Ht] (Ht0 & tc & Htc & Hst) (_ & ti & Hti & _). apply Forall2_cons_1 in Ht as [(Hok & mm & Hmm & Hthr) Hts].
  pose proof (Message.worker_recv_ok _ _ cpu Hr Hc) as H. unfold ChanSpec.recv_worker in H. rewrite Hw in H. simpl in H.
  destruct H as (_ & p & q & R & Hr'). set (n1 := Message.with_qs _ _) in *. set (k1 := kernel_net n1 k).
  set (k2 := with_mem (with_tcbs (<[t := set_pcb (pcb ti) tc]> (tcbs (mem k1))) (mem k1)) k1).
  assert (Kn : forall k', net (mem k') = n1 -> keeps k k' -> box_ok k' cpu ws ts).
  { intros k' En Hk. split; [by rewrite En| |by apply (keeps_carry k)]. eexists. rewrite En. split; [exact Hr'|]. simpl. apply fupd_eq. }
  assert (K1 : keeps k k1) by done.
  assert (K2 : keeps k k2).
  { split; [done|]. split; [done|]. intros x (H0 & u & Hu & Hs). split; [done|]. simpl. destruct (decide (x = t)) as [->|].
    - rewrite lookup_insert_eq. eexists. split; [done|]. simpl. congruence.
    - rewrite lookup_insert_ne by done. eauto. }
  unfold get_thr_from_msg_queue. rewrite (proj2 (Z.eqb_neq cpu 0)) by lia. rewrite (bind_ok _ _ _ _ _ (mem_net_run _ _ _ _ R)). fold k1.
  rewrite (proj2 (Z.eqb_neq w 0)) by apply Hok. rewrite (bind_ok (rd_msg w) _ k1 mm k1).
  2:{ unfold rd_msg, on_mem, ControlBlock.rd_msg, ControlBlock.on_net. erewrite zoom_ok by (apply zoom_ok, Message.rd_ok; exact Hmm). by destruct k1 as [[]]. }
  unfold msg_thr in Hthr. destruct (type mm); try discriminate Hthr; injection Hthr as ->;
    try (exists k1; split; [reflexivity|]; split; [by apply Kn|done]);
    (exists k2; split; [|split; [by apply Kn|done]]); rewrite (bind_ok get _ k1 k1 k1 eq_refl);
    rewrite (bind_ok _ _ k1 ti k1) by (by apply rd_tcb_run); by rewrite (bind_ok _ _ k1 tt k2) by (by apply upd_tcb_run).
Qed.

Section core.
Context (clone_pd : Z -> M kernel Z) (free_entire_space : Z -> bool -> M kernel unit).
#[local] Abbreviation switch := (asm_context_switch clone_pd free_entire_space).

(** From the thread an operation returns to the state after [asm_context_switch]. *)
Lemma switch_run cpu op arg this k n k' : context_switch_get_next clone_pd free_entire_space cpu op arg this k = Ok (inl n, k') ->
  switch cpu op arg this k = Ok (inl n, with_spin (fupd (spin k') cpu false) k').
Proof. intros H. unfold asm_context_switch. by rewrite (bind_ok _ _ _ _ _ H). Qed.

Lemma lift_run (m : M kernel Z) k n k' : m k = Ok (n, k') -> (thr ← m; mret (inl thr : Z + Z * Z)) k = Ok (inl n, k').
Proof. intros H. by rewrite (bind_ok _ _ _ _ _ H). Qed.

Lemma core_unlocked k cpu cur q : queues k !! cpu = Some q -> cur_running_thr k cpu = cur -> NoDup (cur :: q) ->
  (forall p, p ∈ cur :: q -> ready k p) -> ready k (idle_thr k cpu) -> core_ok (with_spin (fupd (spin k) cpu false) k) cpu cur q.
Proof. intros. split; try done. simpl. apply fupd_eq. Qed.

(** A timer switch to the thread [p] the scheduler has picked. *)
Lemma switch_to k cpu cur p q k1 : spin k cpu = false -> ready k1 cur -> p <> 0 ->
  scheduler_get_next cpu (-1) (with_spin (fupd (spin k) cpu true) k) = Ok (p, k1) -> queues k1 !! cpu = Some q ->
  exists k', switch cpu OP_CONTEXT_SWITCH (-1) cur k = Ok (inl p, k') /\
    queues k' !! cpu = Some (q ++ if cur =? idle_thr k1 cpu then [] else [cur]) /\ cur_running_thr k' cpu = p /\
    spin k' cpu = false /\ mem k' = mem k1 /\ idle_thr k' = idle_thr k1.
Proof.
  intros S (_ & tc & Htc & _) Hp Hg Q. set (k2 := with_spin (fupd (spin k1) cpu false) k1). set (k3 := with_spin (fupd (spin k2) cpu true) k2).
  set (k4 := if cur =? idle_thr k1 cpu then k3 else with_queues (<[cpu := q ++ [cur]]> (queues k3)) k3).
  eexists. split; [apply switch_run, lift_run|].
  - unfold op_switch. change (s32 (-1)) with (-1). rewrite (bind_ok _ _ _ _ _ (lock_run _ _ S)), (bind_ok _ _ _ _ _ Hg).
    rewrite (bind_ok (context_switch_unlock cpu) _ _ tt k2 eq_refl), (proj2 (Z.eqb_neq p 0) Hp), (bind_ok (mret tt) _ k2 tt k2 eq_refl).
    rewrite (bind_ok _ _ k2 tt k3) by (apply lock_run; simpl; apply fupd_eq).
    rewrite (bind_ok (idle_of cpu) _ k3 (idle_thr k1 cpu) k3 eq_refl).
    rewrite (bind_ok _ _ k3 tt k4); [reflexivity|]. unfold k4. destruct (cur =? idle_thr k1 cpu); [done|].
    by apply (ready_enqueue_run k3 cpu q cur tc).
  - simpl. unfold k4. destruct (cur =? idle_thr k1 cpu); simpl; rewrite ?lookup_insert_eq, ?app_nil_r, !fupd_eq; done.
Qed.

(** What a core does next: [cur] runs, [q] is ready, and the messages that wait
    bring the threads [ts].  After a timer switch: *)
Definition next_view (idle cur : Z) (q ts : list Z) : Z * list Z * list Z :=
  match ts, q with
  | t :: ts, _ => (t, q ++ (if cur =? idle then [] else [cur]), ts)
  | [], p :: q => (p, q ++ (if cur =? idle then [] else [cur]), [])
  | [], [] => (cur, [], [])
  end.

(** All threads are in different places. *)
Definition places (cur : Z) (q ts : list Z) : list Z := cur :: q ++ ts.

Lemma core_ready k cpu cur q ts : core_ok k cpu cur q -> (forall t, t ∈ ts -> ready k t) -> forall x, x ∈ places cur q ts -> ready k x.
Proof. intros Hok Ht x Hx. unfold places in Hx. rewrite app_comm_cons in Hx. apply elem_of_app in Hx as [?|?]; [by apply (co_ready _ _ _ _ Hok)|auto]. Qed.

Lemma next_view_places idle cur q ts : let '(c, q', ts') := next_view idle cur q ts in
  (NoDup (places cur q ts) -> NoDup (c :: q')) /\ (forall x, x ∈ places c q' ts' -> x ∈ places cur q ts).
Proof.
  assert (Hsub : forall c l, NoDup (c :: l ++ [cur]) -> NoDup (c :: l ++ (if cur =? idle then [] else [cur]))).
  { intros c l H. destruct (cur =? idle); [|done]. rewrite app_nil_r. rewrite app_comm_cons in H. by apply list.NoDup_app in H as [? _]. }
  unfold next_view, places. destruct ts as [|t ts]; [destruct q as [|p q]|].
  - done.
  - rewrite app_nil_r. split; [|destruct (cur =? idle); set_solver]. intros H. apply Hsub. rewrite app_comm_cons. by rewrite (Permutation_app_comm (p :: q) [cur]).
  - split; [|destruct (cur =? idle); set_solver]. intros H. apply Hsub. rewrite Permutation_app_comm. simpl.
    rewrite <- Permutation_middle, !app_comm_cons in H. apply list.NoDup_app in H as [H _]. eapply NoDup_Permutation_proper; [|exact H]. apply Permutation_swap.
Qed.

Lemma tick_ok k cpu cur q ws ts : core_ok k cpu cur q -> box_ok k cpu ws ts -> (forall t, t ∈ ts -> ready k t) -> NoDup (places cur q ts) ->
  let '(c, q', ts') := next_view (idle_thr k cpu) cur q ts in
  exists k', switch cpu OP_CONTEXT_SWITCH (-1) cur k = Ok (inl c, k') /\ core_ok k' cpu c q' /\
    (exists ws', box_ok k' cpu ws' ts') /\ keeps k k' /\ idle_thr k' = idle_thr k.
Proof.
  intros Hok Hbx Hts Hnd. pose proof (next_view_places (idle_thr k cpu) cur q ts) as Hv. pose proof (core_ready _ _ _ _ _ Hok Hts) as Hr.
  destruct Hok as [Q C N R I S]. set (k1 := with_spin (fupd (spin k) cpu true) k).
  (* the switch itself, whatever the scheduler finds *)
  assert (Sw : forall p q' ws' ts' k2, scheduler_get_next cpu (-1) k1 = Ok (p, k2) -> queues k2 !! cpu = Some q' -> box_ok k2 cpu ws' ts' ->
    keeps k k2 -> idle_thr k2 = idle_thr k -> p <> 0 -> let q'' := q' ++ (if cur =? idle_thr k cpu then [] else [cur]) in
    NoDup (p :: q'') -> (forall x, x ∈ p :: q'' -> ready k x) ->
    exists k', switch cpu OP_CONTEXT_SWITCH (-1) cur k = Ok (inl p, k') /\ core_ok k' cpu p q'' /\ (exists ws', box_ok k' cpu ws' ts') /\ keeps k k' /\ idle_thr k' = idle_thr k).
  { intros p q' ws' ts' k2 Hg Q2 B2 K2 I2 Hp q'' Hnd2 Hr2.
    destruct (switch_to k cpu cur p q' k2 S) as (k' & Rk & Q' & C' & S' & M' & I'); [apply K2, R; set_solver|done|done|done|].
    assert (K' : keeps k k') by (unfold keeps, ready; rewrite M'; apply K2). exists k'. split; [done|]. rewrite I2 in Q'. split; [|split; [|split; [done|congruence]]].
    - split; try done; [intros x Hx; apply K'; auto|]. rewrite I', I2. by apply K'.
    - exists ws'. destruct B2 as [B1 B2 B3]. split; rewrite ?M'; [done|done|]. apply (keeps_carry k2); [unfold keeps, ready; by rewrite M'|done]. }
  unfold scheduler_get_next in Sw. cbn [Z.eqb Pos.eqb] in Sw.
  assert (Bk1 : box_ok k1 cpu ws ts) by (by destruct Hbx). destruct ts as [|t ts]; [destruct q as [|p q]|].
  - pose proof (bx_thr _ _ _ _ Hbx) as ->%Forall2_nil_inv_r. pose proof (box_empty_run k1 cpu Bk1) as Hg. eexists. split; [apply switch_run, lift_run|split].
    + unfold op_switch. change (s32 (-1)) with (-1). rewrite (bind_ok _ _ _ _ _ (lock_run _ _ S)). fold k1. rewrite (bind_ok _ _ k1 0 k1).
      2:{ unfold scheduler_get_next. cbn [Z.eqb Pos.eqb]. rewrite (bind_ok _ _ _ _ _ Hg). cbn [Z.eqb negb]. by rewrite (dequeue_run k1 cpu [] Q). }
      rewrite (bind_ok (context_switch_unlock cpu) _ k1 tt _ eq_refl). cbn [Z.eqb Pos.eqb]. reflexivity.
    + by apply core_unlocked.
    + split; [|done]. exists []. by destruct Bk1.
  - pose proof (bx_thr _ _ _ _ Hbx) as ->%Forall2_nil_inv_r. pose proof (box_empty_run k1 cpu Bk1) as Hg. destruct Hv as [Hv1 Hv2].
    apply (Sw p q [] [] (with_queues (<[cpu := q]> (queues k1)) k1)); try done.
    + rewrite (bind_ok _ _ _ _ _ Hg). cbn [Z.eqb negb]. by rewrite (dequeue_run k1 cpu (p :: q) Q).
    + simpl. apply lookup_insert_eq.
    + by destruct Bk1.
    + apply (R p). set_solver.
    + by apply Hv1.
    + intros x Hx. apply Hr, Hv2. unfold places. by rewrite app_nil_r.
  - destruct ws as [|w ws]; [by apply bx_thr in Hbx as ?%Forall2_nil_inv_l|]. destruct Hv as [Hv1 Hv2].
    destruct (box_run k1 cpu w ws t ts Bk1) as (k2 & Hg & B2 & K2 & E1 & E2 & E3); [apply Hts; set_solver|done|].
    assert (Ht0 : t <> 0) by (apply (Hts t); set_solver). apply (Sw t q ws ts k2); try done.
    + rewrite (bind_ok _ _ _ _ _ Hg), (proj2 (Z.eqb_neq t 0) Ht0). done.
    + by rewrite E1.
    + by apply Hv1.
    + intros x Hx. apply Hr, Hv2. unfold places. rewrite app_comm_cons. apply elem_of_app. by left.
Qed.

(** ** Timer interrupts and messages

    A core meets timer interrupts and messages of the manager in any order. *)
Inductive event := Tick | Arrive (w : Z).

Fixpoint events (evs : list event) (cpu : Z) : M kernel unit :=
  match evs with
  | [] => mret tt
  | Tick :: evs => cur ← get_current_running_thr cpu; switch cpu OP_CONTEXT_SWITCH (-1) cur;; events evs cpu
  | Arrive w :: evs => on_mem (ControlBlock.on_net (Message.manager_send_msg w cpu));; events evs cpu
  end.

Fixpoint num_ticks (evs : list event) : nat :=
  match evs with [] => O | Tick :: evs => S (num_ticks evs) | Arrive _ :: evs => num_ticks evs end.
Definition arrivals (evs : list event) : list Z := omap (fun e => match e with Arrive w => Some w | Tick => None end) evs.

Lemma arrive_ok k cpu cur q ws ts w t : core_ok k cpu cur q -> box_ok k cpu ws ts -> carries k w t ->
  exists k', on_mem (ControlBlock.on_net (Message.manager_send_msg w cpu)) k = Ok (tt, k') /\ core_ok k' cpu cur q /\
    box_ok k' cpu (ws ++ [w]) (ts ++ [t]) /\ keeps k k' /\ idle_thr k' = idle_thr k.
Proof.
  intros [Q C N R I S] [Hc (c & Hr & Hw) Ht] Hwt. destruct (Message.manager_send_ok _ _ w cpu Hr (proj1 Hwt) Hc) as (p & Rs & Hr').
  eexists. split; [exact (mem_net_run _ _ _ _ Rs)|]. set (k' := kernel_net _ k). assert (K : keeps k k') by done. split; [by split|].
  split; [|done]. split; [done| |apply Forall2_app; [by apply (keeps_carry k)|constructor; [done|constructor]]].
  eexists. split; [exact Hr'|]. simpl. rewrite fupd_eq, Hw. done.
Qed.

(** What fairness promises to the thread [p] behind [l], when the threads [ts] have
    messages: at some point [e1] of the events it runs, after [i + 1] switches and
    one more for each message served. *)
Definition gets_turn (evs : list event) (k : kernel) (cpu cur : Z) (l : list Z) (p : Z) (r ts : list Z) : Prop :=
  exists e1 e2 k' y ws' ts', evs = e1 ++ e2 /\ events e1 cpu k = Ok (tt, k') /\ cur_running_thr k' cpu = p /\
    core_ok k' cpu p (r ++ y) /\ sublist (cur :: l) y /\ box_ok k' cpu ws' ts' /\
    (num_ticks e1 + length ts' = S (length l) + length ts + length (arrivals e1))%nat.

(** The threads of the core, of the waiting messages and of those that will come. *)
Record fair_ready (k : kernel) (cpu cur : Z) (q ts as_ : list Z) : Prop := {
  fr_ready : forall t, t ∈ ts ++ as_ -> ready k t;
  fr_nodup : NoDup (places cur q (ts ++ as_));
  fr_idle : idle_thr k cpu ∉ places cur q (ts ++ as_) }.

Lemma fair_ready_perm k k' cpu cur cur' q q' ts ts' as_ : core_ok k cpu cur q -> fair_ready k cpu cur q ts as_ -> keeps k k' -> idle_thr k' = idle_thr k ->
  places cur' q' ts' ≡ₚ places cur q ts -> fair_ready k' cpu cur' q' ts' as_.
Proof.
  intros Hok [H1 H2 H3] K I Hp. assert (Hall : places cur' q' (ts' ++ as_) ≡ₚ places cur q (ts ++ as_)).
  { unfold places in *. rewrite !app_assoc, !app_comm_cons. by rewrite Hp. }
  split; [|by rewrite Hall|by rewrite I, Hall]. intros t Ht. apply K. apply (core_ready k cpu cur q _ Hok H1). rewrite <- Hall. unfold places. set_solver.
Qed.

Lemma turn_tick evs k cpu cur l p r ts c l' ts' k1 : core_ok k cpu cur (l ++ p :: r) ->
  switch cpu OP_CONTEXT_SWITCH (-1) cur k = Ok (inl c, k1) -> gets_turn evs k1 cpu c l' p (r ++ [cur]) ts' ->
  (forall z, sublist (c :: l') z -> sublist l z) -> (S (length l' + length ts') = length l + length ts)%nat ->
  gets_turn (Tick :: evs) k cpu cur l p r ts.
Proof.
  intros Hok R1 (e1 & e2 & k' & y & ws2 & ts2 & -> & R' & C' & Ok' & Sb & B' & Hcnt) Hsub Hlen.
  exists (Tick :: e1), e2, k', (cur :: y), ws2, ts2. split; [done|]. split.
  { cbn [events]. rewrite (bind_ok _ _ k cur k) by (unfold get_current_running_thr; by rewrite (co_cur _ _ _ _ Hok)). by rewrite (bind_ok _ _ _ _ _ R1). }
  split; [done|]. split; [by rewrite <- app_assoc in Ok'|]. split; [apply sublist_skip; by apply Hsub|]. split; [done|].
  change (num_ticks (Tick :: e1)) with (S (num_ticks e1)). change (arrivals (Tick :: e1)) with (arrivals e1). lia.
Qed.

Lemma turn_arrive evs k cpu cur l p r ts t w k1 : on_mem (ControlBlock.on_net (Message.manager_send_msg w cpu)) k = Ok (tt, k1) ->
  gets_turn evs k1 cpu cur l p r (ts ++ [t]) -> gets_turn (Arrive w :: evs) k cpu cur l p r ts.
Proof.
  intros R1 (e1 & e2 & k' & y & ws2 & ts2 & -> & R' & C' & Ok' & Sb & B' & Hcnt). exists (Arrive w :: e1), e2, k', y, ws2, ts2.
  split; [done|]. split; [cbn [events]; by rewrite (bind_ok _ _ _ _ _ R1)|]. split; [done|]. split; [done|]. split; [done|]. split; [done|].
  change (num_ticks (Arrive w :: e1)) with (num_ticks e1). change (arrivals (Arrive w :: e1)) with (w :: arrivals e1).
  rewrite length_app in Hcnt. simpl in *. lia.
Qed.

Lemma turn evs : forall k cpu cur l p r ws ts as_, core_ok k cpu cur (l ++ p :: r) -> box_ok k cpu ws ts ->
  Forall2 (carries k) (arrivals evs) as_ -> fair_ready k cpu cur (l ++ p :: r) ts as_ ->
  (S (length l) + length ts + length (arrivals evs) <= num_ticks evs)%nat -> gets_turn evs k cpu cur l p r ts.
Proof.
  induction evs as [|[|w] evs IH]; intros k cpu cur l p r ws ts as_ Hok Hbx Has Hf Hn; [simpl in Hn; lia| |].
  - pose proof Hf as [Hrd Hnd Hi]. unfold places in Hnd, Hi. rewrite app_assoc, app_comm_cons in Hnd. apply list.NoDup_app in Hnd as [Hnd _].
    pose proof (tick_ok k cpu cur _ ws ts Hok Hbx (fun t Ht => Hrd t ltac:(set_solver)) Hnd) as Ht. unfold next_view in Ht.
    rewrite (proj2 (Z.eqb_neq cur (idle_thr k cpu))) in Ht by set_solver.
    change (num_ticks (Tick :: evs)) with (S (num_ticks evs)) in Hn. change (arrivals (Tick :: evs)) with (arrivals evs) in *.
    destruct ts as [|t ts]; [destruct l as [|x l]|]; destruct Ht as (k1 & R1 & Hok1 & (ws' & B1) & K1 & I1); try rewrite <- app_assoc in Hok1.
    + exists [Tick], evs, k1, [cur], ws', []. split; [done|]. split; [|split; [apply Hok1|done]].
      cbn [events]. rewrite (bind_ok _ _ k cur k) by (unfold get_current_running_thr; by rewrite (co_cur _ _ _ _ Hok)). by rewrite (bind_ok _ _ _ _ _ R1).
    + apply (turn_tick _ _ _ _ _ _ _ _ x l [] k1 Hok R1); [|done|simpl; lia].
      apply (IH _ _ _ _ _ _ _ _ as_ Hok1 B1); [by apply (keeps_carry k)| |simpl in *; lia].
      apply (fair_ready_perm k _ _ cur _ _ _ _ _ _ Hok Hf K1 I1). unfold places. rewrite !app_nil_r. simpl. solve_Permutation.
    + apply (turn_tick _ _ _ _ _ _ _ _ t l ts k1 Hok R1); [|intros z Hz; etrans; [|exact Hz]; by apply sublist_cons|simpl; lia].
      apply (IH _ _ _ _ _ _ _ _ as_ Hok1 B1); [by apply (keeps_carry k)| |simpl in *; lia].
      apply (fair_ready_perm k _ _ cur _ _ _ _ _ _ Hok Hf K1 I1). unfold places. simpl. solve_Permutation.
  - destruct as_ as [|t as_]; [by apply Forall2_nil_inv_r in Has|]. apply Forall2_cons_1 in Has as [Hw Has].
    destruct (arrive_ok k cpu cur _ ws ts w t Hok Hbx Hw) as (k1 & R1 & Hok1 & B1 & K1 & I1). apply (turn_arrive _ _ _ _ _ _ _ _ t _ k1 R1).
    apply (IH _ _ _ _ _ _ _ _ as_ Hok1 B1); [by apply (keeps_carry k)| |rewrite length_app; simpl in *; lia].
    destruct Hf as [H1 H2 H3]. split; rewrite <- app_assoc; [|done|by rewrite I1]. intros u Hu. by apply K1, H1.
Qed.


(** ** Blocking and waking *)

(** Changing the state of a thread to one that is not [BLOCKED]. *)
(** What a context switch leaves alone. *)
Record same_sys (k k' : kernel) : Prop := {
  ss_net : net (mem k') = net (mem k);
  ss_pcbs : pcbs (mem k') = pcbs (mem k);
  ss_idle : idle_thr k' = idle_thr k;
  ss_zombie : zombie_lists k' = zombie_lists k /\ zombie_list_locks k' = zombie_list_locks k /\ malloc_locks k' = malloc_locks k;
  ss_deschedule : deschedule_queues k' = deschedule_queues k /\ deschedule_mutexs k' = deschedule_mutexs k;
  ss_sleep : sleep_queue k' = sleep_queue k /\ apic_num_ticks k' = apic_num_ticks k
}.

Lemma ready_upd k p t f x : tcbs (mem k) !! p = Some t -> (state (f t) <> BLOCKED \/ x <> p) ->
  ready k x -> ready (with_mem (with_tcbs (<[p := f t]> (tcbs (mem k))) (mem k)) k) x.
Proof.
  intros Hp Hf (H0 & u & Hu & Hs). split; [done|]. simpl. destruct (decide (x = p)) as [->|Hne].
  - rewrite lookup_insert_eq. eexists. split; [done|]. by destruct Hf.
  - rewrite lookup_insert_ne by done. eauto.
Qed.

(** The thread in state [NORMAL] blocks: the core runs the next ready thread, or
    the idle thread. *)
Lemma block_run k cpu cur q t : core_ok k cpu cur q -> tcbs (mem k) !! cur = Some t -> state t = NORMAL ->
  (q = [] -> cur <> idle_thr k cpu) -> cur <> idle_thr k cpu ->
  let '(n, q') := match q with [] => (idle_thr k cpu, []) | p :: q' => (p, q') end in
  exists k', switch cpu OP_BLOCK 0 cur k = Ok (inl n, k') /\ core_ok k' cpu n q' /\
    tcbs (mem k') = <[cur := set_state BLOCKED t]> (tcbs (mem k)) /\ same_sys k k'.
Proof.
  intros Hok Ht Hs _ Hci. pose proof Hok as [Q C N R I S]. apply list.NoDup_cons in N as [Nc N].
  set (k1 := with_spin (fupd (spin k) cpu true) k).
  set (k2 := with_mem (with_tcbs (<[cur := set_state BLOCKED t]> (tcbs (mem k1))) (mem k1)) k1).
  assert (Hpre : forall n k', run_next cpu cur k2 = Ok (n, k') ->
    switch cpu OP_BLOCK 0 cur k = Ok (inl n, with_spin (fupd (spin k') cpu false) k')).
  { intros n k' Hn. apply switch_run, lift_run. unfold op_block. rewrite (bind_ok _ _ _ _ _ (lock_run _ _ S)). fold k1.
    rewrite (bind_ok _ _ _ _ _ (rd_tcb_run k1 cur t Ht)), Hs. rewrite (bind_ok _ _ _ _ _ (upd_tcb_run k1 cur t _ Ht)). exact Hn. }
  pose proof (dequeue_run k2 cpu q Q) as Hd.
  assert (Hi : ready k2 (idle_thr k cpu)) by (apply (ready_upd k1); [done|by right|exact I]).
  destruct q as [|p q]; eexists; (split; [apply Hpre; unfold run_next, scheduler_block; rewrite (bind_ok _ _ _ _ _ Hd)|split]).
  - cbn [Z.eqb]. rewrite (bind_ok (idle_of cpu) _ k2 (idle_thr k cpu) k2 eq_refl).
    rewrite (proj2 (Z.eqb_neq cur (idle_thr k cpu)) Hci), (proj2 (Z.eqb_neq _ 0) (proj1 I)). reflexivity.
  - apply core_unlocked; simpl; [exact Q|apply fupd_eq|apply NoDup_singleton| |exact Hi].
    intros x ->%list_elem_of_singleton. exact Hi.
  - split; [done|by split].
  - destruct (R p ltac:(set_solver)) as [Hp0 _]. rewrite (proj2 (Z.eqb_neq p 0) Hp0). reflexivity.
  - apply core_unlocked; simpl; [apply lookup_insert_eq|apply fupd_eq|exact N| |exact Hi].
    intros x Hx. apply (ready_upd k1); [done|right; intros ->; done|apply R; set_solver].
  - split; [done|by split].
Qed.

(** A thread that has been woken before it blocks goes on running. *)
Lemma block_woken_run k cpu cur q t : core_ok k cpu cur q -> tcbs (mem k) !! cur = Some t ->
  state t = MADE_RUNNABLE \/ state t = WAKEUP ->
  exists k', switch cpu OP_BLOCK 0 cur k = Ok (inl cur, k') /\ core_ok k' cpu cur q /\
    tcbs (mem k') = <[cur := set_state NORMAL t]> (tcbs (mem k)) /\ same_sys k k'.
Proof.
  intros [Q C N R I S] Ht Hs. set (k1 := with_spin (fupd (spin k) cpu true) k).
  eexists. split; [apply switch_run, lift_run|split].
  - unfold op_block. rewrite (bind_ok _ _ _ _ _ (lock_run _ _ S)). fold k1. rewrite (bind_ok _ _ _ _ _ (rd_tcb_run k1 cur t Ht)).
    assert (Hb : (upd_tcb cur (set_state NORMAL);; mret cur) k1 =
      Ok (cur, with_mem (with_tcbs (<[cur := set_state NORMAL t]> (tcbs (mem k1))) (mem k1)) k1))
      by (by rewrite (bind_ok _ _ _ _ _ (upd_tcb_run k1 cur t _ Ht))).
    destruct Hs as [-> | ->]; exact Hb.
  - apply core_unlocked; simpl; [exact Q|exact C|exact N| |].
    + intros x Hx. apply (ready_upd k1); [done|by left|by apply R].
    + apply (ready_upd k1); [done|by left|exact I].
  - split; [done|by split].
Qed.

(** [OP_BLOCK], in every state of the calling thread: it leaves the processor to
    the next ready thread, or to the idle thread; unless it has been woken in the
    meantime, in which case it keeps the processor; blocking twice panics. *)
Theorem block_correct k cpu cur q t :
  core_ok k cpu cur q -> tcbs (mem k) !! cur = Some t -> cur <> idle_thr k cpu ->
  match state t with
  | NORMAL => exists n q' k', switch cpu OP_BLOCK 0 cur k = Ok (inl n, k') /\ core_ok k' cpu n q' /\
      n :: q' = (match q with [] => [idle_thr k cpu] | _ => q end) /\
      tcbs (mem k') = <[cur := set_state BLOCKED t]> (tcbs (mem k))
  | MADE_RUNNABLE | WAKEUP => exists k', switch cpu OP_BLOCK 0 cur k = Ok (inl cur, k') /\ core_ok k' cpu cur q /\
      tcbs (mem k') = <[cur := set_state NORMAL t]> (tcbs (mem k))
  | BLOCKED => switch cpu OP_BLOCK 0 cur k = Panic
  end.
Proof.
  intros Hok Ht Hci. destruct (state t) eqn:Hs.
  - pose proof (block_run k cpu cur q t Hok Ht Hs (fun _ => Hci) Hci) as H.
    destruct q as [|p q]; destruct H as (k' & H1 & H2 & H3 & _); eexists _, _, k'; done.
  - destruct Hok as [Q C N R I S]. destruct (R cur ltac:(set_solver)) as (_ & u & Hu & Hb). congruence.
  - destruct (block_woken_run k cpu cur q t Hok Ht (or_introl Hs)) as (k' & H1 & H2 & H3 & _). eauto.
  - destruct (block_woken_run k cpu cur q t Hok Ht (or_intror Hs)) as (k' & H1 & H2 & H3 & _). eauto.
Qed.

Lemma make_runnable_blocked k cpu cur q p t : core_ok k cpu cur q -> tcbs (mem k) !! p = Some t -> p <> 0 -> state t = BLOCKED ->
  exists k', switch cpu OP_MAKE_RUNNABLE p cur k = Ok (inl cur, k') /\ core_ok k' cpu cur (q ++ [p]) /\
    tcbs (mem k') = <[p := set_state NORMAL t]> (tcbs (mem k)) /\ same_sys k k'.
Proof.
  intros [Q C N R I S] Ht Hp0 Hs. set (k1 := with_spin (fupd (spin k) cpu true) k).
  assert (Hp : p ∉ cur :: q) by (intros Hp; destruct (R p Hp) as (_ & u & Hu & Hb); congruence).
  set (k2 := with_mem (with_tcbs (<[p := set_state NORMAL t]> (tcbs (mem k1))) (mem k1)) k1).
  assert (Hr : forall x, ready k x -> ready k2 x) by (intros x; apply (ready_upd k1); [done|by left]).
  eexists. split; [apply switch_run, lift_run|split].
  - unfold op_make_runnable. cbv zeta. rewrite (proj2 (Z.eqb_neq p 0) Hp0), (bind_ok _ _ _ _ _ (lock_run _ _ S)). fold k1.
    rewrite (bind_ok _ _ _ _ _ (rd_tcb_run k1 p t Ht)), Hs, (bind_ok _ _ _ _ _ (upd_tcb_run k1 p t _ Ht)).
    rewrite (bind_ok _ _ _ _ _ (ready_enqueue_run k2 cpu q p (set_state NORMAL t) Q (lookup_insert_eq _ _ _))). reflexivity.
  - apply core_unlocked; simpl; [apply lookup_insert_eq|exact C| | |by apply Hr].
    + rewrite app_comm_cons. apply list.NoDup_app. split; [done|]. split; [|apply NoDup_singleton]. by intros x Hx ->%list_elem_of_singleton.
    + intros x. rewrite app_comm_cons, elem_of_app, list_elem_of_singleton. intros [Hx | ->]; [by apply Hr, R|].
      split; [done|]. simpl. exists (set_state NORMAL t). by rewrite lookup_insert_eq.
  - split; [done|by split].
Qed.

(** [OP_MAKE_RUNNABLE] puts a blocked thread at the end of the ready queue and
    leaves a mark for a thread that has not blocked yet, so that [block_correct]
    lets that thread run on: no wake-up is lost.  A second wake-up panics. *)
Theorem make_runnable_correct k cpu cur q p t :
  core_ok k cpu cur q -> tcbs (mem k) !! p = Some t -> p <> 0 ->
  match state t with
  | BLOCKED => exists k', switch cpu OP_MAKE_RUNNABLE p cur k = Ok (inl cur, k') /\ core_ok k' cpu cur (q ++ [p]) /\
      tcbs (mem k') = <[p := set_state NORMAL t]> (tcbs (mem k))
  | NORMAL => exists k', switch cpu OP_MAKE_RUNNABLE p cur k = Ok (inl cur, k') /\ core_ok k' cpu cur q /\
      tcbs (mem k') = <[p := set_state MADE_RUNNABLE t]> (tcbs (mem k))
  | MADE_RUNNABLE | WAKEUP => switch cpu OP_MAKE_RUNNABLE p cur k = Panic
  end.
Proof.
  intros Hok Ht Hp0.
  destruct (state t) eqn:Hs; [|destruct (make_runnable_blocked k cpu cur q p t Hok Ht Hp0 Hs) as (k' & H1 & H2 & H3 & _); by eauto| |]; destruct Hok as [Q C N R I S];
    set (k1 := with_spin (fupd (spin k) cpu true) k).
  - eexists. split; [apply switch_run, lift_run|split].
    + unfold op_make_runnable. cbv zeta. rewrite (proj2 (Z.eqb_neq p 0) Hp0), (bind_ok _ _ _ _ _ (lock_run _ _ S)). fold k1.
      rewrite (bind_ok _ _ _ _ _ (rd_tcb_run k1 p t Ht)), Hs, (bind_ok _ _ _ _ _ (upd_tcb_run k1 p t _ Ht)). reflexivity.
    + apply core_unlocked; simpl; [exact Q|exact C|exact N| |].
      * intros x Hx. apply (ready_upd k1); [done|by left|by apply R].
      * apply (ready_upd k1); [done|by left|exact I].
    + done.
  - unfold asm_context_switch, context_switch_get_next, op_make_runnable. cbv zeta. rewrite (proj2 (Z.eqb_neq p 0) Hp0).
    munfold. rewrite (lock_run _ _ S). fold k1. by rewrite (rd_tcb_run k1 p t Ht), Hs.
  - unfold asm_context_switch, context_switch_get_next, op_make_runnable. cbv zeta. rewrite (proj2 (Z.eqb_neq p 0) Hp0).
    munfold. rewrite (lock_run _ _ S). fold k1. by rewrite (rd_tcb_run k1 p t Ht), Hs.
Qed.

Lemma resume_run k cpu cur q p t :
  core_ok k cpu cur q -> tcbs (mem k) !! p = Some t -> p <> 0 -> state t = BLOCKED ->
  exists k', switch cpu OP_RESUME p cur k = Ok (inl p, k') /\ core_ok k' cpu p (q ++ [cur]) /\
    tcbs (mem k') = <[p := set_state NORMAL t]> (tcbs (mem k)) /\ same_sys k k'.
Proof.
  intros [Q C N R I S] Ht Hp0 Hs. set (k1 := with_spin (fupd (spin k) cpu true) k).
  assert (Hp : p ∉ cur :: q) by (intros Hp; destruct (R p Hp) as (_ & u & Hu & Hb); congruence).
  destruct (R cur ltac:(set_solver)) as (_ & tc & Htc & _).
  set (k2 := with_queues (<[cpu := q ++ [cur]]> (queues k1)) k1).
  set (k3 := with_mem (with_tcbs (<[p := set_state NORMAL t]> (tcbs (mem k2))) (mem k2)) k2).
  assert (Hr : forall x, ready k x -> ready k3 x) by (intros x; apply (ready_upd k2); [done|by left]).
  eexists. split; [apply switch_run, lift_run|split].
  - unfold op_resume. cbv zeta. rewrite (bind_ok _ _ _ _ _ (lock_run _ _ S)). fold k1.
    rewrite (bind_ok _ _ _ _ _ (ready_enqueue_run k1 cpu q cur tc Q Htc)). fold k2.
    rewrite (bind_ok _ _ _ _ _ (rd_tcb_run k2 p t Ht)), Hs, (bind_ok _ _ _ _ _ (upd_tcb_run k2 p t _ Ht)). reflexivity.
  - apply core_unlocked; simpl; [apply lookup_insert_eq|apply fupd_eq| | |by apply Hr].
    + apply not_elem_of_cons in Hp as [Hpc Hpq]. apply list.NoDup_cons in N as [Nc N]. apply NoDup_cons_2; [set_solver|].
      apply list.NoDup_app. split; [done|]. split; [|apply NoDup_singleton]. by intros x Hx ->%list_elem_of_singleton.
    + intros x. rewrite elem_of_cons, elem_of_app, list_elem_of_singleton. intros [->|[Hx| ->]]; [|apply Hr, R; set_solver..].
      split; [done|]. simpl. exists (set_state NORMAL t). by rewrite lookup_insert_eq.
  - split; [done|by split].
Qed.

(** [OP_RESUME] switches to a blocked thread at once; the running thread becomes
    the last of the ready queue. *)
Theorem resume_correct k cpu cur q p t :
  core_ok k cpu cur q -> tcbs (mem k) !! p = Some t -> p <> 0 -> state t = BLOCKED ->
  exists k', switch cpu OP_RESUME p cur k = Ok (inl p, k') /\ core_ok k' cpu p (q ++ [cur]) /\
    tcbs (mem k') = <[p := set_state NORMAL t]> (tcbs (mem k)).
Proof. intros Hok Ht Hp0 Hs. destruct (resume_run k cpu cur q p t Hok Ht Hp0 Hs) as (k' & H1 & H2 & H3 & _). eauto. Qed.
End core.

(** ** The kernel stack of a new thread *)

Lemma w32_shift x d : 0 <= x + d < 2 ^ 32 -> w32 (x + w32 d) = x + d.
Proof. intros H. unfold w32. rewrite Z.add_mod_idemp_r by lia. by apply Z.mod_small. Qed.

(** What the [memcpy] of [internal_thread_fork] leaves, and memory after the
    three words of the copy that point into the stack have been changed. *)
Definition copied (w : Z -> Z) (E d len : Z) : Z -> Z :=
  fun a => if (E + d <=? a) && (a <? E + d + len) then w (a - (E + d) + E) else w a.
Definition relocated (w : Z -> Z) (E d len top F : Z) : Z -> Z :=
  fupd (fupd (fupd (copied w E d len) (E + d + 12) top) (E + d + 56) (F + d)) (F + d) (w32 (w F + d)).

Lemma copied_in w E d len a : E <= a < E + len -> copied w E d len (a + d) = w a.
Proof. intros Ha. unfold copied. rewrite (proj2 (Z.leb_le _ _)), (proj2 (Z.ltb_lt _ _)) by lia. cbn [andb]. f_equal. lia. Qed.

Lemma copied_out w E d len a : ~ (E + d <= a < E + d + len) -> copied w E d len a = w a.
Proof. intros Ha. unfold copied. destruct (Z.leb_spec (E + d) a), (Z.ltb_spec a (E + d + len)); simpl; try done. lia. Qed.

Lemma relocated_spec w E d len top F : 60 <= len -> E <= F < E + len -> F <> E + 12 -> F <> E + 56 ->
  let w' := relocated w E d len top F in
  w' (E + d + 12) = top /\ w' (E + d + 56) = F + d /\ w' (F + d) = w32 (w F + d) /\
  (forall a, E <= a < E + len -> a <> E + 12 -> a <> E + 56 -> a <> F -> w' (a + d) = w a) /\
  (forall a, ~ (E + d <= a < E + d + len) -> w' a = w a).
Proof.
  intros Hl HF H12 H56 w'. unfold w', relocated. split; [rewrite !fupd_ne, fupd_eq by lia; lia|].
  split; [by rewrite fupd_ne, fupd_eq by lia|]. split; [by rewrite fupd_eq|]. split.
  - intros a Ha ???. rewrite !fupd_ne by lia. by apply copied_in.
  - intros a Ha. rewrite !fupd_ne by lia. by apply copied_out.
Qed.

(** The new thread gets a copy of the caller's kernel stack, at the same place of
    its own stack, in which the saved stack top is its own and the two saved
    frame pointers point into its own stack; nothing else of memory changes. *)
Theorem thread_fork_stack k cpu this t s s' m rest F :
  let E := k_stack_esp t in let d := s' - s in
  tcbs (mem k) !! this = Some t -> this <> ControlBlock.tcb_get_entry s' ->
  ControlBlock.is_stack s -> ControlBlock.is_stack s' -> s <= E -> E + 60 <= s + 8160 ->
  Message.answers (net (mem k)) = s' :: m :: rest -> m <> 0 -> -1 <= id_count (mem k) < 2 ^ 31 - 1 ->
  words k (E + 56) = F -> E <= F < s + 8160 -> F <> E + 12 -> F <> E + 56 ->
  exists k', internal_thread_fork cpu this k = Ok (ControlBlock.tcb_get_entry s', k') /\
    tcbs (mem k') !! ControlBlock.tcb_get_entry s' =
      Some (mk_tcb (E + d) (id_count (mem k) + 1) (pcb t) (junk (mem k)) NORMAL 0 m cpu) /\
    words k' (E + d + 12) = s' + 8160 /\ words k' (E + d + 56) = F + d /\ words k' (F + d) = w32 (words k F + d) /\
    (forall a, E <= a < s + 8160 -> a <> E + 12 -> a <> E + 56 -> a <> F -> words k' (a + d) = words k a) /\
    (forall a, ~ (E + d <= a < s' + 8160) -> words k' a = words k a).
Proof.
  intros E d Ht Hne Hs Hs' HE1 HE2 Ha Hm Hid HF HFr HF1 HF2.
  assert (Hin : s <= E < s + K_STACK_SIZE) by (change K_STACK_SIZE with 8192; lia).
  assert (Hin' : s' <= s' < s' + K_STACK_SIZE) by (change K_STACK_SIZE with 8192; lia).
  pose proof (ControlBlock.entry_ok s' s' Hs' Hin') as He'. set (new := ControlBlock.tcb_get_entry s') in *.
  pose proof Hs as (Hs0 & _ & Hsb). pose proof Hs' as (Hs0' & _ & Hsb'). change K_STACK_SIZE with 8192 in Hsb, Hsb'.
  set (mem1 := ControlBlock.created cpu (pcb t) NORMAL s' m rest (mem k)). set (k1 := with_mem mem1 k).
  assert (Hn1 : tcbs (mem k1) !! new = Some (mk_tcb new (id_count (mem k) + 1) (pcb t) (junk (mem k)) NORMAL 0 m cpu)).
  { simpl. by rewrite lookup_insert_eq. }
  assert (Ht1 : tcbs (mem k1) !! this = Some t) by (simpl; by rewrite lookup_insert_ne).
  set (n2 := mk_tcb (E + d) (id_count (mem k) + 1) (pcb t) (junk (mem k)) NORMAL 0 m cpu).
  assert (Hupd : upd_tcb new (set_k_stack_esp (w32 (new - (s + 8160 - E)))) k1 =
    Ok (tt, with_mem (with_tcbs (<[new := n2]> (tcbs (mem k1))) (mem k1)) k1)).
  { rewrite (upd_tcb_run k1 new _ _ Hn1). unfold set_k_stack_esp. simpl. do 7 f_equal. unfold n2. f_equal. rewrite w32_small; lia. }
  set (k2 := with_mem (with_tcbs (<[new := n2]> (tcbs (mem k1))) (mem k1)) k1) in *.
  assert (Hn2 : tcbs (mem k2) !! new = Some n2) by (simpl; by rewrite lookup_insert_eq).
  set (len := s + 8160 - E). set (W := copied (words k) E d len).
  assert (HW56 : W (E + d + 56) = F) by (rewrite <- HF; replace (E + d + 56) with (E + 56 + d) by lia; apply copied_in; lia).
  assert (HWF : W (F + d) = words k F) by (apply copied_in; lia).
  set (W3 := relocated (words k) E d len new F).
  exists (with_words W3 k2). split; [|split; [exact Hn2|]].
  - unfold internal_thread_fork. rewrite (bind_ok _ _ _ _ _ (rd_tcb_run k this t Ht)).
    rewrite (bind_ok _ _ k new k1) by (apply zoom_ok; apply ControlBlock.create_thread_run; [done|lia|done|done]).
    rewrite (proj2 (Z.eqb_neq new 0)) by lia. rewrite (bind_ok _ _ _ _ _ (rd_tcb_run k1 this t Ht1)). cbv zeta. fold E.
    rewrite (bind_ok _ _ _ _ _ (rd_tcb_run k1 new _ Hn1)). simpl k_stack_esp.
    change (ControlBlock.tcb_get_high_addr E) with (ControlBlock.tcb_get_entry E). rewrite (ControlBlock.entry_ok s E Hs Hin).
    rewrite (s32_small (s + 8160 - E)) by lia. rewrite (bind_ok _ _ _ _ _ Hupd).
    rewrite (bind_ok _ _ _ _ _ (rd_tcb_run k2 new n2 Hn2)). simpl k_stack_esp.
    rewrite !(w32_small (E + d + _)) by lia.
    rewrite (bind_ok (memcpy _ _ _) _ k2 tt (with_words W k2) eq_refl).
    rewrite (bind_ok (store _ _) _ (with_words W k2) tt (with_words (fupd W (E + d + 12) new) k2) eq_refl).
    rewrite (bind_ok (load _) _ _ F (with_words (fupd W (E + d + 12) new) k2)) by (unfold load; simpl; rewrite fupd_ne by lia; by rewrite HW56).
    replace (E + d - E) with d by lia. rewrite (w32_shift F d) by lia.
    rewrite (bind_ok (store (E + d + 56) (F + d)) _ (with_words (fupd W (E + d + 12) new) k2) tt
      (with_words (fupd (fupd W (E + d + 12) new) (E + d + 56) (F + d)) k2) eq_refl).
    unfold get_last_ebp. rewrite (bind_ok (load _) _ _ (F + d) (with_words (fupd (fupd W (E + d + 12) new) (E + d + 56) (F + d)) k2))
      by (unfold load; simpl; by rewrite fupd_eq).
    rewrite (bind_ok (load _) _ _ (words k F) (with_words (fupd (fupd W (E + d + 12) new) (E + d + 56) (F + d)) k2))
      by (unfold load; simpl; rewrite !fupd_ne by lia; by rewrite HWF).
    replace (w32 (words k F + w32 d)) with (w32 (words k F + d)) by (unfold w32; by rewrite Z.add_mod_idemp_r).
    reflexivity.
  - destruct (relocated_spec (words k) E d len new F) as (R1 & R2 & R3 & R4 & R5); [lia..|].
    split; [exact (eq_trans R1 He')|]. split; [exact R2|]. split; [exact R3|].
    split; [intros a Hra; apply R4; lia|intros a Hra; apply R5; lia].
Qed.

(** ** Reaping a vanished thread *)

Definition free_mutex : Mutex.mutex_t := Mutex.mk_mutex (-1) [].

Lemma vanish_is_free thr : ControlBlock.tcb_vanish_thread thr = ControlBlock.tcb_free_thread thr.
Proof. reflexivity. Qed.

Lemma try_lock_run getl setl cpu me k : getl k !! cpu = Some free_mutex ->
  try_lock getl setl cpu me k = Ok (0, setl (<[cpu := Mutex.mk_mutex me []]> (getl k)) k).
Proof. intros H. unfold try_lock. by rewrite H. Qed.

Lemma unlock_run getl setl cpu me k : 0 <= me -> getl k !! cpu = Some (Mutex.mk_mutex me []) ->
  unlock getl setl cpu me k = Ok (tt, setl (<[cpu := free_mutex]> (getl k)) k).
Proof.
  intros Hm H. unfold unlock. rewrite H. unfold Mutex.unlock_section. simpl.
  rewrite (proj2 (Z.eqb_neq me (-2))), (proj2 (Z.eqb_neq me (-1))) by lia. done.
Qed.

(** The running thread takes the oldest vanished thread of its core.  It frees
    it only when that thread is another one and has really given up the
    processor; else the thread goes back into the list.  Both locks are free
    again, and nothing happens when one of them is taken. *)
Theorem reap_zombie_correct k cpu this t z zt zs s :
  0 < this -> zombie_lists k !! cpu = Some (z :: zs) -> z <> 0 ->
  zombie_list_locks k !! cpu = Some free_mutex -> malloc_locks k !! cpu = Some free_mutex ->
  ControlBlock.kmem_ok (mem k) -> tcbs (mem k) !! this = Some t -> tcbs (mem k) !! z = Some zt ->
  s ∈ stacks (mem k) -> z = ControlBlock.tcb_get_entry s -> s <= k_stack_esp zt < s + K_STACK_SIZE -> swexn_struct zt = 0 ->
  exists k', reap_zombie cpu this k = Ok (tt, k') /\
    zombie_list_locks k' !! cpu = Some free_mutex /\ malloc_locks k' !! cpu = Some free_mutex /\
    if (tid t =? tid zt) || negb (bool_decide (state zt = BLOCKED))
    then mem k' = mem k /\ zombie_lists k' !! cpu = Some (zs ++ [z])
    else tcbs (mem k') = delete z (tcbs (mem k)) /\ stacks (mem k') = stacks (mem k) ∖ {[s]} /\
         ControlBlock.kmem_ok (mem k') /\ zombie_lists k' !! cpu = Some zs.
Proof.
  intros H0 Hzl Hz0 Hl1 Hl2 Hk Ht Hz Hs Hze Hzr Hsw.
  set (k1 := with_zombie_list_locks (<[cpu := Mutex.mk_mutex this []]> (zombie_list_locks k)) k).
  set (k2 := with_malloc_locks (<[cpu := Mutex.mk_mutex this []]> (malloc_locks k1)) k1).
  set (k3 := with_zombie_lists (<[cpu := zs]> (zombie_lists k2)) k2).
  set (c := (tid t =? tid zt) || negb (bool_decide (state zt = BLOCKED))).
  assert (Hbody : exists k4, (if c then put_next_zombie cpu z;; mret tt else on_mem (ControlBlock.tcb_vanish_thread z)) k3 = Ok (tt, k4) /\
    zombie_list_locks k4 = zombie_list_locks k2 /\ malloc_locks k4 = malloc_locks k2 /\
    if c then mem k4 = mem k /\ zombie_lists k4 !! cpu = Some (zs ++ [z])
    else tcbs (mem k4) = delete z (tcbs (mem k)) /\ stacks (mem k4) = stacks (mem k) ∖ {[s]} /\
      ControlBlock.kmem_ok (mem k4) /\ zombie_lists k4 !! cpu = Some zs).
  { destruct c.
    - eexists. split; [|split; [|split]].
      + unfold put_next_zombie. rewrite (bind_ok _ _ k3 0 (with_zombie_lists (<[cpu := zs ++ [z]]> (zombie_lists k3)) k3)); [reflexivity|].
        rewrite (bind_ok get _ k3 k3 k3 eq_refl). erewrite bind_ok by (simpl; by rewrite lookup_insert_eq). done.
      + done. + done. + simpl. by rewrite lookup_insert_eq.
    - rewrite vanish_is_free. destruct (ControlBlock.free_thread_correct (mem k) z zt s Hk Hz Hs Hze Hzr) as (m' & Rm & Hm & E1 & E2 & _);
        [by intros []|]. eexists. split; [apply zoom_ok; exact Rm|]. simpl. by rewrite lookup_insert_eq. }
  destruct Hbody as (k4 & R4 & Ea & Eb & Hres).
  set (k5 := with_malloc_locks (<[cpu := free_mutex]> (malloc_locks k4)) k4).
  exists (with_zombie_list_locks (<[cpu := free_mutex]> (zombie_list_locks k5)) k5).
  split; [|split; [|split; [|destruct c; exact Hres]]].
  - unfold reap_zombie. rewrite (bind_ok _ _ _ _ _ (try_lock_run _ _ cpu this k Hl1)). cbn [Z.ltb Z.compare].
    rewrite (bind_ok _ _ k1 0 k2) by (by apply try_lock_run). cbn [Z.ltb Z.compare].
    rewrite (bind_ok (get_next_zombie cpu) _ k2 z k3).
    2:{ unfold get_next_zombie. rewrite (bind_ok get _ k2 k2 k2 eq_refl). erewrite bind_ok by (simpl; by rewrite Hzl). done. }
    rewrite (proj2 (Z.eqb_neq z 0) Hz0). cbn [negb].
    rewrite (bind_ok _ _ k3 tt k4).
    2:{ rewrite (bind_ok _ _ _ _ _ (rd_tcb_run k3 z zt Hz)), (bind_ok _ _ _ _ _ (rd_tcb_run k3 this t Ht)). exact R4. }
    rewrite (bind_ok _ _ k4 tt k5).
    2:{ apply unlock_run; [lia|]. rewrite Eb. simpl. apply lookup_insert_eq. }
    apply unlock_run; [lia|]. simpl. rewrite Ea. simpl. apply lookup_insert_eq.
  - simpl. apply lookup_insert_eq.
  - simpl. apply lookup_insert_eq.
Qed.

(** ** A core with three threads *)

Definition demo_tcb (s tid : Z) (st : thread_state_t) : tcb_t := mk_tcb (s + 8000) tid 600 0 st 0 100 1.
Definition demo_kmem : kmem :=
  mk_kmem (Message.with_answers [8192 * 9; 500] Message.demo_boot)
    {[16352 := demo_tcb 8192 1 NORMAL; 24544 := demo_tcb 16384 2 NORMAL; 32736 := demo_tcb 24576 3 NORMAL;
      40928 := demo_tcb 32768 4 BLOCKED]}
    {[600 := mk_pcb 1 0 0 0 1 []]} ∅ {[8192; 16384; 24576; 32768]} 5 0.

(** Core 1: thread 2 runs, thread 3 is ready, thread 4 is blocked; thread 1 is the
    idle thread. *)
Definition demo_kernel : kernel :=
  mk_kernel demo_kmem (fun _ => 0) {[1 := [32736]]} (fun _ => 16352) (fun _ => 24544) (fun _ => false) (fun _ => 0) (fun _ => 0)
    {[1 := [40928]]} {[1 := free_mutex]} {[1 := free_mutex]} {[1 := []]} {[1 := free_mutex]} {[1 := []]} (fun _ => 0).

Lemma demo_core : core_ok demo_kernel 1 24544 [32736].
Proof.
  assert (Hr : forall p, p = 16352 \/ p = 24544 \/ p = 32736 -> ready demo_kernel p).
  { intros p H. split; [lia|]. destruct H as [->|[->| ->]]; eexists; (split; [vm_compute; reflexivity|done]). }
  split; [done|done| | |apply Hr; by left|done].
  - apply NoDup_cons_2; [|apply NoDup_singleton]. by rewrite list_elem_of_singleton.
  - intros p. rewrite elem_of_cons, list_elem_of_singleton. intros [->| ->]; apply Hr; auto.
Qed.

Definition no_clone : Z -> M kernel Z := fun _ => mret 0.
Definition no_free : Z -> bool -> M kernel unit := fun _ _ => mret tt.

(** The same core with threads 3 and 4 ready; the manager is about to answer a
    request of thread 5 with message 100. *)
Definition demo_net5 : Message.net := Message.with_msgs {[100 := mk_msg 100 49120 1 RESPONSE 0 0 0 0]} Message.demo_boot.
Definition demo_busy : kernel :=
  with_queues {[1 := [32736; 40928]]} (with_mem (with_tcbs (<[40928 := demo_tcb 32768 4 NORMAL]> (<[49120 := demo_tcb 40960 5 NORMAL]> (tcbs demo_kmem)))
    (with_net demo_net5 demo_kmem)) demo_kernel).

Lemma demo_busy_ready p : p ∈ [16352; 24544; 32736; 40928; 49120] -> ready demo_busy p.
Proof.
  rewrite !elem_of_cons, elem_of_nil. intros H. split; [lia|].
  destruct H as [->|[->|[->|[->|[->|[]]]]]]; eexists; (split; [vm_compute; reflexivity|done]).
Qed.

Lemma demo_busy_core : core_ok demo_busy 1 24544 [32736; 40928].
Proof.
  split; [done|done|apply (bool_decide_unpack _); vm_compute; exact I| |apply demo_busy_ready; set_solver|done].
  intros p Hp. apply demo_busy_ready. set_solver.
Qed.

Lemma demo_busy_box : box_ok demo_busy 1 [] [].
Proof.
  split; [split; vm_compute; congruence| |constructor]. exists ChanSpec.empty. split; [|done]. apply Message.net_rep_msgs; [exact Message.demo_boot_rep|].
  intros m mm H.
  assert (E : Message.msgs Message.demo_boot = {[100 := mk_msg 100 7 1 WAIT 5 0 0 0]}) by (vm_compute; reflexivity). rewrite E in H.
  apply lookup_singleton_Some in H as [<- <-]. eexists. by rewrite lookup_singleton_eq.
Qed.


Lemma block_witness :
  exists n q' k', asm_context_switch no_clone no_free 1 OP_BLOCK 0 24544 demo_kernel = Ok (inl n, k') /\ core_ok k' 1 n q' /\
    n :: q' = [32736] /\ tcbs (mem k') = <[24544 := set_state BLOCKED (demo_tcb 16384 2 NORMAL)]> (tcbs (mem demo_kernel)).
Proof.
  exact (block_correct no_clone no_free demo_kernel 1 24544 [32736] (demo_tcb 16384 2 NORMAL) demo_core ltac:(vm_compute; reflexivity) ltac:(done)).
Defined.

Lemma make_runnable_witness :
  exists k', asm_context_switch no_clone no_free 1 OP_MAKE_RUNNABLE 40928 24544 demo_kernel = Ok (inl 24544, k') /\
    core_ok k' 1 24544 [32736; 40928] /\
    tcbs (mem k') = <[40928 := set_state NORMAL (demo_tcb 32768 4 BLOCKED)]> (tcbs (mem demo_kernel)).
Proof.
  exact (make_runnable_correct no_clone no_free demo_kernel 1 24544 [32736] 40928 (demo_tcb 32768 4 BLOCKED) demo_core
    ltac:(vm_compute; reflexivity) ltac:(done)).
Defined.

Lemma resume_witness :
  exists k', asm_context_switch no_clone no_free 1 OP_RESUME 40928 24544 demo_kernel = Ok (inl 40928, k') /\
    core_ok k' 1 40928 [32736; 24544] /\
    tcbs (mem k') = <[40928 := set_state NORMAL (demo_tcb 32768 4 BLOCKED)]> (tcbs (mem demo_kernel)).
Proof.
  exact (resume_correct no_clone no_free demo_kernel 1 24544 [32736] 40928 (demo_tcb 32768 4 BLOCKED) demo_core
    ltac:(vm_compute; reflexivity) ltac:(done) eq_refl).
Defined.

Lemma demo_stacks s : s = 8192 \/ s = 16384 \/ s = 24576 \/ s = 32768 -> ControlBlock.is_stack s.
Proof. intros H. change ControlBlock.is_stack with (fun k => 0 < k /\ k mod 8192 = 0 /\ k + 8192 <= 2 ^ 32). destruct H as [->|[->|[->| ->]]]; vm_compute; done. Qed.

(** The caller's saved frame pointer points 128 bytes up its stack. *)
Lemma thread_fork_stack_witness :
  let k := with_words (fun a => if a =? 24440 then 24480 else 0) demo_kernel in
  exists k', internal_thread_fork 1 24544 k = Ok (81888, k') /\ words k' 81784 = 81824 /\ words k' 81740 = 81888.
Proof.
  set (k := with_words _ demo_kernel). cbv zeta.
  destruct (thread_fork_stack k 1 24544 (demo_tcb 16384 2 NORMAL) 16384 73728 500 [] 24480) as (k' & R & _ & H1 & H2 & _).
  - vm_compute. reflexivity.
  - vm_compute. discriminate.
  - apply demo_stacks. lia.
  - split; [lia|]. split; [reflexivity|]. change K_STACK_SIZE with 8192. lia.
  - simpl. lia.
  - simpl. lia.
  - reflexivity.
  - lia.
  - simpl. lia.
  - reflexivity.
  - simpl. lia.
  - simpl. lia.
  - simpl. lia.
  - exists k'. exact (conj R (conj H2 H1)).
Defined.

Lemma demo_kmem_ok : ControlBlock.kmem_ok demo_kmem.
Proof.
  assert (Hin : forall p t, tcbs demo_kmem !! p = Some t -> (p = 16352 /\ t = demo_tcb 8192 1 NORMAL) \/ (p = 24544 /\ t = demo_tcb 16384 2 NORMAL) \/
    (p = 32736 /\ t = demo_tcb 24576 3 NORMAL) \/ (p = 40928 /\ t = demo_tcb 32768 4 BLOCKED)).
  { unfold demo_kmem. cbn [tcbs]. intros p t. rewrite !lookup_insert_Some, lookup_singleton_Some. naive_solver. }
  split.
  - intros s. unfold demo_kmem. cbn [stacks]. intros Hs. apply demo_stacks. set_solver.
  - intros p t Hp. destruct (Hin p t Hp) as [[-> ->]|[[-> ->]|[[-> ->]|[-> ->]]]];
      [exists 8192|exists 16384|exists 24576|exists 32768]; (split; [unfold demo_kmem; cbn [stacks]; set_solver|]);
      (split; [vm_compute; reflexivity|]); simpl; change K_STACK_SIZE with 8192; lia.
  - intros p t Hp. destruct (Hin p t Hp) as [[-> ->]|[[-> ->]|[[-> ->]|[-> ->]]]]; simpl; lia.
  - intros p q t u Hp Hq. destruct (Hin p t Hp) as [[-> ->]|[[-> ->]|[[-> ->]|[-> ->]]]], (Hin q u Hq) as [[-> ->]|[[-> ->]|[[-> ->]|[-> ->]]]]; simpl; lia.
  - simpl. lia.
Qed.

Lemma reap_zombie_witness :
  exists k', reap_zombie 1 24544 demo_kernel = Ok (tt, k') /\ tcbs (mem k') = delete 40928 (tcbs (mem demo_kernel)).
Proof.
  destruct (reap_zombie_correct demo_kernel 1 24544 (demo_tcb 16384 2 NORMAL) 40928 (demo_tcb 32768 4 BLOCKED) [] 32768
    ltac:(lia) eq_refl ltac:(done) eq_refl eq_refl demo_kmem_ok ltac:(vm_compute; reflexivity) ltac:(vm_compute; reflexivity))
    as (k' & R & _ & _ & H).
  - unfold demo_kernel, demo_kmem. cbn [mem stacks]. set_solver.
  - vm_compute. reflexivity.
  - simpl. change K_STACK_SIZE with 8192. lia.
  - reflexivity.
  - exists k'. exact (conj R (proj1 H)).
Defined.

(** [OP_RESUME] also switches to a thread that has not blocked yet, which is what
    the timer does to a thread preempted between entering the sleep queue and
    blocking: the thread then runs while it is still in the ready queue. *)
Theorem resume_before_block_runs_twice :
  match asm_context_switch no_clone no_free 1 OP_RESUME 32736 24544 demo_kernel with
  | Ok (inl n, k') => n = 32736 /\ cur_running_thr k' 1 = 32736 /\ queues k' !! 1 = Some [32736; 24544]
  | _ => False
  end.
Proof. vm_compute. done. Qed.

(** [asm_context_switch] always releases the core's spinlock, also when
    [context_switch_get_next] returns the calling thread without having taken it:
    a yield to a thread that does not exist releases it twice. *)
Theorem failed_yield_keeps_lock_free :
  match context_switch_get_next no_clone no_free 1 OP_YIELD 77 24544 demo_kernel with
  | Ok (inl n, k') => n = 24544 /\ spin k' 1 = false /\
      (result <$> tcbs (mem k') !! 24544) = Some ETHREAD
  | _ => False
  end.
Proof. vm_compute. done. Qed.
End ContextSwitch.
