(* ===== verification/Console.v ===== *)
(** * The console (src/kern/console_driver.c)

    Video memory holds 25 rows of 80 cells of two bytes, a character and its
    colour.  An access outside it is a [Fault].  The hardware cursor is the pair
    of CRT controller registers that [set_hardware_cursor] writes. *)

From S2P Require Import Prelude.
From Stdlib Require Import ZArith Lia.
From stdpp Require Import base list tactics numbers.

#[local] Open Scope Z_scope.

(** ** What a terminal does *)
Module TermSpec.
Record term := mk_term { cell : Z -> Z -> Z * Z; row : Z; col : Z; color : Z }.

Definition write (r c : Z) (v : Z * Z) (t : term) : term :=
  mk_term (fun r' c' => if (r' =? r) && (c' =? c) then v else cell t r' c') (row t) (col t) (color t).
Definition move (r c : Z) (t : term) : term := mk_term (cell t) r c (color t).
(** Every row moves up by one and the last row becomes blank. *)
Definition scroll (t : term) : term :=
  mk_term (fun r c => if r =? 24 then (32, color t) else cell t (r + 1) c) (row t) (col t) (color t).
Definition newline (t : term) : term :=
  if row t =? 24 then move 24 0 (scroll t) else move (row t + 1) 0 t.

(** One character: newline, carriage return, backspace or a printed one. *)
Definition putc (ch : Z) (t : term) : term :=
  if ch =? 10 then newline t
  else if ch =? 13 then move (row t) 0 t
  else if ch =? 8 then
    if 0 <? col t then write (row t) (col t - 1) (32, color t) (move (row t) (col t - 1) t) else t
  else
    let t' := write (row t) (col t) (ch, color t) t in
    if col t =? 79 then newline t' else move (row t) (col t + 1) t'.
End TermSpec.

Module Console.

Definition CONSOLE_WIDTH : Z := 80.
Definition CONSOLE_HEIGHT : Z := 25.

(** [vmem i] is the byte at [CONSOLE_MEM_BASE + i]; [lsb] and [msb] are the two
    cursor registers of the CRT controller. *)
Record console := mk_console {
  vmem : Z -> Z; term_color : Z; logical_cursor : Z; is_hidden : Z; lsb : Z; msb : Z }.

Definition with_vmem x c := mk_console x (term_color c) (logical_cursor c) (is_hidden c) (lsb c) (msb c).
Definition with_color x c := mk_console (vmem c) x (logical_cursor c) (is_hidden c) (lsb c) (msb c).
Definition with_cursor x c := mk_console (vmem c) (term_color c) x (is_hidden c) (lsb c) (msb c).
Definition with_hidden x c := mk_console (vmem c) (term_color c) (logical_cursor c) x (lsb c) (msb c).
Definition with_hw l m c := mk_console (vmem c) (term_color c) (logical_cursor c) (is_hidden c) l m.

Definition L2P (row col : Z) : Z := row * CONSOLE_WIDTH + col.
Definition P2R (offset : Z) : Z := Z.quot offset CONSOLE_WIDTH.
Definition P2C (offset : Z) : Z := Z.rem offset CONSOLE_WIDTH.
Definition CHECK_COLOR (color : Z) : bool := Z.land (w32 color) 4294967040 =? 0.
Definition CHECK_ROW (row : Z) : bool := (0 <=? row) && (row <? CONSOLE_HEIGHT).
Definition CHECK_COL (col : Z) : bool := (0 <=? col) && (col <? CONSOLE_WIDTH).

(** A [char] is a byte; as an [int] it is sign extended. *)
Definition u8 (x : Z) : Z := x mod 256.
Definition s8 (x : Z) : Z := if u8 x <? 128 then u8 x else u8 x - 256.
Definition u16 (x : Z) : Z := x mod 65536.

Definition in_vmem (i : Z) : bool := (0 <=? i) && (i <? 4000).
Definition vget (i : Z) : M console Z := fun c => if in_vmem i then Ok (vmem c i, c) else Fault.
Definition vput (i v : Z) : M console unit := fun c =>
  if in_vmem i then Ok (tt, with_vmem (fupd (vmem c) i (u8 v)) c) else Fault.

Definition set_hardware_cursor (offset : Z) : M console unit := modify (with_hw (u8 offset) (u8 (Z.shiftr offset 8))).

Definition init_console_driver : M console unit :=
  color ← vget 1;
  modify (with_color color);;
  modify (fun c => with_cursor (Z.lor (Z.shiftl (msb c) 8) (lsb c)) c);;
  modify (with_hidden 0).

(** The two loops of [scrollup]. *)
Fixpoint scroll_copy (n : nat) (i : Z) : M console unit :=
  match n with
  | O => mret tt
  | S n =>
      v ← vget (i + CONSOLE_WIDTH * 2); vput i v;;
      v ← vget (i + 1 + CONSOLE_WIDTH * 2); vput (i + 1) v;;
      scroll_copy n (i + 2)
  end.
Fixpoint blank (n : nat) (i : Z) : M console unit :=
  match n with
  | O => mret tt
  | S n => vput i 32;; c ← get; vput (i + 1) (term_color c);; blank n (i + 2)
  end.
Definition scrollup : M console unit :=
  scroll_copy (Z.to_nat ((CONSOLE_HEIGHT - 1) * CONSOLE_WIDTH)) 0;;
  blank (Z.to_nat CONSOLE_WIDTH) ((CONSOLE_HEIGHT - 1) * CONSOLE_WIDTH * 2).

Definition set_logical (x : Z) : M console unit := modify (with_cursor (u16 x)).

Definition putbyte (ch : Z) : M console Z :=
  c ← get;
  let offset := logical_cursor c in
  (if ch =? 10 then
     if P2R offset =? CONSOLE_HEIGHT - 1 then scrollup;; set_logical (L2P (P2R offset) 0)
     else set_logical (L2P (P2R offset + 1) 0)
   else if ch =? 13 then set_logical (L2P (P2R offset) 0)
   else if ch =? 8 then
     if 0 <? P2C offset then
       let offset := u16 (offset - 1) in
       set_logical offset;;
       vput (2 * offset) 32;;
       vput (2 * offset + 1) (term_color c)
     else mret tt
   else
     vput (2 * offset) ch;;
     vput (2 * offset + 1) (term_color c);;
     if offset =? CONSOLE_HEIGHT * CONSOLE_WIDTH - 1 then scrollup;; set_logical (L2P (P2R offset) 0)
     else set_logical (offset + 1));;
  c ← get;
  (if is_hidden c =? 0 then set_hardware_cursor (logical_cursor c) else mret tt);;
  mret (s8 ch).

(** [s] gives the bytes of the string; [null] is [s == NULL]. *)
Fixpoint putbytes_loop (n : nat) (s : Z -> Z) (i : Z) : M console unit :=
  match n with
  | O => mret tt
  | S n => putbyte (s i);; putbytes_loop n s (i + 1)
  end.
Definition putbytes (null : bool) (s : Z -> Z) (len : Z) : M console unit :=
  if null then mret tt else putbytes_loop (Z.to_nat len) s 0.

Definition draw_char (row col ch color : Z) : M console unit :=
  if negb (CHECK_ROW row && CHECK_COL col && CHECK_COLOR color) then mret tt
  else
    let offset := row * CONSOLE_WIDTH + col in
    vput (2 * offset) ch;; vput (2 * offset + 1) (Z.land color 255).

Definition get_char (row col : Z) : M console Z :=
  if negb (CHECK_ROW row && CHECK_COL col) then mret 0
  else v ← vget (2 * (row * CONSOLE_WIDTH + col)); mret (s8 v).

Definition set_term_color (color : Z) : M console Z :=
  if negb (CHECK_COLOR color) then mret (-1) else modify (with_color (u8 color));; mret 0.

Definition get_term_color : M console Z := fun c => Ok (s8 (term_color c), c).

Definition set_cursor (row col : Z) : M console Z :=
  if negb (CHECK_ROW row && CHECK_COL col) then mret (-1)
  else
    set_logical (L2P row col);;
    c ← get;
    (if is_hidden c =? 0 then set_hardware_cursor (logical_cursor c) else mret tt);;
    mret 0.

Definition get_cursor : M console (Z * Z) := fun c => Ok ((P2R (logical_cursor c), P2C (logical_cursor c)), c).

Definition hide_cursor : M console unit :=
  modify (with_hidden 1);; set_hardware_cursor (CONSOLE_WIDTH * CONSOLE_WIDTH).

Definition show_cursor : M console unit :=
  modify (with_hidden 0);; c ← get; set_hardware_cursor (logical_cursor c).

Definition clear_console : M console unit :=
  blank (Z.to_nat (CONSOLE_HEIGHT * CONSOLE_WIDTH)) 0;;
  modify (with_cursor 0);;
  c ← get;
  if is_hidden c =? 0 then set_hardware_cursor 0 else mret tt.

(** ** The screen as a terminal *)

Record term_rep (c : console) (t : TermSpec.term) : Prop := {
  rp_row : 0 <= TermSpec.row t < 25;
  rp_col : 0 <= TermSpec.col t < 80;
  rp_cursor : logical_cursor c = 80 * TermSpec.row t + TermSpec.col t;
  rp_color : term_color c = TermSpec.color t;
  rp_byte : 0 <= term_color c < 256 /\ forall i, 0 <= i < 4000 -> 0 <= vmem c i < 256;
  rp_cell : forall r k, 0 <= r < 25 -> 0 <= k < 80 ->
    TermSpec.cell t r k = (vmem c (2 * (80 * r + k)), vmem c (2 * (80 * r + k) + 1))
}.

Lemma u8_small x : 0 <= x < 256 -> u8 x = x.
Proof. apply Z.mod_small. Qed.
Lemma u16_small x : 0 <= x < 65536 -> u16 x = x.
Proof. apply Z.mod_small. Qed.

Lemma in_vmem_true i : 0 <= i < 4000 -> in_vmem i = true.
Proof. intros H. unfold in_vmem. rewrite (proj2 (Z.leb_le _ _)), (proj2 (Z.ltb_lt _ _)) by lia. done. Qed.
Lemma vget_run c i : 0 <= i < 4000 -> vget i c = Ok (vmem c i, c).
Proof. intros H. unfold vget. by rewrite in_vmem_true. Qed.
Lemma vput_run c i v : 0 <= i < 4000 -> 0 <= v < 256 -> vput i v c = Ok (tt, with_vmem (fupd (vmem c) i v) c).
Proof. intros H Hv. unfold vput. by rewrite in_vmem_true, u8_small. Qed.

Lemma P2R_eq r k : 0 <= r -> 0 <= k < 80 -> P2R (80 * r + k) = r.
Proof.
  intros Hr Hk. unfold P2R, CONSOLE_WIDTH. rewrite Z.quot_div_nonneg by lia. symmetry. apply Z.div_unique with k; lia.
Qed.
Lemma P2C_eq r k : 0 <= r -> 0 <= k < 80 -> P2C (80 * r + k) = k.
Proof.
  intros Hr Hk. unfold P2C, CONSOLE_WIDTH. rewrite Z.rem_mod_nonneg by lia. symmetry. apply Z.mod_unique with r; lia.
Qed.

Definition bytes_ok (f : Z -> Z) : Prop := forall i, 0 <= i < 4000 -> 0 <= f i < 256.

Lemma fupd_bytes f i v : bytes_ok f -> 0 <= v < 256 -> bytes_ok (fupd f i v).
Proof. intros H Hv j Hj. unfold fupd. destruct (j =? i); auto. Qed.

Lemma scroll_copy_run n : forall i c, bytes_ok (vmem c) -> 0 <= i -> i + 2 * Z.of_nat n <= 3840 ->
  exists f, scroll_copy n i c = Ok (tt, with_vmem f c) /\ bytes_ok f /\
    forall j, f j = if (i <=? j) && (j <? i + 2 * Z.of_nat n) then vmem c (j + 160) else vmem c j.
Proof.
  induction n as [|n IH]; intros i c Hb Hi Hn.
  - exists (vmem c). split; [by destruct c|]. split; [done|]. intros j.
    destruct (Z.leb_spec i j), (Z.ltb_spec j (i + 2 * Z.of_nat 0)); simpl; lia || done.
  - set (f1 := fupd (vmem c) i (vmem c (i + 160))). set (f2 := fupd f1 (i + 1) (f1 (i + 1 + 160))).
    assert (Hb1 : bytes_ok f1) by (apply fupd_bytes; [done|apply Hb; lia]).
    assert (Hb2 : bytes_ok f2) by (apply fupd_bytes; [done|apply Hb1; lia]).
    destruct (IH (i + 2) (with_vmem f2 c) Hb2 ltac:(lia) ltac:(lia)) as (f & R & Hf & HF).
    exists f. split; [|split; [done|]].
    + cbn [scroll_copy]. change (CONSOLE_WIDTH * 2) with 160. rewrite (bind_ok _ _ _ _ _ (vget_run c (i + 160) ltac:(lia))).
      rewrite (bind_ok _ _ _ _ _ (vput_run c i _ ltac:(lia) (Hb (i + 160) ltac:(lia)))). fold f1.
      rewrite (bind_ok _ _ _ _ _ (vget_run (with_vmem f1 c) (i + 1 + 160) ltac:(lia))). simpl vmem.
      rewrite (bind_ok _ _ _ _ _ (vput_run (with_vmem f1 c) (i + 1) _ ltac:(lia) (Hb1 (i + 1 + 160) ltac:(lia)))). exact R.
    + intros j. rewrite HF. simpl vmem. unfold f2, f1, fupd.
      destruct (Z.leb_spec (i + 2) j), (Z.ltb_spec j (i + 2 + 2 * Z.of_nat n)), (Z.leb_spec i j), (Z.ltb_spec j (i + 2 * Z.of_nat (S n)));
        simpl; bool_cases; try lia; try done; f_equal; lia.
Qed.

Lemma blank_run n : forall i c, bytes_ok (vmem c) -> 0 <= term_color c < 256 -> 0 <= i -> i + 2 * Z.of_nat n <= 4000 ->
  exists f, blank n i c = Ok (tt, with_vmem f c) /\ bytes_ok f /\
    forall j, f j = if (i <=? j) && (j <? i + 2 * Z.of_nat n) then (if Z.even (j - i) then 32 else term_color c) else vmem c j.
Proof.
  induction n as [|n IH]; intros i c Hb Hc Hi Hn.
  - exists (vmem c). split; [by destruct c|]. split; [done|]. intros j.
    destruct (Z.leb_spec i j), (Z.ltb_spec j (i + 2 * Z.of_nat 0)); simpl; lia || done.
  - set (f1 := fupd (vmem c) i 32). set (f2 := fupd f1 (i + 1) (term_color c)).
    assert (Hb2 : bytes_ok f2) by (apply fupd_bytes; [apply fupd_bytes; [done|lia]|done]).
    destruct (IH (i + 2) (with_vmem f2 c) Hb2 Hc ltac:(lia) ltac:(lia)) as (f & R & Hf & HF).
    exists f. split; [|split; [done|]].
    + cbn [blank]. rewrite (bind_ok _ _ _ _ _ (vput_run c i 32 ltac:(lia) ltac:(lia))). fold f1.
      rewrite (bind_ok get _ _ _ _ eq_refl). simpl term_color.
      rewrite (bind_ok _ _ _ _ _ (vput_run (with_vmem f1 c) (i + 1) (term_color c) ltac:(lia) Hc)). exact R.
    + intros j. rewrite HF. simpl. replace (Z.even (j - i)) with (Z.even (j - (i + 2))) by (replace (j - i) with (j - (i + 2) + 2 * 1) by lia; by rewrite Z.even_add_mul_2).
      unfold f2, f1, fupd.
      destruct (Z.leb_spec (i + 2) j), (Z.ltb_spec j (i + 2 + 2 * Z.of_nat n)), (Z.leb_spec i j), (Z.ltb_spec j (i + 2 * Z.of_nat (S n)));
        simpl; bool_cases; try lia; try done; subst.
      * by replace (i + 1 - (i + 2)) with (-1) by lia.
      * by replace (i - (i + 2)) with (-2) by lia.
Qed.

(** [scrollup] scrolls the terminal and leaves the cursor alone. *)
Lemma scrollup_run c t : term_rep c t -> exists f, scrollup c = Ok (tt, with_vmem f c) /\ term_rep (with_vmem f c) (TermSpec.scroll t).
Proof.
  intros [R1 R2 R3 R4 [R5 R6] R7]. unfold scrollup. change ((CONSOLE_HEIGHT - 1) * CONSOLE_WIDTH) with 1920. change CONSOLE_WIDTH with 80.
  assert (N1 : Z.of_nat (Z.to_nat 1920) = 1920) by lia. assert (N2 : Z.of_nat (Z.to_nat 80) = 80) by lia.
  revert N1 N2. generalize (Z.to_nat 1920), (Z.to_nat 80). intros n1 n2 N1 N2.
  destruct (scroll_copy_run n1 0 c R6 ltac:(lia) ltac:(lia)) as (f1 & E1 & B1 & F1).
  destruct (blank_run n2 3840 (with_vmem f1 c) B1 R5 ltac:(lia) ltac:(lia)) as (f2 & E2 & B2 & F2).
  exists f2. split.
  - rewrite (bind_ok _ _ _ _ _ E1). exact E2.
  - split; try done. intros r k Hr Hk. simpl. rewrite !F2, !F1, N1, N2. change (2 * 1920) with 3840. change (2 * 80) with 160. simpl term_color.
    destruct (Z.eqb_spec r 24) as [->|Hr24].
    + rewrite (proj2 (Z.leb_le 3840 _)), (proj2 (Z.ltb_lt _ (3840 + 160))), (proj2 (Z.leb_le 3840 (2 * (80 * 24 + k) + 1))),
        (proj2 (Z.ltb_lt (2 * (80 * 24 + k) + 1) _)) by lia. cbn [andb].
      replace (2 * (80 * 24 + k) - 3840) with (2 * k) by lia. replace (2 * (80 * 24 + k) + 1 - 3840) with (1 + 2 * k) by lia.
      rewrite Z.even_mul, Z.even_add_mul_2. simpl. by rewrite R4.
    + rewrite (proj2 (Z.leb_gt 3840 (2 * (80 * r + k)))), (proj2 (Z.leb_gt 3840 (2 * (80 * r + k) + 1))) by lia. cbn [andb].
      rewrite (proj2 (Z.leb_le 0 _)), (proj2 (Z.ltb_lt _ (0 + 3840))), (proj2 (Z.leb_le 0 (2 * (80 * r + k) + 1))),
        (proj2 (Z.ltb_lt (2 * (80 * r + k) + 1) _)) by lia. cbn [andb].
      rewrite R7 by lia. do 2 f_equal; lia.
Qed.

(** Writing the cell at ([r], [k]). *)
Lemma write_rep c t r k v : term_rep c t -> 0 <= r < 25 -> 0 <= k < 80 -> 0 <= v < 256 ->
  term_rep (with_vmem (fupd (fupd (vmem c) (2 * (80 * r + k)) v) (2 * (80 * r + k) + 1) (term_color c)) c)
    (TermSpec.write r k (v, term_color c) t).
Proof.
  intros [R1 R2 R3 R4 [R5 R6] R7] Hr Hk Hv. split; try done.
  - split; [done|]. simpl. by apply fupd_bytes; [apply fupd_bytes|].
  - intros r' k' Hr' Hk'. simpl. unfold fupd. rewrite R7 by done.
    destruct (Z.eqb_spec r' r) as [->|], (Z.eqb_spec k' k) as [->|]; simpl; bool_cases; try lia; done.
Qed.

Lemma move_rep c t r k : term_rep c t -> 0 <= r < 25 -> 0 <= k < 80 -> term_rep (with_cursor (80 * r + k) c) (TermSpec.move r k t).
Proof. intros [R1 R2 R3 R4 R5 R7] Hr Hk. by split. Qed.

Lemma newline_run c t r : term_rep c t -> r = TermSpec.row t ->
  exists c', (if r =? 24 then scrollup;; set_logical (L2P r 0) else set_logical (L2P (r + 1) 0)) c = Ok (tt, c') /\
    term_rep c' (TermSpec.newline t) /\ is_hidden c' = is_hidden c /\ (lsb c' = lsb c /\ msb c' = msb c).
Proof.
  intros Hr ->. pose proof (rp_row _ _ Hr) as H1. unfold TermSpec.newline, set_logical, L2P, CONSOLE_WIDTH.
  destruct (Z.eqb_spec (TermSpec.row t) 24) as [E|E].
  - destruct (scrollup_run c t Hr) as (f & R & Hr'). revert R. generalize scrollup. intros scroll R.
    exists (with_cursor (80 * 24 + 0) (with_vmem f c)). split; [|split; [apply (move_rep _ _ 24 0 Hr'); lia|done]].
    rewrite (bind_ok _ _ _ _ _ R), E. by rewrite u16_small by lia.
  - eexists. split; [reflexivity|]. split; [|done]. rewrite u16_small by lia.
    replace ((TermSpec.row t + 1) * 80 + 0) with (80 * (TermSpec.row t + 1) + 0) by lia. apply move_rep; [done|lia..].
Qed.

(** The hardware cursor shows the logical one, unless it is hidden. *)
Definition cursor_shown (c : console) : Prop := is_hidden c = 0 -> 256 * msb c + lsb c = logical_cursor c.

Lemma hw_split x : 0 <= x < 65536 -> 256 * u8 (Z.shiftr x 8) + u8 x = x.
Proof.
  intros H. rewrite Z.shiftr_div_pow2 by lia. change (2 ^ 8) with 256. rewrite (u8_small (x / 256)).
  - unfold u8. pose proof (Z.div_mod x 256 ltac:(lia)). lia.
  - split; [apply Z.div_pos; lia|apply Z.div_lt_upper_bound; lia].
Qed.

Lemma finish_run c t : term_rep c t -> exists c',
  (c ← get; (if is_hidden c =? 0 then set_hardware_cursor (logical_cursor c) else mret tt)) c = Ok (tt, c') /\
  term_rep c' t /\ is_hidden c' = is_hidden c /\ cursor_shown c'.
Proof.
  intros Hr. rewrite (bind_ok get _ c c c eq_refl). destruct (Z.eqb_spec (is_hidden c) 0) as [E|E].
  - eexists. split; [reflexivity|]. destruct Hr as [R1 R2 R3 R4 R5 R7]. split; [by split|]. split; [done|].
    intros _. simpl. apply hw_split. rewrite R3. lia.
  - exists c. split; [done|]. split; [done|]. split; [done|]. intros ?. done.
Qed.

Lemma putbyte_body c t ch : term_rep c t -> 0 <= ch < 256 ->
  let offset := logical_cursor c in
  exists c', (if ch =? 10 then
     if P2R offset =? CONSOLE_HEIGHT - 1 then scrollup;; set_logical (L2P (P2R offset) 0)
     else set_logical (L2P (P2R offset + 1) 0)
   else if ch =? 13 then set_logical (L2P (P2R offset) 0)
   else if ch =? 8 then
     if 0 <? P2C offset then
       let offset := u16 (offset - 1) in
       set_logical offset;;
       vput (2 * offset) 32;;
       vput (2 * offset + 1) (term_color c)
     else mret tt
   else
     vput (2 * offset) ch;;
     vput (2 * offset + 1) (term_color c);;
     if offset =? CONSOLE_HEIGHT * CONSOLE_WIDTH - 1 then scrollup;; set_logical (L2P (P2R offset) 0)
     else set_logical (offset + 1)) c = Ok (tt, c') /\ term_rep c' (TermSpec.putc ch t) /\ is_hidden c' = is_hidden c.
Proof.
  intros Hr Hch offset. pose proof Hr as [R1 R2 R3 R4 [R5 R6] R7]. unfold offset. rewrite R3.
  rewrite !P2R_eq, !P2C_eq by lia. set (r := TermSpec.row t) in *. set (k := TermSpec.col t) in *.
  change (CONSOLE_HEIGHT - 1) with 24. change (CONSOLE_HEIGHT * CONSOLE_WIDTH - 1) with 1999.
  unfold TermSpec.putc. fold r k. destruct (Z.eqb_spec ch 10) as [->|N10].
  { destruct (newline_run c t r Hr eq_refl) as (c' & R & H & Hh & _). exists c'. exact (conj R (conj H Hh)). }
  destruct (Z.eqb_spec ch 13) as [->|N13].
  { eexists. split; [reflexivity|]. unfold L2P, CONSOLE_WIDTH. rewrite u16_small by lia.
    replace (r * 80 + 0) with (80 * r + 0) by lia. split; [by apply move_rep; [|lia|lia]|done]. }
  destruct (Z.eqb_spec ch 8) as [->|N8].
  { destruct (Z.ltb_spec 0 k) as [Hk|Hk]; [|exists c; done]. cbv zeta. rewrite (u16_small (80 * r + k - 1)) by lia.
    replace (80 * r + k - 1) with (80 * r + (k - 1)) by lia.
    eexists. split; [|split].
    - unfold set_logical. erewrite bind_ok by reflexivity. rewrite (u16_small (80 * r + (k - 1))) by lia.
      rewrite (bind_ok _ _ _ _ _ (vput_run (with_cursor _ c) (2 * (80 * r + (k - 1))) 32 ltac:(lia) ltac:(lia))).
      rewrite (vput_run (with_vmem _ _) (2 * (80 * r + (k - 1)) + 1) (term_color c) ltac:(lia) R5). reflexivity.
    - rewrite <- R4. apply (write_rep (with_cursor (80 * r + (k - 1)) c) (TermSpec.move r (k - 1) t) r (k - 1) 32);
        [apply move_rep; [done|lia..]|lia..].
    - done. }
  pose proof (write_rep c t r k ch Hr R1 R2 Hch) as Hw. set (c1 := with_vmem _ c) in Hw.
  assert (Hput : forall X : M console unit, (vput (2 * (80 * r + k)) ch;; vput (2 * (80 * r + k) + 1) (term_color c);; X) c = X c1).
  { intros X. rewrite (bind_ok _ _ _ _ _ (vput_run c (2 * (80 * r + k)) ch ltac:(lia) Hch)).
    by rewrite (bind_ok _ _ _ _ _ (vput_run (with_vmem _ c) (2 * (80 * r + k) + 1) (term_color c) ltac:(lia) R5)). }
  rewrite Hput. cbv zeta. rewrite R4 in Hw. destruct (newline_run c1 _ r Hw eq_refl) as (c' & R & Hn & Hh & _).
  destruct (Z.eqb_spec k 79) as [Ek|Ek].
  - exists c'. destruct (Z.eqb_spec r 24) as [Er|Er].
    + rewrite (proj2 (Z.eqb_eq (80 * r + k) 1999)) by lia. exact (conj R (conj Hn Hh)).
    + rewrite (proj2 (Z.eqb_neq (80 * r + k) 1999)) by lia. unfold L2P, CONSOLE_WIDTH in R.
      replace (80 * r + k + 1) with ((r + 1) * 80 + 0) by lia. exact (conj R (conj Hn Hh)).
  - rewrite (proj2 (Z.eqb_neq (80 * r + k) 1999)) by lia. eexists. split; [reflexivity|]. rewrite u16_small by lia.
    rewrite <- Z.add_assoc. split; [by apply move_rep; [|lia|lia]|done].
Qed.

Lemma putbyte_ok c t ch : term_rep c t -> 0 <= ch < 256 ->
  exists c', putbyte ch c = Ok (s8 ch, c') /\ term_rep c' (TermSpec.putc ch t) /\ is_hidden c' = is_hidden c /\ cursor_shown c'.
Proof.
  intros Hr Hch. destruct (putbyte_body c t ch Hr Hch) as (c1 & R1 & Hr1 & Hh1).
  destruct (finish_run c1 _ Hr1) as (c2 & R2 & Hr2 & Hh2 & Hs). exists c2. split; [|split; [done|split; [congruence|done]]].
  unfold putbyte. rewrite (bind_ok get _ c c c eq_refl). cbv zeta. cbv zeta in R1. rewrite (bind_ok _ _ _ _ _ R1).
  rewrite (bind_ok get _ c1 c1 c1 eq_refl) in R2. rewrite (bind_ok get _ c1 c1 c1 eq_refl). by rewrite (bind_ok _ _ _ _ _ R2).
Qed.

(** [putbyte] is one step of a terminal: every character, newline, carriage return
    and backspace included, has the effect the terminal gives it, the cursor stays
    on the screen, no access leaves video memory, and the hardware cursor follows
    the logical one unless it is hidden. *)
Theorem putbyte_refines c t ch :
  term_rep c t -> 0 <= ch < 256 ->
  exists c', putbyte ch c = Ok (s8 ch, c') /\ term_rep c' (TermSpec.putc ch t) /\ is_hidden c' = is_hidden c /\ cursor_shown c'.
Proof. exact (putbyte_ok c t ch). Qed.

Lemma putbytes_loop_ok n : forall s i c t, term_rep c t -> (forall j, 0 <= s j < 256) ->
  exists c', putbytes_loop n s i c = Ok (tt, c') /\
    term_rep c' (fold_left (fun t j => TermSpec.putc (s j) t) (seqZ i (Z.of_nat n)) t) /\ is_hidden c' = is_hidden c.
Proof.
  induction n as [|n IH]; intros s i c t Hr Hs; [by exists c|].
  destruct (putbyte_ok c t (s i) Hr (Hs i)) as (c1 & R1 & Hr1 & Hh & _). destruct (IH s (i + 1) c1 _ Hr1 Hs) as (c' & R & Hr' & Hh').
  exists c'. split; [cbn [putbytes_loop]; by rewrite (bind_ok _ _ _ _ _ R1)|].
  rewrite Nat2Z.inj_succ, seqZ_cons by lia. rewrite Z.pred_succ. split; [done|congruence].
Qed.

(** [putbytes] prints the bytes of the buffer in order. *)
Theorem putbytes_refines c t s len :
  term_rep c t -> (forall j, 0 <= s j < 256) -> 0 <= len ->
  exists c', putbytes false s len c = Ok (tt, c') /\
    term_rep c' (fold_left (fun t j => TermSpec.putc (s j) t) (seqZ 0 len) t).
Proof.
  intros Hr Hs Hl. destruct (putbytes_loop_ok (Z.to_nat len) s 0 c t Hr Hs) as (c' & R & Hr' & _).
  exists c'. rewrite Z2Nat.id in Hr' by done. done.
Qed.

Lemma check_pos row col : (CHECK_ROW row && CHECK_COL col) = true <-> 0 <= row < 25 /\ 0 <= col < 80.
Proof. unfold CHECK_ROW, CHECK_COL, CONSOLE_HEIGHT, CONSOLE_WIDTH. rewrite !andb_true_iff, !Z.leb_le, !Z.ltb_lt. lia. Qed.

Lemma set_cursor_ok c t row col :
  term_rep c t ->
  if CHECK_ROW row && CHECK_COL col
  then exists c', set_cursor row col c = Ok (0, c') /\ get_cursor c' = Ok ((row, col), c') /\
         term_rep c' (TermSpec.move row col t) /\ cursor_shown c'
  else set_cursor row col c = Ok (-1, c).
Proof.
  intros Hr. unfold set_cursor. destruct (CHECK_ROW row && CHECK_COL col) eqn:E; [|done]. apply check_pos in E as [H1 H2].
  cbn [negb]. unfold set_logical. erewrite bind_ok by reflexivity. unfold L2P, CONSOLE_WIDTH. rewrite u16_small by lia.
  replace (row * 80 + col) with (80 * row + col) by lia.
  destruct (finish_run _ _ (move_rep c t row col Hr H1 H2)) as (c' & R & Hr' & _ & Hs). exists c'. split.
  - rewrite (bind_ok get _ _ _ _ eq_refl) in R. rewrite (bind_ok get _ _ _ _ eq_refl). by rewrite (bind_ok _ _ _ _ _ R).
  - split; [|done]. unfold get_cursor. rewrite (rp_cursor _ _ Hr'). simpl. by rewrite P2R_eq, P2C_eq by lia.
Qed.

(** A cursor position that is set is the one that is read back; a position off
    the screen is refused and changes nothing. *)
Theorem set_get_cursor c t row col :
  term_rep c t ->
  if CHECK_ROW row && CHECK_COL col
  then exists c', set_cursor row col c = Ok (0, c') /\ get_cursor c' = Ok ((row, col), c') /\
         term_rep c' (TermSpec.move row col t) /\ cursor_shown c'
  else set_cursor row col c = Ok (-1, c).
Proof. exact (set_cursor_ok c t row col). Qed.

(** Clearing the screen blanks every cell and homes the cursor. *)
Theorem clear_console_blanks c t :
  term_rep c t -> exists c', clear_console c = Ok (tt, c') /\
    term_rep c' (TermSpec.mk_term (fun _ _ => (32, TermSpec.color t)) 0 0 (TermSpec.color t)) /\ cursor_shown c'.
Proof.
  intros [R1 R2 R3 R4 [R5 R6] R7]. unfold clear_console. change (CONSOLE_HEIGHT * CONSOLE_WIDTH) with 2000.
  assert (N : Z.of_nat (Z.to_nat 2000) = 2000) by lia. revert N. generalize (Z.to_nat 2000). intros n N.
  destruct (blank_run n 0 c R6 R5 ltac:(lia) ltac:(lia)) as (f & R & B & F).
  assert (Hr : term_rep (with_cursor 0 (with_vmem f c)) (TermSpec.mk_term (fun _ _ => (32, TermSpec.color t)) 0 0 (TermSpec.color t))).
  { split; simpl; try done. intros r k Hr Hk. rewrite !F, N. change (2 * 2000) with 4000.
    rewrite (proj2 (Z.leb_le 0 _)), (proj2 (Z.ltb_lt _ (0 + 4000))), (proj2 (Z.leb_le 0 (2 * (80 * r + k) + 1))),
      (proj2 (Z.ltb_lt (2 * (80 * r + k) + 1) _)) by lia. cbn [andb]. rewrite !Z.sub_0_r, Z.even_mul.
    replace (2 * (80 * r + k) + 1) with (1 + 2 * (80 * r + k)) by lia. rewrite Z.even_add_mul_2. simpl. by rewrite R4. }
  destruct (finish_run _ _ Hr) as (c' & R' & Hr' & _ & Hs). exists c'. split; [|done].
  rewrite (bind_ok _ _ _ _ _ R). erewrite bind_ok by reflexivity. exact R'.
Qed.

(** The colour that is set is read back only while its sign bit is clear: the
    driver keeps it in a [char]. *)
Theorem term_color_roundtrip c color :
  0 <= color < 256 ->
  exists c', set_term_color color c = Ok (0, c') /\ get_term_color c' = Ok (if color <? 128 then color else color - 256, c').
Proof.
  intros H. unfold set_term_color, CHECK_COLOR. rewrite w32_small by lia.
  replace (Z.land color 4294967040) with 0.
  - cbn [Z.eqb negb]. eexists. split; [reflexivity|]. unfold get_term_color, s8. simpl. by rewrite !u8_small by (rewrite ?u8_small; lia).
  - symmetry. change 4294967040 with (Z.shiftl (Z.ones 24) 8). apply Z.bits_inj'. intros j Hj. rewrite Z.land_spec, Z.testbit_0_l.
    destruct (Z.lt_ge_cases j 8) as [Hj8|Hj8].
    + rewrite Z.shiftl_spec_low by lia. apply andb_false_r.
    + rewrite <- (Z.mod_small color (2 ^ 8)) by lia. by rewrite Z.mod_pow2_bits_high by lia.
Qed.

(** ** A blank screen *)

Definition demo_console : console := mk_console (fun i => if Z.even i then 32 else 7) 7 1999 0 207 7.
Definition demo_term : TermSpec.term := TermSpec.mk_term (fun _ _ => (32, 7)) 24 79 7.

Lemma demo_term_rep : term_rep demo_console demo_term.
Proof.
  split; simpl; try lia; [split; [lia|]|].
  - intros i _. destruct (Z.even i); lia.
  - intros r k _ _. rewrite Z.even_mul. replace (2 * (80 * r + k) + 1) with (1 + 2 * (80 * r + k)) by lia. by rewrite Z.even_add_mul_2.
Qed.

(** A character in the last cell scrolls the screen. *)
Lemma putbyte_witness :
  exists c', putbyte 65 demo_console = Ok (65, c') /\ term_rep c' (TermSpec.putc 65 demo_term) /\ is_hidden c' = 0 /\ cursor_shown c'.
Proof. exact (putbyte_refines demo_console demo_term 65 demo_term_rep ltac:(lia)). Defined.

Lemma set_get_cursor_witness :
  exists c', set_cursor 3 5 demo_console = Ok (0, c') /\ get_cursor c' = Ok ((3, 5), c') /\
    term_rep c' (TermSpec.move 3 5 demo_term) /\ cursor_shown c'.
Proof. exact (set_get_cursor demo_console demo_term 3 5 demo_term_rep). Defined.
End Console.
