(* ===== verification/Keyboard.v ===== *)
(** * The keyboard (src/kern/keyboard_driver.c)

    Scancodes wait in a ring of 256 bytes, of which one is always unused.
    [process_scancode] (KeyHelp.v) is an argument of the model that
    maps its own state and a scancode to its next state and a [kh_type] word. *)

From S2P Require Import Prelude SimpleQueue.
From Stdlib Require Import ZArith Lia.
From stdpp Require Import base list tactics numbers.

#[local] Open Scope Z_scope.

(** ** What the buffer promises: a queue that drops input when it is full *)
Module RingSpec.
Definition capacity : nat := 255.
Definition put (q : list Z) (c : Z) : list Z := if decide (length q < capacity)%nat then QSpec.enqueue q c else q.
End RingSpec.

Module Keyboard.

Definition KEY_BUF_SIZE : Z := 256.

(** The macros of keyhelp.h used here *)
Definition KH_HASDATA (k : Z) : bool := negb (Z.land (Z.shiftr k 16) 4 =? 0).
Definition KH_ISMAKE (k : Z) : bool := negb (Z.land (Z.shiftr k 16) 1 =? 0).
Definition KH_GETCHAR (k : Z) : Z := Z.land k 255.
#[global] Arguments KH_HASDATA : simpl never.
#[global] Arguments KH_ISMAKE : simpl never.
#[global] Arguments KH_GETCHAR : simpl never.

Section keyboard.
Context {KH : Type} (process_scancode : KH -> Z -> KH * Z).

Record keyboard := mk_kbd { keybuf : Z -> Z; front : Z; rear : Z; kh : KH }.

Definition init_keyboard_driver : M keyboard unit := modify (fun k => mk_kbd (keybuf k) 0 0 (kh k)).

(** The first part of [keyboard_interrupt_handler]: store the scancode if there
    is room. *)
Definition buffer_scancode (scancode : Z) : M keyboard unit := fun k =>
  if negb ((front k + 1) mod KEY_BUF_SIZE =? rear k)
  then Ok (tt, mk_kbd (fupd (keybuf k) (front k) scancode) ((front k + 1) mod KEY_BUF_SIZE) (rear k) (kh k))
  else Ok (tt, k).

(** The loop of [readchar], which [keyboard_interrupt_handler] repeats: take
    scancodes until one yields a character; -1 when the buffer is empty. *)
Fixpoint readchar_loop (fuel : nat) (ret : Z) : M keyboard Z :=
  match fuel with
  | O => nofuel
  | S fuel => fun k =>
      if (ret =? -1) && negb (front k =? rear k) then
        let scancode := keybuf k (rear k) in
        let '(kh', augchar) := process_scancode (kh k) scancode in
        readchar_loop fuel (if KH_HASDATA augchar && KH_ISMAKE augchar then KH_GETCHAR augchar else ret)
          (mk_kbd (keybuf k) (front k) ((rear k + 1) mod KEY_BUF_SIZE) kh')
      else Ok (ret, k)
  end.
Definition readchar : M keyboard Z := readchar_loop 257 (-1).

(** ** The ring as a queue *)

Fixpoint ring (buf : Z -> Z) (i : Z) (q : list Z) : Prop :=
  match q with
  | [] => True
  | c :: q => buf i = c /\ ring buf ((i + 1) mod 256) q
  end.

Record kbd_rep (k : keyboard) (q : list Z) : Prop := {
  kb_front : 0 <= front k < 256;
  kb_rear : 0 <= rear k < 256;
  kb_len : (length q <= 255)%nat;
  kb_pos : front k = (rear k + Z.of_nat (length q)) mod 256;
  kb_ring : ring (keybuf k) (rear k) q
}.

Lemma ring_snoc buf i q c : 0 <= i < 256 -> (length q < 256)%nat -> ring buf i q ->
  ring (fupd buf ((i + Z.of_nat (length q)) mod 256) c) i (q ++ [c]).
Proof.
  intros Hi Hl Hq. assert (Hgen : forall j, (forall k, (k < length q)%nat -> (i + Z.of_nat k) mod 256 <> j) ->
    ring (fupd buf j c) i q).
  { revert i Hi Hl Hq. induction q as [|x q IH]; intros i Hi Hl Hq j Hj; [done|]. simpl in *. destruct Hq as [Hx Hq]. split.
    - rewrite fupd_ne; [done|]. intros E. apply (Hj 0%nat); [lia|]. rewrite Z.add_0_r, Z.mod_small by lia. done.
    - apply IH; [apply Z.mod_pos_bound; lia|lia|done|]. intros k Hk. rewrite Z.add_mod_idemp_l by lia.
      replace (i + 1 + Z.of_nat k) with (i + Z.of_nat (S k)) by lia. apply Hj. lia. }
  assert (Hd : forall k, (k < length q)%nat -> (i + Z.of_nat k) mod 256 <> (i + Z.of_nat (length q)) mod 256).
  { intros k Hk E. pose proof (Z.div_mod (i + Z.of_nat k) 256 ltac:(lia)). pose proof (Z.div_mod (i + Z.of_nat (length q)) 256 ltac:(lia)).
    rewrite E in *. lia. }
  specialize (Hgen _ Hd). clear Hd Hq. set (f := fupd buf _ c) in *.
  assert (Hc : f ((i + Z.of_nat (length q)) mod 256) = c) by apply fupd_eq. clearbody f. revert i Hi Hgen Hc.
  induction q as [|x q IH]; intros i Hi Hr Hc; simpl in *.
  - rewrite Z.add_0_r, Z.mod_small in Hc by lia. done.
  - destruct Hr as [Hx Hr]. split; [done|]. apply IH; [lia|apply Z.mod_pos_bound; lia|done|].
    rewrite Z.add_mod_idemp_l by lia. by replace (i + 1 + Z.of_nat (length q)) with (i + Z.of_nat (S (length q))) by lia.
Qed.

Lemma front_eq_rear k q : kbd_rep k q -> front k = rear k <-> q = [].
Proof.
  intros [H1 H2 H3 H4 H5]. split.
  - intros E. rewrite E in H4. destruct q as [|x q]; [done|]. exfalso. simpl in *.
    pose proof (Z.div_mod (rear k + Z.of_nat (S (length q))) 256 ltac:(lia)). lia.
  - intros ->. rewrite H4. simpl. rewrite Z.add_0_r. apply Z.mod_small. lia.
Qed.

Lemma full_iff k q : kbd_rep k q -> (front k + 1) mod 256 = rear k <-> length q = 255%nat.
Proof.
  intros [H1 H2 H3 H4 H5]. rewrite H4, Z.add_mod_idemp_l by lia.
  pose proof (Z.div_mod (rear k + Z.of_nat (length q) + 1) 256 ltac:(lia)).
  pose proof (Z.mod_pos_bound (rear k + Z.of_nat (length q) + 1) 256 ltac:(lia)). split; intros E; lia.
Qed.

Lemma buffer_ok k q c : kbd_rep k q ->
  exists k', buffer_scancode c k = Ok (tt, k') /\ kbd_rep k' (RingSpec.put q c) /\ kh k' = kh k.
Proof.
  intros Hr. unfold buffer_scancode, RingSpec.put, RingSpec.capacity. change KEY_BUF_SIZE with 256. pose proof (full_iff k q Hr) as Hf.
  pose proof Hr as [H1 H2 H3 H4 H5]. destruct (Z.eqb_spec ((front k + 1) mod 256) (rear k)) as [E|E]; cbn [negb].
  - exists k. rewrite decide_False by (apply Hf in E; lia). done.
  - rewrite decide_True by (destruct (decide (length q = 255%nat)); [tauto|lia]). eexists. split; [done|]. split; [|done].
    split; simpl; [apply Z.mod_pos_bound; lia|done| | |].
    + unfold QSpec.enqueue. rewrite length_app. simpl. destruct (decide (length q = 255%nat)); [tauto|lia].
    + unfold QSpec.enqueue. rewrite length_app, H4, Z.add_mod_idemp_l by lia. simpl. f_equal. lia.
    + rewrite H4. apply ring_snoc; [done|lia|done].
Qed.

(** An interrupt stores its scancode behind those that wait, and drops it only
    when 255 are waiting. *)
Theorem buffer_scancode_refines k q c :
  kbd_rep k q -> exists k', buffer_scancode c k = Ok (tt, k') /\ kbd_rep k' (RingSpec.put q c) /\ kh k' = kh k.
Proof. exact (buffer_ok k q c). Qed.

(** What [readchar] takes: the scancodes up to the first that yields a character. *)
Fixpoint scan (h : KH) (q : list Z) : Z * KH * list Z :=
  match q with
  | [] => (-1, h, [])
  | c :: q =>
      let '(h', a) := process_scancode h c in
      if KH_HASDATA a && KH_ISMAKE a then (KH_GETCHAR a, h', q) else scan h' q
  end.

Lemma getchar_range a : 0 <= KH_GETCHAR a < 256.
Proof. unfold KH_GETCHAR. change 255 with (Z.ones 8). rewrite Z.land_ones by lia. apply Z.mod_pos_bound. lia. Qed.

Lemma readchar_loop_ok q : forall fuel k, kbd_rep k q -> (length q + 1 < fuel)%nat ->
  exists k', readchar_loop fuel (-1) k = Ok ((scan (kh k) q).1.1, k') /\
    kbd_rep k' (scan (kh k) q).2 /\ kh k' = (scan (kh k) q).1.2.
Proof.
  induction q as [|c q IH]; intros fuel k Hr Hf; destruct fuel as [|fuel]; try (simpl in Hf; lia); cbn [readchar_loop].
  - rewrite (proj2 (Z.eqb_eq _ _) (proj2 (front_eq_rear k [] Hr) eq_refl)). simpl. exists k. done.
  - destruct (Z.eqb_spec (front k) (rear k)) as [E|E]; [by apply (front_eq_rear _ _ Hr) in E|]. cbn [Z.eqb Pos.eqb negb andb].
    pose proof Hr as [H1 H2 H3 H4 [H5 H6]]. simpl in H3, H4. rewrite H5. cbn [scan].
    destruct (process_scancode (kh k) c) as [h' a]. change KEY_BUF_SIZE with 256.
    set (k1 := mk_kbd (keybuf k) (front k) ((rear k + 1) mod 256) h').
    assert (Hr1 : kbd_rep k1 q).
    { split; simpl; [done|apply Z.mod_pos_bound; lia|lia| |done]. rewrite H4, Z.add_mod_idemp_l by lia. f_equal. lia. }
    destruct (KH_HASDATA a && KH_ISMAKE a); [|apply (IH fuel k1 Hr1); simpl in Hf; lia].
    exists k1. destruct fuel as [|fuel]; [simpl in Hf; lia|]. cbn [readchar_loop].
    pose proof (getchar_range a). rewrite (proj2 (Z.eqb_neq (KH_GETCHAR a) (-1))) by lia. done.
Qed.

Lemma readchar_ok k q : kbd_rep k q ->
  exists k', readchar k = Ok ((scan (kh k) q).1.1, k') /\ kbd_rep k' (scan (kh k) q).2 /\ kh k' = (scan (kh k) q).1.2.
Proof.
  intros Hr. pose proof (kb_len _ _ Hr). unfold readchar.
  apply (readchar_loop_ok q); [done|]. destruct (decide (length q = 255%nat)); lia.
Qed.

(** [readchar] always returns: it consumes the waiting scancodes, oldest first, up
    to the first that yields a character, and returns that character, or -1 when
    there is none. *)
Theorem readchar_refines k q :
  kbd_rep k q ->
  exists k', readchar k = Ok ((scan (kh k) q).1.1, k') /\ kbd_rep k' (scan (kh k) q).2 /\ kh k' = (scan (kh k) q).1.2.
Proof. exact (readchar_ok k q). Qed.
End keyboard.

(** A keyboard without modifiers: every scancode below 128 is a key press. *)
Definition demo_process (h : unit) (c : Z) : unit * Z := (tt, if c <? 128 then Z.lor (Z.shiftl 5 16) c else 0).
Definition demo_kbd : keyboard := mk_kbd (fun i => if i =? 255 then 200 else 65) 1 255 tt.

Lemma demo_kbd_rep : kbd_rep demo_kbd [200; 65].
Proof. split; simpl; [lia|lia|lia|reflexivity|]. by vm_compute. Qed.

Lemma readchar_witness :
  exists k', readchar demo_process demo_kbd = Ok (65, k') /\ kbd_rep k' [] /\ kh k' = tt.
Proof. exact (readchar_refines demo_process demo_kbd [200; 65] demo_kbd_rep). Defined.

Lemma buffer_scancode_witness :
  exists k', buffer_scancode 66 demo_kbd = Ok (tt, k') /\ kbd_rep k' [200; 65; 66] /\ kh k' = tt.
Proof. exact (buffer_scancode_refines demo_kbd [200; 65] 66 demo_kbd_rep). Defined.
End Keyboard.
