(* ===== verification/ConsoleIO.v ===== *)
(** * Console input and output on the manager core
      (src/kern/smp_syscall_consoleio.c and the interrupt handler of
      src/kern/keyboard_driver.c)

    One thread at a time reads a line; the others wait in [readline_queue].  The
    reader first takes what has been typed ahead, then blocks, and each keyboard
    interrupt adds one character to its line until the line is complete.  The
    spinlock [reading_lock] only keeps the keyboard interrupt out: the sections it
    protects are atomic here. *)

From S2P Require Import Prelude SimpleQueue ThreadState Mutex Message Console Keyboard.
From Stdlib Require Import ZArith Lia.
From stdpp Require Import base gmap list tactics numbers.

#[local] Open Scope Z_scope.

(** ** What a line of input is *)
Module LineSpec.
(** A backspace removes the last character, any other character is appended. *)
Definition edit (line : list Z) (ch : Z) : list Z :=
  if ch =? 8 then take (length line - 1) line else line ++ [ch].
(** Every character is echoed, except a backspace in an empty line. *)
Definition echo (line : list Z) (ch : Z) (t : TermSpec.term) : TermSpec.term :=
  if (ch =? 8) && (Z.of_nat (length line) =? 0) then t else TermSpec.putc ch t.

Inductive outcome :=
| Done (line : list Z) (t : TermSpec.term) (rest : list Z)
| More (line : list Z) (t : TermSpec.term).

(** A line ends with a newline or when it has [len] characters. *)
Fixpoint feed (len : Z) (line : list Z) (t : TermSpec.term) (chs : list Z) : outcome :=
  if Z.of_nat (length line) <? len then
    match chs with
    | [] => More line t
    | ch :: chs =>
        if ch =? 10 then Done (edit line ch) (echo line ch t) chs
        else feed len (edit line ch) (echo line ch t) chs
    end
  else Done line t chs.
End LineSpec.

Module ConsoleIO.
Section handlers.
Context {KH : Type} (process_scancode : KH -> Z -> KH * Z) (me : Z).

(** [bytes] is the kernel memory that holds the buffers of the requests, and
    [my_msg] the field of that name of each thread, both by address. *)
Record cio := mk_cio {
  con : Console.console; kbd : Keyboard.keyboard (KH := KH); net : Message.net; print_lock : Mutex.mutex_t;
  tstates : Z -> thread_state_t; my_msg : gmap Z Z; bytes : gmap Z Z;
  read_waiting_thr : Z; reading_count : Z; reading_length : Z; reading_buf : Z; readline_queue : list Z }.

Definition with_con x s := mk_cio x (kbd s) (net s) (print_lock s) (tstates s) (my_msg s) (bytes s) (read_waiting_thr s) (reading_count s) (reading_length s) (reading_buf s) (readline_queue s).
Definition with_kbd x s := mk_cio (con s) x (net s) (print_lock s) (tstates s) (my_msg s) (bytes s) (read_waiting_thr s) (reading_count s) (reading_length s) (reading_buf s) (readline_queue s).
Definition with_net x s := mk_cio (con s) (kbd s) x (print_lock s) (tstates s) (my_msg s) (bytes s) (read_waiting_thr s) (reading_count s) (reading_length s) (reading_buf s) (readline_queue s).
Definition with_print_lock x y s := mk_cio (con s) (kbd s) (net s) x y (my_msg s) (bytes s) (read_waiting_thr s) (reading_count s) (reading_length s) (reading_buf s) (readline_queue s).
Definition with_bytes x s := mk_cio (con s) (kbd s) (net s) (print_lock s) (tstates s) (my_msg s) x (read_waiting_thr s) (reading_count s) (reading_length s) (reading_buf s) (readline_queue s).
Definition with_waiting x s := mk_cio (con s) (kbd s) (net s) (print_lock s) (tstates s) (my_msg s) (bytes s) x (reading_count s) (reading_length s) (reading_buf s) (readline_queue s).
Definition with_count x s := mk_cio (con s) (kbd s) (net s) (print_lock s) (tstates s) (my_msg s) (bytes s) (read_waiting_thr s) x (reading_length s) (reading_buf s) (readline_queue s).
Definition with_reading n l b s := mk_cio (con s) (kbd s) (net s) (print_lock s) (tstates s) (my_msg s) (bytes s) (read_waiting_thr s) n l b (readline_queue s).
Definition with_queue x s := mk_cio (con s) (kbd s) (net s) (print_lock s) (tstates s) (my_msg s) (bytes s) (read_waiting_thr s) (reading_count s) (reading_length s) (reading_buf s) x.

Definition on_con {A} (x : M Console.console A) : M cio A := zoom con with_con x.
Definition on_kbd {A} (x : M (Keyboard.keyboard (KH := KH)) A) : M cio A := zoom kbd with_kbd x.
Definition on_net {A} (x : M Message.net A) : M cio A := zoom net with_net x.
Definition rd_msg (p : Z) : M cio msg_t := on_net (Message.rd p).
Definition upd_msg (p : Z) (f : msg_t -> msg_t) : M cio unit := on_net (Message.upd p f).
Definition manager_send_msg (msg cpu : Z) : M cio unit := on_net (Message.manager_send_msg msg cpu).
Definition on_print_lock (x : M Mutex.mstate unit) : M cio unit :=
  zoom (fun s => Mutex.mk_mstate (print_lock s) (tstates s)) (fun m => with_print_lock (Mutex.mx m) (Mutex.tst m)) x.
Definition store_byte (a v : Z) : M cio unit := fun s =>
  match bytes s !! a with Some _ => Ok (tt, with_bytes (<[a := v]> (bytes s)) s) | None => Fault end.
(** The [len] bytes at [a]. *)
Definition load_bytes (a len : Z) : M cio (Z -> Z) := fun s =>
  if forallb (fun i => bool_decide (is_Some (bytes s !! (a + i)))) (seqZ 0 len)
  then Ok (fun i => default 0 (bytes s !! (a + i)), s) else Fault.

(** The end of every handler: store the result and send the message back. *)
Definition respond (msg result : Z) : M cio unit :=
  upd_msg msg (set_type RESPONSE);;
  upd_msg msg (set_w0 result);;
  mm ← rd_msg msg;
  manager_send_msg msg (req_cpu mm).

Definition smp_syscall_print_init : M cio Z :=
  modify (fun s => with_print_lock (snd Mutex.mutex_init) (tstates s) s);; mret (fst Mutex.mutex_init).

(** [spinlock_init] and [simple_queue_init] return 0. *)
Definition smp_syscall_read_init : M cio Z := modify (with_waiting 0);; modify (with_queue []);; mret 0.

Definition has_read_waiting_thr : M cio bool := fun s => Ok (negb (read_waiting_thr s =? 0), s).

(** Store a character in the buffer: the part [smp_syscall_readline] and
    [resume_reading_thr] have in common. *)
Definition echo_char (ch : Z) : M cio unit :=
  s ← get;
  if negb ((ch =? 8) && (reading_count s =? 0)) then on_con (Console.putbyte ch);; mret tt else mret tt.
Definition edit_char (ch : Z) : M cio unit :=
  s ← get;
  if ch =? 8 then modify (with_count (if reading_count s =? 0 then 0 else reading_count s - 1))
  else store_byte (reading_buf s + reading_count s) ch;; modify (with_count (reading_count s + 1)).

(** The loop of [smp_syscall_readline]: true when the line is complete, false
    when the thread has to wait for input. *)
Fixpoint readline_loop (fuel : nat) (req_thr : Z) : M cio bool :=
  match fuel with
  | O => nofuel
  | S fuel =>
      s ← get;
      if reading_count s <? reading_length s then
        ch ← on_kbd (Keyboard.readchar process_scancode);
        if ch =? -1 then modify (with_waiting req_thr);; mret false
        else
          echo_char ch;;
          edit_char ch;;
          if ch =? 10 then mret true else readline_loop fuel req_thr
      else mret true
  end.

(** At most 255 scancodes wait, so the loop runs at most 256 times. *)
Definition smp_syscall_readline (msg : Z) : M cio unit :=
  w ← has_read_waiting_thr;
  if w : bool then rd_msg msg;; modify (fun s => with_queue (QSpec.enqueue (readline_queue s) msg) s)
  else
    mm ← rd_msg msg;
    modify (with_reading 0 (Data.io_len mm) (Data.io_buf mm));;
    done ← readline_loop 257 (req_thr mm);
    if done : bool then s ← get; respond msg (reading_count s) else mret tt.

(** The thread to send back, or NULL. *)
Definition resume_reading_thr (ch : Z) : M cio Z :=
  echo_char ch;;
  edit_char ch;;
  s ← get;
  if (reading_count s =? reading_length s) || (ch =? 10) then
    msg ← deref (my_msg s !! read_waiting_thr s);
    upd_msg msg (set_type RESPONSE);;
    upd_msg msg (set_w0 (reading_count s));;
    let rv := read_waiting_thr s in
    (match QSpec.dequeue (readline_queue s) with
     | Some (readline_node, q) =>
         modify (with_queue q);;
         nm ← rd_msg readline_node;
         next ← rd_msg (node_thr nm);
         modify (with_reading 0 (Data.io_len next) (Data.io_buf next));;
         mm ← rd_msg msg;
         modify (with_waiting (req_thr mm))
     | None => modify (with_waiting 0)
     end);;
    mret rv
  else mret 0.

Definition keyboard_interrupt_handler (scancode : Z) : M cio unit :=
  on_kbd (Keyboard.buffer_scancode scancode);;
  w ← has_read_waiting_thr;
  thr ← (if w : bool then
           ch ← on_kbd (Keyboard.readchar process_scancode);
           if negb (ch =? -1) then resume_reading_thr ch else mret 0
         else mret 0);
  if negb (thr =? 0) then
    s ← get;
    msg ← deref (my_msg s !! thr);
    mm ← rd_msg msg;
    manager_send_msg msg (req_cpu mm)
  else mret tt.

Definition lock_print : M cio unit := on_print_lock (Mutex.mutex_lock me).
Definition unlock_print : M cio unit := on_print_lock Mutex.mutex_unlock.

Definition smp_syscall_get_cursor_pos (msg : Z) : M cio unit :=
  lock_print;;
  '(row, col) ← on_con Console.get_cursor;
  unlock_print;;
  upd_msg msg (set_type RESPONSE);;
  upd_msg msg (set_w0 row);;
  upd_msg msg (set_w1 col);;
  mm ← rd_msg msg;
  manager_send_msg msg (req_cpu mm).

Definition smp_syscall_print (msg : Z) : M cio unit :=
  mm ← rd_msg msg;
  lock_print;;
  (if Data.io_buf mm =? 0 then on_con (Console.putbytes true (fun _ => 0) (Data.io_len mm))
   else b ← load_bytes (Data.io_buf mm) (Data.io_len mm); on_con (Console.putbytes false b (Data.io_len mm)));;
  unlock_print;;
  respond msg 0.

Definition smp_syscall_set_cursor_pos (msg : Z) : M cio unit :=
  mm ← rd_msg msg;
  lock_print;;
  ret ← on_con (Console.set_cursor (Data.cur_row mm) (Data.cur_col mm));
  unlock_print;;
  respond msg ret.

Definition smp_syscall_set_term_color (msg : Z) : M cio unit :=
  mm ← rd_msg msg;
  lock_print;;
  ret ← on_con (Console.set_term_color (Data.color mm));
  unlock_print;;
  respond msg ret.
(** ** The characters typed *)

Fixpoint typed (h : KH) (q : list Z) : list Z :=
  match q with
  | [] => []
  | c :: q =>
      let '(h', a) := process_scancode h c in
      if Keyboard.KH_HASDATA a && Keyboard.KH_ISMAKE a then Keyboard.KH_GETCHAR a :: typed h' q else typed h' q
  end.

Lemma typed_bytes h q : Forall (fun ch => 0 <= ch < 256) (typed h q).
Proof.
  revert h. induction q as [|c q IH]; intros h; cbn [typed]; [constructor|]. destruct (process_scancode h c) as [h' a].
  destruct (_ && _); [constructor; [apply Keyboard.getchar_range|]|]; apply IH.
Qed.

Lemma typed_length h q : (length (typed h q) <= length q)%nat.
Proof.
  revert h. induction q as [|c q IH]; intros h; cbn [typed]; [done|]. destruct (process_scancode h c) as [h' a].
  specialize (IH h'). destruct (_ && _); cbn [length]; lia.
Qed.

Lemma scan_typed h q : let r := Keyboard.scan process_scancode h q in
  match typed h q with
  | [] => r.1.1 = -1 /\ r.2 = []
  | ch :: chs => r.1.1 = ch /\ typed r.1.2 r.2 = chs
  end.
Proof.
  revert h. induction q as [|c q IH]; intros h; cbv zeta; cbn [typed Keyboard.scan]; [done|]. destruct (process_scancode h c) as [h' a].
  destruct (_ && _); [done|]. apply IH.
Qed.

(** [keys s chs]: the scancodes in the buffer are the characters [chs]. *)
Definition keys (s : cio) (chs : list Z) : Prop :=
  exists q, Keyboard.kbd_rep (kbd s) q /\ typed (Keyboard.kh (kbd s)) q = chs.

Lemma keys_bytes s chs : keys s chs -> Forall (fun ch => 0 <= ch < 256) chs.
Proof. intros (q & _ & <-). apply typed_bytes. Qed.

Lemma keys_length s chs : keys s chs -> (length chs <= 255)%nat.
Proof. intros (q & Hq & <-). pose proof (Keyboard.kb_len _ _ Hq). pose proof (typed_length (Keyboard.kh (kbd s)) q). lia. Qed.

Lemma readchar_keys s chs : keys s chs ->
  exists k, on_kbd (Keyboard.readchar process_scancode) s = Ok (default (-1) (head chs), with_kbd k s) /\ keys (with_kbd k s) (tail chs) /\
    (chs = [] -> Keyboard.kbd_rep k []).
Proof.
  intros (q & Hq & <-). destruct (Keyboard.readchar_ok process_scancode _ _ Hq) as (k & R & Hk & Hh). exists k.
  pose proof (scan_typed (Keyboard.kh (kbd s)) q) as Hs. cbv zeta in Hs. unfold on_kbd. rewrite (zoom_ok _ _ _ _ _ _ R).
  destruct (typed (Keyboard.kh (kbd s)) q) as [|ch chs]; destruct Hs as [H1 H2]; rewrite H1; (split; [done|]).
  - rewrite H2 in Hk. split; [|done]. by exists [].
  - split; [|done]. eexists. split; [exact Hk|]. simpl. by rewrite Hh.
Qed.

(** ** The line being read *)

Definition holds (b : gmap Z Z) (buf : Z) (line : list Z) : Prop :=
  forall i ch, line !! i = Some ch -> b !! (buf + Z.of_nat i) = Some ch.
Definition buffer (b : gmap Z Z) (buf len : Z) : Prop := forall i, 0 <= i < len -> is_Some (b !! (buf + i)).

Record reading (s : cio) (len buf : Z) (line : list Z) : Prop := {
  rg_count : reading_count s = Z.of_nat (length line);
  rg_length : reading_length s = len;
  rg_buf : reading_buf s = buf;
  rg_holds : holds (bytes s) buf line;
  rg_buffer : buffer (bytes s) buf len
}.

(** What reading a line leaves alone. *)
Record same_io (s s' : cio) (buf len : Z) : Prop := {
  si_net : net s' = net s;
  si_lock : print_lock s' = print_lock s /\ tstates s' = tstates s;
  si_queue : readline_queue s' = readline_queue s /\ my_msg s' = my_msg s;
  si_bytes : forall a, ~ buf <= a < buf + len -> bytes s' !! a = bytes s !! a
}.

Lemma same_io_refl s buf len : same_io s s buf len.
Proof. by split. Qed.
Lemma same_io_trans s1 s2 s3 buf len : same_io s1 s2 buf len -> same_io s2 s3 buf len -> same_io s1 s3 buf len.
Proof. intros [A1 [A2 A2'] [A3 A3'] A4] [B1 [B2 B2'] [B3 B3'] B4]. split; [congruence|split; congruence..|]. intros a Ha. rewrite B4, A4; done. Qed.

Lemma holds_edit b buf line ch : holds b buf line ->
  holds (if ch =? 8 then b else <[buf + Z.of_nat (length line) := ch]> b) buf (LineSpec.edit line ch).
Proof.
  intros H i c. unfold LineSpec.edit. destruct (ch =? 8); [intros Hi; apply H; by apply lookup_take_Some in Hi as [? _]|].
  intros [Hi|[Hi E]]%lookup_app_Some.
  - rewrite lookup_insert_ne; [by apply H|]. apply lookup_lt_Some in Hi. lia.
  - destruct (i - length line)%nat as [|k] eqn:Ek; [|by destruct k]. injection E as ->.
    replace i with (length line) by lia. by rewrite lookup_insert_eq.
Qed.

(** One character: echoed, and added to the line. *)
Lemma char_ok s t len buf line ch :
  Console.term_rep (con s) t -> reading s len buf line -> Z.of_nat (length line) < len -> 0 <= ch < 256 ->
  exists s', (echo_char ch;; edit_char ch) s = Ok (tt, s') /\
    Console.term_rep (con s') (LineSpec.echo line ch t) /\ reading s' len buf (LineSpec.edit line ch) /\
    same_io s s' buf len /\ kbd s' = kbd s /\ read_waiting_thr s' = read_waiting_thr s.
Proof.
  intros Ht [R1 R2 R3 R4 R5] Hl Hch.
  assert (He : exists c', echo_char ch s = Ok (tt, with_con c' s) /\ Console.term_rep c' (LineSpec.echo line ch t)).
  { unfold echo_char, LineSpec.echo. rewrite (bind_ok get _ s s s eq_refl), R1. destruct ((ch =? 8) && _); cbn [negb].
    - exists (con s). split; [by destruct s|done].
    - destruct (Console.putbyte_ok (con s) t ch Ht Hch) as (c' & R & Hr & _). exists c'. split; [|done].
      by rewrite (bind_ok _ _ _ _ _ (zoom_ok con with_con _ _ _ _ R)). }
  destruct He as (c' & He & Ht'). rewrite (bind_ok _ _ _ _ _ He).
  pose proof (holds_edit _ buf line ch R4) as Hh. unfold edit_char.
  rewrite (bind_ok get _ (with_con c' s) (with_con c' s) (with_con c' s) eq_refl). simpl reading_count. simpl reading_buf.
  unfold LineSpec.edit in *. destruct (Z.eqb_spec ch 8) as [E|E].
  - eexists. split; [reflexivity|]. split; [done|]. split; [|done]. split; simpl; try done.
    rewrite R1, length_take. destruct (Z.eqb_spec (Z.of_nat (length line)) 0); lia.
  - destruct (R5 (Z.of_nat (length line)) ltac:(lia)) as [v Hv]. unfold store_byte. simpl. rewrite R1, R3. munfold. simpl.
    rewrite Hv. eexists. split; [reflexivity|]. split; [done|]. split; [|split; [|done]].
    + split; simpl; try done; [rewrite length_app; simpl; lia|]. intros i Hi. destruct (decide (i = Z.of_nat (length line))) as [->|].
      * rewrite lookup_insert_eq. eauto.
      * rewrite lookup_insert_ne by lia. by apply R5.
    + split; simpl; try done. intros a Ha. rewrite lookup_insert_ne; [done|]. lia.
Qed.

Lemma readline_loop_ok thr len buf chs : forall fuel s t line,
  keys s chs -> Console.term_rep (con s) t -> reading s len buf line -> (length chs < fuel)%nat ->
  exists s', same_io s s' buf len /\
    match LineSpec.feed len line t chs with
    | LineSpec.Done line' t' rest =>
        readline_loop fuel thr s = Ok (true, s') /\ keys s' rest /\ Console.term_rep (con s') t' /\
        reading s' len buf line' /\ read_waiting_thr s' = read_waiting_thr s
    | LineSpec.More line' t' =>
        readline_loop fuel thr s = Ok (false, s') /\ Keyboard.kbd_rep (kbd s') [] /\ Console.term_rep (con s') t' /\
        reading s' len buf line' /\ read_waiting_thr s' = thr
    end.
Proof.
  induction chs as [|ch chs IH]; intros fuel s t line Hk Ht Hr Hf; (destruct fuel as [|fuel]; [simpl in Hf; lia|]);
    cbn [readline_loop LineSpec.feed]; rewrite (bind_ok get _ s s s eq_refl), (rg_count _ _ _ _ Hr), (rg_length _ _ _ _ Hr);
    (destruct (Z.ltb_spec (Z.of_nat (length line)) len) as [Hl|Hl]; [|exists s; split; [apply same_io_refl|done]]);
    destruct (readchar_keys s _ Hk) as (k & Rk & Hk' & Hke); rewrite (bind_ok _ _ _ _ _ Rk).
  - eexists. split; [|split; [reflexivity|]]; [by split|]. split; [by apply Hke|]. split; [done|]. split; [|done]. destruct Hr. by split.
  - pose proof (keys_bytes _ _ Hk) as Hb. apply Forall_cons_iff in Hb as [Hch _]. change (default (-1) (head (ch :: chs))) with ch. simpl tail in Hk'.
    rewrite (proj2 (Z.eqb_neq ch (-1))) by lia.
    assert (Hr1 : reading (with_kbd k s) len buf line) by (destruct Hr; by split).
    destruct (char_ok (with_kbd k s) t len buf line ch Ht Hr1 Hl Hch) as (s1 & R1 & Ht1 & Hr2 & Hs & Hkb & Hw).
    assert (Hs' : same_io s s1 buf len) by (destruct Hs; by split). assert (Hk1 : keys s1 chs) by (unfold keys; by rewrite Hkb).
    apply bind_inv in R1 as ([] & s0 & R0 & R1). rewrite (bind_ok _ _ _ _ _ R0), (bind_ok _ _ _ _ _ R1).
    destruct (ch =? 10); [by exists s1|].
    destruct (IH fuel s1 _ _ Hk1 Ht1 Hr2 ltac:(simpl in Hf; lia)) as (s' & Hss & H). exists s'. split; [by eapply same_io_trans|].
    rewrite Hw in H. exact H.
Qed.
(** ** Answers *)

Definition response (r : Z) (mm : msg_t) : msg_t := set_w0 r (set_type RESPONSE mm).

(** A request that waits for its answer: its node points to it and its core has
    a channel. *)
Definition request_ok (n : Message.net) (msg : Z) (mm : msg_t) : Prop :=
  msg <> 0 /\ Message.msgs n !! msg = Some mm /\ node_thr mm = msg /\ 1 <= req_cpu mm <= Message.num_worker_cores n.

Lemma io_upd_msg s msg mm f : Message.msgs (net s) !! msg = Some mm ->
  upd_msg msg f s = Ok (tt, with_net (Message.with_msgs (<[msg := f mm]> (Message.msgs (net s))) (net s)) s).
Proof. intros H. unfold upd_msg, on_net. by rewrite (zoom_ok _ _ _ _ _ _ (Message.upd_ok _ _ _ f H)). Qed.

Lemma io_rd_msg s msg mm : Message.msgs (net s) !! msg = Some mm -> rd_msg msg s = Ok (mm, s).
Proof. intros H. unfold rd_msg, on_net. rewrite (zoom_ok _ _ _ _ _ _ (Message.rd_ok _ _ _ H)). by destruct s. Qed.

(** Rewriting a request keeps the channels. *)
Lemma rewritten n c msg mm mm' : Message.net_rep n c -> Message.msgs n !! msg = Some mm -> node_thr mm' = node_thr mm ->
  Message.net_rep (Message.with_msgs (<[msg := mm']> (Message.msgs n)) n) c.
Proof.
  intros Hr Hm Ht. apply Message.net_rep_msgs; [done|]. intros m0 mm0 H0. destruct (decide (m0 = msg)) as [->|].
  - exists mm'. rewrite lookup_insert_eq. split; [done|congruence].
  - exists mm0. by rewrite lookup_insert_ne.
Qed.

(** The two halves of answering a request: the message, and sending it. *)
Lemma answer_run s c msg mm mm' : Message.net_rep (net s) c -> request_ok (net s) msg mm -> node_thr mm' = msg ->
  let n1 := Message.with_msgs (<[msg := mm']> (Message.msgs (net s))) (net s) in
  exists n', manager_send_msg msg (req_cpu mm) (with_net n1 s) = Ok (tt, with_net n' s) /\
    Message.net_rep n' (ChanSpec.send_worker c (req_cpu mm) msg) /\ Message.msgs n' = <[msg := mm']> (Message.msgs (net s)) /\
    Message.num_worker_cores n' = Message.num_worker_cores (net s).
Proof.
  intros Hr (H0 & Hm & Ht & Hc) Ht' n1. assert (Hr1 : Message.net_rep n1 c) by (eapply rewritten; [done..|congruence]).
  destruct (Message.manager_send_ok n1 c msg (req_cpu mm) Hr1) as (p & R & Hr'); [|done|].
  - split; [done|]. exists mm'. split; [apply lookup_insert_eq|done].
  - eexists. split; [|split; [exact Hr'|done]]. unfold manager_send_msg, on_net.
    rewrite (zoom_ok net with_net _ (with_net n1 s) _ _ R). done.
Qed.

Lemma respond_run s c msg mm r : Message.net_rep (net s) c -> request_ok (net s) msg mm ->
  exists n', respond msg r s = Ok (tt, with_net n' s) /\
    Message.net_rep n' (ChanSpec.send_worker c (req_cpu mm) msg) /\ Message.msgs n' = <[msg := response r mm]> (Message.msgs (net s)) /\
    Message.num_worker_cores n' = Message.num_worker_cores (net s).
Proof.
  intros Hr Hq. pose proof Hq as (H0 & Hm & Ht & Hc).
  destruct (answer_run s c msg mm (response r mm) Hr Hq Ht) as (n' & R & Hr' & Hm'). exists n'. split; [|done].
  unfold respond. rewrite (bind_ok _ _ _ _ _ (io_upd_msg s msg mm _ Hm)).
  erewrite (bind_ok (upd_msg msg _)) by (apply io_upd_msg; simpl; apply lookup_insert_eq). simpl. rewrite insert_insert_eq.
  erewrite (bind_ok (rd_msg msg)) by (apply io_rd_msg; simpl; apply lookup_insert_eq). exact R.
Qed.

(** (C23) [smp_syscall_readline], when no other thread is reading: the characters typed
    ahead are edited and echoed up to the end of the first line, and the request
    is answered with the length of the line, which is in the caller's buffer;
    when they end before the line does, the thread is left waiting with the line
    so far.  Nothing outside the buffer is written. *)
Theorem smp_syscall_readline_refines s t c chs msg mm :
  let len := Data.io_len mm in let buf := Data.io_buf mm in
  keys s chs -> Console.term_rep (con s) t -> Message.net_rep (net s) c -> request_ok (net s) msg mm ->
  read_waiting_thr s = 0 -> buffer (bytes s) buf len ->
  exists s', smp_syscall_readline msg s = Ok (tt, s') /\
    (forall a, ~ buf <= a < buf + len -> bytes s' !! a = bytes s !! a) /\ readline_queue s' = readline_queue s /\
    match LineSpec.feed len [] t chs with
    | LineSpec.Done line t' rest =>
        keys s' rest /\ Console.term_rep (con s') t' /\ holds (bytes s') buf line /\ read_waiting_thr s' = 0 /\
        Message.net_rep (net s') (ChanSpec.send_worker c (req_cpu mm) msg) /\
        Message.msgs (net s') = <[msg := response (Z.of_nat (length line)) mm]> (Message.msgs (net s))
    | LineSpec.More line t' =>
        Keyboard.kbd_rep (kbd s') [] /\ Console.term_rep (con s') t' /\ reading s' len buf line /\
        read_waiting_thr s' = req_thr mm /\ net s' = net s
    end.
Proof.
  intros len buf Hk Ht Hr Hq Hw Hb. pose proof Hq as (H0 & Hm & Htr & Hc).
  set (s1 := with_reading 0 len buf s).
  assert (Hrd : reading s1 len buf []) by (by split). pose proof (keys_length s chs Hk).
  destruct (readline_loop_ok (req_thr mm) len buf chs 257 s1 t [] Hk Ht Hrd ltac:(lia)) as (s2 & [S1 [S2 S2'] [S3 S3'] S4] & H2).
  unfold smp_syscall_readline, has_read_waiting_thr. erewrite bind_ok by reflexivity. rewrite Hw. cbn [Z.eqb negb].
  rewrite (bind_ok _ _ _ _ _ (io_rd_msg s msg mm Hm)). erewrite bind_ok by reflexivity. fold len buf s1.
  destruct (LineSpec.feed len [] t chs) as [line t' rest|line t'].
  - destruct H2 as (R & Hk2 & Ht2 & [C1 C2 C3 C4 C5] & Hw2). simpl in S1, Hw2. rewrite (bind_ok _ _ _ _ _ R), (bind_ok get _ s2 s2 s2 eq_refl), C1.
    rewrite <- S1 in Hr, Hq. destruct (respond_run s2 c msg mm (Z.of_nat (length line)) Hr Hq) as (n' & R' & Hr' & Hm' & _).
    exists (with_net n' s2). rewrite S1 in Hm'. split; [done|]. split; [done|]. split; [done|]. split; [exact Hk2|].
    do 2 (split; [done|]). split; [simpl; congruence|done].
  - destruct H2 as (R & Hk2 & Ht2 & Hrd2 & Hw2). rewrite (bind_ok _ _ _ _ _ R). by exists s2.
Qed.

(** While a line is being read no scancode waits, because the interrupt that
    brought one has used it; so one scancode more is at most one character. *)
Lemma typed_one h sc : typed h [sc] = [] \/ exists ch, typed h [sc] = [ch] /\ 0 <= ch < 256.
Proof.
  cbn [typed]. destruct (process_scancode h sc) as [h' a]. destruct (_ && _); [right|by left].
  eexists. split; [done|]. apply Keyboard.getchar_range.
Qed.

Lemma interrupt_char s sc : Keyboard.kbd_rep (kbd s) [] ->
  exists k1 k2, on_kbd (Keyboard.buffer_scancode sc) s = Ok (tt, with_kbd k1 s) /\
    on_kbd (Keyboard.readchar process_scancode) (with_kbd k1 s) =
      Ok (default (-1) (head (typed (Keyboard.kh (kbd s)) [sc])), with_kbd k2 s) /\ Keyboard.kbd_rep k2 [].
Proof.
  intros Hk. destruct (Keyboard.buffer_ok (kbd s) [] sc Hk) as (k1 & R1 & Hk1 & Hh).
  destruct (Keyboard.readchar_ok process_scancode k1 _ Hk1) as (k2 & R2 & Hk2 & _). exists k1, k2.
  unfold on_kbd. rewrite (zoom_ok _ _ _ _ _ _ R1). split; [done|]. rewrite (zoom_ok kbd with_kbd _ (with_kbd k1 s) _ _ R2).
  rewrite Hh in *. revert Hk2. change (RingSpec.put [] sc) with [sc]. cbn [typed Keyboard.scan].
  destruct (process_scancode (Keyboard.kh (kbd s)) sc) as [h' a]. by destruct (_ && _).
Qed.

Lemma edit_length line ch : (length (LineSpec.edit line ch) <= S (length line))%nat.
Proof. unfold LineSpec.edit. destruct (ch =? 8); [rewrite length_take|rewrite length_app; simpl]; lia. Qed.

(** [resume_reading_thr], when no other thread waits to read. *)
Lemma resume_ok s t c thr msg mm len buf line ch :
  Console.term_rep (con s) t -> Message.net_rep (net s) c -> request_ok (net s) msg mm ->
  read_waiting_thr s = thr -> my_msg s !! thr = Some msg -> readline_queue s = [] ->
  reading s len buf line -> Z.of_nat (length line) < len -> 0 <= ch < 256 ->
  exists s', same_io (with_net (net s') s) s' buf len /\ kbd s' = kbd s /\
    match LineSpec.feed len line t [ch] with
    | LineSpec.Done line' t' _ =>
        resume_reading_thr ch s = Ok (thr, s') /\ Console.term_rep (con s') t' /\ holds (bytes s') buf line' /\ read_waiting_thr s' = 0 /\
        net s' = Message.with_msgs (<[msg := response (Z.of_nat (length line')) mm]> (Message.msgs (net s))) (net s)
    | LineSpec.More line' t' =>
        resume_reading_thr ch s = Ok (0, s') /\ Console.term_rep (con s') t' /\ reading s' len buf line' /\
        read_waiting_thr s' = thr /\ net s' = net s
    end.
Proof.
  intros Ht Hr (H0 & Hm & Htr & Hc) Hw Hmy Hq Hrd Hl Hch.
  destruct (char_ok s t len buf line ch Ht Hrd Hl Hch) as (s1 & R1 & Ht1 & Hr1 & [S1 [S2 S2'] [S3 S3'] S4] & Hkb & Hw1).
  pose proof Hr1 as [C1 C2 C3 C4 C5]. pose proof (edit_length line ch) as Hel.
  unfold resume_reading_thr. apply bind_inv in R1 as ([] & s0 & R0 & R1). rewrite (bind_ok _ _ _ _ _ R0), (bind_ok _ _ _ _ _ R1).
  rewrite (bind_ok get _ s1 s1 s1 eq_refl), C1, C2, Hw1, Hw, S3', Hmy. cbn [LineSpec.feed].
  rewrite (proj2 (Z.ltb_lt _ _) Hl). revert C1 C4 Ht1 Hr1 Hel. generalize (LineSpec.edit line ch) as line', (LineSpec.echo line ch t) as t'.
  intros line' t' C1 C4 Ht1 Hr1 Hel.
  destruct ((Z.of_nat (length line') =? len) || (ch =? 10)) eqn:E; cycle 1.
  { apply orb_false_iff in E as [E1 E2]. rewrite E2. apply Z.eqb_neq in E1. rewrite (proj2 (Z.ltb_lt _ _)) by lia.
    exists s1. split; [by split|]. split; [done|]. split; [done|]. split; [done|]. split; [done|]. split; [congruence|done]. }
  erewrite (bind_ok (deref _)) by reflexivity. assert (Hm1 : Message.msgs (net s1) !! msg = Some mm) by congruence.
  rewrite (bind_ok _ _ _ _ _ (io_upd_msg s1 msg mm _ Hm1)).
  erewrite (bind_ok (upd_msg msg _)) by (apply io_upd_msg; simpl; apply lookup_insert_eq). simpl. rewrite insert_insert_eq, S3, Hq.
  cbn [QSpec.dequeue]. rewrite S1. eexists. split; [|split; [|]]; cycle 1; cycle 1.
  - destruct (ch =? 10); [|rewrite orb_false_r in E; apply Z.eqb_eq in E; rewrite (proj2 (Z.ltb_ge _ _)) by lia];
      (split; [reflexivity|done]).
  - split; simpl; [done..|]. intros a Ha. by apply S4.
  - done.
Qed.

(** One keyboard interrupt while a thread reads a line: the character it brings,
    if any, is echoed and added to the line; when it completes the line, the
    thread gets the answer.  The buffer of scancodes is empty again. *)
Theorem keyboard_interrupt_refines s t c thr msg mm line sc :
  let len := Data.io_len mm in let buf := Data.io_buf mm in
  Keyboard.kbd_rep (kbd s) [] -> Console.term_rep (con s) t -> Message.net_rep (net s) c -> request_ok (net s) msg mm ->
  thr <> 0 -> read_waiting_thr s = thr -> my_msg s !! thr = Some msg -> readline_queue s = [] ->
  reading s len buf line -> Z.of_nat (length line) < len ->
  exists s', keyboard_interrupt_handler sc s = Ok (tt, s') /\ Keyboard.kbd_rep (kbd s') [] /\
    (forall a, ~ buf <= a < buf + len -> bytes s' !! a = bytes s !! a) /\
    match LineSpec.feed len line t (typed (Keyboard.kh (kbd s)) [sc]) with
    | LineSpec.Done line' t' _ =>
        Console.term_rep (con s') t' /\ holds (bytes s') buf line' /\ read_waiting_thr s' = 0 /\
        Message.net_rep (net s') (ChanSpec.send_worker c (req_cpu mm) msg) /\
        Message.msgs (net s') = <[msg := response (Z.of_nat (length line')) mm]> (Message.msgs (net s))
    | LineSpec.More line' t' =>
        Console.term_rep (con s') t' /\ reading s' len buf line' /\ read_waiting_thr s' = thr /\ net s' = net s
    end.
Proof.
  intros len buf Hk Ht Hr Hq H0 Hw Hmy Hqu Hrd Hl. pose proof Hq as (Hm0 & Hm & Htr & Hc).
  destruct (interrupt_char s sc Hk) as (k1 & k2 & R1 & R2 & Hk2). unfold keyboard_interrupt_handler. rewrite (bind_ok _ _ _ _ _ R1).
  unfold has_read_waiting_thr. erewrite bind_ok by reflexivity. simpl read_waiting_thr. rewrite Hw, (proj2 (Z.eqb_neq thr 0)) by done. cbn [negb].
  destruct (typed_one (Keyboard.kh (kbd s)) sc) as [E|(ch & E & Hch)]; rewrite E in *.
  - erewrite bind_ok by (rewrite (bind_ok _ _ _ _ _ R2); reflexivity).
    cbn [Z.eqb negb]. eexists. split; [reflexivity|]. split; [exact Hk2|]. split; [done|]. cbn [LineSpec.feed].
    rewrite (proj2 (Z.ltb_lt _ _) Hl). split; [done|]. split; [|done]. destruct Hrd. by split.
  - assert (Hrd' : reading (with_kbd k2 s) len buf line) by (destruct Hrd; by split).
    destruct (resume_ok (with_kbd k2 s) t c thr msg mm len buf line ch Ht Hr Hq Hw Hmy Hqu Hrd' Hl Hch) as (s' & [A1 A2 [A3 A3'] A4] & Hkb & H).
    simpl in A3'. destruct (LineSpec.feed len line t [ch]) as [line' t' rest|line' t'].
    + destruct H as (R & Ht' & Hh & Hw' & Hn).
      destruct (answer_run (with_kbd k2 s) c msg mm (response (Z.of_nat (length line')) mm) Hr Hq Htr) as (n' & R' & Hr' & Hm' & _).
      exists (with_net n' s'). split; [|split; [|split; [|done]]].
      * erewrite bind_ok; cycle 1.
        { rewrite (bind_ok _ _ _ _ _ R2). change (default (-1) (head [ch])) with ch. rewrite (proj2 (Z.eqb_neq ch (-1))) by lia. exact R. }
        rewrite (proj2 (Z.eqb_neq thr 0)) by done. cbn [negb]. rewrite (bind_ok get _ s' s' s' eq_refl), A3', Hmy.
        erewrite (bind_ok (deref _)) by reflexivity.
        erewrite (bind_ok (rd_msg msg)) by (apply io_rd_msg; rewrite Hn; simpl; apply lookup_insert_eq). simpl.
        revert R'. unfold manager_send_msg, on_net, zoom. simpl. rewrite Hn. simpl. intros R'.
        destruct (Message.manager_send_msg _ _ _) as [[[] n2]| | | |]; try done. injection R' as [= ->]. done.
      * simpl. by rewrite Hkb.
      * intros a Ha. simpl. by rewrite A4.
    + destruct H as (R & Ht' & Hrd2 & Hw' & Hn). exists s'. split; [|split; [|split; [|done]]].
      * erewrite bind_ok; cycle 1.
        { rewrite (bind_ok _ _ _ _ _ R2). change (default (-1) (head [ch])) with ch. rewrite (proj2 (Z.eqb_neq ch (-1))) by lia. exact R. }
        done.
      * by rewrite Hkb.
      * intros a Ha. by rewrite A4.
Qed.
(** ** Output and the cursor *)

Definition free_lock : Mutex.mutex_t := Mutex.mk_mutex (-1) [].
Definition held : Mutex.mutex_t := Mutex.mk_mutex me [].

Lemma lock_print_run s : print_lock s = free_lock -> lock_print s = Ok (tt, with_print_lock held (tstates s) s).
Proof. intros H. unfold lock_print, on_print_lock, zoom. rewrite (Mutex.mutex_lock_free _ me) by done. done. Qed.

Lemma unlock_print_run s : 0 <= me -> print_lock s = held -> unlock_print s = Ok (tt, with_print_lock free_lock (tstates s) s).
Proof. intros H0 H. unfold unlock_print, on_print_lock, zoom. rewrite (Mutex.mutex_unlock_free _ me) by done. done. Qed.

(** A section under [print_lock] that only uses the console. *)
Lemma printing {A} (x : M Console.console A) s a c' : 0 <= me -> print_lock s = free_lock -> x (con s) = Ok (a, c') ->
  (lock_print;; r ← on_con x; unlock_print;; mret r) s = Ok (a, with_con c' s).
Proof.
  intros H0 Hl R. rewrite (bind_ok _ _ _ _ _ (lock_print_run s Hl)).
  erewrite bind_ok by (apply (zoom_ok con with_con x (with_print_lock held (tstates s) s) _ _ R)).
  erewrite bind_ok by (apply unlock_print_run; done). unfold mret, M_ret. f_equal. f_equal. destruct s. simpl in *. by subst.
Qed.

Lemma bind_assoc {S A B C} (x : M S A) (f : A -> M S B) (g : B -> M S C) s :
  ((x ≫= f) ≫= g) s = (x ≫= (fun a => f a ≫= g)) s.
Proof. unfold mbind, M_bind. by destruct (x s) as [[a s']| | | |]. Qed.

Lemma load_bytes_run s a len : buffer (bytes s) a len -> load_bytes a len s = Ok (fun i => default 0 (bytes s !! (a + i)), s).
Proof.
  intros H. unfold load_bytes. rewrite (proj2 (forallb_forall _ _)); [done|]. intros i Hi. apply bool_decide_eq_true, H.
  apply list_elem_of_In, elem_of_seqZ in Hi. lia.
Qed.

Lemma smp_syscall_print_ok s t c msg mm :
  let len := Data.io_len mm in let buf := Data.io_buf mm in
  0 <= me -> print_lock s = free_lock -> Console.term_rep (con s) t -> Message.net_rep (net s) c -> request_ok (net s) msg mm ->
  buf <> 0 -> 0 <= len -> buffer (bytes s) buf len -> (forall a v, bytes s !! a = Some v -> 0 <= v < 256) ->
  exists s', smp_syscall_print msg s = Ok (tt, s') /\ print_lock s' = free_lock /\ bytes s' = bytes s /\
    Console.term_rep (con s') (fold_left (fun t i => TermSpec.putc (default 0 (bytes s !! (buf + i))) t) (seqZ 0 len) t) /\
    Message.net_rep (net s') (ChanSpec.send_worker c (req_cpu mm) msg) /\
    Message.msgs (net s') = <[msg := response 0 mm]> (Message.msgs (net s)) /\
    Message.num_worker_cores (net s') = Message.num_worker_cores (net s).
Proof.
  intros len buf H0 Hl Ht Hr Hq Hb0 Hlen Hb Hv. pose proof Hq as (_ & Hm & _ & _).
  destruct (Console.putbytes_loop_ok (Z.to_nat len) (fun i => default 0 (bytes s !! (buf + i))) 0 (con s) t Ht) as (c' & R & Ht' & _).
  { intros j. destruct (bytes s !! (buf + j)) eqn:E; simpl; [by eapply Hv|lia]. }
  rewrite Z2Nat.id in Ht' by done. destruct (respond_run (with_con c' s) c msg mm 0 Hr Hq) as (n' & R' & Hr' & Hm' & Hw').
  exists (with_net n' (with_con c' s)). split; [|done].
  unfold smp_syscall_print. rewrite (bind_ok _ _ _ _ _ (io_rd_msg s msg mm Hm)). fold buf len. rewrite (proj2 (Z.eqb_neq buf 0)) by done.
  pose proof (printing (Console.putbytes false (fun i => default 0 (bytes s !! (buf + i))) len) s tt c' H0 Hl R) as P.
  rewrite (bind_ok _ _ _ _ _ (lock_print_run s Hl)) in P. rewrite (bind_ok _ _ _ _ _ (lock_print_run s Hl)), bind_assoc.
  rewrite (bind_ok _ _ _ _ _ (load_bytes_run (with_print_lock held (tstates s) s) buf len Hb)). simpl bytes.
  apply bind_inv in P as (u & s1 & P1 & P2). rewrite (bind_ok _ _ _ _ _ P1). apply bind_inv in P2 as (u' & s2 & P2 & P3). injection P3 as [= _ ->].
  rewrite (bind_ok _ _ _ _ _ P2). exact R'.
Qed.

(** [smp_syscall_print] prints the bytes of the buffer in order, without another
    handler's output in between, releases the lock and answers the request. *)
Theorem smp_syscall_print_refines s t c msg mm :
  let len := Data.io_len mm in let buf := Data.io_buf mm in
  0 <= me -> print_lock s = free_lock -> Console.term_rep (con s) t -> Message.net_rep (net s) c -> request_ok (net s) msg mm ->
  buf <> 0 -> 0 <= len -> buffer (bytes s) buf len -> (forall a v, bytes s !! a = Some v -> 0 <= v < 256) ->
  exists s', smp_syscall_print msg s = Ok (tt, s') /\ print_lock s' = free_lock /\ bytes s' = bytes s /\
    Console.term_rep (con s') (fold_left (fun t i => TermSpec.putc (default 0 (bytes s !! (buf + i))) t) (seqZ 0 len) t) /\
    Message.net_rep (net s') (ChanSpec.send_worker c (req_cpu mm) msg) /\
    Message.msgs (net s') = <[msg := response 0 mm]> (Message.msgs (net s)) /\
    Message.num_worker_cores (net s') = Message.num_worker_cores (net s).
Proof. exact (smp_syscall_print_ok s t c msg mm). Qed.

(** A cursor position that [set_cursor_pos] accepts is the one that the next
    [get_cursor_pos] answers; a position off the screen is answered with -1. *)
Theorem cursor_pos_roundtrip s t c m1 mm1 m2 mm2 :
  0 <= me -> print_lock s = free_lock -> Console.term_rep (con s) t -> Message.net_rep (net s) c ->
  request_ok (net s) m1 mm1 -> request_ok (net s) m2 mm2 -> m1 <> m2 ->
  let row := Data.cur_row mm1 in let col := Data.cur_col mm1 in
  let on_screen := Console.CHECK_ROW row && Console.CHECK_COL col in
  exists s', (smp_syscall_set_cursor_pos m1;; smp_syscall_get_cursor_pos m2) s = Ok (tt, s') /\
    Message.msgs (net s') !! m1 = Some (response (if on_screen then 0 else -1) mm1) /\
    Message.msgs (net s') !! m2 = Some (if on_screen then set_w1 col (response row mm2)
                                        else set_w1 (TermSpec.col t) (response (TermSpec.row t) mm2)) /\
    Message.net_rep (net s') (ChanSpec.send_worker (ChanSpec.send_worker c (req_cpu mm1) m1) (req_cpu mm2) m2).
Proof.
  intros H0 Hl Ht Hr Hq1 Hq2 Hne row col on_screen. pose proof Hq1 as (_ & Hm1 & _ & _).
  set (r := if on_screen then 0 else -1). set (t1 := if on_screen then TermSpec.move row col t else t).
  assert (exists c1, Console.set_cursor row col (con s) = Ok (r, c1) /\ Console.term_rep c1 t1) as (c1 & R1 & Ht1).
  { pose proof (Console.set_cursor_ok (con s) t row col Ht) as Hs. unfold r, t1, on_screen. destruct (Console.CHECK_ROW row && Console.CHECK_COL col).
    - destruct Hs as (c1 & R1 & _ & Ht1 & _). eauto.
    - eauto. }
  destruct (respond_run (with_con c1 s) c m1 mm1 r Hr Hq1) as (n1 & R2 & Hr1 & Hn1 & Hw1). simpl net in Hn1, Hw1.
  assert (Hset : smp_syscall_set_cursor_pos m1 s = Ok (tt, with_net n1 (with_con c1 s))).
  { unfold smp_syscall_set_cursor_pos. rewrite (bind_ok _ _ _ _ _ (io_rd_msg s m1 mm1 Hm1)).
    pose proof (printing (Console.set_cursor row col) s r c1 H0 Hl R1) as P.
    apply bind_inv in P as ([] & s1 & P1 & P). rewrite (bind_ok _ _ _ _ _ P1).
    apply bind_inv in P as (u & s2 & P2 & P). unfold row, col in P2. rewrite (bind_ok _ _ _ _ _ P2).
    apply bind_inv in P as ([] & s3 & P3 & P). rewrite (bind_ok _ _ _ _ _ P3). injection P as -> ->. exact R2. }
  rewrite (bind_ok _ _ _ _ _ Hset). set (s1 := with_net n1 (with_con c1 s)).
  assert (Hq2' : request_ok (net s1) m2 mm2).
  { destruct Hq2 as (Q1 & Q2 & Q3 & Q4). split; [done|]. simpl. rewrite Hn1, lookup_insert_ne by done. split; [done|]. split; [done|].
    by rewrite Hw1. }
  pose proof Hq2' as (_ & Hm2 & Ht2 & _). destruct Hq2 as (Q1 & _).
  set (mm2' := set_w1 (TermSpec.col t1) (response (TermSpec.row t1) mm2)).
  destruct (answer_run s1 (ChanSpec.send_worker c (req_cpu mm1) m1) m2 mm2 mm2' Hr1 Hq2' Ht2) as (n2 & R3 & Hr2 & Hn2 & _).
  exists (with_net n2 s1). assert (Hcur : Console.get_cursor (con s1) = Ok ((TermSpec.row t1, TermSpec.col t1), con s1)).
  { unfold Console.get_cursor. simpl con. rewrite (Console.rp_cursor _ _ Ht1).
    pose proof (Console.rp_row _ _ Ht1). pose proof (Console.rp_col _ _ Ht1). by rewrite Console.P2R_eq, Console.P2C_eq by lia. }
  split; [|split; [|split; [|done]]].
  - pose proof (printing Console.get_cursor s1 _ _ H0 Hl Hcur) as P. unfold smp_syscall_get_cursor_pos.
    apply bind_inv in P as ([] & s2 & P1 & P). rewrite (bind_ok _ _ _ _ _ P1).
    apply bind_inv in P as (u & s3 & P2 & P). rewrite (bind_ok _ _ _ _ _ P2).
    apply bind_inv in P as ([] & s4 & P3 & P). destruct u as [r0 c0]. rewrite (bind_ok _ _ _ _ _ P3). injection P as -> -> ->.
    change (with_con (con s1) s1) with s1.
    rewrite (bind_ok _ _ _ _ _ (io_upd_msg s1 m2 mm2 _ Hm2)).
    erewrite (bind_ok (upd_msg m2 _)) by (apply io_upd_msg; simpl; apply lookup_insert_eq). simpl. rewrite insert_insert_eq.
    erewrite (bind_ok (upd_msg m2 _)) by (apply io_upd_msg; simpl; apply lookup_insert_eq). simpl. rewrite insert_insert_eq.
    erewrite (bind_ok (rd_msg m2)) by (apply io_rd_msg; simpl; apply lookup_insert_eq). exact R3.
  - simpl. rewrite Hn2, lookup_insert_ne by done. simpl. by rewrite Hn1, lookup_insert_eq.
  - simpl. rewrite Hn2, lookup_insert_eq. unfold mm2', t1. by destruct on_screen.
Qed.
End handlers.

(** ** A line typed in two parts *)

(** ** Two threads on core 1 that read *)

Definition demo_request (msg thr buf : Z) : msg_t := mk_msg msg thr 1 READLINE 3 buf 0 0.
Definition demo_net : Message.net :=
  Message.with_msgs (<[500 := demo_request 500 50 1000]> (<[600 := demo_request 600 60 2000]> (Message.msgs Message.demo_boot))) Message.demo_boot.
Definition demo_bytes : gmap Z Z := {[1000 := 0; 1001 := 0; 1002 := 0; 2000 := 0; 2001 := 0; 2002 := 0]}.
Definition demo_io (kb : Keyboard.keyboard) : cio :=
  mk_cio (KH := unit) Console.demo_console kb demo_net free_lock (fun _ => NORMAL) {[50 := 500; 60 := 600]} demo_bytes 0 0 0 0 [].
Definition no_keys : Keyboard.keyboard := Keyboard.mk_kbd (fun _ => 0) 0 0 tt.

Lemma demo_io_net_rep : Message.net_rep demo_net ChanSpec.empty.
Proof.
  apply Message.net_rep_msgs; [exact Message.demo_boot_rep|]. intros m mm H.
  assert (E : Message.msgs Message.demo_boot = {[100 := mk_msg 100 7 1 WAIT 5 0 0 0]}) by (vm_compute; reflexivity).
  rewrite E in *. apply lookup_singleton_Some in H as [<- <-]. by eexists.
Qed.

Lemma demo_request_ok : request_ok demo_net 500 (demo_request 500 50 1000).
Proof. split; [done|]. split; [done|]. split; [done|]. split; vm_compute; congruence. Qed.

Lemma demo_buffer : buffer demo_bytes 1000 3.
Proof. intros i Hi. assert (i = 0 \/ i = 1 \/ i = 2) as [->|[->| ->]] by lia; by eexists. Qed.

Lemma no_keys_rep : Keyboard.kbd_rep no_keys [].
Proof. split; simpl; [lia|lia|lia|reflexivity|done]. Qed.

(** A modifier and an A are typed ahead; the line is not complete. *)
Lemma smp_syscall_readline_witness :
  exists s', smp_syscall_readline Keyboard.demo_process 500 (demo_io Keyboard.demo_kbd) = Ok (tt, s') /\
    reading s' 3 1000 [65] /\ read_waiting_thr s' = 50 /\ bytes s' !! 2000 = Some 0.
Proof.
  destruct (smp_syscall_readline_refines Keyboard.demo_process (demo_io Keyboard.demo_kbd) Console.demo_term ChanSpec.empty [65] 500
    (demo_request 500 50 1000)) as (s' & R & Hb & _ & _ & _ & Hr & Hw & _).
  - exists [200; 65]. split; [exact Keyboard.demo_kbd_rep|done].
  - exact Console.demo_term_rep.
  - exact demo_io_net_rep.
  - exact demo_request_ok.
  - done.
  - exact demo_buffer.
  - exists s'. split; [done|]. split; [done|]. split; [done|]. by rewrite Hb by (simpl; lia).
Defined.
(** The newline that ends the line [A]. *)
Definition demo_waiting : cio := with_waiting 50 (with_reading 1 3 1000 (with_bytes (<[1000 := 65]> demo_bytes) (demo_io no_keys))).

Lemma keyboard_interrupt_witness :
  exists s', keyboard_interrupt_handler Keyboard.demo_process 10 demo_waiting = Ok (tt, s') /\
    holds (bytes s') 1000 [65; 10] /\ read_waiting_thr s' = 0 /\
    Message.msgs (net s') !! 500 = Some (response 2 (demo_request 500 50 1000)).
Proof.
  destruct (keyboard_interrupt_refines Keyboard.demo_process demo_waiting Console.demo_term ChanSpec.empty 50 500
    (demo_request 500 50 1000) [65] 10) as (s' & R & _ & _ & _ & Hh & Hw & _ & Hm).
  - exact no_keys_rep.
  - exact Console.demo_term_rep.
  - exact demo_io_net_rep.
  - exact demo_request_ok.
  - done.
  - done.
  - done.
  - done.
  - split; try done.
    + intros [|i] ch E; [by injection E as <-|by destruct i].
    + intros i Hi. simpl. destruct (decide (i = 0)) as [->|]; [by eexists|]. rewrite lookup_insert_ne by lia. by apply demo_buffer.
  - simpl. lia.
  - exists s'. split; [done|]. split; [done|]. split; [done|]. rewrite Hm. by rewrite lookup_insert_eq.
Defined.

Lemma smp_syscall_print_witness :
  exists s', smp_syscall_print 1 500 (demo_io no_keys) = Ok (tt, s') /\
    Message.msgs (net s') !! 500 = Some (response 0 (demo_request 500 50 1000)).
Proof.
  destruct (smp_syscall_print_refines 1 (demo_io no_keys) Console.demo_term ChanSpec.empty 500 (demo_request 500 50 1000))
    as (s' & R & _ & _ & _ & _ & Hm & _).
  - lia.
  - done.
  - exact Console.demo_term_rep.
  - exact demo_io_net_rep.
  - exact demo_request_ok.
  - done.
  - simpl. lia.
  - exact demo_buffer.
  - intros a v. simpl. unfold demo_bytes. rewrite !lookup_insert_Some, lookup_singleton_Some. intros H. assert (v = 0) as -> by intuition congruence. lia.
  - exists s'. split; [done|]. rewrite Hm. by rewrite lookup_insert_eq.
Defined.

(** ** Two readers

    Thread 50 reads a line, thread 60 queues up behind it, and two lines are
    typed.  The second line goes into the buffer of thread 60, but it is thread
    50 that is sent the answer, a second time: [resume_reading_thr] takes the
    next waiting thread from the message it has just answered.  Thread 60 is
    never answered. *)
Theorem second_reader_never_answered :
  match (smp_syscall_readline Keyboard.demo_process 500;; smp_syscall_readline Keyboard.demo_process 600;;
         keyboard_interrupt_handler Keyboard.demo_process 10;; keyboard_interrupt_handler Keyboard.demo_process 10) (demo_io no_keys) with
  | Ok (_, s) =>
      outcome (Message.locked_queue 1 (net s)) = Some (default 0 (Message.msg_queues (net s) !! 1), [500; 500]) /\
      bytes s !! 2000 = Some 10 /\ (type <$> Message.msgs (net s) !! 600) = Some READLINE /\
      read_waiting_thr s = 0 /\ readline_queue s = []
  | _ => False
  end.
Proof. vm_compute. repeat split. Qed.
End ConsoleIO.
