(* ===== verification/KeyHelp.v ===== *)
(** * Decoding the keyboard (src/410kern/x86/keyhelp.c)

    [process_scancode] turns the scancodes of the keyboard (set 1) into characters.  Its state
    are the modifiers that are down or locked ([key_state], a short), the kind of sequence it is in
    the middle of ([key_internal_state]) and how far a pause sequence has come.  The result is a
    word: the modifiers, the kind of result, the raw code and the character.

    It is the function that the keyboard driver takes as a parameter.  [KeySpec] says what
    the keys mean: a layout, and rules for control, shift and caps lock.  [typed_text] relates
    the two for all sequences of key presses and releases. *)

From Stdlib Require Import ZArith Lia Ascii String.
From stdpp Require Import base list tactics numbers.
From S2P Require Import Prelude SimpleQueue Keyboard ConsoleIO.

#[local] Open Scope Z_scope.

Module KeyHelp.

Definition KH_STATE_SHIFT : Z := 16.
Definition KH_STATE_SMASK : Z := 0xFF00.
Definition KH_RMODS_SHIFT : Z := 16.
Definition KH_RAWCHAR_SHIFT : Z := 8.
Definition KH_CHAR_SHIFT : Z := 0.

Definition KH_LSHIFT_KEY : Z := 0x8000.
Definition KH_RSHIFT_KEY : Z := 0x4000.
Definition KH_LCONTROL_KEY : Z := 0x2000.
Definition KH_RCONTROL_KEY : Z := 0x1000.
Definition KH_LALT_KEY : Z := 0x0800.
Definition KH_RALT_KEY : Z := 0x0400.
Definition KH_CAPS_LOCK : Z := 0x0200.
Definition KH_NUM_LOCK : Z := 0x0100.

Definition KH_RESULT_HASRAW : Z := 8.
Definition KH_RESULT_HASDATA : Z := 4.
Definition KH_RESULT_NUMPAD : Z := 2.
Definition KH_RESULT_MAKE : Z := 1.

Definition KH_PRSCR_UP_SCAN : Z := 8.
Definition KH_PRSCR_DOWN_SCAN : Z := 4.
Definition KH_PAUSE_SCAN : Z := 2.
Definition KH_EXTENDED_SCAN : Z := 1.

(** [enum kh_extended_e] *)
Definition KHE_UNDEFINED : Z := 0x80.
Definition KHE_ARROW_UP : Z := 0x81.
Definition KHE_ARROW_LEFT : Z := 0x82.
Definition KHE_ARROW_DOWN : Z := 0x83.
Definition KHE_ARROW_RIGHT : Z := 0x84.
Definition KHE_LALT : Z := 0x85.
Definition KHE_RALT : Z := 0x86.
Definition KHE_LCTL : Z := 0x87.
Definition KHE_RCTL : Z := 0x88.
Definition KHE_LSHIFT : Z := 0x89.
Definition KHE_RSHIFT : Z := 0x8A.
Definition KHE_CAPSLOCK : Z := 0x8B.
Definition KHE_NUMLOCK : Z := 0x8C.
Definition KHE_F1 : Z := 0x8D.
Definition KHE_F2 : Z := 0x8E.
Definition KHE_F3 : Z := 0x8F.
Definition KHE_F4 : Z := 0x90.
Definition KHE_F5 : Z := 0x91.
Definition KHE_F6 : Z := 0x92.
Definition KHE_F7 : Z := 0x93.
Definition KHE_F8 : Z := 0x94.
Definition KHE_F9 : Z := 0x95.
Definition KHE_F10 : Z := 0x96.
Definition KHE_F11 : Z := 0x97.
Definition KHE_F12 : Z := 0x98.
Definition KHE_PAUSE : Z := 0x99.
Definition KHE_PRINT_SCREEN : Z := 0x9A.

(** The code of a character. *)
Definition c (a : ascii) : Z := Z.of_N (N_of_ascii a).

(** A value stored in a short. *)
Definition s16 (x : Z) : Z := let y := x mod 65536 in if y <? 32768 then y else y - 65536.

Record keyhelp := mk_kh { key_state : Z; key_internal_state : Z; key_sequence : Z }.
Definition set_state v h := mk_kh (s16 v) (key_internal_state h) (key_sequence h).
Definition set_internal v h := mk_kh (key_state h) (s16 v) (key_sequence h).
Definition set_sequence v h := mk_kh (key_state h) (key_internal_state h) v.

Definition flag (mask x : Z) : bool := negb (Z.land x mask =? 0).
Definition clear (mask x : Z) : Z := Z.land x (Z.lnot mask).

Definition KHS_SHIFT_CORE (h : keyhelp) : bool := flag (Z.lor KH_LSHIFT_KEY KH_RSHIFT_KEY) (key_state h).
Definition KHS_CTL_CORE (h : keyhelp) : bool := flag (Z.lor KH_LCONTROL_KEY KH_RCONTROL_KEY) (key_state h).
Definition caps_on (h : keyhelp) : bool := flag KH_CAPS_LOCK (key_state h).

(** The cases of the switches: the next state and [Some (res, code, rcode)], or [None] for [return 0]. *)
Definition case := (keyhelp * option (Z * Z * Z))%type.

Definition KHS_SHIFT (h : keyhelp) (s u : Z) : case := (h, Some (0, if KHS_SHIFT_CORE h then s else u, u)).
Definition KHS_SHIFTCTL (h : keyhelp) (cc s u : Z) : case := (h, Some (0, if KHS_CTL_CORE h then cc else if KHS_SHIFT_CORE h then s else u, u)).
Definition KHS_SHIFTCAPSCTL (h : keyhelp) (cc s u : Z) : case :=
  (h, Some (0, if KHS_CTL_CORE h then cc else if (KHS_SHIFT_CORE h || caps_on h) && negb (KHS_SHIFT_CORE h && caps_on h) then s else u, u)).
(** [rcode = code = v] *)
Definition key (h : keyhelp) (v : Z) : case := (h, Some (0, v, v)).
Definition numpad (h : keyhelp) (v : Z) : case := (h, Some (Z.shiftl KH_RESULT_NUMPAD KH_RMODS_SHIFT, v, v)).
(** A modifier that is down while it is pressed, and one that is toggled; [code] stays 0x80. *)
Definition modifier (h : keyhelp) (pressed : bool) (rcode mask : Z) : case :=
  (set_state (if pressed then Z.lor (key_state h) mask else clear mask (key_state h)) h, Some (0, 0x80, rcode)).
Definition lock (h : keyhelp) (pressed : bool) (rcode mask : Z) : case :=
  (if pressed then set_state (if flag mask (key_state h) then clear mask (key_state h) else Z.lor (key_state h) mask) h else h, Some (0, 0x80, rcode)).

(** The switch of [process_simple_scan], in three parts. *)
Definition simple_01_1C (h : keyhelp) (scancode : Z) : case :=
  match scancode with
  | 0x1 => key h 0x1B
  | 0x2 => KHS_SHIFT h (c "!") (c "1")
  | 0x3 => KHS_SHIFTCTL h 0x00 (c "@") (c "2")
  | 0x4 => KHS_SHIFT h (c "#") (c "3")
  | 0x5 => KHS_SHIFT h (c "$") (c "4")
  | 0x6 => KHS_SHIFT h (c "%") (c "5")
  | 0x7 => KHS_SHIFTCTL h 0x1E (c "^") (c "6")
  | 0x8 => KHS_SHIFT h (c "&") (c "7")
  | 0x9 => KHS_SHIFT h (c "*") (c "8")
  | 0xA => KHS_SHIFT h (c "(") (c "9")
  | 0xB => KHS_SHIFT h (c ")") (c "0")
  | 0xC => KHS_SHIFTCTL h 0x1F (c "_") (c "-")
  | 0xD => KHS_SHIFT h (c "+") (c "=")
  | 0xE => key h 8
  | 0xF => key h 9
  | 0x10 => KHS_SHIFTCAPSCTL h 0x11 (c "Q") (c "q")
  | 0x11 => KHS_SHIFTCAPSCTL h 0x17 (c "W") (c "w")
  | 0x12 => KHS_SHIFTCAPSCTL h 0x05 (c "E") (c "e")
  | 0x13 => KHS_SHIFTCAPSCTL h 0x12 (c "R") (c "r")
  | 0x14 => KHS_SHIFTCAPSCTL h 0x14 (c "T") (c "t")
  | 0x15 => KHS_SHIFTCAPSCTL h 0x19 (c "Y") (c "y")
  | 0x16 => KHS_SHIFTCAPSCTL h 0x15 (c "U") (c "u")
  | 0x17 => KHS_SHIFTCAPSCTL h 0x09 (c "I") (c "i")
  | 0x18 => KHS_SHIFTCAPSCTL h 0x0F (c "O") (c "o")
  | 0x19 => KHS_SHIFTCAPSCTL h 0x10 (c "P") (c "p")
  | 0x1A => KHS_SHIFTCAPSCTL h 0x1B (c "{") (c "[")
  | 0x1B => KHS_SHIFTCAPSCTL h 0x1D (c "}") (c "]")
  | 0x1C => key h 10
  | _ => key h KHE_UNDEFINED
  end.

Definition simple_1D_36 (h : keyhelp) (scancode : Z) (pressed : bool) : case :=
  match scancode with
  | 0x1D => 
      if flag KH_PAUSE_SCAN (key_internal_state h) && (key_sequence h =? 0) then (set_sequence (key_sequence h + 1) h, None)
      else modifier (set_sequence 0 (set_internal (clear KH_PAUSE_SCAN (key_internal_state h)) h)) pressed KHE_LCTL KH_LCONTROL_KEY
  | 0x1E => KHS_SHIFTCAPSCTL h 0x01 (c "A") (c "a")
  | 0x1F => KHS_SHIFTCAPSCTL h 0x13 (c "S") (c "s")
  | 0x20 => KHS_SHIFTCAPSCTL h 0x04 (c "D") (c "d")
  | 0x21 => KHS_SHIFTCAPSCTL h 0x06 (c "F") (c "f")
  | 0x22 => KHS_SHIFTCAPSCTL h 0x07 (c "G") (c "g")
  | 0x23 => KHS_SHIFTCAPSCTL h 0x08 (c "H") (c "h")
  | 0x24 => KHS_SHIFTCAPSCTL h 0x0A (c "J") (c "j")
  | 0x25 => KHS_SHIFTCAPSCTL h 0x0B (c "K") (c "k")
  | 0x26 => KHS_SHIFTCAPSCTL h 0x0C (c "L") (c "l")
  | 0x27 => KHS_SHIFT h (c ":") (c ";")
  | 0x28 => KHS_SHIFT h 34 (c "'")
  | 0x29 => KHS_SHIFT h (c "~") (c "`")
  | 0x2A => modifier h pressed KHE_LSHIFT KH_LSHIFT_KEY
  | 0x2B => KHS_SHIFTCTL h 0x1C (c "|") (c "\")
  | 0x2C => KHS_SHIFTCAPSCTL h 0x1A (c "Z") (c "z")
  | 0x2D => KHS_SHIFTCAPSCTL h 0x18 (c "X") (c "x")
  | 0x2E => KHS_SHIFTCAPSCTL h 0x03 (c "C") (c "c")
  | 0x2F => KHS_SHIFTCAPSCTL h 0x16 (c "V") (c "v")
  | 0x30 => KHS_SHIFTCAPSCTL h 0x02 (c "B") (c "b")
  | 0x31 => KHS_SHIFTCAPSCTL h 0x0E (c "N") (c "n")
  | 0x32 => KHS_SHIFTCAPSCTL h 0x0D (c "M") (c "m")
  | 0x33 => KHS_SHIFT h (c "<") (c ",")
  | 0x34 => KHS_SHIFT h (c ">") (c ".")
  | 0x35 => KHS_SHIFT h (c "?") (c "/")
  | 0x36 => modifier h pressed KHE_RSHIFT KH_RSHIFT_KEY
  | _ => key h KHE_UNDEFINED
  end.

Definition simple_37_7F (h : keyhelp) (scancode : Z) (pressed : bool) : case :=
  match scancode with
  | 0x37 => numpad h (c "*")
  | 0x38 => modifier h pressed KHE_LALT KH_LALT_KEY
  | 0x39 => key h (c " ")
  | 0x3A => lock h pressed KHE_CAPSLOCK KH_CAPS_LOCK
  | 0x3B => key h KHE_F1
  | 0x3C => key h KHE_F2
  | 0x3D => key h KHE_F3
  | 0x3E => key h KHE_F4
  | 0x3F => key h KHE_F5
  | 0x40 => key h KHE_F6
  | 0x41 => key h KHE_F7
  | 0x42 => key h KHE_F8
  | 0x43 => key h KHE_F9
  | 0x44 => key h KHE_F10
  | 0x45 => 
      if flag KH_PAUSE_SCAN (key_internal_state h) && (key_sequence h =? 1) then (set_sequence (key_sequence h + 1) h, None)
      else lock (set_sequence 0 (set_internal (clear KH_PAUSE_SCAN (key_internal_state h)) h)) pressed KHE_NUMLOCK KH_NUM_LOCK
  | 0x47 => numpad h (c "7")
  | 0x48 => numpad h (c "8")
  | 0x49 => numpad h (c "9")
  | 0x4A => numpad h (c "-")
  | 0x4B => numpad h (c "4")
  | 0x4C => numpad h (c "5")
  | 0x4D => numpad h (c "6")
  | 0x4E => numpad h (c "+")
  | 0x4F => numpad h (c "1")
  | 0x50 => numpad h (c "2")
  | 0x51 => numpad h (c "3")
  | 0x52 => numpad h (c "0")
  | 0x53 => numpad h (c ".")
  | 0x57 => key h KHE_F11
  | 0x58 => key h KHE_F12
  | 0x61 =>
      if negb (flag KH_PAUSE_SCAN (key_internal_state h)) then (set_sequence 0 (set_internal (Z.lor (key_internal_state h) KH_PAUSE_SCAN) h), None)
      else if flag KH_PAUSE_SCAN (key_internal_state h) && (key_sequence h =? 2) then (set_sequence (key_sequence h + 1) h, None)
      else key (set_sequence 0 (set_internal (clear KH_PAUSE_SCAN (key_internal_state h)) h)) KHE_UNDEFINED
  | _ => key h KHE_UNDEFINED
  end.

(** The end of both functions: is there a character, and the word. *)
Definition finish (r : case) : keyhelp * Z :=
  match r with
  | (h, None) => (h, 0)
  | (h, Some (res, code, rcode)) =>
      let has := negb (rcode =? KHE_UNDEFINED) && negb (code =? KHE_UNDEFINED) in
      let res := if has then Z.lor res (Z.shiftl KH_RESULT_HASDATA KH_RMODS_SHIFT) else res in
      let code := if has then code else 0 in
      (h, Z.lor (Z.lor (Z.lor res (Z.shiftl code KH_CHAR_SHIFT)) (Z.shiftl rcode KH_RAWCHAR_SHIFT)) (Z.shiftl KH_RESULT_HASRAW KH_RMODS_SHIFT))
  end.

Definition process_simple_scan (h : keyhelp) (scancode : Z) (pressed : bool) : keyhelp * Z :=
  let scancode := Z.land scancode 0x7F in
  finish (if scancode <=? 0x1C then simple_01_1C h scancode else if scancode <=? 0x36 then simple_1D_36 h scancode pressed else simple_37_7F h scancode pressed).

Definition extended_key (h : keyhelp) (keypress : Z) (pressed : bool) : case :=
  match keypress with
  | 0x1C => numpad h 10
  | 0x1D => modifier h pressed KHE_RCTL KH_RCONTROL_KEY
  | 0x2A =>
      if flag KH_PRSCR_UP_SCAN (key_internal_state h) then key (set_internal (clear KH_PRSCR_UP_SCAN (key_internal_state h)) h) KHE_PRINT_SCREEN
      else (set_internal (clear KH_EXTENDED_SCAN (s16 (Z.lor (key_internal_state h) KH_PRSCR_DOWN_SCAN))) h, None)
  | 0x35 => numpad h (c "/")
  | 0x37 =>
      if flag KH_PRSCR_DOWN_SCAN (key_internal_state h) then key (set_internal (clear KH_PRSCR_DOWN_SCAN (key_internal_state h)) h) KHE_PRINT_SCREEN
      else (set_internal (clear KH_EXTENDED_SCAN (s16 (Z.lor (key_internal_state h) KH_PRSCR_UP_SCAN))) h, None)
  | 0x38 => modifier h pressed KHE_RALT KH_RALT_KEY
  | 0x48 => key h KHE_ARROW_UP
  | 0x4B => key h KHE_ARROW_LEFT
  | 0x4D => key h KHE_ARROW_RIGHT
  | 0x50 => key h KHE_ARROW_DOWN
  | 0x53 => key h 0x7F
  | _ => key h KHE_UNDEFINED
  end.

Definition process_extended_scan (h : keyhelp) (keypress : Z) (pressed : bool) : keyhelp * Z :=
  match extended_key h (Z.land keypress 0x7F) pressed with
  | (h, None) => finish (h, None)
  | (h, Some r) => finish (set_internal (clear KH_EXTENDED_SCAN (key_internal_state h)) h, Some r)
  end.

(** The label [deflt]. *)
Definition deflt (h : keyhelp) (keycode : Z) (pressed : bool) : keyhelp * Z :=
  process_simple_scan (set_internal (clear (Z.lor KH_PRSCR_UP_SCAN KH_PRSCR_DOWN_SCAN) (key_internal_state h)) h) keycode pressed.

(** The end of [process_scancode]. *)
Definition seal (pressed : bool) (r : keyhelp * Z) : keyhelp * Z :=
  let '(h, res) := r in
  let res := if pressed then Z.lor res (Z.shiftl KH_RESULT_MAKE KH_RMODS_SHIFT) else res in
  (h, s32 (Z.lor res (Z.shiftl (Z.land (key_state h) KH_STATE_SMASK) KH_STATE_SHIFT))).

Definition process_scancode (h : keyhelp) (keypress : Z) : keyhelp * Z :=
  let pressed := Z.land keypress 0x80 =? 0 in
  let keycode := Z.land keypress 0x7F in
  let no_pause := set_sequence 0 (set_internal (clear KH_PAUSE_SCAN (key_internal_state h)) h) in
  if flag KH_EXTENDED_SCAN (key_internal_state h) then seal pressed (process_extended_scan h keycode pressed) else
  match Z.land keypress 0xFF with
  | 0x9D =>
      if flag KH_PAUSE_SCAN (key_internal_state h) && (key_sequence h =? 3) then (set_sequence (key_sequence h + 1) h, 0)
      else seal pressed (deflt no_pause keycode pressed)
  | 0xC5 =>
      if flag KH_PAUSE_SCAN (key_internal_state h) && (key_sequence h =? 4) then
        seal pressed (set_internal (clear KH_PAUSE_SCAN (key_internal_state h)) h,
          Z.lor (Z.lor (Z.shiftl KHE_PAUSE KH_CHAR_SHIFT) (Z.shiftl KHE_PAUSE KH_RAWCHAR_SHIFT)) (Z.shiftl KH_RESULT_HASDATA KH_RMODS_SHIFT))
      else seal pressed (deflt no_pause keycode pressed)
  | 0xE0 => (set_internal (Z.lor (key_internal_state h) KH_EXTENDED_SCAN) h, Z.shiftl (key_state h) KH_STATE_SHIFT)
  | _ => seal pressed (deflt h keycode pressed)
  end.

(** ** Key presses and releases *)

Inductive event : Type :=
| Simple (code : Z) (make : bool)
| Extended (code : Z) (make : bool)
| PrintScreen (make : bool)
| Pause.

Definition up (code : Z) (make : bool) : Z := if make then code else code + 0x80.

(** The scancodes that the keyboard sends. *)
Definition encode (e : event) : list Z :=
  match e with
  | Simple code make => [up code make]
  | Extended code make => [0xE0; up code make]
  | PrintScreen true => [0xE0; 0x2A; 0xE0; 0x37]
  | PrintScreen false => [0xE0; 0xB7; 0xE0; 0xAA]
  | Pause => [0xE1; 0x1D; 0x45; 0xE1; 0x9D; 0xC5]
  end.

(** 0x60 and 0x61 are the prefixes; the codes of the sequence for print screen are no keys of their own. *)
Definition valid (e : event) : Prop :=
  match e with
  | Simple code _ => 0 <= code < 128 /\ code <> 0x60 /\ code <> 0x61
  | Extended code _ => 0 <= code < 128 /\ code <> 0x2A /\ code <> 0x37
  | _ => True
  end.
End KeyHelp.

(** ** What the keys mean *)
Module KeySpec.
Import KeyHelp.

Record mods := mk_mods { lshift : bool; rshift : bool; lctl : bool; rctl : bool; caps : bool }.
Definition shift (m : mods) : bool := lshift m || rshift m.
Definition ctl (m : mods) : bool := lctl m || rctl m.

(** The layout: rows of keys from a scancode on, and the same rows with shift. *)
Definition codes (s : string) : list Z := map c (list_ascii_of_string s).
Definition plain : list (Z * list Z) := [(0x02, codes "1234567890-="); (0x10, codes "qwertyuiop[]"); (0x1E, codes "asdfghjkl;'`"); (0x2B, codes "\zxcvbnm,./")].
Definition shifted : list (Z * list Z) :=
  [(0x02, codes "!@#$%^&*()_+"); (0x10, codes "QWERTYUIOP{}"); (0x1E, codes "ASDFGHJKL:" ++ [34; c "~"]); (0x2B, codes "|ZXCVBNM<>?")].
(** Keys that no modifier changes: escape, backspace and tab, enter, space, the function keys and the numeric pad. *)
Definition fixed : list (Z * list Z) :=
  [(0x01, [27]); (0x0E, [8; 9]); (0x1C, [10]); (0x37, [c "*"]); (0x39, [32]); (0x3B, seqZ KHE_F1 10); (0x47, codes "789-456+1230."); (0x57, [KHE_F11; KHE_F12])].
Definition fixed_extended : list (Z * list Z) :=
  [(0x1C, [10]); (0x35, [c "/"]); (0x48, [KHE_ARROW_UP]); (0x4B, [KHE_ARROW_LEFT]); (0x4D, [KHE_ARROW_RIGHT]); (0x50, [KHE_ARROW_DOWN]); (0x53, [127])].

Fixpoint lookup (rows : list (Z * list Z)) (code : Z) : option Z :=
  match rows with
  | [] => None
  | (start, l) :: rows => if (start <=? code) && (code <? start + Z.of_nat (length l)) then l !! Z.to_nat (code - start) else lookup rows code
  end.

Definition letter (p : Z) : bool := (c "a" <=? p) && (p <=? c "z").
(** Control makes the control character of the shifted key, for letters and some others; caps lock works on letters and
    brackets. *)
Definition ctl_key (p : Z) : bool := letter p || existsb (Z.eqb p) (codes "26-[]\").
Definition caps_key (p : Z) : bool := letter p || existsb (Z.eqb p) (codes "[]").

Definition char_of (m : mods) (p s : Z) : Z :=
  if ctl m && ctl_key p then Z.land s 31
  else if xorb (shift m) (caps m && caps_key p) then s else p.

(** The character that an event types. *)
Definition types (m : mods) (e : event) : option Z :=
  match e with
  | Simple code true => match lookup plain code, lookup shifted code with Some p, Some s => Some (char_of m p s) | _, _ => lookup fixed code end
  | Extended code true => lookup fixed_extended code
  | PrintScreen true => Some KHE_PRINT_SCREEN
  | _ => None
  end.

Definition next (m : mods) (e : event) : mods :=
  match e with
  | Simple 0x2A make => mk_mods make (rshift m) (lctl m) (rctl m) (caps m)
  | Simple 0x36 make => mk_mods (lshift m) make (lctl m) (rctl m) (caps m)
  | Simple 0x1D make => mk_mods (lshift m) (rshift m) make (rctl m) (caps m)
  | Extended 0x1D make => mk_mods (lshift m) (rshift m) (lctl m) make (caps m)
  | Simple 0x3A true => mk_mods (lshift m) (rshift m) (lctl m) (rctl m) (negb (caps m))
  | _ => m
  end.

Fixpoint text (m : mods) (es : list event) : list Z :=
  match es with
  | [] => []
  | e :: es => option_list (types m e) ++ text (next m e) es
  end.
End KeySpec.

(** ** The decoder implements the layout *)
Module KeyProofs.
Import KeyHelp KeySpec.

Lemma testbit_mod a b n i : 0 <= i < n -> a mod 2 ^ n = b mod 2 ^ n -> Z.testbit a i = Z.testbit b i.
Proof. intros Hi E. by rewrite <- (Z.mod_pow2_bits_low a n i), <- (Z.mod_pow2_bits_low b n i), E by lia. Qed.

Lemma testbit_s16 x i : 0 <= i < 16 -> Z.testbit (s16 x) i = Z.testbit x i.
Proof.
  intros Hi. apply (testbit_mod _ _ 16); [lia|]. unfold s16. change 65536 with (2 ^ 16). destruct (_ <? _); [by rewrite Z.mod_mod by lia|].
  rewrite Zminus_mod, Z.mod_same, Z.sub_0_r, !Z.mod_mod by lia. done.
Qed.

Lemma testbit_s32 x i : 0 <= i < 32 -> Z.testbit (s32 x) i = Z.testbit x i.
Proof.
  intros Hi. apply (testbit_mod _ _ 32); [lia|]. unfold s32. destruct (_ <? _); [by rewrite Z.mod_mod by lia|].
  rewrite Zminus_mod, Z.mod_same, Z.sub_0_r, !Z.mod_mod by lia. done.
Qed.

Lemma bits_above x n i : 0 <= x < 2 ^ n -> 0 <= n <= i -> Z.testbit x i = false.
Proof. intros Hx Hn. rewrite <- (Z.mod_small x (2 ^ n)) by lia. by apply Z.mod_pow2_bits_high. Qed.

Lemma land_bit x i : 0 <= i -> (Z.land x (2 ^ i) =? 0) = negb (Z.testbit x i).
Proof.
  intros Hi. destruct (Z.eqb_spec (Z.land x (2 ^ i)) 0) as [E|E].
  - apply (f_equal (fun z => Z.testbit z i)) in E. rewrite Z.land_spec, Z.pow2_bits_true, andb_true_r, Z.bits_0 in E by lia. by rewrite E.
  - destruct (Z.testbit x i) eqn:Et; [done|]. exfalso. apply E. apply Z.bits_inj'. intros j Hj. rewrite Z.land_spec, Z.bits_0. destruct (decide (j = i)) as [->|Hne]; [by rewrite Et|].
    rewrite Z.pow2_bits_false by lia. apply andb_false_r.
Qed.

Lemma flag_bit i x : 0 <= i -> flag (2 ^ i) x = Z.testbit x i.
Proof. intros Hi. unfold flag. by rewrite land_bit, negb_involutive. Qed.

Lemma flag_or a b x : 0 <= a -> 0 <= b -> flag (Z.lor (2 ^ a) (2 ^ b)) x = Z.testbit x a || Z.testbit x b.
Proof.
  intros Ha Hb. rewrite <- (flag_bit a), <- (flag_bit b) by done. unfold flag. rewrite Z.land_lor_distr_r.
  destruct (Z.eqb_spec (Z.lor (Z.land x (2 ^ a)) (Z.land x (2 ^ b))) 0) as [E|E].
  - apply Z.lor_eq_0_iff in E as [-> ->]. done.
  - destruct (Z.eqb_spec (Z.land x (2 ^ a)) 0) as [Ea|]; [|done]. destruct (Z.eqb_spec (Z.land x (2 ^ b)) 0) as [Eb|]; [|done]. by rewrite Ea, Eb in E.
Qed.

Lemma testbit_set i j x : 0 <= i -> 0 <= j < 16 -> Z.testbit (s16 (Z.lor x (2 ^ i))) j = (if decide (i = j) then true else Z.testbit x j).
Proof.
  intros Hi Hj. rewrite testbit_s16, Z.lor_spec by lia. destruct (decide (i = j)) as [->|Hne]; [rewrite Z.pow2_bits_true by lia; apply orb_true_r|].
  rewrite Z.pow2_bits_false by lia. apply orb_false_r.
Qed.

Lemma testbit_clear i j x : 0 <= i -> 0 <= j < 16 -> Z.testbit (s16 (clear (2 ^ i) x)) j = (if decide (i = j) then false else Z.testbit x j).
Proof.
  intros Hi Hj. unfold clear. rewrite testbit_s16, Z.land_spec, Z.lnot_spec by lia. destruct (decide (i = j)) as [->|Hne]; [rewrite Z.pow2_bits_true by lia; apply andb_false_r|].
  rewrite Z.pow2_bits_false by lia. apply andb_true_r.
Qed.

(** ** The word that is returned *)

Definition out (a : Z) : option Z := if Keyboard.KH_HASDATA a && Keyboard.KH_ISMAKE a then Some (Keyboard.KH_GETCHAR a) else None.

Lemma hasdata_bit a : Keyboard.KH_HASDATA a = Z.testbit a 18.
Proof. unfold Keyboard.KH_HASDATA. change 4 with (2 ^ 2). rewrite land_bit, negb_involutive, Z.shiftr_spec by lia. done. Qed.
Lemma ismake_bit a : Keyboard.KH_ISMAKE a = Z.testbit a 16.
Proof. unfold Keyboard.KH_ISMAKE. change 1 with (2 ^ 0). rewrite land_bit, negb_involutive, Z.shiftr_spec by lia. done. Qed.
Lemma getchar_mod a : Keyboard.KH_GETCHAR a = a mod 2 ^ 8.
Proof. unfold Keyboard.KH_GETCHAR. change 255 with (Z.ones 8). by apply Z.land_ones. Qed.

(** A result as [finish] builds it, and what [seal] adds. *)
Definition parts (res code rcode : Z) : Z := Z.lor (Z.lor (Z.lor res code) (Z.shiftl rcode 8)) (Z.shiftl 8 16).

Lemma state_bits st i : 0 <= i < 24 -> Z.testbit (Z.shiftl (Z.land st KH_STATE_SMASK) 16) i = false.
Proof.
  intros Hi. rewrite Z.shiftl_spec by lia. destruct (Z.lt_ge_cases i 16) as [|Hge]; [apply Z.testbit_neg_r; lia|]. rewrite Z.land_spec. assert (E : Z.testbit KH_STATE_SMASK (i - 16) = false); [|by rewrite E, andb_false_r].
  assert (0 <= i - 16 < 8) by lia. set (j := i - 16) in *. assert (j = 0 \/ j = 1 \/ j = 2 \/ j = 3 \/ j = 4 \/ j = 5 \/ j = 6 \/ j = 7) as [->|[->|[->|[->|[->|[->|[->| ->]]]]]]] by lia; done.
Qed.

(** No character: there is no data, or a key was released. *)
Lemma seal_none make h res : Z.testbit res 18 = false \/ (make = false /\ Z.testbit res 16 = false) -> exists w, seal make (h, res) = (h, w) /\ out w = None.
Proof.
  intros Hn. eexists. split; [reflexivity|]. unfold out. rewrite hasdata_bit, ismake_bit, !testbit_s32, !Z.lor_spec by lia. unfold KH_STATE_SHIFT. rewrite !state_bits, !orb_false_r by lia.
  destruct Hn as [E|[-> E]]; [|by rewrite E, andb_false_r]. destruct make; [rewrite Z.lor_spec|]; by rewrite E.
Qed.

Lemma out_parts res code rcode make st : (res = 0 \/ res = 0x20000 \/ res = 0x40000 \/ res = 0x60000) -> 0 <= code < 256 -> 0 <= rcode < 256 ->
  out (s32 (Z.lor (if make : bool then Z.lor (parts res code rcode) 65536 else parts res code rcode) (Z.shiftl (Z.land st KH_STATE_SMASK) 16))) =
  if Z.testbit res 18 && make then Some code else None.
Proof.
  intros Hres Hc Hr. set (w := if make then _ else _). unfold out. rewrite hasdata_bit, ismake_bit, getchar_mod, !testbit_s32, !Z.lor_spec by lia.
  pose proof (state_bits st) as Hst.
  assert (Hlow : forall i, 8 <= i -> Z.testbit code i = false) by (intros i Hi; apply (bits_above code 8); lia).
  assert (Hraw : forall i, 0 <= i < 8 \/ 16 <= i -> Z.testbit (Z.shiftl rcode 8) i = false).
  { intros i Hi. rewrite Z.shiftl_spec by lia. destruct Hi; [apply Z.testbit_neg_r; lia|apply (bits_above rcode 8); lia]. }
  assert (E18 : Z.testbit w 18 = Z.testbit res 18) by (unfold w, parts; destruct make; rewrite ?Z.lor_spec, (Hlow 18), (Hraw 18) by lia; destruct Hres as [->|[->|[->| ->]]]; done).
  assert (E16 : Z.testbit w 16 = make) by (unfold w, parts; destruct make; rewrite ?Z.lor_spec, (Hlow 16), (Hraw 16) by lia; destruct Hres as [->|[->|[->| ->]]]; done).
  rewrite E18, E16, !Hst, !orb_false_r by lia. destruct (Z.testbit res 18 && make) eqn:Eb; [|done]. f_equal. apply Z.bits_inj'. intros i Hi. destruct (Z.lt_ge_cases i 8) as [Hlt|Hge].
  - rewrite Z.mod_pow2_bits_low, testbit_s32, Z.lor_spec, (Hst i), orb_false_r by lia. unfold w, parts. apply andb_true_iff in Eb as [_ ->]. rewrite !Z.lor_spec, (Hraw i) by lia.
    rewrite Z.shiftl_spec, (Z.testbit_neg_r 8 (i - 16)) by lia. change 65536 with (2 ^ 16). rewrite Z.pow2_bits_false by lia. rewrite !orb_false_r.
    assert (Z.testbit res i = false); [|by rewrite H]. destruct Hres as [->|[->|[->| ->]]]; [apply Z.bits_0| | |];
      assert (i = 0 \/ i = 1 \/ i = 2 \/ i = 3 \/ i = 4 \/ i = 5 \/ i = 6 \/ i = 7) as [->|[->|[->|[->|[->|[->|[->| ->]]]]]]] by lia; done.
  - rewrite Z.mod_pow2_bits_high, Hlow by lia. done.
Qed.

Lemma out_case make h res code rcode : (res = 0 \/ res = 0x20000) -> 0 <= code < 256 -> 0 <= rcode < 256 ->
  exists w, seal make (finish (h, Some (res, code, rcode))) = (h, w) /\ out w = if make && negb (rcode =? 128) && negb (code =? 128) then Some code else None.
Proof.
  intros Hres Hc Hr. eexists. split; [reflexivity|]. change KHE_UNDEFINED with 128. unfold KH_CHAR_SHIFT. rewrite Z.shiftl_0_r.
  destruct (negb (rcode =? 128) && negb (code =? 128)) eqn:E; [|rewrite <- andb_assoc, E, andb_false_r].
  - rewrite <- andb_assoc, E, andb_true_r. refine (eq_trans (out_parts (Z.lor res 0x40000) code rcode make (key_state h) _ Hc Hr) _); [destruct Hres as [->| ->]; vm_compute; tauto|].
    by destruct Hres as [->| ->].
  - refine (eq_trans (out_parts res 0 rcode make (key_state h) _ _ Hr) _); [tauto|lia|]. by destruct Hres as [->| ->].
Qed.

(** ** The state *)

Record rep (h : keyhelp) (m : mods) : Prop := {
  rp_internal : key_internal_state h = 0;
  rp_data : Z.testbit (key_state h) 2 = false;
  rp_lshift : Z.testbit (key_state h) 15 = lshift m;
  rp_rshift : Z.testbit (key_state h) 14 = rshift m;
  rp_lctl : Z.testbit (key_state h) 13 = lctl m;
  rp_rctl : Z.testbit (key_state h) 12 = rctl m;
  rp_caps : Z.testbit (key_state h) 9 = caps m }.

Lemma rep_shift h m : rep h m -> KHS_SHIFT_CORE h = shift m.
Proof. intros Hr. unfold KHS_SHIFT_CORE. change KH_LSHIFT_KEY with (2 ^ 15). change KH_RSHIFT_KEY with (2 ^ 14). rewrite flag_or by lia. unfold shift. by rewrite (rp_lshift _ _ Hr), (rp_rshift _ _ Hr). Qed.
Lemma rep_ctl h m : rep h m -> KHS_CTL_CORE h = ctl m.
Proof. intros Hr. unfold KHS_CTL_CORE. change KH_LCONTROL_KEY with (2 ^ 13). change KH_RCONTROL_KEY with (2 ^ 12). rewrite flag_or by lia. unfold ctl. by rewrite (rp_lctl _ _ Hr), (rp_rctl _ _ Hr). Qed.
Lemma rep_caps h m : rep h m -> caps_on h = caps m.
Proof. intros Hr. unfold caps_on. change KH_CAPS_LOCK with (2 ^ 9). rewrite flag_bit by lia. apply (rp_caps _ _ Hr). Qed.

Definition set_bit (i : Z) (b : bool) (x : Z) : Z := if b then Z.lor x (2 ^ i) else clear (2 ^ i) x.

Lemma testbit_set_bit i b j x : 0 <= i -> 0 <= j < 16 -> Z.testbit (s16 (set_bit i b x)) j = if decide (i = j) then b else Z.testbit x j.
Proof. intros Hi Hj. destruct b; [by apply testbit_set|by apply testbit_clear]. Qed.

(** What a case of the switch comes to. *)
Definition good (make : bool) (r : keyhelp * Z) (m : mods) (o : option Z) : Prop := exists h w, r = (h, w) /\ rep h m /\ out w = o.

Lemma good_some make h res code rcode m : rep h m -> (res = 0 \/ res = 0x20000) -> 0 <= code < 256 -> 0 <= rcode < 256 ->
  good make (seal make (finish (h, Some (res, code, rcode)))) m (if make && negb (rcode =? 128) && negb (code =? 128) then Some code else None).
Proof. intros Hr Hres Hc Hrc. destruct (out_case make h res code rcode Hres Hc Hrc) as (w & E & Ho). by exists h, w. Qed.

Lemma good_char make h code u m : rep h m -> 0 <= code < 128 -> 0 <= u < 128 -> good make (seal make (finish (h, Some (0, code, u)))) m (if make then Some code else None).
Proof.
  intros Hr Hc Hu. pose proof (good_some make h 0 code u m Hr ltac:(by left) ltac:(lia) ltac:(lia)) as G.
  rewrite (proj2 (Z.eqb_neq u 128)), (proj2 (Z.eqb_neq code 128)) in G by lia. by destruct make.
Qed.

Lemma good_shift make h s u m : rep h m -> 0 <= s < 128 -> 0 <= u < 128 -> good make (seal make (finish (KHS_SHIFT h s u))) m (if make then Some (if shift m then s else u) else None).
Proof. intros Hr Hs Hu. unfold KHS_SHIFT. rewrite (rep_shift h m Hr). apply good_char; [done|by destruct (shift m)|done]. Qed.
Lemma good_shiftctl make h cc s u m : rep h m -> 0 <= cc < 128 -> 0 <= s < 128 -> 0 <= u < 128 ->
  good make (seal make (finish (KHS_SHIFTCTL h cc s u))) m (if make then Some (if ctl m then cc else if shift m then s else u) else None).
Proof. intros Hr Hcc Hs Hu. unfold KHS_SHIFTCTL. rewrite (rep_shift h m Hr), (rep_ctl h m Hr). apply good_char; [done|by destruct (ctl m), (shift m)|done]. Qed.
Lemma good_shiftcapsctl make h cc s u m : rep h m -> 0 <= cc < 128 -> 0 <= s < 128 -> 0 <= u < 128 ->
  good make (seal make (finish (KHS_SHIFTCAPSCTL h cc s u))) m (if make then Some (if ctl m then cc else if xorb (shift m) (caps m) then s else u) else None).
Proof.
  intros Hr Hcc Hs Hu. unfold KHS_SHIFTCAPSCTL. rewrite (rep_shift h m Hr), (rep_ctl h m Hr), (rep_caps h m Hr).
  replace ((shift m || caps m) && negb (shift m && caps m)) with (xorb (shift m) (caps m)) by (by destruct (shift m), (caps m)).
  apply good_char; [done|by destruct (ctl m), (xorb (shift m) (caps m))|done].
Qed.
Lemma good_key make h v m : rep h m -> 0 <= v < 256 -> good make (seal make (finish (key h v))) m (if make && negb (v =? 128) then Some v else None).
Proof. intros Hr Hv. pose proof (good_some make h 0 v v m Hr ltac:(by left) Hv Hv) as G. by destruct make, (v =? 128). Qed.
Lemma good_numpad make h v m : rep h m -> 0 <= v < 128 -> good make (seal make (finish (numpad h v))) m (if make then Some v else None).
Proof. intros Hr Hv. pose proof (good_some make h 0x20000 v v m Hr ltac:(by right) ltac:(lia) ltac:(lia)) as G. rewrite (proj2 (Z.eqb_neq v 128)) in G by lia. by destruct make. Qed.
Lemma good_mod make h i b rcode m' : rep (set_state (set_bit i b (key_state h)) h) m' -> 0 <= rcode < 256 ->
  good make (seal make (finish (set_state (set_bit i b (key_state h)) h, Some (0, 0x80, rcode)))) m' None.
Proof. intros Hr Hc. pose proof (good_some make _ 0 128 rcode m' Hr ltac:(by left) ltac:(lia) Hc) as G. by rewrite andb_false_r in G. Qed.

(** The bits of the other modifiers stay. *)
Lemma rep_bit h m i b : rep h m -> 8 <= i < 16 ->
  rep (set_state (set_bit i b (key_state h)) h)
    (mk_mods (if decide (i = 15) then b else lshift m) (if decide (i = 14) then b else rshift m) (if decide (i = 13) then b else lctl m) (if decide (i = 12) then b else rctl m) (if decide (i = 9) then b else caps m)).
Proof.
  intros [H0 Hd H1 H2 H3 H4 H5] Hi. split; cbn [key_state key_internal_state set_state lshift rshift lctl rctl caps]; [done|rewrite testbit_set_bit, decide_False by lia; done|..]; rewrite testbit_set_bit by lia; destruct (decide _); done.
 Qed.

Definition with_bit (i : Z) (b : bool) (m : mods) : mods :=
  mk_mods (if decide (i = 15) then b else lshift m) (if decide (i = 14) then b else rshift m) (if decide (i = 13) then b else lctl m) (if decide (i = 12) then b else rctl m) (if decide (i = 9) then b else caps m).

Lemma good_modifier i make h rcode m : rep h m -> 8 <= i < 16 -> 0 <= rcode < 256 -> good make (seal make (finish (modifier h make rcode (2 ^ i)))) (with_bit i make m) None.
Proof. intros Hr Hi Hc. apply (good_mod make h i make rcode); [by apply rep_bit|done]. Qed.

Lemma good_lock i make h rcode m : rep h m -> 8 <= i < 16 -> 0 <= rcode < 256 ->
  good make (seal make (finish (lock h make rcode (2 ^ i)))) (if make then with_bit i (negb (Z.testbit (key_state h) i)) m else m) None.
Proof.
  intros Hr Hi Hc. unfold lock. destruct make; [|pose proof (good_some false h 0 128 rcode m Hr ltac:(by left) ltac:(lia) Hc) as G; done].
  rewrite flag_bit by lia. replace (if Z.testbit (key_state h) i then clear (2 ^ i) (key_state h) else Z.lor (key_state h) (2 ^ i)) with (set_bit i (negb (Z.testbit (key_state h) i)) (key_state h)) by (by destruct (Z.testbit _ _)).
  apply good_mod; [by apply rep_bit|done].
Qed.

Lemma good_eq make r m m' o o' : good make r m o -> m = m' -> o = o' -> good make r m' o'.
Proof. by intros H -> ->. Qed.

(** One case of the switch: run the decoder up to the case, and use the lemma for its kind. *)
Ltac run_case :=
  match goal with |- good _ ?x _ _ =>
    let y := eval lazy -[seal finish KHS_SHIFT KHS_SHIFTCTL KHS_SHIFTCAPSCTL key numpad modifier lock set_state] in x in change x with y end.
Ltac decode_text :=
  match goal with |- _ = types ?m ?e => let y := eval lazy -[char_of] in (types m e) in change (types m e) with y end;
  try unfold char_of;
  match goal with
  | |- context [ctl ?m] => destruct (ctl m), (shift m), (caps m); reflexivity
  | _ => reflexivity
  end.
Ltac one_key Hr :=
  eapply good_eq;
    [match goal with
     | |- good _ (seal _ (finish (KHS_SHIFTCAPSCTL _ _ _ _))) _ _ => apply good_shiftcapsctl
     | |- good _ (seal _ (finish (KHS_SHIFTCTL _ _ _ _))) _ _ => apply good_shiftctl
     | |- good _ (seal _ (finish (KHS_SHIFT _ _ _))) _ _ => apply good_shift
     | |- good _ (seal _ (finish (key _ _))) _ _ => apply good_key
     | |- good _ (seal _ (finish (numpad _ _))) _ _ => apply good_numpad
     | |- good _ (seal _ (finish (modifier _ _ _ ?k))) _ _ => let i := eval vm_compute in (Z.log2 k) in change k with (2 ^ i); apply (good_modifier i)
     | |- good _ (seal _ (finish (lock _ _ _ ?k))) _ _ => let i := eval vm_compute in (Z.log2 k) in change k with (2 ^ i); apply (good_lock i)
     end; [apply Hr|lia..]
    | | decode_text].

Lemma simple_make c0 ks seq m : 0 <= c0 < 128 -> c0 <> 0x60 -> c0 <> 0x61 -> rep (mk_kh ks 0 seq) m ->
  good true (process_scancode (mk_kh ks 0 seq) (up c0 true)) (next m (Simple c0 true)) (types m (Simple c0 true)).
Proof.
  intros Hc H60 H61 Hr. assert (Hin : In c0 (seqZ 0 128)) by (apply list_elem_of_In, elem_of_seqZ; lia). vm_compute in Hin.
  assert (Hr0 : forall s, rep (mk_kh ks 0 s) m) by (intros s; destruct Hr; by split). assert (Hcaps : Z.testbit ks 9 = caps m) by apply Hr. clear Hr Hc.
  repeat (destruct Hin as [<-|Hin]; [first [by destruct (H60 eq_refl)|by destruct (H61 eq_refl)|run_case; one_key Hr0; clear -Hcaps; try (destruct m; reflexivity)]|]).
  all: try done. cbn [key_state]. rewrite Hcaps. by destruct m.
Qed.

Lemma simple_break c0 ks seq m : 0 <= c0 < 128 -> c0 <> 0x60 -> c0 <> 0x61 -> rep (mk_kh ks 0 seq) m ->
  good false (process_scancode (mk_kh ks 0 seq) (up c0 false)) (next m (Simple c0 false)) (types m (Simple c0 false)).
Proof.
  intros Hc H60 H61 Hr. assert (Hin : In c0 (seqZ 0 128)) by (apply list_elem_of_In, elem_of_seqZ; lia). vm_compute in Hin.
  assert (Hr0 : forall s, rep (mk_kh ks 0 s) m) by (intros s; destruct Hr; by split). clear Hr Hc.
  repeat (destruct Hin as [<-|Hin]; [first [by destruct (H60 eq_refl)|by destruct (H61 eq_refl)|run_case; one_key Hr0; destruct m; reflexivity]|]). done.
Qed.

(** The keys with a prefix. *)
Lemma extended_eq c0 make ks seq : In c0 (seqZ 0 128) -> c0 <> 0x2A -> c0 <> 0x37 ->
  process_scancode (mk_kh ks 1 seq) (up c0 make) = seal make (finish (extended_key (mk_kh ks 0 seq) c0 make)).
Proof.
  intros Hin H2A H37. vm_compute in Hin. destruct make.
  - repeat (destruct Hin as [<-|Hin]; [first [by destruct (H2A eq_refl)|by destruct (H37 eq_refl)|reflexivity]|]). done.
  - repeat (destruct Hin as [<-|Hin]; [first [by destruct (H2A eq_refl)|by destruct (H37 eq_refl)|reflexivity]|]). done.
Qed.

Lemma extended_case c0 make ks seq m : 0 <= c0 < 128 -> c0 <> 0x2A -> c0 <> 0x37 -> rep (mk_kh ks 0 seq) m ->
  good make (process_scancode (mk_kh ks 1 seq) (up c0 make)) (next m (Extended c0 make)) (types m (Extended c0 make)).
Proof.
  intros Hc H2A H37 Hr. assert (Hin : In c0 (seqZ 0 128)) by (apply list_elem_of_In, elem_of_seqZ; lia). rewrite extended_eq by done. vm_compute in Hin. clear Hc. destruct make.
  - repeat (destruct Hin as [<-|Hin]; [first [by destruct (H2A eq_refl)|by destruct (H37 eq_refl)|run_case; one_key Hr; destruct m; reflexivity]|]). done.
  - repeat (destruct Hin as [<-|Hin]; [first [by destruct (H2A eq_refl)|by destruct (H37 eq_refl)|run_case; one_key Hr; destruct m; reflexivity]|]). done.
Qed.

(** ** Whole events *)

#[local] Abbreviation typed := (ConsoleIO.typed process_scancode).

Lemma typed_step h c0 q h' w : process_scancode h c0 = (h', w) -> typed h (c0 :: q) = option_list (out w) ++ typed h' q.
Proof. intros E. cbn [ConsoleIO.typed]. rewrite E. unfold out. by destruct (Keyboard.KH_HASDATA w && Keyboard.KH_ISMAKE w). Qed.

Lemma typed_good make h c0 q m o : good make (process_scancode h c0) m o -> exists h', rep h' m /\ typed h (c0 :: q) = option_list o ++ typed h' q.
Proof. intros (h' & w & E & Hr & <-). exists h'. split; [done|]. by apply typed_step. Qed.

(** A step in the middle of a sequence gives no character. *)
Lemma typed_prefix ks i seq q : i = 0 \/ i = 4 \/ i = 8 -> Z.testbit ks 2 = false -> typed (mk_kh ks i seq) (0xE0 :: q) = typed (mk_kh ks (i + 1) seq) q.
Proof.
  intros Hi Hd. rewrite (typed_step _ _ _ (mk_kh ks (i + 1) seq) (Z.shiftl ks 16)) by (by destruct Hi as [->|[->| ->]]). unfold out. rewrite hasdata_bit, Z.shiftl_spec by lia.
  change (18 - 16) with 2. by rewrite Hd.
Qed.

Lemma typed_none make h c0 q h' res : process_scancode h c0 = seal make (h', res) -> Z.testbit res 18 = false \/ (make = false /\ Z.testbit res 16 = false) -> typed h (c0 :: q) = typed h' q.
Proof. intros E Hn. destruct (seal_none make h' res Hn) as (w & Es & Ho). rewrite (typed_step _ _ _ h' w) by (by rewrite E). by rewrite Ho. Qed.

Lemma print_screen make ks seq q : Z.testbit ks 2 = false ->
  typed (mk_kh ks 0 seq) (encode (PrintScreen make) ++ q) = option_list (if make then Some KHE_PRINT_SCREEN else None) ++ typed (mk_kh ks 0 seq) q.
Proof.
  intros Hd. destruct make; cbn [encode app]; rewrite typed_prefix by tauto.
  - rewrite (typed_none true _ _ _ (mk_kh ks 4 seq) 0); [|reflexivity|by left]. rewrite typed_prefix by tauto.
    destruct (out_case true (mk_kh ks 0 seq) 0 KHE_PRINT_SCREEN KHE_PRINT_SCREEN ltac:(by left) ltac:(done) ltac:(done)) as (w & E & Ho). rewrite (typed_step _ _ _ (mk_kh ks 0 seq) w) by exact E. by rewrite Ho.
  - rewrite (typed_none false _ _ _ (mk_kh ks 8 seq) 0); [|reflexivity|by left]. rewrite typed_prefix by tauto.
    destruct (out_case false (mk_kh ks 0 seq) 0 KHE_PRINT_SCREEN KHE_PRINT_SCREEN ltac:(by left) ltac:(done) ltac:(done)) as (w & E & Ho). rewrite (typed_step _ _ _ (mk_kh ks 0 seq) w) by exact E. by rewrite Ho.
Qed.

Lemma pause ks seq q : typed (mk_kh ks 0 seq) (encode Pause ++ q) = typed (mk_kh ks 0 4) q.
Proof.
  cbn [encode app]. rewrite (typed_none false _ _ _ (mk_kh ks 2 0) 0); [|reflexivity|by left]. rewrite (typed_none true _ _ _ (mk_kh ks 2 1) 0); [|reflexivity|by left].
  rewrite (typed_none true _ _ _ (mk_kh ks 2 2) 0); [|reflexivity|by left]. rewrite (typed_none false _ _ _ (mk_kh ks 2 3) 0); [|reflexivity|by left].
  rewrite (typed_step _ _ _ (mk_kh ks 2 4) 0) by reflexivity. assert (E0 : option_list (out 0) = []) by reflexivity. rewrite E0, app_nil_l.
  rewrite (typed_none false _ _ _ (mk_kh ks 0 4) (Z.lor (Z.lor (Z.shiftl KHE_PAUSE KH_CHAR_SHIFT) (Z.shiftl KHE_PAUSE KH_RAWCHAR_SHIFT)) (Z.shiftl KH_RESULT_HASDATA KH_RMODS_SHIFT))); [done|reflexivity|by right].
Qed.

Lemma event_step h m e q : rep h m -> valid e -> exists h', rep h' (next m e) /\ typed h (encode e ++ q) = option_list (types m e) ++ typed h' q.
Proof.
  intros Hr Hv. destruct h as [ks i seq]. pose proof (rp_internal _ _ Hr) as Hi. simpl in Hi. subst i. destruct e as [c0 make|c0 make|make|]; simpl in Hv.
  - destruct Hv as (H1 & H2 & H3). cbn [encode app]. destruct make; eapply typed_good; [by apply simple_make|by apply simple_break].
  - destruct Hv as (H1 & H2 & H3). cbn [encode app]. rewrite typed_prefix by (tauto || apply Hr). eapply typed_good. by apply extended_case.
  - exists (mk_kh ks 0 seq). split; [done|]. rewrite print_screen by apply Hr. by destruct make.
  - exists (mk_kh ks 0 4). split; [destruct Hr; by split|]. apply pause.
Qed.

(** (C10) What is typed is what is read.  Let any keys be pressed and released, each sending the scancodes of its
    press or release, including the two- to six-byte sequences of the keys with a prefix, print screen and
    pause.  Then the characters that the driver takes from the decoder are those that the layout
    gives: control makes the control character of the shifted key, shift the shifted
    one, caps lock reverses shift for letters (and brackets), and releases and modifiers give none. *)
Theorem typed_text h m es : rep h m -> Forall valid es -> ConsoleIO.typed process_scancode h (concat (map encode es)) = text m es.
Proof.
  revert h m. induction es as [|e es IH]; intros h m Hr Hv; [done|]. inversion_clear Hv as [|? ? Hv1 Hv2]. cbn [map concat text].
  destruct (event_step h m e (concat (map encode es)) Hr Hv1) as (h' & Hr' & E). by rewrite E, (IH h' (next m e)).
Qed.

(** Shift and h, i, caps lock and a bracket, control and c, pause, cursor up. *)
Definition demo_events : list event :=
  [Simple 0x2A true; Simple 0x23 true; Simple 0x23 false; Simple 0x2A false; Simple 0x17 true; Simple 0x3A true; Simple 0x1A true; Simple 0x1D true; Simple 0x2E true; Simple 0x1D false;
   Pause; Extended 0x48 true].

Lemma typed_text_witness : ConsoleIO.typed process_scancode (mk_kh 0 0 0) (concat (map encode demo_events)) = [c "H"; c "i"; c "{"; 3; KHE_ARROW_UP].
Proof. apply (typed_text (mk_kh 0 0 0) (mk_mods false false false false false) demo_events); [by split|]. repeat constructor; simpl; lia. Defined.
End KeyProofs.
