(* ===== verification/Manager.v ===== *)
(** * The manager core (src/kern/smp_manager_scheduler.c,
      src/kern/smp_syscall_thr_management.c, src/kern/smp_syscall_misc.c)

    The manager boots the message layer and then serves one message after the
    other.  Its state is that of the handlers of Lifecycle.v and ConsoleIO.v,
    which share the message layer: [on_io] runs a console handler on the
    messages of [life].  [asm_hlt] stops the core for good ([halted]). *)

From S2P Require Import Prelude SimpleQueue Hashtable ThreadState Mutex Message Lifecycle Console Keyboard ConsoleIO.
From Stdlib Require Import ZArith Lia.
From stdpp Require Import base gmap list tactics numbers list_basics list_relations.

#[local] Open Scope Z_scope.

Module Manager.

(** ** Requests that visit the cores one after the other *)

Definition smp_make_runnable_syscall_handler (msg : Z) : M Message.net unit :=
  mm ← Message.rd msg;
  if Data.mr_result mm =? 0 then Message.manager_send_msg msg (req_cpu mm)
  else
    n ← get;
    Message.upd msg (fun m => set_w1 (Z.rem (Data.mr_next_core m + 1) (Message.num_worker_cores n)) m);;
    Message.upd msg (fun m => set_w1 (Data.mr_next_core m + 1) m);;
    mm ← Message.rd msg;
    Message.manager_send_msg msg (Data.mr_next_core mm).

Definition smp_yield_syscall_handler (msg : Z) : M Message.net unit :=
  mm ← Message.rd msg;
  if Data.mr_result mm =? 0 then Message.manager_send_msg msg (req_cpu mm)
  else
    n ← get;
    Message.upd msg (fun m => set_w1 (Z.rem (Data.mr_next_core m + 1) (Message.num_worker_cores n)) m);;
    Message.upd msg (fun m => set_w1 (Data.mr_next_core m + 1) m);;
    mm ← Message.rd msg;
    Message.manager_send_msg msg (Data.mr_next_core mm).

(** ** Every core is visited, when their number is odd *)

(** The core a request goes to after core [c], of [w] worker cores. *)
Definition next_core (w c : Z) : Z := (c + 1) mod w + 1.

Lemma next_core_range w c : 0 < w -> 1 <= next_core w c <= w.
Proof. intros H. unfold next_core. pose proof (Z.mod_pos_bound (c + 1) w H). lia. Qed.

Lemma iter_next w c k : 0 < w -> 1 <= c <= w -> Nat.iter k (next_core w) c = (c - 1 + 2 * Z.of_nat k) mod w + 1.
Proof.
  intros Hw Hc. induction k as [|k IH].
  - simpl. rewrite Z.mod_small by lia. lia.
  - cbn [Nat.iter nat_rect]. change (nat_rect _ _ _ k) with (Nat.iter k (next_core w) c). rewrite IH. unfold next_core.
    replace ((c - 1 + 2 * Z.of_nat k) mod w + 1 + 1) with (2 + (c - 1 + 2 * Z.of_nat k) mod w) by lia.
    rewrite Z.add_mod_idemp_r by lia. f_equal. f_equal. lia.
Qed.

(** The number of turns from [c] to [d]. *)
Definition turns_to (w c d : Z) : Z := let k := ((d - c) * ((w + 1) / 2)) mod w in if k =? 0 then w else k.

Lemma turns_to_ok w c d : 0 < w -> Z.odd w = true -> 1 <= c <= w -> 1 <= d <= w ->
  0 < turns_to w c d <= w /\ Nat.iter (Z.to_nat (turns_to w c d)) (next_core w) c = d.
Proof.
  intros Hw Ho Hc Hd. assert (Hk : 0 < turns_to w c d <= w /\ (2 * turns_to w c d) mod w = (d - c) mod w).
  { unfold turns_to. apply Z.odd_spec in Ho as [h Hh].
    assert (Hh2 : (w + 1) / 2 = h + 1) by (rewrite Hh; replace (2 * h + 1 + 1) with ((h + 1) * 2) by lia; apply Z.div_mul; lia).
    rewrite Hh2. set (k := ((d - c) * (h + 1)) mod w). pose proof (Z.mod_pos_bound ((d - c) * (h + 1)) w Hw).
    assert (Hm : (2 * k) mod w = (d - c) mod w).
    { unfold k. rewrite Z.mul_mod_idemp_r by lia. replace (2 * ((d - c) * (h + 1))) with ((d - c) + (d - c) * w) by lia.
      apply Z.mod_add. lia. }
    destruct (Z.eqb_spec k 0) as [E|E].
    - split; [lia|]. rewrite E in Hm. rewrite Z.mod_mul by lia. by rewrite <- Hm.
    - split; [lia|done]. }
  destruct Hk as [Hr Hm]. split; [done|]. rewrite iter_next, Z2Nat.id by lia.
  rewrite <- Z.add_mod_idemp_r, Hm, Z.add_mod_idemp_r by lia. replace (c - 1 + (d - c)) with (d - 1) by lia. rewrite Z.mod_small; lia.
Qed.

(** One visit: the request moves on to [next_core]. *)
Lemma visit_ok n c msg mm : Message.net_rep n c -> Message.msg_ok n msg -> Message.msgs n !! msg = Some mm ->
  Data.mr_result mm <> 0 -> 1 <= Data.mr_next_core mm <= Message.num_worker_cores n ->
  let d := next_core (Message.num_worker_cores n) (Data.mr_next_core mm) in
  exists n', smp_make_runnable_syscall_handler msg n = Ok (tt, n') /\ Message.net_rep n' (ChanSpec.send_worker c d msg) /\
    Message.msgs n' = <[msg := set_w1 d mm]> (Message.msgs n) /\ Message.num_worker_cores n' = Message.num_worker_cores n.
Proof.
  intros Hr [H0 (mm' & Hm' & Ht)] Hm Hres Hc d. assert (mm' = mm) as -> by congruence. pose proof (Message.nr_workers _ _ Hr) as Hw.
  set (n1 := Message.with_msgs (<[msg := set_w1 d mm]> (Message.msgs n)) n).
  assert (Hr1 : Message.net_rep n1 c) by (by eapply ConsoleIO.rewritten).
  destruct (Message.manager_send_ok n1 c msg d Hr1) as (p & R & Hr').
  - split; [done|]. exists (set_w1 d mm). split; [apply lookup_insert_eq|done].
  - by apply next_core_range.
  - eexists. split; [|split; [exact Hr'|done]]. unfold smp_make_runnable_syscall_handler.
    rewrite (bind_ok _ _ _ _ _ (Message.rd_ok _ _ _ Hm)), (proj2 (Z.eqb_neq _ _)) by done. rewrite (bind_ok get _ n n n eq_refl).
    rewrite (bind_ok _ _ _ _ _ (Message.upd_ok _ _ _ _ Hm)).
    erewrite (bind_ok (Message.upd msg _)) by (apply Message.upd_ok; simpl; apply lookup_insert_eq). simpl. rewrite insert_insert_eq.
    unfold Data.mr_next_core at 1 2 3. simpl. rewrite Z.rem_mod_nonneg by (unfold Data.mr_next_core in *; lia).
    erewrite (bind_ok (Message.rd msg)) by (apply Message.rd_ok; simpl; apply lookup_insert_eq). exact R.
Qed.

(** [k] visits, none of which finds the thread. *)
Fixpoint tour (k : nat) (msg : Z) : M Message.net unit :=
  match k with
  | O => mret tt
  | S k => smp_make_runnable_syscall_handler msg;; tour k msg
  end.

Lemma tour_ok k : forall n c msg mm, Message.net_rep n c -> Message.msg_ok n msg -> Message.msgs n !! msg = Some mm ->
  Data.mr_result mm <> 0 -> 1 <= Data.mr_next_core mm <= Message.num_worker_cores n ->
  let d := Nat.iter k (next_core (Message.num_worker_cores n)) (Data.mr_next_core mm) in
  exists n' c', tour k msg n = Ok (tt, n') /\ Message.net_rep n' c' /\ Message.msgs n' = <[msg := set_w1 d mm]> (Message.msgs n) /\
    ((0 < k)%nat -> last (ChanSpec.to_worker c' d) = Some msg).
Proof.
  induction k as [|k IH]; intros n c msg mm Hr Hok Hm Hres Hc d.
  { exists n, c. split; [done|]. split; [done|]. split; [|lia]. unfold d. simpl. rewrite insert_id; [done|]. rewrite Hm. f_equal. by destruct mm. }
  destruct (visit_ok n c msg mm Hr Hok Hm Hres Hc) as (n1 & R1 & Hr1 & Hm1 & Hw1). set (d1 := next_core _ _) in *.
  destruct (IH n1 _ msg (set_w1 d1 mm) Hr1) as (n' & c' & R & Hr' & Hm' & Hl).
  - destruct Hok as (H0 & mm' & Hmm' & Ht). split; [done|]. exists (set_w1 d1 mm). rewrite Hm1, lookup_insert_eq. split; [done|].
    simpl. congruence.
  - rewrite Hm1. apply lookup_insert_eq.
  - done.
  - rewrite Hw1. apply next_core_range. by eapply Message.nr_workers.
  - assert (Hd : d = Nat.iter k (next_core (Message.num_worker_cores n1)) (Data.mr_next_core (set_w1 d1 mm))).
    { unfold d. rewrite Hw1, Nat.iter_succ_r. done. }
    exists n', (match k with O => ChanSpec.send_worker c d1 msg | _ => c' end). rewrite Hd. cbn [tour]. rewrite (bind_ok _ _ _ _ _ R1).
    split; [done|]. split; [|split; [rewrite Hm', Hm1, insert_insert_eq; by destruct mm|]].
    + destruct k; [|done]. by injection R as <-.
    + destruct k; [|intros _; apply Hl; lia]. intros _. simpl. rewrite fupd_eq. unfold QSpec.enqueue. by rewrite last_snoc.
Qed.

(** A make_runnable request that is not satisfied reaches every worker core
    within one message per core, when the number of worker cores is odd. *)
Theorem make_runnable_visits_all n c msg mm d :
  let w := Message.num_worker_cores n in
  Message.net_rep n c -> Message.msg_ok n msg -> Message.msgs n !! msg = Some mm ->
  Data.mr_result mm <> 0 -> 1 <= Data.mr_next_core mm <= w -> Z.odd w = true -> 1 <= d <= w ->
  exists k n' c', (0 < k)%nat /\ Z.of_nat k <= w /\ tour k msg n = Ok (tt, n') /\ Message.net_rep n' c' /\
    Message.msgs n' !! msg = Some (set_w1 d mm) /\ last (ChanSpec.to_worker c' d) = Some msg.
Proof.
  intros w Hr Hok Hm Hres Hc Ho Hd. pose proof (Message.nr_workers _ _ Hr) as Hw.
  destruct (turns_to_ok w (Data.mr_next_core mm) d Hw Ho Hc Hd) as [Hk Hi].
  destruct (tour_ok (Z.to_nat (turns_to w (Data.mr_next_core mm) d)) n c msg mm Hr Hok Hm Hres Hc) as (n' & c' & R & Hr' & Hm' & Hl).
  fold w in Hm', Hl. rewrite Hi in *. exists (Z.to_nat (turns_to w (Data.mr_next_core mm) d)), n', c'.
  split; [lia|]. split; [lia|]. split; [done|]. split; [done|]. split; [by rewrite Hm', lookup_insert_eq|]. apply Hl. lia.
Qed.

(** With an even number of worker cores a request only ever visits the cores
    whose number has the parity of the one it starts from. *)
Theorem make_runnable_skips_cores n c msg mm k :
  let w := Message.num_worker_cores n in
  Message.net_rep n c -> Message.msg_ok n msg -> Message.msgs n !! msg = Some mm ->
  Data.mr_result mm <> 0 -> 1 <= Data.mr_next_core mm <= w -> Z.even w = true ->
  exists n' mm', tour k msg n = Ok (tt, n') /\ Message.msgs n' !! msg = Some mm' /\
    Z.even (Data.mr_next_core mm') = Z.even (Data.mr_next_core mm).
Proof.
  intros w Hr Hok Hm Hres Hc He. pose proof (Message.nr_workers _ _ Hr) as Hw.
  destruct (tour_ok k n c msg mm Hr Hok Hm Hres Hc) as (n' & c' & R & Hr' & Hm' & _). fold w in Hm', Hw.
  exists n'. eexists. split; [done|]. rewrite Hm', lookup_insert_eq. split; [done|].
  unfold Data.mr_next_core at 1. simpl w1. rewrite iter_next by done. apply Z.even_spec in He as [h Hh].
  rewrite Z.even_add. replace (Z.even ((Data.mr_next_core mm - 1 + 2 * Z.of_nat k) mod w)) with (Z.even (Data.mr_next_core mm - 1)).
  - rewrite Z.even_sub. simpl. by destruct (Z.even (Data.mr_next_core mm)).
  - rewrite Z.mod_eq by lia. set (q := _ / w). set (c1 := Data.mr_next_core mm - 1).
    replace (c1 + 2 * Z.of_nat k - w * q) with (c1 + 2 * (Z.of_nat k - h * q)) by lia. by rewrite Z.even_add_mul_2.
Qed.

(** yield visits the cores in the same way. *)
Lemma yield_visits msg n : smp_yield_syscall_handler msg n = smp_make_runnable_syscall_handler msg n.
Proof. done. Qed.

(** ** Halt *)

Definition sizeof_msg : Z := 40.

(** The messages are an array on the stack, at address [msgs]. *)
Fixpoint halt_loop (n : nat) (msgs i : Z) (mm : msg_t) : M Message.net unit :=
  match n with
  | O => mret tt
  | S n =>
      let p := msgs + sizeof_msg * i in
      modify (fun s => Message.with_msgs (<[p := mk_msg p (req_thr mm) (req_cpu mm) HALT 0 0 0 0]> (Message.msgs s)) s);;
      Message.manager_send_msg p (i + 1);;
      halt_loop n msgs (i + 1) mm
  end.
Definition smp_syscall_halt (msgs msg : Z) : M Message.net unit :=
  mm ← Message.rd msg;
  n ← get;
  halt_loop (Z.to_nat (Message.num_worker_cores n)) msgs 0 mm.

(** A new message in memory keeps the channels. *)
Lemma new_message n c p mm : Message.net_rep n c -> p <> 0 -> node_thr mm = p ->
  Message.net_rep (Message.with_msgs (<[p := mm]> (Message.msgs n)) n) c.
Proof.
  intros [Hw Hs Hi Hm] H0 Ht. split; simpl; [done..|]. intros id m Hid Hin. destruct (Hm id m Hid Hin) as (Hne & mm' & Hmm & Ht').
  split; [done|]. simpl. destruct (decide (m = p)) as [->|].
  - exists mm. by rewrite lookup_insert_eq.
  - exists mm'. by rewrite lookup_insert_ne.
Qed.

Lemma halt_loop_ok mm base k : forall n c i, 0 < base -> 0 <= i -> Message.net_rep n c -> i + Z.of_nat k <= Message.num_worker_cores n ->
  exists n' c', halt_loop k base i mm n = Ok (tt, n') /\ Message.net_rep n' c' /\ ChanSpec.to_manager c' = ChanSpec.to_manager c /\
    (forall cpu, ChanSpec.to_worker c' cpu =
       ChanSpec.to_worker c cpu ++ (if (i <? cpu) && (cpu <=? i + Z.of_nat k) then [base + sizeof_msg * (cpu - 1)] else [])) /\
    (forall p, p < base + sizeof_msg * i -> Message.msgs n' !! p = Message.msgs n !! p) /\
    (forall cpu, i < cpu <= i + Z.of_nat k -> type <$> Message.msgs n' !! (base + sizeof_msg * (cpu - 1)) = Some HALT).
Proof.
  induction k as [|k IH]; intros n c i Hb Hi Hr Hk.
  { exists n, c. split; [done|]. split; [done|]. split; [done|]. split; [|split; [done|lia]]. intros cpu.
    destruct (Z.ltb_spec i cpu), (Z.leb_spec cpu (i + Z.of_nat 0)); simpl; try lia; by rewrite app_nil_r. }
  cbn [halt_loop]. set (p := base + sizeof_msg * i). set (hm := mk_msg p _ _ _ _ _ _ _).
  erewrite bind_ok by reflexivity. set (n1 := Message.with_msgs _ n).
  assert (Hp : p <> 0) by (unfold p, sizeof_msg; lia). assert (Hr1 : Message.net_rep n1 c) by (by apply new_message).
  destruct (Message.manager_send_ok n1 c p (i + 1) Hr1) as (qp & R1 & Hr2); [|simpl; lia|].
  { split; [done|]. exists hm. split; [apply lookup_insert_eq|done]. }
  rewrite (bind_ok _ _ _ _ _ R1). set (n2 := Message.with_qs _ n1) in *.
  destruct (IH n2 _ (i + 1) Hb ltac:(lia) Hr2 ltac:(simpl; lia)) as (n' & c' & R & Hr' & Htm & Htw & Hold & Hnew).
  exists n', c'. split; [done|]. split; [done|]. split; [by rewrite Htm|]. split; [|split].
  - intros cpu. rewrite Htw. simpl. unfold fupd, QSpec.enqueue. destruct (Z.eqb_spec cpu (i + 1)) as [->|].
    + replace (i + 1 <? i + 1) with false by (symmetry; apply Z.ltb_irrefl). simpl. rewrite app_nil_r.
      rewrite (proj2 (Z.ltb_lt i _)), (proj2 (Z.leb_le _ _)) by lia. simpl. unfold p. do 3 f_equal. lia.
    + do 2 f_equal. destruct (Z.ltb_spec (i + 1) cpu), (Z.leb_spec cpu (i + 1 + Z.of_nat k)), (Z.ltb_spec i cpu), (Z.leb_spec cpu (i + Z.of_nat (S k)));
        simpl; try lia; done.
  - intros q Hq. rewrite Hold by (unfold sizeof_msg in *; lia). simpl. apply lookup_insert_ne. lia.
  - intros cpu Hcpu. destruct (decide (cpu = i + 1)) as [->|].
    + rewrite Hold by (unfold sizeof_msg; lia). simpl. replace (i + 1 - 1) with i by lia. fold p. by rewrite lookup_insert_eq.
    + apply Hnew. lia.
Qed.

(** halt reaches every worker core: each gets a [HALT] message behind what it
    has still to read, and nothing else is sent. *)
Theorem smp_syscall_halt_broadcasts n c base msg mm :
  Message.net_rep n c -> Message.msgs n !! msg = Some mm -> 0 < base ->
  exists n' c', smp_syscall_halt base msg n = Ok (tt, n') /\ Message.net_rep n' c' /\ ChanSpec.to_manager c' = ChanSpec.to_manager c /\
    forall cpu, 1 <= cpu <= Message.num_worker_cores n ->
      exists p, ChanSpec.to_worker c' cpu = ChanSpec.to_worker c cpu ++ [p] /\ type <$> Message.msgs n' !! p = Some HALT.
Proof.
  intros Hr Hm Hb. pose proof (Message.nr_workers _ _ Hr).
  destruct (halt_loop_ok mm base (Z.to_nat (Message.num_worker_cores n)) n c 0 Hb ltac:(lia) Hr ltac:(lia)) as (n' & c' & R & Hr' & Htm & Htw & _ & Hnew).
  exists n', c'. split; [|split; [done|split; [done|]]].
  - unfold smp_syscall_halt. rewrite (bind_ok _ _ _ _ _ (Message.rd_ok _ _ _ Hm)). by rewrite (bind_ok get _ n n n eq_refl).
  - intros cpu Hcpu. exists (base + sizeof_msg * (cpu - 1)). split; [|apply Hnew; lia]. rewrite Htw.
    rewrite (proj2 (Z.ltb_lt _ _)), (proj2 (Z.leb_le _ _)) by lia. done.
Qed.

(** ** The loop *)
Section manager.
Context {KH : Type} (process_scancode : KH -> Z -> KH * Z) (me : Z).

Record state := mk_state { life : Lifecycle.manager; io : ConsoleIO.cio (KH := KH); halted : bool }.

Definition on_life {A} (m : M Lifecycle.manager A) : M state A :=
  zoom life (fun l s => mk_state l (io s) (halted s)) m.
Definition on_net {A} (m : M Message.net A) : M state A := on_life (Lifecycle.on_net m).
Definition on_io {A} (m : M ConsoleIO.cio A) : M state A :=
  zoom (fun s => ConsoleIO.with_net (Lifecycle.net (life s)) (io s))
    (fun i s => mk_state (Lifecycle.with_net (ConsoleIO.net i) (life s)) i (halted s)) m.

(** The [switch] of [smp_manager_boot].  [fuel] bounds the children a vanishing
    task can leave, [msgs] is where the array of [smp_syscall_halt] lies. *)
Definition dispatch (fuel : nat) (msgs msg : Z) : M state unit :=
  mm ← on_net (Message.rd msg);
  match type mm with
  | FORK => on_life (Lifecycle.smp_syscall_fork me msg)
  | FORK_RESPONSE => on_life (Lifecycle.smp_fork_response me msg)
  | WAIT => on_life (Lifecycle.smp_syscall_wait me msg)
  | VANISH => on_life (Lifecycle.smp_syscall_vanish me fuel msg)
  | VANISH_BACK =>
      on_net (Message.upd msg (set_type RESPONSE));;
      mm ← on_net (Message.rd msg);
      on_net (Message.manager_send_msg msg (Data.vb_ori_cpu mm))
  | SET_CURSOR_POS => on_io (ConsoleIO.smp_syscall_set_cursor_pos me msg)
  | SET_TERM_COLOR => on_io (ConsoleIO.smp_syscall_set_term_color me msg)
  | GET_CURSOR_POS => on_io (ConsoleIO.smp_syscall_get_cursor_pos me msg)
  | READLINE => on_io (ConsoleIO.smp_syscall_readline process_scancode msg)
  | PRINT => on_io (ConsoleIO.smp_syscall_print me msg)
  | SET_INIT_PCB => on_life (Lifecycle.smp_set_init_pcb me msg)
  | MAKE_RUNNABLE => on_net (smp_make_runnable_syscall_handler msg)
  | YIELD => on_net (smp_yield_syscall_handler msg)
  | HALT => on_net (smp_syscall_halt msgs msg);; modify (fun s => mk_state (life s) (io s) true)
  | THREAD_FORK | RESPONSE | WAIT_RESPONSE | NONE => mret tt
  end.

(** One turn of the loop; a halted core does nothing more. *)
Definition serve (fuel : nat) (msgs : Z) : M state unit :=
  s ← get;
  if halted s then mret tt else
  msg ← on_net (Message.manager_recv_msg fuel);
  dispatch fuel msgs msg.

Fixpoint serve_many (turns fuel : nat) (msgs : Z) : M state unit :=
  match turns with
  | O => mret tt
  | S turns => serve fuel msgs;; serve_many turns fuel msgs
  end.

(** [smp_boot] starts the worker cores, which set up their slots ([boot_order]),
    and returns when they run. *)
Definition smp_manager_boot (num_cpus : Z) (boot_order : list Z) (turns fuel : nat) (msgs : Z) : M state unit :=
  rv ← on_net (Message.msg_init num_cpus);
  if rv <? 0 then panic else
  rv ← on_life Lifecycle.smp_syscall_vanish_init;
  if rv <? 0 then panic else
  rv ← on_io ConsoleIO.smp_syscall_print_init;
  if rv <? 0 then panic else
  rv ← on_io ConsoleIO.smp_syscall_read_init;
  if rv <? 0 then panic else
  on_net (Message.boot_cores boot_order);;
  on_net Message.msg_synchronize;;
  serve_many turns fuel msgs.

(** ** The handlers under the loop *)

Lemma on_net_run {A} (x : M Message.net A) s a n' : x (Lifecycle.net (life s)) = Ok (a, n') ->
  on_net x s = Ok (a, mk_state (Lifecycle.with_net n' (life s)) (io s) (halted s)).
Proof. intros R. unfold on_net, on_life. rewrite (zoom_ok life _ _ _ _ _ (zoom_ok Lifecycle.net Lifecycle.with_net _ _ _ _ R)). done. Qed.

(** One turn: the oldest message of the first core that has one is handed to
    its handler. *)
Lemma serve_run s c fuel base m c' : halted s = false ->
  Message.net_rep (Lifecycle.net (life s)) c -> (Z.to_nat (Message.num_worker_cores (Lifecycle.net (life s))) <= fuel)%nat ->
  ChanSpec.recv_manager (Z.to_nat (Message.num_worker_cores (Lifecycle.net (life s)))) c 1 = Some (m, c') ->
  exists n', Message.net_rep n' c' /\ Message.msgs n' = Message.msgs (Lifecycle.net (life s)) /\
    Message.num_worker_cores n' = Message.num_worker_cores (Lifecycle.net (life s)) /\
    serve fuel base s = dispatch fuel base m (mk_state (Lifecycle.with_net n' (life s)) (io s) false).
Proof.
  intros Hh Hr Hf Hrec. destruct (Message.manager_recv_ok _ c m c' fuel Hr Hf Hrec) as (p & q & R & Hr').
  eexists. split; [exact Hr'|]. split; [done|]. split; [done|]. unfold serve. rewrite (bind_ok get _ s s s eq_refl), Hh.
  by rewrite (bind_ok _ _ _ _ _ (on_net_run _ s _ _ R)), Hh.
Qed.
(** *** Boot *)

(** Booting the manager, when memory lasts: the worker cores may come up in any
    order; then every channel is set up and empty, no task is known, nobody
    prints and nobody reads. *)
Theorem smp_manager_boot_refines s num_cpus l fuel base :
  let answers := Message.answers (Lifecycle.net (life s)) in
  1 < num_cpus -> l ≡ₚ seqZ 1 (num_cpus - 1) ->
  NoDup answers -> 0 ∉ answers -> (3 + 4 * length l <= length answers)%nat ->
  exists s', smp_manager_boot num_cpus l 0 fuel base s = Ok (tt, s') /\
    Message.net_rep (Lifecycle.net (life s')) ChanSpec.empty /\ Lifecycle.ht_rep ∅ (life s') /\
    ConsoleIO.print_lock (io s') = ConsoleIO.free_lock /\
    ConsoleIO.read_waiting_thr (io s') = 0 /\ ConsoleIO.readline_queue (io s') = [].
Proof.
  intros answers Hc Hp Hnd H0 Hlen. unfold answers in *. clear answers. destruct s as [lf i h]. simpl in *.
  destruct (Message.answers (Lifecycle.net lf)) as [|q [|ll [|a rest]]] eqn:E; simpl in Hlen; try lia. rewrite <- E in Hnd, H0.
  destruct (Message.msg_init_ok (Lifecycle.net lf) num_cpus q ll (a :: rest) Hc E Hnd H0) as (n1 & R1 & Hb1 & Ha1).
  assert (Ha : a <> 0) by (rewrite E in H0; set_solver).
  pose proof (Message.boot_inv_answers n1 _ _ [a] rest Hb1 Ha1) as Hb1'. set (n1' := Message.with_answers rest n1) in *.
  assert (Hl : forall cpu, cpu ∈ l <-> 1 <= cpu <= num_cpus - 1) by (intros cpu; rewrite Hp, elem_of_seqZ; lia).
  destruct (Message.boot_cores_ok _ l n1' ∅ Hb1') as (n2 & R2 & Hb2).
  { rewrite Hp. apply NoDup_seqZ. } { intros cpu Hx%Hl. set_solver. } { simpl. lia. }
  assert (HB : forall cpu, 1 <= cpu <= num_cpus - 1 -> cpu ∈ (list_to_set l ∪ ∅ : gset Z)) by (intros cpu; set_solver).
  assert (R3 : Message.msg_synchronize n2 = Ok (tt, n2)).
  { unfold Message.msg_synchronize. rewrite (Message.bi_workers _ _ _ Hb2). apply (Message.sync_loop_ok n2 (num_cpus - 1) _ _ _ Hb2 HB); lia. }
  unfold smp_manager_boot. rewrite (bind_ok _ _ _ _ _ (on_net_run _ (mk_state lf i h) _ _ R1)). cbn [Z.ltb Z.compare]. simpl life. simpl io. simpl halted.
  set (lf1 := Lifecycle.with_ht_lock (snd Mutex.mutex_init) (Lifecycle.tstates lf) (Lifecycle.with_ht HTSpec.empty (Lifecycle.with_net n1' lf))).
  erewrite bind_ok; cycle 1.
  { unfold on_life. apply (zoom_ok life _ _ _ 0 lf1). simpl life. unfold Lifecycle.smp_syscall_vanish_init.
    erewrite bind_ok; cycle 1.
    { unfold Lifecycle.malloc, Lifecycle.on_net. apply (zoom_ok Lifecycle.net Lifecycle.with_net _ _ a n1'). simpl. unfold Message.malloc. by rewrite Ha1. }
    rewrite (proj2 (Z.eqb_neq a 0)) by done. reflexivity. }
  cbn [Z.ltb Z.compare]. do 2 (erewrite bind_ok by reflexivity; cbn [Z.ltb Z.compare fst Mutex.mutex_init]).
  erewrite bind_ok by (apply on_net_run; exact R2). erewrite bind_ok by (apply on_net_run; exact R3).
  eexists. split; [reflexivity|]. split; [|split; [|done]].
  - simpl. by apply (Message.boot_inv_rep n2 (num_cpus - 1) _ Hb2); [lia|].
  - split; [done|]. intros p. by rewrite lookup_empty.
Qed.

(** *** A request from a worker core and back *)

Lemma recv_only c cpu m k : forall i, (forall x, x <> cpu -> ChanSpec.to_manager c x = []) -> ChanSpec.to_manager c cpu = [m] ->
  i <= cpu < i + Z.of_nat k ->
  ChanSpec.recv_manager k c i = Some (m, ChanSpec.mk_chans (fupd (ChanSpec.to_manager c) cpu []) (ChanSpec.to_worker c)).
Proof.
  induction k as [|k IH]; intros i Ho Hm Hi; [lia|]. cbn [ChanSpec.recv_manager]. unfold ChanSpec.recv_from.
  destruct (decide (i = cpu)) as [->|]; [by rewrite Hm|]. rewrite Ho by done. apply IH; [done|done|lia].
Qed.

(** A print request that a worker core sends while no other message is under way
    is served by one turn of the manager: the bytes appear on the console, and
    the next message the worker core receives is the answer. *)
Theorem print_served s c cpu msg mm t fuel base :
  let n := Lifecycle.net (life s) in let b := ConsoleIO.bytes (io s) in
  let len := Data.io_len mm in let buf := Data.io_buf mm in
  halted s = false -> Message.net_rep n c -> (Z.to_nat (Message.num_worker_cores n) <= fuel)%nat ->
  (forall x, ChanSpec.to_manager c x = []) -> ChanSpec.to_worker c cpu = [] ->
  ConsoleIO.request_ok n msg mm -> type mm = PRINT -> req_cpu mm = cpu ->
  0 <= me -> ConsoleIO.print_lock (io s) = ConsoleIO.free_lock -> Console.term_rep (ConsoleIO.con (io s)) t ->
  buf <> 0 -> 0 <= len -> ConsoleIO.buffer b buf len -> (forall a v, b !! a = Some v -> 0 <= v < 256) ->
  exists s', (on_net (Message.worker_send_msg cpu msg);; serve fuel base;; on_net (Message.worker_recv_msg cpu)) s = Ok (msg, s') /\
    Message.msgs (Lifecycle.net (life s')) !! msg = Some (ConsoleIO.response 0 mm) /\
    Console.term_rep (ConsoleIO.con (io s')) (fold_left (fun t i => TermSpec.putc (default 0 (b !! (buf + i))) t) (seqZ 0 len) t).
Proof.
  intros n b len buf Hh Hr Hf Hcm Hcw (H0 & Hm & Ht & Hc) Hty Hcpu Hme Hpl Htr Hbuf Hlen Hbf Hbv. rewrite Hcpu in Hc.
  assert (Hok : Message.msg_ok n msg) by (split; [done|]; by exists mm).
  destruct (Message.worker_send_ok n c msg cpu Hr Hok Hc) as (p & R1 & Hr1). rewrite Hcm in R1, Hr1.
  set (n1 := Message.with_qs _ n) in *. rewrite (bind_ok _ _ _ _ _ (on_net_run _ s _ _ R1)).
  assert (Hrec : exists c', ChanSpec.recv_manager (Z.to_nat (Message.num_worker_cores n)) (ChanSpec.send_manager c cpu msg) 1 = Some (msg, c') /\
    ChanSpec.to_worker c' cpu = []).
  { eexists. split; [apply (recv_only _ cpu)|exact Hcw]; [|unfold ChanSpec.send_manager, ChanSpec.to_manager at 1; by rewrite fupd_eq, Hcm|lia].
    intros x Hx. unfold ChanSpec.send_manager, ChanSpec.to_manager at 1. by rewrite fupd_ne. }
  destruct Hrec as (c2 & Hrec & Hcw2).
  destruct (serve_run (mk_state (Lifecycle.with_net n1 (life s)) (io s) (halted s)) (ChanSpec.send_manager c cpu msg) fuel base msg _ Hh
    Hr1 Hf Hrec) as (n2 & Hr2 & Hm2 & Hw2 & R2). simpl in Hm2, Hw2. rewrite Hh.
  set (s2 := mk_state (Lifecycle.with_net n2 (Lifecycle.with_net n1 (life s))) (io s) false) in *.
  set (i2 := ConsoleIO.with_net n2 (io s)).
  assert (Hq2 : ConsoleIO.request_ok n2 msg mm) by (split; [done|]; rewrite Hm2, Hw2, Hcpu; done).
  destruct (ConsoleIO.smp_syscall_print_ok me i2 t _ msg mm Hme Hpl Htr Hr2 Hq2 Hbuf Hlen Hbf Hbv) as (i3 & R3 & _ & _ & Ht3 & Hr3 & Hm3 & Hw3).
  simpl in Hr3. rewrite Hcpu in Hr3. set (l3 := Lifecycle.with_net (ConsoleIO.net i3) (life s2)). set (s3 := mk_state l3 i3 false).
  assert (R3' : serve fuel base (mk_state (Lifecycle.with_net n1 (life s)) (io s) false) = Ok (tt, s3)).
  { rewrite <- Hh in R2. rewrite <- Hh. rewrite R2. unfold dispatch. erewrite bind_ok by (apply on_net_run, Message.rd_ok; simpl; by rewrite Hm2). rewrite Hty.
    unfold on_io. unfold s2. simpl. rewrite Hh. erewrite zoom_ok by (simpl; exact R3). done. }
  rewrite (bind_ok _ _ _ _ _ R3').
  pose proof (Message.worker_recv_ok (ConsoleIO.net i3) _ cpu Hr3 ltac:(rewrite Hw3; simpl; rewrite Hw2; done)) as R4.
  unfold ChanSpec.recv_worker in R4. simpl in R4. rewrite fupd_eq, Hcw2 in R4. simpl in R4. destruct R4 as (_ & qp & q & R4 & _).
  eexists. split; [apply on_net_run; exact R4|]. split; [|done]. simpl. rewrite Hm3. apply lookup_insert_eq.
Qed.
End manager.

(** ** A board with three worker cores *)

Definition demo_msg : msg_t := mk_msg 100 50 2 MAKE_RUNNABLE 9 2 (-1) 0.
Definition demo_off : Message.net := Message.mk_net 0 ∅ ∅ ∅ ∅ {[100 := demo_msg]} (seqZ 1000 20).
Definition demo_three : Message.net :=
  match (Message.msg_init 4;; Message.boot_cores [2; 1; 3];; Message.msg_synchronize) demo_off with Ok (_, n) => n | _ => demo_off end.

Lemma demo_three_rep : Message.net_rep demo_three ChanSpec.empty.
Proof.
  destruct (Message.msg_boot_ok demo_off 4 [2; 1; 3]) as (n & R & H).
  - lia.
  - by apply (bool_decide_unpack _); vm_compute.
  - apply NoDup_seqZ.
  - unfold demo_off, Message.answers. rewrite elem_of_seqZ. lia.
  - vm_compute. lia.
  - unfold demo_three. by rewrite R.
Qed.

(** A request of core 2 reaches core 1. *)
Lemma make_runnable_visits_witness :
  exists k n' c', (0 < k)%nat /\ Z.of_nat k <= 3 /\ tour k 100 demo_three = Ok (tt, n') /\ Message.net_rep n' c' /\
    Message.msgs n' !! 100 = Some (set_w1 1 demo_msg) /\ last (ChanSpec.to_worker c' 1) = Some 100.
Proof.
  apply (make_runnable_visits_all demo_three ChanSpec.empty 100 demo_msg 1 demo_three_rep).
  - split; [done|]. exists demo_msg. split; [vm_compute; reflexivity|done].
  - vm_compute. reflexivity.
  - done.
  - split; vm_compute; congruence.
  - vm_compute. reflexivity.
  - split; vm_compute; congruence.
Defined.

(** With two worker cores, a request of core 1 never reaches core 2. *)
Definition demo_two : Message.net := Message.with_msgs {[100 := mk_msg 100 50 1 MAKE_RUNNABLE 9 1 (-1) 0]} Message.demo_boot.
Lemma demo_two_rep : Message.net_rep demo_two ChanSpec.empty.
Proof.
  apply Message.net_rep_msgs; [exact Message.demo_boot_rep|]. intros m mm H.
  assert (E : Message.msgs Message.demo_boot = {[100 := mk_msg 100 7 1 WAIT 5 0 0 0]}) by (vm_compute; reflexivity).
  rewrite E in *. apply lookup_singleton_Some in H as [<- <-]. by eexists.
Qed.
Lemma make_runnable_skips_witness :
  exists n' mm', tour 7 100 demo_two = Ok (tt, n') /\ Message.msgs n' !! 100 = Some mm' /\ Z.even (Data.mr_next_core mm') = false.
Proof.
  apply (make_runnable_skips_cores demo_two ChanSpec.empty 100 (mk_msg 100 50 1 MAKE_RUNNABLE 9 1 (-1) 0) 7 demo_two_rep).
  - split; [done|]. eexists. split; [vm_compute; reflexivity|done].
  - vm_compute. reflexivity.
  - done.
  - split; vm_compute; congruence.
  - vm_compute. reflexivity.
Defined.

Lemma smp_syscall_halt_witness :
  exists n' c', smp_syscall_halt 5000 100 demo_three = Ok (tt, n') /\ Message.net_rep n' c' /\
    forall cpu, 1 <= cpu <= 3 -> exists p, ChanSpec.to_worker c' cpu = [p] /\ type <$> Message.msgs n' !! p = Some HALT.
Proof.
  destruct (smp_syscall_halt_broadcasts demo_three ChanSpec.empty 5000 100 demo_msg demo_three_rep) as (n' & c' & R & Hr & _ & H).
  - vm_compute. reflexivity.
  - lia.
  - exists n', c'. split; [done|]. split; [done|]. intros cpu Hc. apply H.
    assert (E : Message.num_worker_cores demo_three = 3) by (vm_compute; reflexivity). by rewrite E.
Defined.

(** ** Booting, and a print request of core 1 *)

Definition raw_life (n : Message.net) : Lifecycle.manager :=
  Lifecycle.mk_manager n ∅ ∅ ∅ HTSpec.empty (Mutex.mk_mutex (-2) []) 0 0 (fun _ => NORMAL).
Definition demo_state (n : Message.net) : state := mk_state (raw_life n) (ConsoleIO.demo_io ConsoleIO.no_keys) false.

Lemma smp_manager_boot_witness :
  exists s', smp_manager_boot Keyboard.demo_process 1 4 [2; 1; 3] 0 4 5000 (demo_state demo_off) = Ok (tt, s') /\
    Message.net_rep (Lifecycle.net (life s')) ChanSpec.empty /\ ConsoleIO.read_waiting_thr (io s') = 0.
Proof.
  destruct (smp_manager_boot_refines Keyboard.demo_process 1 (demo_state demo_off) 4 [2; 1; 3] 4 5000) as (s' & R & Hr & _ & _ & Hw & _).
  - lia.
  - by apply (bool_decide_unpack _); vm_compute.
  - apply NoDup_seqZ.
  - unfold demo_state, demo_off. simpl Lifecycle.net. unfold Message.answers. rewrite elem_of_seqZ. lia.
  - vm_compute. lia.
  - by exists s'.
Defined.

Definition demo_print : msg_t := mk_msg 100 50 1 PRINT 3 1000 0 0.
Definition demo_print_net : Message.net := Message.with_msgs {[100 := demo_print]} Message.demo_boot.

Lemma print_served_witness :
  exists s', (on_net (Message.worker_send_msg 1 100);; serve Keyboard.demo_process 1 2 5000;; on_net (Message.worker_recv_msg 1)) (demo_state demo_print_net) = Ok (100, s') /\
    Message.msgs (Lifecycle.net (life s')) !! 100 = Some (ConsoleIO.response 0 demo_print).
Proof.
  destruct (print_served Keyboard.demo_process 1 (demo_state demo_print_net) ChanSpec.empty 1 100 demo_print Console.demo_term 2 5000) as (s' & R & Hm & _).
  - done.
  - apply Message.net_rep_msgs; [exact Message.demo_boot_rep|]. intros m mm H.
    assert (E : Message.msgs Message.demo_boot = {[100 := mk_msg 100 7 1 WAIT 5 0 0 0]}) by (vm_compute; reflexivity).
    rewrite E in H. apply lookup_singleton_Some in H as [<- <-]. by eexists.
  - vm_compute. lia.
  - done.
  - done.
  - split; [done|]. split; [done|]. split; [done|]. split; vm_compute; congruence.
  - done.
  - done.
  - lia.
  - done.
  - exact Console.demo_term_rep.
  - done.
  - vm_compute. congruence.
  - exact ConsoleIO.demo_buffer.
  - intros a v. simpl. unfold ConsoleIO.demo_bytes. rewrite !lookup_insert_Some, lookup_singleton_Some. intros H.
    assert (v = 0) as -> by intuition congruence. lia.
  - exists s'. split; [exact R|exact Hm].
Defined.
End Manager.
