(* ===== verification/ThrMgmt.v ===== *)
(** * Thread management on the worker cores (src/kern/syscall_thr_management.c
      and the APIC timer interrupt of src/kern/timer_driver.c)

    A handler that gives up the processor is cut there: [inl r] says that it
    returns [r] to its caller, [inr n] that the calling thread is suspended and
    the core runs thread [n].  What the thread does when it runs again is a
    definition of its own ([_visit], [_finish]).

    deschedule reaches user memory through the parameters of [UserMem]; swexn is
    in Swexn.v. *)

From S2P Require Import Prelude SimpleQueue PriorityQueue ThreadState Mutex Message ControlBlock Scheduler ContextSwitch.
From Stdlib Require Import ZArith Lia Sorted.
From stdpp Require Import base gmap list tactics numbers.

#[local] Open Scope Z_scope.
#[local] Set Default Proof Using "Type".

(** [ureg_t] *)
Record ureg_t := mk_ureg {
  u_cause : Z; u_cr2 : Z; u_ds : Z; u_es : Z; u_fs : Z; u_gs : Z;
  u_edi : Z; u_esi : Z; u_ebp : Z; u_zero : Z; u_ebx : Z; u_edx : Z; u_ecx : Z; u_eax : Z;
  u_error_code : Z; u_eip : Z; u_cs : Z; u_eflags : Z; u_esp : Z; u_ss : Z }.

(** What the system calls use of the memory of the running task. *)
Class UserMem := {
  check_mem_validness : Z -> Z -> bool -> bool -> M kernel Z;
  load_int : Z -> M kernel Z
}.

Module ThrMgmt.
Import Scheduler.

Definition EFAULT : Z := -14.
Definition EINVAL : Z := -22.
Definition ENOMEM : Z := -12.
Definition ETHREAD : Z := -257.

(** ** sleep *)

Definition sleep_queue_compare (this that : Z * Z) : Z :=
  let t1 := this.1 in let t2 := that.1 in
  if t1 >? t2 then 1 else if t1 <? t2 then -1 else 0.

(** [spinlock_init] and [pri_queue_init] return 0. *)
Definition syscall_sleep_init (cpu : Z) : M kernel Z :=
  p ← malloc;
  if p =? 0 then mret (-1) else
  modify (fun k => with_sleep_queue (<[cpu := []]> (sleep_queue k)) k);;
  l ← malloc;
  if l =? 0 then mret (-1) else mret 0.

Definition gettid_syscall_handler (this : Z) : M kernel Z := t ← rd_tcb this; mret (tid t).

Definition timer_get_ticks (cpu : Z) : M kernel Z := fun k => Ok (apic_num_ticks k cpu, k).
Definition get_ticks_syscall_handler (cpu : Z) : M kernel Z := timer_get_ticks cpu.

(** The part of [sleep_syscall_handler] under [sleep_lock]. *)
Definition sleep_enqueue (cpu this ticks : Z) : M kernel unit :=
  now ← timer_get_ticks cpu;
  k ← get;
  q ← deref (sleep_queue k !! cpu);
  modify (fun k => with_sleep_queue (<[cpu := PQSpec.insert sleep_queue_compare (w32 (w32 ticks + now), this) q]> (sleep_queue k)) k).

Definition timer_callback (cpu : Z) : M kernel Z :=
  k ← get;
  q ← deref (sleep_queue k !! cpu);
  now ← timer_get_ticks cpu;
  match q with
  | (ticks, thr) :: q' =>
      if ticks <=? now then modify (fun k => with_sleep_queue (<[cpu := q']> (sleep_queue k)) k);; mret thr
      else mret 0
  | [] => mret 0
  end.

(** The count and the callback of [apic_timer_interrupt_handler] (timer_driver.c). *)
Definition timer_tick (cpu : Z) : M kernel Z :=
  modify (fun k => with_apic_num_ticks (fupd (apic_num_ticks k) cpu (w32 (apic_num_ticks k cpu + 1))) k);;
  timer_callback cpu.

(** ** A sleeping thread wakes up in time *)

(** While a thread sleeps, the core meets timer interrupts, and other threads go to
    sleep, in any order. *)
Inductive sleep_event := Interrupt | GoSleep (thr n : Z).

(** The threads the interrupts wake, in order; 0 where an interrupt wakes none. *)
Fixpoint sleep_run (evs : list sleep_event) (cpu : Z) : M kernel (list Z) :=
  match evs with
  | [] => mret []
  | Interrupt :: evs => p ← timer_tick cpu; l ← sleep_run evs cpu; mret (p :: l)
  | GoSleep thr n :: evs => sleep_enqueue cpu thr n;; sleep_run evs cpu
  end.

Fixpoint interrupts (evs : list sleep_event) : Z :=
  match evs with [] => 0 | Interrupt :: evs => 1 + interrupts evs | GoSleep _ _ :: evs => interrupts evs end.

(** How many of the threads that go to sleep, the time now being [now], are due at time [w] or earlier. *)
Fixpoint later_due (w now : Z) (evs : list sleep_event) : Z :=
  match evs with
  | [] => 0
  | Interrupt :: evs => later_due w (now + 1) evs
  | GoSleep _ n :: evs => (if now + n <=? w then 1 else 0) + later_due w now evs
  end.

(** The effect of one tick on the sleeping threads. *)
Definition pop_due (now : Z) (q : list (Z * Z)) : Z * list (Z * Z) :=
  match q with
  | (w, thr) :: q' => if w <=? now then (thr, q') else (0, q)
  | [] => (0, [])
  end.

Lemma tick_run k cpu q : sleep_queue k !! cpu = Some q -> 0 <= apic_num_ticks k cpu -> apic_num_ticks k cpu + 1 < 2 ^ 32 ->
  let now := apic_num_ticks k cpu + 1 in
  exists k', timer_tick cpu k = Ok ((pop_due now q).1, k') /\ sleep_queue k' !! cpu = Some (pop_due now q).2 /\
    apic_num_ticks k' cpu = now.
Proof.
  intros Hq H0 Hn now. unfold timer_tick. erewrite bind_ok by reflexivity. rewrite w32_small by lia. fold now.
  set (k1 := with_apic_num_ticks _ k). assert (Hnow : apic_num_ticks k1 cpu = now) by apply fupd_eq.
  unfold timer_callback. rewrite (bind_ok get _ k1 k1 k1 eq_refl). change (sleep_queue k1) with (sleep_queue k). rewrite Hq.
  erewrite (bind_ok (deref _)) by reflexivity. unfold timer_get_ticks. erewrite bind_ok by reflexivity. rewrite Hnow.
  destruct q as [|[w thr] q]; simpl; [by exists k1|]. destruct (w <=? now); [|by exists k1].
  eexists. split; [reflexivity|]. split; [simpl; apply lookup_insert_eq|done].
Qed.

Lemma interrupts_nonneg evs : 0 <= interrupts evs.
Proof. induction evs as [|[|] evs IH]; simpl; lia. Qed.

Lemma sleep_enqueue_run k cpu thr n q : sleep_queue k !! cpu = Some q -> 0 <= apic_num_ticks k cpu -> 0 < n < 2 ^ 31 -> apic_num_ticks k cpu + n < 2 ^ 32 ->
  sleep_enqueue cpu thr n k = Ok (tt, with_sleep_queue (<[cpu := PQSpec.insert sleep_queue_compare (apic_num_ticks k cpu + n, thr) q]> (sleep_queue k)) k).
Proof.
  intros Hq H0 Hn Hb. assert (Ew : w32 (w32 n + apic_num_ticks k cpu) = apic_num_ticks k cpu + n) by (rewrite !w32_small; rewrite ?w32_small; lia).
  unfold sleep_enqueue, timer_get_ticks. erewrite bind_ok by reflexivity. rewrite (bind_ok get _ k k k eq_refl), Hq. erewrite (bind_ok (deref _)) by reflexivity. by rewrite Ew.
Qed.

(** The other sleepers: not thread [this], and the clock does not wrap around. *)
Definition others (this limit : Z) (evs : list sleep_event) : Prop :=
  Forall (fun e => match e with Interrupt => True | GoSleep t m => t <> this /\ 0 < m < 2 ^ 31 /\ limit + m < 2 ^ 32 end) evs.

(** Where a new sleeper goes. *)
Lemma sleep_compare x y : (0 <? sleep_queue_compare x y) = (y.1 <? x.1).
Proof. unfold sleep_queue_compare. rewrite Z.gtb_ltb. destruct (Z.ltb_spec y.1 x.1), (Z.ltb_spec x.1 y.1); (done || lia). Qed.

Lemma sleep_insert_elem x q e : e ∈ PQSpec.insert sleep_queue_compare x q <-> e = x \/ e ∈ q.
Proof. induction q as [|y q IH]; simpl; [set_solver|]. destruct (0 <? _); set_solver. Qed.

Lemma sleep_insert_ahead x w thr l1 l2 : x.1 <= w -> Forall (fun e => e.1 <= w) l1 ->
  exists l1', PQSpec.insert sleep_queue_compare x (l1 ++ (w, thr) :: l2) = l1' ++ (w, thr) :: l2 /\ Forall (fun e => e.1 <= w) l1' /\ length l1' = S (length l1).
Proof.
  intros Hx. induction l1 as [|y l1 IH]; intros Hl; simpl; rewrite sleep_compare; simpl.
  - destruct (Z.ltb_spec w x.1); [lia|]. exists [x]. split; [done|]. split; [by repeat constructor|done].
  - apply Forall_cons_iff in Hl as [Hy Hl]. destruct (Z.ltb_spec y.1 x.1).
    + destruct (IH Hl) as (l1' & E & F & L). exists (y :: l1'). rewrite E. split; [done|]. split; [by constructor|simpl; lia].
    + exists (x :: y :: l1). split; [done|]. split; [by repeat constructor|done].
Qed.

Lemma sleep_insert_behind x w thr l1 l2 : w < x.1 -> Forall (fun e => e.1 <= w) l1 ->
  exists l2', PQSpec.insert sleep_queue_compare x (l1 ++ (w, thr) :: l2) = l1 ++ (w, thr) :: l2'.
Proof.
  intros Hx. induction l1 as [|y l1 IH]; intros Hl; simpl; rewrite sleep_compare; simpl.
  - rewrite (proj2 (Z.ltb_lt w x.1)) by done. by eexists.
  - apply Forall_cons_iff in Hl as [Hy Hl]. rewrite (proj2 (Z.ltb_lt y.1 x.1)) by lia. destruct (IH Hl) as [l2' E]. exists l2'. by rewrite E.
Qed.

(** Never early. *)
Lemma sleep_not_early w thr cpu evs : forall k q, sleep_queue k !! cpu = Some q -> (forall w', (w', thr) ∈ q -> w' = w) -> thr <> 0 ->
  0 <= apic_num_ticks k cpu -> apic_num_ticks k cpu + interrupts evs < 2 ^ 32 -> others thr (apic_num_ticks k cpu + interrupts evs) evs ->
  exists l k', sleep_run evs cpu k = Ok (l, k') /\ Z.of_nat (length l) = interrupts evs /\ (apic_num_ticks k cpu + interrupts evs < w -> thr ∉ l).
Proof.
  induction evs as [|[|t m] evs IH]; intros k q Hq Hin H0 Hn Hb Ho; cbn [interrupts] in *; try pose proof (interrupts_nonneg evs).
  - exists [], k. split; [done|]. split; [done|set_solver].
  - apply Forall_cons_iff in Ho as [_ Ho]. destruct (tick_run k cpu q Hq Hn ltac:(lia)) as (k1 & R1 & Hq1 & Hn1). set (now := apic_num_ticks k cpu + 1) in *.
    assert (Hpop : (forall w', (w', thr) ∈ (pop_due now q).2 -> w' = w) /\ (now < w -> (pop_due now q).1 <> thr)).
    { destruct q as [|[w' t'] q]; [split; [set_solver|done]|]. simpl. destruct (Z.leb_spec w' now); simpl; [|done]. split; [intros w2 H2; apply Hin; set_solver|].
      intros Hw ->. pose proof (Hin w' ltac:(set_solver)). lia. }
    destruct Hpop as [P1 P2]. destruct (IH k1 _ Hq1 P1 H0 ltac:(lia) ltac:(lia)) as (l & k' & R & Hl & He).
    { eapply list.Forall_impl; [exact Ho|]. intros [|t m]; [done|]. rewrite Hn1. unfold now. simpl. intros (? & ? & ?). split; [done|lia]. }
    cbn [sleep_run]. rewrite (bind_ok _ _ _ _ _ R1), (bind_ok _ _ _ _ _ R). eexists _, _. split; [reflexivity|]. split; [simpl; lia|].
    intros Hw. rewrite elem_of_cons. intros [E|E]; [by apply P2; [lia|]|]. apply He; [lia|done].
  - apply Forall_cons_iff in Ho as [(Ht & Hm & Hw) Ho]. pose proof (sleep_enqueue_run k cpu t m q Hq Hn Hm ltac:(lia)) as R1. set (k1 := with_sleep_queue _ k) in R1.
    destruct (IH k1 _ (lookup_insert_eq _ _ _)) as (l & k' & R & Hl & He); [|done|done|done|done|].
    { intros w' [[= _ E]|E]%sleep_insert_elem; [done|by apply Hin]. }
    cbn [sleep_run]. rewrite (bind_ok _ _ _ _ _ R1). by exists l, k'.
Qed.

(** Never late by more than the number of threads that are due before. *)
Lemma sleep_not_late w thr cpu evs : forall k l1 l2, sleep_queue k !! cpu = Some (l1 ++ (w, thr) :: l2) -> Forall (fun e => e.1 <= w) l1 ->
  0 <= apic_num_ticks k cpu -> apic_num_ticks k cpu + interrupts evs < 2 ^ 32 -> others thr (apic_num_ticks k cpu + interrupts evs) evs ->
  Z.max 1 (w - apic_num_ticks k cpu) + Z.of_nat (length l1) + later_due w (apic_num_ticks k cpu) evs <= interrupts evs ->
  forall l k', sleep_run evs cpu k = Ok (l, k') -> thr ∈ l.
Proof.
  assert (Hpos : forall evs now, 0 <= later_due w now evs) by (clear; intros evs; induction evs as [|[|] evs IH]; intros now; simpl; [lia|apply IH|specialize (IH now); destruct (_ <=? _); lia]).
  induction evs as [|[|t m] evs IH]; intros k l1 l2 Hq Hle Hn Hb Ho Hj l k' Hrun; cbn [interrupts later_due] in *; try pose proof (interrupts_nonneg evs).
  - lia.
  - apply Forall_cons_iff in Ho as [_ Ho]. destruct (tick_run k cpu _ Hq Hn ltac:(lia)) as (k1 & R1 & Hq1 & Hn1). cbn [sleep_run] in Hrun.
    rewrite (bind_ok _ _ _ _ _ R1) in Hrun. apply bind_inv in Hrun as (l' & k2 & R & [= <- <-]). set (now := apic_num_ticks k cpu + 1) in *.
    assert (Ho1 : others thr (apic_num_ticks k1 cpu + interrupts evs) evs).
    { eapply list.Forall_impl; [exact Ho|]. intros [|t m]; [done|]. rewrite Hn1. unfold now. simpl. intros (? & ? & ?). split; [done|lia]. }
    assert (Hcont : forall l1', sleep_queue k1 !! cpu = Some (l1' ++ (w, thr) :: l2) -> Forall (fun e => e.1 <= w) l1' ->
      Z.max 1 (w - now) + Z.of_nat (length l1') + later_due w now evs <= interrupts evs -> thr ∈ l').
    { intros l1' Hq' Hf' Hj'. apply (IH k1 l1' l2 Hq' Hf' ltac:(lia) ltac:(lia) Ho1 ltac:(rewrite Hn1; lia) l' k2 R). }
    apply elem_of_cons. specialize (Hpos evs now). destruct l1 as [|[w' thr'] l1]; simpl app in *; simpl pop_due in Hq1 |- *.
    + destruct (Z.leb_spec w now) as [Hw|Hw]; simpl in Hq1; [by left|]. right. apply (Hcont []); [done|constructor|simpl in *; lia].
    + right. apply Forall_cons_iff in Hle as [Hw' Hle]. simpl in Hw'. destruct (Z.leb_spec w' now) as [Hw|Hw]; simpl in Hq1.
      * apply (Hcont l1); [done|done|simpl in *; lia].
      * apply (Hcont ((w', thr') :: l1)); [done|by constructor|simpl in *; lia].
  - apply Forall_cons_iff in Ho as [(Ht & Hm & Hw) Ho]. pose proof (sleep_enqueue_run k cpu t m _ Hq Hn Hm ltac:(lia)) as R1. cbn [sleep_run] in Hrun.
    rewrite (bind_ok _ _ _ _ _ R1) in Hrun. set (k1 := with_sleep_queue _ k) in *. set (x := (apic_num_ticks k cpu + m, t)) in *.
    destruct (Z.leb_spec (apic_num_ticks k cpu + m) w) as [Hx|Hx].
    + destruct (sleep_insert_ahead x w thr l1 l2 Hx Hle) as (l1' & E & F & L). apply (IH k1 l1' l2) with (k' := k'); try done; [simpl; by rewrite lookup_insert_eq, E|].
      change (apic_num_ticks k1 cpu) with (apic_num_ticks k cpu). lia.
    + destruct (sleep_insert_behind x w thr l1 l2 Hx Hle) as (l2' & E). apply (IH k1 l1 l2') with (k' := k'); try done. simpl. by rewrite lookup_insert_eq, E.
Qed.

(** The number of sleepers due before time [w]. *)
Definition due_before (w : Z) (q : list (Z * Z)) : nat := length (List.filter (fun e : Z * Z => e.1 <? w) q).

(** Where [insert] puts a new sleeper. *)
Lemma sleep_insert_split x q : exists l1 l2, PQSpec.insert sleep_queue_compare x q = l1 ++ x :: l2 /\ q = l1 ++ l2 /\
  Forall (fun e => e.1 < x.1) l1 /\ (length l1 <= due_before x.1 q)%nat.
Proof.
  induction q as [|y q IH]; simpl; [by exists [], []|]. unfold sleep_queue_compare at 1.
  destruct (Z.ltb_spec y.1 x.1) as [Hlt|Hge].
  - rewrite (proj2 (Z.gtb_lt x.1 y.1)) by lia. simpl. destruct IH as (l1 & l2 & E & Eq & F & L). exists (y :: l1), l2.
    rewrite E, Eq. split; [done|]. split; [done|]. split; [by constructor|]. rewrite <- Eq. unfold due_before in *. simpl. rewrite (proj2 (Z.ltb_lt _ _) Hlt). simpl. lia.
  - exists [], (y :: q). assert (Hc : (0 <? (if x.1 >? y.1 then 1 else if x.1 <? y.1 then -1 else 0)) = false).
    { rewrite Z.gtb_ltb. destruct (Z.ltb_spec y.1 x.1); [lia|]. by destruct (x.1 <? y.1). }
    rewrite Hc. split; [done|]. split; [done|]. split; [constructor|]. simpl. lia.
Qed.

(** (C24) A thread that goes to sleep for [n] ticks is not woken before [n] timer interrupts
    have occurred, whatever other threads go to sleep meanwhile.  It is woken at most
    one interrupt later for each thread that was already asleep and due earlier, and
    for each that goes to sleep later and is due at the same time or earlier (such a
    thread is queued ahead of it).  The clock, of 32 bits, does not wrap around in the
    meantime. *)
Theorem sleep_wakes_in_time k cpu this n q evs :
  let now := apic_num_ticks k cpu in
  sleep_queue k !! cpu = Some q -> this <> 0 -> (this ∉ q.*2) ->
  0 <= now -> 0 < n < 2 ^ 31 -> now + n < 2 ^ 32 -> now + interrupts evs < 2 ^ 32 -> others this (now + interrupts evs) evs ->
  exists woken k', (sleep_enqueue cpu this n;; sleep_run evs cpu) k = Ok (woken, k') /\ Z.of_nat (length woken) = interrupts evs /\
    (interrupts evs < n -> this ∉ woken) /\
    (n + Z.of_nat (due_before (now + n) q) + later_due (now + n) now evs <= interrupts evs -> this ∈ woken).
Proof.
  intros now Hq H0 Hnin Hnow Hn Hw Hj Ho. pose proof (sleep_enqueue_run k cpu this n q Hq Hnow Hn Hw) as R1. fold now in R1. set (k1 := with_sleep_queue _ k) in R1.
  rewrite (bind_ok _ _ _ _ _ R1). destruct (sleep_insert_split (now + n, this) q) as (l1 & l2 & E & Eq & F & L).
  assert (Hq1 : sleep_queue k1 !! cpu = Some (l1 ++ (now + n, this) :: l2)) by (simpl; by rewrite lookup_insert_eq, E).
  destruct (sleep_not_early (now + n) this cpu evs k1 _ Hq1) as (l & k' & R & Hlen & Hearly); [|done|done|done|done|].
  { rewrite <- E. intros w' [[= ->]|Hin]%sleep_insert_elem; [done|]. exfalso. apply Hnin, list_elem_of_fmap. by exists (w', this). }
  exists l, k'. split; [done|]. split; [done|]. change (apic_num_ticks k1 cpu) with now in Hearly. split; [intros; apply Hearly; lia|]. intros Hlate.
  apply (sleep_not_late (now + n) this cpu evs k1 l1 l2 Hq1) with (k' := k'); try done.
  - eapply list.Forall_impl; [exact F|]. simpl. intros e He. lia.
  - change (apic_num_ticks k1 cpu) with now. simpl in L. lia.
Qed.

(** ** Registers a user may ask for *)

Definition sizeof_ureg : Z := 80.
Definition SEGSEL_USER_CS : Z := 35.
Definition SEGSEL_USER_DS : Z := 43.
Definition USER_MEM_START : Z := 16777216.
Definition EFLAGS_GET_RSV (n : Z) : Z := Z.land n 4290805802.
Definition EFLAGS_GET_IOPL (n : Z) : Z := Z.land (Z.shiftr n 12) 3.
Definition EFLAGS_GET_TF (n : Z) : Z := Z.land (Z.shiftr n 8) 1.
Definition EFLAGS_GET_IF (n : Z) : Z := Z.land (Z.shiftr n 9) 1.
Definition EFLAGS_GET_NT (n : Z) : Z := Z.land (Z.shiftr n 14) 1.
Definition EFLAGS_GET_OTHER (n : Z) : Z := Z.land (Z.shiftr n 17) 31.

Definition is_newureg_valid (u : ureg_t) : bool :=
  if negb (u_ds u =? SEGSEL_USER_DS) || negb (u_es u =? SEGSEL_USER_DS) || negb (u_fs u =? SEGSEL_USER_DS)
     || negb (u_gs u =? SEGSEL_USER_DS) || negb (u_ss u =? SEGSEL_USER_DS) || negb (u_cs u =? SEGSEL_USER_CS) then false
  else if (u_ebp u <? USER_MEM_START) || (u_esp u <? USER_MEM_START) || (u_eip u <? USER_MEM_START) then false
  else if negb (EFLAGS_GET_RSV (u_eflags u) =? 2) || negb (EFLAGS_GET_IOPL (u_eflags u) =? 0)
     || negb (EFLAGS_GET_TF (u_eflags u) =? 0) || negb (EFLAGS_GET_IF (u_eflags u) =? 1)
     || negb (EFLAGS_GET_NT (u_eflags u) =? 0) || negb (EFLAGS_GET_OTHER (u_eflags u) =? 0) then false
  else true.

Lemma masked_eq n s m v : 0 <= s -> Z.land v m = v ->
  Z.land (Z.shiftr n s) m = v <-> forall j, 0 <= j -> Z.testbit m j = true -> Z.testbit n (j + s) = Z.testbit v j.
Proof.
  intros Hs Hv. split.
  - intros <- j Hj Hm. by rewrite Z.land_spec, Hm, Z.shiftr_spec, andb_true_r.
  - intros Hb. apply Z.bits_inj'. intros j Hj. rewrite Z.land_spec, Z.shiftr_spec by done.
    destruct (Z.testbit m j) eqn:E; [by rewrite andb_true_r, Hb|]. rewrite andb_false_r, <- Hv, Z.land_spec, E. by rewrite andb_false_r.
Qed.

(** The bits of EFLAGS a user may not choose, and the value they must have. *)
Definition forced_flag (j : Z) : option bool :=
  if (j =? 1) || (j =? 9) then Some true
  else if (j =? 3) || (j =? 5) || (j =? 8) || ((12 <=? j) && (j <=? 15)) || ((17 <=? j) && (j <=? 31)) then Some false
  else None.

Definition flags_safe (f : Z) : Prop := forall j b, 0 <= j < 32 -> forced_flag j = Some b -> Z.testbit f j = b.

Lemma below_32 (P : Z -> Prop) : Forall P (seqZ 0 32) -> forall j, 0 <= j < 32 -> P j.
Proof. rewrite Forall_forall. intros HP j Hj. apply HP, list_elem_of_In, elem_of_seqZ. lia. Qed.

(** A field of the flags has its expected value when its bits are safe. *)
Lemma flag_field f s m v : flags_safe f -> 0 <= s -> 0 <= m < 2 ^ 32 -> Z.land v m = v ->
  Forall (fun j => Z.testbit m j = true -> j + s < 32 /\ forced_flag (j + s) = Some (Z.testbit v j)) (seqZ 0 32) ->
  Z.land (Z.shiftr f s) m = v.
Proof.
  intros Hf Hs Hm Hv HF. apply masked_eq; [done..|]. intros j Hj Hb. destruct (Z.lt_ge_cases j 32).
  - destruct (below_32 _ HF j ltac:(lia) Hb) as [? E]. apply (Hf (j + s)); [lia|done].
  - by rewrite u32_testbit_high in Hb.
Qed.

Lemma flags_exact f :
  EFLAGS_GET_RSV f = 2 /\ EFLAGS_GET_IOPL f = 0 /\ EFLAGS_GET_TF f = 0 /\ EFLAGS_GET_IF f = 1 /\ EFLAGS_GET_NT f = 0 /\ EFLAGS_GET_OTHER f = 0
  <-> flags_safe f.
Proof.
  unfold EFLAGS_GET_RSV, EFLAGS_GET_IOPL, EFLAGS_GET_TF, EFLAGS_GET_IF, EFLAGS_GET_NT, EFLAGS_GET_OTHER. split.
  - rewrite <- (Z.shiftr_0_r f) at 1. rewrite !masked_eq by done. intros (H1 & H2 & H3 & H4 & H5 & H6) j b Hj. revert b.
    revert j Hj. apply (below_32 (fun j => forall b, forced_flag j = Some b -> Z.testbit f j = b)).
    let l := eval vm_compute in (seqZ 0 32) in change (seqZ 0 32) with l.
    repeat (apply Forall_cons; [intros b Hb; vm_compute in Hb; try discriminate Hb; injection Hb as <-|]); try apply Forall_nil;
    match goal with |- Z.testbit _ ?j = _ =>
      first [exact (H1 j ltac:(lia) eq_refl) | exact (H2 (j - 12) ltac:(lia) eq_refl) | exact (H3 (j - 8) ltac:(lia) eq_refl)
            |exact (H4 (j - 9) ltac:(lia) eq_refl) | exact (H5 (j - 14) ltac:(lia) eq_refl) | exact (H6 (j - 17) ltac:(lia) eq_refl)] end.
  - intros Hf. rewrite <- (Z.shiftr_0_r f) at 1.
    repeat split; (apply flag_field; [done|lia|lia|done|]); vm_compute;
      repeat (apply Forall_cons; [intros Hx; first [discriminate Hx|by split]|]); apply Forall_nil.
Qed.

Lemma if_false_iff (a b : bool) : (if a then false else b) = true <-> a = false /\ b = true.
Proof. destruct a; naive_solver. Qed.

(** Registers a user program may run with. *)
Definition user_level (u : ureg_t) : Prop :=
  (u_ds u = 43 /\ u_es u = 43 /\ u_fs u = 43 /\ u_gs u = 43 /\ u_ss u = 43 /\ u_cs u = 35) /\
  (16777216 <= u_ebp u /\ 16777216 <= u_esp u /\ 16777216 <= u_eip u) /\ flags_safe (u_eflags u).

(** [is_newureg_valid] accepts exactly the register sets with the user segments,
    an instruction, frame and stack pointer in user memory, and every privileged
    flag at its safe value: interrupts enabled, I/O privilege level 0, no trap,
    no nested task, no virtual-8086 bits, and the reserved bits as the processor
    wants them. *)
Theorem is_newureg_valid_exact u : is_newureg_valid u = true <-> user_level u.
Proof.
  unfold user_level. rewrite <- flags_exact. unfold is_newureg_valid, SEGSEL_USER_DS, SEGSEL_USER_CS, USER_MEM_START.
  rewrite !if_false_iff, !orb_false_iff, !negb_false_iff, !Z.eqb_eq, !Z.ltb_ge. tauto.
Qed.

(** ** The system calls *)
Section handlers.
Context (clone_pd : Z -> M kernel Z) (free_entire_space : Z -> bool -> M kernel unit) `{UserMem}.

(** [context_switch(op, arg)] of the thread [this] up to the stack switch: the
    thread that runs then. *)
Definition switch (cpu : Z) (op : op_t) (arg this : Z) : M kernel Z :=
  r ← ContextSwitch.asm_context_switch clone_pd free_entire_space cpu op arg this;
  match r with inl n => mret n | inr (_, n) => mret n end.

(** *** sleep, and the timer interrupt *)

Definition sleep_syscall_handler (cpu this ticks : Z) : M kernel (Z + Z) :=
  if ticks <? 0 then mret (inl EINVAL)
  else if ticks =? 0 then mret (inl 0)
  else
    sleep_enqueue cpu this ticks;;
    n ← switch cpu OP_BLOCK 0 this;
    mret (if n =? this then inl 0 else inr n).

(** [esp] is the stack pointer of the interrupted thread. *)
Definition apic_timer_interrupt_handler (cpu this esp : Z) : M kernel Z :=
  next_thr ← timer_tick cpu;
  if negb (ControlBlock.tcb_is_stack_overflow esp =? 0) then panic
  else if next_thr =? 0 then switch cpu OP_CONTEXT_SWITCH (w32 (-1)) this
  else switch cpu OP_RESUME next_thr this.

(** ** deschedule and make_runnable *)

Definition syscall_deschedule_init (cpu : Z) : M kernel Z :=
  p ← malloc;
  if p =? 0 then mret (-1) else
  l ← malloc;
  if l =? 0 then mret (-1) else
  modify (fun k => with_deschedule_queues (<[cpu := []]> (deschedule_queues k)) k);;
  modify (fun k => with_deschedule_mutexs (<[cpu := snd Mutex.mutex_init]> (deschedule_mutexs k)) k);;
  mret 0.

(** [mutex_lock] of core [cpu]'s mutex: a contended mutex suspends the caller. *)
Definition lock_mutex (cpu this : Z) : M kernel unit := fun k =>
  match deschedule_mutexs k !! cpu with
  | Some m => match Mutex.lock_section this m with
              | Ok (true, m') => Ok (tt, with_deschedule_mutexs (<[cpu := m']> (deschedule_mutexs k)) k)
              | Ok (false, _) => Blocks
              | Panic => Panic | Fault => Fault | Blocks => Blocks | NoFuel => NoFuel
              end
  | None => Fault
  end.
Definition unlock_mutex (cpu this : Z) : M kernel unit :=
  ContextSwitch.unlock deschedule_mutexs with_deschedule_mutexs cpu this.

Definition deschedule_syscall_handler (cpu this reject : Z) : M kernel (Z + Z) :=
  rv ← check_mem_validness reject 4 false true;
  if rv <? 0 then mret (inl EFAULT) else
  lock_mutex cpu this;;
  r ← load_int reject;
  if negb (r =? 0) then unlock_mutex cpu this;; mret (inl 0)
  else
    k ← get;
    q ← deref (deschedule_queues k !! cpu);
    modify (fun k => with_deschedule_queues (<[cpu := QSpec.enqueue q this]> (deschedule_queues k)) k);;
    unlock_mutex cpu this;;
    n ← switch cpu OP_BLOCK 0 this;
    mret (if n =? this then inl 0 else inr n).

(** Building the request; the saved [pcb] is the result. *)
Definition make_runnable_start (cpu this tid : Z) : M kernel Z :=
  t ← rd_tcb this;
  upd_msg (my_msg t) (set_req this cpu);;
  upd_msg (my_msg t) (set_type MAKE_RUNNABLE);;
  upd_msg (my_msg t) (set_w0 tid);;
  upd_msg (my_msg t) (set_w2 (-1));;
  upd_msg (my_msg t) (set_w1 cpu);;
  mret (pcb t).

(** One turn of the loop, on the core the thread is visiting. *)
Definition make_runnable_visit (cpu this tid : Z) : M kernel Z :=
  lock_mutex cpu this;;
  k ← get;
  q ← deref (deschedule_queues k !! cpu);
  node ← (match QSpec.remove_tid (tid_at k) tid q with
          | Some (p, q') => modify (fun k => with_deschedule_queues (<[cpu := q']> (deschedule_queues k)) k);; mret p
          | None => mret 0
          end);
  unlock_mutex cpu this;;
  (if negb (node =? 0) then
     switch cpu OP_MAKE_RUNNABLE node this;;
     t ← rd_tcb this;
     upd_msg (my_msg t) (set_w2 0)
   else mret tt);;
  switch cpu OP_SEND_MSG 0 this.

(** The condition of the loop, when the thread runs again, on core [cpu]. *)
Definition visit_again (cpu this : Z) : M kernel bool :=
  t ← rd_tcb this; m ← rd_msg (my_msg t); mret ((Data.mr_result m <? 0) && negb (cpu =? req_cpu m)).

(** After the loop. *)
Definition visit_finish (cpu this pcb : Z) : M kernel Z :=
  upd_tcb this (set_pcb pcb);;
  c ← rd_pcb pcb;
  ContextSwitch.set_cr3 cpu (page_table_base c);;
  t ← rd_tcb this;
  m ← rd_msg (my_msg t);
  mret (if Data.mr_result m <? 0 then ETHREAD else 0).

(** [make_runnable_syscall_handler] up to the first suspension: the saved pcb
    and the thread that runs. *)
Definition make_runnable_syscall_handler (cpu this tid : Z) : M kernel (Z * Z) :=
  pcb ← make_runnable_start cpu this tid;
  n ← make_runnable_visit cpu this tid;
  mret (pcb, n).

(** ** yield *)

Definition yield_start (cpu this tid : Z) : M kernel Z :=
  t ← rd_tcb this;
  upd_msg (my_msg t) (set_req this cpu);;
  upd_msg (my_msg t) (set_type YIELD);;
  upd_msg (my_msg t) (set_w0 tid);;
  upd_msg (my_msg t) (set_w2 (-1));;
  upd_msg (my_msg t) (set_w1 cpu);;
  mret (pcb t).

Definition yield_visit (cpu this : Z) : M kernel Z :=
  t ← rd_tcb this;
  m ← rd_msg (my_msg t);
  rv ← scheduler_is_exist_or_running cpu (Data.mr_tid m);
  (if negb (rv =? 0) then upd_msg (my_msg t) (set_w2 0) else mret tt);;
  switch cpu OP_SEND_MSG 0 this.

(** The first attempt, on the thread's own core: [inr n] when another thread
    runs, [inl (inl r)] when the call returns, and [inl (inr (pcb, n))] when the
    thread goes on to visit the other cores. *)
Definition yield_syscall_handler (cpu this tid : Z) : M kernel ((Z + Z * Z) + Z) :=
  n ← switch cpu OP_YIELD (w32 tid) this;
  if negb (n =? this) then mret (inr n) else
  t ← rd_tcb this;
  if result t <? 0 then
    pcb ← yield_start cpu this tid;
    n ← yield_visit cpu this;
    mret (inl (inr (pcb, n)))
  else mret (inl (inl 0)).

(** ** deschedule and make_runnable *)

Lemma switch_ok cpu op arg this k n k' : ContextSwitch.asm_context_switch clone_pd free_entire_space cpu op arg this k = Ok (inl n, k') ->
  switch cpu op arg this k = Ok (n, k').
Proof. intros R. unfold switch. by rewrite (bind_ok _ _ _ _ _ R). Qed.

Definition free_mutex : Mutex.mutex_t := Mutex.mk_mutex (-1) [].

Lemma lock_mutex_run k cpu this : deschedule_mutexs k !! cpu = Some free_mutex ->
  lock_mutex cpu this k = Ok (tt, with_deschedule_mutexs (<[cpu := Mutex.mk_mutex this []]> (deschedule_mutexs k)) k).
Proof. intros E. unfold lock_mutex. by rewrite E. Qed.

Lemma unlock_mutex_run k cpu this : 0 <= this -> deschedule_mutexs k !! cpu = Some (Mutex.mk_mutex this []) ->
  unlock_mutex cpu this k = Ok (tt, with_deschedule_mutexs (<[cpu := free_mutex]> (deschedule_mutexs k)) k).
Proof. intros H0 E. unfold unlock_mutex. by rewrite (ContextSwitch.unlock_run _ _ _ _ _ H0 E). Qed.

(** [deschedule] of a thread with no wake-up pending: a bad pointer is refused;
    when the word at [reject] is not zero the call returns at once; else the
    thread is blocked and recorded in the core's deschedule queue, behind those
    already there, and the core runs its next thread.  The queue's mutex is free
    again. *)
Theorem deschedule_correct k cpu this q t dq reject v r :
  ContextSwitch.core_ok k cpu this q -> 0 <= this -> tcbs (mem k) !! this = Some t -> state t = NORMAL -> this <> idle_thr k cpu ->
  deschedule_queues k !! cpu = Some dq -> deschedule_mutexs k !! cpu = Some free_mutex ->
  check_mem_validness reject 4 false true k = Ok (v, k) ->
  (forall k', load_int reject k' = Ok (r, k')) ->
  exists k', 
    if v <? 0 then deschedule_syscall_handler cpu this reject k = Ok (inl EFAULT, k') /\ k' = k
    else if negb (r =? 0) then
      deschedule_syscall_handler cpu this reject k = Ok (inl 0, k') /\ ContextSwitch.core_ok k' cpu this q /\
      deschedule_queues k' !! cpu = Some dq /\ deschedule_mutexs k' !! cpu = Some free_mutex
    else exists n q', deschedule_syscall_handler cpu this reject k = Ok (inr n, k') /\ ContextSwitch.core_ok k' cpu n q' /\
      n :: q' = (match q with [] => [idle_thr k cpu] | _ => q end) /\
      tcbs (mem k') = <[this := set_state BLOCKED t]> (tcbs (mem k)) /\
      deschedule_queues k' !! cpu = Some (dq ++ [this]) /\ deschedule_mutexs k' !! cpu = Some free_mutex.
Proof.
  intros Hok H0 Ht Hs Hi Hdq Hdm Hv Hr. unfold deschedule_syscall_handler. rewrite (bind_ok _ _ _ _ _ Hv).
  destruct (v <? 0); [by exists k|]. rewrite (bind_ok _ _ _ _ _ (lock_mutex_run k cpu this Hdm)), (bind_ok _ _ _ _ _ (Hr _)).
  set (k1 := with_deschedule_mutexs _ k). destruct (Z.eqb_spec r 0) as [E|E]; cbn [negb].
  - rewrite (bind_ok get _ k1 k1 k1 eq_refl). change (deschedule_queues k1) with (deschedule_queues k). rewrite Hdq.
    erewrite (bind_ok (deref _)) by reflexivity. erewrite bind_ok by reflexivity. set (k2 := with_deschedule_queues _ k1).
    assert (Hm2 : deschedule_mutexs k2 !! cpu = Some (Mutex.mk_mutex this [])) by (simpl; apply lookup_insert_eq).
    rewrite (bind_ok _ _ _ _ _ (unlock_mutex_run k2 cpu this H0 Hm2)). set (k3 := with_deschedule_mutexs _ k2).
    assert (Hok3 : ContextSwitch.core_ok k3 cpu this q) by (destruct Hok; by split).
    pose proof (ContextSwitch.block_run clone_pd free_entire_space k3 cpu this q t Hok3 Ht Hs (fun _ => Hi) Hi) as Hb.
    assert (Hfin : forall n q', (exists k', ContextSwitch.asm_context_switch clone_pd free_entire_space cpu OP_BLOCK 0 this k3 = Ok (inl n, k') /\
        ContextSwitch.core_ok k' cpu n q' /\ tcbs (mem k') = <[this := set_state BLOCKED t]> (tcbs (mem k3)) /\ ContextSwitch.same_sys k3 k') ->
      n <> this -> n :: q' = (match q with [] => [idle_thr k cpu] | _ => q end) ->
      exists k' n q', (n ← switch cpu OP_BLOCK 0 this; mret (if n =? this then inl 0 else inr n : Z + Z)) k3 = Ok (inr n, k') /\
        ContextSwitch.core_ok k' cpu n q' /\ n :: q' = (match q with [] => [idle_thr k cpu] | _ => q end) /\
        tcbs (mem k') = <[this := set_state BLOCKED t]> (tcbs (mem k)) /\
        deschedule_queues k' !! cpu = Some (dq ++ [this]) /\ deschedule_mutexs k' !! cpu = Some free_mutex).
    { intros n q' (k' & R & Hok' & Htc & Hss) Hne Hnq. exists k', n, q'. rewrite (bind_ok _ _ _ _ _ (switch_ok _ _ _ _ _ _ _ R)).
      rewrite (proj2 (Z.eqb_neq n this)) by done. split; [done|]. split; [done|]. split; [done|]. split; [done|].
      destruct (ContextSwitch.ss_deschedule _ _ Hss) as [-> ->]. simpl. by rewrite !lookup_insert_eq. }
    destruct q as [|p q]; eapply Hfin; [exact Hb|done|done|exact Hb| |done].
    pose proof (ContextSwitch.co_nodup _ _ _ _ Hok) as Hnd. apply list.NoDup_cons in Hnd as [Hnd _]. set_solver.
  - assert (Hm1 : deschedule_mutexs k1 !! cpu = Some (Mutex.mk_mutex this [])) by (simpl; apply lookup_insert_eq).
    rewrite (bind_ok _ _ _ _ _ (unlock_mutex_run k1 cpu this H0 Hm1)). eexists. split; [reflexivity|].
    split; [destruct Hok; by split|]. split; [done|]. simpl. by rewrite lookup_insert_eq.
Qed.
(** Sending a message to the manager: the thread leaves the core. *)
Lemma send_run_full k cpu cur q t c : ContextSwitch.core_ok k cpu cur q -> tcbs (mem k) !! cur = Some t -> cur <> idle_thr k cpu ->
  Message.net_rep (net (mem k)) c -> Message.msg_ok (net (mem k)) (my_msg t) -> 1 <= cpu <= Message.num_worker_cores (net (mem k)) ->
  exists n q' k', switch cpu OP_SEND_MSG 0 cur k = Ok (n, k') /\ ContextSwitch.core_ok k' cpu n q' /\
    n :: q' = (match q with [] => [idle_thr k cpu] | _ => q end) /\ tcbs (mem k') = tcbs (mem k) /\
    Message.net_rep (net (mem k')) (ChanSpec.send_manager c cpu (my_msg t)) /\ Message.msgs (net (mem k')) = Message.msgs (net (mem k)) /\
    deschedule_queues k' = deschedule_queues k /\ deschedule_mutexs k' = deschedule_mutexs k /\
    pcbs (mem k') = pcbs (mem k) /\ swexns (mem k') = swexns (mem k) /\ cr3 k' = cr3 k /\ zombie_lists k' = zombie_lists k /\ zombie_list_locks k' = zombie_list_locks k /\
    Message.num_worker_cores (net (mem k')) = Message.num_worker_cores (net (mem k)).
Proof.
  intros [Q C N R I S] Ht Hci Hr Hm Hc. apply list.NoDup_cons in N as [Nc N]. set (k1 := with_spin (fupd (spin k) cpu true) k).
  destruct (Message.worker_send_ok (net (mem k1)) c (my_msg t) cpu Hr Hm Hc) as (p & R1 & Hr1).
  set (n1 := Message.with_qs _ (net (mem k1))) in *. set (k2 := with_mem (with_net n1 (mem k1)) k1).
  assert (Hpre : forall n k', ContextSwitch.run_next cpu cur k2 = Ok (n, k') ->
    switch cpu OP_SEND_MSG 0 cur k = Ok (n, with_spin (fupd (spin k') cpu false) k')).
  { intros n k' Hn. apply switch_ok, ContextSwitch.switch_run, ContextSwitch.lift_run. unfold ContextSwitch.op_send_msg.
    rewrite (bind_ok _ _ _ _ _ (ContextSwitch.lock_run _ _ S)). fold k1. rewrite (bind_ok _ _ _ _ _ (ContextSwitch.rd_tcb_run k1 cur t Ht)).
    erewrite bind_ok; [exact Hn|]. unfold on_mem, ControlBlock.on_net. erewrite zoom_ok; [|apply zoom_ok, R1]. done. }
  pose proof (ContextSwitch.dequeue_run k2 cpu q Q) as Hd. assert (Hi : ContextSwitch.ready k2 (idle_thr k cpu)) by exact I.
  destruct q as [|x q]; eexists _, _, _; (split; [apply Hpre; unfold ContextSwitch.run_next, scheduler_block; rewrite (bind_ok _ _ _ _ _ Hd)|split]).
  - cbn [Z.eqb]. rewrite (bind_ok (ContextSwitch.idle_of cpu) _ k2 (idle_thr k cpu) k2 eq_refl).
    rewrite (proj2 (Z.eqb_neq cur (idle_thr k cpu)) Hci), (proj2 (Z.eqb_neq _ 0) (proj1 I)). reflexivity.
  - apply ContextSwitch.core_unlocked; simpl; [exact Q|apply fupd_eq|apply NoDup_singleton| |exact Hi].
    intros y ->%list_elem_of_singleton. exact Hi.
  - done.
  - destruct (R x ltac:(set_solver)) as [Hp0 _]. rewrite (proj2 (Z.eqb_neq x 0) Hp0). reflexivity.
  - apply ContextSwitch.core_unlocked; simpl; [apply lookup_insert_eq|apply fupd_eq|exact N| |exact Hi].
    intros y Hy. apply (R y). set_solver.
  - done.
Qed.

Lemma visit_send_run k cpu cur q t c : ContextSwitch.core_ok k cpu cur q -> tcbs (mem k) !! cur = Some t -> cur <> idle_thr k cpu ->
  Message.net_rep (net (mem k)) c -> Message.msg_ok (net (mem k)) (my_msg t) -> 1 <= cpu <= Message.num_worker_cores (net (mem k)) ->
  exists n q' k', switch cpu OP_SEND_MSG 0 cur k = Ok (n, k') /\ ContextSwitch.core_ok k' cpu n q' /\
    n :: q' = (match q with [] => [idle_thr k cpu] | _ => q end) /\ tcbs (mem k') = tcbs (mem k) /\
    Message.net_rep (net (mem k')) (ChanSpec.send_manager c cpu (my_msg t)) /\ Message.msgs (net (mem k')) = Message.msgs (net (mem k)) /\
    deschedule_queues k' = deschedule_queues k /\ deschedule_mutexs k' = deschedule_mutexs k.
Proof.
  intros A1 A2 A3 A4 A5 A6. destruct (send_run_full k cpu cur q t c A1 A2 A3 A4 A5 A6) as (n & q' & k' & R & B1 & B2 & B3 & B4 & B5 & B6 & B7 & _). by exists n, q', k'.
Qed.

Lemma thr_upd_msg k m mm f : Message.msgs (net (mem k)) !! m = Some mm ->
  upd_msg m f k = Ok (tt, with_mem (with_net (Message.with_msgs (<[m := f mm]> (Message.msgs (net (mem k)))) (net (mem k))) (mem k)) k).
Proof.
  intros E. unfold upd_msg, on_mem, ControlBlock.upd_msg, ControlBlock.on_net.
  rewrite (zoom_ok mem with_mem _ _ _ _ (zoom_ok net with_net _ _ _ _ (Message.upd_ok _ _ _ f E))). done.
Qed.

(** A removed thread [p] is made runnable, the message marked and sent on. *)
Lemma visit_found k cpu this q t p u c mm : let m := my_msg t in
  ContextSwitch.core_ok k cpu this q -> tcbs (mem k) !! this = Some t -> this <> idle_thr k cpu ->
  p <> 0 -> tcbs (mem k) !! p = Some u -> state u = BLOCKED ->
  Message.net_rep (net (mem k)) c -> m <> 0 -> Message.msgs (net (mem k)) !! m = Some mm -> node_thr mm = m ->
  1 <= cpu <= Message.num_worker_cores (net (mem k)) ->
  exists n q' k', ((switch cpu OP_MAKE_RUNNABLE p this;; t ← rd_tcb this; upd_msg (my_msg t) (set_w2 0));; switch cpu OP_SEND_MSG 0 this) k = Ok (n, k') /\
    ContextSwitch.core_ok k' cpu n q' /\ deschedule_mutexs k' = deschedule_mutexs k /\ deschedule_queues k' = deschedule_queues k /\
    Message.net_rep (net (mem k')) (ChanSpec.send_manager c cpu m) /\ n :: q' = q ++ [p] /\
    tcbs (mem k') = <[p := set_state NORMAL u]> (tcbs (mem k)) /\ Message.msgs (net (mem k')) !! m = Some (set_w2 0 mm).
Proof.
  intros m Hok Ht Hi Hp0 Hu Hub Hr Hm0 Hm Hmt Hc.
  destruct (ContextSwitch.make_runnable_blocked clone_pd free_entire_space k cpu this q p u Hok Hu Hp0 Hub) as (k4 & R4 & Hok4 & Htc4 & [S1 S2 S3 S4 [S5 S5'] S6]).
  assert (Hpt : p <> this).
  { intros ->. destruct (ContextSwitch.co_ready _ _ _ _ Hok this ltac:(set_solver)) as (_ & u' & Hu' & Hnb). congruence. }
  assert (Ht4 : tcbs (mem k4) !! this = Some t) by (by rewrite Htc4, lookup_insert_ne).
  assert (Hm4 : Message.msgs (net (mem k4)) !! m = Some mm) by (by rewrite S1).
  set (k5 := with_mem (with_net (Message.with_msgs (<[m := set_w2 0 mm]> (Message.msgs (net (mem k4)))) (net (mem k4))) (mem k4)) k4).
  erewrite (bind_ok (_ ≫= _)); cycle 1.
  { rewrite (bind_ok _ _ _ _ _ (switch_ok _ _ _ _ _ _ _ R4)), (bind_ok _ _ _ _ _ (ContextSwitch.rd_tcb_run k4 this t Ht4)).
    apply (thr_upd_msg k4 m mm _ Hm4). }
  fold k5. assert (Hr5 : Message.net_rep (net (mem k5)) c).
  { simpl. apply Message.net_rep_msgs; [by rewrite S1|]. intros m0 mm0 E0. destruct (decide (m0 = m)) as [->|].
    - eexists. rewrite lookup_insert_eq. split; [done|]. simpl. congruence.
    - exists mm0. by rewrite lookup_insert_ne. }
  assert (Hok5 : ContextSwitch.core_ok k5 cpu this (q ++ [p])) by (destruct Hok4; by split).
  destruct (visit_send_run k5 cpu this (q ++ [p]) t c Hok5 Ht4 ltac:(simpl; rewrite S3; done) Hr5) as (n & q' & k6 & R6 & Hok6 & Hnq & Htc6 & Hr6 & Hm6 & Hd6 & Hd6').
  - split; [done|]. exists (set_w2 0 mm). split; [apply lookup_insert_eq|done].
  - simpl. by rewrite S1.
  - exists n, q', k6. split; [done|]. split; [done|]. split; [by rewrite Hd6'|]. split; [by rewrite Hd6|]. split; [done|].
    split; [by destruct q|]. split; [by rewrite Htc6|]. rewrite Hm6. apply lookup_insert_eq.
Qed.

(** One visit of a make_runnable request to core [cpu].  The first thread of the
    core's deschedule queue with the wanted id is taken out of it and put at the
    end of the ready queue; the message then says that it was found.  If there
    is none, nothing changes.  Then the request goes to the manager and the core
    runs its next thread. *)
Theorem make_runnable_visit_correct k cpu this q t dq tid c mm :
  let m := my_msg t in
  ContextSwitch.core_ok k cpu this q -> 0 <= this -> tcbs (mem k) !! this = Some t -> this <> idle_thr k cpu ->
  deschedule_queues k !! cpu = Some dq -> deschedule_mutexs k !! cpu = Some free_mutex ->
  (forall p, p ∈ dq -> p <> 0 /\ exists u, tcbs (mem k) !! p = Some u /\ state u = BLOCKED) ->
  Message.net_rep (net (mem k)) c -> m <> 0 -> Message.msgs (net (mem k)) !! m = Some mm -> node_thr mm = m ->
  1 <= cpu <= Message.num_worker_cores (net (mem k)) ->
  exists n q' k', make_runnable_visit cpu this tid k = Ok (n, k') /\ ContextSwitch.core_ok k' cpu n q' /\
    deschedule_mutexs k' !! cpu = Some free_mutex /\ Message.net_rep (net (mem k')) (ChanSpec.send_manager c cpu m) /\
    match QSpec.remove_tid (tid_at k) tid dq with
    | Some (p, dq') => exists u, tcbs (mem k) !! p = Some u /\ n :: q' = q ++ [p] /\ deschedule_queues k' !! cpu = Some dq' /\
        tcbs (mem k') = <[p := set_state NORMAL u]> (tcbs (mem k)) /\ Message.msgs (net (mem k')) !! m = Some (set_w2 0 mm)
    | None => n :: q' = (match q with [] => [idle_thr k cpu] | _ => q end) /\ deschedule_queues k' !! cpu = Some dq /\
        tcbs (mem k') = tcbs (mem k) /\ Message.msgs (net (mem k')) !! m = Some mm
    end.
Proof.
  intros m Hok H0 Ht Hi Hdq Hdm Hbl Hr Hm0 Hm Hmt Hc. unfold make_runnable_visit.
  rewrite (bind_ok _ _ _ _ _ (lock_mutex_run k cpu this Hdm)). set (k1 := with_deschedule_mutexs _ k).
  rewrite (bind_ok get _ k1 k1 k1 eq_refl). change (deschedule_queues k1) with (deschedule_queues k). rewrite Hdq.
  erewrite (bind_ok (deref _)) by reflexivity. change (tid_at k1) with (tid_at k).
  assert (Hm1 : forall dqs, deschedule_mutexs (with_deschedule_queues dqs k1) !! cpu = Some (Mutex.mk_mutex this [])) by (intros; simpl; apply lookup_insert_eq).
  destruct (QSpec.remove_tid (tid_at k) tid dq) as [[p dq']|] eqn:Erm.
  - erewrite (bind_ok (_ ;; mret p)) by reflexivity. set (k2 := with_deschedule_queues _ k1).
    rewrite (bind_ok _ _ _ _ _ (unlock_mutex_run k2 cpu this H0 (Hm1 _))). set (k3 := with_deschedule_mutexs _ k2).
    apply QSpec.remove_tid_split in Erm as (d1 & d2 & Ed & _ & _ & _). destruct (Hbl p ltac:(rewrite Ed; set_solver)) as (Hp0 & u & Hu & Hub).
    rewrite (proj2 (Z.eqb_neq p 0)) by done. cbn [negb].
    assert (Hok3 : ContextSwitch.core_ok k3 cpu this q) by (destruct Hok; by split).
    destruct (visit_found k3 cpu this q t p u c mm Hok3 Ht Hi Hp0 Hu Hub Hr Hm0 Hm Hmt Hc) as (n & q' & k6 & R6 & Hok6 & Hd' & Hd & Hr6 & Hnq & Htc & Hm6).
    exists n, q', k6. split; [exact R6|]. split; [done|]. split; [rewrite Hd'; apply lookup_insert_eq|]. split; [done|].
    exists u. split; [done|]. split; [done|]. split; [rewrite Hd; apply lookup_insert_eq|]. done.
  - rewrite (bind_ok (mret 0) _ k1 0 k1 eq_refl).
    assert (Hm1' : deschedule_mutexs k1 !! cpu = Some (Mutex.mk_mutex this [])) by (simpl; apply lookup_insert_eq).
    rewrite (bind_ok _ _ _ _ _ (unlock_mutex_run k1 cpu this H0 Hm1')). set (k3 := with_deschedule_mutexs _ k1). cbn [Z.eqb negb].
    rewrite (bind_ok (mret tt) _ k3 tt k3 eq_refl). assert (Hok3 : ContextSwitch.core_ok k3 cpu this q) by (destruct Hok; by split).
    destruct (visit_send_run k3 cpu this q t c Hok3 Ht Hi Hr) as (n & q' & k6 & R6 & Hok6 & Hnq & Htc6 & Hr6 & Hm6 & Hd6 & Hd6').
    + split; [done|]. by exists mm.
    + done.
    + exists n, q', k6. split; [done|]. split; [done|]. split; [rewrite Hd6'; simpl; apply lookup_insert_eq|]. split; [done|].
      split; [done|]. split; [by rewrite Hd6|]. split; [done|]. by rewrite Hm6.
Qed.
(** ** yield to a thread of the same core *)

(** yield to a thread that is ready on the caller's core runs that thread at
    once: it leaves its place in the ready queue, and the caller becomes the last
    of it and gets the result 0.  (The idle thread is not queued.) *)
Theorem yield_to_correct k cpu this q1 p q2 t u :
  ContextSwitch.core_ok k cpu this (q1 ++ p :: q2) -> tcbs (mem k) !! this = Some t -> tcbs (mem k) !! p = Some u ->
  this <> idle_thr k cpu -> 0 <= tid u < 2 ^ 31 -> Forall (fun x => tid_at k x <> tid u) q1 ->
  exists k', yield_syscall_handler cpu this (tid u) k = Ok (inr p, k') /\ ContextSwitch.core_ok k' cpu p (q1 ++ q2 ++ [this]) /\
    tcbs (mem k') = <[this := set_result 0 t]> (tcbs (mem k)).
Proof.
  intros Hok Ht Hu Hi Htid Hf. pose proof Hok as [Q C N R I S].
  set (k1 := with_spin (fupd (spin k) cpu true) k).
  assert (Hrm : QSpec.remove_tid (tid_at k1) (tid u) (q1 ++ p :: q2) = Some (p, q1 ++ q2)).
  { clear -Hf Hu. change (tid_at k1) with (tid_at k). induction q1 as [|x q1 IH]; simpl.
    - unfold tid_at. rewrite Hu. by rewrite Z.eqb_refl.
    - apply Forall_cons_iff in Hf as [Hx Hf]. rewrite (proj2 (Z.eqb_neq _ _) Hx). by rewrite IH. }
  set (k2 := with_queues (<[cpu := q1 ++ q2]> (queues k1)) k1).
  assert (Hg : scheduler_get_next cpu (tid u) k1 = Ok (p, k2)).
  { unfold scheduler_get_next. rewrite (proj2 (Z.eqb_neq _ _)) by lia. unfold remove_tid. rewrite (bind_ok get _ k1 k1 k1 eq_refl).
    rewrite (bind_ok _ _ _ _ _ (ContextSwitch.queue_run k1 cpu _ Q)). by rewrite Hrm. }
  set (k3 := with_spin (fupd (spin k2) cpu false) k2).
  set (k4 := with_mem (with_tcbs (<[this := set_result 0 t]> (tcbs (mem k3))) (mem k3)) k3).
  set (k5 := with_spin (fupd (spin k4) cpu true) k4).
  set (k6 := with_queues (<[cpu := (q1 ++ q2) ++ [this]]> (queues k5)) k5).
  set (k7 := with_cur_running_thr (fupd (cur_running_thr k6) cpu p) k6).
  assert (Hs32 : s32 (w32 (tid u)) = tid u) by (rewrite w32_small by lia; apply s32_small; lia).
  assert (Hp0 : p <> 0) by (destruct (R p ltac:(set_solver)); done).
  assert (Hpt : p <> this). { apply list.NoDup_cons in N as [N _]. set_solver. }
  assert (Hop : ContextSwitch.op_switch cpu true (w32 (tid u)) this k = Ok (p, k7)).
  { unfold ContextSwitch.op_switch. rewrite Hs32, (bind_ok _ _ _ _ _ (ContextSwitch.lock_run _ _ S)). fold k1.
    rewrite (bind_ok _ _ _ _ _ Hg). rewrite (bind_ok (context_switch_unlock cpu) _ k2 tt k3 eq_refl), (proj2 (Z.eqb_neq p 0)) by done.
    rewrite (bind_ok _ _ _ _ _ (ContextSwitch.upd_tcb_run k3 this t _ Ht)). fold k4.
    rewrite (bind_ok _ _ k4 tt k5) by (apply ContextSwitch.lock_run; simpl; apply fupd_eq).
    rewrite (bind_ok (ContextSwitch.idle_of cpu) _ k5 (idle_thr k cpu) k5 eq_refl), (proj2 (Z.eqb_neq this _)) by done. cbn [negb].
    rewrite (bind_ok _ _ k5 tt k6); [done|]. apply (ContextSwitch.ready_enqueue_run k5 cpu (q1 ++ q2) this (set_result 0 t)); simpl; apply lookup_insert_eq. }
  assert (Hready : forall x, ContextSwitch.ready k x -> ContextSwitch.ready k7 x).
  { intros x (Hx0 & tx & Htx & Hnb). split; [done|]. simpl. destruct (decide (x = this)) as [->|].
    - rewrite lookup_insert_eq. eexists. split; [done|]. simpl. congruence.
    - rewrite lookup_insert_ne by done. eauto. }
  exists (with_spin (fupd (spin k7) cpu false) k7). split; [|split; [|done]].
  - unfold yield_syscall_handler. erewrite bind_ok by (apply switch_ok, ContextSwitch.switch_run, ContextSwitch.lift_run, Hop).
    by rewrite (proj2 (Z.eqb_neq p this)).
  - apply ContextSwitch.core_unlocked; simpl.
    + rewrite lookup_insert_eq. by rewrite app_assoc.
    + apply fupd_eq.
    + eapply NoDup_Permutation_proper; [|exact N]. solve_Permutation.
    + intros x Hx. apply Hready, R. set_solver.
    + apply Hready, I.
Qed.

(** ** The timer interrupt *)

(** A timer interrupt with no thread due is a round-robin switch; when the first
    sleeper is due, and blocked, it runs at once and the interrupted thread
    becomes the last of the ready queue.  A kernel stack that is nearly full
    stops the kernel. *)
Theorem timer_interrupt_wakes k cpu this q esp w p sq u :
  ContextSwitch.core_ok k cpu this q -> 0 <= apic_num_ticks k cpu -> apic_num_ticks k cpu + 1 < 2 ^ 32 ->
  sleep_queue k !! cpu = Some ((w, p) :: sq) -> w <= apic_num_ticks k cpu + 1 -> p <> 0 ->
  tcbs (mem k) !! p = Some u -> state u = BLOCKED ->
  if ControlBlock.tcb_is_stack_overflow esp =? 0 then
    exists k', apic_timer_interrupt_handler cpu this esp k = Ok (p, k') /\ ContextSwitch.core_ok k' cpu p (q ++ [this]) /\
      sleep_queue k' !! cpu = Some sq /\ apic_num_ticks k' cpu = apic_num_ticks k cpu + 1 /\
      tcbs (mem k') = <[p := set_state NORMAL u]> (tcbs (mem k))
  else apic_timer_interrupt_handler cpu this esp k = Panic.
Proof.
  intros Hok H0 Hn Hsq Hw Hp0 Hu Hb.
  set (k1 := with_sleep_queue (<[cpu := sq]> (sleep_queue k)) (with_apic_num_ticks (fupd (apic_num_ticks k) cpu (apic_num_ticks k cpu + 1)) k)).
  assert (R1 : timer_tick cpu k = Ok (p, k1)).
  { unfold timer_tick. erewrite bind_ok by reflexivity. rewrite w32_small by lia. unfold timer_callback, timer_get_ticks.
    erewrite (bind_ok get) by reflexivity. simpl. rewrite Hsq. erewrite (bind_ok (deref _)) by reflexivity. erewrite bind_ok by reflexivity.
    simpl. rewrite fupd_eq, (proj2 (Z.leb_le _ _)) by lia. done. }
  unfold apic_timer_interrupt_handler. rewrite (bind_ok _ _ _ _ _ R1). destruct (ControlBlock.tcb_is_stack_overflow esp =? 0); [|done]. cbn [negb].
  rewrite (proj2 (Z.eqb_neq p 0)) by done. assert (Hok1 : ContextSwitch.core_ok k1 cpu this q) by (destruct Hok; by split).
  destruct (ContextSwitch.resume_run clone_pd free_entire_space k1 cpu this q p u Hok1 Hu Hp0 Hb) as (k' & R & Hok' & Htc & [S1 S2 S3 S4 S5 [S6 S6']]).
  exists k'. split; [by apply switch_ok|]. split; [done|]. rewrite S6, S6'. simpl. split; [apply lookup_insert_eq|]. split; [apply fupd_eq|done].
Qed.
End handlers.

(** ** Threads of core 1

    A task whose memory is all valid and zero; thread 2 (at 24544) runs, thread 3
    is ready, thread 4 (at 40928) is blocked. *)

#[local] Instance zero_mem : UserMem :=
  {| check_mem_validness := fun _ _ _ _ => mret 0; load_int := fun _ => mret 0|}.
#[local] Abbreviation kernel0 := ContextSwitch.demo_kernel.
#[local] Abbreviation no_clone := ContextSwitch.no_clone.
#[local] Abbreviation no_free := ContextSwitch.no_free.
#[local] Abbreviation tcb2 := (ContextSwitch.demo_tcb 16384 2 NORMAL).
#[local] Abbreviation tcb4 := (ContextSwitch.demo_tcb 32768 4 BLOCKED).

(** Two ticks of sleep, while another thread is due in one tick, and a third one goes
    to sleep for a tick after the first interrupt. *)
Lemma sleep_wakes_witness :
  let k := with_sleep_queue {[1 := [(1, 40928)]]} kernel0 in let evs := [Interrupt; GoSleep 32736 1; Interrupt; Interrupt; Interrupt] in
  exists woken k', (sleep_enqueue 1 24544 2;; sleep_run evs 1) k = Ok (woken, k') /\ Z.of_nat (length woken) = 4 /\ 24544 ∈ woken.
Proof.
  intros k evs. destruct (sleep_wakes_in_time k 1 24544 2 [(1, 40928)] evs) as (l & k' & R & Hl & _ & H).
  - done.
  - done.
  - apply (bool_decide_unpack _). vm_compute. exact I.
  - vm_compute. congruence.
  - lia.
  - done.
  - done.
  - repeat constructor; simpl; vm_compute; congruence.
  - exists l, k'. split; [exact R|]. split; [exact Hl|]. apply H. vm_compute. congruence.
Defined.

Lemma deschedule_witness :
  exists k' n q', deschedule_syscall_handler no_clone no_free 1 24544 20000000 kernel0 = Ok (inr n, k') /\ ContextSwitch.core_ok k' 1 n q' /\
    deschedule_queues k' !! 1 = Some [24544].
Proof.
  destruct (deschedule_correct no_clone no_free kernel0 1 24544 [32736] tcb2 [] 20000000 0 0) as (k' & n & q' & R & Hok & _ & _ & Hd & _).
  - exact ContextSwitch.demo_core.
  - lia.
  - vm_compute. reflexivity.
  - done.
  - done.
  - done.
  - done.
  - done.
  - done.
  - by exists k', n, q'.
Defined.

(** Thread 2 makes thread 4 runnable. *)
Lemma make_runnable_visit_witness :
  let k := with_deschedule_queues {[1 := [40928]]} kernel0 in
  exists n q' k', make_runnable_visit no_clone no_free 1 24544 4 k = Ok (n, k') /\ n :: q' = [32736; 40928] /\
    deschedule_queues k' !! 1 = Some [].
Proof.
  intros k. destruct (make_runnable_visit_correct no_clone no_free k 1 24544 [32736] tcb2 [40928] 4 ChanSpec.empty (mk_msg 100 7 1 WAIT 5 0 0 0))
    as (n & q' & k' & R & _ & _ & _ & u & _ & Hq & Hd & _).
  - destruct ContextSwitch.demo_core. by split.
  - lia.
  - vm_compute. reflexivity.
  - done.
  - done.
  - done.
  - intros p ->%list_elem_of_singleton. split; [done|]. exists tcb4. split; [vm_compute; reflexivity|done].
  - apply Message.net_rep_answers, Message.demo_boot_rep.
  - done.
  - vm_compute. reflexivity.
  - done.
  - split; vm_compute; congruence.
  - exists n, q', k'. split; [exact R|]. split; [exact Hq|exact Hd].
Defined.

Lemma yield_to_witness :
  exists k', yield_syscall_handler no_clone no_free 1 24544 3 kernel0 = Ok (inr 32736, k') /\ ContextSwitch.core_ok k' 1 32736 [24544].
Proof.
  destruct (yield_to_correct no_clone no_free kernel0 1 24544 [] 32736 [] tcb2 (ContextSwitch.demo_tcb 24576 3 NORMAL)) as (k' & R & Hok & _).
  - exact ContextSwitch.demo_core.
  - vm_compute. reflexivity.
  - vm_compute. reflexivity.
  - done.
  - simpl. lia.
  - constructor.
  - by exists k'.
Defined.

Lemma timer_interrupt_witness :
  let k := with_sleep_queue {[1 := [(1, 40928)]]} kernel0 in
  exists k', apic_timer_interrupt_handler no_clone no_free 1 24544 24000 k = Ok (40928, k') /\ ContextSwitch.core_ok k' 1 40928 [32736; 24544].
Proof.
  intros k. destruct (timer_interrupt_wakes no_clone no_free k 1 24544 [32736] 24000 1 40928 [] tcb4) as (k' & R & Hok & _).
  - destruct ContextSwitch.demo_core. by split.
  - vm_compute. congruence.
  - done.
  - done.
  - vm_compute. congruence.
  - done.
  - vm_compute. reflexivity.
  - done.
  - by exists k'.
Defined.

End ThrMgmt.
