(* ===== verification/AddrSpace.v ===== *)
(** * The memory a kernel routine reads and writes through virtual addresses

    The loader, the exception handler and the system calls that copy data reach
    memory through the page tables of the running task.  [AddrSpace] is what they
    use of virtual memory (vm.c): reading and writing a byte, and [new_region].
    A page is [backed] when it has a frame of its own, [lazy] when it is mapped
    to the shared zero frame and waits for its first write by the user.  [wf] is
    the invariant of the implementation; the laws say what a client may rely on.

    [put f a l] is the memory [f] with the bytes [l] at [a]. *)

From S2P Require Import Prelude.
From Stdlib Require Import ZArith Lia.
From stdpp Require Import base gmap list tactics numbers.

#[local] Open Scope Z_scope.

Class AddrSpace (S : Type) := {
  backed : S -> Z -> bool;
  lazy : S -> Z -> bool;
  byte_at : S -> Z -> Z;
  poke : Z -> Z -> M S unit;
  new_region : Z -> Z -> bool -> bool -> bool -> M S Z
}.

Definition PAGE_SIZE : Z := 4096.
Definition USER_MEM_START : Z := 16777216.
Definition mapped {S} `{AddrSpace S} (s : S) (x : Z) : bool := backed s x || lazy s x.
(** [x] is in a page of the region of [n] bytes at [va]. *)
Definition touches (va n x : Z) : Prop := exists y, va <= y < va + n /\ x / PAGE_SIZE = y / PAGE_SIZE.

Class AddrSpaceLaws (S : Type) `{AddrSpace S} := {
  wf : S -> Prop;
  byte_range s x : wf s -> 0 <= byte_at s x < 256;
  (** A backed byte can be written, and nothing else changes. *)
  poke_ok s a v : wf s -> backed s a = true -> 0 <= v < 256 ->
    exists s', poke a v s = Ok (tt, s') /\ wf s' /\ (forall x, backed s' x = backed s x) /\ (forall x, lazy s' x = lazy s x) /\
      forall x, byte_at s' x = if x =? a then v else byte_at s x;
  (** A region of user memory: the call always returns.  When it succeeds, every page
      the region touches is mapped, the new ones reading as zero, and nothing else
      of user memory has changed. *)
  new_region_ok s va n rw z : wf s -> USER_MEM_START <= va -> 0 < n -> va + n <= 2 ^ 32 ->
    exists r s', new_region va n rw false z s = Ok (r, s') /\ wf s' /\
      (0 <= r ->
        (forall x, USER_MEM_START <= x -> mapped s x = true -> byte_at s' x = byte_at s x) /\
        (forall x, mapped s' x = true -> mapped s x = true \/ touches va n x) /\
        (forall x, backed s x = true -> backed s' x = true) /\
        (forall x, lazy s' x = true -> lazy s x = true \/ (z = true /\ touches va n x)) /\
        (forall x, touches va n x ->
          mapped s' x = true /\ (z = false -> lazy s x = false -> backed s' x = true) /\ (mapped s x = false -> byte_at s' x = 0)))
}.

(** ** Sequences of bytes *)

Definition put (f : Z -> Z) (a : Z) (l : list Z) : Z -> Z :=
  fun x => if (a <=? x) && (x <? a + Z.of_nat (length l)) then nth (Z.to_nat (x - a)) l 0 else f x.

Lemma put_out f a l x : ~ (a <= x < a + Z.of_nat (length l)) -> put f a l x = f x.
Proof. intros Hx. unfold put. destruct (Z.leb_spec a x), (Z.ltb_spec x (a + Z.of_nat (length l))); simpl; try done. lia. Qed.

Lemma put_in f a l i b : l !! i = Some b -> put f a l (a + Z.of_nat i) = b.
Proof.
  intros Hi. pose proof (lookup_lt_Some _ _ _ Hi). unfold put. rewrite (proj2 (Z.leb_le _ _)), (proj2 (Z.ltb_lt _ _)) by lia. simpl.
  replace (Z.to_nat (a + Z.of_nat i - a)) with i by lia. by apply nth_lookup_Some.
Qed.

Lemma put_cons f a b l x : put (fun x => if x =? a then b else f x) (a + 1) l x = put f a (b :: l) x.
Proof.
  unfold put. cbn [length]. destruct (Z.eqb_spec x a) as [->|Hne].
  - rewrite (proj2 (Z.leb_gt (a + 1) a)) by lia. simpl. rewrite (proj2 (Z.leb_le a a)), (proj2 (Z.ltb_lt a _)) by lia. simpl. by rewrite Z.sub_diag.
  - destruct (Z.leb_spec (a + 1) x), (Z.leb_spec a x); simpl; try lia; try done.
    replace (a + 1 + Z.of_nat (length l)) with (a + Z.of_nat (S (length l))) by lia. destruct (x <? _); [|done].
    replace (Z.to_nat (x - a)) with (S (Z.to_nat (x - (a + 1)))) by lia. done.
Qed.

Definition is_byte (b : Z) : Prop := 0 <= b < 256.

(** The four bytes of a word. *)
Definition word_bytes (v : Z) : list Z := [v mod 256; v / 256 mod 256; v / 65536 mod 256; v / 16777216 mod 256].
Definition word_of (f : Z -> Z) (a : Z) : Z := f a + 256 * f (a + 1) + 65536 * f (a + 2) + 16777216 * f (a + 3).

Lemma word_bytes_ok v : Forall is_byte (word_bytes v).
Proof. repeat constructor; apply Z.mod_pos_bound; lia. Qed.

Lemma word_put f a v : 0 <= v < 2 ^ 32 -> word_of (put f a (word_bytes v)) a = v.
Proof.
  intros Hv. unfold word_of. rewrite <- (Z.add_0_r a) at 2.
  rewrite (put_in f a _ 0 (v mod 256)), (put_in f a _ 1 (v / 256 mod 256)), (put_in f a _ 2 (v / 65536 mod 256)), (put_in f a _ 3 (v / 16777216 mod 256)) by done.
  rewrite (Z.mod_small (v / 16777216)) by (split; [apply Z.div_pos|apply Z.div_lt_upper_bound]; lia).
  assert (E2 : v / 65536 = v / 256 / 256) by (rewrite Z.div_div by lia; done).
  assert (E3 : v / 16777216 = v / 256 / 256 / 256) by (rewrite !Z.div_div by lia; done). rewrite E2, E3.
  pose proof (Z.div_mod v 256). pose proof (Z.div_mod (v / 256) 256). pose proof (Z.div_mod (v / 256 / 256) 256). lia.
Qed.

Lemma word_put_out f a b l : a + 4 <= b \/ b + Z.of_nat (length l) <= a -> word_of (put f b l) a = word_of f a.
Proof. intros Hd. unfold word_of. rewrite !put_out by lia. done. Qed.

Lemma word_of_ext f g a : (forall x, a <= x < a + 4 -> f x = g x) -> word_of f a = word_of g a.
Proof. intros E. unfold word_of. rewrite !E by lia. done. Qed.

(** [memcpy] to memory, byte by byte. *)
Section write.
Context {S : Type} `{AddrSpace S}.

Fixpoint write_bytes (a : Z) (l : list Z) : M S unit :=
  match l with
  | [] => mret tt
  | b :: l => poke a b;; write_bytes (a + 1) l
  end.

Definition write_word (a v : Z) : M S unit := write_bytes a (word_bytes v).

Context `{!AddrSpaceLaws S}.

(** What a run of writes leaves as it was. *)
Record same_map (s s' : S) : Prop := {
  sm_wf : wf s';
  sm_backed : forall x, backed s' x = backed s x;
  sm_lazy : forall x, lazy s' x = lazy s x }.

Lemma same_map_trans s1 s2 s3 : same_map s1 s2 -> same_map s2 s3 -> same_map s1 s3.
Proof. intros [? B1 L1] [? B2 L2]. split; [done|..]; intros x; [rewrite B2|rewrite L2]; done. Qed.

Lemma write_bytes_ok l : forall s a, wf s -> Forall is_byte l -> (forall i, 0 <= i < Z.of_nat (length l) -> backed s (a + i) = true) ->
  exists s', write_bytes a l s = Ok (tt, s') /\ same_map s s' /\ forall x, byte_at s' x = put (byte_at s) a l x.
Proof.
  induction l as [|b l IH]; intros s a Hw Hb Hm.
  - exists s. split; [done|]. split; [by split|]. intros x. rewrite put_out; [done|simpl; lia].
  - apply Forall_cons_iff in Hb as [Hb Hl]. destruct (poke_ok s a b Hw) as (s1 & R1 & W1 & B1 & L1 & Y1); [|done|].
    { rewrite <- (Z.add_0_r a). apply Hm. simpl. lia. }
    destruct (IH s1 (a + 1) W1 Hl) as (s2 & R2 & [W2 B2 L2] & Y2).
    { intros i Hi. rewrite B1. replace (a + 1 + i) with (a + (i + 1)) by lia. apply Hm. simpl. lia. }
    exists s2. cbn [write_bytes]. rewrite (bind_ok _ _ _ _ _ R1). split; [done|]. split.
    { split; [done|..]; intros x; [by rewrite B2|by rewrite L2]. }
    intros x. rewrite Y2, <- put_cons. unfold put. destruct ((_ <=? _) && _); [done|apply Y1].
Qed.

Lemma write_word_ok s a v : wf s -> (forall i, 0 <= i < 4 -> backed s (a + i) = true) ->
  exists s', write_word a v s = Ok (tt, s') /\ same_map s s' /\ forall x, byte_at s' x = put (byte_at s) a (word_bytes v) x.
Proof. intros Hw Hb. apply write_bytes_ok; [done|apply word_bytes_ok|done]. Qed.
End write.

#[export] Hint Resolve word_bytes_ok : kernel.

(** ** A flat memory: the interface can be met

    Pages are mapped one by one; [room] is the number of pages that are left. *)
Record flat := mk_flat { f_backed : Z -> bool; f_lazy : Z -> bool; f_byte : Z -> Z; f_room : Z }.

(** Does page [p] (its number) meet the region? *)
Definition in_region (va n p : Z) : bool := (va / PAGE_SIZE <=? p) && (p <=? (va + n - 1) / PAGE_SIZE).

#[export] Instance flat_space : AddrSpace flat := {|
  backed s x := f_backed s (x / PAGE_SIZE);
  lazy s x := f_lazy s (x / PAGE_SIZE);
  byte_at := f_byte;
  poke a v := fun s => if f_backed s (a / PAGE_SIZE) then Ok (tt, mk_flat (f_backed s) (f_lazy s) (fupd (f_byte s) a v) (f_room s)) else Fault;
  new_region va n rw sc z := fun s =>
    let pages := (va + n - 1) / PAGE_SIZE - va / PAGE_SIZE + 1 in
    let fresh p := in_region va n p && negb (f_backed s p) && negb (f_lazy s p) in
    if f_room s <? pages then Ok (-3, s) else
    Ok (0, mk_flat (fun p => f_backed s p || (fresh p && negb z)) (fun p => f_lazy s p || (fresh p && z))
             (fun x => if fresh (x / PAGE_SIZE) then 0 else f_byte s x) (f_room s - pages)) |}.

Lemma in_region_touches va n x : 0 < n -> in_region va n (x / PAGE_SIZE) = true <-> touches va n x.
Proof.
  unfold in_region, touches, PAGE_SIZE. intros Hn. rewrite andb_true_iff, !Z.leb_le. split.
  - set (p := x / 4096). intros [H1 H2]. destruct (Z.le_gt_cases va (4096 * p)) as [H|H].
    + exists (4096 * p). assert (4096 * ((va + n - 1) / 4096) <= va + n - 1) by (apply Z.mul_div_le; lia).
      split; [lia|]. rewrite Z.mul_comm. symmetry. by apply Z.div_mul.
    + exists va. split; [lia|]. apply Z.le_antisymm; [|done]. apply Z.div_le_lower_bound; lia.
  - intros (y & Hy & ->). split; apply Z.div_le_mono; lia.
Qed.

#[export] Instance flat_laws : AddrSpaceLaws flat.
Proof.
  refine {| wf := fun s => forall x, 0 <= f_byte s x < 256 |}.
  - intros s x Hw. apply Hw.
  - intros s a v Hw Hb Hv. simpl in *. rewrite Hb. eexists. split; [done|]. repeat split; simpl; try done; unfold fupd; destruct (_ =? a); apply Hv || apply Hw.
  - intros s va n rw z Hw Hva Hn Hm. unfold mapped. simpl. destruct (f_room s <? _).
    { exists (-3), s. split; [done|]. split; [done|]. lia. }
    eexists 0, _. split; [reflexivity|]. split; [intros x; simpl; destruct (_ && _); [lia|apply Hw]|]. intros _. simpl. split; [|split; [|split; [by intros x ->|split]]].
    + intros x _. destruct (f_backed s _), (f_lazy s _); simpl; rewrite ?andb_false_r; done.
    + intros x. rewrite <- (in_region_touches va n x Hn). destruct (f_backed s _), (f_lazy s _), (in_region _ _ _); naive_solver.
    + intros x. rewrite <- (in_region_touches va n x Hn). destruct (f_backed s _), (f_lazy s _), (in_region _ _ _), z; naive_solver.
    + intros x. rewrite <- (in_region_touches va n x Hn). intros ->. destruct (f_backed s _), (f_lazy s _), z; naive_solver.
Defined.
