(* ===== verification/Lmm.v ===== *)
(** * The list memory manager (src/410kern/lmm)

    The allocator under the kernel's malloc.  An [lmm] is a list of regions of
    memory; the free blocks of a region form a linked list, sorted by address,
    whose nodes are in the free memory itself: the first word of a free block is
    the address of the next one, the second word its size.  Memory is bytes.

    A region is a record of the kernel's data; the list of regions, which is linked
    through static structures, is a Rocq list.  A pointer to a pointer ([nodep] in
    the code) is [None] for the field [nodes] of the region and [Some p] for the
    field [next] of the node at [p].  An [assert] that fails is a panic.

    [free_mem] is what an lmm stands for: the set of bytes that are free. *)

From Stdlib Require Import ZArith Lia.
From stdpp Require Import base gmap list tactics numbers.
From S2P Require Import Prelude AddrSpace.

#[local] Open Scope Z_scope.

Module Lmm.

Record region := mk_region { r_addr : Z; nodes : Z; rmin : Z; rmax : Z; flags : Z; pri : Z; free : Z }.
Definition set_nodes v r := mk_region (r_addr r) v (rmin r) (rmax r) (flags r) (pri r) (free r).
Definition set_free v r := mk_region (r_addr r) (nodes r) (rmin r) (rmax r) (flags r) (pri r) v.

Definition ALIGN_SIZE : Z := 8.
Definition ALIGN_MASK : Z := 7.
(** [x & ~ALIGN_MASK] and [(x + ALIGN_MASK) & ~ALIGN_MASK] *)
Definition trunc (x : Z) : Z := Z.land x 4294967288.
Definition round (x : Z) : Z := trunc (w32 (x + ALIGN_MASK)).
#[global] Arguments trunc : simpl never.
#[global] Arguments round : simpl never.
Definition aligned (x : Z) : bool := Z.land x ALIGN_MASK =? 0.

Definition assert_ {S} (b : bool) : M S unit := if b then mret tt else panic.

(** A region and the memory. *)
Record rst := mk_rst { reg : region; mem : Z -> Z }.

Definition load (a : Z) : M rst Z := gets (fun s => word_of (mem s) a).
Definition store (a v : Z) : M rst unit := modify (fun s => mk_rst (reg s) (put (mem s) a (word_bytes v))).
Definition node_next (p : Z) : M rst Z := load p.
Definition node_size (p : Z) : M rst Z := load (p + 4).
Definition set_node_next (p v : Z) : M rst unit := store p v.
Definition set_node_size (p v : Z) : M rst unit := store (p + 4) v.
Definition upd_reg (f : region -> region) : M rst unit := modify (fun s => mk_rst (f (reg s)) (mem s)).

(** [*nodep] *)
Definition get_link (nodep : option Z) : M rst Z := match nodep with None => gets (fun s => nodes (reg s)) | Some p => node_next p end.
Definition set_link (nodep : option Z) (v : Z) : M rst unit := match nodep with None => upd_reg (set_nodes v) | Some p => set_node_next p v end.

(** An lmm and the memory. *)
Record lmm := mk_lmm { regions : list region; lmem : Z -> Z }.

(** The part of [flags] a region does not have: [flags & ~reg->flags] *)
Definition lacks (fl : Z) (r : region) : bool := negb (Z.land fl (4294967295 - flags r) =? 0).

Definition check_region (r : region) : bool :=
  ((nodes r =? 0) && (free r =? 0) || (rmin r <=? nodes r)) && (0 <=? free r) && (free r <=? w32 (rmax r - rmin r)).

Definition check_node (node sz nx : Z) (r : region) : bool :=
  aligned node && aligned sz && ((nx =? 0) || (node <? nx)) && (node <? rmax r).

(** A function of one region, with the rest of the list. *)
Definition in_region {A} (m : M rst A) (r : region) : M (Z -> Z) (A * region) := fun f =>
  match m (mk_rst r f) with
  | Ok (a, s) => Ok ((a, reg s), mem s)
  | Panic => Panic | Fault => Fault | Blocks => Blocks | NoFuel => NoFuel
  end.

Definition on_regions {A} (m : list region -> M (Z -> Z) (A * list region)) : M lmm A := fun s =>
  match m (regions s) (lmem s) with
  | Ok ((a, rs), f) => Ok (a, mk_lmm rs f)
  | Panic => Panic | Fault => Fault | Blocks => Blocks | NoFuel => NoFuel
  end.

Definition lmm_init : M lmm unit := modify (fun s => mk_lmm [] (lmem s)).


Section loops.
Context (fuel : nat).

(** Cut [size] bytes off the front of the block at [node]. *)
Definition take_front (nodep : option Z) (node size : Z) : M rst unit :=
  sz ← node_size node;
  nx ← node_next node;
  (if size <? sz then
     let newnode := w32 (node + size) in
     set_node_next newnode nx;; set_node_size newnode (w32 (sz - size));; set_link nodep newnode
   else set_link nodep nx);;
  r ← gets reg;
  assert_ (size <=? free r);;
  upd_reg (set_free (w32 (free r - size))).

(** [None]: no block of the region is large enough. *)
Fixpoint alloc_loop (n : nat) (size : Z) (nodep : option Z) : M rst (option Z) :=
  match n with
  | O => nofuel
  | S n =>
      node ← get_link nodep;
      if node =? 0 then mret None else
      sz ← node_size node; nx ← node_next node; r ← gets reg;
      assert_ (check_node node sz nx r);;
      if size <=? sz then take_front nodep node size;; mret (Some node)
      else alloc_loop n size (Some node)
  end.

(** The regions are tried in order; [skip] are the ones that are left out. *)
Fixpoint search_regions (skip : region -> bool) (loop : M rst (option Z)) (rs : list region) : M (Z -> Z) (option Z * list region) :=
  match rs with
  | [] => mret (None, [])
  | r :: rs =>
      assert_ (check_region r);;
      '(p, r) ← (if skip r then mret (None, r) else in_region loop r);
      match p with
      | Some _ => mret (p, r :: rs)
      | None => '(p, rs) ← search_regions skip loop rs; mret (p, r :: rs)
      end
  end.

Definition lmm_alloc (size fl : Z) : M lmm Z :=
  assert_ (0 <? size);;
  p ← on_regions (search_regions (lacks fl) (alloc_loop fuel (round size) None));
  mret (default 0 p).

(** The loop that aligns an address: [i] bits are done, [n] are left. *)
Fixpoint align_addr (n : nat) (i addr align_ofs : Z) : Z :=
  match n with
  | O => addr
  | S n =>
      let bit := w32 (Z.shiftl 1 i) in
      align_addr n (i + 1) (if negb (Z.land (Z.lxor addr align_ofs) bit =? 0) then w32 (addr + bit) else addr) align_ofs
  end.

(** Cut the block [addr, addr + size) out of the free block at [node]. *)
Definition take_middle (nodep : option Z) (node addr size : Z) : M rst unit :=
  let anode := trunc addr in
  assert_ (node <=? anode);;
  (if node <? anode then
     let split_size := w32 (anode - node) in
     assert_ (aligned split_size);;
     nx ← node_next node; set_node_next anode nx;;
     sz ← node_size node; set_node_size anode (w32 (sz - split_size));;
     set_node_size node split_size
   else mret tt);;
  take_front (if node <? anode then Some node else nodep) anode (round (w32 (Z.land addr ALIGN_MASK + size))).

Fixpoint gen_loop (n : nat) (size align_bits align_ofs in_min in_max : Z) (nodep : option Z) : M rst (option Z) :=
  match n with
  | O => nofuel
  | S n =>
      node ← get_link nodep;
      if node =? 0 then mret None else
      sz ← node_size node; nx ← node_next node; r ← gets reg;
      assert_ (check_node node sz nx r);;
      if sz <? size then gen_loop n size align_bits align_ofs in_min in_max (Some node) else
      let addr := align_addr (Z.to_nat align_bits) 0 (if node <? in_min then in_min else node) align_ofs in
      if sz <? w32 (w32 (addr - node) + size) then gen_loop n size align_bits align_ofs in_min in_max (Some node) else
      if in_max <? w32 (addr + size) then mret None else
      take_middle nodep node addr size;; mret (Some addr)
  end.

Definition lmm_alloc_gen (size fl align_bits align_ofs in_min in_size : Z) : M lmm Z :=
  let in_max := w32 (in_min + in_size) in
  assert_ (0 <? size);;
  p ← on_regions (search_regions (fun r => lacks fl r || (in_max <=? rmin r) || (rmax r <=? in_min))
    (gen_loop fuel size align_bits align_ofs in_min in_max None));
  mret (default 0 p).

Definition lmm_alloc_aligned (size fl align_bits align_ofs : Z) : M lmm Z := lmm_alloc_gen size fl align_bits align_ofs 0 4294967295.
Definition lmm_alloc_page (fl : Z) : M lmm Z := lmm_alloc_gen PAGE_SIZE fl 12 0 0 4294967295.

(** ** Giving memory back *)

(** The place in the list: the last node before [node], and the one after it. *)
Fixpoint free_find (n : nat) (node prevnode nextnode : Z) : M rst (Z * Z) :=
  match n with
  | O => nofuel
  | S n =>
      if negb (nextnode =? 0) && (nextnode <? node)
      then nx ← node_next nextnode; free_find n node nextnode nx
      else mret (prevnode, nextnode)
  end.

(** [insert_block] links the node in, [extend_block] joins it to the block before;
    both join it to the block behind if that touches. *)
Definition insert_block (prevnode nextnode node size : Z) : M rst unit :=
  (if negb (prevnode =? 0) then set_node_next prevnode node else upd_reg (set_nodes node));;
  if negb (nextnode =? 0) && (nextnode <=? w32 (node + size)) then
    nsz ← node_size nextnode; set_node_size node (w32 (size + nsz));; nx ← node_next nextnode; set_node_next node nx
  else set_node_size node size;; set_node_next node nextnode.

Definition extend_block (prevnode psz nextnode node size : Z) : M rst unit :=
  if negb (nextnode =? 0) && (nextnode <=? w32 (node + size)) then
    assert_ (w32 (node + size) =? nextnode);;
    nsz ← node_size nextnode; set_node_size prevnode (w32 (psz + w32 (size + nsz)));; nx ← node_next nextnode; set_node_next prevnode nx
  else set_node_size prevnode (w32 (psz + size)).

Definition free_block (node size : Z) : M rst unit :=
  r ← gets reg;
  upd_reg (set_free (w32 (free r + size)));;
  r ← gets reg;
  assert_ (free r <=? w32 (rmax r - rmin r));;
  '(prevnode, nextnode) ← free_find fuel node 0 (nodes r);
  psz ← (if prevnode =? 0 then mret 0 else node_size prevnode);
  if negb (prevnode =? 0) && (node <=? w32 (prevnode + psz)) then
    assert_ (w32 (prevnode + psz) =? node);;
    extend_block prevnode psz nextnode node size
  else insert_block prevnode nextnode node size.

Fixpoint free_regions (node size : Z) (rs : list region) : M (Z -> Z) (unit * list region) :=
  match rs with
  | [] => panic
  | r :: rs =>
      assert_ ((nodes r =? 0) && (free r =? 0) || (rmin r <=? nodes r));;
      if (rmin r <=? node) && (node <? rmax r)
      then '(_, r) ← in_region (free_block node size) r; mret (tt, r :: rs)
      else '(_, rs) ← free_regions node size rs; mret (tt, r :: rs)
  end.

Definition lmm_free (block size : Z) : M lmm unit :=
  let node := trunc block in
  assert_ (negb (block =? 0));;
  assert_ (0 <? size);;
  on_regions (free_regions node (round (w32 (Z.land block ALIGN_MASK + size)))).

Definition lmm_free_page (page : Z) : M lmm unit := lmm_free page PAGE_SIZE.

(** ** Regions *)

Fixpoint insert_region (r : region) (rs : list region) : M lmm (list region) :=
  match rs with
  | [] => mret [r]
  | r' :: rs' =>
      if (pri r <? pri r') || (pri r' =? pri r) && (w32 (rmax r - rmin r) <? w32 (rmax r' - rmin r')) then
        assert_ (negb (r_addr r' =? r_addr r));;
        assert_ ((rmax r <=? rmin r') || (rmax r' <=? rmin r));;
        rs ← insert_region r rs'; mret (r' :: rs)
      else mret (r :: rs)
  end.

Definition lmm_add_region (addr start size fl p : Z) : M lmm unit :=
  let min := round start in
  let max := trunc (w32 (start + size)) in
  if max <=? min then mret tt else
  rs ← gets regions;
  rs ← insert_region (mk_region addr 0 min max fl p 0) rs;
  modify (fun s => mk_lmm rs (lmem s)).

(** [lmm_free] finds the region itself: the loop only looks at the bounds of the
    regions, which it does not change. *)
Fixpoint add_free_loop (min max : Z) (rs : list region) : M lmm unit :=
  match rs with
  | [] => mret tt
  | r :: rs =>
      assert_ (rmin r <? rmax r);; assert_ (aligned (rmin r));; assert_ (aligned (rmax r));;
      (if (rmin r <? max) && (min <? rmax r) then
         let new_min := if min <? rmin r then rmin r else min in
         let new_max := if rmax r <? max then rmax r else max in
         assert_ (new_min <? new_max);;
         lmm_free new_min (w32 (new_max - new_min))
       else mret tt);;
      add_free_loop min max rs
  end.

Definition lmm_add_free (block size : Z) : M lmm unit :=
  let min := round block in
  let max := trunc (w32 (block + size)) in
  assert_ (min <=? max);;
  if max =? min then mret tt else
  rs ← gets regions;
  add_free_loop min max rs.

Fixpoint avail_loop (fl count : Z) (rs : list region) : M lmm Z :=
  match rs with
  | [] => mret count
  | r :: rs =>
      assert_ (bool_decide (nodes r = 0 <-> free r = 0));;
      if nodes r =? 0 then avail_loop fl count rs else
      assert_ ((rmin r <=? nodes r) && (nodes r <? rmax r) && (0 <=? free r) && (free r <=? w32 (rmax r - rmin r)));;
      avail_loop fl (if lacks fl r then count else w32 (count + free r)) rs
  end.

Definition lmm_avail (fl : Z) : M lmm Z := rs ← gets regions; avail_loop fl 0 rs.

(** ** Searching and removing *)

(** The lowest free address so far, with the size and the flags of its block. *)
Fixpoint find_nodes (n : nat) (start : Z) (r : region) (node : Z) (best : Z * Z * Z) : M (Z -> Z) (Z * Z * Z) :=
  match n with
  | O => nofuel
  | S n =>
      if node =? 0 then mret best else
      assert_ ((rmin r <=? node) && (node <? rmax r));;
      let '(low, _, _) := best in
      if low <=? node then mret best else
      sz ← gets (fun f => word_of f (node + 4));
      if start <? w32 (node + sz) then
        if start <? node then mret (node, sz, flags r)
        else mret (start, w32 (sz - w32 (start - node)), flags r)
      else nx ← gets (fun f => word_of f node); find_nodes n start r nx best
  end.

Fixpoint find_regions (start : Z) (best : Z * Z * Z) (rs : list region) : M (Z -> Z) (Z * Z * Z) :=
  match rs with
  | [] => mret best
  | r :: rs =>
      let '(low, _, _) := best in
      best ← (if (nodes r =? 0) || (rmax r <=? start) || (low <? rmin r) then mret best else find_nodes fuel start r (nodes r) best);
      find_regions start best rs
  end.

Definition lmm_find_free (addr : Z) : M lmm (Z * Z * Z) := fun s =>
  match find_regions (round addr) (4294967295, 0, 0) (regions s) (lmem s) with
  | Ok (b, _) => Ok (b, s)
  | Panic => Panic | Fault => Fault | Blocks => Blocks | NoFuel => NoFuel
  end.

Fixpoint remove_loop (n : nat) (block rstart rend : Z) : M lmm unit :=
  match n with
  | O => nofuel
  | S n =>
      if rend <=? rstart then mret tt else
      '(rstart, size, fl) ← lmm_find_free rstart;
      assert_ (block <=? rstart);;
      if (size =? 0) || (rend <=? rstart) then mret tt else
      let size := if rend <? w32 (rstart + size) then w32 (rend - rstart) else size in
      ptr ← lmm_alloc_gen size fl 0 0 rstart size;
      assert_ (ptr =? rstart);;
      remove_loop n block rstart rend
  end.

Definition lmm_remove_free (n : nat) (block block_size : Z) : M lmm unit :=
  let rend := w32 (block + block_size) in
  assert_ (block <? rend);;
  remove_loop n block block rend.
End loops.
End Lmm.
