(* ===== verification/LmmProofs.v ===== *)
(** * The list memory manager is a set of free bytes

    The free list of a region is canonical: sorted, and no two blocks touch, so
    that the set of free bytes determines it ([laid_unique]).  Allocating takes a
    block out of the set, freeing puts it back, and neither touches memory that
    was, and stays, in use. *)

From Stdlib Require Import ZArith Lia.
From stdpp Require Import base gmap list tactics numbers.
From S2P Require Import Prelude AddrSpace Lmm.

#[local] Open Scope Z_scope.

Module LmmProofs.
Import Lmm.

(** ** Alignment *)

Lemma land_mask_low n x : 0 <= n < 32 -> 0 <= x < 2 ^ 32 -> Z.land x (2 ^ 32 - 2 ^ n) = 2 ^ n * (x / 2 ^ n).
Proof.
  intros Hn Hx. assert (E : 2 ^ 32 - 2 ^ n = Z.shiftl (Z.ones (32 - n)) n).
  { rewrite Z.shiftl_mul_pow2, Z.ones_equiv by lia. replace (2 ^ 32) with (2 ^ (32 - n) * 2 ^ n); [lia|]. rewrite <- Z.pow_add_r by lia. f_equal. lia. }
  rewrite E. apply Z.bits_inj'. intros j Hj. rewrite Z.land_spec.
  replace (2 ^ n * (x / 2 ^ n)) with (Z.shiftl (Z.shiftr x n) n) by (rewrite Z.shiftl_mul_pow2, Z.shiftr_div_pow2 by lia; lia).
  rewrite !Z.shiftl_spec by lia. destruct (Z.lt_ge_cases j n).
  - rewrite !(Z.testbit_neg_r _ (j - n)) by lia. apply andb_false_r.
  - rewrite Z.shiftr_spec by lia. replace (j - n + n) with j by lia. destruct (Z.lt_ge_cases j 32).
    + rewrite Z.ones_spec_low by lia. apply andb_true_r.
    + rewrite (u32_testbit_high x) by lia. done.
Qed.

Lemma trunc_eq x : 0 <= x < 2 ^ 32 -> trunc x = 8 * (x / 8).
Proof. intros Hx. exact (land_mask_low 3 x ltac:(lia) Hx). Qed.

Lemma round_eq x : 0 <= x <= 2 ^ 32 - 8 -> round x = 8 * ((x + 7) / 8).
Proof. intros Hx. unfold round, ALIGN_MASK. rewrite w32_small by lia. apply trunc_eq. lia. Qed.

Lemma round_spec x : 0 <= x <= 2 ^ 32 - 8 -> x <= round x < x + 8 /\ round x mod 8 = 0.
Proof.
  intros Hx. rewrite round_eq by done. pose proof (Z.div_mod (x + 7) 8 ltac:(lia)). pose proof (Z.mod_pos_bound (x + 7) 8 ltac:(lia)).
  split; [lia|]. rewrite Z.mul_comm. apply Z.mod_mul. lia.
Qed.

Lemma land_7 x : Z.land x ALIGN_MASK = x mod 8.
Proof. change ALIGN_MASK with (Z.ones 3). by rewrite Z.land_ones by lia. Qed.

Lemma aligned_true x : x mod 8 = 0 -> aligned x = true.
Proof. intros H. unfold aligned. rewrite land_7, H. done. Qed.

Lemma mod8 x : x mod 8 = 0 -> exists q, x = 8 * q.
Proof. intros H. exists (x / 8). pose proof (Z.div_mod x 8 ltac:(lia)). lia. Qed.

Lemma trunc_aligned x : 0 <= x < 2 ^ 32 -> x mod 8 = 0 -> trunc x = x.
Proof. intros Hx H. rewrite trunc_eq by done. pose proof (Z.div_mod x 8 ltac:(lia)). lia. Qed.

Lemma round_aligned x : 0 <= x <= 2 ^ 32 - 8 -> x mod 8 = 0 -> round x = x.
Proof. intros Hx H. destruct (round_spec x Hx) as [H1 H2]. apply mod8 in H as [q ->]. apply mod8 in H2 as [q' E]. rewrite E in *. lia. Qed.

(** ** Lists of blocks *)

Abbreviation block := (Z * Z)%type.
Definition covers (l : list block) (x : Z) : Prop := exists a s, (a, s) ∈ l /\ a <= x < a + s.

(** The blocks are in [lo, hi), sorted, aligned, and no two of them touch. *)
Fixpoint laid (lo hi : Z) (l : list block) : Prop :=
  match l with
  | [] => True
  | (a, s) :: l => lo <= a /\ 0 < a /\ 0 < s /\ a mod 8 = 0 /\ s mod 8 = 0 /\ a + s <= hi /\ laid (a + s + 1) hi l
  end.

Definition after (lo : Z) (l : list block) : Z := match list.last l with Some (a, s) => a + s + 1 | None => lo end.

Lemma after_cons lo a s l : after lo ((a, s) :: l) = after (a + s + 1) l.
Proof. unfold after. rewrite list.last_cons. destruct (list.last l) as [[? ?]|]; done. Qed.

Lemma laid_app l1 : forall lo hi l2, laid lo hi (l1 ++ l2) <-> laid lo hi l1 /\ laid (after lo l1) hi l2.
Proof.
  induction l1 as [|[a s] l1 IH]; intros lo hi l2; [unfold after; simpl; tauto|]. simpl. rewrite IH, after_cons. tauto.
Qed.

Lemma laid_weaken l : forall lo lo' hi, lo' <= lo -> laid lo hi l -> laid lo' hi l.
Proof. destruct l as [|[a s] l]; intros lo lo' hi H; simpl; [done|]. intros (? & ?). split; [lia|done]. Qed.

Lemma covers_nil x : ~ covers [] x.
Proof. intros (a & s & H & _). by apply elem_of_nil in H. Qed.

Lemma covers_cons a s l x : covers ((a, s) :: l) x <-> a <= x < a + s \/ covers l x.
Proof.
  split.
  - intros (a' & s' & H & Hx). apply elem_of_cons in H as [[= -> ->]|H]; [by left|right; by exists a', s'].
  - intros [Hx|(a' & s' & H & Hx)]; [exists a, s|exists a', s']; (split; [set_solver|done]).
Qed.

Lemma covers_app l1 l2 x : covers (l1 ++ l2) x <-> covers l1 x \/ covers l2 x.
Proof.
  induction l1 as [|[a s] l1 IH]; simpl; [pose proof (covers_nil x); tauto|]. rewrite !covers_cons, IH. tauto.
Qed.

Lemma laid_bounds l : forall lo hi x, laid lo hi l -> covers l x -> lo <= x < hi /\ 0 < x.
Proof.
  induction l as [|[a s] l IH]; intros lo hi x Hl Hx; [by apply covers_nil in Hx|]. destruct Hl as (? & ? & ? & ? & ? & ? & Hl).
  apply covers_cons in Hx as [Hx|Hx]; [lia|]. apply (IH _ _ _ Hl) in Hx. lia.
Qed.

Lemma after_ge l : forall lo hi, laid lo hi l -> lo <= after lo l.
Proof.
  induction l as [|[a s] l IH]; intros lo hi Hl; [unfold after; simpl; lia|]. rewrite after_cons. destruct Hl as (? & ? & ? & ? & ? & ? & Hl).
  apply IH in Hl. lia.
Qed.

Lemma laid_after l : forall lo hi x, laid lo hi l -> covers l x -> x < after lo l - 1.
Proof.
  induction l as [|[a s] l IH]; intros lo hi x Hl Hx; [by apply covers_nil in Hx|]. rewrite after_cons. destruct Hl as (? & ? & ? & ? & ? & ? & Hl).
  apply covers_cons in Hx as [Hx|Hx]; [|by apply (IH _ hi)]. apply after_ge in Hl. lia.
Qed.

Definition total (l : list block) : Z := foldr (fun b n => snd b + n) 0 l.

#[local] Arguments total : simpl never.

Lemma total_cons a s l : total ((a, s) :: l) = s + total l.
Proof. done. Qed.

Lemma total_app l1 l2 : total (l1 ++ l2) = total l1 + total l2.
Proof. induction l1 as [|[a s] l1 IH]; [done|]. simpl. rewrite !total_cons, IH. lia. Qed.

Lemma total_bounds l : forall lo hi, lo <= hi -> laid lo hi l -> 0 <= total l <= hi - lo.
Proof.
  induction l as [|[a s] l IH]; intros lo hi Hh Hl; [unfold total; simpl; lia|]. destruct Hl as (? & ? & ? & ? & ? & ? & Hl). rewrite total_cons.
  destruct l as [|[b t] l]; [unfold total; simpl; lia|]. assert (a + s + 1 <= hi) by (simpl in Hl; lia). specialize (IH _ _ ltac:(eassumption) Hl). lia.
Qed.

(** The free bytes determine the list. *)
Lemma laid_unique l1 : forall l2 lo hi, laid lo hi l1 -> laid lo hi l2 -> (forall x, covers l1 x <-> covers l2 x) -> l1 = l2.
Proof.
  induction l1 as [|[a s] l1 IH]; intros [|[b t] l2] lo hi H1 H2 E.
  - done.
  - exfalso. apply (covers_nil b), E, covers_cons. destruct H2 as (? & ? & ? & _). lia.
  - exfalso. apply (covers_nil a), E, covers_cons. destruct H1 as (? & ? & ? & _). lia.
  - destruct H1 as (? & ? & ? & ? & ? & ? & H1), H2 as (? & ? & ? & ? & ? & ? & H2).
    assert (L1 : forall x, covers l1 x -> a + s < x) by (intros x Hx; apply (laid_bounds _ _ _ _ H1) in Hx; lia).
    assert (L2 : forall x, covers l2 x -> b + t < x) by (intros x Hx; apply (laid_bounds _ _ _ _ H2) in Hx; lia).
    assert (Hab : a = b).
    { pose proof (proj1 (E a) ltac:(apply covers_cons; lia)) as Ha. pose proof (proj2 (E b) ltac:(apply covers_cons; lia)) as Hb.
      apply covers_cons in Ha as [Ha|Ha%L2], Hb as [Hb|Hb%L1]; lia. }
    subst b. assert (Hst : s = t).
    { destruct (Z.lt_trichotomy s t) as [Hlt|[->|Hlt]]; [|done|]; exfalso.
      - pose proof (proj2 (E (a + s)) ltac:(apply covers_cons; lia)) as Hx. apply covers_cons in Hx as [Hx|Hx%L1]; lia.
      - pose proof (proj1 (E (a + t)) ltac:(apply covers_cons; lia)) as Hx. apply covers_cons in Hx as [Hx|Hx%L2]; lia. }
    subst t. f_equal. apply (IH l2 (a + s + 1) hi); [done|done|]. intros x. split; intros Hx.
    + pose proof (L1 x Hx). pose proof (proj1 (E x) ltac:(apply covers_cons; by right)) as Hy. apply covers_cons in Hy as [Hy|Hy]; [lia|done].
    + pose proof (L2 x Hx). pose proof (proj2 (E x) ltac:(apply covers_cons; by right)) as Hy. apply covers_cons in Hy as [Hy|Hy]; [lia|done].
Qed.

(** ** The list in memory *)

(** The blocks [l] from pointer [p] on; the last one points to [q]. *)
Fixpoint seg (m : Z -> Z) (p : Z) (l : list block) (q : Z) : Prop :=
  match l with
  | [] => p = q
  | (a, s) :: l => p = a /\ word_of m (a + 4) = s /\ seg m (word_of m a) l q
  end.

Lemma seg_app m l1 : forall p l2 q, seg m p (l1 ++ l2) q <-> exists r, seg m p l1 r /\ seg m r l2 q.
Proof.
  induction l1 as [|[a s] l1 IH]; intros p l2 q; simpl; [naive_solver|]. rewrite IH. naive_solver.
Qed.

Lemma seg_frame m m' l : forall lo hi p q, laid lo hi l -> (forall x, covers l x -> m' x = m x) -> seg m p l q -> seg m' p l q.
Proof.
  induction l as [|[a s] l IH]; intros lo hi p q Hl Hf Hs; [done|]. destruct Hl as (? & ? & ? & Ha & Hsz & ? & Hl), Hs as (-> & E & Hs).
  apply mod8 in Hsz as [k ->]. assert (Hh : forall b, a <= b -> b + 4 <= a + 8 -> word_of m' b = word_of m b).
  { intros b ? ?. apply word_of_ext. intros x Hx. apply Hf, covers_cons. lia. }
  simpl. rewrite !Hh by lia. split; [done|]. split; [done|]. apply (IH (a + 8 * k + 1) hi); [done| |done]. intros x Hx. apply Hf, covers_cons. by right.
Qed.

Lemma seg_head m p l lo hi : laid lo hi l -> hi <= 2 ^ 32 -> seg m p l 0 -> 0 <= p < 2 ^ 32.
Proof. destruct l as [|[a s] l]; simpl; [lia|]. intros Hl Hh (-> & _). lia. Qed.

(** The pointer to the pointer behind the blocks [l1]. *)
Definition loc (l1 : list block) : option Z := fst <$> list.last l1.

Lemma loc_snoc l1 a s : loc (l1 ++ [(a, s)]) = Some a.
Proof. unfold loc. by rewrite list.last_snoc. Qed.

Lemma get_link_ok r m l1 q : seg m (nodes r) l1 q -> get_link (loc l1) (mk_rst r m) = Ok (q, mk_rst r m).
Proof.
  destruct l1 as [|[a s] l1 _] using rev_ind; [by intros <-|]. rewrite loc_snoc. intros Hs. apply seg_app in Hs as (p & _ & E & _ & <-). by subst p.
Qed.

Lemma set_link_ok r m l1 q v lo hi : seg m (nodes r) l1 q -> laid lo hi l1 -> 0 <= v < 2 ^ 32 ->
  exists r' m', set_link (loc l1) v (mk_rst r m) = Ok (tt, mk_rst r' m') /\ seg m' (nodes r') l1 v /\ r' = set_nodes (nodes r') r /\
    forall x, ~ covers l1 x -> m' x = m x.
Proof.
  intros Hs Hl Hv. destruct l1 as [|[a s] l1 _] using rev_ind.
  - exists (set_nodes v r), m. done.
  - rewrite loc_snoc. apply seg_app in Hs as (p & Hs1 & Hs2 & E & Hq). apply laid_app in Hl as [Hl1 (Ha & Ha0 & Hs0 & Ha8 & Hs8 & Hhi & _)].
    apply mod8 in Hs8 as [k ->]. set (m' := put m a (word_bytes v)).
    assert (Hout : forall x, ~ (a <= x < a + 4) -> m' x = m x) by (intros x Hx; apply put_out; simpl; lia).
    exists r, m'. split; [done|]. split; [|split; [by destruct r|]].
    + apply seg_app. exists a. split; [|split; [done|]].
      * subst p. apply (seg_frame m m' l1 lo hi); [done| |done]. intros x Hx. apply Hout. pose proof (laid_after _ _ _ _ Hl1 Hx). lia.
      * unfold m'. rewrite word_put_out by (simpl; lia). split; [done|]. by apply word_put.
    + intros x Hx. apply Hout. intros Hx'. apply Hx, covers_app. right. apply covers_cons. lia.
Qed.

(** What is left of the block [a, a + s) when its first [n] bytes are taken. *)
Definition cut (a s n : Z) : list block := if n <? s then [(a + n, s - n)] else [].

Lemma laid_cut lo hi l1 a s n l2 : laid lo hi l1 -> after lo l1 <= a + 1 -> 0 < a -> a mod 8 = 0 -> s mod 8 = 0 -> n mod 8 = 0 -> 0 < n <= s -> a + s <= hi ->
  laid (a + s + 1) hi l2 -> laid lo hi (l1 ++ cut a s n ++ l2).
Proof.
  intros H1 Ha H0 Ha8 Hs8 Hn8 Hn Hhi H2. apply laid_app. split; [done|]. unfold cut. destruct (Z.ltb_spec n s); simpl.
  - split; [lia|]. split; [lia|]. split; [lia|]. split; [by rewrite Z.add_mod, Ha8, Hn8|]. split; [by rewrite Zminus_mod, Hs8, Hn8|]. split; [lia|].
    by replace (a + n + (s - n) + 1) with (a + s + 1) by lia.
  - apply (laid_weaken _ (a + s + 1)); [lia|done].
Qed.

Lemma covers_cut a s n x : 0 < n <= s -> covers (cut a s n) x <-> a <= x < a + s /\ ~ (a <= x < a + n).
Proof.
  intros Hn. unfold cut. destruct (Z.ltb_spec n s).
  - rewrite covers_cons. pose proof (covers_nil x). split; [intros [?|?]; [lia|done]|]. left. lia.
  - split; [by intros ?%covers_nil|lia].
Qed.

Lemma total_cut a s n : 0 < n <= s -> total (cut a s n) = s - n.
Proof. intros Hn. unfold cut, total. destruct (Z.ltb_spec n s); simpl; lia. Qed.

Lemma take_front_ok r m l1 q0 a s q l2 n lo hi :
  seg m (nodes r) l1 q0 -> laid lo hi l1 -> after lo l1 <= a + 1 -> 0 < a -> word_of m (a + 4) = s -> word_of m a = q -> seg m q l2 0 -> laid (a + s + 1) hi l2 ->
  a mod 8 = 0 -> s mod 8 = 0 -> n mod 8 = 0 -> 0 < n <= s -> a + s <= hi -> hi <= 2 ^ 32 - 8 -> n <= free r < 2 ^ 32 ->
  exists r' m', take_front (loc l1) a n (mk_rst r m) = Ok (tt, mk_rst r' m') /\ seg m' (nodes r') (l1 ++ cut a s n ++ l2) 0 /\
    r' = set_free (free r - n) (set_nodes (nodes r') r) /\ forall x, ~ covers l1 x -> ~ (a <= x < a + s) -> m' x = m x.
Proof.
  intros H1 L1 Ha H0 Es Eq H2 L2 Ha8 Hs8 Hn8 Hn Hhi Hh Hf. pose proof (seg_head m q l2 _ hi L2 ltac:(lia) H2) as Hq.
  assert (D1 : forall x, covers l1 x -> x < a) by (intros x Hx; pose proof (laid_after _ _ _ _ L1 Hx); lia).
  assert (D2 : forall x, covers l2 x -> a + s < x) by (intros x Hx; pose proof (laid_bounds _ _ _ _ L2 Hx); lia).
  unfold take_front. rewrite (bind_ok _ _ (mk_rst r m) s (mk_rst r m)) by (unfold node_size, load, gets; simpl; by rewrite Es).
  rewrite (bind_ok _ _ (mk_rst r m) q (mk_rst r m)) by (unfold node_next, load, gets; simpl; by rewrite Eq).
  assert (Fin : forall r1 m1, free r1 = free r -> (r0 ← gets reg; assert_ (n <=? free r0);; upd_reg (set_free (w32 (free r0 - n)))) (mk_rst r1 m1) = Ok (tt, mk_rst (set_free (free r - n) r1) m1)).
  { intros r1 m1 E. unfold gets. munfold. cbn [reg]. rewrite E, (proj2 (Z.leb_le n (free r))) by lia. unfold assert_, upd_reg, modify. munfold. cbn [reg mem]. by rewrite w32_small by lia. }
  unfold cut. destruct (Z.ltb_spec n s) as [Hlt|Hge].
  - cbv zeta. rewrite (w32_small (a + n)), (w32_small (s - n)) by lia. set (nn := a + n). set (m1 := put m nn (word_bytes q)). set (m2 := put m1 (nn + 4) (word_bytes (s - n))).
    apply mod8 in Hn8 as [kn ->]. apply mod8 in Hs8 as [ks ->].
    assert (O2 : forall x, ~ (nn <= x < nn + 8) -> m2 x = m x) by (intros x Hx; unfold m2, m1; rewrite !put_out by (simpl; lia); done).
    assert (S1 : seg m2 (nodes r) l1 q0) by (apply (seg_frame m m2 l1 lo hi); [done| |done]; intros x Hx; apply O2; specialize (D1 x Hx); unfold nn; lia).
    destruct (set_link_ok r m2 l1 q0 nn lo hi S1 L1 ltac:(unfold nn; lia)) as (r' & m' & R & S' & Er & O').
    exists (set_free (free r - 8 * kn) r'), m'. split; [|split; [|split]].
    + rewrite (bind_ok _ _ _ tt (mk_rst r' m')); [by rewrite Fin by (by rewrite Er)|]. do 2 (erewrite bind_ok by reflexivity). exact R.
    + apply seg_app. exists nn. split; [exact S'|]. cbn [app seg]. split; [done|].
      assert (W : forall b, nn <= b -> b + 4 <= nn + 8 -> word_of m' b = word_of m2 b).
      { intros b ? ?. apply word_of_ext. intros x Hx. apply O'. intros Hc. specialize (D1 x Hc). unfold nn in *. lia. }
      rewrite !W by lia. split; [unfold m2; apply word_put; lia|]. unfold m2. rewrite word_put_out by (simpl; lia). unfold m1. rewrite word_put by done.
      apply (seg_frame m m' l2 (a + 8 * ks + 1) hi); [done| |done]. intros x Hx. specialize (D2 x Hx). rewrite O' by (intros Hc; specialize (D1 x Hc); lia). apply O2. unfold nn. lia.
    + rewrite Er. done.
    + intros x Hx Hx'. rewrite O' by done. apply O2. unfold nn. lia.
  - assert (n = s) by lia. subst n. destruct (set_link_ok r m l1 q0 q lo hi H1 L1 Hq) as (r' & m' & R & S' & Er & O').
    exists (set_free (free r - s) r'), m'. split; [|split; [|split]].
    + rewrite (bind_ok _ _ _ tt (mk_rst r' m')); [by rewrite Fin by (by rewrite Er)|exact R].
    + apply seg_app. exists q. split; [exact S'|]. simpl. apply (seg_frame m m' l2 (a + s + 1) hi); [done| |done]. intros x Hx. specialize (D2 x Hx). apply O'. intros Hc. specialize (D1 x Hc). lia.
    + rewrite Er. done.
    + intros x Hx _. by apply O'.
Qed.

(** ** Regions *)

Record region_ok (r : region) (m : Z -> Z) (l : list block) : Prop := {
  ro_seg : seg m (nodes r) l 0;
  ro_laid : laid (rmin r) (rmax r) l;
  ro_free : free r = total l;
  ro_bounds : 0 <= rmin r < rmax r /\ rmax r <= 2 ^ 32 - 8;
  ro_aligned : rmin r mod 8 = 0 /\ rmax r mod 8 = 0 }.

(** Only the list and the count of a region change. *)
Definition same_region (r r' : region) : Prop := r' = set_free (free r') (set_nodes (nodes r') r).

Lemma same_region_refl r : same_region r r.
Proof. by destruct r. Qed.

Lemma region_ok_frame r m m' l : region_ok r m l -> (forall x, covers l x -> m' x = m x) -> region_ok r m' l.
Proof. intros [H1 H2 H3 H4 H5] Hf. split; try done. by apply (seg_frame m m' l (rmin r) (rmax r)). Qed.

Lemma region_free_bound r m l : region_ok r m l -> 0 <= free r <= rmax r - rmin r /\ free r < 2 ^ 32.
Proof. intros [H1 H2 H3 H4 H5]. pose proof (total_bounds l (rmin r) (rmax r) ltac:(lia) H2). lia. Qed.

Lemma check_region_ok r m l : region_ok r m l -> check_region r = true.
Proof.
  intros Hr. destruct (region_free_bound r m l Hr) as [Hb _]. destruct Hr as [H1 H2 H3 H4 H5]. unfold check_region. rewrite w32_small by lia.
  rewrite (proj2 (Z.leb_le 0 _)), (proj2 (Z.leb_le (free r) _)), !andb_true_r by lia. destruct l as [|[a s] l]; simpl in H1, H2.
  - rewrite H1, H3. done.
  - destruct H1 as (-> & _). rewrite (proj2 (Z.leb_le _ a)) by lia. apply orb_true_r.
Qed.

Lemma check_node_ok r m l1 a s l2 : region_ok r m (l1 ++ (a, s) :: l2) -> check_node a s (word_of m a) r = true.
Proof.
  intros [H1 H2 H3 H4 H5]. apply laid_app in H2 as [_ (? & ? & ? & Ha8 & Hs8 & ? & Hl)]. apply seg_app in H1 as (p & _ & _ & _ & H1).
  unfold check_node. rewrite !aligned_true, (proj2 (Z.ltb_lt a (rmax r))) by (done || lia). rewrite andb_true_r. simpl. destruct l2 as [|[b t] l2]; simpl in H1, Hl.
  - by rewrite H1.
  - destruct H1 as (-> & _). rewrite (proj2 (Z.ltb_lt a b)) by lia. apply orb_true_r.
Qed.

(** A step of a walk: at the block (a, s). *)
Lemma visit {A} r m l1 a s l2 (f : Z -> Z -> region -> M rst A) : region_ok r m (l1 ++ (a, s) :: l2) ->
  get_link (loc l1) (mk_rst r m) = Ok (a, mk_rst r m) /\ (a =? 0) = false /\
  (sz ← node_size a; nx ← node_next a; r ← gets reg; assert_ (check_node a sz nx r);; f sz nx r) (mk_rst r m) = f s (word_of m a) r (mk_rst r m).
Proof.
  intros Hr. pose proof (check_node_ok _ _ _ _ _ _ Hr) as Hc. destruct Hr as [H1 H2 H3 H4 H5]. apply seg_app in H1 as (p & Hl & -> & Hs & H1).
  apply laid_app in H2 as [_ (? & ? & _)]. split; [by apply get_link_ok|]. split; [lia|].
  unfold node_size, node_next, load, gets. munfold. cbn [mem reg]. rewrite Hs, Hc. done.
Qed.

Lemma region_cut r m l1 a s l2 n r' m' l : region_ok r m l -> l = l1 ++ (a, s) :: l2 -> 0 < n <= s -> n mod 8 = 0 -> seg m' (nodes r') (l1 ++ cut a s n ++ l2) 0 ->
  r' = set_free (free r - n) (set_nodes (nodes r') r) -> region_ok r' m' (l1 ++ cut a s n ++ l2) /\ same_region r r'.
Proof.
  intros [H1 H2 H3 H4 H5] -> Hn Hn8 Hs Er. assert (Es : rmin r' = rmin r /\ rmax r' = rmax r /\ free r' = free r - n) by (by rewrite Er). destruct Es as (E1 & E2 & E3).
  split; [|rewrite Er; done]. apply laid_app in H2 as [L1 (? & ? & ? & ? & ? & ? & L2)]. split; rewrite ?E1, ?E2; try done.
  - apply laid_cut; try done; lia.
  - rewrite E3, H3, !total_app, total_cons, total_cut by lia. lia.
Qed.

Lemma alloc_loop_ok r m n l2 : forall l1 fuel, region_ok r m (l1 ++ l2) -> (length l2 < fuel)%nat -> 0 < n -> n mod 8 = 0 ->
  (Forall (fun b => snd b < n) l2 /\ alloc_loop fuel n (loc l1) (mk_rst r m) = Ok (None, mk_rst r m)) \/
  exists la a s lb r' m', l1 ++ l2 = la ++ (a, s) :: lb /\ n <= s /\ alloc_loop fuel n (loc l1) (mk_rst r m) = Ok (Some a, mk_rst r' m') /\
    region_ok r' m' (la ++ cut a s n ++ lb) /\ same_region r r' /\ forall x, ~ covers (l1 ++ l2) x -> m' x = m x.
Proof.
  induction l2 as [|[a s] l2 IH]; intros l1 fuel Hr Hfu Hn Hn8; (destruct fuel as [|fuel]; [simpl in Hfu; lia|]); cbn [alloc_loop].
  - left. split; [constructor|]. rewrite app_nil_r in Hr. by rewrite (bind_ok _ _ _ _ _ (get_link_ok r m l1 0 (ro_seg _ _ _ Hr))).
  - pose proof Hr as [H1 H2 H3 H4 H5]. pose proof (region_free_bound _ _ _ Hr) as [_ Hfb].
    destruct (visit r m l1 a s l2 (fun sz _ _ => if n <=? sz then take_front (loc l1) a n;; mret (Some a) else alloc_loop fuel n (Some a)) Hr) as (V1 & V2 & V3).
    rewrite (bind_ok _ _ _ _ _ V1), V2, V3. apply laid_app in H2 as [L1 (? & ? & ? & ? & ? & ? & L2)]. apply seg_app in H1 as (p & S1 & -> & Hs & S2).
    destruct (Z.leb_spec n s) as [Hle|Hgt].
    + right. rewrite total_app, total_cons in H3. pose proof (total_bounds l1 (rmin r) (rmax r) ltac:(lia) L1). pose proof (total_bounds l2 (a + s) (rmax r) ltac:(lia) ltac:(by apply (laid_weaken _ (a + s + 1)); [lia|])).
      destruct (take_front_ok r m l1 a a s (word_of m a) l2 n (rmin r) (rmax r)) as (r' & m' & R & S' & Er & O'); try done; try lia.
      exists l1, a, s, l2, r', m'. split; [done|]. split; [done|]. rewrite (bind_ok _ _ _ _ _ R). split; [done|].
      destruct (region_cut r m l1 a s l2 n r' m' _ Hr eq_refl ltac:(lia) Hn8 S' Er) as [K1 K2]. split; [done|]. split; [done|].
      intros x Hx. rewrite covers_app, covers_cons in Hx. apply O'; tauto.
    + rewrite <- (loc_snoc l1 a s). assert (E : l1 ++ (a, s) :: l2 = (l1 ++ [(a, s)]) ++ l2) by (by rewrite <- app_assoc). rewrite E in Hr |- *.
      destruct (IH (l1 ++ [(a, s)]) fuel Hr ltac:(simpl in Hfu; lia) Hn Hn8) as [[F R]|K]; [left|by right]. split; [by constructor|done].
Qed.

(** ** Lists of regions *)

Definition apart (r r' : region) : Prop := rmax r <= rmin r' \/ rmax r' <= rmin r.

Fixpoint lmm_ok (m : Z -> Z) (rs : list region) (Ls : list (list block)) : Prop :=
  match rs, Ls with
  | [], [] => True
  | r :: rs, l :: Ls => region_ok r m l /\ Forall (apart r) rs /\ lmm_ok m rs Ls
  | _, _ => False
  end.

Definition free_mem (Ls : list (list block)) (x : Z) : Prop := Exists (fun l => covers l x) Ls.
Definition enough (fuel : nat) (Ls : list (list block)) : Prop := Forall (fun l => (length l < fuel)%nat) Ls.

Lemma free_mem_cons l Ls x : free_mem (l :: Ls) x <-> covers l x \/ free_mem Ls x.
Proof. apply Exists_cons. Qed.

Lemma region_covers r m l x : region_ok r m l -> covers l x -> rmin r <= x < rmax r /\ 0 < x.
Proof. intros Hr Hx. by apply (laid_bounds _ _ _ _ (ro_laid _ _ _ Hr)). Qed.

Lemma lmm_ok_frame m m' rs : forall Ls, lmm_ok m rs Ls -> (forall x, free_mem Ls x -> m' x = m x) -> lmm_ok m' rs Ls.
Proof.
  induction rs as [|r rs IH]; intros [|l Ls] Hok Hf; try done. destruct Hok as (H1 & H2 & H3). split; [|split; [done|]].
  - apply (region_ok_frame r m); [done|]. intros x Hx. apply Hf, free_mem_cons. by left.
  - apply IH; [done|]. intros x Hx. apply Hf, free_mem_cons. by right.
Qed.

Lemma free_in_region m rs : forall Ls x, lmm_ok m rs Ls -> free_mem Ls x -> Exists (fun r => rmin r <= x < rmax r) rs.
Proof.
  induction rs as [|r rs IH]; intros [|l Ls] x Hok Hx; try done; [by inversion Hx|]. destruct Hok as (H1 & _ & H3). apply free_mem_cons in Hx as [Hx|Hx].
  - apply Exists_cons_hd. by apply (region_covers r m l).
  - apply Exists_cons_tl. by apply (IH Ls).
Qed.

(** The free memory of the other regions is outside of this one. *)
Lemma others_outside m r rs Ls x : Forall (apart r) rs -> lmm_ok m rs Ls -> free_mem Ls x -> ~ (rmin r <= x < rmax r).
Proof.
  intros Ha Hok Hx Hr. apply (free_in_region m rs Ls x Hok) in Hx. apply Exists_exists in Hx as (r' & Hin & Hx).
  rewrite Forall_forall in Ha. destruct (Ha r' Hin); lia.
Qed.

Lemma apart_same r r' s s' : same_region r r' -> same_region s s' -> apart r s -> apart r' s'.
Proof. unfold same_region, apart. intros -> ->. done. Qed.

Lemma apart_all r r' rs rs' : same_region r r' -> Forall2 same_region rs rs' -> Forall (apart r) rs -> Forall (apart r') rs'.
Proof.
  intros Hr Hf. induction Hf as [|s s' rs rs' Hs _ IH]; [done|]. intros Hd. inversion_clear Hd as [|? ? H1 H2]. constructor; [by apply (apart_same r r' s s')|by apply IH].
Qed.

Lemma same_regions_refl rs : Forall2 same_region rs rs.
Proof. induction rs; constructor; [apply same_region_refl|done]. Qed.

(** The first region of a list changes. *)
Lemma head_step m m' r r' l l' rs Ls : region_ok r m l -> Forall (apart r) rs -> lmm_ok m rs Ls -> region_ok r' m' l' -> same_region r r' ->
  (forall x, ~ (rmin r <= x < rmax r) -> m' x = m x) -> lmm_ok m' (r' :: rs) (l' :: Ls).
Proof.
  intros H1 H2 H3 H4 H5 Hf. split; [done|]. split; [by apply (apart_all r r' rs rs); [|apply same_regions_refl|]|].
  apply (lmm_ok_frame m); [done|]. intros x Hx. apply Hf. by apply (others_outside m r rs Ls).
Qed.

(** The rest of a list changes. *)
Lemma tail_step m m' r l rs rs' Ls Ls' : region_ok r m l -> Forall (apart r) rs -> lmm_ok m rs Ls -> lmm_ok m' rs' Ls' -> Forall2 same_region rs rs' ->
  (forall x, (rmin r <= x < rmax r) -> m' x = m x) -> lmm_ok m' (r :: rs') (l :: Ls').
Proof.
  intros H1 H2 H3 H4 H5 Hf. split; [|split; [by apply (apart_all r r rs rs'); [apply same_region_refl|..]|done]].
  apply (region_ok_frame r m); [done|]. intros x Hx. apply Hf. by apply (region_covers r m l).
Qed.

(** The memory that a block of [n] bytes at [p] takes up: from [blk p] on, [len p n] bytes. *)
Definition blk (p : Z) : Z := trunc p.
Definition len (p n : Z) : Z := round (w32 (Z.land p ALIGN_MASK + n)).
Definition within (p n x : Z) : Prop := blk p <= x < blk p + len p n.

(** The block has been taken out of the free bytes [F]. *)
Record took (p n : Z) (F F' : Z -> Prop) : Prop := {
  tk_pos : 0 < p < 2 ^ 32 /\ 0 < blk p /\ 0 < len p n;
  tk_free : forall x, within p n x -> F x;
  tk_rest : forall x, F' x <-> F x /\ ~ within p n x }.

(** The block is in the region. *)
Definition holds (p n : Z) (r : region) : Prop := rmin r <= blk p /\ blk p + len p n <= rmax r.

(** What the search through a region, and through all of them, may end in: [fails]
    holds and nothing has changed, or a block has been taken. *)
Definition region_post (fails : region -> list block -> Prop) (good : Z -> Prop) (n : Z) (r : region) (l : list block) (m : Z -> Z) (res : res (option Z * rst)) : Prop :=
  (res = Ok (None, mk_rst r m) /\ fails r l) \/
  exists p r' m' l', res = Ok (Some p, mk_rst r' m') /\ region_ok r' m' l' /\ same_region r r' /\ good p /\ took p n (covers l) (covers l') /\
    forall x, ~ covers l x -> m' x = m x.

Definition search_post (fails : region -> list block -> Prop) (good : Z -> Prop) (n : Z) (rs : list region) (Ls : list (list block)) (m : Z -> Z)
    (res : res ((option Z * list region) * (Z -> Z))) : Prop :=
  (res = Ok ((None, rs), m) /\ Forall2 fails rs Ls) \/
  exists p rs' m' Ls', res = Ok ((Some p, rs'), m') /\ lmm_ok m' rs' Ls' /\ Forall2 same_region rs rs' /\ good p /\ took p n (free_mem Ls) (free_mem Ls') /\
    Exists (holds p n) rs /\ forall x, ~ free_mem Ls x -> m' x = m x.

Lemma search_skip skip loop fails good n r l rs Ls m : region_ok r m l -> Forall (apart r) rs -> lmm_ok m rs Ls -> fails r l ->
  search_post fails good n rs Ls m (search_regions skip loop rs m) ->
  search_post fails good n (r :: rs) (l :: Ls) m (('(p, rs0) ← search_regions skip loop rs; mret (p, r :: rs0)) m).
Proof.
  intros H1 H2 H3 Hf [[R K]|(p & rs' & m' & Ls' & R & K1 & K2 & K3 & [T1 T2 T3] & K4 & K5)]; rewrite (bind_ok _ _ _ _ _ R); [left; split; [done|]; by constructor|right].
  assert (Hout : forall x, free_mem Ls x -> ~ (rmin r <= x < rmax r)) by (intros x; by apply (others_outside m r rs)).
  exists p, (r :: rs'), m', (l :: Ls'). split; [done|]. split; [|split; [|split; [done|split; [split|split; [by apply Exists_cons_tl|]]]]].
  - apply (tail_step m m' r l rs rs' Ls Ls'); try done. intros x Hx. apply K5. intros Hx'. by apply (Hout x).
  - constructor; [apply same_region_refl|done].
  - done.
  - intros x Hx. apply free_mem_cons. right. by apply T2.
  - intros x. rewrite !free_mem_cons, T3. assert (D : covers l x -> ~ within p n x); [|tauto].
    intros Hx Hc. apply (Hout x (T2 x Hc)). by apply (region_covers r m l).
  - intros x Hx. apply K5. rewrite free_mem_cons in Hx. tauto.
Qed.

Lemma search_regions_ok skip loop (fails : region -> list block -> Prop) good n rs : forall Ls m, lmm_ok m rs Ls -> (forall r l, skip r = true -> fails r l) ->
  (forall r l, r ∈ rs -> l ∈ Ls -> region_ok r m l -> skip r = false -> region_post fails good n r l m (loop (mk_rst r m))) ->
  search_post fails good n rs Ls m (search_regions skip loop rs m).
Proof.
  induction rs as [|r rs IH]; intros [|l Ls] m Hok Hskip Hloop; try done; [left; by split|]. destruct Hok as (H1 & H2 & H3).
  specialize (IH Ls m H3 Hskip ltac:(intros; apply Hloop; [set_solver|set_solver|done..])).
  cbn [search_regions]. rewrite (check_region_ok r m l H1). rewrite (bind_ok (assert_ true) _ m tt m eq_refl). destruct (skip r) eqn:Es.
  - rewrite (bind_ok _ _ _ (None, r) m eq_refl). by apply search_skip; auto.
  - destruct (Hloop r l ltac:(set_solver) ltac:(set_solver) H1 Es) as [[R K]|(p & r' & m' & l' & R & K1 & K2 & K3 & [T1 T2 T3] & K5)].
    + rewrite (bind_ok _ _ _ (None, r) m) by (unfold in_region; by rewrite R). by apply search_skip.
    + right. rewrite (bind_ok _ _ _ (Some p, r') m') by (unfold in_region; by rewrite R). exists p, (r' :: rs), m', (l' :: Ls). split; [done|].
      assert (Hcov : forall x, covers l x -> rmin r <= x < rmax r) by (intros x Hx; by apply (region_covers r m l)).
      split; [|split; [|split; [done|split; [split|split]]]].
      * apply (head_step m m' r r' l); try done. intros x Hx. apply K5. intros Hc. by apply Hx, Hcov.
      * constructor; [done|apply same_regions_refl].
      * done.
      * intros x Hx. apply free_mem_cons. left. by apply T2.
      * intros x. rewrite !free_mem_cons, T3. assert (D : free_mem Ls x -> ~ within p n x); [|tauto].
        intros Hx Hc. apply (others_outside m r rs Ls x H2 H3 Hx). by apply Hcov, T2.
      * apply Exists_cons_hd. pose proof (Hcov (blk p) (T2 (blk p) ltac:(unfold within; lia))). pose proof (Hcov (blk p + len p n - 1) (T2 (blk p + len p n - 1) ltac:(unfold within; lia))). unfold holds. lia.
      * intros x Hx. apply K5. rewrite free_mem_cons in Hx. tauto.
Qed.

(** ** [lmm_alloc] *)

Lemma len_aligned p n : p mod 8 = 0 -> 0 <= n < 2 ^ 32 -> len p n = round n.
Proof. intros Hp Hn. unfold len. rewrite land_7, Hp, Z.add_0_l, w32_small by done. done. Qed.

Lemma alloc_region_ok fuel n r l m : region_ok r m l -> (length l < fuel)%nat -> 0 < n <= 2 ^ 32 - 8 ->
  region_post (fun _ l => Forall (fun b => snd b < round n) l) (fun p => p mod 8 = 0) n r l m (alloc_loop fuel (round n) None (mk_rst r m)).
Proof.
  intros Hr Hfu Hn. destruct (round_spec n ltac:(lia)) as [Hrn Hr8]. change None with (loc []).
  destruct (alloc_loop_ok r m (round n) l [] fuel Hr Hfu ltac:(lia) Hr8) as [[F R]|(la & a & s & lb & r' & m' & El & Hs & R & K1 & K2 & K3)]; [by left|right]. simpl in El, K3.
  pose proof (ro_laid _ _ _ Hr) as Hl. pose proof (ro_bounds _ _ _ Hr) as Hb. rewrite El in Hl. apply laid_app in Hl as [L1 (? & ? & ? & Ha8 & ? & ? & L2)].
  exists a, r', m', (la ++ cut a s (round n) ++ lb). split; [exact R|]. split; [exact K1|]. split; [done|]. split; [done|]. split; [|done].
  assert (Ew : forall x, within a n x <-> a <= x < a + round n) by (intros x; unfold within, blk; rewrite trunc_aligned, len_aligned by (done || lia); done).
  split.
  - unfold blk. rewrite trunc_aligned, len_aligned by (done || lia). lia.
  - intros x Hx%Ew. rewrite El, covers_app, covers_cons. lia.
  - intros x. rewrite Ew, El, !covers_app, covers_cons, covers_cut by lia.
    assert (D1 : covers la x -> ~ (a <= x < a + round n)) by (intros Hx; pose proof (laid_after _ _ _ _ L1 Hx); lia).
    assert (D2 : covers lb x -> ~ (a <= x < a + round n)) by (intros Hx; pose proof (laid_bounds _ _ _ _ L2 Hx); lia). tauto.
Qed.

(** ** [lmm_free] *)

Definition first_at_least (node : Z) (l : list block) : Prop := match l with [] => True | (b, _) :: _ => 0 < b /\ node <= b end.

Lemma free_find_ok r m node l2 : forall la p fuel prev, seg m p (la ++ l2) 0 -> Forall (fun b => 0 < fst b < node) la -> first_at_least node l2 -> (length la < fuel)%nat ->
  exists q, seg m p la q /\ seg m q l2 0 /\ free_find fuel node prev p (mk_rst r m) = Ok ((default prev (loc la), q), mk_rst r m).
Proof.
  induction la as [|[a s] la IH]; intros p fuel prev Hs Hl H2 Hfu; (destruct fuel as [|fuel]; [simpl in Hfu; lia|]); cbn [free_find].
  - exists p. split; [done|]. split; [done|]. destruct l2 as [|[b t] l2]; simpl in Hs, H2.
    + by rewrite Hs.
    + destruct Hs as (-> & _). rewrite (proj2 (Z.ltb_ge b node)) by lia. by rewrite andb_false_r.
  - destruct Hs as (-> & Es & Hs). inversion_clear Hl as [|? ? Ha Hl']. simpl in Ha. rewrite (proj2 (Z.eqb_neq a 0)), (proj2 (Z.ltb_lt a node)) by lia. simpl.
    destruct (IH (word_of m a) fuel a Hs Hl' H2 ltac:(simpl in Hfu; lia)) as (q & S1 & S2 & R). exists q. split; [done|]. split; [done|].
    erewrite bind_ok by reflexivity. cbn [mem]. rewrite R. do 3 f_equal. unfold loc. rewrite list.last_cons. by destruct (list.last la) as [[? ?]|].
Qed.

Lemma split_at node l : forall lo hi, laid lo hi l -> exists l1 l2, l = l1 ++ l2 /\ Forall (fun b => 0 < fst b < node) l1 /\ first_at_least node l2.
Proof.
  induction l as [|[a s] l IH]; intros lo hi Hl; [by exists [], []|]. destruct Hl as (? & ? & ? & ? & ? & ? & Hl). destruct (Z.lt_ge_cases a node).
  - destruct (IH _ _ Hl) as (l1 & l2 & -> & F1 & F2). exists ((a, s) :: l1), l2. split; [done|]. split; [|done]. constructor; [simpl; lia|done].
  - exists [], ((a, s) :: l). split; [done|]. split; [constructor|]. simpl. lia.
Qed.

Lemma seg_build m p l1 a s q l2 : seg m p l1 a -> word_of m (a + 4) = s -> word_of m a = q -> seg m q l2 0 -> seg m p (l1 ++ (a, s) :: l2) 0.
Proof. intros H1 H2 <- H3. apply seg_app. exists a. done. Qed.

(** The size and the next pointer of a node are written. *)
Definition header (m : Z -> Z) (a s q : Z) : Z -> Z := put (put m (a + 4) (word_bytes s)) a (word_bytes q).

Lemma header_ok m a s q : 0 <= s < 2 ^ 32 -> 0 <= q < 2 ^ 32 ->
  word_of (header m a s q) (a + 4) = s /\ word_of (header m a s q) a = q /\ forall x, ~ (a <= x < a + 8) -> header m a s q x = m x.
Proof.
  intros Hs Hq. unfold header. split; [rewrite word_put_out by (simpl; lia); by apply word_put|]. split; [by apply word_put|].
  intros x Hx. rewrite !put_out by (simpl; lia). done.
Qed.

(** The blocks before [node]: the last one ends at [node], or all end before it. *)
Lemma left_view lo hi l1 l2 node n : laid lo hi (l1 ++ l2) -> lo <= node -> Forall (fun b => 0 < fst b < node) l1 -> 0 < n ->
  (forall x, node <= x < node + n -> ~ covers (l1 ++ l2) x) ->
  (exists l1' a s, l1 = l1' ++ [(a, s)] /\ a + s = node) \/ after lo l1 <= node.
Proof.
  intros Hl Hlo F Hn Hd. destruct l1 as [|[a s] l1 _] using rev_ind; [right; done|]. unfold after. rewrite list.last_snoc.
  apply Forall_app in F as [_ F]. inversion_clear F as [|? ? Ha _]. simpl in Ha. assert (Hc : covers (l1 ++ [(a, s)]) node -> False).
  { intros Hx. apply (Hd node ltac:(lia)), covers_app. by left. }
  rewrite covers_app, covers_cons in Hc. destruct (Z.eq_dec (a + s) node); [left; by exists l1, a, s|right]. destruct (Z.lt_ge_cases node (a + s)); [exfalso; apply Hc; right; left; lia|lia].
Qed.

Lemma right_view lo hi l1 l2 node n : laid lo hi (l1 ++ l2) -> first_at_least node l2 -> 0 < n -> (forall x, node <= x < node + n -> ~ covers (l1 ++ l2) x) ->
  (exists t l2', l2 = (node + n, t) :: l2') \/ laid (node + n + 1) hi l2.
Proof.
  intros Hl H2 Hn Hd. destruct l2 as [|[b t] l2]; [by right|]. apply laid_app in Hl as [_ (? & ? & ? & ? & ? & ? & Hl)]. simpl in H2.
  destruct (Z.lt_trichotomy b (node + n)) as [Hlt|[->|Hgt]]; [|left; eauto|right].
  - exfalso. apply (Hd b ltac:(lia)), covers_app. right. apply covers_cons. lia.
  - simpl. repeat split; try done; lia.
Qed.

(** The list with the block [a, e) between [lp] and [lb]. *)
Lemma laid_joined lo hi lp a e lb : laid lo hi lp -> after lo lp <= a -> 0 < a < e -> a mod 8 = 0 -> (e - a) mod 8 = 0 -> e <= hi -> laid (e + 1) hi lb ->
  laid lo hi (lp ++ (a, e - a) :: lb).
Proof.
  intros H1 H2 H3 H4 H5 H6 H7. apply laid_app. split; [done|]. simpl. replace (a + (e - a) + 1) with (e + 1) by lia. repeat split; try done; lia.
Qed.

(** The blocks behind: the first one is joined when it touches.  [e] is the end of the
    new block, [lb] the blocks that stay and [nx] the pointer to them. *)
Record right_join (m : Z -> Z) (q : Z) (l2 : list block) (node n hi : Z) (lb : list block) (e nx : Z) : Prop := {
  rj_test : negb (q =? 0) && (q <=? w32 (node + n)) = negb (e =? node + n);
  rj_end : node + n <= e <= hi;
  rj_laid : laid (e + 1) hi lb;
  rj_seg : seg m nx lb 0;
  rj_covers : forall x, covers l2 x <-> covers lb x \/ node + n <= x < e;
  rj_total : total l2 = total lb + (e - (node + n));
  rj_mod : (e - (node + n)) mod 8 = 0;
  rj_nx : 0 <= nx < 2 ^ 32;
  rj_read : if e =? node + n then nx = q else q = node + n /\ word_of m (q + 4) = e - (node + n) /\ word_of m q = nx }.

Lemma touches_right m q l2 node n hi lo' : seg m q l2 0 -> laid lo' hi l2 -> node + n <= hi -> hi <= 2 ^ 32 - 8 -> 0 < node -> 0 < n ->
  ((exists t l2', l2 = (node + n, t) :: l2') \/ laid (node + n + 1) hi l2) -> exists lb e nx, right_join m q l2 node n hi lb e nx.
Proof.
  intros Hs Hl Hh Hh2 H0 Hn [(t & l2' & ->)|Hl'].
  - destruct Hs as (-> & Es & Hs), Hl as (? & ? & ? & ? & Ht & ? & Hl). exists l2', (node + n + t), (word_of m (node + n)).
    pose proof (seg_head _ _ _ _ _ Hl ltac:(lia) Hs) as Hq. split; try done.
    + rewrite w32_small by lia. replace (node + n =? 0) with false by lia. replace (node + n <=? node + n) with true by lia. by replace (node + n + t =? node + n) with false by lia.
    + lia.
    + intros x. rewrite covers_cons. tauto.
    + rewrite total_cons. lia.
    + by replace (node + n + t - (node + n)) with t by lia.
    + replace (node + n + t =? node + n) with false by lia. split; [done|]. split; [lia|done].
  - exists l2, (node + n), q. pose proof (seg_head _ _ _ _ _ Hl ltac:(lia) Hs). split; try done; rewrite ?Z.eqb_refl; try lia.
    + rewrite w32_small by lia. destruct l2 as [|[b t] l2]; simpl in Hs, Hl'; [by rewrite Hs|]. destruct Hs as (-> & _). replace (b <=? node + n) with false by lia. by rewrite andb_false_r.
    + intros x. split; [by left|intros [?|?]; [done|lia]].
    + by rewrite Z.sub_diag.
Qed.

(** What follows [node] in the list, once its header holds [e - node] and [nx]. *)
Lemma insert_block_ok r m l1 q l2 node n lo hi lb e nx : seg m (nodes r) l1 q -> laid lo hi l1 -> after lo l1 <= node -> 0 < node -> 8 <= n -> hi <= 2 ^ 32 - 8 -> 0 <= q < 2 ^ 32 ->
  right_join m q l2 node n hi lb e nx ->
  exists r' m', insert_block (default 0 (loc l1)) q node n (mk_rst r m) = Ok (tt, mk_rst r' m') /\ seg m' (nodes r') (l1 ++ (node, e - node) :: lb) 0 /\
    r' = set_nodes (nodes r') r /\ forall x, ~ covers l1 x -> ~ (node <= x < node + n) -> m' x = m x.
Proof.
  intros S1 L1 Ha H0 Hn Hh Hq [J1 J2 J3 J4 J5 J6 J7 J8 J9]. destruct (set_link_ok r m l1 q node lo hi S1 L1 ltac:(lia)) as (r' & m1 & R & S' & Er & O1).
  assert (D1 : forall x, covers l1 x -> x < node - 1) by (intros x Hx; pose proof (laid_after _ _ _ _ L1 Hx); lia).
  assert (Dlb : forall x, covers lb x -> e < x) by (intros x Hx; pose proof (laid_bounds _ _ _ _ J3 Hx); lia).
  assert (Hlink : (if negb (default 0 (loc l1) =? 0) then set_node_next (default 0 (loc l1)) node else upd_reg (set_nodes node)) (mk_rst r m) = Ok (tt, mk_rst r' m1)).
  { rewrite <- R. destruct l1 as [|[a s] l1 _] using rev_ind; [done|]. rewrite loc_snoc. simpl. apply laid_app in L1 as [_ (? & ? & _)]. by rewrite (proj2 (Z.eqb_neq a 0)) by lia. }
  set (m' := header m1 node (e - node) nx). destruct (header_ok m1 node (e - node) nx ltac:(lia) J8) as (W1 & W2 & W3). fold m' in W1, W2, W3.
  exists r', m'. split; [|split; [|split; [done|]]].
  - unfold insert_block. rewrite (bind_ok _ _ _ _ _ Hlink), J1. destruct (Z.eqb_spec e (node + n)) as [->|Hne]; cbn [negb]; cbv iota.
    + subst q. unfold set_node_size, set_node_next, store, modify. munfold. unfold m', header. by replace (node + n - node) with n by lia.
    + destruct J9 as (-> & E1 & E2).
      assert (Wq : forall b, node + n <= b -> word_of m1 b = word_of m b) by (intros b Hb; apply word_of_ext; intros x Hx; apply O1; intros Hc; specialize (D1 x Hc); lia).
      unfold node_size, node_next, set_node_size, set_node_next, store, load, gets, modify. munfold. cbn [mem reg].
      rewrite (Wq (node + n + 4)), E1 by lia. rewrite w32_small by lia. replace (n + (e - (node + n))) with (e - node) by lia.
      rewrite (word_put_out _ (node + n)) by (simpl; lia). rewrite Wq, E2 by lia. done.
  - apply (seg_build _ _ _ _ _ nx); [|exact W1|exact W2|].
    + apply (seg_frame m1 m' l1 lo hi); [done| |done]. intros x Hx. apply W3. specialize (D1 x Hx). lia.
    + apply (seg_frame m m' lb (e + 1) hi); [done| |done]. intros x Hx. specialize (Dlb x Hx). rewrite W3 by lia. apply O1. intros Hc. specialize (D1 x Hc). lia.
  - intros x Hx Hx'. rewrite W3 by lia. by apply O1.
Qed.

Lemma extend_block_ok r m l1 a s q l2 node n lo hi lb e nx : seg m (nodes r) (l1 ++ [(a, s)]) q -> laid lo hi (l1 ++ [(a, s)]) -> a + s = node -> 0 < n -> hi <= 2 ^ 32 - 8 -> 0 <= q < 2 ^ 32 ->
  right_join m q l2 node n hi lb e nx ->
  exists m', extend_block a s q node n (mk_rst r m) = Ok (tt, mk_rst r m') /\ seg m' (nodes r) (l1 ++ (a, e - a) :: lb) 0 /\
    forall x, ~ (a <= x < a + s) -> m' x = m x.
Proof.
  intros S1 L1 Ha Hn Hh Hq [J1 J2 J3 J4 J5 J6 J7 J8 J9]. apply laid_app in L1 as [L1 (? & ? & ? & ? & Hs8 & ? & _)]. apply seg_app in S1 as (p & S1 & -> & Es & Eq).
  apply mod8 in Hs8 as [k ->]. assert (D1 : forall x, covers l1 x -> x < a) by (intros x Hx; pose proof (laid_after _ _ _ _ L1 Hx); lia).
  assert (Dlb : forall x, covers lb x -> e < x) by (intros x Hx; pose proof (laid_bounds _ _ _ _ J3 Hx); lia).
  assert (Build : forall m', word_of m' (a + 4) = e - a -> word_of m' a = nx -> (forall x, ~ (a <= x < a + 8) -> m' x = m x) -> seg m' (nodes r) (l1 ++ (a, e - a) :: lb) 0).
  { intros m' W1 W2 W3. apply (seg_build _ _ _ _ _ nx); [|exact W1|exact W2|].
    - apply (seg_frame m m' l1 lo hi); [done| |done]. intros x Hx. apply W3. specialize (D1 x Hx). lia.
    - apply (seg_frame m m' lb (e + 1) hi); [done| |done]. intros x Hx. specialize (Dlb x Hx). apply W3. lia. }
  unfold extend_block. rewrite J1. simpl in Eq. destruct (Z.eqb_spec e (node + n)) as [->|Hne]; cbn [negb]; cbv iota.
  - exists (put m (a + 4) (word_bytes (w32 (8 * k + n)))). rewrite w32_small by lia. split; [done|]. split.
    + apply Build; [rewrite word_put by lia; lia|rewrite word_put_out by (simpl; lia); congruence|]. intros x Hx. apply put_out. simpl. lia.
    + intros x Hx. apply put_out. simpl. lia.
  - destruct J9 as (-> & E1 & E2). destruct (header_ok m a (e - a) nx ltac:(lia) J8) as (W1 & W2 & W3). exists (header m a (e - a) nx). split; [|split; [by apply Build|]].
    + rewrite (w32_small (node + n)), Z.eqb_refl by lia. unfold assert_, node_size, node_next, set_node_size, set_node_next, store, load, gets, modify. munfold. cbn [mem reg].
      rewrite E1. rewrite (w32_small (n + (e - (node + n)))), w32_small by lia. replace (8 * k + (n + (e - (node + n)))) with (e - a) by lia.
      rewrite (word_put_out _ (node + n)) by (simpl; lia). rewrite E2. done.
    + intros x Hx. apply W3. lia.
Qed.

(** The block [node, node + n) has become free. *)
Definition gave (node n : Z) (F F' : Z -> Prop) : Prop := forall x, F' x <-> F x \/ node <= x < node + n.

(** The beginning of [free_block], up to the two ways to put the block in. *)
Lemma free_block_start fuel r m l1 l2 q node n : region_ok r m (l1 ++ l2) -> Forall (fun b => 0 < fst b < node) l1 -> first_at_least node l2 -> (length l1 < fuel)%nat ->
  0 <= free r + n <= rmax r - rmin r -> seg m (nodes r) l1 q -> seg m q l2 0 ->
  let r1 := set_free (free r + n) r in let prev := default 0 (loc l1) in
  free_block fuel node n (mk_rst r m) =
    (psz ← (if prev =? 0 then mret 0 else node_size prev);
     if negb (prev =? 0) && (node <=? w32 (prev + psz)) then assert_ (w32 (prev + psz) =? node);; extend_block prev psz q node n else insert_block prev q node n) (mk_rst r1 m).
Proof.
  intros Hr F1 F2 Hfu Hf S1 S2 r1 prev. pose proof (ro_bounds _ _ _ Hr). unfold free_block. do 2 (erewrite bind_ok by reflexivity). cbn [reg mem]. rewrite (w32_small (free r + n)) by lia.
  erewrite bind_ok by reflexivity. fold r1. cbn [reg].
  rewrite (bind_ok (assert_ _) _ _ tt (mk_rst r1 m)) by (cbn [r1 free set_free rmax rmin]; rewrite w32_small, (proj2 (Z.leb_le _ _)) by lia; done).
  destruct (free_find_ok r1 m node l2 l1 (nodes r) fuel 0 (ro_seg _ _ _ Hr) F1 F2 Hfu) as (q' & S1' & _ & R).
  assert (E : q' = q). { pose proof (get_link_ok r m l1 q S1) as G1. pose proof (get_link_ok r m l1 q' S1') as G2. congruence. } subst q'.
  rewrite (bind_ok _ _ _ _ _ R). done.
Qed.

Lemma free_block_ok fuel r m l node n : region_ok r m l -> (length l < fuel)%nat -> node mod 8 = 0 -> n mod 8 = 0 -> 0 < node -> 0 < n -> rmin r <= node -> node + n <= rmax r ->
  (forall x, node <= x < node + n -> ~ covers l x) ->
  exists r' m' l', free_block fuel node n (mk_rst r m) = Ok (tt, mk_rst r' m') /\ region_ok r' m' l' /\ same_region r r' /\ gave node n (covers l) (covers l') /\
    forall x, ~ covers l x -> ~ (node <= x < node + n) -> m' x = m x.
Proof.
  intros Hr Hfu Hn8 Hs8 H0 Hn Hmin Hmax Hd. pose proof (ro_laid _ _ _ Hr) as Hl. pose proof (ro_bounds _ _ _ Hr) as Hb. destruct (split_at node l _ _ Hl) as (l1 & l2 & -> & F1 & F2).
  pose proof (ro_seg _ _ _ Hr) as Hs. apply seg_app in Hs as (q & S1 & S2). pose proof Hl as Hl'. apply laid_app in Hl' as [L1 L2].
  pose proof (seg_head _ _ _ _ _ L2 ltac:(lia) S2) as Hq. rewrite length_app in Hfu.
  destruct (touches_right m q l2 node n (rmax r) _ S2 L2 Hmax ltac:(lia) H0 Hn (right_view _ _ _ _ _ _ Hl F2 Hn Hd)) as (lb & e & nx & J). pose proof J as [_ J2 J3 _ J5 J6 J7 _ _].
  assert (Fin : forall lp a r' m', laid (rmin r) (rmax r) lp -> after (rmin r) lp <= a -> 0 < a <= node -> a mod 8 = 0 -> total l1 = total lp + (node - a) ->
    (forall x, covers l1 x <-> covers lp x \/ a <= x < node) -> (0 <= free r + n <= rmax r - rmin r -> free_block fuel node n (mk_rst r m) = Ok (tt, mk_rst r' m')) ->
    seg m' (nodes r') (lp ++ (a, e - a) :: lb) 0 -> r' = set_free (free r + n) (set_nodes (nodes r') r) -> (forall x, ~ covers l1 x -> ~ (node <= x < node + n) -> m' x = m x) ->
    exists r' m' l', free_block fuel node n (mk_rst r m) = Ok (tt, mk_rst r' m') /\ region_ok r' m' l' /\ same_region r r' /\ gave node n (covers (l1 ++ l2)) (covers l') /\
      forall x, ~ covers (l1 ++ l2) x -> ~ (node <= x < node + n) -> m' x = m x).
  { intros lp a r' m' Lp Ha Ha0 Ha8 Htot Hcov Hrun Hseg Er Ho.
    assert (Ll : laid (rmin r) (rmax r) (lp ++ (a, e - a) :: lb)).
    { apply laid_joined; try done; try lia. apply mod8 in Hn8 as [k1 ->], Hs8 as [k2 ->], Ha8 as [k3 ->], J7 as [k4 E4]. replace (e - 8 * k3) with (8 * (k4 + k1 + k2 - k3)) by lia. rewrite Z.mul_comm. apply Z.mod_mul. lia. }
    assert (Et : total (lp ++ (a, e - a) :: lb) = free r + n) by (rewrite (ro_free _ _ _ Hr), !total_app, total_cons, J6; lia).
    pose proof (total_bounds _ (rmin r) (rmax r) ltac:(lia) Ll) as Hb'. rewrite Et in Hb'. exists r', m', (lp ++ (a, e - a) :: lb). split; [by apply Hrun|].
    assert (Es : rmin r' = rmin r /\ rmax r' = rmax r /\ free r' = free r + n) by (by rewrite Er). destruct Es as (E1 & E2 & E3). split; [|split; [|split]].
    - split; rewrite ?E1, ?E2; try done; [congruence|apply Hr].
    - rewrite Er. done.
    - intros x. rewrite !covers_app, covers_cons, Hcov, J5. replace (a + (e - a)) with e by lia. assert (a <= x < e <-> a <= x < node \/ node <= x < node + n \/ node + n <= x < e) by lia. tauto.
    - intros x Hx. rewrite covers_app in Hx. apply Ho. tauto. }
  assert (Hn8' : 8 <= n) by (apply mod8 in Hs8 as [k ->]; lia).
  destruct (left_view _ _ _ _ _ _ Hl Hmin F1 Hn Hd) as [(l1' & a & s & El1 & Has)|Hgap].
  - rewrite El1 in S1, L1. destruct (extend_block_ok (set_free (free r + n) r) m l1' a s q l2 node n _ _ lb e nx S1 L1 Has Hn ltac:(lia) Hq J) as (m' & R & S' & O').
    apply laid_app in L1 as [L1' (? & ? & ? & ? & ? & ? & _)]. apply seg_app in S1 as (p & S1 & -> & Es & Eq).
    apply (Fin l1' a (set_free (free r + n) r) m'); try done; try lia.
    + rewrite El1, total_app, total_cons. change (total []) with 0. lia.
    + intros x. rewrite El1, covers_app, covers_cons. pose proof (covers_nil x). replace (a + s) with node by lia. tauto.
    + intros Hf. rewrite (free_block_start fuel r m l1 l2 q node n Hr F1 F2 ltac:(lia) Hf); [|rewrite El1; apply seg_app; by exists a|done].
      rewrite El1, loc_snoc. change (default 0 (Some a)) with a. rewrite (proj2 (Z.eqb_neq a 0)) by lia. cbn [negb andb].
      rewrite (bind_ok _ _ _ s (mk_rst (set_free (free r + n) r) m)) by (unfold node_size, load, gets; cbn [mem]; by rewrite Es).
      rewrite w32_small, Has, Z.leb_refl, Z.eqb_refl by lia. rewrite (bind_ok (assert_ true) _ _ tt _ eq_refl). exact R.
    + intros x Hx _. apply O'. intros Hx'. apply Hx. rewrite El1, covers_app, covers_cons. lia.
  - destruct (insert_block_ok (set_free (free r + n) r) m l1 q l2 node n _ _ lb e nx S1 L1 Hgap H0 Hn8' ltac:(lia) Hq J) as (r' & m' & R & S' & Er & O').
    apply (Fin l1 node r' m'); try done; try lia.
    + intros x. split; [by left|intros [?|?]; [done|lia]].
    + intros Hf. rewrite (free_block_start fuel r m l1 l2 q node n Hr F1 F2 ltac:(lia) Hf S1 S2). rewrite <- R.
      destruct l1 as [|[a s] l1 _] using rev_ind; [done|]. rewrite loc_snoc. change (default 0 (Some a)) with a. apply laid_app in L1 as [L1' (? & ? & ? & ? & ? & ? & _)]. apply seg_app in S1 as (p & S1 & -> & Es & Eq).
      rewrite (proj2 (Z.eqb_neq a 0)) by lia. cbn [negb andb]. unfold after in Hgap. rewrite list.last_snoc in Hgap.
      rewrite (bind_ok _ _ _ s (mk_rst (set_free (free r + n) r) m)) by (unfold node_size, load, gets; cbn [mem]; by rewrite Es).
      rewrite w32_small, (proj2 (Z.leb_gt node (a + s))) by lia. done.
Qed.

Lemma free_regions_ok fuel node n rs : forall m Ls, lmm_ok m rs Ls -> enough fuel Ls -> node mod 8 = 0 -> n mod 8 = 0 -> 0 < node -> 0 < n ->
  Exists (fun r => rmin r <= node /\ node + n <= rmax r) rs -> (forall x, node <= x < node + n -> ~ free_mem Ls x) ->
  exists rs' m' Ls', free_regions fuel node n rs m = Ok ((tt, rs'), m') /\ lmm_ok m' rs' Ls' /\ Forall2 same_region rs rs' /\ gave node n (free_mem Ls) (free_mem Ls') /\
    forall x, ~ free_mem Ls x -> ~ (node <= x < node + n) -> m' x = m x.
Proof.
  induction rs as [|r rs IH]; intros m [|l Ls] Hok Hfu Hn8 Hs8 H0 Hn Hin Hd; try done; [by inversion Hin|]. destruct Hok as (H1 & H2 & H3). inversion_clear Hfu as [|? ? Hf1 Hf2].
  cbn [free_regions]. pose proof (check_region_ok r m l H1) as Hc. unfold check_region in Hc. apply andb_true_iff in Hc as [Hc _]. apply andb_true_iff in Hc as [Hc _]. rewrite Hc.
  rewrite (bind_ok (assert_ true) _ _ tt _ eq_refl). pose proof (ro_bounds _ _ _ H1) as Hb.
  assert (Hcase : (rmin r <= node /\ node + n <= rmax r) \/ ~ (rmin r <= node < rmax r) /\ Exists (fun r => rmin r <= node /\ node + n <= rmax r) rs).
  { inversion_clear Hin as [? ? Hh|? ? Ht]; [by left|right]. split; [|done]. apply Exists_exists in Ht as (r' & Hr' & ? & ?). rewrite Forall_forall in H2. destruct (H2 r' Hr'); lia. }
  destruct Hcase as [Hhere|[Hnot Ht]].
  - replace ((rmin r <=? node) && (node <? rmax r)) with true by lia.
    destruct (free_block_ok fuel r m l node n H1 Hf1 Hn8 Hs8 H0 Hn ltac:(lia) ltac:(lia)) as (r' & m' & l' & R & K1 & K2 & K3 & K4).
    { intros x Hx Hc'. apply (Hd x Hx), free_mem_cons. by left. }
    exists (r' :: rs), m', (l' :: Ls). rewrite (bind_ok _ _ _ (tt, r') m') by (unfold in_region; by rewrite R). split; [done|]. split; [|split; [|split]].
    + apply (head_step m m' r r' l); try done. intros x Hx. apply K4; [|lia]. intros Hc'. by apply Hx, (region_covers r m l).
    + constructor; [done|apply same_regions_refl].
    + intros x. rewrite !free_mem_cons, (K3 x). tauto.
    + intros x Hx. rewrite free_mem_cons in Hx. apply K4. tauto.
  - replace ((rmin r <=? node) && (node <? rmax r)) with false by lia.
    destruct (IH m Ls H3 Hf2 Hn8 Hs8 H0 Hn Ht) as (rs' & m' & Ls' & R & K1 & K2 & K3 & K4).
    { intros x Hx Hc'. apply (Hd x Hx), free_mem_cons. by right. }
    exists (r :: rs'), m', (l :: Ls'). rewrite (bind_ok _ _ _ _ _ R). split; [done|]. split; [|split; [|split]].
    + apply (tail_step m m' r l rs rs' Ls Ls'); try done. intros x Hx. apply K4.
      * intros Hf. by apply (others_outside m r rs Ls x).
      * intros Hx'. apply Exists_exists in Ht as (r' & Hr' & ? & ?). rewrite Forall_forall in H2. destruct (H2 r' Hr'); lia.
    + constructor; [apply same_region_refl|done].
    + intros x. rewrite !free_mem_cons, (K3 x). tauto.
    + intros x Hx. rewrite free_mem_cons in Hx. apply K4. tauto.
Qed.

(** ** The operations of an lmm *)

Definition lmm_rep (s : lmm) (Ls : list (list block)) : Prop := lmm_ok (lmem s) (regions s) Ls.

(** Blocks that fit nowhere: the regions that have the flags have none as long. *)
Definition none_as_long (fl n : Z) (r : region) (l : list block) : Prop := lacks fl r = true \/ Forall (fun b => snd b < round n) l.

(** What the end of an allocation looks like; [q] is the pointer that is returned. *)
Definition alloc_post (fails : region -> list block -> Prop) (good : Z -> Prop) (n : Z) (s : lmm) (Ls : list (list block)) (q : Z) (s' : lmm) : Prop :=
  (q = 0 /\ s' = s /\ Forall2 fails (regions s) Ls) \/
  exists Ls', q <> 0 /\ good q /\ lmm_rep s' Ls' /\ Forall2 same_region (regions s) (regions s') /\ took q n (free_mem Ls) (free_mem Ls') /\ Exists (holds q n) (regions s) /\
    forall x, ~ free_mem Ls x -> lmem s' x = lmem s x.

Lemma on_search fails good n skip loop s Ls : search_post fails good n (regions s) Ls (lmem s) (search_regions skip loop (regions s) (lmem s)) ->
  exists q s', (p ← on_regions (search_regions skip loop); mret (default 0 p)) s = Ok (q, s') /\ alloc_post fails good n s Ls q s'.
Proof.
  intros [[R K]|(p & rs' & m' & Ls' & R & K1 & K2 & K3 & K4 & K5 & K6)].
  - exists 0, s. split; [|by left]. rewrite (bind_ok _ _ _ None s); [done|]. unfold on_regions. rewrite R. by destruct s.
  - exists p, (mk_lmm rs' m'). rewrite (bind_ok _ _ _ (Some p) (mk_lmm rs' m')) by (unfold on_regions; by rewrite R). split; [done|]. right. exists Ls'.
    destruct (tk_pos _ _ _ _ K4). split; [lia|done].
Qed.

Lemma lmm_alloc_run fuel n fl s Ls : lmm_rep s Ls -> enough fuel Ls -> 0 < n <= 2 ^ 32 - 8 ->
  exists q s', lmm_alloc fuel n fl s = Ok (q, s') /\ alloc_post (none_as_long fl n) (fun p => p mod 8 = 0) n s Ls q s'.
Proof.
  intros Hr Hfu Hn. unfold lmm_alloc. rewrite (bind_ok (assert_ _) _ _ tt s) by (rewrite (proj2 (Z.ltb_lt 0 n)) by lia; done).
  apply on_search, search_regions_ok; [done|by left|]. intros r l _ Hl Hok _. unfold enough in Hfu. rewrite Forall_forall in Hfu.
  destruct (alloc_region_ok fuel n r l (lmem s) Hok (Hfu l (proj1 (list_elem_of_In Ls l) Hl)) Hn) as [[R K]|K]; [left|by right]. split; [done|]. by right.
Qed.

Lemma len_pos p n : 0 < n -> n <= 2 ^ 32 - 16 -> n <= Z.land p ALIGN_MASK + n <= len p n /\ len p n mod 8 = 0.
Proof.
  intros Hn Hn'. unfold len. rewrite land_7. pose proof (Z.mod_pos_bound p 8 ltac:(lia)). rewrite w32_small by lia. destruct (round_spec (p mod 8 + n) ltac:(lia)). lia.
Qed.

Lemma blk_aligned p : 0 <= p < 2 ^ 32 -> blk p mod 8 = 0 /\ blk p <= p < blk p + 8.
Proof.
  intros Hp. unfold blk. rewrite trunc_eq by done. pose proof (Z.div_mod p 8 ltac:(lia)). pose proof (Z.mod_pos_bound p 8 ltac:(lia)). split; [rewrite Z.mul_comm; apply Z.mod_mul|]; lia.
Qed.

Lemma lmm_free_run fuel p n s Ls : lmm_rep s Ls -> enough fuel Ls -> 0 < p < 2 ^ 32 -> 0 < n <= 2 ^ 32 - 16 -> 0 < blk p -> Exists (holds p n) (regions s) ->
  (forall x, within p n x -> ~ free_mem Ls x) ->
  exists s' Ls', lmm_free fuel p n s = Ok (tt, s') /\ lmm_rep s' Ls' /\ Forall2 same_region (regions s) (regions s') /\ gave (blk p) (len p n) (free_mem Ls) (free_mem Ls') /\
    forall x, ~ free_mem Ls x -> ~ within p n x -> lmem s' x = lmem s x.
Proof.
  intros Hr Hfu Hp Hn Hb Hin Hd. destruct (len_pos p n ltac:(lia) ltac:(lia)) as [Hl Hl8]. destruct (blk_aligned p ltac:(lia)) as [Hb8 _]. pose proof (Z.mod_pos_bound p 8 ltac:(lia)). rewrite land_7 in Hl.
  destruct (free_regions_ok fuel (blk p) (len p n) (regions s) (lmem s) Ls Hr Hfu Hb8 Hl8 Hb ltac:(lia) Hin Hd) as (rs' & m' & Ls' & R & K1 & K2 & K3 & K4).
  exists (mk_lmm rs' m'), Ls'. split; [|done]. unfold lmm_free. rewrite (proj2 (Z.eqb_neq p 0)), (proj2 (Z.ltb_lt 0 n)) by lia. do 2 (rewrite (bind_ok (assert_ true) _ _ tt _ eq_refl)).
  unfold on_regions. fold (blk p). fold (len p n). by rewrite R.
Qed.

(** ** [lmm_alloc_gen] *)

(** The least address from [x] on that agrees with [ofs] in the low [b] bits. *)
Definition least (b ofs x : Z) : Z := x + (ofs - x) mod 2 ^ b.

Lemma least_spec b ofs x : 0 <= b -> x <= least b ofs x < x + 2 ^ b /\ (least b ofs x - ofs) mod 2 ^ b = 0.
Proof.
  intros Hb. unfold least. pose proof (Z.pow_pos_nonneg 2 b ltac:(lia) Hb). pose proof (Z.mod_pos_bound (ofs - x) (2 ^ b) ltac:(lia)). split; [lia|].
  replace (x + (ofs - x) mod 2 ^ b - ofs) with ((ofs - x) mod 2 ^ b - (ofs - x)) by lia. rewrite Zminus_mod_idemp_l, Z.sub_diag. apply Z.mod_0_l. lia.
Qed.

Lemma least_min b ofs x z : 0 <= b -> x <= z -> (z - ofs) mod 2 ^ b = 0 -> least b ofs x <= z.
Proof.
  intros Hb Hz Hm. destruct (least_spec b ofs x Hb) as [H1 H2]. pose proof (Z.pow_pos_nonneg 2 b ltac:(lia) Hb).
  apply Z.mod_divide in Hm as [k1 E1]; [|lia]. apply Z.mod_divide in H2 as [k2 E2]; [|lia]. assert (k2 <= k1); [|nia].
  destruct (Z.le_gt_cases k2 k1); [done|]. exfalso. assert (k1 + 1 <= k2) by lia. nia.
Qed.

Lemma least_unique b ofs x z : 0 <= b -> x <= z < x + 2 ^ b -> (z - ofs) mod 2 ^ b = 0 -> z = least b ofs x.
Proof.
  intros Hb Hz Hm. destruct (least_spec b ofs x Hb) as [H1 H2]. pose proof (Z.pow_pos_nonneg 2 b ltac:(lia) Hb).
  apply Z.mod_divide in Hm as [k1 E1]; [|lia]. apply Z.mod_divide in H2 as [k2 E2]; [|lia]. assert (k1 = k2); [|nia]. nia.
Qed.

Lemma land_pow2 x i : 0 <= i -> (Z.land x (2 ^ i) =? 0) = negb (Z.testbit x i).
Proof.
  intros Hi. destruct (Z.testbit x i) eqn:E; simpl.
  - apply Z.eqb_neq. intros H. assert (Z.testbit (Z.land x (2 ^ i)) i = true) by (rewrite Z.land_spec, E, Z.pow2_bits_true; done). by rewrite H, Z.bits_0 in *.
  - apply Z.eqb_eq, Z.bits_inj'. intros j Hj. rewrite Z.land_spec, Z.bits_0. destruct (Z.eq_dec i j) as [<-|]; [by rewrite E|]. rewrite Z.pow2_bits_false by done. apply andb_false_r.
Qed.

Lemma align_addr_eq n : forall i addr ofs, 0 <= i -> 0 <= addr -> (addr - ofs) mod 2 ^ i = 0 -> addr + 2 ^ (i + Z.of_nat n) - 2 ^ i < 2 ^ 32 ->
  align_addr n i addr ofs = least (i + Z.of_nat n) ofs addr.
Proof.
  induction n as [|n IH]; intros i addr ofs Hi Ha Hm Hb; cbn [align_addr].
  - rewrite Z.add_0_r. apply least_unique; [done| |done]. pose proof (Z.pow_pos_nonneg 2 i ltac:(lia) Hi). lia.
  - assert (P1 : 0 < 2 ^ i) by (apply Z.pow_pos_nonneg; lia). assert (P2 : 2 ^ (i + 1) = 2 * 2 ^ i) by (rewrite Z.pow_add_r by lia; lia).
    assert (P3 : 2 ^ (i + 1) <= 2 ^ (i + Z.of_nat (S n))) by (apply Z.pow_le_mono_r; lia).
    rewrite Z.shiftl_mul_pow2, Z.mul_1_l, w32_small by lia. rewrite land_pow2, negb_involutive, Z.lxor_spec by lia.
    apply Z.mod_divide in Hm as [k E]; [|lia].
    assert (Eb : xorb (Z.testbit addr i) (Z.testbit ofs i) = Z.odd k).
    { rewrite !Z.testbit_odd, !Z.shiftr_div_pow2 by done. replace addr with (ofs + k * 2 ^ i) by lia. rewrite Z.div_add by lia. rewrite Z.odd_add. by destruct (Z.odd (ofs / 2 ^ i)), (Z.odd k). }
    rewrite Eb. replace (i + Z.of_nat (S n)) with (i + 1 + Z.of_nat n) in * by lia.
    set (addr' := if Z.odd k then w32 (addr + 2 ^ i) else addr).
    assert (Ha' : addr' = if Z.odd k then addr + 2 ^ i else addr) by (unfold addr'; destruct (Z.odd k); [apply w32_small; lia|done]).
    assert (Hm' : (addr' - ofs) mod 2 ^ (i + 1) = 0).
    { apply Z.mod_divide; [lia|]. rewrite Ha', P2. destruct (Z.odd k) eqn:Eo.
      - apply Z.odd_spec in Eo as [j ->]. exists (j + 1). nia.
      - assert (Z.even k = true) as [j ->]%Z.even_spec by (by rewrite <- Z.negb_odd, Eo). exists j. nia. }
    assert (Hle : addr <= addr' <= addr + 2 ^ i) by (rewrite Ha'; destruct (Z.odd k); lia).
    rewrite IH; [|lia|lia|done|lia]. set (b := i + 1 + Z.of_nat n) in *. assert (Hb0 : 0 <= b) by lia.
    destruct (least_spec b ofs addr Hb0) as [S1 S2], (least_spec b ofs addr' Hb0) as [S3 S4]. apply Z.le_antisymm.
    + apply least_min; [done| |done]. rewrite Ha'. destruct (Z.odd k) eqn:Eo; [|lia]. apply Z.odd_spec in Eo as [j ->].
      apply Z.mod_divide in S2 as [c Ec]; [|lia]. assert (Eb2 : 2 ^ b = 2 ^ Z.of_nat n * (2 * 2 ^ i)) by (unfold b; rewrite Z.pow_add_r, P2 by lia; lia).
      rewrite Eb2 in Ec. assert (Ed : least b ofs addr - addr = (2 * (c * 2 ^ Z.of_nat n - j) - 1) * 2 ^ i) by lia. assert (0 < 2 * (c * 2 ^ Z.of_nat n - j) - 1 \/ 2 * (c * 2 ^ Z.of_nat n - j) - 1 < 0) as [?|?] by lia; nia.
    + apply least_min; [done|lia|done].
Qed.

(** What is left in front of the block that is cut out. *)
Definition front (a k : Z) : list block := if 0 <? k then [(a, k)] else [].

Lemma covers_front a k x : 0 <= k -> covers (front a k) x <-> a <= x < a + k.
Proof.
  intros Hk. unfold front. destruct (Z.ltb_spec 0 k).
  - rewrite covers_cons. pose proof (covers_nil x). tauto.
  - split; [by intros ?%covers_nil|lia].
Qed.

Lemma total_front a k : 0 <= k -> total (front a k) = k.
Proof. intros Hk. unfold front, total. destruct (Z.ltb_spec 0 k); simpl; lia. Qed.

(** The block of [n] bytes at [p] ends inside an aligned block that contains it. *)
Lemma len_fits p n e : 0 <= p < 2 ^ 32 -> 0 < n <= 2 ^ 32 - 16 -> e mod 8 = 0 -> p + n <= e -> blk p + len p n <= e.
Proof.
  intros Hp Hn He Hpe. unfold blk, len. rewrite land_7, trunc_eq by done. pose proof (Z.mod_pos_bound p 8 ltac:(lia)). rewrite w32_small by lia. rewrite round_eq by lia.
  apply mod8 in He as [k ->]. pose proof (Z.div_mod p 8 ltac:(lia)). pose proof (Z.div_mod (p mod 8 + n + 7) 8 ltac:(lia)). pose proof (Z.mod_pos_bound (p mod 8 + n + 7) 8 ltac:(lia)). lia.
Qed.

Lemma take_middle_ok r m l1 a s l2 p n : region_ok r m (l1 ++ (a, s) :: l2) -> a <= p -> p + n <= a + s -> 0 < n <= 2 ^ 32 - 16 ->
  let k := blk p - a in
  exists r' m', take_middle (loc l1) a p n (mk_rst r m) = Ok (tt, mk_rst r' m') /\ seg m' (nodes r') ((l1 ++ front a k) ++ cut (blk p) (s - k) (len p n) ++ l2) 0 /\
    laid (rmin r) (rmax r) ((l1 ++ front a k) ++ cut (blk p) (s - k) (len p n) ++ l2) /\ 0 <= k /\ 0 < len p n <= s - k /\
    r' = set_free (free r - len p n) (set_nodes (nodes r') r) /\ forall x, ~ covers (l1 ++ (a, s) :: l2) x -> m' x = m x.
Proof.
  intros Hr Hap Hps Hn k. pose proof (region_free_bound _ _ _ Hr) as [_ Hfb]. destruct Hr as [H1 H2 H3 H4 H5]. apply laid_app in H2 as [L1 (Hla & H0 & Hs0 & Ha8 & Hs8 & Hhi & L2)].
  apply seg_app in H1 as (p0 & S1 & -> & Es & S2). set (q := word_of m a) in *. destruct (blk_aligned p ltac:(lia)) as [Hb8 Hbp]. destruct (len_pos p n ltac:(lia) ltac:(lia)) as [Hlen Hl8].
  assert (He8 : (a + s) mod 8 = 0) by (rewrite Z.add_mod, Ha8, Hs8 by lia; done). pose proof (len_fits p n (a + s) ltac:(lia) Hn He8 Hps) as Hfit.
  assert (Hk : 0 <= k /\ k mod 8 = 0). { unfold k. apply mod8 in Ha8 as [ka ->], Hb8 as [kb Ekb]. rewrite Ekb in *. replace (8 * kb - 8 * ka) with ((kb - ka) * 8) by lia. split; [lia|]. apply Z.mod_mul. lia. }
  destruct Hk as [Hk0 Hk8]. rewrite land_7 in Hlen. pose proof (Z.mod_pos_bound p 8 ltac:(lia)).
  assert (Hlen8 : 8 <= len p n) by (pose proof Hl8 as [kl Ekl]%mod8; lia). assert (Hlen' : 0 < len p n <= s - k) by (unfold k; lia). pose proof (seg_head _ _ _ _ _ L2 ltac:(lia) S2) as Hq.
  rewrite total_app, total_cons in H3. pose proof (total_bounds l1 (rmin r) (rmax r) ltac:(lia) L1). pose proof (total_bounds l2 (a + s) (rmax r) ltac:(lia) ltac:(by apply (laid_weaken _ (a + s + 1)); [lia|])).
  assert (Hsk8 : (s - k) mod 8 = 0) by (by rewrite Zminus_mod, Hs8, Hk8).
  assert (D1 : forall x, covers l1 x -> x < a - 1) by (intros x Hx; pose proof (laid_after _ _ _ _ L1 Hx); lia).
  assert (D2 : forall x, covers l2 x -> a + s < x) by (intros x Hx; pose proof (laid_bounds _ _ _ _ L2 Hx); lia).
  unfold take_middle. fold (blk p). fold (len p n). rewrite (proj2 (Z.leb_le a (blk p))) by (unfold k in Hk0; lia). rewrite (bind_ok (assert_ true) _ _ tt _ eq_refl).
  destruct (Z.ltb_spec a (blk p)) as [Hlt|Hge].
  - assert (Hkp : 8 <= k) by (apply mod8 in Hk8 as [kk Ekk]; unfold k in *; lia).
    set (m1 := put m (blk p) (word_bytes q)). set (m2 := put m1 (blk p + 4) (word_bytes (s - k))). set (m3 := put m2 (a + 4) (word_bytes k)).
    assert (O3 : forall x, ~ (blk p <= x < blk p + 8) -> ~ (a + 4 <= x < a + 8) -> m3 x = m x) by (intros x ? ?; unfold m3, m2, m1; rewrite !put_out by (simpl; lia); done).
    assert (E1 : word_of m1 (a + 4) = s) by (unfold m1; rewrite word_put_out by (simpl; unfold k in Hkp; lia); done).
    assert (R1 : ((w32 (blk p - a)) = k)) by (unfold k; apply w32_small; lia). rewrite R1, (aligned_true k Hk8). rewrite (bind_ok _ _ _ tt (mk_rst r m3)).
    2: { rewrite (bind_ok (assert_ true) _ _ tt _ eq_refl). unfold node_next, node_size, set_node_next, set_node_size, load, store, gets, modify. munfold. cbn [mem reg]. fold q m1. rewrite E1, w32_small by lia. done. }
    assert (S3 : seg m3 (nodes r) (l1 ++ [(a, k)]) q).
    { apply seg_app. exists a. split; [|split; [done|]].
      - apply (seg_frame m m3 l1 (rmin r) (rmax r)); [done| |done]. intros x Hx. specialize (D1 x Hx). apply O3; lia.
      - unfold m3. split; [apply word_put; unfold k; lia|]. simpl. rewrite word_put_out by (simpl; lia). unfold m2. rewrite word_put_out by (simpl; unfold k in Hkp; lia).
        unfold m1. rewrite word_put_out by (simpl; unfold k in Hkp; lia). done. }
    assert (L3 : laid (rmin r) (rmax r) (l1 ++ [(a, k)])) by (apply laid_app; split; [done|]; simpl; unfold k in *; repeat split; try done; lia).
    assert (Haf : after (rmin r) (l1 ++ [(a, k)]) = blk p + 1) by (unfold after; rewrite list.last_snoc; unfold k; lia).
    assert (L2' : laid (blk p + (s - k) + 1) (rmax r) l2) by (replace (blk p + (s - k) + 1) with (a + s + 1) by (unfold k; lia); done).
    destruct (take_front_ok r m3 (l1 ++ [(a, k)]) q (blk p) (s - k) q l2 (len p n) (rmin r) (rmax r)) as (r' & m' & R & S' & Er & O'); try done; try (unfold k in *; lia).
    + unfold m3. rewrite word_put_out by (simpl; unfold k in Hkp; lia). unfold m2. apply word_put. unfold k in *. lia.
    + unfold m3. rewrite word_put_out by (simpl; unfold k in Hkp; lia). unfold m2. rewrite word_put_out by (simpl; lia). unfold m1. by apply word_put.
    + apply (seg_frame m m3 l2 (a + s + 1) (rmax r)); [done| |done]. intros x Hx. specialize (D2 x Hx). apply O3; unfold k in *; lia.
    + exists r', m'. rewrite loc_snoc in R. split; [exact R|]. unfold front. rewrite (proj2 (Z.ltb_lt 0 k)) by lia. split; [exact S'|]. split; [apply laid_cut; try done; unfold k in *; lia|].
      split; [done|]. split; [done|]. split; [done|]. intros x Hx. rewrite covers_app, covers_cons in Hx.
      rewrite O'; [apply O3; intros ?; apply Hx; right; left; unfold k in *; lia| |intros ?; apply Hx; right; left; unfold k in *; lia].
      rewrite covers_app, covers_cons. pose proof (covers_nil x). intros [?|[?|?]]; [tauto| |done]. apply Hx. right. left. lia.
  - assert (Ek : k = 0) by (unfold k in *; lia). assert (Eb : blk p = a) by (unfold k in Ek; lia). rewrite (bind_ok _ _ _ tt (mk_rst r m) eq_refl).
    rewrite Ek, Z.sub_0_r, Eb in *. destruct (take_front_ok r m l1 a a s q l2 (len p n) (rmin r) (rmax r)) as (r' & m' & R & S' & Er & O'); try done; try lia.
    exists r', m'. split; [exact R|]. unfold front. simpl. rewrite app_nil_r. split; [exact S'|]. split; [apply laid_cut; try done; lia|]. split; [lia|]. split; [lia|]. split; [done|].
    intros x Hx. rewrite covers_app, covers_cons in Hx. apply O'; tauto.
Qed.

Section gen.
Context (size bits ofs in_min in_max : Z).
Hypothesis Hsize : 0 < size <= 2 ^ 30.
Hypothesis Hbits : 0 <= bits <= 29.
Hypothesis Hofs : 0 <= ofs < 2 ^ 32.
Hypothesis Hmin : 0 <= in_min <= 2 ^ 31.

(** Where the block would be in the free block at [a], and whether it fits there. *)
Definition place (a : Z) : Z := least bits ofs (Z.max a in_min).
Definition fits (b : block) : Prop := place (fst b) - fst b + size <= snd b /\ place (fst b) + size <= in_max.

Lemma place_spec a : 0 <= a <= 2 ^ 31 -> Z.max a in_min <= place a < 2 ^ 31 + 2 ^ 29 /\ (place a - ofs) mod 2 ^ bits = 0.
Proof.
  intros Ha. destruct (least_spec bits ofs (Z.max a in_min) ltac:(lia)) as [H1 H2]. assert (2 ^ bits <= 2 ^ 29) by (apply Z.pow_le_mono_r; lia). unfold place. split; [lia|done].
Qed.

Lemma place_mono a b : a <= b -> place a <= place b.
Proof.
  intros Hab. destruct (least_spec bits ofs (Z.max b in_min) ltac:(lia)) as [H1 H2]. unfold place. apply least_min; [lia|lia|done].
Qed.

Lemma place_run a : 0 <= a <= 2 ^ 31 -> align_addr (Z.to_nat bits) 0 (if a <? in_min then in_min else a) ofs = place a.
Proof.
  intros Ha. assert (2 ^ bits <= 2 ^ 29) by (apply Z.pow_le_mono_r; lia).
  replace (if a <? in_min then in_min else a) with (Z.max a in_min) by (destruct (Z.ltb_spec a in_min); lia).
  rewrite align_addr_eq; [|lia|lia|by rewrite Z.mod_1_r|]; rewrite Z.add_0_l, Z2Nat.id by lia; [done|]. lia.
Qed.

Lemma gen_loop_ok r m l2 : forall l1 fuel, region_ok r m (l1 ++ l2) -> rmax r <= 2 ^ 31 -> (length l2 < fuel)%nat ->
  (Forall (fun b => ~ fits b) l2 /\ gen_loop fuel size bits ofs in_min in_max (loc l1) (mk_rst r m) = Ok (None, mk_rst r m)) \/
  exists la a s lb, l1 ++ l2 = la ++ (a, s) :: lb /\ fits (a, s) /\
    gen_loop fuel size bits ofs in_min in_max (loc l1) (mk_rst r m) = (take_middle (loc la) a (place a) size;; mret (Some (place a))) (mk_rst r m).
Proof.
  induction l2 as [|[a s] l2 IH]; intros l1 fuel Hr Hmx Hfu; (destruct fuel as [|fuel]; [simpl in Hfu; lia|]); cbn [gen_loop].
  - left. split; [constructor|]. rewrite app_nil_r in Hr. by rewrite (bind_ok _ _ _ _ _ (get_link_ok r m l1 0 (ro_seg _ _ _ Hr))).
  - pose proof (ro_laid _ _ _ Hr) as Hl. pose proof (ro_bounds _ _ _ Hr) as Hb. apply laid_app in Hl as [L1 (? & ? & ? & ? & ? & ? & L2)].
    destruct (visit r m l1 a s l2 (fun sz _ _ => if sz <? size then gen_loop fuel size bits ofs in_min in_max (Some a) else
      let addr := align_addr (Z.to_nat bits) 0 (if a <? in_min then in_min else a) ofs in
      if sz <? w32 (w32 (addr - a) + size) then gen_loop fuel size bits ofs in_min in_max (Some a) else
      if in_max <? w32 (addr + size) then mret None else take_middle (loc l1) a addr size;; mret (Some addr)) Hr) as (V1 & V2 & V3).
    rewrite (bind_ok _ _ _ _ _ V1), V2. cbv zeta in V3 |- *. rewrite V3. clear V1 V2 V3. rewrite place_run by lia. destruct (place_spec a ltac:(lia)) as [Hp _].
    assert (Next : ~ fits (a, s) -> (Forall (fun b => ~ fits b) ((a, s) :: l2) /\ gen_loop fuel size bits ofs in_min in_max (Some a) (mk_rst r m) = Ok (None, mk_rst r m)) \/
      exists la a0 s0 lb, l1 ++ (a, s) :: l2 = la ++ (a0, s0) :: lb /\ fits (a0, s0) /\ gen_loop fuel size bits ofs in_min in_max (Some a) (mk_rst r m) = (take_middle (loc la) a0 (place a0) size;; mret (Some (place a0))) (mk_rst r m)).
    { intros Hno. rewrite <- (loc_snoc l1 a s). assert (E : l1 ++ (a, s) :: l2 = (l1 ++ [(a, s)]) ++ l2) by (by rewrite <- app_assoc). rewrite E in Hr |- *.
      destruct (IH (l1 ++ [(a, s)]) fuel Hr Hmx ltac:(simpl in Hfu; lia)) as [[F R]|K]; [left|by right]. split; [by constructor|done]. }
    rewrite (w32_small (place a - a)), (w32_small (place a - a + size)), (w32_small (place a + size)) by lia. unfold fits in Next |- *. cbn [fst snd] in Next |- *.
    destruct (Z.ltb_spec s size) as [Hlt|Hge]; [apply Next; lia|]. destruct (Z.ltb_spec s (place a - a + size)) as [Hlt|Hge2]; [apply Next; lia|].
    destruct (Z.ltb_spec in_max (place a + size)) as [Hlt|Hge3].
    + left. split; [|done]. constructor; [simpl; lia|]. apply Forall_forall. intros [b t] Hin [_ Hbt]. simpl in Hbt. assert (a <= b); [|pose proof (place_mono a b ltac:(lia)); lia].
      pose proof (laid_bounds l2 (a + s + 1) (rmax r) b L2) as Hbb. assert (Hcov : covers l2 b); [|specialize (Hbb Hcov); lia].
      clear -L2 Hin. revert L2. generalize (a + s + 1) as lo. induction l2 as [|[c u] l2 IH]; intros lo L2; [done|]. destruct L2 as (? & ? & ? & ? & ? & ? & L2). apply covers_cons.
      destruct Hin as [[= -> ->]|Hin]; [left; lia|right; by apply (IH Hin _ L2)].
    + right. exists l1, a, s, l2. split; [done|]. split; [simpl; lia|done].
Qed.

Definition well_placed (p : Z) : Prop := in_min <= p /\ p + size <= in_max /\ (p - ofs) mod 2 ^ bits = 0.

Lemma gen_region_ok fuel r l m : region_ok r m l -> rmax r <= 2 ^ 31 -> (length l < fuel)%nat ->
  region_post (fun _ l => Forall (fun b => ~ fits b) l) well_placed size r l m (gen_loop fuel size bits ofs in_min in_max None (mk_rst r m)).
Proof.
  intros Hr Hmx Hfu. change None with (loc []). destruct (gen_loop_ok r m l [] fuel Hr Hmx Hfu) as [[F R]|(la & a & s & lb & El & Hf & R)]; [by left|right]. simpl in El. subst l.
  pose proof (ro_laid _ _ _ Hr) as Hl. pose proof (ro_bounds _ _ _ Hr) as Hb. apply laid_app in Hl as [L1 (? & ? & ? & Ha8 & ? & ? & L2)]. destruct Hf as [Hf1 Hf2]. cbn [fst snd] in Hf1, Hf2.
  destruct (place_spec a ltac:(lia)) as [Hp Hpm]. destruct (take_middle_ok r m la a s lb (place a) size Hr ltac:(lia) ltac:(lia) ltac:(lia)) as (r' & m' & RT & S' & L' & K1 & K2 & Er & O').
  set (k := blk (place a) - a) in *. set (n := len (place a) size) in *. exists (place a), r', m', ((la ++ front a k) ++ cut (blk (place a)) (s - k) n ++ lb).
  split; [rewrite R, (bind_ok _ _ _ _ _ RT); done|]. assert (Es : rmin r' = rmin r /\ rmax r' = rmax r /\ free r' = free r - n) by (by rewrite Er). destruct Es as (E1 & E2 & E3).
  split; [|split; [rewrite Er; done|split; [split; [lia|done]|split; [split|done]]]].
  - split; rewrite ?E1, ?E2; try done; [|apply Hr]. rewrite E3, (ro_free _ _ _ Hr), !total_app, total_cons, total_front, total_cut by done. lia.
  - unfold k in K1. lia.
  - intros x Hx. unfold within in Hx. fold n in Hx. rewrite covers_app, covers_cons. right. left. unfold k in *. lia.
  - intros x. unfold within. fold n. rewrite !covers_app, covers_cons, covers_front, covers_cut by done.
    assert (D1 : covers la x -> x < a) by (intros Hx; pose proof (laid_after _ _ _ _ L1 Hx); lia).
    assert (D2 : covers lb x -> a + s < x) by (intros Hx; pose proof (laid_bounds _ _ _ _ L2 Hx); lia). unfold k in *. split.
    + intros [[Hx|Hx]|[Hx|Hx]]; [specialize (D1 Hx); split; [tauto|lia]|split; [right; left; lia|lia]|split; [right; left; lia|lia]|specialize (D2 Hx); split; [tauto|lia]].
    + intros [[Hx|[Hx|Hx]] Hn]; [tauto| |tauto]. destruct (Z.lt_ge_cases x (blk (place a))); [left; right; lia|right; left; lia].
Qed.
End gen.

(** ... and the regions that are skipped. *)
Definition no_room (fl size bits ofs in_min in_max : Z) (r : region) (l : list block) : Prop :=
  lacks fl r || (in_max <=? rmin r) || (rmax r <=? in_min) = true \/ Forall (fun b => ~ fits size bits ofs in_min in_max b) l.

Lemma lmm_alloc_gen_run fuel size fl bits ofs in_min in_size s Ls : lmm_rep s Ls -> enough fuel Ls -> Forall (fun r => rmax r <= 2 ^ 31) (regions s) ->
  0 < size <= 2 ^ 30 -> 0 <= bits <= 29 -> 0 <= ofs < 2 ^ 32 -> 0 <= in_min <= 2 ^ 31 -> 0 <= in_size < 2 ^ 32 -> in_min + in_size < 2 ^ 32 ->
  exists q s', lmm_alloc_gen fuel size fl bits ofs in_min in_size s = Ok (q, s') /\
    alloc_post (no_room fl size bits ofs in_min (in_min + in_size)) (well_placed size bits ofs in_min (in_min + in_size)) size s Ls q s'.
Proof.
  intros Hr Hfu Hmx Hsz Hbits Hofs Hmin Hin Hsum. unfold lmm_alloc_gen. rewrite (w32_small (in_min + in_size)) by lia. rewrite (bind_ok (assert_ _) _ _ tt s) by (rewrite (proj2 (Z.ltb_lt 0 size)) by lia; done).
  apply on_search, search_regions_ok; [done|by left|]. intros r l Hrs Hl Hok _. unfold enough in Hfu. rewrite Forall_forall in Hfu, Hmx.
  destruct (gen_region_ok size bits ofs in_min (in_min + in_size) Hsz Hbits Hofs Hmin fuel r l (lmem s) Hok (Hmx r (proj1 (list_elem_of_In _ _) Hrs)) (Hfu l (proj1 (list_elem_of_In Ls l) Hl))) as [[R K]|K]; [left|by right].
  split; [done|]. by right.
Qed.
End LmmProofs.
