(* ===== verification/LmmHeap.v ===== *)
(** * The list memory manager as a set of free bytes

    The abstract view of an lmm is the set of bytes that are free: allocation takes a
    block out of it, or finds none that fits, and giving back puts it in.  As the
    blocks of a region are kept apart, the set determines the lists, so that giving a
    block back undoes its allocation to the last pointer.  [ample] bounds the loops:
    a region has at most one free block for every eight bytes. *)

From Stdlib Require Import ZArith Lia.
From stdpp Require Import base gmap list tactics numbers.
From S2P Require Import Prelude AddrSpace Lmm LmmProofs.

#[local] Open Scope Z_scope.

Module LmmHeap.
Import Lmm LmmProofs.

(** ** The loops are short *)

Lemma laid_length l : forall lo hi, lo <= hi -> laid lo hi l -> 8 * Z.of_nat (length l) <= hi - lo.
Proof.
  induction l as [|[a s] l IH]; intros lo hi Hh Hl; [simpl; lia|]. destruct Hl as (? & ? & ? & ? & Hs & ? & Hl). apply mod8 in Hs as [k ->].
  destruct l as [|b l]; [simpl; lia|]. assert (a + 8 * k + 1 <= hi) by (destruct b, Hl; lia). pose proof (IH _ _ ltac:(eassumption) Hl). simpl length in *. lia.
Qed.

Definition ample (fuel : nat) (rs : list region) : Prop := Forall (fun r => rmax r - rmin r < 8 * Z.of_nat fuel) rs.

Lemma ample_enough fuel m rs : forall Ls, lmm_ok m rs Ls -> ample fuel rs -> enough fuel Ls.
Proof.
  induction rs as [|r rs IH]; intros [|l Ls] Hok Ha; try done; [constructor|]. destruct Hok as (H1 & _ & H3). inversion_clear Ha as [|? ? Hr Hrs].
  constructor; [|by apply IH]. pose proof (ro_bounds _ _ _ H1). pose proof (laid_length l (rmin r) (rmax r) ltac:(lia) (ro_laid _ _ _ H1)). lia.
Qed.

Lemma same_bounds r r' : same_region r r' -> rmin r' = rmin r /\ rmax r' = rmax r /\ flags r' = flags r.
Proof. unfold same_region. intros ->. done. Qed.

Lemma ample_same fuel rs rs' : Forall2 same_region rs rs' -> ample fuel rs -> ample fuel rs'.
Proof.
  intros Hf. induction Hf as [|r r' rs rs' H _ IH]; [done|]. intros Ha. inversion_clear Ha as [|? ? H1 H2]. constructor; [|by apply IH].
  destruct (same_bounds r r' H) as (-> & -> & _). done.
Qed.

Lemma holds_same p n rs rs' : Forall2 same_region rs rs' -> Exists (holds p n) rs -> Exists (holds p n) rs'.
Proof.
  intros Hf. induction Hf as [|r r' rs rs' H _ IH]; intros Hx; [by inversion Hx|]. apply Exists_cons in Hx as [Hx|Hx]; [apply Exists_cons_hd|apply Exists_cons_tl; by apply IH].
  unfold holds. destruct (same_bounds r r' H) as (-> & -> & _). done.
Qed.

Lemma same_regions_trans rs1 rs2 : Forall2 same_region rs1 rs2 -> forall rs3, Forall2 same_region rs2 rs3 -> Forall2 same_region rs1 rs3.
Proof.
  induction 1 as [|r1 r2 rs1 rs2 H _ IH]; intros rs3 H3; inversion_clear H3 as [|? r3 ? rs3' H23 H23']; constructor; [|by apply IH].
  unfold same_region in *. rewrite H in H23. exact H23.
Qed.

(** ** The free bytes determine the lists *)

Lemma seg_nodes m p l : seg m p l 0 -> p = match l with [] => 0 | (a, _) :: _ => a end.
Proof. destruct l as [|[a s] l]; [done|by intros (-> & _)]. Qed.

Lemma lmm_unique m m' rs rs' : Forall2 same_region rs rs' -> forall Ls Ls', lmm_ok m rs Ls -> lmm_ok m' rs' Ls' -> (forall x, free_mem Ls x <-> free_mem Ls' x) ->
  rs' = rs /\ Ls' = Ls.
Proof.
  intros Hf. induction Hf as [|r r' rs rs' Hr Hrs IH]; intros [|l Ls] [|l' Ls'] Hok Hok' Hx; try done. destruct Hok as (H1 & H2 & H3), Hok' as (K1 & K2 & K3).
  destruct (same_bounds r r' Hr) as (E1 & E2 & _).
  assert (El : l' = l).
  { apply (laid_unique l' l (rmin r) (rmax r)); [rewrite <- E1, <- E2; apply K1|apply H1|]. intros x. specialize (Hx x). rewrite !free_mem_cons in Hx. split; intros Hc.
    - pose proof (region_covers r' m' l' x K1 Hc). destruct (proj2 Hx (or_introl Hc)) as [|Ho]; [done|]. exfalso. by apply (others_outside m r rs Ls x H2 H3 Ho); lia.
    - pose proof (region_covers r m l x H1 Hc). destruct (proj1 Hx (or_introl Hc)) as [|Ho]; [done|]. exfalso. by apply (others_outside m' r' rs' Ls' x K2 K3 Ho); lia. }
  subst l'. destruct (IH Ls Ls' H3 K3) as [-> ->].
  { intros x. specialize (Hx x). rewrite !free_mem_cons in Hx. split; intros Ho.
    - pose proof (others_outside m r rs Ls x H2 H3 Ho) as Hno. destruct (proj1 Hx (or_intror Ho)) as [Hc|]; [|done]. by destruct Hno; apply (region_covers r m l).
    - pose proof (others_outside m' r' rs' Ls' x K2 K3 Ho) as Hno. destruct (proj2 Hx (or_intror Ho)) as [Hc|]; [|done]. by destruct Hno; apply (region_covers r' m' l). }
  split; [|done]. f_equal. unfold same_region in Hr. rewrite Hr, (ro_free _ _ _ K1), <- (ro_free _ _ _ H1).
  rewrite (seg_nodes m' (nodes r') l (ro_seg _ _ _ K1)), <- (seg_nodes m (nodes r) l (ro_seg _ _ _ H1)). by destruct r.
Qed.

(** ** Allocating and giving back *)

(** A client writes where it likes, but not to free memory. *)
Definition client (s : lmm) (Ls : list (list block)) (m : Z -> Z) : Prop := forall x, free_mem Ls x -> m x = lmem s x.

(** Allocation in terms of the set of free bytes: on any well-formed state, for every size that
    does not overflow and with one step for every eight bytes of a region, [lmm_alloc] ends and
    either returns the null pointer, changing nothing, when no region with the flags has a
    block of that length, or returns an address divisible by eight; then exactly the bytes of the block
    have left the free set they were all in, the lists are well formed, and no byte outside of free
    memory has been written. *)
Theorem lmm_alloc_refines fuel n fl s Ls : lmm_rep s Ls -> ample fuel (regions s) -> 0 < n <= 2 ^ 32 - 8 ->
  exists q s', lmm_alloc fuel n fl s = Ok (q, s') /\ alloc_post (none_as_long fl n) (fun p => p mod 8 = 0) n s Ls q s'.
Proof. intros Hr Ha Hn. apply lmm_alloc_run; [done|by apply (ample_enough fuel (lmem s) (regions s))|done]. Qed.

(** Allocation at an alignment and inside bounds ([lmm_alloc_gen], and with it [lmm_alloc_aligned]
    and [lmm_alloc_page]): the block is inside the bounds, agrees with the offset in the low bits,
    and exactly the bytes that its eight-byte units touch leave the free set; the null pointer
    means that no free block of an eligible region has room for it. *)
Theorem lmm_alloc_gen_refines fuel size fl bits ofs in_min in_size s Ls : lmm_rep s Ls -> ample fuel (regions s) -> Forall (fun r => rmax r <= 2 ^ 31) (regions s) ->
  0 < size <= 2 ^ 30 -> 0 <= bits <= 29 -> 0 <= ofs < 2 ^ 32 -> 0 <= in_min <= 2 ^ 31 -> 0 <= in_size < 2 ^ 32 -> in_min + in_size < 2 ^ 32 ->
  exists q s', lmm_alloc_gen fuel size fl bits ofs in_min in_size s = Ok (q, s') /\
    alloc_post (no_room fl size bits ofs in_min (in_min + in_size)) (well_placed size bits ofs in_min (in_min + in_size)) size s Ls q s'.
Proof. intros Hr Ha. intros. apply lmm_alloc_gen_run; try done. by apply (ample_enough fuel (lmem s) (regions s)). Qed.

(** Giving back a block that was taken: every list is again what it was. *)
Lemma give_back fuel q n s Ls s1 Ls1 m : lmm_rep s Ls -> ample fuel (regions s) -> 0 < n <= 2 ^ 32 - 16 -> lmm_rep s1 Ls1 ->
  Forall2 same_region (regions s) (regions s1) -> took q n (free_mem Ls) (free_mem Ls1) -> Exists (holds q n) (regions s) -> client s1 Ls1 m ->
  exists m', lmm_free fuel q n (mk_lmm (regions s1) m) = Ok (tt, mk_lmm (regions s) m') /\ lmm_ok m' (regions s) Ls /\ forall x, ~ free_mem Ls x -> m' x = m x.
Proof.
  intros Hr Ha Hn Hr1 Hsame [(Hq & Hb & _) T2 T3] Hh Hm. assert (Hr1' : lmm_rep (mk_lmm (regions s1) m) Ls1) by (by apply (lmm_ok_frame (lmem s1))).
  destruct (lmm_free_run fuel q n (mk_lmm (regions s1) m) Ls1) as ([rs2 m2] & Ls2 & R & K1 & K2 & K3 & K4); try done.
  - apply (ample_enough fuel (lmem s1) (regions s1)); [done|]. by apply (ample_same fuel (regions s)).
  - by apply (holds_same q n (regions s)).
  - intros x Hx Hf. apply T3 in Hf. tauto.
  - simpl in K1, K2, K4. assert (Hset : forall x, free_mem Ls x <-> free_mem Ls2 x).
    { intros x. rewrite (K3 x), (T3 x). fold (within q n x). specialize (T2 x).
      assert (within q n x \/ ~ within q n x) by (unfold within; lia). tauto. }
    destruct (lmm_unique (lmem s) m2 (regions s) rs2 ltac:(by apply (same_regions_trans _ (regions s1))) Ls Ls2 Hr K1 Hset) as [-> ->].
    exists m2. split; [done|]. split; [done|]. intros x Hx. apply K4; [rewrite T3; tauto|]. intros Hw. by apply Hx, T2.
Qed.

(** (C7) Giving a block back undoes its allocation: after [lmm_alloc], and whatever the
    client writes outside of free memory, [lmm_free] of the block ends without a failed
    assertion, every region (first node and count of free bytes) is again what it was
    before the allocation, and so are the lists of free blocks. *)
Theorem lmm_alloc_free fuel n fl s Ls q s1 m : lmm_rep s Ls -> ample fuel (regions s) -> 0 < n <= 2 ^ 32 - 16 ->
  lmm_alloc fuel n fl s = Ok (q, s1) -> q <> 0 -> (forall Ls1, lmm_rep s1 Ls1 -> client s1 Ls1 m) ->
  exists m', lmm_free fuel q n (mk_lmm (regions s1) m) = Ok (tt, mk_lmm (regions s) m') /\ lmm_rep (mk_lmm (regions s) m') Ls /\
    forall x, ~ free_mem Ls x -> m' x = m x.
Proof.
  intros Hr Ha Hn R Hq Hm. destruct (lmm_alloc_run fuel n fl s Ls Hr ltac:(by apply (ample_enough fuel (lmem s) (regions s))) ltac:(lia)) as (q' & s1' & R' & P).
  rewrite R in R'. injection R' as <- <-. destruct P as [(-> & _)|(Ls1 & _ & G & K1 & K2 & K3 & K4 & _)]; [done|].
  apply (give_back fuel q n s Ls s1 Ls1 m); try done. by apply Hm.
Qed.

(** ** Counting the free memory *)

Definition avail (fl : Z) (rs : list region) : Z := foldr (fun r n => (if lacks fl r then 0 else free r) + n) 0 rs.

Lemma nodes_free r m l : region_ok r m l -> (nodes r = 0 <-> free r = 0) /\ (nodes r <> 0 -> rmin r <= nodes r < rmax r).
Proof.
  intros Hr. pose proof (ro_bounds _ _ _ Hr) as Hb. destruct Hr as [H1 H2 H3 _ _]. rewrite H3, (seg_nodes m (nodes r) l H1). destruct l as [|[a s] l]; [done|].
  destruct H2 as (? & ? & ? & ? & ? & ? & H2). rewrite total_cons. pose proof (total_bounds l (a + s) (rmax r) ltac:(lia) ltac:(by apply (laid_weaken _ (a + s + 1)); [lia|])). lia.
Qed.

Lemma w32_idemp_r a b : w32 (w32 a + b) = w32 (a + b).
Proof. unfold w32. apply Zplus_mod_idemp_l. Qed.

Lemma avail_loop_ok m fl s rs : forall Ls count, lmm_ok m rs Ls -> 0 <= count < 2 ^ 32 -> avail_loop fl count rs s = Ok (w32 (count + avail fl rs), s).
Proof.
  induction rs as [|r rs IH]; intros [|l Ls] count Hok Hc; try done; [simpl; by rewrite Z.add_0_r, w32_small|]. destruct Hok as (H1 & _ & H3).
  destruct (nodes_free r m l H1) as [Hz Hn]. destruct (region_free_bound r m l H1) as [Hf Hf']. pose proof (ro_bounds _ _ _ H1) as Hb.
  cbn [avail_loop avail foldr]. rewrite bool_decide_true by done. rewrite (bind_ok (assert_ true) _ _ tt _ eq_refl). fold (avail fl rs).
  destruct (Z.eqb_spec (nodes r) 0) as [Hn0|Hn0].
  - rewrite (IH Ls) by done. rewrite (proj1 Hz Hn0). by destruct (lacks fl r).
  - specialize (Hn Hn0). rewrite (w32_small (rmax r - rmin r)) by lia.
    replace ((rmin r <=? nodes r) && (nodes r <? rmax r) && (0 <=? free r) && (free r <=? rmax r - rmin r)) with true by lia.
    rewrite (bind_ok (assert_ true) _ _ tt _ eq_refl). destruct (lacks fl r); [by rewrite (IH Ls), Z.add_0_l|].
    rewrite (IH Ls) by (done || (unfold w32; apply Z.mod_pos_bound; lia)). by rewrite w32_idemp_r, Z.add_assoc.
Qed.

Lemma lmm_avail_run fl s Ls : lmm_rep s Ls -> lmm_avail fl s = Ok (w32 (avail fl (regions s)), s).
Proof. intros Hr. unfold lmm_avail. rewrite (bind_ok _ _ _ (regions s) s eq_refl). by apply (avail_loop_ok (lmem s) fl s _ Ls 0 Hr). Qed.

(** ** Adding free memory *)

Definition bounds (r : region) : Z * Z := (rmin r, rmax r).
Definition inside (r : region) (x : Z) : Prop := rmin r <= x < rmax r.
Definition sound_bounds (r : region) : Prop := 0 <= rmin r < rmax r /\ rmax r <= 2 ^ 32 - 8 /\ rmin r mod 8 = 0 /\ rmax r mod 8 = 0.

Lemma lmm_ok_bounds m rs : forall Ls, lmm_ok m rs Ls -> Forall sound_bounds rs /\ ForallOrdPairs apart rs.
Proof.
  induction rs as [|r rs IH]; intros [|l Ls] Hok; try done; [split; constructor|]. destruct Hok as (H1 & H2 & H3). destruct (IH Ls H3) as [K1 K2].
  split; constructor; try done. pose proof (ro_bounds _ _ _ H1). pose proof (ro_aligned _ _ _ H1). unfold sound_bounds. lia.
Qed.

Lemma same_map_bounds rs rs' : Forall2 same_region rs rs' -> map bounds rs' = map bounds rs.
Proof. induction 1 as [|r r' rs rs' H _ IH]; [done|]. simpl. unfold bounds at 1 3. destruct (same_bounds r r' H) as (-> & -> & _). by rewrite IH. Qed.

Lemma add_free_loop_ok fuel min max rs : forall s Ls, lmm_rep s Ls -> ample fuel (regions s) -> min mod 8 = 0 -> max mod 8 = 0 -> 0 < min < max ->
  Forall sound_bounds rs -> ForallOrdPairs apart rs -> incl (map bounds rs) (map bounds (regions s)) ->
  (forall x, min <= x < max -> Exists (fun r => inside r x) rs -> ~ free_mem Ls x) ->
  exists s' Ls', add_free_loop fuel min max rs s = Ok (tt, s') /\ lmm_rep s' Ls' /\ Forall2 same_region (regions s) (regions s') /\
    (forall x, free_mem Ls' x <-> free_mem Ls x \/ min <= x < max /\ Exists (fun r => inside r x) rs) /\
    forall x, ~ free_mem Ls x -> ~ (min <= x < max) -> lmem s' x = lmem s x.
Proof.
  induction rs as [|r rs IH]; intros s Ls Hr Ha Hm8 HM8 Hmm Hs Hp Hin Hd; cbn [add_free_loop].
  - exists s, Ls. split; [done|]. split; [done|]. split; [apply same_regions_refl|]. split; [|done]. intros x. split; [by left|]. intros [|[_ Hx]]; [done|by inversion Hx].
  - inversion_clear Hs as [|? ? Hb Hs']. inversion_clear Hp as [|? ? Hap Hp']. assert (Hin' : incl (map bounds rs) (map bounds (regions s))) by (intros b Hb'; apply Hin; by right).
    destruct Hb as (Hb1 & Hb2 & Hb3 & Hb4). rewrite (proj2 (Z.ltb_lt (rmin r) (rmax r))) by lia. rewrite (aligned_true _ Hb3), (aligned_true _ Hb4). do 3 (rewrite (bind_ok (assert_ true) _ _ tt _ eq_refl)).
    destruct ((rmin r <? max) && (min <? rmax r)) eqn:Ei.
    2: { rewrite (bind_ok (mret tt) _ _ tt s eq_refl). destruct (IH s Ls) as (s' & Ls' & R & K1 & K2 & K3 & K4); try done.
         { intros x Hx Hex. apply (Hd x Hx). by apply Exists_cons_tl. }
         exists s', Ls'. split; [done|]. split; [done|]. split; [done|]. split; [|done]. intros x. rewrite (K3 x), Exists_cons. assert (min <= x < max -> ~ inside r x) by (unfold inside; lia). tauto. }
    set (lo := if min <? rmin r then rmin r else min). set (hi := if rmax r <? max then rmax r else max).
    assert (Elo : lo = Z.max min (rmin r)) by (unfold lo; destruct (Z.ltb_spec min (rmin r)); lia). assert (Ehi : hi = Z.min max (rmax r)) by (unfold hi; destruct (Z.ltb_spec (rmax r) max); lia).
    assert (Hlo8 : lo mod 8 = 0) by (unfold lo; by destruct (min <? rmin r)). assert (Hhi8 : hi mod 8 = 0) by (unfold hi; by destruct (rmax r <? max)).
    assert (Hlh : 0 < lo < hi) by lia. assert (hi <= 2 ^ 32 - 8) by lia. assert (Hn8 : (hi - lo) mod 8 = 0) by (by rewrite Zminus_mod, Hlo8, Hhi8).
    assert (Eb : blk lo = lo) by (unfold blk; apply trunc_aligned; [lia|done]). assert (8 <= lo) by (pose proof Hlo8 as [k ?]%mod8; lia).
    assert (El : len lo (hi - lo) = hi - lo) by (rewrite len_aligned by (done || lia); apply round_aligned; [lia|done]).
    assert (Ew : forall x, within lo (hi - lo) x <-> min <= x < max /\ inside r x) by (intros x; unfold within, inside; rewrite Eb, El; lia).
    rewrite (w32_small (hi - lo)), (proj2 (Z.ltb_lt lo hi)) by lia.
    destruct (lmm_free_run fuel lo (hi - lo) s Ls) as (s1 & Ls1 & R1 & J1 & J2 & J3 & J4); try done; try lia.
    { by apply (ample_enough fuel (lmem s) (regions s)). }
    { assert (Hb : In (bounds r) (map bounds (regions s))) by (apply Hin; by left). apply in_map_iff in Hb as (r' & [= E1 E2] & Hr'). apply Exists_exists. exists r'. split; [done|]. unfold holds. rewrite Eb, El, E1, E2. lia. }
    { intros x [Hx Hi]%Ew. apply (Hd x Hx). by apply Exists_cons_hd. }
    rewrite (bind_ok _ _ _ tt s1) by (rewrite (bind_ok (assert_ true) _ _ tt _ eq_refl); exact R1). unfold gave in J3. rewrite Eb, El in J3. replace (lo + (hi - lo)) with hi in J3 by lia.
    destruct (IH s1 Ls1) as (s' & Ls' & R & K1 & K2 & K3 & K4); try done.
    { by apply (ample_same fuel (regions s)). }
    { by rewrite (same_map_bounds (regions s) (regions s1) J2). }
    { intros x Hx Hex. rewrite (J3 x). intros [Hf|Hf]; [apply (Hd x Hx); [by apply Exists_cons_tl|done]|]. apply Exists_exists in Hex as (r' & Hr' & Hi). rewrite Forall_forall in Hap. unfold inside in Hi. destruct (Hap r' Hr'); lia. }
    exists s', Ls'. split; [done|]. split; [done|]. split; [by apply (same_regions_trans _ (regions s1))|]. split.
    + intros x. rewrite (K3 x), (J3 x), Exists_cons. cbv beta. assert (lo <= x < hi <-> min <= x < max /\ inside r x) by (unfold inside; lia). tauto.
    + intros x Hf Hx. rewrite K4, J4; try done; [rewrite Ew; tauto|]. rewrite (J3 x). assert (~ lo <= x < hi) by lia. tauto.
Qed.

Lemma lmm_add_free_run fuel block size s Ls : lmm_rep s Ls -> ample fuel (regions s) -> 0 < block -> 8 <= size -> block + size < 2 ^ 32 ->
  (forall x, round block <= x < trunc (block + size) -> ~ free_mem Ls x) ->
  exists s' Ls', lmm_add_free fuel block size s = Ok (tt, s') /\ lmm_rep s' Ls' /\ Forall2 same_region (regions s) (regions s') /\
    (forall x, free_mem Ls' x <-> free_mem Ls x \/ round block <= x < trunc (block + size) /\ Exists (fun r => inside r x) (regions s)) /\
    forall x, ~ free_mem Ls x -> ~ (round block <= x < trunc (block + size)) -> lmem s' x = lmem s x.
Proof.
  intros Hr Ha Hb Hs Hbs Hd. destruct (round_spec block ltac:(lia)) as [Hrb Hr8]. destruct (blk_aligned (block + size) ltac:(lia)) as [Ht8 Ht]. unfold blk in Ht, Ht8.
  unfold lmm_add_free. rewrite (w32_small (block + size)) by lia. assert (Hle : round block <= trunc (block + size)).
  { apply mod8 in Hr8 as [a Ea], Ht8 as [b Eb]. lia. }
  rewrite (proj2 (Z.leb_le _ _) Hle). rewrite (bind_ok (assert_ true) _ _ tt _ eq_refl). destruct (Z.eqb_spec (trunc (block + size)) (round block)) as [E|E].
  - exists s, Ls. split; [done|]. split; [done|]. split; [apply same_regions_refl|]. split; [|done]. intros x. rewrite E. split; [by left|]. intros [|[? _]]; [done|lia].
  - rewrite (bind_ok _ _ _ (regions s) s eq_refl). destruct (lmm_ok_bounds (lmem s) (regions s) Ls Hr) as [Hsb Hpa].
    destruct (add_free_loop_ok fuel (round block) (trunc (block + size)) (regions s) s Ls) as (s' & Ls' & K); try done; [lia|apply incl_refl|intros x Hx _; by apply Hd|by exists s', Ls'].
Qed.

(** ** An example: one region with one free block of 64 bytes *)

Definition demo_mem : Z -> Z := put (fun _ => 0) 4096 (word_bytes 0 ++ word_bytes 64).
Definition demo_region : region := mk_region 1 4096 4096 4160 0 0 64.
Definition demo : lmm := mk_lmm [demo_region] demo_mem.

Lemma demo_rep : lmm_ok demo_mem [demo_region] [[(4096, 64)]].
Proof. split; [|split; [constructor|done]]. by split; simpl; repeat split; lia || done. Qed.

Lemma demo_ample : ample 9 [demo_region].
Proof. constructor; [simpl; lia|constructor]. Qed.

Lemma lmm_alloc_refines_witness : exists q s', lmm_alloc 9 12 0 demo = Ok (q, s') /\ alloc_post (none_as_long 0 12) (fun p => p mod 8 = 0) 12 demo [[(4096, 64)]] q s'.
Proof. apply (lmm_alloc_refines 9 12 0 demo [[(4096, 64)]] demo_rep demo_ample). lia. Defined.

Lemma lmm_alloc_gen_refines_witness : exists q s', lmm_alloc_gen 9 12 0 5 4 0 4294967295 demo = Ok (q, s') /\
  alloc_post (no_room 0 12 5 4 0 (0 + 4294967295)) (well_placed 12 5 4 0 (0 + 4294967295)) 12 demo [[(4096, 64)]] q s'.
Proof.
  apply (lmm_alloc_gen_refines 9 12 0 5 4 0 4294967295 demo [[(4096, 64)]] demo_rep demo_ample); [|lia..]. constructor; [simpl; lia|constructor].
Defined.

Lemma lmm_alloc_free_witness : exists q s1 m', lmm_alloc 9 12 0 demo = Ok (q, s1) /\ q <> 0 /\
  lmm_free 9 q 12 (mk_lmm (regions s1) (lmem s1)) = Ok (tt, mk_lmm (regions demo) m') /\ lmm_rep (mk_lmm (regions demo) m') [[(4096, 64)]].
Proof.
  destruct (lmm_alloc_run 9 12 0 demo [[(4096, 64)]] demo_rep ltac:(by apply (ample_enough 9 demo_mem [demo_region] _ demo_rep demo_ample)) ltac:(lia)) as (q & s1 & R & P).
  assert (Hq : q <> 0).
  { destruct P as [(_ & _ & F)|(Ls' & Hq & _)]; [|exact Hq]. inversion_clear F as [|? ? ? ? [Hf|Hf] _]; [discriminate|]. inversion_clear Hf as [|? ? Hf' _]. vm_compute in Hf'. discriminate. }
  destruct (lmm_alloc_free 9 12 0 demo [[(4096, 64)]] q s1 (lmem s1) demo_rep demo_ample ltac:(lia) R Hq ltac:(intros Ls1 _ x _; reflexivity)) as (m' & F & K & _).
  exists q, s1, m'. split; [exact R|]. split; [exact Hq|]. split; [exact F|exact K].
Defined.

(** A size in the last eight bytes below 4 GB is rounded to zero: the first free block is returned,
    and it stays free, with all its 64 bytes. *)
Theorem huge_alloc_stays_free :
  match lmm_alloc 9 4294967292 0 demo with
  | Ok (q, s) => q = 4096 /\ regions s = regions demo /\ word_of (lmem s) 4096 = 0 /\ word_of (lmem s) 4100 = 64
  | _ => False
  end.
Proof. vm_compute. repeat split; reflexivity. Qed.

(** The boot code gives memory below 1 MB, below 16 MB and above the priorities -2, -1 and 0, so that
    the memory above would be used first; but priorities are unsigned, and it comes last. *)
Theorem high_memory_used_last :
  match (lmm_init;; lmm_add_region 1 0 1048576 3 4294967294;; lmm_add_region 2 1048576 15728640 2 4294967295;; lmm_add_region 3 16777216 4278190079 0 0) demo with
  | Ok (_, s) => map r_addr (regions s) = [2; 1; 3]
  | _ => False
  end.
Proof. vm_compute. reflexivity. Qed.
End LmmHeap.
