(* ===== verification/LmmMalloc.v ===== *)
(** * malloc over the list memory manager (src/410kern/malloc, kern/vm.c)

    The kernel's heap: one lmm for each core, over one memory, and the pool of the boot
    code.  A chunk of [malloc] starts with a word that holds its size; the pointer that
    is returned is behind it.  The functions are the interface [RawAlloc] that the
    locking wrappers of the kernel call.

    [heap_ok] is the invariant: the lmms of all cores are well formed, no byte is free on
    two cores, and the chunks in use overlap neither each other nor free memory.  A chunk
    may be given back on another core than the one it came from; it then belongs to that
    core. *)

From Stdlib Require Import ZArith Lia.
From stdpp Require Import base gmap list tactics numbers.
From S2P Require Import Prelude AddrSpace Mutex MallocWrappers Lmm LmmProofs LmmHeap.

#[local] Open Scope Z_scope.

Module LmmMalloc.
Import Lmm LmmProofs LmmHeap.

(** [malloc_lmm], [core_malloc_lmm] and the memory. *)
Record kheap := mk_kheap { malloc_lmm : list region; core_malloc_lmm : gmap Z (list region); kmem : Z -> Z }.

Definition on_core {A} (cpu : Z) (m : M lmm A) : M kheap A := fun h =>
  match core_malloc_lmm h !! cpu with
  | None => Fault
  | Some rs =>
      match m (mk_lmm rs (kmem h)) with
      | Ok (a, s) => Ok (a, mk_kheap (malloc_lmm h) (<[cpu := regions s]> (core_malloc_lmm h)) (lmem s))
      | Panic => Panic | Fault => Fault | Blocks => Blocks | NoFuel => NoFuel
      end
  end.

Definition on_pool {A} (m : M lmm A) : M kheap A := fun h =>
  match m (mk_lmm (malloc_lmm h) (kmem h)) with
  | Ok (a, s) => Ok (a, mk_kheap (regions s) (core_malloc_lmm h) (lmem s))
  | Panic => Panic | Fault => Fault | Blocks => Blocks | NoFuel => NoFuel
  end.

Definition kload (a : Z) : M kheap Z := gets (fun h => word_of (kmem h) a).
Definition upd_kmem (g : (Z -> Z) -> Z -> Z) : M kheap unit := modify (fun h => mk_kheap (malloc_lmm h) (core_malloc_lmm h) (g (kmem h))).
Definition kstore (a v : Z) : M kheap unit := upd_kmem (fun f => put f a (word_bytes v)).

(** [memset] and [memcpy], byte by byte. *)
Fixpoint memset (n : nat) (to c : Z) (f : Z -> Z) : Z -> Z :=
  match n with O => f | S n => memset n (to + 1) c (fun x => if x =? to then c mod 256 else f x) end.
Fixpoint memcpy (n : nat) (to from : Z) (f : Z -> Z) : Z -> Z :=
  match n with O => f | S n => memcpy n (to + 1) (from + 1) (fun x => if x =? to then f from else f x) end.

Definition sizeof_size_t : Z := 4.

Section malloc.
Context (fuel : nat) (smp_get_cpu : Z).

Definition _malloc (size : Z) : M kheap Z :=
  let size := w32 (size + sizeof_size_t) in
  chunk ← on_core smp_get_cpu (lmm_alloc fuel size 0);
  if chunk =? 0 then mret 0 else
  kstore chunk size;; mret (w32 (chunk + sizeof_size_t)).

Definition _free (chunk_ptr : Z) : M kheap unit :=
  let chunk := w32 (chunk_ptr - sizeof_size_t) in
  size ← kload chunk;
  on_core smp_get_cpu (lmm_free fuel chunk size).

Definition _calloc (nelt eltsize : Z) : M kheap Z :=
  let allocsize := w32 (nelt * eltsize) in
  ptr ← _malloc allocsize;
  if ptr =? 0 then mret 0 else
  upd_kmem (memset (Z.to_nat allocsize) ptr 0);; mret ptr.

Definition _mustmalloc (size : Z) : M kheap Z := buf ← _malloc size; assert_ (negb (buf =? 0));; mret buf.
Definition _mustcalloc (nelt eltsize : Z) : M kheap Z := buf ← _calloc nelt eltsize; assert_ (negb (buf =? 0));; mret buf.

(** [for (shift = 0; (1 << shift) < alignment; shift++);]; there are 32 bits to try. *)
Fixpoint find_shift (n : nat) (shift alignment : Z) : M kheap Z :=
  match n with
  | O => nofuel
  | S n => if w32 (Z.shiftl 1 shift) <? alignment then find_shift n (shift + 1) alignment else mret shift
  end.

Definition _memalign (alignment size : Z) : M kheap Z :=
  shift ← find_shift 32 0 alignment;
  let size := w32 (size + sizeof_size_t) in
  chunk ← on_core smp_get_cpu (lmm_alloc_aligned fuel size 0 shift (w32 (w32 (Z.shiftl 1 shift) - sizeof_size_t)));
  if chunk =? 0 then mret 0 else
  kstore chunk size;; mret (w32 (chunk + sizeof_size_t)).

Definition _smalloc (size : Z) : M kheap Z :=
  chunk ← on_core smp_get_cpu (lmm_alloc fuel size 0);
  if chunk =? 0 then mret 0 else mret chunk.

Definition _smemalign (alignment size : Z) : M kheap Z :=
  shift ← find_shift 32 0 alignment;
  chunk ← on_core smp_get_cpu (lmm_alloc_aligned fuel size 0 shift 0);
  if chunk =? 0 then mret 0 else mret chunk.

Definition _sfree (chunk size : Z) : M kheap unit := on_core smp_get_cpu (lmm_free fuel chunk size).

Definition _realloc (buf new_size : Z) : M kheap Z :=
  if buf =? 0 then _malloc new_size else
  let op := w32 (buf - sizeof_size_t) in
  old_size ← kload op;
  let new_size := w32 (new_size + sizeof_size_t) in
  np ← on_core smp_get_cpu (lmm_alloc fuel new_size 0);
  if np =? 0 then mret 0 else
  upd_kmem (memcpy (Z.to_nat (if old_size <? new_size then old_size else new_size)) np op);;
  on_core smp_get_cpu (lmm_free fuel op old_size);;
  kstore np new_size;;
  mret (w32 (np + sizeof_size_t)).

#[global] Instance lmm_raw : RawAlloc kheap := {
  ra_malloc := _malloc; ra_memalign := _memalign; ra_calloc := _calloc; ra_realloc := _realloc; ra_free := _free;
  ra_smalloc := _smalloc; ra_smemalign := _smemalign; ra_sfree := _sfree }.
End malloc.

(** [dist_kernel_mem]: what is left of the pool is divided among the cores. *)
Section dist.
Context (fuel : nat) (smp_num_cpus : Z).

Fixpoint take_smidge (n : nat) (kmem_avail : Z) : M kheap (Z * Z) :=
  match n with
  | O => nofuel
  | S n =>
      smidge ← on_pool (lmm_alloc fuel kmem_avail 0);
      if negb (smidge =? 0) then mret (smidge, kmem_avail) else take_smidge n (w32 (kmem_avail - 4))
  end.

Fixpoint give_cores (n : nat) (i smidge kmem_per_core : Z) : M kheap unit :=
  match n with
  | O => mret tt
  | S n => on_core i (lmm_add_free fuel (w32 (smidge + i * kmem_per_core)) kmem_per_core);; give_cores n (i + 1) smidge kmem_per_core
  end.

Definition dist_kernel_mem (tries : nat) : M kheap unit :=
  kmem_avail ← on_pool (lmm_avail 0);
  '(smidge, kmem_avail) ← take_smidge tries kmem_avail;
  let kmem_per_core := kmem_avail / smp_num_cpus in
  give_cores (Z.to_nat smp_num_cpus) 0 smidge kmem_per_core.
End dist.

(** ** The invariant of the heap *)

Section heap.
(** The bounds of the regions, which are the same on all cores and do not change. *)
Context (bds : list (Z * Z)).

(** [Ls] are the free blocks of each core, [live] the chunks in use with their sizes. *)
Record heap_ok (h : kheap) (Ls : Z -> list (list block)) (live : gmap Z Z) : Prop := {
  ho_lmm : forall cpu rs, core_malloc_lmm h !! cpu = Some rs -> lmm_ok (kmem h) rs (Ls cpu);
  ho_bounds : forall cpu rs, core_malloc_lmm h !! cpu = Some rs -> map bounds rs = bds;
  ho_apart : forall cpu cpu' rs rs' x, core_malloc_lmm h !! cpu = Some rs -> core_malloc_lmm h !! cpu' = Some rs' -> cpu <> cpu' -> free_mem (Ls cpu) x -> ~ free_mem (Ls cpu') x;
  ho_range : forall c n, live !! c = Some n -> 0 < c < 2 ^ 32 /\ 0 < blk c /\ 0 < n <= 2 ^ 32 - 16;
  ho_holds : forall c n cpu rs, live !! c = Some n -> core_malloc_lmm h !! cpu = Some rs -> Exists (holds c n) rs;
  ho_used : forall c n cpu rs x, live !! c = Some n -> core_malloc_lmm h !! cpu = Some rs -> within c n x -> ~ free_mem (Ls cpu) x;
  ho_live : forall c c' n n' x, live !! c = Some n -> live !! c' = Some n' -> c <> c' -> within c n x -> ~ within c' n' x }.

Definition with_kmem (m : Z -> Z) (h : kheap) : kheap := mk_kheap (malloc_lmm h) (core_malloc_lmm h) m.

(** Memory that is not free may be written. *)
Lemma heap_ok_write h Ls live m : heap_ok h Ls live -> (forall cpu rs x, core_malloc_lmm h !! cpu = Some rs -> free_mem (Ls cpu) x -> m x = kmem h x) -> heap_ok (with_kmem m h) Ls live.
Proof.
  intros [H1 H2 H3 H4 H5 H6 H7] Hm. split; try done. intros cpu rs Hc. apply (lmm_ok_frame (kmem h)); [by apply H1|]. intros x Hx. by apply (Hm cpu rs).
Qed.

(** The bytes of the chunks in use are as before. *)
Definition keeps (live : gmap Z Z) (h h' : kheap) : Prop := forall c n x, live !! c = Some n -> within c n x -> kmem h' x = kmem h x.

Lemma holds_bounds p n rs rs' : map bounds rs = map bounds rs' -> Exists (holds p n) rs -> Exists (holds p n) rs'.
Proof.
  revert rs'. induction rs as [|r rs IH]; intros [|r' rs'] E Hx; try done. injection E as E1 E2 E. apply Exists_cons in Hx as [Hx|Hx]; [apply Exists_cons_hd|apply Exists_cons_tl; by apply IH].
  unfold holds in *. by rewrite <- E1, <- E2.
Qed.

(** The lists of one core change. *)
Definition set_core {A} (cpu : Z) (v : A) (f : Z -> A) : Z -> A := fun c => if c =? cpu then v else f c.

Lemma set_core_eq {A} cpu (v : A) f : set_core cpu v f cpu = v.
Proof. unfold set_core. by rewrite Z.eqb_refl. Qed.
Lemma set_core_ne {A} cpu cpu' (v : A) f : cpu' <> cpu -> set_core cpu v f cpu' = f cpu'.
Proof. intros H. unfold set_core. by rewrite (proj2 (Z.eqb_neq cpu' cpu)). Qed.

Definition with_core (cpu : Z) (s : lmm) (h : kheap) : kheap := mk_kheap (malloc_lmm h) (<[cpu := regions s]> (core_malloc_lmm h)) (lmem s).

Lemma on_core_ok {A} cpu (m : M lmm A) h rs a s : core_malloc_lmm h !! cpu = Some rs -> m (mk_lmm rs (kmem h)) = Ok (a, s) -> on_core cpu m h = Ok (a, with_core cpu s h).
Proof. intros Hc R. unfold on_core. by rewrite Hc, R. Qed.

(** One core's lmm goes from the free bytes [free_mem (Ls cpu)] to those of [L'], writing only to
    memory that is free before or in the block of [n] bytes at [c]. *)
Lemma heap_step h Ls live live' cpu rs s' L' : heap_ok h Ls live -> core_malloc_lmm h !! cpu = Some rs -> lmm_rep s' L' -> Forall2 same_region rs (regions s') ->
  (forall cpu' rs' x, cpu' <> cpu -> core_malloc_lmm h !! cpu' = Some rs' -> free_mem (Ls cpu') x -> ~ free_mem L' x /\ lmem s' x = kmem h x) ->
  (forall c n, live' !! c = Some n -> 0 < c < 2 ^ 32 /\ 0 < blk c /\ 0 < n <= 2 ^ 32 - 16 /\ Exists (holds c n) rs) ->
  (forall c n x, live' !! c = Some n -> within c n x -> ~ free_mem L' x /\ forall cpu' rs', cpu' <> cpu -> core_malloc_lmm h !! cpu' = Some rs' -> ~ free_mem (Ls cpu') x) ->
  (forall c c' n n' x, live' !! c = Some n -> live' !! c' = Some n' -> c <> c' -> within c n x -> ~ within c' n' x) ->
  heap_ok (with_core cpu s' h) (set_core cpu L' Ls) live'.
Proof.
  intros Hok Hc Hr Hsame Hfr Hrng Hused Hlv.
  assert (Hcase : forall cpu' rs', core_malloc_lmm (with_core cpu s' h) !! cpu' = Some rs' ->
    cpu' = cpu /\ rs' = regions s' /\ set_core cpu L' Ls cpu' = L' \/ cpu' <> cpu /\ core_malloc_lmm h !! cpu' = Some rs' /\ set_core cpu L' Ls cpu' = Ls cpu').
  { intros cpu' rs' H'. simpl in H'. destruct (decide (cpu' = cpu)) as [->|Hne].
    - rewrite lookup_insert_eq in H'. injection H' as <-. left. by rewrite set_core_eq.
    - rewrite lookup_insert_ne in H' by done. right. by rewrite set_core_ne. }
  assert (Hbd : forall cpu' rs', core_malloc_lmm (with_core cpu s' h) !! cpu' = Some rs' -> map bounds rs' = map bounds rs).
  { intros cpu' rs' [(-> & -> & _)|(_ & H' & _)]%Hcase; [by apply same_map_bounds|by rewrite (ho_bounds _ _ _ Hok cpu' rs' H'), (ho_bounds _ _ _ Hok cpu rs Hc)]. }
  split.
  - intros cpu' rs' [(-> & -> & ->)|(Hne & H' & ->)]%Hcase; [done|]. apply (lmm_ok_frame (kmem h)); [by apply (ho_lmm _ _ _ Hok)|]. intros x Hx. by apply (Hfr cpu' rs').
  - intros c1 rs1 E1. by rewrite (Hbd c1 rs1 E1), (ho_bounds _ _ _ Hok cpu rs Hc).
  - intros c1 c2 rs1 rs2 x [(-> & -> & ->)|(N1 & H1 & ->)]%Hcase [(-> & -> & ->)|(N2 & H2 & ->)]%Hcase Hne Hx Hy; [done|by destruct (Hfr c2 rs2 x N2 H2 Hy)|by destruct (Hfr c1 rs1 x N1 H1 Hx)|].
    by apply (ho_apart _ _ _ Hok c1 c2 rs1 rs2 x).
  - intros c n Hl. destruct (Hrng c n Hl) as (? & ? & ? & _). lia.
  - intros c n cpu' rs' Hl H'. apply (holds_bounds c n rs); [by rewrite (Hbd cpu' rs')|]. by apply (Hrng c n).
  - intros c n cpu' rs' x Hl [(-> & -> & ->)|(Hne & H' & ->)]%Hcase Hx; [by apply (Hused c n x)|by apply (proj2 (Hused c n x Hl Hx) cpu' rs')].
  - exact Hlv.
Qed.

(** Only the lists of one core have changed, in a memory of the same regions. *)
Definition same_cores (cpu : Z) (rs : list region) (h h' : kheap) : Prop :=
  exists rs', core_malloc_lmm h' = <[cpu := rs']> (core_malloc_lmm h) /\ Forall2 same_region rs rs'.

(** What an allocation on one core does to the heap. *)
Definition heap_post (fails : region -> list block -> Prop) (good : Z -> Prop) (n : Z) (rs : list region) (cpu : Z) (h : kheap) (Ls : Z -> list (list block)) (live : gmap Z Z) (q : Z) (h' : kheap) : Prop :=
  (q = 0 /\ h' = h /\ Forall2 fails rs (Ls cpu)) \/
  exists Ls', q <> 0 /\ good q /\ heap_ok h' Ls' (<[q := n]> live) /\ live !! q = None /\ keeps live h h' /\ same_cores cpu rs h h'.

Lemma within_blk c n : 0 < len c n -> within c n (blk c).
Proof. unfold within. lia. Qed.

Lemma heap_alloc cpu rs fails good n (m : M lmm Z) h Ls live : heap_ok h Ls live -> core_malloc_lmm h !! cpu = Some rs -> 0 < n <= 2 ^ 32 - 16 ->
  (exists q s', m (mk_lmm rs (kmem h)) = Ok (q, s') /\ alloc_post fails good n (mk_lmm rs (kmem h)) (Ls cpu) q s') ->
  exists q h', on_core cpu m h = Ok (q, h') /\ heap_post fails good n rs cpu h Ls live q h'.
Proof.
  intros Hok Hc Hn (q & s' & R & P). exists q, (with_core cpu s' h). split; [by apply (on_core_ok cpu m h rs)|].
  destruct P as [(-> & -> & F)|(L' & Hq & Hg & Hr & Hsame & [(T0 & T1 & T1') T2 T3] & Hh & Hf)]; [left|right]; simpl in *.
  - split; [done|]. split; [|done]. unfold with_core. simpl. rewrite insert_id by done. by destruct h.
  - assert (Hfresh : forall c k x, live !! c = Some k -> within c k x -> ~ within q n x) by (intros c k x Hl Hx Hw; apply (ho_used _ _ _ Hok c k cpu rs x Hl Hc Hx); by apply T2).
    exists (set_core cpu L' Ls). split; [done|]. split; [done|].
    assert (Hno : live !! q = None).
    { destruct (live !! q) as [k|] eqn:El; [|done]. destruct (ho_range _ _ _ Hok q k El) as (? & ? & ?). destruct (len_pos q k ltac:(lia) ltac:(lia)) as [? _].
      exfalso. apply (Hfresh q k (blk q) El); [apply within_blk; lia|]. by apply within_blk. }
    split; [|split; [done|split; [|by exists (regions s')]]].
    + apply (heap_step h Ls live _ cpu rs s' L'); try done.
      * intros cpu' rs' x Hne H' Hx. assert (~ free_mem (Ls cpu) x) by (by apply (ho_apart _ _ _ Hok cpu' cpu rs' rs)). split; [rewrite T3; tauto|by apply Hf].
      * intros c k [[<- <-]|[Hne Hl]]%lookup_insert_Some; [done|]. destruct (ho_range _ _ _ Hok c k Hl) as (? & ? & ?). split; [done|]. split; [done|]. split; [done|]. by apply (ho_holds _ _ _ Hok c k cpu).
      * intros c k x [[<- <-]|[Hne Hl]]%lookup_insert_Some Hx.
        -- split; [rewrite T3; tauto|]. intros cpu' rs' Hne H'. apply (ho_apart _ _ _ Hok cpu cpu' rs rs' x); [done|done|congruence|by apply T2].
        -- split; [rewrite T3; intros [? _]; by apply (ho_used _ _ _ Hok c k cpu rs x)|]. intros cpu' rs' _ H'. by apply (ho_used _ _ _ Hok c k cpu' rs' x).
      * intros c c' k k' x [[<- <-]|[Hne Hl]]%lookup_insert_Some [[<- <-]|[Hne' Hl']]%lookup_insert_Some Hcc Hx Hx'; [done|by apply (Hfresh c' k' x)|by apply (Hfresh c k x)|].
        by apply (ho_live _ _ _ Hok c c' k k' x).
    + intros c k x Hl Hx. simpl. apply Hf. by apply (ho_used _ _ _ Hok c k cpu rs x).
Qed.

Lemma heap_free fuel cpu rs c n h Ls live : heap_ok h Ls live -> core_malloc_lmm h !! cpu = Some rs -> ample fuel rs -> live !! c = Some n ->
  exists h' Ls', on_core cpu (lmm_free fuel c n) h = Ok (tt, h') /\ heap_ok h' Ls' (delete c live) /\ keeps (delete c live) h h' /\
    same_cores cpu rs h h' /\
    forall x, free_mem (Ls' cpu) x <-> free_mem (Ls cpu) x \/ within c n x.
Proof.
  intros Hok Hc Ha Hl. destruct (ho_range _ _ _ Hok c n Hl) as (H1 & H2 & H3). pose proof (ho_lmm _ _ _ Hok cpu rs Hc) as Hr.
  destruct (lmm_free_run fuel c n (mk_lmm rs (kmem h)) (Ls cpu)) as (s' & L' & R & K1 & K2 & K3 & K4); try done.
  { by apply (ample_enough fuel (kmem h) rs). } { by apply (ho_holds _ _ _ Hok c n cpu). } { intros x. by apply (ho_used _ _ _ Hok c n cpu rs). }
  simpl in K2, K4. exists (with_core cpu s' h), (set_core cpu L' Ls). split; [by apply (on_core_ok cpu _ h rs)|].
  split; [|split; [|split; [by exists (regions s')|]]].
  - apply (heap_step h Ls live _ cpu rs s' L'); try done.
    + intros cpu' rs' x Hne H' Hx. assert (Hnf : ~ free_mem (Ls cpu) x) by (by apply (ho_apart _ _ _ Hok cpu' cpu rs' rs)).
      assert (Hnw : ~ within c n x) by (intros Hw; by apply (ho_used _ _ _ Hok c n cpu' rs' x)). split; [rewrite (K3 x); unfold within in Hnw; tauto|by apply K4].
    + intros c' k [Hne Hl']%lookup_delete_Some. destruct (ho_range _ _ _ Hok c' k Hl') as (? & ? & ?). split; [done|]. split; [done|]. split; [done|]. by apply (ho_holds _ _ _ Hok c' k cpu).
    + intros c' k x [Hne Hl']%lookup_delete_Some Hx. split; [rewrite (K3 x); intros [?|?]; [by apply (ho_used _ _ _ Hok c' k cpu rs x)|by apply (ho_live _ _ _ Hok c c' n k x)]|].
      intros cpu' rs' _ H'. by apply (ho_used _ _ _ Hok c' k cpu' rs' x).
    + intros c1 c2 k1 k2 x [_ E1]%lookup_delete_Some [_ E2]%lookup_delete_Some. by apply (ho_live _ _ _ Hok).
  - intros c' k x [Hne Hl']%lookup_delete_Some Hx. simpl. apply K4; [by apply (ho_used _ _ _ Hok c' k cpu rs x)|]. intros Hw. by apply (ho_live _ _ _ Hok c c' n k x).
  - intros x. rewrite set_core_eq. apply (K3 x).
Qed.

(** ** The bytes of a chunk *)

Lemma chunk_within c n x : 0 <= c < 2 ^ 32 -> 0 < n <= 2 ^ 32 - 16 -> c <= x < c + n -> within c n x.
Proof.
  intros Hc Hn Hx. destruct (len_pos c n ltac:(lia) ltac:(lia)) as [Hl _]. destruct (blk_aligned c Hc) as [Hb8 Hb]. rewrite land_7 in Hl. unfold within.
  assert (Eb : blk c = 8 * (c / 8)) by (by apply trunc_eq). pose proof (Z.div_mod c 8 ltac:(lia)). lia.
Qed.

Lemma chunk_fits h Ls live cpu rs c n : heap_ok h Ls live -> core_malloc_lmm h !! cpu = Some rs -> live !! c = Some n -> 0 < c /\ 0 < n /\ c + n <= 2 ^ 32 - 8.
Proof.
  intros Hok Hc Hl. destruct (ho_range _ _ _ Hok c n Hl) as (H1 & _ & H3). pose proof (ho_holds _ _ _ Hok c n cpu rs Hl Hc) as Hh.
  destruct (lmm_ok_bounds _ _ _ (ho_lmm _ _ _ Hok cpu rs Hc)) as [Hs _]. apply Exists_exists in Hh as (r & Hin & Hh). rewrite Forall_forall in Hs. destruct (Hs r Hin) as (? & ? & _).
  pose proof (chunk_within c n (c + n - 1) ltac:(lia) ltac:(lia) ltac:(lia)) as Hw. unfold within in Hw. destruct Hh. lia.
Qed.

(** The owner of a chunk writes to it. *)
Lemma chunk_write h Ls live c n m : heap_ok h Ls live -> live !! c = Some n -> (forall x, ~ (c <= x < c + n) -> m x = kmem h x) ->
  heap_ok (with_kmem m h) Ls live /\ forall live', live = <[c := n]> live' -> live' !! c = None -> keeps live' h (with_kmem m h).
Proof.
  intros Hok Hl Hm. destruct (ho_range _ _ _ Hok c n Hl) as (H1 & _ & H3). split.
  - apply heap_ok_write; [done|]. intros cpu rs x Hc Hx. apply Hm. intros Hx'. apply (ho_used _ _ _ Hok c n cpu rs x Hl Hc); [|done]. apply chunk_within; lia.
  - intros live' -> Hno c' n' x Hl' Hx. simpl. apply Hm. intros Hx'. assert (c <> c') by congruence.
    apply (ho_live _ _ _ Hok c c' n n' x Hl); [by rewrite lookup_insert_ne|done| |done]. apply chunk_within; lia.
Qed.

Lemma keeps_trans live h1 h2 h3 : keeps live h1 h2 -> keeps live h2 h3 -> keeps live h1 h3.
Proof. intros H1 H2 c n x Hl Hx. by rewrite (H2 c n x), (H1 c n x). Qed.

Lemma keeps_word live h h' c n : keeps live h h' -> live !! c = Some n -> 0 <= c < 2 ^ 32 -> 4 <= n <= 2 ^ 32 - 16 -> word_of (kmem h') c = word_of (kmem h) c.
Proof. intros Hk Hl Hc Hn. apply word_of_ext. intros x Hx. apply (Hk c n x Hl). apply chunk_within; lia. Qed.

(** ** [_malloc], [_memalign] and [_free] *)

(** The buffer of [n - 4] bytes at [p], behind the word with the size. *)
Definition buffer_post (fails : region -> list block -> Prop) (good : Z -> Prop) (n : Z) (rs : list region) (cpu : Z) (h : kheap) (Ls : Z -> list (list block)) (live : gmap Z Z) (p : Z) (h' : kheap) : Prop :=
  (p = 0 /\ h' = h /\ Forall2 fails rs (Ls cpu)) \/
  exists Ls', p <> 0 /\ good p /\ p + (n - 4) <= 2 ^ 32 - 8 /\ live !! (p - 4) = None /\ heap_ok h' Ls' (<[p - 4 := n]> live) /\ word_of (kmem h') (p - 4) = n /\ keeps live h h'.

(** The end of [_malloc] and of [_memalign]. *)
Lemma buffer_tail cpu rs fails good n (m : M lmm Z) h Ls live : heap_ok h Ls live -> core_malloc_lmm h !! cpu = Some rs -> 4 <= n <= 2 ^ 32 - 16 ->
  (exists q s', m (mk_lmm rs (kmem h)) = Ok (q, s') /\ alloc_post fails good n (mk_lmm rs (kmem h)) (Ls cpu) q s') ->
  exists p h', (chunk ← on_core cpu m; if chunk =? 0 then mret 0 else kstore chunk n;; mret (w32 (chunk + sizeof_size_t))) h = Ok (p, h') /\
    buffer_post fails (fun p => good (p - 4)) n rs cpu h Ls live p h'.
Proof.
  intros Hok Hc Hn Hm. destruct (heap_alloc cpu rs fails good n m h Ls live Hok Hc ltac:(lia) Hm) as (q & h1 & R & P). rewrite (bind_ok _ _ _ _ _ R).
  destruct P as [(-> & -> & F)|(Ls' & Hq & Hg & Hok' & Hno & Hk & (rs1 & Ec & Hsame))]; [exists 0, h; split; [done|]; by left|]. rewrite (proj2 (Z.eqb_neq q 0)) by done.
  assert (Hc1 : core_malloc_lmm h1 !! cpu = Some rs1) by (rewrite Ec; apply lookup_insert_eq). destruct (chunk_fits _ _ _ cpu rs1 q n Hok' Hc1 ltac:(apply lookup_insert_eq)) as (? & ? & ?).
  exists (q + 4), (with_kmem (put (kmem h1) q (word_bytes n)) h1). rewrite (bind_ok (kstore q n) _ _ tt (with_kmem (put (kmem h1) q (word_bytes n)) h1) eq_refl).
  unfold sizeof_size_t. rewrite w32_small by lia. split; [done|]. right. exists Ls'. replace (q + 4 - 4) with q by lia.
  destruct (chunk_write h1 Ls' _ q n (put (kmem h1) q (word_bytes n)) Hok' ltac:(apply lookup_insert_eq)) as [W1 W2]; [intros x Hx; apply put_out; simpl; lia|].
  split; [lia|]. split; [done|]. split; [lia|]. split; [done|]. split; [done|]. split; [apply word_put; lia|]. apply (keeps_trans _ _ h1); [done|by apply W2].
Qed.

Lemma _malloc_run fuel cpu rs size h Ls live : heap_ok h Ls live -> core_malloc_lmm h !! cpu = Some rs -> ample fuel rs -> 0 <= size <= 2 ^ 32 - 20 ->
  exists p h', _malloc fuel cpu size h = Ok (p, h') /\ buffer_post (none_as_long 0 (size + 4)) (fun p => (p - 4) mod 8 = 0) (size + 4) rs cpu h Ls live p h'.
Proof.
  intros Hok Hc Ha Hs. unfold _malloc, sizeof_size_t. rewrite (w32_small (size + 4)) by lia.
  apply (buffer_tail cpu rs (none_as_long 0 (size + 4)) (fun p => p mod 8 = 0)); try done; [lia|].
  pose proof (ho_lmm _ _ _ Hok cpu rs Hc) as Hr. apply lmm_alloc_run; [done|by apply (ample_enough fuel (kmem h) rs)|lia].
Qed.

Lemma find_shift_ok k h n : forall i, 0 <= i <= k -> k <= 31 -> k - i < Z.of_nat n -> find_shift n i (2 ^ k) h = Ok (k, h).
Proof.
  induction n as [|n IH]; intros i Hi Hk Hn; [lia|]. cbn [find_shift]. rewrite Z.shiftl_1_l. assert (2 ^ i <= 2 ^ 31) by (apply Z.pow_le_mono_r; lia). assert (0 < 2 ^ i) by (apply Z.pow_pos_nonneg; lia).
  rewrite w32_small by lia. destruct (Z.ltb_spec (2 ^ i) (2 ^ k)) as [Hlt|Hge].
  - assert (i < k) by (apply (Z.pow_lt_mono_r_iff 2); lia). apply IH; lia.
  - assert (k <= i) by (apply (Z.pow_le_mono_r_iff 2); lia). replace i with k by lia. done.
Qed.

Definition low (rs : list region) : Prop := Forall (fun r => rmax r <= 2 ^ 31) rs.

Lemma lmm_alloc_aligned_run fuel n k ofs rs h Ls cpu live : heap_ok h Ls live -> core_malloc_lmm h !! cpu = Some rs -> ample fuel rs -> low rs -> 0 < n <= 2 ^ 30 -> 0 <= k <= 29 -> 0 <= ofs < 2 ^ 32 ->
  exists q s', lmm_alloc_aligned fuel n 0 k ofs (mk_lmm rs (kmem h)) = Ok (q, s') /\
    alloc_post (no_room 0 n k ofs 0 4294967295) (fun q => (q - ofs) mod 2 ^ k = 0) n (mk_lmm rs (kmem h)) (Ls cpu) q s'.
Proof.
  intros Hok Hc Ha Hlow Hn Hk Ho. pose proof (ho_lmm _ _ _ Hok cpu rs Hc) as Hr.
  destruct (lmm_alloc_gen_run fuel n 0 k ofs 0 4294967295 (mk_lmm rs (kmem h)) (Ls cpu)) as (q & s' & R & P); try done; try lia; [by apply (ample_enough fuel (kmem h) rs)|].
  exists q, s'. split; [done|]. destruct P as [P|(L' & P1 & P2 & P3)]; [by left|right]. exists L'. split; [done|]. split; [|done]. apply P2.
Qed.

Lemma mod_offset q k : 0 <= k <= 29 -> (q - w32 (2 ^ k - 4)) mod 2 ^ k = 0 -> (q + 4) mod 2 ^ k = 0.
Proof.
  intros Hk Hq. assert (Hp : 0 < 2 ^ k) by (apply Z.pow_pos_nonneg; lia). assert (E32 : 2 ^ 32 = 2 ^ (32 - k) * 2 ^ k) by (rewrite <- Z.pow_add_r by lia; f_equal; lia).
  unfold w32 in Hq. apply Z.mod_divide in Hq as [a Ha]; [|lia]. pose proof (Z.div_mod (2 ^ k - 4) (2 ^ 32) ltac:(lia)) as Hd.
  apply Z.mod_divide; [lia|]. exists (a + 1 - 2 ^ (32 - k) * ((2 ^ k - 4) / 2 ^ 32)).
  revert Ha Hd. generalize ((2 ^ k - 4) / 2 ^ 32) as D, ((2 ^ k - 4) mod 2 ^ 32) as R. intros D R Ha Hd. rewrite E32 in Hd. lia.
Qed.

Lemma _memalign_run fuel cpu rs k size h Ls live : heap_ok h Ls live -> core_malloc_lmm h !! cpu = Some rs -> ample fuel rs -> low rs -> 0 <= k <= 29 -> 0 <= size <= 2 ^ 29 ->
  exists p h', _memalign fuel cpu (2 ^ k) size h = Ok (p, h') /\
    buffer_post (no_room 0 (size + 4) k (w32 (2 ^ k - 4)) 0 4294967295) (fun p => p mod 2 ^ k = 0) (size + 4) rs cpu h Ls live p h'.
Proof.
  intros Hok Hc Ha Hlow Hk Hs. unfold _memalign, sizeof_size_t. rewrite (bind_ok _ _ _ k h) by (apply find_shift_ok; lia). rewrite (w32_small (size + 4)), Z.shiftl_1_l by lia.
  assert (2 ^ k <= 2 ^ 29) by (apply Z.pow_le_mono_r; lia). assert (0 < 2 ^ k) by (apply Z.pow_pos_nonneg; lia). rewrite (w32_small (2 ^ k)) by lia.
  edestruct (buffer_tail cpu rs) as (p & h' & R & P); [exact Hok|exact Hc|shelve|apply (lmm_alloc_aligned_run fuel (size + 4) k (w32 (2 ^ k - 4)) rs h Ls cpu live); try done; [lia|apply Z.mod_pos_bound; lia]|].
  Unshelve. 2: lia. exists p, h'. split; [exact R|]. destruct P as [P|(Ls' & P1 & P2 & P3)]; [by left|right]. exists Ls'. split; [done|]. split; [|done].
  replace p with (p - 4 + 4) by lia. by apply mod_offset.
Qed.

(** [_smalloc] and [_smemalign]: no word in front. *)
Lemma _smalloc_run fuel cpu rs size h Ls live : heap_ok h Ls live -> core_malloc_lmm h !! cpu = Some rs -> ample fuel rs -> 0 < size <= 2 ^ 32 - 16 ->
  exists p h', _smalloc fuel cpu size h = Ok (p, h') /\ heap_post (none_as_long 0 size) (fun p => p mod 8 = 0) size rs cpu h Ls live p h'.
Proof.
  intros Hok Hc Ha Hs. pose proof (ho_lmm _ _ _ Hok cpu rs Hc) as Hr.
  destruct (heap_alloc cpu rs (none_as_long 0 size) (fun p => p mod 8 = 0) size (lmm_alloc fuel size 0) h Ls live Hok Hc Hs) as (q & h1 & R & P).
  { apply lmm_alloc_run; [done|by apply (ample_enough fuel (kmem h) rs)|lia]. }
  exists q, h1. split; [|done]. unfold _smalloc. rewrite (bind_ok _ _ _ _ _ R). by destruct (Z.eqb_spec q 0) as [->|].
Qed.

Lemma _smemalign_run fuel cpu rs k size h Ls live : heap_ok h Ls live -> core_malloc_lmm h !! cpu = Some rs -> ample fuel rs -> low rs -> 0 <= k <= 29 -> 0 < size <= 2 ^ 30 ->
  exists p h', _smemalign fuel cpu (2 ^ k) size h = Ok (p, h') /\ heap_post (no_room 0 size k 0 0 4294967295) (fun p => p mod 2 ^ k = 0) size rs cpu h Ls live p h'.
Proof.
  intros Hok Hc Ha Hlow Hk Hs.
  destruct (heap_alloc cpu rs (no_room 0 size k 0 0 4294967295) (fun p => (p - 0) mod 2 ^ k = 0) size (lmm_alloc_aligned fuel size 0 k 0) h Ls live Hok Hc ltac:(lia)) as (q & h1 & R & P).
  { by apply (lmm_alloc_aligned_run fuel size k 0 rs h Ls cpu live). }
  exists q, h1. unfold _smemalign. rewrite (bind_ok _ _ _ k h) by (apply find_shift_ok; lia). rewrite (bind_ok _ _ _ _ _ R). split; [by destruct (Z.eqb_spec q 0) as [->|]|].
  destruct P as [P|(Ls' & P1 & P2 & P3)]; [by left|right]. exists Ls'. rewrite Z.sub_0_r in P2. done.
Qed.

(** ** [_calloc] and [_realloc] *)

Lemma memset_spec n c x : forall to f, memset n to c f x = if (to <=? x) && (x <? to + Z.of_nat n) then c mod 256 else f x.
Proof.
  induction n as [|n IH]; intros to f; cbn [memset].
  - destruct (Z.leb_spec to x), (Z.ltb_spec x (to + Z.of_nat 0)); simpl; try done; lia.
  - rewrite IH. destruct (Z.eqb_spec x to), (Z.leb_spec (to + 1) x), (Z.ltb_spec x (to + 1 + Z.of_nat n)), (Z.leb_spec to x), (Z.ltb_spec x (to + Z.of_nat (S n))); simpl; try done; lia.
Qed.

Lemma memcpy_spec n x : forall to from f, to + Z.of_nat n <= from \/ from + Z.of_nat n <= to ->
  memcpy n to from f x = if (to <=? x) && (x <? to + Z.of_nat n) then f (from + (x - to)) else f x.
Proof.
  induction n as [|n IH]; intros to from f Hd; cbn [memcpy].
  - destruct (Z.leb_spec to x), (Z.ltb_spec x (to + Z.of_nat 0)); simpl; try done; lia.
  - rewrite IH by lia. destruct (Z.leb_spec (to + 1) x), (Z.ltb_spec x (to + 1 + Z.of_nat n)), (Z.leb_spec to x), (Z.ltb_spec x (to + Z.of_nat (S n))); simpl; try lia.
    + rewrite (proj2 (Z.eqb_neq _ to)) by lia. f_equal. lia.
    + by rewrite (proj2 (Z.eqb_neq x to)) by lia.
    + replace x with to by lia. rewrite Z.eqb_refl. f_equal. lia.
    + by rewrite (proj2 (Z.eqb_neq x to)) by lia.
Qed.

(** Two chunks in use do not overlap. *)
Lemma chunks_apart h Ls live c c' n n' : heap_ok h Ls live -> live !! c = Some n -> live !! c' = Some n' -> c <> c' -> c + n <= c' \/ c' + n' <= c.
Proof.
  intros Hok Hl Hl' Hne. destruct (ho_range _ _ _ Hok c n Hl) as (? & _ & ?). destruct (ho_range _ _ _ Hok c' n' Hl') as (? & _ & ?).
  destruct (Z.le_gt_cases (c + n) c'); [by left|]. destruct (Z.le_gt_cases (c' + n') c); [by right|]. exfalso.
  apply (ho_live _ _ _ Hok c c' n n' (Z.max c c') Hl Hl' Hne); apply chunk_within; lia.
Qed.

Lemma keeps_sub live live' h h' : live' ⊆ live -> keeps live h h' -> keeps live' h h'.
Proof. intros Hs Hk c n x Hl. apply Hk. by apply (lookup_weaken live'). Qed.

Lemma _realloc_run fuel cpu rs buf n new_size h Ls live : heap_ok h Ls live -> core_malloc_lmm h !! cpu = Some rs -> ample fuel rs -> live !! (buf - 4) = Some n -> 4 <= n ->
  word_of (kmem h) (buf - 4) = n -> 0 <= new_size <= 2 ^ 32 - 20 ->
  exists p h', _realloc fuel cpu buf new_size h = Ok (p, h') /\
    ((p = 0 /\ h' = h /\ Forall2 (none_as_long 0 (new_size + 4)) rs (Ls cpu)) \/
     exists Ls', p <> 0 /\ live !! (p - 4) = None /\ heap_ok h' Ls' (<[p - 4 := new_size + 4]> (delete (buf - 4) live)) /\ word_of (kmem h') (p - 4) = new_size + 4 /\
       (forall i, 0 <= i < Z.min (n - 4) new_size -> kmem h' (p + i) = kmem h (buf + i)) /\ keeps (delete (buf - 4) live) h h').
Proof.
  intros Hok Hc Ha Hl Hn Hw Hs. set (op := buf - 4) in *. destruct (ho_range _ _ _ Hok op n Hl) as (Hop & _ & Hn'). pose proof (ho_lmm _ _ _ Hok cpu rs Hc) as Hr.
  unfold _realloc, sizeof_size_t. rewrite (proj2 (Z.eqb_neq buf 0)) by lia. fold op. rewrite (w32_small op), (w32_small (new_size + 4)) by lia. set (k := new_size + 4) in *.
  rewrite (bind_ok (kload op) _ _ n h) by (unfold kload, gets; by rewrite Hw).
  destruct (heap_alloc cpu rs (none_as_long 0 k) (fun p => p mod 8 = 0) k (lmm_alloc fuel k 0) h Ls live Hok Hc ltac:(lia)) as (q & h1 & R & P).
  { apply lmm_alloc_run; [done|by apply (ample_enough fuel (kmem h) rs)|lia]. }
  rewrite (bind_ok _ _ _ _ _ R). destruct P as [(-> & -> & F)|(Ls1 & Hq & _ & Hok1 & Hno & Hk1 & (rs1 & Ec & Hsame))]; [exists 0, h; split; [done|]; by left|].
  rewrite (proj2 (Z.eqb_neq q 0)) by done. assert (Hc1 : core_malloc_lmm h1 !! cpu = Some rs1) by (rewrite Ec; apply lookup_insert_eq).
  assert (Hqop : q <> op) by congruence. assert (Hl1 : (<[q := k]> live : gmap Z Z) !! op = Some n) by (by rewrite lookup_insert_ne).
  assert (Hlq : (<[q := k]> live : gmap Z Z) !! q = Some k) by apply lookup_insert_eq. destruct (chunk_fits _ _ _ cpu rs1 q k Hok1 Hc1 Hlq) as (Hq0 & _ & Hqk).
  set (cnt := if n <? k then n else k). assert (Ecnt : cnt = Z.min n k) by (unfold cnt; destruct (Z.ltb_spec n k); lia).
  pose proof (chunks_apart _ _ _ q op k n Hok1 Hlq Hl1 Hqop) as Hap.
  set (m2 := memcpy (Z.to_nat cnt) q op (kmem h1)). assert (M2 : forall x, m2 x = if (q <=? x) && (x <? q + cnt) then kmem h1 (op + (x - q)) else kmem h1 x) by (intros x; unfold m2; rewrite memcpy_spec; rewrite ?Z2Nat.id; lia || done).
  rewrite (bind_ok (upd_kmem _) _ _ tt (with_kmem m2 h1) eq_refl).
  destruct (chunk_write h1 Ls1 _ q k m2 Hok1 Hlq) as [W1 W2]; [intros x Hx; rewrite M2; replace ((q <=? x) && (x <? q + cnt)) with false by lia; done|].
  destruct (heap_free fuel cpu rs1 op n (with_kmem m2 h1) Ls1 (<[q := k]> live) W1 Hc1 ltac:(by apply (ample_same fuel rs)) Hl1) as (h3 & Ls3 & R3 & Hok3 & Hk3 & _ & _).
  rewrite (bind_ok _ _ _ _ _ R3). rewrite delete_insert_ne in Hok3, Hk3 by done.
  set (m4 := put (kmem h3) q (word_bytes k)). rewrite (bind_ok (kstore q k) _ _ tt (with_kmem m4 h3) eq_refl). rewrite (w32_small (q + 4)) by lia.
  assert (Hlq3 : (<[q := k]> (delete op live) : gmap Z Z) !! q = Some k) by apply lookup_insert_eq.
  destruct (chunk_write h3 Ls3 _ q k m4 Hok3 Hlq3) as [V1 V2]; [intros x Hx; apply put_out; simpl; lia|].
  exists (q + 4), (with_kmem m4 h3). split; [done|]. right. exists Ls3. replace (q + 4 - 4) with q by lia. split; [lia|]. split; [done|]. split; [done|].
  split; [apply word_put; lia|]. assert (Hsub : delete op live ⊆ live) by apply delete_subseteq. assert (Hno' : delete op live !! q = None) by (rewrite lookup_delete_ne; done). split.
  - intros i Hi. simpl. unfold m4. rewrite put_out by (simpl; lia). rewrite (Hk3 q k (q + 4 + i) Hlq3) by (apply chunk_within; lia). simpl. rewrite M2. replace ((q <=? q + 4 + i) && (q + 4 + i <? q + cnt)) with true by lia.
    replace (op + (q + 4 + i - q)) with (buf + i) by (unfold op; lia). apply (Hk1 op n (buf + i) Hl). apply chunk_within; unfold op in *; lia.
  - apply (keeps_trans _ _ h1); [by apply (keeps_sub live)|]. apply (keeps_trans _ _ (with_kmem m2 h1)); [by apply (keeps_sub live), W2|].
    apply (keeps_trans _ _ h3); [|by apply V2]. apply (keeps_sub (<[q := k]> (delete op live))); [by apply insert_subseteq|done].
Qed.

Lemma _calloc_run fuel cpu rs nelt eltsize h Ls live : heap_ok h Ls live -> core_malloc_lmm h !! cpu = Some rs -> ample fuel rs -> 0 <= nelt * eltsize <= 2 ^ 32 - 20 ->
  exists p h', _calloc fuel cpu nelt eltsize h = Ok (p, h') /\
    buffer_post (none_as_long 0 (nelt * eltsize + 4)) (fun p => (p - 4) mod 8 = 0) (nelt * eltsize + 4) rs cpu h Ls live p h' /\ (p <> 0 -> forall x, p <= x < p + nelt * eltsize -> kmem h' x = 0).
Proof.
  intros Hok Hc Ha Hs. unfold _calloc. rewrite (w32_small (nelt * eltsize)) by lia. set (k := nelt * eltsize) in *. destruct (_malloc_run fuel cpu rs k h Ls live Hok Hc Ha Hs) as (p & h1 & R & P).
  rewrite (bind_ok _ _ _ _ _ R). destruct P as [(-> & -> & F)|(Ls1 & Hp & Hg & Hpk & Hno & Hok1 & Hw & Hk)]; [exists 0, h; split; [done|]; split; [by left|done]|].
  rewrite (proj2 (Z.eqb_neq p 0)) by done. set (m := memset (Z.to_nat k) p 0 (kmem h1)). rewrite (bind_ok (upd_kmem _) _ _ tt (with_kmem m h1) eq_refl). exists p, (with_kmem m h1). split; [done|].
  assert (Em : forall x, m x = if (p <=? x) && (x <? p + k) then 0 else kmem h1 x) by (intros x; unfold m; rewrite memset_spec, Z2Nat.id by lia; done).
  assert (Hlp : (<[p - 4 := k + 4]> live : gmap Z Z) !! (p - 4) = Some (k + 4)) by apply lookup_insert_eq. destruct (ho_range _ _ _ Hok1 _ _ Hlp) as (Hp4 & _).
  destruct (chunk_write h1 Ls1 _ (p - 4) (k + 4) m Hok1 Hlp) as [W1 W2]; [intros x Hx; rewrite Em; replace ((p <=? x) && (x <? p + k)) with false by lia; done|]. split.
  - right. exists Ls1. split; [done|]. split; [done|]. split; [done|]. split; [done|]. split; [done|]. split; [|apply (keeps_trans _ _ h1); [done|by apply W2]].
    rewrite <- Hw. apply word_of_ext. intros x Hx. simpl. rewrite Em. replace ((p <=? x) && (x <? p + k)) with false by lia. done.
  - intros _ x Hx. simpl. rewrite Em. replace ((p <=? x) && (x <? p + k)) with true by lia. done.
Qed.
End heap.
End LmmMalloc.
