(* ===== verification/KernelHeapSafe.v ===== *)
(** * The kernel's heap: safety and set-up

    [hstep] are the steps the kernel can make with its heap: a request to the allocator on
    any core, which the client has the right to make, and a write of a client to a chunk it
    owns.  In every state that these steps reach the chunks in use do not overlap, the
    words with their sizes are intact, and every further request ends.

    [dist_kernel_mem], which divides the memory of the boot pool among the cores, sets
    this invariant up. *)

From Stdlib Require Import ZArith Lia.
From stdpp Require Import base gmap list tactics numbers relations.
From S2P Require Import Prelude AddrSpace SimpleQueue ThreadState Mutex MallocWrappers Lmm LmmProofs LmmHeap LmmMalloc.

#[local] Open Scope Z_scope.

Module KernelHeapSafe.
Import Lmm LmmProofs LmmHeap LmmMalloc.

(** The chunks in use: their size, and whether they start with it. *)
Abbreviation chunks := (gmap Z (Z * bool)).

Inductive request : Type :=
| Malloc (size : Z)
| Memalign (k size : Z)
| Calloc (nelt eltsize : Z)
| Realloc (buf new_size : Z)
| Free (buf : Z)
| Smalloc (size : Z)
| Smemalign (k size : Z)
| Sfree (chunk size : Z).

(** What the allocator is asked, through the interface of the wrappers; alignments are powers of two. *)
Definition serve {H} `{RawAlloc H} (r : request) : M H Z :=
  match r with
  | Malloc size => ra_malloc size
  | Memalign k size => ra_memalign (2 ^ k) size
  | Calloc nelt eltsize => ra_calloc nelt eltsize
  | Realloc buf new_size => ra_realloc buf new_size
  | Free buf => ra_free buf;; mret 0
  | Smalloc size => ra_smalloc size
  | Smemalign k size => ra_smemalign (2 ^ k) size
  | Sfree chunk size => ra_sfree chunk size;; mret 0
  end.

(** What a client must respect: sizes that do not overflow, and only its own chunks. *)
Definition legal (u : chunks) (r : request) : Prop :=
  match r with
  | Malloc size => 0 <= size <= 2 ^ 32 - 20
  | Memalign k size => 0 <= k <= 29 /\ 0 <= size <= 2 ^ 29
  | Calloc nelt eltsize => 0 <= nelt * eltsize <= 2 ^ 32 - 20
  | Realloc buf new_size => 0 <= new_size <= 2 ^ 32 - 20 /\ (buf = 0 \/ exists n, u !! (buf - 4) = Some (n, true))
  | Free buf => exists n, u !! (buf - 4) = Some (n, true)
  | Smalloc size => 0 < size <= 2 ^ 32 - 16
  | Smemalign k size => 0 <= k <= 29 /\ 0 < size <= 2 ^ 30
  | Sfree chunk size => u !! chunk = Some (size, false)
  end.

(** The abstract effect of a request that returned [p]. *)
Definition after (u : chunks) (r : request) (p : Z) : chunks :=
  match r with
  | Free buf => delete (buf - 4) u
  | Sfree chunk _ => delete chunk u
  | Malloc size | Memalign _ size => if p =? 0 then u else <[p - 4 := (size + 4, true)]> u
  | Calloc nelt eltsize => if p =? 0 then u else <[p - 4 := (nelt * eltsize + 4, true)]> u
  | Realloc buf new_size => if p =? 0 then u else <[p - 4 := (new_size + 4, true)]> (delete (buf - 4) u)
  | Smalloc size | Smemalign _ size => if p =? 0 then u else <[p := (size, false)]> u
  end.

(** Where the client's part of a chunk begins. *)
Definition body (c : Z) (b : bool) : Z := if b then c + 4 else c.

Inductive hstep (fuel : nat) : kheap * chunks -> kheap * chunks -> Prop :=
| hs_serve cpu rs r p h h' u : core_malloc_lmm h !! cpu = Some rs -> legal u r -> @serve kheap (lmm_raw fuel cpu) r h = Ok (p, h') -> hstep fuel (h, u) (h', after u r p)
| hs_write c n b m h u : u !! c = Some (n, b) -> (forall x, ~ (body c b <= x < c + n) -> m x = kmem h x) -> hstep fuel (h, u) (with_kmem m h, u).

Section safe.
(** The regions of the cores, below 2 GB, and the fuel, which is enough for them. *)
Context (bds : list (Z * Z)) (fuel : nat).
Hypothesis bds_ok : Forall (fun b => snd b - fst b < 8 * Z.of_nat fuel /\ snd b <= 2 ^ 31) bds.
#[local] Abbreviation heap_ok := (heap_ok bds).

(** The words with the sizes. *)
Definition sizes (h : kheap) (u : chunks) : Prop := forall c n, u !! c = Some (n, true) -> 4 <= n /\ word_of (kmem h) c = n.
Definition heap_inv (h : kheap) (u : chunks) : Prop := (exists Ls, heap_ok h Ls (fst <$> u)) /\ sizes h u.

Lemma lookup_fst (u : chunks) c n b : u !! c = Some (n, b) -> (fst <$> u : gmap Z Z) !! c = Some n.
Proof. intros H. by rewrite lookup_fmap, H. Qed.

Lemma sizes_kept h h' Ls u u' : heap_ok h Ls (fst <$> u) -> u' ⊆ u -> keeps (fst <$> u') h h' -> sizes h u -> sizes h' u'.
Proof.
  intros Hok Hsub Hk Hs c n Hu'. pose proof (lookup_weaken u' u c (n, true) Hu' Hsub) as Hu. destruct (Hs c n Hu) as [H1 H2]. split; [done|]. etransitivity; [|exact H2].
  destruct (ho_range _ _ _ _ Hok c n (lookup_fst u c n true Hu)) as (? & _ & ?). apply (keeps_word _ _ _ c n Hk (lookup_fst u' c n true Hu')); lia.
Qed.

Lemma inv_add h h' Ls Ls' u u' c n b : heap_ok h Ls (fst <$> u) -> u' ⊆ u -> sizes h u -> heap_ok h' Ls' (<[c := n]> (fst <$> u')) -> keeps (fst <$> u') h h' ->
  (b = true -> 4 <= n /\ word_of (kmem h') c = n) -> heap_inv h' (<[c := (n, b)]> u').
Proof.
  intros Hok Hsub Hs Hok' Hk Hb. split; [exists Ls'; by rewrite fmap_insert|]. intros c' n' [[<- [= <- ->]]|[Hne Hu]]%lookup_insert_Some; [by apply Hb|]. by apply (sizes_kept h h' Ls u u').
Qed.

(** The chunks that stay have the same bytes. *)
Definition contents (u u' : chunks) (h h' : kheap) : Prop := forall c n b x, u !! c = Some (n, b) -> u' !! c = Some (n, b) -> c <= x < c + n -> kmem h' x = kmem h x.

Lemma contents_keeps h h' Ls u v u' : heap_ok h Ls (fst <$> u) -> keeps (fst <$> v) h h' -> (forall c n b, u !! c = Some (n, b) -> u' !! c = Some (n, b) -> v !! c = Some (n, b)) -> contents u u' h h'.
Proof.
  intros Hok Hk Hv c n b x Hu Hu' Hx. destruct (ho_range _ _ _ _ Hok c n (lookup_fst u c n b Hu)) as (? & _ & ?).
  apply (Hk c n x (lookup_fst v c n b (Hv c n b Hu Hu'))). apply chunk_within; lia.
Qed.

Lemma inv_delete cpu rs c n b h u : heap_inv h u -> core_malloc_lmm h !! cpu = Some rs -> ample fuel rs -> u !! c = Some (n, b) ->
  exists h', on_core cpu (lmm_free fuel c n) h = Ok (tt, h') /\ heap_inv h' (delete c u) /\ contents u (delete c u) h h'.
Proof.
  intros [[Ls Hok] Hs] Hc Ha Hu. destruct (heap_free bds fuel cpu rs c n h Ls _ Hok Hc Ha (lookup_fst u c n b Hu)) as (h' & Ls' & R & K1 & K2 & _). exists h'. split; [done|].
  rewrite <- fmap_delete in K1, K2.
  split; [split; [by exists Ls'|]; apply (sizes_kept h h' Ls u); try done; apply delete_subseteq|by apply (contents_keeps h h' Ls u (delete c u))].
Qed.

Lemma cores_ok h Ls live cpu rs : heap_ok h Ls live -> core_malloc_lmm h !! cpu = Some rs -> ample fuel rs /\ low rs.
Proof.
  intros Hok Hc. pose proof (ho_bounds _ _ _ _ Hok cpu rs Hc) as E. rewrite <- E in bds_ok. clear -bds_ok. unfold ample, low. rewrite !Forall_forall in *.
  split; intros r Hr; apply list_elem_of_In, (in_map bounds), list_elem_of_In in Hr; destruct (bds_ok (bounds r) Hr); done.
Qed.

(** Every legal request on every core ends, keeps the invariant and has the abstract effect. *)
Lemma legal_run cpu rs r h u : heap_inv h u -> core_malloc_lmm h !! cpu = Some rs -> legal u r ->
  exists p h', @serve kheap (lmm_raw fuel cpu) r h = Ok (p, h') /\ heap_inv h' (after u r p) /\ contents u (after u r p) h h'.
Proof.
  intros [[Ls Hok] Hs] Hc Hl. destruct (cores_ok h Ls _ cpu rs Hok Hc) as [Ha Hlow]. assert (Same : heap_inv h u) by (split; [by exists Ls|done]).
  assert (Keep : forall h' u', keeps (fst <$> u) h h' -> contents u u' h h') by (intros h' u' Hk; by apply (contents_keeps h h' Ls u u u')). assert (Stay : contents u u h h) by done.
  assert (Buf : forall fails good n p h', 4 <= n -> buffer_post bds fails good n rs cpu h Ls (fst <$> u) p h' -> let u' := if p =? 0 then u else <[p - 4 := (n, true)]> u in heap_inv h' u' /\ contents u u' h h').
  { intros fails good n p h' Hn [(-> & -> & _)|(Ls' & Hp & _ & _ & _ & Hok' & Hw & Hk)]; [done|]. rewrite (proj2 (Z.eqb_neq p 0)) by done. split; [by apply (inv_add h h' Ls Ls' u)|by apply Keep]. }
  assert (Raw : forall fails good n p h', heap_post bds fails good n rs cpu h Ls (fst <$> u) p h' -> let u' := if p =? 0 then u else <[p := (n, false)]> u in heap_inv h' u' /\ contents u u' h h').
  { intros fails good n p h' [(-> & -> & _)|(Ls' & Hp & _ & Hok' & _ & Hk & _)]; [done|]. rewrite (proj2 (Z.eqb_neq p 0)) by done. split; [by apply (inv_add h h' Ls Ls' u)|by apply Keep]. }
  destruct r as [size|k size|nelt eltsize|buf new_size|buf|size|k size|c size]; simpl in Hl |- *.
  - destruct (_malloc_run bds fuel cpu rs size h Ls _ Hok Hc Ha Hl) as (p & h' & R & P). exists p, h'. split; [done|]. eapply Buf; [lia|exact P].
  - destruct (_memalign_run bds fuel cpu rs k size h Ls _ Hok Hc Ha Hlow ltac:(lia) ltac:(lia)) as (p & h' & R & P). exists p, h'. split; [done|]. eapply Buf; [lia|exact P].
  - destruct (_calloc_run bds fuel cpu rs nelt eltsize h Ls _ Hok Hc Ha Hl) as (p & h' & R & P & _). exists p, h'. split; [done|]. eapply Buf; [lia|exact P].
  - destruct Hl as [Hsz [->|[n Hu]]].
    + destruct (_malloc_run bds fuel cpu rs new_size h Ls _ Hok Hc Ha Hsz) as (p & h' & R & P). exists p, h'. split; [done|]. rewrite delete_id; [eapply Buf; [lia|exact P]|].
      destruct (u !! (0 - 4)) as [[n b]|] eqn:E; [|done]. destruct (ho_range _ _ _ _ Hok _ _ (lookup_fst u _ n b E)). lia.
    + destruct (Hs _ n Hu) as [H4 Hw]. destruct (_realloc_run bds fuel cpu rs buf n new_size h Ls _ Hok Hc Ha (lookup_fst u _ n true Hu) H4 Hw Hsz) as (p & h' & R & P). exists p, h'. split; [done|].
      destruct P as [(-> & -> & _)|(Ls' & Hp & Hno & Hok' & Hw' & _ & Hk)]; [done|]. rewrite (proj2 (Z.eqb_neq p 0)) by done. rewrite <- fmap_delete in Hok', Hk.
      split; [apply (inv_add h h' Ls Ls' u); try done; [apply delete_subseteq|]; intros _; split; [lia|done]|]. apply (contents_keeps h h' Ls u (delete (buf - 4) u)); [done|done|].
      intros c n' b H1 [[<- _]|[_ H2]]%lookup_insert_Some; [|done]. by rewrite (lookup_fst u _ n' b H1) in Hno.
  - destruct Hl as [n Hu]. destruct (Hs _ n Hu) as [H4 Hw]. destruct (ho_range _ _ _ _ Hok _ n (lookup_fst u _ n true Hu)) as (? & _).
    destruct (inv_delete cpu rs (buf - 4) n true h u Same Hc Ha Hu) as (h' & R & I). exists 0, h'. split; [|done]. unfold _free, sizeof_size_t. rewrite (w32_small (buf - 4)) by lia.
    rewrite (bind_ok _ _ _ tt h'); [done|]. rewrite (bind_ok (kload (buf - 4)) _ _ n h) by (unfold kload, gets; by rewrite Hw). done.
  - destruct (_smalloc_run bds fuel cpu rs size h Ls _ Hok Hc Ha Hl) as (p & h' & R & P). exists p, h'. split; [done|]. eapply Raw; exact P.
  - destruct (_smemalign_run bds fuel cpu rs k size h Ls _ Hok Hc Ha Hlow ltac:(lia) ltac:(lia)) as (p & h' & R & P). exists p, h'. split; [done|]. eapply Raw; exact P.
  - destruct (inv_delete cpu rs c size false h u Same Hc Ha Hl) as (h' & R & I). exists 0, h'. unfold _sfree. by rewrite (bind_ok _ _ _ _ _ R).
Qed.

Lemma hstep_inv s s' : hstep fuel s s' -> heap_inv (fst s) (snd s) -> heap_inv (fst s') (snd s').
Proof.
  intros [cpu rs r p h h' u Hc Hl R|c n b m h u Hu Hm] Hi; simpl in *.
  - destruct (legal_run cpu rs r h u Hi Hc Hl) as (p' & h'' & R' & I). rewrite R in R'. injection R' as <- <-. apply I.
  - destruct Hi as [[Ls Hok] Hs]. pose proof (lookup_fst u c n b Hu) as Hl. destruct (ho_range _ _ _ _ Hok c n Hl) as (? & _ & ?).
    assert (Hbody : c <= body c b) by (unfold body; destruct b; lia).
    destruct (chunk_write bds h Ls (fst <$> u) c n m Hok Hl) as [W _]; [intros x Hx; apply Hm; lia|]. split; [by exists Ls|]. intros c' n' Hu'.
    destruct (Hs c' n' Hu') as [H4 Hw]. split; [done|]. etransitivity; [|exact Hw]. pose proof (lookup_fst u c' n' true Hu') as Hl'. destruct (ho_range _ _ _ _ Hok c' n' Hl') as (? & _ & ?).
    apply word_of_ext. intros x Hx. simpl. apply Hm. destruct (decide (c' = c)) as [->|Hne].
    + rewrite Hu in Hu'. injection Hu' as -> ->. simpl. lia.
    + destruct (chunks_apart bds h Ls (fst <$> u) c c' n n' Hok Hl Hl' ltac:(done)); lia.
Qed.

Lemma reach_inv s s' : rtc (hstep fuel) s s' -> heap_inv (fst s) (snd s) -> heap_inv (fst s') (snd s').
Proof. induction 1 as [|s1 s2 s3 H _ IH]; [done|]. intros Hi. by apply IH, (hstep_inv s1). Qed.

(** (C6) Safety of the kernel's heap.  Start from lists of free memory that are apart, with no chunk in
    use, and let the kernel make any sequence of steps: requests to [malloc], [memalign],
    [calloc], [realloc], [free], [smalloc], [smemalign] and [sfree], on any core, also on
    another one than the chunk came from, and arbitrary writes of clients to
    their chunks.  In the state that is reached any two chunks in use are disjoint, every chunk
    still starts with its size, and every further legal request on every core ends without a
    panic or a fault, leads to such a state again, and leaves every byte of the chunks that stay in
    use as it is. *)
Theorem kernel_heap_safe h0 Ls0 h u : heap_ok h0 Ls0 ∅ -> rtc (hstep fuel) (h0, ∅) (h, u) ->
  (forall c c' n n' b b', u !! c = Some (n, b) -> u !! c' = Some (n', b') -> c <> c' -> c + n <= c' \/ c' + n' <= c) /\ sizes h u /\
  forall cpu rs r, core_malloc_lmm h !! cpu = Some rs -> legal u r -> exists p h', @serve kheap (lmm_raw fuel cpu) r h = Ok (p, h') /\ heap_inv h' (after u r p) /\ contents u (after u r p) h h'.
Proof.
  intros Hok0 Hsteps. assert (Hi : heap_inv h u).
  { apply (reach_inv (h0, (∅ : chunks)) (h, u) Hsteps). split; [exists Ls0; simpl; by rewrite fmap_empty|]. intros c n Hc. simpl in Hc. by rewrite lookup_empty in Hc. }
  split; [|split; [apply Hi|]].
  - intros c c' n n' b b' H1 H2 Hne. destruct Hi as [[Ls Hok] _]. by apply (chunks_apart bds h Ls (fst <$> u) c c' n n' Hok (lookup_fst u c n b H1) (lookup_fst u c' n' b' H2)).
  - intros cpu rs r Hc Hl. by apply (legal_run cpu rs).
Qed.

(** The locking wrappers over this allocator: with the core's lock free, [malloc] and [free] of the
    kernel serve the request and release the lock. *)
Theorem wrappers_over_lmm cpu rs me r s u : 0 <= me -> MallocWrappers.unlocked cpu s -> heap_inv (MallocWrappers.heap s) u ->
  core_malloc_lmm (MallocWrappers.heap s) !! cpu = Some rs -> legal u r ->
  exists p h', MallocWrappers.locked cpu me (@serve kheap (lmm_raw fuel cpu) r) s = Ok (p, MallocWrappers.with_heap h' s) /\ MallocWrappers.unlocked cpu (MallocWrappers.with_heap h' s) /\
    heap_inv h' (after u r p) /\ contents u (after u r p) (MallocWrappers.heap s) h'.
Proof.
  intros Hme Hu Hi Hc Hl. destruct (legal_run cpu rs r _ u Hi Hc Hl) as (p & h' & R & I). exists p, h'. split; [by apply MallocWrappers.locked_free|done].
Qed.

(** ** Dividing the pool among the cores *)

Definition largest (Ls : list (list block)) (big : Z) : Prop := (exists l, In l Ls /\ exists a, In (a, big) l) /\ Forall (Forall (fun b => snd b <= big)) Ls.

Lemma lacks_0 r : lacks 0 r = false.
Proof. unfold lacks. by rewrite Z.land_0_l. Qed.

Lemma block_size m rs : forall Ls l a s, lmm_ok m rs Ls -> In l Ls -> In (a, s) l -> 0 < a /\ 0 < s /\ s mod 8 = 0 /\ a + s <= 2 ^ 32 - 8.
Proof.
  induction rs as [|r rs IH]; intros [|l' Ls] l a s Hok Hl Hb; try done. destruct Hok as (H1 & _ & H3). destruct Hl as [->|Hl]; [|by apply (IH Ls l)].
  pose proof (ro_bounds _ _ _ H1) as Hbd. pose proof (ro_laid _ _ _ H1) as Hlaid. apply in_split in Hb as (l1 & l2 & ->). apply laid_app in Hlaid as [_ (? & ? & ? & ? & ? & ? & _)]. lia.
Qed.

(** An attempt that fails was for more than the largest block. *)
Lemma none_largest m rs Ls n big : lmm_ok m rs Ls -> 0 < n <= 2 ^ 32 - 8 -> largest Ls big -> Forall2 (none_as_long 0 n) rs Ls -> big < round n.
Proof.
  intros _ Hn [(l & Hl & a & Ha) _] Hf. induction Hf as [|r l' rs Ls Hr _ IH]; [done|]. destruct Hl as [->|Hl]; [|by apply IH].
  destruct Hr as [Hr|Hr]; [by rewrite lacks_0 in Hr|]. rewrite Forall_forall in Hr. by apply (Hr (a, big)), list_elem_of_In.
Qed.

Definition with_pool (s : lmm) (h : kheap) : kheap := mk_kheap (regions s) (core_malloc_lmm h) (lmem s).

(** The block that is taken is at least as long as the largest free one. *)
Lemma take_smidge_ok tries : forall n h Lp big, lmm_ok (kmem h) (malloc_lmm h) Lp -> ample fuel (malloc_lmm h) -> largest Lp big -> big <= n <= 2 ^ 32 - 8 -> n mod 4 = 0 -> n - big < 4 * Z.of_nat tries ->
  exists q n' s' Lp', take_smidge fuel tries n h = Ok ((q, n'), with_pool s' h) /\ big <= n' <= n /\ q mod 8 = 0 /\ lmm_rep s' Lp' /\ Forall2 same_region (malloc_lmm h) (regions s') /\
    took q n' (free_mem Lp) (free_mem Lp') /\ Exists (holds q n') (malloc_lmm h) /\ forall x, ~ free_mem Lp x -> lmem s' x = kmem h x.
Proof.
  induction tries as [|tries IH]; intros n h Lp big Hok Ha Hbig Hn H4 Htr; [lia|]. cbn [take_smidge].
  assert (Hb : 0 < big /\ big mod 8 = 0) by (destruct Hbig as [(l & Hl & a & Hin) _]; destruct (block_size _ _ Lp l a big Hok Hl Hin); lia).
  destruct (lmm_alloc_run fuel n 0 (mk_lmm (malloc_lmm h) (kmem h)) Lp Hok ltac:(by apply (ample_enough fuel (kmem h) (malloc_lmm h))) ltac:(lia)) as (q & s' & R & P).
  rewrite (bind_ok _ _ _ q (with_pool s' h)) by (unfold on_pool; by rewrite R).
  destruct P as [(-> & -> & F)|(Lp' & Hq & Hg & K1 & K2 & K3 & K4 & K5)].
  - cbn [negb Z.eqb]. cbv iota. pose proof (none_largest _ _ Lp n big Hok ltac:(lia) Hbig F) as Hr. simpl in F.
    assert (Hne : n <> big) by (intros ->; rewrite round_aligned in Hr by (lia || tauto); lia).
    assert (Hge : big + 4 <= n) by (destruct Hb as [_ [kb ->]%mod8]; apply Z.mod_divide in H4 as [kn ->]; lia).
    rewrite (w32_small (n - 4)) by lia. replace (with_pool (mk_lmm (malloc_lmm h) (kmem h)) h) with h by (by destruct h).
    destruct (IH (n - 4) h Lp big Hok Ha Hbig ltac:(lia) ltac:(rewrite Zminus_mod, H4; done) ltac:(lia)) as (q & n' & s' & Lp' & R' & K1 & K2). exists q, n', s', Lp'. split; [done|]. split; [lia|done].
  - rewrite (proj2 (Z.eqb_neq q 0)) by done. exists q, n, s', Lp'. split; [done|]. split; [lia|done].
Qed.

(** The part of the memory a core gets: whole units of eight bytes, inside its regions. *)
Definition slice (smidge per cpu x : Z) : Prop :=
  round (smidge + cpu * per) <= x < trunc (smidge + cpu * per + per) /\ Exists (fun b => fst b <= x < snd b) bds.

Lemma inside_bounds rs x : map bounds rs = bds -> Exists (fun r => inside r x) rs <-> Exists (fun b => fst b <= x < snd b) bds.
Proof. clear bds_ok. intros <-. induction rs as [|r rs IH]; simpl; [by rewrite !Exists_nil|]. by rewrite !Exists_cons, IH. Qed.

Lemma give_cores_ok smidge per n : forall i h Ls live, heap_ok h Ls live -> (forall c, i <= c < i + Z.of_nat n -> is_Some (core_malloc_lmm h !! c)) ->
  0 <= i -> 0 < smidge -> 8 <= per -> smidge + (i + Z.of_nat n) * per <= 2 ^ 32 - 8 ->
  (forall x, smidge + i * per <= x < smidge + (i + Z.of_nat n) * per ->
     (forall cpu rs, core_malloc_lmm h !! cpu = Some rs -> ~ free_mem (Ls cpu) x) /\ forall c k, live !! c = Some k -> ~ within c k x) ->
  exists h' Ls', give_cores fuel n i smidge per h = Ok (tt, h') /\ heap_ok h' Ls' live /\ malloc_lmm h' = malloc_lmm h /\
    (forall cpu x, free_mem (Ls' cpu) x <-> free_mem (Ls cpu) x \/ i <= cpu < i + Z.of_nat n /\ slice smidge per cpu x) /\ keeps live h h'.
Proof.
  induction n as [|n IH]; intros i h Ls live Hok Hcs Hi Hs0 Hper Htop Hd; cbn [give_cores].
  - exists h, Ls. split; [done|]. split; [done|]. split; [done|]. split; [|done]. intros cpu x. split; [by left|]. intros [|[? _]]; [done|lia].
  - destruct (Hcs i ltac:(lia)) as [rs Hc]. pose proof (ho_lmm _ _ _ _ Hok i rs Hc) as Hr. destruct (cores_ok h Ls live i rs Hok Hc) as [Ha _]. rewrite Nat2Z.inj_succ in *.
    set (st := smidge + i * per). assert (Hst : smidge <= st /\ st + per <= 2 ^ 32 - 8 /\ st + per = smidge + (i + 1) * per /\ smidge + (i + 1) * per <= smidge + (i + Z.succ (Z.of_nat n)) * per) by (unfold st; nia).
    destruct Hst as (Hst1 & Hst2 & Hst3 & Hst4). destruct (round_spec st ltac:(lia)) as [Hrd _]. destruct (blk_aligned (st + per) ltac:(lia)) as [_ Htr]. unfold blk in Htr.
    assert (Hin : forall x, round st <= x < trunc (st + per) -> smidge + i * per <= x < smidge + (i + Z.succ (Z.of_nat n)) * per) by (unfold st in *; lia).
    destruct (lmm_add_free_run fuel st per (mk_lmm rs (kmem h)) (Ls i) Hr Ha ltac:(lia) Hper ltac:(lia)) as (s' & L' & R & K1 & K2 & K3 & K4); [intros x Hx; apply (proj1 (Hd x (Hin x Hx)) i rs Hc)|].
    simpl in K2, K3, K4. rewrite (w32_small st) by lia. rewrite (bind_ok _ _ _ _ _ (on_core_ok i _ h rs tt s' Hc R)). assert (Hib : forall x, Exists (fun r => inside r x) rs <-> Exists (fun b => fst b <= x < snd b) bds) by (intros x; by apply inside_bounds, (ho_bounds _ _ _ _ Hok i)).
    assert (Hok1 : heap_ok (with_core i s' h) (set_core i L' Ls) live).
    { apply (heap_step bds h Ls live live i rs s' L'); try done.
      - intros cpu' rs' x Hne H' Hx. assert (Hnx : ~ (round st <= x < trunc (st + per))) by (intros Hx'; by apply (proj1 (Hd x (Hin x Hx')) cpu' rs')).
        assert (Hnf : ~ free_mem (Ls i) x) by (by apply (ho_apart _ _ _ _ Hok cpu' i rs' rs)). split; [rewrite (K3 x); tauto|by apply K4].
      - intros c k Hl. destruct (ho_range _ _ _ _ Hok c k Hl) as (? & ? & ?). split; [done|]. split; [done|]. split; [done|]. by apply (ho_holds _ _ _ _ Hok c k i).
      - intros c k x Hl Hx. split; [rewrite (K3 x); intros [?|[Hx' _]]; [by apply (ho_used _ _ _ _ Hok c k i rs x)|by apply (proj2 (Hd x (Hin x Hx')) c k)]|].
        intros cpu' rs' _ H'. by apply (ho_used _ _ _ _ Hok c k cpu' rs' x).
      - apply (ho_live _ _ _ _ Hok). }
    destruct (IH (i + 1) (with_core i s' h) (set_core i L' Ls) live Hok1) as (h' & Ls' & R' & J1 & J2 & J3 & J4); try done; try lia.
    + intros c Hcr. simpl. rewrite lookup_insert_ne by lia. apply Hcs. lia.
    + intros x Hx. assert (Hx' : smidge + i * per <= x < smidge + (i + Z.succ (Z.of_nat n)) * per) by lia. destruct (Hd x Hx') as [D1 D2]. split; [|done]. intros cpu rs' Hc'. simpl in Hc'.
      destruct (decide (cpu = i)) as [->|Hne]; [|rewrite set_core_ne by done; rewrite lookup_insert_ne in Hc' by done; by apply (D1 cpu rs')].
      rewrite set_core_eq, (K3 x). intros [?|[? _]]; [by apply (D1 i rs)|lia].
    + exists h', Ls'. split; [exact R'|]. split; [done|]. split; [by rewrite J2|]. split.
      * intros cpu x. rewrite (J3 cpu x). destruct (decide (cpu = i)) as [->|Hne].
        -- rewrite set_core_eq, (K3 x), Hib. unfold slice. fold st. assert (~ i + 1 <= i < i + 1 + Z.of_nat n) by lia. assert (i <= i < i + Z.succ (Z.of_nat n)) by lia. tauto.
        -- rewrite set_core_ne by done. assert (i + 1 <= cpu < i + 1 + Z.of_nat n <-> i <= cpu < i + Z.succ (Z.of_nat n)) by lia. tauto.
      * apply (keeps_trans _ _ (with_core i s' h)); [|done]. intros c k x Hl Hx. simpl. apply K4; [by apply (ho_used _ _ _ _ Hok c k i rs x)|].
        intros Hx'. by apply (proj2 (Hd x (Hin x Hx')) c k).
Qed.

Lemma total_mod l : forall lo hi, laid lo hi l -> total l mod 8 = 0.
Proof.
  induction l as [|[a s] l IH]; intros lo hi Hl; [done|]. destruct Hl as (? & ? & ? & ? & Hs & ? & Hl). rewrite total_cons, Zplus_mod, Hs, (IH _ _ Hl). done.
Qed.

Lemma avail_facts m rs : forall Ls, lmm_ok m rs Ls -> avail 0 rs mod 8 = 0 /\ 0 <= avail 0 rs /\ forall l a s, In l Ls -> In (a, s) l -> s <= avail 0 rs.
Proof.
  induction rs as [|r rs IH]; intros [|l Ls] Hok; try done. destruct Hok as (H1 & _ & H3). destruct (IH Ls H3) as (E1 & E2 & E3). destruct (region_free_bound _ _ _ H1) as [Hf _].
  cbn [avail foldr]. fold (avail 0 rs). rewrite lacks_0. cbv iota. split; [|split; [lia|]].
  - rewrite Zplus_mod, E1, (ro_free _ _ _ H1), (total_mod l _ _ (ro_laid _ _ _ H1)). done.
  - intros l' a s [<-|Hl] Hb; [|specialize (E3 l' a s Hl Hb); lia]. rewrite (ro_free _ _ _ H1). pose proof (ro_bounds _ _ _ H1). pose proof (ro_laid _ _ _ H1) as Hlaid.
    apply in_split in Hb as (l1 & l2 & ->). rewrite total_app, total_cons. apply laid_app in Hlaid as [L1 (? & ? & ? & ? & ? & ? & L2)].
    pose proof (total_bounds l1 (rmin r) (rmax r) ltac:(lia) L1). pose proof (total_bounds l2 (a + s) (rmax r) ltac:(lia) ltac:(by apply (laid_weaken _ (a + s + 1)); [lia|])). lia.
Qed.

(** A region list holds the block, so it ends below the top of memory. *)
Lemma held_top m rs Ls q n : lmm_ok m rs Ls -> Exists (holds q n) rs -> blk q + len q n <= 2 ^ 32 - 8.
Proof.
  intros Hok Hh. destruct (lmm_ok_bounds m rs Ls Hok) as [Hs _]. apply Exists_exists in Hh as (r & Hr & _ & Hh). rewrite Forall_forall in Hs. destruct (Hs r Hr) as (? & ? & _). lia.
Qed.

(** (C8) Setting up the heaps of the cores.  Let the memory of the boot pool overlap neither the heaps of the
    cores nor the chunks in use, and let its largest free block have at least eight bytes for
    every core.  Then the loop of [dist_kernel_mem], which asks for four bytes less
    after every failure, ends with a block at least as long as the largest one; every core gets, in
    addition to what it has, exactly its share of that block in whole units of eight bytes,
    no assertion fails, no chunk in use is touched, and the heaps are well formed and apart. *)
Theorem dist_kernel_mem_correct num tries h Lp Ls live big : heap_ok h Ls live -> lmm_ok (kmem h) (malloc_lmm h) Lp -> ample fuel (malloc_lmm h) -> largest Lp big ->
  0 < num -> 8 * num <= big -> avail 0 (malloc_lmm h) <= 2 ^ 32 - 8 -> avail 0 (malloc_lmm h) < 4 * Z.of_nat tries -> (forall c, 0 <= c < num -> is_Some (core_malloc_lmm h !! c)) ->
  (forall x, free_mem Lp x -> (forall cpu rs, core_malloc_lmm h !! cpu = Some rs -> ~ free_mem (Ls cpu) x) /\ forall c k, live !! c = Some k -> ~ within c k x) ->
  exists h' Ls' smidge n, dist_kernel_mem fuel num tries h = Ok (tt, h') /\ big <= n /\ (forall x, smidge <= x < smidge + n -> free_mem Lp x) /\ heap_ok h' Ls' live /\
    (forall cpu x, free_mem (Ls' cpu) x <-> free_mem (Ls cpu) x \/ 0 <= cpu < num /\ slice smidge (n / num) cpu x) /\ keeps live h h'.
Proof.
  intros Hok Hp Ha Hbig Hnum Hb8 Hav Htr Hcs Hd. destruct (avail_facts _ _ Lp Hp) as (A1 & A2 & A3). assert (Hba : big <= avail 0 (malloc_lmm h)) by (destruct Hbig as [(l & Hl & a & Hin) _]; by apply (A3 l a)).
  unfold dist_kernel_mem. rewrite (bind_ok _ _ _ (avail 0 (malloc_lmm h)) h).
  2: { unfold on_pool. rewrite (lmm_avail_run 0 (mk_lmm (malloc_lmm h) (kmem h)) Lp Hp). simpl. rewrite w32_small by lia. by destruct h. }
  destruct (take_smidge_ok tries (avail 0 (malloc_lmm h)) h Lp big Hp Ha Hbig ltac:(lia) ltac:(apply mod8 in A1 as [k ->]; replace (8 * k) with (2 * k * 4) by lia; apply Z.mod_mul; lia) ltac:(lia))
    as (q & n & s' & Lp' & R & Hn & Hq8 & K1 & K2 & [(T0 & T1 & T1') T2 T3] & K4 & K5).
  rewrite (bind_ok _ _ _ _ _ R). cbv beta iota. pose proof (held_top _ _ Lp q n Hp K4) as Htop. rewrite len_aligned in Htop by (done || lia). destruct (round_spec n ltac:(lia)) as [Hrn _]. destruct (blk_aligned q ltac:(lia)) as [[kb Ekb]%mod8 _].
  assert (Hfree : forall x, q <= x < q + n -> free_mem Lp x) by (intros x Hx; apply T2, chunk_within; lia).
  assert (Hqn : q + n <= 2 ^ 32 - 8) by (pose proof (chunk_within q n (q + n - 1) ltac:(lia) ltac:(lia) ltac:(lia)) as Hw; unfold within in Hw; rewrite len_aligned in Hw by (done || lia); lia).
  assert (Hper : 8 <= n / num) by (apply Z.div_le_lower_bound; lia). pose proof (Z.mul_div_le n num Hnum) as Hdiv.
  assert (Hok1 : heap_ok (with_pool s' h) Ls live).
  { destruct (heap_ok_write bds h Ls live (lmem s') Hok) as [W1 W2 W3 W4 W5 W6 W7]; [|by split].
    intros cpu rs x Hc Hx. apply K5. intros Hf. by apply (proj1 (Hd x Hf) cpu rs). }
  destruct (give_cores_ok q (n / num) (Z.to_nat num) 0 (with_pool s' h) Ls live Hok1) as (h' & Ls' & R' & J1 & _ & J3 & J4); rewrite ?Z2Nat.id by lia; try done; try lia.
  - intros x Hx. apply Hd, Hfree. lia.
  - exists h', Ls', q, n. split; [done|]. split; [lia|]. split; [done|]. split; [done|]. split; [intros cpu x; rewrite (J3 cpu x), Z2Nat.id by lia; done|].
    apply (keeps_trans _ _ (with_pool s' h)); [|done]. intros c k x Hl Hx. simpl. apply K5. intros Hf. by apply (proj2 (Hd x Hf) c k).
Qed.
End safe.

(** ** An example: two cores over the region [4096, 4160) *)

Definition demo_bds : list (Z * Z) := [(4096, 4160)].
Definition empty_region : region := mk_region 1 0 4096 4160 0 0 0.

(** Core 0 has all of the memory, or the boot pool has it. *)
Definition demo_heap : kheap := mk_kheap [] {[ 0 := [demo_region]; 1 := [empty_region] ]} demo_mem.
Definition boot_heap : kheap := mk_kheap [demo_region] {[ 0 := [empty_region]; 1 := [empty_region] ]} demo_mem.
Definition demo_lists (cpu : Z) : list (list block) := if cpu =? 0 then [[(4096, 64)]] else [[]].

Lemma demo_bds_ok : Forall (fun b => snd b - fst b < 8 * Z.of_nat 9 /\ snd b <= 2 ^ 31) demo_bds.
Proof. repeat constructor; simpl; lia. Qed.

Lemma empty_rep m : lmm_ok m [empty_region] [[]].
Proof. split; [|split; [constructor|done]]. by split; simpl; repeat split; lia || done. Qed.

Lemma two_cores {A} (a b : A) cpu v : ({[ 0 := a; 1 := b ]} : gmap Z A) !! cpu = Some v -> (cpu = 0 /\ v = a) \/ (cpu = 1 /\ v = b).
Proof. intros [[<- <-]|[_ [<- <-]%lookup_singleton_Some]]%lookup_insert_Some; [by left|by right]. Qed.

Lemma no_free x : ~ free_mem [[]] x.
Proof. rewrite free_mem_cons. intros [H|H]; [by apply covers_nil in H|by inversion H]. Qed.

Lemma demo_heap_ok : heap_ok demo_bds demo_heap demo_lists ∅.
Proof.
  split; try (intros; by rewrite lookup_empty in *).
  - intros cpu rs [[-> ->]|[-> ->]]%two_cores; [apply demo_rep|apply empty_rep].
  - intros cpu rs [[-> ->]|[-> ->]]%two_cores; done.
  - intros c c' rs rs' x [[-> ->]|[-> ->]]%two_cores [[-> ->]|[-> ->]]%two_cores Hne Hx Hy; try done; [by apply (no_free x)|by apply (no_free x)].
Qed.

Lemma boot_heap_ok : heap_ok demo_bds boot_heap (fun _ => [[]]) ∅.
Proof.
  split; try (intros; by rewrite lookup_empty in *).
  - intros cpu rs [[-> ->]|[-> ->]]%two_cores; apply empty_rep.
  - intros cpu rs [[-> ->]|[-> ->]]%two_cores; done.
  - intros c c' rs rs' x _ _ _ Hx. by apply no_free in Hx.
Qed.

Lemma kernel_heap_safe_witness : exists p h, let u := after ∅ (Malloc 8) p in
  p <> 0 /\ rtc (hstep 9) (demo_heap, (∅ : chunks)) (h, u) /\ sizes h u /\
  exists p' h', @serve kheap (lmm_raw 9 1) (Free p) h = Ok (p', h') /\ heap_inv demo_bds h' (after u (Free p) p').
Proof.
  destruct (_malloc_run demo_bds 9 0 [demo_region] 8 demo_heap demo_lists ∅ demo_heap_ok eq_refl demo_ample ltac:(lia)) as (p & h & R & P).
  assert (Hp : p <> 0).
  { destruct P as [(_ & _ & F)|(Ls' & Hp & _)]; [|exact Hp]. inversion_clear F as [|? ? ? ? [Hf|Hf] _]; [discriminate|]. inversion_clear Hf as [|? ? Hf' _]. vm_compute in Hf'. discriminate. }
  assert (St : rtc (hstep 9) (demo_heap, (∅ : chunks)) (h, after ∅ (Malloc 8) p)) by (apply rtc_once, (hs_serve 9 0 [demo_region] (Malloc 8)); [reflexivity|simpl; lia|exact R]).
  destruct (kernel_heap_safe demo_bds 9 demo_bds_ok demo_heap demo_lists h _ demo_heap_ok St) as (_ & Hs & Hserve). exists p, h. split; [exact Hp|]. split; [exact St|]. split; [exact Hs|].
  assert (Hc : match _malloc 9 0 8 demo_heap with Ok (_, h) => core_malloc_lmm h !! 1 = Some [empty_region] | _ => False end) by (vm_compute; reflexivity). rewrite R in Hc.
  destruct (Hserve 1 [empty_region] (Free p) Hc) as (p' & h' & R' & I & _); [|exists p', h'; split; [exact R'|exact I]].
  exists 12. simpl. rewrite (proj2 (Z.eqb_neq p 0) Hp). apply lookup_insert_eq.
Defined.

Lemma dist_kernel_mem_witness : exists h' Ls' smidge n, dist_kernel_mem 9 2 17 boot_heap = Ok (tt, h') /\ 64 <= n /\ heap_ok demo_bds h' Ls' ∅ /\
  forall cpu x, free_mem (Ls' cpu) x <-> free_mem [[]] x \/ 0 <= cpu < 2 /\ slice demo_bds smidge (n / 2) cpu x.
Proof.
  destruct (dist_kernel_mem_correct demo_bds 9 demo_bds_ok 2 17 boot_heap [[(4096, 64)]] (fun _ => [[]]) ∅ 64 boot_heap_ok demo_rep demo_ample) as (h' & Ls' & q & n & R & Hn & _ & Hok & Hf & _).
  - split; [exists [(4096, 64)]; split; [by left|]; exists 4096; by left|]. repeat constructor; simpl; lia.
  - lia.
  - lia.
  - vm_compute. discriminate.
  - vm_compute. reflexivity.
  - intros c Hc. assert (c = 0 \/ c = 1) as [->| ->] by lia; eexists; reflexivity.
  - intros x _. split; [intros cpu rs _; apply no_free|]. intros c k Hl. by rewrite lookup_empty in Hl.
  - exists h', Ls', q, n. split; [exact R|]. split; [exact Hn|]. split; [exact Hok|exact Hf].
Defined.
End KernelHeapSafe.
