(* ===== verification/Loader.v ===== *)
(** * The program loader (src/kern/loader.c)

    Programs are read from a table linked into the kernel; [toc_entry] is one of
    its entries.  A C string is the list of its bytes before the terminating 0.
    The ELF reader (Elf.v) is a parameter ([elf_check_header] and
    [elf_load_helper]); memory is reached through [AddrSpace].

    [loadTask] is shown to build exactly the process image the program's
    [_main] expects: the segments at their addresses, a zero bss, and a stack
    that holds argc, argv, the strings and the stack bounds, inside the pages that
    were allocated for it. *)

From S2P Require Import Prelude AddrSpace.
From Stdlib Require Import ZArith Lia.
From stdpp Require Import base gmap list tactics numbers.

#[local] Open Scope Z_scope.
#[local] Set Default Proof Using "Type".

(** [simple_elf_t] of 410kern, without the file name *)
Record simple_elf_t := mk_elf {
  e_entry : Z; e_txtoff : Z; e_txtlen : Z; e_txtstart : Z; e_datoff : Z; e_datlen : Z; e_datstart : Z;
  e_rodatoff : Z; e_rodatlen : Z; e_rodatstart : Z; e_bsslen : Z; e_bssstart : Z }.

Record toc_entry := mk_toc { execname : list Z; execbytes : list Z }.
Definition execlen (e : toc_entry) : Z := Z.of_nat (length (execbytes e)).

Module Loader.

Definition ENOENT : Z := -2.
Definition ENOEXEC : Z := -8.
Definition ENOMEM : Z := -12.
Definition ELF_NOTELF : Z := -1.
Definition MAX_ADDR : Z := 2 ^ 32 - 1.
Definition SIZE_USER_STACK_ARG : Z := 20.
Definition ALIGNMENT : Z := 4.
Definition SEGSEL_USER_CS : Z := 35.
Definition SEGSEL_USER_DS : Z := 43.

Definition strlen (s : list Z) : Z := Z.of_nat (length s).

(** The length of the initial stack: the loop over the arguments, and the
    rounding. *)
Fixpoint args_len (len : Z) (argv : list (list Z)) : Z :=
  match argv with
  | [] => len
  | a :: argv => args_len (s32 (len + (strlen a + 1))) argv
  end.
Definition stack_len (argv : list (list Z)) : Z :=
  let len := args_len (s32 (SIZE_USER_STACK_ARG + Z.of_nat (length argv) * 4)) argv in
  s32 (len + (ALIGNMENT - Z.rem len ALIGNMENT)).

Section loader.
Context {S : Type} `{AddrSpace S} (TOC : list toc_entry) (elf_check_header : list Z -> Z) (elf_load_helper : list Z -> Z * simple_elf_t).

Definition entry_of (filename : list Z) : option toc_entry := List.find (fun e => bool_decide (filename = execname e)) TOC.

Definition is_file_exist (filename : list Z) : Z := match entry_of filename with Some _ => 1 | None => 0 end.

Definition getbytes (filename : list Z) (offset size buf : Z) : M S Z :=
  match entry_of filename with
  | None => mret (-1)
  | Some e =>
      if execlen e <? s32 (offset + size) then mret (-1)
      else if (0 <=? offset) && (0 <=? size) && (offset + size <=? execlen e) then
        write_bytes buf (take (Z.to_nat size) (drop (Z.to_nat offset) (execbytes e)));; mret size
      else fault
  end.

Definition push_to_stack (esp value : Z) : M S Z :=
  let new_esp := w32 (esp - 4) in
  write_word new_esp value;; mret new_esp.

(** The first loop over [argv]: the strings, from the top of memory down. *)
Fixpoint put_strings (addr : Z) (argv : list (list Z)) : M S Z :=
  match argv with
  | [] => mret addr
  | a :: argv =>
      let arg_len := strlen a + 1 in
      write_bytes (w32 (addr - arg_len)) (a ++ [0]);;
      put_strings (w32 (addr - arg_len)) argv
  end.

(** The second loop: the pointers to them. *)
Fixpoint put_pointers (addr arg_addr : Z) (argv : list (list Z)) : M S Z :=
  match argv with
  | [] => mret addr
  | a :: argv =>
      let arg_addr := w32 (arg_addr - (strlen a + 1)) in
      write_word addr arg_addr;;
      put_pointers (w32 (addr + 4)) arg_addr argv
  end.

(** The stack, once its pages are allocated. *)
Definition put_stack (page_num : Z) (argv : list (list Z)) : M S Z :=
  let argc := Z.of_nat (length argv) in
  addr ← put_strings MAX_ADDR argv;
  let addr := w32 (addr - addr mod ALIGNMENT) in
  addr ← put_pointers (w32 (addr - argc * 4)) MAX_ADDR argv;
  let addr := w32 (addr - argc * 4) in
  user_esp ← push_to_stack addr (w32 (MAX_ADDR - page_num * PAGE_SIZE + 1));
  user_esp ← push_to_stack user_esp MAX_ADDR;
  user_esp ← push_to_stack user_esp addr;
  user_esp ← push_to_stack user_esp argc;
  mret (w32 (user_esp - 4)).

(** The regions of the segments and their bytes; [false] when a region cannot
    be had. *)
Definition load_segments (filename : list Z) (e : simple_elf_t) : M S bool :=
  r ← new_region (e_txtstart e) (s32 (e_txtlen e)) false false false;
  if r <? 0 then mret false else
  r ← new_region (e_datstart e) (s32 (e_datlen e)) true false false;
  if r <? 0 then mret false else
  r ← new_region (e_rodatstart e) (s32 (e_rodatlen e)) false false false;
  if r <? 0 then mret false else
  r ← new_region (e_bssstart e) (s32 (e_bsslen e)) true false true;
  if r <? 0 then mret false else
  getbytes filename (s32 (e_txtoff e)) (s32 (e_txtlen e)) (e_txtstart e);;
  getbytes filename (s32 (e_datoff e)) (s32 (e_datlen e)) (e_datstart e);;
  getbytes filename (s32 (e_rodatoff e)) (s32 (e_rodatlen e)) (e_rodatstart e);;
  mret true.

(** [inr (usr_esp, my_program)] on success. *)
Definition loadTask (filename : list Z) (argv : list (list Z)) : M S (Z + Z * Z) :=
  if is_file_exist filename =? 0 then mret (inl ENOENT)
  else if elf_check_header filename =? ELF_NOTELF then mret (inl ENOEXEC)
  else
    let '(rv, simple_elf) := elf_load_helper filename in
    if rv =? ELF_NOTELF then mret (inl ENOEXEC) else
    ok ← load_segments filename simple_elf;
    if negb ok then mret (inl ENOMEM) else
    let page_num := Z.quot (stack_len argv) PAGE_SIZE + 1 in
    r ← new_region (w32 (MAX_ADDR - page_num * PAGE_SIZE + 1)) (s32 (page_num * PAGE_SIZE)) true false false;
    if r <? 0 then mret (inl ENOMEM) else
    usr_esp ← put_stack page_num argv;
    mret (inr (usr_esp, e_entry simple_elf)).
End loader.

(** ** The initial stack *)

Fixpoint total (argv : list (list Z)) : Z :=
  match argv with [] => 0 | a :: argv => strlen a + 1 + total argv end.

(** A string without its terminator. *)
Definition is_string (a : list Z) : Prop := Forall (fun b => 0 < b < 256) a.
(** The string [a], with its terminator, is at address [p]. *)
Definition string_at (f : Z -> Z) (p : Z) (a : list Z) : Prop := forall j b, (a ++ [0]) !! j = Some b -> f (p + Z.of_nat j) = b.

(** The bytes of the stack that are used, before rounding. *)
Definition need (argv : list (list Z)) : Z := 20 + 4 * Z.of_nat (length argv) + total argv.

Lemma total_nonneg argv : 0 <= total argv.
Proof. induction argv as [|a argv IH]; simpl; unfold strlen in *; lia. Qed.

Lemma total_take_le i argv : total (take i argv) <= total argv.
Proof. rewrite <- (take_drop i argv) at 2. generalize (drop i argv). induction (take i argv) as [|a l IH]; intros r; simpl; [apply total_nonneg|]. specialize (IH r). lia. Qed.

Lemma args_len_val argv : forall len, 0 <= len -> len + total argv < 2 ^ 30 -> args_len len argv = len + total argv.
Proof.
  induction argv as [|a argv IH]; intros len Hl Hb; simpl in *; [lia|]. pose proof (total_nonneg argv). unfold strlen in *.
  rewrite s32_small by lia. rewrite IH by lia. lia.
Qed.

Lemma stack_len_val argv : need argv < 2 ^ 29 -> stack_len argv = need argv + (4 - need argv mod 4).
Proof.
  unfold need. intros Hb. pose proof (total_nonneg argv). unfold stack_len, SIZE_USER_STACK_ARG, ALIGNMENT.
  rewrite (s32_small (20 + _)) by lia. rewrite args_len_val by lia.
  replace (20 + Z.of_nat (length argv) * 4 + total argv) with (20 + 4 * Z.of_nat (length argv) + total argv) by lia.
  rewrite Z.rem_mod_nonneg by lia. rewrite s32_small; [done|]. pose proof (Z.mod_pos_bound (20 + 4 * Z.of_nat (length argv) + total argv) 4). lia.
Qed.

Section stack.
Context {S : Type} `{AS : AddrSpace S} `{AL : !AddrSpaceLaws S}.

Lemma string_ext f g p a : (forall x, p <= x < p + strlen a + 1 -> f x = g x) -> string_at g p a -> string_at f p a.
Proof.
  intros E Hg j b Hj. rewrite E; [by apply Hg|]. apply lookup_lt_Some in Hj. rewrite length_app in Hj. simpl in Hj. unfold strlen. lia.
Qed.

Lemma put_strings_ok argv : forall (s : S) top, wf s -> Forall is_string argv -> 0 <= top - total argv -> top < 2 ^ 32 ->
  (forall x, top - total argv <= x < top -> backed s x = true) ->
  exists s', put_strings top argv s = Ok (top - total argv, s') /\ same_map s s' /\
    (forall x, ~ (top - total argv <= x < top) -> byte_at s' x = byte_at s x) /\
    (forall i a, argv !! i = Some a -> string_at (byte_at s') (top - total (take (Datatypes.S i) argv)) a).
Proof.
  induction argv as [|a argv IH]; intros s top Hw Hs H0 Ht Hb.
  - exists s. simpl. rewrite Z.sub_0_r. split; [done|]. split; [by split|]. split; [done|]. by intros [].
  - apply Forall_cons_iff in Hs as [Ha Hs]. simpl in H0, Hb. pose proof (total_nonneg argv). set (p := top - (strlen a + 1)).
    assert (Hp : w32 p = p) by (rewrite w32_small; unfold p, strlen in *; lia).
    destruct (write_bytes_ok (a ++ [0]) s p Hw) as (s1 & R1 & SM1 & Y1).
    { apply Forall_app. split; [|by repeat constructor]. eapply list.Forall_impl; [exact Ha|]. simpl. unfold is_byte. lia. }
    { intros i Hi. apply Hb. rewrite length_app in Hi. simpl in Hi. unfold p, strlen in *. lia. }
    assert (Hlen : Z.of_nat (length (a ++ [0])) = strlen a + 1) by (rewrite length_app; simpl; unfold strlen; lia).
    destruct (IH s1 p (sm_wf _ _ SM1) Hs) as (s2 & R2 & SM2 & Out2 & Str2); [unfold p; lia|unfold p, strlen in *; lia| |].
    { intros x Hx. rewrite (sm_backed _ _ SM1). apply Hb. unfold p, strlen in *. lia. }
    exists s2. cbn [put_strings]. fold p. rewrite Hp, (bind_ok _ _ _ _ _ R1), R2. split; [simpl; do 2 f_equal; unfold p; lia|].
    split; [by eapply same_map_trans|]. split.
    + intros x Hx. simpl in Hx. rewrite Out2 by (unfold p, strlen in *; lia). rewrite Y1. apply put_out. rewrite Hlen. unfold p in *. lia.
    + intros [|i] b Hi; [injection Hi as <-|cbn [lookup list_lookup] in Hi]; cbn [take total].
      * change (total (take 0 argv)) with 0. replace (top - (strlen a + 1 + 0)) with p by (unfold p; lia).
        apply (string_ext _ (byte_at s1)); [intros x Hx; apply Out2; lia|]. intros j c Hj. rewrite Y1. by apply put_in.
      * replace (top - (strlen a + 1 + total (take (Datatypes.S i) argv))) with (p - total (take (Datatypes.S i) argv)) by (unfold p; lia). by apply Str2.
Qed.

Lemma put_pointers_ok argv : forall (s : S) addr top, wf s -> 0 <= addr -> addr + 4 * Z.of_nat (length argv) < 2 ^ 32 ->
  0 <= top - total argv -> top < 2 ^ 32 ->
  (forall x, addr <= x < addr + 4 * Z.of_nat (length argv) -> backed s x = true) ->
  exists s', put_pointers addr top argv s = Ok (addr + 4 * Z.of_nat (length argv), s') /\ same_map s s' /\
    (forall x, ~ (addr <= x < addr + 4 * Z.of_nat (length argv)) -> byte_at s' x = byte_at s x) /\
    (forall i a, argv !! i = Some a -> word_of (byte_at s') (addr + 4 * Z.of_nat i) = top - total (take (Datatypes.S i) argv)).
Proof.
  induction argv as [|a argv IH]; intros s addr top Hw Ha Hb H0 Ht Hm.
  - exists s. simpl. rewrite Z.add_0_r. split; [done|]. split; [by split|]. split; [done|]. by intros [].
  - cbn [length total] in *. pose proof (total_nonneg argv). set (p := top - (strlen a + 1)).
    assert (Hp : w32 p = p) by (rewrite w32_small; unfold p, strlen in *; lia).
    destruct (write_word_ok s addr p Hw) as (s1 & R1 & SM1 & Y1); [intros i Hi; apply Hm; lia|].
    destruct (IH s1 (addr + 4) p (sm_wf _ _ SM1)) as (s2 & R2 & SM2 & Out2 & W2); [lia|lia|unfold p; lia|unfold p, strlen in *; lia| |].
    { intros x Hx. rewrite (sm_backed _ _ SM1). apply Hm. lia. }
    exists s2. cbn [put_pointers]. fold p. rewrite Hp, (bind_ok _ _ _ _ _ R1), (w32_small (addr + 4)) by lia. rewrite R2.
    split; [do 2 f_equal; lia|]. split; [by eapply same_map_trans|]. split.
    + intros x Hx. rewrite Out2 by lia. rewrite Y1. apply put_out. simpl. lia.
    + intros [|i] b Hi; [injection Hi as <-|cbn [lookup list_lookup] in Hi]; cbn [take total].
      * rewrite Z.mul_0_r, Z.add_0_r. rewrite (word_of_ext _ (byte_at s1)) by (intros x Hx; apply Out2; lia).
        rewrite (word_of_ext _ _ _ (fun x _ => Y1 x)), word_put; [unfold p; change (total (take 0 argv)) with 0; lia|]. unfold p, strlen in *; lia.
      * replace (addr + 4 * Z.of_nat (Datatypes.S i)) with (addr + 4 + 4 * Z.of_nat i) by lia. rewrite (W2 i b Hi). unfold p. lia.
Qed.

Lemma push_ok (s : S) esp v : wf s -> 4 <= esp < 2 ^ 32 + 4 -> 0 <= v < 2 ^ 32 -> (forall x, esp - 4 <= x < esp -> backed s x = true) ->
  exists s', push_to_stack esp v s = Ok (esp - 4, s') /\ same_map s s' /\ word_of (byte_at s') (esp - 4) = v /\
    (forall x, ~ (esp - 4 <= x < esp) -> byte_at s' x = byte_at s x).
Proof.
  intros Hw He Hv Hb. unfold push_to_stack. rewrite w32_small by lia.
  destruct (write_word_ok s (esp - 4) v Hw) as (s1 & R1 & SM1 & Y1); [intros i Hi; apply Hb; lia|].
  exists s1. cbv zeta. rewrite (bind_ok _ _ _ _ _ R1). split; [done|]. split; [done|]. split.
  - by rewrite (word_of_ext _ _ _ (fun x _ => Y1 x)), word_put.
  - intros x Hx. rewrite Y1. apply put_out. simpl. lia.
Qed.

(** What [_main] finds at its stack pointer: argc, argv, the stack's highest and
    lowest address; argv[i] points to the i-th string. *)
Record main_frame (f : Z -> Z) (low esp : Z) (argv : list (list Z)) : Prop := {
  mf_aligned : esp mod 4 = 0;
  mf_low : low <= esp;
  mf_argc : word_of f (esp + 4) = Z.of_nat (length argv);
  mf_argv : word_of f (esp + 8) = esp + 20;
  mf_high : word_of f (esp + 12) = MAX_ADDR;
  mf_stack_low : word_of f (esp + 16) = low;
  mf_strings : forall i a, argv !! i = Some a -> string_at f (word_of f (esp + 20 + 4 * Z.of_nat i)) a }.

(** The stack pointer of a new program. *)
Definition main_esp (argv : list (list Z)) : Z := 2 ^ 32 - (need argv + (4 - need argv mod 4)).

Lemma main_esp_layout argv : need argv < 2 ^ 29 ->
  main_esp argv + 20 + 4 * Z.of_nat (length argv) = (MAX_ADDR - total argv) - (MAX_ADDR - total argv) mod 4 /\ main_esp argv mod 4 = 0 /\
  0 <= main_esp argv.
Proof. unfold main_esp, need, MAX_ADDR. intros Hn. pose proof (total_nonneg argv). Z.div_mod_to_equations. lia. Qed.

Lemma put_stack_ok (s : S) page_num argv : wf s -> Forall is_string argv -> need argv < 2 ^ 29 ->
  0 <= page_num -> page_num * PAGE_SIZE < 2 ^ 32 -> 2 ^ 32 - main_esp argv <= page_num * PAGE_SIZE ->
  (forall x, 2 ^ 32 - page_num * PAGE_SIZE <= x < 2 ^ 32 -> backed s x = true) ->
  exists s', put_stack page_num argv s = Ok (main_esp argv, s') /\ same_map s s' /\
    main_frame (byte_at s') (2 ^ 32 - page_num * PAGE_SIZE) (main_esp argv) argv /\
    (forall x, x < 2 ^ 32 - page_num * PAGE_SIZE -> byte_at s' x = byte_at s x).
Proof.
  intros Hw Hs Hn Hp0 Hp Hfit Hb. destruct (main_esp_layout argv Hn) as (Hlay & Hal & Hpos). set (esp := main_esp argv) in *.
  set (low := 2 ^ 32 - page_num * PAGE_SIZE) in *. set (argc := Z.of_nat (length argv)) in *. pose proof (total_nonneg argv) as Ht.
  pose proof (Z.mod_pos_bound (MAX_ADDR - total argv) 4 ltac:(lia)) as Hm4. unfold need in Hn. fold argc in Hn.
  assert (Hlow : low <= esp) by (unfold low in *; lia). assert (Hmax : MAX_ADDR = 2 ^ 32 - 1) by done.
  destruct (put_strings_ok argv s MAX_ADDR Hw Hs) as (s1 & R1 & SM1 & O1 & St); [lia|lia|intros x Hx; apply Hb; lia|].
  destruct (put_pointers_ok argv s1 (esp + 20) MAX_ADDR (sm_wf _ _ SM1)) as (s2 & R2 & SM2 & O2 & Pt); [lia|fold argc; lia|lia|lia| |].
  { intros x Hx. rewrite (sm_backed _ _ SM1). apply Hb. fold argc in Hx. lia. }
  fold argc in R2, O2. pose proof (same_map_trans _ _ _ SM1 SM2) as SM12.
  destruct (push_ok s2 (esp + 20) low (sm_wf _ _ SM12)) as (s3 & R3 & SM3 & W3 & O3); [lia|unfold low in *; lia|intros x Hx; rewrite (sm_backed _ _ SM12); apply Hb; lia|].
  pose proof (same_map_trans _ _ _ SM12 SM3) as SM13.
  destruct (push_ok s3 (esp + 16) MAX_ADDR (sm_wf _ _ SM13)) as (s4 & R4 & SM4 & W4 & O4); [lia|lia|intros x Hx; rewrite (sm_backed _ _ SM13); apply Hb; lia|].
  pose proof (same_map_trans _ _ _ SM13 SM4) as SM14.
  destruct (push_ok s4 (esp + 12) (esp + 20) (sm_wf _ _ SM14)) as (s5 & R5 & SM5 & W5 & O5); [lia|lia|intros x Hx; rewrite (sm_backed _ _ SM14); apply Hb; lia|].
  pose proof (same_map_trans _ _ _ SM14 SM5) as SM15.
  destruct (push_ok s5 (esp + 8) argc (sm_wf _ _ SM15)) as (s6 & R6 & SM6 & W6 & O6); [lia|lia|intros x Hx; rewrite (sm_backed _ _ SM15); apply Hb; lia|].
  pose proof (same_map_trans _ _ _ SM15 SM6) as SM16.
  assert (Hout : forall x, esp + 20 <= x -> byte_at s6 x = byte_at s2 x) by (intros x Hx; rewrite O6, O5, O4, O3 by lia; done).
  exists s6. split; [|split; [done|split]].
  - unfold put_stack. cbv zeta. fold argc. rewrite (bind_ok _ _ _ _ _ R1). unfold ALIGNMENT.
    rewrite <- Hlay, (w32_small (esp + 20 + 4 * argc)) by lia.
    replace (esp + 20 + 4 * argc - argc * 4) with (esp + 20) by lia. rewrite (w32_small (esp + 20)) by lia. rewrite (bind_ok _ _ _ _ _ R2).
    replace (esp + 20 + 4 * argc - argc * 4) with (esp + 20) by lia. rewrite (w32_small (esp + 20)) by lia.
    replace (MAX_ADDR - page_num * PAGE_SIZE + 1) with low by (unfold low; lia). rewrite (w32_small low) by (unfold low in *; lia).
    rewrite (bind_ok _ _ _ _ _ R3). replace (esp + 20 - 4) with (esp + 16) by lia. rewrite (bind_ok _ _ _ _ _ R4).
    replace (esp + 16 - 4) with (esp + 12) by lia. rewrite (bind_ok _ _ _ _ _ R5). replace (esp + 12 - 4) with (esp + 8) by lia.
    rewrite (bind_ok _ _ _ _ _ R6). replace (esp + 8 - 4 - 4) with esp by lia. by rewrite w32_small by lia.
  - replace (esp + 20 - 4) with (esp + 16) in W3 by lia. replace (esp + 16 - 4) with (esp + 12) in W4 by lia.
    replace (esp + 12 - 4) with (esp + 8) in W5 by lia. replace (esp + 8 - 4) with (esp + 4) in W6 by lia. split; [done|done|done|..].
    + rewrite (word_of_ext _ (byte_at s5)) by (intros x Hx; apply O6; lia). done.
    + rewrite (word_of_ext _ (byte_at s4)) by (intros x Hx; rewrite O6, O5 by lia; done). done.
    + rewrite (word_of_ext _ (byte_at s3)) by (intros x Hx; rewrite O6, O5, O4 by lia; done). done.
    + intros i a Hi. pose proof (lookup_lt_Some _ _ _ Hi). rewrite (word_of_ext _ (byte_at s2)) by (intros x Hx; apply Hout; lia). rewrite (Pt i a Hi).
      apply (string_ext _ (byte_at s1)); [|by apply St]. pose proof (total_take_le (Datatypes.S i) argv). intros x Hx. rewrite Hout, O2 by lia. done.
  - intros x Hx. rewrite O6, O5, O4, O3, O2, O1 by lia. done.
Qed.
End stack.

(** ** The segments *)

Definition slice (file : toc_entry) (off len : Z) : list Z := take (Z.to_nat len) (drop (Z.to_nat off) (execbytes file)).

(** A segment of the file, in user memory below [limit]. *)
Record seg_ok (file : toc_entry) (off len start limit : Z) : Prop := {
  seg_off : 0 <= off; seg_len : 0 < len; seg_in_file : off + len <= execlen file;
  seg_user : USER_MEM_START <= start; seg_limit : start + len <= limit }.

Record elf_ok (file : toc_entry) (e : simple_elf_t) (limit : Z) : Prop := {
  eo_bytes : Forall is_byte (execbytes file);
  eo_size : execlen file < 2 ^ 31;
  eo_text : seg_ok file (e_txtoff e) (e_txtlen e) (e_txtstart e) limit;
  eo_data : seg_ok file (e_datoff e) (e_datlen e) (e_datstart e) limit;
  eo_rodata : seg_ok file (e_rodatoff e) (e_rodatlen e) (e_rodatstart e) limit;
  eo_bss_len : 0 < e_bsslen e < 2 ^ 31;
  eo_bss : USER_MEM_START <= e_bssstart e;
  eo_bss_limit : e_bssstart e + e_bsslen e <= limit }.

Definition disjoint_ranges (a n b m : Z) : Prop := a + n <= b \/ b + m <= a.

Lemma touches_user va n x : USER_MEM_START <= va -> touches va n x -> USER_MEM_START <= x.
Proof.
  unfold USER_MEM_START, touches, PAGE_SIZE. intros Hva (y & Hy & E). assert (4096 <= y / 4096) by (apply Z.div_le_lower_bound; lia).
  pose proof (Z.mul_div_le x 4096). lia.
Qed.

Lemma touches_in va n x : va <= x < va + n -> touches va n x.
Proof. intros Hx. by exists x. Qed.

(** Nothing in a page-aligned upper part of memory shares a page with a region
    below it. *)
Lemma touches_below va n k x : va + n <= k * PAGE_SIZE -> touches va n x -> x < k * PAGE_SIZE.
Proof.
  unfold touches, PAGE_SIZE. intros Hk (y & Hy & E). assert (y / 4096 < k) by (apply Z.div_lt_upper_bound; lia).
  pose proof (Z.mul_div_le x 4096). pose proof (Z.mod_pos_bound x 4096). pose proof (Z.div_mod x 4096). lia.
Qed.

Lemma slice_length file off len : 0 <= off -> 0 <= len -> off + len <= execlen file -> Z.of_nat (length (slice file off len)) = len.
Proof. unfold slice, execlen. intros. rewrite length_take, length_drop. lia. Qed.

Section segments.
Context {S : Type} `{AS : AddrSpace S} `{AL : !AddrSpaceLaws S} (TOC : list toc_entry).

(** User memory while the regions are made: what is mapped is zero, and the lazy
    pages satisfy [L]. *)
Record blank (L : Z -> Prop) (s : S) : Prop := {
  bl_wf : wf s;
  bl_zero : forall x, USER_MEM_START <= x -> mapped s x = true -> byte_at s x = 0;
  bl_lazy : forall x, USER_MEM_START <= x -> lazy s x = true -> L x }.

Lemma region_ok L s va n rw z : blank L s -> USER_MEM_START <= va -> 0 < n -> va + n <= 2 ^ 32 ->
  exists r s', new_region va n rw false z s = Ok (r, s') /\ wf s' /\
    (0 <= r -> blank (fun x => L x \/ (z = true /\ touches va n x)) s' /\ (forall x, backed s x = true -> backed s' x = true) /\
      (forall x, touches va n x -> mapped s' x = true) /\ (z = false -> forall x, touches va n x -> ~ L x -> backed s' x = true)).
Proof.
  intros [Hw Hz Hl] Hva Hn Hb. destruct (new_region_ok s va n rw z Hw Hva Hn Hb) as (r & s' & R & W & Hs').
  exists r, s'. split; [done|]. split; [done|]. intros Hr. destruct (Hs' Hr) as (Keep & Orig & Bk & Lz & Suc). split; [split|split; [done|split]].
  - done.
  - intros x Hx Hm. destruct (mapped s x) eqn:E; [rewrite Keep by done; by apply Hz|]. destruct (Orig x Hm) as [?|Ht]; [congruence|]. by apply (Suc x Ht).
  - intros x Hx Hlx. destruct (Lz x Hlx) as [?|?]; [left; by apply Hl|by right].
  - intros x Ht. by apply (Suc x Ht).
  - intros Hzf x Ht HL. apply (Suc x Ht); [done|]. destruct (lazy s x) eqn:E; [|done]. exfalso. apply HL, Hl; [by eapply touches_user|done].
Qed.

Lemma getbytes_ok file name off len start limit s : entry_of TOC name = Some file -> Forall is_byte (execbytes file) -> execlen file < 2 ^ 31 ->
  seg_ok file off len start limit -> wf s -> (forall x, start <= x < start + len -> backed s x = true) ->
  exists s', getbytes TOC name (s32 off) (s32 len) start s = Ok (len, s') /\ same_map s s' /\
    forall x, byte_at s' x = put (byte_at s) start (slice file off len) x.
Proof.
  intros He Hby Hsz [H1 H2 H3 H4 H5] Hw Hb. unfold getbytes. rewrite He, !s32_small by (rewrite ?s32_small; lia).
  rewrite (proj2 (Z.ltb_ge _ _)), (proj2 (Z.leb_le 0 off)), (proj2 (Z.leb_le 0 len)), (proj2 (Z.leb_le (off + len) _)) by lia. cbn [andb].
  destruct (write_bytes_ok (slice file off len) s start Hw) as (s' & R & SM & Y).
  - unfold slice. by apply Forall_take, Forall_drop.
  - intros i Hi. apply Hb. rewrite slice_length in Hi by lia. lia.
  - exists s'. unfold slice in R. rewrite (bind_ok _ _ _ _ _ R). done.
Qed.

(** The bytes of user memory after the segments have been copied. *)
Definition segments (file : toc_entry) (e : simple_elf_t) : Z -> Z :=
  put (put (put (fun _ => 0) (e_txtstart e) (slice file (e_txtoff e) (e_txtlen e)))
    (e_datstart e) (slice file (e_datoff e) (e_datlen e))) (e_rodatstart e) (slice file (e_rodatoff e) (e_rodatlen e)).

Lemma put_ext (f g : Z -> Z) a l x : f x = g x -> put f a l x = put g a l x.
Proof. intros E. unfold put. by destruct (_ && _). Qed.

Lemma load_segments_ok file name e limit s : entry_of TOC name = Some file -> elf_ok file e limit -> limit <= 2 ^ 32 -> blank (fun _ => False) s ->
  exists ok s', load_segments TOC name e s = Ok (ok, s') /\ wf s' /\
    (ok = true -> (forall x, USER_MEM_START <= x -> mapped s' x = true -> byte_at s' x = segments file e x) /\
      (forall x, USER_MEM_START <= x -> lazy s' x = true -> touches (e_bssstart e) (e_bsslen e) x) /\
      (forall x, touches (e_txtstart e) (e_txtlen e) x \/ touches (e_datstart e) (e_datlen e) x \/ touches (e_rodatstart e) (e_rodatlen e) x \/
         touches (e_bssstart e) (e_bsslen e) x -> mapped s' x = true)).
Proof.
  intros He [Hby Hsz [T1 T2 T3 T4 T5] [D1 D2 D3 D4 D5] [O1 O2 O3 O4 O5] B1 B2 B3] Hl Hbl. unfold load_segments.
  rewrite !(s32_small (e_txtlen e)), !(s32_small (e_datlen e)), !(s32_small (e_rodatlen e)), !(s32_small (e_bsslen e)) by lia.
  destruct (region_ok _ s (e_txtstart e) (e_txtlen e) false false Hbl T4 T2 ltac:(lia)) as (r1 & s1 & R1 & W1 & K1). rewrite (bind_ok _ _ _ _ _ R1).
  destruct (Z.ltb_spec r1 0) as [_|Hr1]; [by exists false, s1|]. destruct (K1 Hr1) as (Bl1 & Bk1 & M1 & Q1). specialize (Q1 eq_refl).
  destruct (region_ok _ s1 (e_datstart e) (e_datlen e) true false Bl1 D4 D2 ltac:(lia)) as (r2 & s2 & R2 & W2 & K2). rewrite (bind_ok _ _ _ _ _ R2).
  destruct (Z.ltb_spec r2 0) as [_|Hr2]; [by exists false, s2|]. destruct (K2 Hr2) as (Bl2 & Bk2 & M2 & Q2). specialize (Q2 eq_refl).
  destruct (region_ok _ s2 (e_rodatstart e) (e_rodatlen e) false false Bl2 O4 O2 ltac:(lia)) as (r3 & s3 & R3 & W3 & K3). rewrite (bind_ok _ _ _ _ _ R3).
  destruct (Z.ltb_spec r3 0) as [_|Hr3]; [by exists false, s3|]. destruct (K3 Hr3) as (Bl3 & Bk3 & M3 & Q3). specialize (Q3 eq_refl).
  destruct (region_ok _ s3 (e_bssstart e) (e_bsslen e) true true Bl3 B2 ltac:(lia) ltac:(lia)) as (r4 & s4 & R4 & W4 & K4). rewrite (bind_ok _ _ _ _ _ R4).
  destruct (Z.ltb_spec r4 0) as [_|Hr4]; [by exists false, s4|]. destruct (K4 Hr4) as (Bl4 & Bk4 & M4 & _).
  assert (Bt : forall x, touches (e_txtstart e) (e_txtlen e) x -> backed s4 x = true) by (intros x Hx; apply Bk4, Bk3, Bk2, Q1; tauto).
  assert (Bd : forall x, touches (e_datstart e) (e_datlen e) x -> backed s4 x = true) by (intros x Hx; apply Bk4, Bk3, Q2; [done|naive_solver]).
  assert (Bo : forall x, touches (e_rodatstart e) (e_rodatlen e) x -> backed s4 x = true) by (intros x Hx; apply Bk4, Q3; [done|naive_solver]).
  destruct (getbytes_ok file name (e_txtoff e) (e_txtlen e) (e_txtstart e) limit s4 He Hby Hsz) as (s5 & R5 & SM5 & Y5); [by split|done|intros x Hx; by apply Bt, touches_in|].
  destruct (getbytes_ok file name (e_datoff e) (e_datlen e) (e_datstart e) limit s5 He Hby Hsz) as (s6 & R6 & SM6 & Y6); [by split|apply SM5|intros x Hx; rewrite (sm_backed _ _ SM5); by apply Bd, touches_in|].
  pose proof (same_map_trans _ _ _ SM5 SM6) as SM56.
  destruct (getbytes_ok file name (e_rodatoff e) (e_rodatlen e) (e_rodatstart e) limit s6 He Hby Hsz) as (s7 & R7 & SM7 & Y7); [by split|apply SM6|intros x Hx; rewrite (sm_backed _ _ SM56); by apply Bo, touches_in|].
  pose proof (same_map_trans _ _ _ SM56 SM7) as [W7 B7 L7].
  rewrite (s32_small (e_txtlen e)), (s32_small (e_datlen e)), (s32_small (e_rodatlen e)) in * by lia.
  rewrite (bind_ok _ _ _ _ _ R5), (bind_ok _ _ _ _ _ R6), (bind_ok _ _ _ _ _ R7).
  assert (E7 : forall x, mapped s7 x = mapped s4 x) by (intros x; unfold mapped; by rewrite B7, L7).
  exists true, s7. split; [done|]. split; [done|]. intros _. split; [|split].
  - intros x Hx Hm. rewrite E7 in Hm. rewrite Y7. apply put_ext. rewrite Y6. apply put_ext. rewrite Y5. apply put_ext. by apply (bl_zero _ _ Bl4).
  - intros x Hx Hz. rewrite L7 in Hz. destruct (bl_lazy _ _ Bl4 x Hx Hz) as [[[[[]|[? _]]|[? _]]|[? _]]|[_ ?]]; done.
  - intros x Hx. rewrite E7. unfold mapped. destruct Hx as [Hx|[Hx|[Hx|Hx]]]; [by rewrite Bt|by rewrite Bd|by rewrite Bo|]. by apply M4.
Qed.

Definition segment_at (f : Z -> Z) (start : Z) (l : list Z) : Prop := forall i b, l !! i = Some b -> f (start + Z.of_nat i) = b.

(** The segments do not overlap. *)
Record apart (e : simple_elf_t) : Prop := {
  ap_td : disjoint_ranges (e_txtstart e) (e_txtlen e) (e_datstart e) (e_datlen e);
  ap_to : disjoint_ranges (e_txtstart e) (e_txtlen e) (e_rodatstart e) (e_rodatlen e);
  ap_do : disjoint_ranges (e_datstart e) (e_datlen e) (e_rodatstart e) (e_rodatlen e);
  ap_tb : disjoint_ranges (e_txtstart e) (e_txtlen e) (e_bssstart e) (e_bsslen e);
  ap_db : disjoint_ranges (e_datstart e) (e_datlen e) (e_bssstart e) (e_bsslen e);
  ap_ob : disjoint_ranges (e_rodatstart e) (e_rodatlen e) (e_bssstart e) (e_bsslen e) }.

(** The program in memory: its segments, and a zero bss. *)
Record image (f : Z -> Z) (file : toc_entry) (e : simple_elf_t) : Prop := {
  im_text : segment_at f (e_txtstart e) (slice file (e_txtoff e) (e_txtlen e));
  im_data : segment_at f (e_datstart e) (slice file (e_datoff e) (e_datlen e));
  im_rodata : segment_at f (e_rodatstart e) (slice file (e_rodatoff e) (e_rodatlen e));
  im_bss : forall x, e_bssstart e <= x < e_bssstart e + e_bsslen e -> f x = 0 }.

Lemma segments_image file e limit f : elf_ok file e limit -> apart e ->
  (forall x, touches (e_txtstart e) (e_txtlen e) x \/ touches (e_datstart e) (e_datlen e) x \/ touches (e_rodatstart e) (e_rodatlen e) x \/
     touches (e_bssstart e) (e_bsslen e) x -> f x = segments file e x) -> image f file e.
Proof.
  intros [_ _ [T1 T2 T3 T4 T5] [D1 D2 D3 D4 D5] [O1 O2 O3 O4 O5] B1 B2 B3] [X1 X2 X3 X4 X5 X6] E. unfold disjoint_ranges in *.
  pose proof (slice_length file _ _ T1 (Z.lt_le_incl _ _ T2) T3) as LT. pose proof (slice_length file _ _ D1 (Z.lt_le_incl _ _ D2) D3) as LD. pose proof (slice_length file _ _ O1 (Z.lt_le_incl _ _ O2) O3) as LO.
  split.
  - intros i b Hi. pose proof (lookup_lt_Some _ _ _ Hi). rewrite E by (left; apply touches_in; lia). unfold segments.
    rewrite put_out by lia. rewrite put_out by lia. by apply put_in.
  - intros i b Hi. pose proof (lookup_lt_Some _ _ _ Hi). rewrite E by (right; left; apply touches_in; lia). unfold segments.
    rewrite put_out by lia. by apply put_in.
  - intros i b Hi. pose proof (lookup_lt_Some _ _ _ Hi). rewrite E by (right; right; left; apply touches_in; lia). by apply put_in.
  - intros x Hx. rewrite E by (do 3 right; by apply touches_in). unfold segments. by rewrite !put_out by lia.
Qed.

(** ** loadTask *)

Context (elf_check_header : list Z -> Z) (elf_load_helper : list Z -> Z * simple_elf_t).

(** The pages of the initial stack. *)
Definition stack_pages (argv : list (list Z)) : Z := (need argv + (4 - need argv mod 4)) / PAGE_SIZE + 1.
Definition stack_low (argv : list (list Z)) : Z := 2 ^ 32 - stack_pages argv * PAGE_SIZE.

Lemma stack_pages_fit argv : need argv < 2 ^ 29 ->
  0 <= stack_pages argv < 2 ^ 18 /\ 2 ^ 32 - main_esp argv <= stack_pages argv * PAGE_SIZE /\ Z.quot (stack_len argv) PAGE_SIZE + 1 = stack_pages argv.
Proof.
  intros Hn. rewrite stack_len_val by done. unfold stack_pages, main_esp, PAGE_SIZE. pose proof (total_nonneg argv).
  assert (0 <= need argv) by (unfold need; lia). pose proof (Z.mod_pos_bound (need argv) 4 ltac:(lia)).
  rewrite Z.quot_div_nonneg by lia. set (l := need argv + (4 - need argv mod 4)) in *.
  pose proof (Z.div_mod l 4096 ltac:(lia)). pose proof (Z.mod_pos_bound l 4096 ltac:(lia)). lia.
Qed.

Lemma loadTask_run file name e argv s :
  entry_of TOC name = Some file -> elf_check_header name <> ELF_NOTELF -> elf_load_helper name = (0, e) ->
  Forall is_string argv -> need argv < 2 ^ 29 -> elf_ok file e (stack_low argv) -> apart e -> blank (fun _ => False) s ->
  exists r s', loadTask TOC elf_check_header elf_load_helper name argv s = Ok (r, s') /\ wf s' /\
    match r with
    | inl err => err = ENOMEM
    | inr (esp, entry) => entry = e_entry e /\ image (byte_at s') file e /\ main_frame (byte_at s') (stack_low argv) esp argv /\
        (forall x, stack_low argv <= x < 2 ^ 32 -> backed s' x = true)
    end.
Proof.
  intros He Hh Hl Hs Hn Helf Hap Hbl. destruct (stack_pages_fit argv Hn) as (Hpg & Hfit & Hquot).
  unfold loadTask, is_file_exist. rewrite He, (proj2 (Z.eqb_neq _ _) Hh), Hl. cbn [Z.eqb ELF_NOTELF].
  destruct (load_segments_ok file name e (stack_low argv) s He Helf) as (ok & s1 & R1 & W1 & K1); [unfold stack_low, PAGE_SIZE; lia|done|].
  rewrite (bind_ok _ _ _ _ _ R1). destruct ok; [|by eexists _, s1]. cbn [negb]. destruct (K1 eq_refl) as (Y1 & L1 & M1). rewrite Hquot. cbv zeta.
  replace (MAX_ADDR - stack_pages argv * PAGE_SIZE + 1) with (stack_low argv) by (unfold stack_low, MAX_ADDR; lia).
  assert (Hlow : 2 ^ 31 <= stack_low argv <= 2 ^ 32) by (unfold stack_low, PAGE_SIZE; lia). assert (Hpos : 0 < stack_pages argv).
  { destruct (main_esp_layout argv Hn) as (HH & _ & _). unfold PAGE_SIZE, MAX_ADDR in *. pose proof (total_nonneg argv). pose proof (Z.mod_pos_bound (2 ^ 32 - 1 - total argv) 4 ltac:(lia)). lia. }
  rewrite w32_small, s32_small by (unfold stack_low, PAGE_SIZE in *; lia).
  destruct (new_region_ok s1 (stack_low argv) (stack_pages argv * PAGE_SIZE) true false W1) as (r & s2 & R2 & W2 & Hs2); [unfold USER_MEM_START, stack_low, PAGE_SIZE in *; lia..|].
  rewrite (bind_ok _ _ _ _ _ R2). destruct (Z.ltb_spec r 0) as [_|Hr]; [by eexists _, s2|]. destruct (Hs2 Hr) as (Keep & Orig & Bk & Lz & Suc).
  assert (Hbk : forall x, stack_low argv <= x < 2 ^ 32 -> backed s2 x = true).
  { intros x Hx. apply (Suc x); [apply touches_in; unfold stack_low in *; lia|done|]. destruct (lazy s1 x) eqn:E; [|done].
    assert (Hx' : x < (2 ^ 20 - stack_pages argv) * PAGE_SIZE).
    { apply (touches_below (e_bssstart e) (e_bsslen e)); [pose proof (eo_bss_limit _ _ _ Helf); unfold stack_low, PAGE_SIZE in *; lia|].
      apply L1; [unfold USER_MEM_START; lia|done]. }
    unfold stack_low, PAGE_SIZE in *. lia. }
  destruct (put_stack_ok s2 (stack_pages argv) argv W2 Hs Hn) as (s3 & R3 & SM3 & F3 & O3); [lia|unfold PAGE_SIZE; lia|done|done|].
  rewrite (bind_ok _ _ _ _ _ R3). eexists _, s3. split; [done|]. split; [apply SM3|]. split; [done|]. split; [|split; [done|intros x Hx; rewrite (sm_backed _ _ SM3); by apply Hbk]].
  apply (segments_image file e (stack_low argv)); [done|done|]. intros x Hx. assert (Hux : USER_MEM_START <= x).
  { destruct Helf as [_ _ [] [] [] _ ? _], Hx as [Hx|[Hx|[Hx|Hx]]]; (eapply touches_user; [|exact Hx]; done). }
  rewrite O3; [rewrite Keep by (done || by apply M1); apply Y1; [done|by apply M1]|].
  replace (2 ^ 32 - stack_pages argv * PAGE_SIZE) with ((2 ^ 20 - stack_pages argv) * PAGE_SIZE) by (unfold PAGE_SIZE; lia).
  destruct Helf as [_ _ [] [] [] _ _ ?], Hx as [Hx|[Hx|[Hx|Hx]]]; (eapply touches_below; [|exact Hx]); unfold stack_low, PAGE_SIZE in *; lia.
Qed.

(** [loadTask] either reports that there is not enough memory, or builds the
    process: text, data and rodata hold the bytes of the file, the bss is zero,
    and [_main] finds argc, argv with every argument string, and the bounds of
    the stack, all inside the pages allocated for the stack.  It writes nowhere
    it may not write. *)
Theorem loadTask_correct file name e argv s :
  entry_of TOC name = Some file -> elf_check_header name <> ELF_NOTELF -> elf_load_helper name = (0, e) ->
  Forall is_string argv -> need argv < 2 ^ 29 -> elf_ok file e (stack_low argv) -> apart e -> blank (fun _ => False) s ->
  exists r s', loadTask TOC elf_check_header elf_load_helper name argv s = Ok (r, s') /\ wf s' /\
    match r with
    | inl err => err = ENOMEM
    | inr (esp, entry) => entry = e_entry e /\ image (byte_at s') file e /\ main_frame (byte_at s') (stack_low argv) esp argv /\
        (forall x, stack_low argv <= x < 2 ^ 32 -> backed s' x = true)
    end.
Proof. apply loadTask_run. Qed.

Lemma loadTask_refused name argv s :
  entry_of TOC name = None \/ elf_check_header name = ELF_NOTELF \/ fst (elf_load_helper name) = ELF_NOTELF ->
  exists err, loadTask TOC elf_check_header elf_load_helper name argv s = Ok (inl err, s) /\
    err = if is_file_exist TOC name =? 0 then ENOENT else ENOEXEC.
Proof.
  intros Hx. unfold loadTask. destruct (is_file_exist TOC name =? 0) eqn:E; [by eexists|]. exists ENOEXEC. split; [|done].
  destruct Hx as [Hx|Hx]; [unfold is_file_exist in E; by rewrite Hx in E|]. destruct (Z.eqb_spec (elf_check_header name) ELF_NOTELF); [done|].
  destruct Hx as [?|Hx]; [done|]. destruct (elf_load_helper name) as [rv e]. simpl in Hx. by rewrite Hx.
Qed.

(** A file that is not in the table, or that is no ELF file, is refused before
    memory is touched. *)
Theorem loadTask_rejects name argv s :
  entry_of TOC name = None \/ elf_check_header name = ELF_NOTELF \/ fst (elf_load_helper name) = ELF_NOTELF ->
  exists err, loadTask TOC elf_check_header elf_load_helper name argv s = Ok (inl err, s) /\
    err = if is_file_exist TOC name =? 0 then ENOENT else ENOEXEC.
Proof. apply loadTask_refused. Qed.
End segments.

(** ** A program of one page per segment *)

Definition demo_name : list Z := [97; 98].
Definition demo_file : toc_entry := mk_toc demo_name [1; 2; 3; 4; 5; 6].
Definition demo_elf : simple_elf_t := mk_elf 16777216 0 2 16777216 2 2 33554432 4 2 33554440 8 33558528.
Definition demo_flat : flat := mk_flat (fun _ => false) (fun _ => false) (fun _ => 0) 100.
Definition demo_argv : list (list Z) := [demo_name; [49]].

Lemma demo_blank : blank (fun _ => False) demo_flat.
Proof. split; [|done|done]. intros x. simpl. lia. Qed.

Lemma loadTask_witness :
  exists esp entry s', loadTask [demo_file] (fun _ => 0) (fun _ => (0, demo_elf)) demo_name demo_argv demo_flat = Ok (inr (esp, entry), s') /\
    main_frame (byte_at s') (stack_low demo_argv) esp demo_argv.
Proof.
  destruct (loadTask_correct [demo_file] (fun _ => 0) (fun _ => (0, demo_elf)) demo_file demo_name demo_elf demo_argv demo_flat) as (r & s' & R & _ & K).
  - reflexivity.
  - done.
  - done.
  - repeat constructor.
  - done.
  - split; [repeat constructor; unfold is_byte; lia|done|..]; try (by vm_compute; repeat split; congruence); split; by vm_compute.
  - split; vm_compute; by first [left; congruence|right; congruence].
  - apply demo_blank.
  - destruct r as [err|[esp entry]]; [apply (f_equal outcome) in R; vm_compute in R; discriminate R|]. exists esp, entry, s'. split; [exact R|]. apply K.
Defined.

Lemma loadTask_rejects_witness :
  exists err, loadTask [demo_file] (fun _ => 0) (fun _ => (0, demo_elf)) [120] [] demo_flat = Ok (inl err, demo_flat) /\ err = ENOENT.
Proof. apply (loadTask_rejects [demo_file] (fun _ => 0) (fun _ => (0, demo_elf)) [120] [] demo_flat). by left. Defined.
End Loader.
