(* ===== verification/Elf.v ===== *)
(** * The ELF reader (src/410kern/elf/load_helper.c)

    Reads the header, the section headers and the names of the sections of a program, through the
    kernel's [getbytes], and fills in [simple_elf_t].  The two functions are the ones that
    the loader takes as parameters; the messages to the simulator's log are left out.

    Offsets come from the file and are not checked: [getbytes] takes a signed offset, and a
    negative one reads kernel memory in front of the program.  [around] is that memory.

    [describes] relates the bytes of a file to a list of named sections; the reader is shown to
    return what the last section of each name says, and with it the loader builds the
    process image of the sections of the file. *)

From Stdlib Require Import ZArith Lia.
From stdpp Require Import base list tactics numbers.
From S2P Require Import Prelude AddrSpace Loader.

#[local] Open Scope Z_scope.
#[local] Set Default Proof Using "Type".

Module Elf.

Definition ELF_SUCCESS : Z := 0.
Definition ELF_NOTELF : Z := -1.
Definition ELFMAG : list Z := [127; 69; 76; 70].
Definition ET_EXEC : Z := 2.
Definition EM_386 : Z := 3.
Definition EV_CURRENT : Z := 1.
Definition SHN_UNDEF : Z := 0.
Definition MAX_SECTION_NAME_LEN : Z := 10.
Definition sizeof_Ehdr : Z := 52.
Definition sizeof_Shdr : Z := 40.

(** A struct that was read into a buffer, with its fields at their offsets. *)
Definition byte (buf : list Z) (i : nat) : Z := nth i buf 0.
Definition half (buf : list Z) (i : nat) : Z := byte buf i + 256 * byte buf (i + 1).
Definition word (buf : list Z) (i : nat) : Z := byte buf i + 256 * byte buf (i + 1) + 65536 * byte buf (i + 2) + 16777216 * byte buf (i + 3).

Record Elf32_Ehdr := mk_ehdr { e_ident : list Z; e_type : Z; e_machine : Z; e_version : Z; eh_entry : Z; e_shoff : Z; e_shnum : Z; e_shstrndx : Z }.
Definition ehdr_of (b : list Z) : Elf32_Ehdr := mk_ehdr (take 16 b) (half b 16) (half b 18) (word b 20) (word b 24) (word b 32) (half b 48) (half b 50).

Record Elf32_Shdr := mk_shdr { sh_name : Z; sh_addr : Z; sh_offset : Z; sh_size : Z }.
Definition shdr_of (b : list Z) : Elf32_Shdr := mk_shdr (word b 0) (word b 12) (word b 16) (word b 20).

(** [while ((a = *s1++), (b = *s2++), a && b) if (a != b) return a - b; return a - b;]; the first string
    is a literal and ends first. *)
Fixpoint strcmp (s1 s2 : list Z) : Z :=
  match s1, s2 with
  | a :: s1, b :: s2 => if negb (a =? 0) && negb (b =? 0) then if negb (a =? b) then w32 (a - b) else strcmp s1 s2 else w32 (a - b)
  | _, _ => 0
  end.
Fixpoint memcmp (s1 s2 : list Z) (size : nat) : Z :=
  match size, s1, s2 with
  | S size, a :: s1, b :: s2 => if negb (a =? b) then w32 (a - b) else memcmp s1 s2 size
  | _, _, _ => 0
  end.

(** The literals, with the terminating 0. *)
Definition text_name : list Z := [46; 116; 101; 120; 116; 0].
Definition rodata_name : list Z := [46; 114; 111; 100; 97; 116; 97; 0].
Definition data_name : list Z := [46; 100; 97; 116; 97; 0].
Definition bss_name : list Z := [46; 98; 115; 115; 0].

Definition set_entry v e := mk_elf v (e_txtoff e) (e_txtlen e) (e_txtstart e) (e_datoff e) (e_datlen e) (e_datstart e) (e_rodatoff e) (e_rodatlen e) (e_rodatstart e) (e_bsslen e) (e_bssstart e).
Definition set_text off len start e := mk_elf (e_entry e) off len start (e_datoff e) (e_datlen e) (e_datstart e) (e_rodatoff e) (e_rodatlen e) (e_rodatstart e) (e_bsslen e) (e_bssstart e).
Definition set_data off len start e := mk_elf (e_entry e) (e_txtoff e) (e_txtlen e) (e_txtstart e) off len start (e_rodatoff e) (e_rodatlen e) (e_rodatstart e) (e_bsslen e) (e_bssstart e).
Definition set_rodata off len start e := mk_elf (e_entry e) (e_txtoff e) (e_txtlen e) (e_txtstart e) (e_datoff e) (e_datlen e) (e_datstart e) off len start (e_bsslen e) (e_bssstart e).
Definition set_bss len start e := mk_elf (e_entry e) (e_txtoff e) (e_txtlen e) (e_txtstart e) (e_datoff e) (e_datlen e) (e_datstart e) (e_rodatoff e) (e_rodatlen e) (e_rodatstart e) len start.
Definition zero_elf : simple_elf_t := mk_elf 0 0 0 0 0 0 0 0 0 0 0 0.

Section reader.
Context (TOC : list toc_entry) (around : toc_entry -> Z -> Z).

(** The byte of kernel memory at [execbytes + i]. *)
Definition at_ (e : toc_entry) (i : Z) : Z := if (0 <=? i) && (i <? execlen e) then nth (Z.to_nat i) (execbytes e) 0 else around e i.

(** [getbytes] into a buffer of the kernel; [None] is the answer -1. *)
Definition getbytes (fname : list Z) (offset size : Z) : option (list Z) :=
  match Loader.entry_of TOC fname with
  | None => None
  | Some e => if execlen e <? s32 (offset + size) then None else Some (map (fun i => at_ e (offset + Z.of_nat i)) (seq 0 (Z.to_nat size)))
  end.

(** What the header of a section with that name sets. *)
Definition use_section (section_name : list Z) (h : Elf32_Shdr) (e : simple_elf_t) : simple_elf_t :=
  if strcmp text_name section_name =? 0 then set_text (sh_offset h) (sh_size h) (sh_addr h) e
  else if strcmp rodata_name section_name =? 0 then set_rodata (sh_offset h) (sh_size h) (sh_addr h) e
  else if strcmp data_name section_name =? 0 then set_data (sh_offset h) (sh_size h) (sh_addr h) e
  else if strcmp bss_name section_name =? 0 then set_bss (sh_size h) (sh_addr h) e
  else e.

(** The loop over the section headers from [i] on; [n] are left. *)
Fixpoint sections (n : nat) (i : Z) (fname : list Z) (shoff string_offset : Z) (e : simple_elf_t) : Z * simple_elf_t :=
  match n with
  | O => (ELF_SUCCESS, e)
  | S n =>
      match getbytes fname (s32 (w32 (shoff + i * sizeof_Shdr))) sizeof_Shdr with
      | None => (ELF_NOTELF, e)
      | Some b =>
          let h := shdr_of b in
          if sh_name h =? SHN_UNDEF then sections n (i + 1) fname shoff string_offset e else
          match getbytes fname (s32 (w32 (string_offset + sh_name h))) MAX_SECTION_NAME_LEN with
          | None => (ELF_NOTELF, e)
          | Some section_name => sections n (i + 1) fname shoff string_offset (use_section section_name h e)
          end
      end
  end.

Definition elf_load_helper (fname : list Z) : Z * simple_elf_t :=
  match getbytes fname 0 sizeof_Ehdr with
  | None => (ELF_NOTELF, zero_elf)
  | Some b =>
      let elf_hdr := ehdr_of b in
      let e := set_entry (eh_entry elf_hdr) zero_elf in
      match getbytes fname (s32 (w32 (e_shoff elf_hdr + e_shstrndx elf_hdr * sizeof_Shdr))) sizeof_Shdr with
      | None => (ELF_NOTELF, e)
      | Some b => sections (Z.to_nat (e_shnum elf_hdr)) 0 fname (e_shoff elf_hdr) (sh_offset (shdr_of b)) e
      end
  end.

Definition elf_check_header (fname : list Z) : Z :=
  match getbytes fname 0 sizeof_Ehdr with
  | None => ELF_NOTELF
  | Some b =>
      let elf_hdr := ehdr_of b in
      if negb (memcmp (e_ident elf_hdr) ELFMAG 4 =? 0) then ELF_NOTELF
      else if negb (e_type elf_hdr =? ET_EXEC) then ELF_NOTELF
      else if negb (e_machine elf_hdr =? EM_386) then ELF_NOTELF
      else if negb (e_version elf_hdr =? EV_CURRENT) then ELF_NOTELF
      else ELF_SUCCESS
  end.
End reader.

(** ** What a file says *)

(** A section: its name, the index of the name, where it belongs, and where its bytes are. *)
Record section := mk_sec { s_name : list Z; s_idx : Z; s_addr : Z; s_off : Z; s_size : Z }.

Definition names (n : list Z) (s : section) : Prop := s_idx s <> SHN_UNDEF /\ s_name s = n.
#[global] Instance names_dec n s : Decision (names n s).
Proof. unfold names. apply _. Defined.

(** The last section of that name. *)
Definition last_named (n : list Z) (l : list section) : option section := list.last (filter (names n) l).
Definition field (f : section -> Z) (o : option section) : Z := match o with Some s => f s | None => 0 end.

Definition dot_text : list Z := [46; 116; 101; 120; 116].
Definition dot_rodata : list Z := [46; 114; 111; 100; 97; 116; 97].
Definition dot_data : list Z := [46; 100; 97; 116; 97].
Definition dot_bss : list Z := [46; 98; 115; 115].

(** What the loader needs to know of the sections. *)
Definition summary (entry : Z) (l : list section) : simple_elf_t :=
  let t := last_named dot_text l in let d := last_named dot_data l in let r := last_named dot_rodata l in let b := last_named dot_bss l in
  mk_elf entry (field s_off t) (field s_size t) (field s_addr t) (field s_off d) (field s_size d) (field s_addr d)
    (field s_off r) (field s_size r) (field s_addr r) (field s_size b) (field s_addr b).

(** The bytes of the file are an executable for this processor with these sections; the section
    names are in a table at [strings]. *)
Record describes (file : toc_entry) (entry : Z) (l : list section) : Prop := {
  ds_bytes : Forall is_byte (execbytes file);
  ds_size : 52 <= execlen file < 2 ^ 31;
  ds_magic : take 4 (execbytes file) = ELFMAG;
  ds_kind : half (execbytes file) 16 = ET_EXEC /\ half (execbytes file) 18 = EM_386 /\ word (execbytes file) 20 = EV_CURRENT;
  ds_entry : word (execbytes file) 24 = entry;
  ds_table : exists shoff strndx strings, word (execbytes file) 32 = Z.of_nat shoff /\ half (execbytes file) 48 = Z.of_nat (length l) /\ half (execbytes file) 50 = Z.of_nat strndx /\
    Z.of_nat shoff + 40 * Z.of_nat (length l) <= execlen file /\
    (exists s, l !! strndx = Some s /\ s_off s = Z.of_nat strings) /\
    forall i s, l !! i = Some s ->
      let o := (shoff + 40 * i)%nat in
      word (execbytes file) o = s_idx s /\ word (execbytes file) (o + 12) = s_addr s /\ word (execbytes file) (o + 16) = s_off s /\ word (execbytes file) (o + 20) = s_size s /\
      (s_idx s <> SHN_UNDEF -> 0 <= s_idx s /\ Z.of_nat strings + s_idx s + 10 <= execlen file /\ Forall (fun c => c <> 0) (s_name s) /\
        forall j c, (s_name s ++ [0]) !! j = Some c -> byte (execbytes file) (strings + Z.to_nat (s_idx s) + j) = c) }.

(** ** Names *)

Lemma w32_nz x : x <> 0 -> - 2 ^ 32 < x < 2 ^ 32 -> w32 x <> 0.
Proof. intros Hx Hr Hz. unfold w32 in Hz. apply Z.mod_divide in Hz as [q Hq]; [|lia]. nia. Qed.

Lemma strcmp_eq lit : forall buf name, Forall (fun c => 0 < c < 256) lit -> Forall (fun c => c <> 0) name -> (length lit < length buf)%nat -> Forall is_byte buf ->
  (forall j c, (name ++ [0]) !! j = Some c -> (j < length buf)%nat -> buf !! j = Some c) -> strcmp (lit ++ [0]) buf = 0 <-> name = lit.
Proof.
  induction lit as [|a lit IH]; intros [|b buf] name Hl Hn Hlen Hby Hpre; simpl in Hlen; try lia.
  - inversion_clear Hby as [|? ? Hb _]. unfold is_byte in Hb. pose proof (Hpre 0%nat) as H0. destruct name as [|c name]; simpl in H0.
    + specialize (H0 0 eq_refl ltac:(lia)). injection H0 as ->. done.
    + specialize (H0 c eq_refl ltac:(lia)). injection H0 as ->. inversion_clear Hn. simpl. split; [|done]. intros Hz. exfalso. apply (w32_nz (0 - c)); [lia|lia|exact Hz].
  - inversion_clear Hl as [|? ? Ha Hl']. inversion_clear Hby as [|? ? Hb Hby']. unfold is_byte in Hb. pose proof (Hpre 0%nat) as H0. cbn [app strcmp]. rewrite (proj2 (Z.eqb_neq a 0)) by lia. cbn [negb andb].
    destruct name as [|c name]; simpl in H0.
    + specialize (H0 0 eq_refl ltac:(lia)). injection H0 as ->. simpl. split; [|done]. intros Hz. exfalso. apply (w32_nz (a - 0)); [lia|lia|done].
    + specialize (H0 c eq_refl ltac:(lia)). injection H0 as ->. inversion_clear Hn as [|? ? Hc Hn']. rewrite (proj2 (Z.eqb_neq c 0)) by done. cbn [negb]. destruct (Z.eqb_spec a c) as [->|Hne].
      * rewrite (IH buf name Hl' Hn' ltac:(lia) Hby'); [split; congruence|]. intros j d Hj Hj'. apply (Hpre (S j) d); [done|simpl; lia].
      * simpl. split; [|congruence]. intros Hz. exfalso. apply (w32_nz (a - c)); [lia|lia|done].
Qed.

Lemma last_named_snoc n l s : last_named n (l ++ [s]) = if decide (names n s) then Some s else last_named n l.
Proof.
  unfold last_named. rewrite list.filter_app. destruct (decide (names n s)) as [H|H].
  - rewrite (filter_cons_True _ _ _ H), filter_nil. apply list.last_snoc.
  - rewrite (filter_cons_False _ _ _ H), filter_nil. by rewrite app_nil_r.
Qed.

Lemma summary_skip entry l s : s_idx s = SHN_UNDEF -> summary entry (l ++ [s]) = summary entry l.
Proof. intros E. unfold summary. rewrite !last_named_snoc. by repeat (rewrite decide_False by (intros [? _]; done)). Qed.

Lemma use_section_ok entry l s buf : length buf = 10%nat -> Forall is_byte buf -> s_idx s <> SHN_UNDEF -> Forall (fun c => c <> 0) (s_name s) ->
  (forall j c, (s_name s ++ [0]) !! j = Some c -> (j < 10)%nat -> buf !! j = Some c) ->
  use_section buf (mk_shdr (s_idx s) (s_addr s) (s_off s) (s_size s)) (summary entry l) = summary entry (l ++ [s]).
Proof.
  intros Hlen Hby Hi Hn Hpre.
  assert (Hc : forall lit, (length lit < 10)%nat -> Forall (fun c => 0 < c < 256) lit -> (strcmp (lit ++ [0]) buf =? 0) = bool_decide (s_name s = lit)).
  { intros lit Hl Hlit. pose proof (strcmp_eq lit buf (s_name s) Hlit Hn ltac:(lia) Hby ltac:(by rewrite Hlen)) as E. destruct (Z.eqb_spec (strcmp (lit ++ [0]) buf) 0) as [H0|H0].
    - symmetry. apply bool_decide_eq_true. tauto.
    - symmetry. apply bool_decide_eq_false. tauto. }
  unfold use_section. change text_name with (dot_text ++ [0]). change rodata_name with (dot_rodata ++ [0]). change data_name with (dot_data ++ [0]). change bss_name with (dot_bss ++ [0]).
  rewrite (Hc dot_text ltac:(simpl; lia) ltac:(repeat constructor; lia)), (Hc dot_rodata ltac:(simpl; lia) ltac:(repeat constructor; lia)),
    (Hc dot_data ltac:(simpl; lia) ltac:(repeat constructor; lia)), (Hc dot_bss ltac:(simpl; lia) ltac:(repeat constructor; lia)).
  unfold summary. rewrite !last_named_snoc. assert (Hd : forall n, names n s <-> s_name s = n) by (intros n; unfold names; tauto).
  assert (Yes : forall n (o : option section), s_name s = n -> (if decide (names n s) then Some s else o) = Some s) by (intros n o E; by rewrite decide_True by (by apply Hd)).
  assert (No : forall n (o : option section), s_name s <> n -> (if decide (names n s) then Some s else o) = o) by (intros n o E; rewrite decide_False; [done|by rewrite Hd]).
  case_bool_decide as E1; [rewrite (Yes dot_text), (No dot_data), (No dot_rodata), (No dot_bss) by (rewrite ?E1; done); done|].
  case_bool_decide as E2; [rewrite (No dot_text), (No dot_data), (Yes dot_rodata), (No dot_bss) by (rewrite ?E2; done); done|].
  case_bool_decide as E3; [rewrite (No dot_text), (Yes dot_data), (No dot_rodata), (No dot_bss) by (rewrite ?E3; done); done|].
  case_bool_decide as E4; [rewrite (No dot_text), (No dot_data), (No dot_rodata), (Yes dot_bss) by (rewrite ?E4; done); done|].
  by rewrite (No dot_text), (No dot_data), (No dot_rodata), (No dot_bss).
Qed.

(** ** Reading *)

Section correct.
Context (TOC : list toc_entry) (around : toc_entry -> Z -> Z).

Definition piece (file : toc_entry) (off size : nat) : list Z := map (fun i => byte (execbytes file) (off + i)) (seq 0 size).

Lemma piece_byte file off size i : (i < size)%nat -> byte (piece file off size) i = byte (execbytes file) (off + i).
Proof.
  intros Hi. unfold piece. unfold byte at 1. rewrite (nth_indep _ 0 (byte (execbytes file) (off + 0))) by (rewrite length_map, length_seq; lia).
  rewrite (map_nth (fun i => byte (execbytes file) (off + i))), seq_nth by lia. done.
Qed.

Lemma piece_word file off size i : (i + 4 <= size)%nat -> word (piece file off size) i = word (execbytes file) (off + i).
Proof. intros Hi. unfold word. rewrite !piece_byte by lia. by rewrite !Nat.add_assoc. Qed.

Lemma piece_half file off size i : (i + 2 <= size)%nat -> half (piece file off size) i = half (execbytes file) (off + i).
Proof. intros Hi. unfold half. rewrite !piece_byte by lia. by rewrite !Nat.add_assoc. Qed.

Lemma getbytes_in name file off size : Loader.entry_of TOC name = Some file -> execlen file < 2 ^ 31 -> Z.of_nat (off + size) <= execlen file ->
  getbytes TOC around name (Z.of_nat off) (Z.of_nat size) = Some (piece file off size).
Proof.
  intros He Hsz Hin. unfold getbytes. rewrite He, s32_small, (proj2 (Z.ltb_ge _ _)) by lia. rewrite Nat2Z.id. f_equal. unfold piece. apply map_ext_in. intros i Hi%in_seq. unfold at_, byte.
  replace ((0 <=? Z.of_nat off + Z.of_nat i) && (Z.of_nat off + Z.of_nat i <? execlen file)) with true by lia. f_equal. lia.
Qed.

Lemma sections_ok name file entry shoff strings l : Loader.entry_of TOC name = Some file -> execlen file < 2 ^ 31 -> Forall is_byte (execbytes file) ->
  Z.of_nat shoff + 40 * Z.of_nat (length l) <= execlen file ->
  (forall i s, l !! i = Some s -> let o := (shoff + 40 * i)%nat in
      word (execbytes file) o = s_idx s /\ word (execbytes file) (o + 12) = s_addr s /\ word (execbytes file) (o + 16) = s_off s /\ word (execbytes file) (o + 20) = s_size s /\
      (s_idx s <> SHN_UNDEF -> 0 <= s_idx s /\ Z.of_nat strings + s_idx s + 10 <= execlen file /\ Forall (fun c => c <> 0) (s_name s) /\
        forall j c, (s_name s ++ [0]) !! j = Some c -> byte (execbytes file) (strings + Z.to_nat (s_idx s) + j) = c)) ->
  forall l2 l1, l = l1 ++ l2 ->
  sections TOC around (length l2) (Z.of_nat (length l1)) name (Z.of_nat shoff) (Z.of_nat strings) (summary entry l1) = (ELF_SUCCESS, summary entry l).
Proof.
  intros He Hsz Hby Hfit Hsec. induction l2 as [|s l2 IH]; intros l1 El; [by rewrite El, app_nil_r|]. cbn [length sections].
  destruct (Hsec (length l1) s ltac:(rewrite El; apply list_lookup_middle; done)) as (E1 & E2 & E3 & E4 & Hname). set (o := (shoff + 40 * length l1)%nat) in *. rewrite El, length_app in Hfit. cbn [length] in Hfit.
  assert (Eo : Z.of_nat shoff + Z.of_nat (length l1) * sizeof_Shdr = Z.of_nat o) by (unfold o, sizeof_Shdr; lia). rewrite Eo, w32_small, s32_small by lia.
  change sizeof_Shdr with (Z.of_nat 40). rewrite (getbytes_in name file o 40 He Hsz) by lia.
  replace (shdr_of (piece file o 40)) with (mk_shdr (s_idx s) (s_addr s) (s_off s) (s_size s)) by (unfold shdr_of; rewrite !piece_word, Nat.add_0_r by lia; by rewrite E1, E2, E3, E4).
  assert (Next : forall e, e = summary entry (l1 ++ [s]) -> sections TOC around (length l2) (Z.of_nat (length l1) + 1) name (Z.of_nat shoff) (Z.of_nat strings) e = (ELF_SUCCESS, summary entry l)).
  { intros e ->. replace (Z.of_nat (length l1) + 1) with (Z.of_nat (length (l1 ++ [s]))) by (rewrite length_app; simpl; lia). apply IH. by rewrite <- app_assoc. }
  cbn [sh_name]. destruct (Z.eqb_spec (s_idx s) SHN_UNDEF) as [Hu|Hu]; [apply Next; by rewrite summary_skip|]. destruct (Hname Hu) as (Hi0 & Hst & Hn & Hpre).
  assert (Es : Z.of_nat strings + s_idx s = Z.of_nat (strings + Z.to_nat (s_idx s))) by lia. rewrite Es in Hst |- *. set (k := (strings + Z.to_nat (s_idx s))%nat) in *. rewrite w32_small, s32_small by lia.
  change MAX_SECTION_NAME_LEN with (Z.of_nat 10). rewrite (getbytes_in name file k 10 He Hsz) by lia. apply Next. apply use_section_ok; try done.
  - apply Forall_forall. intros x Hx. unfold piece in Hx. apply in_map_iff in Hx as (i & <- & Hi%in_seq). unfold byte. rewrite Forall_forall in Hby. apply Hby, nth_In. unfold execlen in Hst. lia.
  - intros j c Hj Hj10. pose proof (piece_byte file k 10 j Hj10) as Hb. rewrite (Hpre j c Hj) in Hb. unfold byte in Hb. rewrite <- Hb. destruct (nth_lookup_or_length (piece file k 10) j 0) as [E|E]; [done|]. unfold piece in E. rewrite length_map, length_seq in E. lia.
Qed.

Lemma reader_run name file entry l : Loader.entry_of TOC name = Some file -> describes file entry l ->
  elf_check_header TOC around name = ELF_SUCCESS /\ elf_load_helper TOC around name = (ELF_SUCCESS, summary entry l).
Proof.
  intros He [Hby [Hs1 Hs2] Hm (K1 & K2 & K3) Hen (shoff & strndx & strings & T1 & T2 & T3 & T4 & (s & Hs & Hso) & Hsec)].
  assert (G : getbytes TOC around name 0 sizeof_Ehdr = Some (piece file 0 52)) by (change 0 with (Z.of_nat 0); change sizeof_Ehdr with (Z.of_nat 52); apply getbytes_in; [done|lia|simpl; lia]). split.
  - unfold elf_check_header. rewrite G. unfold ehdr_of. cbn [e_ident e_type e_machine e_version]. rewrite !piece_half, piece_word by lia. rewrite !Nat.add_0_l, K1, K2, K3.
    assert (E : memcmp (take 16 (piece file 0 52)) ELFMAG 4 = 0).
    { destruct (execbytes file) as [|a [|b [|c [|d rest]]]] eqn:Ex; try done. injection Hm as -> -> -> ->. unfold piece. rewrite Ex. done. }
    by rewrite E.
  - unfold elf_load_helper. rewrite G. unfold ehdr_of. cbn [eh_entry e_shoff e_shnum e_shstrndx]. rewrite !piece_half, !piece_word by lia. rewrite !Nat.add_0_l, T1, T2, T3, Hen.
    pose proof (lookup_lt_Some _ _ _ Hs) as Hlt. destruct (Hsec strndx s Hs) as (_ & _ & E3 & _). set (o := (shoff + 40 * strndx)%nat) in *.
    assert (Eo : Z.of_nat shoff + Z.of_nat strndx * sizeof_Shdr = Z.of_nat o) by (unfold o, sizeof_Shdr; lia). rewrite Eo, w32_small, s32_small by lia.
    change sizeof_Shdr with (Z.of_nat 40). rewrite (getbytes_in name file o 40 He Hs2) by lia. unfold shdr_of. cbn [sh_offset]. rewrite piece_word, E3, Hso, Nat2Z.id by lia.
    apply (sections_ok name file entry shoff strings l He Hs2 Hby T4 Hsec l [] eq_refl).
Qed.

(** The ELF reader finds the sections by name.  Let the file be an executable for this processor
    whose section table and name table lie inside it.  Then [elf_check_header]
    accepts it, and [elf_load_helper] succeeds with the entry point and, for each of .text, .rodata,
    .data and .bss, the address, size and offset of the last section of exactly that name, or 0
    when there is none; sections without a name and all others have no effect. *)
Theorem elf_reader_correct name file entry l : Loader.entry_of TOC name = Some file -> describes file entry l ->
  elf_check_header TOC around name = ELF_SUCCESS /\ elf_load_helper TOC around name = (ELF_SUCCESS, summary entry l).
Proof. apply reader_run. Qed.

(** A file that is shorter than a header, or has another magic number, is no program. *)
Theorem elf_check_header_rejects name file : Loader.entry_of TOC name = Some file -> execlen file < 2 ^ 31 -> execlen file < 52 \/ take 4 (execbytes file) <> ELFMAG /\ 52 <= execlen file ->
  Forall is_byte (execbytes file) -> elf_check_header TOC around name = ELF_NOTELF.
Proof.
  intros He Hsz Hbad Hby. unfold elf_check_header. destruct Hbad as [Hs|[Hm Hs]].
  - unfold getbytes, sizeof_Ehdr. rewrite He, s32_small, (proj2 (Z.ltb_lt _ _)) by lia. done.
  - change 0 with (Z.of_nat 0) at 1. change sizeof_Ehdr with (Z.of_nat 52). rewrite (getbytes_in name file 0 52 He Hsz) by (simpl; lia). unfold ehdr_of. cbn [e_ident].
    destruct (execbytes file) as [|a [|b [|c [|d rest]]]] eqn:Ex; unfold execlen in Hs; rewrite Ex in Hs; simpl in Hs; try lia. unfold piece. rewrite Ex. cbn -[w32].
    inversion_clear Hby as [|? ? Ba H1]. inversion_clear H1 as [|? ? Bb H2]. inversion_clear H2 as [|? ? Bc H3]. inversion_clear H3 as [|? ? Bd _]. unfold is_byte in *.
    destruct (Z.eqb_spec a 127) as [->|]; cbn -[w32]; [|rewrite (proj2 (Z.eqb_neq _ 0)) by (apply w32_nz; lia); done].
    destruct (Z.eqb_spec b 69) as [->|]; cbn -[w32]; [|rewrite (proj2 (Z.eqb_neq _ 0)) by (apply w32_nz; lia); done].
    destruct (Z.eqb_spec c 76) as [->|]; cbn -[w32]; [|rewrite (proj2 (Z.eqb_neq _ 0)) by (apply w32_nz; lia); done].
    destruct (Z.eqb_spec d 70) as [->|]; cbn -[w32]; [done|rewrite (proj2 (Z.eqb_neq _ 0)) by (apply w32_nz; lia); done].
Qed.
End correct.

(** ** The reader and the loader together *)

Section program.
Context {S : Type} `{AS : AddrSpace S} `{AL : !AddrSpaceLaws S} (TOC : list toc_entry) (around : toc_entry -> Z -> Z).

(** (C9) A program is loaded from the bytes of its ELF file.  The conditions on the file: it
    is an executable for this processor of less than 2^31 bytes, its section table lies inside
    it, and so do at least ten bytes from the beginning of the name of every section that has
    one ([names_at_the_end_refused] shows that the reader refuses a file with fewer); it has all
    of .text, .data, .rodata and .bss, none of them empty, the first three inside the file,
    and their addresses are in user memory below the stack and do not overlap.  The arguments
    are strings that need less than 2^29 bytes, and user memory is blank: what is mapped of it
    is zero, and no page waits to be filled.  Then, with the kernel's own reader, [loadTask]
    reports that there is no memory, or enters the program at the file's entry point, with the
    bytes of its .text, .data and .rodata sections at their addresses, a zero .bss, and a stack
    on which [_main] finds its arguments. *)
Theorem elf_program_loads file name entry l argv s : Loader.entry_of TOC name = Some file -> describes file entry l -> Forall Loader.is_string argv -> Loader.need argv < 2 ^ 29 ->
  Loader.elf_ok file (summary entry l) (Loader.stack_low argv) -> Loader.apart (summary entry l) -> Loader.blank (fun _ => False) s ->
  exists r s', Loader.loadTask TOC (elf_check_header TOC around) (elf_load_helper TOC around) name argv s = Ok (r, s') /\ wf s' /\
    match r with
    | inl err => err = Loader.ENOMEM
    | inr (esp, start) => start = entry /\ Loader.image (byte_at s') file (summary entry l) /\ Loader.main_frame (byte_at s') (Loader.stack_low argv) esp argv
    end.
Proof.
  intros He Hd Hs Hn Hok Hap Hbl. destruct (reader_run TOC around name file entry l He Hd) as [R1 R2].
  destruct (Loader.loadTask_run TOC (elf_check_header TOC around) (elf_load_helper TOC around) file name (summary entry l) argv s He) as (r & s' & R & W & K); try done; [by rewrite R1|].
  exists r, s'. split; [done|]. split; [done|]. destruct r as [err|[esp start]]; [done|]. destruct K as (-> & K1 & K2 & _). done.
Qed.
End program.

(** ** An example *)

Definition half_bytes (v : Z) : list Z := [v mod 256; v / 256].
Definition ehdr_bytes (entry shoff shnum strndx : Z) : list Z :=
  ELFMAG ++ replicate 12 0 ++ half_bytes ET_EXEC ++ half_bytes EM_386 ++ word_bytes EV_CURRENT ++ word_bytes entry ++ word_bytes 0 ++ word_bytes shoff ++ replicate 12 0 ++
  half_bytes shnum ++ half_bytes strndx.
Definition shdr_bytes (s : section) : list Z := word_bytes (s_idx s) ++ replicate 8 0 ++ word_bytes (s_addr s) ++ word_bytes (s_off s) ++ word_bytes (s_size s) ++ replicate 16 0.

(** The header, six bytes of program, the names, and the section table. *)
Definition demo_names : list Z := [0] ++ text_name ++ rodata_name ++ data_name ++ bss_name ++ replicate 10 0.
Definition demo_sections : list section := [mk_sec [] 0 0 0 0; mk_sec dot_text 1 16777216 52 2; mk_sec dot_rodata 7 33554440 56 2; mk_sec dot_data 15 33554432 54 2;
  mk_sec dot_bss 21 33558528 0 8; mk_sec [] 0 0 58 36].
Definition demo_file : toc_entry := mk_toc Loader.demo_name (ehdr_bytes 16777216 94 6 5 ++ [1; 2; 3; 4; 5; 6] ++ demo_names ++ flat_map shdr_bytes demo_sections).

Lemma demo_describes : describes demo_file 16777216 demo_sections.
Proof.
  split; [apply Forall_forall; intros x Hx; vm_compute in Hx; unfold is_byte; repeat (destruct Hx as [<-|Hx]; [lia|]); done|split; by vm_compute|done|done|done|].
  exists 94%nat, 5%nat, 58%nat. split; [done|]. split; [done|]. split; [done|]. split; [by vm_compute|]. split; [by eexists|].
  intros [|[|[|[|[|[|i]]]]]] s Hi; simpl in Hi; injection Hi as <- || discriminate Hi; (split; [done|]); (split; [done|]); (split; [done|]); (split; [done|]); intros Hu; try done;
    (split; [simpl; lia|]); (split; [by vm_compute|]); (split; [repeat constructor; lia|]); intros [|[|[|[|[|[|[|[|j]]]]]]]] c Hj; simpl in Hj; injection Hj as <- || discriminate Hj; done.
Qed.

Lemma elf_reader_witness : elf_check_header [demo_file] (fun _ _ => 0) Loader.demo_name = ELF_SUCCESS /\
  elf_load_helper [demo_file] (fun _ _ => 0) Loader.demo_name = (ELF_SUCCESS, mk_elf 16777216 52 2 16777216 54 2 33554432 56 2 33554440 8 33558528).
Proof. apply (elf_reader_correct [demo_file] (fun _ _ => 0) Loader.demo_name demo_file 16777216 demo_sections eq_refl demo_describes). Defined.

Lemma elf_program_witness : exists esp s', Loader.loadTask [demo_file] (elf_check_header [demo_file] (fun _ _ => 0)) (elf_load_helper [demo_file] (fun _ _ => 0)) Loader.demo_name Loader.demo_argv Loader.demo_flat
  = Ok (inr (esp, 16777216), s') /\ Loader.image (byte_at s') demo_file (summary 16777216 demo_sections).
Proof.
  destruct (elf_program_loads [demo_file] (fun _ _ => 0) demo_file Loader.demo_name 16777216 demo_sections Loader.demo_argv Loader.demo_flat eq_refl demo_describes) as (r & s' & R & _ & K).
  - repeat constructor.
  - done.
  - split; [apply (ds_bytes _ _ _ demo_describes)|done|..]; try (by vm_compute; repeat split; congruence); split; by vm_compute.
  - split; vm_compute; by first [left; congruence|right; congruence].
  - apply Loader.demo_blank.
  - destruct r as [err|[esp entry]]; [apply (f_equal outcome) in R; vm_compute in R; discriminate R|]. destruct K as (-> & K & _). exists esp, s'. split; [exact R|exact K].
Defined.

(** The reader allows for a name table at the very end of the file, where the read of ten bytes comes up short; but the
    kernel's [getbytes] answers -1 to a read that goes beyond the end, so that such a program is refused. *)
Definition short_file : toc_entry :=
  mk_toc Loader.demo_name (ehdr_bytes 16777216 58 6 5 ++ [1; 2; 3; 4; 5; 6] ++
    flat_map shdr_bytes (map (fun s => if s_off s =? 58 then mk_sec [] 0 0 298 26 else s) demo_sections) ++ take 26 demo_names).

Theorem names_at_the_end_refused : elf_check_header [short_file] (fun _ _ => 0) Loader.demo_name = ELF_SUCCESS /\ execlen short_file = 298 + 26 /\
  fst (elf_load_helper [short_file] (fun _ _ => 0) Loader.demo_name) = ELF_NOTELF.
Proof. vm_compute. done. Qed.
End Elf.
