(* ===== verification/SysState.v ===== *)
(** * What the system calls of a worker core work on

    [sys] puts the kernel state of the scheduler together with the address
    spaces, by the address of their page directory, and the buffers system calls
    take from the kernel heap.  The memory of the running task is the space that
    cr3 selects.

    [UserCheck] is what a system call relies on when it has checked a pointer with
    check_mem_validness (vm.c).  A check for writing may end in a panic: that is
    what vm.c does when it meets two zero-fill pages (see VmProofs.v). *)

From S2P Require Import Prelude AddrSpace SimpleQueue ThreadState Mutex Message ControlBlock Scheduler ContextSwitch ThrMgmt.
From Stdlib Require Import ZArith Lia.
From stdpp Require Import base gmap list tactics numbers.

#[local] Open Scope Z_scope.
#[local] Set Default Proof Using "Type".

Class UserCheck (S : Type) `{AddrSpace S} := { check_mem : Z -> Z -> bool -> bool -> M S Z }.

Definition ERROR_NOT_NULL_TERM : Z := -255.

(** [s'] has the user bytes and at least the pages of [s]. *)
Definition extends {S} `{AddrSpace S} (s s' : S) : Prop :=
  (forall x, USER_MEM_START <= x -> byte_at s' x = byte_at s x) /\ (forall x, mapped s x = true -> mapped s' x = true) /\ (forall x, backed s x = true -> backed s' x = true).

(** The first zero byte of the string at [p] is its [j]-th. *)
Definition ends_at (f : Z -> Z) (p j : Z) : Prop := 0 <= j /\ f (p + j) = 0 /\ forall i, 0 <= i < j -> f (p + i) <> 0.

Class UserCheckLaws (S : Type) `{UserCheck S, !AddrSpaceLaws S} := {
  check_ok s va n nul w : wf s -> 0 <= va < 2 ^ 32 -> - 2 ^ 31 <= n < 2 ^ 31 ->
    match check_mem va n nul w s with
    | Ok (r, s') => wf s' /\ extends s s' /\ (0 <= r -> USER_MEM_START <= va) /\
        (0 <= r -> nul = false -> forall x, va <= x < va + n -> mapped s' x = true /\ (w = true -> backed s' x = true)) /\
        (0 <= r -> nul = true -> exists j, (0 < n -> j < n) /\ ends_at (byte_at s) va j /\ forall i, 0 <= i <= j -> mapped s' (va + i) = true)
    | Panic => w = true
    | _ => False
    end;
  (** A check for reading changes nothing, and accepts what can be read. *)
  check_reads s va n nul r s' : wf s -> 0 <= va < 2 ^ 32 -> - 2 ^ 31 <= n < 2 ^ 31 -> check_mem va n nul false s = Ok (r, s') -> s' = s;
  check_accepts s va n : wf s -> USER_MEM_START <= va -> 0 < n < 2 ^ 31 -> (forall x, va <= x < va + n -> mapped s x = true) ->
    check_mem va n false false s = Ok (0, s);
  check_accepts_string s va n j : wf s -> USER_MEM_START <= va -> 0 < n < 2 ^ 31 -> j < n -> ends_at (byte_at s) va j ->
    (forall i, 0 <= i <= j -> mapped s (va + i) = true) -> check_mem va n true false s = Ok (0, s)
}.

Record sys (S : Type) := mk_sys {
  ker : kernel; spaces : gmap Z S; kbufs : gmap Z (list Z); init_task : Z; dot_file : Z; dot_file_length : Z }.
Arguments mk_sys {S}.
Arguments ker {S}.
Arguments spaces {S}.
Arguments kbufs {S}.
Arguments init_task {S}.
Arguments dot_file {S}.
Arguments dot_file_length {S}.

Module Sys.
Import Scheduler.
Section sys.
Context {S : Type} `{AS : AddrSpace S} `{UC : !UserCheck S}.

Definition with_ker x (s : sys S) := mk_sys x (spaces s) (kbufs s) (init_task s) (dot_file s) (dot_file_length s).
Definition with_spaces (x : gmap Z S) (s : sys S) := mk_sys (ker s) x (kbufs s) (init_task s) (dot_file s) (dot_file_length s).
Definition with_kbufs x (s : sys S) := mk_sys (ker s) (spaces s) x (init_task s) (dot_file s) (dot_file_length s).
Definition with_init_task x (s : sys S) := mk_sys (ker s) (spaces s) (kbufs s) x (dot_file s) (dot_file_length s).
Definition with_dot p n (s : sys S) := mk_sys (ker s) (spaces s) (kbufs s) (init_task s) p n.

Definition on_ker {A} (m : M kernel A) : M (sys S) A := zoom ker with_ker m.

(** Running on the address space of core [cpu]. *)
Definition on_space {A} (cpu : Z) (m : M S A) : M (sys S) A := fun s =>
  match spaces s !! cr3 (ker s) cpu with
  | Some sp => match m sp with
               | Ok (a, sp') => Ok (a, with_spaces (<[cr3 (ker s) cpu := sp']> (spaces s)) s)
               | Panic => Panic | Fault => Fault | Blocks => Blocks | NoFuel => NoFuel
               end
  | None => Fault
  end.

(** A byte that is not mapped cannot be read. *)
Definition peek (a : Z) : M S Z := fun s => if mapped s a then Ok (byte_at s a, s) else Fault.

Fixpoint read_bytes (a : Z) (n : nat) : M S (list Z) :=
  match n with
  | O => mret []
  | Datatypes.S n => b ← peek a; l ← read_bytes (a + 1) n; mret (b :: l)
  end.

Definition read_word (a : Z) : M S Z :=
  l ← read_bytes a 4; mret (word_of (fun i => nth (Z.to_nat i) l 0) 0).

(** [strlen] and the copy of a string: its bytes up to the first 0. *)
Fixpoint read_string (fuel : nat) (a : Z) : M S (list Z) :=
  match fuel with
  | O => nofuel
  | Datatypes.S fuel => b ← peek a; if b =? 0 then mret [] else l ← read_string fuel (a + 1); mret (b :: l)
  end.

(** [malloc] of a kernel buffer, and [free]. *)
Definition alloc_buf (l : list Z) : M (sys S) Z :=
  p ← on_ker malloc;
  (if negb (p =? 0) then modify (fun s => with_kbufs (<[p := l]> (kbufs s)) s) else mret tt);;
  mret p.
Definition free_buf (p : Z) : M (sys S) unit := fun s =>
  match kbufs s !! p with Some _ => Ok (tt, with_kbufs (delete p (kbufs s)) s) | None => Fault end.

(** ** Lemmas *)
Context `{AL : !AddrSpaceLaws S} `{UL : !UserCheckLaws S}.

Lemma on_ker_ok {A} (m : M kernel A) s a k' : m (ker s) = Ok (a, k') -> on_ker m s = Ok (a, with_ker k' s).
Proof. intros E. unfold on_ker. apply zoom_ok. exact E. Qed.

Lemma on_space_ok {A} (m : M S A) s cpu sp a sp' : spaces s !! cr3 (ker s) cpu = Some sp -> m sp = Ok (a, sp') ->
  on_space cpu m s = Ok (a, with_spaces (<[cr3 (ker s) cpu := sp']> (spaces s)) s).
Proof. intros E R. unfold on_space. by rewrite E, R. Qed.

Lemma peek_ok sp a : mapped sp a = true -> peek a sp = Ok (byte_at sp a, sp).
Proof. intros E. unfold peek. by rewrite E. Qed.

(** The bytes from [a] on. *)
Definition bytes_from (f : Z -> Z) (a : Z) (n : nat) : list Z := (fun i => f (a + Z.of_nat i)) <$> seq 0 n.

Lemma bytes_from_S f a n : bytes_from f a (Datatypes.S n) = f a :: bytes_from f (a + 1) n.
Proof.
  unfold bytes_from. rewrite <- (cons_seq n 0), fmap_cons. f_equal; [f_equal; lia|]. rewrite <- fmap_S_seq, <- list_fmap_compose.
  apply list_fmap_ext. intros i x _. simpl. f_equal. lia.
Qed.

Lemma read_bytes_ok n : forall sp a, (forall x, a <= x < a + Z.of_nat n -> mapped sp x = true) -> read_bytes a n sp = Ok (bytes_from (byte_at sp) a n, sp).
Proof.
  induction n as [|n IH]; intros sp a Hm; [done|]. cbn [read_bytes]. rewrite (bind_ok _ _ _ _ _ (peek_ok sp a ltac:(apply Hm; lia))).
  rewrite (bind_ok _ _ _ _ _ (IH sp (a + 1) ltac:(intros; apply Hm; lia))), bytes_from_S. done.
Qed.

Lemma read_word_ok sp a : (forall x, a <= x < a + 4 -> mapped sp x = true) -> read_word a sp = Ok (word_of (byte_at sp) a, sp).
Proof.
  intros Hm. unfold read_word. rewrite (bind_ok _ _ _ _ _ (read_bytes_ok 4 sp a ltac:(intros; apply Hm; lia))).
  rewrite !bytes_from_S. unfold word_of. simpl. rewrite <- !Z.add_assoc. done.
Qed.

Lemma read_string_ok fuel : forall sp a j, ends_at (byte_at sp) a j -> j < Z.of_nat fuel -> (forall i, 0 <= i <= j -> mapped sp (a + i) = true) ->
  read_string fuel a sp = Ok (bytes_from (byte_at sp) a (Z.to_nat j), sp).
Proof.
  induction fuel as [|fuel IH]; intros sp a j (H0 & Hz & Hnz) Hf Hm; [lia|]. cbn [read_string].
  assert (Ha : mapped sp a = true) by (rewrite <- (Z.add_0_r a); apply Hm; lia). rewrite (bind_ok _ _ _ _ _ (peek_ok sp a Ha)).
  destruct (decide (j = 0)) as [->|Hj].
  - rewrite Z.add_0_r in Hz. by rewrite Hz.
  - assert (Hb : byte_at sp a <> 0) by (rewrite <- (Z.add_0_r a); apply Hnz; lia). rewrite (proj2 (Z.eqb_neq _ _) Hb).
    rewrite (bind_ok _ _ sp (bytes_from (byte_at sp) (a + 1) (Z.to_nat (j - 1))) sp).
    + replace (Z.to_nat j) with (Datatypes.S (Z.to_nat (j - 1))) by lia. by rewrite bytes_from_S.
    + apply IH; [|lia|].
      * split; [lia|]. split; [by replace (a + 1 + (j - 1)) with (a + j) by lia|]. intros i Hi. replace (a + 1 + i) with (a + (i + 1)) by lia. apply Hnz. lia.
      * intros i Hi. replace (a + 1 + i) with (a + (i + 1)) by lia. apply Hm. lia.
Qed.
End sys.
End Sys.
