(* ===== verification/Exec.v ===== *)
(** * exec (src/kern/syscall_lifecycle.c)

    [exec_syscall_handler] checks its arguments in user memory, copies them, makes
    a new address space, loads the program into it with [loadTask] and drops
    either the new or the old space.  [exec_args_exact] says what the argument
    check accepts (for the page tables of vm.c in VmSpace.v).  [exec_correct] puts
    exec together with the loader: the new program's [_main] finds the caller's
    argument vector, or the caller goes on in its old memory with an error code.

    exec changes between address spaces, while Vm.v describes one at a time: here
    create_pd and free_entire_space are the parameters of [PageDirs].  That a new
    directory is an empty space, and that freeing forgets a space, are the laws
    [PageDirsLaws], which [exec_correct] assumes; they are not derived from the
    definitions of Vm.v.  [inr] says that the thread continues in user mode at the
    given stack pointer and entry point, which is what load_kernel_stack makes the
    processor do. *)

From S2P Require Import Prelude AddrSpace Loader SimpleQueue ThreadState Mutex Message ControlBlock Scheduler ContextSwitch ThrMgmt SysState.
From Stdlib Require Import ZArith Lia.
From stdpp Require Import base gmap list tactics numbers.

#[local] Open Scope Z_scope.

Class PageDirs (S : Type) := { create_pd : M (sys S) Z; free_space_of : Z -> bool -> M (sys S) unit }.

Definition ERROR_MALLOC_LIB : Z := 2 ^ 32 - 1.

(** A new page directory is an empty user space, known to nobody else; freeing
    forgets the space.  Neither touches anything else. *)
Class PageDirsLaws (S : Type) `{PageDirs S, AddrSpaceLaws S} := {
  create_pd_ok s : exists r s', create_pd s = Ok (r, s') /\
    ((r = ERROR_MALLOC_LIB /\ s' = s) \/
     (r <> ERROR_MALLOC_LIB /\ spaces s !! r = None /\ exists sp, Loader.blank (fun _ => False) sp /\ s' = Sys.with_spaces (<[r := sp]> (spaces s)) s));
  free_space_ok s pd u sp : spaces s !! pd = Some sp -> free_space_of pd u s = Ok (tt, Sys.with_spaces (delete pd (spaces s)) s)
}.

Module Exec.
Import Scheduler Sys.

Definition E2BIG : Z := -7.
Definition ENOMEM : Z := -12.
Definition EFAULT : Z := -14.
Definition EINVAL : Z := -22.
Definition ENAMETOOLONG : Z := -36.
Definition EMORETHR : Z := -256.

Definition MAX_EXEC_BUF : Z := Z.shiftr K_STACK_SIZE 1.
Definition EXEC_MAX_ARG_SIZE : Z := 128.
Definition EXEC_MAX_ARGC : Z := MAX_EXEC_BUF / EXEC_MAX_ARG_SIZE - 1.

Section exec.
Context {S : Type} `{AS : AddrSpace S} `{UC : !UserCheck S} `{PD : !PageDirs S}.
Context (TOC : list toc_entry) (elf_check_header : list Z -> Z) (elf_load_helper : list Z -> Z * simple_elf_t).

(** [argvec[i]] *)
Definition arg_ptr (argvec i : Z) : Z := w32 (argvec + 4 * i).

(** The loop over [argvec]: the number of arguments, or an error code. *)
Fixpoint check_argvec (n : nat) (argvec argc : Z) : M S (Z + Z) :=
  match n with
  | O => mret (inr argc)
  | Datatypes.S n =>
      rv ← check_mem (arg_ptr argvec argc) 4 false false;
      if rv <? 0 then mret (inl EFAULT) else
      p ← read_word (arg_ptr argvec argc);
      if p =? 0 then mret (inr argc) else
      rv ← check_mem p EXEC_MAX_ARG_SIZE true false;
      if rv <? 0 then mret (inl (if rv =? ERROR_NOT_NULL_TERM then E2BIG else EFAULT)) else
      check_argvec n argvec (argc + 1)
  end.

(** The copies of the argument strings. *)
Fixpoint copy_args (n : nat) (argvec i : Z) : M S (list (list Z)) :=
  match n with
  | O => mret []
  | Datatypes.S n =>
      p ← read_word (arg_ptr argvec i);
      a ← read_string (Z.to_nat EXEC_MAX_ARG_SIZE) p;
      l ← copy_args n argvec (i + 1);
      mret (a :: l)
  end.

(** The argument check and the copying: an error code, or the program's name and
    the arguments. *)
Definition exec_args (execname argvec : Z) : M S (Z + list Z * list (list Z)) :=
  b ← (if execname =? 0 then mret 0 else peek execname);
  if b =? 0 then mret (inl EINVAL) else
  rv ← check_mem execname EXEC_MAX_ARG_SIZE true false;
  if rv <? 0 then mret (inl (if rv =? ERROR_NOT_NULL_TERM then ENAMETOOLONG else EFAULT)) else
  r ← check_argvec (Z.to_nat EXEC_MAX_ARGC) argvec 0;
  match r with
  | inl err => mret (inl err)
  | inr argc =>
      big ← (if argc =? EXEC_MAX_ARGC then mret true else p ← read_word (arg_ptr argvec argc); mret (negb (p =? 0)));
      if (big : bool) then mret (inl E2BIG) else
      p0 ← read_word (arg_ptr argvec 0);
      if p0 =? 0 then mret (inl EINVAL) else
      my_execname ← read_string (Z.to_nat EXEC_MAX_ARG_SIZE) execname;
      a0 ← read_string (Z.to_nat EXEC_MAX_ARG_SIZE) p0;
      if negb (bool_decide (my_execname = a0)) then mret (inl EINVAL) else
      argv ← copy_args (Z.to_nat argc) argvec 0;
      mret (inr (my_execname, argv))
  end.

(** [load_kernel_stack] sets esp0 and starts the program. *)
Definition exec_syscall_handler (cpu this_thr execname argvec : Z) : M (sys S) (Z + Z * Z) :=
  t ← on_ker (rd_tcb this_thr);
  c ← on_ker (rd_pcb (pcb t));
  if 1 <? cur_thr_num c then mret (inl EMORETHR) else
  args ← on_space cpu (exec_args execname argvec);
  match args with
  | inl err => mret (inl err)
  | inr (my_execname, argv) =>
      old_pd ← on_ker (gets (fun k => cr3 k cpu));
      new_pd ← create_pd;
      if new_pd =? ERROR_MALLOC_LIB then mret (inl ENOMEM) else
      on_ker (upd_pcb (pcb t) (set_page_table_base new_pd));;
      on_ker (ContextSwitch.set_cr3 cpu new_pd);;
      rv ← on_space cpu (Loader.loadTask TOC elf_check_header elf_load_helper my_execname argv);
      match rv with
      | inl err =>
          on_ker (upd_pcb (pcb t) (set_page_table_base old_pd));;
          on_ker (ContextSwitch.set_cr3 cpu old_pd);;
          free_space_of new_pd true;;
          mret (inl err)
      | inr (usr_esp, my_program) =>
          free_space_of old_pd true;;
          on_ker (upd_tcb this_thr (set_k_stack_esp this_thr));;
          t ← on_ker (rd_tcb this_thr);
          (if negb (swexn_struct t =? 0) then
             on_ker (on_mem (ControlBlock.free_swexn (swexn_struct t)));; on_ker (upd_tcb this_thr (set_swexn 0))
           else mret tt);;
          on_ker (ContextSwitch.set_esp0 cpu this_thr);;
          mret (inr (usr_esp, my_program))
      end
  end.
End exec.

(** ** The arguments *)
Section args.
Context {S : Type} `{AS : AddrSpace S} `{UC : !UserCheck S} `{AL : !AddrSpaceLaws S} `{UL : !UserCheckLaws S}.

Lemma extends_refl (s : S) : extends s s.
Proof. by split. Qed.
Lemma extends_trans (s1 s2 s3 : S) : extends s1 s2 -> extends s2 s3 -> extends s1 s3.
Proof. intros (B1 & M1 & K1) (B2 & M2 & K2). split; [intros x Hx; by rewrite B2, B1|]. split; intros x Hx; [by apply M2, M1|by apply K2, K1]. Qed.

(** Checks for reading never panic and change nothing. *)
Lemma check_run (s : S) va n nul : wf s -> 0 <= va < 2 ^ 32 -> - 2 ^ 31 <= n < 2 ^ 31 -> exists r s', check_mem va n nul false s = Ok (r, s') /\ wf s' /\ extends s s' /\ (0 <= r -> USER_MEM_START <= va) /\
  (0 <= r -> nul = false -> forall x, va <= x < va + n -> mapped s' x = true) /\
  (0 <= r -> nul = true -> 0 < n -> exists j, j < n /\ ends_at (byte_at s) va j /\ forall i, 0 <= i <= j -> mapped s' (va + i) = true).
Proof.
  intros Hw Hva Hn. pose proof (check_ok s va n nul false Hw Hva Hn) as Hc. destruct (check_mem va n nul false s) as [[r s']| | | |]; try done.
  destruct Hc as (W & E & H0 & H1 & H2). exists r, s'. split; [done|]. split; [done|]. split; [done|]. split; [done|]. split.
  - intros Hr Hf x Hx. by apply (H1 Hr Hf x Hx).
  - intros Hr Ht H0n. destruct (H2 Hr Ht) as (j & Hj & K). by exists j; split; [apply Hj|].
Qed.

Lemma check_read (s : S) va n nul : wf s -> 0 <= va < 2 ^ 32 -> 0 < n < 2 ^ 31 -> exists r, check_mem va n nul false s = Ok (r, s) /\ (0 <= r -> USER_MEM_START <= va) /\
  (0 <= r -> nul = false -> forall x, va <= x < va + n -> mapped s x = true) /\
  (0 <= r -> nul = true -> exists j, j < n /\ ends_at (byte_at s) va j /\ forall i, 0 <= i <= j -> mapped s (va + i) = true).
Proof.
  intros Hw Hva Hn. destruct (check_run s va n nul Hw Hva ltac:(lia)) as (r & s' & R & _ & _ & H1 & H2 & H3). pose proof (check_reads s va n nul r s' Hw Hva ltac:(lia) R) as ->.
  exists r. split; [done|]. split; [done|]. split; [done|]. intros Hr Hu. apply H3; (done || lia).
Qed.

Lemma word_range (s : S) a : wf s -> 0 <= word_of (byte_at s) a < 2 ^ 32.
Proof. intros Hw. unfold word_of. pose proof (byte_range s a Hw). pose proof (byte_range s (a + 1) Hw). pose proof (byte_range s (a + 2) Hw). pose proof (byte_range s (a + 3) Hw). lia. Qed.

(** A string shorter than the limit is at [p], and can be read. *)
Definition readable (s : S) (p : Z) (a : list Z) : Prop :=
  USER_MEM_START <= p /\ exists j, j < EXEC_MAX_ARG_SIZE /\ ends_at (byte_at s) p j /\ (forall i, 0 <= i <= j -> mapped s (p + i) = true) /\ a = bytes_from (byte_at s) p (Z.to_nat j).
Definition word_mapped (s : S) (a : Z) : Prop := USER_MEM_START <= a /\ forall x, a <= x < a + 4 -> mapped s x = true.

Lemma readable_run s p a : readable s p a -> read_string (Z.to_nat EXEC_MAX_ARG_SIZE) p s = Ok (a, s).
Proof. intros (_ & j & Hj & He & Hm & ->). apply read_string_ok; [done|unfold EXEC_MAX_ARG_SIZE in *; lia|done]. Qed.

Lemma bytes_from_lookup f a n i : (i < n)%nat -> bytes_from f a n !! i = Some (f (a + Z.of_nat i)).
Proof. intros Hi. unfold bytes_from. rewrite list_lookup_fmap, lookup_seq_lt by done. done. Qed.

Lemma bytes_from_length f a n : length (bytes_from f a n) = n.
Proof. unfold bytes_from. by rewrite length_fmap, length_seq. Qed.

(** A readable string is a string in the sense of the loader. *)
Lemma readable_string s p a : wf s -> readable s p a ->
  Loader.is_string a /\ Loader.string_at (byte_at s) p a /\ Loader.strlen a < EXEC_MAX_ARG_SIZE.
Proof.
  intros Hw (_ & j & Hj & (H0 & Hz & Hn) & Hm & ->). split; [|split].
  - apply list.Forall_lookup. intros i b Hi. pose proof (lookup_lt_Some _ _ _ Hi) as Hl. rewrite bytes_from_length in Hl.
    rewrite bytes_from_lookup in Hi by done. injection Hi as <-. specialize (Hn (Z.of_nat i) ltac:(lia)). pose proof (byte_range s (p + Z.of_nat i) Hw). lia.
  - intros i b Hi. destruct (decide (i < Z.to_nat j)%nat) as [Hl|Hl].
    + rewrite lookup_app_l in Hi by (by rewrite bytes_from_length). rewrite bytes_from_lookup in Hi by done. by injection Hi.
    + rewrite lookup_app_r in Hi by (rewrite bytes_from_length; lia). rewrite bytes_from_length in Hi. pose proof (lookup_lt_Some _ _ _ Hi) as Hl'. simpl in Hl'.
      replace (i - Z.to_nat j)%nat with O in Hi by lia. injection Hi as <-. by replace (p + Z.of_nat i) with (p + j) by lia.
  - unfold Loader.strlen. rewrite bytes_from_length. lia.
Qed.

(** The [i]-th argument is there. *)
Definition arg_ok (s : S) (argvec i : Z) (a : list Z) : Prop :=
  word_mapped s (arg_ptr argvec i) /\ word_of (byte_at s) (arg_ptr argvec i) <> 0 /\ readable s (word_of (byte_at s) (arg_ptr argvec i)) a.

(** The arguments from the [i]-th on. *)
Definition args_ok (s : S) (argvec i : Z) (l : list (list Z)) : Prop := forall n a, l !! n = Some a -> arg_ok s argvec (i + Z.of_nat n) a.

Lemma args_ok_cons s argvec i a l : arg_ok s argvec i a -> args_ok s argvec (i + 1) l -> args_ok s argvec i (a :: l).
Proof.
  intros Ha Hl [|n] b Hb; [injection Hb as <-; by rewrite Z.add_0_r|]. replace (i + Z.of_nat (Datatypes.S n)) with (i + 1 + Z.of_nat n) by lia. by apply Hl.
Qed.

Lemma args_ok_inv s argvec i a l : args_ok s argvec i (a :: l) -> arg_ok s argvec i a /\ args_ok s argvec (i + 1) l.
Proof.
  intros Hl. split; [rewrite <- (Z.add_0_r i); by apply (Hl O)|]. intros n b Hb. replace (i + 1 + Z.of_nat n) with (i + Z.of_nat (Datatypes.S n)) by lia. by apply Hl.
Qed.

(** The word at the end of the vector. *)
Definition null_at (s : S) (argvec i : Z) : Prop := word_mapped s (arg_ptr argvec i) /\ word_of (byte_at s) (arg_ptr argvec i) = 0.

(** The error codes of the argument check. *)
Definition arg_error (err : Z) : Prop := err = EINVAL \/ err = EFAULT \/ err = ENAMETOOLONG \/ err = E2BIG.

(** What the loop over the vector finds. *)
Lemma check_argvec_ok n : forall (s : S) argvec argc, wf s ->
  exists r, check_argvec n argvec argc s = Ok (r, s) /\
    match r with
    | inl err => arg_error err
    | inr c => exists l, c = argc + Z.of_nat (length l) /\ (length l <= n)%nat /\ args_ok s argvec argc l /\ ((length l < n)%nat -> null_at s argvec c)
    end.
Proof.
  unfold arg_error. induction n as [|n IH]; intros s argvec argc Hw.
  { eexists. split; [done|]. exists []. split; [simpl; lia|]. split; [done|]. split; [by intros []|simpl; lia]. }
  cbn [check_argvec]. destruct (check_read s (arg_ptr argvec argc) 4 false Hw (w32_range _) ltac:(lia)) as (r1 & R1 & U1 & M1 & _). rewrite (bind_ok _ _ _ _ _ R1).
  destruct (Z.ltb_spec r1 0) as [_|Hr1]; [eexists; split; [done|simpl; auto]|]. assert (Hm1 : word_mapped s (arg_ptr argvec argc)) by exact (conj (U1 Hr1) (M1 Hr1 eq_refl)).
  rewrite (bind_ok _ _ _ _ _ (read_word_ok s _ (proj2 Hm1))). destruct (Z.eqb_spec (word_of (byte_at s) (arg_ptr argvec argc)) 0) as [Hz|Hnz].
  { eexists. split; [done|]. exists []. split; [simpl; lia|]. split; [simpl; lia|]. split; [by intros []|by split]. }
  set (p := word_of (byte_at s) (arg_ptr argvec argc)) in *. destruct (check_read s p EXEC_MAX_ARG_SIZE true Hw (word_range s _ Hw) ltac:(done)) as (r2 & R2 & U2 & _ & M2).
  rewrite (bind_ok _ _ _ _ _ R2). destruct (Z.ltb_spec r2 0) as [_|Hr2]; [eexists; split; [done|]; simpl; destruct (_ =? _); auto|].
  destruct (M2 Hr2 eq_refl) as (j & Hj & He & Hmj). destruct (IH s argvec (argc + 1) Hw) as (r & R3 & K). exists r. split; [done|].
  destruct r as [err|c]; [done|]. destruct K as (l & Hc & Hlen & Hargs & Hend).
  exists (bytes_from (byte_at s) p (Z.to_nat j) :: l). split; [simpl; lia|]. split; [simpl; lia|]. split; [|intros ?; apply Hend; simpl in *; lia].
  apply args_ok_cons; [|done]. split; [done|]. split; [done|]. split; [by apply U2|]. by exists j.
Qed.

(** A good vector is accepted. *)
Lemma check_argvec_accepts (s : S) argvec l : wf s -> forall n i, args_ok s argvec i l -> (length l < n)%nat -> null_at s argvec (i + Z.of_nat (length l)) ->
  check_argvec n argvec i s = Ok (inr (i + Z.of_nat (length l)), s).
Proof.
  intros Hw. induction l as [|a l IH]; intros [|n] i Hl Hn Hnull; try (simpl in Hn; lia); cbn [check_argvec length] in *.
  - rewrite Z.add_0_r in *. destruct Hnull as [[Hu Hm] Hz]. rewrite (bind_ok _ _ _ _ _ (check_accepts s _ 4 Hw Hu ltac:(lia) Hm)). cbn [Z.ltb Z.compare].
    by rewrite (bind_ok _ _ _ _ _ (read_word_ok s _ Hm)), Hz.
  - apply args_ok_inv in Hl as [([Hu Hm] & Hnz & Hp & j & Hj & He & Hmj & Ea) Hl].
    rewrite (bind_ok _ _ _ _ _ (check_accepts s _ 4 Hw Hu ltac:(lia) Hm)). cbn [Z.ltb Z.compare].
    rewrite (bind_ok _ _ _ _ _ (read_word_ok s _ Hm)), (proj2 (Z.eqb_neq _ _) Hnz), (bind_ok _ _ _ _ _ (check_accepts_string s _ EXEC_MAX_ARG_SIZE j Hw Hp ltac:(done) Hj He Hmj)). cbn [Z.ltb Z.compare].
    replace (i + Z.of_nat (Datatypes.S (length l))) with (i + 1 + Z.of_nat (length l)) in * by lia. apply IH; [done|lia|done].
Qed.

Lemma copy_args_ok (s : S) argvec l : forall i, args_ok s argvec i l -> copy_args (length l) argvec i s = Ok (l, s).
Proof.
  induction l as [|a l IH]; intros i Hl; [done|]. cbn [length copy_args]. destruct (Hl O a eq_refl) as (Hm & _ & Hr). rewrite Z.add_0_r in Hm, Hr.
  rewrite (bind_ok _ _ _ _ _ (read_word_ok s _ (proj2 Hm))), (bind_ok _ _ _ _ _ (readable_run s _ a Hr)).
  rewrite (bind_ok _ _ s l s); [done|]. apply IH. intros n b Hb. replace (i + 1 + Z.of_nat n) with (i + Z.of_nat (Datatypes.S n)) by lia. by apply Hl.
Qed.

(** The argument vector of the caller: a null-terminated vector of strings, the
    first of which is the program's name. *)
Record args_at (f : Z -> Z) (execname argvec : Z) (name : list Z) (argv : list (list Z)) : Prop := {
  aa_name : Loader.string_at f execname name;
  aa_head : head argv = Some name;
  aa_count : Z.of_nat (length argv) < EXEC_MAX_ARGC;
  aa_strings : Forall (fun a => Loader.is_string a /\ Loader.strlen a < EXEC_MAX_ARG_SIZE) argv;
  aa_args : forall i a, argv !! i = Some a -> Loader.string_at f (word_of f (arg_ptr argvec (Z.of_nat i))) a;
  aa_null : word_of f (arg_ptr argvec (Z.of_nat (length argv))) = 0 }.

(** The caller's memory holds, and can be read for, a non-empty name and a
    null-terminated vector of fewer than 31 strings, each of fewer than 128 bytes, of
    which the first is the name. *)
Record args_in (s : S) (execname argvec : Z) (name : list Z) (argv : list (list Z)) : Prop := {
  ai_name : readable s execname name;
  ai_empty : name <> [];
  ai_head : head argv = Some name;
  ai_count : Z.of_nat (length argv) < EXEC_MAX_ARGC;
  ai_args : args_ok s argvec 0 argv;
  ai_null : null_at s argvec (Z.of_nat (length argv)) }.

(** Good arguments are accepted. *)
Lemma exec_args_accepts s execname argvec name argv : wf s -> args_in s execname argvec name argv -> exec_args execname argvec s = Ok (inr (name, argv), s).
Proof.
  intros Hw [Hname Hne Hhd Hc Hargs Hnull]. pose proof Hname as (Hu & j & Hj & (H0 & Hz & Hnz) & Hm & Ej). unfold exec_args.
  assert (Hj0 : 0 < j) by (destruct (Z.eq_dec j 0) as [->|]; [by destruct Hne|lia]).
  rewrite (proj2 (Z.eqb_neq execname 0)) by (unfold USER_MEM_START in Hu; lia).
  assert (Hm0 : mapped s execname = true) by (rewrite <- (Z.add_0_r execname); apply Hm; lia). rewrite (bind_ok _ _ _ _ _ (peek_ok s execname Hm0)).
  rewrite (proj2 (Z.eqb_neq _ _)) by (rewrite <- (Z.add_0_r execname); apply Hnz; lia).
  rewrite (bind_ok _ _ _ _ _ (check_accepts_string s _ EXEC_MAX_ARG_SIZE j Hw Hu ltac:(done) Hj ltac:(done) Hm)). cbn [Z.ltb Z.compare].
  change EXEC_MAX_ARGC with 31 in *. rewrite (bind_ok _ _ _ _ _ (check_argvec_accepts s argvec argv Hw (Z.to_nat 31) 0 Hargs ltac:(lia) Hnull)), Z.add_0_l, (proj2 (Z.eqb_neq _ _)) by lia.
  destruct Hnull as [[_ Hmn] Hzn]. rewrite (bind_ok _ _ s false s) by (by rewrite (bind_ok _ _ _ _ _ (read_word_ok s _ Hmn)), Hzn).
  destruct argv as [|a0 l]; [done|]. injection Hhd as ->. destruct (args_ok_inv _ _ _ _ _ Hargs) as [([_ Hm1] & Hp0 & Hr0) _].
  rewrite (bind_ok _ _ _ _ _ (read_word_ok s _ Hm1)), (proj2 (Z.eqb_neq _ _) Hp0).
  rewrite (bind_ok _ _ _ _ _ (readable_run s _ _ Hname)), (bind_ok _ _ _ _ _ (readable_run s _ _ Hr0)), bool_decide_eq_true_2 by done. cbn [negb].
  by rewrite Nat2Z.id, (bind_ok _ _ _ _ _ (copy_args_ok s argvec (name :: l) 0 Hargs)).
Qed.

(** Accepted arguments are good. *)
Lemma exec_args_run (s : S) execname argvec : wf s -> 0 <= execname < 2 ^ 32 -> execname = 0 \/ mapped s execname = true ->
  exists r, exec_args execname argvec s = Ok (r, s) /\
    match r with inl err => arg_error err | inr (name, argv) => args_in s execname argvec name argv end.
Proof.
  intros Hw Hptr Hex. unfold exec_args.
  assert (Hfail : forall err, arg_error err -> exists r, (mret (inl err) : M S (Z + list Z * list (list Z))) s = Ok (r, s) /\
    match r with inl err => arg_error err | inr (name, argv) => args_in s execname argvec name argv end) by (intros err; by exists (inl err)).
  unfold arg_error in Hfail.
  assert (Hb : exists b, (if execname =? 0 then mret 0 else peek execname) s = Ok (b, s) /\ (b <> 0 -> byte_at s execname <> 0)).
  { destruct (Z.eqb_spec execname 0); [by exists 0|]. destruct Hex as [?|Hm]; [done|]. eexists. split; [by apply peek_ok|done]. }
  destruct Hb as (b & Rb & Hb). rewrite (bind_ok _ _ _ _ _ Rb). destruct (Z.eqb_spec b 0) as [_|Hb0]; [apply Hfail; auto|]. specialize (Hb Hb0).
  destruct (check_read s execname EXEC_MAX_ARG_SIZE true Hw Hptr ltac:(done)) as (r1 & R1 & U1 & _ & M1). rewrite (bind_ok _ _ _ _ _ R1).
  destruct (Z.ltb_spec r1 0) as [_|Hr1]; [destruct (r1 =? ERROR_NOT_NULL_TERM); apply Hfail; auto|].
  destruct (M1 Hr1 eq_refl) as (j & Hj & He & Hmj). set (name := bytes_from (byte_at s) execname (Z.to_nat j)).
  assert (Hname : readable s execname name) by (split; [by apply U1|]; by exists j).
  destruct (check_argvec_ok (Z.to_nat EXEC_MAX_ARGC) s argvec 0 Hw) as (r2 & R2 & K2). rewrite (bind_ok _ _ _ _ _ R2).
  destruct r2 as [err|c]; [by apply Hfail|]. destruct K2 as (l & Hc & Hlen & Hargs & Hend). rewrite Z.add_0_l in Hc. subst c.
  destruct (Z.eqb_spec (Z.of_nat (length l)) EXEC_MAX_ARGC) as [_|Hne]; [apply Hfail; auto|].
  assert (Hlt : (length l < Z.to_nat EXEC_MAX_ARGC)%nat) by (change EXEC_MAX_ARGC with 31 in *; lia). destruct (Hend Hlt) as (Hmn & Hnull).
  rewrite (bind_ok _ _ s false s) by (rewrite (bind_ok _ _ _ _ _ (read_word_ok s _ (proj2 Hmn))), Hnull; done). destruct l as [|a0 l].
  { rewrite (bind_ok _ _ _ _ _ (read_word_ok s _ (proj2 Hmn))), Hnull. apply Hfail; auto. }
  destruct (args_ok_inv _ _ _ _ _ Hargs) as [(Hm0 & Hp0 & Hr0) _].
  rewrite (bind_ok _ _ _ _ _ (read_word_ok s _ (proj2 Hm0))), (proj2 (Z.eqb_neq _ _) Hp0).
  rewrite (bind_ok _ _ _ _ _ (readable_run s execname name Hname)), (bind_ok _ _ _ _ _ (readable_run s _ a0 Hr0)).
  case_bool_decide as Heq; [|apply Hfail; auto]. cbn [negb]. rewrite Nat2Z.id. rewrite (bind_ok _ _ _ _ _ (copy_args_ok s argvec (a0 :: l) 0 Hargs)).
  eexists. split; [done|]. split; [done| |by rewrite Heq|change EXEC_MAX_ARGC with 31 in *; lia|done|by split].
  intros Hnil. destruct He as (Hj0 & Hz & _). assert (j = 0) as ->.
  { apply (f_equal length) in Hnil. unfold name in Hnil. rewrite bytes_from_length in Hnil. simpl in Hnil. lia. }
  by rewrite Z.add_0_r in Hz.
Qed.

(** The arguments of exec are accepted exactly when they are good, and then copied
    exactly; otherwise the call has one of four error codes.  Nothing is changed.  The
    exception is a name that is not NULL and not mapped: its first byte is read before
    the pointer is checked, and the kernel faults. *)
Theorem exec_args_exact (s : S) execname argvec : wf s -> 0 <= execname < 2 ^ 32 ->
  if negb (execname =? 0) && negb (mapped s execname) then exec_args execname argvec s = Fault
  else exists r, exec_args execname argvec s = Ok (r, s) /\
    match r with
    | inl err => arg_error err /\ forall name argv, ~ args_in s execname argvec name argv
    | inr (name, argv) => forall name' argv', args_in s execname argvec name' argv' <-> name' = name /\ argv' = argv
    end.
Proof.
  intros Hw Hptr. destruct (negb (execname =? 0) && negb (mapped s execname)) eqn:E.
  - apply andb_true_iff in E as [E1%negb_true_iff E2%negb_true_iff]. unfold exec_args. rewrite E1. munfold. unfold peek. by rewrite E2.
  - destruct (exec_args_run s execname argvec Hw Hptr) as (r & R & K).
    { apply andb_false_iff in E as [E%negb_false_iff|E%negb_false_iff]; [left; by apply Z.eqb_eq|by right]. }
    exists r. split; [done|]. destruct r as [err|[name argv]].
    + split; [done|]. intros name argv Ha. pose proof (exec_args_accepts s execname argvec name argv Hw Ha). congruence.
    + intros name' argv'. split; [|by intros [-> ->]]. intros Ha. pose proof (exec_args_accepts s execname argvec name' argv' Hw Ha) as R'. rewrite R in R'. by injection R' as -> ->.
Qed.

Lemma args_in_at s execname argvec name argv : wf s -> args_in s execname argvec name argv -> args_at (byte_at s) execname argvec name argv.
Proof.
  intros Hw [Hname _ Hhd Hc Hargs [_ Hnull]]. split; try done.
  - by apply (readable_string s _ _ Hw).
  - apply list.Forall_lookup. intros i a Hi. destruct (Hargs i a Hi) as (_ & _ & Hr). by destruct (readable_string s _ _ Hw Hr) as (? & ? & ?).
  - intros i a Hi. destruct (Hargs i a Hi) as (_ & _ & Hr). by apply (readable_string s _ _ Hw).
Qed.

Lemma exec_args_ok (s : S) execname argvec : wf s -> 0 <= execname < 2 ^ 32 -> execname = 0 \/ mapped s execname = true ->
  exists r s', exec_args execname argvec s = Ok (r, s') /\ wf s' /\ extends s s' /\
    match r with
    | inl err => err < 0
    | inr (name, argv) => args_at (byte_at s) execname argvec name argv
    end.
Proof.
  intros Hw Hptr Hex. destruct (exec_args_run s execname argvec Hw Hptr Hex) as (r & R & K). exists r, s. split; [done|]. split; [done|]. split; [apply extends_refl|].
  destruct r as [err|[name argv]]; [|by apply args_in_at]. by destruct K as [->|[->|[->| ->]]].
Qed.

(** The arguments of exec fit into the initial stack of one page. *)
Lemma args_need f execname argvec name argv : args_at f execname argvec name argv -> Loader.need argv < 4096.
Proof.
  intros [_ _ Hc Hs _ _]. unfold Loader.need. change EXEC_MAX_ARGC with 31 in Hc.
  assert (Ht : Loader.total argv <= 128 * Z.of_nat (length argv)).
  { clear Hc. induction argv as [|a argv IH]; [done|]. apply Forall_cons_iff in Hs as [[_ Ha] Hs]. cbn [Loader.total length]. specialize (IH Hs). unfold EXEC_MAX_ARG_SIZE in Ha. lia. }
  lia.
Qed.
End args.

(** ** exec *)

Lemma rd_pcb_run k p c : pcbs (mem k) !! p = Some c -> rd_pcb p k = Ok (c, k).
Proof.
  intros E. unfold rd_pcb, on_mem. rewrite (zoom_ok _ _ _ k c (mem k)); [by destruct k|]. unfold ControlBlock.rd_pcb. by rewrite E.
Qed.

Lemma upd_pcb_run k p c f : pcbs (mem k) !! p = Some c ->
  upd_pcb p f k = Ok (tt, with_mem (with_pcbs (<[p := f c]> (pcbs (mem k))) (mem k)) k).
Proof.
  intros E. unfold upd_pcb, on_mem. rewrite (zoom_ok _ _ _ k tt (with_pcbs (<[p := f c]> (pcbs (mem k))) (mem k))); [done|].
  unfold ControlBlock.upd_pcb, ControlBlock.rd_pcb. erewrite bind_ok by (by rewrite E). done.
Qed.

Lemma elf_ok_limit file e l l' : l <= l' -> Loader.elf_ok file e l -> Loader.elf_ok file e l'.
Proof. intros Hl [? ? [] [] [] ? ? ?]. split; [done|done|..]; try (split; try done; lia); try done; lia. Qed.

Section theorem.
Context {S : Type} `{AS : AddrSpace S} `{UC : !UserCheck S} `{PD : !PageDirs S} `{AL : !AddrSpaceLaws S} `{UL : !UserCheckLaws S} `{PL : !PageDirsLaws S}.
Context (TOC : list toc_entry) (elf_check_header : list Z -> Z) (elf_load_helper : list Z -> Z * simple_elf_t).

(** Every program in the table that the ELF reader accepts has sound segments. *)
Definition sound_toc : Prop := forall name file, Loader.entry_of TOC name = Some file -> elf_check_header name <> Loader.ELF_NOTELF ->
  fst (elf_load_helper name) = Loader.ELF_NOTELF \/
  (fst (elf_load_helper name) = 0 /\ Loader.elf_ok file (snd (elf_load_helper name)) (2 ^ 32 - 8192) /\ Loader.apart (snd (elf_load_helper name))).

#[local] Abbreviation load := (Loader.loadTask TOC elf_check_header elf_load_helper).

(** What [loadTask] does for exec. *)
Lemma exec_load (sp0 sp : S) execname argvec name argv : sound_toc -> args_at (byte_at sp0) execname argvec name argv -> Loader.blank (fun _ => False) sp ->
  exists r sp', load name argv sp = Ok (r, sp') /\ wf sp' /\
    match r with
    | inl err => err < 0
    | inr (esp, entry) => exists file, Loader.entry_of TOC name = Some file /\ entry = e_entry (snd (elf_load_helper name)) /\
        Loader.image (byte_at sp') file (snd (elf_load_helper name)) /\ Loader.main_frame (byte_at sp') (Loader.stack_low argv) esp argv
    end.
Proof.
  intros Htoc Ha Hbl. pose proof (args_need _ _ _ _ _ Ha) as Hneed.
  assert (Hrej : Loader.entry_of TOC name = None \/ elf_check_header name = Loader.ELF_NOTELF \/ fst (elf_load_helper name) = Loader.ELF_NOTELF ->
    exists r sp', load name argv sp = Ok (r, sp') /\ wf sp' /\ match r with inl err => err < 0 | inr _ => False end).
  { intros Hx. destruct (Loader.loadTask_refused TOC elf_check_header elf_load_helper name argv sp Hx) as (err & R & Herr). exists (inl err), sp.
    split; [done|]. split; [apply Hbl|]. rewrite Herr. by destruct (_ =? 0). }
  assert (Hweak : forall r : Z + Z * Z, match r with inl err => err < 0 | inr _ => False end -> exists err, r = inl err /\ err < 0) by (intros [err|]; by eauto).
  destruct (Loader.entry_of TOC name) as [file|] eqn:He; [|destruct Hrej as (r & sp' & R & W & K); [by left|destruct (Hweak r K) as (err & -> & ?); by exists (inl err), sp']].
  destruct (decide (elf_check_header name = Loader.ELF_NOTELF)) as [Hn|Hn]; [destruct Hrej as (r & sp' & R & W & K); [by auto|destruct (Hweak r K) as (err & -> & ?); by exists (inl err), sp']|].
  destruct (Htoc name file He Hn) as [Hl|(Hl & Helf & Hap)]; [destruct Hrej as (r & sp' & R & W & K); [by auto|destruct (Hweak r K) as (err & -> & ?); by exists (inl err), sp']|].
  destruct (elf_load_helper name) as [rv e] eqn:Ee. simpl in *. subst rv. destruct (Loader.stack_pages_fit argv ltac:(lia)) as (Hpg & Hfit & _).
  assert (Hp2 : Loader.stack_pages argv <= 2).
  { unfold Loader.stack_pages, PAGE_SIZE. pose proof (Z.mod_pos_bound (Loader.need argv) 4 ltac:(lia)).
    enough ((Loader.need argv + (4 - Loader.need argv mod 4)) / 4096 < 2) by lia. apply Z.div_lt_upper_bound; lia. }
  destruct (Loader.loadTask_run TOC elf_check_header elf_load_helper file name e argv sp He Hn Ee) as (r & sp' & R & W & K).
  - eapply list.Forall_impl; [apply (aa_strings _ _ _ _ _ Ha)|]. by intros a [? _].
  - lia.
  - eapply elf_ok_limit; [|exact Helf]. unfold Loader.stack_low, PAGE_SIZE. lia.
  - done.
  - done.
  - exists r, sp'. split; [done|]. split; [done|]. destruct r as [err|[esp entry]]; [by rewrite K|]. destruct K as (? & ? & ? & _). by exists file.
Qed.

(** The end of a successful exec: the swexn handler goes. *)
Lemma drop_handler (s : sys S) this t : tcbs (mem (ker s)) !! this = Some t -> swexn_struct t = 0 \/ is_Some (swexns (mem (ker s)) !! swexn_struct t) ->
  exists s', (if negb (swexn_struct t =? 0) then on_ker (on_mem (ControlBlock.free_swexn (swexn_struct t)));; on_ker (upd_tcb this (set_swexn 0)) else mret tt) s = Ok (tt, s') /\
    spaces s' = spaces s /\ cr3 (ker s') = cr3 (ker s) /\ pcbs (mem (ker s')) = pcbs (mem (ker s)) /\
    tcbs (mem (ker s')) = <[this := set_swexn 0 t]> (tcbs (mem (ker s))).
Proof.
  intros Ht Hsw. destruct (Z.eqb_spec (swexn_struct t) 0) as [H0|H0]; cbn [negb].
  - exists s. split; [done|]. split; [done|]. split; [done|]. split; [done|]. rewrite insert_id; [done|]. rewrite Ht. f_equal. destruct t. simpl in *. by rewrite H0.
  - destruct Hsw as [?|[w Hw]]; [done|]. set (k1 := with_mem (with_swexns (delete (swexn_struct t) (swexns (mem (ker s)))) (mem (ker s))) (ker s)).
    rewrite (bind_ok _ _ s tt (with_ker k1 s)).
    + rewrite (on_ker_ok _ (with_ker k1 s) _ _ (ContextSwitch.upd_tcb_run k1 this t (set_swexn 0) Ht)). eexists. split; [done|]. by split.
    + apply on_ker_ok. unfold on_mem. apply zoom_ok. unfold ControlBlock.free_swexn. by rewrite Hw.
Qed.

(** exec of a task with one thread, whose name pointer is NULL or mapped (see
    [exec_name_read_unchecked]), if [PageDirsLaws] hold.  Either it returns an error code and the
    caller goes on in its old address space, with the same memory, control blocks
    and no space left behind; or the program named by the caller runs in a new
    space that holds its image, its [_main] finds exactly the caller's argument
    vector, the old space is gone and no handler is registered. *)
Theorem exec_correct (s : sys S) cpu this t c sp execname argvec :
  let pd := cr3 (ker s) cpu in
  sound_toc -> tcbs (mem (ker s)) !! this = Some t -> pcbs (mem (ker s)) !! pcb t = Some c -> page_table_base c = pd ->
  spaces s !! pd = Some sp -> wf sp -> 0 <= execname < 2 ^ 32 -> execname = 0 \/ mapped sp execname = true ->
  swexn_struct t = 0 \/ is_Some (swexns (mem (ker s)) !! swexn_struct t) ->
  exists r s', exec_syscall_handler TOC elf_check_header elf_load_helper cpu this execname argvec s = Ok (r, s') /\
    match r with
    | inl err => err < 0 /\ cr3 (ker s') cpu = pd /\ pcbs (mem (ker s')) = pcbs (mem (ker s)) /\ tcbs (mem (ker s')) = tcbs (mem (ker s)) /\
        exists sp', spaces s' = <[pd := sp']> (spaces s) /\ extends sp sp'
    | inr (esp, entry) => exists name argv file sp' pd',
        args_at (byte_at sp) execname argvec name argv /\ Loader.entry_of TOC name = Some file /\ entry = e_entry (snd (elf_load_helper name)) /\
        Loader.image (byte_at sp') file (snd (elf_load_helper name)) /\ Loader.main_frame (byte_at sp') (Loader.stack_low argv) esp argv /\
        cr3 (ker s') cpu = pd' /\ pcbs (mem (ker s')) = <[pcb t := set_page_table_base pd' c]> (pcbs (mem (ker s))) /\
        spaces s' = <[pd' := sp']> (delete pd (spaces s)) /\ pd' <> pd /\
        tcbs (mem (ker s')) = <[this := set_swexn 0 (set_k_stack_esp this t)]> (tcbs (mem (ker s)))
    end.
Proof.
  intros pd Htoc Ht Hc Hpd Hsp Hw Hptr Hex Hsw. unfold exec_syscall_handler.
  rewrite (bind_ok _ _ s t s) by (rewrite (on_ker_ok _ _ _ _ (ContextSwitch.rd_tcb_run (ker s) this t Ht)); by destruct s).
  rewrite (bind_ok _ _ s c s) by (rewrite (on_ker_ok _ _ _ _ (rd_pcb_run (ker s) _ c Hc)); by destruct s).
  destruct (1 <? cur_thr_num c).
  { eexists _, s. split; [done|]. split; [done|]. split; [done|]. split; [done|]. split; [done|]. exists sp. by rewrite insert_id by done. }
  destruct (exec_args_ok sp execname argvec Hw Hptr Hex) as (ra & sp1 & Ra & W1 & E1 & Ka).
  rewrite (bind_ok _ _ _ _ _ (on_space_ok _ s cpu sp _ _ Hsp Ra)). fold pd. set (s1 := with_spaces _ s).
  assert (Herr : forall err, err < 0 -> exists r s', (mret (inl err) : M (sys S) (Z + Z * Z)) s1 = Ok (r, s') /\
    match r with inl err => err < 0 /\ cr3 (ker s') cpu = pd /\ pcbs (mem (ker s')) = pcbs (mem (ker s)) /\ tcbs (mem (ker s')) = tcbs (mem (ker s)) /\
        exists sp', spaces s' = <[pd := sp']> (spaces s) /\ extends sp sp' | inr _ => False end).
  { intros err He. exists (inl err), s1. split; [done|]. split; [done|]. split; [done|]. split; [done|]. split; [done|]. by exists sp1. }
  destruct ra as [err|[name argv]].
  { destruct (Herr err Ka) as ([e1|] & s' & R & K); [|done]. by exists (inl e1), s'. }
  rewrite (bind_ok _ _ s1 pd s1) by done. destruct (create_pd_ok s1) as (r2 & s2 & R2 & K2). rewrite (bind_ok _ _ _ _ _ R2).
  destruct K2 as [(-> & ->)|(Hne & Hfresh & spn & Hbl & ->)].
  { rewrite Z.eqb_refl. destruct (Herr ENOMEM ltac:(done)) as ([e1|] & s' & R & K); [|done]. by exists (inl e1), s'. }
  rewrite (proj2 (Z.eqb_neq _ _) Hne). simpl in Hfresh. apply lookup_insert_None in Hfresh as [Hfresh Hpn].
  set (s2 := with_spaces (<[r2 := spn]> (spaces s1)) s1).
  set (k3 := with_mem (with_pcbs (<[pcb t := set_page_table_base r2 c]> (pcbs (mem (ker s)))) (mem (ker s))) (ker s)).
  rewrite (bind_ok _ _ _ _ _ (on_ker_ok _ s2 _ _ (upd_pcb_run (ker s) (pcb t) c (set_page_table_base r2) Hc))). fold k3.
  set (k4 := with_cr3 (fupd (cr3 k3) cpu r2) k3). rewrite (bind_ok _ _ (with_ker k3 s2) tt (with_ker k4 s2)) by done. set (s4 := with_ker k4 s2).
  assert (Hr4 : cr3 (ker s4) cpu = r2) by apply fupd_eq.
  destruct (exec_load sp spn execname argvec name argv Htoc Ka Hbl) as (rl & spl & Rl & Wl & Kl).
  assert (Hsn : spaces s4 !! cr3 (ker s4) cpu = Some spn) by (rewrite Hr4; apply lookup_insert_eq).
  rewrite (bind_ok _ _ _ _ _ (on_space_ok _ s4 cpu spn _ _ Hsn Rl)). rewrite Hr4. set (s5 := with_spaces _ s4). destruct rl as [err|[esp entry]].
  - assert (Hc4 : pcbs (mem k4) !! pcb t = Some (set_page_table_base r2 c)) by apply lookup_insert_eq.
    rewrite (bind_ok _ _ _ _ _ (on_ker_ok _ s5 _ _ (upd_pcb_run k4 (pcb t) _ (set_page_table_base pd) Hc4))). set (k6 := with_mem _ k4).
    rewrite (bind_ok _ _ (with_ker k6 s5) tt (with_ker (with_cr3 (fupd (cr3 k6) cpu pd) k6) s5)) by done. set (s7 := with_ker _ s5).
    rewrite (bind_ok _ _ _ _ _ (free_space_ok s7 r2 true spl ltac:(simpl; apply lookup_insert_eq))).
    eexists _, _. split; [done|]. split; [done|]. split; [apply fupd_eq|]. simpl. split; [|split; [done|]].
    + rewrite !insert_insert_eq. apply insert_id. rewrite Hc. f_equal. destruct c. simpl in *. by rewrite Hpd.
    + exists sp1. split; [|done]. rewrite insert_insert_eq. apply delete_insert_id. apply lookup_insert_None. by split.
  - rewrite (bind_ok _ _ _ _ _ (free_space_ok s5 pd true sp1 ltac:(simpl; by rewrite lookup_insert_ne, lookup_insert_ne, lookup_insert_eq))). set (s6 := with_spaces _ s5).
    rewrite (bind_ok _ _ _ _ _ (on_ker_ok _ s6 _ _ (ContextSwitch.upd_tcb_run k4 this t (set_k_stack_esp this) Ht))). set (s7 := with_ker _ s6).
    assert (Ht7 : tcbs (mem (ker s7)) !! this = Some (set_k_stack_esp this t)) by apply lookup_insert_eq.
    rewrite (bind_ok _ _ s7 (set_k_stack_esp this t) s7) by (rewrite (on_ker_ok _ _ _ _ (ContextSwitch.rd_tcb_run _ _ _ Ht7)); by destruct s7).
    destruct (drop_handler s7 this _ Ht7 Hsw) as (s8 & R8 & Hs8 & Hcr8 & Hp8 & Ht8). rewrite (bind_ok _ _ _ _ _ R8).
    destruct Kl as (file & He & Hen & Him & Hmf). eexists _, _. split; [done|]. exists name, argv, file, spl, r2. split; [done|]. split; [done|]. split; [done|].
    split; [done|]. split; [done|]. simpl. rewrite Hs8, Hcr8, Hp8, Ht8. split; [done|]. split; [done|]. simpl.
    rewrite !insert_insert_eq. rewrite delete_insert_ne, delete_insert_eq by done. done.
Qed.

(** The first byte of the name is read before the pointer is checked: a pointer
    to memory that is not mapped is not answered with an error code, the kernel
    itself faults. *)
Theorem exec_name_read_unchecked (s : sys S) cpu this t c sp execname argvec :
  tcbs (mem (ker s)) !! this = Some t -> pcbs (mem (ker s)) !! pcb t = Some c -> cur_thr_num c = 1 ->
  spaces s !! cr3 (ker s) cpu = Some sp -> execname <> 0 -> mapped sp execname = false ->
  exec_syscall_handler TOC elf_check_header elf_load_helper cpu this execname argvec s = Fault.
Proof.
  intros Ht Hc H1 Hsp H0 Hm. unfold exec_syscall_handler.
  rewrite (bind_ok _ _ s t s) by (rewrite (on_ker_ok _ _ _ _ (ContextSwitch.rd_tcb_run (ker s) this t Ht)); by destruct s).
  rewrite (bind_ok _ _ s c s) by (rewrite (on_ker_ok _ _ _ _ (rd_pcb_run (ker s) _ c Hc)); by destruct s).
  rewrite H1. cbn [Z.ltb Z.compare Pos.compare Pos.compare_cont]. munfold. unfold on_space, exec_args. rewrite Hsp, (proj2 (Z.eqb_neq _ _) H0).
  munfold. unfold peek. by rewrite Hm.
Qed.
End theorem.

(** ** The interfaces on flat memories *)

(** The scan of [check_mem_validness] for the end of a string. *)
Fixpoint scan (n : nat) (s : flat) (a : Z) : Z :=
  match n with
  | O => ERROR_NOT_NULL_TERM
  | Datatypes.S n => if negb (mapped s a) then -511 else if byte_at s a =? 0 then 0 else scan n s (a + 1)
  end.

#[export] Instance flat_check : UserCheck flat := {|
  check_mem va n nul w := fun s =>
    Ok (if va <? USER_MEM_START then -63 else if nul then scan (Z.to_nat n) s va
        else if forallb (fun i => mapped s (va + Z.of_nat i) && (negb w || backed s (va + Z.of_nat i))) (seq 0 (Z.to_nat n)) then 0 else -511, s) |}.

Lemma scan_ok n : forall s a, 0 <= scan n s a -> exists j, j < Z.of_nat n /\ ends_at (byte_at s) a j /\ forall i, 0 <= i <= j -> mapped s (a + i) = true.
Proof.
  induction n as [|n IH]; intros s a; cbn [scan]; [by unfold ERROR_NOT_NULL_TERM|]. destruct (mapped s a) eqn:Em; cbn [negb]; [|lia].
  destruct (Z.eqb_spec (byte_at s a) 0) as [Hz|Hz].
  - intros _. exists 0. split; [lia|]. split; [split; [lia|]; rewrite Z.add_0_r; split; [done|]; lia|]. intros i Hi. by replace (a + i) with a by lia.
  - intros Hs. destruct (IH s (a + 1) Hs) as (j & Hj & (H0 & He & Hn) & Hm). exists (j + 1). split; [lia|]. split.
    + split; [lia|]. split; [by replace (a + (j + 1)) with (a + 1 + j) by lia|]. intros i Hi. destruct (decide (i = 0)) as [->|]; [by rewrite Z.add_0_r|].
      replace (a + i) with (a + 1 + (i - 1)) by lia. apply Hn. lia.
    + intros i Hi. destruct (decide (i = 0)) as [->|]; [by rewrite Z.add_0_r|]. replace (a + i) with (a + 1 + (i - 1)) by lia. apply Hm. lia.
Qed.

Lemma scan_accepts n : forall s a j, ends_at (byte_at s) a j -> j < Z.of_nat n -> (forall i, 0 <= i <= j -> mapped s (a + i) = true) -> scan n s a = 0.
Proof.
  induction n as [|n IH]; intros s a j (H0 & Hz & Hn) Hj Hm; [lia|]. cbn [scan].
  assert (Ha : mapped s a = true) by (rewrite <- (Z.add_0_r a); apply Hm; lia). rewrite Ha. cbn [negb]. destruct (Z.eqb_spec (byte_at s a) 0) as [|Hb]; [done|].
  assert (j <> 0) by (intros ->; by rewrite Z.add_0_r in Hz). apply (IH s (a + 1) (j - 1)); [|lia|].
  - split; [lia|]. replace (a + 1 + (j - 1)) with (a + j) by lia. split; [done|]. intros i Hi. replace (a + 1 + i) with (a + (i + 1)) by lia. apply Hn. lia.
  - intros i Hi. replace (a + 1 + i) with (a + (i + 1)) by lia. apply Hm. lia.
Qed.

#[export] Instance flat_check_laws : UserCheckLaws flat.
Proof.
  constructor.
  - intros s va n nul w Hw. cbn [check_mem flat_check]. split; [done|]. split; [apply extends_refl|]. destruct (Z.ltb_spec va USER_MEM_START); [split; [lia|]; split; lia|]. split; [done|]. split.
    + intros Hr -> x Hx. simpl in Hr. destruct (forallb _ _) eqn:E; [|lia]. rewrite forallb_forall in E. specialize (E (Z.to_nat (x - va)) ltac:(apply in_seq; lia)).
      replace (va + Z.of_nat (Z.to_nat (x - va))) with x in E by lia. apply andb_true_iff in E as [E1 E2]. split; [done|]. by intros ->.
    + intros Hr ->. destruct (scan_ok _ s va Hr) as (j & Hj & He & Hm). exists j. split; [|by split].
      destruct (Z.le_gt_cases 0 n); [lia|]. replace (Z.to_nat n) with O in Hr by lia. simpl in Hr. unfold ERROR_NOT_NULL_TERM in Hr. lia.
  - intros s va n nul r s' _ _ _. cbn [check_mem flat_check]. by intros [= _ ->].
  - intros s va n _ Hva Hn Hm. cbn [check_mem flat_check negb orb]. rewrite (proj2 (Z.ltb_ge _ _) Hva).
    rewrite (proj2 (forallb_forall _ _)); [done|]. intros i Hi%in_seq. by rewrite andb_true_r, Hm by lia.
  - intros s va n j _ Hva Hn Hj He Hm. cbn [check_mem flat_check]. rewrite (proj2 (Z.ltb_ge _ _) Hva). by rewrite (scan_accepts _ s va j) by (done || lia).
Qed.

(** One page directory can be made, at address 4096. *)
#[export] Instance flat_dirs : PageDirs flat := {|
  create_pd := fun s => match spaces s !! 4096 with
                        | None => Ok (4096, with_spaces (<[4096 := Loader.demo_flat]> (spaces s)) s)
                        | Some _ => Ok (ERROR_MALLOC_LIB, s)
                        end;
  free_space_of pd _ := fun s => match spaces s !! pd with Some _ => Ok (tt, with_spaces (delete pd (spaces s)) s) | None => Fault end |}.

#[export] Instance flat_dirs_laws : PageDirsLaws flat.
Proof.
  constructor.
  - intros s. cbn [create_pd flat_dirs]. destruct (spaces s !! 4096) eqn:E; eexists _, _; (split; [done|]); [by left|right]. split; [done|].
    split; [done|]. exists Loader.demo_flat. split; [apply Loader.demo_blank|done].
  - intros s pd u sp E. cbn [free_space_of flat_dirs]. by rewrite E.
Qed.

(** The caller's memory: the name "ab" at 16777216, the vector {"ab"} at
    16777232. *)
Definition demo_caller : flat :=
  mk_flat (fun p => p =? 4096) (fun _ => false) (put (put (fun _ => 0) 16777216 (Loader.demo_name ++ [0])) 16777232 (word_bytes 16777216)) 100.
Definition demo_exec : sys flat := mk_sys ContextSwitch.demo_kernel {[0 := demo_caller]} ∅ 600 0 0.

Lemma demo_caller_wf : wf demo_caller.
Proof.
  intros x. simpl. unfold put. destruct (_ && _); [|destruct (_ && _); [|lia]].
  - generalize (Z.to_nat (x - 16777232)). intros [|[|[|[|[|n]]]]]; vm_compute; by split.
  - generalize (Z.to_nat (x - 16777216)). intros [|[|[|[|n]]]]; vm_compute; by split.
Qed.

Lemma demo_toc : sound_toc [Loader.demo_file] (fun _ => 0) (fun _ => (0, Loader.demo_elf)).
Proof.
  intros name file He _. right. split; [done|]. assert (file = Loader.demo_file) as ->.
  { unfold Loader.entry_of in He. simpl in He. case_bool_decide; [by injection He|done]. }
  split; [|split; vm_compute; by first [left; congruence|right; congruence]].
  split; [repeat constructor; unfold is_byte; lia|done|..]; try (by vm_compute; repeat split; congruence); split; by vm_compute.
Qed.

Lemma demo_exec_runs :
  outcome (exec_syscall_handler [Loader.demo_file] (fun _ => 0) (fun _ => (0, Loader.demo_elf)) 1 24544 16777216 16777232 demo_exec) = Some (inr (4294967268, 16777216)).
Proof. vm_compute. reflexivity. Qed.

Lemma exec_witness :
  exists esp entry s', exec_syscall_handler [Loader.demo_file] (fun _ => 0) (fun _ => (0, Loader.demo_elf)) 1 24544 16777216 16777232 demo_exec = Ok (inr (esp, entry), s') /\
    exists name argv sp', args_at (byte_at demo_caller) 16777216 16777232 name argv /\ Loader.main_frame (byte_at (S := flat) sp') (Loader.stack_low argv) esp argv.
Proof.
  destruct (exec_correct [Loader.demo_file] (fun _ => 0) (fun _ => (0, Loader.demo_elf)) demo_exec 1 24544 (ContextSwitch.demo_tcb 16384 2 NORMAL) (mk_pcb 1 0 0 0 1 []) demo_caller 16777216 16777232)
    as (r & s' & R & K).
  - exact demo_toc.
  - vm_compute. reflexivity.
  - vm_compute. reflexivity.
  - reflexivity.
  - reflexivity.
  - apply demo_caller_wf.
  - lia.
  - right. reflexivity.
  - by left.
  - destruct r as [err|[esp entry]]; [exfalso; pose proof (eq_trans (eq_sym (f_equal outcome R)) demo_exec_runs) as E; discriminate E|]. exists esp, entry, s'. split; [exact R|].
    destruct K as (name & argv & file & sp' & pd' & Ha & _ & _ & _ & Hm & _). exists name, argv, sp'. split; [exact Ha|exact Hm].
Defined.

Lemma exec_name_witness :
  exec_syscall_handler [Loader.demo_file] (fun _ => 0) (fun _ => (0, Loader.demo_elf)) 1 24544 20000000 16777232 demo_exec = Fault.
Proof.
  apply (exec_name_read_unchecked [Loader.demo_file] (fun _ => 0) (fun _ => (0, Loader.demo_elf)) demo_exec 1 24544 (ContextSwitch.demo_tcb 16384 2 NORMAL)
    (mk_pcb 1 0 0 0 1 []) demo_caller); [vm_compute; reflexivity|vm_compute; reflexivity|done|done|done|done].
Defined.
End Exec.
