(* ===== verification/Syscalls.v ===== *)
(** * The other system calls of a worker core (src/kern/syscall_lifecycle.c,
      syscall_consoleio.c, syscall_memory.c, syscall_misc.c)

    Most of them are requests to the manager: the handler fills in the message of
    its thread, sends it and gives up the processor ([request]); when the answer
    has brought the thread back, the [_finish] part takes the result out of the
    message.  In the results, [inl r] returns [r] to the user, [inr (x, n)] leaves
    the thread suspended with [x] in its local variables while the core runs
    thread [n]. *)

From S2P Require Import Prelude AddrSpace Loader SimpleQueue ThreadState Mutex Pm Vm Message ControlBlock Scheduler ContextSwitch Console Keyboard ConsoleIO ThrMgmt SysState Exec.
From Stdlib Require Import ZArith Lia.
From stdpp Require Import base gmap list tactics numbers.

#[local] Open Scope Z_scope.

Module Syscalls.
Import Scheduler Sys.

Definition ENOMEM : Z := -12.
Definition EFAULT : Z := -14.
Definition EINVAL : Z := -22.
Definition EALLOCATED : Z := -258.
Definition MAX_READLINE_BUF : Z := Z.shiftr K_STACK_SIZE 1.

(** ** Memory *)

(** The translation of the error codes of new_pages and remove_pages. *)
Definition new_pages_syscall_handler {P} (new_pages : Z -> Z -> M P Z) (base len : Z) : M P Z :=
  ret ← new_pages base len;
  mret (if (ret =? Vm.ERROR_BASE_NOT_ALIGNED) || (ret =? Vm.ERROR_LEN) then EINVAL
        else if ret =? Vm.ERROR_KERNEL_SPACE then EFAULT
        else if ret =? Vm.ERROR_OVERLAP then EALLOCATED
        else if (ret =? Vm.ERROR_MALLOC_LIB) || (ret =? Vm.ERROR_NOT_ENOUGH_MEM) then ENOMEM
        else ret).

Definition remove_pages_syscall_handler {P} (remove_pages : Z -> M P Z) (base : Z) : M P Z :=
  ret ← remove_pages base;
  mret (if ret <? 0 then EINVAL else ret).

Section handlers.
Context {S : Type} `{AS : AddrSpace S} `{UC : !UserCheck S}.
Context (clone_pd : Z -> M kernel Z) (free_entire_space : Z -> bool -> M kernel unit).

Definition switch (cpu : Z) (op : op_t) (arg this : Z) : M (sys S) Z := on_ker (ThrMgmt.switch clone_pd free_entire_space cpu op arg this).

(** The message of a thread is filled in and sent; the thread that runs then. *)
Definition request (cpu this : Z) (ty : msg_type_t) (data : msg_t -> msg_t) : M (sys S) Z :=
  t ← on_ker (rd_tcb this);
  on_ker (upd_msg (my_msg t) (set_req this cpu));;
  on_ker (upd_msg (my_msg t) (set_type ty));;
  on_ker (upd_msg (my_msg t) data);;
  switch cpu OP_SEND_MSG 0 this.

(** The message of a thread that runs again. *)
Definition answer (this : Z) : M (sys S) msg_t := t ← on_ker (rd_tcb this); on_ker (rd_msg (my_msg t)).

(** ** Console *)

Definition print_syscall_handler (cpu this len buf : Z) (is_kernel_call : bool) (kernel_text : list Z) : M (sys S) (Z + Z * Z) :=
  rv ← (if negb is_kernel_call then on_space cpu (check_mem buf len false false) else mret 0);
  if rv <? 0 then mret (inl EFAULT) else
  text ← (if is_kernel_call then mret kernel_text else on_space cpu (read_bytes buf (Z.to_nat len)));
  kernel_buf ← alloc_buf text;
  if kernel_buf =? 0 then mret (inl ENOMEM) else
  n ← request cpu this PRINT (fun m => set_w1 kernel_buf (set_w0 len m));
  mret (inr (kernel_buf, n)).
Definition print_finish (this kernel_buf : Z) : M (sys S) Z :=
  free_buf kernel_buf;;
  m ← answer this;
  mret (Data.resp_result m).

Definition readline_syscall_handler (cpu this len buf : Z) (junk : list Z) : M (sys S) (Z + Z * Z) :=
  rv ← on_space cpu (check_mem buf len false true);
  if rv <? 0 then mret (inl EFAULT) else
  if MAX_READLINE_BUF <? len then mret (inl EINVAL) else
  kernel_buf ← alloc_buf junk;
  if kernel_buf =? 0 then mret (inl ENOMEM) else
  n ← request cpu this READLINE (fun m => set_w0 len (set_w1 kernel_buf m));
  mret (inr (kernel_buf, n)).
(** [memcpy] of more bytes than the buffer has, or of a negative number, is an
    access out of bounds. *)
Definition readline_finish (cpu this buf kernel_buf : Z) : M (sys S) Z :=
  m ← answer this;
  let reading_count := Data.resp_result m in
  s ← get;
  l ← deref (kbufs s !! kernel_buf);
  (if (0 <=? reading_count) && (reading_count <=? Z.of_nat (length l)) then on_space cpu (write_bytes buf (take (Z.to_nat reading_count) l)) else fault);;
  free_buf kernel_buf;;
  mret reading_count.

Definition set_term_color_syscall_handler (cpu this color : Z) : M (sys S) Z := request cpu this SET_TERM_COLOR (set_w0 color).
Definition set_cursor_pos_syscall_handler (cpu this row col : Z) : M (sys S) Z :=
  request cpu this SET_CURSOR_POS (fun m => set_w1 col (set_w0 row m)).
(** The end of the two: [return this_thr->my_msg->data.response_data.result]. *)
Definition response_finish (this : Z) : M (sys S) Z := m ← answer this; mret (Data.resp_result m).

Definition get_cursor_pos_syscall_handler (cpu this row col : Z) : M (sys S) (Z + Z) :=
  r1 ← on_space cpu (check_mem row 4 false true);
  r2 ← (if r1 <? 0 then mret r1 else on_space cpu (check_mem col 4 false true));
  if r2 <? 0 then mret (inl (-1)) else
  n ← request cpu this GET_CURSOR_POS (fun m => m);
  mret (inr n).
Definition get_cursor_pos_finish (cpu this row col : Z) : M (sys S) Z :=
  m ← answer this;
  on_space cpu (write_word row (w32 (Data.cur_row m)));;
  m ← answer this;
  on_space cpu (write_word col (w32 (Data.cur_col m)));;
  mret 0.

(** ** Life cycle *)

(** [fork_syscall_handler] and [thread_fork_syscall_handler] after the switch. *)
Definition fork_result (this : Z) : M (sys S) Z := t ← on_ker (rd_tcb this); mret (result t).
Definition fork_syscall_handler (cpu this : Z) : M (sys S) Z := switch cpu OP_FORK 0 this.
Definition thread_fork_syscall_handler (cpu this : Z) : M (sys S) Z := switch cpu OP_THREAD_FORK 0 this;; fork_result this.

Definition set_status_syscall_handler (this status : Z) : M (sys S) unit :=
  t ← on_ker (rd_tcb this); on_ker (upd_pcb (pcb t) (set_status status)).

Definition set_init_pcb (cpu this init_pcb : Z) : M (sys S) Z :=
  modify (with_init_task init_pcb);;
  c ← on_ker (rd_pcb init_pcb);
  request cpu this SET_INIT_PCB (set_w0 (pid c)).

Definition syscall_vanish_init (cpu : Z) : M (sys S) Z :=
  p ← on_ker malloc;
  if p =? 0 then mret (-1) else
  l ← on_ker malloc;
  if l =? 0 then mret (-1) else
  on_ker (modify (fun k => with_zombie_lists (<[cpu := []]> (zombie_lists k)) k));;
  on_ker (modify (fun k => with_zombie_list_locks (<[cpu := snd Mutex.mutex_init]> (zombie_list_locks k)) k));;
  mret 0.

(** The last part of [vanish_syscall_handler] before the thread leaves for the
    core that owns its stack. *)
Definition vanish_back (cpu this : Z) : M (sys S) Z :=
  t ← on_ker (rd_tcb this);
  request cpu this VANISH_BACK (set_w0 (ori_cpu t)).

(** [(Some task, n)]: the thread was the last of [task] and waits for the
    manager; [(None, n)]: it is on its way to the core that owns its stack. *)
Definition vanish_syscall_handler (cpu this : Z) (is_kernel_kill : bool) : M (sys S) (option Z * Z) :=
  t ← on_ker (rd_tcb this);
  let this_task := pcb t in
  if this_task =? 0 then panic else
  s ← get;
  on_ker (upd_tcb this (set_pcb (init_task s)));;
  i ← on_ker (rd_pcb (init_task s));
  on_ker (ContextSwitch.set_cr3 cpu (page_table_base i));;
  c ← on_ker (rd_pcb this_task);
  let n := s32 (cur_thr_num c - 1) in
  on_ker (upd_pcb this_task (set_cur_thr_num n));;
  if n =? 0 then
    (if is_kernel_kill then on_ker (upd_pcb this_task (set_status (-2))) else mret tt);;
    c ← on_ker (rd_pcb this_task);
    next ← request cpu this VANISH (fun m => set_w2 (status c) (set_w1 (ppid c) (set_w0 (pid c) m)));
    mret (Some this_task, next)
  else
    next ← vanish_back cpu this;
    mret (None, next).

(** The last thread, once the manager has taken the exit status. *)
Definition vanish_reap (cpu this this_task : Z) : M (sys S) Z :=
  c ← on_ker (rd_pcb this_task);
  on_ker (free_entire_space (page_table_base c) true);;
  on_ker (on_mem (ControlBlock.tcb_free_process this_task));;
  vanish_back cpu this.

(** [mutex_lock] of a mutex that is not free suspends the caller. *)
Definition lock_zombies (cpu this : Z) : M kernel unit := fun k =>
  match zombie_list_locks k !! cpu with
  | Some m => match Mutex.lock_section this m with
              | Ok (true, m') => Ok (tt, with_zombie_list_locks (<[cpu := m']> (zombie_list_locks k)) k)
              | Ok (false, _) => Blocks
              | Panic => Panic | Fault => Fault | Blocks => Blocks | NoFuel => NoFuel
              end
  | None => Fault
  end.

(** On the core that owns the stack: the thread becomes a zombie and blocks for
    ever; if it ran again, the kernel would stop. *)
Definition vanish_end (cpu this : Z) : M (sys S) Z :=
  on_ker (lock_zombies cpu this);;
  on_ker (ContextSwitch.put_next_zombie cpu this);;
  on_ker (ContextSwitch.unlock zombie_list_locks with_zombie_list_locks cpu this);;
  n ← switch cpu OP_BLOCK 0 this;
  if n =? this then panic else mret n.

Definition wait_syscall_handler (cpu this status_ptr : Z) : M (sys S) (Z + Z) :=
  rv ← (if negb (status_ptr =? 0) then on_space cpu (check_mem status_ptr 4 false true) else mret 0);
  if rv <? 0 then mret (inl EFAULT) else
  t ← on_ker (rd_tcb this);
  c ← on_ker (rd_pcb (pcb t));
  n ← request cpu this WAIT (set_w0 (pid c));
  mret (inr n).
Definition wait_finish (cpu this status_ptr : Z) : M (sys S) Z :=
  m ← answer this;
  (if negb (status_ptr =? 0) && (0 <? Data.wr_pid m) then on_space cpu (write_word status_ptr (w32 (Data.wr_status m))) else mret tt);;
  m ← answer this;
  mret (Data.wr_pid m).

(** ** Miscellaneous *)

Definition halt_syscall_handler (cpu this : Z) : M (sys S) Z := request cpu this HALT (fun m => m).

Section files.
Context (TOC : list toc_entry).

(** The names of the programs, one string after the other, and an empty one. *)
Definition dot_length : Z := foldl (fun n e => n + (Loader.strlen (execname e) + 1)) 1 TOC.
Definition dot_bytes : list Z := foldl (fun l e => l ++ execname e ++ [0]) [] TOC ++ [0].

Definition syscall_readfile_init : M (sys S) Z :=
  p ← alloc_buf dot_bytes;
  modify (with_dot p dot_length);;
  if p =? 0 then mret (-1) else mret 0.

(** [count] bytes of [bytes], from [offset] on, into [buf]. *)
Definition copy_file (cpu buf count offset len : Z) (bytes : list Z) : M (sys S) Z :=
  if len <? offset then mret (-1) else
  let count := if len <? s32 (offset + count) then len - offset else count in
  if offset + count <=? Z.of_nat (length bytes) then
    on_space cpu (write_bytes buf (take (Z.to_nat count) (drop (Z.to_nat offset) bytes)));; mret count
  else fault.

(** [strcmp(a, l) == 0] for a string [l] of the kernel: reading stops at the first
    difference. *)
Fixpoint str_eq (a : Z) (l : list Z) : M S bool :=
  match l with
  | [] => b ← peek a; mret (b =? 0)
  | c :: l => b ← peek a; if b =? c then str_eq (a + 1) l else mret false
  end.

(** The loop over the table. *)
Fixpoint find_file (filename : Z) (l : list toc_entry) : M S (option toc_entry) :=
  match l with
  | [] => mret None
  | e :: l => b ← str_eq filename (execname e); if (b : bool) then mret (Some e) else find_file filename l
  end.

Definition readfile_syscall_handler (cpu filename buf count offset : Z) : M (sys S) Z :=
  if (count <? 0) || (offset <? 0) then mret (-1) else
  rv ← on_space cpu (check_mem buf count false true);
  if rv <? 0 then mret (-1) else
  dot ← on_space cpu (str_eq filename [46]);
  if (dot : bool) then
    s ← get;
    bytes ← deref (kbufs s !! dot_file s);
    copy_file cpu buf count offset (dot_file_length s) bytes
  else
    e ← on_space cpu (find_file filename TOC);
    match e with
    | Some e => copy_file cpu buf count offset (execlen e) (execbytes e)
    | None => mret (-1)
    end.
End files.
End handlers.

(** ** Requests *)
Section lemmas.
Context {S : Type} `{AS : AddrSpace S} `{UC : !UserCheck S} `{AL : !AddrSpaceLaws S} `{UL : !UserCheckLaws S}.
Context (clone_pd : Z -> M kernel Z) (free_entire_space : Z -> bool -> M kernel unit).
#[local] Abbreviation req := (request (S := S) clone_pd free_entire_space).

(** A thread [this] with message [mm] runs on worker [cpu], in task [c] and address
    space [sp]; the channels are [ch] and [q] is ready. *)
Record running (s : sys S) (cpu this : Z) (q : list Z) (t : tcb_t) (c : pcb_t) (mm : msg_t) (sp : S) (ch : ChanSpec.chans) : Prop := {
  ru_core : ContextSwitch.core_ok (ker s) cpu this q;
  ru_tcb : tcbs (mem (ker s)) !! this = Some t;
  ru_idle : this <> idle_thr (ker s) cpu;
  ru_pcb : pcbs (mem (ker s)) !! pcb t = Some c;
  ru_msg : Message.msgs (net (mem (ker s))) !! my_msg t = Some mm;
  ru_node : node_thr mm = my_msg t;
  ru_msg0 : my_msg t <> 0;
  ru_net : Message.net_rep (net (mem (ker s))) ch;
  ru_cpu : 1 <= cpu <= Message.num_worker_cores (net (mem (ker s)));
  ru_space : spaces s !! cr3 (ker s) cpu = Some sp;
  ru_wf : wf sp }.

(** What a request leaves: the message is sent, the core runs the next thread. *)
Record requested (s s' : sys S) (cpu this : Z) (q : list Z) (t : tcb_t) (mm' : msg_t) (ch : ChanSpec.chans) (n : Z) : Prop := {
  rq_core : exists q', ContextSwitch.core_ok (ker s') cpu n q' /\ n :: q' = match q with [] => [idle_thr (ker s) cpu] | _ => q end;
  rq_tcbs : tcbs (mem (ker s')) = tcbs (mem (ker s));
  rq_msgs : Message.msgs (net (mem (ker s'))) = <[my_msg t := mm']> (Message.msgs (net (mem (ker s))));
  rq_net : Message.net_rep (net (mem (ker s'))) (ChanSpec.send_manager ch cpu (my_msg t));
  rq_pcbs : pcbs (mem (ker s')) = pcbs (mem (ker s));
  rq_cr3 : cr3 (ker s') = cr3 (ker s);
  rq_spaces : spaces s' = spaces s;
  rq_kbufs : kbufs s' = kbufs s;
  rq_cores : Message.num_worker_cores (net (mem (ker s'))) = Message.num_worker_cores (net (mem (ker s))) }.

(** Changing a message does not disturb the channels. *)
Lemma net_rep_upd n ch m mm f : Message.net_rep n ch -> Message.msgs n !! m = Some mm -> node_thr (f mm) = node_thr mm ->
  Message.net_rep (Message.with_msgs (<[m := f mm]> (Message.msgs n)) n) ch.
Proof.
  intros Hr Hm Hf. apply Message.net_rep_msgs; [done|]. intros m0 mm0 E0. destruct (decide (m0 = m)) as [->|].
  - eexists. rewrite lookup_insert_eq. split; [done|]. congruence.
  - exists mm0. by rewrite lookup_insert_ne.
Qed.

Lemma request_run s cpu this q t c mm sp ch ty data : running s cpu this q t c mm sp ch -> (forall m, node_thr (data m) = node_thr m) ->
  exists n s', req cpu this ty data s = Ok (n, s') /\ requested s s' cpu this q t (data (set_type ty (set_req this cpu mm))) ch n.
Proof.
  intros [Hok Ht Hi Hc Hm Hn Hm0 Hr Hcpu _ _] Hd. unfold request. set (m := my_msg t) in *.
  rewrite (bind_ok _ _ s t s) by (rewrite (on_ker_ok _ _ _ _ (ContextSwitch.rd_tcb_run (ker s) this t Ht)); by destruct s). fold m.
  rewrite (bind_ok _ _ _ _ _ (on_ker_ok _ s _ _ (ThrMgmt.thr_upd_msg (ker s) m mm (set_req this cpu) Hm))). set (k1 := Scheduler.with_mem _ (ker s)).
  rewrite (bind_ok _ _ _ _ _ (on_ker_ok _ (with_ker k1 s) _ _ (ThrMgmt.thr_upd_msg k1 m (set_req this cpu mm) (set_type ty) ltac:(apply lookup_insert_eq)))). set (k2 := Scheduler.with_mem _ k1).
  set (mm2 := set_type ty (set_req this cpu mm)).
  rewrite (bind_ok _ _ _ _ _ (on_ker_ok _ (with_ker k2 s) _ _ (ThrMgmt.thr_upd_msg k2 m mm2 data ltac:(apply lookup_insert_eq)))). set (k3 := Scheduler.with_mem _ k2).
  assert (Hms : Message.msgs (net (mem k3)) = <[m := data mm2]> (Message.msgs (net (mem (ker s))))) by (simpl; by rewrite !insert_insert_eq).
  assert (Hr3 : Message.net_rep (net (mem k3)) ch).
  { apply (net_rep_upd (net (mem k2)) ch m mm2 data); [|apply lookup_insert_eq|apply Hd].
    apply (net_rep_upd (net (mem k1)) ch m (set_req this cpu mm) (set_type ty)); [|apply lookup_insert_eq|done]. by apply net_rep_upd. }
  assert (Hok3 : ContextSwitch.core_ok k3 cpu this q) by (destruct Hok; by split).
  destruct (ThrMgmt.send_run_full clone_pd free_entire_space k3 cpu this q t ch Hok3 Ht Hi Hr3) as (n & q' & k' & R & B1 & B2 & B3 & B4 & B5 & _ & _ & B8 & _ & B9 & _ & _ & B10).
  { split; [done|]. exists (data mm2). split; [fold m; rewrite Hms; apply lookup_insert_eq|]. rewrite Hd. exact Hn. }
  { done. }
  exists n, (with_ker k' s). split; [exact (on_ker_ok _ (with_ker k3 s) _ _ R)|]. split; simpl; [by exists q'|done|by rewrite B5|done|done|by rewrite B9|done|done|by rewrite B10].
Qed.

Lemma my_answer_run s this t mm : tcbs (mem (ker s)) !! this = Some t -> Message.msgs (net (mem (ker s))) !! my_msg t = Some mm ->
  answer (S := S) this s = Ok (mm, s).
Proof.
  intros Ht Hm. unfold answer. rewrite (bind_ok _ _ s t s) by (rewrite (on_ker_ok _ _ _ _ (ContextSwitch.rd_tcb_run (ker s) this t Ht)); by destruct s).
  assert (R : rd_msg (my_msg t) (ker s) = Ok (mm, ker s)).
  { unfold rd_msg, on_mem, ControlBlock.rd_msg, ControlBlock.on_net.
    rewrite (zoom_ok mem with_mem _ _ mm (mem (ker s))); [by destruct (ker s)|]. rewrite (zoom_ok net with_net _ _ mm (net (mem (ker s)))); [by destruct (mem (ker s))|].
    unfold Message.rd. by rewrite Hm. }
  rewrite (on_ker_ok _ _ _ _ R). by destruct s.
Qed.

(** [malloc] of a buffer takes the allocator's next answer. *)
Lemma alloc_buf_run s l p rest : Message.answers (net (mem (ker s))) = p :: rest ->
  let k' := with_mem (with_net (Message.with_answers rest (net (mem (ker s)))) (mem (ker s))) (ker s) in
  alloc_buf (S := S) l s = Ok (p, if p =? 0 then with_ker k' s else with_kbufs (<[p := l]> (kbufs s)) (with_ker k' s)).
Proof.
  intros Ha k'. unfold alloc_buf. rewrite (bind_ok _ _ s p (with_ker k' s)).
  - destruct (p =? 0); cbn [negb]; [by rewrite (bind_ok (mret tt) _ (with_ker k' s) tt (with_ker k' s) eq_refl)|]. by erewrite bind_ok by reflexivity.
  - apply on_ker_ok. unfold malloc, on_mem. apply zoom_ok. unfold ControlBlock.malloc, ControlBlock.on_net. apply zoom_ok. unfold Message.malloc. by rewrite Ha.
Qed.

(** A running thread still runs when its space has been extended, or a buffer
    taken. *)
Lemma running_space s cpu this q t c mm sp ch sp' : running s cpu this q t c mm sp ch -> wf sp' ->
  running (with_spaces (<[cr3 (ker s) cpu := sp']> (spaces s)) s) cpu this q t c mm sp' ch.
Proof. intros [] Hw. split; try done. simpl. apply lookup_insert_eq. Qed.

Lemma running_alloc s cpu this q t c mm sp ch rest b : running s cpu this q t c mm sp ch ->
  running (with_kbufs b (with_ker (with_mem (with_net (Message.with_answers rest (net (mem (ker s)))) (mem (ker s))) (ker s)) s)) cpu this q t c mm sp ch.
Proof. intros [[] ? ? ? ? ? ? ? ? ? ?]. split; try done. by apply Message.net_rep_answers. Qed.

(** ** print *)

(** The message of a print request. *)
Definition print_msg (cpu this len kbuf : Z) (mm : msg_t) : msg_t := set_w1 kbuf (set_w0 len (set_type PRINT (set_req this cpu mm))).

Lemma print_run s cpu this q t c mm sp ch len buf p rest : running s cpu this q t c mm sp ch -> 0 <= len < 2 ^ 31 -> 0 <= buf < 2 ^ 32 -> Message.answers (net (mem (ker s))) = p :: rest ->
  exists r s', print_syscall_handler clone_pd free_entire_space cpu this len buf false [] s = Ok (r, s') /\
    match r with
    | inl err => (err = EFAULT \/ (err = ENOMEM /\ p = 0)) /\ Message.msgs (net (mem (ker s'))) = Message.msgs (net (mem (ker s))) /\ kbufs s' = kbufs s /\
        Message.net_rep (net (mem (ker s'))) ch
    | inr (kbuf, n) => kbuf = p /\ p <> 0 /\
        (exists q', ContextSwitch.core_ok (ker s') cpu n q' /\ n :: q' = match q with [] => [idle_thr (ker s) cpu] | _ => q end) /\ kbufs s' = <[p := bytes_from (byte_at sp) buf (Z.to_nat len)]> (kbufs s) /\
        tcbs (mem (ker s')) = tcbs (mem (ker s)) /\
        Message.msgs (net (mem (ker s'))) = <[my_msg t := print_msg cpu this len p mm]> (Message.msgs (net (mem (ker s)))) /\
        Message.net_rep (net (mem (ker s'))) (ChanSpec.send_manager ch cpu (my_msg t)) /\
        Message.num_worker_cores (net (mem (ker s'))) = Message.num_worker_cores (net (mem (ker s)))
    end.
Proof.
  intros Hrun Hlen Hbuf Ha. unfold print_syscall_handler. cbn [negb]. destruct (Exec.check_run sp buf len false (ru_wf _ _ _ _ _ _ _ _ _ Hrun) Hbuf ltac:(lia)) as (r1 & sp1 & R1 & W1 & E1 & U1 & M1 & _).
  rewrite (bind_ok _ _ _ _ _ (on_space_ok _ s cpu sp _ _ (ru_space _ _ _ _ _ _ _ _ _ Hrun) R1)). set (s1 := with_spaces _ s).
  destruct (Z.ltb_spec r1 0) as [_|Hr1]; [eexists _, s1; split; [done|]; split; [by left|]; split; [done|]; split; [done|apply Hrun]|].
  pose proof (running_space _ _ _ _ _ _ _ _ _ sp1 Hrun W1) as Hrun1. fold s1 in Hrun1.
  assert (Rb : read_bytes buf (Z.to_nat len) sp1 = Ok (bytes_from (byte_at sp) buf (Z.to_nat len), sp1)).
  { rewrite (read_bytes_ok (Z.to_nat len) sp1 buf) by (intros x Hx; apply M1; [done|done|lia]). f_equal. f_equal.
    apply list_fmap_ext. intros i x _. by rewrite (proj1 E1) by (specialize (U1 Hr1); lia). }
  rewrite (bind_ok _ _ _ _ _ (on_space_ok _ s1 cpu sp1 _ _ (ru_space _ _ _ _ _ _ _ _ _ Hrun1) Rb)).
  set (text := bytes_from (byte_at sp) buf (Z.to_nat len)). set (s2 := with_spaces _ s1).
  assert (Hrun2 : running s2 cpu this q t c mm sp1 ch) by (apply (running_space s1 cpu this q t c mm sp1 ch sp1 Hrun1 W1)).
  rewrite (bind_ok _ _ _ _ _ (alloc_buf_run s2 text p rest Ha)). destruct (Z.eqb_spec p 0) as [Hp|Hp].
  { eexists _, _. split; [done|]. split; [by right|]. split; [done|]. split; [done|]. apply Message.net_rep_answers, Hrun. }
  pose proof (running_alloc _ _ _ _ _ _ _ _ _ rest (<[p := text]> (kbufs s2)) Hrun2) as Hrun3. set (s3 := with_kbufs _ _) in *.
  destruct (request_run s3 cpu this q t c mm sp1 ch PRINT (fun m => set_w1 p (set_w0 len m)) Hrun3) as (n & s4 & R4 & [Q1 Q2 Q3 Q4 _ _ _ Q8 Q9]); [done|].
  rewrite (bind_ok _ _ _ _ _ R4). eexists _, _. split; [done|]. split; [done|]. split; [done|]. split; [exact Q1|]. by rewrite Q8, Q2, Q3, Q9.
Qed.

Lemma print_finish_run s this kbuf t mm : tcbs (mem (ker s)) !! this = Some t -> Message.msgs (net (mem (ker s))) !! my_msg t = Some mm ->
  is_Some (kbufs s !! kbuf) -> print_finish (S := S) this kbuf s = Ok (Data.resp_result mm, with_kbufs (delete kbuf (kbufs s)) s).
Proof.
  intros Ht Hm [l Hl]. unfold print_finish, free_buf. rewrite (bind_ok _ _ s tt (with_kbufs (delete kbuf (kbufs s)) s)) by (by rewrite Hl).
  by rewrite (bind_ok _ _ _ _ _ (my_answer_run (with_kbufs (delete kbuf (kbufs s)) s) this t mm Ht Hm)).
Qed.

(** The buffer [text] of the kernel heap, as the manager sees it. *)
Definition shared (b : gmap Z Z) (p : Z) (text : list Z) : Prop := forall i x, text !! i = Some x -> b !! (p + Z.of_nat i) = Some x.

Lemma fold_shared (b : gmap Z Z) p text : forall k t, (forall i x, text !! i = Some x -> b !! (p + (k + Z.of_nat i)) = Some x) ->
  fold_left (fun t i => TermSpec.putc (default 0 (b !! (p + i))) t) (seqZ k (Z.of_nat (length text))) t = fold_left (fun t x => TermSpec.putc x t) text t.
Proof.
  induction text as [|x text IH]; intros k t Hs; [done|]. rewrite seqZ_cons by (simpl; lia). cbn [fold_left length].
  pose proof (Hs O x eq_refl) as H0. rewrite Z.add_0_r in H0. rewrite H0. simpl default.
  replace (Z.pred (Z.of_nat (Datatypes.S (length text)))) with (Z.of_nat (length text)) by lia. apply IH.
  intros i y Hi. replace (Z.succ k + Z.of_nat i) with (k + Z.of_nat (Datatypes.S i)) by lia. by apply Hs.
Qed.


(** ** wait *)

(** The message of a wait request. *)
Definition wait_msg (cpu this : Z) (c : pcb_t) (mm : msg_t) : msg_t := set_w0 (pid c) (set_type WAIT (set_req this cpu mm)).

(** The word at [status_ptr] can be written, if it is wanted. *)
Definition status_ok (sp : S) (status_ptr : Z) : Prop := status_ptr <> 0 -> forall x, status_ptr <= x < status_ptr + 4 -> backed sp x = true.

(** [wait_finish] from [s] to [s'] with answer [mm], in a space with the bytes of
    [sp]. *)
Definition collected (cpu status_ptr : Z) (mm : msg_t) (sp : S) (s s' : sys S) : Prop :=
  ker s' = ker s /\
  if negb (status_ptr =? 0) && (0 <? Data.wr_pid mm)
  then exists sp', spaces s' = <[cr3 (ker s) cpu := sp']> (spaces s) /\ word_of (byte_at sp') status_ptr = w32 (Data.wr_status mm) /\
         forall x, ~ (status_ptr <= x < status_ptr + 4) -> byte_at sp' x = byte_at sp x
  else s' = s.

Lemma wait_request_run s cpu this q t c mm sp ch : running s cpu this q t c mm sp ch ->
  exists n s', (t ← on_ker (rd_tcb this); c ← on_ker (rd_pcb (pcb t)); n ← request clone_pd free_entire_space cpu this WAIT (set_w0 (pid c)); mret (inr n : Z + Z)) s = Ok (inr n, s') /\
    spaces s' = spaces s /\ Message.msgs (net (mem (ker s'))) = <[my_msg t := wait_msg cpu this c mm]> (Message.msgs (net (mem (ker s)))) /\
    Message.net_rep (net (mem (ker s'))) (ChanSpec.send_manager ch cpu (my_msg t)).
Proof.
  intros Hrun.
  rewrite (bind_ok _ _ s t s) by (rewrite (on_ker_ok _ s _ _ (ContextSwitch.rd_tcb_run (ker s) this t (ru_tcb _ _ _ _ _ _ _ _ _ Hrun))); by destruct s).
  rewrite (bind_ok _ _ s c s) by (rewrite (on_ker_ok _ s _ _ (Exec.rd_pcb_run (ker s) _ c (ru_pcb _ _ _ _ _ _ _ _ _ Hrun))); by destruct s).
  destruct (request_run s cpu this q t c mm sp ch WAIT (set_w0 (pid c)) Hrun) as (n & s' & R & [_ _ Q3 Q4 _ _ Q7 _ _]); [done|].
  rewrite (bind_ok _ _ _ _ _ R). exists n, s'. by split.
Qed.

Lemma wait_finish_run sp cpu this t status_ptr s mm : wf sp -> status_ok sp status_ptr -> tcbs (mem (ker s)) !! this = Some t ->
  Message.msgs (net (mem (ker s))) !! my_msg t = Some mm -> spaces s !! cr3 (ker s) cpu = Some sp ->
  exists s', wait_finish (S := S) cpu this status_ptr s = Ok (Data.wr_pid mm, s') /\ collected cpu status_ptr mm sp s s'.
Proof.
  intros Hw Hb Ht Hm Hs. unfold wait_finish, collected. rewrite (bind_ok _ _ _ _ _ (my_answer_run s this t mm Ht Hm)).
  assert (Hskip : exists s', (mret tt;; m ← answer this; mret (Data.wr_pid m)) s = Ok (Data.wr_pid mm, s') /\ ker s' = ker s /\ s' = s).
  { exists s. split; [|done]. by rewrite (bind_ok (mret tt) _ s tt s eq_refl), (bind_ok _ _ _ _ _ (my_answer_run s this t mm Ht Hm)). }
  destruct (Z.eqb_spec status_ptr 0) as [H0|H0]; cbn [negb andb]; [done|]. destruct (0 <? Data.wr_pid mm); [|done].
  destruct (write_word_ok sp status_ptr (w32 (Data.wr_status mm)) Hw) as (sp3 & R3 & _ & Y3); [intros i Hi; apply Hb; [done|lia]|].
  rewrite (bind_ok _ _ _ _ _ (on_space_ok _ s cpu sp _ _ Hs R3)). set (s3 := with_spaces _ s).
  rewrite (bind_ok _ _ _ _ _ (my_answer_run s3 this t mm Ht Hm)). exists s3. split; [done|]. split; [done|]. exists sp3. split; [done|]. split.
  - rewrite (word_of_ext _ _ _ (fun x _ => Y3 x)). apply word_put, w32_range.
  - intros x Hx. by rewrite Y3, put_out by (simpl; lia).
Qed.

(** wait.  A status pointer that is not writable is refused before anything is
    asked (the check itself may panic, see VmProofs.v).  Otherwise the manager is
    asked for a child of the caller's task; with its answer the caller stores the
    exit status, if it wants it and there is one, and returns the child's id. *)
Theorem wait_correct s cpu this q t c mm sp ch status_ptr :
  running s cpu this q t c mm sp ch -> 0 <= status_ptr < 2 ^ 32 ->
  match wait_syscall_handler clone_pd free_entire_space cpu this status_ptr s with
  | Ok (inl err, s') => err = EFAULT /\ status_ptr <> 0 /\ ker s' = ker s
  | Ok (inr n, s') => exists sp',
      spaces s' = <[cr3 (ker s) cpu := sp']> (spaces s) /\ extends sp sp' /\
      Message.msgs (net (mem (ker s'))) = <[my_msg t := wait_msg cpu this c mm]> (Message.msgs (net (mem (ker s)))) /\
      Message.net_rep (net (mem (ker s'))) (ChanSpec.send_manager ch cpu (my_msg t)) /\
      forall s2 mm2, tcbs (mem (ker s2)) !! this = Some t -> Message.msgs (net (mem (ker s2))) !! my_msg t = Some mm2 -> spaces s2 !! cr3 (ker s2) cpu = Some sp' ->
        exists s3, wait_finish (S := S) cpu this status_ptr s2 = Ok (Data.wr_pid mm2, s3) /\ collected cpu status_ptr mm2 sp' s2 s3
  | Panic => status_ptr <> 0
  | _ => False
  end.
Proof.
  intros Hrun Hptr. unfold wait_syscall_handler. pose proof (ru_space _ _ _ _ _ _ _ _ _ Hrun) as Hsp. pose proof (ru_wf _ _ _ _ _ _ _ _ _ Hrun) as Hw.
  assert (Hgo : forall sp1, wf sp1 -> extends sp sp1 -> status_ok sp1 status_ptr -> let s1 := with_spaces (<[cr3 (ker s) cpu := sp1]> (spaces s)) s in
    match (t ← on_ker (rd_tcb this); c ← on_ker (rd_pcb (pcb t)); n ← request clone_pd free_entire_space cpu this WAIT (set_w0 (pid c)); mret (inr n : Z + Z)) s1 with
    | Ok (inr n, s') => exists sp', spaces s' = <[cr3 (ker s) cpu := sp']> (spaces s) /\ extends sp sp' /\
        Message.msgs (net (mem (ker s'))) = <[my_msg t := wait_msg cpu this c mm]> (Message.msgs (net (mem (ker s)))) /\
        Message.net_rep (net (mem (ker s'))) (ChanSpec.send_manager ch cpu (my_msg t)) /\
        forall s2 mm2, tcbs (mem (ker s2)) !! this = Some t -> Message.msgs (net (mem (ker s2))) !! my_msg t = Some mm2 -> spaces s2 !! cr3 (ker s2) cpu = Some sp' ->
          exists s3, wait_finish (S := S) cpu this status_ptr s2 = Ok (Data.wr_pid mm2, s3) /\ collected cpu status_ptr mm2 sp' s2 s3
    | _ => False end).
  { intros sp1 W1 E1 Hst s1. destruct (wait_request_run s1 cpu this q t c mm sp1 ch (running_space _ _ _ _ _ _ _ _ _ sp1 Hrun W1)) as (n & s' & R & K1 & K2 & K3).
    rewrite R. exists sp1. split; [done|]. split; [done|]. split; [done|]. split; [done|]. intros s2 mm2 H1 H2 H3. by apply (wait_finish_run sp1 cpu this t). }
  destruct (Z.eqb_spec status_ptr 0) as [H0|H0]; cbn [negb].
  - rewrite (bind_ok (mret 0) _ s 0 s eq_refl). cbn [Z.ltb Z.compare]. pose proof (Hgo sp Hw (Exec.extends_refl sp) (fun Hne => False_ind _ (Hne H0))) as K. simpl in K.
    rewrite (insert_id (spaces s)) in K by done. replace (with_spaces (spaces s) s) with s in K by (by destruct s).
    match type of K with match ?r with _ => _ end => destruct r as [[[err|n] s']| | | |] end; done.
  - pose proof (check_ok sp status_ptr 4 false true Hw Hptr ltac:(lia)) as Hck. unfold on_space at 1. unfold mbind at 1, M_bind at 1. rewrite Hsp.
    destruct (check_mem status_ptr 4 false true sp) as [[rv sp1]| | | |]; try done. destruct Hck as (W1 & E1 & U1 & M1 & _).
    destruct (Z.ltb_spec rv 0) as [_|Hrv]; [done|]. pose proof (Hgo sp1 W1 E1 ltac:(intros _ x Hx; by apply (M1 Hrv eq_refl x Hx))) as K. simpl in K.
    match type of K with match ?r with _ => _ end => destruct r as [[[err|n] s']| | | |] end; done.
Qed.

(** ** vanish *)

Definition vanish_msg (cpu this : Z) (c : pcb_t) (mm : msg_t) : msg_t :=
  set_w2 (status c) (set_w1 (ppid c) (set_w0 (pid c) (set_type VANISH (set_req this cpu mm)))).
Definition back_msg (cpu this : Z) (t : tcb_t) (mm : msg_t) : msg_t := set_w0 (ori_cpu t) (set_type VANISH_BACK (set_req this cpu mm)).

(** The task after one of its threads has left. *)
Definition one_less (kill : bool) (c : pcb_t) : pcb_t :=
  let c' := set_cur_thr_num (cur_thr_num c - 1) c in
  if (cur_thr_num c =? 1) && kill then set_status (-2) c' else c'.

Lemma rd_pcb_sys (s : sys S) p c : pcbs (mem (ker s)) !! p = Some c -> on_ker (rd_pcb p) s = Ok (c, s).
Proof. intros E. rewrite (on_ker_ok (S := S) _ _ _ _ (Exec.rd_pcb_run (ker s) p c E)). by destruct s. Qed.
Lemma rd_tcb_sys (s : sys S) p t : tcbs (mem (ker s)) !! p = Some t -> on_ker (rd_tcb p) s = Ok (t, s).
Proof. intros E. rewrite (on_ker_ok (S := S) _ _ _ _ (ContextSwitch.rd_tcb_run (ker s) p t E)). by destruct s. Qed.

Definition upd_pcbs (f : gmap Z pcb_t) (s : sys S) : sys S := with_ker (with_mem (with_pcbs f (mem (ker s))) (ker s)) s.

Lemma upd_pcb_sys (s : sys S) p c f : pcbs (mem (ker s)) !! p = Some c -> on_ker (upd_pcb p f) s = Ok (tt, upd_pcbs (<[p := f c]> (pcbs (mem (ker s)))) s).
Proof. intros E. by rewrite (on_ker_ok (S := S) _ _ _ _ (Exec.upd_pcb_run (ker s) p c f E)). Qed.

Lemma vanish_back_run s cpu this q t c mm sp ch : running s cpu this q t c mm sp ch ->
  exists n s', vanish_back clone_pd free_entire_space cpu this s = Ok (n, s') /\ requested s s' cpu this q t (back_msg cpu this t mm) ch n.
Proof.
  intros Hrun. unfold vanish_back. rewrite (bind_ok _ _ _ _ _ (rd_tcb_sys s this t (ru_tcb _ _ _ _ _ _ _ _ _ Hrun))). by apply (request_run s cpu this q t c mm sp ch).
Qed.

(** The thread moves to the init task and its address space. *)
Lemma running_adopted s cpu this q t c mm sp ch it i spi : running s cpu this q t c mm sp ch -> pcbs (mem (ker s)) !! it = Some i ->
  spaces s !! page_table_base i = Some spi -> wf spi ->
  let k1 := with_mem (with_tcbs (<[this := set_pcb it t]> (tcbs (mem (ker s)))) (mem (ker s))) (ker s) in
  let k2 := with_cr3 (fupd (cr3 k1) cpu (page_table_base i)) k1 in
  forall pb, pb !! it = Some i -> running (upd_pcbs pb (with_ker k2 s)) cpu this q (set_pcb it t) i mm spi ch.
Proof.
  intros [[Q C N R I Sp] Ht Hi Hc Hm Hn Hm0 Hr Hcpu Hsp Hw] Hit Hspi Hwi k1 k2 pb Hpb.
  assert (Hnb : state t <> BLOCKED) by (destruct (R this ltac:(set_solver)) as (_ & t' & Ht' & Hs); congruence).
  assert (Hrd : forall x, ContextSwitch.ready (ker s) x -> ContextSwitch.ready k1 x) by (intros x; apply ContextSwitch.ready_upd; [done|by left]).
  split; try done.
  - split; try done; simpl; [intros x Hx; apply Hrd, R, Hx|apply Hrd, I].
  - apply lookup_insert_eq.
  - simpl. by rewrite fupd_eq.
Qed.

(** vanish up to the first suspension.  The thread runs on borrowed memory, that
    of the init task, and its task has one thread less.  Only the last thread
    of a task reports the task's exit status, which is -2 when the kernel killed
    it; every other one goes straight to the core that owns its stack. *)
Theorem vanish_correct s cpu this q t c mm sp ch i spi kill :
  let it := init_task s in
  running s cpu this q t c mm sp ch -> pcb t <> 0 -> it <> pcb t -> pcbs (mem (ker s)) !! it = Some i ->
  spaces s !! page_table_base i = Some spi -> wf spi -> 1 <= cur_thr_num c < 2 ^ 31 ->
  exists n s', vanish_syscall_handler clone_pd free_entire_space cpu this kill s = Ok ((if cur_thr_num c =? 1 then Some (pcb t) else None, n), s') /\
    tcbs (mem (ker s')) = <[this := set_pcb it t]> (tcbs (mem (ker s))) /\ cr3 (ker s') cpu = page_table_base i /\
    pcbs (mem (ker s')) = <[pcb t := one_less kill c]> (pcbs (mem (ker s))) /\
    Message.msgs (net (mem (ker s'))) =
      <[my_msg t := if cur_thr_num c =? 1 then vanish_msg cpu this (one_less kill c) mm else back_msg cpu this t mm]> (Message.msgs (net (mem (ker s)))) /\
    Message.net_rep (net (mem (ker s'))) (ChanSpec.send_manager ch cpu (my_msg t)).
Proof.
  intros it Hrun Hp0 Hne Hi Hspi Hwi Hn. unfold vanish_syscall_handler. pose proof (ru_tcb _ _ _ _ _ _ _ _ _ Hrun) as Ht. pose proof (ru_pcb _ _ _ _ _ _ _ _ _ Hrun) as Hc.
  rewrite (bind_ok _ _ _ _ _ (rd_tcb_sys s this t Ht)), (proj2 (Z.eqb_neq _ _) Hp0), (bind_ok get _ s s s eq_refl). fold it.
  rewrite (bind_ok _ _ _ _ _ (on_ker_ok _ s _ _ (ContextSwitch.upd_tcb_run (ker s) this t (set_pcb it) Ht))). set (k1 := with_mem _ (ker s)).
  rewrite (bind_ok _ _ _ _ _ (rd_pcb_sys (with_ker k1 s) it i Hi)).
  set (k2 := with_cr3 (fupd (cr3 k1) cpu (page_table_base i)) k1). rewrite (bind_ok _ _ (with_ker k1 s) tt (with_ker k2 s)) by done.
  rewrite (bind_ok _ _ _ _ _ (rd_pcb_sys (with_ker k2 s) (pcb t) c Hc)), s32_small by lia.
  rewrite (bind_ok _ _ _ _ _ (upd_pcb_sys (with_ker k2 s) (pcb t) c _ Hc)). set (c1 := set_cur_thr_num (cur_thr_num c - 1) c). set (s3 := upd_pcbs _ _).
  pose proof (running_adopted s cpu this q t c mm sp ch it i spi Hrun Hi Hspi Hwi) as Hrun'. cbv zeta in Hrun'. fold k1 k2 in Hrun'. unfold one_less. fold c1.
  destruct (Z.eqb_spec (cur_thr_num c) 1) as [H1|H1]; cbn [andb].
  - rewrite (proj2 (Z.eqb_eq (cur_thr_num c - 1) 0)) by lia. set (c2 := if kill then set_status (-2) c1 else c1).
    set (s4 := upd_pcbs (<[pcb t := c2]> (pcbs (mem (ker s)))) (with_ker k2 s)).
    rewrite (bind_ok _ _ s3 tt s4); cycle 1.
    { unfold s4, c2. destruct kill; [|done]. rewrite (upd_pcb_sys s3 (pcb t) c1); [|apply lookup_insert_eq]. simpl. by rewrite insert_insert_eq. }
    rewrite (bind_ok _ _ _ _ _ (rd_pcb_sys s4 (pcb t) c2 ltac:(simpl; apply lookup_insert_eq))).
    destruct (request_run s4 cpu this q (set_pcb it t) i mm spi ch VANISH (fun m => set_w2 (status c2) (set_w1 (ppid c2) (set_w0 (pid c2) m)))) as (n & s5 & R & [_ Q2 Q3 Q4 Q5 Q6 _ _ _]); [|done|].
    { apply Hrun'. by rewrite lookup_insert_ne. }
    rewrite (bind_ok _ _ _ _ _ R). exists n, s5. split; [done|]. rewrite Q2, Q3, Q5, Q6. split; [done|]. split; [apply fupd_eq|]. by split.
  - rewrite (proj2 (Z.eqb_neq (cur_thr_num c - 1) 0)) by lia. 
    destruct (vanish_back_run s3 cpu this q (set_pcb it t) i mm spi ch) as (n & s5 & R & [_ Q2 Q3 Q4 Q5 Q6 _ _ _]); [apply Hrun'; by rewrite lookup_insert_ne|].
    rewrite (bind_ok _ _ _ _ _ R). exists n, s5. split; [done|]. rewrite Q2, Q3, Q5, Q6. split; [done|]. split; [apply fupd_eq|]. by split.
Qed.

(** The end of vanish, on the core that owns the thread's stack: the thread is
    the last of that core's zombies, it is blocked, so that it is never run
    again, and the core runs another thread.  ([reap_zombie] of ContextSwitch.v
    frees it.) *)
Theorem vanish_end_correct (s : sys S) cpu this q t zs :
  ContextSwitch.core_ok (ker s) cpu this q -> 0 <= this -> tcbs (mem (ker s)) !! this = Some t -> state t = NORMAL -> this <> idle_thr (ker s) cpu ->
  zombie_lists (ker s) !! cpu = Some zs -> zombie_list_locks (ker s) !! cpu = Some ContextSwitch.free_mutex ->
  exists n q' s', vanish_end clone_pd free_entire_space cpu this s = Ok (n, s') /\ ContextSwitch.core_ok (ker s') cpu n q' /\ n <> this /\
    zombie_lists (ker s') !! cpu = Some (zs ++ [this]) /\ zombie_list_locks (ker s') !! cpu = Some ContextSwitch.free_mutex /\
    tcbs (mem (ker s')) = <[this := set_state BLOCKED t]> (tcbs (mem (ker s))).
Proof.
  intros Hok H0 Ht Hst Hi Hz Hl. unfold vanish_end. set (k1 := with_zombie_list_locks (<[cpu := Mutex.mk_mutex this []]> (zombie_list_locks (ker s))) (ker s)).
  rewrite (bind_ok _ _ s tt (with_ker k1 s)) by (apply on_ker_ok; unfold lock_zombies; by rewrite Hl).
  set (k2 := with_zombie_lists (<[cpu := zs ++ [this]]> (zombie_lists k1)) k1).
  rewrite (bind_ok _ _ (with_ker k1 s) 0 (with_ker k2 s)).
  2:{ apply (on_ker_ok _ (with_ker k1 s)). unfold ContextSwitch.put_next_zombie. rewrite (bind_ok get _ k1 k1 k1 eq_refl). change (zombie_lists k1) with (zombie_lists (ker s)).
      rewrite Hz. by erewrite (bind_ok (deref _)) by reflexivity. }
  assert (Hl2 : zombie_list_locks k2 !! cpu = Some (Mutex.mk_mutex this [])) by apply lookup_insert_eq.
  rewrite (bind_ok _ _ _ _ _ (on_ker_ok _ (with_ker k2 s) _ _ (ContextSwitch.unlock_run zombie_list_locks with_zombie_list_locks cpu this k2 H0 Hl2))). set (k3 := with_zombie_list_locks _ k2).
  assert (Hok3 : ContextSwitch.core_ok k3 cpu this q) by (destruct Hok; by split).
  pose proof (ContextSwitch.block_run clone_pd free_entire_space k3 cpu this q t Hok3 Ht Hst (fun _ => Hi) Hi) as Hb.
  assert (Hfin : forall n q', n <> this -> (exists k', ContextSwitch.asm_context_switch clone_pd free_entire_space cpu OP_BLOCK 0 this k3 = Ok (inl n, k') /\
      ContextSwitch.core_ok k' cpu n q' /\ tcbs (mem k') = <[this := set_state BLOCKED t]> (tcbs (mem k3)) /\ ContextSwitch.same_sys k3 k') ->
    exists n q' s', (n ← switch clone_pd free_entire_space cpu OP_BLOCK 0 this; if n =? this then panic else mret n) (with_ker k3 s) = Ok (n, s') /\ ContextSwitch.core_ok (ker s') cpu n q' /\
      n <> this /\ zombie_lists (ker s') !! cpu = Some (zs ++ [this]) /\ zombie_list_locks (ker s') !! cpu = Some ContextSwitch.free_mutex /\
      tcbs (mem (ker s')) = <[this := set_state BLOCKED t]> (tcbs (mem (ker s)))).
  { intros n q' Hn (k' & R & Hok' & Htc & [_ _ _ (S4 & S5 & _) _ _]). exists n, q', (with_ker k' s).
    rewrite (bind_ok _ _ _ _ _ (on_ker_ok _ (with_ker k3 s) _ _ (ThrMgmt.switch_ok clone_pd free_entire_space _ _ _ _ _ _ _ R))).
    rewrite (proj2 (Z.eqb_neq n this) Hn). split; [done|]. split; [done|]. split; [done|]. simpl. rewrite S4, S5. split; [apply lookup_insert_eq|]. by split; [apply lookup_insert_eq|]. }
  pose proof (ContextSwitch.co_nodup _ _ _ _ Hok) as N. apply list.NoDup_cons in N as [Nc _].
  destruct q as [|p q]; apply (Hfin _ _) in Hb; [done|by intros Hx; apply Hi|done|]. intros ->. set_solver.
Qed.

(** ** readfile *)

Context (TOC : list toc_entry).

Lemma dot_fold l : forall n acc, foldl (fun n e => n + (Loader.strlen (execname e) + 1)) n l = n + Z.of_nat (length (foldl (fun l e => l ++ execname e ++ [0]) acc l)) - Z.of_nat (length acc).
Proof.
  induction l as [|e l IH]; intros n acc; simpl; [lia|]. rewrite (IH _ (acc ++ execname e ++ [0])), !length_app. simpl. unfold Loader.strlen. lia.
Qed.

(** The buffer of the file "." has exactly the length of its text. *)
Lemma dot_length_ok : dot_length TOC = Z.of_nat (length (dot_bytes TOC)).
Proof. unfold dot_length, dot_bytes. rewrite (dot_fold TOC 1 []), length_app. simpl. lia. Qed.

Lemma dot_is_bytes : Forall (fun e => Loader.is_string (execname e) /\ Forall is_byte (execbytes e)) TOC -> Forall is_byte (dot_bytes TOC).
Proof.
  intros Ht. unfold dot_bytes. apply Forall_app. split; [|by repeat constructor].
  assert (Hacc : forall l acc, Forall (fun e => Loader.is_string (execname e) /\ Forall is_byte (execbytes e)) l -> Forall is_byte acc ->
    Forall is_byte (foldl (fun l e => l ++ execname e ++ [0]) acc l)); [|by apply Hacc].
  induction l as [|e l IH]; intros acc Hl Hacc; [done|]. apply Forall_cons_iff in Hl as [[He _] Hl]. apply IH; [done|].
  rewrite !Forall_app. split; [done|]. split; [|by repeat constructor]. eapply list.Forall_impl; [exact He|]. simpl. unfold is_byte. lia.
Qed.

(** A readable string of any length. *)
Definition name_at (sp : S) (a : Z) (name : list Z) : Prop :=
  Loader.is_string name /\ Loader.string_at (byte_at sp) a name /\ forall i, 0 <= i <= Loader.strlen name -> mapped sp (a + i) = true.

Lemma str_eq_ok l : forall sp a name, Loader.is_string l -> name_at sp a name -> str_eq a l sp = Ok (bool_decide (name = l), sp).
Proof.
  induction l as [|c l IH]; intros sp a name Hl (Hn & Hs & Hm).
  - assert (Ha : mapped sp a = true) by (rewrite <- (Z.add_0_r a); apply Hm; unfold Loader.strlen; lia).
    cbn [str_eq]. rewrite (bind_ok _ _ _ _ _ (peek_ok sp a Ha)). unfold mret, M_ret. do 2 f_equal. pose proof (Hs O) as H0. rewrite Z.add_0_r in H0.
    destruct name as [|b name]; simpl in H0; rewrite (H0 _ eq_refl); [done|]. apply Forall_cons_iff in Hn as [Hb _]. case_bool_decide; [done|]. apply Z.eqb_neq. lia.
  - apply Forall_cons_iff in Hl as [Hc Hl]. assert (Ha : mapped sp a = true) by (rewrite <- (Z.add_0_r a); apply Hm; unfold Loader.strlen; lia).
    cbn [str_eq]. rewrite (bind_ok _ _ _ _ _ (peek_ok sp a Ha)). pose proof (Hs O) as H0. rewrite Z.add_0_r in H0.
    destruct name as [|b name]; simpl in H0; rewrite (H0 _ eq_refl).
    { rewrite (proj2 (Z.eqb_neq 0 c)) by lia. case_bool_decide; done. }
    destruct (Z.eqb_spec b c) as [->|Hne]; [|unfold mret, M_ret; do 2 f_equal; case_bool_decide; congruence].
    apply Forall_cons_iff in Hn as [_ Hn]. rewrite (IH sp (a + 1) name Hl).
    + do 2 f_equal. repeat case_bool_decide; congruence.
    + split; [done|]. split.
      * intros i x Hi. replace (a + 1 + Z.of_nat i) with (a + Z.of_nat (Datatypes.S i)) by lia. by apply Hs.
      * intros i Hi. replace (a + 1 + i) with (a + (i + 1)) by lia. apply Hm. unfold Loader.strlen in *. simpl. lia.
Qed.

Lemma find_file_ok l : forall sp a name, Forall (fun e => Loader.is_string (execname e)) l -> name_at sp a name ->
  find_file a l sp = Ok (Loader.entry_of l name, sp).
Proof.
  induction l as [|e l IH]; intros sp a name Hl Hn; [done|]. apply Forall_cons_iff in Hl as [He Hl]. cbn [find_file].
  rewrite (bind_ok _ _ _ _ _ (str_eq_ok _ sp a name He Hn)). unfold Loader.entry_of. cbn [List.find]. case_bool_decide; [done|]. by apply IH.
Qed.

(** The text of a file, also of the file ".". *)
Definition file_bytes (name : list Z) : option (list Z) :=
  if bool_decide (name = [46]) then Some (dot_bytes TOC) else execbytes <$> Loader.entry_of TOC name.

Lemma copy_file_ok s cpu sp buf count offset l : spaces s !! cr3 (ker s) cpu = Some sp -> wf sp -> Forall is_byte l -> 0 <= count -> 0 <= offset -> offset + count < 2 ^ 31 ->
  (forall x, buf <= x < buf + count -> backed sp x = true) ->
  if Z.of_nat (length l) <? offset then copy_file cpu buf count offset (Z.of_nat (length l)) l s = Ok (-1, s) else
  exists s' sp', copy_file cpu buf count offset (Z.of_nat (length l)) l s = Ok (Z.min count (Z.of_nat (length l) - offset), s') /\
    spaces s' !! cr3 (ker s) cpu = Some sp' /\ ker s' = ker s /\
    forall x, byte_at sp' x = put (byte_at sp) buf (take (Z.to_nat (Z.min count (Z.of_nat (length l) - offset))) (drop (Z.to_nat offset) l)) x.
Proof.
  intros Hs Hw Hl Hc Ho Hov Hb. unfold copy_file. destruct (Z.ltb_spec (Z.of_nat (length l)) offset) as [_|Hlo]; [done|]. rewrite s32_small by lia.
  set (n := Z.min count (Z.of_nat (length l) - offset)). cbv zeta.
  replace (if Z.of_nat (length l) <? offset + count then Z.of_nat (length l) - offset else count) with n by (unfold n; destruct (Z.ltb_spec (Z.of_nat (length l)) (offset + count)); lia).
  rewrite (proj2 (Z.leb_le _ _)) by (unfold n; lia). destruct (write_bytes_ok (take (Z.to_nat n) (drop (Z.to_nat offset) l)) sp buf Hw) as (sp' & R & _ & Y).
  - by apply Forall_take, Forall_drop.
  - intros i Hi. apply Hb. rewrite length_take in Hi. unfold n in *. lia.
  - rewrite (bind_ok _ _ _ _ _ (on_space_ok _ s cpu sp _ _ Hs R)). eexists _, sp'. split; [done|]. simpl. split; [apply lookup_insert_eq|]. by split.
Qed.

(** readfile, once the buffer has been found to be writable: a name that is no
    file, or an offset behind the end, gives -1; otherwise the bytes from the
    offset on are copied, as many as were asked for and the file has, and their
    number is returned.  The file "." lists the programs. *)
Theorem readfile_correct s cpu sp sp1 filename buf count offset rv name :
  spaces s !! cr3 (ker s) cpu = Some sp -> wf sp -> kbufs s !! dot_file s = Some (dot_bytes TOC) -> dot_file_length s = dot_length TOC ->
  Forall (fun e => Loader.is_string (execname e) /\ Forall is_byte (execbytes e)) TOC ->
  0 <= buf < 2 ^ 32 -> 0 <= count -> 0 <= offset -> offset + count < 2 ^ 31 -> USER_MEM_START <= filename -> name_at sp filename name ->
  check_mem buf count false true sp = Ok (rv, sp1) -> 0 <= rv ->
  exists r s' sp', readfile_syscall_handler TOC cpu filename buf count offset s = Ok (r, s') /\ spaces s' !! cr3 (ker s) cpu = Some sp' /\
    match file_bytes name with
    | Some l => if Z.of_nat (length l) <? offset then r = -1 /\ sp' = sp1 else
        r = Z.min count (Z.of_nat (length l) - offset) /\ forall x, USER_MEM_START <= x -> byte_at sp' x = put (byte_at sp) buf (take (Z.to_nat r) (drop (Z.to_nat offset) l)) x
    | None => r = -1 /\ sp' = sp1
    end.
Proof.
  intros Hs Hw Hdot Hdl Htoc Hbuf Hc Ho Hov Hu Hn Rc Hrv. unfold readfile_syscall_handler. rewrite (proj2 (Z.ltb_ge count 0)), (proj2 (Z.ltb_ge offset 0)) by done. cbn [orb].
  pose proof (check_ok sp buf count false true Hw Hbuf ltac:(lia)) as Hck. rewrite Rc in Hck. destruct Hck as (W1 & E1 & U1 & M1 & _).
  rewrite (bind_ok _ _ _ _ _ (on_space_ok _ s cpu sp _ _ Hs Rc)), (proj2 (Z.ltb_ge rv 0)) by done. set (s1 := with_spaces _ s).
  assert (Hs1 : forall s', spaces s' = <[cr3 (ker s) cpu := sp1]> (spaces s') -> ker s' = ker s -> spaces s' !! cr3 (ker s') cpu = Some sp1) by (intros s' E ->; rewrite E; apply lookup_insert_eq).
  assert (Hn1 : name_at sp1 filename name).
  { destruct Hn as (N1 & N2 & N3), E1 as (B & Mm & _). split; [done|]. split; [intros i x Hi; rewrite B by lia; by apply N2|intros i Hi; by apply Mm, N3]. }
  assert (Hdotname : Loader.is_string [46]) by (repeat constructor; lia).
  assert (Hsp1 : spaces s1 !! cr3 (ker s1) cpu = Some sp1) by apply lookup_insert_eq.
  rewrite (bind_ok _ _ _ _ _ (on_space_ok _ s1 cpu sp1 _ _ Hsp1 (str_eq_ok [46] sp1 filename name Hdotname Hn1))). set (s2 := with_spaces _ s1).
  assert (Hsp2 : spaces s2 !! cr3 (ker s2) cpu = Some sp1) by apply lookup_insert_eq.
  assert (Hbk : forall x, buf <= x < buf + count -> backed sp1 x = true) by (intros x Hx; by apply (M1 Hrv eq_refl x Hx)).
  assert (Hfin : forall s3 l len, spaces s3 !! cr3 (ker s) cpu = Some sp1 -> ker s3 = ker s -> Forall is_byte l -> len = Z.of_nat (length l) ->
    exists r s' sp', copy_file cpu buf count offset len l s3 = Ok (r, s') /\ spaces s' !! cr3 (ker s) cpu = Some sp' /\
      if Z.of_nat (length l) <? offset then r = -1 /\ sp' = sp1 else
      r = Z.min count (Z.of_nat (length l) - offset) /\ forall x, USER_MEM_START <= x -> byte_at sp' x = put (byte_at sp) buf (take (Z.to_nat r) (drop (Z.to_nat offset) l)) x).
  { intros s3 l len H3 Hk3 Hl ->. rewrite <- Hk3 in H3. pose proof (copy_file_ok s3 cpu sp1 buf count offset l H3 W1 Hl Hc Ho Hov Hbk) as K. rewrite Hk3 in *.
    destruct (Z.of_nat (length l) <? offset); [by exists (-1), s3, sp1|]. destruct K as (s' & sp' & R & Hsp' & _ & Y). eexists _, s', sp'. split; [done|]. split; [done|]. split; [done|].
    intros x Hx. rewrite Y. unfold put. destruct (_ && _); [done|by apply E1]. }
  unfold file_bytes. case_bool_decide as Hd.
  - rewrite (bind_ok get _ s2 s2 s2 eq_refl). change (kbufs s2) with (kbufs s). change (dot_file s2) with (dot_file s). rewrite Hdot.
    erewrite (bind_ok (deref _)) by reflexivity. change (dot_file_length s2) with (dot_file_length s). rewrite Hdl.
    apply Hfin; [exact Hsp2|done|by apply dot_is_bytes|apply dot_length_ok].
  - assert (Hnames : Forall (fun e => Loader.is_string (execname e)) TOC) by (eapply list.Forall_impl; [exact Htoc|]; by intros e [? _]).
    rewrite (bind_ok _ _ _ _ _ (on_space_ok _ s2 cpu sp1 _ _ Hsp2 (find_file_ok TOC sp1 filename name Hnames Hn1))). set (s3 := with_spaces _ s2).
    assert (Hsp3 : spaces s3 !! cr3 (ker s) cpu = Some sp1) by apply lookup_insert_eq. destruct (Loader.entry_of TOC name) as [e|] eqn:Ee; simpl.
    + apply Hfin; [done|done| |done]. unfold Loader.entry_of in Ee. apply List.find_some in Ee as [Hin _]. apply list_elem_of_In in Hin.
      rewrite list.Forall_forall in Htoc. by apply Htoc.
    + by exists (-1), s3, sp1.
Qed.
End lemmas.

(** ** Thread 2 of core 1, in a flat memory

    Its message is at 100; the caller's memory is that of [Exec.demo_caller], and
    the file table has one program. *)
#[local] Existing Instances Exec.flat_check Exec.flat_check_laws.
#[local] Abbreviation tcb2 := (ContextSwitch.demo_tcb 16384 2 NORMAL).
#[local] Abbreviation pcb1 := (mk_pcb 1 0 0 0 1 []).
#[local] Abbreviation msg1 := (mk_msg 100 7 1 WAIT 5 0 0 0).
#[local] Abbreviation no_clone := ContextSwitch.no_clone.
#[local] Abbreviation no_free := ContextSwitch.no_free.

Definition demo_sys : sys flat :=
  mk_sys ContextSwitch.demo_kernel {[0 := Exec.demo_caller]} {[900 := dot_bytes [Loader.demo_file]]} 600 900 (dot_length [Loader.demo_file]).

Lemma demo_running : running demo_sys 1 24544 [32736] tcb2 pcb1 msg1 Exec.demo_caller ChanSpec.empty.
Proof.
  split.
  - exact ContextSwitch.demo_core.
  - vm_compute. reflexivity.
  - done.
  - vm_compute. reflexivity.
  - vm_compute. reflexivity.
  - done.
  - done.
  - apply Message.net_rep_answers, Message.demo_boot_rep.
  - split; vm_compute; congruence.
  - reflexivity.
  - exact Exec.demo_caller_wf.
Qed.

(** The manager's view of the console, with the buffer of the request. *)
Definition demo_print (n : Message.net) : ConsoleIO.cio (KH := unit) :=
  ConsoleIO.with_bytes {[73728 := 97; 73729 := 98]} (ConsoleIO.with_net n (ConsoleIO.demo_io ConsoleIO.no_keys)).


Lemma wait_witness :
  match wait_syscall_handler no_clone no_free 1 24544 16777280 demo_sys with
  | Ok (inr n, s') => Message.msgs (net (mem (ker s'))) !! 100 = Some (mk_msg 100 24544 1 WAIT 1 0 0 0)
  | _ => False
  end.
Proof.
  pose proof (wait_correct no_clone no_free demo_sys 1 24544 [32736] tcb2 pcb1 msg1 Exec.demo_caller ChanSpec.empty 16777280 demo_running ltac:(lia)) as K.
  assert (E : exists n, outcome (wait_syscall_handler no_clone no_free 1 24544 16777280 demo_sys) = Some (inr n)) by (eexists; vm_compute; reflexivity).
  destruct (wait_syscall_handler no_clone no_free 1 24544 16777280 demo_sys) as [[[err|n] s']| | | |]; try (destruct E as [n' E]; discriminate E).
  destruct K as (sp' & _ & _ & Hm & _). rewrite Hm. apply lookup_insert_eq.
Defined.

(** A second task, at 700, whose only thread is thread 2: it is killed. *)
Definition demo_task : sys flat :=
  let k := ContextSwitch.demo_kernel in
  with_ker (with_mem (with_tcbs (<[24544 := set_pcb 700 tcb2]> (tcbs (mem k))) (with_pcbs {[600 := pcb1; 700 := mk_pcb 2 0 1 5 1 []]} (mem k))) k) demo_sys.

Lemma demo_task_running : running demo_task 1 24544 [32736] (set_pcb 700 tcb2) (mk_pcb 2 0 1 5 1 []) msg1 Exec.demo_caller ChanSpec.empty.
Proof.
  destruct demo_running as [[Q C N R I Sp] Ht Hi Hc Hm Hn Hm0 Hr Hcpu Hsp Hw].
  assert (Hrd : forall x, ContextSwitch.ready ContextSwitch.demo_kernel x -> ContextSwitch.ready (ker demo_task) x).
  { intros x Hx. apply (ContextSwitch.ready_upd ContextSwitch.demo_kernel 24544 tcb2 (set_pcb 700)); [vm_compute; reflexivity|by left|done]. }
  split; [split; [exact Q|exact C|exact N|intros x Hx; apply Hrd, R, Hx|apply Hrd, I|exact Sp]|reflexivity|exact Hi|reflexivity|exact Hm|exact Hn|exact Hm0|exact Hr|exact Hcpu|exact Hsp|exact Hw].
Qed.

Lemma vanish_witness :
  exists n s', vanish_syscall_handler no_clone no_free 1 24544 true demo_task = Ok ((Some 700, n), s') /\
    Message.msgs (net (mem (ker s'))) !! 100 = Some (mk_msg 100 24544 1 VANISH 2 1 (-2) 0).
Proof.
  destruct (vanish_correct no_clone no_free demo_task 1 24544 [32736] (set_pcb 700 tcb2) (mk_pcb 2 0 1 5 1 []) msg1 Exec.demo_caller ChanSpec.empty pcb1 Exec.demo_caller true)
    as (n & s' & R & _ & _ & _ & Hm & _).
  - exact demo_task_running.
  - done.
  - done.
  - reflexivity.
  - reflexivity.
  - exact Exec.demo_caller_wf.
  - simpl. lia.
  - exists n, s'. split; [exact R|]. rewrite Hm. apply lookup_insert_eq.
Defined.

Lemma vanish_end_witness :
  exists n q' s', vanish_end no_clone no_free 1 24544 demo_sys = Ok (n, s') /\ ContextSwitch.core_ok (ker s') 1 n q' /\ zombie_lists (ker s') !! 1 = Some [40928; 24544].
Proof.
  destruct (vanish_end_correct no_clone no_free demo_sys 1 24544 [32736] tcb2 [40928]) as (n & q' & s' & R & Hok & _ & Hz & _).
  - exact ContextSwitch.demo_core.
  - lia.
  - vm_compute. reflexivity.
  - done.
  - done.
  - reflexivity.
  - reflexivity.
  - exists n, q', s'. split; [exact R|]. split; [exact Hok|exact Hz].
Defined.

(** Four bytes from the second on of the program "ab" are read to 16777280. *)
Lemma readfile_witness :
  exists s' sp', readfile_syscall_handler [Loader.demo_file] 1 16777216 16777280 4 1 demo_sys = Ok (4, s') /\ spaces s' !! 0 = Some sp' /\
    forall x, USER_MEM_START <= x -> byte_at sp' x = put (byte_at Exec.demo_caller) 16777280 [2; 3; 4; 5] x.
Proof.
  destruct (readfile_correct [Loader.demo_file] demo_sys 1 Exec.demo_caller Exec.demo_caller 16777216 16777280 4 1 0 Loader.demo_name) as (r & s' & sp' & R & Hsp & Hr & Y).
  - reflexivity.
  - exact Exec.demo_caller_wf.
  - reflexivity.
  - reflexivity.
  - constructor; [split; repeat constructor; unfold is_byte; lia|constructor].
  - lia.
  - lia.
  - lia.
  - lia.
  - vm_compute. discriminate.
  - split; [repeat constructor; lia|]. split.
    + intros [|[|[|i]]] b Hb; simpl in Hb; try done; injection Hb as <-; vm_compute; reflexivity.
    + intros i Hi. change (Loader.strlen Loader.demo_name) with 2 in Hi. assert (i = 0 \/ i = 1 \/ i = 2) as [->|[->| ->]] by lia; vm_compute; reflexivity.
  - reflexivity.
  - lia.
  - change (r = 4) in Hr. subst r. exists s', sp'. split; [exact R|]. split; [exact Hsp|exact Y].
Defined.
End Syscalls.
