(* ===== verification/Swexn.v ===== *)
(** * swexn (src/kern/syscall_thr_management.c)

    swexn registers, replaces or removes the software exception handler of a
    thread, and can make the thread go on with a set of registers of its own
    choosing.  [inr u]: the call does not return, the thread goes on with
    registers [u].

    The two pointers are checked with check_mem_validness; the check of the
    exception stack, for writing, may fill zero-fill pages of the caller or end in
    a panic (see VmSpace.v). *)

From S2P Require Import Prelude AddrSpace SimpleQueue ThreadState Mutex Message ControlBlock Scheduler ContextSwitch ThrMgmt SysState Loader Exec Syscalls.
From Stdlib Require Import ZArith Lia.
From stdpp Require Import base gmap list tactics numbers.

#[local] Open Scope Z_scope.

Module Swexn.
Import Scheduler Sys.

Definition EINVAL : Z := -22.
Definition ENOMEM : Z := -12.

(** The ureg at [a]. *)
Definition ureg_at (f : Z -> Z) (a : Z) : ureg_t :=
  let w i := word_of f (a + 4 * i) in
  mk_ureg (w 0) (w 1) (w 2) (w 3) (w 4) (w 5) (w 6) (w 7) (w 8) (w 9) (w 10) (w 11) (w 12) (w 13) (w 14) (w 15) (w 16) (w 17) (w 18) (w 19).

Section handler.
Context {S : Type} `{AS : AddrSpace S} `{UC : !UserCheck S}.

(** [memcpy(&newureg, user_newureg, sizeof(ureg_t))] *)
Definition load_ureg (a : Z) : M S ureg_t :=
  l ← read_bytes a (Z.to_nat ThrMgmt.sizeof_ureg); mret (ureg_at (fun i => nth (Z.to_nat i) l 0) 0).

(** The registers the user asks for: [None] when they are refused. *)
Definition fetch_newureg (cpu user_newureg : Z) : M (sys S) (option (option ureg_t)) :=
  if negb (user_newureg =? 0) then
    rv ← on_space cpu (check_mem user_newureg ThrMgmt.sizeof_ureg false false);
    if rv <? 0 then mret None else
    newureg ← on_space cpu (load_ureg user_newureg);
    if ThrMgmt.is_newureg_valid newureg then mret (Some (Some newureg)) else mret None
  else mret (Some None).

Definition deregister (this : Z) : M (sys S) Z :=
  t ← on_ker (rd_tcb this);
  (if negb (swexn_struct t =? 0) then
     on_ker (on_mem (ControlBlock.free_swexn (swexn_struct t)));; on_ker (upd_tcb this (set_swexn 0))
   else mret tt);;
  mret 0.

(** Both checks are made on [esp3]. *)
Definition register (cpu this esp3 eip arg : Z) : M (sys S) Z :=
  rv ← on_space cpu (check_mem esp3 1 false true);
  if rv <? 0 then mret EINVAL else
  rv ← on_space cpu (check_mem esp3 1 false false);
  if rv <? 0 then mret EINVAL else
  t ← on_ker (rd_tcb this);
  ok ← (if swexn_struct t =? 0 then
          p ← on_ker malloc;
          on_ker (upd_tcb this (set_swexn p));;
          mret (negb (p =? 0))
        else mret true);
  if negb ok then mret ENOMEM else
  t ← on_ker (rd_tcb this);
  on_ker (modify (fun k => with_mem (with_swexns (<[swexn_struct t := mk_swexn esp3 eip arg]> (swexns (mem k))) (mem k)) k));;
  mret 0.

Definition swexn_syscall_handler (cpu this esp3 eip arg user_newureg : Z) : M (sys S) (Z + ureg_t) :=
  u ← fetch_newureg cpu user_newureg;
  match u with
  | None => mret (inl EINVAL)
  | Some newureg =>
      rv ← (if (esp3 =? 0) || (eip =? 0) then deregister this else register cpu this esp3 eip arg);
      if rv <? 0 then mret (inl rv) else
      match newureg with
      | Some u => mret (inr u)
      | None => mret (inl 0)
      end
  end.
End handler.

Section theorem.
Context {S : Type} `{AS : AddrSpace S} `{UC : !UserCheck S} `{AL : !AddrSpaceLaws S} `{UL : !UserCheckLaws S}.

(** ** The registers *)

Lemma word_shift (f : Z -> Z) a n k : 0 <= k -> k + 4 <= Z.of_nat n ->
  word_of (fun i => nth (Z.to_nat i) (bytes_from f a n) 0) k = word_of f (a + k).
Proof.
  intros H0 Hk. assert (Hn : forall j, 0 <= j < Z.of_nat n -> nth (Z.to_nat j) (bytes_from f a n) 0 = f (a + j)).
  { intros j Hj. apply nth_lookup_Some. unfold bytes_from. rewrite list_lookup_fmap, lookup_seq_lt by lia. simpl. do 2 f_equal. lia. }
  unfold word_of. rewrite !Hn by lia. by rewrite !Z.add_assoc.
Qed.

Lemma load_ureg_run sp a : (forall x, a <= x < a + 80 -> mapped sp x = true) -> load_ureg a sp = Ok (ureg_at (byte_at sp) a, sp).
Proof.
  intros Hm. unfold load_ureg. rewrite (bind_ok _ _ _ _ _ (read_bytes_ok (Z.to_nat ThrMgmt.sizeof_ureg) sp a Hm)). unfold mret, M_ret. do 2 f_equal.
  unfold ureg_at. cbv zeta. change (Z.to_nat ThrMgmt.sizeof_ureg) with 80%nat. by rewrite !word_shift by lia.
Qed.

Lemma ureg_ext (f g : Z -> Z) a : (forall x, a <= x < a + 80 -> g x = f x) -> ureg_at g a = ureg_at f a.
Proof. intros H. unfold ureg_at, word_of. cbv zeta. rewrite !H by lia. done. Qed.

(** The address space of core [cpu] becomes [sp'], which has the bytes of the old
    one and at least its pages. *)
Definition with_space (s : sys S) (cpu : Z) (sp' : S) : sys S := with_spaces (<[cr3 (ker s) cpu := sp']> (spaces s)) s.

Lemma with_space_same s cpu sp : spaces s !! cr3 (ker s) cpu = Some sp -> with_space s cpu sp = s.
Proof. intros E. unfold with_space. rewrite insert_id by done. by destruct s. Qed.

Lemma with_space_twice s cpu sp1 sp2 : with_spaces (<[cr3 (ker s) cpu := sp2]> (spaces (with_space s cpu sp1))) (with_space s cpu sp1) = with_space s cpu sp2.
Proof. unfold with_space, with_spaces. simpl. by rewrite insert_insert_eq. Qed.

Lemma fetch_run s cpu sp newureg : spaces s !! cr3 (ker s) cpu = Some sp -> wf sp -> 0 <= newureg < 2 ^ 32 ->
  exists u sp', fetch_newureg cpu newureg s = Ok (u, with_space s cpu sp') /\ wf sp' /\ extends sp sp' /\
    match u with
    | Some (Some u) => newureg <> 0 /\ u = ureg_at (byte_at sp) newureg /\ ThrMgmt.is_newureg_valid u = true
    | Some None => newureg = 0
    | None => newureg <> 0
    end.
Proof.
  intros Hs Hw Hn. unfold fetch_newureg. destruct (Z.eqb_spec newureg 0) as [H0|H0]; cbn [negb].
  { exists (Some None), sp. rewrite with_space_same by done. split; [done|]. split; [done|]. by split; [apply Exec.extends_refl|]. }
  destruct (Exec.check_run sp newureg ThrMgmt.sizeof_ureg false Hw Hn ltac:(done)) as (rv & sp1 & R1 & W1 & E1 & U1 & M1 & _).
  rewrite (bind_ok _ _ _ _ _ (on_space_ok _ s cpu sp _ _ Hs R1)). fold (with_space s cpu sp1).
  destruct (Z.ltb_spec rv 0) as [_|Hrv]; [by exists None, sp1|].
  assert (Hs1 : spaces (with_space s cpu sp1) !! cr3 (ker s) cpu = Some sp1) by apply lookup_insert_eq.
  pose proof (load_ureg_run sp1 newureg (fun x Hx => M1 Hrv eq_refl x Hx)) as Rl. specialize (U1 Hrv).
  rewrite (ureg_ext (byte_at sp) (byte_at sp1)) in Rl by (intros x Hx; apply E1; lia).
  rewrite (bind_ok _ _ _ _ _ (on_space_ok _ (with_space s cpu sp1) cpu sp1 _ _ Hs1 Rl)).
  change (ker (with_space s cpu sp1)) with (ker s). rewrite with_space_twice.
  destruct (ThrMgmt.is_newureg_valid (ureg_at (byte_at sp) newureg)) eqn:Ev; [|by exists None, sp1].
  eexists (Some (Some _)), sp1. split; [reflexivity|]. split; [done|]. split; [done|]. by split.
Qed.

(** ** The handler *)

(** The handler of thread [this], whose control block is [t], is what the call asks
    for: none, its structure freed, when one of the pointers is NULL; else the three
    values in a structure of the thread's own, the one it had if it had one. *)
Definition handler_set (k k' : kmem) (this : Z) (t : tcb_t) (esp3 eip arg : Z) : Prop :=
  if (esp3 =? 0) || (eip =? 0) then
    tcbs k' = <[this := set_swexn 0 t]> (tcbs k) /\
    swexns k' = if swexn_struct t =? 0 then swexns k else delete (swexn_struct t) (swexns k)
  else exists p, p <> 0 /\ (swexn_struct t <> 0 -> p = swexn_struct t) /\
    tcbs k' = <[this := set_swexn p t]> (tcbs k) /\ swexns k' = <[p := mk_swexn esp3 eip arg]> (swexns k).

(** [malloc] would fail. *)
Definition no_memory (k : kmem) : Prop := match Message.answers (net k) with [] => True | p :: _ => p = 0 end.

Lemma set_swexn_id t : set_swexn (swexn_struct t) t = t.
Proof. by destruct t. Qed.

Lemma deregister_run (s : sys S) this t : tcbs (mem (ker s)) !! this = Some t -> (swexn_struct t <> 0 -> is_Some (swexns (mem (ker s)) !! swexn_struct t)) ->
  exists s', deregister this s = Ok (0, s') /\ spaces s' = spaces s /\
    tcbs (mem (ker s')) = <[this := set_swexn 0 t]> (tcbs (mem (ker s))) /\
    swexns (mem (ker s')) = if swexn_struct t =? 0 then swexns (mem (ker s)) else delete (swexn_struct t) (swexns (mem (ker s))).
Proof.
  intros Ht Hsw. unfold deregister. rewrite (bind_ok _ _ _ _ _ (Syscalls.rd_tcb_sys s this t Ht)).
  destruct (Z.eqb_spec (swexn_struct t) 0) as [H0|H0]; cbn [negb].
  - exists s. split; [done|]. split; [done|]. split; [|done]. by rewrite <- H0, set_swexn_id, insert_id.
  - destruct (Hsw H0) as [w Hw]. set (k1 := with_mem (with_swexns (delete (swexn_struct t) (swexns (mem (ker s)))) (mem (ker s))) (ker s)).
    assert (R1 : on_ker (on_mem (ControlBlock.free_swexn (swexn_struct t))) s = Ok (tt, with_ker k1 s)).
    { apply on_ker_ok. unfold on_mem. apply (zoom_ok mem with_mem). unfold ControlBlock.free_swexn. by rewrite Hw. }
    erewrite bind_ok; cycle 1.
    { rewrite (bind_ok _ _ _ _ _ R1). apply (on_ker_ok _ (with_ker k1 s)), (ContextSwitch.upd_tcb_run k1 this t), Ht. }
    eexists. by split.
Qed.

(** The structure of the handler: the thread's own, or a new one. *)
Lemma structure_run (s : sys S) this t : tcbs (mem (ker s)) !! this = Some t ->
  exists ok p s', (if swexn_struct t =? 0 then p ← on_ker malloc; on_ker (upd_tcb this (set_swexn p));; mret (negb (p =? 0)) else mret true) s = Ok (ok, s') /\
    ok = negb (p =? 0) /\ (swexn_struct t <> 0 -> p = swexn_struct t) /\ spaces s' = spaces s /\ (p = 0 -> no_memory (mem (ker s))) /\
    tcbs (mem (ker s')) = <[this := set_swexn p t]> (tcbs (mem (ker s))) /\ swexns (mem (ker s')) = swexns (mem (ker s)).
Proof.
  intros Ht. destruct (Z.eqb_spec (swexn_struct t) 0) as [H0|H0].
  - assert (Rm : exists p s1, on_ker (S := S) malloc s = Ok (p, s1) /\ spaces s1 = spaces s /\ tcbs (mem (ker s1)) = tcbs (mem (ker s)) /\ swexns (mem (ker s1)) = swexns (mem (ker s)) /\
      (p = 0 -> no_memory (mem (ker s)))).
    { unfold no_memory. destruct (Message.answers (net (mem (ker s)))) as [|p l] eqn:Ea.
      - exists 0, s. split; [|done]. rewrite (on_ker_ok (S := S) malloc s 0 (ker s)); [by destruct s|]. unfold malloc, on_mem.
        rewrite (zoom_ok mem with_mem _ _ 0 (mem (ker s))); [by destruct (ker s)|]. unfold ControlBlock.malloc, ControlBlock.on_net.
        rewrite (zoom_ok net with_net _ _ 0 (net (mem (ker s)))); [by destruct (mem (ker s))|]. unfold Message.malloc. by rewrite Ea.
      - exists p, (with_ker (with_mem (with_net (Message.with_answers l (net (mem (ker s)))) (mem (ker s))) (ker s)) s). split; [|done].
        apply on_ker_ok. unfold malloc, on_mem. apply (zoom_ok mem with_mem). unfold ControlBlock.malloc, ControlBlock.on_net. apply (zoom_ok net with_net).
        unfold Message.malloc. by rewrite Ea. }
    destruct Rm as (p & s1 & R1 & Hsp & Htc & Hsw & Hp). rewrite (bind_ok _ _ _ _ _ R1).
    assert (Ht1 : tcbs (mem (ker s1)) !! this = Some t) by (by rewrite Htc).
    rewrite (bind_ok _ _ _ _ _ (on_ker_ok _ s1 _ _ (ContextSwitch.upd_tcb_run (ker s1) this t (set_swexn p) Ht1))). eexists _, p, _. split; [done|].
    split; [done|]. split; [done|]. split; [done|]. split; [done|]. simpl. by rewrite Htc, Hsw.
  - exists true, (swexn_struct t), s. split; [done|]. rewrite (proj2 (Z.eqb_neq _ _) H0). split; [done|]. split; [done|]. split; [done|]. split; [done|]. by rewrite set_swexn_id, insert_id.
Qed.

(** What [register] may do. *)
Definition registered (s s' : sys S) (cpu this : Z) (t : tcb_t) (sp : S) (esp3 eip arg rv : Z) : Prop :=
  (exists sp', spaces s' = <[cr3 (ker s) cpu := sp']> (spaces s) /\ wf sp' /\ extends sp sp') /\
  ((rv = 0 /\ handler_set (mem (ker s)) (mem (ker s')) this t esp3 eip arg) \/
   ((rv = EINVAL \/ (rv = ENOMEM /\ swexn_struct t = 0 /\ no_memory (mem (ker s)))) /\
    tcbs (mem (ker s')) = tcbs (mem (ker s)) /\ swexns (mem (ker s')) = swexns (mem (ker s)))).

Lemma register_run (s : sys S) cpu this t sp esp3 eip arg : tcbs (mem (ker s)) !! this = Some t -> spaces s !! cr3 (ker s) cpu = Some sp -> wf sp -> 0 <= esp3 < 2 ^ 32 ->
  (esp3 =? 0) || (eip =? 0) = false ->
  match register cpu this esp3 eip arg s with
  | Ok (rv, s') => registered s s' cpu this t sp esp3 eip arg rv
  | Panic => True
  | _ => False
  end.
Proof.
  intros Ht Hs Hw He H0. unfold register. pose proof (check_ok sp esp3 1 false true Hw He ltac:(lia)) as Hc.
  destruct (check_mem esp3 1 false true sp) as [[rv sp1]| | | |] eqn:R1; try done; [|unfold on_space, mbind, M_bind; by rewrite Hs, R1].
  destruct Hc as (W1 & E1 & _). rewrite (bind_ok _ _ _ _ _ (on_space_ok _ s cpu sp _ _ Hs R1)). fold (with_space s cpu sp1).
  assert (Hfail : forall sp', wf sp' -> extends sp sp' -> registered s (with_space s cpu sp') cpu this t sp esp3 eip arg EINVAL).
  { intros sp' W E. split; [by exists sp'|]. right. split; [by left|done]. }
  destruct (rv <? 0); [by apply Hfail|].
  assert (Hs1 : spaces (with_space s cpu sp1) !! cr3 (ker s) cpu = Some sp1) by apply lookup_insert_eq.
  destruct (Exec.check_run sp1 esp3 1 false W1 He ltac:(done)) as (rv2 & sp2 & R2 & W2 & E2 & _).
  rewrite (bind_ok _ _ _ _ _ (on_space_ok _ (with_space s cpu sp1) cpu sp1 _ _ Hs1 R2)). change (ker (with_space s cpu sp1)) with (ker s). rewrite with_space_twice.
  pose proof (Exec.extends_trans _ _ _ E1 E2) as E12. destruct (rv2 <? 0); [by apply Hfail|]. set (s2 := with_space s cpu sp2).
  rewrite (bind_ok _ _ _ _ _ (Syscalls.rd_tcb_sys s2 this t Ht)).
  destruct (structure_run s2 this t Ht) as (ok & p & s3 & R3 & -> & Hp & Hsp3 & Hnm & Htc3 & Hsw3). rewrite (bind_ok _ _ _ _ _ R3).
  assert (Hsp : exists sp', spaces s3 = <[cr3 (ker s) cpu := sp']> (spaces s) /\ wf sp' /\ extends sp sp') by (exists sp2; by rewrite Hsp3).
  destruct (Z.eqb_spec p 0) as [Hp0|Hp0]; cbn [negb].
  - assert (Hsz : swexn_struct t = 0) by (destruct (Z.eq_dec (swexn_struct t) 0) as [|Hne]; [done|]; specialize (Hp Hne); lia).
    split; [done|]. right. split; [right; split; [done|]; split; [done|exact (Hnm Hp0)]|]. split; [|exact Hsw3]. rewrite Htc3, Hp0, <- Hsz, set_swexn_id. by apply insert_id.
  - assert (Ht3 : tcbs (mem (ker s3)) !! this = Some (set_swexn p t)) by (rewrite Htc3; apply lookup_insert_eq).
    rewrite (bind_ok _ _ _ _ _ (Syscalls.rd_tcb_sys s3 this _ Ht3)). erewrite bind_ok by reflexivity. split; [done|]. left. split; [done|].
    unfold handler_set. rewrite H0. exists p. split; [done|]. split; [done|]. split; [exact Htc3|]. simpl. by rewrite Hsw3.
Qed.


(** The instruction pointer of a handler is never checked: whatever [eip] is, the
    handler is registered once the exception stack is valid (the check that is
    meant for [eip] is made on [esp3] again). *)
Theorem swexn_accepts_any_eip (s : sys S) cpu this t sp esp3 eip arg :
  tcbs (mem (ker s)) !! this = Some t -> swexn_struct t <> 0 -> spaces s !! cr3 (ker s) cpu = Some sp ->
  esp3 <> 0 -> eip <> 0 -> (forall b, check_mem esp3 1 false b sp = Ok (0, sp)) ->
  exists s', swexn_syscall_handler cpu this esp3 eip arg 0 s = Ok (inl 0, s') /\ swexns (mem (ker s')) !! swexn_struct t = Some (mk_swexn esp3 eip arg).
Proof.
  intros Ht Hp0 Hs He Hi Hc. unfold swexn_syscall_handler. rewrite (bind_ok (fetch_newureg cpu 0) _ s (Some None) s eq_refl).
  rewrite (proj2 (Z.eqb_neq esp3 0)), (proj2 (Z.eqb_neq eip 0)) by done. cbn [orb]. unfold register.
  assert (Hss : forall b, on_space cpu (check_mem esp3 1 false b) s = Ok (0, s)).
  { intros b. rewrite (on_space_ok _ s cpu sp _ _ Hs (Hc b)). fold (with_space s cpu sp). by rewrite with_space_same. }
  eexists. split.
  - erewrite bind_ok; cycle 1.
    { rewrite (bind_ok _ _ _ _ _ (Hss true)). cbn [Z.ltb Z.compare]. rewrite (bind_ok _ _ _ _ _ (Hss false)). cbn [Z.ltb Z.compare].
      rewrite (bind_ok _ _ _ _ _ (Syscalls.rd_tcb_sys s this t Ht)), (proj2 (Z.eqb_neq _ _) Hp0). rewrite (bind_ok (mret true) _ s true s eq_refl). cbn [negb].
      rewrite (bind_ok _ _ _ _ _ (Syscalls.rd_tcb_sys s this t Ht)). erewrite bind_ok by reflexivity. reflexivity. }
    reflexivity.
  - simpl. apply lookup_insert_eq.
Qed.
End theorem.

(** ** Thread 2 of core 1 registers a handler and goes on with new registers

    The registers are at 16777216; the exception stack ends at 16777400. *)
#[local] Existing Instances Exec.flat_check Exec.flat_check_laws.
#[local] Abbreviation tcb2 := (ContextSwitch.demo_tcb 16384 2 NORMAL).

Definition demo_words : list Z := [0; 0; 43; 43; 43; 43; 1; 2; 16780000; 0; 3; 4; 5; 6; 0; 16777216; 35; 514; 16780000; 43].
Definition demo_caller : flat :=
  mk_flat (fun p => p =? 4096) (fun _ => false) (put (fun _ => 0) 16777216 (demo_words ≫= word_bytes)) 100.
Definition demo_swexn (answers : list Z) : sys flat :=
  let k := ContextSwitch.demo_kernel in
  mk_sys (with_mem (with_net (Message.with_answers answers (net (mem k))) (mem k)) k) {[0 := demo_caller]} ∅ 600 0 0.

Lemma demo_swexn_wf : wf demo_caller.
Proof.
  assert (HF : Forall is_byte (demo_words ≫= word_bytes)) by (repeat constructor; vm_compute; congruence).
  intros x. change (is_byte (put (fun _ => 0) 16777216 (demo_words ≫= word_bytes) x)). unfold put. destruct (_ && _); [|done].
  destruct (nth_in_or_default (Z.to_nat (x - 16777216)) (demo_words ≫= word_bytes) 0) as [Hin| ->]; [|done].
  rewrite List.Forall_forall in HF. by apply HF.
Qed.

End Swexn.
