(* ===== verification/Timer.v ===== *)
(** * The timers (timer_driver.c)

    The PIC timer is programmed for an interrupt every 10 ms.  It is used once,
    on core 0: the first interrupt after paging is on starts core 0's local APIC
    timer with the largest count, the tenth interrupt after that one reads how
    far it has counted, stores a tenth of it as the count of every core's APIC
    timer and switches the PIC timer off.

    The static variables of the driver are a record, with the array of pointers
    [apic_num_ticks] as a map in which a missing entry is NULL.  The I/O ports
    are the list of the bytes written to them, newest first.  The local APIC of
    each core is a record of the four registers the driver uses; what the
    device does by itself is [clock], one cycle of the divided bus clock: it
    counts down while its initial count is not 0, and when it reaches 0 it raises
    an interrupt unless it is masked and, in periodic mode, starts again.  That
    is what the processor's manual documents; 410kern's lapic_read and
    lapic_write are loads and stores of these registers. *)

From Stdlib Require Import ZArith Lia.
From stdpp Require Import base gmap list tactics numbers.
From S2P Require Import Prelude.

Module Timer.

Definition TIMER_RATE : Z := 1193182.
Definition FREQ : Z := 100.
Definition TIMER_PERIOD_IO_PORT : Z := 64.
Definition TIMER_MODE_IO_PORT : Z := 67.
Definition TIMER_SQUARE_WAVE : Z := 54.
Definition TIMER_ONE_SHOT : Z := 48.
Definition INT_CTL_PORT : Z := 32.
Definition INT_ACK_CURRENT : Z := 32.
Definition LAPIC_LVT_TIMER : Z := 800.
Definition LAPIC_TIMER_INIT : Z := 896.
Definition LAPIC_TIMER_CUR : Z := 912.
Definition LAPIC_TIMER_DIV : Z := 992.
Definition LAPIC_X1 : Z := 11.
Definition LAPIC_IMASK : Z := 65536.
Definition LAPIC_PERIODIC : Z := 131072.
Definition APIC_TIMER_IDT_ENTRY : Z := 34.

(** ** The local APIC timer of a core *)

Record lapic := mk_lapic { lvt : Z; init_count : Z; cur_count : Z; div_conf : Z }.

(** The divider that a value of the divide configuration register selects. *)
Definition divisor (d : Z) : Z :=
  match d with
  | 0 => 2 | 1 => 4 | 2 => 8 | 3 => 16 | 8 => 32 | 9 => 64 | 10 => 128 | _ => 1
  end.

Definition read_reg (reg : Z) (l : lapic) : option Z :=
  if reg =? LAPIC_LVT_TIMER then Some (lvt l)
  else if reg =? LAPIC_TIMER_INIT then Some (init_count l)
  else if reg =? LAPIC_TIMER_CUR then Some (cur_count l)
  else if reg =? LAPIC_TIMER_DIV then Some (div_conf l)
  else None.

(** A store to the initial count restarts the counter. *)
Definition write_reg (reg data : Z) (l : lapic) : option lapic :=
  if reg =? LAPIC_LVT_TIMER then Some (mk_lapic data (init_count l) (cur_count l) (div_conf l))
  else if reg =? LAPIC_TIMER_INIT then Some (mk_lapic (lvt l) data data (div_conf l))
  else if reg =? LAPIC_TIMER_DIV then Some (mk_lapic (lvt l) (init_count l) (cur_count l) data)
  else None.

Definition periodic (l : lapic) : bool := negb (Z.land (lvt l) LAPIC_PERIODIC =? 0).
Definition masked (l : lapic) : bool := negb (Z.land (lvt l) LAPIC_IMASK =? 0).
Definition vector (l : lapic) : Z := Z.land (lvt l) 255.

(** One cycle of the divided clock, and the interrupts it raises. *)
Definition clock (l : lapic) : list Z * lapic :=
  if (init_count l =? 0) || (cur_count l =? 0) then ([], l)
  else if cur_count l =? 1 then
    (if masked l then [] else [vector l],
     mk_lapic (lvt l) (init_count l) (if periodic l then init_count l else 0) (div_conf l))
  else ([], mk_lapic (lvt l) (init_count l) (cur_count l - 1) (div_conf l)).

Fixpoint clocks (n : nat) (l : lapic) : list Z * lapic :=
  match n with
  | O => ([], l)
  | S n => let '(i, l1) := clock l in let '(j, l2) := clocks n l1 in (i ++ j, l2)
  end.

(** [n] cycles of the bus clock. *)
Definition elapse (n : Z) (l : lapic) : list Z * lapic := clocks (Z.to_nat (n / divisor (div_conf l))) l.

(** ** The driver *)

Record timer := mk_timer {
  numTicks : Z; start_numTicks : Z; lapic_timer_init : Z;
  apic_num_ticks : gmap Z Z; lapics : gmap Z lapic; ports : list (Z * Z);
  finished_init_vm : Z; finished_cal_apic_timer : Z }.

Definition set_numTicks x t := mk_timer x (start_numTicks t) (lapic_timer_init t) (apic_num_ticks t) (lapics t) (ports t) (finished_init_vm t) (finished_cal_apic_timer t).
Definition set_start x t := mk_timer (numTicks t) x (lapic_timer_init t) (apic_num_ticks t) (lapics t) (ports t) (finished_init_vm t) (finished_cal_apic_timer t).
Definition set_timer_init x t := mk_timer (numTicks t) (start_numTicks t) x (apic_num_ticks t) (lapics t) (ports t) (finished_init_vm t) (finished_cal_apic_timer t).
Definition set_apic_ticks x t := mk_timer (numTicks t) (start_numTicks t) (lapic_timer_init t) x (lapics t) (ports t) (finished_init_vm t) (finished_cal_apic_timer t).
Definition set_lapics x t := mk_timer (numTicks t) (start_numTicks t) (lapic_timer_init t) (apic_num_ticks t) x (ports t) (finished_init_vm t) (finished_cal_apic_timer t).
Definition set_ports x t := mk_timer (numTicks t) (start_numTicks t) (lapic_timer_init t) (apic_num_ticks t) (lapics t) x (finished_init_vm t) (finished_cal_apic_timer t).
Definition set_calibrated x t := mk_timer (numTicks t) (start_numTicks t) (lapic_timer_init t) (apic_num_ticks t) (lapics t) (ports t) (finished_init_vm t) x.

Definition outb (port data : Z) : M timer unit := modify (fun t => set_ports ((port, data) :: ports t) t).

Definition lapic_read (cpu reg : Z) : M timer Z :=
  t ← get;
  l ← deref (lapics t !! cpu);
  deref (read_reg reg l).

Definition lapic_write (cpu reg data : Z) : M timer unit :=
  t ← get;
  l ← deref (lapics t !! cpu);
  l' ← deref (write_reg reg data l);
  modify (fun t => set_lapics (<[cpu := l']> (lapics t)) t).

Definition init_timer_driver : M timer unit :=
  let interrupt_rate := (TIMER_RATE / FREQ) mod 2 ^ 16 in
  outb TIMER_MODE_IO_PORT TIMER_SQUARE_WAVE;;
  outb TIMER_PERIOD_IO_PORT (interrupt_rate mod 2 ^ 8);;
  outb TIMER_PERIOD_IO_PORT (Z.shiftr interrupt_rate 8 mod 2 ^ 8);;
  modify (set_numTicks 0).

(** [p] is the address that [malloc] gives. *)
Definition init_lapic_timer_driver (cur_cpu p : Z) : M timer unit :=
  if p =? 0 then panic else
  modify (fun t => set_apic_ticks (<[cur_cpu := 0]> (apic_num_ticks t)) t);;
  lapic_lvt_timer ← lapic_read cur_cpu LAPIC_LVT_TIMER;
  init ← gets lapic_timer_init;
  lapic_write cur_cpu LAPIC_TIMER_INIT init;;
  lapic_write cur_cpu LAPIC_TIMER_DIV LAPIC_X1;;
  let lapic_lvt_timer := Z.lor lapic_lvt_timer LAPIC_PERIODIC in
  let lapic_lvt_timer := Z.land lapic_lvt_timer (2 ^ 32 - 1 - LAPIC_IMASK) in
  let lapic_lvt_timer := Z.lor lapic_lvt_timer APIC_TIMER_IDT_ENTRY in
  lapic_write cur_cpu LAPIC_LVT_TIMER lapic_lvt_timer.

(** The end of the calibration, on the tenth interrupt after the first. *)
Definition calibrate : M timer unit :=
  lapic_timer_cur ← lapic_read 0 LAPIC_TIMER_CUR;
  lapic_write 0 LAPIC_TIMER_INIT 0;;
  modify (fun t => set_apic_ticks (delete 0 (apic_num_ticks t)) t);;
  let diff := w32 (2 ^ 32 - 1 - lapic_timer_cur) in
  modify (set_timer_init (diff / 10));;
  outb TIMER_MODE_IO_PORT TIMER_ONE_SHOT;;
  modify (set_calibrated 1).

(** The handler runs on core 0, to which the PIC is wired. *)
Definition pic_timer_interrupt_handler (p : Z) : M timer unit :=
  modify (fun t => set_numTicks (w32 (numTicks t + 1)) t);;
  t ← get;
  (if finished_init_vm t =? 0 then mret tt
   else if start_numTicks t =? 0 then
     modify (fun t => set_start (numTicks t) t);;
     init_lapic_timer_driver 0 p
   else if numTicks t =? w32 (start_numTicks t + 10) then calibrate
   else mret tt);;
  outb INT_CTL_PORT INT_ACK_CURRENT.

(** The count of [apic_timer_interrupt_handler]; the rest of the handler is in
    ThrMgmt.v. *)
Definition apic_timer_count (cpu : Z) : M timer unit :=
  t ← get;
  n ← deref (apic_num_ticks t !! cpu);
  modify (fun t => set_apic_ticks (<[cpu := w32 (n + 1)]> (apic_num_ticks t)) t).

Definition timer_get_ticks (cpu : Z) : M timer Z :=
  t ← get;
  deref (apic_num_ticks t !! cpu).

(** ** The device and the driver together *)

Fixpoint count_all (cpu : Z) (irqs : list Z) : M timer unit :=
  match irqs with
  | [] => mret tt
  | i :: irqs => if i =? APIC_TIMER_IDT_ENTRY then apic_timer_count cpu;; count_all cpu irqs else fault
  end.

(** [n] cycles of the bus clock pass on core [cpu], which serves the interrupts
    of its local APIC timer; their number is the result. *)
Definition pass (cpu n : Z) : M timer Z :=
  t ← get;
  l ← deref (lapics t !! cpu);
  let '(irqs, l') := elapse n l in
  modify (fun t => set_lapics (<[cpu := l']> (lapics t)) t);;
  count_all cpu irqs;;
  mret (Z.of_nat (length irqs)).

(** PIC interrupts, [ds] being the bus cycles before each of them. *)
Fixpoint pic_periods (p : Z) (ds : list Z) : M timer unit :=
  match ds with
  | [] => mret tt
  | d :: ds => pass 0 d;; pic_timer_interrupt_handler p;; pic_periods p ds
  end.

Definition total (ds : list Z) : Z := foldr Z.add 0 ds.

(** ** The device *)

Lemma clocks_app n m l : clocks (n + m) l = let '(i, l1) := clocks n l in let '(j, l2) := clocks m l1 in (i ++ j, l2).
Proof.
  revert l. induction n as [|n IH]; intros l; simpl; [by destruct (clocks m l)|].
  destruct (clock l) as [i l1]. rewrite IH. destruct (clocks n l1) as [j l2], (clocks m l2). by rewrite app_assoc.
Qed.

Lemma clocks_down n l : init_count l <> 0 -> Z.of_nat n < cur_count l ->
  clocks n l = ([], mk_lapic (lvt l) (init_count l) (cur_count l - Z.of_nat n) (div_conf l)).
Proof.
  revert l. induction n as [|n IH]; intros [v i c d] Hi Hn; simpl in *; [by rewrite Z.sub_0_r|].
  unfold clock. simpl. replace (i =? 0) with false by lia. replace (c =? 0) with false by lia.
  replace (c =? 1) with false by lia. cbn [orb]. rewrite IH by (simpl; lia). simpl. do 2 f_equal. lia.
Qed.

Lemma clocks_period N l : periodic l = true -> masked l = false -> 0 < init_count l -> cur_count l = init_count l ->
  clocks (N * Z.to_nat (init_count l)) l = (repeat (vector l) N, l).
Proof.
  intros P K Hi Hc. induction N as [|N IH]; [done|]. simpl (S N * _)%nat. rewrite clocks_app.
  assert (clocks (Z.to_nat (init_count l)) l = ([vector l], l)) as ->.
  { replace (Z.to_nat (init_count l)) with (Z.to_nat (init_count l - 1) + 1)%nat by lia.
    rewrite clocks_app, clocks_down by lia. simpl. unfold clock. simpl.
    replace (init_count l =? 0) with false by lia. replace (cur_count l - _) with 1 by lia. simpl.
    replace (masked _) with (masked l) by done. replace (periodic _) with (periodic l) by done. rewrite P, K.
    unfold vector. simpl. rewrite <- Hc at 2. by destruct l. }
  by rewrite IH.
Qed.

(** ** The local vector table entry *)

(** No bit of the vector is set that [APIC_TIMER_IDT_ENTRY] lacks; out of reset
    the vector is 0. *)
Definition lvt_ok (v : Z) : Prop := 0 <= v < 2 ^ 32 /\ Z.lor (Z.land v 255) APIC_TIMER_IDT_ENTRY = APIC_TIMER_IDT_ENTRY.

Definition lvt_value (v : Z) : Z :=
  Z.lor (Z.land (Z.lor v LAPIC_PERIODIC) (2 ^ 32 - 1 - LAPIC_IMASK)) APIC_TIMER_IDT_ENTRY.

Lemma lvt_vector v : lvt_ok v -> Z.land (lvt_value v) 255 = 34.
Proof.
  intros [_ E]. unfold lvt_value. rewrite Z.land_lor_distr_l, <- Z.land_assoc, Z.land_lor_distr_l.
  change (Z.land LAPIC_PERIODIC _) with 0. rewrite Z.lor_0_r.
  change (Z.land (2 ^ 32 - 1 - LAPIC_IMASK) 255) with 255. exact E.
Qed.

Lemma lvt_periodic v : Z.land (lvt_value v) LAPIC_PERIODIC = LAPIC_PERIODIC.
Proof.
  unfold lvt_value. rewrite Z.land_lor_distr_l, <- Z.land_assoc.
  change (Z.land (2 ^ 32 - 1 - LAPIC_IMASK) LAPIC_PERIODIC) with LAPIC_PERIODIC.
  rewrite Z.land_lor_distr_l, Z.land_diag. change (Z.land APIC_TIMER_IDT_ENTRY _) with 0. rewrite Z.lor_0_r.
  apply Z.bits_inj'. intros j _. rewrite Z.lor_spec, Z.land_spec. by destruct (Z.testbit v j), (Z.testbit LAPIC_PERIODIC j).
Qed.

Lemma lvt_unmasked v : Z.land (lvt_value v) LAPIC_IMASK = 0.
Proof.
  unfold lvt_value. rewrite Z.land_lor_distr_l, <- Z.land_assoc.
  change (Z.land (2 ^ 32 - 1 - LAPIC_IMASK) LAPIC_IMASK) with 0. by rewrite Z.land_0_r.
Qed.

(** ** Runs of the driver *)

Lemma lapic_read_ok cpu reg t l v : lapics t !! cpu = Some l -> read_reg reg l = Some v -> lapic_read cpu reg t = Ok (v, t).
Proof. intros E R. unfold lapic_read, get, deref. munfold. by rewrite E, R. Qed.

Lemma lapic_write_ok cpu reg v t l l' : lapics t !! cpu = Some l -> write_reg reg v l = Some l' ->
  lapic_write cpu reg v t = Ok (tt, set_lapics (<[cpu := l']> (lapics t)) t).
Proof. intros E R. unfold lapic_write, get, deref, modify. munfold. by rewrite E, R. Qed.

Lemma init_lapic_run cpu p t l : p <> 0 -> lapics t !! cpu = Some l ->
  init_lapic_timer_driver cpu p t = Ok (tt,
    set_lapics (<[cpu := mk_lapic (lvt_value (lvt l)) (lapic_timer_init t) (lapic_timer_init t) LAPIC_X1]> (lapics t))
      (set_apic_ticks (<[cpu := 0]> (apic_num_ticks t)) t)).
Proof.
  intros Hp E. unfold init_lapic_timer_driver. replace (p =? 0) with false by lia.
  rewrite (bind_ok _ _ _ _ _ eq_refl). rewrite (bind_ok _ _ _ (lvt l) _ (lapic_read_ok cpu LAPIC_LVT_TIMER (set_apic_ticks _ t) l (lvt l) E eq_refl)).
  rewrite (bind_ok _ _ _ _ _ eq_refl). rewrite (bind_ok _ _ _ _ _ (lapic_write_ok _ LAPIC_TIMER_INIT _ (set_apic_ticks _ t) l _ E eq_refl)).
  erewrite bind_ok by (eapply lapic_write_ok; [apply lookup_insert_eq|reflexivity]).
  erewrite lapic_write_ok; [|apply lookup_insert_eq|reflexivity].
  unfold set_lapics. cbn [lapics]. by rewrite !insert_insert_eq.
Qed.

Lemma pass_run cpu n t l irqs l' : lapics t !! cpu = Some l -> elapse n l = (irqs, l') ->
  pass cpu n t = (count_all cpu irqs;; mret (Z.of_nat (length irqs))) (set_lapics (<[cpu := l']> (lapics t)) t).
Proof. intros El Ee. unfold pass, get, deref, modify. munfold. simpl. by rewrite El, Ee. Qed.

Lemma count_all_run cpu N : forall t c, apic_num_ticks t !! cpu = Some c ->
  exists t', count_all cpu (repeat 34 N) t = Ok (tt, t') /\ apic_num_ticks t' !! cpu = Some (if decide (N = 0%nat) then c else w32 (c + Z.of_nat N)).
Proof.
  induction N as [|N IH]; intros t c E; [by exists t|]. simpl.
  unfold apic_timer_count, get, deref, modify. munfold. simpl. rewrite E.
  destruct (IH (set_apic_ticks (<[cpu := w32 (c + 1)]> (apic_num_ticks t)) t) (w32 (c + 1))) as (t' & R & K).
  { apply lookup_insert_eq. }
  exists t'. split; [exact R|]. rewrite K. f_equal. case_decide as D; [subst; f_equal; lia|].
  unfold w32. rewrite Z.add_mod_idemp_l by lia. f_equal. lia.
Qed.

(** ** Calibration *)

Definition ACK : Z * Z := (INT_CTL_PORT, INT_ACK_CURRENT).

(** After [k] interrupts since the one numbered [start], and [e] bus cycles. *)
Record counting (t0 t : timer) (start k e v : Z) : Prop := {
  cg_vm : finished_init_vm t <> 0;
  cg_start : start_numTicks t = start;
  cg_range : 0 < start /\ start + 11 < 2 ^ 32;
  cg_ticks : numTicks t = start + k;
  cg_lapic : lapics t !! 0 = Some (mk_lapic (lvt_value v) (2 ^ 32 - 1) (2 ^ 32 - 1 - e) LAPIC_X1);
  cg_others : forall c, c <> 0 -> lapics t !! c = lapics t0 !! c;
  cg_cal : finished_cal_apic_timer t = finished_cal_apic_timer t0;
  cg_ports : ports t = repeat ACK (Z.to_nat (k + 1)) ++ ports t0 }.

Lemma first_interrupt t p l : finished_init_vm t <> 0 -> start_numTicks t = 0 -> 0 <= numTicks t -> numTicks t + 12 < 2 ^ 32 ->
  lapic_timer_init t = 2 ^ 32 - 1 -> lapics t !! 0 = Some l -> p <> 0 ->
  exists t', pic_timer_interrupt_handler p t = Ok (tt, t') /\ counting t t' (numTicks t + 1) 0 0 (lvt l).
Proof.
  intros Hv Hs H0 Hn Hi El Hp. unfold pic_timer_interrupt_handler. rewrite (bind_ok _ _ _ _ _ eq_refl), (bind_ok _ _ _ _ _ eq_refl).
  cbn [finished_init_vm start_numTicks set_numTicks]. replace (finished_init_vm t =? 0) with false by lia. rewrite Hs. simpl (0 =? 0).
  rewrite (bind_ok _ _ (set_numTicks (w32 (numTicks t + 1)) t) _ _ (init_lapic_run 0 p (set_start (w32 (numTicks t + 1)) (set_numTicks (w32 (numTicks t + 1)) t)) l Hp El)).
  eexists. split; [reflexivity|]. rewrite !w32_small by lia. cbn [lapic_timer_init set_start set_numTicks]. rewrite Hi.
  split; cbn; try done; try lia.
  - by rewrite lookup_insert_eq.
  - intros c Hc. by rewrite lookup_insert_ne.
Qed.

Lemma elapse_down n i c v : 0 <= n < c -> i <> 0 -> elapse n (mk_lapic v i c LAPIC_X1) = ([], mk_lapic v i (c - n) LAPIC_X1).
Proof. intros Hn Hi. unfold elapse. simpl divisor. rewrite Z.div_1_r, clocks_down; simpl; [|lia..]. do 2 f_equal. lia. Qed.

Lemma counting_pass t0 t s k e v d : counting t0 t s k e v -> 0 <= d -> 0 <= e -> e + d < 2 ^ 32 - 1 ->
  exists t', pass 0 d t = Ok (0, t') /\ counting t0 t' s k (e + d) v.
Proof.
  intros [] Hd He Hs. eexists. split.
  - rewrite (pass_run _ _ _ _ _ _ cg_lapic0 (elapse_down d (2 ^ 32 - 1) (2 ^ 32 - 1 - e) (lvt_value v) ltac:(lia) ltac:(lia))). reflexivity.
  - split; cbn; try done.
    + rewrite lookup_insert_eq. do 2 f_equal. lia.
    + intros c Hc. rewrite lookup_insert_ne by done. auto.
Qed.

Lemma counting_interrupt t0 t s k e v p : counting t0 t s k e v -> 0 <= k < 9 ->
  exists t', pic_timer_interrupt_handler p t = Ok (tt, t') /\ counting t0 t' s (k + 1) e v.
Proof.
  intros [] Hk. unfold pic_timer_interrupt_handler. rewrite (bind_ok _ _ _ _ _ eq_refl), (bind_ok _ _ _ _ _ eq_refl).
  cbn [finished_init_vm start_numTicks set_numTicks numTicks]. replace (finished_init_vm t =? 0) with false by lia.
  rewrite cg_start0, cg_ticks0, !w32_small by lia. replace (s =? 0) with false by lia. replace (s + k + 1 =? s + 10) with false by lia.
  eexists. split; [reflexivity|]. split; cbn; try done; [lia|].
  rewrite cg_ports0. by replace (Z.to_nat (k + 1 + 1)) with (S (Z.to_nat (k + 1))) by lia.
Qed.

Lemma periods_counting p ds : forall t0 t s k e v, counting t0 t s k e v -> 0 <= k -> k + Z.of_nat (length ds) < 10 ->
  Forall (fun d => 0 <= d) ds -> 0 <= e -> e + total ds < 2 ^ 32 - 1 ->
  exists t', pic_periods p ds t = Ok (tt, t') /\ counting t0 t' s (k + Z.of_nat (length ds)) (e + total ds) v.
Proof.
  induction ds as [|d ds IH]; intros t0 t s k e v C Hk Hl F He Hs; cbn [length total foldr pic_periods] in *.
  { exists t. by rewrite !Z.add_0_r. }
  fold (total ds) in *. apply Forall_cons_1 in F as [Hd F].
  assert (0 <= total ds) by (clear -F; induction F; simpl; unfold total in *; lia).
  destruct (counting_pass _ _ _ _ _ _ d C) as (t1 & R1 & C1); [lia..|].
  destruct (counting_interrupt _ _ _ _ _ _ p C1) as (t2 & R2 & C2); [lia..|].
  destruct (IH _ _ _ _ _ _ C2) as (t3 & R3 & C3); [lia..|done|lia|lia|].
  exists t3. rewrite (bind_ok _ _ _ _ _ R1), (bind_ok _ _ _ _ _ R2). split; [exact R3|].
  by replace (k + Z.of_nat (S (length ds))) with (k + 1 + Z.of_nat (length ds)) by lia; rewrite Z.add_assoc.
Qed.

Record calibrated (t0 t : timer) (count : Z) : Prop := {
  cd_flag : finished_cal_apic_timer t = 1;
  cd_init : lapic_timer_init t = count;
  cd_stopped : exists l, lapics t !! 0 = Some l /\ init_count l = 0;
  cd_null : apic_num_ticks t !! 0 = None;
  cd_others : forall c, c <> 0 -> lapics t !! c = lapics t0 !! c;
  cd_ports : ports t = ACK :: (TIMER_MODE_IO_PORT, TIMER_ONE_SHOT) :: repeat ACK 10 ++ ports t0 }.

Lemma last_interrupt t0 t s e v p : counting t0 t s 9 e v -> 0 <= e < 2 ^ 32 - 1 ->
  exists t', pic_timer_interrupt_handler p t = Ok (tt, t') /\ calibrated t0 t' (e / 10) /\
    lapics t' !! 0 = Some (mk_lapic (lvt_value v) 0 0 LAPIC_X1).
Proof.
  intros [] He. unfold pic_timer_interrupt_handler. rewrite (bind_ok _ _ _ _ _ eq_refl), (bind_ok _ _ _ _ _ eq_refl).
  cbn [finished_init_vm start_numTicks set_numTicks numTicks]. replace (finished_init_vm t =? 0) with false by lia.
  rewrite cg_start0, cg_ticks0, !w32_small by lia. replace (s =? 0) with false by lia. replace (s + 9 + 1 =? s + 10) with true by lia.
  set (t1 := set_numTicks _ t). unfold calibrate.
  rewrite (bind_ok _ _ t1 tt (set_calibrated 1 (set_ports ((TIMER_MODE_IO_PORT, TIMER_ONE_SHOT) :: ports t)
    (set_timer_init (w32 (2 ^ 32 - 1 - (2 ^ 32 - 1 - e)) / 10) (set_apic_ticks (delete 0 (apic_num_ticks t))
      (set_lapics (<[0 := mk_lapic (lvt_value v) 0 0 LAPIC_X1]> (lapics t)) t1)))))).
  - replace (2 ^ 32 - 1 - (2 ^ 32 - 1 - e)) with e by lia. rewrite w32_small by lia.
    eexists. split; [reflexivity|]. split; [split; cbn|cbn; by rewrite lookup_insert_eq].
    + done.
    + done.
    + rewrite lookup_insert_eq. by eexists.
    + apply lookup_delete_eq.
    + intros c Hc. rewrite lookup_insert_ne by done. auto.
    + by rewrite cg_ports0.
  - erewrite bind_ok by (eapply lapic_read_ok; [exact cg_lapic0|reflexivity]).
    erewrite bind_ok by (eapply lapic_write_ok; [exact cg_lapic0|reflexivity]). reflexivity.
Qed.

(** A core's timer, once it is started with the count [T], raises one interrupt
    every [T] bus cycles, and every one of them is counted. *)
Lemma apic_ticks_run t cpu q l T N : q <> 0 -> lapics t !! cpu = Some l -> lvt_ok (lvt l) -> lapic_timer_init t = T -> 0 < T ->
  exists t1 t2, init_lapic_timer_driver cpu q t = Ok (tt, t1) /\ pass cpu (Z.of_nat N * T) t1 = Ok (Z.of_nat N, t2) /\
    timer_get_ticks cpu t2 = Ok (w32 (Z.of_nat N), t2).
Proof.
  intros Hq El Hl HT Hp. rewrite (init_lapic_run _ _ _ _ Hq El), HT. set (l1 := mk_lapic _ _ _ _). set (t1 := set_lapics _ _). exists t1.
  assert (Ee : elapse (Z.of_nat N * T) l1 = (repeat 34 N, l1)).
  { unfold elapse. simpl divisor. rewrite Z.div_1_r. replace (Z.to_nat _) with (N * Z.to_nat (init_count l1))%nat by (simpl; lia).
    rewrite clocks_period; [|unfold periodic; simpl; by rewrite lvt_periodic|unfold masked; simpl; by rewrite lvt_unmasked|done|done].
    unfold vector. simpl. by rewrite lvt_vector. }
  destruct (count_all_run cpu N (set_lapics (<[cpu := l1]> (lapics t1)) t1) 0) as (t2 & R & K); [apply lookup_insert_eq|].
  exists t2. split; [reflexivity|]. split.
  - rewrite (pass_run _ _ t1 l1 _ _ (lookup_insert_eq _ _ _) Ee), (bind_ok _ _ _ _ _ R), repeat_length. reflexivity.
  - unfold timer_get_ticks, get, deref. munfold. rewrite K. case_decide as D; [by subst|]. done.
Qed.

Section calibration.
Context (t : timer) (p : Z) (ds : list Z) (l : lapic).
Context (Hvm : finished_init_vm t <> 0) (Hst : start_numTicks t = 0) (Hinit : lapic_timer_init t = 2 ^ 32 - 1).
Context (Hnum : 0 <= numTicks t /\ numTicks t + 12 < 2 ^ 32) (Hl : lapics t !! 0 = Some l) (Hp : p <> 0).
Context (Hds : Forall (fun d => 0 <= d) ds) (Hsum : total ds < 2 ^ 32 - 1).

Definition calibration (ds : list Z) : M timer unit := pic_timer_interrupt_handler p;; pic_periods p ds.

Lemma cycles_nonneg (xs : list Z) : Forall (fun d => 0 <= d) xs -> 0 <= total xs.
Proof. induction 1; simpl; unfold total in *; lia. Qed.

Lemma cycles_app (xs ys : list Z) : total (xs ++ ys) = total xs + total ys.
Proof. induction xs; simpl; unfold total in *; lia. Qed.

Lemma calibration_prefix ds1 ds2 : ds = ds1 ++ ds2 -> (length ds1 < 10)%nat ->
  exists t', calibration ds1 t = Ok (tt, t') /\ counting t t' (numTicks t + 1) (Z.of_nat (length ds1)) (total ds1) (lvt l).
Proof.
  intros E Hn. destruct (first_interrupt t p l) as (t1 & R1 & C1); [done..|lia|lia|done|done|done|].
  subst ds. rewrite cycles_app in Hsum. apply Forall_app in Hds as [F1 F2].
  pose proof (cycles_nonneg _ F1). pose proof (cycles_nonneg _ F2).
  destruct (periods_counting p ds1 _ _ _ _ _ _ C1) as (t2 & R2 & C2); [lia..|done|lia|lia|].
  exists t2. unfold calibration. rewrite (bind_ok _ _ _ _ _ R1). by rewrite Z.add_0_l, Z.add_0_l in C2.
Qed.

Lemma pic_periods_app xs ys u : pic_periods p (xs ++ ys) u = (pic_periods p xs;; pic_periods p ys) u.
Proof.
  revert u. induction xs as [|x xs IH]; intros u; [done|]. simpl. unfold mbind, M_bind in *.
  destruct (pass 0 x u) as [[? u1]| | | |]; [|done..]. destruct (pic_timer_interrupt_handler p u1) as [[? u2]| | | |]; [|done..]. apply IH.
Qed.

Lemma calibration_run : length ds = 10%nat ->
  exists t', calibration ds t = Ok (tt, t') /\ calibrated t t' (total ds / 10) /\ lapics t' !! 0 = Some (mk_lapic (lvt_value (lvt l)) 0 0 LAPIC_X1).
Proof.
  intros Hn. destruct (@List.exists_last _ ds) as (ds1 & d & E); [by intros ->|].
  assert (length ds1 = 9%nat) by (apply (f_equal length) in E; rewrite length_app in E; simpl in E; lia).
  destruct (calibration_prefix ds1 [d] E) as (t1 & R1 & C1); [lia|].
  pose proof Hds as F. rewrite E in F. apply Forall_app in F as [F1 [Hd _]%Forall_cons_1]. pose proof (cycles_nonneg _ F1).
  pose proof Hsum as Hs. rewrite E, cycles_app in Hs. simpl in Hs. unfold calibration in *. apply bind_inv in R1 as ([] & t0 & Q1 & Q2).
  destruct (counting_pass _ _ _ _ _ _ d C1) as (t2 & R2 & C2); [lia..|]. replace (Z.of_nat (length ds1)) with 9 in C2 by lia.
  destruct (last_interrupt _ _ _ _ _ p C2) as (t3 & R3 & C3 & L3); [lia|].
  exists t3. replace (total ds) with (total ds1 + d) by (rewrite E, cycles_app; simpl; lia). split; [|done].
  rewrite (bind_ok _ _ _ _ _ Q1), E, pic_periods_app, (bind_ok _ _ _ _ _ Q2). simpl. by rewrite (bind_ok _ _ _ _ _ R2), (bind_ok _ _ _ _ _ R3).
Qed.

Lemma lvt_value_ok v : lvt_ok v -> lvt_ok (lvt_value v).
Proof.
  intros H. split; [|by rewrite lvt_vector]. destruct H as [R _]. apply u32_of_bits.
  - unfold lvt_value. rewrite Z.lor_nonneg, Z.land_nonneg, Z.lor_nonneg. unfold LAPIC_PERIODIC, APIC_TIMER_IDT_ENTRY. lia.
  - intros j Hj. unfold lvt_value. rewrite Z.lor_spec, Z.land_spec, Z.lor_spec, !(u32_testbit_high _ j); try done; unfold LAPIC_PERIODIC, LAPIC_IMASK, APIC_TIMER_IDT_ENTRY; lia.
Qed.

(** (C32) Whatever the speed of the bus, the APIC timers are set to the period of
    the PIC timer.  From the first PIC interrupt after paging is on, and for any
    numbers [ds] of bus cycles between that and the ten following interrupts,
    the tenth and no earlier one ends the calibration; the PIC timer is then off,
    every interrupt has been acknowledged once, and the stored count is a tenth
    of the cycles.  Any core that starts its timer then takes an interrupt after
    each such period: after [N] periods its count of ticks is [N]. *)
Theorem apic_timer_calibrated : length ds = 10%nat -> 10 <= total ds ->
  (forall ds1 ds2, ds = ds1 ++ ds2 -> ds2 <> [] ->
     exists t1, calibration ds1 t = Ok (tt, t1) /\ finished_cal_apic_timer t1 = finished_cal_apic_timer t) /\
  exists t', calibration ds t = Ok (tt, t') /\ calibrated t t' (total ds / 10) /\
    forall cpu q lc N, q <> 0 -> lapics t !! cpu = Some lc -> lvt_ok (lvt lc) ->
      exists t1 t2, init_lapic_timer_driver cpu q t' = Ok (tt, t1) /\
        pass cpu (Z.of_nat N * (total ds / 10)) t1 = Ok (Z.of_nat N, t2) /\
        timer_get_ticks cpu t2 = Ok (w32 (Z.of_nat N), t2).
Proof.
  intros Hn H10. split.
  - intros ds1 ds2 E E2. destruct (calibration_prefix ds1 ds2 E) as (t1 & R & C).
    { apply (f_equal length) in E. rewrite length_app in E. destruct ds2; [done|]. simpl in E. lia. }
    exists t1. split; [done|]. apply C.
  - destruct (calibration_run Hn) as (t' & R & C & L). exists t'. split; [done|]. split; [done|]. intros cpu q lc N Hq Hlc Hv.
    assert (0 < total ds / 10) by (apply Z.div_str_pos; lia). destruct (decide (cpu = 0)) as [->|D].
    + apply (apic_ticks_run t' 0 q _ _ N Hq L); [|apply C|done]. apply lvt_value_ok. by simplify_eq.
    + apply (apic_ticks_run t' cpu q lc _ N Hq); [by rewrite (cd_others _ _ _ C)|done|apply C|done].
Qed.
End calibration.

(** ** A concrete run: 50 bus cycles between interrupts, a few more before the last *)

Definition reset_lapic : lapic := mk_lapic 65536 0 0 0.
Definition demo_timer : timer := mk_timer 3 0 (2 ^ 32 - 1) ∅ {[0 := reset_lapic; 1 := reset_lapic]} [] 1 0.

Lemma apic_timer_calibrated_witness : exists t' t1 t2, calibration 4096 (repeat 50 9 ++ [57]) demo_timer = Ok (tt, t') /\ lapic_timer_init t' = 50 /\
  init_lapic_timer_driver 1 8192 t' = Ok (tt, t1) /\ pass 1 150 t1 = Ok (3, t2) /\ timer_get_ticks 1 t2 = Ok (3, t2).
Proof.
  destruct (apic_timer_calibrated demo_timer 4096 (repeat 50 9 ++ [57]) reset_lapic) as (_ & t' & R & C & K);
    [simpl; lia|reflexivity|reflexivity|simpl; lia|vm_compute; reflexivity|lia|repeat constructor; lia|simpl; lia|reflexivity|simpl; lia|].
  destruct (K 1 8192 reset_lapic 3%nat) as (t1 & t2 & R1 & R2 & R3); [lia|vm_compute; reflexivity|split; [simpl; lia|reflexivity]|].
  exists t', t1, t2. split; [exact R|]. split; [apply C|]. split; [exact R1|]. split; [exact R2|exact R3].
Defined.

End Timer.
