(* ===== verification/Idt.v ===== *)
(** * The interrupt descriptor table (init_IDT.c)

    The table is bytes of memory at [idt_base], filled by copies of two bytes at
    a time as in the code.  The addresses of the assembly wrappers are those the
    linker chooses, a parameter.  What the processor does with a gate is
    [gate_at], its decoding, and [enter], which checks the privilege of the
    instruction [int]; both are the documented format of the architecture. *)

From Stdlib Require Import ZArith Lia.
From stdpp Require Import base gmap list tactics numbers.
From S2P Require Import Prelude AddrSpace Console Keyboard Timer.

Module Idt.

(** The assembly wrappers of handler_wrapper.S *)
Inductive wrapper :=
| keyboard_wrapper
| timer_wrapper
| gettid_wrapper
| fork_wrapper
| exec_wrapper
| print_wrapper
| new_pages_wrapper
| remove_pages_wrapper
| swexn_wrapper
| halt_wrapper
| readline_wrapper
| set_term_color_wrapper
| set_cursor_pos_wrapper
| sleep_wrapper
| get_ticks_wrapper
| vanish_wrapper
| wait_wrapper
| set_status_wrapper
| yield_wrapper
| thread_fork_wrapper
| deschedule_wrapper
| make_runnable_wrapper
| readfile_wrapper
| get_cursor_pos_wrapper
| apic_timer_wrapper
| de_wrapper
| db_wrapper
| nmi_wrapper
| bp_wrapper
| of_wrapper
| br_wrapper
| ud_wrapper
| nm_wrapper
| df_wrapper
| cso_wrapper
| ts_wrapper
| np_wrapper
| ss_wrapper
| gp_wrapper
| pf_wrapper
| mf_wrapper
| ac_wrapper
| mc_wrapper
| xf_wrapper.

#[global] Instance wrapper_eq_dec : EqDecision wrapper.
Proof. solve_decision. Defined.

Definition IDT_DE : Z := 0.
Definition IDT_DB : Z := 1.
Definition IDT_NMI : Z := 2.
Definition IDT_BP : Z := 3.
Definition IDT_OF : Z := 4.
Definition IDT_BR : Z := 5.
Definition IDT_UD : Z := 6.
Definition IDT_NM : Z := 7.
Definition IDT_DF : Z := 8.
Definition IDT_CSO : Z := 9.
Definition IDT_TS : Z := 10.
Definition IDT_NP : Z := 11.
Definition IDT_SS : Z := 12.
Definition IDT_GP : Z := 13.
Definition IDT_PF : Z := 14.
Definition IDT_MF : Z := 16.
Definition IDT_AC : Z := 17.
Definition IDT_MC : Z := 18.
Definition IDT_XF : Z := 19.
Definition KEY_IDT_ENTRY : Z := 33.
Definition TIMER_IDT_ENTRY : Z := 32.
Definition GETTID_INT : Z := 72.
Definition FORK_INT : Z := 65.
Definition EXEC_INT : Z := 66.
Definition PRINT_INT : Z := 78.
Definition NEW_PAGES_INT : Z := 73.
Definition REMOVE_PAGES_INT : Z := 74.
Definition SWEXN_INT : Z := 116.
Definition HALT_INT : Z := 85.
Definition READLINE_INT : Z := 77.
Definition SET_TERM_COLOR_INT : Z := 79.
Definition SET_CURSOR_POS_INT : Z := 80.
Definition GET_TICKS_INT : Z := 83.
Definition SLEEP_INT : Z := 75.
Definition VANISH_INT : Z := 96.
Definition WAIT_INT : Z := 68.
Definition SET_STATUS_INT : Z := 89.
Definition YIELD_INT : Z := 69.
Definition THREAD_FORK_INT : Z := 82.
Definition DESCHEDULE_INT : Z := 70.
Definition MAKE_RUNNABLE_INT : Z := 71.
Definition READFILE_INT : Z := 98.
Definition GET_CURSOR_POS_INT : Z := 81.
Definition APIC_TIMER_IDT_ENTRY : Z := Timer.APIC_TIMER_IDT_ENTRY.

Definition SEGSEL_KERNEL_CS : Z := 16.
Definition IDT_ENTRY_SIZE : Z := 8.
Definition GATE_OFFSET_BEGIN : Z := 0.
Definition GATE_OFFSET_MID : Z := 6.
Definition GATE_OFFSET_SIZE1 : nat := 2.
Definition GATE_OFFSET_SIZE2 : nat := 2.
Definition GATE_SEGSEL_BEGIN : Z := 2.
Definition GATE_SEGSEL_SIZE : nat := 2.
Definition GATE_OPTION_BEGIN : Z := 4.
Definition GATE_OPTION_SIZE : nat := 2.
Definition GATE_TRAP_OPTION : Z := 1792.
Definition GATE_INTERRUPT_OPTION : Z := 1536.
Definition GATE_OPTION_P : Z := 32768.
Definition GATE_OPTION_DPL0 : Z := 0.
Definition GATE_OPTION_DPL3 : Z := 24576.
Definition GATE_OPTION_D : Z := 2048.

Section idt.
Context {KH : Type} (idt_base : Z) (addr : wrapper -> Z).

Record machine := mk_machine { bytes : Z -> Z; con : Console.console; kbd : Keyboard.keyboard (KH := KH); tmr : Timer.timer }.

Definition set_bytes x m := mk_machine x (con m) (kbd m) (tmr m).
Definition set_con x m := mk_machine (bytes m) x (kbd m) (tmr m).
Definition set_kbd x m := mk_machine (bytes m) (con m) x (tmr m).
Definition set_tmr x m := mk_machine (bytes m) (con m) (kbd m) x.

Definition memcpy (dst : Z) (src : list Z) : M machine unit := modify (fun m => set_bytes (put (bytes m) dst src) m).

Definition fill_handler (base handler : Z) : M machine unit :=
  let handler_addr := word_bytes handler in
  memcpy (base + GATE_OFFSET_BEGIN) (take GATE_OFFSET_SIZE1 handler_addr);;
  memcpy (base + GATE_OFFSET_MID) (take GATE_OFFSET_SIZE2 (drop GATE_OFFSET_SIZE1 handler_addr)).

Definition fill_segsel (base segsel : Z) : M machine unit :=
  memcpy (base + GATE_SEGSEL_BEGIN) (take GATE_SEGSEL_SIZE (word_bytes segsel)).

Definition fill_option (base DPL gate_type : Z) : M machine unit :=
  let gate_type_option := if gate_type =? 0 then GATE_TRAP_OPTION else GATE_INTERRUPT_OPTION in
  let dpl_option := if DPL =? 0 then GATE_OPTION_DPL0 else GATE_OPTION_DPL3 in
  let option := Z.lor (Z.lor (Z.lor gate_type_option GATE_OPTION_D) GATE_OPTION_P) dpl_option in
  memcpy (base + GATE_OPTION_BEGIN) (take GATE_OPTION_SIZE (word_bytes option)).

Definition install_IDT_entry (index : Z) (handler : wrapper) (segsel DPL gate_type : Z) : M machine unit :=
  let idt_entry := idt_base + index * IDT_ENTRY_SIZE in
  fill_handler idt_entry (addr handler);;
  fill_segsel idt_entry segsel;;
  fill_option idt_entry DPL gate_type.

Definition init_exception_IDT : M machine unit :=
  install_IDT_entry IDT_DE de_wrapper SEGSEL_KERNEL_CS 3 0;;
  install_IDT_entry IDT_DB db_wrapper SEGSEL_KERNEL_CS 3 0;;
  install_IDT_entry IDT_NMI nmi_wrapper SEGSEL_KERNEL_CS 3 0;;
  install_IDT_entry IDT_BP bp_wrapper SEGSEL_KERNEL_CS 3 0;;
  install_IDT_entry IDT_OF of_wrapper SEGSEL_KERNEL_CS 3 0;;
  install_IDT_entry IDT_BR br_wrapper SEGSEL_KERNEL_CS 3 0;;
  install_IDT_entry IDT_UD de_wrapper SEGSEL_KERNEL_CS 3 0;;
  install_IDT_entry IDT_NM nm_wrapper SEGSEL_KERNEL_CS 3 0;;
  install_IDT_entry IDT_DF df_wrapper SEGSEL_KERNEL_CS 3 0;;
  install_IDT_entry IDT_CSO cso_wrapper SEGSEL_KERNEL_CS 3 0;;
  install_IDT_entry IDT_TS ts_wrapper SEGSEL_KERNEL_CS 3 0;;
  install_IDT_entry IDT_NP np_wrapper SEGSEL_KERNEL_CS 3 0;;
  install_IDT_entry IDT_SS ss_wrapper SEGSEL_KERNEL_CS 3 0;;
  install_IDT_entry IDT_GP gp_wrapper SEGSEL_KERNEL_CS 3 0;;
  install_IDT_entry IDT_PF pf_wrapper SEGSEL_KERNEL_CS 3 0;;
  install_IDT_entry IDT_MF mf_wrapper SEGSEL_KERNEL_CS 3 0;;
  install_IDT_entry IDT_AC ac_wrapper SEGSEL_KERNEL_CS 3 0;;
  install_IDT_entry IDT_MC mc_wrapper SEGSEL_KERNEL_CS 3 0;;
  install_IDT_entry IDT_XF xf_wrapper SEGSEL_KERNEL_CS 3 0.

Definition init_IDT : M machine Z :=
  install_IDT_entry KEY_IDT_ENTRY keyboard_wrapper SEGSEL_KERNEL_CS 0 1;;
  install_IDT_entry TIMER_IDT_ENTRY timer_wrapper SEGSEL_KERNEL_CS 0 1;;
  install_IDT_entry GETTID_INT gettid_wrapper SEGSEL_KERNEL_CS 3 0;;
  install_IDT_entry FORK_INT fork_wrapper SEGSEL_KERNEL_CS 3 0;;
  install_IDT_entry EXEC_INT exec_wrapper SEGSEL_KERNEL_CS 3 0;;
  install_IDT_entry PRINT_INT print_wrapper SEGSEL_KERNEL_CS 3 0;;
  install_IDT_entry NEW_PAGES_INT new_pages_wrapper SEGSEL_KERNEL_CS 3 0;;
  install_IDT_entry REMOVE_PAGES_INT remove_pages_wrapper SEGSEL_KERNEL_CS 3 0;;
  install_IDT_entry SWEXN_INT swexn_wrapper SEGSEL_KERNEL_CS 3 0;;
  install_IDT_entry HALT_INT halt_wrapper SEGSEL_KERNEL_CS 3 0;;
  install_IDT_entry READLINE_INT readline_wrapper SEGSEL_KERNEL_CS 3 0;;
  install_IDT_entry SET_TERM_COLOR_INT set_term_color_wrapper SEGSEL_KERNEL_CS 3 0;;
  install_IDT_entry SET_CURSOR_POS_INT set_cursor_pos_wrapper SEGSEL_KERNEL_CS 3 0;;
  install_IDT_entry GET_TICKS_INT get_ticks_wrapper SEGSEL_KERNEL_CS 3 1;;
  install_IDT_entry SLEEP_INT sleep_wrapper SEGSEL_KERNEL_CS 3 0;;
  install_IDT_entry VANISH_INT vanish_wrapper SEGSEL_KERNEL_CS 3 0;;
  install_IDT_entry WAIT_INT wait_wrapper SEGSEL_KERNEL_CS 3 0;;
  install_IDT_entry SET_STATUS_INT set_status_wrapper SEGSEL_KERNEL_CS 3 0;;
  install_IDT_entry YIELD_INT yield_wrapper SEGSEL_KERNEL_CS 3 0;;
  install_IDT_entry THREAD_FORK_INT thread_fork_wrapper SEGSEL_KERNEL_CS 3 0;;
  install_IDT_entry DESCHEDULE_INT deschedule_wrapper SEGSEL_KERNEL_CS 3 0;;
  install_IDT_entry MAKE_RUNNABLE_INT make_runnable_wrapper SEGSEL_KERNEL_CS 3 0;;
  install_IDT_entry READFILE_INT readfile_wrapper SEGSEL_KERNEL_CS 3 0;;
  install_IDT_entry GET_CURSOR_POS_INT get_cursor_pos_wrapper SEGSEL_KERNEL_CS 3 0;;
  install_IDT_entry APIC_TIMER_IDT_ENTRY apic_timer_wrapper SEGSEL_KERNEL_CS 0 1;;
  init_exception_IDT;;
  zoom con set_con Console.init_console_driver;;
  zoom kbd set_kbd Keyboard.init_keyboard_driver;;
  zoom tmr set_tmr Timer.init_timer_driver;;
  mret 0.

(** ** What the processor reads *)

Inductive gate_kind := TRAP | INTERRUPT.
#[global] Instance gate_kind_eq_dec : EqDecision gate_kind.
Proof. solve_decision. Defined.

Record gate := mk_gate { offset : Z; selector : Z; present : bool; dpl : Z; kind : gate_kind }.

Definition half (f : Z -> Z) (a : Z) : Z := f a + 256 * f (a + 1).

(** The gate of a vector: [None] when the type field is not that of a 32-bit
    trap or interrupt gate. *)
Definition gate_at (f : Z -> Z) (v : Z) : option gate :=
  let a := idt_base + v * 8 in
  let flags := half f (a + 4) in
  let mk := mk_gate (half f a + 65536 * half f (a + 6)) (half f (a + 2)) (Z.testbit flags 15) (Z.land (Z.shiftr flags 13) 3) in
  match Z.land (Z.shiftr flags 8) 31 with
  | 14 => Some (mk INTERRUPT)
  | 15 => Some (mk TRAP)
  | _ => None
  end.

(** [int v] executed at privilege [cpl]: the address at which the processor
    continues and whether interrupts stay enabled, or [None] for a fault. *)
Definition enter (f : Z -> Z) (cpl v : Z) : option (Z * bool) :=
  match gate_at f v with
  | Some g => if present g && (cpl <=? dpl g) then Some (offset g, match kind g with TRAP => true | INTERRUPT => false end) else None
  | None => None
  end.

(** ** One gate *)

Definition entry : Type := Z * wrapper * Z * Z * Z.

Definition gate_of (e : entry) : gate :=
  let '(v, w, seg, d, g) := e in
  mk_gate (addr w) seg true (if d =? 0 then 0 else 3) (if g =? 0 then TRAP else INTERRUPT).

Definition install (e : entry) : M machine unit := let '(v, w, seg, d, g) := e in install_IDT_entry v w seg d g.

Lemma half_put f a v : 0 <= v < 65536 -> half (put f a (take 2 (word_bytes v))) a = v.
Proof.
  intros Hv. unfold half. rewrite <- (Z.add_0_r a) at 2.
  rewrite (put_in f a _ 0 (v mod 256)), (put_in f a _ 1 (v / 256 mod 256)) by done.
  rewrite (Z.mod_small (v / 256)) by (split; [apply Z.div_pos|apply Z.div_lt_upper_bound]; lia).
  pose proof (Z.div_mod v 256). lia.
Qed.

Lemma half_put_out f a b l : length l = 2%nat -> a + 2 <= b \/ b + 2 <= a -> half (put f b l) a = half f a.
Proof. intros Hl Hd. unfold half. rewrite !put_out by lia. done. Qed.

Lemma low_half v : take 2 (word_bytes v) = take 2 (word_bytes (v mod 65536)).
Proof.
  unfold word_bytes. simpl. f_equal; [|f_equal].
  - change 65536 with (256 * 256). by rewrite Z.rem_mul_r, Z.mul_comm, Z.mod_add, Z.mod_mod by lia.
  - change 65536 with (256 * 256). rewrite Z.rem_mul_r by lia. rewrite Z.mul_comm, Z.div_add by lia.
    rewrite (Z.div_small (v mod 256)) by (apply Z.mod_pos_bound; lia). by rewrite Z.add_0_l, Z.mod_mod by lia.
Qed.

Lemma high_half v : take 2 (drop 2 (word_bytes v)) = take 2 (word_bytes (v / 65536)).
Proof. unfold word_bytes. simpl. by rewrite Z.div_div by lia. Qed.

Definition in_entry (v x : Z) : Prop := idt_base + v * 8 <= x < idt_base + v * 8 + 8.

Lemma install_run e m : exists f, install e m = Ok (tt, set_bytes f m) /\ (forall x, ~ in_entry (e.1.1.1.1) x -> f x = bytes m x) /\
  (0 <= addr (e.1.1.1.2) < 2 ^ 32 -> 0 <= e.1.1.2 < 65536 -> gate_at f (e.1.1.1.1) = Some (gate_of e)).
Proof.
  destruct e as [[[[v w] seg] d] g]. cbn [fst snd]. eexists. split; [reflexivity|]. split.
  - intros x Hx. unfold in_entry in Hx. cbn [bytes set_bytes]. unfold GATE_OPTION_BEGIN, GATE_SEGSEL_BEGIN, GATE_OFFSET_MID, GATE_OFFSET_BEGIN, IDT_ENTRY_SIZE.
    rewrite !put_out by (simpl; lia). done.
  - intros Ha Hs. cbn [bytes set_bytes]. unfold GATE_OPTION_BEGIN, GATE_SEGSEL_BEGIN, GATE_OFFSET_MID, GATE_OFFSET_BEGIN, IDT_ENTRY_SIZE,
      GATE_OFFSET_SIZE1, GATE_OFFSET_SIZE2, GATE_SEGSEL_SIZE, GATE_OPTION_SIZE. rewrite Z.add_0_r. unfold gate_at. set (a := idt_base + v * 8).
    set (o := Z.lor _ _). assert (Ho : 0 <= o < 65536) by (unfold o; destruct (g =? 0), (d =? 0); vm_compute; split; congruence).
    rewrite (half_put _ (a + 4)) by done. rewrite !(half_put_out _ _ (a + 4)) by (done || lia).
    rewrite (half_put _ (a + 2)) by done. rewrite !(half_put_out _ _ (a + 2)) by (done || lia).
    rewrite high_half. rewrite (half_put _ (a + 6)) by (split; [apply Z.div_pos|apply Z.div_lt_upper_bound]; lia).
    rewrite (half_put_out _ _ (a + 6)) by (done || lia). rewrite low_half, half_put by (apply Z.mod_pos_bound; lia).
    replace (addr w mod 65536 + 65536 * (addr w / 65536)) with (addr w) by (pose proof (Z.div_mod (addr w) 65536); lia).
    unfold o, gate_of. by destruct (g =? 0), (d =? 0).
Qed.

(** ** The whole table *)

Definition entries : list entry := [
  (KEY_IDT_ENTRY, keyboard_wrapper, SEGSEL_KERNEL_CS, 0, 1);
  (TIMER_IDT_ENTRY, timer_wrapper, SEGSEL_KERNEL_CS, 0, 1);
  (GETTID_INT, gettid_wrapper, SEGSEL_KERNEL_CS, 3, 0);
  (FORK_INT, fork_wrapper, SEGSEL_KERNEL_CS, 3, 0);
  (EXEC_INT, exec_wrapper, SEGSEL_KERNEL_CS, 3, 0);
  (PRINT_INT, print_wrapper, SEGSEL_KERNEL_CS, 3, 0);
  (NEW_PAGES_INT, new_pages_wrapper, SEGSEL_KERNEL_CS, 3, 0);
  (REMOVE_PAGES_INT, remove_pages_wrapper, SEGSEL_KERNEL_CS, 3, 0);
  (SWEXN_INT, swexn_wrapper, SEGSEL_KERNEL_CS, 3, 0);
  (HALT_INT, halt_wrapper, SEGSEL_KERNEL_CS, 3, 0);
  (READLINE_INT, readline_wrapper, SEGSEL_KERNEL_CS, 3, 0);
  (SET_TERM_COLOR_INT, set_term_color_wrapper, SEGSEL_KERNEL_CS, 3, 0);
  (SET_CURSOR_POS_INT, set_cursor_pos_wrapper, SEGSEL_KERNEL_CS, 3, 0);
  (GET_TICKS_INT, get_ticks_wrapper, SEGSEL_KERNEL_CS, 3, 1);
  (SLEEP_INT, sleep_wrapper, SEGSEL_KERNEL_CS, 3, 0);
  (VANISH_INT, vanish_wrapper, SEGSEL_KERNEL_CS, 3, 0);
  (WAIT_INT, wait_wrapper, SEGSEL_KERNEL_CS, 3, 0);
  (SET_STATUS_INT, set_status_wrapper, SEGSEL_KERNEL_CS, 3, 0);
  (YIELD_INT, yield_wrapper, SEGSEL_KERNEL_CS, 3, 0);
  (THREAD_FORK_INT, thread_fork_wrapper, SEGSEL_KERNEL_CS, 3, 0);
  (DESCHEDULE_INT, deschedule_wrapper, SEGSEL_KERNEL_CS, 3, 0);
  (MAKE_RUNNABLE_INT, make_runnable_wrapper, SEGSEL_KERNEL_CS, 3, 0);
  (READFILE_INT, readfile_wrapper, SEGSEL_KERNEL_CS, 3, 0);
  (GET_CURSOR_POS_INT, get_cursor_pos_wrapper, SEGSEL_KERNEL_CS, 3, 0);
  (APIC_TIMER_IDT_ENTRY, apic_timer_wrapper, SEGSEL_KERNEL_CS, 0, 1);
  (IDT_DE, de_wrapper, SEGSEL_KERNEL_CS, 3, 0);
  (IDT_DB, db_wrapper, SEGSEL_KERNEL_CS, 3, 0);
  (IDT_NMI, nmi_wrapper, SEGSEL_KERNEL_CS, 3, 0);
  (IDT_BP, bp_wrapper, SEGSEL_KERNEL_CS, 3, 0);
  (IDT_OF, of_wrapper, SEGSEL_KERNEL_CS, 3, 0);
  (IDT_BR, br_wrapper, SEGSEL_KERNEL_CS, 3, 0);
  (IDT_UD, de_wrapper, SEGSEL_KERNEL_CS, 3, 0);
  (IDT_NM, nm_wrapper, SEGSEL_KERNEL_CS, 3, 0);
  (IDT_DF, df_wrapper, SEGSEL_KERNEL_CS, 3, 0);
  (IDT_CSO, cso_wrapper, SEGSEL_KERNEL_CS, 3, 0);
  (IDT_TS, ts_wrapper, SEGSEL_KERNEL_CS, 3, 0);
  (IDT_NP, np_wrapper, SEGSEL_KERNEL_CS, 3, 0);
  (IDT_SS, ss_wrapper, SEGSEL_KERNEL_CS, 3, 0);
  (IDT_GP, gp_wrapper, SEGSEL_KERNEL_CS, 3, 0);
  (IDT_PF, pf_wrapper, SEGSEL_KERNEL_CS, 3, 0);
  (IDT_MF, mf_wrapper, SEGSEL_KERNEL_CS, 3, 0);
  (IDT_AC, ac_wrapper, SEGSEL_KERNEL_CS, 3, 0);
  (IDT_MC, mc_wrapper, SEGSEL_KERNEL_CS, 3, 0);
  (IDT_XF, xf_wrapper, SEGSEL_KERNEL_CS, 3, 0)].

Fixpoint install_all (l : list entry) : M machine unit :=
  match l with
  | [] => mret tt
  | e :: l => install e;; install_all l
  end.

(** The wrapper each vector has to reach, the least privilege that may call it
    with [int], and the kind of its gate: the exceptions of idt.h, the three
    devices, and the system calls of syscall_int.h. *)
Definition wired (v : Z) : option (wrapper * Z * gate_kind) :=
  match v with
  | 0 => Some (de_wrapper, 3, TRAP)
  | 1 => Some (db_wrapper, 3, TRAP)
  | 2 => Some (nmi_wrapper, 3, TRAP)
  | 3 => Some (bp_wrapper, 3, TRAP)
  | 4 => Some (of_wrapper, 3, TRAP)
  | 5 => Some (br_wrapper, 3, TRAP)
  | 6 => Some (ud_wrapper, 3, TRAP)
  | 7 => Some (nm_wrapper, 3, TRAP)
  | 8 => Some (df_wrapper, 3, TRAP)
  | 9 => Some (cso_wrapper, 3, TRAP)
  | 10 => Some (ts_wrapper, 3, TRAP)
  | 11 => Some (np_wrapper, 3, TRAP)
  | 12 => Some (ss_wrapper, 3, TRAP)
  | 13 => Some (gp_wrapper, 3, TRAP)
  | 14 => Some (pf_wrapper, 3, TRAP)
  | 16 => Some (mf_wrapper, 3, TRAP)
  | 17 => Some (ac_wrapper, 3, TRAP)
  | 18 => Some (mc_wrapper, 3, TRAP)
  | 19 => Some (xf_wrapper, 3, TRAP)
  | 32 => Some (timer_wrapper, 0, INTERRUPT)
  | 33 => Some (keyboard_wrapper, 0, INTERRUPT)
  | 34 => Some (apic_timer_wrapper, 0, INTERRUPT)
  | 65 => Some (fork_wrapper, 3, TRAP)
  | 66 => Some (exec_wrapper, 3, TRAP)
  | 68 => Some (wait_wrapper, 3, TRAP)
  | 69 => Some (yield_wrapper, 3, TRAP)
  | 70 => Some (deschedule_wrapper, 3, TRAP)
  | 71 => Some (make_runnable_wrapper, 3, TRAP)
  | 72 => Some (gettid_wrapper, 3, TRAP)
  | 73 => Some (new_pages_wrapper, 3, TRAP)
  | 74 => Some (remove_pages_wrapper, 3, TRAP)
  | 75 => Some (sleep_wrapper, 3, TRAP)
  | 77 => Some (readline_wrapper, 3, TRAP)
  | 78 => Some (print_wrapper, 3, TRAP)
  | 79 => Some (set_term_color_wrapper, 3, TRAP)
  | 80 => Some (set_cursor_pos_wrapper, 3, TRAP)
  | 81 => Some (get_cursor_pos_wrapper, 3, TRAP)
  | 82 => Some (thread_fork_wrapper, 3, TRAP)
  | 83 => Some (get_ticks_wrapper, 3, INTERRUPT)
  | 85 => Some (halt_wrapper, 3, TRAP)
  | 89 => Some (set_status_wrapper, 3, TRAP)
  | 96 => Some (vanish_wrapper, 3, TRAP)
  | 98 => Some (readfile_wrapper, 3, TRAP)
  | 116 => Some (swexn_wrapper, 3, TRAP)
  | _ => None
  end.

(** The wrapper it does reach: an undefined opcode is taken for a division error. *)
Definition reached (v : Z) (w : wrapper) : wrapper := if v =? IDT_UD then de_wrapper else w.

Definition find_entry (l : list entry) (v : Z) : option entry := find (fun e => e.1.1.1.1 =? v) l.

Lemma gate_at_ext f g v : (forall x, in_entry v x -> f x = g x) -> gate_at f v = gate_at g v.
Proof. intros E. unfold gate_at, half. rewrite !E by (unfold in_entry; lia). done. Qed.

Lemma install_all_run l : forall m, Forall (fun e => 0 <= e.1.1.2 < 65536) l -> NoDup (map (fun e => e.1.1.1.1) l) -> (forall w, 0 <= addr w < 2 ^ 32) ->
  exists f, install_all l m = Ok (tt, set_bytes f m) /\
    (forall v e, find_entry l v = Some e -> gate_at f v = Some (gate_of e)) /\
    (forall x, (forall e, e ∈ l -> ~ in_entry (e.1.1.1.1) x) -> f x = bytes m x).
Proof.
  induction l as [|e l IH]; intros m Fs Nd Ha; [exists (bytes m); split; [by destruct m|]; done|].
  apply Forall_cons_1 in Fs as [Fe Fs]. inversion_clear Nd as [|? ? Ne Nd'].
  destruct (install_run e m) as (f1 & R1 & O1 & G1). destruct (IH (set_bytes f1 m) Fs Nd' Ha) as (f2 & R2 & G2 & O2).
  exists f2. simpl. rewrite (bind_ok _ _ _ _ _ R1). split; [exact R2|]. split.
  - intros v e'. unfold find_entry. simpl. destruct (Z.eqb_spec (e.1.1.1.1) v) as [<-|N]; [|apply G2]. intros [= <-].
    rewrite <- (G1 (Ha _) Fe). apply gate_at_ext. intros x Hx. rewrite O2; [done|]. intros e' He' Hx'. apply Ne.
    replace (e.1.1.1.1) with (e'.1.1.1.1) by (unfold in_entry in *; lia). by apply (list_elem_of_fmap_2 (fun e : entry => e.1.1.1.1)).
  - intros x Hx. rewrite O2 by (intros e' He'; apply Hx; by right). apply O1, Hx. by left.
Qed.

Lemma then_ext {A} (m : M machine unit) (f g : M machine A) u : (forall u', f u' = g u') -> (m;; f) u = (m;; g) u.
Proof. intros E. unfold mbind, M_bind. destruct (m u) as [[? u']| | | |]; [apply E|done..]. Qed.

Lemma install_all_then {A} e l (k : M machine A) u : (install_all (e :: l);; k) u = (install e;; (install_all l;; k)) u.
Proof. simpl. unfold mbind, M_bind. by destruct (install e u) as [[? u']| | | |]. Qed.

Lemma install_last e u : install e u = (install_all [e];; mret tt) u.
Proof. simpl. unfold mbind, M_bind. by destruct (install e u) as [[[] u']| | | |]. Qed.

Lemma then_congr {A} (m m' : M machine unit) (k : M machine A) u : (forall u', m u' = m' u') -> (m;; k) u = (m';; k) u.
Proof. intros E. unfold mbind, M_bind. by rewrite E. Qed.

Lemma then_ret (m : M machine unit) u : (m;; mret tt) u = m u.
Proof. unfold mbind, M_bind. by destruct (m u) as [[[] u']| | | |]. Qed.

Definition exceptions : list entry := drop 25 entries.

Lemma init_exception_split u : init_exception_IDT u = (install_all exceptions;; mret tt) u.
Proof.
  unfold exceptions, entries. cbn [drop]. unfold init_exception_IDT.
  repeat (rewrite install_all_then; cbn [install]; apply then_ext; intros ?). exact (install_last (IDT_XF, xf_wrapper, SEGSEL_KERNEL_CS, 3, 0) _).
Qed.

Lemma init_IDT_split u : init_IDT u = (install_all entries;;
  zoom con set_con Console.init_console_driver;; zoom kbd set_kbd Keyboard.init_keyboard_driver;; zoom tmr set_tmr Timer.init_timer_driver;; mret 0) u.
Proof.
  unfold entries, init_IDT. do 25 (rewrite install_all_then; cbn [install]; apply then_ext; intros ?).
  pose proof init_exception_split as E. unfold exceptions, entries in E. cbn [drop] in E.
  apply then_congr. intros ?. rewrite E. apply then_ret.
Qed.

Definition kind_of (g : Z) : gate_kind := if g =? 0 then TRAP else INTERRUPT.

(** The calls of the code agree with [wired] on every vector but IDT_UD. *)
Definition agrees (v : Z) : Prop :=
  match find_entry entries v, wired v with
  | Some (_, w, seg, d, g), Some (w', d', k) => seg = SEGSEL_KERNEL_CS /\ (d = 0 \/ d = 3) /\ w = reached v w' /\ d' = d /\ k = kind_of g
  | None, None => True
  | _, _ => False
  end.

#[local] Instance agrees_dec v : Decision (agrees v).
Proof. unfold agrees. destruct (find_entry entries v) as [[[[[? ?] ?] ?] ?]|], (wired v) as [[[? ?] ?]|]; apply _. Defined.

Lemma entries_agree v : 0 <= v < 256 -> agrees v.
Proof.
  assert (H : Forall agrees (seqZ 0 256)) by (apply (bool_decide_unpack _); vm_compute; exact I).
  intros Hv. rewrite Forall_forall in H. apply H, list_elem_of_In, elem_of_seqZ. lia.
Qed.

Lemma entries_nodup : NoDup (map (fun e : entry => e.1.1.1.1) entries).
Proof. apply (bool_decide_unpack _). by vm_compute. Qed.

Lemma entries_segsel : Forall (fun e : entry => 0 <= e.1.1.2 < 65536) entries.
Proof. apply (bool_decide_unpack _). by vm_compute. Qed.

Lemma entries_wired : Forall (fun e : entry => 0 <= e.1.1.1.1 < 256 /\ is_Some (wired (e.1.1.1.1))) entries.
Proof. apply (bool_decide_unpack _). by vm_compute. Qed.

(** The bytes that program the PIC timer, the last one first. *)
Definition timer_ports : list (Z * Z) := [(64, 46); (64, 155); (67, 54)].

Lemma init_IDT_run m : (forall w, 0 <= addr w < 2 ^ 32) ->
  exists f, init_IDT m = Ok (0, mk_machine f
      (Console.mk_console (Console.vmem (con m)) (Console.vmem (con m) 1) (Z.lor (Z.shiftl (Console.msb (con m)) 8) (Console.lsb (con m))) 0 (Console.lsb (con m)) (Console.msb (con m)))
      (Keyboard.mk_kbd (Keyboard.keybuf (kbd m)) 0 0 (Keyboard.kh (kbd m)))
      (Timer.set_numTicks 0 (Timer.set_ports (timer_ports ++ Timer.ports (tmr m)) (tmr m)))) /\
    (forall v e, find_entry entries v = Some e -> gate_at f v = Some (gate_of e)) /\
    (forall x, (forall e, e ∈ entries -> ~ in_entry (e.1.1.1.1) x) -> f x = bytes m x).
Proof.
  intros Ha. destruct (install_all_run entries m entries_segsel entries_nodup Ha) as (f & R & G & O).
  exists f. split; [|done]. rewrite init_IDT_split, (bind_ok _ _ _ _ _ R). reflexivity.
Qed.

(** (C31) Booting fills the interrupt table.  After [init_IDT] the processor finds, for
    each exception, device and system call, a present gate in the kernel's code
    segment.  It leads to the vector's own wrapper, with the one exception of IDT_UD,
    whose gate leads to de_wrapper instead of ud_wrapper.  A user program enters the
    kernel with [int] through the exceptions and the system calls, with interrupts
    enabled except in get_ticks, and never through the gates of the devices.  No other
    byte of memory changes, the keyboard buffer is empty, and the PIC timer is set to
    a hundredth of a second. *)
Theorem init_IDT_correct m : (forall w, 0 <= addr w < 2 ^ 32) ->
  exists m', init_IDT m = Ok (0, m') /\
    (forall v w d k, 0 <= v < 256 -> wired v = Some (w, d, k) ->
       let target := addr (if v =? IDT_UD then de_wrapper else w) in
       gate_at (bytes m') v = Some (mk_gate target SEGSEL_KERNEL_CS true d k) /\
       enter (bytes m') 3 v = if d =? 3 then Some (target, bool_decide (k = TRAP)) else None) /\
    (forall x, (forall v, 0 <= v < 256 -> is_Some (wired v) -> ~ in_entry v x) -> bytes m' x = bytes m x) /\
    Keyboard.front (kbd m') = 0 /\ Keyboard.rear (kbd m') = 0 /\
    (exists lo hi ps, Timer.ports (tmr m') = (64, hi) :: (64, lo) :: (67, 54) :: ps /\ lo + 256 * hi = Timer.TIMER_RATE / Timer.FREQ).
Proof.
  intros Ha. destruct (init_IDT_run m Ha) as (f & R & G & O). eexists. split; [exact R|]. cbn [bytes kbd tmr]. split; [|split; [|split; [done|split; [done|by exists 155, 46, (Timer.ports (tmr m))]]]].
  - intros v w d k Hv W. set (target := addr (if v =? IDT_UD then de_wrapper else w)). pose proof (entries_agree v Hv) as A. unfold agrees in A. rewrite W in A. destruct (find_entry entries v) as [e|] eqn:E; [|done].
    specialize (G v e E). destruct e as [[[[v' w'] seg] d'] g]. destruct A as (-> & Hd & -> & -> & ->).
    assert (Eg : gate_of (v', reached v w, SEGSEL_KERNEL_CS, d', g) = mk_gate target SEGSEL_KERNEL_CS true d' (kind_of g)) by (unfold gate_of, kind_of; by destruct Hd as [->| ->]).
    rewrite Eg in G. split; [exact G|]. unfold enter. rewrite G. cbn [present dpl offset kind andb]. destruct Hd as [->| ->]; [done|]. simpl. by destruct (kind_of g).
  - intros x Hx. apply O. intros e He. pose proof entries_wired as F. rewrite Forall_forall in F. apply list_elem_of_In in He. destruct (F e He). by apply Hx.
Qed.

End idt.

Definition demo_addr (w : wrapper) : Z := if decide (w = fork_wrapper) then 1052672 else 1048576.
Definition demo_machine : machine (KH := unit) :=
  mk_machine (fun _ => 0) (Console.mk_console (fun _ => 7) 0 0 0 0 0) (Keyboard.mk_kbd (fun _ => 0) 3 5 tt) Timer.demo_timer.

Lemma init_IDT_witness : exists m', init_IDT 4096 demo_addr demo_machine = Ok (0, m') /\
  enter 4096 (bytes m') 3 FORK_INT = Some (1052672, true) /\ enter 4096 (bytes m') 3 KEY_IDT_ENTRY = None.
Proof.
  destruct (init_IDT_correct 4096 demo_addr demo_machine) as (m' & R & G & _).
  - intros w. unfold demo_addr. destruct (decide (w = fork_wrapper)); lia.
  - exists m'. split; [exact R|]. split; [apply (G FORK_INT fork_wrapper 3 TRAP)|apply (G KEY_IDT_ENTRY keyboard_wrapper 0 INTERRUPT)]; (reflexivity || (vm_compute; split; congruence)).
Defined.

End Idt.
