(* ===== verification/Format.v ===== *)
(** * Text that the kernel formats (sprintf of the C library)

    Strings are lists of bytes without their terminating 0.  [hex] is [%x] of an
    unsigned int and [dec] is [%d] of an int: the digits are those of the number,
    and there are at most eight, respectively eleven, of them. *)

From Stdlib Require Import ZArith Lia String Ascii.
From stdpp Require Import base list tactics numbers.
From S2P Require Import Prelude.

Module Format.

Fixpoint str (s : string) : list Z :=
  match s with
  | EmptyString => []
  | String c s => Z.of_nat (nat_of_ascii c) :: str s
  end.

Definition digit (d : Z) : Z := if d <? 10 then 48 + d else 87 + d.
Definition undigit (c : Z) : Z := if c <? 58 then c - 48 else c - 87.

(** The digits of [x], the most significant first, before [acc]. *)
Fixpoint digits (fuel : nat) (base x : Z) (acc : list Z) : list Z :=
  match fuel with
  | O => acc
  | S fuel => if x <? base then digit x :: acc else digits fuel base (x / base) (digit (x mod base) :: acc)
  end.

Definition hex (x : Z) : list Z := digits 8 16 x [].
Definition dec (x : Z) : list Z := if x <? 0 then 45 :: digits 10 10 (- x) [] else digits 10 10 x [].

Definition value (base : Z) (l : list Z) : Z := foldl (fun a c => base * a + undigit c) 0 l.

Lemma undigit_digit d : 0 <= d < 16 -> undigit (digit d) = d.
Proof. intros H. unfold undigit, digit. bool_cases; lia. Qed.

Lemma value_acc base l : forall a, foldl (fun a c => base * a + undigit c) a l = base ^ Z.of_nat (length l) * a + value base l.
Proof.
  unfold value. induction l as [|c l IH]; intros a; cbn [foldl length]; [lia|].
  rewrite (IH (base * a + _)), (IH (base * 0 + _)). rewrite Nat2Z.inj_succ, Z.pow_succ_r by lia. lia.
Qed.

Lemma value_digits base : 1 < base <= 16 -> forall fuel x acc, 0 <= x < base ^ Z.of_nat fuel -> (0 < fuel)%nat ->
  value base (digits fuel base x acc) = base ^ Z.of_nat (length acc) * x + value base acc.
Proof.
  intros Hb. induction fuel as [|fuel IH]; intros x acc Hx Hf; [lia|]. cbn [digits].
  assert (Hc : forall d acc', 0 <= d < base -> value base (digit d :: acc') = base ^ Z.of_nat (length acc') * d + value base acc').
  { intros d acc' Hd. unfold value at 1. cbn [foldl]. rewrite value_acc, undigit_digit by lia. f_equal. lia. }
  destruct (Z.ltb_spec x base) as [Hlt|Hge]; [apply Hc; lia|].
  rewrite Nat2Z.inj_succ, Z.pow_succ_r in Hx by lia. destruct fuel as [|fuel]; [simpl in Hx; lia|].
  rewrite IH; [|split; [apply Z.div_pos; lia|apply Z.div_lt_upper_bound; lia]|lia].
  cbn [length]. rewrite Hc by (apply Z.mod_pos_bound; lia). rewrite (Nat2Z.inj_succ (length acc)), Z.pow_succ_r by lia.
  pose proof (Z.div_mod x base ltac:(lia)) as E. set (p := base ^ Z.of_nat (length acc)). rewrite E at 3. ring.
Qed.

Lemma digits_length base : forall fuel x acc, (length (digits fuel base x acc) <= fuel + length acc)%nat.
Proof. induction fuel as [|fuel IH]; intros x acc; cbn [digits]; [lia|]. destruct (x <? base); [simpl; lia|]. specialize (IH (x / base) (digit (x mod base) :: acc)). simpl in *. lia. Qed.

Lemma hex_value x : 0 <= x < 2 ^ 32 -> value 16 (hex x) = x.
Proof. intros Hx. unfold hex. rewrite value_digits; [|lia|simpl; lia|lia]. unfold value. simpl. lia. Qed.

Lemma hex_length x : (length (hex x) <= 8)%nat.
Proof. pose proof (digits_length 16 8 x []). unfold hex. simpl in *. lia. Qed.

Lemma dec_length x : (length (dec x) <= 11)%nat.
Proof. unfold dec. destruct (x <? 0); [pose proof (digits_length 10 10 (- x) [])|pose proof (digits_length 10 10 x [])]; simpl in *; lia. Qed.

End Format.
