(* ===== verification/TrapFrame.v ===== *)
(** * Entering and leaving the kernel (handler_wrapper.S, asm_helper.S, asm_ret_newureg.S)

    The assembly that saves the registers of a user thread when it traps, and the
    part of exception_handler.c that reads them back.  A [cpu] is the registers a
    user thread can see and the kernel stack as a list of words, the top first; an
    instruction is an operation on it, a pop of an empty stack a fault.  The
    return address that [call] pushes is a parameter where it stays on the stack:
    [asm_push_ss] and [asm_push_generic] return through a copy of theirs and leave
    the original behind, and their inverses use that slot.

    [interrupt] is what the processor does on a trap from user mode. *)

From Stdlib Require Import ZArith Lia.
From stdpp Require Import base list tactics numbers.
From S2P Require Import Prelude ThrMgmt Idt.

Module TrapFrame.

Definition SEGSEL_KERNEL_DS : Z := 24.

Record regs := mk_regs {
  ds : Z; es : Z; fs : Z; gs : Z; edi : Z; esi : Z; ebp : Z; ebx : Z; edx : Z; ecx : Z; eax : Z;
  eip : Z; cs : Z; eflags : Z; esp : Z; ss : Z }.
Record cpu := mk_cpu { rg : regs; stk : list Z }.

Definition set_segs a b c d r := mk_regs a b c d (edi r) (esi r) (ebp r) (ebx r) (edx r) (ecx r) (eax r) (eip r) (cs r) (eflags r) (esp r) (ss r).
Definition set_general di si bp b d c a r := mk_regs (ds r) (es r) (fs r) (gs r) di si bp b d c a (eip r) (cs r) (eflags r) (esp r) (ss r).
Definition set_ebp x r := set_general (edi r) (esi r) x (ebx r) (edx r) (ecx r) (eax r) r.
Definition set_eax x r := set_general (edi r) (esi r) (ebp r) (ebx r) (edx r) (ecx r) x r.
Definition set_return ip c fl sp s r := mk_regs (ds r) (es r) (fs r) (gs r) (edi r) (esi r) (ebp r) (ebx r) (edx r) (ecx r) (eax r) ip c fl sp s.

(** ** Instructions *)

Definition reg (f : regs -> Z) : M cpu Z := gets (fun c => f (rg c)).
Definition upd (f : regs -> regs) : M cpu unit := modify (fun c => mk_cpu (f (rg c)) (stk c)).
Definition pushl (v : Z) : M cpu unit := modify (fun c => mk_cpu (rg c) (v :: stk c)).
Definition popl : M cpu Z := fun c =>
  match stk c with v :: l => Ok (v, mk_cpu (rg c) l) | [] => Fault end.
(** [pushl 4n(%esp)], and [popl 4n(%esp)], whose address is computed after the pop. *)
Definition pushl_at (n : nat) : M cpu unit := c ← get; v ← deref (stk c !! n); pushl v.
Definition popl_at (n : nat) : M cpu unit :=
  v ← popl;
  c ← get;
  _ ← deref (stk c !! n);
  modify (fun c => mk_cpu (rg c) (<[n := v]> (stk c))).
Definition ret : M cpu unit := popl;; mret tt.

(** The stack pointer that [pusha] saves is never used. *)
Definition pusha (kesp : Z) : M cpu unit :=
  r ← gets rg;
  pushl (eax r);; pushl (ecx r);; pushl (edx r);; pushl (ebx r);; pushl kesp;; pushl (ebp r);; pushl (esi r);; pushl (edi r).
Definition popa : M cpu unit :=
  di ← popl; si ← popl; bp ← popl; popl;; b ← popl; d ← popl; c ← popl; a ← popl;
  upd (set_general di si bp b d c a).

Definition iret : M cpu unit :=
  ip ← popl; c ← popl; fl ← popl; sp ← popl; s ← popl; upd (set_return ip c fl sp s).

Definition interrupt (error_code : option Z) : M cpu unit :=
  r ← gets rg;
  pushl (ss r);; pushl (esp r);; pushl (eflags r);; pushl (cs r);; pushl (eip r);;
  match error_code with Some e => pushl e | None => mret tt end.

(** ** asm_helper.S *)

Definition asm_push_ss (ret_addr : Z) : M cpu unit :=
  pushl ret_addr;;
  r ← gets rg;
  pushl (gs r);; pushl (fs r);; pushl (es r);; pushl (ds r);;
  pushl_at 4;;
  ret.

Definition asm_pop_ss (ret_addr : Z) : M cpu unit :=
  pushl ret_addr;;
  popl_at 4;;
  a ← popl; b ← popl; c ← popl; d ← popl;
  upd (set_segs a b c d);;
  ret.

Definition asm_push_generic (ret_addr : Z) : M cpu unit :=
  pushl ret_addr;;
  r ← gets rg;
  pushl (ebx r);; pushl (ecx r);; pushl (edx r);; pushl (esi r);; pushl (edi r);; pushl (ebp r);;
  pushl_at 6;;
  ret.

Definition asm_pop_generic (ret_addr : Z) : M cpu unit :=
  pushl ret_addr;;
  popl_at 6;;
  bp ← popl; di ← popl; si ← popl; d ← popl; c ← popl; b ← popl;
  upd (fun r => set_general di si bp b d c (eax r) r);;
  ret.

Definition asm_set_ss : M cpu unit := upd (set_segs SEGSEL_KERNEL_DS SEGSEL_KERNEL_DS SEGSEL_KERNEL_DS SEGSEL_KERNEL_DS).

(** ** The wrappers of the exceptions *)

Import Idt.

(** The type a wrapper pushes, and whether it drops an error code before [iret]. *)
Definition exception_wrapper (w : wrapper) : option (Z * bool) :=
  match w with
  | de_wrapper => Some (IDT_DE, false) | db_wrapper => Some (IDT_DB, false) | nmi_wrapper => Some (IDT_NMI, false)
  | bp_wrapper => Some (IDT_BP, false) | of_wrapper => Some (IDT_OF, false) | br_wrapper => Some (IDT_BR, false)
  | ud_wrapper => Some (IDT_UD, false) | nm_wrapper => Some (IDT_NM, false) | df_wrapper => Some (IDT_DF, true)
  | cso_wrapper => Some (IDT_CSO, true) | ts_wrapper => Some (IDT_TS, true) | np_wrapper => Some (IDT_NP, true)
  | ss_wrapper => Some (IDT_SS, true) | gp_wrapper => Some (IDT_GP, true) | pf_wrapper => Some (IDT_PF, true)
  | mf_wrapper => Some (IDT_MF, true) | ac_wrapper => Some (IDT_AC, true) | mc_wrapper => Some (IDT_MC, true)
  | xf_wrapper => Some (IDT_XF, true)
  | _ => None
  end.

(** Up to the first instruction of the body of [exception_handler], whose frame
    pointer is then the top of the stack. *)
Definition exception_entry (kesp ra1 ra2 : Z) (ty : Z) : M cpu unit :=
  pusha kesp;;
  asm_push_ss ra1;;
  asm_set_ss;;
  pushl ty;;
  pushl ra2;;
  bp ← reg ebp;
  pushl bp.

(** From its return. *)
Definition exception_exit (ra : Z) (pops_error_code : bool) : M cpu unit :=
  bp ← popl;
  upd (set_ebp bp);;
  ret;;
  popl;;
  asm_pop_ss ra;;
  popa;;
  (if pops_error_code then popl;; mret tt else mret tt);;
  iret.

(** The wrapper of a system call whose handler leaves [result] in eax, between
    saving and restoring the registers. *)
Definition syscall_wrapper (ra1 ra2 ra3 ra4 result : Z) : M cpu unit :=
  asm_push_generic ra1;;
  asm_push_ss ra2;;
  asm_set_ss;;
  upd (set_eax result);;
  asm_pop_ss ra3;;
  asm_pop_generic ra4;;
  iret.

(** ** exception_handler.c: reading the registers *)

Definition has_error_code (exception_type : Z) : bool :=
  (exception_type =? IDT_DF) || ((IDT_TS <=? exception_type) && (exception_type <=? IDT_PF)) || (exception_type =? IDT_AC).

(** [ebp i] is the word at [ebp + i]. *)
Definition get_ureg (cause : Z) (ebp : Z -> Z) (has_error_code : Z) : ureg_t :=
  mk_ureg cause 0
    (ebp 3) (ebp (3 + 1)) (ebp (3 + 2)) (ebp (3 + 3))
    (ebp 8) (ebp (8 + 1)) (ebp (8 + 2)) 0 (ebp (8 + 4)) (ebp (8 + 5)) (ebp (8 + 6)) (ebp (8 + 7))
    (if negb (has_error_code =? 0) then ebp 16 else 0)
    (ebp (16 + has_error_code)) (ebp (16 + has_error_code + 1)) (ebp (16 + has_error_code + 2))
    (ebp (16 + has_error_code + 3)) (ebp (16 + has_error_code + 4)).

Definition frame (c : cpu) : Z -> Z := fun i => nth (Z.to_nat i) (stk c) 0.

(** The words of a ureg in memory. *)
Definition ureg_words (u : ureg_t) : list Z :=
  [u_cause u; u_cr2 u; u_ds u; u_es u; u_fs u; u_gs u; u_edi u; u_esi u; u_ebp u; u_zero u; u_ebx u; u_edx u; u_ecx u; u_eax u;
   u_error_code u; u_eip u; u_cs u; u_eflags u; u_esp u; u_ss u].

(** ** asm_ret_newureg.S: the stack pointer is moved into the ureg. *)
Definition asm_ret_newureg (u : ureg_t) : M cpu unit :=
  modify (fun c => mk_cpu (rg c) (drop 2 (ureg_words u)));;
  a ← popl; b ← popl; c ← popl; d ← popl;
  upd (set_segs a b c d);;
  di ← popl; si ← popl; bp ← popl; popl;; bx ← popl; dx ← popl; cx ← popl; ax ← popl;
  upd (set_general di si bp bx dx cx ax);;
  popl;;
  iret.

(** ** asm_ret_swexn_handler.S: [subl $0] leaves eax as it is, the selector. *)
Definition asm_ret_swexn_handler (ip c fl sp s : Z) : M cpu unit :=
  modify (fun x => mk_cpu (rg x) [ip; c; fl; sp; s]);;
  upd (set_segs s s s s);;
  upd (set_eax s);;
  upd (set_general 0 0 0 0 0 0 s);;
  iret.

(** ** Theorems *)

Definition ureg_of (cause error_code : Z) (r : regs) : ureg_t :=
  mk_ureg cause 0 (ds r) (es r) (fs r) (gs r) (edi r) (esi r) (ebp r) 0 (ebx r) (edx r) (ecx r) (eax r) error_code (eip r) (cs r) (eflags r) (esp r) (ss r).

(** The exceptions for which the processor pushes an error code: double fault, invalid
    TSS, segment not present, stack segment, general protection, page fault and
    alignment check. *)
Definition pushes_code (v : Z) : bool := existsb (Z.eqb v) [8; 10; 11; 12; 13; 14; 17].

(** The wrappers that drop an error code which the processor has not pushed. *)
Definition miscounts (w : wrapper) : bool := match w with cso_wrapper | mf_wrapper | mc_wrapper | xf_wrapper => true | _ => false end.

(** (C29) What a trap saves and restores.  Whatever exception with a wrapper occurs, and
    whatever the user registers [r], once the wrapper has saved them [get_ureg] finds
    them all on the stack, with the error code when the processor has pushed one.  If a
    user program hands these registers back through swexn, [asm_ret_newureg] restores
    them.  If the handler returns, the thread continues with exactly these registers
    and the kernel stack is as before the trap, except through the wrappers of the
    exceptions 9, 16, 18 and 19: these drop one word too many, and the thread goes on
    with cs in eip, eflags in cs, esp in eflags, ss in esp, and the next word of the
    kernel stack in ss. *)
Theorem exception_registers_roundtrip w ty pops r st e kesp ra1 ra2 ra3 :
  exception_wrapper w = Some (ty, pops) ->
  let code := has_error_code ty in
  exists c, (interrupt (if pushes_code ty then Some e else None);; exception_entry kesp ra1 ra2 ty) (mk_cpu r st) = Ok (tt, c) /\
    get_ureg ty (frame c) (if code then 1 else 0) = ureg_of ty (if pushes_code ty then e else 0) r /\
    (forall c', exists c'', asm_ret_newureg (get_ureg ty (frame c) (if code then 1 else 0)) c' = Ok (tt, c'') /\ rg c'' = r) /\
    (if miscounts w then forall x st', st = x :: st' -> exception_exit ra3 pops c = Ok (tt, mk_cpu (set_return (cs r) (eflags r) (esp r) (ss r) x r) st')
     else exception_exit ra3 pops c = Ok (tt, mk_cpu r st)).
Proof.
  intros E code. destruct r.
  destruct w; try discriminate E; injection E as <- <-; (eexists; split; [vm_compute; reflexivity|]; split; [vm_compute; reflexivity|];
    split; [intros []; eexists; split; vm_compute; reflexivity|]; first [intros x st' ->; vm_compute; reflexivity | vm_compute; reflexivity]).
Qed.

(** A system call changes no register of its caller but eax. *)
Theorem syscall_preserves_registers r st ra1 ra2 ra3 ra4 result :
  (interrupt None;; syscall_wrapper ra1 ra2 ra3 ra4 result) (mk_cpu r st) = Ok (tt, mk_cpu (set_eax result r) st).
Proof. destruct r. vm_compute. reflexivity. Qed.

Lemma exception_registers_witness :
  let r := mk_regs 43 43 43 43 1 2 3 4 5 6 7 16777216 35 514 20000000 43 in
  (exists c, (interrupt (Some 7);; exception_entry 1 2 3 IDT_PF) (mk_cpu r [99]) = Ok (tt, c) /\ exception_exit 4 true c = Ok (tt, mk_cpu r [99])) /\
  (exists c, (interrupt None;; exception_entry 1 2 3 IDT_DE) (mk_cpu r [99]) = Ok (tt, c) /\ exception_exit 4 false c = Ok (tt, mk_cpu r [99])) /\
  (exists c, (interrupt None;; exception_entry 1 2 3 IDT_MF) (mk_cpu r [99]) = Ok (tt, c) /\
     exception_exit 4 true c = Ok (tt, mk_cpu (mk_regs 43 43 43 43 1 2 3 4 5 6 7 35 514 20000000 43 99) [])).
Proof.
  intros r. split; [|split].
  - destruct (exception_registers_roundtrip pf_wrapper IDT_PF true r [99] 7 1 2 3 4 eq_refl) as (c & R & _ & _ & X). exists c. split; [exact R|exact X].
  - destruct (exception_registers_roundtrip de_wrapper IDT_DE false r [99] 7 1 2 3 4 eq_refl) as (c & R & _ & _ & X). exists c. split; [exact R|exact X].
  - destruct (exception_registers_roundtrip mf_wrapper IDT_MF true r [99] 7 1 2 3 4 eq_refl) as (c & R & _ & _ & X). exists c. split; [exact R|exact (X 99 [] eq_refl)].
Defined.

End TrapFrame.
