(* ===== verification/Exceptions.v ===== *)
(** * Exceptions (exception_handler.c)

    The handler of every exception: a write fault on a zero-fill page is repaired
    and the instruction runs again; otherwise the thread's registered handler is
    started on the stack it registered; a thread without one is killed, after the
    reason and its registers have been printed.

    The handler runs on the state [sys] of the system calls.  It is cut where a
    print suspends the thread: [interpret_finish] and [dump_finish] are what it
    does when the two requests have been answered.  The words of the kernel stack
    from the frame pointer on are a function (see TrapFrame.v); cr2 and the initial
    eflags of the loader are parameters.  [is_page_ZFOD] of vm.c is used through the
    interface [ZeroFill], which VmSpace.v discharges. *)

From Stdlib Require Import ZArith Lia String.
From stdpp Require Import base gmap list tactics numbers.
From S2P Require Import Prelude Vm AddrSpace SimpleQueue ThreadState Mutex Message ControlBlock Scheduler ContextSwitch ThrMgmt Loader SysState Exec Syscalls Idt Format TrapFrame.

#[local] Open Scope Z_scope.

(** A write by user code to a present page. *)
Definition write_fault (error_code : Z) : bool := Vm.IS_SET error_code Vm.PG_P && Vm.IS_SET error_code Vm.PG_US && Vm.IS_SET error_code Vm.PG_RW.

Class ZeroFill (S : Type) `{AddrSpace S} := { is_page_ZFOD : Z -> Z -> bool -> M S Z }.

Class ZeroFillLaws (S : Type) `{ZeroFill S, !AddrSpaceLaws S} := {
  zfod_other s va error_code : wf s -> write_fault error_code = false -> is_page_ZFOD va error_code true s = Ok (0, s);
  zfod_user s va error_code : wf s -> write_fault error_code = true -> USER_MEM_START <= va < 2 ^ 32 ->
    if lazy s va then exists s', is_page_ZFOD va error_code true s = Ok (1, s') /\ wf s' /\
      (forall x, byte_at s' x = byte_at s x) /\
      (forall x, backed s' x = backed s x || (x / PAGE_SIZE =? va / PAGE_SIZE)) /\
      (forall x, lazy s' x = lazy s x && negb (x / PAGE_SIZE =? va / PAGE_SIZE))
    else is_page_ZFOD va error_code true s = Ok (0, s)
}.

Module Exceptions.
Import Scheduler ContextSwitch Sys Exec Syscalls Format TrapFrame.

Definition MAX_BUF_SIZE : Z := 512.
Definition BAD_ADDR : Z := 3735928559.
Definition SEGSEL_USER_CS : Z := 35.
Definition SEGSEL_USER_DS : Z := 43.

(** ** Texts *)

Inductive piece := Lit (s : string) | Hex (x : Z) | Dec (x : Z).

Definition render (p : piece) : list Z := match p with Lit s => str s | Hex x => hex x | Dec x => dec x end.
Definition sprintf (ps : list piece) : list Z := ps ≫= render.

(** A new line. *)
Definition nl : string := String (Ascii.ascii_of_nat 10) EmptyString.

Definition dump_text (tid : Z) (u : ureg_t) : list piece :=
  [Lit (nl ++ "Register dump for thread tid "); Dec tid; Lit (":" ++ nl ++ "cause: 0x"); Hex (u_cause u); Lit ", cr2: 0x"; Hex (u_cr2 u);
   Lit ", ds: 0x"; Hex (u_ds u); Lit (nl ++ "es: 0x"); Hex (u_es u); Lit ", fs: 0x"; Hex (u_fs u); Lit ", gs: 0x"; Hex (u_gs u);
   Lit (nl ++ "edi: 0x"); Hex (u_edi u); Lit ", esi: 0x"; Hex (u_esi u); Lit ", ebp: 0x"; Hex (u_ebp u);
   Lit (nl ++ "zero: 0x"); Hex (u_zero u); Lit ", ebx: 0x"; Hex (u_ebx u); Lit ", edx: 0x"; Hex (u_edx u);
   Lit (nl ++ "ecx: 0x"); Hex (u_ecx u); Lit ", eax: 0x"; Hex (u_eax u); Lit ", error code: 0x"; Hex (u_error_code u);
   Lit (nl ++ "eip: 0x"); Hex (u_eip u); Lit ", cs: 0x"; Hex (u_cs u); Lit ", eflags: 0x"; Hex (u_eflags u);
   Lit (nl ++ "esp: 0x"); Hex (u_esp u); Lit ", ss: 0x"; Hex (u_ss u); Lit (nl)]%string.

Definition page_fault_text (fault_va error_code : Z) : list piece :=
  [Lit "Page fault: a "; Lit (if Vm.IS_SET error_code Vm.PG_RW then "write" else "read"); Lit " in ";
   Lit (if Vm.IS_SET error_code Vm.PG_US then "user" else "kernel"); Lit " mode to a ";
   Lit (if Vm.IS_SET error_code Vm.PG_P then "protected" else "non-present"); Lit " page at address 0x"; Hex fault_va]%string.

(** The message of each case of [exception_interpret]. *)
Definition exception_text (exception_type fault_va error_code : Z) : list piece :=
  (match exception_type with
   | 0 => [Lit "Division Error"]
   | 1 => [Lit "Debug Exception"]
   | 2 => [Lit "Non-Maskable Interrupt"]
   | 3 => [Lit "Breakpoint"]
   | 4 => [Lit "Overflow"]
   | 5 => [Lit "BOUND Range exceeded"]
   | 6 => [Lit "UnDefined Opcode"]
   | 7 => [Lit "No Math coprocessor"]
   | 8 => [Lit "Double Fault"]
   | 9 => [Lit "Coprocessor Segment Overrun"]
   | 10 => [Lit "Invalid Task Segment Selector"]
   | 11 => [Lit "Segment Not Present"]
   | 12 => [Lit "Stack Segment Fault"]
   | 13 => [Lit "General Protection Fault"]
   | 14 => page_fault_text fault_va error_code
   | 16 => [Lit "X87 Math Fault"]
   | 17 => [Lit "Alignment Check"]
   | 18 => [Lit "Machine Check"]
   | 19 => [Lit "SSE Floating Point Exception"]
   | _ => [Lit "Unknown exception type: "; Dec exception_type]
   end)%string.

(** ** The handler *)

Inductive handled :=
| Returned
| Handler (eip cs eflags esp ss : Z)
| Interpreting (u : ureg_t) (kernel_buf next : Z)
| Dumping (kernel_buf next : Z)
| Vanishing (task : option Z) (next : Z).

Definition set_cr2 v (u : ureg_t) : ureg_t :=
  mk_ureg (u_cause u) v (u_ds u) (u_es u) (u_fs u) (u_gs u) (u_edi u) (u_esi u) (u_ebp u) (u_zero u) (u_ebx u) (u_edx u) (u_ecx u) (u_eax u)
    (u_error_code u) (u_eip u) (u_cs u) (u_eflags u) (u_esp u) (u_ss u).

(** The bytes of a ureg. *)
Definition ureg_bytes (u : ureg_t) : list Z := ureg_words u ≫= word_bytes.

Section handler.
Context {S : Type} `{AS : AddrSpace S} `{UC : !UserCheck S} `{ZF : !ZeroFill S}.
Context (clone_pd : Z -> M kernel Z) (free_entire_space : Z -> bool -> M kernel unit).

(** A print by the kernel of a text of its own. *)
Definition kernel_print (cpu this : Z) (text : list Z) : M (sys S) (Z + Z * Z) :=
  print_syscall_handler clone_pd free_entire_space cpu this (Z.of_nat (length text)) 0 true text.

Definition exception_interpret (cpu this exception_type fault_va error_code : Z) : M (sys S) (Z + Z * Z) :=
  kernel_print cpu this (sprintf (exception_text exception_type fault_va error_code)).

Definition dump_register (cpu this : Z) (u : ureg_t) : M (sys S) (Z + Z * Z) :=
  t ← on_ker (rd_tcb this);
  kernel_print cpu this (sprintf (dump_text (tid t) u)).

Definition kill_end (cpu this : Z) : M (sys S) handled :=
  r ← vanish_syscall_handler clone_pd free_entire_space cpu this true;
  mret (Vanishing r.1 r.2).

(** A print that fails does not suspend. *)
Definition kill_dump (cpu this : Z) (u : ureg_t) : M (sys S) handled :=
  r ← dump_register cpu this u;
  match r with inl _ => kill_end cpu this | inr (kernel_buf, n) => mret (Dumping kernel_buf n) end.

Definition interpret_finish (cpu this kernel_buf : Z) (u : ureg_t) : M (sys S) handled :=
  print_finish this kernel_buf;; kill_dump cpu this u.
Definition dump_finish (cpu this kernel_buf : Z) : M (sys S) handled :=
  print_finish this kernel_buf;; kill_end cpu this.

Definition kill (cpu this exception_type : Z) (u : ureg_t) : M (sys S) handled :=
  r ← exception_interpret cpu this exception_type (u_cr2 u) (u_error_code u);
  match r with inl _ => kill_dump cpu this u | inr (kernel_buf, n) => mret (Interpreting u kernel_buf n) end.

(** The stack of the registered handler. *)
Definition push_frame (cpu esp3 arg : Z) (u : ureg_t) : M (sys S) Z :=
  let actual_ureg_pos := w32 (esp3 - ThrMgmt.sizeof_ureg) in
  on_space cpu (write_bytes actual_ureg_pos (ureg_bytes u));;
  on_space cpu (write_word (w32 (actual_ureg_pos - 4)) actual_ureg_pos);;
  on_space cpu (write_word (w32 (actual_ureg_pos - 2 * 4)) arg);;
  on_space cpu (write_word (w32 (actual_ureg_pos - 3 * 4)) BAD_ADDR);;
  mret (w32 (actual_ureg_pos - 3 * 4)).

Definition run_handler (cpu this init_eflags p : Z) (u : ureg_t) : M (sys S) handled :=
  s ← get;
  w ← deref (swexns (mem (ker s)) !! p);
  on_ker (on_mem (ControlBlock.free_swexn p));;
  on_ker (upd_tcb this (set_swexn 0));;
  sp ← push_frame cpu (esp3 w) (arg w) u;
  mret (Handler (ControlBlock.eip w) SEGSEL_USER_CS init_eflags sp SEGSEL_USER_DS).

Definition exception_handler (cpu this cr2 init_eflags : Z) (ebp : Z -> Z) (exception_type : Z) : M (sys S) handled :=
  let u := get_ureg exception_type ebp (if has_error_code exception_type then 1 else 0) in
  let u := if exception_type =? Idt.IDT_PF then set_cr2 cr2 u else u in
  z ← (if exception_type =? Idt.IDT_PF then on_space cpu (is_page_ZFOD (u_cr2 u) (u_error_code u) true) else mret 0);
  if negb (z =? 0) then mret Returned else
  if this =? 0 then panic else
  t ← on_ker (rd_tcb this);
  if swexn_struct t =? 0 then kill cpu this exception_type u
  else run_handler cpu this init_eflags (swexn_struct t) u.
End handler.

(** ** The texts fit *)

Definition width (p : piece) : nat := match p with Lit s => length (str s) | Hex _ => 8 | Dec _ => 11 end.
Definition widths (ps : list piece) : nat := foldr (fun p n => width p + n)%nat 0%nat ps.

Lemma sprintf_length ps : (length (sprintf ps) <= widths ps)%nat.
Proof.
  induction ps as [|p ps IH]; [done|]. change (sprintf (p :: ps)) with (render p ++ sprintf ps). rewrite length_app. cbn [widths foldr]. fold (widths ps).
  assert (length (render p) <= width p)%nat; [|lia]. destruct p; simpl; [done|apply hex_length|apply dec_length].
Qed.

Lemma fits ps n : (widths ps <=? n)%nat = true -> (length (sprintf ps) <= n)%nat.
Proof. intros H%Nat.leb_le. pose proof (sprintf_length ps). lia. Qed.

(** (C30) The buffers of the handler are large enough: whatever the exception, its
    address and error code and the registers, the message and the register dump,
    with the terminating 0, fit into [MAX_BUF_SIZE] bytes. *)
Theorem exception_texts_fit exception_type fault_va error_code tid u :
  Z.of_nat (length (sprintf (exception_text exception_type fault_va error_code))) < MAX_BUF_SIZE /\
  Z.of_nat (length (sprintf (dump_text tid u))) < MAX_BUF_SIZE.
Proof.
  assert (H1 : (length (sprintf (exception_text exception_type fault_va error_code)) <= 511)%nat).
  { apply fits. unfold exception_text, page_fault_text.
    destruct (Vm.IS_SET error_code Vm.PG_RW), (Vm.IS_SET error_code Vm.PG_US), (Vm.IS_SET error_code Vm.PG_P);
      repeat (match goal with |- context [match ?x with _ => _ end] => is_var x; destruct x end); vm_compute; reflexivity. }
  assert (H2 : (length (sprintf (dump_text tid u)) <= 511)%nat) by (apply fits; vm_compute; reflexivity).
  unfold MAX_BUF_SIZE. lia.
Qed.

(** ** The frame of a registered handler *)

Lemma put_app f a l1 l2 x : put f a (l1 ++ l2) x = put (put f a l1) (a + Z.of_nat (length l1)) l2 x.
Proof.
  unfold put. rewrite length_app. set (n1 := length l1). set (n2 := length l2).
  destruct (Z.leb_spec (a + Z.of_nat n1) x), (Z.ltb_spec x (a + Z.of_nat n1 + Z.of_nat n2)), (Z.leb_spec a x), (Z.ltb_spec x (a + Z.of_nat (n1 + n2))),
    (Z.ltb_spec x (a + Z.of_nat n1)); cbn [andb]; try lia; try done.
  - rewrite app_nth2 by (unfold n1 in *; lia). f_equal. unfold n1 in *. lia.
  - by rewrite app_nth1 by (unfold n1 in *; lia).
Qed.

Lemma words_put ws : forall f a i w, Forall is_u32 ws -> ws !! i = Some w -> word_of (put f a (ws ≫= word_bytes)) (a + 4 * Z.of_nat i) = w.
Proof.
  induction ws as [|v ws IH]; intros f a i w F E; [done|]. apply Forall_cons_1 in F as [Hv F]. rewrite bind_cons.
  rewrite (word_of_ext _ (put (put f a (word_bytes v)) (a + 4) (ws ≫= word_bytes))) by (intros x _; by rewrite put_app).
  destruct i as [|i].
  - injection E as <-. rewrite Z.add_0_r, word_put_out by lia. by apply word_put.
  - replace (a + 4 * Z.of_nat (Datatypes.S i)) with (a + 4 + 4 * Z.of_nat i) by lia. by apply IH.
Qed.

Lemma words_length (ws : list Z) : length (ws ≫= word_bytes) = (4 * length ws)%nat.
Proof. induction ws as [|v ws IH]; [done|]. rewrite bind_cons, length_app, IH. simpl. lia. Qed.

Lemma ureg_bytes_length u : length (ureg_bytes u) = 80%nat.
Proof. unfold ureg_bytes. by rewrite words_length. Qed.

Lemma ureg_bytes_ok u : Forall is_byte (ureg_bytes u).
Proof. unfold ureg_bytes. induction (ureg_words u) as [|w ws IH]; [done|]. rewrite bind_cons. apply Forall_app. split; [apply word_bytes_ok|done]. Qed.


Section frame.
Context {S : Type} `{AS : AddrSpace S} `{UC : !UserCheck S} `{ZF : !ZeroFill S} `{AL : !AddrSpaceLaws S} `{UL : !UserCheckLaws S} `{ZL : !ZeroFillLaws S}.
Context (clone_pd : Z -> M kernel Z) (free_entire_space : Z -> bool -> M kernel unit).

Definition on_cpu (cpu : Z) (sp : S) (s : sys S) : sys S := with_spaces (<[cr3 (ker s) cpu := sp]> (spaces s)) s.

Lemma on_space_then {A B} cpu (m : M S A) (k : A -> M (sys S) B) s sp a sp' : spaces s !! cr3 (ker s) cpu = Some sp -> m sp = Ok (a, sp') ->
  (on_space cpu m ≫= k) s = k a (on_cpu cpu sp' s).
Proof. intros E R. by rewrite (bind_ok _ _ _ _ _ (on_space_ok m s cpu sp a sp' E R)). Qed.

Lemma on_cpu_twice cpu sp sp' s : on_cpu cpu sp' (on_cpu cpu sp s) = on_cpu cpu sp' s.
Proof. unfold on_cpu. simpl. by rewrite insert_insert_eq. Qed.

Lemma on_cpu_space cpu sp s : spaces (on_cpu cpu sp s) !! cr3 (ker (on_cpu cpu sp s)) cpu = Some sp.
Proof. apply lookup_insert_eq. Qed.

Lemma on_cpu_id cpu sp s : spaces s !! cr3 (ker s) cpu = Some sp -> on_cpu cpu sp s = s.
Proof. intros E. unfold on_cpu. rewrite insert_id by done. by destruct s. Qed.

(** What the registered handler finds on its stack: an address to which it cannot
    return, its two arguments, and the registers. *)
Record frame_at (sp : S) (esp arg : Z) (u : ureg_t) : Prop := {
  fr_ret : word_of (byte_at sp) esp = BAD_ADDR;
  fr_arg : word_of (byte_at sp) (esp + 4) = arg;
  fr_ptr : word_of (byte_at sp) (esp + 8) = esp + 12;
  fr_ureg : forall i w, ureg_words u !! i = Some w -> word_of (byte_at sp) (esp + 12 + 4 * Z.of_nat i) = w }.

Lemma push_frame_run s cpu sp esp3 arg u : spaces s !! cr3 (ker s) cpu = Some sp -> wf sp -> 92 <= esp3 < 2 ^ 32 ->
  (forall x, esp3 - 92 <= x < esp3 -> backed sp x = true) -> is_u32 arg -> Forall is_u32 (ureg_words u) ->
  exists sp', push_frame cpu esp3 arg u s = Ok (esp3 - 92, on_cpu cpu sp' s) /\ same_map sp sp' /\ frame_at sp' (esp3 - 92) arg u /\
    forall x, ~ (esp3 - 92 <= x < esp3) -> byte_at sp' x = byte_at sp x.
Proof.
  intros E W He B Ha Hu. unfold push_frame, ThrMgmt.sizeof_ureg. rewrite (w32_small (esp3 - 80)), !w32_small by lia. set (a := esp3 - 80).
  assert (Hl : length (ureg_bytes u) = 80%nat) by apply ureg_bytes_length.
  destruct (write_bytes_ok (ureg_bytes u) sp a W (ureg_bytes_ok u)) as (sp1 & R1 & M1 & Y1); [intros i Hi; apply B; lia|].
  rewrite (on_space_then _ _ _ _ _ _ _ E R1). pose proof (sm_wf _ _ M1) as W1.
  destruct (write_word_ok sp1 (a - 4) a W1) as (sp2 & R2 & M2 & Y2); [intros i Hi; rewrite (sm_backed _ _ M1); apply B; lia|].
  rewrite (on_space_then _ _ _ _ _ _ _ (on_cpu_space cpu sp1 s) R2), on_cpu_twice. pose proof (same_map_trans _ _ _ M1 M2) as M12. pose proof (sm_wf _ _ M2) as W2.
  destruct (write_word_ok sp2 (a - 2 * 4) arg W2) as (sp3 & R3 & M3 & Y3); [intros i Hi; rewrite (sm_backed _ _ M12); apply B; lia|].
  rewrite (on_space_then _ _ _ _ _ _ _ (on_cpu_space cpu sp2 s) R3), on_cpu_twice. pose proof (same_map_trans _ _ _ M12 M3) as M13. pose proof (sm_wf _ _ M3) as W3.
  destruct (write_word_ok sp3 (a - 3 * 4) BAD_ADDR W3) as (sp4 & R4 & M4 & Y4); [intros i Hi; rewrite (sm_backed _ _ M13); apply B; lia|].
  rewrite (on_space_then _ _ _ _ _ _ _ (on_cpu_space cpu sp3 s) R4), on_cpu_twice. pose proof (same_map_trans _ _ _ M13 M4) as M14.
  exists sp4. split; [replace (esp3 - 92) with (a - 3 * 4) by lia; reflexivity|]. split; [exact M14|].
  assert (L4 : forall v, Z.of_nat (length (word_bytes v)) = 4) by done.
  split; [split|].
  - rewrite (word_of_ext _ _ _ (fun x _ => Y4 x)). replace (esp3 - 92) with (a - 3 * 4) by lia. apply word_put. done.
  - rewrite (word_of_ext _ _ _ (fun x _ => Y4 x)), word_put_out by (rewrite L4; lia). rewrite (word_of_ext _ _ _ (fun x _ => Y3 x)).
    replace (esp3 - 92 + 4) with (a - 2 * 4) by lia. by apply word_put.
  - rewrite (word_of_ext _ _ _ (fun x _ => Y4 x)), word_put_out by (rewrite L4; lia). rewrite (word_of_ext _ _ _ (fun x _ => Y3 x)), word_put_out by (rewrite L4; lia).
    rewrite (word_of_ext _ _ _ (fun x _ => Y2 x)). replace (esp3 - 92 + 8) with (a - 4) by lia. replace (esp3 - 92 + 12) with a by lia. apply word_put. lia.
  - intros i w Hi. pose proof (lookup_lt_Some _ _ _ Hi) as Hlt. simpl in Hlt.
    rewrite (word_of_ext _ _ _ (fun x _ => Y4 x)), word_put_out by (rewrite L4; lia). rewrite (word_of_ext _ _ _ (fun x _ => Y3 x)), word_put_out by (rewrite L4; lia).
    rewrite (word_of_ext _ _ _ (fun x _ => Y2 x)), word_put_out by (rewrite L4; lia). rewrite (word_of_ext _ _ _ (fun x _ => Y1 x)).
    replace (esp3 - 92 + 12) with a by lia. by apply words_put.
  - intros x Hx. rewrite Y4, put_out by (rewrite L4; lia). rewrite Y3, put_out by (rewrite L4; lia). rewrite Y2, put_out by (rewrite L4; lia). rewrite Y1. apply put_out. lia.
Qed.

(** ** The cases of the handler *)

(** The registers of the thread that trapped. *)
Definition trap_ureg (exception_type cr2 : Z) (ebp : Z -> Z) : ureg_t :=
  let u := get_ureg exception_type ebp (if has_error_code exception_type then 1 else 0) in
  if exception_type =? Idt.IDT_PF then set_cr2 cr2 u else u.

Lemma trap_ureg_u32 ty cr2 ebp : (forall i, is_u32 (ebp i)) -> is_u32 cr2 -> is_u32 ty -> Forall is_u32 (ureg_words (trap_ureg ty cr2 ebp)).
Proof.
  intros He Hc Ht. assert (is_u32 0) by done. unfold trap_ureg. destruct (has_error_code ty), (ty =? Idt.IDT_PF); repeat (apply Forall_cons_2; [first [apply He|done]|]); apply Forall_nil_2.
Qed.

(** The handler repairs the fault. *)
Definition repairs (sp : S) (ty cr2 : Z) (ebp : Z -> Z) : bool := (ty =? Idt.IDT_PF) && write_fault (u_error_code (trap_ureg ty cr2 ebp)) && lazy sp cr2.

Definition in_user_space (ty cr2 : Z) (ebp : Z -> Z) : Prop :=
  ty = Idt.IDT_PF -> write_fault (u_error_code (trap_ureg ty cr2 ebp)) = true -> USER_MEM_START <= cr2.

Lemma handler_repairs s cpu this q t c mm sp ch cr2 ief ebp ty : running s cpu this q t c mm sp ch -> is_u32 cr2 -> in_user_space ty cr2 ebp -> repairs sp ty cr2 ebp = true ->
  exists sp', exception_handler clone_pd free_entire_space cpu this cr2 ief ebp ty s = Ok (Returned, on_cpu cpu sp' s) /\ wf sp' /\
    (forall x, byte_at sp' x = byte_at sp x) /\
    (forall x, backed sp' x = backed sp x || (x / PAGE_SIZE =? cr2 / PAGE_SIZE)) /\ (forall x, lazy sp' x = lazy sp x && negb (x / PAGE_SIZE =? cr2 / PAGE_SIZE)).
Proof.
  intros Hrun Hc Hus Hrep. unfold repairs in Hrep. apply andb_true_iff in Hrep as [[Et Hw]%andb_true_iff Hl]. pose proof Et as Et'. apply Z.eqb_eq in Et'.
  unfold exception_handler. fold (trap_ureg ty cr2 ebp). set (u := trap_ureg ty cr2 ebp) in *. rewrite Et.
  assert (Ecr : u_cr2 u = cr2) by (unfold u, trap_ureg; by rewrite Et). rewrite Ecr.
  pose proof (zfod_user sp cr2 (u_error_code u) (ru_wf _ _ _ _ _ _ _ _ _ Hrun) Hw) as KK. rewrite Hl in KK.
  destruct KK as (sp' & R & W & Y & B & L); [specialize (Hus Et' Hw); unfold is_u32 in Hc; lia|].
  rewrite (on_space_then _ _ _ _ _ _ _ (ru_space _ _ _ _ _ _ _ _ _ Hrun) R). exists sp'. by split.
Qed.

Lemma handler_not_repaired s cpu this q t c mm sp ch cr2 ief ebp ty : running s cpu this q t c mm sp ch -> this <> 0 -> is_u32 cr2 -> in_user_space ty cr2 ebp -> repairs sp ty cr2 ebp = false ->
  exception_handler clone_pd free_entire_space cpu this cr2 ief ebp ty s =
    (if swexn_struct t =? 0 then kill clone_pd free_entire_space cpu this ty (trap_ureg ty cr2 ebp)
     else run_handler cpu this ief (swexn_struct t) (trap_ureg ty cr2 ebp)) s.
Proof.
  intros Hrun H0 Hc Hus Hrep. unfold exception_handler. fold (trap_ureg ty cr2 ebp). set (u := trap_ureg ty cr2 ebp) in *.
  assert (Rz : (if ty =? Idt.IDT_PF then on_space cpu (is_page_ZFOD (u_cr2 u) (u_error_code u) true) else mret 0) s = Ok (0, s)).
  { destruct (Z.eqb_spec ty Idt.IDT_PF) as [Et|]; [|done]. assert (Ecr : u_cr2 u = cr2) by (unfold u, trap_ureg; by rewrite Et). rewrite Ecr.
    assert (Rs : is_page_ZFOD cr2 (u_error_code u) true sp = Ok (0, sp)).
    { unfold repairs in Hrep. fold u in Hrep. rewrite Et in Hrep. simpl in Hrep. destruct (write_fault (u_error_code u)) eqn:Hw; [|apply zfod_other; [apply Hrun|done]].
      pose proof (zfod_user sp cr2 (u_error_code u) (ru_wf _ _ _ _ _ _ _ _ _ Hrun) Hw) as KK. cbn [andb] in Hrep. rewrite Hrep in KK. apply KK. specialize (Hus Et Hw). unfold is_u32 in Hc. lia. }
    rewrite (on_space_ok _ s cpu sp _ _ (ru_space _ _ _ _ _ _ _ _ _ Hrun) Rs). do 2 f_equal. by apply on_cpu_id, Hrun. }
  rewrite (bind_ok _ _ _ _ _ Rz). cbn [Z.eqb negb]. rewrite (proj2 (Z.eqb_neq this 0) H0).
  by rewrite (bind_ok _ _ _ _ _ (rd_tcb_sys s this t (ru_tcb _ _ _ _ _ _ _ _ _ Hrun))).
Qed.

(** (C28) An exception is repaired or delivered.  A write of user code to a zero-fill page
    of user memory gives the page its own memory and changes no byte, and the thread
    goes on.  Any other exception of a thread that has registered a handler (a write
    fault at an address of the kernel excepted) starts that handler in user mode on the
    registered stack, provided the 92 bytes below esp3, which swexn does not check, lie
    in pages that have memory of their own: there the handler finds its argument, a
    pointer to the registers, and the registers as they were; no other byte of the
    thread's memory has changed, and the handler is no longer registered.  (For a
    zero-fill page below esp3 see [VmSpace.write_to_zero_fill_page_leaks].) *)
Theorem exception_handler_correct s cpu this q t c mm sp ch cr2 ief ebp ty :
  running s cpu this q t c mm sp ch -> this <> 0 -> (forall i, is_u32 (ebp i)) -> is_u32 cr2 -> is_u32 ty -> in_user_space ty cr2 ebp ->
  if repairs sp ty cr2 ebp then
    exists sp', exception_handler clone_pd free_entire_space cpu this cr2 ief ebp ty s = Ok (Returned, on_cpu cpu sp' s) /\ wf sp' /\
      backed sp' cr2 = true /\ (forall x, byte_at sp' x = byte_at sp x) /\ (forall x, mapped sp' x = true -> mapped sp x = true \/ x / PAGE_SIZE = cr2 / PAGE_SIZE)
  else forall w, swexn_struct t <> 0 -> swexns (mem (ker s)) !! swexn_struct t = Some w -> 92 <= esp3 w < 2 ^ 32 -> is_u32 (arg w) ->
    (forall x, esp3 w - 92 <= x < esp3 w -> backed sp x = true) ->
    exists s' sp', exception_handler clone_pd free_entire_space cpu this cr2 ief ebp ty s =
        Ok (Handler (ControlBlock.eip w) SEGSEL_USER_CS ief (esp3 w - 92) SEGSEL_USER_DS, s') /\
      spaces s' !! cr3 (ker s') cpu = Some sp' /\ same_map sp sp' /\ frame_at sp' (esp3 w - 92) (arg w) (trap_ureg ty cr2 ebp) /\
      (forall x, ~ (esp3 w - 92 <= x < esp3 w) -> byte_at sp' x = byte_at sp x) /\
      tcbs (mem (ker s')) = <[this := set_swexn 0 t]> (tcbs (mem (ker s))) /\ swexns (mem (ker s')) = delete (swexn_struct t) (swexns (mem (ker s))).
Proof.
  intros Hrun H0 He Hc Ht Hus. destruct (repairs sp ty cr2 ebp) eqn:Hrep.
  - destruct (handler_repairs s cpu this q t c mm sp ch cr2 ief ebp ty Hrun Hc Hus Hrep) as (sp' & R & W & Y & B & L). exists sp'. split; [exact R|]. split; [done|].
    split; [rewrite B, Z.eqb_refl; apply orb_true_r|]. split; [exact Y|]. intros x. unfold mapped. rewrite B, L. destruct (Z.eqb_spec (x / PAGE_SIZE) (cr2 / PAGE_SIZE)); [by right|].
    rewrite orb_false_r, andb_true_r. by left.
  - intros w Hw Hs Hb Ha Hbk. rewrite (handler_not_repaired s cpu this q t c mm sp ch cr2 ief ebp ty Hrun H0 Hc Hus Hrep), (proj2 (Z.eqb_neq _ _) Hw).
    unfold run_handler. rewrite (bind_ok get _ s s s eq_refl), Hs, (bind_ok (deref (Some w)) _ s w s eq_refl).
    set (k1 := with_mem (with_swexns (delete (swexn_struct t) (swexns (mem (ker s)))) (mem (ker s))) (ker s)).
    rewrite (bind_ok _ _ s tt (with_ker k1 s)).
    2:{ apply on_ker_ok. unfold on_mem. apply zoom_ok. unfold ControlBlock.free_swexn. by rewrite Hs. }
    rewrite (bind_ok _ _ _ _ _ (on_ker_ok _ (with_ker k1 s) _ _ (ContextSwitch.upd_tcb_run k1 this t (set_swexn 0) (ru_tcb _ _ _ _ _ _ _ _ _ Hrun)))). set (k2 := with_mem _ k1).
    destruct (push_frame_run (with_ker k2 s) cpu sp (esp3 w) (arg w) (trap_ureg ty cr2 ebp) (ru_space _ _ _ _ _ _ _ _ _ Hrun) (ru_wf _ _ _ _ _ _ _ _ _ Hrun) Hb Hbk Ha (trap_ureg_u32 ty cr2 ebp He Hc Ht))
      as (sp' & R & M1 & Fr & Y).
    rewrite (bind_ok _ _ _ _ _ R). eexists _, sp'. split; [reflexivity|]. split; [apply on_cpu_space|]. split; [exact M1|]. split; [exact Fr|]. split; [exact Y|]. done.
Qed.

(** ** Killing a thread *)

Lemma kernel_print_run s cpu this q t c mm sp ch text p rest : running s cpu this q t c mm sp ch -> Message.answers (net (mem (ker s))) = p :: rest -> p <> 0 ->
  exists n s', kernel_print clone_pd free_entire_space cpu this text s = Ok (inr (p, n), s') /\ kbufs s' = <[p := text]> (kbufs s) /\
    tcbs (mem (ker s')) = tcbs (mem (ker s)) /\
    Message.msgs (net (mem (ker s'))) = <[my_msg t := print_msg cpu this (Z.of_nat (length text)) p mm]> (Message.msgs (net (mem (ker s)))) /\
    Message.net_rep (net (mem (ker s'))) (ChanSpec.send_manager ch cpu (my_msg t)).
Proof.
  intros Hrun Ha Hp. unfold kernel_print, print_syscall_handler. cbn [negb]. rewrite (bind_ok (mret 0) _ s 0 s eq_refl). change (0 <? 0) with false. cbv iota.
  rewrite (bind_ok (mret text) _ s text s eq_refl), (bind_ok _ _ _ _ _ (alloc_buf_run s text p rest Ha)), (proj2 (Z.eqb_neq p 0) Hp).
  pose proof (running_alloc _ _ _ _ _ _ _ _ _ rest (<[p := text]> (kbufs s)) Hrun) as Hrun1. set (s1 := with_kbufs _ _) in *.
  destruct (request_run clone_pd free_entire_space s1 cpu this q t c mm sp ch PRINT (fun m => set_w1 p (set_w0 (Z.of_nat (length text)) m)) Hrun1) as (n & s2 & R & [_ Q2 Q3 Q4 _ _ _ Q8 _]); [done|].
  rewrite (bind_ok _ _ _ _ _ R). eexists n, s2. split; [done|]. by rewrite Q8, Q2, Q3.
Qed.

Lemma print_answered s cpu this q t c mm sp ch b l : running s cpu this q t c mm sp ch -> kbufs s !! b = Some l ->
  exists s', print_finish (S := S) this b s = Ok (Data.resp_result mm, s') /\ running s' cpu this q t c mm sp ch /\ s' = with_kbufs (delete b (kbufs s)) s.
Proof.
  intros Hrun Hb. eexists. split; [apply (print_finish_run s this b t mm); [apply Hrun|apply Hrun|by eexists]|]. split; [|done]. destruct Hrun as [[] ? ? ? ? ? ? ? ? ? ?]. by split.
Qed.

(** A thread without a handler is killed.  The handler asks for the reason to be
    printed; answered, it asks for the registers, and answered again it makes the
    thread vanish: a task of which it was the last thread exits with status -2.
    Each text is in a buffer of its own, which is freed when it has been printed. *)
Theorem exception_kills s cpu this q t c mm sp ch cr2 ief ebp ty p rest :
  running s cpu this q t c mm sp ch -> this <> 0 -> is_u32 cr2 -> in_user_space ty cr2 ebp -> repairs sp ty cr2 ebp = false -> swexn_struct t = 0 ->
  Message.answers (net (mem (ker s))) = p :: rest -> p <> 0 ->
  let u := trap_ureg ty cr2 ebp in
  let why := sprintf (exception_text ty (u_cr2 u) (u_error_code u)) in
  exists n s1, exception_handler clone_pd free_entire_space cpu this cr2 ief ebp ty s = Ok (Interpreting u p n, s1) /\ kbufs s1 !! p = Some why /\
    Message.msgs (net (mem (ker s1))) !! my_msg t = Some (print_msg cpu this (Z.of_nat (length why)) p mm) /\
  forall s2 cpu2 q2 t2 c2 mm2 sp2 ch2 l p2 rest2, running s2 cpu2 this q2 t2 c2 mm2 sp2 ch2 -> kbufs s2 !! p = Some l -> Message.answers (net (mem (ker s2))) = p2 :: rest2 -> p2 <> 0 ->
  let dump := sprintf (dump_text (tid t2) u) in
  exists n2 s3, interpret_finish clone_pd free_entire_space cpu2 this p u s2 = Ok (Dumping p2 n2, s3) /\ kbufs s3 = <[p2 := dump]> (delete p (kbufs s2)) /\
    Message.msgs (net (mem (ker s3))) !! my_msg t2 = Some (print_msg cpu2 this (Z.of_nat (length dump)) p2 mm2) /\
  forall s4 cpu4 q4 t4 c4 mm4 sp4 ch4 l4 i spi, running s4 cpu4 this q4 t4 c4 mm4 sp4 ch4 -> kbufs s4 !! p2 = Some l4 ->
    pcb t4 <> 0 -> init_task s4 <> pcb t4 -> pcbs (mem (ker s4)) !! init_task s4 = Some i -> spaces s4 !! page_table_base i = Some spi -> wf spi -> 1 <= cur_thr_num c4 < 2 ^ 31 ->
  exists n4 s5, dump_finish clone_pd free_entire_space cpu4 this p2 s4 = Ok (Vanishing (if cur_thr_num c4 =? 1 then Some (pcb t4) else None) n4, s5) /\
    Message.msgs (net (mem (ker s5))) !! my_msg t4 = Some (if cur_thr_num c4 =? 1 then vanish_msg cpu4 this (set_status (-2) (set_cur_thr_num 0 c4)) mm4 else back_msg cpu4 this t4 mm4).
Proof.
  intros Hrun H0 Hc Hus Hrep Hsw Ha Hp u why. rewrite (handler_not_repaired s cpu this q t c mm sp ch cr2 ief ebp ty Hrun H0 Hc Hus Hrep), Hsw. fold u. simpl (0 =? 0).
  destruct (kernel_print_run s cpu this q t c mm sp ch why p rest Hrun Ha Hp) as (n & s1 & R & K1 & _ & K3 & _).
  exists n, s1. unfold kill, exception_interpret. rewrite (bind_ok _ _ _ _ _ R). split; [done|]. rewrite K1, K3. split; [apply lookup_insert_eq|]. split; [apply lookup_insert_eq|].
  clear - AL UL. intros s2 cpu2 q2 t2 c2 mm2 sp2 ch2 l p2 rest2 Hrun2 Hb Ha2 Hp2. set (dump := sprintf (dump_text (tid t2) u)).
  destruct (print_answered s2 cpu2 this q2 t2 c2 mm2 sp2 ch2 p l Hrun2 Hb) as (s2' & R2 & Hrun2' & E2).
  destruct (kernel_print_run s2' cpu2 this q2 t2 c2 mm2 sp2 ch2 dump p2 rest2 Hrun2' ltac:(by subst s2') Hp2) as (n2 & s3 & R3 & K1 & _ & K3 & _).
  exists n2, s3. unfold interpret_finish, kill_dump, dump_register. rewrite (bind_ok _ _ _ _ _ R2). unfold mbind at 1, M_bind at 1.
  rewrite (bind_ok _ _ _ _ _ (rd_tcb_sys s2' this t2 (ru_tcb _ _ _ _ _ _ _ _ _ Hrun2'))). fold dump. rewrite R3. split; [done|]. rewrite K1, K3. split; [by subst s2'|]. split; [apply lookup_insert_eq|].
  clear - AL UL. intros s4 cpu4 q4 t4 c4 mm4 sp4 ch4 l4 i spi Hrun4 Hb Hp0 Hne Hi Hspi Hw Hn.
  destruct (print_answered s4 cpu4 this q4 t4 c4 mm4 sp4 ch4 p2 l4 Hrun4 Hb) as (s4' & R4 & Hrun4' & E4).
  destruct (vanish_correct clone_pd free_entire_space s4' cpu4 this q4 t4 c4 mm4 sp4 ch4 i spi true Hrun4' Hp0) as (n4 & s5 & R5 & _ & _ & _ & Hm & _); [by subst s4'..|done|done|].
  exists n4, s5. unfold dump_finish, kill_end. rewrite (bind_ok _ _ _ _ _ R4), (bind_ok _ _ _ _ _ R5). split; [done|]. rewrite Hm, lookup_insert_eq. unfold one_less.
  destruct (Z.eqb_spec (cur_thr_num c4) 1) as [->|]; done.
Qed.
End frame.


(** ** The interface on flat memories, and concrete runs *)

#[export] Instance flat_zfod : ZeroFill flat := {|
  is_page_ZFOD va error_code need := fun s =>
    let page := va / PAGE_SIZE in
    if need && negb (write_fault error_code) then Ok (0, s)
    else if f_lazy s page then Ok (1, mk_flat (fun p => f_backed s p || (p =? page)) (fun p => f_lazy s p && negb (p =? page)) (f_byte s) (f_room s))
    else Ok (0, s) |}.

#[export] Instance flat_zfod_laws : ZeroFillLaws flat.
Proof.
  constructor.
  - intros s va ec Hw E. cbn [is_page_ZFOD flat_zfod]. by rewrite E.
  - intros s va ec Hw E Hv. cbn [is_page_ZFOD flat_zfod lazy flat_space]. rewrite E. cbn [andb negb]. destruct (f_lazy s (va / PAGE_SIZE)) eqn:L; [|done]. eexists. split; [reflexivity|]. by split.
Qed.

#[local] Abbreviation no_clone := ContextSwitch.no_clone.
#[local] Abbreviation no_free := ContextSwitch.no_free.
#[local] Abbreviation tcb2 := (ContextSwitch.demo_tcb 16384 2 NORMAL).

(** The thread of the demonstration has registered a handler. *)
Definition demo_swexn : sys flat :=
  let k := ContextSwitch.demo_kernel in
  with_ker (with_mem (with_tcbs (<[24544 := set_swexn 800 tcb2]> (tcbs (mem k))) (with_swexns {[800 := mk_swexn 16777700 16777216 5]} (mem k))) k) demo_sys.

Lemma demo_swexn_running : running demo_swexn 1 24544 [32736] (set_swexn 800 tcb2) (mk_pcb 1 0 0 0 1 []) (mk_msg 100 7 1 WAIT 5 0 0 0) Exec.demo_caller ChanSpec.empty.
Proof.
  destruct demo_running as [[Q C N R I Sp] Ht Hi Hc Hm Hn Hm0 Hr Hcpu Hsp Hw].
  assert (Hrd : forall x, ContextSwitch.ready ContextSwitch.demo_kernel x -> ContextSwitch.ready (ker demo_swexn) x).
  { intros x Hx. apply (ContextSwitch.ready_upd ContextSwitch.demo_kernel 24544 tcb2 (set_swexn 800)); [vm_compute; reflexivity|by left|done]. }
  split; [split; [exact Q|exact C|exact N|intros x Hx; apply Hrd, R, Hx|apply Hrd, I|exact Sp]|reflexivity|exact Hi|reflexivity|exact Hm|exact Hn|exact Hm0|exact Hr|exact Hcpu|exact Hsp|exact Hw].
Qed.

Lemma exception_handler_witness :
  exists s' (sp' : flat), exception_handler no_clone no_free 1 24544 0 514 (fun _ => 7) 0 demo_swexn = Ok (Handler 16777216 35 514 16777608 43, s') /\
    spaces s' !! cr3 (ker s') 1 = Some sp' /\ frame_at sp' 16777608 5 (trap_ureg 0 0 (fun _ => 7)).
Proof.
  pose proof (exception_handler_correct no_clone no_free demo_swexn 1 24544 [32736] (set_swexn 800 tcb2) (mk_pcb 1 0 0 0 1 []) (mk_msg 100 7 1 WAIT 5 0 0 0) Exec.demo_caller ChanSpec.empty
    0 514 (fun _ => 7) 0 demo_swexn_running ltac:(lia) ltac:(intros i; unfold is_u32; lia) ltac:(unfold is_u32; lia) ltac:(unfold is_u32; lia) ltac:(intros E; discriminate E)) as K.
  destruct (K (mk_swexn 16777700 16777216 5)) as (s' & sp' & R & Sp & _ & F & _).
  - discriminate.
  - vm_compute. reflexivity.
  - simpl. lia.
  - unfold is_u32. simpl. lia.
  - intros x Hx. cbn [esp3] in Hx. unfold Exec.demo_caller. cbn [backed flat_space f_backed]. replace (x / PAGE_SIZE) with 4096; [reflexivity|]. unfold PAGE_SIZE. apply (Z.div_unique x 4096 4096 (x - 16777216)); lia.
  - exists s', sp'. split; [exact R|]. split; [exact Sp|exact F].
Defined.

Lemma exception_kills_witness :
  exists n s1, exception_handler no_clone no_free 1 24544 0 514 (fun _ => 7) 0 demo_sys = Ok (Interpreting (trap_ureg 0 0 (fun _ => 7)) 73728 n, s1) /\
    kbufs s1 !! 73728 = Some (str "Division Error").
Proof.
  destruct (exception_kills no_clone no_free demo_sys 1 24544 [32736] tcb2 (mk_pcb 1 0 0 0 1 []) (mk_msg 100 7 1 WAIT 5 0 0 0) Exec.demo_caller ChanSpec.empty
    0 514 (fun _ => 7) 0 73728 [500] demo_running ltac:(lia) ltac:(unfold is_u32; lia) ltac:(intros E; discriminate E) eq_refl eq_refl eq_refl ltac:(lia)) as (n & s1 & R & K & _).
  exists n, s1. split; [exact R|]. rewrite K. vm_compute. reflexivity.
Defined.

End Exceptions.
