(* ===== verification/Boot.v ===== *)
(** * Booting (kernel.c, ap_kernel.c and the end of loader.c)

    Core 0 runs [kernel_main]: it fills the interrupt table, turns paging on and
    sets up its own data, waits until the PIC timer interrupt has calibrated the
    APIC timer, and becomes the manager.  Every other core runs [ap_kernel_main]:
    it adopts its page directory, sets up its own data, creates its idle thread
    and enters the idle program.  The idle thread of core 1 forks the init task.

    The state [boot] puts together the parts that the initialisation functions
    work on: the page tables, the allocator's locks, the kernel state and address
    spaces of SysState.v, and the devices.  [must] is the pattern "if it fails,
    panic".  A function that ends in [iret] returns what it has put on the kernel
    stack, for TrapFrame.v's [iret] to pop. *)

From Stdlib Require Import ZArith Lia.
From stdpp Require Import base gmap list tactics numbers.
From S2P Require Import Prelude SimpleQueue ThreadState Mutex SegTree Pm FramePoolPm Vm MallocWrappers Message ControlBlock Scheduler ContextSwitch ThrMgmt AddrSpace Loader SysState Exec Syscalls Console Keyboard Timer Idt TrapFrame.

#[local] Open Scope Z_scope.

Module Boot.
Import Scheduler ContextSwitch Sys.

Definition must {St} (m : M St Z) : M St unit := rv ← m; if rv <? 0 then panic else mret tt.

(** ** Starting a program (the end of loader.c) *)

(** The stack is memory of the kernel. *)
Definition push_to_stack (esp value : Z) : M kernel Z :=
  let new_esp := w32 (esp - 4) in
  store new_esp value;; mret new_esp.

Definition load_kernel_stack (cpu init_eflags k_stack_esp u_stack_esp program : Z) : M kernel Z :=
  set_esp0 cpu k_stack_esp;;
  k_stack_esp ← push_to_stack k_stack_esp Loader.SEGSEL_USER_DS;
  k_stack_esp ← push_to_stack k_stack_esp u_stack_esp;
  k_stack_esp ← push_to_stack k_stack_esp init_eflags;
  k_stack_esp ← push_to_stack k_stack_esp Loader.SEGSEL_USER_CS;
  k_stack_esp ← push_to_stack k_stack_esp program;
  push_to_stack k_stack_esp Loader.SEGSEL_USER_DS.

(** asm_new_process_iret.S, on the words from the stack pointer on; [movw] leaves
    the upper half of eax. *)
Definition movw_ax (s x : Z) : Z := Z.lor (Z.land x 4294901760) (Z.land s 65535).
Definition asm_new_process_iret : M TrapFrame.cpu unit :=
  s ← TrapFrame.popl;
  TrapFrame.upd (fun r => TrapFrame.set_eax (movw_ax s (TrapFrame.eax r)) r);;
  TrapFrame.upd (TrapFrame.set_segs s s s s);;
  TrapFrame.iret.

Section boot.
Context {T : Type} {FA : FrameAlloc T} {K : Type} {KHp : KernelHeap K} {H : Type} {RA : RawAlloc H}.
Context {S : Type} `{AS : AddrSpace S} `{UC : !UserCheck S} `{PD : !PageDirs S}.
Context {KH : Type} (idt_base : Z) (addr : Idt.wrapper -> Z) (TOC : list toc_entry).
Context (elf_check_header : list Z -> Z) (elf_load_helper : list Z -> Z * simple_elf_t).
Context (machine_phys_frames smp_num_cpus smp_lapic_base lapic_virt_base : Z).
Context (clone_pd : Z -> M kernel Z) (free_entire_space : Z -> bool -> M kernel unit).

Record boot := mk_boot {
  b_vm : Vm.vm_state (Pm.pm_state T) K; b_alloc : MallocWrappers.alloc_state (H := H); b_sys : sys S; b_dev : Idt.machine (KH := KH); b_eflags : Z }.

Definition set_vm x b := mk_boot x (b_alloc b) (b_sys b) (b_dev b) (b_eflags b).
Definition set_alloc x b := mk_boot (b_vm b) x (b_sys b) (b_dev b) (b_eflags b).
Definition set_sys x b := mk_boot (b_vm b) (b_alloc b) x (b_dev b) (b_eflags b).
Definition set_dev x b := mk_boot (b_vm b) (b_alloc b) (b_sys b) x (b_eflags b).
Definition set_eflags x b := mk_boot (b_vm b) (b_alloc b) (b_sys b) (b_dev b) x.

Definition on_vm {A} (m : M (Vm.vm_state (Pm.pm_state T) K) A) : M boot A := zoom b_vm set_vm m.
Definition on_alloc {A} (m : M MallocWrappers.alloc_state A) : M boot A := zoom b_alloc set_alloc m.
Definition on_sys {A} (m : M (sys S) A) : M boot A := zoom b_sys set_sys m.
Definition on_dev {A} (m : M Idt.machine A) : M boot A := zoom b_dev set_dev m.
Definition on_timer {A} (m : M Timer.timer A) : M boot A := on_dev (zoom Idt.tmr Idt.set_tmr m).

(** [init_pm] is given the results of its two calls of [malloc]. *)
Definition init_pm (malloc_left malloc_lock : bool) (cpu : Z) : M (Pm.pm_state T) Z :=
  Pm.init_pm machine_phys_frames smp_num_cpus smp_lapic_base malloc_left malloc_lock cpu.

(** The register cr3 of a core is in the state of the page tables and in that of
    the scheduler. *)
Definition share_cr3 (cpu : Z) : M boot unit :=
  pd ← gets (fun b => Vm.cr3 (b_vm b));
  on_sys (on_ker (set_cr3 cpu pd)).

(** The calls that both kinds of core make, in the same order. *)
Definition core_init (cpu : Z) : M (sys S) unit :=
  must (on_ker (context_switcher_init cpu));;
  must (on_ker (scheduler_init cpu));;
  must (Syscalls.syscall_vanish_init cpu);;
  must (on_ker (ThrMgmt.syscall_deschedule_init cpu));;
  must (on_ker (ThrMgmt.syscall_sleep_init cpu)).

(** ** kernel.c *)

Definition kernel_init (ml mk : bool) : M boot unit :=
  must (on_alloc (MallocWrappers.malloc_init 0));;
  must (on_dev (Idt.init_IDT idt_base addr));;
  must (on_vm (Vm.init_vm (Z.to_nat smp_num_cpus) lapic_virt_base smp_lapic_base (init_pm ml mk 0)));;
  share_cr3 0;;
  on_timer (modify (fun t => Timer.mk_timer (Timer.numTicks t) (Timer.start_numTicks t) (Timer.lapic_timer_init t) (Timer.apic_num_ticks t) (Timer.lapics t) (Timer.ports t) 1 (Timer.finished_cal_apic_timer t)));;
  on_sys (core_init 0);;
  must (on_sys (Syscalls.syscall_readfile_init TOC));;
  on_dev (zoom Idt.con Idt.set_con Console.clear_console).

(** The frame pointer the mailbox thread starts on; it then runs
    [smp_manager_boot] (Manager.v). *)
Definition loadMailboxTask (eflags : Z) : M boot Z :=
  modify (set_eflags eflags);;
  s ← gets b_sys;
  thread ← on_sys (on_ker (on_mem (ControlBlock.tcb_create_idle_process 0 NORMAL (cr3 (ker s) 0))));
  if thread =? 0 then panic else
  on_sys (on_ker (modify (fun k => with_idle_thr (fupd (idle_thr k) 0 0) k)));;
  t ← on_sys (on_ker (rd_tcb thread));
  mret (k_stack_esp t).

(** [smp_init] and [dist_kernel_mem] are library code: the first one's result is
    an argument, the second distributes memory among the allocators of the cores. *)
Definition kernel_main (smp_init : Z) (ml mk : bool) : M boot unit :=
  if smp_init <? 0 then panic else kernel_init ml mk.

(** The loop on [finished_cal_apic_timer], which the timer interrupt ends, and
    what follows it. *)
Definition kernel_main_calibrated (eflags : Z) : M boot Z :=
  b ← get;
  if Timer.finished_cal_apic_timer (Idt.tmr (b_dev b)) =? 0 then blocks else loadMailboxTask eflags.

(** ** ap_kernel.c *)

Definition ap_kernel_init (cpu_id : Z) (ml mk : bool) : M boot unit :=
  on_vm (Vm.adopt_init_pd cpu_id);;
  share_cr3 cpu_id;;
  must (on_alloc (MallocWrappers.malloc_init cpu_id));;
  must (on_vm (zoom Vm.pool Vm.with_pool (init_pm ml mk cpu_id)));;
  must (on_sys (on_ker (on_mem (ControlBlock.on_net (Message.init_ap_msg cpu_id)))));;
  on_sys (core_init cpu_id).

(** The idle program is a string of the kernel: "idle". *)
Definition IDLE : list Z := [105; 100; 108; 101].
Definition INIT : list Z := [105; 110; 105; 116].

(** [loadFirstTask] up to the switch to the stack of the new thread. *)
Definition loadFirstTask (cpu : Z) : M boot Z :=
  s ← gets b_sys;
  thread ← on_sys (on_ker (on_mem (ControlBlock.tcb_create_idle_process cpu NORMAL (cr3 (ker s) cpu))));
  if thread =? 0 then panic else mret thread.

Definition load_idle_process (cpu thread : Z) : M boot Z :=
  p ← on_sys (on_ker malloc);
  on_timer (Timer.init_lapic_timer_driver cpu p);;
  on_sys (on_ker (modify (fun k => with_apic_num_ticks (fupd (apic_num_ticks k) cpu 0) k)));;
  rv ← on_sys (on_space cpu (Loader.loadTask TOC elf_check_header elf_load_helper IDLE [IDLE]));
  match rv with
  | inl _ => panic
  | inr (usr_esp, my_program) =>
      on_sys (on_ker (modify (fun k => with_idle_thr (fupd (idle_thr k) cpu thread) k)));;
      t ← on_sys (on_ker (rd_tcb thread));
      fl ← gets b_eflags;
      on_sys (on_ker (load_kernel_stack cpu fl (k_stack_esp t) usr_esp my_program))
  end.

Definition ap_kernel_main (cpu_id : Z) (ml mk : bool) : M boot (Z * Z) :=
  ap_kernel_init cpu_id ml mk;;
  thread ← loadFirstTask cpu_id;
  esp ← load_idle_process cpu_id thread;
  mret (thread, esp).

(** ** The init task *)

(** [idle_process_init] on core 1, for the idle thread: the fork.  The thread
    that runs then is the child, or the idle thread itself if there is none. *)
Definition idle_process_init (cpu this : Z) : M (sys S) (option Z) :=
  if negb (cpu =? 1) then mret None
  else n ← Syscalls.fork_syscall_handler clone_pd free_entire_space cpu this; mret (Some n).

(** The child: it becomes the init task, and asks the manager to note that. *)
Definition become_init (cpu this : Z) : M (sys S) (Z * Z * Z) :=
  old_pd ← on_ker (gets (fun k => cr3 k cpu));
  new_pd ← create_pd;
  if new_pd =? ERROR_MALLOC_LIB then panic else
  t ← on_ker (rd_tcb this);
  on_ker (upd_pcb (pcb t) (set_page_table_base new_pd));;
  on_ker (set_cr3 cpu new_pd);;
  rv ← on_space cpu (Loader.loadTask TOC elf_check_header elf_load_helper INIT [INIT]);
  match rv with
  | inl _ => panic
  | inr (usr_esp, my_program) =>
      free_space_of old_pd true;;
      on_ker (upd_tcb this (set_k_stack_esp (ControlBlock.tcb_get_high_addr this)));;
      n ← Syscalls.set_init_pcb clone_pd free_entire_space cpu this (pcb t);
      mret (usr_esp, my_program, n)
  end.

(** When the manager has answered. *)
Definition init_finish (cpu this init_eflags usr_esp my_program : Z) : M (sys S) Z :=
  r ← Syscalls.response_finish this;
  if r <? 0 then panic else
  t ← on_ker (rd_tcb this);
  on_ker (load_kernel_stack cpu init_eflags (k_stack_esp t) usr_esp my_program).
End boot.

(** ** A new program runs in user mode *)

Definition stack_words (k : kernel) (esp : Z) (n : nat) : list Z := (fun i => words k (esp + 4 * Z.of_nat i)) <$> seq 0 n.

Lemma load_kernel_stack_run k cpu fl ksp usp prog : 24 <= ksp < 2 ^ 32 ->
  exists W, let k' := with_words W (with_esp0 (fupd (esp0 k) cpu ksp) k) in
    load_kernel_stack cpu fl ksp usp prog k = Ok (ksp - 24, k') /\
    stack_words k' (ksp - 24) 6 = [43; prog; 35; fl; usp; 43] /\ (forall a, ~ (ksp - 24 <= a < ksp) -> W a = words k a).
Proof.
  intros Hk. eexists (fupd (fupd (fupd (fupd (fupd (fupd (words k) (ksp - 4) 43) (ksp - 8) usp) (ksp - 12) fl) (ksp - 16) 35) (ksp - 20) prog) (ksp - 24) 43).
  intros k'. split; [|split].
  - unfold load_kernel_stack, push_to_stack, store, set_esp0, modify. munfold. cbn [words with_words with_esp0 esp0].
    rewrite (w32_small (ksp - 4)) by lia. replace (ksp - 4 - 4) with (ksp - 8) by lia. rewrite (w32_small (ksp - 8)) by lia. replace (ksp - 8 - 4) with (ksp - 12) by lia.
    rewrite (w32_small (ksp - 12)) by lia. replace (ksp - 12 - 4) with (ksp - 16) by lia. rewrite (w32_small (ksp - 16)) by lia. replace (ksp - 16 - 4) with (ksp - 20) by lia.
    rewrite (w32_small (ksp - 20)) by lia. replace (ksp - 20 - 4) with (ksp - 24) by lia. rewrite (w32_small (ksp - 24)) by lia. done.
  - unfold stack_words. cbn [seq fmap list_fmap words with_words k']. unfold fupd.
    repeat match goal with |- context [?a =? ?b] => first [rewrite (proj2 (Z.eqb_eq a b)) by lia|rewrite (proj2 (Z.eqb_neq a b)) by lia] end. done.
  - intros a Ha. unfold fupd. repeat match goal with |- context [?a =? ?b] => rewrite (proj2 (Z.eqb_neq a b)) by lia end. done.
Qed.

(** A new program starts in user mode, and at its entry point.  Whatever the kernel
    was doing, the six words [load_kernel_stack] leaves make the processor continue
    at [prog] with the user's code and data segments, the stack [usp] and the flags
    [fl]; the next trap of this thread will use its own kernel stack from the top,
    and no other word of kernel memory has changed. *)
Theorem new_program_in_user_mode k cpu fl ksp usp prog : 24 <= ksp < 2 ^ 32 ->
  exists esp k', load_kernel_stack cpu fl ksp usp prog k = Ok (esp, k') /\ esp0 k' cpu = ksp /\ (forall a, ~ (ksp - 24 <= a < ksp) -> words k' a = words k a) /\
    forall r rest, asm_new_process_iret (TrapFrame.mk_cpu r (stack_words k' esp 6 ++ rest)) =
      Ok (tt, TrapFrame.mk_cpu (TrapFrame.mk_regs 43 43 43 43 (TrapFrame.edi r) (TrapFrame.esi r) (TrapFrame.ebp r) (TrapFrame.ebx r) (TrapFrame.edx r) (TrapFrame.ecx r) (movw_ax 43 (TrapFrame.eax r)) prog 35 fl usp 43) rest).
Proof.
  intros Hk. destruct (load_kernel_stack_run k cpu fl ksp usp prog Hk) as (W & R & Hs & Hw). eexists _, _. split; [exact R|]. split; [apply fupd_eq|]. split; [exact Hw|].
  intros r rest. rewrite Hs. reflexivity.
Qed.

(** ** The data of a core *)

Definition answers_of (k : kernel) : list Z := Message.answers (net (mem k)).
Definition pop_to (l : list Z) (k : kernel) : kernel := with_mem (with_net (Message.with_answers l (net (mem k))) (mem k)) k.

(** [malloc] gives the next answer; when there is none left it gives NULL. *)
Lemma malloc_next k : malloc k = Ok (hd 0 (answers_of k), pop_to (tl (answers_of k)) k).
Proof.
  unfold malloc, on_mem. rewrite (zoom_ok mem with_mem _ k (hd 0 (answers_of k)) (with_net (Message.with_answers (tl (answers_of k)) (net (mem k))) (mem k))); [done|].
  unfold ControlBlock.malloc, ControlBlock.on_net. apply zoom_ok. unfold Message.malloc, answers_of. destruct (Message.answers (net (mem k))) eqn:E; [|done]. simpl.
  rewrite <- E. by destruct (net (mem k)).
Qed.

(** The first [n] answers are addresses. *)
Fixpoint granted (n : nat) (l : list Z) : bool :=
  match n with O => true | Datatypes.S n => negb (hd 0 l =? 0) && granted n (tl l) end.

(** What a core has once its data is set up. *)
Record core_data (k : kernel) (cpu : Z) : Prop := {
  cd_queue : queues k !! cpu = Some [];
  cd_spin : spin k cpu = false;
  cd_zombies : zombie_lists k !! cpu = Some [];
  cd_zlock : zombie_list_locks k !! cpu = Some ContextSwitch.free_mutex;
  cd_desch : deschedule_queues k !! cpu = Some [];
  cd_dlock : deschedule_mutexs k !! cpu = Some ContextSwitch.free_mutex;
  cd_sleep : sleep_queue k !! cpu = Some [] }.

(** Nothing but the data of core [cpu] and the allocator's answers has changed. *)
Record others_kept (k k' : kernel) (cpu : Z) : Prop := {
  ok_mem : tcbs (mem k') = tcbs (mem k) /\ pcbs (mem k') = pcbs (mem k) /\ stacks (mem k') = stacks (mem k) /\ id_count (mem k') = id_count (mem k) /\ ControlBlock.junk (mem k') = ControlBlock.junk (mem k);
  ok_net : exists l, net (mem k') = Message.with_answers l (net (mem k));
  ok_words : words k' = words k /\ esp0 k' = esp0 k /\ cr3 k' = cr3 k /\ idle_thr k' = idle_thr k /\ apic_num_ticks k' = apic_num_ticks k;
  ok_queues : forall c, c <> cpu -> queues k' !! c = queues k !! c /\ spin k' c = spin k c /\ sleep_queue k' !! c = sleep_queue k !! c }.

Section core.
Context {S : Type} `{AS : AddrSpace S} `{UC : !UserCheck S}.

Lemma must_ok {St} (m : M St Z) s s' : m s = Ok (0, s') -> must m s = Ok (tt, s').
Proof. intros R. unfold must. by rewrite (bind_ok _ _ _ _ _ R). Qed.

Lemma must_on_ker (m : M kernel Z) (s : sys S) : must (on_ker m) s = on_ker (must m) s.
Proof. unfold must, on_ker, zoom. munfold. destruct (m (ker s)) as [[r k']| | | |]; [|done..]. by destruct (r <? 0). Qed.

(** Two allocations in a row: NULL makes the caller give up. *)
Lemma two_mallocs (f g : M kernel unit) (k : kernel) (F G : kernel -> kernel) : (forall k, f k = Ok (tt, F k)) -> (forall k, g k = Ok (tt, G k)) -> (forall k, answers_of (F k) = answers_of k) ->
  must (p ← malloc; if p =? 0 then mret (-1) else f;; l ← malloc; if l =? 0 then mret (-1) else g;; mret 0) k =
    if granted 2 (answers_of k) then Ok (tt, G (pop_to (drop 2 (answers_of k)) (F (pop_to (drop 1 (answers_of k)) k)))) else Panic.
Proof.
  intros Hf Hg HF. unfold must. set (a := answers_of k). assert (E1 : malloc k = Ok (hd 0 a, pop_to (tl a) k)) by apply malloc_next.
  cbn [granted]. rewrite (andb_true_r (negb (hd 0 (tl a) =? 0))).
  unfold mbind, M_bind. rewrite E1. destruct (hd 0 a =? 0); cbn [negb andb]; [done|]. rewrite Hf.
  assert (Ea : answers_of (F (pop_to (tl a) k)) = tl a) by (rewrite HF; done). rewrite malloc_next, Ea.
  destruct (hd 0 (tl a) =? 0); cbn [negb]; [done|]. rewrite Hg. cbn. replace (tl (tl a)) with (drop 2 a) by (by destruct a as [|? [|? ?]]). by replace (tl a) with (drop 1 a) by (by destruct a).
Qed.

Definition ctx_up (cpu : Z) (k : kernel) : kernel :=
  let k1 := pop_to (drop 2 (answers_of k)) (with_cur_running_thr (fupd (cur_running_thr k) cpu (ControlBlock.junk (mem k))) (pop_to (drop 1 (answers_of k)) k)) in
  with_spin (fupd (spin k1) cpu false) k1.

Lemma must_context_switcher cpu k : must (context_switcher_init cpu) k = if granted 2 (answers_of k) then Ok (tt, ctx_up cpu k) else Panic.
Proof.
  exact (two_mallocs (k ← get; ContextSwitch.set_cur cpu (ControlBlock.junk (mem k))) (modify (fun k => with_spin (fupd (spin k) cpu false) k)) k
    (fun k => with_cur_running_thr (fupd (cur_running_thr k) cpu (ControlBlock.junk (mem k))) k) (fun k => with_spin (fupd (spin k) cpu false) k)
    (fun _ => eq_refl) (fun _ => eq_refl) (fun _ => eq_refl)).
Qed.

Definition sched_up (cpu : Z) (k : kernel) : kernel := let k1 := pop_to (drop 1 (answers_of k)) k in with_queues (<[cpu := []]> (queues k1)) k1.

Lemma must_scheduler cpu k : must (scheduler_init cpu) k = if granted 1 (answers_of k) then Ok (tt, sched_up cpu k) else Panic.
Proof.
  unfold must, scheduler_init, mbind, M_bind. rewrite malloc_next. cbn [granted]. unfold sched_up.
  replace (drop 1 (answers_of k)) with (tl (answers_of k)) by (by destruct (answers_of k)). by destruct (hd 0 (answers_of k) =? 0).
Qed.

Definition desch_up (cpu : Z) (k : kernel) : kernel :=
  let k1 := pop_to (drop 2 (answers_of k)) (pop_to (drop 1 (answers_of k)) k) in
  let k2 := with_deschedule_queues (<[cpu := []]> (deschedule_queues k1)) k1 in with_deschedule_mutexs (<[cpu := snd Mutex.mutex_init]> (deschedule_mutexs k2)) k2.

Lemma must_deschedule cpu k : must (ThrMgmt.syscall_deschedule_init cpu) k = if granted 2 (answers_of k) then Ok (tt, desch_up cpu k) else Panic.
Proof.
  exact (two_mallocs (mret tt) (modify (fun k => with_deschedule_queues (<[cpu := []]> (deschedule_queues k)) k);; modify (fun k => with_deschedule_mutexs (<[cpu := snd Mutex.mutex_init]> (deschedule_mutexs k)) k)) k
    (fun k => k) (fun k => let k2 := with_deschedule_queues (<[cpu := []]> (deschedule_queues k)) k in with_deschedule_mutexs (<[cpu := snd Mutex.mutex_init]> (deschedule_mutexs k2)) k2)
    (fun _ => eq_refl) (fun _ => eq_refl) (fun _ => eq_refl)).
Qed.

Definition sleep_up (cpu : Z) (k : kernel) : kernel :=
  pop_to (drop 2 (answers_of k)) (let k1 := pop_to (drop 1 (answers_of k)) k in with_sleep_queue (<[cpu := []]> (sleep_queue k1)) k1).

Lemma must_sleep cpu k : must (ThrMgmt.syscall_sleep_init cpu) k = if granted 2 (answers_of k) then Ok (tt, sleep_up cpu k) else Panic.
Proof.
  exact (two_mallocs (modify (fun k => with_sleep_queue (<[cpu := []]> (sleep_queue k)) k)) (mret tt) k
    (fun k => with_sleep_queue (<[cpu := []]> (sleep_queue k)) k) (fun k => k) (fun _ => eq_refl) (fun _ => eq_refl) (fun _ => eq_refl)).
Qed.

(** [syscall_vanish_init] on the kernel state alone. *)
Definition vanish_init_ker (cpu : Z) : M kernel Z :=
  p ← malloc; if p =? 0 then mret (-1) else mret tt;; l ← malloc; if l =? 0 then mret (-1) else
  (modify (fun k => with_zombie_lists (<[cpu := []]> (zombie_lists k)) k);; modify (fun k => with_zombie_list_locks (<[cpu := snd Mutex.mutex_init]> (zombie_list_locks k)) k));; mret 0.

Lemma vanish_init_on_ker cpu (s : sys S) : Syscalls.syscall_vanish_init cpu s = on_ker (vanish_init_ker cpu) s.
Proof.
  unfold Syscalls.syscall_vanish_init, vanish_init_ker, on_ker, zoom, mbind, M_bind. rewrite malloc_next. destruct (hd 0 _ =? 0); [done|]. cbn. rewrite malloc_next. by destruct (hd 0 _ =? 0).
Qed.

Definition vanish_up (cpu : Z) (k : kernel) : kernel :=
  let k1 := pop_to (drop 2 (answers_of k)) (pop_to (drop 1 (answers_of k)) k) in
  let k2 := with_zombie_lists (<[cpu := []]> (zombie_lists k1)) k1 in with_zombie_list_locks (<[cpu := snd Mutex.mutex_init]> (zombie_list_locks k2)) k2.

Lemma must_vanish cpu k : must (vanish_init_ker cpu) k = if granted 2 (answers_of k) then Ok (tt, vanish_up cpu k) else Panic.
Proof.
  exact (two_mallocs (mret tt) (modify (fun k => with_zombie_lists (<[cpu := []]> (zombie_lists k)) k);; modify (fun k => with_zombie_list_locks (<[cpu := snd Mutex.mutex_init]> (zombie_list_locks k)) k)) k
    (fun k => k) (fun k => let k2 := with_zombie_lists (<[cpu := []]> (zombie_lists k)) k in with_zombie_list_locks (<[cpu := snd Mutex.mutex_init]> (zombie_list_locks k2)) k2)
    (fun _ => eq_refl) (fun _ => eq_refl) (fun _ => eq_refl)).
Qed.

Lemma granted_add n m l : granted (n + m) l = granted n l && granted m (drop n l).
Proof. revert l. induction n as [|n IH]; intros l; [done|]. cbn [granted Nat.add]. rewrite IH, andb_assoc. by destruct l as [|x l]; [rewrite !drop_nil|]. Qed.

(** One step of the set-up: [n] allocations. *)
Definition sets_up (m : M (sys S) unit) (n : nat) (F : kernel -> kernel) : Prop :=
  forall s, m s = if granted n (answers_of (ker s)) then Ok (tt, with_ker (F (ker s)) s) else Panic.

Lemma sets_up_then m n F (rest : M (sys S) unit) s : sets_up m n F -> (m;; rest) s = if granted n (answers_of (ker s)) then rest (with_ker (F (ker s)) s) else Panic.
Proof. intros E. unfold mbind, M_bind. rewrite E. by destruct (granted n _). Qed.

Lemma sets_up_ker (m : M kernel Z) n F : (forall k, must m k = if granted n (answers_of k) then Ok (tt, F k) else Panic) -> sets_up (must (on_ker m)) n F.
Proof. intros E s. rewrite must_on_ker. unfold on_ker, zoom. rewrite E. by destruct (granted n _). Qed.

Lemma sets_up_vanish cpu : sets_up (must (Syscalls.syscall_vanish_init cpu)) 2 (vanish_up cpu).
Proof.
  intros s. transitivity (must (on_ker (vanish_init_ker cpu)) s); [unfold must, mbind, M_bind; by rewrite vanish_init_on_ker|]. by apply sets_up_ker, must_vanish.
Qed.

Definition core_up (cpu : Z) (k : kernel) : kernel := sleep_up cpu (desch_up cpu (vanish_up cpu (sched_up cpu (ctx_up cpu k)))).

(** Setting up a core: nine allocations, every one of which has to succeed. *)
Lemma core_init_run cpu : sets_up (core_init cpu) 9 (core_up cpu).
Proof.
  intros s. change 9%nat with (2 + (1 + (2 + (2 + 2))))%nat. rewrite !granted_add. unfold core_init. set (a := answers_of (ker s)).
  rewrite (sets_up_then _ _ _ _ s (sets_up_ker _ _ _ (must_context_switcher cpu))). fold a. destruct (granted 2 a); cbn [andb]; [|done]. set (k1 := ctx_up cpu (ker s)).
  rewrite (sets_up_then _ _ _ _ (with_ker k1 s) (sets_up_ker _ _ _ (must_scheduler cpu))). cbn [ker with_ker]. change (answers_of k1) with (drop 2 a).
  destruct (granted 1 (drop 2 a)); cbn [andb]; [|done]. set (k2 := sched_up cpu k1).
  rewrite (sets_up_then _ _ _ _ _ (sets_up_vanish cpu)). cbn [ker with_ker]. change (answers_of k2) with (drop 1 (drop 2 a)).
  destruct (granted 2 (drop 1 (drop 2 a))); cbn [andb]; [|done]. set (k3 := vanish_up cpu k2).
  rewrite (sets_up_then _ _ _ _ _ (sets_up_ker _ _ _ (must_deschedule cpu))). cbn [ker with_ker]. change (answers_of k3) with (drop 2 (drop 1 (drop 2 a))).
  destruct (granted 2 (drop 2 (drop 1 (drop 2 a)))); cbn [andb]; [|done]. set (k4 := desch_up cpu k3).
  rewrite (sets_up_ker _ _ _ (must_sleep cpu) _). cbn [ker with_ker]. change (answers_of k4) with (drop 2 (drop 2 (drop 1 (drop 2 a)))).
  by destruct (granted 2 _).
Qed.

Lemma core_up_data cpu k : core_data (core_up cpu k) cpu /\ others_kept k (core_up cpu k) cpu /\ answers_of (core_up cpu k) = drop 9 (answers_of k).
Proof.
  split; [|split].
  - split; try (apply lookup_insert_eq || apply fupd_eq).
  - split; [done|by eexists|done|]. intros c Hc. cbn. rewrite !lookup_insert_ne by done. split; [done|]. split; [by apply fupd_ne|done].
  - cbn -[drop]. rewrite !drop_drop. done.
Qed.
End core.

(** ** The idle thread of a core *)

Lemma idle_process_run cpu pd (k : kmem) st ms pc rest : Message.answers (net k) = st :: ms :: pc :: rest -> ControlBlock.is_stack st -> ms <> 0 -> pc <> 0 -> -1 <= id_count k < 2 ^ 31 - 1 ->
  exists t c k', ControlBlock.tcb_create_idle_process cpu NORMAL pd k = Ok (st + 8160, k') /\
    tcbs k' = <[st + 8160 := t]> (tcbs k) /\ state t = NORMAL /\ pcb t = pc /\ tid t = id_count k + 1 /\ k_stack_esp t = st + 8160 /\
    pcbs k' = <[pc := c]> (pcbs k) /\ page_table_base c = pd /\ cur_thr_num c = 1 /\
    net k' = Message.with_msgs (<[ms := ControlBlock.fresh_msg (ControlBlock.junk k) ms]> (Message.msgs (net k))) (Message.with_answers rest (net k)).
Proof.
  intros Ha H1 H2 H3 Hid. assert (E : ControlBlock.tcb_get_entry st = st + 8160) by (apply ControlBlock.entry_ok; [done|]; change ControlBlock.K_STACK_SIZE with 8192; lia).
  assert (Hst : st <> 0 /\ st + 8160 <> 0) by (destruct H1; lia).
  unfold ControlBlock.tcb_create_idle_process. rewrite (bind_ok _ _ _ _ _ (ControlBlock.create_thread_run cpu 0 NORMAL k st ms (pc :: rest) Ha (proj1 Hst) H2 Hid)).
  rewrite E. rewrite (proj2 (Z.eqb_neq (st + 8160) 0)) by apply Hst. unfold ControlBlock.malloc, ControlBlock.on_net.
  erewrite bind_ok by (apply zoom_ok; reflexivity). rewrite (proj2 (Z.eqb_neq pc 0)) by done.
  unfold ControlBlock.created. change (ControlBlock.tcb_get_high_addr st) with (ControlBlock.tcb_get_entry st). rewrite E.
  erewrite bind_ok by (unfold ControlBlock.rd_tcb; cbn; rewrite lookup_insert_eq; reflexivity).
  erewrite bind_ok by reflexivity.
  erewrite bind_ok by (unfold ControlBlock.upd_tcb, ControlBlock.rd_tcb; munfold; cbn; rewrite lookup_insert_eq; reflexivity).
  eexists _, _, _. split; [reflexivity|]. cbn. split; [by rewrite insert_insert_eq|]. done.
Qed.

(** ** A worker core boots *)

Lemma granted_enough n l : 0 ∉ l -> (n <= length l)%nat -> granted n l = true.
Proof.
  revert l. induction n as [|n IH]; intros l H0 Hn; [done|]. destruct l as [|x l]; simpl in Hn; [lia|]. cbn [granted hd tl].
  rewrite IH by (set_solver || lia). rewrite (proj2 (Z.eqb_neq x 0)) by set_solver. done.
Qed.

Section worker.
Context {T : Type} {FA : FrameAlloc T} {K : Type} {KHp : KernelHeap K} {H : Type} {RA : RawAlloc H}.
Context {S : Type} `{AS : AddrSpace S} `{UC : !UserCheck S} `{PD : !PageDirs S}.
Context {KH : Type} (TOC : list toc_entry) (elf_check_header : list Z -> Z) (elf_load_helper : list Z -> Z * simple_elf_t).
Context (machine_phys_frames smp_num_cpus smp_lapic_base : Z).
Context (cpu w pd : Z) (B : gset Z) (ml mk : bool).

#[local] Abbreviation boot := (boot (T := T) (K := K) (H := H) (S := S) (KH := KH)).
Implicit Types b : boot.

(** What the core relies on when it is started: the directory the first core made
    for it, memory for the lock of its allocator, its share of the physical frames,
    and enough kernel memory. *)
Record can_start b : Prop := {
  cs_pd : Vm.init_page_dir (b_vm b) !! cpu = Some pd;
  cs_lock : exists q h, ra_malloc MallocWrappers.sizeof_mutex (MallocWrappers.heap (b_alloc b)) = Ok (q, h) /\ q <> 0;
  cs_pm : exists p, init_pm machine_phys_frames smp_num_cpus smp_lapic_base ml mk cpu (Vm.pool (b_vm b)) = Ok (0, p);
  cs_msg : Message.boot_inv (net (mem (ker (b_sys b)))) w B;
  cs_cpu : 1 <= cpu <= w /\ cpu ∉ B;
  cs_mem : (17 <= length (answers_of (ker (b_sys b))))%nat }.

(** After [ap_kernel_init]. *)
Record initialised b b' : Prop := {
  in_vm : Vm.cr3 (b_vm b') = pd /\ Vm.paging (b_vm b') = true;
  in_cr3 : cr3 (ker (b_sys b')) = fupd (cr3 (ker (b_sys b))) cpu pd;
  in_core : core_data (ker (b_sys b')) cpu;
  in_msg : Message.boot_inv (net (mem (ker (b_sys b')))) w ({[cpu]} ∪ B);
  in_answers : answers_of (ker (b_sys b')) = drop 13 (answers_of (ker (b_sys b)));
  in_mem : id_count (mem (ker (b_sys b'))) = id_count (mem (ker (b_sys b)));
  in_tcbs : tcbs (mem (ker (b_sys b'))) = tcbs (mem (ker (b_sys b))) /\ pcbs (mem (ker (b_sys b'))) = pcbs (mem (ker (b_sys b)));
  in_rest : b_dev b' = b_dev b /\ b_eflags b' = b_eflags b /\ spaces (b_sys b') = spaces (b_sys b) }.

Lemma malloc_init_run (a : MallocWrappers.alloc_state (H := H)) q h : ra_malloc MallocWrappers.sizeof_mutex (MallocWrappers.heap a) = Ok (q, h) -> q <> 0 ->
  exists a', MallocWrappers.malloc_init cpu a = Ok (0, a').
Proof.
  intros E Hq. unfold MallocWrappers.malloc_init, MallocWrappers.raw. erewrite bind_ok by (apply zoom_ok; exact E).
  erewrite bind_ok by reflexivity. rewrite (proj2 (Z.eqb_neq q 0)) by done. erewrite bind_ok by reflexivity. by eexists.
Qed.

Lemma must_zoom {X Y} (get : X -> Y) set (m : M Y Z) s s' : m (get s) = Ok (0, s') -> must (zoom get set m) s = Ok (tt, set s' s).
Proof. intros E. apply must_ok. by apply zoom_ok. Qed.

Lemma ap_kernel_init_run b : can_start b -> exists b', ap_kernel_init machine_phys_frames smp_num_cpus smp_lapic_base cpu ml mk b = Ok (tt, b') /\ initialised b b'.
Proof.
  intros [Hpd (q & h & Hq & Hq0) (p & Hp) Hmsg [Hc HB] Hl]. unfold ap_kernel_init, on_vm, on_alloc, on_sys.
  assert (E1 : zoom b_vm set_vm (Vm.adopt_init_pd cpu) b =
    Ok (tt, set_vm (Vm.with_regs pd true (Vm.init_page_dir (b_vm b)) (Vm.all_zero_frame (b_vm b)) (b_vm b)) b)).
  { apply zoom_ok. unfold Vm.adopt_init_pd, deref, Vm.enable_paging, get, modify. munfold. rewrite Hpd. done. }
  rewrite (bind_ok _ _ _ _ _ E1). set (b1 := set_vm _ b). erewrite bind_ok by reflexivity. set (b2 := set_sys _ b1).
  destruct (malloc_init_run (b_alloc b2) q h Hq Hq0) as (a' & Ea).
  rewrite (bind_ok _ _ _ _ _ (must_zoom _ _ _ _ _ Ea)). set (b3 := set_alloc a' b2).
  assert (Ep : zoom Vm.pool Vm.with_pool (init_pm machine_phys_frames smp_num_cpus smp_lapic_base ml mk cpu) (b_vm b3) = Ok (0, Vm.with_pool p (b_vm b3))) by (apply zoom_ok; exact Hp).
  rewrite (bind_ok _ _ _ _ _ (must_zoom _ _ _ _ _ Ep)). set (b4 := set_vm _ b3).
  destruct (answers_of (ker (b_sys b))) as [|a0 [|a1 [|a2 [|a3 l]]]] eqn:El; try (simpl in Hl; lia).
  destruct (Message.init_ap_msg_ok _ w B cpu a0 a1 a2 a3 l Hmsg Hc HB El) as (n' & Rn & Hb' & Hn').
  assert (Em : must (zoom b_sys set_sys (on_ker (on_mem (ControlBlock.on_net (Message.init_ap_msg cpu))))) b4 =
    Ok (tt, set_sys (with_ker (with_mem (with_net n' (mem (ker (b_sys b4)))) (ker (b_sys b4))) (b_sys b4)) b4)).
  { apply must_zoom. unfold on_ker, on_mem, ControlBlock.on_net. do 3 apply zoom_ok. exact Rn. }
  rewrite (bind_ok _ _ _ _ _ Em). set (b5 := set_sys _ b4).
  assert (Ha5 : answers_of (ker (b_sys b5)) = l) by exact Hn'.
  assert (Hg : granted 9 l = true). { apply granted_enough; [|simpl in Hl; lia]. rewrite <- Hn'. apply (Message.bi_answers _ _ _ Hb'). }
  assert (Ec : core_init cpu (b_sys b5) = Ok (tt, with_ker (core_up cpu (ker (b_sys b5))) (b_sys b5))) by (rewrite core_init_run, Ha5, Hg; done).
  rewrite (zoom_ok _ _ _ _ _ _ Ec). eexists. split; [reflexivity|]. destruct (core_up_data cpu (ker (b_sys b5))) as (D1 & [O1 O2 O3 O4] & D3).
  split; cbn [b_vm b_sys b_dev b_eflags set_sys ker with_ker spaces]; try done.
  - destruct O2 as (l' & El'). rewrite El'. assert (E9 : Message.answers n' = take 9 l ++ drop 9 l) by (by rewrite take_drop).
    pose proof (Message.boot_inv_answers n' w _ _ _ Hb' E9) as X. assert (El9 : l' = drop 9 l). { rewrite <- Ha5, <- D3. unfold answers_of. by rewrite El'. } by rewrite El9.
  - by rewrite D3, Ha5, El.
Qed.

Lemma loadFirstTask_run b st ms pc rest : cr3 (ker (b_sys b)) cpu = pd -> answers_of (ker (b_sys b)) = st :: ms :: pc :: rest -> ControlBlock.is_stack st -> ms <> 0 -> pc <> 0 ->
  -1 <= id_count (mem (ker (b_sys b))) < 2 ^ 31 - 1 ->
  exists t c m', let b' := set_sys (with_ker (with_mem m' (ker (b_sys b))) (b_sys b)) b in loadFirstTask cpu b = Ok (st + 8160, b') /\
    tcbs m' = <[st + 8160 := t]> (tcbs (mem (ker (b_sys b)))) /\ state t = NORMAL /\ pcb t = pc /\ tid t = id_count (mem (ker (b_sys b))) + 1 /\ k_stack_esp t = st + 8160 /\
    pcbs m' = <[pc := c]> (pcbs (mem (ker (b_sys b)))) /\ page_table_base c = pd /\ cur_thr_num c = 1 /\
    exists g, net m' = Message.with_msgs g (Message.with_answers rest (net (mem (ker (b_sys b))))).
Proof.
  intros Hpd Ha Hst Hms Hpc Hid. destruct (idle_process_run cpu pd (mem (ker (b_sys b))) st ms pc rest Ha Hst Hms Hpc Hid) as (t & c & m' & R & Ht & H1 & H2 & H3 & H4 & Hc & H5 & H6 & Hn).
  exists t, c, m'. intros b'. split; [|naive_solver]. unfold loadFirstTask, on_sys, on_ker, on_mem. rewrite (bind_ok _ _ b (b_sys b) b eq_refl), Hpd.
  assert (E : zoom b_sys set_sys (zoom ker with_ker (zoom mem with_mem (ControlBlock.tcb_create_idle_process cpu NORMAL pd))) b = Ok (st + 8160, b')) by (do 3 apply zoom_ok; exact R).
  rewrite (bind_ok _ _ _ _ _ E). rewrite (proj2 (Z.eqb_neq (st + 8160) 0)); [done|]. destruct Hst. lia.
Qed.

Lemma load_idle_process_run b th t q rest sp usp prog sp' l :
  answers_of (ker (b_sys b)) = q :: rest -> q <> 0 -> tcbs (mem (ker (b_sys b))) !! th = Some t -> 24 <= k_stack_esp t < 2 ^ 32 ->
  spaces (b_sys b) !! cr3 (ker (b_sys b)) cpu = Some sp -> Loader.loadTask TOC elf_check_header elf_load_helper IDLE [IDLE] sp = Ok (inr (usp, prog), sp') ->
  Timer.lapics (Idt.tmr (b_dev b)) !! cpu = Some l ->
  exists b' k', load_idle_process TOC elf_check_header elf_load_helper cpu th b = Ok (k_stack_esp t - 24, b') /\ ker (b_sys b') = k' /\
    (exists W, k' = with_words W (with_esp0 (fupd (esp0 (ker (b_sys b))) cpu (k_stack_esp t)) (with_idle_thr (fupd (idle_thr (ker (b_sys b))) cpu th)
       (with_apic_num_ticks (fupd (apic_num_ticks (ker (b_sys b))) cpu 0) (pop_to rest (ker (b_sys b))))))) /\
    stack_words k' (k_stack_esp t - 24) 6 = [43; prog; 35; b_eflags b; usp; 43] /\ spaces (b_sys b') = <[cr3 (ker (b_sys b)) cpu := sp']> (spaces (b_sys b)) /\
    b_vm b' = b_vm b /\ Timer.lapics (Idt.tmr (b_dev b')) !! cpu =
      Some (Timer.mk_lapic (Timer.lvt_value (Timer.lvt l)) (Timer.lapic_timer_init (Idt.tmr (b_dev b))) (Timer.lapic_timer_init (Idt.tmr (b_dev b))) Timer.LAPIC_X1).
Proof.
  intros Ha Hq Ht Hk Hsp Hl Hlap. unfold load_idle_process, on_timer, on_sys, on_dev.
  assert (E1 : zoom b_sys set_sys (on_ker malloc) b = Ok (q, set_sys (with_ker (pop_to rest (ker (b_sys b))) (b_sys b)) b)).
  { apply zoom_ok, on_ker_ok. rewrite malloc_next, Ha. done. }
  rewrite (bind_ok _ _ _ _ _ E1). set (b1 := set_sys _ b).
  pose proof (zoom_ok b_dev set_dev _ b1 _ _ (zoom_ok Idt.tmr Idt.set_tmr _ _ _ _ (Timer.init_lapic_run cpu q (Idt.tmr (b_dev b1)) l Hq Hlap))) as E2.
  rewrite (bind_ok _ _ _ _ _ E2). set (b2 := set_dev _ b1). erewrite bind_ok by reflexivity. set (b3 := set_sys _ b2).
  pose proof (zoom_ok b_sys set_sys _ b3 _ _ (on_space_ok _ (b_sys b3) cpu sp _ _ Hsp Hl)) as E4. rewrite (bind_ok _ _ _ _ _ E4). set (b4 := set_sys _ b3).
  erewrite bind_ok by reflexivity. set (b5 := set_sys _ b4).
  assert (E6 : zoom b_sys set_sys (on_ker (rd_tcb th)) b5 = Ok (t, b5)).
  { unfold zoom, on_ker, rd_tcb, on_mem, ControlBlock.rd_tcb, zoom, deref. cbn. by rewrite Ht. }
  rewrite (bind_ok _ _ _ _ _ E6). erewrite bind_ok by reflexivity.
  destruct (load_kernel_stack_run (ker (b_sys b5)) cpu (b_eflags b5) (k_stack_esp t) usp prog Hk) as (W & R & Hw & _).
  rewrite (zoom_ok b_sys set_sys _ b5 _ _ (on_ker_ok _ (b_sys b5) _ _ R)). eexists _, _. split; [reflexivity|]. split; [reflexivity|].
  split; [by exists W|]. split; [exact Hw|]. split; [done|]. split; [done|]. cbn. apply lookup_insert_eq.
Qed.

(** The state in which a worker core enters the idle program. *)
Record booted b b' (st usp prog : Z) (sp' : S) : Prop := {
  bt_paging : Vm.cr3 (b_vm b') = pd /\ Vm.paging (b_vm b') = true /\ cr3 (ker (b_sys b')) cpu = pd;
  bt_core : core_data (ker (b_sys b')) cpu;
  bt_msg : Message.boot_inv (net (mem (ker (b_sys b')))) w ({[cpu]} ∪ B);
  bt_idle : idle_thr (ker (b_sys b')) cpu = st + 8160 /\ esp0 (ker (b_sys b')) cpu = st + 8160;
  bt_thread : exists t c, tcbs (mem (ker (b_sys b'))) = <[st + 8160 := t]> (tcbs (mem (ker (b_sys b)))) /\ state t = NORMAL /\
    tid t = id_count (mem (ker (b_sys b))) + 1 /\ k_stack_esp t = st + 8160 /\
    pcbs (mem (ker (b_sys b'))) = <[pcb t := c]> (pcbs (mem (ker (b_sys b)))) /\ page_table_base c = pd /\ cur_thr_num c = 1;
  bt_stack : stack_words (ker (b_sys b')) (st + 8136) 6 = [43; prog; 35; b_eflags b; usp; 43];
  bt_space : spaces (b_sys b') = <[pd := sp']> (spaces (b_sys b));
  bt_timer : exists l', Timer.lapics (Idt.tmr (b_dev b')) !! cpu = Some l' /\ Timer.init_count l' = Timer.lapic_timer_init (Idt.tmr (b_dev b)) /\
    Timer.periodic l' = true /\ Timer.masked l' = false /\ apic_num_ticks (ker (b_sys b')) cpu = 0 }.

Lemma core_data_keeps k k' : core_data k cpu -> queues k' = queues k -> spin k' = spin k -> zombie_lists k' = zombie_lists k -> zombie_list_locks k' = zombie_list_locks k ->
  deschedule_queues k' = deschedule_queues k -> deschedule_mutexs k' = deschedule_mutexs k -> sleep_queue k' = sleep_queue k -> core_data k' cpu.
Proof. intros [] E1 E2 E3 E4 E5 E6 E7. split; congruence. Qed.

(** (C33) Booting a worker core.  When the first core has made a page directory for it
    and the memory lasts, [ap_kernel_main] does not panic and ends ready to enter the
    idle program: paging is on with the core's own directory; its run queue, zombie
    list, deschedule queue and sleep queue are empty and their locks free; its two
    message channels are set up beside those of the cores that have booted before;
    its idle thread is a task of one thread with the next thread number, on its own
    kernel stack, and in [idle_thr], not in the run queue; its APIC timer interrupts
    periodically at the calibrated rate; and the words on the kernel stack make [iret]
    enter the program in user mode. *)
Theorem ap_kernel_main_boots b ans st ms pc q rest sp usp prog sp' l :
  can_start b -> answers_of (ker (b_sys b)) = ans ++ [st; ms; pc; q] ++ rest -> length ans = 13%nat -> ControlBlock.is_stack st ->
  -1 <= id_count (mem (ker (b_sys b))) < 2 ^ 31 - 1 -> spaces (b_sys b) !! pd = Some sp ->
  Loader.loadTask TOC elf_check_header elf_load_helper IDLE [IDLE] sp = Ok (inr (usp, prog), sp') -> Timer.lapics (Idt.tmr (b_dev b)) !! cpu = Some l ->
  exists b', ap_kernel_main TOC elf_check_header elf_load_helper machine_phys_frames smp_num_cpus smp_lapic_base cpu ml mk b = Ok ((st + 8160, st + 8136), b') /\
    booted b b' st usp prog sp'.
Proof.
  intros Hcs Ha Hlen Hst Hid Hsp Hload Hlap. destruct (ap_kernel_init_run b Hcs) as (b1 & R1 & [Hvm Hcr Hcore Hmsg Han Hidc [Htc Hpc'] [Hdev [Hfl Hsps]]]).
  pose proof (Message.bi_answers _ _ _ (cs_msg b Hcs)) as [_ H0]. fold (answers_of (ker (b_sys b))) in H0. rewrite Ha in H0.
  assert (Hnz : ms <> 0 /\ pc <> 0 /\ q <> 0) by set_solver. destruct Hnz as (Hms & Hpc & Hq).
  assert (Ha1 : answers_of (ker (b_sys b1)) = st :: ms :: pc :: q :: rest) by (rewrite Han, Ha, <- Hlen, drop_app_length; done).
  assert (Hcr1 : cr3 (ker (b_sys b1)) cpu = pd) by (rewrite Hcr; apply fupd_eq). rewrite <- Hidc in Hid.
  destruct (loadFirstTask_run b1 st ms pc (q :: rest) Hcr1 Ha1 Hst Hms Hpc Hid) as (t & c & m' & R2 & Ht & Hs & Hp & Htid & Hk & Hc & Hpt & Hn & g & Hnet).
  set (b2 := set_sys _ b1) in *. assert (Hst' : 24 <= k_stack_esp t < 2 ^ 32) by (rewrite Hk; destruct Hst as (? & ? & Hx); change ControlBlock.K_STACK_SIZE with 8192 in Hx; lia).
  assert (Hsp2 : spaces (b_sys b2) !! cr3 (ker (b_sys b2)) cpu = Some sp) by (change (spaces (b_sys b1) !! cr3 (ker (b_sys b1)) cpu = Some sp); by rewrite Hsps, Hcr1).
  assert (Hlap2 : Timer.lapics (Idt.tmr (b_dev b2)) !! cpu = Some l) by (change (b_dev b2) with (b_dev b1); by rewrite Hdev).
  assert (Ha2 : answers_of (ker (b_sys b2)) = q :: rest) by (unfold answers_of; cbn [b_sys b2 set_sys ker with_ker mem with_mem]; by rewrite Hnet).
  assert (Ht2 : tcbs (mem (ker (b_sys b2))) !! (st + 8160) = Some t) by (cbn; rewrite Ht; apply lookup_insert_eq).
  destruct (load_idle_process_run b2 (st + 8160) t q rest sp usp prog sp' l Ha2 Hq Ht2 Hst' Hsp2 Hload Hlap2) as (b3 & k3 & R3 & Hk3 & (W & EW) & Hw & Hss & Hv3 & Hl3).
  rewrite Hk in R3, Hw. replace (st + 8160 - 24) with (st + 8136) in * by lia. exists b3. split.
  - unfold ap_kernel_main. rewrite (bind_ok _ _ _ _ _ R1), (bind_ok _ _ _ _ _ R2), (bind_ok _ _ _ _ _ R3). done.
  - split; rewrite ?Hk3.
    + rewrite Hv3. split; [apply Hvm|]. split; [apply Hvm|]. rewrite EW. exact Hcr1.
    + rewrite EW. by apply (core_data_keeps (ker (b_sys b1))).
    + rewrite EW. cbn [mem with_words with_esp0 with_idle_thr with_apic_num_ticks pop_to with_mem net with_net b_sys b2 set_sys ker with_ker]. rewrite Hnet.
      assert (E4 : Message.answers (net (mem (ker (b_sys b1)))) = [st; ms; pc; q] ++ rest) by exact Ha1.
      destruct (Message.boot_inv_answers _ _ _ _ _ Hmsg E4). by split.
    + rewrite EW. cbn. rewrite !fupd_eq. done.
    + exists t, c. rewrite EW. cbn. rewrite Ht, Hc, Hp, Htc, Hpc'. split; [done|]. split; [done|]. split; [by rewrite Htid, Hidc|]. done.
    + rewrite Hw. change (b_eflags b2) with (b_eflags b1). by rewrite Hfl.
    + rewrite Hss. cbn [b_sys b2 set_sys ker with_ker cr3 with_mem spaces]. by rewrite Hcr1, Hsps.
    + eexists. split; [exact Hl3|]. change (b_dev b2) with (b_dev b1). rewrite Hdev. split; [done|].
      unfold Timer.periodic, Timer.masked. cbn. rewrite Timer.lvt_periodic, Timer.lvt_unmasked. split; [done|]. split; [done|]. rewrite EW. cbn. by rewrite fupd_eq.
Qed.
End worker.

(** ** A board with two worker cores, of which core 1 boots first *)

Lemma new_program_witness : exists esp k', load_kernel_stack 1 514 16352 4294967268 16777216 ContextSwitch.demo_kernel = Ok (esp, k') /\ esp0 k' 1 = 16352 /\
  forall r, exists r', asm_new_process_iret (TrapFrame.mk_cpu r (stack_words k' esp 6)) = Ok (tt, TrapFrame.mk_cpu r' []) /\ TrapFrame.eip r' = 16777216 /\ TrapFrame.cs r' = 35.
Proof.
  destruct (new_program_in_user_mode ContextSwitch.demo_kernel 1 514 16352 4294967268 16777216 ltac:(lia)) as (esp & k' & R & E & _ & K).
  exists esp, k'. split; [exact R|]. split; [exact E|]. intros r. specialize (K r []). rewrite app_nil_r in K. eexists. split; [exact K|]. by split.
Defined.

#[local] Existing Instances AddrSpace.flat_space Exec.flat_check.
#[local] Instance demo_frames : FrameAlloc SegTree.seg_state := seg_alloc Pm.demo_calloc.
Definition demo_raw : RawAlloc unit := {|
  ra_malloc := fun _ h => Ok (9000, h); ra_memalign := fun _ _ h => Ok (0, h); ra_calloc := fun _ _ h => Ok (0, h); ra_realloc := fun _ _ h => Ok (0, h);
  ra_free := fun _ h => Ok (tt, h); ra_smalloc := fun _ h => Ok (0, h); ra_smemalign := fun _ _ h => Ok (0, h); ra_sfree := fun _ _ h => Ok (tt, h) |}.
#[local] Existing Instance demo_raw.

Definition demo_answers : list Z := seqZ 1000 13 ++ [73728; 1100; 1200; 1300] ++ [1400].
Definition demo_net : Message.net :=
  match Message.msg_init 3 (Message.mk_net 0 ∅ ∅ ∅ ∅ ∅ (500 :: 501 :: demo_answers)) with Ok (_, n) => n | _ => Message.demo_off end.
Definition demo_boot : boot (T := SegTree.seg_state) (K := page_heap) (H := unit) (S := flat) (KH := unit) :=
  mk_boot (Vm.mk_vm (fun _ _ => 0) 0 false {[1 := 8192]} 4096 3 67 Pm.demo_pm (mk_heap [] ∅) None (fun _ => NORMAL))
    (MallocWrappers.mk_alloc ∅ ∅ tt (fun _ => NORMAL))
    (mk_sys (with_mem (mk_kmem demo_net ∅ ∅ ∅ ∅ 0 77) ContextSwitch.demo_kernel) {[8192 := Loader.demo_flat]} ∅ 0 0 0)
    Idt.demo_machine 514.
Definition demo_idle : toc_entry := mk_toc IDLE [1; 2; 3; 4; 5; 6].

Lemma demo_net_ok : Message.boot_inv demo_net 2 ∅ /\ Message.answers demo_net = demo_answers.
Proof.
  destruct (Message.msg_init_ok (Message.mk_net 0 ∅ ∅ ∅ ∅ ∅ (500 :: 501 :: demo_answers)) 3 500 501 demo_answers) as (n' & R & Hi & Ha); [lia|done| | |].
  - apply (bool_decide_unpack _). by vm_compute.
  - apply (bool_decide_unpack _). by vm_compute.
  - unfold demo_net. rewrite R. done.
Qed.

Lemma demo_can_start : can_start 4224 2 0 1 2 8192 ∅ true true demo_boot.
Proof.
  split; try done.
  - by exists 9000, tt.
  - eexists. vm_compute. reflexivity.
  - apply demo_net_ok.
  - unfold answers_of. cbn [demo_boot b_sys ker with_mem mem net]. rewrite (proj2 demo_net_ok). by vm_compute; lia.
Qed.

Lemma demo_loads : exists usp prog sp', Loader.loadTask [demo_idle] (fun _ => 0) (fun _ => (0, Loader.demo_elf)) IDLE [IDLE] Loader.demo_flat = Ok (inr (usp, prog), sp') /\ prog = 16777216.
Proof.
  assert (E : exists usp, outcome (Loader.loadTask [demo_idle] (fun _ => 0) (fun _ => (0, Loader.demo_elf)) IDLE [IDLE] Loader.demo_flat) = Some (inr (usp, 16777216))) by (eexists; vm_compute; reflexivity).
  destruct E as [usp E]. destruct (Loader.loadTask _ _ _ _ _ _) as [[r s']| | | |]; try discriminate E. injection E as ->. by exists usp, 16777216, s'.
Qed.

Lemma ap_kernel_main_witness : exists b' usp sp',
  ap_kernel_main [demo_idle] (fun _ => 0) (fun _ => (0, Loader.demo_elf)) 4224 2 0 1 true true demo_boot = Ok ((81888, 81864), b') /\
  booted 1 2 8192 ∅ demo_boot b' 73728 usp 16777216 sp'.
Proof.
  destruct demo_loads as (usp & prog & sp' & R & ->).
  destruct (ap_kernel_main_boots [demo_idle] (fun _ => 0) (fun _ => (0, Loader.demo_elf)) 4224 2 0 1 2 8192 ∅ true true demo_boot
    (seqZ 1000 13) 73728 1100 1200 1300 [1400] Loader.demo_flat usp 16777216 sp' Timer.reset_lapic) as (b' & Rb & Kb).
  - exact demo_can_start.
  - exact (proj2 demo_net_ok).
  - reflexivity.
  - split; [lia|]. split; [reflexivity|]. change (81920 <= 2 ^ 32). lia.
  - change (-1 <= 0 < 2 ^ 31 - 1). lia.
  - reflexivity.
  - exact R.
  - reflexivity.
  - exists b', usp, sp'. split; [exact Rb|exact Kb].
Defined.
End Boot.
