(* ===== verification/VmSpace.v ===== *)
(** * User memory as the page tables of vm.c give it

    [AddrSpace] and [UserCheck] say what the loader and the system calls rely on
    when they touch user memory.  This file shows that vm.c keeps these promises:
    [new_region] for the segments and stacks of a program, and
    [check_mem_validness] in all its modes.  In between stands [page_view], an
    address space as a map from page numbers to the contents of the page and
    whether it still waits for its first write; [core_ok] is the invariant: user
    frames belong to one page each, zero-fill pages share the zero frame and have
    a frame promised. *)

From S2P Require Import Prelude SegTree SimpleQueue ThreadState Mutex Pm Vm FramePoolPm VmProofs AddrSpace Message ControlBlock ThrMgmt Loader SysState Exec Syscalls Idt TrapFrame Exceptions.
From Stdlib Require Import ZArith Lia.
From stdpp Require Import base gmap list tactics numbers.

#[local] Open Scope Z_scope.

Module VmSpace.
Import Vm VmProofs.

(** ** Bytes of a word *)
Definition get_byte (w i : Z) : Z := Z.land (Z.shiftr w (8 * i)) 255.
Definition set_byte (w i v : Z) : Z := Z.lor (Z.ldiff w (Z.shiftl 255 (8 * i))) (Z.shiftl v (8 * i)).

Lemma get_byte_range w i : 0 <= get_byte w i < 256.
Proof. unfold get_byte. change 255 with (Z.ones 8). rewrite Z.land_ones by lia. apply Z.mod_pos_bound. lia. Qed.

Lemma get_byte_0 i : get_byte 0 i = 0.
Proof. unfold get_byte. by rewrite Z.shiftr_0_l. Qed.

Lemma testbit_255 n : 0 <= n -> Z.testbit 255 n = (n <? 8).
Proof. intros Hn. change 255 with (Z.ones 8). destruct (Z.ltb_spec n 8); [apply Z.ones_spec_low; lia|apply Z.ones_spec_high; lia]. Qed.

Lemma byte_high v n : 0 <= v < 256 -> 8 <= n -> Z.testbit v n = false.
Proof. intros Hv Hn. destruct (Z.eq_dec v 0) as [->|]; [apply Z.bits_0|]. apply Z.bits_above_log2; [lia|]. assert (Z.log2 v < 8) by (apply Z.log2_lt_pow2; lia). lia. Qed.

Lemma get_set_byte w i v j : 0 <= i -> 0 <= j -> 0 <= v < 256 -> get_byte (set_byte w i v) j = if j =? i then v else get_byte w j.
Proof.
  intros Hi Hj Hv. apply Z.bits_inj'. intros n Hn. unfold get_byte at 1, set_byte. rewrite Z.land_spec, Z.shiftr_spec, Z.lor_spec, Z.ldiff_spec, !Z.shiftl_spec, (testbit_255 n) by lia.
  destruct (Z.ltb_spec n 8) as [Hn8|Hn8].
  - rewrite andb_true_r. destruct (Z.eqb_spec j i) as [->|Hne].
    + replace (n + 8 * i - 8 * i) with n by lia. rewrite testbit_255 by lia. rewrite (proj2 (Z.ltb_lt n 8)) by lia. by rewrite andb_false_r.
    + unfold get_byte. rewrite Z.land_spec, Z.shiftr_spec, (testbit_255 n), (proj2 (Z.ltb_lt n 8)), andb_true_r by lia.
      destruct (Z.lt_ge_cases (n + 8 * j - 8 * i) 0) as [H|H]; [rewrite !(Z.testbit_neg_r _ (n + 8 * j - 8 * i)) by lia; by rewrite andb_true_r, orb_false_r|].
      rewrite (byte_high v) by lia. rewrite testbit_255, (proj2 (Z.ltb_ge _ 8)) by lia. by rewrite andb_true_r, orb_false_r.
  - rewrite andb_false_r. destruct (j =? i); [by rewrite byte_high by lia|]. unfold get_byte. rewrite Z.land_spec, (byte_high 255), andb_false_r by lia. done.
Qed.

(** ** Address spaces as maps of pages *)
Section space.
Context {P K : Type} {FP : FramePool P} {KH : KernelHeap K}.
Context (me : Z).
Hypothesis me_tid : 0 <= me.
Abbreviation state := (vm_state P K).
Implicit Types s : state.

(** The kernel writes a byte at a user address; write protection does not concern
    it (bit WP of cr0 is clear, loader.c). *)
Definition store_byte (va v : Z) : M state unit :=
  s ← get; f ← deref (walk s (align va));
  modify (fun s => with_mem (mset (mem s) f (va mod 4096 / 4) (set_byte (mem s f (va mod 4096 / 4)) (va mod 4) v)) s).

(** Page [k]: is it a zero-fill page, and what does it hold? *)
Definition page_view s (k : Z) : option (bool * (Z -> Z)) :=
  match pte_at s k with
  | Some e => if IS_SET e PG_P then Some (IS_SET e PG_ZFOD, mem s (align e)) else None
  | None => None
  end.

Definition zeros_page : Z -> Z := fun _ => 0.
Definition is_user (k : Z) : Prop := 4096 <= k < 2 ^ 20.

Record core_ok s (A F : gset Z) (left : Z) (G : gset Z) : Prop := {
  co_as : as_ok s A;
  co_pool : fp_rep (pool s) F left;
  co_promise : left + Z.of_nat (size G) <= Z.of_nat (size F);
  co_zero : mem s (all_zero_frame s) = zeros_page;
  co_page : forall k e, is_user k -> pte_at s k = Some e -> IS_SET e PG_P = true ->
    if IS_SET e PG_ZFOD then align e = all_zero_frame s /\ IS_SET e PG_RW = false /\ k ∈ G else fp_frame (align e) /\ align e ∉ F;
  co_inj : forall k k' e e', is_user k -> is_user k' -> pte_at s k = Some e -> pte_at s k' = Some e' ->
    IS_SET e PG_P = true -> IS_SET e' PG_P = true -> IS_SET e PG_ZFOD = false -> IS_SET e' PG_ZFOD = false -> align e = align e' -> k = k' }.

Definition space_ok s : Prop := locks_free s /\ exists A F left G, core_ok s A F left G.

Lemma frame_high f : fp_frame f -> 16777216 <= f.
Proof. intros Hf. apply (fp_frame_ok f Hf). Qed.

Lemma frame_not_kernel s A f : as_ok s A -> fp_frame f -> (f ∉ A) /\ f <> all_zero_frame s.
Proof.
  intros H Hf%frame_high. split.
  - intros Hin. pose proof (as_pages _ _ H _ Hin). lia.
  - intros ->. pose proof (as_pages _ _ H _ (proj1 (as_zero _ _ H))). lia.
Qed.

(** The frame of a present page holds what it did when the frames are kept. *)
Lemma view_kept s s' A F left G k : core_ok s A F left G -> is_user k -> frames_kept s s' -> pte_at s' k = pte_at s k -> page_view s' k = page_view s k.
Proof.
  intros H Hk Hm E. unfold page_view. rewrite E. destruct (pte_at s k) as [e|] eqn:Ee; [|done]. destruct (IS_SET e PG_P) eqn:Ep; [|done].
  rewrite Hm; [done|]. pose proof (co_page _ _ _ _ _ H k e Hk Ee Ep) as Hp. destruct (IS_SET e PG_ZFOD); [right; apply Hp|left; by apply frame_high, Hp].
Qed.

(** Page tables may come and go as long as the pages that stay are as they were. *)
Lemma core_ok_tables s s' A A' F left G : core_ok s A F left G -> as_ok s' A' -> same_rest s s' ->
  (forall k, 0 <= k < 2 ^ 20 -> pte_at s' k = pte_at s k \/ pte_at s' k = None \/ pte_at s' k = Some 0) -> core_ok s' A' F left G.
Proof.
  intros [H1 H2 H3 H4 H5 H6] Hok [(R1 & R2 & R3 & R4 & R5 & R6 & R7) Rm] Ht.
  assert (Hold : forall k e, is_user k -> pte_at s' k = Some e -> IS_SET e PG_P = true -> pte_at s k = Some e).
  { unfold is_user. intros k e Hk E Ep. destruct (Ht k ltac:(lia)) as [?|[?|E0]]; [congruence|congruence|]. rewrite E in E0. injection E0 as ->. done. }
  split; [done|by rewrite R7|done|by rewrite R2, Rm by (by right)|..].
  - intros k e Hk E Ep. pose proof (H5 k e Hk (Hold k e Hk E Ep) Ep) as Hp. by rewrite R2.
  - intros k k' e e' Hk Hk' E E' Ep Ep'. apply H6; auto.
Qed.

Lemma grows_tables s s' : grows s s' -> forall k, 0 <= k < 2 ^ 20 -> pte_at s' k = pte_at s k \/ pte_at s' k = None \/ pte_at s' k = Some 0.
Proof. intros Hg k Hk. destruct (Hg k Hk) as [?|[_ ?]]; auto. Qed.

Lemma churn_tables s s' : churn s s' -> forall k, 0 <= k < 2 ^ 20 -> pte_at s' k = pte_at s k \/ pte_at s' k = None \/ pte_at s' k = Some 0.
Proof. intros (m & Hg & Hs) k Hk. destruct (Hs k Hk) as [->| ->]; [by apply grows_tables|auto]. Qed.

Lemma grows_view s s' A F left G k : core_ok s A F left G -> same_rest s s' -> grows s s' -> is_user k -> page_view s' k = page_view s k.
Proof.
  intros H [_ Hm] Hg Hk. unfold is_user in Hk. destruct (Hg k ltac:(lia)) as [E|[E E']]; [by eapply view_kept|]. unfold page_view. by rewrite E, E'.
Qed.

(** ** Writing a byte *)

Lemma user_page va : 16777216 <= va < 2 ^ 32 -> is_user (va / 4096).
Proof. unfold is_user. intros Hv. split; [apply Z.div_le_lower_bound; lia|apply Z.div_lt_upper_bound; lia]. Qed.

Lemma walk_user s va : 16777216 <= va < 2 ^ 32 -> walk s (align va) =
  match pte_at s (va / 4096) with Some e => if IS_SET e PG_P then Some (align e) else None | None => None end.
Proof. intros Hv. rewrite align_div by lia. apply walk_pte. pose proof (user_page va Hv) as H. unfold is_user in H. lia. Qed.

Lemma core_ok_frame s A F left G f c : core_ok s A F left G -> fp_frame f -> core_ok (with_mem (mpage (mem s) f c) s) A F left G.
Proof.
  intros [H1 H2 H3 H4 H5 H6] Hf. destruct (frame_not_kernel s A f H1 Hf) as [Hn Hz]. destruct (frame_write_view s A f c H1 Hn) as (_ & Hat & Hok).
  assert (Ha : forall k, is_user k -> pte_at (with_mem (mpage (mem s) f c) s) k = pte_at s k) by (unfold is_user; intros k Hk; apply Hat; lia).
  split; [done|done|done|simpl; unfold mpage; by rewrite fupd_ne by done|..].
  - intros k e Hk. rewrite Ha by done. by apply H5.
  - intros k k' e e' Hk Hk'. rewrite !Ha by done. by apply H6.
Qed.

Lemma frame_view s A F left G k e c j : core_ok s A F left G -> is_user k -> is_user j -> pte_at s k = Some e -> IS_SET e PG_P = true -> IS_SET e PG_ZFOD = false ->
  page_view (with_mem (mpage (mem s) (align e) c) s) j = if j =? k then Some (false, c) else page_view s j.
Proof.
  intros H Hk Hj E Ep Ez. pose proof (co_page _ _ _ _ _ H k e Hk E Ep) as Hp. rewrite Ez in Hp. destruct Hp as [Hf HF].
  destruct (frame_not_kernel s A _ (co_as _ _ _ _ _ H) Hf) as [Hn Hz]. destruct (frame_write_view s A (align e) c (co_as _ _ _ _ _ H) Hn) as (_ & Hat & _).
  unfold page_view. unfold is_user in Hj. rewrite Hat by lia. destruct (Z.eqb_spec j k) as [->|Hne].
  - rewrite E, Ep, Ez. simpl. unfold mpage. by rewrite fupd_eq.
  - destruct (pte_at s j) as [e'|] eqn:E'; [|done]. destruct (IS_SET e' PG_P) eqn:Ep'; [|done]. simpl. unfold mpage. rewrite fupd_ne; [done|].
    intros Heq. pose proof (co_page _ _ _ _ _ H j e' Hj E' Ep') as Hp'. destruct (IS_SET e' PG_ZFOD) eqn:Ez'.
    + destruct Hp' as (? & _). congruence.
    + apply Hne. by apply (co_inj _ _ _ _ _ H j k e' e).
Qed.

(** [store_byte] at an address whose page has a frame of its own. *)
Lemma store_byte_ok s A F left G va v c : core_ok s A F left G -> 16777216 <= va < 2 ^ 32 -> page_view s (va / 4096) = Some (false, c) ->
  exists s', store_byte va v s = Ok (tt, s') /\ core_ok s' A F left G /\ task s' = task s /\
    forall j, is_user j -> page_view s' j = if j =? va / 4096 then Some (false, fupd c (va mod 4096 / 4) (set_byte (c (va mod 4096 / 4)) (va mod 4) v)) else page_view s j.
Proof.
  intros H Hva Hv. pose proof (user_page va Hva) as Hk. unfold page_view in Hv. destruct (pte_at s (va / 4096)) as [e|] eqn:E; [|done].
  destruct (IS_SET e PG_P) eqn:Ep; [|done]. destruct (IS_SET e PG_ZFOD) eqn:Ez; [done|]. injection Hv as <-. set (i := va mod 4096 / 4).
  exists (with_mem (mset (mem s) (align e) i (set_byte (mem s (align e) i) (va mod 4) v)) s). split; [|split; [|split; [done|]]].
  - unfold store_byte. rewrite (bind_ok get _ s s s eq_refl), walk_user, E, Ep by done. done.
  - apply core_ok_frame; [done|]. pose proof (co_page _ _ _ _ _ H _ e Hk E Ep) as Hp. rewrite Ez in Hp. apply Hp.
  - intros j Hj. by apply (frame_view s A F left G (va / 4096) e).
Qed.

(** ** Mapping a page *)

Lemma region_bits_any lo hi (rw sc z : bool) page :
  let b := region_bits lo hi rw sc z 67 page in
  0 <= b < 4096 /\ IS_SET b PG_P = true /\ IS_SET b PG_ZFOD = z /\ IS_SET b PG_RW = (negb z && rw).
Proof. unfold region_bits. destruct (page =? lo), (page =? hi), rw, sc, z; vm_compute; repeat split; congruence. Qed.

Lemma new_entry_ok a lo hi (rw sc z : bool) page : aligned a ->
  let e := Z.lor a (region_bits lo hi rw sc z 67 page) in
  align e = a /\ IS_SET e PG_P = true /\ IS_SET e PG_ZFOD = z /\ (z = true -> IS_SET e PG_RW = false).
Proof.
  intros Ha e. destruct (region_bits_any lo hi rw sc z page) as (Hb & Hp & Hz & Hr). unfold e. rewrite entry_align by done.
  rewrite !entry_bit by (done || unfold PG_P, PG_ZFOD, PG_RW; lia). split; [done|]. split; [done|]. split; [done|]. intros ->. by rewrite Hr.
Qed.

Lemma frame_aligned f : fp_frame f -> aligned f.
Proof. intros Hf. destruct (fp_frame_ok f Hf). split; [lia|done]. Qed.

Lemma unmapped_view s k : mapped s k = false <-> page_view s k = None.
Proof. unfold mapped, page_view. destruct (pte_at s k) as [e|]; [|done]. by destruct (IS_SET e PG_P). Qed.

(** A page gets an entry that refers to frame [f]. *)
Lemma write_pte_view s A k v j : as_ok s A -> is_user k -> is_user j -> has_pt s (k / 1024) = true ->
  (forall e, pte_at s j = Some e -> IS_SET e PG_P = true -> align e = all_zero_frame s \/ 16777216 <= align e) ->
  page_view (write_pte s k v) j = if j =? k then (if IS_SET v PG_P then Some (IS_SET v PG_ZFOD, mem (write_pte s k v) (align v)) else None) else page_view s j.
Proof.
  unfold is_user. intros Hok Hk Hj Hp Hf. unfold page_view. rewrite (write_pte_at s A k v j Hok ltac:(lia) ltac:(lia) Hp). destruct (j =? k); [done|].
  destruct (pte_at s j) as [e|] eqn:E; [|done]. destruct (IS_SET e PG_P) eqn:Ep; [|done]. do 2 f_equal.
  apply (pte_write_kept s A k v Hok ltac:(lia) Hp). destruct (Hf e eq_refl Ep); auto.
Qed.

Lemma core_frames s A F left G k e : core_ok s A F left G -> is_user k -> pte_at s k = Some e -> IS_SET e PG_P = true -> align e = all_zero_frame s \/ 16777216 <= align e.
Proof. intros H Hk E Ep. pose proof (co_page _ _ _ _ _ H k e Hk E Ep) as Hp. destruct (IS_SET e PG_ZFOD); [left; apply Hp|right; by apply frame_high, Hp]. Qed.

Lemma size_add_le (x : Z) (X : gset Z) : (size ({[x]} ∪ X) <= S (size X))%nat.
Proof. destruct (decide (x ∈ X)) as [Hx|Hx]; [rewrite subseteq_union_1_L by set_solver; lia|]. rewrite size_union by set_solver. rewrite size_singleton. lia. Qed.

Lemma size_take (x : Z) (X : gset Z) : x ∈ X -> Z.of_nat (size (X ∖ {[x]})) = Z.of_nat (size X) - 1.
Proof. intros Hx. pose proof (size_difference X {[x]} ltac:(set_solver)) as E. rewrite size_singleton in E. assert (0 < size X)%nat by (destruct (size X) eqn:E0; [apply size_empty_inv in E0; set_solver|lia]). lia. Qed.

(** The page becomes a zero-fill page. *)
Lemma map_lazy_page s A F left G k v : core_ok s A F left G -> is_user k -> has_pt s (k / 1024) = true -> mapped s k = false ->
  left + Z.of_nat (size G) + 1 <= Z.of_nat (size F) -> align v = all_zero_frame s -> IS_SET v PG_P = true -> IS_SET v PG_ZFOD = true -> IS_SET v PG_RW = false ->
  let s' := write_pte s k v in
  core_ok s' A F left ({[k]} ∪ G) /\ task s' = task s /\ (forall j, has_pt s' j = has_pt s j) /\
  forall j, is_user j -> page_view s' j = if j =? k then Some (true, zeros_page) else page_view s j.
Proof.
  intros H Hk Hp Hm Hs Hv1 Hv2 Hv3 Hv4 s'. pose proof H as [H1 H2 H3 H4 H5 H6]. assert (Hk' := Hk). unfold is_user in Hk'.
  pose proof (write_pte_ok s A k v H1 ltac:(lia) Hp) as Hok. pose proof (pte_write_kept s A k v H1 ltac:(lia) Hp) as Hr. fold s' in Hok, Hr. destruct Hr as [Hr Hkept].
  assert (Hz : mem s' (all_zero_frame s) = zeros_page) by (rewrite Hkept by (by right); done).
  assert (Hat : forall j, is_user j -> pte_at s' j = if j =? k then Some v else pte_at s j) by (unfold is_user; intros j Hj; apply (write_pte_at s A); (done || lia)).
  split; [split|split; [done|split]].
  - done.
  - done.
  - pose proof (size_add_le k G). lia.
  - exact Hz.
  - intros j e Hj. rewrite Hat by done. destruct (Z.eqb_spec j k) as [->|].
    + intros [= <-] _. rewrite Hv3. split; [done|]. split; [done|]. set_solver.
    + intros E Ep. pose proof (H5 j e Hj E Ep) as Hq. destruct (IS_SET e PG_ZFOD); [|done]. destruct Hq as (? & ? & ?). split; [done|]. split; [done|]. set_solver.
  - intros j j' e e' Hj Hj'. rewrite !Hat by done. destruct (Z.eqb_spec j k), (Z.eqb_spec j' k); subst; intros E E'; simplify_eq; try done; try (intros; congruence). by apply H6.
  - intros j. unfold has_pt, s'. by rewrite (write_pte_pde s A) by (done || lia).
  - intros j Hj. unfold s'. rewrite (write_pte_view s A k v j H1 Hk Hj Hp) by (intros e; by apply (core_frames s A F left G)).
    destruct (j =? k); [|done]. rewrite Hv2, Hv3, Hv1. fold s'. by rewrite Hz.
Qed.

(** The page gets the frame [f] of the pool, full of zeros. *)
Lemma map_frame_page s A F left G k v f p : core_ok s A F left G -> is_user k -> has_pt s (k / 1024) = true -> mapped s k = false ->
  left + Z.of_nat (size G) + 1 <= Z.of_nat (size F) -> f ∈ F -> fp_frame f -> fp_rep p (F ∖ {[f]}) left -> align v = f -> IS_SET v PG_P = true -> IS_SET v PG_ZFOD = false ->
  let s1 := write_pte (with_pool p s) k v in
  let s' := with_mem (mpage (mem s1) f zeros_page) s1 in
  core_ok s' A (F ∖ {[f]}) left G /\ task s' = task s /\ (forall j, 0 <= j < 1024 -> has_pt s' j = has_pt s j) /\
  forall j, is_user j -> page_view s' j = if j =? k then Some (false, zeros_page) else page_view s j.
Proof.
  intros H Hk Hp Hm Hs HfF Hf Hrep Hv1 Hv2 Hv3 s1 s'. pose proof H as [H1 H2 H3 H4 H5 H6]. assert (Hk' := Hk). unfold is_user in Hk'.
  pose proof (as_ok_pool _ _ p H1) as H1p. pose proof (write_pte_ok (with_pool p s) A k v H1p ltac:(lia) Hp) as Hok1.
  destruct (frame_not_kernel (with_pool p s) A f H1p Hf) as [HfA Hfz]. destruct (pte_write_kept (with_pool p s) A k v H1p ltac:(lia) Hp) as [_ Hkept]. fold s1 in Hok1, Hkept.
  destruct (frame_write_view s1 A f zeros_page Hok1 HfA) as (Hpde & Hat2 & Hok). fold s' in Hpde, Hat2, Hok.
  assert (Hat : forall j, is_user j -> pte_at s' j = if j =? k then Some v else pte_at s j).
  { unfold is_user. intros j Hj. rewrite Hat2 by lia. apply (write_pte_at (with_pool p s) A k v j H1p); (done || lia). }
  assert (Hmem : forall g, 16777216 <= g \/ g = all_zero_frame s -> g <> f -> mem s' g = mem s g) by (intros g Hg Hgf; unfold s'; simpl; unfold mpage; rewrite fupd_ne by done; by apply Hkept).
  split; [split|split; [done|split]].
  - done.
  - done.
  - rewrite size_take by done. lia.
  - change (mem s' (all_zero_frame s) = zeros_page). rewrite Hmem by auto. exact H4.
  - intros j e Hj. rewrite Hat by done. destruct (Z.eqb_spec j k) as [->|].
    + intros [= <-] _. rewrite Hv3, Hv1. split; [done|]. set_solver.
    + intros E Ep. pose proof (H5 j e Hj E Ep) as Hq. destruct (IS_SET e PG_ZFOD); [done|]. split; [apply Hq|]. destruct Hq. set_solver.
  - assert (Hnew : forall j e, is_user j -> pte_at s j = Some e -> IS_SET e PG_P = true -> IS_SET e PG_ZFOD = false -> align e <> f).
    { intros j e Hj E Ep Ez Ef. pose proof (H5 j e Hj E Ep) as Hq. rewrite Ez in Hq. destruct Hq. congruence. }
    intros j j' e e' Hj Hj'. rewrite !Hat by done. destruct (Z.eqb_spec j k), (Z.eqb_spec j' k); subst; intros E E'; simplify_eq; try done; [..|by apply H6].
    + intros _ Ep' _ Ez' Ef. by destruct (Hnew j' e' Hj' E' Ep' Ez').
    + intros Ep _ Ez _ Ef. by destruct (Hnew j e Hj E Ep Ez).
  - intros j Hj. unfold has_pt. rewrite Hpde by done. unfold s1. by rewrite (write_pte_pde (with_pool p s) A) by (done || lia).
  - intros j Hj. unfold page_view. rewrite Hat by done. destruct (Z.eqb_spec j k) as [->|].
    + rewrite Hv2, Hv3, Hv1. unfold s'. simpl. unfold mpage. by rewrite fupd_eq.
    + destruct (pte_at s j) as [e|] eqn:E; [|done]. destruct (IS_SET e PG_P) eqn:Ep; [|done]. do 2 f_equal.
      apply Hmem; [destruct (core_frames s A F left G j e H Hj E Ep); auto|]. pose proof (H5 j e Hj E Ep) as Hq. destruct (IS_SET e PG_ZFOD) eqn:Ez; [|intros Ef; apply Hq; by rewrite Ef].
      destruct Hq as (-> & _). by apply not_eq_sym.
Qed.

(** ** Regions *)

Lemma mapped_count_ext s s' (n : nat) : forall k, (forall j, k <= j < k + Z.of_nat n -> mapped s' j = mapped s j) -> mapped_count s' k n = mapped_count s k n.
Proof. induction n as [|n IH]; intros k He; [done|]. rewrite !mapped_count_S, IH by (intros; apply He; lia). by rewrite He by lia. Qed.

Lemma mapped_count_le s (n : nat) : forall k, mapped_count s k n <= Z.of_nat n.
Proof. induction n as [|n IH]; intros k; [done|]. rewrite mapped_count_S. specialize (IH (k + 1)). destruct (mapped s k); lia. Qed.

Lemma view_mapped s s' k : page_view s' k = page_view s k -> mapped s' k = mapped s k.
Proof.
  intros E. destruct (mapped s k) eqn:Em.
  - destruct (mapped s' k) eqn:E'; [done|]. apply unmapped_view in E'. rewrite E' in E. symmetry in E. apply unmapped_view in E. congruence.
  - apply unmapped_view in Em. rewrite Em in E. by apply unmapped_view.
Qed.

(** The body of the loop of [new_region] for a page that is not mapped. *)
Lemma map_page_run lo hi (rw sc z : bool) s A F left G k : core_ok s A F left G -> is_user k -> has_pt s (k / 1024) = true -> mapped s k = false ->
  left + Z.of_nat (size G) + 1 <= Z.of_nat (size F) ->
  exists s' F' G', (bits ← gets ctrl_bits_pte; let b := region_bits lo hi rw sc z bits (4096 * k) in
      new_f ← (if z then gets all_zero_frame else get_frame);
      wr (pt_of s (k / 1024)) (k mod 1024) (Z.lor new_f b);; (if negb z then memset0_va (4096 * k) else mret tt)) s = Ok (tt, s') /\
    core_ok s' A F' left G' /\ task s' = task s /\ (forall j, 0 <= j < 1024 -> has_pt s' j = has_pt s j) /\
    left + Z.of_nat (size G') + (Z.of_nat (size F) - left - Z.of_nat (size G) - 1) <= Z.of_nat (size F') /\
    forall j, is_user j -> page_view s' j = if j =? k then Some (z, zeros_page) else page_view s j.
Proof.
  intros H Hk Hp Hm Hs. pose proof (co_as _ _ _ _ _ H) as Hok. assert (Hk' := Hk). unfold is_user in Hk'.
  rewrite (bind_ok (gets ctrl_bits_pte) _ s 67 s) by (unfold gets; by rewrite (proj2 (as_bits _ _ Hok))). cbv zeta. destruct z; cbn [negb].
  - destruct (new_entry_ok (all_zero_frame s) lo hi rw sc true (4096 * k) (zero_aligned s A Hok)) as (E1 & E2 & E3 & E4). set (v := Z.lor _ _) in *.
    destruct (map_lazy_page s A F left G k v H Hk Hp Hm Hs E1 E2 E3 (E4 eq_refl)) as (C & T & Hh & V). exists (write_pte s k v), F, ({[k]} ∪ G).
    split; [done|]. split; [done|]. split; [done|]. split; [intros j _; apply Hh|]. split; [|done]. pose proof (size_add_le k G). lia.
  - destruct (fp_get_spec _ _ _ (co_pool _ _ _ _ _ H) ltac:(lia)) as (f & p & Rf & Hf & HfF & Hrep).
    rewrite (bind_ok get_frame _ s f (with_pool p s)) by (unfold get_frame; by apply zoom_ok).
    destruct (new_entry_ok f lo hi rw sc false (4096 * k) (frame_aligned f Hf)) as (E1 & E2 & E3 & _). set (v := Z.lor _ _) in *.
    destruct (map_frame_page s A F left G k v f p H Hk Hp Hm Hs HfF Hf Hrep E1 E2 E3) as (C & T & Hh & V). set (s1 := write_pte (with_pool p s) k v) in *.
    eexists _, (F ∖ {[f]}), G. split; [|split; [exact C|]; split; [done|]; split; [done|]; split; [rewrite size_take by done; lia|done]].
    rewrite (bind_ok (wr _ _ _) _ (with_pool p s) tt s1 eq_refl). unfold memset0_va. rewrite (bind_ok get _ s1 s1 s1 eq_refl).
    assert (Hw : walk s1 (4096 * k) = Some f).
    { rewrite walk_pte by lia. unfold s1. rewrite (write_pte_at (with_pool p s) A) by (done || lia || by apply as_ok_pool). by rewrite Z.eqb_refl, E2, E1. }
    by rewrite Hw.
Qed.

Lemma map_any_ok lo hi (rw sc z : bool) (n : nat) : forall s A F left G k page,
  core_ok s A F left G -> 4096 <= k -> k + Z.of_nat n <= 2 ^ 20 -> (n <> 0%nat -> page = 4096 * k) ->
  (forall j, k <= j < k + Z.of_nat n -> has_pt s (j / 1024) = true) ->
  left + Z.of_nat (size G) + (Z.of_nat n - mapped_count s k n) <= Z.of_nat (size F) ->
  exists s' F' G', map_loop lo hi rw sc z n page s = Ok (tt, s') /\ core_ok s' A F' left G' /\ task s' = task s /\
    forall j, is_user j -> page_view s' j = match page_view s j with Some v => Some v | None => if (k <=? j) && (j <? k + Z.of_nat n) then Some (z, zeros_page) else None end.
Proof.
  induction n as [|n IH]; intros s A F left G k page H Hk Hkn Hpg Hall Hs.
  { exists s, F, G. split; [done|]. split; [done|]. split; [done|]. intros j _. destruct (page_view s j); [done|].
    destruct (Z.leb_spec k j), (Z.ltb_spec j (k + Z.of_nat 0)); (done || lia). }
  rewrite (Hpg ltac:(done)). destruct (page_indices k ltac:(lia)) as (_ & Epd & Ept). assert (Hp : has_pt s (k / 1024) = true) by (apply Hall; lia).
  set (e := mem s (pt_of s (k / 1024)) (k mod 1024)). cbn [map_loop]. rewrite (bind_ok _ _ s (cr3 s) s eq_refl). rewrite Epd, Ept.
  rewrite (bind_ok _ _ s (pde s (k / 1024)) s eq_refl). fold (has_pt s (k / 1024)). rewrite Hp. cbn [negb]. cbv zeta.
  fold (pt_of s (k / 1024)). rewrite (bind_ok _ _ s e s eq_refl). assert (Hm : mapped s k = IS_SET e PG_P) by (unfold mapped, pte_at; by rewrite Hp).
  assert (Hnext : n <> 0%nat -> w32 (4096 * k + PAGE_SIZE) = 4096 * (k + 1)) by (intros; apply page_step; lia).
  assert (Huk : is_user k) by (unfold is_user; lia). rewrite mapped_count_S in Hs. destruct (IS_SET e PG_P) eqn:Ep; cbn [negb].
  - rewrite (bind_ok (mret tt) _ s tt s eq_refl). rewrite Hm in Hs.
    destruct (IH s A F left G (k + 1) _ H ltac:(lia) ltac:(lia) Hnext ltac:(intros; apply Hall; lia) ltac:(lia)) as (s' & F' & G' & R & C & T & V).
    exists s', F', G'. split; [exact R|]. split; [done|]. split; [done|]. intros j Hj. rewrite V by done. destruct (page_view s j) eqn:Ej; [done|].
    destruct (Z.eq_dec j k) as [->|]; [apply unmapped_view in Ej; congruence|].
    destruct (Z.leb_spec (k + 1) j), (Z.ltb_spec j (k + 1 + Z.of_nat n)), (Z.leb_spec k j), (Z.ltb_spec j (k + Z.of_nat (S n))); (done || lia).
  - pose proof (mapped_count_le s n (k + 1)) as Hle. rewrite Hm in Hs.
    destruct (map_page_run lo hi rw sc z s A F left G k H Huk Hp ltac:(by rewrite Hm) ltac:(lia)) as (s1 & F1 & G1 & R1 & C1 & T1 & Hh1 & Hs1 & V1).
    rewrite (bind_ok _ _ _ _ _ R1).
    destruct (IH s1 A F1 left G1 (k + 1) _ C1 ltac:(lia) ltac:(lia) Hnext) as (s' & F' & G' & R & C & T & V).
    + intros j Hj. rewrite Hh1 by (apply pdi_range; lia). apply Hall. lia.
    + rewrite (mapped_count_ext s s1); [lia|]. intros j Hj. apply view_mapped. rewrite V1 by (unfold is_user; lia). destruct (Z.eqb_spec j k); [lia|done].
    + exists s', F', G'. split; [exact R|]. split; [done|]. split; [congruence|]. intros j Hj. rewrite V, V1 by done. destruct (Z.eqb_spec j k) as [->|].
      * replace (page_view s k) with (None : option (bool * (Z -> Z))) by (symmetry; apply unmapped_view; by rewrite Hm).
        destruct (Z.leb_spec k k), (Z.ltb_spec k (k + Z.of_nat (S n))); (done || lia).
      * destruct (page_view s j); [done|]. destruct (Z.leb_spec (k + 1) j), (Z.ltb_spec j (k + 1 + Z.of_nat n)), (Z.leb_spec k j), (Z.ltb_spec j (k + Z.of_nat (S n))); (done || lia).
Qed.

Lemma region_arith_any va n : 16777216 <= va -> 0 < n -> va + n <= 2 ^ 32 ->
  let k0 := va / 4096 in let k1 := (va + n - 1) / 4096 in
  align va = 4096 * k0 /\ page_highest va n = 4096 * k1 /\ page_count va n = k1 - k0 + 1 /\ 4096 <= k0 <= k1 /\ k1 < 2 ^ 20.
Proof.
  intros Hva Hn Hb k0 k1. assert (E0 : align va = 4096 * k0) by (apply align_div; lia).
  assert (E1 : page_highest va n = 4096 * k1) by (unfold page_highest; rewrite !w32_small by (rewrite ?w32_small; lia); apply align_div; lia).
  assert (Hk : 4096 <= k0 <= k1 /\ k1 < 2 ^ 20).
  { split; [split|]; [apply Z.div_le_lower_bound; lia|apply Z.div_le_mono; lia|apply Z.div_lt_upper_bound; lia]. }
  split; [done|]. split; [done|]. split; [|done]. unfold page_count. rewrite E0, E1, w32_small by lia.
  unfold PAGE_SIZE. replace (4096 * k1 - 4096 * k0) with ((k1 - k0) * 4096) by lia. rewrite Z.div_mul by lia. lia.
Qed.

Lemma core_ok_pool s A F left left' G p : core_ok s A F left G -> fp_rep p F left' -> left' <= left -> core_ok (with_pool p s) A F left' G.
Proof. intros [H1 H2 H3 H4 H5 H6] Hp Hl. split; [by apply as_ok_pool|done|lia|done|exact H5|exact H6]. Qed.

(** The pages of [va], [va + 1], ..., [va + n - 1]. *)
Definition in_pages (va n j : Z) : bool := (va / 4096 <=? j) && (j <=? (va + n - 1) / 4096).

Lemma new_region_run s va n (rw z : bool) : space_ok s -> 16777216 <= va -> 0 < n -> va + n <= 2 ^ 32 ->
  exists r s', new_region me va n rw false z s = Ok (r, s') /\ space_ok s' /\
    (0 <= r -> forall j, is_user j -> page_view s' j =
       match page_view s j with Some v => Some v | None => if in_pages va n j then Some (z, zeros_page) else None end).
Proof.
  intros [Hl (A & F & left & G & H)] Hva Hn Hb. destruct (region_arith_any va n Hva Hn Hb) as (E0 & E1 & Ec & Hk & Hk1). set (k0 := va / 4096) in *. set (k1 := (va + n - 1) / 4096) in *.
  set (N := k1 - k0 + 1) in *. destruct (page_indices k0 ltac:(lia)) as (_ & Epd0 & _). destruct (page_indices k1 ltac:(lia)) as (_ & Epd1 & _).
  assert (HN : k0 + N - 1 = k1) by (unfold N; lia). pose proof (cpa_init s k0 N ltac:(lia) ltac:(lia) ltac:(lia)) as Hinit. rewrite HN in Hinit.
  destruct (cpa_ok false k0 _ (Z.to_nat N) s A k0 (4096 * k0) 0 _ (co_as _ _ _ _ _ H) Hinit ltac:(lia) ltac:(lia)) as (r & s1 & A1 & R1 & Hok1 & Hsr1 & Hres1).
  { intros _. split; [done|]. rewrite Z2Nat.id, HN by lia. lia. }
  assert (Hl1 : forall s2 : state, task s2 = task s1 -> locks_free s2) by (intros s2 Ht; destruct Hl as (locks & Hlk); exists locks; rewrite Ht; destruct Hsr1 as [(_ & _ & _ & _ & -> & _) _]; done).
  unfold new_region, count_pages_allocated. cbv zeta. rewrite E0, E1, Ec, Epd0, Epd1, Z.div_1_r, Z.sub_add. rewrite (bind_ok (mret tt) _ s tt s eq_refl).
  rewrite (bind_ok _ _ _ _ _ R1). destruct Hres1 as [(-> & _ & Hg & Hall)|[Hr Hc]].
  - pose proof (mapped_count_nonneg s k0 (Z.to_nat N)) as H0. pose proof (mapped_count_le s (Z.to_nat N) k0) as Hle. set (m := mapped_count s k0 (Z.to_nat N)) in *.
    pose proof (core_ok_tables s s1 A A1 F left G H Hok1 Hsr1 (grows_tables s s1 Hg)) as H1.
    assert (Hm1 : mapped_count s1 k0 (Z.to_nat N) = m) by (apply mapped_count_grows; (done || lia)).
    rewrite (proj2 (Z.ltb_ge (0 + m) 0)) by lia. cbn [andb].
    destruct (fp_reserve_spec (pool s1) F left (N - (0 + m)) (co_pool _ _ _ _ _ H1) ltac:(lia)) as (p & Hres). case_decide as Hd; destruct Hres as [Rr Hp].
    + erewrite bind_ok by (eapply zoom_ok; exact Rr). cbn [Z.eqb].
      pose proof (core_ok_pool s1 A1 F left (left - (N - (0 + m))) G p H1 Hp ltac:(lia)) as H2.
      destruct (map_any_ok (4096 * k0) (4096 * k1) rw false z (Z.to_nat N) (with_pool p s1) A1 F _ G k0 (4096 * k0) H2 ltac:(lia) ltac:(lia) ltac:(done)) as (s3 & F3 & G3 & R3 & H3 & T3 & V3).
      { exact Hall. }
      { change (mapped_count (with_pool p s1) k0 (Z.to_nat N)) with (mapped_count s1 k0 (Z.to_nat N)). rewrite Hm1. pose proof (co_promise _ _ _ _ _ H1). lia. }
      rewrite (bind_ok _ _ _ _ _ R3), (bind_ok (mret tt) _ s3 tt s3 eq_refl). exists 0, s3. split; [done|]. split; [split; [by apply Hl1|by eexists _, _, _, _]|].
      intros _ j Hj. rewrite V3 by done. change (page_view (with_pool p s1) j) with (page_view s1 j). rewrite (grows_view s s1 A F left G j H Hsr1 Hg Hj). destruct (page_view s j); [done|].
      unfold in_pages. fold k0 k1. rewrite Z2Nat.id by lia. replace (j <? k0 + N) with (j <=? k1); [done|]. destruct (Z.leb_spec j k1), (Z.ltb_spec j (k0 + N)); (done || lia).
    + erewrite bind_ok by (eapply zoom_ok; exact Rr). cbn [Z.eqb Pos.eqb]. rewrite (bind_ok (mret tt) _ _ tt _ eq_refl).
      eexists _, _. split; [done|]. split; [split; [by apply Hl1|eexists _, _, _, _; by apply (core_ok_pool s1 A1 F left left G p H1 Hp)]|]. by unfold ERROR_NOT_ENOUGH_MEM.
  - destruct Hr as [->|[? _]]; [|done]. cbn [Z.ltb Z.compare ERROR_MALLOC_LIB]. rewrite (bind_ok (mret tt) _ s1 tt s1 eq_refl).
    eexists _, s1. split; [done|]. split; [split; [by apply Hl1|]|by unfold ERROR_MALLOC_LIB].
    eexists _, _, _, _. exact (core_ok_tables s s1 A A1 F left G H Hok1 Hsr1 (churn_tables s s1 Hc)).
Qed.

(** (C19) A region of a program: the call always returns and keeps the invariant.  On
    success the pages that were there are as they were, and the others of the region
    are new: full of zeros, with a frame of their own or to be given one on the
    first write. *)
Theorem new_region_correct s va n (rw z : bool) : space_ok s -> 16777216 <= va -> 0 < n -> va + n <= 2 ^ 32 ->
  exists r s', new_region me va n rw false z s = Ok (r, s') /\ space_ok s' /\
    (0 <= r -> forall j, is_user j -> page_view s' j =
       match page_view s j with Some v => Some v | None => if in_pages va n j then Some (z, zeros_page) else None end).
Proof. apply new_region_run. Qed.

(** ** Filling a zero-fill page while its lock is held *)

(** The state changes of [is_page_ZFOD] on a page that waits for its first write. *)
Lemma zfod_core s A F left G k e f p : core_ok s A F left G -> is_user k -> pte_at s k = Some e -> IS_SET e PG_P = true -> IS_SET e PG_ZFOD = true ->
  f ∈ F -> fp_frame f -> fp_rep p (F ∖ {[f]}) left ->
  let s' := zfod_filled s p k f e in
  core_ok s' A (F ∖ {[f]}) left (G ∖ {[k]}) /\ task s' = task s /\ forall j, is_user j -> page_view s' j = if j =? k then Some (false, zeros_page) else page_view s j.
Proof.
  intros H Hk E Ep Ez HfF Hf Hrep s'. pose proof H as [H1 H2 H3 H4 H5 H6]. assert (Hk' := Hk). unfold is_user in Hk'.
  pose proof (H5 k e Hk E Ep) as Hpk. rewrite Ez in Hpk. destruct Hpk as (_ & _ & HkG).
  destruct (zfod_filled_ok s A p k f e H1 ltac:(lia) E Hf) as (Hok & _ & Hat0). fold s' in Hok, Hat0.
  destruct (private_entry_ok f e (frame_aligned f Hf)) as [Va Vb]. set (v := private_entry f e) in *.
  assert (Vp : IS_SET v PG_P = true) by (rewrite Vb by (unfold PG_P; lia); by rewrite Ep).
  assert (Vz : IS_SET v PG_ZFOD = false) by (rewrite Vb by (unfold PG_ZFOD; lia); by rewrite andb_false_r).
  assert (Hat : forall j, is_user j -> pte_at s' j = if j =? k then Some v else pte_at s j) by (unfold is_user; intros j Hj; apply Hat0; lia). clearbody v.
  assert (Hp : has_pt s (k / 1024) = true) by (unfold pte_at in E; by destruct (has_pt s (k / 1024))).
  destruct (frame_not_kernel s A f H1 Hf) as [HfA Hfz].
  assert (Hmem : forall g, 16777216 <= g \/ g = all_zero_frame s -> g <> f -> mem s' g = mem s g).
  { intros g Hg Hgf. destruct (as_pt _ _ H1 _ (pdi_range k ltac:(lia)) Hp) as [Hin _]. pose proof (as_pages _ _ H1 _ Hin).
    assert (g <> pt_of s (k / 1024)) by (intros ->; destruct Hg as [?|Hz]; [lia|]; by apply (proj2 (proj2 (as_zero _ _ H1)) _ (pdi_range k ltac:(lia)) Hp)).
    unfold s', zfod_filled. simpl. unfold mpage, mset. by rewrite !fupd_ne. }
  split; [split|split; [done|]].
  - done.
  - done.
  - rewrite !size_take by done. lia.
  - change (mem s' (all_zero_frame s) = zeros_page). rewrite Hmem by auto. exact H4.
  - intros j e' Hj. rewrite Hat by done. destruct (Z.eqb_spec j k) as [->|].
    + intros [= <-] _. rewrite Vz, Va. split; [done|]. set_solver.
    + intros E' Ep'. pose proof (H5 j e' Hj E' Ep') as Hq. destruct (IS_SET e' PG_ZFOD).
      * destruct Hq as (? & ? & ?). split; [done|]. split; [done|]. set_solver.
      * destruct Hq. split; [done|]. set_solver.
  - assert (Hnew : forall j e', is_user j -> pte_at s j = Some e' -> IS_SET e' PG_P = true -> IS_SET e' PG_ZFOD = false -> align e' <> f).
    { intros j e' Hj E' Ep' Ez' Ef. pose proof (H5 j e' Hj E' Ep') as Hq. rewrite Ez' in Hq. destruct Hq. congruence. }
    intros j j' e1 e2 Hj Hj'. rewrite !Hat by done. destruct (Z.eqb_spec j k), (Z.eqb_spec j' k); subst; intros E1 E2; simplify_eq; try done; [..|by apply H6].
    + intros _ Ep' _ Ez' Ef. by destruct (Hnew j' e2 Hj' E2 Ep' Ez').
    + intros Ep' _ Ez' _ Ef. by destruct (Hnew j e1 Hj E1 Ep' Ez').
  - intros j Hj. unfold page_view. rewrite Hat by done. destruct (Z.eqb_spec j k) as [->|].
    + rewrite Vp, Vz, Va. unfold s', zfod_filled. simpl. unfold mpage. by rewrite fupd_eq.
    + destruct (pte_at s j) as [e'|] eqn:E'; [|done]. destruct (IS_SET e' PG_P) eqn:Ep'; [|done]. do 2 f_equal.
      apply Hmem; [destruct (core_frames s A F left G j e' H Hj E' Ep'); auto|]. pose proof (H5 j e' Hj E' Ep') as Hq. destruct (IS_SET e' PG_ZFOD) eqn:Ez'.
      * destruct Hq as (-> & _). by apply not_eq_sym.
      * intros Ef. apply Hq. by rewrite Ef.
Qed.

(** Locking a page table lock the thread already holds, and unlocking it again. *)
Lemma pt_relock s locks i : task s = Some locks -> locks !! i = Some (held_lock me) ->
  pt_lock me i s = Ok (tt, with_task (Some (<[i := Mutex.mk_mutex me [me]]> locks)) (vtst s) s).
Proof.
  intros Ht Hi. unfold pt_lock, on_lock. rewrite Ht, Hi.
  rewrite (zoom_ok _ _ (Mutex.mutex_lock me) s tt (Mutex.mk_mstate (Mutex.mk_mutex me [me]) (vtst s))); [done|].
  unfold Mutex.mutex_lock, Mutex.on_mx, held_lock. munfold. unfold zoom, Mutex.lock_section. simpl.
  destruct (Z.eqb_spec me (-2)); [lia|]. destruct (Z.eqb_spec me (-1)); [lia|]. by rewrite Z.eqb_refl.
Qed.

Lemma pt_reunlock s locks i : task s = Some locks -> locks !! i = Some (Mutex.mk_mutex me [me]) ->
  pt_unlock i s = match make_runnable_state (vtst s me) with
                  | Ok (_, st) => Ok (tt, with_task (Some (<[i := held_lock me]> locks)) (fupd (vtst s) me st) s)
                  | _ => Panic
                  end.
Proof.
  intros Ht Hi. unfold pt_unlock, on_lock. rewrite Ht, Hi. unfold zoom, Mutex.mutex_unlock, Mutex.on_mx. munfold. unfold zoom, Mutex.unlock_section. simpl.
  destruct (Z.eqb_spec me (-2)); [lia|]. destruct (Z.eqb_spec me (-1)); [lia|]. simpl. by destruct (make_runnable_state (vtst s me)) as [[b st]| | | |].
Qed.

Lemma core_ok_task s A F left G t ts : core_ok s A F left G -> core_ok (with_task t ts s) A F left G.
Proof. intros [H1 H2 H3 H4 H5 H6]. split; [by apply as_ok_task|done|done|done|exact H5|exact H6]. Qed.

(** Pages of [s'] are those of [s], except that zero-fill pages may have been filled. *)
Definition filled s s' : Prop := forall j, is_user j -> page_view s' j = page_view s j \/ (page_view s j = Some (true, zeros_page) /\ page_view s' j = Some (false, zeros_page)).

Lemma filled_refl s : filled s s.
Proof. intros j _. by left. Qed.
Lemma filled_trans s1 s2 s3 : filled s1 s2 -> filled s2 s3 -> filled s1 s3.
Proof. intros H1 H2 j Hj. destruct (H1 j Hj) as [E1|[E1 E1']], (H2 j Hj) as [E2|[E2 E2']]; rewrite ?E1, ?E2 in *; auto; right; split; congruence. Qed.

(** [is_page_ZFOD] as [check_mem_validness] calls it: the lock is already held, and
    releasing it makes the running thread runnable. *)
Lemma zfod_held s A F left G locks k e : core_ok s A F left G -> is_user k -> pte_at s k = Some e -> IS_SET e PG_P = true ->
  task s = Some locks -> locks !! (k / 1024 / 16) = Some (held_lock me) ->
  match make_runnable_state (vtst s me) with
  | Ok (_, st) => exists s', is_page_ZFOD me (4096 * k) 0 false s = Ok (if IS_SET e PG_ZFOD then 1 else 0, s') /\
      task s' = Some locks /\ vtst s' me = st /\ (exists F' G', core_ok s' A F' left G') /\ filled s s' /\
      (IS_SET e PG_ZFOD = true -> page_view s' k = Some (false, zeros_page)) /\ forall j, 0 <= j < 2 ^ 20 -> j <> k -> pte_at s' j = pte_at s j
  | _ => is_page_ZFOD me (4096 * k) 0 false s = Panic
  end.
Proof.
  intros H Hk E Ep Ht Hl. assert (Hk' := Hk). unfold is_user in Hk'. destruct (page_indices k ltac:(lia)) as (Eal & Epd & Ept). set (cur := k / 1024 / 16) in *.
  assert (Hp : has_pt s (k / 1024) = true) by (unfold pte_at in E; by destruct (has_pt s (k / 1024))).
  assert (Ee : mem s (pt_of s (k / 1024)) (k mod 1024) = e) by (unfold pte_at in E; rewrite Hp in E; by injection E).
  unfold is_page_ZFOD. cbn [andb]. rewrite Eal, (bind_ok _ _ s (cr3 s) s eq_refl), Epd, Ept. rewrite (bind_ok _ _ s tt s) by (unfold need_task; by rewrite Ht). cbv zeta.
  unfold NUM_PT_PER_LOCK. fold cur. rewrite (bind_ok _ _ _ _ _ (pt_relock s locks cur Ht Hl)). set (s1 := with_task _ _ s).
  assert (Hun : forall s2 : state, task s2 = task s1 -> pt_unlock cur s2 = match make_runnable_state (vtst s2 me) with
      | Ok (_, st) => Ok (tt, with_task (Some locks) (fupd (vtst s2) me st) s2) | _ => Panic end).
  { intros s2 E2. rewrite (pt_reunlock s2 _ cur E2 (lookup_insert_eq _ _ _)), insert_insert_eq, insert_id; done. }
  rewrite (bind_ok _ _ s1 (pde s (k / 1024)) s1 eq_refl). fold (has_pt s (k / 1024)) (pt_of s (k / 1024)). rewrite Hp.
  rewrite (bind_ok _ _ s1 e s1) by (unfold rd, gets; simpl; by rewrite Ee). rewrite Ep. destruct (IS_SET e PG_ZFOD) eqn:Ez; cbn [negb].
  - assert (Hat : pte_at s1 k = Some e) by exact E. pose proof (core_ok_task s A F left G _ _ H : core_ok s1 A F left G) as H1.
    pose proof (co_page _ _ _ _ _ H k e Hk E Ep) as Hpk. rewrite Ez in Hpk. destruct Hpk as (Hz & _ & HkG). pose proof (size_take k G HkG). pose proof (co_promise _ _ _ _ _ H).
    destruct (zfod_fill_run s1 A F left k e (pt_unlock cur;; mret 1) (co_as _ _ _ _ _ H1) (co_pool _ _ _ _ _ H1) ltac:(lia) ltac:(lia) Hat Ep) as (f & p & Hin & Hf & HF' & R).
    change (pt_of s1 (k / 1024)) with (pt_of s (k / 1024)) in R. rewrite R. destruct (zfod_core s1 A F left G k e f p H1 Hk Hat Ep Ez Hin Hf HF') as (C & T & V).
    destruct (zfod_filled_ok s1 A p k f e (co_as _ _ _ _ _ H1) ltac:(lia) Hat Hf) as (_ & _ & Hpte).
    pose proof (Hun (zfod_filled s1 p k f e) T) as Ru. change (vtst (zfod_filled s1 p k f e)) with (vtst s) in Ru. unfold mbind, M_bind. rewrite Ru.
    destruct (make_runnable_state (vtst s me)) as [[b st]| | | |]; [|done..]. eexists. split; [done|]. split; [done|]. split; [apply fupd_eq|].
    split; [eexists _, _; apply core_ok_task; exact C|]. assert (Hv0 : page_view s k = Some (true, zeros_page)).
    { unfold page_view. rewrite E, Ep, Ez, Hz. by rewrite (co_zero _ _ _ _ _ H). }
    split; [|split].
    + intros j Hj. change (page_view (zfod_filled s1 p k f e) j = page_view s1 j \/ page_view s j = Some (true, zeros_page) /\ page_view (zfod_filled s1 p k f e) j = Some (false, zeros_page)).
      rewrite V by done. destruct (Z.eqb_spec j k) as [->|]; [by right|by left].
    + intros _. change (page_view (zfod_filled s1 p k f e) k = Some (false, zeros_page)). by rewrite V, Z.eqb_refl by done.
    + intros j Hj Hne. change (pte_at (zfod_filled s1 p k f e) j = pte_at s1 j). rewrite Hpte by done. by destruct (Z.eqb_spec j k).
  - pose proof (Hun s1 eq_refl) as Ru. change (vtst s1) with (vtst s) in Ru. unfold mbind, M_bind. rewrite Ru.
    destruct (make_runnable_state (vtst s me)) as [[b st]| | | |]; [|done..]. eexists. split; [done|]. split; [done|]. split; [apply fupd_eq|].
    split; [eexists _, _; by apply core_ok_task, core_ok_task|]. split; [intros j _; by left|done].
Qed.

(** ** Checking user memory *)

(** The byte at a user address. *)
Definition view_byte s (x : Z) : Z :=
  match page_view s (x / 4096) with Some (_, c) => get_byte (c (x mod 4096 / 4)) (x mod 4) | None => 0 end.

Lemma load_byte_ok s x : 16777216 <= x < 2 ^ 32 -> mapped s (x / 4096) = true -> load_byte x s = Ok (view_byte s x, s).
Proof.
  intros Hx Hm. unfold load_byte. rewrite (bind_ok get _ s s s eq_refl), walk_user by done. revert Hm. unfold mapped, view_byte, page_view.
  destruct (pte_at s (x / 4096)) as [e|]; [|done]. by destruct (IS_SET e PG_P).
Qed.

(** No byte from [a] up to (not including) [b] is zero. *)
Definition nonzero s (a b : Z) : Prop := forall x, a <= x < b -> view_byte s x <> 0.
Definition all_mapped s (a b : Z) : Prop := forall x, a <= x < b -> mapped s (x / 4096) = true.

(** ** What the check decides

    A string, from [x] on, of which [n] bytes may be looked at. *)
Fixpoint string_verdict s (n : nat) (x : Z) : Z :=
  match n with
  | O => ERROR_NOT_NULL_TERM
  | S n => if mapped s (x / 4096) then if view_byte s x =? 0 then 0 else string_verdict s n (x + 1) else ERROR_PAGE_NOT_ALLOC
  end.

(** How often a thread in state [st] can be made runnable while it runs. *)
Definition wakes (st : thread_state_t) : nat := match st with BLOCKED => 2 | NORMAL => 1 | MADE_RUNNABLE | WAKEUP => 0 end.

(** The pages [ks] of a buffer, in order.  To be written, a page has to be writable
    or a zero-fill page; each page that is not writable costs one of the [room]
    times the thread can be made runnable, and without any the kernel panics. *)
Fixpoint buffer_verdict s (w : bool) (room : nat) (ks : list Z) : option Z :=
  match ks with
  | [] => Some 0
  | k :: ks =>
      match pte_at s k with
      | None => Some ERROR_PAGE_NOT_ALLOC
      | Some e =>
          if negb (IS_SET e PG_P) then Some ERROR_PAGE_NOT_ALLOC
          else if negb w || IS_SET e PG_RW then buffer_verdict s w room ks
          else match room with
               | O => None
               | S room => if IS_SET e PG_ZFOD then buffer_verdict s w room ks else Some ERROR_READ_ONLY
               end
      end
  end.

Definition pages (va n : Z) : list Z := seqZ (va / 4096) ((va + n - 1) / 4096 - va / 4096 + 1).

(** The answer to a check of [n] bytes at [va]; [None]: the kernel panics.  A limit of
    0 bytes for a string, or one past the end of memory, is no limit. *)
Definition check_verdict s (va n : Z) (nul w : bool) : option Z :=
  if va <? USER_MEM_START then Some ERROR_KERNEL_SPACE
  else if n <? 0 then Some ERROR_LEN
  else let beyond := (n =? 0) || (2 ^ 32 <? va + n) in
    if nul then Some (string_verdict s (Z.to_nat ((if beyond then 2 ^ 32 else va + n) - va)) va)
    else if beyond then Some ERROR_LEN
    else buffer_verdict s w (wakes (vtst s me)) (pages va n).

Lemma string_verdict_accepts s n : forall x, 0 <= string_verdict s n x ->
  exists y, x <= y < x + Z.of_nat n /\ view_byte s y = 0 /\ nonzero s x y /\ all_mapped s x (y + 1).
Proof.
  induction n as [|n IH]; intros x Hr; simpl in Hr; [unfold ERROR_NOT_NULL_TERM in Hr; lia|].
  destruct (mapped s (x / 4096)) eqn:Hm; [|unfold ERROR_PAGE_NOT_ALLOC in Hr; lia]. destruct (Z.eqb_spec (view_byte s x) 0) as [Hz|Hz].
  - exists x. split; [lia|]. split; [done|]. split; [intros z; lia|]. intros z Hx. by replace z with x by lia.
  - destruct (IH (x + 1) Hr) as (y & Hy & H0 & H1 & H2). exists y. split; [lia|]. split; [done|].
    split; intros z Hx; (destruct (Z.eq_dec z x) as [->|]; [done|]); [apply H1|apply H2]; lia.
Qed.

(** Locks do not matter. *)
Lemma string_verdict_ext s s' : (forall k, mapped s' k = mapped s k) -> (forall x, view_byte s' x = view_byte s x) ->
  forall n x, string_verdict s' n x = string_verdict s n x.
Proof. intros Hm Hb n. induction n as [|n IH]; intros x; [done|]. cbn [string_verdict]. by rewrite Hm, Hb, IH. Qed.

Lemma buffer_verdict_ext s s' w room ks : (forall j, j ∈ ks -> pte_at s' j = pte_at s j) -> buffer_verdict s' w room ks = buffer_verdict s w room ks.
Proof.
  revert room. induction ks as [|k ks IH]; intros room Hk; [done|]. cbn [buffer_verdict]. rewrite Hk by set_solver.
  destruct (pte_at s k) as [e|]; [|done]. destruct (negb _); [done|]. assert (Hks : forall j, j ∈ ks -> pte_at s' j = pte_at s j) by (intros; apply Hk; set_solver).
  destruct (negb w || _); [by apply IH|]. destruct room; [done|]. destruct (IS_SET e PG_ZFOD); [by apply IH|done].
Qed.

(** The bytes of one page: the scan ends as the rest of the string says, or goes on with the next page. *)
Lemma null_scan_ok s k last (fuel : nat) : forall cur, is_user k -> mapped s k = true -> 4096 * k <= cur <= 4096 * (k + 1) -> cur <= last -> last < 2 ^ 32 ->
  (Z.to_nat (4096 * (k + 1) - cur) < fuel)%nat ->
  exists r, null_scan fuel (4096 * k) cur last s = Ok (r, s) /\
    let v := string_verdict s (Z.to_nat (last - cur + 1)) cur in
    match r with
    | FoundNull => v = 0
    | NotTerminated => v = ERROR_NOT_NULL_TERM
    | Continue c => c = 4096 * (k + 1) /\ c <= last /\ v = string_verdict s (Z.to_nat (last - c + 1)) c
    end.
Proof.
  unfold is_user. induction fuel as [|fuel IH]; intros cur Hk Hm Hc Hl Hb Hf; [lia|]. cbn [null_scan].
  destruct (Z.eq_dec cur (4096 * (k + 1))) as [Ec|Hne].
  - destruct (Z.eqb_spec (align cur) (4096 * k)) as [E|_].
    + rewrite align_div in E by lia. assert (cur / 4096 = k + 1) by (rewrite Ec, Z.mul_comm; by apply Z.div_mul). lia.
    + exists (Continue cur). done.
  - assert (Hd : cur / 4096 = k) by (symmetry; apply (Z.div_unique _ _ _ (cur - 4096 * k)); lia). rewrite align_div, Hd, Z.eqb_refl by lia.
    rewrite (bind_ok _ _ _ _ _ (load_byte_ok s cur ltac:(lia) ltac:(by rewrite Hd))).
    replace (Z.to_nat (last - cur + 1)) with (S (Z.to_nat (last - (cur + 1) + 1))) by lia. cbn [string_verdict]. rewrite Hd, Hm.
    destruct (Z.eqb_spec (view_byte s cur) 0) as [Ez|Hnz]; [by exists FoundNull|].
    destruct (Z.eqb_spec cur last) as [->|Hlt]; [exists NotTerminated; by replace (last - (last + 1) + 1) with 0 by lia|]. rewrite w32_small by lia.
    apply (IH (cur + 1) Hk Hm); lia.
Qed.

(** The turn of the loop that looks up the entry of page [k]. *)
Lemma check_turn (n : nat) (nul w : bool) s k cur last : 0 <= k < 2 ^ 20 ->
  check_loop me (S n) nul w (4096 * k) cur last s =
    match pte_at s k with
    | None => Ok (ERROR_PAGE_NOT_ALLOC, s)
    | Some e => if IS_SET e PG_P then
        (if nul then
           r ← null_scan 4097 (4096 * k) cur last;
           match r with FoundNull => mret 0 | NotTerminated => mret ERROR_NOT_NULL_TERM | Continue c => check_loop me n nul w (w32 (4096 * k + PAGE_SIZE)) c last end
         else if w && negb (IS_SET e PG_RW) then
           z ← is_page_ZFOD me (4096 * k) 0 false;
           if z =? 0 then mret ERROR_READ_ONLY else check_loop me n nul w (w32 (4096 * k + PAGE_SIZE)) cur last
         else check_loop me n nul w (w32 (4096 * k + PAGE_SIZE)) cur last) s
      else Ok (ERROR_PAGE_NOT_ALLOC, s)
    end.
Proof.
  intros Hk. destruct (page_indices k Hk) as (_ & Epd & Ept). cbn [check_loop]. rewrite (bind_ok _ _ s (cr3 s) s eq_refl), Epd, Ept.
  rewrite (bind_ok _ _ s (pde s (k / 1024)) s eq_refl). fold (has_pt s (k / 1024)) (pt_of s (k / 1024)). unfold pte_at. destruct (has_pt s (k / 1024)); [|done].
  rewrite (bind_ok _ _ s (mem s (pt_of s (k / 1024)) (k mod 1024)) s eq_refl). by destruct (IS_SET _ PG_P).
Qed.

Lemma mapped_pte s k : mapped s k = match pte_at s k with Some e => IS_SET e PG_P | None => false end.
Proof. done. Qed.

Lemma check_string_loop (n : nat) (w : bool) : forall s k cur last, 4096 <= k -> k + Z.of_nat n <= 2 ^ 20 -> cur / 4096 = k -> cur <= last -> last < 2 ^ 32 -> last / 4096 = k + Z.of_nat n - 1 ->
  check_loop me n true w (4096 * k) cur last s = Ok (string_verdict s (Z.to_nat (last - cur + 1)) cur, s).
Proof.
  induction n as [|n IH]; intros s k cur last Hk Hn Hc Hl Hb Hlast.
  { pose proof (Z.div_le_mono cur last 4096 ltac:(lia) Hl). lia. }
  rewrite check_turn by lia. destruct (mapped s k) eqn:Hm.
  2:{ replace (Z.to_nat (last - cur + 1)) with (S (Z.to_nat (last - cur))) by lia. cbn [string_verdict]. rewrite Hc, Hm. rewrite mapped_pte in Hm. by destruct (pte_at s k) as [e|]; [rewrite Hm|]. }
  pose proof Hm as Hm'. rewrite mapped_pte in Hm'. destruct (pte_at s k) as [e|]; [|done]. rewrite Hm'.
  assert (Hcr : 4096 * k <= cur < 4096 * (k + 1)) by (pose proof (Z.div_mod cur 4096 ltac:(lia)); pose proof (Z.mod_pos_bound cur 4096 ltac:(lia)); lia).
  destruct (null_scan_ok s k last 4097 cur ltac:(unfold is_user; lia) Hm ltac:(lia) Hl Hb ltac:(lia)) as (r & R & KK). rewrite (bind_ok _ _ _ _ _ R). cbv zeta in KK.
  destruct r as [c| |]; [|by rewrite KK..]. destruct KK as (-> & Hcl & ->). assert (Hn0 : (0 < n)%nat).
  { destruct n; [|lia]. assert (last / 4096 >= k + 1); [|lia]. apply Z.le_ge, Z.div_le_lower_bound; lia. }
  rewrite page_step by lia. apply IH; try lia. rewrite Z.mul_comm. by apply Z.div_mul.
Qed.

(** What the loop over the pages of a buffer leaves. *)
Definition buffer_left s s' (w : bool) locks (A : gset Z) (left k : Z) (n : nat) (r : Z) : Prop :=
  task s' = Some locks /\ (exists F' G', core_ok s' A F' left G') /\ filled s s' /\ (w = false -> s' = s) /\
  (0 <= r -> forall j, k <= j < k + Z.of_nat n -> exists b c, page_view s' j = Some (b, c) /\ (w = true -> b = false)).

Lemma buffer_stop s w locks A left k n r : task s = Some locks -> (exists F' G', core_ok s A F' left G') -> r < 0 -> buffer_left s s w locks A left k n r.
Proof. intros. split; [done|]. split; [done|]. split; [apply filled_refl|]. split; [done|lia]. Qed.

Lemma buffer_cons s s1 s' w locks A left k n r : is_user k -> filled s s1 -> (w = false -> s1 = s) ->
  (exists b c, page_view s1 k = Some (b, c) /\ (w = true -> b = false)) -> buffer_left s1 s' w locks A left (k + 1) n r ->
  buffer_left s s' w locks A left k (S n) r.
Proof.
  intros Huk Hf1 Hw1 (b & c & Hv & Hb) (K1 & K2 & K3 & K4 & K5).
  split; [done|]. split; [done|]. split; [by eapply filled_trans|]. split; [intros Hw; rewrite K4 by done; by apply Hw1|].
  intros Hr j Hj. destruct (Z.eq_dec j k) as [->|]; [|apply K5; (done || lia)]. destruct (K3 k Huk) as [->|[_ ->]]; [by exists b, c|by exists false, zeros_page].
Qed.

Lemma check_buffer_loop (w : bool) locks (n : nat) : forall s A F left G k page cur last, core_ok s A F left G -> 4096 <= k -> k + Z.of_nat n <= 2 ^ 20 -> task s = Some locks ->
  (n <> 0%nat -> page = 4096 * k) -> (forall j, k <= j < k + Z.of_nat n -> locks !! (j / 1024 / 16) = Some (held_lock me)) ->
  match buffer_verdict s w (wakes (vtst s me)) (seqZ k (Z.of_nat n)) with
  | None => check_loop me n false w page cur last s = Panic
  | Some r => exists s', check_loop me n false w page cur last s = Ok (r, s') /\ buffer_left s s' w locks A left k n r
  end.
Proof.
  induction n as [|n IH]; intros s A F left G k page cur last H Hk Hn Ht Hpg Hlk.
  { cbn. exists s. split; [done|]. split; [done|]. split; [by exists F, G|]. split; [apply filled_refl|]. split; [done|]. lia. }
  assert (Huk : is_user k) by (unfold is_user; lia). assert (Hself : exists F' G', core_ok s A F' left G') by (by exists F, G).
  rewrite Hpg, check_turn, (seqZ_cons k), <- Z.add_1_r by lia. replace (Z.pred (Z.of_nat (S n))) with (Z.of_nat n) by lia. cbn [buffer_verdict].
  destruct (pte_at s k) as [e|] eqn:E; [|eexists; split; [done|apply buffer_stop; done]].
  destruct (IS_SET e PG_P) eqn:Ep; cbn [negb]; [|eexists; split; [done|apply buffer_stop; done]].
  assert (Hgo : forall (s1 : state) F1 G1, core_ok s1 A F1 left G1 -> task s1 = Some locks -> filled s s1 -> (w = false -> s1 = s) ->
      (exists b c, page_view s1 k = Some (b, c) /\ (w = true -> b = false)) -> (forall j, j ∈ seqZ (k + 1) (Z.of_nat n) -> pte_at s1 j = pte_at s j) ->
      match buffer_verdict s w (wakes (vtst s1 me)) (seqZ (k + 1) (Z.of_nat n)) with
      | None => check_loop me n false w (w32 (4096 * k + PAGE_SIZE)) cur last s1 = Panic
      | Some r => exists s', check_loop me n false w (w32 (4096 * k + PAGE_SIZE)) cur last s1 = Ok (r, s') /\ buffer_left s s' w locks A left k (S n) r
      end).
  { intros s1 F1 G1 C1 T1 Hf1 Hw1 Hv1 Hpte.
    pose proof (IH s1 A F1 left G1 (k + 1) (w32 (4096 * k + PAGE_SIZE)) cur last C1 ltac:(lia) ltac:(lia) T1 ltac:(intros; apply page_step; lia) ltac:(intros; apply Hlk; lia)) as KK.
    rewrite (buffer_verdict_ext s s1 _ _ _ Hpte) in KK. destruct (buffer_verdict s w _ _) as [r|]; [|done].
    destruct KK as (s' & R & L). exists s'. split; [done|]. by apply (buffer_cons s s1). }
  destruct w; cbn [negb orb andb]; [destruct (IS_SET e PG_RW) eqn:Erw; cbn [negb]|].
  - apply (Hgo s F G); auto using filled_refl. exists (IS_SET e PG_ZFOD), (mem s (align e)). split; [unfold page_view; by rewrite E, Ep|]. intros _.
    destruct (IS_SET e PG_ZFOD) eqn:Ez; [|done]. pose proof (co_page _ _ _ _ _ H k e Huk E Ep) as Hq. rewrite Ez in Hq. destruct Hq as (_ & ? & _). congruence.
  - pose proof (zfod_held s A F left G locks k e H Huk E Ep Ht (Hlk k ltac:(lia))) as Hz.
    assert (Hrm : match make_runnable_state (vtst s me) with Ok (_, st) => wakes (vtst s me) = S (wakes st) | _ => wakes (vtst s me) = O end) by (by destruct (vtst s me)).
    destruct (make_runnable_state (vtst s me)) as [[b st]| | | |]; rewrite Hrm; try (munfold; by rewrite Hz).
    destruct Hz as (s1 & R & T1 & Est & (F1 & G1 & C1) & Hf1 & Hv & Hpte). rewrite (bind_ok _ _ _ _ _ R), <- Est. destruct (IS_SET e PG_ZFOD).
    + cbn [Z.eqb]. apply (Hgo s1 F1 G1); auto; [done|exists false, zeros_page; by split; [apply Hv|]|]. intros j [Hj1 Hj2]%elem_of_seqZ. apply Hpte; lia.
    + cbn [Z.eqb]. exists s1. split; [done|]. split; [done|]. split; [by exists F1, G1|]. split; [done|]. split; [done|]. unfold ERROR_READ_ONLY. lia.
  - apply (Hgo s F G); auto using filled_refl. eexists _, _. split; [unfold page_view; by rewrite E, Ep|done].
Qed.

(** Where the check looks. *)
Lemma check_last va n (nul : bool) : 16777216 <= va < 2 ^ 32 -> 0 <= n < 2 ^ 31 ->
  let last0 := w32 (va + n - 1) in let beyond := (n =? 0) || (2 ^ 32 <? va + n) in
  (last0 <? va) = beyond /\ (beyond = false -> last0 = va + n - 1 /\ 0 < n /\ va + n <= 2 ^ 32).
Proof.
  intros Hva Hn last0 beyond. unfold last0, beyond. destruct (Z.eqb_spec n 0) as [->|Hn0]; cbn [orb].
  - rewrite w32_small by lia. split; [apply Z.ltb_lt; lia|done].
  - destruct (Z.ltb_spec (2 ^ 32) (va + n)).
    + replace (w32 (va + n - 1)) with (va + n - 1 - 2 ^ 32) by (apply (Z.mod_unique _ _ 1); lia). split; [apply Z.ltb_lt; lia|done].
    + rewrite w32_small by lia. split; [apply Z.ltb_ge; lia|lia].
Qed.

Lemma check_mem_exact s va n (nul w : bool) : space_ok s -> 0 <= va < 2 ^ 32 -> - 2 ^ 31 <= n < 2 ^ 31 ->
  match check_verdict s va n nul w with
  | None => check_mem_validness me va n nul w s = Panic
  | Some r => exists s', check_mem_validness me va n nul w s = Ok (r, s') /\ space_ok s' /\ filled s s' /\ (w = false \/ nul = true -> s' = s) /\
      (0 <= r -> nul = false -> forall j, in_pages va n j = true -> exists b c, page_view s' j = Some (b, c) /\ (w = true -> b = false))
  end.
Proof.
  intros Hsp Hva Hn. pose proof Hsp as [(locks & Ht & Hl) (A & F & left & G & H)]. unfold check_verdict, check_mem_validness.
  assert (Herr : forall r, r < 0 -> exists s', (Ok (r, s) : res (Z * state)) = Ok (r, s') /\ space_ok s' /\ filled s s' /\ (w = false \/ nul = true -> s' = s) /\
    (0 <= r -> nul = false -> forall j, in_pages va n j = true -> exists b c, page_view s' j = Some (b, c) /\ (w = true -> b = false)))
    by (intros r Hr; exists s; split; [done|]; split; [done|]; split; [apply filled_refl|]; split; [done|lia]).
  destruct (Z.ltb_spec va USER_MEM_START) as [|Hu]; [by apply Herr|]. unfold USER_MEM_START in Hu. destruct (Z.ltb_spec n 0); [by apply Herr|]. cbv zeta.
  destruct (check_last va n nul ltac:(lia) ltac:(lia)) as [Eb Hb]. cbv zeta in Eb, Hb. rewrite Eb. set (beyond := (n =? 0) || _) in *.
  set (last := if nul && beyond then UINT32_MAX else w32 (va + n - 1)).
  destruct (negb nul && beyond) eqn:Ebad; [apply andb_true_iff in Ebad as [->%negb_true_iff ->]; by apply Herr|].
  assert (Hlast : va <= last < 2 ^ 32 /\ last + 1 = (if beyond then 2 ^ 32 else va + n)).
  { unfold last, UINT32_MAX. destruct beyond; [destruct nul; [|done]; cbn [andb]; lia|]. rewrite andb_false_r. destruct (Hb eq_refl) as (-> & ? & ?). lia. }
  destruct Hlast as [Hlr El]. clearbody last. rewrite !align_div by lia. set (k0 := va / 4096). set (k1 := last / 4096).
  assert (Hk0 : 4096 <= k0) by (apply Z.div_le_lower_bound; lia). assert (Hk1 : k1 < 2 ^ 20) by (apply Z.div_lt_upper_bound; lia). assert (Hkk : k0 <= k1) by (apply Z.div_le_mono; lia).
  replace (1 + w32 (4096 * k1 - 4096 * k0) / PAGE_SIZE) with (k1 - k0 + 1).
  2:{ rewrite w32_small by lia. unfold PAGE_SIZE. replace (4096 * k1 - 4096 * k0) with ((k1 - k0) * 4096) by lia. rewrite Z.div_mul; lia. }
  destruct (page_indices k0 ltac:(lia)) as (_ & -> & _). destruct (page_indices k1 ltac:(lia)) as (_ & -> & _).
  destruct (lock_span k0 (k1 - k0 + 1) ltac:(lia) ltac:(lia) ltac:(lia)) as [Hls Hls']. replace (k0 + (k1 - k0 + 1) - 1) with k1 in Hls, Hls' by lia. unfold NUM_PT_PER_LOCK.
  set (lo := k0 / 1024 / 16) in *. set (hi := k1 / 1024 / 16) in *. set (nl := Z.to_nat (hi - lo + 1)).
  assert (Hfree : forall j, lo <= j < lo + Z.of_nat nl -> locks !! j = Some free_lock) by (intros; apply Hl; lia).
  rewrite (bind_ok _ _ s tt s) by (unfold need_task; by rewrite Ht). rewrite (bind_ok _ _ _ _ _ (lock_range_ok me me_tid nl s locks lo Ht Hfree)). set (s1 := with_task _ _ s).
  assert (Hun : forall s2 : state, task s2 = task s1 -> unlock_range nl hi s2 = Ok (tt, with_task (Some locks) (vtst s2) s2)).
  { intros s2 E2. replace hi with (lo + Z.of_nat nl - 1) by lia. by apply (unlock_after me me_tid). }
  pose proof (core_ok_task s A F left G _ _ H : core_ok s1 A F left G) as H1. destruct nul.
  - rewrite <- El. replace (last + 1 - va) with (last - va + 1) by lia.
    pose proof (check_string_loop (Z.to_nat (k1 - k0 + 1)) w s1 k0 va last Hk0 ltac:(lia) eq_refl ltac:(lia) ltac:(lia) ltac:(unfold k1 at 1; fold k1; lia)) as R.
    exists s. rewrite (bind_ok _ _ _ _ _ R), (bind_ok _ _ _ _ _ (Hun s1 eq_refl)). change (with_task (Some locks) (vtst s1) s1) with (with_task (Some locks) (vtst s) s). rewrite with_task_id by done.
    split; [|split; [done|split; [apply filled_refl|done]]]. by rewrite (string_verdict_ext s s1).
  - cbn [negb andb] in Ebad. rewrite Ebad in El |- *. assert (Hheld : forall j, k0 <= j < k0 + Z.of_nat (Z.to_nat (k1 - k0 + 1)) -> set_range (held_lock me) locks lo nl !! (j / 1024 / 16) = Some (held_lock me)).
    { intros j Hj. rewrite (set_range_lookup me me_tid), decide_True; [done|]. assert (lo <= j / 1024 / 16) by (apply Z.div_le_mono, Z.div_le_mono; lia).
      assert (j / 1024 / 16 <= hi) by (apply Z.div_le_mono, Z.div_le_mono; lia). lia. }
    pose proof (check_buffer_loop w _ (Z.to_nat (k1 - k0 + 1)) s1 A F left G k0 (4096 * k0) va last H1 Hk0 ltac:(lia) eq_refl ltac:(done) Hheld) as KK.
    rewrite Z2Nat.id, (buffer_verdict_ext s s1) in KK by (done || lia). unfold pages. replace (va + n - 1) with last by lia. fold k0 k1. change (vtst s1) with (vtst s) in KK.
    destruct (buffer_verdict s w _ _) as [r|]; [|munfold; by rewrite KK]. destruct KK as (s2 & R & T2 & (F2 & G2 & C2) & Hf2 & Hw2 & Hv2).
    exists (with_task (Some locks) (vtst s2) s2). rewrite (bind_ok _ _ _ _ _ R), (bind_ok _ _ _ _ _ (Hun s2 T2)). split; [done|].
    split; [split; [by exists locks|eexists _, _, _, _; by apply core_ok_task]|]. split; [exact Hf2|].
    split; [intros [Hw|?]; [rewrite Hw2 by done; exact (with_task_id s locks Ht)|done]|].
    intros Hr _ j Hj. unfold in_pages in Hj. replace (va + n - 1) with last in Hj by lia. fold k0 k1 in Hj. apply andb_true_iff in Hj as [?%Z.leb_le ?%Z.leb_le].
    destruct (Hv2 Hr j ltac:(lia)) as (b & c & Hv & Hb'). by exists b, c.
Qed.

(** What an accepted check means. *)
Lemma check_mem_run s va n (nul w : bool) : space_ok s -> 0 <= va < 2 ^ 32 -> - 2 ^ 31 <= n < 2 ^ 31 ->
  match check_mem_validness me va n nul w s with
  | Ok (r, s') => space_ok s' /\ filled s s' /\ (w = false -> s' = s) /\ (0 <= r -> 16777216 <= va) /\
      (0 <= r -> nul = false -> 0 < n /\ va + n <= 2 ^ 32 /\ forall j, in_pages va n j = true -> exists b c, page_view s' j = Some (b, c) /\ (w = true -> b = false)) /\
      (0 <= r -> nul = true -> exists x, va <= x < 2 ^ 32 /\ (0 < n -> x < va + n) /\ view_byte s x = 0 /\ nonzero s va x /\ all_mapped s va (x + 1))
  | Panic => w = true
  | _ => False
  end.
Proof.
  intros Hsp Hva Hn. pose proof (check_mem_exact s va n nul w Hsp Hva Hn) as Hx. destruct (check_verdict s va n nul w) as [r|] eqn:Ev.
  2:{ rewrite Hx. unfold check_verdict in Ev. destruct (va <? USER_MEM_START); [done|]. destruct (n <? 0); [done|]. cbv zeta in Ev. destruct nul; [done|].
      destruct ((n =? 0) || _); [done|]. destruct w; [done|]. exfalso. revert Ev.
      generalize (wakes (vtst s me)). induction (pages va n) as [|k ks IH]; intros m; [done|]. cbn [buffer_verdict negb orb]. destruct (pte_at s k) as [e|]; [|done]. destruct (negb _); [done|apply IH]. }
  destruct Hx as (s' & R & Hs & Hf & Hw & Hv). rewrite R. split; [done|]. split; [done|]. split; [intros ->; apply Hw; by left|].
  unfold check_verdict in Ev. destruct (Z.ltb_spec va USER_MEM_START) as [|Hu]; [injection Ev as <-; unfold ERROR_KERNEL_SPACE; lia|]. unfold USER_MEM_START in Hu.
  destruct (Z.ltb_spec n 0); [injection Ev as <-; unfold ERROR_LEN; lia|]. destruct (check_last va n nul ltac:(lia) ltac:(lia)) as [_ Hb]. cbv zeta in Hb, Ev.
  set (beyond := (n =? 0) || _) in *. split; [done|]. split.
  - intros Hr ->. destruct beyond; [injection Ev as <-; unfold ERROR_LEN in Hr; lia|]. destruct (Hb eq_refl) as (_ & ? & ?). split; [done|]. split; [done|]. by apply Hv.
  - intros Hr ->. injection Ev as <-. destruct (string_verdict_accepts _ _ _ Hr) as (x & Hx & H0 & H1 & H2). exists x. split; [|split; [|done]].
    + destruct beyond; [lia|]. destruct (Hb eq_refl) as (_ & ? & ?). lia.
    + intros Hn0. unfold beyond in *. destruct (Z.eqb_spec n 0); [lia|]. cbn [orb] in Hx. destruct (Z.ltb_spec (2 ^ 32) (va + n)); lia.
Qed.


(** ** The interface of the loader and the system calls *)

Definition in_user (x : Z) : bool := (16777216 <=? x) && (x <? 2 ^ 32).

Lemma in_user_spec x : in_user x = true <-> 16777216 <= x < 2 ^ 32.
Proof. unfold in_user. rewrite andb_true_iff, Z.leb_le, Z.ltb_lt. done. Qed.

#[local] Instance vm_space : AddrSpace state := {|
  backed s x := in_user x && match page_view s (x / 4096) with Some (b, _) => negb b | None => false end;
  lazy s x := in_user x && match page_view s (x / 4096) with Some (b, _) => b | None => false end;
  byte_at s x := if in_user x then view_byte s x else 0;
  poke := store_byte;
  AddrSpace.new_region := new_region me |}.

Lemma mapped_view s x : AddrSpace.mapped s x = in_user x && match page_view s (x / 4096) with Some _ => true | None => false end.
Proof. unfold AddrSpace.mapped. simpl. destruct (in_user x), (page_view s (x / 4096)) as [[[] ?]|]; done. Qed.

(** What is seen of a page depends on its view. *)
Lemma byte_view s s' x : page_view s' (x / 4096) = page_view s (x / 4096) -> byte_at s' x = byte_at s x.
Proof. intros E. simpl. unfold view_byte. by rewrite E. Qed.

Lemma filled_bytes s s' x : filled s s' -> byte_at s' x = byte_at s x.
Proof.
  intros Hf. destruct (in_user x) eqn:Hx; [|simpl; by rewrite Hx]. apply in_user_spec in Hx. destruct (Hf _ (user_page x Hx)) as [E|[E E']]; [by apply byte_view|].
  simpl. unfold view_byte. by rewrite E, E'.
Qed.

Lemma filled_extends s s' : filled s s' -> extends s s'.
Proof.
  intros Hf. split; [intros x _; by apply filled_bytes|]. split; intros x; [rewrite !mapped_view|simpl]; (destruct (in_user x) eqn:Hx; [|done]); apply in_user_spec in Hx;
    destruct (Hf _ (user_page x Hx)) as [->|[-> ->]]; done.
Qed.

Lemma same_place x a : x / 4096 = a / 4096 -> x mod 4096 / 4 = a mod 4096 / 4 -> x mod 4 = a mod 4 -> x = a.
Proof. intros. Z.div_mod_to_equations. lia. Qed.

Lemma vm_poke s a v : space_ok s -> backed s a = true -> 0 <= v < 256 ->
  exists s', poke a v s = Ok (tt, s') /\ space_ok s' /\ (forall x, backed s' x = backed s x) /\ (forall x, lazy s' x = lazy s x) /\
    forall x, byte_at s' x = if x =? a then v else byte_at s x.
Proof.
  intros [Hl (A & F & left & G & H)] Hb Hv. apply andb_true_iff in Hb as [Ha%in_user_spec Hb]. destruct (page_view s (a / 4096)) as [[[] c]|] eqn:E; try done.
  destruct (store_byte_ok s A F left G a v c H Ha E) as (s' & R & C & T & V). exists s'. split; [exact R|]. split; [split; [unfold locks_free; by rewrite T|by eexists _, _, _, _]|].
  assert (Hpg : forall x, in_user x = true -> page_view s' (x / 4096) = if x / 4096 =? a / 4096 then Some (false, fupd c (a mod 4096 / 4) (set_byte (c (a mod 4096 / 4)) (a mod 4) v)) else page_view s (x / 4096)).
  { intros x Hx. by apply V, user_page, in_user_spec. }
  split; [|split]; intros x; simpl; (destruct (in_user x) eqn:Hx; simpl; [rewrite ?Hpg by done|try done]).
  - destruct (Z.eqb_spec (x / 4096) (a / 4096)) as [->|]; [by rewrite E|done].
  - destruct (Z.eqb_spec (x / 4096) (a / 4096)) as [->|]; [by rewrite E|done].
  - unfold view_byte. rewrite Hpg by done. destruct (Z.eqb_spec (x / 4096) (a / 4096)) as [Ek|Hk]; [|destruct (Z.eqb_spec x a) as [->|]; [done|reflexivity]].
    rewrite Ek, E. unfold fupd. destruct (Z.eqb_spec (x mod 4096 / 4) (a mod 4096 / 4)) as [Ei|Hi]; [|destruct (Z.eqb_spec x a) as [->|]; [done|reflexivity]].
    rewrite get_set_byte by (apply Z.mod_pos_bound || done; lia). rewrite Ei.
    destruct (Z.eqb_spec (x mod 4) (a mod 4)) as [Em|Hm], (Z.eqb_spec x a) as [->|Hxa]; try done. exfalso. by apply Hxa, same_place.
  - destruct (Z.eqb_spec x a) as [->|]; [|done]. by rewrite (proj2 (in_user_spec a) Ha) in Hx.
Qed.

Lemma touches_pages va n x : 0 < n -> touches va n x <-> in_pages va n (x / 4096) = true.
Proof. intros Hn. symmetry. exact (in_region_touches va n x Hn). Qed.

Lemma pages_user va n x : 16777216 <= va -> va + n <= 2 ^ 32 -> in_pages va n (x / 4096) = true -> in_user x = true.
Proof.
  unfold in_pages. rewrite andb_true_iff, !Z.leb_le. intros Hva Hn [H1 H2]. apply in_user_spec. assert (4096 <= va / 4096) by (apply Z.div_le_lower_bound; lia).
  assert ((va + n - 1) / 4096 < 2 ^ 20) by (apply Z.div_lt_upper_bound; lia). pose proof (Z.div_mod x 4096 ltac:(lia)). pose proof (Z.mod_pos_bound x 4096 ltac:(lia)). lia.
Qed.

#[local] Instance vm_space_laws : AddrSpaceLaws state.
Proof.
  refine {| wf := space_ok |}.
  - intros s x _. simpl. destruct (in_user x); [|lia]. unfold view_byte. destruct (page_view s (x / 4096)) as [[b c]|]; [apply get_byte_range|lia].
  - exact vm_poke.
  - intros s va n rw z Hw Hva Hn Hb. destruct (new_region_run s va n rw z Hw Hva Hn Hb) as (r & s' & R & W & V). exists r, s'. split; [exact R|]. split; [exact W|]. intros Hr.
    assert (Vx : forall x, in_user x = true -> page_view s' (x / 4096) = match page_view s (x / 4096) with Some v => Some v | None => if in_pages va n (x / 4096) then Some (z, zeros_page) else None end)
      by (intros x Hx; by apply (V Hr), user_page, in_user_spec).
    split; [|split; [|split; [|split]]]; intros x; rewrite ?mapped_view.
    + intros _. destruct (in_user x) eqn:Hx; [|done]. destruct (page_view s (x / 4096)) eqn:E; [|done]. intros _. apply byte_view. by rewrite Vx, E by done.
    + rewrite (touches_pages va n x Hn). destruct (in_user x) eqn:Hx; [|done]. rewrite Vx by done. destruct (page_view s (x / 4096)); [by left|]. destruct (in_pages _ _ _); [by right|done].
    + simpl. destruct (in_user x) eqn:Hx; [|done]. rewrite Vx by done. by destruct (page_view s (x / 4096)) as [[[] ?]|].
    + rewrite (touches_pages va n x Hn). simpl. destruct (in_user x) eqn:Hx; [|done]. rewrite Vx by done. destruct (page_view s (x / 4096)) as [[[] ?]|]; [by left|done|].
      destruct (in_pages _ _ _); [|done]. simpl. intros ->. by right.
    + rewrite (touches_pages va n x Hn). intros Hp. pose proof (pages_user va n x Hva Hb Hp) as Hx. simpl. unfold view_byte. rewrite Hx, Vx by done. rewrite Hp.
      unfold zeros_page. destruct (page_view s (x / 4096)) as [[[] ?]|], z; rewrite ?get_byte_0; naive_solver.
Defined.

#[local] Instance vm_check : UserCheck state := {| check_mem := check_mem_validness me |}.

(** What [check_verdict] accepts. *)
Lemma string_verdict_zero s n : forall x y, x <= y < x + Z.of_nat n -> view_byte s y = 0 -> nonzero s x y -> all_mapped s x (y + 1) -> string_verdict s n x = 0.
Proof.
  induction n as [|n IH]; intros x y Hy Hz Hnz Hm; [lia|]. cbn [string_verdict]. rewrite (Hm x ltac:(lia)). destruct (Z.eqb_spec (view_byte s x) 0) as [|Hx]; [done|].
  assert (x <> y) by congruence. apply (IH (x + 1) y); [lia|done|..]; intros a Ha; [apply Hnz; lia|apply Hm; lia].
Qed.

Lemma buffer_verdict_zero s room ks : Forall (fun k => mapped s k = true) ks -> buffer_verdict s false room ks = Some 0.
Proof.
  induction ks as [|k ks IH]; intros Hf; [done|]. apply Forall_cons_iff in Hf as [Hk Hf]. cbn [buffer_verdict negb orb]. rewrite mapped_pte in Hk.
  destruct (pte_at s k) as [e|]; [|done]. rewrite Hk. by apply IH.
Qed.

(** A byte that is mapped, in the page tables. *)
Lemma mapped_page s x : AddrSpace.mapped s x = true -> 16777216 <= x < 2 ^ 32 /\ mapped s (x / 4096) = true /\ byte_at s x = view_byte s x.
Proof.
  rewrite mapped_view. intros [Hx Hv]%andb_true_iff. simpl. rewrite Hx. apply in_user_spec in Hx. split; [done|]. split; [|done].
  destruct (mapped s (x / 4096)) eqn:E; [done|]. apply unmapped_view in E. by rewrite E in Hv.
Qed.

Lemma check_verdict_reads s va n (nul : bool) r : space_ok s -> 0 <= va < 2 ^ 32 -> - 2 ^ 31 <= n < 2 ^ 31 -> check_verdict s va n nul false = Some r ->
  check_mem_validness me va n nul false s = Ok (r, s).
Proof.
  intros Hw Hva Hn Ev. pose proof (check_mem_exact s va n nul false Hw Hva Hn) as KK. rewrite Ev in KK. destruct KK as (s' & R & _ & _ & E & _). rewrite (E (or_introl eq_refl)) in R. exact R.
Qed.

#[local] Instance vm_check_laws : UserCheckLaws state.
Proof.
  constructor.
  - intros s va n nul w Hw Hva Hn. pose proof (check_mem_run s va n nul w Hw Hva Hn) as KK. cbn [check_mem vm_check].
    destruct (check_mem_validness me va n nul w s) as [[r s']| | | |]; try done. destruct KK as (W & Hf & _ & Hu & Hbuf & Hstr). split; [done|]. split; [by apply filled_extends|]. split; [done|].
    split; intros Hr Hnul.
    + destruct (Hbuf Hr Hnul) as (Hn0 & Hb & Hv). intros x Hx. assert (Hp : in_pages va n (x / 4096) = true).
      { apply touches_pages; [done|]. by apply Loader.touches_in. }
      assert (Hxu : in_user x = true) by (specialize (Hu Hr); apply in_user_spec; lia). destruct (Hv _ Hp) as (b & c & E & Hwb). rewrite mapped_view. simpl. rewrite Hxu, E.
      split; [done|]. intros ->. by rewrite (Hwb eq_refl).
    + destruct (Hstr Hr Hnul) as (x & Hx & Hxn & Hz & Hnz & Hm). specialize (Hu Hr).
      assert (Hby : forall y, va <= y <= x -> byte_at s y = view_byte s y) by (intros y Hy; simpl; by rewrite (proj2 (in_user_spec y)) by lia).
      exists (x - va). split; [lia|]. split; [split; [lia|]; split|].
      * replace (va + (x - va)) with x by lia. by rewrite Hby by lia.
      * intros i Hi. rewrite Hby by lia. apply Hnz. lia.
      * intros i Hi. destruct (filled_extends s s' Hf) as (_ & Hext & _). apply Hext. rewrite mapped_view, (proj2 (in_user_spec (va + i))) by lia.
        specialize (Hm (va + i) ltac:(lia)). destruct (page_view s ((va + i) / 4096)) eqn:E; [done|]. apply unmapped_view in E. congruence.
  - intros s va n nul r s' Hw Hva Hn R. pose proof (check_mem_run s va n nul false Hw Hva Hn) as KK. cbn [check_mem vm_check] in R. rewrite R in KK. by apply KK.
  - intros s va n Hw Hva Hn Hm. cbn [check_mem vm_check]. destruct (mapped_page s va (Hm va ltac:(lia))) as (Hr & _). destruct (mapped_page s (va + n - 1) (Hm (va + n - 1) ltac:(lia))) as (Hr' & _).
    apply check_verdict_reads; [done|lia|lia|]. unfold check_verdict, USER_MEM_START. rewrite (proj2 (Z.ltb_ge va _)), (proj2 (Z.ltb_ge n 0)), (proj2 (Z.eqb_neq n 0)), (proj2 (Z.ltb_ge (2 ^ 32) _)) by lia.
    cbn [orb]. apply buffer_verdict_zero. apply Forall_forall. intros k Hk%list_elem_of_In%elem_of_seqZ. pose proof (Z.div_mod va 4096 ltac:(lia)). pose proof (Z.mod_pos_bound va 4096 ltac:(lia)).
    pose proof (Z.div_mod (va + n - 1) 4096 ltac:(lia)). pose proof (Z.mod_pos_bound (va + n - 1) 4096 ltac:(lia)).
    destruct (mapped_page s (Z.max va (4096 * k)) (Hm (Z.max va (4096 * k)) ltac:(lia))) as (_ & Hk' & _). replace (Z.max va (4096 * k) / 4096) with k in Hk'; [done|].
    destruct (Z.max_spec va (4096 * k)) as [[? ->]|[? ->]]; [by rewrite Z.mul_comm, Z.div_mul|lia].
  - intros s va n j Hw Hva Hn Hj (H0 & Hz & Hnz) Hm. cbn [check_mem vm_check]. pose proof (fun i Hi => mapped_page s (va + i) (Hm i Hi)) as Hpg.
    destruct (Hpg 0 ltac:(lia)) as (Hr & _). destruct (Hpg j ltac:(lia)) as (Hr' & _). apply check_verdict_reads; [done|lia|lia|]. unfold check_verdict, USER_MEM_START.
    rewrite (proj2 (Z.ltb_ge va _)), (proj2 (Z.ltb_ge n 0)), (proj2 (Z.eqb_neq n 0)) by lia. cbn [orb]. f_equal. apply (string_verdict_zero s _ va (va + j)).
    + destruct (Z.ltb_spec (2 ^ 32) (va + n)); lia.
    + destruct (Hpg j ltac:(lia)) as (_ & _ & <-). exact Hz.
    + intros a Ha. destruct (Hpg (a - va) ltac:(lia)) as (_ & _ & Eb). replace (va + (a - va)) with a in Eb by lia. rewrite <- Eb. replace a with (va + (a - va)) by lia. apply Hnz. lia.
    + intros a Ha. destruct (Hpg (a - va) ltac:(lia)) as (_ & Ea & _). by replace (va + (a - va)) with a in Ea by lia.
Qed.

#[local] Instance vm_zfod : ZeroFill state := {| Exceptions.is_page_ZFOD := is_page_ZFOD me |}.

(** A zero-fill page takes one of the promised frames. *)
Lemma lazy_promised s A F left G k : core_ok s A F left G -> k ∈ G -> left < Z.of_nat (size F).
Proof. intros H Hk. pose proof (size_take k G Hk). pose proof (co_promise _ _ _ _ _ H). lia. Qed.

(** A page fault on a zero-fill page is repaired by vm.c as the exception handler
    expects: [is_page_ZFOD] changes nothing for any other fault, and a user's write to
    a page that is still zero gives that page, and no other, a frame of its own, with
    the invariant kept and no byte of user memory changed. *)
#[local] Instance vm_zfod_laws : ZeroFillLaws state.
Proof.
  constructor.
  - intros s va ec [Hl (A & F & left & G & H)] E. cbn [Exceptions.is_page_ZFOD vm_zfod]. unfold is_page_ZFOD. unfold write_fault in E. cbn [andb]. by rewrite E.
  - intros s va ec [Hl (A & F & left & G & H)] E Hva. change (16777216 <= va < 2 ^ 32) in Hva. pose proof (user_page va Hva) as Hk. assert (Hva0 : 0 <= va < 2 ^ 32) by lia. set (k := va / 4096) in *.
    pose proof (is_page_ZFOD_run me me_tid s A F left va ec true (co_as _ _ _ _ _ H) (co_pool _ _ _ _ _ H) Hl Hva0) as R. cbv zeta in R. fold k in R.
    unfold write_fault in E. rewrite E in R. cbn [andb negb orb] in R. cbn [lazy vm_space Exceptions.is_page_ZFOD vm_zfod]. rewrite (proj2 (in_user_spec va) Hva). fold k. cbn [andb].
    rewrite mapped_pte in R. destruct (pte_at s k) as [e|] eqn:Ee.
    2:{ replace (page_view s k) with (None : option (bool * (Z -> Z))) by (unfold page_view; by rewrite Ee). exact R. }
    assert (V : page_view s k = if IS_SET e PG_P then Some (IS_SET e PG_ZFOD, mem s (align e)) else None) by (unfold page_view; by rewrite Ee). rewrite V.
    destruct (IS_SET e PG_P) eqn:Ep; [|exact R]. destruct (IS_SET e PG_ZFOD) eqn:Ez; [|exact R]. cbn [andb negb] in R.
    assert (HkG : k ∈ G) by (pose proof (co_page _ _ _ _ _ H k e Hk Ee Ep) as Q; rewrite Ez in Q; apply Q).
    destruct (R (lazy_promised s A F left G k H HkG)) as (e' & f & p & R' & Hin & Hf & HF' & Ee' & _). injection Ee' as <-.
    destruct (zfod_core s A F left G k e f p H Hk Ee Ep Ez Hin Hf HF') as (C & T & Vw). set (s' := zfod_filled s p k f e) in *.
    assert (Vz : page_view s k = Some (true, zeros_page)).
    { rewrite V. pose proof (co_page _ _ _ _ _ H k e Hk Ee Ep) as Q. rewrite Ez in Q. destruct Q as (-> & _). by rewrite (co_zero _ _ _ _ _ H). }
    exists s'. split; [exact R'|]. split; [split; [unfold locks_free; by rewrite T|by eexists _, _, _, _]|].
    assert (Vx : forall x, in_user x = true -> page_view s' (x / 4096) = if x / 4096 =? k then Some (false, zeros_page) else page_view s (x / 4096))
      by (intros x Hx; by apply Vw, user_page, in_user_spec).
    split; [|split]; intros x; cbn [byte_at backed lazy vm_space]; change AddrSpace.PAGE_SIZE with 4096; fold k; (destruct (in_user x) eqn:Hx; cbn [andb]; [unfold view_byte; rewrite ?Vx by done|]); try done.
    + destruct (Z.eqb_spec (x / 4096) k) as [->|]; [by rewrite Vz|done].
    + destruct (Z.eqb_spec (x / 4096) k) as [->|]; [by rewrite Vz|by rewrite orb_false_r].
    + symmetry. apply Z.eqb_neq. intros Ek. assert (in_user x = true); [|congruence]. apply in_user_spec. unfold is_user in Hk. pose proof (Z.div_mod x 4096 ltac:(lia)). pose proof (Z.mod_pos_bound x 4096 ltac:(lia)). lia.
    + destruct (Z.eqb_spec (x / 4096) k) as [->|]; [by rewrite Vz|by rewrite andb_true_r].
Qed.

(** The exception handler of exception_handler.c on the page tables of vm.c: a
    user's write to a zero-fill page is repaired and the thread goes on, with the
    invariant of its address space kept and no byte of its memory changed. *)
Lemma vm_fault_repaired clone_pd free_entire_space (s : sys state) cpu this q t c mm sp ch cr2 ief ebp :
  Syscalls.Syscalls.running s cpu this q t c mm sp ch -> 16777216 <= cr2 < 2 ^ 32 -> write_fault (ebp 16) = true -> lazy sp cr2 = true ->
  exists sp', Exceptions.Exceptions.exception_handler clone_pd free_entire_space cpu this cr2 ief ebp 14 s =
      Ok (Exceptions.Exceptions.Returned, Exceptions.Exceptions.on_cpu cpu sp' s) /\ space_ok sp' /\ backed sp' cr2 = true /\ forall x, byte_at sp' x = byte_at sp x.
Proof.
  intros Hrun Hc Hw Hl. destruct (Exceptions.Exceptions.handler_repairs clone_pd free_entire_space s cpu this q t c mm sp ch cr2 ief ebp 14 Hrun) as (sp' & R & W & Y & B & _).
  - unfold is_u32. lia.
  - intros _ _. apply Hc.
  - unfold Exceptions.Exceptions.repairs. change (u_error_code _) with (ebp 16). by rewrite Hw, Hl.
  - exists sp'. split; [exact R|]. split; [exact W|]. split; [by rewrite B, Z.eqb_refl, orb_true_r|exact Y].
Qed.


(** A program is loaded into the page tables of a new address space: [loadTask] of
    loader.c runs on [new_region] of vm.c, and leaves the segments of the program and
    its initial stack in pages with frames of their own. *)
Theorem vm_loadTask_correct TOC elf_check_header elf_load_helper file name e argv s : Loader.entry_of TOC name = Some file -> elf_check_header name <> Loader.ELF_NOTELF ->
  elf_load_helper name = (0, e) -> Forall Loader.is_string argv -> Loader.need argv < 2 ^ 29 -> Loader.elf_ok file e (Loader.stack_low argv) -> Loader.apart e ->
  space_ok s -> (forall j, is_user j -> page_view s j = None) ->
  exists r s', Loader.loadTask TOC elf_check_header elf_load_helper name argv s = Ok (r, s') /\ space_ok s' /\
    match r with
    | inl err => err = Loader.ENOMEM
    | inr (esp, entry) => entry = Loader.e_entry e /\ Loader.image (byte_at s') file e /\ Loader.main_frame (byte_at s') (Loader.stack_low argv) esp argv /\
        forall j, Loader.stack_low argv / 4096 <= j < 2 ^ 20 -> exists c, page_view s' j = Some (false, c)
    end.
Proof.
  intros He Hh Hl Hs Hn Helf Hap Hsp Hnew.
  assert (Hnone : forall x, AddrSpace.mapped s x = false).
  { intros x. rewrite mapped_view. destruct (in_user x) eqn:Hx; [|done]. rewrite Hnew; [done|]. by apply user_page, in_user_spec. }
  destruct (Loader.loadTask_run TOC elf_check_header elf_load_helper file name e argv s He Hh Hl Hs Hn Helf Hap) as (r & s' & R & W & KK).
  - split; [exact Hsp|intros x _; by rewrite Hnone|]. intros x _ Hz. specialize (Hnone x). unfold AddrSpace.mapped in Hnone. rewrite Hz, orb_true_r in Hnone. done.
  - exists r, s'. split; [exact R|]. split; [exact W|]. destruct r as [err|[esp entry]]; [done|]. destruct KK as (H1 & H2 & H3 & H4). split; [done|]. split; [done|]. split; [done|].
    intros j Hj. assert (Hlow : Loader.stack_low argv mod 4096 = 0).
    { unfold Loader.stack_low, AddrSpace.PAGE_SIZE. replace (2 ^ 32 - Loader.stack_pages argv * 4096) with ((2 ^ 20 - Loader.stack_pages argv) * 4096) by lia. apply Z.mod_mul. lia. }
    pose proof (Z.div_mod (Loader.stack_low argv) 4096 ltac:(lia)) as Hdm. specialize (H4 (4096 * j) ltac:(lia)). simpl in H4. apply andb_true_iff in H4 as [_ H4].
    rewrite (Z.mul_comm 4096 j), Z.div_mul in H4 by lia. destruct (page_view s' j) as [[[] c]|]; [done|by exists c|done].
Qed.
End space.

(** ** The machine of VmProofs.v *)
#[local] Existing Instance demo_pool.
#[local] Instance demo_vm_space : AddrSpace (vm_state Pm.pm page_heap) := vm_space 7.

Lemma demo_space_ok : space_ok demo_vm.
Proof.
  split; [exact demo_locks_free|]. exists {[4096; 8192]}, demo_free, 64, ∅. split.
  - exact demo_as_ok.
  - exact demo_fp_rep.
  - rewrite demo_size, size_empty. lia.
  - done.
  - done.
  - done.
Qed.

Lemma new_region_witness : exists r s', new_region 7 16777300 5000 true false true demo_vm = Ok (r, s') /\ space_ok s' /\
  page_view s' 4097 = Some (true, zeros_page).
Proof.
  destruct (new_region_correct 7 ltac:(lia) demo_vm 16777300 5000 true true demo_space_ok ltac:(lia) ltac:(lia) ltac:(lia)) as (r & s' & R & W & V). exists r, s'. split; [exact R|]. split; [exact W|].
  assert (Hr : r = 0) by (pose proof (f_equal outcome R) as E; vm_compute in E; by injection E). rewrite V by (unfold is_user; lia). reflexivity.
Defined.

(** [demo_vm] with two zero-fill pages from address 16777216 on. *)
Definition demo_lazy : vm_state Pm.pm page_heap := match new_region 7 16777216 8192 true false true demo_vm with Ok (_, s) => s | _ => demo_vm end.

Lemma demo_lazy_ok : space_ok demo_lazy.
Proof.
  unfold demo_lazy. destruct (new_region_run 7 ltac:(lia) demo_vm 16777216 8192 true true demo_space_ok ltac:(lia) ltac:(lia) ltac:(lia)) as (r & s' & R & W & _). by rewrite R.
Qed.


(** A caller of exec on this machine: the name "ab" at 16777216 and the vector {"ab"}
    at 16777232, in one page. *)
Definition demo_bytes : list Z := [97; 98] ++ replicate 14 0 ++ word_bytes 16777216 ++ word_bytes 0.
Definition demo_caller : vm_state Pm.pm page_heap :=
  match (new_region 7 16777216 4096 true false false;; write_bytes 16777216 demo_bytes) demo_vm with Ok (_, s) => s | _ => demo_vm end.

Lemma demo_caller_ok : space_ok demo_caller.
Proof.
  destruct (new_region_run 7 ltac:(lia) demo_vm 16777216 4096 true false demo_space_ok ltac:(lia) ltac:(lia) ltac:(lia)) as (r & s1 & R & W & V).
  assert (Hr : r = 0) by (pose proof (f_equal outcome R) as E; vm_compute in E; by injection E).
  destruct (write_bytes_ok (AddrSpaceLaws0 := vm_space_laws 7 ltac:(lia)) demo_bytes s1 16777216 W) as (s2 & R2 & [W2 _ _] & _).
  - repeat constructor; vm_compute; congruence.
  - change (Z.of_nat (length demo_bytes)) with 24. intros i Hi. cbn [backed demo_vm_space vm_space]. rewrite (proj2 (in_user_spec (16777216 + i))) by lia.
    replace ((16777216 + i) / 4096) with 4096 by (apply (Z.div_unique _ _ _ i); lia). rewrite V by (unfold is_user; lia). reflexivity.
  - unfold demo_caller. rewrite (bind_ok _ _ _ _ _ R). setoid_rewrite R2. exact W2.
Qed.

#[local] Instance demo_vm_check : UserCheck (vm_state Pm.pm page_heap) := vm_check 7.


(** The program of Loader.v, on this machine. *)
Lemma vm_loadTask_witness :
  exists esp entry s', Loader.loadTask [Loader.demo_file] (fun _ => 0) (fun _ => (0, Loader.demo_elf)) Loader.demo_name Loader.demo_argv demo_vm = Ok (inr (esp, entry), s') /\
    Loader.main_frame (byte_at s') (Loader.stack_low Loader.demo_argv) esp Loader.demo_argv.
Proof.
  destruct (vm_loadTask_correct 7 ltac:(lia) [Loader.demo_file] (fun _ => 0) (fun _ => (0, Loader.demo_elf)) Loader.demo_file Loader.demo_name Loader.demo_elf Loader.demo_argv demo_vm) as (r & s' & R & _ & H).
  - reflexivity.
  - done.
  - done.
  - repeat constructor.
  - done.
  - split; [repeat constructor; unfold is_byte; lia|done|..]; try (by vm_compute; repeat split; congruence); split; by vm_compute.
  - split; vm_compute; by first [left; congruence|right; congruence].
  - exact demo_space_ok.
  - done.
  - destruct r as [err|[esp entry]]; [apply (f_equal outcome) in R; vm_compute in R; discriminate R|]. exists esp, entry, s'. split; [exact R|]. apply H.
Defined.

(** The kernel writes the frame of a registered handler without checking its
    pages, and it is not stopped by write protection: on a zero-fill page the bytes
    go to the frame that all zero-fill pages share.  Here a byte written to the
    first of two such pages is read in the second. *)
Theorem write_to_zero_fill_page_leaks :
  outcome ((store_byte 16777300 5;; load_byte (16777300 + 4096)) demo_lazy) = Some 5.
Proof. vm_compute. reflexivity. Qed.

End VmSpace.
