(* ===== verification/UserQueue.v ===== *)
(** * The queue of the user thread library (src/user/libthread/queue.c)

    A double-ended queue between two sentinel nodes from the heap; the mutex and
    the condition variable of the library link the nodes of waiting threads in it.
    The routines work on a heap of nodes; [links] forgets the data fields, so that
    the lemmas of SimpleQueue.v about chains apply. *)

From S2P Require Import Prelude SimpleQueue.
From Stdlib Require Import ZArith Lia.
From stdpp Require Import base gmap list tactics numbers.

#[local] Open Scope Z_scope.

Module UserQueue.

Record node_t := mk_node { ktid : Z; reject : Z; next : Z; prev : Z }.
Record deque_t := mk_deque { head : Z; tail : Z }.

(** The user heap: the nodes, and the results of the coming calls of [malloc]. *)
Record uheap := mk_uheap { nodes : gmap Z node_t; answers : list Z }.
Definition with_nodes x (h : uheap) := mk_uheap x (answers h).

(** [malloc(sizeof(node_t))]: a node with unknown contents, or NULL. *)
Definition malloc (junk : node_t) : M uheap Z := fun h =>
  match answers h with
  | [] => Ok (0, h)
  | p :: l => Ok (p, mk_uheap (if p =? 0 then nodes h else <[p := junk]> (nodes h)) l)
  end.
Definition free (p : Z) : M uheap unit := fun h =>
  match nodes h !! p with Some _ => Ok (tt, with_nodes (delete p (nodes h)) h) | None => Fault end.

Definition load (p : Z) : M uheap node_t := fun h => deref (nodes h !! p) h.
Definition set_next (p v : Z) : M uheap unit :=
  n ← load p; modify (fun h => with_nodes (<[p := mk_node (ktid n) (reject n) v (prev n)]> (nodes h)) h).
Definition set_prev (p v : Z) : M uheap unit :=
  n ← load p; modify (fun h => with_nodes (<[p := mk_node (ktid n) (reject n) (next n) v]> (nodes h)) h).

Definition queue_init (junk : node_t) : M uheap (Z * deque_t) :=
  hd ← malloc junk;
  tl ← malloc junk;
  let deque := mk_deque hd tl in
  if (hd =? 0) || (tl =? 0) then mret (-1, deque) else
  set_next hd tl;;
  set_prev hd 0;;
  set_prev tl hd;;
  set_next tl 0;;
  mret (0, deque).

Definition enqueue (deque : deque_t) (element : Z) : M uheap unit :=
  t ← load (tail deque);
  set_prev element (prev t);;
  set_next element (tail deque);;
  t ← load (tail deque);
  set_next (prev t) element;;
  set_prev (tail deque) element.

Definition dequeue (deque : deque_t) : M uheap Z :=
  hd ← load (head deque);
  if next hd =? tail deque then mret 0 else
  let element := next hd in
  first ← load (next hd);
  set_next (head deque) (next first);;
  hd ← load (head deque);
  set_prev (next hd) (head deque);;
  mret element.

Definition queue_destroy (deque : deque_t) : M uheap (Z * deque_t) :=
  hd ← load (head deque);
  if negb (next hd =? tail deque) then mret (-1, deque) else
  free (head deque);;
  free (tail deque);;
  mret (0, mk_deque 0 0).

Definition queue_is_active (deque : deque_t) : Z := if (head deque =? 0) || (tail deque =? 0) then 0 else 1.

(** ** The chain of a queue *)

Definition link_of (n : node_t) : SimpleQueue.simple_node_t := SimpleQueue.mk_node (ktid n) (next n) (prev n).
Definition links (h : uheap) : gmap Z SimpleQueue.simple_node_t := link_of <$> nodes h.

(** The queue holds the nodes [l], in order. *)
Definition queue_rep (h : uheap) (d : deque_t) (l : list Z) : Prop :=
  NoDup (head d :: l ++ [tail d]) /\ SimpleQueue.linked (links h) (head d :: l ++ [tail d]).

(** What the nodes of waiting threads say is not written. *)
Definition same_data (h h' : uheap) : Prop :=
  forall p, (fun n => (ktid n, reject n)) <$> nodes h' !! p = (fun n => (ktid n, reject n)) <$> nodes h !! p.

Lemma links_lookup h p n : nodes h !! p = Some n -> links h !! p = Some (link_of n).
Proof. intros E. unfold links. by rewrite lookup_fmap, E. Qed.

Lemma links_inv h p m : links h !! p = Some m -> exists n, nodes h !! p = Some n /\ m = link_of n.
Proof. unfold links. rewrite lookup_fmap. destruct (nodes h !! p) as [n|]; [|done]. intros [= <-]. by exists n. Qed.

Lemma uq_load_ok h p n : nodes h !! p = Some n -> load p h = Ok (n, h).
Proof. intros E. unfold load, deref. by rewrite E. Qed.

Lemma uq_free_ok h p n : nodes h !! p = Some n -> free p h = Ok (tt, with_nodes (delete p (nodes h)) h).
Proof. intros E. unfold free. by rewrite E. Qed.

(** A write of a link, seen on the links. *)
Definition wrote (h h' : uheap) (p : Z) (m : SimpleQueue.simple_node_t) : Prop :=
  links h' = <[p := m]> (links h) /\ same_data h h' /\ answers h' = answers h.

Lemma uq_set_next_ok h p m v : links h !! p = Some m ->
  exists h', set_next p v h = Ok (tt, h') /\ wrote h h' p (SimpleQueue.mk_node (SimpleQueue.thr m) v (SimpleQueue.prev m)).
Proof.
  intros (n & E & ->)%links_inv. unfold set_next. rewrite (bind_ok _ _ _ _ _ (uq_load_ok _ _ _ E)). eexists. split; [done|]. split; [|split; [|done]].
  - unfold links. simpl. by rewrite fmap_insert.
  - intros q. simpl. rewrite lookup_insert. case_decide as D; [|done]. subst. by rewrite E.
Qed.

Lemma uq_set_prev_ok h p m v : links h !! p = Some m ->
  exists h', set_prev p v h = Ok (tt, h') /\ wrote h h' p (SimpleQueue.mk_node (SimpleQueue.thr m) (SimpleQueue.next m) v).
Proof.
  intros (n & E & ->)%links_inv. unfold set_prev. rewrite (bind_ok _ _ _ _ _ (uq_load_ok _ _ _ E)). eexists. split; [done|]. split; [|split; [|done]].
  - unfold links. simpl. by rewrite fmap_insert.
  - intros q. simpl. rewrite lookup_insert. case_decide as D; [|done]. subst. by rewrite E.
Qed.

Lemma same_data_trans h1 h2 h3 : same_data h1 h2 -> same_data h2 h3 -> same_data h1 h3.
Proof. intros H1 H2 p. by rewrite H2. Qed.

(** ** Refinement of the list queue *)

Lemma queue_init_refines h junk p1 p2 l : answers h = p1 :: p2 :: l -> NoDup [0; p1; p2] ->
  nodes h !! p1 = None -> nodes h !! p2 = None ->
  exists h', queue_init junk h = Ok ((0, mk_deque p1 p2), h') /\ queue_rep h' (mk_deque p1 p2) [] /\ answers h' = l.
Proof.
  intros Ha Hnd H1 H2. rewrite !list.NoDup_cons, !not_elem_of_cons in Hnd. destruct Hnd as ((N1 & N2 & _) & (N3 & _) & _).
  unfold queue_init. set (h1 := mk_uheap (<[p1 := junk]> (nodes h)) (p2 :: l)). set (h2 := mk_uheap (<[p2 := junk]> (<[p1 := junk]> (nodes h))) l).
  rewrite (bind_ok _ _ h p1 h1) by (unfold malloc; rewrite Ha; by destruct (Z.eqb_spec p1 0)).
  rewrite (bind_ok _ _ h1 p2 h2) by (unfold malloc; simpl; by destruct (Z.eqb_spec p2 0)).
  destruct (Z.eqb_spec p1 0); [done|]. destruct (Z.eqb_spec p2 0); [done|]. cbn [orb].
  assert (L1 : links h2 !! p1 = Some (link_of junk)) by (apply links_lookup; simpl; by rewrite lookup_insert_ne, lookup_insert_eq).
  assert (L2 : links h2 !! p2 = Some (link_of junk)) by (apply links_lookup; simpl; by rewrite lookup_insert_eq).
  destruct (uq_set_next_ok h2 p1 _ p2 L1) as (h3 & R3 & E3 & _ & A3). rewrite (bind_ok _ _ _ _ _ R3).
  destruct (uq_set_prev_ok h3 p1 (SimpleQueue.mk_node (ktid junk) p2 (prev junk)) 0) as (h4 & R4 & E4 & _ & A4); [rewrite E3; apply lookup_insert_eq|].
  rewrite (bind_ok _ _ _ _ _ R4). destruct (uq_set_prev_ok h4 p2 (link_of junk) p1) as (h5 & R5 & E5 & _ & A5).
  { rewrite E4, E3. by rewrite !lookup_insert_ne by done. }
  rewrite (bind_ok _ _ _ _ _ R5). destruct (uq_set_next_ok h5 p2 (SimpleQueue.mk_node (ktid junk) (next junk) p1) 0) as (h6 & R6 & E6 & _ & A6).
  { rewrite E5. apply lookup_insert_eq. }
  rewrite (bind_ok _ _ _ _ _ R6). exists h6. split; [done|]. split; [|by rewrite A6, A5, A4, A3]. split.
  - simpl. repeat constructor; set_solver.
  - simpl. split; [|done]. split; eexists; rewrite E6, E5, E4, E3; [rewrite !(lookup_insert_ne _ p2) by done|]; by rewrite lookup_insert_eq.
Qed.

Lemma enqueue_refines h d l n nn : queue_rep h d l -> nodes h !! n = Some nn -> n ∉ head d :: l ++ [tail d] ->
  exists h', enqueue d n h = Ok (tt, h') /\ queue_rep h' d (QSpec.enqueue l n) /\ same_data h h' /\ answers h' = answers h.
Proof.
  intros [Hnd Hl] Hn Hni. unfold queue_rep, QSpec.enqueue. set (t := tail d) in *.
  assert (exists ys x, head d :: l = ys ++ [x]) as (ys & x & Hx).
  { destruct (exists_last (l := head d :: l)) as (ys & x & ->); [done|eauto]. }
  rewrite !app_comm_cons, Hx, <- !app_assoc in *. simpl app in *.
  rewrite SimpleQueue.linked_app, SimpleQueue.linked_cons2 in Hl. destruct Hl as (Hy & [(nx & Hnx & _) (nt & Hnt & Hpt)] & _).
  apply list.NoDup_app in Hnd as (Hndy & Hd & Hnd). rewrite !list.NoDup_cons, not_elem_of_cons in Hnd. destruct Hnd as ((Hxt & _) & _ & _).
  assert (n <> x /\ n <> t /\ (n ∉ ys)) as (Hnx' & Hnt' & Hny) by set_solver.
  assert ((x ∉ ys) /\ (t ∉ ys)) as [Hxy Hty] by (split; intros Hi; apply Hd in Hi; set_solver).
  pose proof (links_lookup _ _ _ Hn) as Ln. destruct (links_inv _ _ _ Hnt) as (mt & Hmt & ->). change (prev mt = x) in Hpt.
  unfold enqueue. fold t. rewrite (bind_ok _ _ _ _ _ (uq_load_ok _ _ _ Hmt)), Hpt.
  destruct (uq_set_prev_ok h n _ x Ln) as (h1 & R1 & E1 & D1 & A1). rewrite (bind_ok _ _ _ _ _ R1).
  destruct (uq_set_next_ok h1 n (SimpleQueue.mk_node (ktid nn) (next nn) x) t) as (h2 & R2 & E2 & D2 & A2); [rewrite E1; apply lookup_insert_eq|].
  rewrite (bind_ok _ _ _ _ _ R2). assert (Lt : links h2 !! t = Some (link_of mt)) by (rewrite E2, E1; by rewrite !lookup_insert_ne by done).
  destruct (links_inv _ _ _ Lt) as (mt2 & Hmt2 & Et2). rewrite (bind_ok _ _ _ _ _ (uq_load_ok _ _ _ Hmt2)).
  replace (prev mt2) with x by (injection Et2; congruence).
  destruct (uq_set_next_ok h2 x nx n) as (h3 & R3 & E3 & D3 & A3); [rewrite E2, E1; by rewrite !lookup_insert_ne by done|]. rewrite (bind_ok _ _ _ _ _ R3).
  destruct (uq_set_prev_ok h3 t (link_of mt) n) as (h4 & R4 & E4 & D4 & A4); [rewrite E3, E2, E1; by rewrite !lookup_insert_ne by done|].
  exists h4. split; [done|]. split; [split|].
  - apply list.NoDup_app. split; [done|]. split; [intros z Hz; specialize (Hd z Hz); set_solver|].
    rewrite !list.NoDup_cons. split; [set_solver|]. split; [set_solver|]. split; [set_solver|apply NoDup_nil_2].
  - assert (E : links h4 = SimpleQueue.enqueued (links h) x n t nx (link_of nn) (link_of mt)).
    { unfold SimpleQueue.enqueued. rewrite E4, E3, E2, E1, !insert_insert_eq. done. }
    rewrite E. by apply SimpleQueue.enqueued_linked.
  - split; [|by rewrite A4, A3, A2, A1]. do 3 (eapply same_data_trans; [eassumption|]). done.
Qed.

Lemma dequeue_refines h d l : queue_rep h d l ->
  match QSpec.dequeue l with
  | None => dequeue d h = Ok (0, h)
  | Some (x, l') => exists h', dequeue d h = Ok (x, h') /\ queue_rep h' d l' /\ same_data h h' /\ answers h' = answers h
  end.
Proof.
  intros [Hnd Hl]. destruct l as [|x l]; simpl QSpec.dequeue; cbv iota; unfold dequeue.
  - simpl in Hl. destruct Hl as [[(nh & (mh & Hh & ->)%links_inv & Hn) _] _].
    rewrite (bind_ok _ _ _ _ _ (uq_load_ok _ _ _ Hh)). change (next mh = tail d) in Hn. by rewrite Hn, Z.eqb_refl.
  - destruct (l ++ [tail d]) as [|b ys] eqn:E; [by apply app_eq_nil in E as []|]. simpl app in *. rewrite E in *.
    assert (Hxt : x <> tail d).
    { intros ->. apply NoDup_cons_1_2, NoDup_cons_1_1 in Hnd. apply Hnd. rewrite <- E. set_solver. }
    destruct (SimpleQueue.unlink_ok (links h) [] (head d) x b ys Hnd Hl) as (nh & nx & k1 & k2 & Hh & Hhx & Hx & Hxb & R1 & R2 & R3 & Hl2 & _).
    destruct (links_inv _ _ _ Hh) as (mh & Hmh & ->), (links_inv _ _ _ Hx) as (mx & Hmx & ->). change (next mh = x) in Hhx. change (next mx = b) in Hxb.
    rewrite (bind_ok _ _ _ _ _ (uq_load_ok _ _ _ Hmh)), Hhx, (proj2 (Z.eqb_neq _ _) Hxt), (bind_ok _ _ _ _ _ (uq_load_ok _ _ _ Hmx)), Hxb.
    destruct (uq_set_next_ok h (head d) _ b Hh) as (h1 & Q1 & E1 & D1 & A1). rewrite (bind_ok _ _ _ _ _ Q1).
    rewrite (SimpleQueue.set_next_ok _ _ _ b Hh) in R1. injection R1 as Ek1. assert (E1k : links h1 = k1) by (rewrite E1; exact Ek1). clear E1; rename E1k into E1.
    assert (L1 : links h1 !! head d = Some (SimpleQueue.mk_node (ktid mh) b (prev mh))) by (rewrite E1, <- Ek1; apply lookup_insert_eq).
    destruct (links_inv _ _ _ L1) as (m1 & Hm1 & Em1). rewrite (bind_ok _ _ _ _ _ (uq_load_ok _ _ _ Hm1)).
    replace (next m1) with b by (injection Em1; congruence).
    assert (exists nb, k1 !! b = Some nb) as [nb Hb].
    { unfold SimpleQueue.set_prev, SimpleQueue.load, deref, mbind, M_bind in R3. destruct (k1 !! b) as [nb|]; [by exists nb|done]. }
    rewrite (SimpleQueue.set_prev_ok _ _ _ (head d) Hb) in R3. injection R3 as Ek2.
    destruct (uq_set_prev_ok h1 b nb (head d)) as (h2 & Q2 & E2 & D2 & A2); [by rewrite E1|]. rewrite (bind_ok _ _ _ _ _ Q2).
    exists h2. split; [done|]. split; [|split; [by eapply same_data_trans|by rewrite A2, A1]]. unfold queue_rep. rewrite E. split.
    + rewrite !list.NoDup_cons in *. set_solver.
    + rewrite E2, E1, Ek2. exact Hl2.
Qed.

(** The sentinels of an empty queue go back to the heap. *)
Lemma queue_destroy_refines h d l : queue_rep h d l ->
  if bool_decide (l = []) then queue_destroy d h = Ok ((0, mk_deque 0 0), with_nodes (delete (tail d) (delete (head d) (nodes h))) h)
  else queue_destroy d h = Ok ((-1, d), h).
Proof.
  intros [Hnd Hl]. unfold queue_destroy. destruct l as [|x l]; simpl in *.
  - destruct Hl as [[(nh & (mh & Hh & ->)%links_inv & Hn) (nt & (mt & Ht & ->)%links_inv & _)] _]. change (next mh = tail d) in Hn.
    rewrite (bind_ok _ _ _ _ _ (uq_load_ok _ _ _ Hh)), Hn, Z.eqb_refl. cbn [negb]. rewrite (bind_ok _ _ _ _ _ (uq_free_ok _ _ _ Hh)).
    assert (Hne : head d <> tail d) by (apply NoDup_cons_1_1 in Hnd; set_solver). 
    by rewrite (bind_ok _ _ _ _ _ (uq_free_ok (with_nodes (delete (head d) (nodes h)) h) (tail d) mt ltac:(simpl; by rewrite lookup_delete_ne))).
  - assert (Hxt : x <> tail d) by (intros ->; apply NoDup_cons_1_2, NoDup_cons_1_1 in Hnd; set_solver).
    destruct (l ++ [tail d]) eqn:E; [by apply app_eq_nil in E as []|]. destruct Hl as [[(nh & (mh & Hh & ->)%links_inv & Hn) _] _]. change (next mh = x) in Hn.
    rewrite (bind_ok _ _ _ _ _ (uq_load_ok _ _ _ Hh)), Hn, (proj2 (Z.eqb_neq _ _) Hxt). done.
Qed.
End UserQueue.
