(* ===== verification/UserHash.v ===== *)
(** * The thread-safe hash table of the thread library (src/user/libthread/hashtable.c)

    The same chains as in the kernel's table (Hashtable.v), shared by any number
    of threads.  A mutex guards the chains, but not everything is done under it:
    [hashtable_put] allocates and fills its node before it takes the mutex, and
    [hashtable_remove] reads and frees the node it has unlinked after it has
    released the mutex.

    A thread's position in one of the functions is a [pc]; [thread_step] is the
    next access to shared memory.  The [log] is no part of the code: it notes the
    operations in the order in which they take effect, newest first, so that the
    table can be compared with the abstract one of [HTSpec] at any time. *)

From Stdlib Require Import ZArith Lia.
From stdpp Require Import base gmap list tactics numbers.
From S2P Require Import Prelude Hashtable.

#[local] Open Scope Z_scope.

Module UserHash.
Import Hashtable.

Inductive hop := Put (k v : Z) | Get (k : Z) | Remove (k : Z).
Definition hop_key (o : hop) : Z := match o with Put k _ | Get k | Remove k => k end.

Record shared := mk_shared { heap_ : heap; lock : option Z; log : list (Z * hop) }.
Definition with_heap h s := mk_shared h (lock s) (log s).
Definition with_lock l s := mk_shared (heap_ s) l (log s).
Definition on_heap {A} (m : M heap A) : M shared A := zoom heap_ with_heap m.
Definition note (t : Z) (o : hop) : M shared unit := modify (fun s => mk_shared (heap_ s) (lock s) ((t, o) :: log s)).

(** Positions; [hp] is the variable of the loops, [r] the value returned and [*is_find]. *)
Inductive pc :=
| Alloc (k v : Z)
| Fill (p k v : Z)
| PutLock (p k v : Z)
| PutNext (p k v : Z)
| PutHead (p k v : Z)
| WalkLock (rm : bool) (k : Z)
| Walk (rm : bool) (k hp : Z)
| Unlock (o : hop) (r : Z * Z)
| RemoveUnlock (k tmp : Z)
| RemoveValue (k tmp : Z)
| RemoveFree (k tmp rv : Z)
| Done (o : hop) (r : Z * Z).

(** The call of one of the functions. *)
Definition call (o : hop) : pc :=
  match o with Put k v => Alloc k v | Get k => WalkLock false k | Remove k => WalkLock true k end.

(** The mutex as its users see it (UserMutex.v has the code and shows that at most
    one thread holds it).  To release a mutex that the thread does not hold is an
    error here, which the theorem excludes. *)
Definition mutex_lock (t : Z) : M shared unit := fun s =>
  match lock s with None => Ok (tt, with_lock (Some t) s) | Some _ => Blocks end.
Definition mutex_unlock (t : Z) : M shared unit := fun s =>
  if bool_decide (lock s = Some t) then Ok (tt, with_lock None s) else Panic.

Section table.
Context (A : allocator) (tbl : hashtable_t).

(** [hashtable_put]: when there is no memory the thread yields and tries again. *)
Definition put_step (t : Z) (c : pc) : M shared pc :=
  match c with
  | Alloc k v => hp ← on_heap (hmalloc A 1); if hp =? 0 then mret (Alloc k v) else mret (Fill hp k v)
  | Fill hp k v => n ← on_heap (hload hp); on_heap (modify (fun h => <[hp := mk_hnode (next n) k v]> h));; mret (PutLock hp k v)
  | PutLock hp k v => mutex_lock t;; mret (PutNext hp k v)
  | PutNext hp k v => b ← on_heap (hload (header tbl (func tbl k))); on_heap (hset_next hp (next b));; mret (PutHead hp k v)
  | PutHead hp k v => on_heap (hset_next (header tbl (func tbl k)) hp);; note t (Put k v);; mret (Unlock (Put k v) (0, 0))
  | _ => fault
  end.

(** The loops of [hashtable_get] and [hashtable_remove]: one node a step. *)
Definition walk_step (t : Z) (rm : bool) (k hp : Z) : M shared pc :=
  let o := if rm then Remove k else Get k in
  n ← on_heap (hload hp);
  if next n =? 0 then note t o;; mret (Unlock o (0, 0))
  else
    nn ← on_heap (hload (next n));
    if key nn =? k then
      note t o;;
      if rm then on_heap (hset_next hp (next nn));; mret (RemoveUnlock k (next n))
      else mret (Unlock o (value nn, 1))
    else mret (Walk rm k (next n)).

Definition thread_step (t : Z) (c : pc) : M shared pc :=
  match c with
  | WalkLock rm k => mutex_lock t;; mret (Walk rm k (header tbl (func tbl k)))
  | Walk rm k hp => walk_step t rm k hp
  | Unlock o r => mutex_unlock t;; mret (Done o r)
  | RemoveUnlock k tmp => mutex_unlock t;; mret (RemoveValue k tmp)
  | RemoveValue k tmp => n ← on_heap (hload tmp); mret (RemoveFree k tmp (value n))
  | RemoveFree k tmp rv => on_heap (hfree tmp);; mret (Done (Remove k) (rv, 1))
  | Done _ _ => blocks
  | c => put_step t c
  end.

(** [hashtable_init] and [hashtable_destroy] run before and after the threads. *)
Definition hashtable_init : M shared (Z * hashtable_t) :=
  '(rv, tbl) ← on_heap (Hashtable.hashtable_init A tbl);
  if rv <? 0 then mret (rv, tbl)
  else modify (with_lock None);; mret (0, tbl).

(** ** Threads *)

Record state := mk_state { sh : shared; pcs : gmap Z pc }.

(** A thread may call any function when it is in none, with a key that the hash
    function maps into the table. *)
Inductive step : state -> state -> Prop :=
| step_call s t o : (pcs s !! t = None \/ exists o' r, pcs s !! t = Some (Done o' r)) -> 0 <= func tbl (hop_key o) < size tbl ->
    step s (mk_state (sh s) (<[t := call o]> (pcs s)))
| step_run s t c c' sh' : pcs s !! t = Some c -> thread_step t c (sh s) = Ok (c', sh') ->
    step s (mk_state sh' (<[t := c']> (pcs s))).

Inductive reachable (s0 : state) : state -> Prop :=
| reach_init : reachable s0 s0
| reach_step s s' : reachable s0 s -> step s s' -> reachable s0 s'.
End table.

(** ** The specification: the operations one after the other *)

Definition effect (o : hop) (T : HTSpec.table) : HTSpec.table :=
  match o with Put k v => HTSpec.put T k v | Get _ => T | Remove k => HTSpec.remove T k end.
Definition result (o : hop) (T : HTSpec.table) : Z * Z :=
  match o with
  | Put _ _ => (0, 0)
  | Get k | Remove k => match HTSpec.get T k with Some v => (v, 1) | None => (0, 0) end
  end.

Fixpoint table_of (l : list (Z * hop)) : HTSpec.table :=
  match l with [] => HTSpec.empty | (_, o) :: l => effect o (table_of l) end.

(** The last operation of thread [t] in the log, and what it has to return. *)
Fixpoint answer (t : Z) (l : list (Z * hop)) : option (hop * (Z * Z)) :=
  match l with
  | [] => None
  | (t', o) :: l => if t' =? t then Some (o, result o (table_of l)) else answer t l
  end.

(** ** The invariant *)

(** The positions between taking and releasing the mutex. *)
Definition inside (c : pc) : bool :=
  match c with PutNext _ _ _ | PutHead _ _ _ | Walk _ _ _ | Unlock _ _ | RemoveUnlock _ _ => true | _ => false end.

(** The node that belongs to the thread alone. *)
Definition owned (c : pc) : option Z :=
  match c with
  | Fill p _ _ | PutLock p _ _ | PutNext p _ _ | PutHead p _ _ | RemoveUnlock _ p | RemoveValue _ p | RemoveFree _ p _ => Some p
  | _ => None
  end.

Section invariant.
Context (A : allocator) (tbl : hashtable_t).

Definition cell (B : Z -> list Z) (x : Z) : Prop := is_header tbl x \/ node_in B 0 (size tbl) x.
Definition in_range (k : Z) : Prop := 0 <= func tbl k < size tbl.
Definition private (h : heap) (B : Z -> list Z) (p : Z) : Prop := p <> 0 /\ is_Some (h !! p) /\ ~ cell B p.

Definition pc_ok (h : heap) (lg : list (Z * hop)) (B : Z -> list Z) (t : Z) (c : pc) : Prop :=
  match c with
  | Alloc k _ | WalkLock _ k => in_range k
  | Fill p k _ => in_range k /\ private h B p
  | PutLock p k v | PutNext p k v => in_range k /\ private h B p /\ exists q, h !! p = Some (mk_hnode q k v)
  | PutHead p k v => in_range k /\ private h B p /\ exists b, h !! header tbl (func tbl k) = Some b /\ h !! p = Some (mk_hnode (next b) k v)
  | Walk _ k hp => in_range k /\ exists l1 l2, B (func tbl k) = l1 ++ l2 /\ hp = chain_last (header tbl (func tbl k)) l1 /\ vals h l1 k = []
  | RemoveUnlock k p | RemoveValue k p => private h B p /\ exists n, h !! p = Some n /\ answer t lg = Some (Remove k, (value n, 1))
  | RemoveFree k p v => private h B p /\ answer t lg = Some (Remove k, (v, 1))
  | Unlock o r | Done o r => answer t lg = Some (o, r)
  end.

Record inv_with (B : Z -> list Z) (s : state) : Prop := {
  iv_abs : table_abs (heap_ (sh s)) tbl B (table_of (log (sh s)));
  iv_pc : forall t c, pcs s !! t = Some c -> pc_ok (heap_ (sh s)) (log (sh s)) B t c;
  iv_in : forall t c, pcs s !! t = Some c -> inside c = true -> lock (sh s) = Some t;
  iv_lock : forall t, lock (sh s) = Some t -> exists c, pcs s !! t = Some c /\ inside c = true;
  iv_own : forall t t' c c' p, pcs s !! t = Some c -> pcs s !! t' = Some c' -> owned c = Some p -> owned c' = Some p -> t = t' }.

Lemma header_cell B k : in_range k -> cell B (header tbl (func tbl k)).
Proof. intros H. left. by exists (func tbl k). Qed.

Lemma node_cell B i x : 0 <= i < size tbl -> x ∈ B i -> cell B x.
Proof. intros Hi Hx. right. by exists i. Qed.

(** The table does not notice what happens to other memory. *)
Lemma table_abs_frame h h' B T : table_abs h tbl B T -> (forall x, cell B x -> h' !! x = h !! x) -> table_abs h' tbl B T.
Proof.
  intros [[Hc Hn Hk] Ht] Hf. split; [split|].
  - intros i Hi. apply (chain_frame _ h); [by apply Hc|]. intros q [->|Hq]%elem_of_cons; apply Hf; [left; by exists i|by apply (node_cell B i)].
  - done.
  - intros i x Hi Hx. rewrite Hf by (by apply (node_cell B i)). by apply Hk.
  - intros k Hr. rewrite Ht by done. symmetry. apply vals_frame. intros x Hx. by rewrite Hf by (by apply (node_cell B (func tbl k))).
Qed.

Lemma cell_present h B T x : table_abs h tbl B T -> cell B x -> is_Some (h !! x).
Proof.
  intros [Hr _] [(i & Hi & ->)|(i & Hi & Hx)].
  - destruct (chain_head _ _ _ _ (rep_chain _ _ _ Hr i Hi)) as [n Hn]. by exists n.
  - destruct (rep_node _ _ _ Hr i x Hi Hx) as (_ & n & Hn & _). by exists n.
Qed.

Lemma owned_private h lg B t c p : pc_ok h lg B t c -> owned c = Some p -> private h B p.
Proof. destruct c; simpl; intros Hok E; try done; injection E as ->; naive_solver. Qed.

(** What another thread knows stays true. *)
Lemma pc_ok_frame h h' lg lg' B B' t c : pc_ok h lg B t c -> answer t lg' = answer t lg ->
  (forall p, owned c = Some p -> h' !! p = h !! p /\ ~ cell B' p) ->
  (inside c = true -> B' = B /\ forall x, cell B x -> h' !! x = h !! x) -> pc_ok h' lg' B' t c.
Proof.
  intros Hok Ha Ho Hi.
  assert (Hp : forall p, owned c = Some p -> private h B p -> private h' B' p).
  { intros p Hc (H0 & Hs & _). destruct (Ho p Hc) as [E Hn]. split; [done|]. split; [by rewrite E|done]. }
  destruct c as [k v|p k v|p k v|p k v|p k v|rm k|rm k hp|o r|k p|k p|k p v|o r]; simpl in Hok |- *; rewrite ?Ha; try done.
  - destruct Hok as (? & ?). split; [done|]. by apply Hp.
  - destruct Hok as (? & ? & q & Hq). split; [done|]. split; [by apply Hp|]. exists q. by rewrite (proj1 (Ho p eq_refl)).
  - destruct Hok as (? & ? & q & Hq). split; [done|]. split; [by apply Hp|]. exists q. by rewrite (proj1 (Ho p eq_refl)).
  - destruct Hok as (Hr & ? & b & Hb & Hq). destruct (Hi eq_refl) as [-> Hf]. split; [done|]. split; [by apply Hp|]. exists b.
    rewrite (proj1 (Ho p eq_refl)), Hf by (by apply header_cell). done.
  - destruct Hok as (Hr & l1 & l2 & Hl & -> & Hv). destruct (Hi eq_refl) as [-> Hf]. split; [done|]. exists l1, l2. split; [done|]. split; [done|].
    rewrite <- Hv. apply vals_frame. intros x Hx. rewrite Hf; [done|]. apply (node_cell B (func tbl k)); [done|]. rewrite Hl. set_solver.
  - destruct Hok as (? & n & Hn & ?). split; [by apply Hp|]. exists n. by rewrite (proj1 (Ho p eq_refl)).
  - destruct Hok as (? & n & Hn & ?). split; [by apply Hp|]. exists n. by rewrite (proj1 (Ho p eq_refl)).
  - destruct Hok as (? & ?). split; [by apply Hp|done].
Qed.

(** What a step has to give for the invariant to hold again. *)
Record step_ok (B B' : Z -> list Z) (s : state) (t : Z) (c' : pc) (sh' : shared) : Prop := {
  so_abs : table_abs (heap_ sh') tbl B' (table_of (log sh'));
  so_pc : pc_ok (heap_ sh') (log sh') B' t c';
  so_answer : forall t', t' <> t -> answer t' (log sh') = answer t' (log (sh s));
  so_own : forall p, owned c' = Some p -> forall t' d, t' <> t -> pcs s !! t' = Some d -> owned d <> Some p;
  so_others : forall t' d p, t' <> t -> pcs s !! t' = Some d -> owned d = Some p -> heap_ sh' !! p = heap_ (sh s) !! p /\ ~ cell B' p;
  so_cells : lock (sh s) = Some t \/ B' = B /\ forall x, cell B x -> heap_ sh' !! x = heap_ (sh s) !! x }.

Lemma inv_step B B' s t c c' sh' : inv_with B s -> (pcs s !! t = Some c \/ pcs s !! t = None /\ inside c = false) ->
  lock sh' = (if inside c' then Some t else if inside c then None else lock (sh s)) -> (inside c' = true -> inside c = true \/ lock (sh s) = None) ->
  step_ok B B' s t c' sh' -> inv_with B' (mk_state sh' (<[t := c']> (pcs s))).
Proof.
  intros [Ha Hp Hi Hl Ho] Hc Hlk Hin [S1 S2 S3 S4 S5 S6].
  assert (Hct : inside c = true -> lock (sh s) = Some t) by (intros Hx; destruct Hc as [Hc|[_ Hc]]; [by apply (Hi t c)|congruence]).
  assert (Hout : forall t' d, t' <> t -> pcs s !! t' = Some d -> inside d = true -> inside c' = false /\ inside c = false).
  { intros t' d Hne Hd Hx. pose proof (Hi t' d Hd Hx) as E. destruct (inside c) eqn:Ec; [specialize (Hct eq_refl); congruence|].
    split; [|done]. destruct (inside c'); [|done]. destruct (Hin eq_refl); congruence. }
  split; simpl.
  - done.
  - intros t' d. rewrite lookup_insert. case_decide as D; [subst; by intros [= ->]|]. intros Hd.
    apply (pc_ok_frame (heap_ (sh s)) _ (log (sh s)) _ B); [by apply Hp|by apply S3|intros p Hop; by apply (S5 t' d p)|].
    intros Hx. destruct S6 as [E|?]; [|done]. pose proof (Hi t' d Hd Hx). congruence.
  - intros t' d. rewrite lookup_insert. case_decide as D; [subst; intros [= ->] Hx; by rewrite Hlk, Hx|].
    intros Hd Hx. destruct (Hout t' d (not_eq_sym D) Hd Hx) as [-> Hc2] in Hlk. rewrite Hc2 in Hlk. rewrite Hlk. by apply (Hi t' d).
  - intros t' Ht'. rewrite Hlk in Ht'. destruct (inside c') eqn:Ec'; [injection Ht' as <-; exists c'; by rewrite lookup_insert_eq|].
    destruct (inside c) eqn:Ec; [done|]. destruct (Hl t' Ht') as (d & Hd & Hx). exists d. rewrite lookup_insert_ne; [done|].
    intros <-. destruct Hc as [Hc|[Hc _]]; congruence.
  - intros t1 t2 c1 c2 p. rewrite !lookup_insert. repeat case_decide; subst; try done; intros E1 E2 O1 O2; simplify_eq; eauto.
    + exfalso. by apply (S4 p O1 t2 c2).
    + exfalso. by apply (S4 p O2 t1 c1).
Qed.

(** *** One lemma for each kind of step *)

Lemma same_heap_ok B s t c c' sh' : inv_with B s -> pcs s !! t = Some c -> heap_ sh' = heap_ (sh s) -> log sh' = log (sh s) ->
  pc_ok (heap_ (sh s)) (log (sh s)) B t c' -> (forall p, owned c' = Some p -> owned c = Some p) -> step_ok B B s t c' sh'.
Proof.
  intros Hi Hc Eh El Hp Ho. split; rewrite ?Eh, ?El; try done.
  - apply Hi.
  - intros p Hop t' d Hne Hd Hod. apply Hne. symmetry. by apply (iv_own _ _ Hi t t' c d p); auto.
  - intros t' d p _ Hd Hod. split; [done|]. by apply (owned_private _ _ _ _ _ _ (iv_pc _ _ Hi t' d Hd) Hod).
  - by right.
Qed.

Lemma own_heap_ok B s t c c' p sh' : inv_with B s -> pcs s !! t = Some c -> owned c = Some p -> (forall x, x <> p -> heap_ sh' !! x = heap_ (sh s) !! x) ->
  log sh' = log (sh s) -> pc_ok (heap_ sh') (log (sh s)) B t c' -> (forall q, owned c' = Some q -> q = p) -> step_ok B B s t c' sh'.
Proof.
  intros Hi Hc Hcp Hh El Hp Ho. destruct (owned_private _ _ _ _ _ _ (iv_pc _ _ Hi t c Hc) Hcp) as (_ & _ & Hnc).
  assert (Hcell : forall x, cell B x -> heap_ sh' !! x = heap_ (sh s) !! x) by (intros x Hx; apply Hh; by intros ->).
  split; rewrite ?El; try done.
  - by apply (table_abs_frame (heap_ (sh s))); [apply Hi|].
  - intros q Hop t' d Hne Hd Hod. apply Ho in Hop as ->. apply Hne. symmetry. by apply (iv_own _ _ Hi t t' c d p).
  - intros t' d q Hne Hd Hod. split; [|by apply (owned_private _ _ _ _ _ _ (iv_pc _ _ Hi t' d Hd) Hod)].
    apply Hh. intros ->. apply Hne. by apply (iv_own _ _ Hi t' t d c p).
  - by right.
Qed.

Lemma answer_other t t' o l : t' <> t -> answer t' ((t, o) :: l) = answer t' l.
Proof. intros H. simpl. by rewrite (proj2 (Z.eqb_neq t t')) by congruence. Qed.
Lemma answer_last t o l : answer t ((t, o) :: l) = Some (o, result o (table_of l)).
Proof. simpl. by rewrite Z.eqb_refl. Qed.

(** An operation that takes effect without a change of the table. *)
Lemma note_ok B s t c o r : inv_with B s -> pcs s !! t = Some c -> table_abs (heap_ (sh s)) tbl B (effect o (table_of (log (sh s)))) ->
  result o (table_of (log (sh s))) = r -> step_ok B B s t (Unlock o r) (mk_shared (heap_ (sh s)) (lock (sh s)) ((t, o) :: log (sh s))).
Proof.
  intros Hi Hc Ha <-. split; try done.
  - apply answer_last.
  - intros t' Hne. by apply answer_other.
  - intros t' d p _ Hd Hod. split; [done|]. by apply (owned_private _ _ _ _ _ _ (iv_pc _ _ Hi t' d Hd) Hod).
  - by right.
Qed.

(** What [thread_step] has to satisfy. *)
Definition step_good (B : Z -> list Z) (s : state) (t : Z) (c : pc) (r : res (pc * shared)) : Prop :=
  match r with
  | Ok (c', sh') => lock sh' = (if inside c' then Some t else if inside c then None else lock (sh s)) /\
      (inside c' = true -> inside c = true \/ lock (sh s) = None) /\ exists B', step_ok B B' s t c' sh'
  | Blocks => (exists o r, c = Done o r) \/ exists t' d, t' <> t /\ lock (sh s) = Some t' /\ pcs s !! t' = Some d /\ inside d = true
  | _ => False
  end.

Lemma lock_good B s t c c1 : inv_with B s -> pcs s !! t = Some c -> inside c = false -> inside c1 = true -> pc_ok (heap_ (sh s)) (log (sh s)) B t c1 ->
  (forall p, owned c1 = Some p -> owned c = Some p) -> step_good B s t c ((mutex_lock t;; mret c1) (sh s)).
Proof.
  intros Hi Hc Hin Hin1 Hp Ho. munfold. unfold mutex_lock. destruct (lock (sh s)) as [t'|] eqn:El; simpl.
  - right. destruct (iv_lock _ _ Hi t' El) as (d & Hd & Hx). exists t', d. split; [intros ->; congruence|done].
  - rewrite Hin1. split; [done|]. split; [by right|]. exists B. by apply (same_heap_ok B s t c).
Qed.

Lemma unlock_good B s t c c1 : inv_with B s -> pcs s !! t = Some c -> inside c = true -> inside c1 = false -> pc_ok (heap_ (sh s)) (log (sh s)) B t c1 ->
  (forall p, owned c1 = Some p -> owned c = Some p) -> step_good B s t c ((mutex_unlock t;; mret c1) (sh s)).
Proof.
  intros Hi Hc Hin Hin1 Hp Ho. munfold. unfold mutex_unlock. rewrite (iv_in _ _ Hi t c Hc Hin), bool_decide_eq_true_2 by done. simpl.
  rewrite Hin, Hin1. split; [done|]. split; [done|]. exists B. by apply (same_heap_ok B s t c).
Qed.

Lemma on_heap_ok {X} (m : M heap X) s a h : m (heap_ s) = Ok (a, h) -> on_heap m s = Ok (a, with_heap h s).
Proof. intros E. by apply zoom_ok. Qed.

Lemma alloc_good B s t k v : malloc_ok A -> inv_with B s -> pcs s !! t = Some (Alloc k v) -> step_good B s t (Alloc k v) (put_step A tbl t (Alloc k v) (sh s)).
Proof.
  intros HA Hi Hc. pose proof (iv_pc _ _ Hi t _ Hc) as Hr. simpl in Hr. cbn [put_step]. set (h := heap_ (sh s)). destruct (Z.eq_dec (malloc A h 1) 0) as [E|E].
  - rewrite (bind_ok _ _ _ 0 (sh s)); [|unfold on_heap, zoom, hmalloc; fold h; rewrite E; by destruct (sh s)]. simpl. split; [done|]. split; [done|]. exists B. by apply (same_heap_ok B s t (Alloc k v)).
  - pose proof (HA h 1 0 ltac:(lia) E) as Hf. rewrite Z.add_0_r in Hf.
    rewrite (bind_ok _ _ _ _ _ (on_heap_ok _ _ _ _ (hmalloc_one A h E))). set (p := malloc A h 1) in *. rewrite (proj2 (Z.eqb_neq p 0) E). simpl. split; [done|]. split; [done|]. exists B.
    assert (Hkeep : forall x, is_Some (h !! x) -> <[p := junk A p]> h !! x = h !! x) by (intros x [n Hn]; apply lookup_insert_ne; congruence).
    assert (Hown : forall t' d q, pcs s !! t' = Some d -> owned d = Some q -> private h B q) by (intros t' d q Hd Hq; exact (owned_private _ _ _ _ _ _ (iv_pc _ _ Hi t' d Hd) Hq)).
    assert (Hcell : forall x, cell B x -> <[p := junk A p]> h !! x = h !! x) by (intros x Hx; apply Hkeep; by apply (cell_present _ _ _ _ (iv_abs _ _ Hi))).
    split; simpl; try done.
    + apply (table_abs_frame h); [apply Hi|done].
    + split; [done|]. split; [done|]. split; [by rewrite lookup_insert_eq|]. intros Hx. destruct (cell_present _ _ _ _ (iv_abs _ _ Hi) Hx) as [n Hn]. fold h in Hn. congruence.
    + intros q [= <-] t' d _ Hd Hq. destruct (Hown t' d p Hd Hq) as (_ & [n Hn] & _). congruence.
    + intros t' d q _ Hd Hq. destruct (Hown t' d q Hd Hq) as (_ & Hs & Hn). split; [by apply Hkeep|done].
    + by right.
Qed.

Lemma fill_good B s t p k v : inv_with B s -> pcs s !! t = Some (Fill p k v) -> step_good B s t (Fill p k v) (put_step A tbl t (Fill p k v) (sh s)).
Proof.
  intros Hi Hc. destruct (iv_pc _ _ Hi t _ Hc) as (Hr & H0 & [n Hn] & Hnc). cbn [put_step].
  rewrite (bind_ok _ _ _ _ _ (on_heap_ok _ _ _ _ (hload_ok _ _ _ Hn))). erewrite bind_ok by reflexivity. split; [done|]. split; [done|]. exists B.
  apply (own_heap_ok B s t (Fill p k v) _ p); simpl; try done.
  - intros x Hx. by apply lookup_insert_ne.
  - split; [done|]. split; [split; [done|]; split; [|done]; by rewrite lookup_insert_eq|]. eexists. apply lookup_insert_eq.
  - by intros q [= <-].
Qed.

Lemma put_next_good B s t p k v : inv_with B s -> pcs s !! t = Some (PutNext p k v) -> step_good B s t (PutNext p k v) (put_step A tbl t (PutNext p k v) (sh s)).
Proof.
  intros Hi Hc. destruct (iv_pc _ _ Hi t _ Hc) as (Hr & (H0 & _ & Hnc) & q & Hn). cbn [put_step].
  destruct (cell_present _ _ _ _ (iv_abs _ _ Hi) (header_cell B k Hr)) as [b Hb].
  rewrite (bind_ok _ _ _ _ _ (on_heap_ok _ _ _ _ (hload_ok _ _ _ Hb))). rewrite (bind_ok _ _ _ _ _ (on_heap_ok _ (with_heap _ _) _ _ (hset_next_ok _ _ _ (next b) Hn))).
  split; [exact (iv_in _ _ Hi t _ Hc eq_refl)|]. split; [by left|]. exists B.
  assert (Hne : p <> header tbl (func tbl k)) by (intros ->; apply Hnc; by apply header_cell).
  apply (own_heap_ok B s t (PutNext p k v) _ p); simpl; try done.
  - intros x Hx. by apply lookup_insert_ne.
  - split; [done|]. split; [split; [done|]; split; [|done]; by rewrite lookup_insert_eq|]. exists b. rewrite lookup_insert_ne, lookup_insert_eq by done. done.
  - by intros x [= <-].
Qed.

Lemma put_head_good B s t p k v : inv_with B s -> pcs s !! t = Some (PutHead p k v) -> step_good B s t (PutHead p k v) (put_step A tbl t (PutHead p k v) (sh s)).
Proof.
  intros Hi Hc. destruct (iv_pc _ _ Hi t _ Hc) as (Hr & (H0 & _ & Hnc) & b & Hb & Hn). cbn [put_step]. set (h := heap_ (sh s)) in *. set (hd := header tbl (func tbl k)) in *.
  rewrite (bind_ok _ _ _ _ _ (on_heap_ok _ _ _ _ (hset_next_ok _ _ _ p Hb))). erewrite bind_ok by reflexivity.
  split; [exact (iv_in _ _ Hi t _ Hc eq_refl)|]. split; [by left|]. set (B' := fun i => if i =? func tbl k then p :: B (func tbl k) else B i). exists B'.
  assert (Hcb : forall x, cell B' x -> x = p \/ cell B x).
  { intros x [Hx|(i & Hir & Hx)]; [by right; left|]. unfold B' in Hx. destruct (Z.eqb_spec i (func tbl k)) as [->|]; [|right; right; by exists i].
    apply elem_of_cons in Hx as [->|Hx]; [by left|right; right; by exists (func tbl k)]. }
  assert (E : put_heap h p hd k v b = <[hd := mk_hnode p (key b) (value b)]> h) by (unfold put_heap; by rewrite (insert_id h p)).
  split; simpl.
  - rewrite <- E. apply link_abs; [apply Hi|done|done|done|intros Hh; apply Hnc; by left|]. intros i x Hir Hx ->. apply Hnc. by apply (node_cell B i).
  - by rewrite Z.eqb_refl.
  - intros t' Hne. by rewrite (proj2 (Z.eqb_neq t t')) by congruence.
  - done.
  - intros t' d q Hne Hd Hq. destruct (owned_private _ _ _ _ _ _ (iv_pc _ _ Hi t' d Hd) Hq) as (_ & _ & Hqc). split.
    + apply lookup_insert_ne. intros <-. apply Hqc. by apply header_cell.
    + intros [->|Hx]%Hcb; [|done]. apply Hne. by apply (iv_own _ _ Hi t' t d _ p Hd Hc).
  - left. exact (iv_in _ _ Hi t _ Hc eq_refl).
Qed.

Lemma value_good B s t k p : inv_with B s -> pcs s !! t = Some (RemoveValue k p) -> step_good B s t (RemoveValue k p) (thread_step A tbl t (RemoveValue k p) (sh s)).
Proof.
  intros Hi Hc. destruct (iv_pc _ _ Hi t _ Hc) as (Hp & n & Hn & Ha). cbn [thread_step].
  rewrite (bind_ok _ _ _ _ _ (on_heap_ok _ _ _ _ (hload_ok _ _ _ Hn))). split; [done|]. split; [done|]. exists B. by apply (same_heap_ok B s t (RemoveValue k p)).
Qed.

Lemma free_good B s t k p v : inv_with B s -> pcs s !! t = Some (RemoveFree k p v) -> step_good B s t (RemoveFree k p v) (thread_step A tbl t (RemoveFree k p v) (sh s)).
Proof.
  intros Hi Hc. destruct (iv_pc _ _ Hi t _ Hc) as ((H0 & [n Hn] & Hnc) & Ha). cbn [thread_step].
  rewrite (bind_ok _ _ _ _ _ (on_heap_ok _ _ _ _ (hfree_ok _ _ _ Hn))). split; [done|]. split; [done|]. exists B.
  apply (own_heap_ok B s t (RemoveFree k p v) _ p); simpl; try done. intros x Hx. by apply lookup_delete_ne.
Qed.

(** Unlinking the node that was found: it now belongs to the thread. *)
Lemma hash_unlink_ok B s t k l1 x l2 nx na hp : let j := func tbl k in inv_with B s -> pcs s !! t = Some (Walk true k hp) -> in_range k ->
  B j = l1 ++ x :: l2 -> hp = chain_last (header tbl j) l1 -> vals (heap_ (sh s)) l1 k = [] -> heap_ (sh s) !! x = Some nx -> key nx = k -> heap_ (sh s) !! hp = Some na -> x <> 0 ->
  HTSpec.get (table_of (log (sh s))) k = Some (value nx) ->
  step_ok B (fun i => if i =? j then l1 ++ l2 else B i) s t (RemoveUnlock k x)
    (mk_shared (<[hp := mk_hnode (next nx) (key na) (value na)]> (heap_ (sh s))) (lock (sh s)) ((t, Remove k) :: log (sh s))).
Proof.
  intros j Hi Hc Hr Hl Hhp Hv Hx Hk Ha Hx0 Hres. set (h := heap_ (sh s)) in *. set (B' := fun i => if i =? j then l1 ++ l2 else B i). set (h1 := <[hp := _]> h).
  pose proof (iv_abs _ _ Hi) as Habs. fold h in Habs. pose proof Habs as [Hrep _]. pose proof (rep_header_nodup _ _ _ _ Hrep Hr) as Hnd. fold j in Hnd. rewrite Hl in Hnd.
  assert (Hxj : x ∈ B j) by (rewrite Hl; set_solver). destruct (rep_node _ _ _ Hrep j x Hr Hxj) as [Hxh _].
  assert (Hxhp : x <> hp). { intros E. rewrite app_comm_cons in Hnd. apply list.NoDup_app in Hnd as (_ & Hd & _). apply (Hd x); [rewrite E, Hhp; apply chain_last_in|set_solver]. }
  assert (Hcb : forall y, cell B' y -> cell B y /\ y <> x).
  { intros y [Hy|(i & Hir & Hy)]; [split; [by left|by intros ->]|]. unfold B' in Hy. destruct (Z.eqb_spec i j) as [->|Hij].
    - split; [apply (node_cell B j); [done|]; rewrite Hl; set_solver|]. apply list.NoDup_cons in Hnd as [_ Hnd]. intros ->. by destruct (NoDup_middle l1 l2 x Hnd).
    - split; [by apply (node_cell B i)|]. intros ->. apply Hij. by apply (rep_disjoint _ _ _ i j x Hrep). }
  assert (Hhpc : cell B hp). { pose proof (chain_last_in (header tbl j) l1) as Hin. rewrite <- Hhp in Hin. apply elem_of_cons in Hin as [->|Hin]; [by apply header_cell|].
    apply (node_cell B j); [done|]. rewrite Hl. set_solver. }
  split; simpl.
  - apply (table_abs_frame (delete x h1)).
    + unfold h1. rewrite Hhp. apply unlink_abs; try done. fold j. by rewrite <- Hhp.
    + intros y Hy. rewrite lookup_delete_ne; [done|]. intros ->. by destruct (Hcb y Hy).
  - split; [split; [done|]; split; [unfold h1; rewrite lookup_insert_ne by done; by rewrite Hx|by intros [_ []]%Hcb]|].
    exists nx. unfold h1. rewrite lookup_insert_ne, Z.eqb_refl, Hres by done. done.
  - intros t' Hne. by rewrite (proj2 (Z.eqb_neq t t')) by congruence.
  - intros p [= <-] t' d _ Hd Hq. destruct (owned_private _ _ _ _ _ _ (iv_pc _ _ Hi t' d Hd) Hq) as (_ & _ & Hqc). apply Hqc. by apply (node_cell B j).
  - intros t' d q Hne Hd Hq. destruct (owned_private _ _ _ _ _ _ (iv_pc _ _ Hi t' d Hd) Hq) as (_ & _ & Hqc). split; [|by intros [? _]%Hcb].
    unfold h1. apply lookup_insert_ne. by intros <-.
  - left. exact (iv_in _ _ Hi t _ Hc eq_refl).
Qed.

(** The walk: the prefix that has been passed does not hold the key. *)
Lemma walk_end_abs h B T o k : table_abs h tbl B T -> in_range k -> o = Get k \/ o = Remove k -> vals h (B (func tbl k)) k = [] ->
  table_abs h tbl B (effect o T) /\ result o T = (0, 0).
Proof.
  intros [Hr Ht] Hk Ho Hv. assert (E : T k = []) by (by rewrite Ht). destruct Ho as [->| ->]; simpl; unfold HTSpec.get; rewrite E; (split; [|done]); [done|].
  split; [done|]. intros k' Hk'. unfold HTSpec.remove. destruct (Z.eqb_spec k' k) as [->|]; [|by apply Ht]. by rewrite E, Hv.
Qed.

Lemma walk_good B s t rm k hp : inv_with B s -> pcs s !! t = Some (Walk rm k hp) -> step_good B s t (Walk rm k hp) (thread_step A tbl t (Walk rm k hp) (sh s)).
Proof.
  intros Hi Hc. destruct (iv_pc _ _ Hi t _ Hc) as (Hr & l1 & l2 & Hl & Hhp & Hv). cbn [thread_step]. unfold walk_step. set (h := heap_ (sh s)) in *. set (j := func tbl k) in *.
  pose proof (iv_abs _ _ Hi) as Habs. fold h in Habs. pose proof Habs as [Hrep Ht]. pose proof (rep_chain _ _ _ Hrep j Hr) as Hch. rewrite Hl in Hch. apply chain_app in Hch. rewrite <- Hhp in Hch.
  pose proof (iv_in _ _ Hi t _ Hc eq_refl) as Hlock. set (o := if rm then Remove k else Get k). assert (Ho : o = Get k \/ o = Remove k) by (unfold o; destruct rm; auto).
  destruct l2 as [|x l2].
  - destruct Hch as (n & Hn & Hz). rewrite (bind_ok _ _ _ _ _ (on_heap_ok _ _ _ _ (hload_ok _ _ _ Hn))), Hz, Z.eqb_refl. erewrite bind_ok by reflexivity.
    rewrite app_nil_r in Hl. destruct (walk_end_abs h B _ o k Habs Hr Ho ltac:(fold j; by rewrite Hl)) as [E1 E2].
    split; [done|]. split; [by left|]. exists B. by apply (note_ok B s t (Walk rm k hp)).
  - destruct Hch as ((n & Hn & Hz) & Hx0 & Hch). destruct (chain_head _ _ _ _ Hch) as [nx Hnx].
    rewrite (bind_ok _ _ _ _ _ (on_heap_ok _ _ _ _ (hload_ok _ _ _ Hn))), Hz. rewrite (proj2 (Z.eqb_neq x 0) Hx0).
    rewrite (bind_ok _ _ _ _ _ (on_heap_ok _ (with_heap h (sh s)) _ _ (hload_ok _ _ _ Hnx))). destruct (Z.eqb_spec (key nx) k) as [Hk|Hk].
    + erewrite bind_ok by reflexivity. assert (Hres : HTSpec.get (table_of (log (sh s))) k = Some (value nx)).
      { unfold HTSpec.get. rewrite Ht by done. fold j. rewrite Hl, vals_app, Hv. simpl. by rewrite Hnx, Hk, Z.eqb_refl. }
      destruct rm.
      * rewrite (bind_ok _ _ _ _ _ (on_heap_ok _ (mk_shared _ _ _) _ _ (hset_next_ok _ _ _ (next nx) Hn))).
        split; [done|]. split; [by left|]. exists (fun i => if i =? j then l1 ++ l2 else B i). by apply (hash_unlink_ok B s t k l1 x l2 nx n hp).
      * split; [done|]. split; [by left|]. exists B. apply (note_ok B s t (Walk false k hp)); [done|done|done|]. simpl. by rewrite Hres.
    + split; [done|]. split; [by left|]. exists B. apply (same_heap_ok B s t (Walk rm k hp)); try done. split; [done|]. exists (l1 ++ [x]), l2. fold j.
      rewrite <- app_assoc. split; [done|]. rewrite chain_last_snoc. split; [done|]. fold h. rewrite vals_app, Hv. simpl. by rewrite Hnx, (proj2 (Z.eqb_neq (key nx) k) Hk).
Qed.

Lemma thread_step_good B s t c : malloc_ok A -> inv_with B s -> pcs s !! t = Some c -> step_good B s t c (thread_step A tbl t c (sh s)).
Proof.
  intros HA Hi Hc. pose proof (iv_pc _ _ Hi t c Hc) as Hp. destruct c; cbn [thread_step].
  - by apply alloc_good.
  - by apply fill_good.
  - apply (lock_good B s t); try done.
  - by apply put_next_good.
  - by apply put_head_good.
  - apply (lock_good B s t); try done. split; [exact Hp|]. by exists [], (B (func tbl k)).
  - by apply walk_good.
  - by apply (unlock_good B s t).
  - by apply (unlock_good B s t).
  - by apply value_good.
  - by apply free_good.
  - left. by exists o, r.
Qed.

Lemma inv_reachable h0 B0 s : malloc_ok A -> table_abs h0 tbl B0 HTSpec.empty ->
  reachable A tbl (mk_state (mk_shared h0 None []) ∅) s -> exists B, inv_with B s.
Proof.
  intros HA H0. induction 1 as [|s s' _ [B Hi] Hs].
  - exists B0. by split.
  - destruct Hs as [s t o Ht Hk|s t c c' sh' Ht Hs].
    + exists B. assert (Hc : exists c, inside c = false /\ owned c = None /\ (pcs s !! t = Some c \/ pcs s !! t = None /\ inside c = false)).
      { destruct Ht as [Ht|(o' & r & Ht)]; [exists (Alloc 0 0); auto|exists (Done o' r); auto]. }
      destruct Hc as (c & Hin & Hown & Hc). apply (inv_step B B s t c); [done|done| | |].
      * rewrite Hin. by destruct o.
      * by destruct o.
      * split; try done; [apply Hi|by destruct o|by destruct o| |by right].
        intros t' d p _ Hd Hq. split; [done|]. by apply (owned_private _ _ _ _ _ _ (iv_pc _ _ Hi t' d Hd) Hq).
    + pose proof (thread_step_good B s t c HA Hi Ht) as G. rewrite Hs in G. destruct G as (G1 & G2 & B' & G3). exists B'.
      by apply (inv_step B B' s t c); [|left|..].
Qed.

(** (C38) The table is thread-safe.  However the steps of any number of threads
    interleave, the chains always represent the result of the operations that have
    taken effect so far, one after the other in the order of the log; a call that
    has returned has returned what its operation gives in that order; no step
    follows a bad pointer or frees a node twice, even those that are taken without
    the mutex; and a thread only waits when another one is between taking and
    releasing the mutex. *)
Theorem hashtable_thread_safe h0 B0 s : malloc_ok A -> table_abs h0 tbl B0 HTSpec.empty ->
  reachable A tbl (mk_state (mk_shared h0 None []) ∅) s ->
  (exists B, table_abs (heap_ (sh s)) tbl B (table_of (log (sh s)))) /\
  (forall t o r, pcs s !! t = Some (Done o r) -> answer t (log (sh s)) = Some (o, r)) /\
  (forall t c, pcs s !! t = Some c ->
     match thread_step A tbl t c (sh s) with
     | Ok _ => True
     | Blocks => (exists o r, c = Done o r) \/ exists t' d, t' <> t /\ lock (sh s) = Some t' /\ pcs s !! t' = Some d /\ inside d = true
     | _ => False
     end).
Proof.
  intros HA H0 Hr. destruct (inv_reachable h0 B0 s HA H0 Hr) as [B Hi]. split; [exists B; apply Hi|]. split.
  - intros t o r Ht. exact (iv_pc _ _ Hi t _ Ht).
  - intros t c Ht. pose proof (thread_step_good B s t c HA Hi Ht) as G. by destruct (thread_step A tbl t c (sh s)) as [[]| | | |].
Qed.
End invariant.

(** [hashtable_init] makes the table the threads start from, or reports that there
    is no memory for it. *)
Theorem user_hashtable_init A tbl (s : shared) : malloc_ok A -> 0 <= size tbl ->
  exists rv tbl' s', hashtable_init A tbl s = Ok ((rv, tbl'), s') /\ func tbl' = func tbl /\ size tbl' = size tbl /\
    (rv = -1 /\ heap_ s' = heap_ s \/ rv = 0 /\ lock s' = None /\ log s' = log s /\ table_abs (heap_ s') tbl' (fun _ => []) HTSpec.empty).
Proof.
  intros HA Hs. destruct (hashtable_init_empty A tbl (heap_ s) HA Hs) as (tbl' & h' & E1 & E2 & R). unfold hashtable_init.
  destruct (malloc A (heap_ s) (size tbl) =? 0).
  - rewrite (bind_ok _ _ _ _ _ (on_heap_ok _ _ _ _ R)). eexists _, _, _. split; [reflexivity|]. split; [done|]. split; [done|]. by left.
  - destruct R as (R & Hab & _). rewrite (bind_ok _ _ _ _ _ (on_heap_ok _ _ _ _ R)). eexists _, _, _. split; [reflexivity|]. split; [done|]. split; [done|]. by right.
Qed.

(** ** Two threads on a table of two empty buckets *)

(** A schedule: [inl t] lets thread [t] run a step, [inr (t, o)] lets it call. *)
Fixpoint exec (A : allocator) (tbl : hashtable_t) (l : list (Z + Z * hop)) (s : state) : option state :=
  match l with
  | [] => Some s
  | inl t :: l => match pcs s !! t with
                  | Some c => match thread_step A tbl t c (sh s) with Ok (c', sh') => exec A tbl l (mk_state sh' (<[t := c']> (pcs s))) | _ => None end
                  | None => None
                  end
  | inr (t, o) :: l =>
      if match pcs s !! t with None | Some (Done _ _) => true | _ => false end && (0 <=? func tbl (hop_key o)) && (func tbl (hop_key o) <? size tbl)
      then exec A tbl l (mk_state (sh s) (<[t := call o]> (pcs s))) else None
  end.

Lemma exec_reachable A tbl s0 l : forall s s', reachable A tbl s0 s -> exec A tbl l s = Some s' -> reachable A tbl s0 s'.
Proof.
  induction l as [|[t|[t o]] l IH]; intros s s' Hr E; cbn [exec] in E; [by simplify_eq| |].
  - destruct (pcs s !! t) as [c|] eqn:Ec; [|done]. destruct (thread_step A tbl t c (sh s)) as [[c' sh']| | | |] eqn:Es; try done.
    apply IH in E; [done|]. eapply reach_step; [exact Hr|]. by eapply step_run.
  - destruct (_ && _) eqn:Ec in E; [|done]. apply IH in E; [done|]. eapply reach_step; [exact Hr|]. apply step_call; [|lia].
    destruct (pcs s !! t) as [[]|]; try done; [right; eauto|by left].
Qed.

Definition demo_heap : heap := {[1200 := mk_hnode 0 7 7; 1212 := mk_hnode 0 7 7]}.
Definition demo_start : state := mk_state (mk_shared demo_heap None []) ∅.
(** Thread 1 puts 50 under 5; thread 2 removes it while thread 1 puts 51. *)
Definition demo_schedule : list (Z + Z * hop) :=
  [inr (1, Put 5 50); inr (2, Remove 5); inl 1; inl 1; inl 1; inl 1; inl 1; inl 1; inr (1, Put 5 51); inl 2; inl 1; inl 1; inl 2; inl 2; inl 1; inl 1; inl 1; inl 1; inl 2; inl 2].
Definition demo_end : state := match exec demo_alloc demo_table demo_schedule demo_start with Some s => s | None => demo_start end.

Lemma demo_empty : table_abs demo_heap demo_table (fun _ => []) HTSpec.empty.
Proof.
  split; [split|done]; [|intros; apply NoDup_nil_2|intros i x _ Hx; by apply elem_of_nil in Hx].
  intros i Hi. simpl in Hi. assert (i = 0 \/ i = 1) as [->| ->] by lia; by eexists.
Qed.

Lemma hashtable_thread_safe_witness :
  pcs demo_end !! 2 = Some (Done (Remove 5) (50, 1)) /\ answer 2 (log (sh demo_end)) = Some (Remove 5, (50, 1)) /\ HTSpec.get (table_of (log (sh demo_end))) 5 = Some 51.
Proof.
  assert (E : exec demo_alloc demo_table demo_schedule demo_start = Some demo_end) by (vm_compute; reflexivity).
  destruct (hashtable_thread_safe demo_alloc demo_table demo_heap (fun _ => []) demo_end demo_alloc_ok demo_empty
    (exec_reachable _ _ _ _ _ _ (reach_init _ _ _) E)) as (_ & K & _).
  assert (E2 : pcs demo_end !! 2 = Some (Done (Remove 5) (50, 1))) by (vm_compute; reflexivity).
  split; [exact E2|]. split; [exact (K 2 _ _ E2)|]. vm_compute. reflexivity.
Defined.
End UserHash.
