(* ===== verification/UserMutex.v ===== *)
(** * Spinlock and mutex of the user thread library (src/user/libthread/mutex.c, spinlock.h)

    Any number of threads run [mutex_lock], [mutex_unlock] and [mutex_destroy] on
    one mutex, one step per access to shared memory outside the inner spinlock and
    a few steps inside it.  The inner lock is the word that [asm_xchg] exchanges.
    A waiting thread is represented in the queue by its node, whose [reject] field
    is set by the thread that hands the mutex over.  The queue is the list that
    UserQueue.v refines; [malloc] answers with an unused address or NULL. *)

From S2P Require Import Prelude SimpleQueue.
From Stdlib Require Import ZArith Lia.
From stdpp Require Import base gmap list tactics numbers relations.

#[local] Open Scope Z_scope.

Module UserMutex.

(** ** spinlock.h *)
Definition MAX_SPIN_NUM : Z := 1000.

Inductive spin := Got | Again (i : Z).

(** One turn of the loop with counter [i]: the outcome and the new value of the
    lock.  At [MAX_SPIN_NUM] failures the thread yields and starts over. *)
Definition SPINLOCK_LOCK (i lock : Z) : spin * Z :=
  (if negb (lock =? 0) then Got else if i + 1 =? MAX_SPIN_NUM then Again 0 else Again (i + 1), 0).
Definition SPINLOCK_UNLOCK : Z := 1.
Definition SPINLOCK_INIT : Z := 1.

(** ** The mutex *)
Record mutex_t := mk_mutex { lock_available : Z; inner_lock : Z; deque : list Z }.
(** The fields of a node that are not links. *)
Record waiter := mk_waiter { ktid : Z; reject : Z }.

(** [mutex_init], when [queue_init] returns [is_error]. *)
Definition mutex_init (is_error : Z) : Z * mutex_t := (if negb (is_error =? 0) then -1 else 0, mk_mutex 1 SPINLOCK_INIT []).

(** Where a thread is: outside; in [mutex_lock] ([L]), [mutex_unlock] ([U]) or
    [mutex_destroy] ([D]); holding the mutex ([In]); in [panic]. *)
Inductive pc :=
| Out | In | Dead
| LSpin (i : Z) | LBody | LMalloc | LEnq (tmp : Z) | LUnlock (tmp : Z) | LWait (tmp : Z) | LFree (tmp : Z)
| USpin (i : Z) | UBody | UAgain | UUnlock (tmp_ktid : option Z) | UYield (tmp_ktid : Z)
| DSpin (loop : nat) (i : Z) | DBody (loop : nat) | DAgain (loop : nat) | DUnlock.

Record state := mk_state { mx : mutex_t; nodes : gmap Z waiter; pcs : Z -> pc }.
Definition set_available v (m : mutex_t) := mk_mutex v (inner_lock m) (deque m).
Definition set_inner v (m : mutex_t) := mk_mutex (lock_available m) v (deque m).
Definition set_deque q (m : mutex_t) := mk_mutex (lock_available m) (inner_lock m) q.

(** Thread [t] goes to [p]. *)
Definition goto (t : Z) (p : pc) (m : mutex_t) (n : gmap Z waiter) (s : state) : option state := Some (mk_state m n (fupd (pcs s) t p)).

(** The steps of [mutex_lock]; [a] is what malloc answers.  [LUnlock 0] has got
    the mutex; [LWait] is the loop on [reject], which yields at each turn. *)
Definition lock_step (a t : Z) (s : state) : option state :=
  let m := mx s in
  match pcs s t with
  | LSpin i => let (r, l) := SPINLOCK_LOCK i (inner_lock m) in
      goto t (match r with Got => LBody | Again i => LSpin i end) (set_inner l m) (nodes s) s
  | LBody =>
      if lock_available m <? 0 then goto t Dead m (nodes s) s
      else if negb (lock_available m =? 0) then goto t (LUnlock 0) (set_available 0 m) (nodes s) s
      else goto t LMalloc m (nodes s) s
  | LMalloc =>
      if a =? 0 then goto t LMalloc m (nodes s) s
      else goto t (LEnq a) m (<[a := mk_waiter t 0]> (nodes s)) s
  | LEnq tmp => goto t (LUnlock tmp) (set_deque (QSpec.enqueue (deque m) tmp) m) (nodes s) s
  | LUnlock tmp => goto t (if tmp =? 0 then In else LWait tmp) (set_inner SPINLOCK_UNLOCK m) (nodes s) s
  | LWait tmp =>
      match nodes s !! tmp with
      | Some w => if negb (reject w =? 0) then goto t (LFree tmp) m (nodes s) s else goto t (LWait tmp) m (nodes s) s
      | None => None
      end
  | LFree tmp =>
      match nodes s !! tmp with Some _ => goto t In m (delete tmp (nodes s)) s | None => None end
  | _ => None
  end.

(** The steps of [mutex_unlock]. *)
Definition unlock_step (t : Z) (s : state) : option state :=
  let m := mx s in
  match pcs s t with
  | USpin i => let (r, l) := SPINLOCK_LOCK i (inner_lock m) in
      goto t (match r with Got => UBody | Again i => USpin i end) (set_inner l m) (nodes s) s
  | UBody =>
      if lock_available m <? 0 then goto t Dead m (nodes s) s
      else if lock_available m =? 1 then goto t UAgain m (nodes s) s
      else match QSpec.dequeue (deque m) with
           | None => goto t (UUnlock None) (set_available 1 m) (nodes s) s
           | Some (tmp, q) =>
               match nodes s !! tmp with
               | Some w => goto t (UUnlock (Some (ktid w))) (set_deque q m) (<[tmp := mk_waiter (ktid w) 1]> (nodes s)) s
               | None => None
               end
           end
  | UAgain => goto t (USpin 0) (set_inner SPINLOCK_UNLOCK m) (nodes s) s
  | UUnlock o => goto t (match o with None => Out | Some k => UYield k end) (set_inner SPINLOCK_UNLOCK m) (nodes s) s
  | UYield _ => goto t Out m (nodes s) s
  | _ => None
  end.

(** The steps of [mutex_destroy]: [loop] 0 is the first check, 1 and 2 are its
    two loops. *)
Definition destroy_step (t : Z) (s : state) : option state :=
  let m := mx s in
  match pcs s t with
  | DSpin k i => let (r, l) := SPINLOCK_LOCK i (inner_lock m) in
      goto t (match r with Got => DBody k | Again i => DSpin k i end) (set_inner l m) (nodes s) s
  | DBody O => goto t (if lock_available m <? 0 then Dead else DBody 1) m (nodes s) s
  | DBody 1%nat => goto t (if negb (lock_available m =? 1) then DAgain 1 else DBody 2) m (nodes s) s
  | DBody k =>
      if bool_decide (deque m = []) then goto t DUnlock (set_available (-1) m) (nodes s) s
      else goto t (DAgain k) m (nodes s) s
  | DAgain k => goto t (DSpin k 0) (set_inner SPINLOCK_UNLOCK m) (nodes s) s
  | DUnlock => goto t Out (set_inner SPINLOCK_UNLOCK m) (nodes s) s
  | _ => None
  end.

(** A thread outside may lock or destroy, one that holds the mutex may unlock. *)
Definition start (p : pc) (q : pc) : bool :=
  match p, q with Out, LSpin 0 => true | Out, DSpin 0 0 => true | In, USpin 0 => true | _, _ => false end.

Inductive step (s : state) : state -> Prop :=
| s_start t p : start (pcs s t) p = true -> step s (mk_state (mx s) (nodes s) (fupd (pcs s) t p))
| s_lock t a s' : (a = 0 \/ nodes s !! a = None) -> lock_step a t s = Some s' -> step s s'
| s_unlock t s' : unlock_step t s = Some s' -> step s s'
| s_destroy t s' : destroy_step t s = Some s' -> step s s'.

Definition initial : state := mk_state (snd (mutex_init 0)) ∅ (fun _ => Out).
Definition reachable (s : state) : Prop := rtc step initial s.

(** ** Who holds what *)

(** The thread holds the inner lock; a panic inside the locked part keeps it. *)
Definition spins (p : pc) : bool :=
  match p with
  | LBody | LMalloc | LEnq _ | LUnlock _ | UBody | UAgain | UUnlock _ | DBody _ | DAgain _ | DUnlock | Dead => true
  | _ => false
  end.
Definition granted (n : gmap Z waiter) (p : Z) : bool := match n !! p with Some w => negb (reject w =? 0) | None => false end.
(** The thread holds the mutex, or has been given it. *)
Definition owns (s : state) (t : Z) : bool :=
  match pcs s t with
  | In | USpin _ | UBody | UAgain | LFree _ => true
  | LUnlock p => (p =? 0) || granted (nodes s) p
  | LWait p => granted (nodes s) p
  | _ => false
  end.
Definition node_of (p : pc) : option Z :=
  match p with
  | LEnq tmp | LWait tmp | LFree tmp => Some tmp
  | LUnlock tmp => if tmp =? 0 then None else Some tmp
  | _ => None
  end.
(** What is known of a thread's node. *)
Definition node_ok (p : pc) (r : Z) (queued : Prop) : Prop :=
  match p with
  | LEnq _ => r = 0 /\ ~ queued
  | LFree _ => r = 1 /\ ~ queued
  | _ => (r = 0 /\ queued) \/ (r = 1 /\ ~ queued)
  end.
Definition queues (p : pc) (tmp : Z) : Prop := p = LUnlock tmp \/ p = LWait tmp.

(** What a thread knows of [lock_available] inside the inner lock. *)
Definition local_ok (p : pc) (available : Z) : Prop :=
  match p with
  | LMalloc | LEnq _ => available = 0
  | DBody k => (2 <= k)%nat -> available = 1
  | DSpin k _ | DAgain k => (k < 2)%nat
  | _ => True
  end.

(** [h] has the inner lock and [o] the mutex. *)
Record inv (s : state) (h o : option Z) : Prop := {
  i_lock : inner_lock (mx s) = match h with Some _ => 0 | None => 1 end;
  i_spin : forall t, spins (pcs s t) = bool_decide (h = Some t);
  i_own : forall t, owns s t = bool_decide (o = Some t);
  i_av : match o with Some _ => lock_available (mx s) = 0 | None => (lock_available (mx s) = 1 \/ lock_available (mx s) = -1) /\ deque (mx s) = [] end;
  i_nodup : NoDup (deque (mx s));
  i_queue : forall p, p ∈ deque (mx s) -> p <> 0 /\ exists t, queues (pcs s t) p /\ nodes s !! p = Some (mk_waiter t 0);
  i_node : forall t p, node_of (pcs s t) = Some p -> p <> 0 /\ exists r, nodes s !! p = Some (mk_waiter t r) /\ node_ok (pcs s t) r (p ∈ deque (mx s));
  i_local : forall t, local_ok (pcs s t) (lock_available (mx s))
}.

(** ** The invariant is kept *)

Lemma um_inv_initial : inv initial None None.
Proof. split; try done; simpl; [by split; [left|]|constructor|set_solver]. Qed.

Lemma set_inner_id m : set_inner (inner_lock m) m = m.
Proof. by destruct m. Qed.

Lemma other_spin s h o t u : inv s h o -> spins (pcs s t) = true -> spins (pcs s u) = true -> u = t.
Proof. intros H. rewrite !(i_spin _ _ _ H), !bool_decide_eq_true. congruence. Qed.

(** Moving without touching the queue, the nodes or the mutex. *)
Lemma um_move_inv s h o t p h' : inv s h o -> (forall u, u <> t -> (h' = Some u <-> h = Some u)) -> spins p = bool_decide (h' = Some t) ->
  (forall n m, owns (mk_state m (nodes s) (fupd n t p)) t = owns s t) ->
  (forall tmp, queues (pcs s t) tmp -> tmp ∈ deque (mx s) -> queues p tmp) ->
  (forall tmp, node_of p = Some tmp -> node_of (pcs s t) = Some tmp /\
     forall r, nodes s !! tmp = Some (mk_waiter t r) -> node_ok (pcs s t) r (tmp ∈ deque (mx s)) -> node_ok p r (tmp ∈ deque (mx s))) ->
  local_ok p (lock_available (mx s)) ->
  inv (mk_state (set_inner (match h' with Some _ => 0 | None => 1 end) (mx s)) (nodes s) (fupd (pcs s) t p)) h' o.
Proof.
  intros [Hl Hs Ho Ha Hn Hq Hd Hloc] Hh Hp Hw Hqs Hnd Hp2. split; simpl; try done.
  - intros u. fupd_cases t u; [done|]. rewrite Hs. apply bool_decide_ext. symmetry. by apply Hh.
  - intros u. destruct (Z.eq_dec u t) as [->|Hu]; [rewrite Hw; apply Ho|]. rewrite <- Ho. unfold owns. simpl. by rewrite fupd_ne.
  - intros tmp Hin. destruct (Hq tmp Hin) as (? & u & Hu & ?). split; [done|]. exists u. split; [|done]. fupd_cases t u; [by apply Hqs|done].
  - intros u tmp. fupd_cases t u; [|apply Hd]. intros E. destruct (Hnd tmp E) as [E' Hok]. destruct (Hd t tmp E') as (? & r & ? & ?). split; [done|]. exists r. split; [done|]. by apply Hok.
  - intros u. fupd_cases t u; [done|apply Hloc].
Qed.

(** Moving with the inner lock as it is. *)
Lemma stay_inv s h o t p : inv s h o -> spins p = spins (pcs s t) ->
  (forall n m, owns (mk_state m (nodes s) (fupd n t p)) t = owns s t) ->
  (forall tmp, queues (pcs s t) tmp -> tmp ∈ deque (mx s) -> queues p tmp) ->
  (forall tmp, node_of p = Some tmp -> node_of (pcs s t) = Some tmp /\
     forall r, nodes s !! tmp = Some (mk_waiter t r) -> node_ok (pcs s t) r (tmp ∈ deque (mx s)) -> node_ok p r (tmp ∈ deque (mx s))) ->
  local_ok p (lock_available (mx s)) ->
  inv (mk_state (mx s) (nodes s) (fupd (pcs s) t p)) h o.
Proof.
  intros H Hp Hw Hqs Hnd Hloc. pose proof (um_move_inv s h o t p h H ltac:(done) ltac:(rewrite Hp; apply (i_spin _ _ _ H)) Hw Hqs Hnd Hloc) as K.
  rewrite <- (i_lock _ _ _ H), set_inner_id in K. done.
Qed.

(** Both outcomes of a turn on the inner lock. *)
Lemma spin_inv s h o t i r l got wait : inv s h o -> SPINLOCK_LOCK i (inner_lock (mx s)) = (r, l) -> spins (pcs s t) = false ->
  node_of (pcs s t) = None -> (forall tmp, ~ queues (pcs s t) tmp) ->
  spins got = true -> (forall i, spins (wait i) = false) -> node_of got = None -> (forall i, node_of (wait i) = None) ->
  (forall n m, owns (mk_state m (nodes s) (fupd n t got)) t = owns s t) -> (forall i n m, owns (mk_state m (nodes s) (fupd n t (wait i))) t = owns s t) ->
  local_ok got (lock_available (mx s)) -> (forall i, local_ok (wait i) (lock_available (mx s))) ->
  exists h', inv (mk_state (set_inner l (mx s)) (nodes s) (fupd (pcs s) t (match r with Got => got | Again i => wait i end))) h' o.
Proof.
  intros H E Hs Hn Hq Hg Hw Hgn Hwn Hgo Hwo Hgl Hwl. unfold SPINLOCK_LOCK in E. injection E as <- <-. rewrite (i_lock _ _ _ H). destruct h as [u|]; simpl.
  - assert (Hut : u <> t) by (intros ->; pose proof (i_spin _ _ _ H t) as K; rewrite Hs, bool_decide_eq_true_2 in K by done; done).
    exists (Some u). apply (um_move_inv s (Some u) o t _ (Some u) H); [done| | | | |]; destruct (_ =? MAX_SPIN_NUM); rewrite ?Hw, ?bool_decide_eq_false_2 by congruence; try done;
      try apply Hwo; try (intros tmp Hx; by destruct (Hq tmp)); intros tmp; by rewrite Hwn.
  - exists (Some t). apply (um_move_inv s None o t got (Some t) H); [intros u Hu; split; congruence|by rewrite bool_decide_eq_true_2|done|intros tmp Hx; by destruct (Hq tmp)| |done].
    intros tmp. by rewrite Hgn.
Qed.

(** Releasing the inner lock. *)
Lemma unspin_inv s h o t p : inv s h o -> spins (pcs s t) = true -> spins p = false ->
  (forall n m, owns (mk_state m (nodes s) (fupd n t p)) t = owns s t) ->
  (forall tmp, queues (pcs s t) tmp -> tmp ∈ deque (mx s) -> queues p tmp) ->
  (forall tmp, node_of p = Some tmp -> node_of (pcs s t) = Some tmp /\
     forall r, nodes s !! tmp = Some (mk_waiter t r) -> node_ok (pcs s t) r (tmp ∈ deque (mx s)) -> node_ok p r (tmp ∈ deque (mx s))) ->
  local_ok p (lock_available (mx s)) ->
  inv (mk_state (set_inner SPINLOCK_UNLOCK (mx s)) (nodes s) (fupd (pcs s) t p)) None o.
Proof.
  intros H Hs Hp Hw Hqs Hnd Hloc. pose proof (i_spin _ _ _ H t) as K. rewrite Hs in K. symmetry in K. apply bool_decide_eq_true in K as ->.
  apply (um_move_inv s (Some t) o t p None H); [intros u Hu; split; congruence|by rewrite bool_decide_eq_false_2|done..].
Qed.

Lemma local_other s h o t u v : inv s h o -> spins (pcs s t) = true -> u <> t -> local_ok (pcs s u) v.
Proof.
  intros H Ht Hu. pose proof (i_local _ _ _ H u) as K. pose proof (other_spin s h o t u H Ht) as E.
  destruct (pcs s u); simpl in *; try done; by destruct (Hu (E eq_refl)).
Qed.

(** A node is one thread's. *)
Lemma um_node_owner s h o t u p : inv s h o -> node_of (pcs s t) = Some p -> node_of (pcs s u) = Some p -> u = t.
Proof. intros H H1 H2. destruct (i_node _ _ _ H t p H1) as (_ & r & E1 & _), (i_node _ _ _ H u p H2) as (_ & r' & E2 & _). congruence. Qed.

(** Whether another thread owns the mutex depends on its own node only. *)
Lemma owns_other s h o u n' m f : inv s h o -> f u = pcs s u -> (forall p, node_of (pcs s u) = Some p -> granted n' p = granted (nodes s) p) ->
  owns (mk_state m n' f) u = owns s u.
Proof.
  intros H Hf Hn. unfold owns. simpl. rewrite Hf. destruct (pcs s u) eqn:E; try done; simpl in Hn.
  - destruct (tmp =? 0); [done|]. simpl. by apply Hn.
  - by apply Hn.
Qed.

(** The five changes of the mutex: taken, queued for, released, handed over, destroyed. *)
Lemma um_take_inv s h t : inv s h None -> pcs s t = LBody ->
  inv (mk_state (set_available 0 (mx s)) (nodes s) (fupd (pcs s) t (LUnlock 0))) h (Some t).
Proof.
  intros H Hp. pose proof H as [Hl Hs Ho [_ Hd0] Hn Hq Hd Hloc]. split; simpl; try done.
  - intros u. fupd_cases t u; [|apply Hs]. rewrite <- Hs. by rewrite Hp.
  - intros u. destruct (Z.eq_dec u t) as [->|Hu]; [unfold owns; simpl; rewrite fupd_eq; simpl; by rewrite bool_decide_eq_true_2|].
    rewrite (owns_other s h None u _ _ _ H (fupd_ne _ _ _ _ Hu)), Ho by done. rewrite !bool_decide_eq_false_2; [done|congruence|done].
  - intros p Hin. rewrite Hd0 in Hin. by apply elem_of_nil in Hin.
  - intros u p. fupd_cases t u; [done|apply Hd].
  - intros u. fupd_cases t u; [done|]. apply (local_other s h None t u); [done|by rewrite Hp|done].
Qed.

Lemma um_alloc_inv s h o t a : inv s h o -> pcs s t = LMalloc -> a <> 0 -> nodes s !! a = None ->
  inv (mk_state (mx s) (<[a := mk_waiter t 0]> (nodes s)) (fupd (pcs s) t (LEnq a))) h o.
Proof.
  intros H Hp Ha Hf. pose proof H as [Hl Hs Ho Hav Hn Hq Hd Hloc].
  assert (Hne : forall u p, node_of (pcs s u) = Some p -> p <> a) by (intros u p E ->; destruct (Hd u a E) as (_ & r & E' & _); congruence).
  assert (Hna : a ∉ deque (mx s)) by (intros Hin; destruct (Hq a Hin) as (_ & u & _ & E); congruence).
  split; simpl; try done.
  - intros u. fupd_cases t u; [|apply Hs]. rewrite <- Hs. by rewrite Hp.
  - intros u. destruct (Z.eq_dec u t) as [->|Hu]; [rewrite <- Ho; unfold owns; simpl; by rewrite fupd_eq, Hp|].
    rewrite (owns_other s h o u _ _ _ H (fupd_ne _ _ _ _ Hu)); [apply Ho|]. intros p E. unfold granted. by rewrite lookup_insert_ne by (by apply not_eq_sym, (Hne u)).
  - intros p Hin. destruct (Hq p Hin) as (? & u & Hu & E). split; [done|]. exists u. rewrite lookup_insert_ne by (intros ->; done). split; [|done].
    fupd_cases t u; [|done]. unfold queues in Hu. rewrite Hp in Hu. destruct Hu; done.
  - intros u p. fupd_cases t u.
    + intros [= <-]. split; [done|]. exists 0. by rewrite lookup_insert_eq.
    + intros E. destruct (Hd u p E) as (? & r & ? & ?). split; [done|]. exists r. by rewrite lookup_insert_ne by (by apply not_eq_sym, (Hne u)).
  - intros u. fupd_cases t u; [|apply Hloc]. pose proof (Hloc t) as K. by rewrite Hp in K.
Qed.

Lemma um_enq_inv s h o t p : inv s h o -> pcs s t = LEnq p ->
  inv (mk_state (set_deque (deque (mx s) ++ [p]) (mx s)) (nodes s) (fupd (pcs s) t (LUnlock p))) h o.
Proof.
  intros H Hp. pose proof H as [Hl Hs Ho Hav Hn Hq Hd Hloc]. destruct (Hd t p) as (Hp0 & r & Er & Hok); [by rewrite Hp|]. rewrite Hp in Hok. destruct Hok as [-> Hnq].
  assert (Hne : forall u q, u <> t -> node_of (pcs s u) = Some q -> q <> p).
  { intros u q Hu E ->. apply Hu. apply (um_node_owner s h o t u p H); [by rewrite Hp|done]. }
  split; simpl; try done.
  - intros u. fupd_cases t u; [|apply Hs]. rewrite <- Hs. by rewrite Hp.
  - intros u. destruct (Z.eq_dec u t) as [->|Hu]; [|rewrite (owns_other s h o u _ _ _ H (fupd_ne _ _ _ _ Hu)); [apply Ho|done]].
    rewrite <- Ho. unfold owns, granted. simpl. rewrite fupd_eq, Hp, Er. simpl. by rewrite (proj2 (Z.eqb_neq p 0) Hp0).
  - destruct o; [done|]. destruct Hav as [Hav _]. pose proof (Hloc t) as K. rewrite Hp in K. simpl in K. lia.
  - apply list.NoDup_app. split; [done|]. split; [|apply NoDup_singleton]. intros q Hin ->%list_elem_of_singleton. done.
  - intros q [Hin| ->%list_elem_of_singleton]%elem_of_app; [|split; [done|]; exists t; rewrite fupd_eq; split; [by left|done]].
    destruct (Hq q Hin) as (? & u & Hu & E). split; [done|]. exists u. split; [|done]. fupd_cases t u; [|done]. unfold queues in Hu. rewrite Hp in Hu. destruct Hu; done.
  - intros u q. fupd_cases t u.
    + simpl. rewrite (proj2 (Z.eqb_neq p 0) Hp0). intros [= <-]. split; [done|]. exists 0. split; [done|]. left. split; [done|set_solver].
    + intros E. destruct (Hd u q E) as (? & r & ? & Hok). split; [done|]. exists r. split; [done|]. pose proof (Hne u q n E) as Hqp.
      assert (Hiff : q ∈ deque (mx s) ++ [p] <-> q ∈ deque (mx s)) by set_solver.
      destruct (pcs s u); simpl in *; rewrite Hiff; done.
  - intros u. fupd_cases t u; [done|apply Hloc].
Qed.

Lemma drop_inv s h t v p : inv s h (Some t) \/ inv s h None -> pcs s t = UBody \/ (exists k, pcs s t = DBody k) -> deque (mx s) = [] -> v = 1 \/ v = -1 ->
  (p = UUnlock None \/ p = DUnlock) -> inv (mk_state (set_available v (mx s)) (nodes s) (fupd (pcs s) t p)) h None.
Proof.
  intros H Hp Hd0 Hv Hpp. assert (exists o, inv s h o /\ forall u, u <> t -> o <> Some u) as (o & H' & Hou).
  { destruct H as [H|H]; eexists; (split; [exact H|]); intros u Hu; congruence. }
  pose proof H' as [Hl Hs Ho Hav Hn Hq Hd Hloc]. assert (Hst : spins (pcs s t) = true) by (destruct Hp as [-> |[k ->]]; done).
  split; simpl; try done.
  - intros u. fupd_cases t u; [|apply Hs]. rewrite <- Hs, Hst. by destruct Hpp as [-> | ->].
  - intros u. enough (Eu : owns (mk_state (set_available v (mx s)) (nodes s) (fupd (pcs s) t p)) u = false) by (by rewrite Eu). destruct (Z.eq_dec u t) as [->|Hu].
    + unfold owns. simpl. rewrite fupd_eq. by destruct Hpp as [-> | ->].
    + rewrite (owns_other s h o u _ _ _ H' (fupd_ne _ _ _ _ Hu)), Ho by done. apply bool_decide_eq_false_2. by apply Hou.
  - intros q Hin. rewrite Hd0 in Hin. by apply elem_of_nil in Hin.
  - intros u q. fupd_cases t u; [destruct Hpp as [-> | ->]; done|apply Hd].
  - intros u. fupd_cases t u; [by destruct Hpp as [-> | ->]|]. by apply (local_other s h o t u).
Qed.

Lemma um_hand_inv s h o t p q w : inv s h o -> pcs s t = UBody -> deque (mx s) = p :: q -> nodes s !! p = Some w ->
  exists u, queues (pcs s u) p /\
    inv (mk_state (set_deque q (mx s)) (<[p := mk_waiter (ktid w) 1]> (nodes s)) (fupd (pcs s) t (UUnlock (Some (ktid w))))) h (Some u).
Proof.
  intros H Hp Hdq Hw. pose proof H as [Hl Hs Ho Hav Hn Hq Hd Hloc]. destruct (Hq p) as (Hp0 & u & Hu & E); [rewrite Hdq; set_solver|].
  rewrite Hw in E. injection E as ->. exists u. split; [done|]. simpl. rewrite Hdq in Hn. apply list.NoDup_cons in Hn as [Hpq Hn].
  assert (Hou : o = Some t) by (apply (bool_decide_eq_true (o = Some t)); rewrite <- Ho; unfold owns; by rewrite Hp). subst o.
  assert (Hut : u <> t) by (intros ->; unfold queues in Hu; rewrite Hp in Hu; destruct Hu; done).
  assert (Hnu : node_of (pcs s u) = Some p) by (destruct Hu as [-> | ->]; simpl; [by rewrite (proj2 (Z.eqb_neq p 0) Hp0)|done]).
  assert (Hne : forall v x, v <> u -> node_of (pcs s v) = Some x -> x <> p) by (intros v x Hv Ex ->; apply Hv; by apply (um_node_owner s h (Some t) u v p H)).
  split; simpl; try done.
  - intros v. fupd_cases t v; [|apply Hs]. rewrite <- Hs. by rewrite Hp.
  - intros v. destruct (Z.eq_dec v t) as [->|Hv].
    { unfold owns. simpl. rewrite fupd_eq. symmetry. apply bool_decide_eq_false_2. congruence. }
    destruct (Z.eq_dec v u) as [->|Hvu].
    + rewrite bool_decide_eq_true_2 by done. unfold owns, granted. simpl. rewrite fupd_ne by done. destruct Hu as [-> | ->]; rewrite lookup_insert_eq; simpl; [apply orb_true_r|done].
    + rewrite (owns_other s h (Some t) v _ _ _ H (fupd_ne _ _ _ _ Hv)).
      * rewrite Ho, !bool_decide_eq_false_2 by congruence. done.
      * intros x Ex. unfold granted. by rewrite lookup_insert_ne by (by apply not_eq_sym, (Hne v)).
  - intros x Hin. destruct (Hq x) as (? & v & Hv & Ex); [rewrite Hdq; set_solver|]. split; [done|]. exists v.
    rewrite lookup_insert_ne by (intros ->; done). split; [|done]. fupd_cases t v; [|done]. unfold queues in Hv. rewrite Hp in Hv. destruct Hv; done.
  - intros v x. fupd_cases t v; [done|]. intros Ex. destruct (Hd v x Ex) as (? & r & Er & Hok). split; [done|]. destruct (Z.eq_dec v u) as [->|Hvu].
    + assert (x = p) as -> by congruence. exists 1. rewrite lookup_insert_eq. split; [done|]. destruct Hu as [-> | ->]; right; done.
    + pose proof (Hne v x Hvu Ex) as Hxp. exists r. rewrite lookup_insert_ne by done. split; [done|]. rewrite Hdq in Hok.
      assert (Hiff : x ∈ p :: q <-> x ∈ q) by set_solver. destruct (pcs s v); simpl in *; rewrite Hiff in Hok; done.
  - intros v. fupd_cases t v; [done|apply Hloc].
Qed.

Lemma um_free_inv s h o t p w : inv s h o -> pcs s t = LFree p -> nodes s !! p = Some w ->
  inv (mk_state (mx s) (delete p (nodes s)) (fupd (pcs s) t In)) h o.
Proof.
  intros H Hp Hw. pose proof H as [Hl Hs Ho Hav Hn Hq Hd Hloc]. destruct (Hd t p) as (Hp0 & r & Er & Hok); [by rewrite Hp|]. rewrite Hp in Hok. destruct Hok as [Hr1 Hnq].
  assert (Hne : forall v x, v <> t -> node_of (pcs s v) = Some x -> x <> p).
  { intros v x Hv Ex ->. apply Hv. apply (um_node_owner s h o t v p H); [by rewrite Hp|done]. }
  split; simpl; try done.
  - intros v. fupd_cases t v; [|apply Hs]. rewrite <- Hs. by rewrite Hp.
  - intros v. destruct (Z.eq_dec v t) as [->|Hv]; [rewrite <- Ho; unfold owns; simpl; by rewrite fupd_eq, Hp|].
    rewrite (owns_other s h o v _ _ _ H (fupd_ne _ _ _ _ Hv)); [apply Ho|]. intros x Ex. unfold granted. by rewrite lookup_delete_ne by (by apply not_eq_sym, (Hne v)).
  - intros x Hin. destruct (Hq x Hin) as (? & v & Hv & Ex). split; [done|]. exists v. rewrite lookup_delete_ne by (intros ->; done). split; [|done].
    fupd_cases t v; [|done]. unfold queues in Hv. rewrite Hp in Hv. destruct Hv; done.
  - intros v x. fupd_cases t v; [done|]. intros Ex. destruct (Hd v x Ex) as (? & r' & ? & ?). split; [done|]. exists r'. by rewrite lookup_delete_ne by (by apply not_eq_sym, (Hne v)).
  - intros v. fupd_cases t v; [done|apply Hloc].
Qed.

(** What a step does to the queue and to the owner [o]. *)
Definition effect (q q' : list Z) (o o' : option Z) : Prop :=
  (o' = o /\ (q' = q \/ exists x, q' = q ++ [x])) \/ (q = [] /\ q' = []) \/ exists x, q = x :: q'.
Definition kept (s : state) (o : option Z) (s' : state) : Prop := exists h' o', inv s' h' o' /\ effect (deque (mx s)) (deque (mx s')) o o'.

Lemma kept_same s h o s' : inv s' h o -> deque (mx s') = deque (mx s) -> kept s o s'.
Proof. intros H E. exists h, o. split; [done|]. left. split; [done|by left]. Qed.

(** The side conditions of the moves between places without a node. *)
Ltac plain Hp :=
  rewrite ?Hp; try done;
  match goal with
  | |- forall n m, owns _ _ = owns _ _ => intros ? ?; unfold owns; simpl; by rewrite fupd_eq, Hp
  | |- forall tmp, queues _ tmp -> _ => intros tmp [K|K]; done
  | |- forall tmp, node_of _ = Some tmp -> _ => intros tmp K; done
  | |- _ => idtac
  end.

Lemma start_kept s h o t p : inv s h o -> start (pcs s t) p = true -> kept s o (mk_state (mx s) (nodes s) (fupd (pcs s) t p)).
Proof.
  intros H E. apply (kept_same s h); [|done].
  destruct (pcs s t) eqn:Hp; try done; destruct p as [| | |[]| | | | | | |[]| | | | |[] []| | |]; try done;
    apply stay_inv; [exact H|plain Hp..| | |]; plain Hp; simpl; lia.
Qed.

Lemma lock_kept s h o a t s' : inv s h o -> (a = 0 \/ nodes s !! a = None) -> lock_step a t s = Some s' -> kept s o s'.
Proof.
  intros H Ha. unfold lock_step, goto. destruct (pcs s t) as [| | |i| | |tmp|tmp|tmp|tmp| | | | | | | | |] eqn:Hp; try done.
  - destruct (SPINLOCK_LOCK i (inner_lock (mx s))) as [r l] eqn:E. intros [= <-].
    destruct (spin_inv s h o t i r l LBody LSpin H E) as [h' K]; rewrite ?Hp; try done;
      try (intros; unfold owns; simpl; by rewrite fupd_eq, Hp); [intros tmp [K|K]; done|]. by apply (kept_same s h').
  - destruct (Z.ltb_spec (lock_available (mx s)) 0); [intros [= <-]; apply (kept_same s h); [|done]; apply stay_inv; plain Hp|].
    destruct (Z.eqb_spec (lock_available (mx s)) 0) as [E|E]; simpl; intros [= <-].
    + apply (kept_same s h); [|done]. apply stay_inv; plain Hp.
    + destruct o as [u|]; [by pose proof (i_av _ _ _ H)|]. destruct (i_av _ _ _ H) as [_ Hq].
      exists h, (Some t). split; [by apply um_take_inv|]. right. left. by split.
  - destruct (Z.eqb_spec a 0) as [E|E]; intros [= <-]; (apply (kept_same s h); [|done]).
    + apply stay_inv; plain Hp. pose proof (i_local _ _ _ H t) as K. by rewrite Hp in K.
    + apply um_alloc_inv; [done|done|done|]. by destruct Ha.
  - intros [= <-]. exists h, o. split; [by apply um_enq_inv|]. left. split; [done|]. right. by exists tmp.
  - intros [= <-]. destruct (Z.eqb_spec tmp 0) as [->|E]; (apply (kept_same s None); [|done]).
    + apply (unspin_inv s h); plain Hp. intros x [K|K] Hin; [|done]. injection K as <-. by destruct (i_queue _ _ _ H 0 Hin).
    + apply (unspin_inv s h); rewrite ?Hp; try done.
      * intros n m. unfold owns. simpl. rewrite fupd_eq, Hp. by rewrite (proj2 (Z.eqb_neq _ _) E).
      * intros x [K|K] _; [|done]. injection K as <-. by right.
      * simpl. intros x [= <-]. rewrite (proj2 (Z.eqb_neq _ _) E). split; [done|]. by intros.
  - destruct (nodes s !! tmp) as [w|] eqn:Ew; [|done]. destruct (Z.eqb_spec (reject w) 0) as [E|E]; simpl; intros [= <-]; (apply (kept_same s h); [|done]).
    + apply stay_inv; rewrite ?Hp; try done. intros n m. unfold owns. simpl. by rewrite fupd_eq, Hp.
    + destruct (i_node _ _ _ H t tmp) as (_ & r & Er & Hok); [by rewrite Hp|]. rewrite Hp in Hok. rewrite Ew in Er. injection Er as ->. simpl in E.
      destruct Hok as [[? _]|[-> Hnq]]; [done|]. apply stay_inv; rewrite ?Hp; try done.
      * intros n m. unfold owns. simpl. rewrite fupd_eq, Hp. unfold granted. by rewrite Ew.
      * intros x [K|K] Hin; [done|]. injection K as <-. done.
      * simpl. intros x [= <-]. split; [done|]. intros r Er _. rewrite Ew in Er. injection Er as <-. done.
  - destruct (nodes s !! tmp) as [w|] eqn:Ew; [|done]. intros [= <-]. apply (kept_same s h); [|done]. by apply (um_free_inv s h o t tmp w).
Qed.

Lemma unlock_kept s h o t s' : inv s h o -> unlock_step t s = Some s' -> kept s o s'.
Proof.
  intros H. unfold unlock_step, goto. destruct (pcs s t) as [| | | | | | | | | |i| | |k| | | | |] eqn:Hp; try done.
  - destruct (SPINLOCK_LOCK i (inner_lock (mx s))) as [r l] eqn:E. intros [= <-].
    destruct (spin_inv s h o t i r l UBody USpin H E) as [h' K]; rewrite ?Hp; try done;
      try (intros; unfold owns; simpl; by rewrite fupd_eq, Hp); [intros tmp [K|K]; done|]. by apply (kept_same s h').
  - assert (o = Some t) as -> by (apply (bool_decide_eq_true (o = Some t)); rewrite <- (i_own _ _ _ H); unfold owns; by rewrite Hp).
    pose proof (i_av _ _ _ H) as Hav. simpl in Hav. rewrite Hav. simpl. destruct (deque (mx s)) as [|p q] eqn:Hq; simpl.
    + intros [= <-]. exists h, None. split; [|right; left; by rewrite Hq]. apply drop_inv; auto.
    + destruct (nodes s !! p) as [w|] eqn:Ew; [|done]. intros [= <-]. destruct (um_hand_inv s h (Some t) t p q w H Hp Hq Ew) as (u & _ & K).
      exists h, (Some u). split; [done|]. right. right. exists p. by rewrite Hq.
  - intros [= <-]. apply (kept_same s None); [|done]. apply (unspin_inv s h); plain Hp.
  - intros [= <-]. apply (kept_same s None); [|done]. destruct k; apply (unspin_inv s h); plain Hp.
  - intros [= <-]. apply (kept_same s h); [|done]. apply stay_inv; plain Hp.
Qed.

Lemma destroy_kept s h o t s' : inv s h o -> destroy_step t s = Some s' -> kept s o s'.
Proof.
  intros H. unfold destroy_step, goto. destruct (pcs s t) as [| | | | | | | | | | | | | | |k i|[|[|k]]|k|] eqn:Hp; try done.
  - destruct (SPINLOCK_LOCK i (inner_lock (mx s))) as [r l] eqn:E. intros [= <-]. pose proof (i_local _ _ _ H t) as Hl. rewrite Hp in Hl. simpl in Hl.
    destruct (spin_inv s h o t i r l (DBody k) (DSpin k) H E) as [h' K]; rewrite ?Hp; try done;
      try (intros; unfold owns; simpl; by rewrite fupd_eq, Hp); [intros tmp [K|K]; done|simpl; lia|]. by apply (kept_same s h').
  - intros [= <-]. apply (kept_same s h); [|done]. destruct (lock_available (mx s) <? 0); apply stay_inv; plain Hp; simpl; lia.
  - intros [= <-]. apply (kept_same s h); [|done]. destruct (Z.eqb_spec (lock_available (mx s)) 1); simpl; apply stay_inv; plain Hp; simpl; lia.
  - pose proof (i_local _ _ _ H t) as Hl. rewrite Hp in Hl. simpl in Hl. specialize (Hl ltac:(lia)).
    assert (o = None) as -> by (destruct o as [u|]; [|done]; pose proof (i_av _ _ _ H) as Hav; simpl in Hav; lia).
    destruct (i_av _ _ _ H) as [_ Hq]. rewrite bool_decide_eq_true_2 by done. intros [= <-]. exists h, None.
    split; [|right; left; by rewrite Hq]. apply drop_inv; eauto.
  - intros [= <-]. apply (kept_same s None); [|done]. pose proof (i_local _ _ _ H t) as Hl. rewrite Hp in Hl. apply (unspin_inv s h); plain Hp.
  - intros [= <-]. apply (kept_same s None); [|done]. apply (unspin_inv s h); plain Hp.
Qed.

Lemma step_kept s h o s' : inv s h o -> step s s' -> kept s o s'.
Proof. intros H [t p E|t a s1 Ha E|t s1 E|t s1 E]; [by eapply start_kept|by eapply lock_kept|by eapply unlock_kept|by eapply destroy_kept]. Qed.

Lemma um_reachable_inv s : reachable s -> exists h o, inv s h o.
Proof.
  intros Hr. unfold reachable in Hr. apply rtc_ind_r with (P := fun s => exists h o, inv s h o) in Hr; [done|eexists _, _; apply um_inv_initial|].
  intros s1 s2 _ Hs (h & o & H). destruct (step_kept s1 h o s2 H Hs) as (h' & o' & K & _). eauto.
Qed.

(** ** What the mutex promises *)

(** (C34) Mutual exclusion of the user mutex, from the exchange instruction up: in no
    interleaving of any number of threads do two of them hold the mutex. *)
Theorem user_mutex_mutual_exclusion s t u : reachable s -> pcs s t = In -> pcs s u = In -> t = u.
Proof.
  intros (h & o & H)%um_reachable_inv Ht Hu. pose proof (i_own _ _ _ H t) as K1. pose proof (i_own _ _ _ H u) as K2.
  unfold owns in K1, K2. rewrite Ht in K1. rewrite Hu in K2. symmetry in K1, K2. rewrite bool_decide_eq_true in K1, K2. congruence.
Qed.

(** Some thread gets the mutex. *)
Definition acquires (s s' : state) : Prop := exists u, owns s u = false /\ owns s' u = true.

(** A run in which the node [p] stays in the queue, and [n] (or more) times a
    thread gets the mutex. *)
Inductive waits (p : Z) : nat -> state -> state -> Prop :=
| w_end s : p ∈ deque (mx s) -> waits p 0 s s
| w_step n s s1 s' : p ∈ deque (mx s) -> step s s1 -> waits p n s1 s' -> waits p n s s'
| w_acquire n s s1 s' : p ∈ deque (mx s) -> step s s1 -> acquires s s1 -> waits p n s1 s' -> waits p (S n) s s'.

Lemma waits_in p n s s' : waits p n s s' -> p ∈ deque (mx s).
Proof. by destruct 1. Qed.

Lemma effect_ahead q q' o o' ahead p behind : NoDup q -> effect q q' o o' -> q = ahead ++ p :: behind -> p ∈ q' ->
  exists ahead' behind', q' = ahead' ++ p :: behind' /\ ((o' = o /\ ahead' = ahead) \/ length ahead = S (length ahead')).
Proof.
  intros Hn He -> Hp. destruct He as [[-> [->|[x ->]]]|[[E _]|[x E]]].
  - exists ahead, behind. split; [done|]. by left.
  - exists ahead, (behind ++ [x]). rewrite <- app_assoc. split; [done|]. by left.
  - by destruct ahead.
  - destruct ahead as [|y ahead]; simpl in E; injection E as -> <-.
    + apply NoDup_cons_1_1 in Hn. contradiction.
    + exists ahead, behind. split; [done|]. by right.
Qed.

Lemma waits_bound p n s s' : waits p n s s' -> forall h o ahead behind, inv s h o -> deque (mx s) = ahead ++ p :: behind -> (n <= length ahead)%nat.
Proof.
  induction 1 as [s _|n s s1 s' _ Hs Hw IH|n s s1 s' _ Hs (u & Hu0 & Hu1) Hw IH]; intros h o ahead behind H E; [lia|..];
    destruct (step_kept s h o s1 H Hs) as (h' & o' & H' & He);
    destruct (effect_ahead _ _ _ _ _ _ _ (i_nodup _ _ _ H) He E (waits_in _ _ _ _ Hw)) as (ahead' & behind' & E' & Ha);
    specialize (IH h' o' ahead' behind' H' E').
  - destruct Ha as [[_ ->]|Ha]; lia.
  - destruct Ha as [[-> _]|Ha]; [|lia]. rewrite (i_own _ _ _ H) in Hu0. rewrite (i_own _ _ _ H') in Hu1. congruence.
Qed.

(** Bounded waiting: while a thread waits in the queue, the mutex changes hands
    at most as often as there are threads before it in the queue. *)
Theorem user_mutex_bounded_waiting s s' p n ahead behind :
  reachable s -> deque (mx s) = ahead ++ p :: behind -> waits p n s s' -> (n <= length ahead)%nat.
Proof. intros (h & o & H)%um_reachable_inv E Hw. by eapply waits_bound. Qed.

(** [t] can make a step of its own. *)
Definition can_step (t : Z) (s : state) : Prop :=
  exists a s', (a = 0 \/ nodes s !! a = None) /\ (lock_step a t s = Some s' \/ unlock_step t s = Some s' \/ destroy_step t s = Some s').

(** Nothing is lost and nothing faults: a locked mutex always has an owner, an
    unlocked one has no waiters; a waiting thread is in the queue or has been given
    the mutex; and a thread inside the functions never meets a node that has been
    freed, so that it can always go on. *)
Theorem user_mutex_no_lost_wakeup s : reachable s ->
  (lock_available (mx s) = 0 -> exists t, owns s t = true) /\ (lock_available (mx s) = 1 -> deque (mx s) = []) /\
  (forall t p, pcs s t = LWait p -> p ∈ deque (mx s) \/ owns s t = true) /\
  (forall t, pcs s t <> Out -> pcs s t <> In -> pcs s t <> Dead -> can_step t s).
Proof.
  intros (h & o & H)%um_reachable_inv. pose proof (i_av _ _ _ H) as Hav. split; [|split; [|split]].
  - intros E. destruct o as [t|]; [|lia]. exists t. by rewrite (i_own _ _ _ H), bool_decide_eq_true_2.
  - intros E. destruct o as [t|]; [lia|]. by destruct Hav.
  - intros t p Hp. destruct (i_node _ _ _ H t p) as (_ & r & Er & Hok); [by rewrite Hp|]. rewrite Hp in Hok. destruct Hok as [[_ ?]|[-> _]]; [by left|right].
    unfold owns, granted. by rewrite Hp, Er.
  - intros t H1 H2 H3. exists 0. unfold lock_step, unlock_step, destroy_step, goto.
    pose proof (i_node _ _ _ H t) as Hnode. destruct (pcs s t) as [| | |i| | |tmp|tmp|tmp|tmp|i| | |k|k|l i|[|[|l]]|l|] eqn:Hp; try done;
      try (eexists; split; [by left|]; (by left) || (right; left; done) || (right; right; done)).
    + destruct (lock_available (mx s) <? 0); [|destruct (_ =? 0)]; eexists; (split; [by left|]); by left.
    + destruct (Hnode tmp eq_refl) as (_ & r & -> & _). destruct (negb _); eexists; (split; [by left|]); by left.
    + destruct (Hnode tmp eq_refl) as (_ & r & -> & _). eexists. split; [by left|]. by left.
    + destruct (lock_available (mx s) <? 0); [|destruct (_ =? 1)]; [eexists; split; [by left|]; right; by left..|].
      destruct (deque (mx s)) as [|p q] eqn:Hq; simpl; [eexists; split; [by left|]; right; by left|].
      destruct (i_queue _ _ _ H p) as (_ & u & _ & ->); [rewrite Hq; set_solver|]. eexists. split; [by left|]. right. by left.
    + destruct (bool_decide _); eexists; (split; [by left|]); right; by right.
Qed.

(** ** Three threads: 1 has the mutex, 2 and then 3 wait; then 1 unlocks *)

Inductive act := Start (t : Z) (p : pc) | Run (t a : Z).
Definition perform (x : act) (s : state) : option state :=
  match x with
  | Start t p => if start (pcs s t) p then Some (mk_state (mx s) (nodes s) (fupd (pcs s) t p)) else None
  | Run t a =>
      if (a =? 0) || bool_decide (nodes s !! a = None) then
        match lock_step a t s with Some s' => Some s' | None => match unlock_step t s with Some s' => Some s' | None => destroy_step t s end end
      else None
  end.
Definition performs (l : list act) (s : state) : option state := foldl (fun o x => s ← o; perform x s) (Some s) l.

Lemma um_perform_step x s s' : perform x s = Some s' -> step s s'.
Proof.
  destruct x as [t p|t a]; simpl.
  - destruct (start (pcs s t) p) eqn:E; [|done]. intros [= <-]. by apply s_start.
  - destruct ((a =? 0) || _) eqn:Ea; [|done]. apply orb_true_iff in Ea. rewrite Z.eqb_eq, bool_decide_eq_true in Ea.
    destruct (lock_step a t s) as [s1|] eqn:E1; [intros [= <-]; by eapply s_lock|].
    destruct (unlock_step t s) as [s1|] eqn:E2; [intros [= <-]; by eapply s_unlock|]. intros E3. by eapply s_destroy.
Qed.

Lemma um_performs_reachable l : forall s s', reachable s -> performs l s = Some s' -> reachable s'.
Proof.
  unfold performs. induction l as [|x l IH]; intros s s' Hr E; [by injection E as <-|]. simpl in E. destruct (perform x s) as [s1|] eqn:E1.
  - apply (IH s1); [|done]. eapply rtc_r; [exact Hr|]. by eapply um_perform_step.
  - exfalso. clear -E. induction l as [|y l IH]; [done|by apply IH].
Qed.

Definition lock_acts (t a : Z) : list act := [Start t (LSpin 0); Run t 0; Run t 0; Run t a; Run t 0; Run t 0].
Definition demo_acts : list act := [Start 1 (LSpin 0); Run 1 0; Run 1 0; Run 1 0] ++ lock_acts 2 100 ++ lock_acts 3 200.
Definition demo : state := default initial (performs demo_acts initial).
Definition demo_handed : state := default initial (performs [Start 1 (USpin 0); Run 1 0; Run 1 0; Run 1 0] demo).

Lemma um_demo_reachable : reachable demo.
Proof. apply (um_performs_reachable demo_acts initial); [apply rtc_refl|reflexivity]. Qed.

Lemma user_mutex_mutual_exclusion_witness : pcs demo 1 = In /\ pcs demo 2 <> In.
Proof. split; [reflexivity|]. intros H2. discriminate (user_mutex_mutual_exclusion demo 1 2 um_demo_reachable eq_refl H2). Defined.

Lemma um_demo_waits : waits 200 1 demo demo_handed.
Proof.
  set (d1 := default initial (perform (Start 1 (USpin 0)) demo)). set (d2 := default initial (perform (Run 1 0) d1)). set (d3 := default initial (perform (Run 1 0) d2)).
  assert (Hin : forall s, bool_decide (200 ∈ deque (mx s)) = true -> 200 ∈ deque (mx s)) by (intros s; apply bool_decide_eq_true).
  apply (w_step 200 1 demo d1); [apply Hin; reflexivity|apply (um_perform_step (Start 1 (USpin 0))); reflexivity|].
  apply (w_step 200 1 d1 d2); [apply Hin; reflexivity|apply (um_perform_step (Run 1 0)); reflexivity|].
  apply (w_acquire 200 0 d2 d3); [apply Hin; reflexivity|apply (um_perform_step (Run 1 0)); reflexivity|exists 2; split; reflexivity|].
  apply (w_step 200 0 d3 demo_handed); [apply Hin; reflexivity|apply (um_perform_step (Run 1 0)); reflexivity|].
  apply w_end. apply Hin. reflexivity.
Qed.

Lemma user_mutex_bounded_waiting_witness : (1 <= 1)%nat.
Proof. exact (user_mutex_bounded_waiting demo demo_handed 200 1 [100] [] um_demo_reachable eq_refl um_demo_waits). Defined.

Lemma user_mutex_no_lost_wakeup_witness : exists t, owns demo t = true.
Proof. exact (proj1 (user_mutex_no_lost_wakeup demo um_demo_reachable) eq_refl). Defined.
End UserMutex.
