(* ===== verification/UserAlloc.v ===== *)
(** * The allocator and the root frame of the user thread library
      (src/user/libthread/malloc.c, thr_lib_helper.c)

    [UserAlloc]: the wrappers put one spin lock around the calls of an allocator that is not
    safe for threads.  Any number of threads call them; a call of the allocator has a
    beginning and an end, between which other threads run.

    [RootFrame]: when a program gets its second thread, [set_rootthr_retaddr] follows the saved frame
    pointers from its own frame up to the one of main, and makes main return to the
    code that exits the thread.  Memory is bytes, a frame pointer points to the saved one. *)

From Stdlib Require Import ZArith Lia.
From stdpp Require Import base gmap list tactics numbers relations.
From S2P Require Import Prelude AddrSpace MallocWrappers UserMutex.

#[local] Open Scope Z_scope.

Module UserAlloc.
Import UserMutex.

Inductive request : Type := Malloc (size : Z) | Calloc (nelt eltsize : Z) | Realloc (buf new_size : Z) | Free (buf : Z).

Section wrappers.
Context {H : Type} {RA : RawAlloc H}.

(** The call of the allocator behind a wrapper. *)
Definition raw_call (r : request) : M H Z :=
  match r with
  | Malloc size => ra_malloc size
  | Calloc nelt eltsize => ra_calloc nelt eltsize
  | Realloc buf new_size => ra_realloc buf new_size
  | Free buf => ra_free buf;; mret 0
  end.

(** A thread is outside, in SPINLOCK_LOCK, before the call, in the allocator, before SPINLOCK_UNLOCK with
    the result, or it has returned it. *)
Inductive place : Type := Out | Spinning (r : request) (i : Z) | Locked (r : request) | Inside (r : request) | Leaving (ret : Z) | Done (ret : Z).

Record state := mk_state { mutex_malloc : Z; heap : H; places : gmap Z place; served : list (request * Z) }.

Definition malloc_init (s : state) : state := mk_state SPINLOCK_INIT (heap s) (places s) (served s).

Definition goto (t : Z) (p : place) (l : Z) (s : state) : state := mk_state l (heap s) (<[t := p]> (places s)) (served s).

(** [malloc], [calloc], [realloc] and [free] of thread [t]: SPINLOCK_LOCK, the call, SPINLOCK_UNLOCK. *)
Inductive step : state -> state -> Prop :=
| st_call t r s : places s !! t = Some Out -> step s (goto t (Spinning r 0) (mutex_malloc s) s)
| st_spin t r i s : places s !! t = Some (Spinning r i) ->
    step s (goto t (match fst (SPINLOCK_LOCK i (mutex_malloc s)) with Got => Locked r | Again i => Spinning r i end) (snd (SPINLOCK_LOCK i (mutex_malloc s))) s)
| st_enter t r s : places s !! t = Some (Locked r) -> step s (goto t (Inside r) (mutex_malloc s) s)
| st_leave t r s ret h' : places s !! t = Some (Inside r) -> raw_call r (heap s) = Ok (ret, h') ->
    step s (mk_state (mutex_malloc s) h' (<[t := Leaving ret]> (places s)) (served s ++ [(r, ret)]))
| st_unlock t ret s : places s !! t = Some (Leaving ret) -> step s (goto t (Done ret) SPINLOCK_UNLOCK s)
| st_return t ret s : places s !! t = Some (Done ret) -> step s (goto t Out (mutex_malloc s) s).

Definition critical (p : place) : bool := match p with Locked _ | Inside _ | Leaving _ => true | _ => false end.

(** The allocator run for one request after the other. *)
Inductive runs : H -> list (request * Z) -> H -> Prop :=
| runs_nil h : runs h [] h
| runs_snoc h l h1 r ret h2 : runs h l h1 -> raw_call r h1 = Ok (ret, h2) -> runs h (l ++ [(r, ret)]) h2.

Record inv (h0 : H) (s : state) : Prop := {
  iv_lock : mutex_malloc s = 0 \/ mutex_malloc s = 1;
  iv_free : mutex_malloc s = 1 -> forall t p, places s !! t = Some p -> critical p = false;
  iv_one : forall t t' p p', places s !! t = Some p -> places s !! t' = Some p' -> critical p = true -> critical p' = true -> t = t';
  iv_runs : runs h0 (served s) (heap s) }.

(** A thread moves and the lock takes the value [l]. *)
Lemma goto_inv h0 t p p' l s : inv h0 s -> places s !! t = Some p -> (l = 0 \/ l = 1) ->
  (critical p' = true -> l = 0 /\ (critical p = true \/ mutex_malloc s = 1)) ->
  (l = 1 -> critical p = true \/ mutex_malloc s = 1) -> inv h0 (goto t p' l s).
Proof.
  intros [H1 H2 H3 H4] Hp Hl Hc Hf. split; simpl; [done| | |done].
  - intros -> u q [[<- <-]|[Hne Hu]]%lookup_insert_Some; [destruct (critical p') eqn:E; [destruct (Hc eq_refl); lia|done]|].
    destruct (Hf eq_refl) as [Hcp|Hm]; [|by apply (H2 Hm u)]. destruct (critical q) eqn:E; [|done]. by destruct (Hne (H3 t u p q Hp Hu Hcp E)).
  - intros u u' q q' [[<- <-]|[Hne Hu]]%lookup_insert_Some [[<- <-]|[Hne' Hu']]%lookup_insert_Some Hq Hq'; [done| | |by apply (H3 u u' q q')].
    + destruct (Hc Hq) as [_ [Hcp|Hm]]; [by apply (H3 t u' p q')|]. by rewrite (H2 Hm u' q' Hu') in Hq'.
    + destruct (Hc Hq') as [_ [Hcp|Hm]]; [by apply (H3 u t q p)|]. by rewrite (H2 Hm u q Hu) in Hq.
Qed.

Lemma locked_zero h0 s t p : inv h0 s -> places s !! t = Some p -> critical p = true -> mutex_malloc s = 0.
Proof. intros Hi Hp Hc. destruct (iv_lock _ _ Hi) as [|Hm]; [done|]. by rewrite (iv_free _ _ Hi Hm t p Hp) in Hc. Qed.

Lemma call_inv h0 s s' : step s s' -> inv h0 s -> inv h0 s'.
Proof.
  intros Hst Hi. destruct Hst as [t r s Hp|t r i s Hp|t r s Hp|t r s ret h' Hp Hr|t ret s Hp|t ret s Hp].
  - apply (goto_inv h0 t Out); try done; [apply Hi|by right].
  - unfold SPINLOCK_LOCK. simpl. apply (goto_inv h0 t (Spinning r i)); try done; [by left|]. destruct (iv_lock _ _ Hi) as [E|E]; rewrite E; simpl; [|by auto]. by destruct (i + 1 =? MAX_SPIN_NUM).
  - pose proof (locked_zero h0 s t _ Hi Hp eq_refl) as E. apply (goto_inv h0 t (Locked r)); try done; [by left|by split; [|left]|by left].
  - pose proof (locked_zero h0 s t _ Hi Hp eq_refl) as E. pose proof (goto_inv h0 t (Inside r) (Leaving ret) (mutex_malloc s) s Hi Hp (iv_lock _ _ Hi) ltac:(by split; [|left]) ltac:(by left)) as [G1 G2 G3 _].
    split; try done. simpl. eapply runs_snoc; [apply Hi|exact Hr].
  - apply (goto_inv h0 t (Leaving ret)); try done; [by right|by left].
  - apply (goto_inv h0 t (Done ret)); try done; [apply Hi|by right].
Qed.

(** The wrappers make the allocator safe for threads: from the initial state, in every state that any
    interleaving reaches, at most one thread is between the locking and the unlocking, and the heap and all
    results are those of the calls made one after the other, in the order in which they were served. *)
Theorem wrappers_linearise h0 ps s : (forall t p, ps !! t = Some p -> p = Out) -> rtc step (malloc_init (mk_state 0 h0 ps [])) s ->
  (forall t t' p p', places s !! t = Some p -> places s !! t' = Some p' -> critical p = true -> critical p' = true -> t = t') /\ runs h0 (served s) (heap s).
Proof.
  intros Hps Hst. assert (Hi : inv h0 (malloc_init (mk_state 0 h0 ps []))).
  { split; simpl; [by right| | |constructor].
    - intros _ t p Hp. by rewrite (Hps t p Hp).
    - intros t t' p p' Hp _ Hc. by rewrite (Hps t p Hp) in Hc. }
  assert (Hi' : inv h0 s) by (clear Hps; induction Hst as [|s1 s2 s3 H1 _ IH]; [done|]; by apply IH, (call_inv h0 s1)). split; [apply Hi'|apply Hi'].
Qed.
End wrappers.
End UserAlloc.

Module RootFrame.

Definition get_last_ebp (m : Z -> Z) (ebp : Z) : Z := word_of m ebp.

Section root.
Context (ebp__main thr_ret2exit : Z).

(** [while (last_ebp != ebp__main) { ebp = last_ebp; last_ebp = get_last_ebp(ebp); }], which ends with the frame pointer of main *)
Fixpoint trace_back (fuel : nat) (ebp last_ebp : Z) : M (Z -> Z) Z :=
  match fuel with
  | O => nofuel
  | S fuel => if last_ebp =? ebp__main then mret ebp else l ← gets (fun m => get_last_ebp m last_ebp); trace_back fuel last_ebp l
  end.

Definition set_rootthr_retaddr (fuel : nat) (asm_get_ebp : Z) : M (Z -> Z) unit :=
  last ← gets (fun m => get_last_ebp m asm_get_ebp);
  ebp ← trace_back fuel asm_get_ebp last;
  modify (fun m => put m (w32 (ebp + 4)) (word_bytes thr_ret2exit)).

(** The frames from [ebp] up: each saves the frame pointer of the next, and the last one is main's, which saves the one of _main. *)
Fixpoint frames (m : Z -> Z) (ebp : Z) (up : list Z) : Prop :=
  match up with
  | [] => word_of m ebp = ebp__main
  | e :: up => word_of m ebp = e /\ e <> ebp__main /\ frames m e up
  end.

Lemma trace_back_ok m up : forall ebp fuel, frames m ebp up -> (length up < fuel)%nat -> trace_back fuel ebp (word_of m ebp) m = Ok (default ebp (list.last up), m).
Proof.
  induction up as [|e up IH]; intros ebp fuel Hf Hfu; (destruct fuel as [|fuel]; [simpl in Hfu; lia|]); cbn [trace_back].
  - simpl in Hf. by rewrite Hf, Z.eqb_refl.
  - destruct Hf as (E & Hne & Hf). rewrite E, (proj2 (Z.eqb_neq e ebp__main)) by done. rewrite (bind_ok _ _ _ (word_of m e) m eq_refl), (IH e fuel Hf) by (simpl in Hfu; lia).
    rewrite list.last_cons. by destruct (list.last up).
Qed.

(** The search ends at the frame of main, and only main's return address changes. *)
Theorem set_rootthr_retaddr_correct fuel m ebp up : let main := default ebp (list.last up) in
  frames m ebp up -> (length up < fuel)%nat -> 0 <= main < 2 ^ 32 - 8 -> 0 <= thr_ret2exit < 2 ^ 32 ->
  exists m', set_rootthr_retaddr fuel ebp m = Ok (tt, m') /\ word_of m' (main + 4) = thr_ret2exit /\ forall x, ~ (main + 4 <= x < main + 8) -> m' x = m x.
Proof.
  intros main Hf Hfu Hm Ht. exists (put m (main + 4) (word_bytes thr_ret2exit)). split; [|split; [by apply word_put|intros x Hx; apply put_out; simpl; lia]].
  unfold set_rootthr_retaddr. rewrite (bind_ok _ _ _ (word_of m ebp) m eq_refl), (bind_ok _ _ _ _ _ (trace_back_ok m up ebp fuel Hf Hfu)). fold main. unfold modify. rewrite w32_small by lia. done.
Qed.
End root.
End RootFrame.
