(* ===== verification/UserCond.v ===== *)
(** * Condition variables of the user thread library (src/user/libthread/cond_var.c)

    Any number of threads use one condition variable with one mutex [mp].  Both
    [mp] and the mutex inside the condition variable are what UserMutex.v shows a
    mutex to be: a lock that at most one thread holds.  A waiting thread is in the
    queue through its node; it sleeps in the kernel, whose deschedule reads
    [reject] and blocks the thread in one step, and whose make_runnable only
    concerns a thread that is descheduled (ThrMgmt.v). *)

From S2P Require Import Prelude SimpleQueue UserMutex.
From Stdlib Require Import ZArith Lia.
From stdpp Require Import base gmap list tactics numbers relations.

#[local] Open Scope Z_scope.

Module UserCond.
Import UserMutex (waiter, mk_waiter, ktid, reject).

(** A mutex by its holder. *)
Inductive lock := Free | Held (t : Z) | Destroyed.

(** Where a thread is: [Out], or [Has] with the mutex [mp]; in [cond_wait] ([W]),
    with its node; in [cond_signal] or [cond_broadcast] ([S], [all]), called with
    or without [mp] ([hold]); in [cond_destroy] ([D]). *)
Inductive pc :=
| Out | Has | Dead
| WMalloc | WLock (tmp : Z) | WBody (tmp : Z) | WUnlockMp (tmp : Z) | WUnlock (tmp : Z)
| WLoop (tmp : Z) | WDeschedule (tmp : Z) | WAsleep (tmp : Z) | WFree (tmp : Z) | WRelock
| SLock (all hold : bool) | SCheck (all hold : bool) | SBody (all hold : bool) | SMake (all hold : bool) (tmp_ktid : Z) | SUnlock (hold : bool)
| DLock (again : bool) | DCheck | DBody | DAgain | DUnlock | DMutex.

Record state := mk_state { mp : lock; mutex : lock; active : bool; deque : list Z; nodes : gmap Z waiter; pcs : Z -> pc }.

Definition goto (t : Z) (p : pc) (s : state) : state := mk_state (mp s) (mutex s) (active s) (deque s) (nodes s) (fupd (pcs s) t p).
Definition set_mp x (s : state) := mk_state x (mutex s) (active s) (deque s) (nodes s) (pcs s).
Definition set_mutex x (s : state) := mk_state (mp s) x (active s) (deque s) (nodes s) (pcs s).
Definition set_active x (s : state) := mk_state (mp s) (mutex s) x (deque s) (nodes s) (pcs s).
Definition set_deque x (s : state) := mk_state (mp s) (mutex s) (active s) x (nodes s) (pcs s).
Definition set_nodes x (s : state) := mk_state (mp s) (mutex s) (active s) (deque s) x (pcs s).

(** [mutex_lock] gets a free mutex; one that is destroyed ends in [panic]. *)
Definition lock_mutex (t : Z) (next : pc) (s : state) : option state :=
  match mutex s with Free => Some (goto t next (set_mutex (Held t) s)) | Destroyed => Some (goto t Dead s) | Held _ => None end.
Definition lock_mp (t : Z) (next : pc) (s : state) : option state :=
  match mp s with Free => Some (goto t next (set_mp (Held t) s)) | Destroyed => Some (goto t Dead s) | Held _ => None end.

(** The steps of [cond_wait]; [a] is what malloc answers. *)
Definition cond_wait (a t : Z) (s : state) : option state :=
  match pcs s t with
  | WMalloc => if a =? 0 then Some s else Some (goto t (WLock a) (set_nodes (<[a := mk_waiter t 0]> (nodes s)) s))
  | WLock tmp => lock_mutex t (WBody tmp) s
  | WBody tmp => if negb (active s) then Some (goto t Dead s) else Some (goto t (WUnlockMp tmp) (set_deque (QSpec.enqueue (deque s) tmp) s))
  | WUnlockMp tmp => Some (goto t (WUnlock tmp) (set_mp Free s))
  | WUnlock tmp => Some (goto t (WLoop tmp) (set_mutex Free s))
  | WLoop tmp => w ← nodes s !! tmp; Some (goto t (if negb (reject w =? 0) then WFree tmp else WDeschedule tmp) s)
  | WDeschedule tmp => w ← nodes s !! tmp; Some (goto t (if negb (reject w =? 0) then WLoop tmp else WAsleep tmp) s)
  | WFree tmp => _ ← nodes s !! tmp; Some (goto t WRelock (set_nodes (delete tmp (nodes s)) s))
  | WRelock => lock_mp t Has s
  | _ => None
  end.

(** [make_runnable(k)] *)
Definition make_runnable (k : Z) (s : state) : state :=
  match pcs s k with WAsleep tmp => goto k (WLoop tmp) s | _ => s end.

(** The steps of [cond_signal], and of [cond_broadcast] when [all]. *)
Definition cond_signal (t : Z) (s : state) : option state :=
  match pcs s t with
  | SLock all hold => lock_mutex t (SCheck all hold) s
  | SCheck all hold => Some (goto t (if negb (active s) then Dead else SBody all hold) s)
  | SBody all hold =>
      match QSpec.dequeue (deque s) with
      | None => Some (goto t (SUnlock hold) s)
      | Some (tmp, q) => w ← nodes s !! tmp; Some (goto t (SMake all hold (ktid w)) (set_deque q (set_nodes (<[tmp := mk_waiter (ktid w) 1]> (nodes s)) s)))
      end
  | SMake all hold k => Some (goto t (if all then SBody all hold else SUnlock hold) (make_runnable k s))
  | SUnlock hold => Some (goto t (if hold then Has else Out) (set_mutex Free s))
  | _ => None
  end.

Definition cond_destroy (t : Z) (s : state) : option state :=
  match pcs s t with
  | DLock again => lock_mutex t (if again then DBody else DCheck) s
  | DCheck => Some (goto t (if negb (active s) then Dead else DBody) s)
  | DBody => if bool_decide (deque s = []) then Some (goto t DUnlock (set_active false s)) else Some (goto t DAgain s)
  | DAgain => Some (goto t (DLock true) (set_mutex Free s))
  | DUnlock => Some (goto t DMutex (set_mutex Free s))
  | DMutex => match mutex s with Free => Some (goto t Out (set_mutex Destroyed s)) | _ => None end
  | _ => None
  end.

(** The client: lock and unlock [mp], and calls of the three functions. *)
Definition client (t : Z) (p : pc) (s : state) : option state :=
  match pcs s t, p with
  | Out, Has => lock_mp t Has s
  | Has, Out => Some (goto t Out (set_mp Free s))
  | Has, WMalloc => Some (goto t WMalloc s)
  | Out, SLock all false => Some (goto t (SLock all false) s)
  | Has, SLock all true => Some (goto t (SLock all true) s)
  | Out, DLock false => Some (goto t (DLock false) s)
  | _, _ => None
  end.

Inductive step (s : state) : state -> Prop :=
| s_wait t a s' : (a = 0 \/ nodes s !! a = None) -> cond_wait a t s = Some s' -> step s s'
| s_signal t s' : cond_signal t s = Some s' -> step s s'
| s_destroy t s' : cond_destroy t s = Some s' -> step s s'
| s_client t p s' : client t p s = Some s' -> step s s'.

(** After [cond_init]. *)
Definition initial : state := mk_state Free Free true [] ∅ (fun _ => Out).
Definition reachable (s : state) : Prop := rtc step initial s.

(** ** Invariant *)

Definition node_of (p : pc) : option Z :=
  match p with
  | WLock tmp | WBody tmp | WUnlockMp tmp | WUnlock tmp | WLoop tmp | WDeschedule tmp | WAsleep tmp | WFree tmp => Some tmp
  | _ => None
  end.
(** After the node has been put in the queue and before it is freed. *)
Definition queued (p : pc) : bool :=
  match p with WUnlockMp _ | WUnlock _ | WLoop _ | WDeschedule _ | WAsleep _ => true | _ => false end.
Definition node_ok (p : pc) (r : Z) (inq : Prop) : Prop :=
  match p with
  | WLock _ | WBody _ => r = 0 /\ ~ inq
  | WFree _ => r = 1 /\ ~ inq
  | _ => (r = 0 /\ inq) \/ (r = 1 /\ ~ inq)
  end.
(** [mp] is held here. *)
Definition with_mp (p : pc) : bool :=
  match p with
  | Has | WMalloc | WLock _ | WBody _ | WUnlockMp _ => true
  | SLock _ h | SCheck _ h | SBody _ h | SMake _ h _ | SUnlock h => h
  | _ => false
  end.

Record inv (s : state) : Prop := {
  c_mp : forall t, with_mp (pcs s t) = true -> mp s = Held t;
  c_nodup : NoDup (deque s);
  c_queue : forall p, p ∈ deque s -> exists t, node_of (pcs s t) = Some p /\ queued (pcs s t) = true /\ nodes s !! p = Some (mk_waiter t 0);
  c_node : forall t p, node_of (pcs s t) = Some p -> exists r, nodes s !! p = Some (mk_waiter t r) /\ node_ok (pcs s t) r (p ∈ deque s);
  c_wake : forall t p, pcs s t = WAsleep p -> nodes s !! p = Some (mk_waiter t 1) -> exists u all hold, pcs s u = SMake all hold t
}.

Lemma uc_inv_initial : inv initial.
Proof. split; try done; simpl; [constructor|set_solver]. Qed.

Lemma uc_node_owner s t u p : inv s -> node_of (pcs s t) = Some p -> node_of (pcs s u) = Some p -> u = t.
Proof. intros H H1 H2. destruct (c_node _ H t p H1) as (r & E1 & _), (c_node _ H u p H2) as (r' & E2 & _). congruence. Qed.

(** Moving without touching the queue or the nodes. *)
Lemma uc_move_inv s t p l m a : inv s ->
  (forall u, u <> t -> with_mp (pcs s u) = true -> l = Held u) -> (with_mp p = true -> l = Held t) ->
  (forall tmp, node_of (pcs s t) = Some tmp -> queued (pcs s t) = true -> tmp ∈ deque s -> node_of p = Some tmp /\ queued p = true) ->
  (forall tmp, node_of p = Some tmp -> node_of (pcs s t) = Some tmp /\
     forall r, nodes s !! tmp = Some (mk_waiter t r) -> node_ok (pcs s t) r (tmp ∈ deque s) -> node_ok p r (tmp ∈ deque s)) ->
  (forall tmp, p = WAsleep tmp -> nodes s !! tmp <> Some (mk_waiter t 1)) ->
  (forall all hold k tmp, pcs s t = SMake all hold k -> pcs s k <> WAsleep tmp) ->
  inv (mk_state l m a (deque s) (nodes s) (fupd (pcs s) t p)).
Proof.
  intros [Hm Hn Hq Hd Hw] Ho Hp Hqs Hnd Hs Hk. split; simpl; try done.
  - intros u. fupd_cases t u; [done|by apply Ho].
  - intros x Hin. destruct (Hq x Hin) as (u & E1 & E2 & E3). exists u. fupd_cases t u; [|done]. destruct (Hqs x E1 E2 Hin). done.
  - intros u x. fupd_cases t u; [|apply Hd]. intros E. destruct (Hnd x E) as [E' K]. destruct (Hd t x E') as (r & Er & Hok). exists r. split; [done|]. by apply K.
  - intros u x. fupd_cases t u; [intros E Er; by destruct (Hs x E)|]. intros E Er. destruct (Hw u x E Er) as (v & all & hold & Ev). exists v, all, hold.
    rewrite fupd_ne; [done|]. intros ->. by apply (Hk all hold u x).
Qed.

(** The same, when the thread's place has no node. *)
Lemma plain_inv s t p l m a : inv s -> node_of (pcs s t) = None -> node_of p = None ->
  (forall u, u <> t -> with_mp (pcs s u) = true -> l = Held u) -> (with_mp p = true -> l = Held t) ->
  (forall all hold k tmp, pcs s t = SMake all hold k -> pcs s k <> WAsleep tmp) ->
  inv (mk_state l m a (deque s) (nodes s) (fupd (pcs s) t p)).
Proof.
  intros H H1 H2 Ho Hp Hk. apply (uc_move_inv s t p l m a H); try done.
  - intros tmp E. congruence.
  - intros tmp E. congruence.
  - intros tmp ->. done.
Qed.

(** What [mp] says after a step that keeps, takes or releases it. *)
Lemma mp_same s t u : inv s -> u <> t -> with_mp (pcs s u) = true -> mp s = Held u.
Proof. intros H _. apply (c_mp _ H). Qed.
Lemma mp_free s t l u : inv s -> mp s = Free -> u <> t -> with_mp (pcs s u) = true -> l = Held u.
Proof. intros H E _ Hu. pose proof (c_mp _ H u Hu). congruence. Qed.
Lemma mp_mine s t l u : inv s -> with_mp (pcs s t) = true -> u <> t -> with_mp (pcs s u) = true -> l = Held u.
Proof. intros H Ht Hne Hu. pose proof (c_mp _ H u Hu). pose proof (c_mp _ H t Ht). congruence. Qed.

Lemma uc_alloc_inv s t a : inv s -> pcs s t = WMalloc -> nodes s !! a = None ->
  inv (goto t (WLock a) (set_nodes (<[a := mk_waiter t 0]> (nodes s)) s)).
Proof.
  intros H Hp Hf. pose proof H as [Hm Hn Hq Hd Hw].
  assert (Hne : forall u p, node_of (pcs s u) = Some p -> p <> a) by (intros u p E ->; destruct (Hd u a E) as (r & E' & _); congruence).
  assert (Hna : a ∉ deque s) by (intros Hin; destruct (Hq a Hin) as (u & _ & _ & E); congruence).
  split; simpl; try done.
  - intros u. fupd_cases t u; [|apply Hm]. intros _. apply Hm. by rewrite Hp.
  - intros x Hin. destruct (Hq x Hin) as (u & E1 & E2 & E3). exists u. rewrite lookup_insert_ne by (intros ->; done). fupd_cases t u; [|done]. by rewrite Hp in E1.
  - intros u x. fupd_cases t u.
    + intros [= <-]. exists 0. by rewrite lookup_insert_eq.
    + intros E. destruct (Hd u x E) as (r & ? & ?). exists r. by rewrite lookup_insert_ne by (by apply not_eq_sym, (Hne u)).
  - intros u x. fupd_cases t u; [done|]. intros E. rewrite lookup_insert_ne by (apply not_eq_sym, (Hne u); by rewrite E). intros Er.
    destruct (Hw u x E Er) as (v & all & hold & Ev). exists v, all, hold. rewrite fupd_ne; [done|]. intros ->. congruence.
Qed.

Lemma uc_enq_inv s t p : inv s -> pcs s t = WBody p -> inv (goto t (WUnlockMp p) (set_deque (deque s ++ [p]) s)).
Proof.
  intros H Hp. pose proof H as [Hm Hn Hq Hd Hw]. destruct (Hd t p) as (r & Er & Hok); [by rewrite Hp|]. rewrite Hp in Hok. destruct Hok as [-> Hnq].
  split; simpl.
  - intros u. fupd_cases t u; [|apply Hm]. intros _. apply Hm. by rewrite Hp.
  - apply list.NoDup_app. split; [done|]. split; [|apply NoDup_singleton]. intros q Hin ->%list_elem_of_singleton. done.
  - intros x [Hin| ->%list_elem_of_singleton]%elem_of_app; [|exists t; by rewrite fupd_eq].
    destruct (Hq x Hin) as (u & E1 & E2 & E3). exists u. fupd_cases t u; [|done]. by rewrite Hp in E2.
  - intros u x. fupd_cases t u.
    + intros [= <-]. exists 0. split; [done|]. left. split; [done|set_solver].
    + intros E. destruct (Hd u x E) as (r & ? & Hok). exists r. split; [done|].
      assert (Hxp : x <> p) by (intros ->; apply n, (uc_node_owner s t u p H); [by rewrite Hp|done]).
      assert (Hiff : x ∈ deque s ++ [p] <-> x ∈ deque s) by set_solver. destruct (pcs s u); simpl in *; rewrite Hiff; done.
  - intros u x. fupd_cases t u; [done|]. intros E E'. destruct (Hw u x E E') as (v & all & hold & Ev). exists v, all, hold. rewrite fupd_ne; [done|]. intros ->. congruence.
Qed.

Lemma uc_free_inv s t p : inv s -> pcs s t = WFree p -> inv (goto t WRelock (set_nodes (delete p (nodes s)) s)).
Proof.
  intros H Hp. pose proof H as [Hm Hn Hq Hd Hw]. destruct (Hd t p) as (r & Er & Hok); [by rewrite Hp|]. rewrite Hp in Hok. destruct Hok as [-> Hnq].
  assert (Hne : forall v x, v <> t -> node_of (pcs s v) = Some x -> x <> p).
  { intros v x Hv Ex ->. apply Hv. apply (uc_node_owner s t v p H); [by rewrite Hp|done]. }
  split; simpl; try done.
  - intros u. fupd_cases t u; [done|apply Hm].
  - intros x Hin. destruct (Hq x Hin) as (u & E1 & E2 & E3). exists u. rewrite lookup_delete_ne by (intros ->; done). fupd_cases t u; [|done]. by rewrite Hp in E2.
  - intros u x. fupd_cases t u; [done|]. intros E. destruct (Hd u x E) as (r & ? & ?). exists r. by rewrite lookup_delete_ne by (by apply not_eq_sym, (Hne u)).
  - intros u x. fupd_cases t u; [done|]. intros E. rewrite lookup_delete_ne by (apply not_eq_sym, (Hne u); [done|by rewrite E]). intros E'.
    destruct (Hw u x E E') as (v & all & hold & Ev). exists v, all, hold. rewrite fupd_ne; [done|]. intros ->. congruence.
Qed.

Lemma pop_inv s t all hold p q w : inv s -> pcs s t = SBody all hold -> deque s = p :: q -> nodes s !! p = Some w ->
  inv (goto t (SMake all hold (ktid w)) (set_deque q (set_nodes (<[p := mk_waiter (ktid w) 1]> (nodes s)) s))).
Proof.
  intros H Hp Hdq Hw. pose proof H as [Hm Hn Hq Hd Hwk]. destruct (Hq p) as (u & Eu & Equ & E); [rewrite Hdq; set_solver|].
  rewrite Hw in E. injection E as ->. simpl. rewrite Hdq in Hn. apply list.NoDup_cons in Hn as [Hpq Hn].
  assert (Hut : u <> t) by (intros ->; by rewrite Hp in Eu).
  assert (Hne : forall v x, v <> u -> node_of (pcs s v) = Some x -> x <> p) by (intros v x Hv Ex ->; apply Hv; by apply (uc_node_owner s u v p H)).
  split; simpl; try done.
  - intros v. fupd_cases t v; [|apply Hm]. intros Hh. apply Hm. by rewrite Hp.
  - intros x Hin. destruct (Hq x) as (v & E1 & E2 & E3); [rewrite Hdq; set_solver|]. exists v. rewrite lookup_insert_ne by (intros ->; done). fupd_cases t v; [|done]. by rewrite Hp in E1.
  - intros v x. fupd_cases t v; [done|]. intros Ex. destruct (Hd v x Ex) as (r & Er & Hok). destruct (Z.eq_dec v u) as [->|Hvu].
    + assert (x = p) as -> by congruence. exists 1. rewrite lookup_insert_eq. split; [done|]. destruct (pcs s u); try done; right; done.
    + pose proof (Hne v x Hvu Ex) as Hxp. exists r. rewrite lookup_insert_ne by done. split; [done|]. rewrite Hdq in Hok.
      assert (Hiff : x ∈ p :: q <-> x ∈ q) by set_solver. destruct (pcs s v); simpl in *; rewrite Hiff in Hok; done.
  - intros v x. fupd_cases t v; [done|]. intros Ev. destruct (Z.eq_dec v u) as [->|Hvu].
    + intros _. exists t, all, hold. by rewrite fupd_eq.
    + assert (Hxp : x <> p) by (apply (Hne v); [done|by rewrite Ev]). rewrite lookup_insert_ne by done. intros Er.
      destruct (Hwk v x Ev Er) as (y & all' & hold' & Ey). exists y, all', hold'. rewrite fupd_ne; [done|]. intros ->. congruence.
Qed.

(** [make_runnable], and then the thread goes on. *)
Lemma make_inv s t all hold k p : inv s -> pcs s t = SMake all hold k -> node_of p = None -> with_mp p = hold -> inv (goto t p (make_runnable k s)).
Proof.
  intros H Hp Hn Hh. unfold make_runnable.
  assert (Hsimple : forall s, inv s -> pcs s t = SMake all hold k -> (forall tmp, pcs s k <> WAsleep tmp) -> inv (goto t p s)).
  { intros s1 H1 Hp1 Hk. apply (plain_inv s1 t p (mp s1) (mutex s1) (active s1) H1); [by rewrite Hp1|done|by intros; eapply mp_same| |].
    - intros E. apply (c_mp _ H1). rewrite Hp1. simpl. congruence.
    - intros all' hold' k' tmp E. rewrite Hp1 in E. injection E as <- <- <-. apply Hk. }
  destruct (pcs s k) eqn:Ek; try (apply (Hsimple s); [done|done|intros; congruence]).
  assert (Hkt : t <> k) by (intros ->; congruence). apply Hsimple.
  - apply (uc_move_inv s k (WLoop tmp) (mp s) (mutex s) (active s) H); rewrite ?Ek; try done; intros; by eapply mp_same.
  - simpl. by rewrite fupd_ne.
  - intros x. simpl. by rewrite fupd_eq.
Qed.

(** The side conditions of the moves. *)
Ltac plain Hp :=
  rewrite ?Hp; try done; try (intros; congruence);
  try match goal with H : inv ?s |- _ => first
    [ by intros; eapply (mp_same s) | by intros; eapply (mp_free s) | intros; eapply (mp_mine s); [exact H|by rewrite Hp|done|done]
    | intros ?; apply (c_mp _ H); rewrite Hp; simpl in *; congruence ] end.

Lemma wait_inv s t a s' : inv s -> (a = 0 \/ nodes s !! a = None) -> cond_wait a t s = Some s' -> inv s'.
Proof.
  intros H Ha. unfold cond_wait, lock_mutex, lock_mp. destruct (pcs s t) as [| | | |tmp|tmp|tmp|tmp|tmp|tmp|tmp|tmp| | | | | | | | | | | |] eqn:Hp; try done.
  - destruct (Z.eqb_spec a 0); intros [= <-]; [done|]. destruct Ha; [done|]. by apply uc_alloc_inv.
  - destruct (mutex s); try done; intros [= <-]; apply (uc_move_inv s); plain Hp.
  - destruct (active s); simpl; intros [= <-]; [by apply uc_enq_inv|]. apply (uc_move_inv s); plain Hp.
  - intros [= <-]. apply (uc_move_inv s); plain Hp.
  - intros [= <-]. apply (uc_move_inv s); plain Hp.
  - destruct (nodes s !! tmp) as [w|] eqn:Ew; [|done]. simpl. intros [= <-]. destruct (Z.eqb_spec (reject w) 0) as [E|E]; simpl.
    + apply (uc_move_inv s); plain Hp.
    + destruct (c_node _ H t tmp) as (r & Er & Hok); [by rewrite Hp|]. rewrite Hp in Hok. rewrite Ew in Er. injection Er as ->. simpl in E. destruct Hok as [[? _]|[-> Hnq]]; [done|].
      apply (uc_move_inv s); plain Hp.
      * intros x [= <-]. done.
      * intros x [= <-]. split; [done|]. intros r Er _. rewrite Ew in Er. injection Er as <-. done.
  - destruct (nodes s !! tmp) as [w|] eqn:Ew; [|done]. simpl. intros [= <-]. destruct (Z.eqb_spec (reject w) 0) as [E|E]; simpl; apply (uc_move_inv s); plain Hp.
    intros x [= <-] Er. rewrite Ew in Er. injection Er as ->. done.
  - destruct (nodes s !! tmp) as [w|] eqn:Ew; [|done]. simpl. intros [= <-]. by apply uc_free_inv.
  - destruct (mp s) eqn:El; try done; intros [= <-]; apply (plain_inv s); plain Hp.
Qed.

Lemma uc_signal_inv s t s' : inv s -> cond_signal t s = Some s' -> inv s'.
Proof.
  intros H. unfold cond_signal, lock_mutex. destruct (pcs s t) as [| | | | | | | | | | | | |all hold|all hold|all hold|all hold k|hold| | | | | |] eqn:Hp; try done.
  - destruct (mutex s); try done; intros [= <-]; apply (plain_inv s); plain Hp.
  - intros [= <-]. destruct (active s); simpl; apply (plain_inv s); plain Hp.
  - destruct (deque s) as [|p q] eqn:Hq; simpl; [intros [= <-]; apply (plain_inv s); plain Hp|].
    destruct (nodes s !! p) as [w|] eqn:Ew; [|done]. simpl. intros [= <-]. by apply pop_inv.
  - intros [= <-]. apply (make_inv s t all hold k); [done|done|by destruct all..].
  - intros [= <-]. destruct hold; apply (plain_inv s); plain Hp.
Qed.

Lemma destroy_inv s t s' : inv s -> cond_destroy t s = Some s' -> inv s'.
Proof.
  intros H. unfold cond_destroy, lock_mutex. destruct (pcs s t) as [| | | | | | | | | | | | | | | | | |again| | | | |] eqn:Hp; try done.
  - destruct (mutex s); try done; intros [= <-]; [destruct again|]; apply (plain_inv s); plain Hp.
  - intros [= <-]. destruct (active s); apply (plain_inv s); plain Hp.
  - destruct (bool_decide _); intros [= <-]; apply (plain_inv s); plain Hp.
  - intros [= <-]. apply (plain_inv s); plain Hp.
  - intros [= <-]. apply (plain_inv s); plain Hp.
  - destruct (mutex s); try done; intros [= <-]. apply (plain_inv s); plain Hp.
Qed.

Lemma client_inv s t p s' : inv s -> client t p s = Some s' -> inv s'.
Proof.
  intros H. unfold client, lock_mp. destruct (pcs s t) eqn:Hp; try done; destruct p as [| | | | | | | | | | | | |all []| | | |[]|[]| | | | |]; try done;
    try (destruct (mp s) eqn:El; try done); intros [= <-]; apply (plain_inv s); plain Hp.
Qed.

Lemma uc_reachable_inv s : reachable s -> inv s.
Proof.
  intros Hr. unfold reachable in Hr. apply rtc_ind_r with (P := inv) in Hr; [done|apply uc_inv_initial|].
  intros s1 s2 _ [t a s' Ha E|t s' E|t s' E|t p s' E] H; [by eapply wait_inv|by eapply uc_signal_inv|by eapply destroy_inv|by eapply client_inv].
Qed.

(** ** What a condition variable promises *)

(** A call of [cond_wait] has begun and has not returned. *)
Definition in_wait (p : pc) : bool :=
  match p with
  | WMalloc | WLock _ | WBody _ | WUnlockMp _ | WUnlock _ | WLoop _ | WDeschedule _ | WAsleep _ | WFree _ | WRelock => true
  | _ => false
  end.

(** The caller has given up its mutex. *)
Definition released (s : state) (t : Z) : Prop := in_wait (pcs s t) = true /\ mp s <> Held t.

(** (C35) No wake-up is lost.  From the moment a caller of [cond_wait] does not hold its
    mutex [mp] any more, its node is in the queue, where signals and broadcasts find it,
    until one of them takes it out and marks it; then it stays marked until the thread
    has left its loop, freed it, and only waits for [mp].  A thread that sleeps in the
    kernel is in the queue, or the one that took it out is about to make it runnable.
    [cond_wait] returns with the mutex held. *)
Theorem cond_no_lost_wakeup s t : reachable s ->
  (released s t -> pcs s t = WRelock \/ exists p r, node_of (pcs s t) = Some p /\ nodes s !! p = Some (mk_waiter t r) /\
     ((r = 0 /\ p ∈ deque s) \/ (r = 1 /\ p ∉ deque s))) /\
  (forall p, pcs s t = WAsleep p -> p ∈ deque s \/ exists u all hold, pcs s u = SMake all hold t) /\
  (pcs s t = Has -> mp s = Held t).
Proof.
  intros H%uc_reachable_inv. split; [|split].
  - intros [Hin Hmp]. assert (Hw : with_mp (pcs s t) = false) by (destruct (with_mp (pcs s t)) eqn:E; [by destruct Hmp; apply (c_mp _ H)|done]).
    destruct (node_of (pcs s t)) as [p|] eqn:En; [|destruct (pcs s t); by auto]. right. destruct (c_node _ H t p En) as (r & Er & Hok). exists p, r. split; [done|]. split; [done|].
    destruct (pcs s t); try done; simpl in Hok; auto.
  - intros p E. destruct (c_node _ H t p) as (r & Er & Hok); [by rewrite E|]. rewrite E in Hok. destruct Hok as [[_ ?]|[-> _]]; [by left|right]. by apply (c_wake _ H t p).
  - intros E. apply (c_mp _ H). by rewrite E.
Qed.

(** The thread of a node is awake, and will leave its loop. *)
Definition woken (s : state) (p : Z) : Prop := exists t, nodes s !! p = Some (mk_waiter t 1) /\ forall x, pcs s t <> WAsleep x.

(** One turn of the signaller: the first node is taken and its thread woken; the
    others stay as they are. *)
Lemma signal_turn s u all hold p q : inv s -> pcs s u = SBody all hold -> deque s = p :: q ->
  exists s1 s2, cond_signal u s = Some s1 /\ cond_signal u s1 = Some s2 /\ woken s2 p /\ deque s2 = q /\
    pcs s2 u = (if all then SBody all hold else SUnlock hold) /\ (forall x, woken s x -> woken s2 x).
Proof.
  intros H Hp Hq. destruct (c_queue _ H p) as (t & Et & Eq & En); [rewrite Hq; set_solver|].
  assert (Htu : t <> u) by (intros ->; by rewrite Hp in Et).
  unfold cond_signal at 1. rewrite Hp, Hq. simpl. rewrite En. simpl.
  set (s1 := mk_state (mp s) (mutex s) (active s) q (<[p := mk_waiter t 1]> (nodes s)) (fupd (pcs s) u (SMake all hold t))).
  exists s1, (goto u (if all then SBody all hold else SUnlock hold) (make_runnable t s1)). split; [done|]. unfold cond_signal. simpl. rewrite fupd_eq. split; [done|].
  assert (Ht1 : pcs s1 t = pcs s t) by (simpl; by rewrite fupd_ne).
  assert (Hm : nodes (make_runnable t s1) = nodes s1 /\ deque (make_runnable t s1) = q /\ (forall x, pcs (make_runnable t s1) t <> WAsleep x) /\
    forall v, v <> t -> pcs (make_runnable t s1) v = pcs s1 v).
  { unfold make_runnable. rewrite Ht1.
    destruct (pcs s t) eqn:E; try (split; [done|]; split; [done|]; split; [intros x; rewrite Ht1; congruence|done]).
    split; [done|]. split; [done|]. split; [intros x; simpl; by rewrite fupd_eq|]. intros v Hv. simpl. by rewrite (fupd_ne _ t v). }
  destruct Hm as (Hm1 & Hm2 & Hm3 & Hm4). split; [|split; [done|split; [simpl; by rewrite fupd_eq|]]].
  - exists t. simpl. rewrite Hm1. simpl. rewrite lookup_insert_eq. split; [done|]. intros x. rewrite fupd_ne by done. apply Hm3.
  - intros x (v & Ev & Hv). destruct (Z.eq_dec x p) as [->|Hxp]; [congruence|]. exists v. simpl. rewrite Hm1. simpl. rewrite lookup_insert_ne by done. split; [done|].
    intros y. destruct (Z.eq_dec v u) as [->|Hvu]; [rewrite fupd_eq; by destruct all|]. rewrite fupd_ne by done.
    destruct (Z.eq_dec v t) as [->|Hvt]; [apply Hm3|]. rewrite Hm4 by done. simpl. rewrite fupd_ne by done. apply Hv.
Qed.

(** The signaller runs alone until it releases the mutex. *)
Fixpoint signal_run (n : nat) (u : Z) (s : state) : option state :=
  match n with
  | O => Some s
  | S n => match pcs s u with SUnlock _ => Some s | _ => s ← cond_signal u s; signal_run n u s end
  end.

Lemma broadcast_run n : forall s u hold, inv s -> pcs s u = SBody true hold -> length (deque s) = n ->
  exists s', signal_run (2 * n + 1) u s = Some s' /\ pcs s' u = SUnlock hold /\ deque s' = [] /\
    (forall p, p ∈ deque s -> woken s' p) /\ forall p, woken s p -> woken s' p.
Proof.
  induction n as [|n IH]; intros s u hold H Hp Hn.
  - apply nil_length_inv in Hn. exists (goto u (SUnlock hold) s). simpl. rewrite Hp. unfold cond_signal. rewrite Hp, Hn. simpl. rewrite fupd_eq.
    split; [done|]. split; [done|]. split; [done|]. split; [set_solver|]. intros p (t & Et & Ht). exists t. split; [done|]. intros x. simpl. fupd_cases u t; [done|apply Ht].
  - destruct (deque s) as [|p q] eqn:Hq; [done|]. destruct (signal_turn s u true hold p q H Hp Hq) as (s1 & s2 & R1 & R2 & W & Q2 & P2 & K).
    destruct (IH s2 u hold) as (s' & R & P' & Q' & W' & K'); [eapply uc_signal_inv; [|exact R2]; by eapply uc_signal_inv|done|by rewrite Q2; injection Hn|].
    exists s'. split; [|split; [done|]; split; [done|]; split; [|by auto]].
    + replace (2 * S n + 1)%nat with (S (S (2 * n + 1))) by lia. cbn [signal_run]. rewrite Hp, R1. simpl.
      assert (P1 : exists k, pcs s1 u = SMake true hold k).
      { unfold cond_signal in R1. rewrite Hp, Hq in R1. simpl in R1. destruct (nodes s !! p) as [w|]; [|done]. injection R1 as <-. exists (ktid w). simpl. apply fupd_eq. }
      destruct P1 as [k ->]. rewrite R2. simpl. exact R.
    + intros x. rewrite elem_of_cons. intros [->|Hx]; [by apply K'|]. apply W'. by rewrite Q2.
Qed.

(** [cond_broadcast], once it has the mutex of the condition variable, wakes every
    thread that was in the queue and leaves the queue empty. *)
Theorem cond_broadcast_wakes_all s u hold : reachable s -> pcs s u = SBody true hold ->
  exists s', signal_run (2 * length (deque s) + 1) u s = Some s' /\ pcs s' u = SUnlock hold /\ deque s' = [] /\ forall p, p ∈ deque s -> woken s' p.
Proof. intros H%uc_reachable_inv Hp. destruct (broadcast_run _ s u hold H Hp eq_refl) as (s' & R & P' & Q & W & _). by exists s'. Qed.

(** [cond_signal] wakes the thread that has waited longest, and no other. *)
Theorem cond_signal_wakes_first s u hold p q : reachable s -> pcs s u = SBody false hold -> deque s = p :: q ->
  exists s', signal_run 2 u s = Some s' /\ pcs s' u = SUnlock hold /\ deque s' = q /\ woken s' p.
Proof.
  intros H%uc_reachable_inv Hp Hq. destruct (signal_turn s u false hold p q H Hp Hq) as (s1 & s2 & R1 & R2 & W & Q2 & P2 & _). exists s2.
  split; [|done]. cbn [signal_run]. rewrite Hp, R1. simpl. assert (P1 : exists k, pcs s1 u = SMake false hold k).
  { unfold cond_signal in R1. rewrite Hp, Hq in R1. simpl in R1. destruct (nodes s !! p) as [w|]; [|done]. injection R1 as <-. exists (ktid w). simpl. apply fupd_eq. }
  destruct P1 as [k ->]. by rewrite R2.
Qed.

(** ** Threads 1 and 2 wait; thread 3 signals *)
Inductive act := Client (t : Z) (p : pc) | Run (t a : Z).
Definition perform (x : act) (s : state) : option state :=
  match x with
  | Client t p => client t p s
  | Run t a =>
      if (a =? 0) || bool_decide (nodes s !! a = None) then
        match cond_wait a t s with Some s' => Some s' | None => match cond_signal t s with Some s' => Some s' | None => cond_destroy t s end end
      else None
  end.
Definition performs (l : list act) (s : state) : option state := foldl (fun o x => s ← o; perform x s) (Some s) l.

Lemma uc_perform_step x s s' : perform x s = Some s' -> step s s'.
Proof.
  destruct x as [t p|t a]; simpl; [apply s_client|]. destruct ((a =? 0) || _) eqn:Ea; [|done]. apply orb_true_iff in Ea. rewrite Z.eqb_eq, bool_decide_eq_true in Ea.
  destruct (cond_wait a t s) as [s1|] eqn:E1; [intros [= <-]; by eapply s_wait|].
  destruct (cond_signal t s) as [s1|] eqn:E2; [intros [= <-]; by eapply s_signal|]. intros E3. by eapply s_destroy.
Qed.

Lemma uc_performs_reachable l : forall s s', reachable s -> performs l s = Some s' -> reachable s'.
Proof.
  unfold performs. induction l as [|x l IH]; intros s s' Hr E; [by injection E as <-|]. simpl in E. destruct (perform x s) as [s1|] eqn:E1.
  - apply (IH s1); [|done]. eapply rtc_r; [exact Hr|]. by eapply uc_perform_step.
  - exfalso. clear -E. induction l as [|y l IH]; [done|by apply IH].
Qed.

Definition wait_acts (t a : Z) : list act := [Client t Has; Client t WMalloc; Run t a; Run t 0; Run t 0; Run t 0; Run t 0; Run t 0; Run t 0].
Definition demo_acts : list act := wait_acts 1 100 ++ wait_acts 2 200 ++ [Client 3 (SLock true false); Run 3 0; Run 3 0].
Definition demo : state := default initial (performs demo_acts initial).

Lemma uc_demo_reachable : reachable demo.
Proof.
  assert (E : bool_decide (is_Some (performs demo_acts initial)) = true) by (vm_compute; reflexivity).
  unfold demo. destruct (performs demo_acts initial) as [s|] eqn:R; [|done]. by apply (uc_performs_reachable demo_acts initial); [apply rtc_refl|].
Qed.

Lemma demo_broadcasts : pcs demo 3 = SBody true false.
Proof. vm_compute. reflexivity. Qed.
Lemma demo_deque : deque demo = [100; 200].
Proof. vm_compute. reflexivity. Qed.

Lemma demo_released : released demo 1.
Proof. split; [vm_compute; reflexivity|]. vm_compute. discriminate. Qed.

Lemma cond_no_lost_wakeup_witness : released demo 1 /\ exists p r, node_of (pcs demo 1) = Some p /\ nodes demo !! p = Some (mk_waiter 1 r) /\ ((r = 0 /\ p ∈ deque demo) \/ (r = 1 /\ p ∉ deque demo)).
Proof.
  split; [exact demo_released|]. destruct (proj1 (cond_no_lost_wakeup demo 1 uc_demo_reachable) demo_released) as [E|E]; [|exact E].
  exfalso. vm_compute in E. discriminate E.
Defined.

Lemma cond_broadcast_witness : exists s', signal_run (2 * length (deque demo) + 1) 3 demo = Some s' /\ deque s' = [] /\ woken s' 100.
Proof.
  destruct (cond_broadcast_wakes_all demo 3 false uc_demo_reachable demo_broadcasts) as (s' & R & _ & Q & W). exists s'. split; [exact R|]. split; [exact Q|].
  apply W. rewrite demo_deque. left.
Defined.
End UserCond.
