(* ===== verification/UserSync.v ===== *)
(** * Semaphores and readers/writers locks of the user thread library
      (src/user/libthread/sem.c, rwlock.c)

    Both are monitors: their fields are only touched between [mutex_lock] and
    [mutex_unlock] or [cond_wait] of one mutex, so that such a part of a function is
    one step (UserMutex.v shows that threads exclude each other there).
    [cond_wait] puts the thread into the queue of the condition variable before the
    mutex is released, and the thread comes back after it was taken from the queue
    by a signal (UserCond.v); it then tests the condition again.  The threads are
    a finite map, so that they can be counted. *)

From S2P Require Import Prelude SimpleQueue.
From Stdlib Require Import ZArith Lia.
From stdpp Require Import base gmap list tactics numbers relations.

#[local] Open Scope Z_scope.

(** ** Counting threads *)
Section count.
Context {P : Type}.
Implicit Types (f : P -> bool) (m : gmap Z P).

Definition count f m : Z := Z.of_nat (size (filter (fun kv => f kv.2 = true) m)).

Lemma count_delete f m t p : m !! t = Some p -> count f m = Z.b2z (f p) + count f (delete t m).
Proof.
  intros E. unfold count. rewrite <- (insert_delete_id m t p E) at 1. destruct (f p) eqn:Ef.
  - rewrite map_filter_insert_True by done. rewrite map_size_insert_None; [simpl Z.b2z; lia|].
    rewrite map_lookup_filter_None. left. apply lookup_delete_eq.
  - rewrite map_filter_insert_False by (simpl; congruence). by rewrite delete_delete_eq.
Qed.

Lemma count_insert f m t p p' : m !! t = Some p -> count f (<[t := p']> m) = count f m - Z.b2z (f p) + Z.b2z (f p').
Proof.
  intros E. rewrite (count_delete f m t p E), (count_delete f (<[t := p']> m) t p') by apply lookup_insert_eq. rewrite delete_insert_eq. lia.
Qed.

Lemma count_nonneg f m : 0 <= count f m.
Proof. unfold count. lia. Qed.

Lemma count_le f m : count f m <= Z.of_nat (size m).
Proof. unfold count. apply inj_le. apply map_subseteq_size, map_filter_subseteq. Qed.

Lemma count_pos f m t p : m !! t = Some p -> f p = true -> 0 < count f m.
Proof. intros E Ef. rewrite (count_delete f m t p E), Ef. pose proof (count_nonneg f (delete t m)). simpl. lia. Qed.

Lemma count_two f m t u p q : t <> u -> m !! t = Some p -> m !! u = Some q -> f p = true -> f q = true -> 2 <= count f m.
Proof.
  intros Hne E1 E2 F1 F2. rewrite (count_delete f m t p E1), F1. pose proof (count_pos f (delete t m) u q). rewrite lookup_delete_ne in H by done.
  specialize (H E2 F2). simpl. lia.
Qed.

Lemma count_exists f m : 0 < count f m -> exists t p, m !! t = Some p /\ f p = true.
Proof.
  unfold count. intros H. destruct (decide (filter (fun kv => f kv.2 = true) m = ∅)) as [E|E]; [rewrite E, map_size_empty in H; lia|].
  apply map_choose in E as (t & p & E). apply map_lookup_filter_Some in E as [E1 E2]. by exists t, p.
Qed.

(** All of [q] go to [p]. *)
Definition put_all (p : P) (q : list Z) (m : gmap Z P) : gmap Z P := foldr (fun u m => <[u := p]> m) m q.

Lemma put_all_lookup p q m u : put_all p q m !! u = if bool_decide (u ∈ q) then Some p else m !! u.
Proof.
  induction q as [|x q IH]; simpl; [done|]. rewrite lookup_insert. destruct (decide (x = u)) as [->|Hx].
  - rewrite bool_decide_eq_true_2; [done|set_solver].
  - rewrite IH. case_bool_decide as D; case_bool_decide as D'; try done; set_solver.
Qed.

Lemma count_put_all f q a b : forall m, NoDup q -> (forall u, u ∈ q -> m !! u = Some a) ->
  count f (put_all b q m) = count f m + Z.of_nat (length q) * (Z.b2z (f b) - Z.b2z (f a)).
Proof.
  induction q as [|x q IH]; intros m Hn Hm; [simpl; lia|]. apply list.NoDup_cons in Hn as [Hx Hn]. cbn [put_all foldr length].
  rewrite (count_insert f _ x a b).
  - fold (put_all b q m). rewrite IH by (try done; intros; apply Hm; set_solver). lia.
  - fold (put_all b q m). rewrite put_all_lookup, bool_decide_eq_false_2 by done. apply Hm. set_solver.
Qed.
End count.

(** ** sem.c *)
Module Sem.

(** A thread that is not in the functions; blocked in [cond_wait]; awake in it
    again; in [sem_signal] before [cond_signal]; in [panic]. *)
Inductive pc := Idle | Blocked | Woken | Signalling | Dead.

(** [taken] and [given] count the waits and signals that have been done. *)
Record state := mk_state { sem_count : Z; cond : list Z; pcs : gmap Z pc; taken : Z; given : Z }.

Definition goto (t : Z) (p : pc) (s : state) : state := mk_state (sem_count s) (cond s) (<[t := p]> (pcs s)) (taken s) (given s).
Definition set_count c (s : state) := mk_state c (cond s) (pcs s) (taken s) (given s).
Definition block (t : Z) (s : state) : state := goto t Blocked (mk_state (sem_count s) (QSpec.enqueue (cond s) t) (pcs s) (taken s) (given s)).
Definition take (t : Z) (s : state) : state := goto t Idle (mk_state (s32 (sem_count s - 1)) (cond s) (pcs s) (taken s + 1) (given s)).

(** [sem_init] on a working mutex and condition variable. *)
Definition sem_init (n : Z) (threads : gset Z) : option state :=
  if n <? 0 then None else Some (mk_state n [] (gset_to_gmap Idle threads) 0 0).

(** [sem_wait]: up to the first [cond_wait], and after each. *)
Definition sem_wait (t : Z) (s : state) : state :=
  if 0 <? sem_count s then take t s
  else if sem_count s <? 0 then goto t Dead s
  else block t s.
Definition sem_wait_again (t : Z) (s : state) : state := if sem_count s =? 0 then block t s else take t s.

(** [sem_signal]: the locked part, and [cond_signal] after it. *)
Definition sem_signal (t : Z) (s : state) : state :=
  if sem_count s <? 0 then goto t Dead s
  else goto t Signalling (mk_state (s32 (sem_count s + 1)) (cond s) (pcs s) (taken s) (given s + 1)).
Definition sem_signal_cond (t : Z) (s : state) : state :=
  goto t Idle (match QSpec.dequeue (cond s) with
               | None => s
               | Some (u, q) => goto u Woken (mk_state (sem_count s) q (pcs s) (taken s) (given s))
               end).

Definition sem_destroy (t : Z) (s : state) : state := if sem_count s <? 0 then goto t Dead s else set_count (-1) s.

(** It is an error to destroy a semaphore that is in use. *)
Inductive step (s : state) : state -> Prop :=
| s_wait t : pcs s !! t = Some Idle -> step s (sem_wait t s)
| s_again t : pcs s !! t = Some Woken -> step s (sem_wait_again t s)
| s_signal t : pcs s !! t = Some Idle -> step s (sem_signal t s)
| s_cond t : pcs s !! t = Some Signalling -> step s (sem_signal_cond t s)
| s_destroy t : pcs s !! t = Some Idle -> (forall u p, pcs s !! u = Some p -> p = Idle \/ p = Dead) -> step s (sem_destroy t s).

Definition reachable (n : Z) (threads : gset Z) (s : state) : Prop := exists s0, sem_init n threads = Some s0 /\ rtc step s0 s.

(** The threads that are on their way to the count: woken, or about to wake one. *)
Definition coming (p : pc) : bool := match p with Woken | Signalling => true | _ => false end.

Record inv (n : Z) (s : state) : Prop := {
  s_count : sem_count s = n + given s - taken s \/ sem_count s = -1;
  s_range : -1 <= sem_count s;
  s_taken : 0 <= taken s <= n + given s;
  s_dead : sem_count s = -1 -> cond s = [] /\ count coming (pcs s) = 0;
  s_nodup : NoDup (cond s);
  s_cond_pc : forall t, t ∈ cond s -> pcs s !! t = Some Blocked;
  s_ready : cond s <> [] -> sem_count s <= count coming (pcs s)
}.

Lemma count_all_idle m : (forall u p, m !! u = Some p -> p = Idle \/ p = Dead) -> count coming m = 0.
Proof.
  intros H. unfold count. rewrite (proj2 (map_empty_filter (fun kv => coming kv.2 = true) m)); [done|].
  intros u p E. simpl. destruct (H u p E) as [-> | ->]; done.
Qed.

(** [t] is not in the queue when it runs. *)
Lemma running_out n s t p : inv n s -> pcs s !! t = Some p -> p <> Blocked -> t ∉ cond s.
Proof. intros H E Hp Hin. apply (s_cond_pc _ _ H) in Hin. congruence. Qed.

Lemma sem_take_inv n s t p : inv n s -> pcs s !! t = Some p -> p <> Blocked -> n + given s < 2 ^ 31 -> 0 < sem_count s -> inv n (take t s).
Proof.
  intros H E Hp Hn Hc. pose proof (running_out n s t p H E Hp) as Hout. destruct H as [Hcn Hr Ht Hd Hnd Hq Hre]. unfold take, goto. split; simpl.
  - rewrite s32_small by lia. left. lia.
  - rewrite s32_small by lia. lia.
  - lia.
  - rewrite s32_small by lia. lia.
  - done.
  - intros u Hu. rewrite lookup_insert_ne by (intros ->; done). by apply Hq.
  - intros Hne. rewrite s32_small by lia. rewrite (count_insert coming _ t p) by done. specialize (Hre Hne). simpl. destruct (coming p); simpl; lia.
Qed.

Lemma block_inv n s t p : inv n s -> pcs s !! t = Some p -> p <> Blocked -> sem_count s = 0 -> inv n (block t s).
Proof.
  intros H E Hp Hc. pose proof (running_out n s t p H E Hp) as Hout. destruct H as [Hcn Hr Ht Hd Hnd Hq Hre]. unfold block, goto, QSpec.enqueue. split; simpl; try done.
  - lia.
  - apply list.NoDup_app. split; [done|]. split; [|apply NoDup_singleton]. intros q Hin ->%list_elem_of_singleton. done.
  - intros u [Hu| ->%list_elem_of_singleton]%elem_of_app; [|apply lookup_insert_eq]. rewrite lookup_insert_ne by (intros ->; done). by apply Hq.
  - intros _. rewrite Hc. apply count_nonneg.
Qed.

Lemma dead_inv n s t : inv n s -> pcs s !! t = Some Idle -> inv n (goto t Dead s).
Proof.
  intros H E. pose proof (running_out n s t Idle H E ltac:(done)) as Hout. destruct H as [Hcn Hr Ht Hd Hnd Hq Hre]. unfold goto. split; simpl; try done.
  - intros Hc. rewrite (count_insert coming _ t Idle) by done. simpl. destruct (Hd Hc). split; [done|lia].
  - intros u Hu. rewrite lookup_insert_ne by (intros ->; done). by apply Hq.
  - intros Hne. rewrite (count_insert coming _ t Idle) by done. specialize (Hre Hne). simpl. lia.
Qed.

Lemma sem_step_inv n s s' : inv n s -> n + given s' < 2 ^ 31 -> step s s' -> inv n s'.
Proof.
  intros H Hn Hs. destruct Hs as [t E|t E|t E|t E|t E Hall].
  - unfold sem_wait in *. destruct (Z.ltb_spec 0 (sem_count s)); [by eapply sem_take_inv|]. destruct (Z.ltb_spec (sem_count s) 0); [by apply dead_inv|].
    apply (block_inv n s t Idle); [done|done|done|lia].
  - unfold sem_wait_again in *. destruct (Z.eqb_spec (sem_count s) 0); [by apply (block_inv n s t Woken)|].
    apply (sem_take_inv n s t Woken); [done|done|done|done|]. pose proof (s_range _ _ H). destruct (decide (sem_count s = -1)) as [Hd|]; [|lia].
    destruct (s_dead _ _ H Hd) as [_ K]. pose proof (count_pos coming (pcs s) t Woken E eq_refl). lia.
  - unfold sem_signal in *. destruct (Z.ltb_spec (sem_count s) 0); [by apply dead_inv|]. simpl in Hn.
    pose proof (running_out n s t Idle H E ltac:(done)) as Hout. destruct H as [Hcn Hr Ht Hd Hnd Hq Hre]. unfold goto. split; simpl; try done.
    + rewrite s32_small by lia. lia.
    + rewrite s32_small by lia. lia.
    + lia.
    + rewrite s32_small by lia. lia.
    + intros u Hu. rewrite lookup_insert_ne by (intros ->; done). by apply Hq.
    + intros Hne. rewrite s32_small by lia. rewrite (count_insert coming _ t Idle) by done. specialize (Hre Hne). simpl. lia.
  - unfold sem_signal_cond in *. pose proof (running_out n s t Signalling H E ltac:(done)) as Hout. destruct H as [Hcn Hr Ht Hd Hnd Hq Hre].
    destruct (cond s) as [|u q] eqn:Hc; simpl; unfold goto; split; simpl; try done.
    + intros K. destruct (Hd K) as [_ K2]. pose proof (count_pos coming (pcs s) t Signalling E eq_refl). lia.
    + by rewrite Hc.
    + rewrite Hc. intros x Hx. by apply elem_of_nil in Hx.
    + intros K. by destruct (Hd K).
    + by apply list.NoDup_cons in Hnd as [_ ?].
    + intros x Hx. apply list.NoDup_cons in Hnd as [Hu _]. rewrite !lookup_insert_ne by (intros ->; set_solver). apply Hq. set_solver.
    + intros _. assert (Hu : pcs s !! u = Some Blocked) by (apply Hq; set_solver). assert (Hut : u <> t) by congruence.
      rewrite (count_insert coming _ t Signalling) by (by rewrite lookup_insert_ne). rewrite (count_insert coming _ u Blocked) by done. specialize (Hre ltac:(done)). simpl. lia.
  - unfold sem_destroy in *. destruct (Z.ltb_spec (sem_count s) 0); [by apply dead_inv|]. destruct H as [Hcn Hr Ht Hd Hnd Hq Hre]. unfold set_count.
    assert (Hc : cond s = []). { destruct (cond s) as [|u q]; [done|]. assert (Hu : pcs s !! u = Some Blocked) by (apply Hq; set_solver). destruct (Hall u _ Hu); done. }
    split; simpl; try done; [by right|]. intros _. split; [done|]. by apply count_all_idle.
Qed.

Lemma given_step s s' : step s s' -> given s <= given s'.
Proof.
  intros [t E|t E|t E|t E|t E _]; unfold sem_wait, sem_wait_again, sem_signal, sem_signal_cond, sem_destroy, take, block, goto, set_count; repeat case_match; simpl; lia.
Qed.

Lemma sem_reachable_inv n threads s : 0 <= n < 2 ^ 31 -> reachable n threads s -> n + given s < 2 ^ 31 -> inv n s.
Proof.
  intros Hn (s0 & E & Hr). unfold sem_init in E. destruct (Z.ltb_spec n 0); [done|]. injection E as <-.
  apply rtc_ind_r with (P := fun s => n + given s < 2 ^ 31 -> inv n s) in Hr; [done| |].
  - intros _. split; simpl; try done; try lia; [constructor|set_solver].
  - intros s1 s2 _ Hs IH Hg. apply (sem_step_inv n s1); [|done|done]. apply IH. pose proof (given_step _ _ Hs). lia.
Qed.

(** A semaphore hands out no more than it has: in every interleaving, as long as the
    counter does not overflow, the waits that have returned are at most the initial
    value plus the signals, and the counter is the difference until the semaphore
    is destroyed. *)
Theorem sem_count_exact n threads s : 0 <= n < 2 ^ 31 -> reachable n threads s -> n + given s < 2 ^ 31 ->
  0 <= taken s <= n + given s /\ (sem_count s = n + given s - taken s \/ sem_count s = -1).
Proof. intros Hn Hr Hg. destruct (sem_reachable_inv n threads s Hn Hr Hg). done. Qed.

(** No wake-up is lost in a semaphore: while threads are blocked, as many threads as
    the counter allows to pass have been woken or are about to wake one. *)
Theorem sem_no_lost_wakeup n threads s : 0 <= n < 2 ^ 31 -> reachable n threads s -> n + given s < 2 ^ 31 ->
  cond s <> [] -> sem_count s <= count coming (pcs s) /\ forall t, t ∈ cond s -> pcs s !! t = Some Blocked.
Proof. intros Hn Hr Hg Hc. destruct (sem_reachable_inv n threads s Hn Hr Hg) as [_ _ _ _ _ Hq Hre]. split; [by apply Hre|done]. Qed.

(** Threads 1 and 2 wait on an empty semaphore, thread 3 has signalled once. *)
Definition demo0 : state := default (mk_state 0 [] ∅ 0 0) (sem_init 0 {[1; 2; 3]}).
Definition demo : state := sem_signal 3 (sem_wait 2 (sem_wait 1 demo0)).

Lemma sem_demo_reachable : reachable 0 {[1; 2; 3]} demo.
Proof.
  exists demo0. split; [reflexivity|]. eapply rtc_r; [eapply rtc_r; [eapply rtc_r; [apply rtc_refl|]|]|].
  - by apply (s_wait demo0 1).
  - by apply (s_wait (sem_wait 1 demo0) 2).
  - by apply (s_signal (sem_wait 2 (sem_wait 1 demo0)) 3).
Qed.

Lemma sem_count_witness : 0 <= taken demo <= 0 + given demo.
Proof. apply (sem_count_exact 0 {[1; 2; 3]} demo); [lia|exact sem_demo_reachable|reflexivity]. Defined.

Lemma sem_no_lost_wakeup_witness : sem_count demo <= count coming (pcs demo).
Proof. apply (sem_no_lost_wakeup 0 {[1; 2; 3]} demo); [lia|exact sem_demo_reachable|reflexivity|discriminate]. Defined.
End Sem.

(** ** rwlock.c *)
Module Rwlock.

Inductive pc := Idle | RBlocked | RWoken | WBlocked | WWoken | Reading | Writing | Dead.
#[export] Instance pc_eq_dec : EqDecision pc.
Proof. solve_decision. Defined.

Record state := mk_state {
  lock_state : Z; writer_waiting_count : Z; reader_waiting_count : Z; cond_reader : list Z; cond_writer : list Z; pcs : gmap Z pc }.

Definition goto (t : Z) (p : pc) (s : state) : state :=
  mk_state (lock_state s) (writer_waiting_count s) (reader_waiting_count s) (cond_reader s) (cond_writer s) (<[t := p]> (pcs s)).
Definition set_lock_state v (s : state) := mk_state v (writer_waiting_count s) (reader_waiting_count s) (cond_reader s) (cond_writer s) (pcs s).
Definition add_writer d (s : state) := mk_state (lock_state s) (s32 (writer_waiting_count s + d)) (reader_waiting_count s) (cond_reader s) (cond_writer s) (pcs s).
Definition add_reader d (s : state) := mk_state (lock_state s) (writer_waiting_count s) (s32 (reader_waiting_count s + d)) (cond_reader s) (cond_writer s) (pcs s).

Definition rwlock_init (threads : gset Z) : state := mk_state 0 0 0 [] [] (gset_to_gmap Idle threads).

(** The loops of [rwlock_lock]: [cond_wait], or the lock is taken. *)
Definition reader_waits (s : state) : bool :=
  (negb (lock_state s =? 0) || (0 <? writer_waiting_count s)) && negb ((0 <? lock_state s) && (writer_waiting_count s =? 0)).
Definition reader_loop (t : Z) (s : state) : state :=
  if reader_waits s then
    goto t RBlocked (mk_state (lock_state s) (writer_waiting_count s) (reader_waiting_count s) (QSpec.enqueue (cond_reader s) t) (cond_writer s) (pcs s))
  else goto t Reading (set_lock_state (s32 (lock_state s + 1)) (add_reader (-1) s)).
Definition writer_loop (t : Z) (s : state) : state :=
  if negb (lock_state s =? 0) then
    goto t WBlocked (mk_state (lock_state s) (writer_waiting_count s) (reader_waiting_count s) (cond_reader s) (QSpec.enqueue (cond_writer s) t) (pcs s))
  else goto t Writing (set_lock_state (-1) (add_writer (-1) s)).

(** [rwlock_lock] up to its first [cond_wait]; [is_read]: the type is RWLOCK_READ. *)
Definition rwlock_lock (is_read : bool) (t : Z) (s : state) : state :=
  if lock_state s =? -2 then goto t Dead s
  else if is_read then reader_loop t (add_reader 1 s) else writer_loop t (add_writer 1 s).

(** [cond_signal] and [cond_broadcast] *)
Definition signal_writer (s : state) : state :=
  match QSpec.dequeue (cond_writer s) with
  | None => s
  | Some (u, q) => goto u WWoken (mk_state (lock_state s) (writer_waiting_count s) (reader_waiting_count s) (cond_reader s) q (pcs s))
  end.
Definition broadcast_readers (s : state) : state :=
  mk_state (lock_state s) (writer_waiting_count s) (reader_waiting_count s) [] (cond_writer s) (put_all RWoken (cond_reader s) (pcs s)).

(** [None]: the lock is not locked, and the thread yields and looks again. *)
Definition rwlock_unlock (t : Z) (s : state) : option state :=
  if lock_state s =? -2 then Some (goto t Dead s)
  else if lock_state s =? 0 then None
  else
    let s := set_lock_state (if 0 <? lock_state s then lock_state s - 1 else lock_state s + 1) s in
    let s := goto t Idle s in
    Some (if lock_state s =? 0 then if 0 <? writer_waiting_count s then signal_writer s else broadcast_readers s else s).

Definition rwlock_destroy (t : Z) (s : state) : option state :=
  if lock_state s =? -2 then Some (goto t Dead s)
  else if negb (lock_state s =? 0) || negb (reader_waiting_count s =? 0) || negb (writer_waiting_count s =? 0) then None
  else Some (set_lock_state (-2) s).

Definition rwlock_downgrade (t : Z) (s : state) : state :=
  if negb (lock_state s =? -1) then goto t Dead s else broadcast_readers (goto t Reading (set_lock_state 1 s)).

(** A thread unlocks what it holds, and downgrades when it writes. *)
Inductive step (s : state) : state -> Prop :=
| r_lock t r : pcs s !! t = Some Idle -> step s (rwlock_lock r t s)
| r_reader t : pcs s !! t = Some RWoken -> step s (reader_loop t s)
| r_writer t : pcs s !! t = Some WWoken -> step s (writer_loop t s)
| r_unlock t p s' : pcs s !! t = Some p -> p = Reading \/ p = Writing -> rwlock_unlock t s = Some s' -> step s s'
| r_downgrade t : pcs s !! t = Some Writing -> step s (rwlock_downgrade t s)
| r_destroy t s' : pcs s !! t = Some Idle -> rwlock_destroy t s = Some s' -> step s s'.

Definition reachable (threads : gset Z) (s : state) : Prop := rtc step (rwlock_init threads) s.

(** ** Invariant *)
Definition is_reading (p : pc) : bool := match p with Reading => true | _ => false end.
Definition is_writing (p : pc) : bool := match p with Writing => true | _ => false end.
Definition is_rwait (p : pc) : bool := match p with RBlocked | RWoken => true | _ => false end.
Definition is_wwait (p : pc) : bool := match p with WBlocked | WWoken => true | _ => false end.
Definition is_wwoken (p : pc) : bool := match p with WWoken => true | _ => false end.
Abbreviation readers s := (count is_reading (pcs s)).
Abbreviation writers s := (count is_writing (pcs s)).
Abbreviation rwait s := (count is_rwait (pcs s)).
Abbreviation wwait s := (count is_wwait (pcs s)).
Abbreviation wwoken s := (count is_wwoken (pcs s)).

(** What [lock_state] says: readers hold the lock, a writer does, or it is destroyed. *)
Definition held (s : state) : Prop :=
  (lock_state s = readers s /\ writers s = 0) \/ (lock_state s = -1 /\ writers s = 1 /\ readers s = 0) \/
  (lock_state s = -2 /\ readers s = 0 /\ writers s = 0 /\ rwait s = 0 /\ wwait s = 0).

Record core (s : state) : Prop := {
  v_held : held s;
  v_size : Z.of_nat (size (pcs s)) + 1 < 2 ^ 31;
  v_rnodup : NoDup (cond_reader s);
  v_wnodup : NoDup (cond_writer s);
  v_rqueue : forall t, t ∈ cond_reader s <-> pcs s !! t = Some RBlocked;
  v_wqueue : forall t, t ∈ cond_writer s <-> pcs s !! t = Some WBlocked;
  v_free : lock_state s = 0 -> cond_reader s <> [] \/ cond_writer s <> [] -> 0 < wwoken s;
  v_shared : 0 < lock_state s -> cond_reader s <> [] -> 0 < wwait s
}.
Definition inv (s : state) : Prop := core s /\ reader_waiting_count s = rwait s /\ writer_waiting_count s = wwait s.

Lemma inv_init threads : Z.of_nat (size threads) + 1 < 2 ^ 31 -> inv (rwlock_init threads).
Proof.
  intros Hn. assert (H0 : forall f, f Idle = false -> count f (gset_to_gmap Idle threads) = 0).
  { intros f Hf. unfold count. rewrite (proj2 (map_empty_filter (fun kv => f kv.2 = true) _)); [done|].
    intros t p E. apply lookup_gset_to_gmap_Some in E as [_ <-]. simpl. congruence. }
  split; [|by rewrite !H0]. split; simpl; try done; try constructor.
  - simpl. by rewrite !H0.
  - by rewrite <- size_dom, dom_gset_to_gmap.
  - intros K. by apply elem_of_nil in K.
  - intros E. by apply lookup_gset_to_gmap_Some in E as [_ E].
  - intros K. by apply elem_of_nil in K.
  - intros E. by apply lookup_gset_to_gmap_Some in E as [_ E].
  - by intros _ [?|?].
Qed.

(** A writer that waits and is not in the queue has been woken. *)
Lemma waiting_woken s : core s -> 0 < wwait s -> cond_writer s = [] -> 0 < wwoken s.
Proof.
  intros H Hw Hq. destruct (count_exists _ _ Hw) as (t & p & E & Ep). apply (count_pos is_wwoken _ t p E). destruct p; try done.
  apply (v_wqueue _ H) in E. rewrite Hq in E. by apply elem_of_nil in E.
Qed.

(** Moving a thread between places that are not in a queue. *)
Lemma move_queue (q : list Z) (m : gmap Z pc) b t p p' : (forall u, u ∈ q <-> m !! u = Some b) -> m !! t = Some p -> p <> b -> p' <> b ->
  forall u, u ∈ q <-> <[t := p']> m !! u = Some b.
Proof.
  intros Hq E Hp Hp' u. rewrite Hq. destruct (decide (t = u)) as [->|Hne]; [rewrite lookup_insert_eq|by rewrite lookup_insert_ne]. split; congruence.
Qed.

(** A thread enters the queue. *)
Lemma enter_queue (q : list Z) (m : gmap Z pc) b t p : (forall u, u ∈ q <-> m !! u = Some b) -> NoDup q -> m !! t = Some p -> p <> b ->
  (forall u, u ∈ q ++ [t] <-> <[t := b]> m !! u = Some b) /\ NoDup (q ++ [t]).
Proof.
  intros Hq Hn E Hp. split.
  - intros u. rewrite elem_of_app, list_elem_of_singleton, Hq. destruct (decide (t = u)) as [->|Hne]; [rewrite lookup_insert_eq; tauto|]. rewrite lookup_insert_ne by done. naive_solver.
  - apply list.NoDup_app. split; [done|]. split; [|apply NoDup_singleton]. intros u Hu ->%list_elem_of_singleton. apply Hq in Hu. congruence.
Qed.

Lemma size_same (m : gmap Z pc) t p p' : m !! t = Some p -> size (<[t := p']> m) = size m.
Proof. intros E. by rewrite map_size_insert, E. Qed.

(** The counts after a move of [t] from [p]. *)
Ltac counts E := rewrite ?(count_insert _ _ _ _ _ E); simpl is_reading; simpl is_writing; simpl is_rwait; simpl is_wwait; simpl is_wwoken; simpl Z.b2z.

Lemma reader_loop_inv s t p : core s -> lock_state s <> -2 -> pcs s !! t = Some p -> p = Idle \/ p = RWoken ->
  reader_waiting_count s = rwait s - Z.b2z (is_rwait p) + 1 -> writer_waiting_count s = wwait s -> inv (reader_loop t s).
Proof.
  intros H Hl E Hp Hr Hw. pose proof H as [Hh Hsz Hn1 Hn2 Hq1 Hq2 Hf Hsh]. unfold reader_loop, reader_waits. rewrite Hw.
  pose proof (count_nonneg is_reading (pcs s)). pose proof (count_nonneg is_wwait (pcs s)). pose proof (count_le is_rwait (pcs s)). pose proof (count_le is_reading (pcs s)).
  pose proof (count_nonneg is_rwait (pcs s)). pose proof (count_nonneg is_wwoken (pcs s)).
  assert (Hpb : p <> RBlocked /\ p <> WBlocked /\ is_reading p = false /\ is_writing p = false /\ is_wwait p = false /\ is_wwoken p = false) by (destruct Hp as [-> | ->]; done).
  destruct Hpb as (P1 & P2 & P3 & P4 & P5 & P6).
  destruct ((negb (lock_state s =? 0) || (0 <? wwait s)) && negb ((0 <? lock_state s) && (wwait s =? 0))) eqn:Eb.
  - apply andb_true_iff in Eb as [B1 B2]. unfold goto. simpl. destruct (enter_queue _ _ RBlocked t p Hq1 Hn1 E P1) as [K1 K2].
    split; [split; simpl; try done|simpl; split; counts E; rewrite ?P5; simpl; lia].
    + unfold held in *. simpl. counts E. rewrite P3, P4, P5. simpl. destruct Hp as [-> | ->]; simpl; lia.
    + by rewrite (size_same _ _ p).
    + by apply (move_queue _ _ WBlocked t p).
    + intros E0 _. counts E. rewrite P6. simpl. rewrite E0 in B1. simpl in B1. apply Z.ltb_lt in B1.
      destruct (cond_writer s) as [|x q] eqn:Eq; [pose proof (waiting_woken s H B1 Eq); lia|]. rewrite <- Eq in *. specialize (Hf E0). rewrite Eq in Hf. specialize (Hf ltac:(by right)). lia.
    + intros E0 _. counts E. rewrite P5. simpl. rewrite (proj2 (Z.ltb_lt _ _) E0) in B2. simpl in B2. destruct (Z.eqb_spec (wwait s) 0); [done|lia].
  - assert (Hww : wwait s = 0 /\ 0 <= lock_state s).
    { apply andb_false_iff in Eb as [B|B].
      - apply orb_false_iff in B as [B1 B2]. apply negb_false_iff, Z.eqb_eq in B1. apply Z.ltb_ge in B2. lia.
      - apply negb_false_iff, andb_true_iff in B as [B1 B2]. apply Z.ltb_lt in B1. apply Z.eqb_eq in B2. lia. }
    destruct Hww as [Hww Hl0]. assert (Hheld : lock_state s = readers s /\ writers s = 0) by (unfold held in Hh; lia). destruct Hheld as [Hrd Hwr].
    pose proof (count_insert is_reading (pcs s) t p Reading E) as C1. rewrite P3 in C1. simpl in C1.
    pose proof (count_le is_reading (<[t := Reading]> (pcs s))) as C2. rewrite (size_same _ _ p) in C2 by done.
    assert (Hrq : cond_reader s = []).
    { destruct (cond_reader s) as [|x q] eqn:Eq; [done|]. destruct (decide (lock_state s = 0)) as [E0|E0].
      - specialize (Hf E0 ltac:(by left)). destruct (count_exists _ _ Hf) as (u & pu & Eu & Fu). destruct pu; try done. pose proof (count_pos is_wwait _ u _ Eu eq_refl). lia.
      - specialize (Hsh ltac:(lia) ltac:(done)). lia. }
    unfold goto, set_lock_state, add_reader. simpl. rewrite (s32_small (lock_state s + 1)) by lia.
    split; [split; simpl; try done|simpl; rewrite s32_small by (destruct Hp as [-> | ->]; simpl in *; lia); split; counts E; rewrite ?P5; simpl; lia].
    + unfold held. simpl. counts E. rewrite P3, P4. simpl. left. lia.
    + by rewrite (size_same _ _ p).
    + by apply (move_queue _ _ RBlocked t p).
    + by apply (move_queue _ _ WBlocked t p).
    + lia.
Qed.

Lemma writer_loop_inv s t p : core s -> lock_state s <> -2 -> pcs s !! t = Some p -> p = Idle \/ p = WWoken ->
  reader_waiting_count s = rwait s -> writer_waiting_count s = wwait s - Z.b2z (is_wwait p) + 1 -> inv (writer_loop t s).
Proof.
  intros H Hl E Hp Hr Hw. pose proof H as [Hh Hsz Hn1 Hn2 Hq1 Hq2 Hf Hsh]. unfold writer_loop.
  pose proof (count_nonneg is_reading (pcs s)). pose proof (count_nonneg is_wwait (pcs s)). pose proof (count_le is_wwait (pcs s)).
  assert (Hpb : p <> RBlocked /\ p <> WBlocked /\ is_reading p = false /\ is_writing p = false /\ is_rwait p = false) by (destruct Hp as [-> | ->]; done).
  destruct Hpb as (P1 & P2 & P3 & P4 & P5). assert (Hb : 0 <= Z.b2z (is_wwait p) <= 1) by (destruct (is_wwait p); simpl; lia).
  assert (Hb2 : Z.b2z (is_wwait p) <= wwait s) by (destruct (is_wwait p) eqn:Ep; [pose proof (count_pos _ _ t p E Ep); simpl; lia|simpl; lia]).
  destruct (Z.eqb_spec (lock_state s) 0) as [E0|E0]; cbn [negb].
  - unfold goto, set_lock_state, add_writer. simpl.
    split; [split; simpl; try done|simpl; rewrite s32_small by lia; split; counts E; rewrite ?P5; simpl; lia].
    + unfold held in *. simpl. counts E. rewrite P3, P4. simpl. right. left. lia.
    + by rewrite (size_same _ _ p).
    + by apply (move_queue _ _ RBlocked t p).
    + by apply (move_queue _ _ WBlocked t p).
  - unfold goto. simpl. destruct (enter_queue _ _ WBlocked t p Hq2 Hn2 E P2) as [K1 K2].
    split; [split; simpl; try done|simpl; split; counts E; rewrite ?P5; simpl; lia].
    + unfold held in *. simpl. counts E. rewrite P3, P4, P5. simpl. lia.
    + by rewrite (size_same _ _ p).
    + by apply (move_queue _ _ RBlocked t p).
    + intros _ _. counts E. lia.
Qed.

(** [core] without its last two parts. *)
Record base (s : state) : Prop := {
  b_held : held s;
  b_size : Z.of_nat (size (pcs s)) + 1 < 2 ^ 31;
  b_rnodup : NoDup (cond_reader s);
  b_wnodup : NoDup (cond_writer s);
  b_rqueue : forall t, t ∈ cond_reader s <-> pcs s !! t = Some RBlocked;
  b_wqueue : forall t, t ∈ cond_writer s <-> pcs s !! t = Some WBlocked
}.

(** A holder lets go or goes over to reading. *)
Lemma hold_base s t p p' l : core s -> pcs s !! t = Some p -> p = Reading \/ p = Writing -> p' = Idle \/ p' = Reading -> held (goto t p' (set_lock_state l s)) ->
  base (goto t p' (set_lock_state l s)) /\ count is_rwait (<[t := p']> (pcs s)) = rwait s /\ count is_wwait (<[t := p']> (pcs s)) = wwait s /\ count is_wwoken (<[t := p']> (pcs s)) = wwoken s.
Proof.
  intros [Hh Hsz Hn1 Hn2 Hq1 Hq2 Hf Hsh] E Hp Hp' Hl. split.
  - split; simpl; try done.
    + by rewrite (size_same _ _ p).
    + apply (move_queue _ _ RBlocked t p p' Hq1 E); naive_solver.
    + apply (move_queue _ _ WBlocked t p p' Hq2 E); naive_solver.
  - counts E. destruct Hp as [-> | ->], Hp' as [-> | ->]; simpl; lia.
Qed.

Lemma rw_signal_inv s : base s -> lock_state s = 0 -> 0 < wwait s -> reader_waiting_count s = rwait s -> writer_waiting_count s = wwait s -> inv (signal_writer s).
Proof.
  intros Hb E0 Hw Er Ew. pose proof Hb as [Hh Hsz Hn1 Hn2 Hq1 Hq2]. unfold signal_writer. destruct (cond_writer s) as [|u q] eqn:Eq; simpl.
  - split; [|done]. destruct Hb. split; try done; try lia. intros _ _. destruct (count_exists _ _ Hw) as (t & p & E & Ep). apply (count_pos is_wwoken _ t p E). destruct p; try done.
    apply Hq2 in E. by apply elem_of_nil in E.
  - assert (Eu : pcs s !! u = Some WBlocked) by (apply Hq2; set_solver). apply list.NoDup_cons in Hn2 as [Hu Hn2].
    unfold goto. simpl. split; [split; simpl; try done|simpl; counts Eu; lia].
    + unfold held in *. simpl. counts Eu. lia.
    + by rewrite (size_same _ _ WBlocked).
    + by apply (move_queue _ _ RBlocked u WBlocked).
    + intros x. destruct (decide (u = x)) as [->|Hne]; [rewrite lookup_insert_eq; naive_solver|]. rewrite lookup_insert_ne by done. rewrite <- Hq2. set_solver.
    + intros _ _. counts Eu. pose proof (count_nonneg is_wwoken (pcs s)). lia.
    + lia.
Qed.

Lemma broadcast_inv s : base s -> (lock_state s = 0 -> wwait s = 0) -> reader_waiting_count s = rwait s -> writer_waiting_count s = wwait s -> inv (broadcast_readers s).
Proof.
  intros [Hh Hsz Hn1 Hn2 Hq1 Hq2] E0 Er Ew. unfold broadcast_readers.
  assert (Hc : forall f, f RWoken = f RBlocked -> count f (put_all RWoken (cond_reader s) (pcs s)) = count f (pcs s)).
  { intros f Ef. rewrite (count_put_all f _ RBlocked) by (try done; intros u Hu; by apply Hq1). rewrite Ef. lia. }
  split; [split; simpl; try done|simpl; by rewrite !Hc].
  - unfold held in *. simpl. by rewrite !Hc.
  - replace (size (put_all RWoken (cond_reader s) (pcs s))) with (size (pcs s)); [done|]. unfold put_all.
    assert (Hin : forall u, u ∈ cond_reader s -> is_Some (pcs s !! u)) by (intros u Hu; apply Hq1 in Hu; by eexists). revert Hin. generalize (cond_reader s). intros q.
    induction q as [|x q IH]; intros Hin; [done|]. simpl. fold (put_all RWoken q (pcs s)). destruct (Hin x ltac:(set_solver)) as [px Ex].
    assert (is_Some (put_all RWoken q (pcs s) !! x)) as [py Ey] by (rewrite put_all_lookup; case_bool_decide; eauto).
    rewrite (size_same _ _ py) by done. apply IH. intros u Hu. apply Hin. set_solver.
  - constructor.
  - intros x. split; [intros K; by apply elem_of_nil in K|]. rewrite put_all_lookup. case_bool_decide as D; [done|]. intros Ex. by apply Hq1 in Ex.
  - intros x. rewrite put_all_lookup. case_bool_decide as D; [|apply Hq2]. split; [|done]. intros Hx. apply Hq1 in D. apply Hq2 in Hx. congruence.
  - intros E. rewrite Hc by done. intros [?|Hq]; [done|]. specialize (E0 E). destruct (cond_writer s) as [|u q]; [done|].
    assert (Eu : pcs s !! u = Some WBlocked) by (apply Hq2; set_solver). pose proof (count_pos is_wwait _ u _ Eu eq_refl). lia.
Qed.

Lemma unlock_inv s t p s' : inv s -> pcs s !! t = Some p -> p = Reading \/ p = Writing -> rwlock_unlock t s = Some s' -> inv s'.
Proof.
  intros (H & Er & Ew) E Hp. pose proof (v_held _ H) as Hh. unfold rwlock_unlock.
  pose proof (count_nonneg is_reading (pcs s)). pose proof (count_nonneg is_wwait (pcs s)).
  assert (Hpos : (p = Reading /\ 0 < readers s /\ lock_state s = readers s /\ writers s = 0) \/ (p = Writing /\ lock_state s = -1 /\ writers s = 1 /\ readers s = 0)).
  { unfold held in Hh. destruct Hp as [-> | ->]; [pose proof (count_pos is_reading _ t _ E eq_refl)|pose proof (count_pos is_writing _ t _ E eq_refl)]; [left|right]; (split; [done|]); lia. }
  destruct (Z.eqb_spec (lock_state s) (-2)); [lia|]. destruct (Z.eqb_spec (lock_state s) 0); [lia|]. set (l := if 0 <? lock_state s then lock_state s - 1 else lock_state s + 1).
  assert (Hl : held (goto t Idle (set_lock_state l s))).
  { unfold held. simpl. unfold l. destruct Hpos as [(-> & ? & ? & ?)|(-> & ? & ? & ?)]; counts E.
    - rewrite (proj2 (Z.ltb_lt _ _)) by lia. left. lia.
    - rewrite (proj2 (Z.ltb_ge _ _)) by lia. left. lia. }
  destruct (hold_base s t p Idle l H E Hp (or_introl eq_refl) Hl) as (Hb & C1 & C2 & C3). simpl. intros [= <-]. destruct (Z.eqb_spec l 0) as [E0|E0].
  - rewrite Ew. destruct (Z.ltb_spec 0 (wwait s)); [apply rw_signal_inv|apply broadcast_inv]; simpl; rewrite ?C1, ?C2; try done. lia.
  - split; [|by simpl; rewrite C1, C2]. destruct Hb as [Hh1 Hsz Hn1 Hn2 Hq1 Hq2]. split; try done; simpl. rewrite C2. intros Hpos' Hne. apply (v_shared _ H); [|done].
    unfold l in Hpos', E0. destruct (Z.ltb_spec 0 (lock_state s)); lia.
Qed.

Lemma rw_step_inv s s' : inv s -> step s s' -> inv s'.
Proof.
  intros (H & Er & Ew) [t r E|t E|t E|t p s1 E Hp R|t E|t s1 E R].
  - unfold rwlock_lock. destruct (Z.eqb_spec (lock_state s) (-2)) as [El|El].
    + destruct H as [Hh Hsz Hn1 Hn2 Hq1 Hq2 Hf Hsh]. unfold goto. split; [split; simpl; try done|simpl; counts E; lia].
      * unfold held in *. simpl. counts E. lia.
      * by rewrite (size_same _ _ Idle).
      * by apply (move_queue _ _ RBlocked t Idle).
      * by apply (move_queue _ _ WBlocked t Idle).
      * lia.
      * lia.
    + pose proof (v_size _ H). pose proof (count_le is_rwait (pcs s)). pose proof (count_le is_wwait (pcs s)). pose proof (count_nonneg is_rwait (pcs s)). pose proof (count_nonneg is_wwait (pcs s)).
      assert (Hcore : forall d, core (add_reader d s) /\ core (add_writer d s)) by (intros d; destruct H; split; split; done).
      destruct r; [apply (reader_loop_inv _ t Idle)|apply (writer_loop_inv _ t Idle)]; try apply Hcore; try done; try (by left); simpl; rewrite s32_small; lia.
  - pose proof (count_pos is_rwait _ t _ E eq_refl). apply (reader_loop_inv s t RWoken); try done; [|by right|simpl; lia]. intros El. destruct (v_held _ H) as [[? ?]|[[? ?]|(? & ? & ? & ? & ?)]]; try lia.
    pose proof (count_nonneg is_reading (pcs s)). lia.
  - pose proof (count_pos is_wwait _ t _ E eq_refl). apply (writer_loop_inv s t WWoken); try done; [|by right|simpl; lia]. intros El. destruct (v_held _ H) as [[? ?]|[[? ?]|(? & ? & ? & ? & ?)]]; try lia.
    pose proof (count_nonneg is_reading (pcs s)). lia.
  - by apply (unlock_inv s t p).
  - unfold rwlock_downgrade. pose proof (count_pos is_writing _ t _ E eq_refl). pose proof (v_held _ H) as Hh.
    assert (Hs : lock_state s = -1 /\ writers s = 1 /\ readers s = 0) by (unfold held in Hh; lia). destruct Hs as (-> & Hw & Hr). simpl.
    assert (Hl : held (goto t Reading (set_lock_state 1 s))) by (unfold held; simpl; counts E; left; lia).
    destruct (hold_base s t Writing Reading 1 H E (or_intror eq_refl) (or_intror eq_refl) Hl) as (Hb & C1 & C2 & C3). apply broadcast_inv; simpl; rewrite ?C1, ?C2; done.
  - unfold rwlock_destroy in R. destruct (Z.eqb_spec (lock_state s) (-2)) as [El|El].
    + injection R as <-. destruct H as [Hh Hsz Hn1 Hn2 Hq1 Hq2 Hf Hsh]. unfold goto. split; [split; simpl; try done|simpl; counts E; lia].
      * unfold held in *. simpl. counts E. lia.
      * by rewrite (size_same _ _ Idle).
      * by apply (move_queue _ _ RBlocked t Idle).
      * by apply (move_queue _ _ WBlocked t Idle).
      * lia.
      * lia.
    + destruct (Z.eqb_spec (lock_state s) 0) as [E0|]; [|done]. destruct (Z.eqb_spec (reader_waiting_count s) 0) as [E1|]; [|done]. destruct (Z.eqb_spec (writer_waiting_count s) 0) as [E2|]; [|done].
      injection R as <-. destruct H as [Hh Hsz Hn1 Hn2 Hq1 Hq2 Hf Hsh]. split; [|done]. split; simpl; try done. unfold held in *. simpl. lia.
Qed.

Lemma rw_reachable_inv threads s : Z.of_nat (size threads) + 1 < 2 ^ 31 -> reachable threads s -> inv s.
Proof.
  intros Hn Hr. unfold reachable in Hr. apply rtc_ind_r with (P := inv) in Hr; [done|by apply inv_init|]. intros s1 s2 _ Hs H. by eapply rw_step_inv.
Qed.

(** (C36) Readers and writers exclude each other: when a thread has the lock for writing,
    no other thread has it for reading or writing, and [lock_state] is -1; when
    readers have it, [lock_state] is their number. *)
Theorem rwlock_exclusion threads s : Z.of_nat (size threads) + 1 < 2 ^ 31 -> reachable threads s ->
  (forall t u p, pcs s !! t = Some Writing -> t <> u -> pcs s !! u = Some p -> p <> Reading /\ p <> Writing) /\
  (0 < writers s -> lock_state s = -1) /\ (0 < readers s -> lock_state s = readers s).
Proof.
  intros Hn Hr. destruct (rw_reachable_inv threads s Hn Hr) as (H & _). pose proof (v_held _ H) as Hh. unfold held in Hh. split; [|lia].
  intros t u p E Hne Eu. pose proof (count_pos is_writing _ t _ E eq_refl) as Hw. split; intros ->.
  - pose proof (count_pos is_reading _ u _ Eu eq_refl). lia.
  - pose proof (count_two is_writing _ t u _ _ Hne E Eu eq_refl eq_refl). lia.
Qed.

(** (C37) Nobody waits for ever on a free readers/writers lock: if the lock is free and
    threads are blocked, some writer has been woken, and takes the lock when it
    runs; if readers share the lock and another reader is blocked, a writer is
    waiting; and a writer that waits keeps new readers out. *)
Theorem rwlock_no_lost_wakeup threads s : Z.of_nat (size threads) + 1 < 2 ^ 31 -> reachable threads s ->
  (lock_state s = 0 -> cond_reader s <> [] \/ cond_writer s <> [] -> exists t, pcs s !! t = Some WWoken /\ pcs (writer_loop t s) !! t = Some Writing) /\
  (0 < lock_state s -> cond_reader s <> [] -> 0 < writer_waiting_count s) /\
  (forall t, pcs s !! t = Some Idle -> lock_state s <> -2 -> 0 < writer_waiting_count s -> pcs (rwlock_lock true t s) !! t = Some RBlocked).
Proof.
  intros Hn Hr. destruct (rw_reachable_inv threads s Hn Hr) as (H & _ & Ew). split; [|split].
  - intros E0 Hq. destruct (count_exists _ _ (v_free _ H E0 Hq)) as (t & p & E & Ep). destruct p; try done. exists t. split; [done|].
    unfold writer_loop. rewrite E0. simpl. apply lookup_insert_eq.
  - rewrite Ew. apply (v_shared _ H).
  - intros t E Hl Hw. unfold rwlock_lock. rewrite (proj2 (Z.eqb_neq _ _) Hl). unfold reader_loop, reader_waits. simpl.
    rewrite (proj2 (Z.ltb_lt _ _) Hw), orb_true_r. destruct (Z.eqb_spec (writer_waiting_count s) 0); [lia|]. rewrite andb_false_r. simpl. apply lookup_insert_eq.
Qed.

(** Thread 1 reads, thread 2 waits to write, thread 3 to read; then 1 unlocks. *)
Definition demo1 : state := rwlock_lock true 3 (rwlock_lock false 2 (rwlock_lock true 1 (rwlock_init {[1; 2; 3]}))).
Definition demo : state := default demo1 (rwlock_unlock 1 demo1).
Definition demo_writes : state := writer_loop 2 demo.

Lemma demo1_reachable : reachable {[1; 2; 3]} demo1.
Proof.
  unfold demo1. eapply rtc_r; [eapply rtc_r; [eapply rtc_r; [apply rtc_refl|]|]|].
  - by apply (r_lock (rwlock_init {[1; 2; 3]}) 1 true).
  - by apply (r_lock (rwlock_lock true 1 (rwlock_init {[1; 2; 3]})) 2 false).
  - by apply (r_lock (rwlock_lock false 2 (rwlock_lock true 1 (rwlock_init {[1; 2; 3]}))) 3 true).
Qed.

Lemma rw_demo_reachable : reachable {[1; 2; 3]} demo.
Proof.
  assert (E : bool_decide (is_Some (rwlock_unlock 1 demo1)) = true) by (vm_compute; reflexivity).
  assert (E1 : bool_decide (pcs demo1 !! 1 = Some Reading) = true) by (vm_compute; reflexivity). apply bool_decide_eq_true in E1.
  unfold demo. destruct (rwlock_unlock 1 demo1) as [s'|] eqn:R; [|done]. clear E.
  eapply rtc_r; [exact demo1_reachable|]. exact (r_unlock demo1 1 Reading s' E1 (or_introl eq_refl) R).
Qed.

Lemma demo_writes_reachable : reachable {[1; 2; 3]} demo_writes.
Proof. eapply rtc_r; [apply rw_demo_reachable|]. by apply r_writer. Qed.

Lemma rwlock_exclusion_witness : pcs demo_writes !! 2 = Some Writing /\ lock_state demo_writes = -1.
Proof.
  split; [reflexivity|]. destruct (rwlock_exclusion {[1; 2; 3]} demo_writes) as (_ & H & _); [vm_compute; reflexivity|exact demo_writes_reachable|].
  apply H. reflexivity.
Defined.

Lemma rwlock_no_lost_wakeup_witness : exists t, pcs demo !! t = Some WWoken /\ pcs (writer_loop t demo) !! t = Some Writing.
Proof.
  destruct (rwlock_no_lost_wakeup {[1; 2; 3]} demo) as (H & _); [vm_compute; reflexivity|exact rw_demo_reachable|].
  apply H; [reflexivity|]. left. discriminate.
Defined.
End Rwlock.
