(* ===== verification/ThrStacks.v ===== *)
(** * Thread stacks and stack growth of the user libraries
      (src/user/libthread/thr_lib_helper.c, src/user/libautostack/autostack.c)

    The stack of slot [i] is the [i]-th block of [stack_size] bytes below the root
    thread's stack.  Blocks need not be page-aligned, so that neighbours share
    pages: the highest and the lowest page of a block are allocated, and given
    back, with regard to them.  The root thread's stack grows by page faults until
    the first thread is created.

    The system calls are parameters; [UserPages] is what the kernel promises of
    new_pages (Syscalls.v, VmProofs.v). *)

From S2P Require Import Prelude.
From Stdlib Require Import ZArith Lia.
From stdpp Require Import base gmap list tactics numbers.

#[local] Open Scope Z_scope.

(** [has v k]: page number [k] can be used. *)
Class UserPages (V : Type) := { has : V -> Z -> bool; new_pages : Z -> Z -> M V Z }.

Definition ERROR_NEW_PAGES_OVERLAP_EXISTING_REGION : Z := -258.
Definition ERROR_NEW_PAGES_INSUFFICIENT_RESOURCE : Z := -12.

(** Pages [k] to [k + n - 1] are added when none of them is there; other failures
    change nothing. *)
Class UserPagesLaws (V : Type) `{UserPages V} := {
  new_pages_law v k n : 4096 <= k -> 0 < n -> k + n <= 2 ^ 20 ->
    exists r v', new_pages (4096 * k) (4096 * n) v = Ok (r, v') /\
      ((r = 0 /\ (forall j, k <= j < k + n -> has v j = false) /\ forall j, has v' j = has v j || ((k <=? j) && (j <? k + n))) \/
       (r = ERROR_NEW_PAGES_OVERLAP_EXISTING_REGION /\ v' = v /\ exists j, k <= j < k + n /\ has v j = true) \/
       (- 2 ^ 31 <= r < 0 /\ r <> ERROR_NEW_PAGES_OVERLAP_EXISTING_REGION /\ v' = v))
}.

Module ThrStacks.

Definition PAGE_SIZE : Z := 4096.
Definition ALIGNMENT : Z := 4.
Definition PAGE_ALIGN_MASK : Z := 4294963200.
Definition ERROR_NEW_PAGES_GENERAL : Z := 3.
Definition ERROR_SWEXN_REGIS : Z := 3.
Definition ERROR_MISALIGNMENT : Z := 3.
Definition page_of (a : Z) : Z := Z.land a PAGE_ALIGN_MASK.

Section stacks.
Context {V : Type} `{UP : UserPages V}.
(** [swexn(esp3, eip, ...)] and the heap. *)
Context (swexn : Z -> bool -> M V Z) (malloc : Z -> M V Z) (free : Z -> M V unit).

(** The static variables of autostack.c, then those of thr_lib_helper.c, and the
    memory of the task. *)
Record lib := mk_lib {
  exn_stack_high : Z; exn_stack_low : Z; auto_low : Z; auto_high : Z;
  root_thread_stack_low : Z; root_thread_stack_high : Z; stack_size : Z; vm : V }.

Definition set_auto_low x (s : lib) := mk_lib (exn_stack_high s) (exn_stack_low s) x (auto_high s) (root_thread_stack_low s) (root_thread_stack_high s) (stack_size s) (vm s).
Definition set_auto_high x (s : lib) := mk_lib (exn_stack_high s) (exn_stack_low s) (auto_low s) x (root_thread_stack_low s) (root_thread_stack_high s) (stack_size s) (vm s).
Definition set_exn h l (s : lib) := mk_lib h l (auto_low s) (auto_high s) (root_thread_stack_low s) (root_thread_stack_high s) (stack_size s) (vm s).
Definition set_root_low x (s : lib) := mk_lib (exn_stack_high s) (exn_stack_low s) (auto_low s) (auto_high s) x (root_thread_stack_high s) (stack_size s) (vm s).
Definition set_helper h n (s : lib) := mk_lib (exn_stack_high s) (exn_stack_low s) (auto_low s) (auto_high s) (root_thread_stack_low s) h n (vm s).
Definition set_vm x (s : lib) := mk_lib (exn_stack_high s) (exn_stack_low s) (auto_low s) (auto_high s) (root_thread_stack_low s) (root_thread_stack_high s) (stack_size s) x.

Definition sys {A} (m : M V A) : M lib A := zoom vm set_vm m.

(** ** autostack.c *)

Definition get_root_thread_stack_low : M lib Z :=
  r ← sys (swexn 0 false);
  if r <? 0 then mret ERROR_SWEXN_REGIS else
  low ← gets exn_stack_low;
  (if negb (low =? 0) then sys (free low) else mret tt);;
  gets auto_low.

Definition get_root_thread_stack_high : M lib Z := gets auto_high.

(** [num_pages] is an [int]. *)
Definition allocate_pages (range_high range_low : Z) : M lib Z :=
  root ← gets auto_low;
  let highest_page_base := page_of range_high in
  let lowest_page_base := page_of range_low in
  let num_pages := s32 (1 + w32 (highest_page_base - lowest_page_base) / PAGE_SIZE) in
  let num_pages := if highest_page_base =? page_of root then num_pages - 1 else num_pages in
  r ← (if 0 <? num_pages then sys (new_pages lowest_page_base (s32 (num_pages * PAGE_SIZE))) else mret 0);
  if negb (r =? 0) then mret ERROR_NEW_PAGES_GENERAL else mret lowest_page_base.

Definition SWEXN_CAUSE_PAGEFAULT : Z := 14.
Definition VALID_OUTBOUND : Z := 4.

(** The handler returns without re-registering when it does not handle the fault,
    so that the kernel kills the thread; [true]: the instruction is run again. *)
Definition swexn_handler (cause cr2 ebp esp : Z) : M lib bool :=
  if negb (cause =? SWEXN_CAUSE_PAGEFAULT) then mret false else
  if (ebp <? cr2) || (w32 (cr2 + VALID_OUTBOUND) <? esp) then mret false else
  root ← gets auto_low;
  new_low ← allocate_pages (w32 (root - 1)) cr2;
  if new_low =? ERROR_NEW_PAGES_GENERAL then mret false else
  modify (set_auto_low new_low);;
  esp3 ← gets exn_stack_high;
  r ← sys (swexn esp3 true);
  mret (negb (r <? 0)).

Definition EXCEPTION_STACK_SIZE : Z := PAGE_SIZE / 16.
(** [while (x % ALIGNMENT != 0) x--] *)
Definition align_down (x : Z) : Z := x - x mod ALIGNMENT.

Definition install_autostack (stack_high stack_low : Z) : M lib unit :=
  modify (set_auto_high stack_high);;
  modify (set_auto_low stack_low);;
  new_base ← sys (malloc EXCEPTION_STACK_SIZE);
  if new_base =? 0 then mret tt else
  let high := align_down (w32 (new_base + EXCEPTION_STACK_SIZE - 1)) in
  modify (set_exn high new_base);;
  sys (swexn high true);;
  mret tt.

(** ** thr_lib_helper.c *)

Definition thr_lib_helper_init (size : Z) : M lib Z :=
  high ← get_root_thread_stack_high;
  modify (set_helper high size);;
  mret 0.

(** The block of slot [index]. *)
Definition stack_low (s : lib) (index : Z) : Z := w32 (root_thread_stack_low s - index * stack_size s).
Definition stack_high (s : lib) (index : Z) : Z := w32 (stack_low s index + stack_size s - 1).

(** The three allocations: [inl] is the error code that is returned. *)
Definition allocate_stack (low high : Z) : M V (Z + unit) :=
  let low_page := page_of low in
  let high_page := page_of high in
  let num_pages := s32 (w32 (high_page - low_page) / PAGE_SIZE) in
  ret ← new_pages high_page PAGE_SIZE;
  if negb (ret =? 0) && negb (ret =? ERROR_NEW_PAGES_OVERLAP_EXISTING_REGION) then mret (inl ret) else
  ret ← (if 1 <? num_pages then new_pages (w32 (low_page + PAGE_SIZE)) (s32 ((num_pages - 1) * PAGE_SIZE)) else mret 0);
  if negb (ret =? 0) then mret (inl ret) else
  if negb (low_page =? high_page) then
    ret ← new_pages low_page PAGE_SIZE;
    if negb (ret =? 0) && negb (ret =? ERROR_NEW_PAGES_OVERLAP_EXISTING_REGION) then mret (inl ret) else mret (inr tt)
  else mret (inr tt).

Definition get_new_stack_top (index : Z) : M lib Z :=
  root ← gets root_thread_stack_low;
  bad ← (if (index =? 1) && (root =? 0) then
           low ← get_root_thread_stack_low;
           modify (set_root_low low);;
           mret (negb (low mod ALIGNMENT =? 0))
         else mret false);
  if (bad : bool) then mret ERROR_MISALIGNMENT else
  s ← get;
  if index =? 0 then mret (root_thread_stack_low s) else
  r ← sys (allocate_stack (stack_low s index) (stack_high s index));
  match r with
  | inl ret => mret (w32 ret)
  | inr _ => mret (align_down (stack_high s index))
  end.

(** [live j]: [arraytcb_get_thread(j)] is not NULL; slots below [cursize] are
    valid.  The loops stop at an invalid slot, so that they have at most [cursize]
    turns. *)
Section remove.
Context (cursize : Z) (live : Z -> bool).
Definition is_valid (index : Z) : bool := (0 <=? index) && (index <? cursize).

Fixpoint upper_loop (fuel : nat) (index i upper_stack_low high_page size : Z) : bool :=
  match fuel with
  | O => true
  | S fuel =>
      if (page_of upper_stack_low =? high_page) && negb (index - 1 =? 0) then
        if negb (is_valid (index - i)) then true
        else if live (index - i) then false
        else upper_loop fuel index (i + 1) (w32 (upper_stack_low + size)) high_page size
      else true
  end.

Fixpoint lower_loop (fuel : nat) (index i lower_stack_high low_page size : Z) : bool :=
  match fuel with
  | O => true
  | S fuel =>
      if page_of lower_stack_high =? low_page then
        if negb (is_valid (index + i)) then true
        else if live (index + i) then false
        else lower_loop fuel index (i + 1) (w32 (lower_stack_high - size)) low_page size
      else true
  end.

(** What is to be removed: the highest page, the middle pages and the lowest page,
    each by its base. *)
Record removal := mk_removal { highest : option Z; middle : option Z; lowest : option Z }.

Definition get_pages_to_remove (s : lib) (index : Z) : removal :=
  if index =? 0 then mk_removal None None None else
  let low := stack_low s index in
  let high := stack_high s index in
  let high_page := page_of high in
  let low_page := page_of low in
  let can_high := upper_loop (Z.to_nat cursize + 1) index 1 (w32 (high + 1)) high_page (stack_size s) in
  let num_pages := s32 (w32 (high_page - low_page) / PAGE_SIZE) in
  let can_low := lower_loop (Z.to_nat cursize + 1) index 1 (w32 (low - 1)) low_page (stack_size s) in
  mk_removal
    (if can_high && (negb (low_page =? high_page) || can_low) then Some high_page else None)
    (if 1 <? num_pages then Some (w32 (low_page + PAGE_SIZE)) else None)
    (if negb (low_page =? high_page) && can_low then Some low_page else None).
End remove.

(** [asm_get_esp] is an argument; the result is an [int]. *)
Definition get_stack_position_index (s : lib) (esp : Z) : Z :=
  if (esp <=? root_thread_stack_high s) && (root_thread_stack_low s <=? esp) then 0
  else s32 (1 + w32 (root_thread_stack_low s - esp - 1) / stack_size s).
End stacks.
Arguments mk_lib {V}.
Arguments lib : clear implicits.

(** ** Blocks and pages *)
#[local] Ltac Zify.zify_post_hook ::= Z.to_euclidean_division_equations.

Lemma page_of_div x : 0 <= x < 2 ^ 32 -> page_of x = 4096 * (x / 4096).
Proof. exact (land_page_mask x). Qed.

Section facts.
Context {V : Type} `{UP : UserPages V}.
Implicit Types s : lib V.

(** The slots up to [n - 1] fit below the root stack, which starts at a page. *)
Record layout s (n : Z) : Prop := {
  l_size : 0 < stack_size s < 2 ^ 31;
  l_root : root_thread_stack_low s mod 4096 = 0 /\ root_thread_stack_low s <= root_thread_stack_high s < 2 ^ 32;
  l_fit : 16777216 <= root_thread_stack_low s - (n - 1) * stack_size s
}.

Lemma stack_low_eq s n i : layout s n -> 0 <= i < n -> stack_low s i = root_thread_stack_low s - i * stack_size s.
Proof. intros [H1 [H2 H3] H4] Hi. unfold stack_low. apply w32_small. nia. Qed.

Lemma stack_high_eq s n i : layout s n -> 1 <= i < n -> stack_high s i = root_thread_stack_low s - (i - 1) * stack_size s - 1.
Proof. intros H Hi. unfold stack_high. rewrite (stack_low_eq s n) by (try done; lia). destruct H as [H1 [H2 H3] H4]. rewrite w32_small by nia. lia. Qed.

(** The block of a slot is where one would expect it. *)
Lemma block_bounds s n i : layout s n -> 1 <= i < n -> 16777216 <= stack_low s i <= stack_high s i /\ stack_high s i < root_thread_stack_low s /\ stack_high s i = stack_low s i + stack_size s - 1.
Proof. intros H Hi. rewrite (stack_high_eq s n), (stack_low_eq s n) by (try done; lia). destruct H as [H1 [H2 H3] H4]. nia. Qed.

Lemma block_order s n i j : layout s n -> 1 <= i < j -> j < n -> stack_high s j < stack_low s i.
Proof. intros H Hi Hj. rewrite (stack_high_eq s n), (stack_low_eq s n) by (try done; lia). destruct H as [H1 [H2 H3] H4]. nia. Qed.

(** The slot of a thread is found from its stack pointer: every address in the block
    of slot [i] gives [i], and every address of the root stack gives 0. *)
Theorem stack_index_roundtrip s n i esp : layout s n -> n < 2 ^ 31 -> 0 <= i < n ->
  (if i =? 0 then root_thread_stack_low s <= esp <= root_thread_stack_high s else stack_low s i <= esp <= stack_high s i) ->
  get_stack_position_index s esp = i.
Proof.
  intros H Hn Hi He. unfold get_stack_position_index. destruct (Z.eqb_spec i 0) as [->|Hi0].
  - by rewrite !(proj2 (Z.leb_le _ _)) by lia.
  - rewrite (stack_high_eq s n), (stack_low_eq s n) in He by (try done; lia). destruct H as [H1 [H2 H3] H4].
    assert (E : (root_thread_stack_low s <=? esp) = false) by (apply Z.leb_gt; nia). rewrite E, andb_false_r. rewrite w32_small by nia.
    replace ((root_thread_stack_low s - esp - 1) / stack_size s) with (i - 1); [rewrite s32_small; lia|].
    apply (Z.div_unique _ _ _ (root_thread_stack_low s - esp - 1 - (i - 1) * stack_size s)); nia.
Qed.

(** Page [k] holds bytes of the block of slot [j]. *)
Definition meets s (j k : Z) : Prop := stack_low s j / 4096 <= k <= stack_high s j / 4096.

Section removal.
Context (cursize : Z) (live : Z -> bool).

Lemma upper_loop_ok s index : layout s cursize -> 1 <= index < cursize -> forall (fuel : nat) i, 1 <= i <= index + 1 -> index - i + 1 < Z.of_nat fuel ->
  upper_loop cursize live fuel index i (w32 (root_thread_stack_low s - (index - i) * stack_size s)) (page_of (stack_high s index)) (stack_size s) = true <->
  forall j, 1 <= j <= index - i -> stack_low s j / 4096 = stack_high s index / 4096 -> live j = false.
Proof.
  intros H Hx fuel. induction fuel as [|fuel IH]; intros i Hi Hf; [lia|]. cbn [upper_loop]. destruct (block_bounds s cursize index H Hx) as (B1 & B2 & _).
  destruct (Z.eqb_spec (index - 1) 0) as [E1|E1]; cbn [negb]; [rewrite andb_false_r; split; [lia|done]|]. rewrite andb_true_r.
  destruct (decide (1 <= index - i)) as [Hji|Hji].
  - assert (Elow : w32 (root_thread_stack_low s - (index - i) * stack_size s) = stack_low s (index - i)) by done. rewrite Elow.
    destruct (block_bounds s cursize (index - i) H ltac:(lia)) as (C1 & C2 & _). pose proof (block_order s cursize (index - i) index H ltac:(lia) ltac:(lia)) as C3.
    destruct H as [H1 [H2 H3] H4]. rewrite !page_of_div by lia. destruct (Z.eqb_spec (4096 * (stack_low s (index - i) / 4096)) (4096 * (stack_high s index / 4096))) as [E|E].
    + unfold is_valid. rewrite (proj2 (Z.leb_le _ _)), (proj2 (Z.ltb_lt _ _)) by lia. simpl. destruct (live (index - i)) eqn:El.
      * split; [done|]. intros K. rewrite (K (index - i)) in El by lia. done.
      * replace (w32 (stack_low s (index - i) + stack_size s)) with (w32 (root_thread_stack_low s - (index - (i + 1)) * stack_size s)).
        -- rewrite page_of_div in IH by lia. rewrite IH by lia. split; intros K j Hj Ej; [|apply K; lia]. destruct (decide (j = index - i)) as [->|]; [done|]. apply K; lia.
        -- unfold stack_low, w32. rewrite Z.add_mod_idemp_l by lia. f_equal. lia.
    + split; [|done]. intros _ j Hj Ej. exfalso. apply E. f_equal.
      assert (stack_low s (index - i) <= stack_low s j). { destruct (decide (j = index - i)) as [->|]; [lia|]. pose proof (block_order s cursize j (index - i) ltac:(by split) ltac:(lia) ltac:(lia)). destruct (block_bounds s cursize (index - i) ltac:(by split) ltac:(lia)). lia. }
      pose proof (Z.div_le_mono (stack_low s (index - i)) (stack_low s j) 4096). pose proof (Z.div_le_mono (stack_high s index) (stack_low s (index - i)) 4096). lia.
  - assert (Hout : forall b, (if page_of b =? page_of (stack_high s index) then if negb (is_valid cursize (index - i)) then true else if live (index - i) then false
        else upper_loop cursize live fuel index (i + 1) (w32 (b + stack_size s)) (page_of (stack_high s index)) (stack_size s) else true) = true \/ index - i = 0).
    { intros b. destruct (decide (index - i = 0)) as [->|]; [by right|left]. destruct (page_of b =? _); [|done]. unfold is_valid. rewrite (proj2 (Z.leb_gt _ _)) by lia. done. }
    destruct (Hout (w32 (root_thread_stack_low s - (index - i) * stack_size s))) as [->|E0]; [split; [lia|done]|]. rewrite E0, Z.mul_0_l, Z.sub_0_r.
    destruct H as [H1 [H2 H3] H4]. rewrite w32_small by lia. rewrite !page_of_div by lia.
    assert (E : (4096 * (root_thread_stack_low s / 4096) =? 4096 * (stack_high s index / 4096)) = false) by (apply Z.eqb_neq; lia). rewrite E. split; [lia|done].
Qed.

Lemma lower_loop_ok s index : layout s cursize -> 1 <= index < cursize -> forall (fuel : nat) i, 1 <= i <= cursize - index -> cursize - index - i < Z.of_nat fuel ->
  lower_loop cursize live fuel index i (w32 (root_thread_stack_low s - (index + i - 1) * stack_size s - 1)) (page_of (stack_low s index)) (stack_size s) = true <->
  forall j, index + i <= j < cursize -> stack_high s j / 4096 = stack_low s index / 4096 -> live j = false.
Proof.
  intros H Hx fuel. induction fuel as [|fuel IH]; intros i Hi Hf; [lia|]. cbn [lower_loop]. destruct (block_bounds s cursize index H Hx) as (B1 & B2 & _).
  destruct (decide (index + i < cursize)) as [Hji|Hji].
  - assert (Ehigh : w32 (root_thread_stack_low s - (index + i - 1) * stack_size s - 1) = stack_high s (index + i)).
    { rewrite (stack_high_eq s cursize) by (try done; lia). destruct H as [H1 [H2 H3] H4]. apply w32_small. nia. }
    rewrite Ehigh. destruct (block_bounds s cursize (index + i) H ltac:(lia)) as (C1 & C2 & C4). pose proof (block_order s cursize index (index + i) H ltac:(lia) ltac:(lia)) as C3.
    pose proof H as [H1 [H2 H3] H4]. rewrite !page_of_div by lia. destruct (Z.eqb_spec (4096 * (stack_high s (index + i) / 4096)) (4096 * (stack_low s index / 4096))) as [E|E].
    + unfold is_valid. rewrite (proj2 (Z.leb_le _ _)), (proj2 (Z.ltb_lt _ _)) by lia. simpl. destruct (live (index + i)) eqn:El.
      * split; [done|]. intros K. rewrite (K (index + i)) in El by lia. done.
      * replace (w32 (stack_high s (index + i) - stack_size s)) with (w32 (root_thread_stack_low s - (index + (i + 1) - 1) * stack_size s - 1)).
        -- rewrite page_of_div in IH by lia. rewrite IH by lia. split; intros K j Hj Ej; [|apply K; lia]. destruct (decide (j = index + i)) as [->|]; [done|]. apply K; lia.
        -- f_equal. rewrite (stack_high_eq s cursize) by (try done; lia). lia.
    + split; [|done]. intros _ j Hj Ej. exfalso. apply E. f_equal.
      assert (stack_high s j <= stack_high s (index + i)). { destruct (decide (j = index + i)) as [->|]; [lia|]. pose proof (block_order s cursize (index + i) j H ltac:(lia) ltac:(lia)). lia. }
      pose proof (Z.div_le_mono (stack_high s j) (stack_high s (index + i)) 4096). pose proof (Z.div_le_mono (stack_high s (index + i)) (stack_low s index) 4096). lia.
  - assert (Ev : is_valid cursize (index + i) = false) by (unfold is_valid; rewrite (proj2 (Z.ltb_ge _ _)) by lia; apply andb_false_r). rewrite Ev. simpl.
    destruct (_ =? _); (split; [lia|done]).
Qed.

(** No other live thread has bytes in page [k]. *)
Definition removable s (index k : Z) : Prop := forall j, 1 <= j < cursize -> j <> index -> live j = true -> ~ meets s j k.

Lemma meets_above s index j k : layout s cursize -> 1 <= j < index -> index < cursize -> stack_low s index / 4096 <= k <= stack_high s index / 4096 ->
  meets s j k <-> stack_low s j / 4096 = stack_high s index / 4096 /\ k = stack_high s index / 4096.
Proof.
  intros H Hj Hx Hk. unfold meets. pose proof (block_order s cursize j index H Hj Hx). destruct (block_bounds s cursize j H ltac:(lia)) as (? & _). lia.
Qed.

Lemma meets_below s index j k : layout s cursize -> 1 <= index < j -> j < cursize -> stack_low s index / 4096 <= k <= stack_high s index / 4096 ->
  meets s j k <-> stack_high s j / 4096 = stack_low s index / 4096 /\ k = stack_low s index / 4096.
Proof.
  intros H Hj Hx Hk. unfold meets. pose proof (block_order s cursize index j H Hj Hx). destruct (block_bounds s cursize j H ltac:(lia)) as (? & _). lia.
Qed.

(** The two loops together decide whether a page can go. *)
Lemma removable_iff s index k : layout s cursize -> 1 <= index < cursize -> stack_low s index / 4096 <= k <= stack_high s index / 4096 ->
  removable s index k <->
  (k = stack_high s index / 4096 -> forall j, 1 <= j <= index - 1 -> stack_low s j / 4096 = stack_high s index / 4096 -> live j = false) /\
  (k = stack_low s index / 4096 -> forall j, index + 1 <= j < cursize -> stack_high s j / 4096 = stack_low s index / 4096 -> live j = false).
Proof.
  intros H Hx Hk. unfold removable. split.
  - intros K. split; intros Ek j Hj Ej; destruct (live j) eqn:El; try done; exfalso; apply (K j ltac:(lia) ltac:(lia) El).
    + apply (meets_above s index); [done|lia|lia|done|by split].
    + apply (meets_below s index); [done|lia|lia|done|by split].
  - intros [K1 K2] j Hj Hne El Hm. destruct (decide (j < index)).
    + apply (meets_above s index) in Hm as [E1 E2]; [|done|lia|lia|done]. rewrite (K1 E2 j) in El by lia. done.
    + apply (meets_below s index) in Hm as [E1 E2]; [|done|lia|lia|done]. rewrite (K2 E2 j) in El by lia. done.
Qed.

(** When a thread exits, exactly the pages of its block that no other live thread
    uses are given back: the highest page and the lowest page if they are not
    shared with a live neighbour (also when several small stacks lie in one page),
    and always the pages in between. *)
Theorem get_pages_to_remove_exact s index : layout s cursize -> 1 <= index < cursize ->
  let r := get_pages_to_remove cursize live s index in
  let hp := stack_high s index / 4096 in
  let lp := stack_low s index / 4096 in
  ((highest r = Some (4096 * hp) /\ removable s index hp) \/ (highest r = None /\ ~ removable s index hp)) /\
  ((lowest r = Some (4096 * lp) /\ lp <> hp /\ removable s index lp) \/ (lowest r = None /\ (lp = hp \/ ~ removable s index lp))) /\
  middle r = (if lp + 1 <? hp then Some (4096 * (lp + 1)) else None) /\ (forall k, lp < k < hp -> removable s index k).
Proof.
  intros H Hx r hp lp. destruct (block_bounds s cursize index H Hx) as (B1 & B2 & B3). pose proof (stack_high_eq s cursize index H Hx) as E1. pose proof (stack_low_eq s cursize index H ltac:(lia)) as E2.
  pose proof (upper_loop_ok s index H Hx (Z.to_nat cursize + 1) 1 ltac:(lia) ltac:(lia)) as Hup. pose proof (lower_loop_ok s index H Hx (Z.to_nat cursize + 1) 1 ltac:(lia) ltac:(lia)) as Hlo.
  pose proof H as [H1 [H2 H3] H4]. unfold r, get_pages_to_remove. rewrite (proj2 (Z.eqb_neq index 0)) by lia. cbv zeta. simpl highest. simpl lowest. simpl middle.
  replace (w32 (stack_high s index + 1)) with (w32 (root_thread_stack_low s - (index - 1) * stack_size s)) by (f_equal; lia).
  replace (w32 (stack_low s index - 1)) with (w32 (root_thread_stack_low s - (index + 1 - 1) * stack_size s - 1)) by (f_equal; lia).
  set (up := upper_loop _ _ _ _ _ _ _ _) in *. set (lo := lower_loop _ _ _ _ _ _ _ _) in *. rewrite !page_of_div by lia. fold hp lp.
  pose proof (removable_iff s index hp H Hx ltac:(lia)) as Rh. pose proof (removable_iff s index lp H Hx ltac:(lia)) as Rl. fold hp lp in Rh, Rl.
  assert (Epg : forall k, lp < k < hp -> removable s index k) by (intros k Hk; apply removable_iff; [done|done|lia|]; split; lia).
  assert (Eeq : (4096 * lp =? 4096 * hp) = (lp =? hp)) by (destruct (Z.eqb_spec lp hp) as [->|]; [apply Z.eqb_refl|apply Z.eqb_neq; lia]). rewrite Eeq.
  split; [|split; [|split; [|done]]].
  - rewrite Rh. destruct (Z.eqb_spec lp hp) as [El|El]; cbn [negb orb].
    + destruct up, lo; simpl; [left; split; [done|]; split; intros _; [by apply Hup|by apply Hlo]|right; split; [done|]; intros [K1 K2]..].
      * assert (false = true) by (apply Hlo; exact (K2 (eq_sym El))). done.
      * assert (false = true) by (apply Hup; by apply K1). done.
      * assert (false = true) by (apply Hup; by apply K1). done.
    + destruct up; simpl; [left; split; [done|]; split; [intros _; by apply Hup|intros E; lia]|right; split; [done|]; intros [K1 _]].
      assert (false = true) by (apply Hup; by apply K1). done.
  - rewrite Rl. destruct (Z.eqb_spec lp hp) as [El|El]; cbn [negb andb]; [right; split; [done|by left]|].
    destruct lo; [left; split; [done|]; split; [done|]; split; [intros E; lia|intros _; by apply Hlo]|right; split; [done|right]]. intros [_ K2].
    assert (false = true) by (apply Hlo; by apply K2). done.
  - assert (lp <= hp) by lia. rewrite (w32_small (4096 * hp - 4096 * lp)) by lia. replace ((4096 * hp - 4096 * lp) / PAGE_SIZE) with (hp - lp) by (unfold PAGE_SIZE; lia).
    rewrite s32_small by lia. unfold PAGE_SIZE. destruct (Z.ltb_spec 1 (hp - lp)), (Z.ltb_spec (lp + 1) hp); try lia; [|done]. rewrite w32_small by lia. f_equal. lia.
Qed.
End removal.

(** ** Allocation *)
Context `{UL : !UserPagesLaws V}.

(** From [v] to [v'] pages were added, none of them outside [lo] to [hi]. *)
Definition adds (v v' : V) (lo hi : Z) : Prop := (forall j, has v j = true -> has v' j = true) /\ forall j, ~ (lo <= j <= hi) -> has v' j = has v j.
(** The kernel answered [err] to a request for pages between [lo] and [hi]. *)
Definition refused (lo hi err : Z) : Prop := - 2 ^ 31 <= err < 0 /\ exists v v' k n, lo <= k /\ 0 < n /\ k + n - 1 <= hi /\ new_pages (4096 * k) (4096 * n) v = Ok (err, v').

Lemma adds_refl v lo hi : adds v v lo hi.
Proof. by split. Qed.
Lemma adds_trans v1 v2 v3 lo hi : adds v1 v2 lo hi -> adds v2 v3 lo hi -> adds v1 v3 lo hi.
Proof. intros [A1 A2] [B1 B2]. split; [auto|]. intros j Hj. by rewrite B2, A2. Qed.
Lemma adds_widen v v' lo hi lo' hi' : adds v v' lo hi -> lo' <= lo -> hi <= hi' -> adds v v' lo' hi'.
Proof. intros [A1 A2] H1 H2. split; [done|]. intros j Hj. apply A2. lia. Qed.
#[local] Hint Resolve adds_refl adds_trans adds_widen : core.

(** A request for [n] pages from [k]. *)
Lemma new_pages_adds v k n : 4096 <= k -> 0 < n -> k + n <= 2 ^ 20 -> exists r v', new_pages (4096 * k) (4096 * n) v = Ok (r, v') /\ adds v v' k (k + n - 1) /\
  (r = 0 /\ (forall j, k <= j < k + n -> has v' j = true) \/
   (r = ERROR_NEW_PAGES_OVERLAP_EXISTING_REGION /\ v' = v /\ exists j, k <= j < k + n /\ has v j = true) \/
   (r <> ERROR_NEW_PAGES_OVERLAP_EXISTING_REGION /\ refused k (k + n - 1) r)).
Proof.
  intros Hk Hn Hkn. destruct (new_pages_law v k n Hk Hn Hkn) as (r & v' & R & K). exists r, v'. split; [done|]. destruct K as [(-> & _ & Y)|[(-> & -> & K)|(Hr & Hne & ->)]].
  - split; [split|left; split; [done|]].
    + intros j Ej. by rewrite Y, Ej.
    + intros j Hj. rewrite Y. destruct (Z.leb_spec k j), (Z.ltb_spec j (k + n)); try lia; simpl; apply orb_false_r.
    + intros j Hj. rewrite Y, (proj2 (Z.leb_le _ _)), (proj2 (Z.ltb_lt _ _)) by lia. apply orb_true_r.
  - split; [auto|]. right. by left.
  - split; [auto|]. right. right. split; [done|]. split; [done|]. exists v, v, k, n. split; [lia|]. split; [lia|]. by split; [lia|].
Qed.

(** One page, which may be there already: it is there afterwards, or the kernel
    refuses it. *)
Lemma one_page v k : 4096 <= k < 2 ^ 20 -> exists r v', new_pages (4096 * k) PAGE_SIZE v = Ok (r, v') /\ adds v v' k k /\
  ((negb (r =? 0) && negb (r =? ERROR_NEW_PAGES_OVERLAP_EXISTING_REGION) = false /\ has v' k = true) \/
   (negb (r =? 0) && negb (r =? ERROR_NEW_PAGES_OVERLAP_EXISTING_REGION) = true /\ refused k k r)).
Proof.
  intros Hk. destruct (new_pages_adds v k 1 ltac:(lia) ltac:(lia) ltac:(lia)) as (r & v' & R & A & K). exists r, v'. split; [done|]. replace (k + 1 - 1) with k in * by lia. split; [done|].
  destruct K as [(-> & Y)|[(-> & -> & j & Hj & Ej)|(Hne & Hr)]].
  - left. split; [done|]. apply Y. lia.
  - left. split; [done|]. by replace k with j by lia.
  - right. split; [|done]. rewrite (proj2 (Z.eqb_neq r 0)), (proj2 (Z.eqb_neq r _) Hne) by (destruct Hr; lia). done.
Qed.

Lemma refused_widen lo hi lo' hi' err : refused lo hi err -> lo' <= lo -> hi <= hi' -> refused lo' hi' err.
Proof. intros (H & v & v' & k & n & H1 & H2 & H3 & R) Hl Hh. split; [done|]. exists v, v', k, n. split; [lia|]. split; [lia|]. by split; [lia|]. Qed.

(** All the pages of a block are there, or the kernel refuses some of them; no other
    page is mapped. *)
Lemma allocate_stack_ok v low high : 16777216 <= low <= high -> high < 2 ^ 32 -> high - low < 2 ^ 31 ->
  (forall k, low / 4096 < k < high / 4096 -> has v k = false) ->
  exists r v', allocate_stack low high v = Ok (r, v') /\ adds v v' (low / 4096) (high / 4096) /\
    match r with inr _ => forall k, low / 4096 <= k <= high / 4096 -> has v' k = true | inl err => refused (low / 4096) (high / 4096) err end.
Proof.
  intros Hl Hh Hs Hmid. unfold allocate_stack. rewrite !page_of_div by lia. set (lp := low / 4096) in *. set (hp := high / 4096) in *. assert (Hp : 4096 <= lp <= hp /\ hp < 2 ^ 20) by (unfold lp, hp; lia).
  rewrite (w32_small (4096 * hp - 4096 * lp)) by lia. replace ((4096 * hp - 4096 * lp) / PAGE_SIZE) with (hp - lp) by (unfold PAGE_SIZE; lia). rewrite s32_small by lia. cbv zeta.
  destruct (one_page v hp ltac:(lia)) as (r1 & v1 & R1 & M1 & K1). rewrite (bind_ok _ _ _ _ _ R1). apply (adds_widen _ _ _ _ lp hp) in M1; [|lia..].
  destruct K1 as [(-> & Hhp)|(-> & Hr1)].
  2:{ eexists _, v1. split; [done|]. split; [done|]. apply (refused_widen hp hp); [done|lia..]. }
  assert (Hm : exists r2 v2, (if 1 <? hp - lp then new_pages (w32 (4096 * lp + PAGE_SIZE)) (s32 ((hp - lp - 1) * PAGE_SIZE)) else mret 0) v1 = Ok (r2, v2) /\
    adds v1 v2 lp hp /\ (r2 = 0 /\ (forall k, lp < k < hp -> has v2 k = true) \/ r2 <> 0 /\ refused lp hp r2)).
  { destruct (Z.ltb_spec 1 (hp - lp)); [|exists 0, v1; split; [done|]; split; [auto|]; left; split; [done|lia]]. unfold PAGE_SIZE.
    rewrite w32_small by lia. rewrite s32_small by (unfold lp, hp in *; lia). replace (4096 * lp + 4096) with (4096 * (lp + 1)) by lia. rewrite (Z.mul_comm _ 4096).
    destruct (new_pages_adds v1 (lp + 1) (hp - lp - 1) ltac:(lia) ltac:(lia) ltac:(lia)) as (r2 & v2 & R2 & A2 & K2). exists r2, v2. split; [done|].
    split; [apply (adds_widen _ _ _ _ lp hp) in A2; [done|lia..]|]. destruct K2 as [(-> & Y)|[(-> & -> & _)|(Hne & Hr)]].
    - left. split; [done|]. intros k Hk. apply Y. lia.
    - right. split; [done|]. split; [unfold ERROR_NEW_PAGES_OVERLAP_EXISTING_REGION; lia|]. exists v1, v1, (lp + 1), (hp - lp - 1). split; [lia|]. split; [lia|]. by split; [lia|].
    - right. split; [destruct Hr; lia|]. apply (refused_widen _ _ lp hp) in Hr; [done|lia..]. }
  destruct Hm as (r2 & v2 & R2 & M2 & K2). rewrite (bind_ok _ _ _ _ _ R2). destruct K2 as [(-> & Hmids)|[Hr2 Hr2']].
  2:{ rewrite (proj2 (Z.eqb_neq r2 0) Hr2). eexists _, v2. split; [done|]. split; [eauto|done]. }
  rewrite Z.eqb_refl. cbn [negb]. pose proof (proj1 M2 hp Hhp) as Hhp2. destruct (Z.eqb_spec (4096 * lp) (4096 * hp)) as [E|E]; cbn [negb].
  - exists (inr tt), v2. split; [done|]. split; [eauto|]. intros k Hk. by replace k with hp by lia.
  - destruct (one_page v2 lp ltac:(lia)) as (r3 & v3 & R3 & M3 & K3). rewrite (bind_ok _ _ _ _ _ R3). apply (adds_widen _ _ _ _ lp hp) in M3; [|lia..].
    destruct K3 as [(-> & Hlp)|(-> & Hr3)]; (eexists _, v3; split; [done|]; split; [eauto|]); [|apply (refused_widen lp lp); [done|lia..]].
    intros k Hk. destruct (decide (k = lp)) as [->|]; [done|]. apply (proj1 M3). destruct (decide (k = hp)) as [->|]; [done|]. apply Hmids. lia.
Qed.

Context (swexn : Z -> bool -> M V Z).

(** ** Stack growth *)
Section growth.
Hypothesis swexn_keeps : forall e h v, exists r v', swexn e h v = Ok (r, v') /\ forall k, has v' k = has v k.

(** The root stack grows by page faults without holes: for a fault in the frame of
    the current function (or just below it) under a page-aligned stack, either all
    the pages down to the faulting address are mapped and become part of the stack,
    or the stack is left as it was. *)
Theorem swexn_handler_grows s cr2 ebp esp : auto_low s mod 4096 = 0 -> 16777216 <= cr2 < auto_low s -> auto_low s < 2 ^ 32 -> auto_low s - cr2 < 2 ^ 31 - 4096 ->
  cr2 <= ebp -> esp <= cr2 + 4 -> (forall k, cr2 / 4096 <= k < auto_low s / 4096 -> has (vm s) k = false) ->
  exists b s', swexn_handler swexn SWEXN_CAUSE_PAGEFAULT cr2 ebp esp s = Ok (b, s') /\ (forall k, has (vm s) k = true -> has (vm s') k = true) /\
    (auto_low s' = 4096 * (cr2 / 4096) /\ (forall k, auto_low s' <= 4096 * k < auto_low s -> has (vm s') k = true) \/ (b = false /\ auto_low s' = auto_low s)).
Proof.
  intros Ha Hc Hr Hd He Hsp Hno. unfold swexn_handler. cbn [negb]. rewrite Z.eqb_refl. cbn [negb]. rewrite (proj2 (Z.ltb_ge _ _) He), w32_small, (proj2 (Z.ltb_ge _ _)) by (unfold VALID_OUTBOUND; lia). cbn [orb].
  rewrite (bind_ok _ _ s (auto_low s) s eq_refl). rewrite (w32_small (auto_low s - 1)) by lia. set (lp := cr2 / 4096) in *. set (rp := auto_low s / 4096) in *.
  assert (Hp : 4096 <= lp < rp /\ rp <= 2 ^ 20 /\ auto_low s = 4096 * rp) by (unfold lp, rp; lia). destruct Hp as (Hp1 & Hp2 & Hp3).
  assert (Ha1 : exists r v', new_pages (4096 * lp) (4096 * (rp - lp)) (vm s) = Ok (r, v') /\ (forall k, has (vm s) k = true -> has v' k = true) /\
    (if r =? 0 then forall k, lp <= k < rp -> has v' k = true else True)).
  { destruct (new_pages_law (vm s) lp (rp - lp) ltac:(lia) ltac:(lia) ltac:(lia)) as (r & v' & R & K). exists r, v'. split; [done|].
    destruct K as [(-> & _ & Y)|[(-> & -> & j & Hj & Ej)|(Hneg & _ & ->)]].
    - split; [intros k Ek; by rewrite Y, Ek|]. intros k Hk. simpl. rewrite Y, (proj2 (Z.leb_le _ _)), (proj2 (Z.ltb_lt _ _)) by lia. apply orb_true_r.
    - done.
    - split; [done|]. by rewrite (proj2 (Z.eqb_neq r 0)) by lia. }
  destruct Ha1 as (r & v' & R & M & K).
  assert (Hal : allocate_pages (auto_low s - 1) cr2 s = Ok (if r =? 0 then 4096 * lp else ERROR_NEW_PAGES_GENERAL, set_vm v' s)).
  { unfold allocate_pages. rewrite (bind_ok _ _ s (auto_low s) s eq_refl). rewrite !page_of_div by lia. fold lp rp. replace ((auto_low s - 1) / 4096) with (rp - 1) by lia.
    rewrite (w32_small (4096 * (rp - 1) - 4096 * lp)) by lia. replace ((4096 * (rp - 1) - 4096 * lp) / PAGE_SIZE) with (rp - 1 - lp) by (unfold PAGE_SIZE; lia).
    rewrite s32_small by lia. rewrite (proj2 (Z.eqb_neq (4096 * (rp - 1)) (4096 * rp))) by lia. rewrite (proj2 (Z.ltb_lt 0 (1 + (rp - 1 - lp)))) by lia.
    unfold PAGE_SIZE. rewrite s32_small by (unfold lp, rp in *; lia). replace ((1 + (rp - 1 - lp)) * 4096) with (4096 * (rp - lp)) by lia.
    rewrite (bind_ok _ _ s r (set_vm v' s)) by exact (zoom_ok vm set_vm _ s _ _ R). by destruct (r =? 0). }
  rewrite (bind_ok _ _ _ _ _ Hal). destruct (Z.eqb_spec r 0) as [->|Hr0].
  - rewrite (proj2 (Z.eqb_neq (4096 * lp) ERROR_NEW_PAGES_GENERAL)) by (unfold ERROR_NEW_PAGES_GENERAL; lia). set (s1 := set_auto_low (4096 * lp) (set_vm v' s)).
    rewrite (bind_ok _ _ _ tt s1 eq_refl), (bind_ok _ _ s1 (exn_stack_high s) s1 eq_refl). destruct (swexn_keeps (exn_stack_high s) true v') as (r2 & v2 & R2 & Y2).
    rewrite (bind_ok _ _ s1 r2 (set_vm v2 s1)) by exact (zoom_ok vm set_vm _ s1 _ _ R2). eexists _, _. split; [done|]. split; [intros k Ek; simpl; rewrite Y2; auto|].
    left. split; [done|]. intros k Hk. simpl in *. rewrite Y2. apply K. lia.
  - rewrite Z.eqb_refl. exists false, (set_vm v' s). split; [done|]. split; [done|]. by right.
Qed.
End growth.

(** ** The stack of a new thread *)
Context (free : Z -> M V unit).

(** A new thread gets a whole stack: unless the kernel refuses the pages, every page
    of the slot's block is mapped, and the stack top returned is the highest aligned
    address of the block's last word, so that the thread's slot can be found from it.
    When the kernel refuses pages, its error code is returned as the address.  No page
    is unmapped, and none outside the block is mapped. *)
Theorem get_new_stack_top_correct s n index : layout s n -> n < 2 ^ 31 -> 1 <= index < n -> 0 < root_thread_stack_low s -> 16 <= stack_size s ->
  (forall k, stack_low s index / 4096 < k < stack_high s index / 4096 -> has (vm s) k = false) ->
  exists top s', get_new_stack_top swexn free index s = Ok (top, s') /\ adds (vm s) (vm s') (stack_low s index / 4096) (stack_high s index / 4096) /\
    ((forall k, stack_low s index / 4096 <= k <= stack_high s index / 4096 -> has (vm s') k = true) /\
     top mod 4 = 0 /\ stack_high s index - 3 <= top <= stack_high s index /\ get_stack_position_index s (top - 12) = index \/
     exists err, refused (stack_low s index / 4096) (stack_high s index / 4096) err /\ top = w32 err).
Proof.
  intros H Hn Hx Hr Hs Hmid. destruct (block_bounds s n index H Hx) as (B1 & B2 & B3). pose proof H as [H1 [H2 H3] H4]. unfold get_new_stack_top.
  rewrite (bind_ok _ _ s (root_thread_stack_low s) s eq_refl), (proj2 (Z.eqb_neq (root_thread_stack_low s) 0)) by lia. rewrite andb_false_r.
  rewrite (bind_ok (mret false) _ s false s eq_refl), (bind_ok get _ s s s eq_refl), (proj2 (Z.eqb_neq index 0)) by lia.
  destruct (allocate_stack_ok (vm s) (stack_low s index) (stack_high s index)) as (r & v' & R & M & K); [lia|lia|lia|done|].
  rewrite (bind_ok _ _ s r (set_vm v' s)) by (unfold sys; by rewrite (zoom_ok _ _ _ _ _ _ R)). destruct r as [err|u].
  - eexists _, _. split; [done|]. split; [done|]. right. by exists err.
  - eexists _, _. split; [done|]. split; [done|]. left. split; [done|]. unfold align_down, ALIGNMENT. split; [lia|]. split; [lia|].
    apply (stack_index_roundtrip s n); [done|done|lia|]. rewrite (proj2 (Z.eqb_neq index 0)) by lia. lia.
Qed.

(** The first call fixes where the root thread's stack ends: its handler for stack
    growth is removed, and the handler's stack is freed.  [s'] is [s] after that, or [s]
    itself when it has been done. *)
Definition settled s s' : Prop :=
  0 < root_thread_stack_low s /\ s' = s \/
  root_thread_stack_low s = 0 /\ exists r v1 v2, swexn 0 false (vm s) = Ok (r, v1) /\ 0 <= r /\
    (if exn_stack_low s =? 0 then v2 = v1 else free (exn_stack_low s) v1 = Ok (tt, v2)) /\ s' = set_root_low (auto_low s) (set_vm v2 s).

Lemma get_new_stack_top_settled s s' index : settled s s' -> root_thread_stack_low s' mod 4096 = 0 -> 0 < root_thread_stack_low s' -> (root_thread_stack_low s = 0 -> index = 1) ->
  get_new_stack_top swexn free index s = get_new_stack_top swexn free index s'.
Proof.
  intros [[_ ->]|(E0 & r & v1 & v2 & R1 & Hr & R2 & ->)] Hal Hpos Hi; [done|]. rewrite (Hi E0). clear Hi. unfold get_new_stack_top at 1. rewrite (bind_ok _ _ s 0 s) by (unfold gets; by rewrite E0).
  change ((1 =? 1) && (0 =? 0)) with true. cbv iota. set (s' := set_root_low _ _) in *. simpl in Hal, Hpos.
  assert (Hg : get_root_thread_stack_low swexn free s = Ok (auto_low s, set_vm v2 s)).
  { unfold get_root_thread_stack_low. rewrite (bind_ok _ _ s r (set_vm v1 s)) by exact (zoom_ok vm set_vm _ s _ _ R1). rewrite (proj2 (Z.ltb_ge r 0) Hr).
    rewrite (bind_ok _ _ (set_vm v1 s) (exn_stack_low s) (set_vm v1 s) eq_refl). destruct (exn_stack_low s =? 0); cbn [negb]; [by subst|].
    by rewrite (bind_ok _ _ (set_vm v1 s) tt (set_vm v2 s)) by exact (zoom_ok vm set_vm _ (set_vm v1 s) _ _ R2). }
  rewrite (bind_ok _ _ s false s').
  2:{ rewrite (bind_ok _ _ _ _ _ Hg), (bind_ok _ _ (set_vm v2 s) tt s' eq_refl). unfold ALIGNMENT. by replace (auto_low s mod 4) with 0 by lia. }
  unfold get_new_stack_top. rewrite (bind_ok (gets root_thread_stack_low) _ s' (auto_low s) s' eq_refl), (proj2 (Z.eqb_neq (auto_low s) 0)) by lia. rewrite andb_false_r.
  by rewrite (bind_ok (mret false) _ s' false s' eq_refl).
Qed.

End facts.

(** ** A set of pages: the interface can be met *)
Record pages := mk_pages { page_set : gset Z; room : Z }.

#[export] Instance pages_user : UserPages pages := {|
  has v k := bool_decide (k ∈ page_set v);
  new_pages base len := fun v =>
    let new := list_to_set (seqZ (base / 4096) (len / 4096)) : gset Z in
    if negb (bool_decide (page_set v ## new)) then Ok (ERROR_NEW_PAGES_OVERLAP_EXISTING_REGION, v)
    else if room v <? len / 4096 then Ok (ERROR_NEW_PAGES_INSUFFICIENT_RESOURCE, v)
    else Ok (0, mk_pages (page_set v ∪ new) (room v - len / 4096)) |}.

#[export] Instance pages_laws : UserPagesLaws pages.
Proof.
  split. intros v k n Hk Hn Hkn. cbn [new_pages pages_user]. rewrite !(Z.mul_comm 4096), !Z.div_mul by lia. set (new := list_to_set (seqZ k n) : gset Z).
  assert (Hnew : forall j, j ∈ new <-> k <= j < k + n) by (intros j; unfold new; rewrite elem_of_list_to_set, elem_of_seqZ; lia).
  case_bool_decide as D; simpl; [destruct (Z.ltb_spec (room v) n)|].
  - eexists _, _. split; [done|]. right. right. unfold ERROR_NEW_PAGES_INSUFFICIENT_RESOURCE, ERROR_NEW_PAGES_OVERLAP_EXISTING_REGION. split; [lia|]. split; [lia|done].
  - eexists _, _. split; [done|]. left. split; [done|]. split.
    + intros j Hj. apply bool_decide_eq_false. intros Hin. apply (D j Hin). by apply Hnew.
    + intros j. simpl. destruct (Z.leb_spec k j), (Z.ltb_spec j (k + n)); simpl; rewrite ?orb_true_r, ?orb_false_r; rewrite ?bool_decide_eq_true;
        try (apply elem_of_union; right; apply Hnew; lia); apply bool_decide_ext; rewrite elem_of_union, Hnew; intuition lia.
  - eexists _, _. split; [done|]. right. left. split; [done|]. split; [done|].
    destruct (set_choose_L (page_set v ∩ new)) as [j [H1 H2]%elem_of_intersection]; [intros E; apply D; set_solver|]. exists j. split; [by apply Hnew|]. by apply bool_decide_eq_true.
Defined.

(** Stacks of 6000 bytes below 0xF0000000; slots 1 and 2 share a page. *)
Definition demo : lib pages := mk_lib 0 0 4026531840 4026540031 4026531840 4026540031 6000 (mk_pages ∅ 100).
Definition no_swexn : Z -> bool -> M pages Z := fun _ _ => mret 0.
Definition no_free : Z -> M pages unit := fun _ => mret tt.

Lemma demo_layout : layout demo 10.
Proof. split; simpl; lia. Qed.

Lemma stack_index_witness : get_stack_position_index demo (stack_low demo 3 + 17) = 3.
Proof. apply (stack_index_roundtrip demo 10); [exact demo_layout|lia|lia|]. vm_compute. split; discriminate. Defined.

Lemma get_new_stack_top_witness : exists top s', get_new_stack_top no_swexn no_free 2 demo = Ok (top, s').
Proof.
  destruct (get_new_stack_top_correct no_swexn no_free demo 10 2 demo_layout) as (top & s' & R & _); [lia|lia|simpl; lia|simpl; lia| |by exists top, s'].
  intros k _. by apply bool_decide_eq_false.
Defined.

(** Slot 1 is not in use: both pages of slot 2 can go, with slot 3 alive only the
    highest. *)
Lemma get_pages_to_remove_witness :
  let r := get_pages_to_remove 10 (fun j => j =? 3) demo 2 in
  (highest r = Some (4096 * (stack_high demo 2 / 4096)) /\ removable 10 (fun j => j =? 3) demo 2 (stack_high demo 2 / 4096)) \/
  (highest r = None /\ ~ removable 10 (fun j => j =? 3) demo 2 (stack_high demo 2 / 4096)).
Proof. exact (proj1 (get_pages_to_remove_exact 10 (fun j => j =? 3) demo 2 demo_layout ltac:(lia))). Defined.

Lemma swexn_handler_witness : exists b s', swexn_handler no_swexn SWEXN_CAUSE_PAGEFAULT 4026531000 4026531836 4026530900 demo = Ok (b, s').
Proof.
  destruct (swexn_handler_grows no_swexn (fun _ _ v => ex_intro _ 0 (ex_intro _ v (conj eq_refl (fun _ => eq_refl)))) demo 4026531000 4026531836 4026530900) as (b & s' & R & _);
    [simpl; lia..|intros k _; by apply bool_decide_eq_false|]. by exists b, s'.
Defined.
End ThrStacks.
