(* ===== verification/ThrLib.v ===== *)
(** * The user thread library (src/user/libthread/arraytcb.c, thr_lib.c)

    [arraytcb] keeps the control blocks of the threads by stack slot, with the list
    of free slots; thr_lib.c creates, joins and ends threads.  The functions are
    cut where the calling thread waits: [thr_join] in [cond_wait] and [thr_exit] at
    [vanish].  The mutex of the array is a flag, the condition variable of a thread
    the list of the threads that wait in it (UserMutex.v, UserCond.v), and the table
    of exit statuses is what hashtable.c implements (Hashtable.v; the user's version
    adds a mutex and repeats a failed malloc).  [answers] are the results of the
    coming calls of malloc and calloc. *)

From S2P Require Import Prelude Hashtable ThrStacks.
From Stdlib Require Import ZArith Lia.
From stdpp Require Import base gmap list tactics numbers.

#[local] Open Scope Z_scope.

Module ThrLib.
Import ThrStacks.

Inductive thr_state_t := RUNNING | JOINED.
Record tcb_t := mk_tcb { ktid : Z; tid : Z; tstate : thr_state_t; cond_var : list Z }.
Record arraytcb_s := mk_array { maxsize : Z; cursize : Z; data : gmap Z Z; avail_list : list Z }.

Definition INIT_THR_NUM : Z := 32.
Definition EXIT_HASH_SIZE : Z := 1021.

Section lib.
Context {V : Type} `{UP : UserPages V}.
Context (swexn : Z -> bool -> M V Z) (ufree : Z -> M V unit) (remove_pages : Z -> M V Z).
(** Storing a word, and the system call thread_fork. *)
Context (wr : Z -> Z -> M V unit) (fork_at : Z -> M V Z).

(** [locked]: [mutex_arraytcb]. *)
Record tl := mk_tl {
  array : arraytcb_s; tcbs : gmap Z tcb_t; answers : list Z; locked : bool; thread_count : Z; hash_exit : HTSpec.table; stacks : ThrStacks.lib V }.

Definition with_array x s := mk_tl x (tcbs s) (answers s) (locked s) (thread_count s) (hash_exit s) (stacks s).
Definition with_tcbs x s := mk_tl (array s) x (answers s) (locked s) (thread_count s) (hash_exit s) (stacks s).
Definition with_answers x s := mk_tl (array s) (tcbs s) x (locked s) (thread_count s) (hash_exit s) (stacks s).
Definition with_locked x s := mk_tl (array s) (tcbs s) (answers s) x (thread_count s) (hash_exit s) (stacks s).
Definition with_count x s := mk_tl (array s) (tcbs s) (answers s) (locked s) x (hash_exit s) (stacks s).
Definition with_exit x s := mk_tl (array s) (tcbs s) (answers s) (locked s) (thread_count s) x (stacks s).
Definition with_stacks x s := mk_tl (array s) (tcbs s) (answers s) (locked s) (thread_count s) (hash_exit s) x.

Definition malloc : M tl Z := fun s => match answers s with [] => Ok (0, s) | p :: l => Ok (p, with_answers l s) end.
(** [while (!tmp) { yield(-1); tmp = malloc(...); }] *)
Fixpoint malloc_retry (fuel : nat) : M tl Z :=
  match fuel with O => blocks | S fuel => p ← malloc; if p =? 0 then malloc_retry fuel else mret p end.

(** A thread that does not get the mutex waits. *)
Definition lock : M tl unit := fun s => if locked s then Blocks else Ok (tt, with_locked true s).
Definition unlock : M tl unit := fun s => if locked s then Ok (tt, with_locked false s) else Blocks.

Definition rd_tcb (p : Z) : M tl tcb_t := fun s => deref (tcbs s !! p) s.
Definition wr_tcb (p : Z) (t : tcb_t) : M tl unit := modify (fun s => with_tcbs (<[p := t]> (tcbs s)) s).
Definition rd_data (i : Z) : M tl Z := fun s => deref (data (array s) !! i) s.
Definition wr_data (i p : Z) : M tl unit := fun s =>
  match data (array s) !! i with
  | Some _ => let a := array s in Ok (tt, with_array (mk_array (maxsize a) (cursize a) (<[i := p]> (data a)) (avail_list a)) s)
  | None => Fault
  end.
Definition set_avail (l : list Z) : M tl unit := modify (fun s => let a := array s in with_array (mk_array (maxsize a) (cursize a) (data a) l) s).

(** ** arraytcb.c *)

(** A failed [calloc] is not looked at: the array then has no cells. *)
Definition arraytcb_init (size : Z) : M tl Z :=
  if size <=? 0 then mret (-1) else
  arr ← malloc;
  if arr =? 0 then mret (-1) else
  d ← malloc;
  modify (with_array (mk_array size 0 (if d =? 0 then ∅ else zeros size) []));;
  l ← malloc;
  if l =? 0 then mret (-1) else mret 0.

Fixpoint copy_data (n : nat) (i : Z) (new : gmap Z Z) : M tl (gmap Z Z) :=
  match n with
  | O => mret new
  | S n => p ← rd_data i; copy_data n (i + 1) (<[i := p]> new)
  end.

Definition double_array : M tl Z :=
  a ← gets array;
  let newsize := s32 (maxsize a * 2) in
  newdata ← malloc;
  if newdata =? 0 then mret (-1) else
  d ← copy_data (Z.to_nat (cursize a)) 0 (zeros newsize);
  modify (with_array (mk_array newsize (cursize a) d (avail_list a)));;
  mret 0.

(** The new thread's [ktid] is not set yet: [junk]. *)
Definition arraytcb_insert_thread (junk new_tid : Z) : M tl Z :=
  new_thread ← malloc;
  if new_thread =? 0 then mret (-1) else
  wr_tcb new_thread (mk_tcb junk new_tid RUNNING []);;
  lock;;
  a ← gets array;
  match avail_list a with
  | index :: rest =>
      set_avail rest;;
      wr_data index new_thread;;
      unlock;;
      mret index
  | [] =>
      rv ← (if cursize a =? maxsize a then double_array else mret 0);
      if rv <? 0 then
        modify (fun s => with_tcbs (delete new_thread (tcbs s)) s);;
        mret (-1)
      else
        a ← gets array;
        let index := cursize a in
        modify (with_array (mk_array (maxsize a) (index + 1) (data a) (avail_list a)));;
        wr_data index new_thread;;
        unlock;;
        mret index
  end.

(** [cond_destroy] waits while somebody is in the queue. *)
Definition arraytcb_delete_thread (index : Z) : M tl Z :=
  thr ← rd_data index;
  if negb (thr =? 0) then
    wr_data index 0;;
    t ← rd_tcb thr;
    (if negb (bool_decide (cond_var t = [])) then blocks else mret tt);;
    modify (fun s => with_tcbs (delete thr (tcbs s)) s);;
    s ← get;
    malloc_retry (length (answers s) + 1);;
    a ← gets array;
    set_avail (index :: avail_list a);;
    mret 0
  else mret (-1).

Definition arraytcb_get_thread (index : Z) : M tl Z :=
  a ← gets array;
  if (index <? 0) || (cursize a <=? index) then mret 0 else rd_data index.

Fixpoint find_loop (n : nat) (i t : Z) : M tl Z :=
  match n with
  | O => mret 0
  | S n =>
      p ← rd_data i;
      if p =? 0 then find_loop n (i + 1) t
      else c ← rd_tcb p; if tid c =? t then mret p else find_loop n (i + 1) t
  end.
Definition arraytcb_find_thread (t : Z) : M tl Z := a ← gets array; find_loop (Z.to_nat (cursize a)) 0 t.

Definition arraytcb_set_ktid (index k : Z) : M tl Z :=
  a ← gets array;
  p ← (if cursize a <=? index then mret 0 else rd_data index);
  if p =? 0 then mret (-1) else
  t ← rd_tcb p;
  wr_tcb p (mk_tcb k (tid t) (tstate t) (cond_var t));;
  mret 0.

Definition arraytcb_is_valid (index : Z) : M tl Z := a ← gets array; mret (if (index <? 0) || (cursize a <=? index) then 0 else 1).

(** ** thr_lib.c *)

Definition thr_exitstatus_hashfunc (key : Z) : Z := Z.rem (s32 key) EXIT_HASH_SIZE.

Definition on_stacks {A} (m : M (ThrStacks.lib V) A) : M tl A := zoom stacks with_stacks m.

(** [thr_init]; the kernel's [gettid()] and the results of the other initial calls
    that may fail are arguments. *)
Definition thr_init (size my_ktid junk err_mutex err_hash : Z) : M tl Z :=
  modify (with_count 1);;
  modify (with_locked false);;
  e1 ← arraytcb_init INIT_THR_NUM;
  e2 ← on_stacks (thr_lib_helper_init size);
  modify (with_exit HTSpec.empty);;
  e3 ← arraytcb_insert_thread junk 0;
  e4 ← arraytcb_set_ktid 0 my_ktid;
  mret (if Z.lor (Z.lor (Z.lor err_mutex e1) (Z.lor e2 err_hash)) (Z.lor e3 e4) =? 0 then 0 else -1).

(** The words on the new stack, and [thr_create_kernel], of which [fork_at] is the
    part of the calling thread: the new thread starts with the stack pointer given. *)
Definition start_thread (stack_addr args index : Z) : M V Z :=
  wr (w32 (stack_addr - 4)) args;;
  wr (w32 (stack_addr - 12)) index;;
  fork_at (w32 (stack_addr - 12)).

(** The end of [thr_create], when the kernel has answered. *)
Definition thr_create_end (t index child_ktid : Z) : M tl Z :=
  if child_ktid <? 0 then mret (-1) else
  lock;;
  thr ← arraytcb_get_thread index;
  (if thr =? 0 then mret tt else
   c ← rd_tcb thr; if tid c =? t then arraytcb_set_ktid index child_ktid;; mret tt else mret tt);;
  unlock;;
  mret t.

Definition thr_create (junk args : Z) : M tl Z :=
  n ← gets thread_count;
  let t := s32 n in
  modify (with_count (w32 (n + 1)));;
  index ← arraytcb_insert_thread junk t;
  if index =? -1 then mret (-1) else
  stack_addr ← on_stacks (get_new_stack_top swexn ufree index);
  if negb (stack_addr mod ALIGNMENT =? 0) then mret (-1) else
  child_ktid ← on_stacks (sys (start_thread stack_addr args index));
  thr_create_end t index child_ktid.

(** [thr_join] by [me] up to [cond_wait]: [inl] is its result, [inr true] that it waits. *)
Definition thr_join (me t : Z) : M tl (Z + bool) :=
  n ← gets thread_count;
  if n <=? w32 t then mret (inl (-1)) else
  lock;;
  thr ← arraytcb_find_thread t;
  if negb (thr =? 0) then
    c ← rd_tcb thr;
    match tstate c with
    | JOINED => unlock;; mret (inl (-1))
    | RUNNING =>
        wr_tcb thr (mk_tcb (ktid c) (tid c) JOINED (cond_var c ++ [me]));;
        unlock;;
        mret (inr true)
    end
  else unlock;; mret (inr false).

(** The rest of [thr_join]: [cond_wait] has taken the mutex again.  The result, and
    what is stored at [statusp] if that is not NULL; [hashtable_remove] returns NULL
    when it does not find the thread. *)
Definition thr_join_finish (waited : bool) (t : Z) : M tl (Z * Z) :=
  (if waited then lock;; unlock else mret tt);;
  tbl ← gets hash_exit;
  modify (with_exit (HTSpec.remove tbl t));;
  mret (match HTSpec.get tbl t with Some v => (0, v) | None => (-1, 0) end).

(** The pages that [asm_thr_exit] gives back, in order. *)
Definition to_remove (r : removal) : list Z :=
  (match highest r with Some b => [b] | None => [] end) ++ (match middle r with Some b => [b] | None => [] end) ++ (match lowest r with Some b => [b] | None => [] end).
Fixpoint remove_all (l : list Z) : M V unit := match l with [] => mret tt | b :: l => remove_pages b;; remove_all l end.

(** [thr_exit] up to [vanish]: the threads that were waiting in [thr_join] and are
    woken.  The mutex is released by hand, after which the pages are removed. *)
Definition thr_exit (esp status : Z) : M tl (list Z) :=
  s ← get;
  let index := get_stack_position_index (stacks s) esp in
  thr ← arraytcb_get_thread index;
  if thr =? 0 then panic else
  c ← rd_tcb thr;
  modify (fun s => with_exit (HTSpec.put (hash_exit s) (tid c) status) s);;
  lock;;
  c ← rd_tcb thr;
  woken ← (match tstate c, cond_var c with
           | JOINED, j :: q => wr_tcb thr (mk_tcb (ktid c) (tid c) (tstate c) q);; mret [j]
           | _, _ => mret []
           end);
  rv ← arraytcb_delete_thread index;
  if rv <? 0 then panic else
  s ← get;
  unlock;;
  let a := array s in
  on_stacks (sys (remove_all (to_remove (get_pages_to_remove (cursize a) (fun j => negb (default 0 (data a !! j) =? 0)) (stacks s) index))));;
  mret woken.

Definition thr_getid (esp : Z) : M tl Z :=
  s ← get;
  thr ← arraytcb_get_thread (get_stack_position_index (stacks s) esp);
  if thr =? 0 then mret (-1) else c ← rd_tcb thr; mret (tid c).
Definition thr_getktid (esp : Z) : M tl Z :=
  s ← get;
  thr ← arraytcb_get_thread (get_stack_position_index (stacks s) esp);
  if thr =? 0 then mret (-1) else c ← rd_tcb thr; mret (ktid c).

(** The thread that the kernel's [yield] is called with, or the error. *)
Definition thr_yield (t : Z) : M tl (Z + Z) :=
  if t =? -1 then mret (inr (-1)) else
  lock;;
  thr ← arraytcb_find_thread t;
  if thr =? 0 then unlock;; mret (inl (-1)) else
  c ← rd_tcb thr;
  unlock;;
  mret (inr (ktid c)).
End lib.
Arguments mk_tl {V}.
Arguments tl : clear implicits.

(** ** The array is well-formed *)
Section proofs.
Context {V : Type} `{UP : UserPages V}.
Implicit Types s : tl V.

(** Slot [i] belongs to the thread with control block [c] at [p]. *)
Definition slot s (i p : Z) (c : tcb_t) : Prop := data (array s) !! i = Some p /\ p <> 0 /\ tcbs s !! p = Some c.

Record arr_ok s : Prop := {
  a_size : 0 < maxsize (array s) < 2 ^ 30 /\ 0 <= cursize (array s) <= maxsize (array s);
  a_dom : forall i, is_Some (data (array s) !! i) <-> 0 <= i < maxsize (array s);
  a_live : forall i p, data (array s) !! i = Some p -> p <> 0 -> i < cursize (array s) /\ is_Some (tcbs s !! p);
  a_free : forall i, i ∈ avail_list (array s) <-> 0 <= i < cursize (array s) /\ data (array s) !! i = Some 0;
  a_nodup : NoDup (avail_list (array s));
  a_inj : forall i j p, data (array s) !! i = Some p -> data (array s) !! j = Some p -> p <> 0 -> i = j;
  a_tids : forall i j p q c d, slot s i p c -> slot s j q d -> tid c = tid d -> i = j;
  a_wait : forall i p c, slot s i p c -> (length (cond_var c) <= 1)%nat /\ (tstate c = RUNNING -> cond_var c = [])
}.

(** ** Running the accesses *)
Lemma rd_data_ok s i p : data (array s) !! i = Some p -> rd_data i s = Ok (p, s).
Proof. intros E. unfold rd_data, deref. by rewrite E. Qed.
Lemma rd_tcb_ok s p c : tcbs s !! p = Some c -> rd_tcb p s = Ok (c, s).
Proof. intros E. unfold rd_tcb, deref. by rewrite E. Qed.
Lemma lock_ok s : locked s = false -> lock s = Ok (tt, with_locked true s).
Proof. intros E. unfold lock. by rewrite E. Qed.
Lemma wr_data_ok s i p q : data (array s) !! i = Some q ->
  wr_data i p s = Ok (tt, with_array (mk_array (maxsize (array s)) (cursize (array s)) (<[i := p]> (data (array s))) (avail_list (array s))) s).
Proof. intros E. unfold wr_data. by rewrite E. Qed.

Lemma get_thread_ok s i p : arr_ok s -> 0 <= i < cursize (array s) -> data (array s) !! i = Some p -> arraytcb_get_thread i s = Ok (p, s).
Proof.
  intros H Hi E. unfold arraytcb_get_thread. rewrite (bind_ok _ _ s (array s) s eq_refl), (proj2 (Z.ltb_ge i 0)), (proj2 (Z.leb_gt _ _)) by lia. simpl. by apply rd_data_ok.
Qed.

(** The search finds the only thread with the id, or nothing. *)
Lemma find_loop_ok s t : arr_ok s -> forall n i, 0 <= i -> i + Z.of_nat n <= cursize (array s) ->
  exists p, find_loop n i t s = Ok (p, s) /\
    ((exists j c, i <= j < i + Z.of_nat n /\ slot s j p c /\ tid c = t) \/ (p = 0 /\ forall j q c, i <= j < i + Z.of_nat n -> slot s j q c -> tid c <> t)).
Proof.
  intros H n. induction n as [|n IH]; intros i Hi Hn; [exists 0; split; [done|]; right; split; [done|lia]|]. cbn [find_loop].
  destruct (proj2 (a_dom _ H i)) as [p Ep]; [pose proof (a_size _ H); lia|]. rewrite (bind_ok _ _ _ _ _ (rd_data_ok s i p Ep)).
  destruct (IH (i + 1) ltac:(lia) ltac:(lia)) as (r & R & K).
  assert (Hnext : (forall q c, slot s i q c -> tid c <> t) -> exists p, find_loop n (i + 1) t s = Ok (p, s) /\
    ((exists j c, i <= j < i + Z.of_nat (S n) /\ slot s j p c /\ tid c = t) \/ (p = 0 /\ forall j q c, i <= j < i + Z.of_nat (S n) -> slot s j q c -> tid c <> t))).
  { intros Hno. exists r. split; [done|]. destruct K as [(j & c & Hj & Hs & Ht)|[-> Hnone]]; [left; exists j, c; split; [lia|done]|right; split; [done|]].
    intros j q c Hj Hs. destruct (decide (j = i)) as [->|]; [by apply (Hno q c)|]. apply (Hnone j q c); [lia|done]. }
  destruct (Z.eqb_spec p 0) as [->|Hp].
  - apply Hnext. intros q c (E & Hq & _). congruence.
  - destruct (a_live _ H i p Ep Hp) as [_ [c Ec]]. rewrite (bind_ok _ _ _ _ _ (rd_tcb_ok s p c Ec)). destruct (Z.eqb_spec (tid c) t) as [Et|Et].
    + exists p. split; [done|]. left. exists i, c. split; [lia|]. by split.
    + apply Hnext. intros q d (E & _ & Ed). congruence.
Qed.

Lemma find_thread_ok s t : arr_ok s -> exists p, arraytcb_find_thread t s = Ok (p, s) /\
  ((exists j c, slot s j p c /\ tid c = t) \/ (p = 0 /\ forall j q c, slot s j q c -> tid c <> t)).
Proof.
  intros H. unfold arraytcb_find_thread. rewrite (bind_ok _ _ s (array s) s eq_refl). destruct (a_size _ H) as [_ Hc].
  destruct (find_loop_ok s t H (Z.to_nat (cursize (array s))) 0 ltac:(lia) ltac:(lia)) as (p & R & K). exists p. split; [done|].
  destruct K as [(j & c & _ & Hs & Ht)|[-> Hno]]; [left; by exists j, c|right; split; [done|]]. intros j q c Hs. apply (Hno j q c); [|done].
  destruct Hs as (E & Hq & _). destruct (a_live _ H j q E Hq) as [Hj _]. assert (0 <= j < maxsize (array s)) by (apply (a_dom _ H); by exists q). lia.
Qed.

(** ** Slots *)

(** A new control block [c] at [p] is put into slot [i], which is taken from the free
    list or added at the end; the array may have been enlarged. *)
Lemma place_ok s s' i p c : arr_ok s -> p <> 0 -> tcbs s !! p = None -> cond_var c = [] -> (forall j q d, slot s j q d -> tid d <> tid c) ->
  tcbs s' = <[p := c]> (tcbs s) -> maxsize (array s) <= maxsize (array s') < 2 ^ 30 -> 0 <= i < maxsize (array s') ->
  (forall j, data (array s') !! j = if j =? i then Some p else match data (array s) !! j with Some q => Some q | None => if (maxsize (array s) <=? j) && (j <? maxsize (array s')) then Some 0 else None end) ->
  (avail_list (array s) = i :: avail_list (array s') /\ cursize (array s') = cursize (array s)) \/
  (avail_list (array s) = [] /\ avail_list (array s') = [] /\ i = cursize (array s) /\ cursize (array s') = cursize (array s) + 1) ->
  arr_ok s' /\ slot s' i p c /\ (forall j q d, j <> i -> slot s' j q d <-> slot s j q d) /\ (forall q d, ~ slot s i q d).
Proof.
  intros H Hp Hf Hc Ht Etcb Hm Hi Hd Hav. pose proof H as [Hs Hdom Hlive Hfree Hnd Hinj Htids Hwait].
  assert (Hold : forall j q, data (array s) !! j = Some q -> q <> p) by (intros j q Ej ->; destruct (Hlive j p Ej Hp) as [_ [d Ed]]; congruence).
  assert (Hi0 : forall q, data (array s) !! i = Some q -> q = 0).
  { intros q Eq. destruct Hav as [[Ha _]|(_ & _ & -> & _)]; [destruct (proj1 (Hfree i)) as [_ K]; [rewrite Ha; set_solver|]; congruence|].
    destruct (decide (q = 0)) as [|Hq]; [done|]. destruct (Hlive _ q Eq Hq). lia. }
  assert (Hslot : forall j q d, j <> i -> slot s' j q d <-> slot s j q d).
  { intros j q d Hj. unfold slot. rewrite Hd, (proj2 (Z.eqb_neq j i) Hj), Etcb. split; intros (E1 & E2 & E3).
    - destruct (data (array s) !! j) as [x|] eqn:Ej; [|destruct (_ && _); congruence]. injection E1 as ->. rewrite lookup_insert_ne in E3 by (apply not_eq_sym; by eapply Hold). done.
    - rewrite E1. split; [done|]. split; [done|]. rewrite lookup_insert_ne by (apply not_eq_sym; by eapply Hold). done. }
  assert (Hnew : slot s' i p c) by (unfold slot; rewrite Hd, Z.eqb_refl, Etcb; split; [done|]; split; [done|]; apply lookup_insert_eq).
  assert (Hci : cursize (array s) <= cursize (array s') /\ i < cursize (array s') /\ cursize (array s') <= maxsize (array s')).
  { destruct Hav as [[Ha ->]|(_ & _ & -> & ->)]; [|lia]. destruct (proj1 (Hfree i)) as [K _]; [rewrite Ha; set_solver|]. lia. }
  split; [|split; [done|split; [done|]]].
  2:{ intros q d (E & Hq & _). apply Hq. by apply Hi0. }
  split.
  - lia.
  - intros j. rewrite Hd. destruct (Z.eqb_spec j i) as [->|Hj]; [split; [lia|by eexists]|]. destruct (data (array s) !! j) as [q|] eqn:Ej.
    + split; [intros _|by eexists]. assert (0 <= j < maxsize (array s)) by (apply Hdom; by exists q). lia.
    + assert (~ (0 <= j < maxsize (array s))) by (rewrite <- Hdom, Ej; by intros [? ?]). destruct (Z.leb_spec (maxsize (array s)) j), (Z.ltb_spec j (maxsize (array s'))); simpl; split; try lia; try done; try (by intros [? ?]); intros; lia || by eexists.
  - intros j q Ej Hq. destruct (decide (j = i)) as [->|Hj].
    + destruct Hnew as (E & _ & Ec). assert (q = p) as -> by congruence. split; [lia|by eexists].
    + rewrite Hd, (proj2 (Z.eqb_neq j i) Hj) in Ej. destruct (data (array s) !! j) as [x|] eqn:Ex; [|destruct (_ && _); congruence]. injection Ej as ->.
      destruct (Hlive j q Ex Hq) as [Hj' [d Ed]]. split; [lia|]. exists d. rewrite Etcb, lookup_insert_ne by (apply not_eq_sym; by eapply Hold). done.
  - intros j. destruct (decide (j = i)) as [->|Hj].
    + rewrite Hd, Z.eqb_refl. split; [|intros [_ ?]; congruence]. intros Hin. exfalso. destruct Hav as [[Ha _]|(_ & Ha & _)]; [|rewrite Ha in Hin; by apply elem_of_nil in Hin].
      rewrite Ha in Hnd. apply NoDup_cons_1_1 in Hnd. done.
    + rewrite Hd, (proj2 (Z.eqb_neq j i) Hj). destruct Hav as [[Ha Hcs]|(Ha & Ha' & -> & Hcs)].
      * rewrite Hcs. transitivity (j ∈ avail_list (array s)); [rewrite Ha; set_solver|]. rewrite Hfree. destruct (data (array s) !! j) eqn:Ej; [done|].
        assert (~ (0 <= j < maxsize (array s))) by (rewrite <- Hdom, Ej; by intros [? ?]). lia.
      * rewrite Ha'. split; [intros K; by apply elem_of_nil in K|]. intros [Hj1 Ej]. destruct (data (array s) !! j) as [x|] eqn:Ex.
        -- rewrite <- Ha. apply Hfree. split; [lia|congruence].
        -- assert (~ (0 <= j < maxsize (array s))) by (rewrite <- Hdom, Ex; by intros [? ?]). lia.
  - destruct Hav as [[Ha _]|(_ & -> & _)]; [rewrite Ha in Hnd; by apply NoDup_cons_1_2 in Hnd|constructor].
  - intros j k q Ej Ek Hq. destruct (decide (j = i)) as [->|Hj], (decide (k = i)) as [->|Hk]; try done;
      rewrite Hd, ?Z.eqb_refl, ?(proj2 (Z.eqb_neq j i)) in Ej by done; rewrite Hd, ?Z.eqb_refl, ?(proj2 (Z.eqb_neq k i)) in Ek by done.
    + destruct (data (array s) !! k) as [x|] eqn:Ex; [|destruct (_ && _); congruence]. exfalso. apply (Hold k x Ex). congruence.
    + destruct (data (array s) !! j) as [x|] eqn:Ex; [|destruct (_ && _); congruence]. exfalso. apply (Hold j x Ex). congruence.
    + destruct (data (array s) !! j) as [x|] eqn:Ex; [|destruct (_ && _); congruence]. destruct (data (array s) !! k) as [y|] eqn:Ey; [|destruct (_ && _); congruence].
      apply (Hinj j k q); congruence.
  - intros j k q r d e Sj Sk Et. destruct (decide (j = i)) as [->|Hj], (decide (k = i)) as [->|Hk]; try done.
    + apply Hslot in Sk; [|done]. exfalso. apply (Ht k r e Sk). destruct Sj as (E1 & _ & E3), Hnew as (E1' & _ & E3'). congruence.
    + apply Hslot in Sj; [|done]. exfalso. apply (Ht j q d Sj). destruct Sk as (E1 & _ & E3), Hnew as (E1' & _ & E3'). congruence.
    + apply Hslot in Sj; [|done]. apply Hslot in Sk; [|done]. by eapply Htids.
  - intros j q d Sj. destruct (decide (j = i)) as [->|Hj].
    + destruct Sj as (E1 & _ & E3), Hnew as (E1' & _ & E3'). assert (d = c) as -> by congruence. rewrite Hc. split; [simpl; lia|done].
    + apply Hslot in Sj; [|done]. by apply (Hwait j q).
Qed.

Lemma copy_data_ok s n : forall i new, 0 <= i -> (forall j, i <= j < i + Z.of_nat n -> is_Some (data (array s) !! j)) ->
  exists d, copy_data n i new s = Ok (d, s) /\ forall j, d !! j = if (i <=? j) && (j <? i + Z.of_nat n) then data (array s) !! j else new !! j.
Proof.
  induction n as [|n IH]; intros i new Hi Hd.
  - exists new. split; [done|]. intros j. destruct (Z.leb_spec i j), (Z.ltb_spec j (i + Z.of_nat 0)); try done. lia.
  - destruct (Hd i ltac:(lia)) as [p Ep]. cbn [copy_data]. rewrite (bind_ok _ _ _ _ _ (rd_data_ok s i p Ep)).
    destruct (IH (i + 1) (<[i := p]> new) ltac:(lia) ltac:(intros; apply Hd; lia)) as (d & R & K). exists d. split; [done|]. intros j. rewrite K.
    destruct (decide (j = i)) as [->|Hj].
    + rewrite (proj2 (Z.leb_gt (i + 1) i)), (proj2 (Z.leb_le i i)), (proj2 (Z.ltb_lt i (i + Z.of_nat (S n)))) by lia. simpl. by rewrite lookup_insert_eq, Ep.
    + rewrite lookup_insert_ne by done. destruct (Z.leb_spec (i + 1) j), (Z.leb_spec i j); try lia; simpl; try done.
      replace (i + 1 + Z.of_nat n) with (i + Z.of_nat (S n)) by lia. done.
Qed.

(** What the array's functions do not touch. *)
Definition rest_kept s s' : Prop := thread_count s' = thread_count s /\ stacks s' = stacks s.

(** [double_array] on a full array. *)
Lemma double_array_ok s : arr_ok s -> maxsize (array s) < 2 ^ 29 -> cursize (array s) = maxsize (array s) ->
  exists r s', double_array s = Ok (r, s') /\ tcbs s' = tcbs s /\ locked s' = locked s /\ rest_kept s s' /\
    (r = -1 /\ array s' = array s \/
     r = 0 /\ maxsize (array s') = 2 * maxsize (array s) /\ cursize (array s') = cursize (array s) /\ avail_list (array s') = avail_list (array s) /\
     forall j, data (array s') !! j = match data (array s) !! j with Some q => Some q | None => if (maxsize (array s) <=? j) && (j <? maxsize (array s')) then Some 0 else None end).
Proof.
  intros H Hm Hc. destruct (a_size _ H) as [Hs _]. unfold double_array. rewrite (bind_ok _ _ s (array s) s eq_refl). rewrite s32_small by lia.
  assert (exists nd l, malloc s = Ok (nd, with_answers l s)) as (nd & l & Rm).
  { unfold malloc. destruct (answers s) as [|x l] eqn:E; [exists 0, []|by exists x, l]. destruct s. simpl in *. by subst. }
  rewrite (bind_ok _ _ _ _ _ Rm). destruct (Z.eqb_spec nd 0); [exists (-1), (with_answers l s); split; [done|]; split; [done|]; split; [done|]; split; [done|by left]|].
  destruct (copy_data_ok (with_answers l s) (Z.to_nat (cursize (array s))) 0 (zeros (maxsize (array s) * 2))) as (d & Rd & Kd).
  { lia. }
  { intros j Hj. simpl. apply (a_dom _ H). lia. }
  rewrite (bind_ok _ _ _ _ _ Rd). eexists 0, _. split; [done|]. simpl. split; [done|]. split; [done|]. split; [done|]. right. split; [done|]. split; [lia|]. split; [done|]. split; [done|].
  intros j. rewrite Kd, Z.add_0_l. simpl. destruct (data (array s) !! j) as [q|] eqn:Ej.
  - assert (0 <= j < maxsize (array s)) by (apply (a_dom _ H); by exists q). rewrite (proj2 (Z.leb_le 0 j)), (proj2 (Z.ltb_lt _ _)) by lia. done.
  - assert (Hno : ~ (0 <= j < maxsize (array s))) by (rewrite <- (a_dom _ H), Ej; by intros [? ?]).
    destruct (Z.leb_spec 0 j), (Z.ltb_spec j (Z.of_nat (Z.to_nat (cursize (array s))))); simpl; try lia.
    + destruct (Z.leb_spec (maxsize (array s)) j), (Z.ltb_spec j (maxsize (array s) * 2)); simpl; try lia; [apply zeros_lookup; lia|].
      destruct (zeros _ !! j) eqn:Ez; [|done]. assert (0 <= j < maxsize (array s) * 2) by (apply zeros_dom; by eexists). lia.
    + rewrite (proj2 (Z.leb_gt _ _)) by lia. simpl. destruct (zeros _ !! j) eqn:Ez; [|done]. assert (0 <= j < maxsize (array s) * 2) by (apply zeros_dom; by eexists). lia.
Qed.

(** From [s] to [s'] the control block [c] at [p] was put into slot [i], which was
    free; the mutex is free again. *)
Definition occupies s s' (i p : Z) (c : tcb_t) : Prop :=
  arr_ok s' /\ locked s' = false /\ slot s' i p c /\ (forall q d, ~ slot s i q d) /\ forall j q d, j <> i -> slot s' j q d <-> slot s j q d.

(** A new thread gets a stack slot that no live thread has, whether it is taken from
    the free list, added at the end or found after the array was enlarged; all
    other slots stay as they are and the mutex is free again.  When the array cannot
    be enlarged, -1 is returned with the mutex still locked. *)
Theorem arraytcb_insert_correct s junk t p rest : arr_ok s -> locked s = false -> maxsize (array s) < 2 ^ 29 ->
  answers s = p :: rest -> (p <> 0 -> tcbs s !! p = None) -> (forall j q d, slot s j q d -> tid d <> t) ->
  exists r s', arraytcb_insert_thread junk t s = Ok (r, s') /\ rest_kept s s' /\
    (p <> 0 /\ 0 <= r <= cursize (array s) /\ occupies s s' r p (mk_tcb junk t RUNNING []) \/
     r = -1 /\ (locked s' = negb (p =? 0)) /\ array s' = array s /\ (p <> 0 -> avail_list (array s) = [] /\ cursize (array s) = maxsize (array s))).
Proof.
  intros H Hl Hm Ha Hf Ht. destruct (a_size _ H) as [Hs Hcs]. unfold arraytcb_insert_thread. rewrite (bind_ok _ _ s p (with_answers rest s)) by (unfold malloc; by rewrite Ha).
  destruct (Z.eqb_spec p 0) as [Hp|Hp]; [exists (-1), (with_answers rest s); split; [done|]; split; [done|]; right; split; [done|]; split; [done|]; split; [done|]; lia|].
  set (c := mk_tcb junk t RUNNING []). set (s1 := with_tcbs (<[p := c]> (tcbs s)) (with_answers rest s)).
  rewrite (bind_ok _ _ _ tt s1 eq_refl), (bind_ok lock _ s1 tt (with_locked true s1)) by (by apply lock_ok). rewrite (bind_ok _ _ (with_locked true s1) (array s) (with_locked true s1) eq_refl).
  destruct (avail_list (array s)) as [|i q] eqn:Eav.
  - assert (Hd : exists rv s2, (if cursize (array s) =? maxsize (array s) then double_array else mret 0) (with_locked true s1) = Ok (rv, s2) /\ tcbs s2 = tcbs s1 /\ locked s2 = true /\ rest_kept s s2 /\
      (rv = -1 /\ array s2 = array s /\ cursize (array s) = maxsize (array s) \/
       rv = 0 /\ maxsize (array s) <= maxsize (array s2) < 2 ^ 30 /\ cursize (array s2) = cursize (array s) /\ cursize (array s) < maxsize (array s2) /\ avail_list (array s2) = [] /\
       forall j, data (array s2) !! j = match data (array s) !! j with Some x => Some x | None => if (maxsize (array s) <=? j) && (j <? maxsize (array s2)) then Some 0 else None end)).
    { destruct (Z.eqb_spec (cursize (array s)) (maxsize (array s))) as [E|E].
      - assert (H1 : arr_ok (with_locked true s1)).
        { destruct H as [H1 H2 H3 H4 H5 H6 H7 H8]. assert (Hsl : forall j x d, slot (with_locked true s1) j x d -> slot s j x d).
          { intros j x d (E1 & E2 & E3). split; [done|]. split; [done|]. simpl in E3. rewrite lookup_insert_ne in E3; [done|]. intros <-. destruct (H3 j p E1 Hp) as [_ [? ?]]. rewrite Hf in *; done. }
          split; try done.
          - intros j x E1 E2. destruct (H3 j x E1 E2) as [? [d Ed]]. split; [done|]. simpl. destruct (decide (p = x)) as [->|]; [rewrite lookup_insert_eq; by eexists|rewrite lookup_insert_ne by done; by exists d].
          - intros j k x y d e S1 S2. apply (H7 j k x y d e); by apply Hsl.
          - intros j x d S1. apply (H8 j x). by apply Hsl. }
        destruct (double_array_ok (with_locked true s1) H1 Hm E) as (r & s2 & R & T2 & L2 & F2 & K). exists r, s2. split; [done|]. split; [done|]. split; [done|]. split; [exact F2|].
        destruct K as [[-> A]|(-> & M2 & C2 & Av2 & D2)]; [left; done|right]. simpl in *. split; [done|]. split; [lia|]. split; [lia|]. split; [lia|]. split; [by rewrite Av2|exact D2].
      - exists 0, (with_locked true s1). split; [done|]. split; [done|]. split; [done|]. split; [done|]. right. simpl. split; [done|]. split; [lia|]. split; [done|]. split; [lia|]. split; [done|].
        intros j. destruct (data (array s) !! j); [done|]. destruct (Z.leb_spec (maxsize (array s)) j), (Z.ltb_spec j (maxsize (array s))); simpl; try done; lia. }
    destruct Hd as (rv & s2 & R2 & T2 & L2 & F2 & K). rewrite (bind_ok _ _ _ _ _ R2). destruct K as [(-> & A2 & Ec)|(-> & M2 & C2 & C3 & Av2 & D2)].
    + eexists (-1), _. split; [done|]. split; [exact F2|]. right. split; [done|]. split; [done|]. split; [done|]. done.
    + change (0 <? 0) with false. cbv iota. rewrite (bind_ok _ _ s2 (array s2) s2 eq_refl).
      set (s3 := with_array (mk_array (maxsize (array s2)) (cursize (array s2) + 1) (data (array s2)) (avail_list (array s2))) s2). cbv zeta. rewrite (bind_ok (modify (with_array (mk_array (maxsize (array s2)) (cursize (array s2) + 1) (data (array s2)) (avail_list (array s2))))) _ s2 tt s3 eq_refl).
      assert (E3 : exists x, data (array s3) !! cursize (array s2) = Some x).
      { simpl. rewrite D2. destruct (data (array s) !! cursize (array s2)) eqn:E0; [by eexists|]. assert (~ (0 <= cursize (array s2) < maxsize (array s))) by (rewrite <- (a_dom _ H), E0; by intros [? ?]).
        rewrite (proj2 (Z.leb_le _ _)), (proj2 (Z.ltb_lt _ _)) by lia. by eexists. }
      destruct E3 as [x E3]. rewrite (bind_ok _ _ _ _ _ (wr_data_ok s3 _ p x E3)). set (s4 := with_array _ s3).
      rewrite (bind_ok unlock _ s4 tt (with_locked false s4)) by (unfold unlock; simpl; by rewrite L2). eexists (cursize (array s2)), (with_locked false s4). split; [done|]. split; [exact F2|]. left. split; [done|]. split; [lia|].
      destruct (place_ok s (with_locked false s4) (cursize (array s2)) p c H Hp (Hf Hp) eq_refl Ht) as (P1 & P2 & P3 & P4).
      * simpl. by rewrite T2.
      * simpl. lia.
      * simpl. lia.
      * intros j. simpl. rewrite lookup_insert. destruct (decide (cursize (array s2) = j)) as [->|Hne]; [by rewrite Z.eqb_refl|]. rewrite (proj2 (Z.eqb_neq j _)) by congruence. apply D2.
      * right. simpl. split; [done|]. split; [done|]. lia.
      * by repeat (split; [done|]).
  - set (s2 := with_array (mk_array (maxsize (array s)) (cursize (array s)) (data (array s)) q) (with_locked true s1)). cbv iota. rewrite (bind_ok (set_avail q) _ (with_locked true s1) tt s2 eq_refl).
    assert (Hi : 0 <= i < cursize (array s) /\ data (array s) !! i = Some 0) by (apply (a_free _ H); rewrite Eav; set_solver). destruct Hi as [Hi E0].
    rewrite (bind_ok _ _ _ _ _ (wr_data_ok s2 i p 0 E0)). set (s3 := with_array _ s2). rewrite (bind_ok unlock _ s3 tt (with_locked false s3)) by done.
    eexists i, (with_locked false s3). split; [done|]. split; [done|]. left. split; [done|]. split; [lia|].
    destruct (place_ok s (with_locked false s3) i p c H Hp (Hf Hp) eq_refl Ht) as (P1 & P2 & P3 & P4); try done.
    + simpl. lia.
    + simpl. lia.
    + intros j. simpl. rewrite lookup_insert. destruct (decide (i = j)) as [->|Hne]; [by rewrite Z.eqb_refl|]. rewrite (proj2 (Z.eqb_neq j _)) by congruence.
      destruct (data (array s) !! j); [done|]. destruct (Z.leb_spec (maxsize (array s)) j), (Z.ltb_spec j (maxsize (array s))); simpl; try done; lia.
    + left. by rewrite Eav.
Qed.

(** A slot is given back. *)
Lemma vacate_ok s s' i p c : arr_ok s -> slot s i p c -> tcbs s' = delete p (tcbs s) ->
  array s' = mk_array (maxsize (array s)) (cursize (array s)) (<[i := 0]> (data (array s))) (i :: avail_list (array s)) ->
  arr_ok s' /\ forall j q d, slot s' j q d <-> slot s j q d /\ j <> i.
Proof.
  intros H (Ei & Hp & Ec) Et Ea. pose proof H as [Hs Hdom Hlive Hfree Hnd Hinj Htids Hwait].
  assert (Hslot : forall j q d, slot s' j q d <-> slot s j q d /\ j <> i).
  { intros j q d. unfold slot. rewrite Ea, Et. simpl. destruct (decide (i = j)) as [<-|Hne]; [rewrite lookup_insert_eq; split; [intros (? & ? & _); congruence|tauto]|].
    rewrite lookup_insert_ne by done. split.
    - intros (E1 & E2 & E3). apply lookup_delete_Some in E3 as [_ E3]. done.
    - intros ((E1 & E2 & E3) & _). rewrite lookup_delete_ne by (intros <-; apply Hne; by eapply Hinj). done. }
  assert (Hi : 0 <= i < cursize (array s)) by (destruct (Hlive i p Ei Hp); assert (0 <= i < maxsize (array s)) by (apply Hdom; by exists p); lia).
  split; [|done]. split.
  - rewrite Ea. done.
  - intros j. rewrite Ea. simpl. rewrite <- Hdom. destruct (decide (i = j)) as [<-|Hne]; [rewrite lookup_insert_eq, Ei; split; by eexists|by rewrite lookup_insert_ne].
  - intros j q. rewrite Ea, Et. simpl. destruct (decide (i = j)) as [<-|Hne]; [rewrite lookup_insert_eq; congruence|]. rewrite lookup_insert_ne by done. intros Ej Hq.
    destruct (Hlive j q Ej Hq) as [? [d Ed]]. split; [done|]. exists d. rewrite lookup_delete_ne by (intros <-; apply Hne; by eapply Hinj). done.
  - intros j. rewrite Ea. simpl. rewrite elem_of_cons, Hfree. destruct (decide (i = j)) as [<-|Hne]; [rewrite lookup_insert_eq; split; [by split|by left]|].
    rewrite lookup_insert_ne by done. split; [intros [?|?]; [congruence|done]|by right].
  - rewrite Ea. simpl. constructor; [|done]. rewrite Hfree. intros [_ E]. congruence.
  - intros j k q. rewrite Ea. simpl. rewrite !lookup_insert. repeat case_decide; subst; try congruence. apply Hinj.
  - intros j k q r d e S1%Hslot S2%Hslot. apply (Htids j k q r); tauto.
  - intros j q d S1%Hslot. apply (Hwait j q). tauto.
Qed.

(** Well-formedness only looks at the array and the control blocks. *)
Lemma arr_ok_same s s' : arr_ok s -> array s' = array s -> tcbs s' = tcbs s -> arr_ok s'.
Proof.
  intros [H1 H2 H3 H4 H5 H6 H7 H8] Ea Et. assert (Hsl : forall j q d, slot s' j q d <-> slot s j q d) by (intros; unfold slot; by rewrite Ea, Et).
  split; rewrite ?Ea, ?Et; try done.
  - intros i j p q c d S1%Hsl S2%Hsl. by eapply H7.
  - intros i p c S1%Hsl. by apply (H8 i p).
Qed.

(** Changing a control block, but not its id. *)
Lemma update_ok s s' i p c c' : arr_ok s -> slot s i p c -> tid c' = tid c -> ((length (cond_var c') <= 1)%nat /\ (tstate c' = RUNNING -> cond_var c' = [])) ->
  array s' = array s -> tcbs s' = <[p := c']> (tcbs s) -> arr_ok s' /\ slot s' i p c' /\ forall j q d, j <> i -> slot s' j q d <-> slot s j q d.
Proof.
  intros H (Ei & Hp & Ec) Etid Hcv Ea Et. pose proof H as [Hs Hdom Hlive Hfree Hnd Hinj Htids Hwait].
  assert (Hother : forall j q d, j <> i -> slot s' j q d <-> slot s j q d).
  { intros j q d Hj. unfold slot. rewrite Ea, Et. split; intros (E1 & E2 & E3); (split; [done|]; split; [done|]); (assert (Hpq : p <> q) by (intros ->; apply Hj; by eapply Hinj)); rewrite lookup_insert_ne in * by done; done. }
  assert (Hmine : slot s' i p c') by (unfold slot; rewrite Ea, Et; split; [done|]; split; [done|apply lookup_insert_eq]).
  assert (Hcase : forall j q d, slot s' j q d -> (j = i /\ d = c') \/ (j <> i /\ slot s j q d)).
  { intros j q d S1. destruct (decide (j = i)) as [->|Hj]; [left; split; [done|]|right; split; [done|by apply Hother]]. destruct S1 as (E1 & _ & E3), Hmine as (E1' & _ & E3'). congruence. }
  split; [|done]. split; rewrite ?Ea, ?Et; try done.
  - intros j q Ej Hq. destruct (Hlive j q Ej Hq) as [? [d Ed]]. split; [done|]. destruct (decide (p = q)) as [->|]; [rewrite lookup_insert_eq; by eexists|rewrite lookup_insert_ne by done; by exists d].
  - intros j k q r d e S1 S2 Ett. destruct (Hcase j q d S1) as [[-> ->]|[Hj S1']], (Hcase k r e S2) as [[-> ->]|[Hk S2']]; try done.
    + apply (Htids i k p r c e); [by split|done|congruence].
    + apply (Htids j i q p d c); [done|by split|congruence].
    + by apply (Htids j k q r d e).
  - intros j q d S1. destruct (Hcase j q d S1) as [[-> ->]|[Hj S1']]; [done|by apply (Hwait j q)].
Qed.

(** ** Creating a thread *)
Section create.
Context {UL : UserPagesLaws V} (swexn : Z -> bool -> M V Z) (ufree : Z -> M V unit) (wr : Z -> Z -> M V unit) (fork_at : Z -> M V Z).
(** A word can be stored where its pages are mapped; thread_fork returns, and leaves
    the pages as they are. *)
Hypothesis wr_mapped : forall v a x, has v (a / 4096) = true -> has v ((a + 3) / 4096) = true -> exists v', wr a x v = Ok (tt, v') /\ forall k, has v' k = has v k.
Hypothesis fork_returns : forall v esp, exists r v', fork_at esp v = Ok (r, v') /\ forall k, has v' k = has v k.

Lemma set_ktid_run s i p c k : arr_ok s -> slot s i p c ->
  arraytcb_set_ktid i k s = Ok (0, with_tcbs (<[p := mk_tcb k (tid c) (tstate c) (cond_var c)]> (tcbs s)) s).
Proof.
  intros H (Ei & Hp & Ec). destruct (a_live _ H i p Ei Hp) as [Hi _]. unfold arraytcb_set_ktid. rewrite (bind_ok _ _ s (array s) s eq_refl), (proj2 (Z.leb_gt _ _) Hi).
  by rewrite (bind_ok _ _ _ _ _ (rd_data_ok s i p Ei)), (proj2 (Z.eqb_neq p 0) Hp), (bind_ok _ _ _ _ _ (rd_tcb_ok s p c Ec)).
Qed.

(** The calling thread notes the kernel's id of the new thread. *)
Lemma create_end_run s i p c k : arr_ok s -> locked s = false -> slot s i p c ->
  thr_create_end (tid c) i k s = Ok (if k <? 0 then (-1, s) else (tid c, with_tcbs (<[p := mk_tcb k (tid c) (tstate c) (cond_var c)]> (tcbs s)) s)).
Proof.
  intros H Hl Hs. pose proof Hs as (Ei & Hp & Ec). unfold thr_create_end. destruct (k <? 0); [done|]. rewrite (bind_ok lock _ s tt (with_locked true s)) by (by apply lock_ok).
  assert (H1 : arr_ok (with_locked true s)) by (by apply (arr_ok_same s)). assert (Hi : 0 <= i < cursize (array s)).
  { destruct (a_live _ H i p Ei Hp). assert (0 <= i < maxsize (array s)) by (apply (a_dom _ H); by exists p). lia. }
  rewrite (bind_ok _ _ _ _ _ (get_thread_ok (with_locked true s) i p H1 Hi Ei)), (proj2 (Z.eqb_neq p 0) Hp).
  set (s2 := with_tcbs (<[p := mk_tcb k (tid c) (tstate c) (cond_var c)]> (tcbs s)) (with_locked true s)). rewrite (bind_ok _ _ (with_locked true s) tt s2).
  - rewrite (bind_ok unlock _ s2 tt (with_locked false s2)) by done. unfold s2. destruct s. simpl in *. by subst.
  - rewrite (bind_ok _ _ _ _ _ (rd_tcb_ok (with_locked true s) p c Ec)), Z.eqb_refl. by rewrite (bind_ok _ _ _ _ _ (set_ktid_run (with_locked true s) i p c k H1 ltac:(by split))).
Qed.

(** The words are stored in the new block, and the thread is started there. *)
Lemma start_thread_run v top args i low : 16777216 <= low -> low <= top - 12 -> top < 2 ^ 32 -> (forall k, low / 4096 <= k <= top / 4096 -> has v k = true) ->
  exists k v1 v2 v3, start_thread wr fork_at top args i v = Ok (k, v3) /\ wr (top - 4) args v = Ok (tt, v1) /\ wr (top - 12) i v1 = Ok (tt, v2) /\ fork_at (top - 12) v2 = Ok (k, v3) /\
    forall j, has v3 j = has v j.
Proof.
  intros Hl Ht Hh Hm. assert (Hin : forall a, low <= a <= top -> low / 4096 <= a / 4096 <= top / 4096) by (intros a Ha; split; apply Z.div_le_mono; lia).
  unfold start_thread. rewrite !w32_small by lia. destruct (wr_mapped v (top - 4) args) as (v1 & R1 & K1); [apply Hm, Hin; lia..|].
  destruct (wr_mapped v1 (top - 12) i) as (v2 & R2 & K2); [rewrite K1; apply Hm, Hin; lia..|]. destruct (fork_returns v2 (top - 12)) as (k & v3 & R3 & K3).
  exists k, v1, v2, v3. rewrite (bind_ok _ _ _ _ _ R1), (bind_ok _ _ _ _ _ R2). repeat split; try done. intros j. by rewrite K3, K2, K1.
Qed.

Lemma w32_mod4 x : w32 x mod 4 = x mod 4.
Proof. unfold w32. Z.to_euclidean_division_equations. lia. Qed.

Lemma occupies_stacks s s1 i p c x : occupies s s1 i p c -> occupies s (with_stacks x s1) i p c.
Proof. intros (A & B & C & D & E). split; [by apply (arr_ok_same s1)|]. exact (conj B (conj C (conj D E))). Qed.

Lemma occupies_ktid s s1 i p c k : occupies s s1 i p c -> cond_var c = [] -> occupies s (with_tcbs (<[p := mk_tcb k (tid c) (tstate c) (cond_var c)]> (tcbs s1)) s1) i p (mk_tcb k (tid c) (tstate c) (cond_var c)).
Proof.
  intros (A & B & C & D & E) Hc. destruct (update_ok s1 (with_tcbs (<[p := mk_tcb k (tid c) (tstate c) (cond_var c)]> (tcbs s1)) s1) i p c (mk_tcb k (tid c) (tstate c) (cond_var c)) A C eq_refl) as (A' & C' & E'); try done.
  { simpl. rewrite Hc. split; [simpl; lia|done]. }
  split; [done|]. split; [done|]. split; [done|]. split; [done|]. intros j q d Hj. by rewrite E', E by done.
Qed.

End create.

Lemma delete_run s i p c a rest : arr_ok s -> slot s i p c -> cond_var c = [] -> answers s = a :: rest -> a <> 0 ->
  exists s', arraytcb_delete_thread i s = Ok (0, s') /\ arr_ok s' /\ (forall j q d, slot s' j q d <-> slot s j q d /\ j <> i) /\
    locked s' = locked s /\ thread_count s' = thread_count s /\ hash_exit s' = hash_exit s /\ stacks s' = stacks s.
Proof.
  intros H Hsl Hcv Ha Hna. pose proof Hsl as (Ei & Hp & Ec). unfold arraytcb_delete_thread. rewrite (bind_ok _ _ _ _ _ (rd_data_ok s i p Ei)), (proj2 (Z.eqb_neq p 0) Hp). cbn [negb].
  rewrite (bind_ok _ _ _ _ _ (wr_data_ok s i 0 p Ei)). set (s1 := with_array _ s). rewrite (bind_ok _ _ _ _ _ (rd_tcb_ok s1 p c Ec)), Hcv. simpl bool_decide. cbn [negb].
  rewrite (bind_ok (mret tt) _ s1 tt s1 eq_refl). set (s2 := with_tcbs (delete p (tcbs s1)) s1).
  rewrite (bind_ok (modify (fun s => with_tcbs (delete p (tcbs s)) s)) _ s1 tt s2 eq_refl), (bind_ok get _ s2 s2 s2 eq_refl).
  set (s3 := with_answers rest s2). rewrite (bind_ok _ _ s2 a s3).
  2:{ change (answers s2) with (answers s). rewrite Ha. cbn [length Nat.add malloc_retry]. unfold malloc. unfold mbind at 1, M_bind at 1. change (answers s2) with (answers s). rewrite Ha. by rewrite (proj2 (Z.eqb_neq a 0) Hna). }
  rewrite (bind_ok _ _ s3 (array s3) s3 eq_refl). eexists. split; [reflexivity|]. split; [|split]; [..|done].
  - eapply (vacate_ok s _ i p c); [done|done|reflexivity|reflexivity].
  - eapply (vacate_ok s _ i p c); [done|done|reflexivity|reflexivity].
Qed.

Section join_exit.
Context (remove_pages : Z -> M V Z).
(** The kernel's remove_pages returns. *)
Hypothesis remove_total : forall b v, exists r v', remove_pages b v = Ok (r, v').

Lemma remove_all_total l : forall v, exists v', remove_all remove_pages l v = Ok (tt, v').
Proof.
  induction l as [|b l IH]; intros v; [by exists v|]. destruct (remove_total b v) as (r & v1 & R). destruct (IH v1) as (v2 & R2). exists v2. simpl. by rewrite (bind_ok _ _ _ _ _ R).
Qed.

(** A thread ends: its status is in the table, its slot is free, and the thread that
    waited for it is woken. *)
Lemma exit_run s esp status i p c a rest : arr_ok s -> locked s = false -> get_stack_position_index (stacks s) esp = i -> slot s i p c ->
  answers s = a :: rest -> a <> 0 ->
  exists s', thr_exit remove_pages esp status s = Ok (match tstate c with JOINED => cond_var c | RUNNING => [] end, s') /\ arr_ok s' /\ locked s' = false /\
    (forall j q d, slot s' j q d <-> slot s j q d /\ j <> i) /\ thread_count s' = thread_count s /\ hash_exit s' = HTSpec.put (hash_exit s) (tid c) status.
Proof.
  intros H Hl Hi Hsl Ha Hna. pose proof Hsl as (Ei & Hp & Ec). destruct (a_wait _ H i p c Hsl) as [Hcv1 Hcv2]. unfold thr_exit. rewrite (bind_ok get _ s s s eq_refl). cbv zeta. rewrite Hi.
  assert (Hir : 0 <= i < cursize (array s)) by (destruct (a_live _ H i p Ei Hp); assert (0 <= i < maxsize (array s)) by (apply (a_dom _ H); by exists p); lia).
  rewrite (bind_ok _ _ _ _ _ (get_thread_ok s i p H Hir Ei)), (proj2 (Z.eqb_neq p 0) Hp), (bind_ok _ _ _ _ _ (rd_tcb_ok s p c Ec)).
  set (s1 := with_exit (HTSpec.put (hash_exit s) (tid c) status) s). rewrite (bind_ok (modify (fun s => with_exit (HTSpec.put (hash_exit s) (tid c) status) s)) _ s tt s1 eq_refl).
  rewrite (bind_ok lock _ s1 tt (with_locked true s1)) by (by apply lock_ok). set (s2 := with_locked true s1). rewrite (bind_ok _ _ _ _ _ (rd_tcb_ok s2 p c Ec)).
  assert (Hw : exists s3 c', (match tstate c, cond_var c with JOINED, j :: q => wr_tcb p (mk_tcb (ktid c) (tid c) (tstate c) q);; mret [j] | _, _ => mret [] end) s2 =
      Ok (match tstate c with JOINED => cond_var c | RUNNING => [] end, s3) /\ arr_ok s3 /\ slot s3 i p c' /\ cond_var c' = [] /\ (forall j q d, j <> i -> slot s3 j q d <-> slot s j q d) /\
      locked s3 = true /\ thread_count s3 = thread_count s /\ hash_exit s3 = hash_exit s1 /\ answers s3 = answers s).
  { destruct (tstate c) eqn:Es.
    - exists s2, c. split; [done|]. split; [by apply (arr_ok_same s)|]. split; [done|]. split; [by apply Hcv2|]. done.
    - destruct (cond_var c) as [|j q] eqn:Eq; [exists s2, c; split; [done|]; split; [by apply (arr_ok_same s)|]; done|]. destruct q as [|j2 q]; [|simpl in Hcv1; lia].
      set (c' := mk_tcb (ktid c) (tid c) JOINED []). set (s3 := with_tcbs (<[p := c']> (tcbs s2)) s2). exists s3, c'. split; [done|].
      destruct (update_ok s s3 i p c c' H Hsl eq_refl) as (K1 & K2 & K3); [split; [simpl; lia|done]|done|done|]. split; [done|]. split; [done|]. split; [done|]. split; [done|]. done. }
  destruct Hw as (s3 & c' & R3 & Hok3 & Hsl3 & Hcv3 & Hoth & L3 & T3 & E3 & A3). rewrite (bind_ok _ _ _ _ _ R3).
  destruct (delete_run s3 i p c' a rest Hok3 Hsl3 Hcv3 ltac:(by rewrite A3) Hna) as (s4 & R4 & Hok4 & Hsl4 & L4 & T4 & E4 & S4).
  rewrite (bind_ok _ _ _ _ _ R4). change (0 <? 0) with false. cbv iota. rewrite (bind_ok get _ s4 s4 s4 eq_refl).
  rewrite (bind_ok unlock _ s4 tt (with_locked false s4)) by (unfold unlock; by rewrite L4, L3). set (l := to_remove _). destruct (remove_all_total l (vm (stacks s4))) as (v' & Rv).
  set (s5 := with_stacks (set_vm v' (stacks s4)) (with_locked false s4)).
  rewrite (bind_ok (on_stacks _) _ (with_locked false s4) tt s5) by exact (zoom_ok stacks with_stacks _ (with_locked false s4) tt _ (zoom_ok vm set_vm _ (stacks s4) tt v' Rv)).
  exists s5. split; [done|]. split; [by apply (arr_ok_same s4)|]. split; [done|]. split; [|split; [by simpl; rewrite T4|simpl; by rewrite E4, E3]].
  intros j q d. change (slot s5 j q d) with (slot s4 j q d). rewrite Hsl4. split; intros [K1 K2]; (split; [|done]); by apply Hoth.
Qed.

(** [thr_join] of a running thread, of a joined thread, and of one that is gone. *)
Lemma join_run s me t : arr_ok s -> locked s = false -> 0 <= t < thread_count s -> thread_count s < 2 ^ 32 ->
  (forall i p c, slot s i p c -> tid c = t -> tstate c = RUNNING -> exists s', thr_join me t s = Ok (inr true, s') /\ arr_ok s' /\ locked s' = false /\
     slot s' i p (mk_tcb (ktid c) t JOINED [me]) /\ thread_count s' = thread_count s /\ hash_exit s' = hash_exit s /\ answers s' = answers s /\ stacks s' = stacks s) /\
  (forall i p c, slot s i p c -> tid c = t -> tstate c = JOINED -> thr_join me t s = Ok (inl (-1), s)) /\
  ((forall i p c, slot s i p c -> tid c <> t) -> thr_join me t s = Ok (inr false, s)).
Proof.
  intros H Hl Ht Hn. unfold thr_join. rewrite (bind_ok _ _ s (thread_count s) s eq_refl), w32_small, (proj2 (Z.leb_gt _ _)) by lia.
  rewrite (bind_ok lock _ s tt (with_locked true s)) by (by apply lock_ok). set (s1 := with_locked true s). assert (H1 : arr_ok s1) by (by apply (arr_ok_same s)).
  destruct (find_thread_ok s1 t H1) as (p0 & R & K). rewrite (bind_ok _ _ _ _ _ R).
  assert (Hback : with_locked false s1 = s) by (destruct s; simpl in *; by subst).
  assert (Hfound : forall i p c, slot s i p c -> tid c = t -> p0 = p /\ p <> 0).
  { intros i p c Hs Hc. destruct K as [(j & d & Hj & Hd)|[-> Hno]]; [|by destruct (Hno i p c)]. change (slot s j p0 d) in Hj.
    assert (j = i) as -> by (by apply (a_tids _ H j i p0 p d c); [..|congruence]). destruct Hj as (E1 & _), Hs as (E2 & Hp & _). split; [congruence|done]. }
  split; [|split].
  - intros i p c Hs Hc Hr. destruct (Hfound i p c Hs Hc) as [-> Hp]. rewrite (proj2 (Z.eqb_neq p 0) Hp). cbn [negb]. pose proof Hs as (_ & _ & Ec). rewrite (bind_ok _ _ _ _ _ (rd_tcb_ok s1 p c Ec)), Hr.
    destruct (a_wait _ H i p c Hs) as [_ Hcv]. rewrite (Hcv Hr), Hc. cbn [app]. set (c' := mk_tcb (ktid c) t JOINED [me]). set (s2 := with_tcbs (<[p := c']> (tcbs s1)) s1).
    rewrite (bind_ok (wr_tcb p c') _ s1 tt s2 eq_refl), (bind_ok unlock _ s2 tt (with_locked false s2)) by done. exists (with_locked false s2). split; [done|].
    destruct (update_ok s (with_locked false s2) i p c c' H Hs) as (K1 & K2 & _); [by simpl|split; [simpl; lia|done]|done|done|]. done.
  - intros i p c Hs Hc Hr. destruct (Hfound i p c Hs Hc) as [-> Hp]. rewrite (proj2 (Z.eqb_neq p 0) Hp). cbn [negb]. pose proof Hs as (_ & _ & Ec). rewrite (bind_ok _ _ _ _ _ (rd_tcb_ok s1 p c Ec)), Hr.
    rewrite (bind_ok unlock _ s1 tt (with_locked false s1)) by done. by rewrite Hback.
  - intros Hno. destruct K as [(j & d & Hj & Hd)|[-> _]]; [by destruct (Hno j p0 d)|]. simpl. rewrite (bind_ok unlock _ s1 tt (with_locked false s1)) by done. by rewrite Hback.
Qed.

Lemma tl_finish_run s w t : locked s = false ->
  thr_join_finish w t s = Ok (match HTSpec.get (hash_exit s) t with Some v => (0, v) | None => (-1, 0) end, with_exit (HTSpec.remove (hash_exit s) t) s).
Proof.
  intros Hl. unfold thr_join_finish. rewrite (bind_ok _ _ s tt s); [done|].
  destruct w; [|done]. rewrite (bind_ok lock _ s tt (with_locked true s)) by (by apply lock_ok). unfold unlock. simpl. destruct s; simpl in *. by subst.
Qed.

(** ** The joins of one thread

    Thread [t] runs, exits with [status], and any number of threads call [thr_join] for
    it.  A call is in two parts, and anything may happen in between: a caller waits in
    [cond_wait] ([waiters]), or it is past it and will look for the status
    ([finishers], with whether it has waited).  A result is [Some v] when the call has
    returned 0 and stored [v], [None] when it has returned -1. *)
Section schedules.
Context (t esp status : Z).

Record joins := mk_joins { lib : tl V; waiters : list Z; finishers : list (Z * bool); results : list (Z * option Z); exited : bool }.

Inductive join_event := Call (me : Z) | Exit | Finish (k : nat).

Definition answered (r : Z * Z) : option Z := if r.1 =? 0 then Some r.2 else None.

Definition happens (e : join_event) (r : joins) : option joins :=
  match e with
  | Call me =>
      match thr_join me t (lib r) with
      | Ok (inl _, s) => Some (mk_joins s (waiters r) (finishers r) (results r ++ [(me, None)]) (exited r))
      | Ok (inr true, s) => Some (mk_joins s (waiters r ++ [me]) (finishers r) (results r) (exited r))
      | Ok (inr false, s) => Some (mk_joins s (waiters r) (finishers r ++ [(me, false)]) (results r) (exited r))
      | _ => None
      end
  | Exit =>
      if exited r then None else
      match thr_exit remove_pages esp status (lib r) with
      | Ok (woken, s) => Some (mk_joins s (filter (fun me => me ∉ woken) (waiters r)) (finishers r ++ ((fun me => (me, true)) <$> woken)) (results r) true)
      | _ => None
      end
  | Finish k =>
      match finishers r !! k with
      | Some (me, waited) =>
          match thr_join_finish waited t (lib r) with
          | Ok (v, s) => Some (mk_joins s (waiters r) (delete k (finishers r)) (results r ++ [(me, answered v)]) (exited r))
          | _ => None
          end
      | None => None
      end
  end.

Fixpoint schedule (l : list join_event) (r : joins) : option joins :=
  match l with [] => Some r | e :: l => match happens e r with Some r' => schedule l r' | None => None end end.

(** The thread can exit once, and only a caller that is there can finish. *)
Definition enabled (e : join_event) (r : joins) : Prop :=
  match e with Call _ => True | Exit => exited r = false | Finish k => (k < length (finishers r))%nat end.

(** The joins that have got a status, and these statuses. *)
Definition winners (r : joins) : list Z := omap snd (results r).

(** Before the exit. *)
Record before (i p a : Z) (rest : list Z) (r : joins) : Prop := {
  jb_slot : exists c, slot (lib r) i p c /\ tid c = t /\ cond_var c = waiters r /\ (tstate c = RUNNING \/ tstate c = JOINED);
  jb_esp : get_stack_position_index (stacks (lib r)) esp = i;
  jb_answers : answers (lib r) = a :: rest;
  jb_none : finishers r = [] /\ winners r = [];
  jb_hash : hash_exit (lib r) t = [] }.

(** After it: one status, in the table or with a joiner. *)
Record after (i : Z) (r : joins) : Prop := {
  ja_free : forall q d, ~ slot (lib r) i q d;
  ja_gone : forall i p c, slot (lib r) i p c -> tid c <> t;
  ja_waiters : waiters r = [];
  ja_one : (hash_exit (lib r) t = [status] /\ winners r = []) \/ (hash_exit (lib r) t = [] /\ winners r = [status]) }.

Record joins_ok (n i p a : Z) (rest : list Z) (r : joins) : Prop := {
  j_arr : arr_ok (lib r);
  j_lock : locked (lib r) = false;
  j_count : thread_count (lib r) = n;
  j_phase : if exited r then after i r else before i p a rest r }.

Lemma winners_snoc r me v : omap snd (results r ++ [(me, v)]) = winners r ++ match v with Some x => [x] | None => [] end.
Proof. unfold winners. rewrite omap_app. by destruct v. Qed.

Lemma call_ok n i p a rest r me : 0 <= t < n -> n < 2 ^ 32 -> joins_ok n i p a rest r -> exists r', happens (Call me) r = Some r' /\ joins_ok n i p a rest r'.
Proof.
  intros Ht Hn [Ha Hl Hc Hp]. destruct (join_run (lib r) me t Ha Hl ltac:(lia) ltac:(lia)) as (J1 & J2 & J3). simpl. destruct (exited r) eqn:Ex.
  - destruct Hp as [Hfr Hg Hw Ho]. rewrite (J3 Hg). eexists. split; [done|]. split; [done|done|done|]. cbn [exited]. by split.
  - destruct Hp as [(c & Hs & Htid & Hcv & Hst) He Hans [Hf Hwin] Hh]. destruct Hst as [Hst|Hst].
    + destruct (J1 i p c Hs Htid Hst) as (s' & R & Ha' & Hl' & Hs' & Hc' & Hh' & Hans' & Hst'). rewrite R. eexists. split; [done|].
      destruct (a_wait _ Ha i p c Hs) as [_ Hrun]. specialize (Hrun Hst). split; [done|done|simpl; congruence|]. cbn [exited]. split; cbn [lib waiters finishers results]; try done; try congruence.
      eexists. split; [exact Hs'|]. split; [done|]. split; [by rewrite <- Hcv, Hrun|by right].
    + rewrite (J2 i p c Hs Htid Hst). eexists. split; [done|]. split; [done|done|done|]. cbn [exited]. split; cbn [lib waiters finishers results]; try done; [by exists c; auto|].
      split; [done|]. unfold winners. cbn [results]. rewrite winners_snoc, Hwin. done.
Qed.

Lemma exit_ok n i p a rest r : a <> 0 -> joins_ok n i p a rest r -> exited r = false -> exists r', happens Exit r = Some r' /\ joins_ok n i p a rest r'.
Proof.
  intros Hna [Ha Hl Hc Hp] Ex. simpl. rewrite Ex in Hp |- *. destruct Hp as [(c & Hs & Htid & Hcv & Hst) He Hans [Hf Hwin] Hh].
  destruct (exit_run (lib r) esp status i p c a rest Ha Hl He Hs Hans Hna) as (s' & R & Ha' & Hl' & Hsl & Hc' & Hh'). rewrite R. eexists. split; [done|]. split; [done|done|simpl; congruence|].
  cbn [exited]. destruct (a_wait _ Ha i p c Hs) as [_ Hrun]. split; cbn [lib waiters results].
  - by intros q d [_ ?]%Hsl.
  - intros j q d [Hj Hne]%Hsl Et. apply Hne. apply (a_tids _ Ha j i q p d c); [done|done|congruence].
  - assert (Ew : match tstate c with JOINED => cond_var c | RUNNING => [] end = waiters r) by (destruct Hst as [E|E]; rewrite E; [by rewrite <- Hcv, (Hrun E)|done]).
    rewrite Ew. destruct (filter _ (waiters r)) as [|y l] eqn:El; [done|]. assert (Hy : y ∈ y :: l) by apply list_elem_of_here. rewrite <- El in Hy. by apply list_elem_of_filter in Hy as [? ?].
  - left. split; [|done]. rewrite Hh', Htid. unfold HTSpec.put. by rewrite Z.eqb_refl, Hh.
Qed.

Lemma finish_ok n i p a rest r k : joins_ok n i p a rest r -> (k < length (finishers r))%nat -> exists r', happens (Finish k) r = Some r' /\ joins_ok n i p a rest r'.
Proof.
  intros [Ha Hl Hc Hp] Hk. simpl. destruct (lookup_lt_is_Some_2 _ _ Hk) as [[me w] E]. rewrite E, (tl_finish_run (lib r) w t Hl).
  assert (Ex : exited r = true) by (destruct (exited r); [done|]; destruct Hp as [_ _ _ [Hf _] _]; by rewrite Hf in E). rewrite Ex in Hp.
  destruct Hp as [Hfr Hg Hw Ho]. eexists. split; [done|]. split; [by apply (arr_ok_same (lib r))|done|done|]. cbn [exited]. rewrite Ex. split; cbn [lib waiters results]; [done|done|done|].
  right. unfold HTSpec.remove, HTSpec.get, winners. simpl hash_exit. rewrite Z.eqb_refl. cbn [results]. rewrite winners_snoc.
  destruct Ho as [[-> ->]|[-> ->]]; done.
Qed.

Lemma schedule_ok n i p a rest l : 0 <= t < n -> n < 2 ^ 32 -> a <> 0 -> forall r r', joins_ok n i p a rest r -> schedule l r = Some r' -> joins_ok n i p a rest r'.
Proof.
  intros Ht Hn Hna. induction l as [|e l IH]; intros r r' H; [by intros [= <-]|]. cbn [schedule]. destruct (happens e r) as [r1|] eqn:E; [|done]. apply IH.
  destruct e as [me| |k].
  - destruct (call_ok n i p a rest r me Ht Hn H) as (r2 & E2 & H2). congruence.
  - assert (Ex : exited r = false) by (simpl in E; by destruct (exited r)). destruct (exit_ok n i p a rest r Hna H Ex) as (r2 & E2 & H2). congruence.
  - assert (Hk : (k < length (finishers r))%nat) by (simpl in E; destruct (finishers r !! k) eqn:Ek; [by eapply lookup_lt_Some|done]).
    destruct (finish_ok n i p a rest r k H Hk) as (r2 & E2 & H2). congruence.
Qed.

(** (C40) An exit status is given to exactly one join.  Thread [t] runs, and any number of
    threads call [thr_join] for it, before and after it exits, in any order.  No call
    fails to return but by waiting for the exit.  Before the exit no join has got a
    status, at most one call waits, and the others were refused.  The exit wakes the one
    that waits and frees the slot.  From then on the status is either still in the
    table and no join has got it, or one join, and only one, has got it: the first to
    look for it.  (This need not be the one that waited: see [join_race].) *)
Theorem thr_join_gets_status s i p c a rest l r : arr_ok s -> locked s = false -> a <> 0 -> answers s = a :: rest ->
  get_stack_position_index (stacks s) esp = i -> slot s i p c -> tid c = t -> tstate c = RUNNING -> 0 <= t < thread_count s -> thread_count s < 2 ^ 32 -> hash_exit s t = [] ->
  schedule l (mk_joins s [] [] [] false) = Some r ->
  (forall e, enabled e r -> is_Some (happens e r)) /\
  if exited r then waiters r = [] /\ (forall q d, ~ slot (lib r) i q d) /\
    ((hash_exit (lib r) t = [status] /\ winners r = []) \/ (hash_exit (lib r) t = [] /\ winners r = [status])) /\
    (forall k r', happens (Finish k) r = Some r' -> winners r' = [status])
  else winners r = [] /\ finishers r = [] /\ (length (waiters r) <= 1)%nat.
Proof.
  intros Ha Hl Hna Hans He Hs Hc Hr Ht Hn Hh Hsch.
  assert (H0 : joins_ok (thread_count s) i p a rest (mk_joins s [] [] [] false)).
  { split; [done|done|done|]. cbn [exited]. split; cbn [lib waiters finishers results]; try done. exists c. split; [done|]. split; [done|]. split; [by apply (a_wait _ Ha i p c Hs)|by left]. }
  pose proof (schedule_ok _ _ _ _ _ _ Ht Hn Hna _ _ H0 Hsch) as H. split.
  - intros [me| |k] En.
    + destruct (call_ok _ _ _ _ _ r me Ht Hn H) as (r' & -> & _). by eexists.
    + destruct (exit_ok _ _ _ _ _ r Hna H En) as (r' & -> & _). by eexists.
    + destruct (finish_ok _ _ _ _ _ r k H En) as (r' & -> & _). by eexists.
  - pose proof H as [Ha' Hl' _ Hp]. destruct (exited r) eqn:Ex.
    + destruct Hp as [Hfr Hg Hw Ho]. split; [done|]. split; [|split; [done|]].
      * exact Hfr.
      * intros k r' E. assert (Hk : (k < length (finishers r))%nat) by (simpl in E; destruct (finishers r !! k) eqn:Ek; [by eapply lookup_lt_Some|done]).
        simpl in E. destruct (lookup_lt_is_Some_2 _ _ Hk) as [[me w] El]. rewrite El, (tl_finish_run (lib r) w t Hl') in E. injection E as <-.
        unfold winners. cbn [results]. rewrite winners_snoc. unfold HTSpec.get. destruct Ho as [[-> ->]|[-> ->]]; done.
    + destruct Hp as [(c' & Hs' & _ & Hcv & _) _ _ [Hf Hwin] _]. split; [done|]. split; [done|]. rewrite <- Hcv. apply (a_wait _ Ha' i p c' Hs').
Qed.
End schedules.
End join_exit.
End proofs.

(** ** Three slots: thread 5 is in slot 2, slot 1 is free *)
Definition demo : tl pages :=
  mk_tl (mk_array 4 3 (<[0 := 100]> (<[2 := 200]> (zeros 4))) [1]) (<[100 := mk_tcb 1 0 RUNNING []]> (<[200 := mk_tcb 9 5 RUNNING []]> ∅)) [300; 400] false 6 HTSpec.empty ThrStacks.demo.

Lemma demo_data i p : data (array demo) !! i = Some p -> (i = 0 /\ p = 100) \/ (i = 2 /\ p = 200) \/ (p = 0 /\ (i = 1 \/ i = 3)).
Proof.
  simpl. rewrite lookup_insert. case_decide as D0; [intros [= <-]; by left|]. rewrite lookup_insert. case_decide as D2; [intros [= <-]; right; by left|].
  intros E. assert (Hi : 0 <= i < 4) by (apply zeros_dom; by exists p). rewrite zeros_lookup in E by done. injection E as <-. right. right. split; [done|lia].
Qed.

Lemma demo_slot i p c : slot demo i p c -> (i = 0 /\ p = 100 /\ c = mk_tcb 1 0 RUNNING []) \/ (i = 2 /\ p = 200 /\ c = mk_tcb 9 5 RUNNING []).
Proof.
  intros (E & Hp & Ec). destruct (demo_data i p E) as [[-> ->]|[[-> ->]|[-> _]]]; [left|right|done]; (split; [done|]; split; [done|]); vm_compute in Ec; by injection Ec as <-.
Qed.

Lemma demo_ok : arr_ok demo.
Proof.
  split.
  - simpl. lia.
  - intros i. simpl. rewrite !lookup_insert. split.
    + destruct (decide (0 = i)), (decide (2 = i)); [lia..|]. apply zeros_dom.
    + intros Hi. destruct (decide (0 = i)); [by eexists|]. destruct (decide (2 = i)); [by eexists|]. by apply zeros_dom.
  - intros i p E Hp. destruct (demo_data i p E) as [[-> ->]|[[-> ->]|[-> _]]]; [..|done]; (split; [simpl; lia|]); by eexists.
  - intros i. split; [intros ->%list_elem_of_singleton; split; [simpl; lia|reflexivity]|]. intros [Hi E]. simpl in Hi. apply list_elem_of_singleton.
    destruct (demo_data i 0 E) as [[_ ?]|[[_ ?]|[_ ?]]]; [done|done|lia].
  - apply NoDup_singleton.
  - intros i j p E1 E2 Hp. destruct (demo_data i p E1) as [[-> ->]|[[-> ->]|[-> _]]], (demo_data j _ E2) as [[-> ?]|[[-> ?]|[? _]]]; done.
  - intros i j p q c d [(-> & _ & ->)|(-> & _ & ->)]%demo_slot [(-> & _ & ->)|(-> & _ & ->)]%demo_slot E; done.
  - intros i p c [(-> & _ & ->)|(-> & _ & ->)]%demo_slot; (split; [simpl; lia|done]).
Qed.

Lemma arraytcb_insert_witness : exists s', arraytcb_insert_thread 7 6 demo = Ok (1, s') /\ slot s' 1 300 (mk_tcb 7 6 RUNNING []) /\ forall q d, ~ slot demo 1 q d.
Proof.
  destruct (arraytcb_insert_correct demo 7 6 300 [400]) as (r & s' & R & _ & K).
  - exact demo_ok.
  - reflexivity.
  - reflexivity.
  - reflexivity.
  - reflexivity.
  - intros j q d [(-> & _ & ->)|(-> & _ & ->)]%demo_slot; discriminate.
  - assert (Er : outcome (arraytcb_insert_thread 7 6 demo) = Some 1) by (vm_compute; reflexivity). rewrite R in Er. simpl in Er. injection Er as ->.
    destruct K as [(_ & _ & _ & _ & Hs & Hno & _)|[? _]]; [|discriminate]. exists s'. split; [exact R|]. split; [exact Hs|exact Hno].
Defined.

(** Words can be stored in mapped pages; the kernel's id of the new thread is 77. *)
Definition store_word (a x : Z) : M pages unit := fun v => if has v (a / 4096) && has v ((a + 3) / 4096) then Ok (tt, v) else Fault.
Definition fork_77 (esp : Z) : M pages Z := mret 77.
Definition with_room (r : Z) : tl pages := with_stacks (set_vm (mk_pages ∅ r) ThrStacks.demo) demo.

Lemma store_word_mapped v a x : has v (a / 4096) = true -> has v ((a + 3) / 4096) = true -> exists v', store_word a x v = Ok (tt, v') /\ forall k, has v' k = has v k.
Proof. intros E1 E2. unfold store_word. rewrite E1, E2. by exists v. Qed.

#[local] Abbreviation create r := (thr_create no_swexn no_free store_word fork_77 9 555 (with_room r)).

(** Without memory for the stack, the word below the address -12 is stored: a fault,
    unless something else, such as the stack of the root thread, is mapped there. *)
Theorem thr_create_oom : create 0 = Fault.
Proof. vm_compute. reflexivity. Qed.

(** The only error that is a multiple of 4 is the lack of memory. *)
Lemma refused_oom lo hi err : refused (V := pages) lo hi err -> err mod 4 = 0 -> err = -12.
Proof.
  intros (Herr & v & v' & k & n & _ & _ & _ & R) E. cbn [new_pages pages_user] in R.
  destruct (negb _); [injection R as <- _; discriminate E|]. destruct (_ <? _); injection R as <- _; [reflexivity|lia].
Qed.

Lemma with_room_facts r : arr_ok (with_room r) /\ (forall j q d, slot (with_room r) j q d -> tid d <> 6) /\ (exists q d, slot (with_room r) 0 q d) /\ layout (stacks (with_room r)) 10 /\
  forall k, has (vm (stacks (with_room r))) k = false.
Proof.
  split; [by apply (arr_ok_same demo); [exact demo_ok|..]|]. split; [intros j q d [(_ & _ & ->)|(_ & _ & ->)]%(demo_slot j q d); discriminate|].
  split; [by exists 100, (mk_tcb 1 0 RUNNING [])|]. split; [destruct demo_layout; by split|]. intros k. by apply bool_decide_eq_false.
Qed.


(** Thread 3 waits for thread 5, which exits; before thread 3 runs again, a call of
    thread 4 takes the status.  Thread 3 is told that there is none. *)
#[local] Abbreviation esp5 := (stack_low ThrStacks.demo 2 + 100).
#[local] Abbreviation keep := (fun _ => mret 0 : M pages Z).
Definition race : list join_event := [Call 3; Exit; Call 4; Finish 1; Finish 0].

Theorem join_race :
  (results <$> schedule keep 5 esp5 42 race (mk_joins demo [] [] [] false)) = Some [(4, Some 42); (3, None)].
Proof. vm_compute. reflexivity. Qed.

Lemma thr_join_witness : exists r, schedule keep 5 esp5 42 [Call 3; Call 4; Exit; Finish 0; Call 4; Finish 0] (mk_joins demo [] [] [] false) = Some r /\ winners r = [42] /\
  results r = [(4, None); (3, Some 42); (4, None)].
Proof.
  assert (E : (fun r => (exited r, results r)) <$> schedule keep 5 esp5 42 [Call 3; Call 4; Exit; Finish 0; Call 4; Finish 0] (mk_joins demo [] [] [] false) = Some (true, [(4, None); (3, Some 42); (4, None)])) by (vm_compute; reflexivity).
  destruct (schedule keep 5 esp5 42 [Call 3; Call 4; Exit; Finish 0; Call 4; Finish 0] (mk_joins demo [] [] [] false)) as [r|] eqn:R; [|discriminate E]. exists r. split; [reflexivity|].
  injection E as Ex Er.
  destruct (thr_join_gets_status keep (fun b v => ex_intro _ 0 (ex_intro _ v eq_refl)) 5 esp5 42 demo 2 200 (mk_tcb 9 5 RUNNING []) 300 [400] _ r demo_ok eq_refl ltac:(lia) eq_refl
    ltac:(vm_compute; reflexivity) ltac:(split; [reflexivity|]; split; [discriminate|reflexivity]) eq_refl eq_refl ltac:(simpl; lia) ltac:(simpl; lia) eq_refl R) as [_ K].
  rewrite Ex in K. destruct K as (_ & _ & [[_ K]|[_ K]] & _); [|split; [exact K|exact Er]].
  exfalso. unfold winners in K. rewrite Er in K. discriminate K.
Defined.
End ThrLib.
